(* ===== verification/_CoqProject ===== *)
-Q . S2P
Prelude.v
GoRuntime.v
GoStrings.v
ObjectGuid.v
GuidDiapasons.v
GuidService.v
GuildCache.v
Guilds.v
GroupCache.v
Groups.v
GameServerRepo.v
GatewayRepo.v
BinPack.v
Registry.v
GameServers.v
Gateways.v
Battleground.v
BattlegroundQueue.v
MatchmakingState.v
BattlegroundRepo.v
Matchmaking.v
Safety.v
MatchmakingSafety.v
MatchmakingFacts.v
ChannelsRepo.v
Channels.v
ChannelFacts.v
ChannelManager.v
ChatSessions.v
ChatServer.v
ChatSafety.v
ChatFacts.v
Bytes.v
Packet.v
Crypto.v
Srp6.v
AuthRepo.v
AuthSession.v
AuthFacts.v
AuthRuns.v
OnlineCharacters.v
Friends.v
CharRepo.v
CharServer.v
CharFacts.v
MailRepo.v
MailService.v
MailFacts.v
MailCleanup.v
MailMoney.v
PacketsReader.v
GameSocket.v
ChatStreams.v
Broadcaster.v
BroadcasterFacts.v
UpdatesBarrier.v
Opcodes.v
SessionApi.v
SessionState.v
SessionGuild.v
SessionGroups.v
SessionSocial.v
SessionMail.v
SessionChannels.v
SessionWorld.v
SessionChat.v
Session.v
SessionRules.v
SessionKeeps.v
SessionFacts.v
SessionLogin.v
SessionMailFacts.v
SessionWorldFacts.v
SessionRuns.v
GuidProvider.v
SidecarApi.v
SidecarEvents.v
WorldDb.v
SocialServers.v
Proxy.v
