(* ===== verification/Prelude.v ===== *)
(** * Verification of the ToCloud9 cluster (athena-wow-cluster)

    The repository under src/ splits a World of Warcraft 3.3.5 server into
    services: the Go programs of src/apps, which talk gRPC to one another,
    publish events on NATS and store rows in MySQL and Redis.  A game client
    logs in at the authserver, connects to a gateway, and is forwarded by it
    to a game server; everything that players of different game servers share
    (guilds, groups, chat channels, friends, mail, battleground queues, ranges
    of free guids) lives in a service.  This library models the logic of those
    services, file by file, and proves what makes it correct.

    ** Files and what they model

    Shared by all: [Prelude] (machine integers, the monad of the handlers,
    lists); [GoRuntime] (ranging over maps in any order, sort.Slice,
    sort.Search, floats); [GoStrings] (store keys, decimal numbers,
    strings.Split); [Bytes] (binary.LittleEndian, big numbers); [Safety]
    (predicates on the runs of a handler).  [ObjectGuid] is
    shared/wow/guid.

    - guidserver: [GuidDiapasons] (service/guid-diapasons.go), [GuidService]
      (service/guid.go and the Redis counter), with every interleaving of
      clients, workers and answers as a step relation.
    - servers-registry: [GameServerRepo], [GatewayRepo] (repo/), [BinPack]
      (mapbalancing/binpack), [Registry] (health checks, metrics and
      events), [GameServers], [Gateways] (service/, server/).
    - guildserver: [GuildCache] (repo/, the cache), [Guilds] (service/).
    - groupserver: [GroupCache], [Groups], in the same way.  [SocialServers]
      has the gRPC handlers of both servers (server/), on the requests of the
      gateways.
    - worlddbserver: [WorldDb] (repo/, server/, and its client in libsidecar).
    - matchmakingserver: [Battleground], [BattlegroundQueue],
      [MatchmakingState], [BattlegroundRepo] and [Matchmaking] (battleground/,
      repo/, service/, server/), [MatchmakingSafety] and [MatchmakingFacts].
    - chatserver: [ChannelsRepo], [Channels], [ChannelManager],
      [ChatSessions], [ChatServer], with [ChannelFacts], [ChatSafety] and
      [ChatFacts].
    - authserver: [Crypto] (SHA-1; also the RC4 of gateway/crypto), [Srp6] (crypto/srp6), [AuthRepo] (repo/, the realm
      list), [AuthSession] (session/), with [AuthFacts] and [AuthRuns].
    - charserver: [OnlineCharacters], [Friends], [CharRepo], [CharServer],
      with [CharFacts].
    - mailserver: [MailRepo], [MailService], with [MailFacts], [MailCleanup],
      and [MailMoney].
    - gateway, below the sessions: [Packet] (packet/), [PacketsReader] and
      [GameSocket] (sockets/, with what they promise), [ChatStreams] and
      [Broadcaster] (events-broadcaster/ and the listeners of service/),
      [UpdatesBarrier] (service/), with [BroadcasterFacts].
    - gateway, the sessions (session/): [Opcodes], [SessionApi] (the requests to
      the services), [SessionState] (the state and the calls), the handlers
      by file in [SessionGuild], [SessionGroups], [SessionSocial],
      [SessionMail], [SessionChannels], [SessionWorld] (game servers,
      battlegrounds) and [SessionChat], the tables and the loop in [Session].
      [SessionRules] and [SessionKeeps] reason about all handlers of the
      tables at once; [SessionFacts], [SessionLogin], [SessionMailFacts] and
      [SessionWorldFacts] have the theorems, [SessionRuns] concrete sessions.
    - libsidecar, the Go library inside a game server: [GuidProvider] (guids/),
      [SidecarApi] (grpcapi/, queue/, the requests the main loop of the server
      runs) and [SidecarEvents] (consumer/, the hooks of the server).
    - mysqlreverseproxy: [Proxy] (sqlparser/, proxy/), the search for guids in
      statements, their way to the realms, and the transactions.

    Components meet where the code lets them meet: the realm list of the
    authserver calls the handlers of [Gateways]; [CharServer] feeds
    [OnlineCharacters] and [Friends] with the same events; the listeners of
    the gateway carry the events of [Guilds], [Groups], [Friends], [MailRepo]
    and [ChannelsRepo] to the [Broadcaster]; the packs of [UpdatesBarrier]
    reach the handler of [OnlineCharacters]; [SocialServers] answers the requests
    of [SessionApi] with [Guilds] and [Groups]; [GuidProvider] consumes the
    ranges of [GuidDiapasons]; [SidecarEvents] turns the events of [Guilds],
    [Groups] and [Registry] into hook calls; the sessions register with the
    [Broadcaster] and join the [ChatStreams] of their gateway.  Interfaces of the source
    (repositories, stores) are records of operations with a record of laws;
    clients are proved against the laws, implementations discharge them.

    ** How the code is modelled

    A handler is a term of the monad [go] below: it has the state of its
    component, a schedule that decides for every external call whether it
    fails, and the list of events it has produced; it returns, fails with an
    error, or panics.  A nil dereference, a write to a nil map, an index out
    of range, a send on a closed channel and a failed type assertion are
    panics.  Go integers are [Z] with their wrap-around written out; a number
    of the wire keeps its width.  Where the code shares an object through
    pointers and changes it, the object lives in a heap (guild members,
    groups' backing arrays, game servers, queues, battlegrounds, characters
    online, Go channels); where a pointer is only ever followed, the map holds
    the value.  The order in which Go ranges over a map, and in which
    sort.Slice leaves equal elements, is any admissible one ([MapRange],
    [SortSlice]): a theorem holds for all of them.

    A session of the gateway is a state with the inputs of its loop: a packet of
    the client or of the game server, an event, a closure, a goroutine it
    started, the passing of time, its end.  A request to a service is an event
    of its run, can fail, and is answered by a function of the request and of
    the number of events before it, of which nothing is assumed but where a
    theorem says so ([complete]: the parts of a message that every service
    fills in).  What a game server says while a handler waits for it is a tape.

    Loops that are not structural take fuel, and a theorem says that the fuel
    given is enough: the binary search of [GoRuntime] (the length of the
    interval), the retries of [increaseKey] (a retry means another client
    raised the counter), the brackets of a queue (eight of them), the links of
    a player (the length of the slice at the start), the bytes of a packed
    guid (eight), the queues of a game server's main loop (their length), a login session (the bytes of the input), the words of a
    SHA-1 message, the 23 slots of the equipment text, and the packets of a
    stream (each [Read] takes a segment or a byte).

    ** What the theorems show

    - Safety of what is handed out: ranges of guids never overlap, a banned
      player stays out of a channel, nobody logs in without a proof, the world
      connection belongs to the account whose key it proved, the mail
      service creates no money, a session acts for its own character only, nobody
      leaves or joins a guild but by a request that may do so, and a mail is sent after it was paid, an item given after its price.
    - Invariants under every request, event and failing call: owners of
      channels, member index and member lists of guilds, bounds of the friends
      lists, well-formed queues and battlegrounds, the channels of a session,
      no panics in the chat and the matchmaking server or, for a session in
      good order, in the gateway.
    - Refinement: pairs of indexes and string-keyed maps implement one finite
      map (battlegrounds, chat sessions, characters online, chat streams); the
      two views of who is online agree; a pack of updates does what the single
      updates do; with one realm the late transactions of the proxy are the
      client's.
    - Functional behaviour on every branch: distribution of maps, matching of
      teams, who queries, mailboxes, cleanup of expired mail, friends, SRP6,
      delivery of events, logging in and out of a gateway, the order of
      battleground invites, the way of a statement about a character to
      the database of his realm.
    - Round trips: packets, encrypted streams, mails, channels in the
      database, the creature templates from the table to the game server.
    - Termination and liveness: sessions end, a blocked caller of the guid
      server has a request in flight, a game server gets its next guids in
      time, its main loop runs every request of the gateway, an honest client
      logs in, a session that loses its game server finds another one.
    - What goes wrong: the examples at the ends of the [...Facts] and
      [...Runs] files run the code on inputs where it does not do what it
      means to (unknown accounts that end the process, lost updates, leaked
      subscriptions, mixed-up realms and others).

    ** Assumptions

    A mutex that an operation holds for its whole body makes it one step; what
    can run between two operations is left to the order of the steps.
    Goroutines with a loop are one operation per iteration.  The clock stands
    still within a step.  Random numbers, instance ids and the outcomes of
    dialling are tapes; a send to a full channel that would block is an
    outcome of its own.  A transaction takes effect at its commit.  JSON,
    protobuf and SQL texts stand for their fields.  Text is ASCII where the
    code changes its case.  Floats are computed by [SpecFloat] where the code
    computes with them, and are their bits where it only passes them on.
    Parameters stand for what is not in the repository: the collation of the
    databases, the account table of the game, zlib, whether the MySQL driver
    reports matched or changed rows, what the C++ game server does in its
    handlers, which pools the guid server grants, where a gRPC stream breaks, the tree
    that the SQL parser makes of a statement (for theorems, of the statements
    about one table in [Proxy.parses]).

    ** Not modelled

    The names of the opcodes, and the opcodes nobody uses; the listener of the
    MySQL reverse proxy; perun, which starts and watches processes; the C++ game
    server, whose registered functions are parameters of [SidecarApi] and
    [WorldDb]; gRPC adapters that only convert messages, debug loggers,
    configuration and main functions; generated code; the polling goroutines
    of the health checker and the Prometheus decoding of the metrics. *)
From stdpp Require Export base tactics list gmap fin_maps strings sorting.
From Stdlib Require Export ZArith Lia.

#[global] Open Scope Z_scope.

(** ** Machine integers

    Go's unsigned integers are kept as [Z] in range; every place where the
    source can leave the range wraps explicitly. *)
Abbreviation u8 := Z (only parsing).
Abbreviation u16 := Z (only parsing).
Abbreviation u32 := Z (only parsing).
Abbreviation u64 := Z (only parsing).
Abbreviation int := Z (only parsing).

Definition wrap (w x : Z) : Z := x mod 2 ^ w.
Abbreviation wrap8 := (wrap 8).
Abbreviation wrap16 := (wrap 16).
Abbreviation wrap32 := (wrap 32).
Abbreviation wrap64 := (wrap 64).

Definition in_range (w x : Z) : Prop := 0 <= x < 2 ^ w.

Lemma wrap_small w x : in_range w x -> wrap w x = x.
Proof. intros H. unfold wrap. apply Z.mod_small, H. Qed.

Lemma wrap_range w x : 0 <= w -> in_range w (wrap w x).
Proof. intros H. unfold wrap, in_range. apply Z.mod_pos_bound. lia. Qed.

(** [len l] is Go's [len(l)]. *)
Definition len {A} (l : list A) : int := Z.of_nat (length l).

(** ** The effect monad of the handlers

    A Go handler reads and writes its component's state, calls out to stores
    and to the message bus (either call can fail), returns an error, or
    panics.  [sys C E] is the state of a run: the component's own state, the
    schedule of outcomes of the external calls still to come ([true] = that
    call fails; an exhausted schedule means success), and the events produced
    so far.  Errors and panics keep the state reached when they occur, as Go
    does: nothing is rolled back. *)
Record sys (C E : Type) := Sys {
  st : C;
  faults : list bool;
  events : list E
}.
Arguments Sys {C E} _ _ _.
Arguments st {C E} _.
Arguments faults {C E} _.
Arguments events {C E} _.

Inductive outcome (X A : Type) :=
| Ok (a : A)
| Fail (e : X)
| Panic.
Arguments Ok {X A} _.
Arguments Fail {X A} _.
Arguments Panic {X A}.

Definition go (C E X A : Type) : Type := sys C E -> outcome X A * sys C E.

#[export] Instance go_ret {C E X} : MRet (go C E X) := fun A a s => (Ok a, s).
#[export] Instance go_bind {C E X} : MBind (go C E X) := fun A B k m s =>
  match m s with
  | (Ok a, s') => k a s'
  | (Fail e, s') => (Fail e, s')
  | (Panic, s') => (Panic, s')
  end.

Definition fail {C E X A} (e : X) : go C E X A := fun s => (Fail e, s).
Definition panic {C E X A} : go C E X A := fun s => (Panic, s).
Definition gets {C E X A} (f : C -> A) : go C E X A := fun s => (Ok (f (st s)), s).
Definition modify {C E X} (f : C -> C) : go C E X unit := fun s =>
  (Ok tt, Sys (f (st s)) (faults s) (events s)).
(** Dereference of a pointer that may be nil. *)
Definition deref {C E X A} (o : option A) : go C E X A :=
  match o with Some a => mret a | None => panic end.
(** One external call that returns [error]. *)
Definition ext {C E X} (e : X) : go C E X unit := fun s =>
  match faults s with
  | true :: fs => (Fail e, Sys (st s) fs (events s))
  | false :: fs => (Ok tt, Sys (st s) fs (events s))
  | [] => (Ok tt, s)
  end.
(** Publish an event; on failure nothing is published. *)
Definition publish {C E X} (err : X) (e : E) : go C E X unit := fun s =>
  match ext err s with
  | (Ok u, s') => (Ok u, Sys (st s') (faults s') (events s' ++ [e]))
  | r => r
  end.
(** [if err != nil { log ... }]: the error is only logged. *)
Definition log_err {C E X} (m : go C E X unit) : go C E X unit := fun s =>
  match m s with
  | (Fail _, s') => (Ok tt, s')
  | r => r
  end.
(** [fmt.Errorf("...: %w", err)] *)
Definition wrap_err {C E X A} (f : X -> X) (m : go C E X A) : go C E X A := fun s =>
  match m s with
  | (Fail e, s') => (Fail (f e), s')
  | r => r
  end.
(** The error is looked at and dropped: [None] stands for it. *)
Definition try_err {C E X A} (m : go C E X A) : go C E X (option A) := fun s =>
  match m s with
  | (Ok a, s') => (Ok (Some a), s')
  | (Fail _, s') => (Ok None, s')
  | (Panic, s') => (Panic, s')
  end.
(** Run on a part of the state. *)
Definition zoom {C D E X A} (get : C -> D) (put : D -> C -> C) (m : go D E X A) : go C E X A := fun s =>
  let '(o, s') := m (Sys (get (st s)) (faults s) (events s)) in
  (o, Sys (put (st s') (st s)) (faults s') (events s')).
(** [if p == nil { return e }] *)
Definition not_nil {C E X A} (e : X) (o : option A) : go C E X A :=
  match o with Some a => mret a | None => fail e end.
(** [if c { return e }] *)
Definition guard_err {C E X} (c : bool) (e : X) : go C E X unit :=
  if c then fail e else mret tt.

Definition run_ok {X A S} (r : outcome X A * S) : Prop := exists a, r.1 = Ok a.

(** Evaluate closed powers of two, so that [lia] sees numerals. *)
Ltac eval_pow2 :=
  repeat match goal with
  | |- context [2 ^ ?n] => let v := eval vm_compute in (2 ^ n) in progress change (2 ^ n) with v
  | H : context [2 ^ ?n] |- _ =>
      let v := eval vm_compute in (2 ^ n) in progress change (2 ^ n) with v in H
  end.

(** Arithmetic on machine words: unfold the range and wrap-around, then [lia]. *)
Ltac word_lia :=
  unfold wrap, in_range in *; eval_pow2; Z.to_euclidean_division_equations; lia.

(** Bits of disjoint parts. *)
Lemma testbit_above n a i : in_range n a -> n <= i -> 0 <= n -> Z.testbit a i = false.
Proof.
  intros [Ha1 Ha2] Hi Hn. destruct (decide (a = 0)) as [->|]; [apply Z.bits_0|].
  apply Z.bits_above_log2; [done|]. apply Z.log2_lt_pow2; [lia|].
  apply Z.lt_le_trans with (2 ^ n); [done|]. apply Z.pow_le_mono_r; lia.
Qed.

Lemma lor_shiftl_add a b n :
  0 <= n -> in_range n a -> Z.lor a (Z.shiftl b n) = a + b * 2 ^ n.
Proof.
  intros Hn Ha. rewrite Z.shiftl_mul_pow2 by lia.
  assert (Hd : Z.land a (b * 2 ^ n) = 0).
  { apply Z.bits_inj'. intros i Hi. rewrite Z.land_spec, Z.bits_0.
    destruct (Z.lt_ge_cases i n).
    - rewrite Z.mul_pow2_bits_low by lia. apply andb_false_r.
    - by rewrite (testbit_above n a i). }
  by rewrite <- Z.lxor_lor, <- Z.add_nocarry_lxor.
Qed.
Lemma land_bit a i : 0 <= i -> (Z.land a (Z.shiftl 1 i) =? 0) = negb (Z.testbit a i).
Proof.
  intros Hi. rewrite Z.shiftl_1_l. destruct (Z.testbit a i) eqn:E; simpl.
  - apply Z.eqb_neq. intros E0. assert (Hb : Z.testbit (Z.land a (2 ^ i)) i = false) by (by rewrite E0, Z.bits_0).
    by rewrite Z.land_spec, E, Z.pow2_bits_true in Hb.
  - apply Z.eqb_eq, Z.bits_inj_0. intros n. rewrite Z.land_spec. destruct (decide (n = i)) as [->|Hne]; [by rewrite E|].
    rewrite Z.pow2_bits_false by done. apply andb_false_r.
Qed.

(** Sums over a list. *)
Definition zsum {A} (f : A -> Z) (l : list A) : Z := foldr (fun x acc => f x + acc) 0 l.
Lemma zsum_app {A} (f : A -> Z) l k : zsum f (l ++ k) = zsum f l + zsum f k.
Proof. induction l as [|x l IH]; simpl; [done|]. rewrite IH. lia. Qed.
Lemma zsum_perm {A} (f : A -> Z) l k : l ≡ₚ k -> zsum f l = zsum f k.
Proof. induction 1; simpl; lia. Qed.
#[export] Instance zsum_Proper {A} (f : A -> Z) : Proper ((≡ₚ) ==> eq) (zsum f).
Proof. intros l k. apply zsum_perm. Qed.
Lemma zsum_fmap {A B} (f : B -> Z) (g : A -> B) l : zsum f (g <$> l) = zsum (fun x => f (g x)) l.
Proof. induction l as [|x l IH]; simpl; [done|]. by rewrite <- IH. Qed.
Lemma zsum_ext {A} (f g : A -> Z) l : (forall x, x ∈ l -> f x = g x) -> zsum f l = zsum g l.
Proof.
  induction l as [|x l IH]; intros Hfg; simpl; [done|].
  rewrite Hfg by left. rewrite IH; [done|]. intros y Hy. apply Hfg. by right.
Qed.
Lemma zsum_nonneg {A} (f : A -> Z) l : (forall x, x ∈ l -> 0 <= f x) -> 0 <= zsum f l.
Proof.
  induction l as [|x l IH]; intros Hf; simpl; [done|].
  assert (0 <= f x) by (apply Hf; left). assert (0 <= zsum f l) by (apply IH; intros; apply Hf; by right). lia.
Qed.
Lemma zsum_elem_le {A} (f : A -> Z) l x : (forall x, x ∈ l -> 0 <= f x) -> x ∈ l -> f x <= zsum f l.
Proof.
  intros Hf (l1 & l2 & ->)%list_elem_of_split. rewrite zsum_app. simpl.
  assert (0 <= zsum f l1) by (apply zsum_nonneg; intros; apply Hf; set_solver).
  assert (0 <= zsum f l2) by (apply zsum_nonneg; intros; apply Hf; set_solver). lia.
Qed.

(** An element is determined by a key that occurs once. *)
Lemma NoDup_key_unique {A B} (f : A -> B) (l : list A) x y :
  NoDup (f <$> l) -> x ∈ l -> y ∈ l -> f x = f y -> x = y.
Proof.
  intros Hnd (i & Hi)%list_elem_of_lookup (j & Hj)%list_elem_of_lookup E.
  assert (i = j) as ->; [|congruence].
  apply (NoDup_lookup _ i j (f x) Hnd); rewrite list_lookup_fmap; [by rewrite Hi|by rewrite Hj, E].
Qed.

(** Concatenations. *)
Lemma fmap_concat {A B} (f : A -> B) (l : list (list A)) :
  f <$> concat l = concat (fmap (M:=list) f <$> l).
Proof. induction l as [|x l IH]; simpl; [done|]. by rewrite fmap_app, IH. Qed.
Lemma concat_fmap_perm {A B} (f g : A -> list B) (l : list A) :
  (forall x, f x ≡ₚ g x) -> concat (f <$> l) ≡ₚ concat (g <$> l).
Proof. intros Hfg. induction l as [|x l IH]; simpl; [done|]. by rewrite Hfg, IH. Qed.
Lemma concat_fmap_perm_l {A B} (f : A -> list B) (l k : list A) : l ≡ₚ k -> concat (f <$> l) ≡ₚ concat (f <$> k).
Proof. induction 1; simpl; [done|by f_equiv|by rewrite !app_assoc, (Permutation_app_comm (f y))|by etransitivity]. Qed.
Lemma concat_nils {A} (l : list (list A)) : (forall x, x ∈ l -> x = []) -> concat l = [].
Proof.
  induction l as [|x l IH]; intros Hl; simpl; [done|]. rewrite (Hl x) by left.
  apply IH. intros; apply Hl; by right.
Qed.
Lemma elem_of_concat {A} (x : A) (ls : list (list A)) : x ∈ concat ls <-> exists l, l ∈ ls /\ x ∈ l.
Proof.
  rewrite list_elem_of_In, in_concat. setoid_rewrite <- list_elem_of_In. done.
Qed.

(** Rule induction for an invariant of a step relation. *)
Lemma rtc_invariant {A} (R : relation A) (I : A -> Prop) x y :
  (forall a b, R a b -> I a -> I b) -> I x -> rtc R x y -> I y.
Proof. intros Hstep Hx Hr. induction Hr; eauto. Qed.

(** ** Reasoning about handlers

    [triple P m Q F]: started in a component state satisfying [P], [m] ends in
    a state satisfying [Q a] when it returns [a], and in one satisfying [F]
    when it returns an error or panics. *)
Definition triple {C E X A} (P : C -> Prop) (m : go C E X A) (Q : A -> C -> Prop) (F : C -> Prop) : Prop :=
  forall s, P (st s) ->
    match m s with
    | (Ok a, s') => Q a (st s')
    | (_, s') => F (st s')
    end.

(** [keeps I m]: [I] survives every outcome of [m]. *)
Definition keeps {C E X A} (I : C -> Prop) (m : go C E X A) : Prop :=
  triple I m (fun _ => I) I.

Section Triples.
Context {C E X : Type}.
Implicit Types (P F I : C -> Prop).

Lemma triple_bind {A B} P Q R F (m : go C E X A) (k : A -> go C E X B) :
  triple P m Q F -> (forall a, triple (Q a) (k a) R F) -> triple P (m ≫= k) R F.
Proof.
  intros Hm Hk s Hs. specialize (Hm s Hs). unfold mbind, go_bind.
  destruct (m s) as [[a|e|] s']; [by apply Hk|done|done].
Qed.

Lemma triple_conseq {A} P P' Q Q' F F' (m : go C E X A) :
  triple P' m Q' F' -> (forall c, P c -> P' c) ->
  (forall a c, Q' a c -> Q a c) -> (forall c, F' c -> F c) -> triple P m Q F.
Proof.
  intros Hm HP HQ HF s Hs. specialize (Hm s (HP _ Hs)).
  destruct (m s) as [[a|e|] s']; auto.
Qed.

Lemma triple_pure {A} (phi : Prop) P Q F (m : go C E X A) :
  (phi -> triple P m Q F) -> triple (fun c => phi /\ P c) m Q F.
Proof. intros Hm s [Hphi Hs]. by apply Hm. Qed.

Lemma triple_gets {A} P F (f : C -> A) : triple P (gets f : go C E X A) (fun a c => a = f c /\ P c) F.
Proof. by intros s Hs. Qed.

Lemma keeps_bind {A B} I (m : go C E X A) (k : A -> go C E X B) :
  keeps I m -> (forall a, keeps I (k a)) -> keeps I (m ≫= k).
Proof. intros Hm Hk. by eapply triple_bind. Qed.

Lemma keeps_ret {A} I (a : A) : keeps I (mret a : go C E X A).
Proof. by intros s Hs. Qed.
Lemma keeps_fail {A} I e : keeps I (fail e : go C E X A).
Proof. by intros s Hs. Qed.
Lemma keeps_panic {A} I : keeps I (panic : go C E X A).
Proof. by intros s Hs. Qed.
Lemma keeps_gets {A} I (f : C -> A) : keeps I (gets f : go C E X A).
Proof. by intros s Hs. Qed.
Lemma keeps_deref {A} I (o : option A) : keeps I (deref o : go C E X A).
Proof. by destruct o; intros s Hs. Qed.
Lemma keeps_not_nil {A} I e (o : option A) : keeps I (not_nil e o : go C E X A).
Proof. by destruct o; intros s Hs. Qed.
Lemma keeps_guard_err I b e : keeps I (guard_err b e : go C E X unit).
Proof. by destruct b; intros s Hs. Qed.
Lemma ext_st e (s : sys C E) : st (ext e s : outcome X unit * _).2 = st s.
Proof. unfold ext. by destruct (faults s) as [|[] ?]. Qed.
Lemma keeps_ext I e : keeps I (ext e : go C E X unit).
Proof. intros s Hs. unfold ext. by destruct (faults s) as [|[] ?]. Qed.
Lemma keeps_publish I x e : keeps I (publish x e : go C E X unit).
Proof. intros s Hs. unfold publish, ext. by destruct (faults s) as [|[] ?]. Qed.
Lemma keeps_log_err I (m : go C E X unit) : keeps I m -> keeps I (log_err m).
Proof. intros Hm s Hs. specialize (Hm s Hs). unfold log_err. by destruct (m s) as [[?|?|] ?]. Qed.
Lemma keeps_wrap_err {A} I f (m : go C E X A) : keeps I m -> keeps I (wrap_err f m).
Proof. intros Hm s Hs. specialize (Hm s Hs). unfold wrap_err. by destruct (m s) as [[?|?|] ?]. Qed.
Lemma keeps_try_err {A} I (m : go C E X A) : keeps I m -> keeps I (try_err m).
Proof. intros Hm s Hs. specialize (Hm s Hs). unfold try_err. by destruct (m s) as [[?|?|] ?]. Qed.
Lemma keeps_zoom {D A} (I : C -> Prop) (J : D -> Prop) get put (m : go D E X A) :
  (forall c, I c -> J (get c)) -> (forall c d, I c -> J d -> I (put d c)) ->
  keeps J m -> keeps I (zoom get put m).
Proof.
  intros Hg Hp Hm s Hs. unfold zoom. specialize (Hm (Sys (get (st s)) (faults s) (events s)) (Hg _ Hs)).
  destruct (m _) as [[?|?|] s']; simpl; by apply Hp.
Qed.
Lemma keeps_modify I (f : C -> C) : (forall c, I c -> I (f c)) -> keeps I (modify f : go C E X unit).
Proof. intros Hf s Hs. by apply Hf. Qed.
(** A first phase that keeps a stronger assertion than the rest. *)
Lemma triple_bind_keeps {A B} J Q F (m : go C E X A) (k : A -> go C E X B) :
  keeps J m -> (forall c, J c -> F c) -> (forall a, triple J (k a) Q F) -> triple J (m ≫= k) Q F.
Proof.
  intros Hm HF Hk. eapply triple_bind; [|exact Hk]. by eapply triple_conseq; [exact Hm|..].
Qed.
Lemma triple_guard {A} P P' Q F b e (k : go C E X A) :
  (forall c, P c -> F c) -> (forall c, P c -> b = false -> P' c) ->
  triple P' k Q F -> triple P (guard_err b e ≫= fun _ => k) Q F.
Proof.
  intros HF HP Hk s Hs. unfold mbind, go_bind, guard_err. destruct b; [by apply HF|].
  apply Hk. by apply HP.
Qed.
Lemma keeps_use {A} I (m : go C E X A) s : keeps I m -> I (st s) -> I (st (m s).2).
Proof. intros Hm Hs. specialize (Hm s Hs). by destruct (m s) as [[?|?|] ?]. Qed.
End Triples.

(** Handlers are built from operations whose [keeps] lemmas are in the
    database; [keeps_tac] walks through the control structure. *)
Create HintDb keeps.
#[export] Hint Resolve keeps_ret keeps_fail keeps_panic keeps_gets keeps_deref keeps_not_nil keeps_guard_err
  keeps_ext keeps_publish keeps_log_err keeps_wrap_err
  keeps_try_err : keeps.

Ltac keeps_tac :=
  repeat first
    [ progress intros
    | solve [eauto 3 with keeps]
    | apply keeps_bind
    | apply keeps_log_err
    | apply keeps_wrap_err
    | apply keeps_try_err
    | match goal with
      | |- keeps _ (match ?x with _ => _ end) => destruct x
      | |- keeps _ (let '(_, _) := ?x in _) => destruct x
      end ].

(** ** Runs in which no external call fails

    [healthy m]: without failures to come, [m] returns a value. *)
Definition healthy {C E X A} (m : go C E X A) : Prop :=
  forall s, faults s = [] -> exists a s', m s = (Ok a, s') /\ faults s' = [].

Section Healthy.
Context {C E X : Type}.

Lemma healthy_bind {A B} (m : go C E X A) (k : A -> go C E X B) :
  healthy m -> (forall a, healthy (k a)) -> healthy (m ≫= k).
Proof.
  intros Hm Hk s Hs. destruct (Hm s Hs) as (a & s1 & E1 & Hs1).
  destruct (Hk a s1 Hs1) as (b & s2 & E2 & Hs2). exists b, s2. split; [|done].
  unfold mbind, go_bind. by rewrite E1.
Qed.
Lemma healthy_ret {A} (a : A) : healthy (mret a : go C E X A).
Proof. intros s Hs. by exists a, s. Qed.
Lemma healthy_gets {A} (f : C -> A) : healthy (gets f : go C E X A).
Proof. intros s Hs. by exists (f (st s)), s. Qed.
Lemma healthy_modify (f : C -> C) : healthy (modify f : go C E X unit).
Proof. intros s Hs. eexists _, _. split; [done|]. by simpl. Qed.
Lemma healthy_ext e : healthy (ext e : go C E X unit).
Proof. intros s Hs. exists tt, s. split; [|done]. unfold ext. by rewrite Hs. Qed.
Lemma healthy_publish x e : healthy (publish x e : go C E X unit).
Proof. intros s Hs. unfold publish, ext. rewrite Hs. eexists _, _. split; [done|]. by simpl. Qed.
Lemma healthy_log_err (m : go C E X unit) : healthy m -> healthy (log_err m).
Proof. intros Hm s Hs. destruct (Hm s Hs) as (a & s1 & E1 & Hs1). unfold log_err. rewrite E1. eauto. Qed.
Lemma healthy_wrap_err {A} f (m : go C E X A) : healthy m -> healthy (wrap_err f m).
Proof. intros Hm s Hs. destruct (Hm s Hs) as (a & s1 & E1 & Hs1). unfold wrap_err. rewrite E1. eauto. Qed.
Lemma healthy_zoom {D A} get put (m : go D E X A) : healthy m -> healthy (zoom (C:=C) get put m).
Proof.
  intros Hm s Hs. destruct (Hm (Sys (get (st s)) (faults s) (events s)) Hs) as (a & s1 & E1 & Hs1).
  unfold zoom. rewrite E1. eexists _, _. split; [done|]. by simpl.
Qed.
(** Nothing to catch. *)
Lemma healthy_try_err {A} (m : go C E X A) s :
  healthy m -> faults s = [] -> exists a s', m s = (Ok a, s') /\ try_err m s = (Ok (Some a), s') /\ faults s' = [].
Proof.
  intros Hm Hs. destruct (Hm s Hs) as (a & s1 & E1 & Hs1). exists a, s1. unfold try_err. by rewrite E1.
Qed.
End Healthy.

(** One step of a run that is known. *)
Lemma bind_run {C E X A B} (m : go C E X A) (k : A -> go C E X B) (s : sys C E) a s' :
  m s = (Ok a, s') -> (m ≫= k) s = k a s'.
Proof. intros Hm. unfold mbind, go_bind. by rewrite Hm. Qed.

Lemma bind_fail {C E X A B} (m : go C E X A) (k : A -> go C E X B) (s : sys C E) e s' :
  m s = (Fail e, s') -> (m ≫= k) s = (Fail e, s').
Proof. intros Hm. unfold mbind, go_bind. by rewrite Hm. Qed.

Create HintDb healthy.
#[export] Hint Resolve healthy_ret healthy_gets healthy_modify healthy_ext healthy_publish
  healthy_log_err healthy_wrap_err healthy_zoom : healthy.
Ltac healthy_tac :=
  repeat first [progress intros | solve [eauto 4 with healthy] | apply healthy_bind
    | match goal with |- healthy (match ?x with _ => _ end) => destruct x end].

(** ** Inverting successful runs *)
Section Success.
Context {C E X : Type}.
Implicit Types s : sys C E.

Lemma bind_ok {A B} (m : go C E X A) (k : A -> go C E X B) s b s' :
  (m ≫= k) s = (Ok b, s') -> exists a s1, m s = (Ok a, s1) /\ k a s1 = (Ok b, s').
Proof. unfold mbind, go_bind. destruct (m s) as [[a|e|] s1]; [eauto|done|done]. Qed.
Lemma ret_ok {A} (a b : A) s s' : (mret a : go C E X A) s = (Ok b, s') -> b = a /\ s' = s.
Proof. by intros [= -> ->]. Qed.
Lemma fail_ok {A} e s (b : A) s' : (fail e : go C E X A) s = (Ok b, s') -> False.
Proof. done. Qed.
Lemma panic_ok {A} s (b : A) s' : (panic : go C E X A) s = (Ok b, s') -> False.
Proof. done. Qed.
Lemma gets_ok {A} (f : C -> A) s b s' : (gets f : go C E X A) s = (Ok b, s') -> b = f (st s) /\ s' = s.
Proof. by intros [= -> ->]. Qed.
Lemma modify_ok (f : C -> C) s b s' :
  (modify f : go C E X unit) s = (Ok b, s') -> s' = Sys (f (st s)) (faults s) (events s).
Proof. intros H. by injection H as _ <-. Qed.
Lemma deref_ok {A} (o : option A) s b s' : (deref o : go C E X A) s = (Ok b, s') -> o = Some b /\ s' = s.
Proof. by destruct o; intros [= -> ->]. Qed.
Lemma not_nil_ok {A} e (o : option A) s b s' :
  (not_nil e o : go C E X A) s = (Ok b, s') -> o = Some b /\ s' = s.
Proof. by destruct o; intros [= -> ->]. Qed.
Lemma guard_ok c e s b s' : (guard_err c e : go C E X unit) s = (Ok b, s') -> c = false /\ s' = s.
Proof. unfold guard_err. destruct c; [done|]. intros H. by injection H as _ <-. Qed.
Lemma ext_ok e s b s' : (ext e : go C E X unit) s = (Ok b, s') -> st s' = st s /\ events s' = events s.
Proof. unfold ext. destruct (faults s) as [|[] ?]; intros H; by simplify_eq/=. Qed.
Lemma publish_ok e ev s b s' :
  (publish e ev : go C E X unit) s = (Ok b, s') -> st s' = st s /\ events s' = events s ++ [ev].
Proof. unfold publish, ext. destruct (faults s) as [|[] ?]; intros H; by simplify_eq/=. Qed.
Lemma wrap_err_ok {A} f (m : go C E X A) s b s' : wrap_err f m s = (Ok b, s') -> m s = (Ok b, s').
Proof. unfold wrap_err. by destruct (m s) as [[?|?|] ?]. Qed.
Lemma try_err_ok {A} (m : go C E X A) s o s' :
  try_err m s = (Ok o, s') ->
  match o with Some a => m s = (Ok a, s') | None => exists e, m s = (Fail e, s') end.
Proof.
  unfold try_err. destruct (m s) as [[a|e|] s1]; intros Ht; [|..|done]; injection Ht as <- <-; eauto.
Qed.
Lemma zoom_ok {D A} (get : C -> D) put (m : go D E X A) s a s' :
  zoom get put m s = (Ok a, s') ->
  exists s1 : sys D E, m (Sys (get (st s)) (faults s) (events s)) = (Ok a, s1) /\
    st s' = put (st s1) (st s) /\ faults s' = faults s1 /\ events s' = events s1.
Proof.
  unfold zoom. destruct (m _) as [o s1]. intros Hz. injection Hz as -> <-. by exists s1.
Qed.
End Success.

(** A closed run succeeds: only its outcome needs to be evaluated. *)
Lemma run_result {X A S} (r : outcome X A * S) a : r.1 = Ok a -> r = (Ok a, r.2).
Proof. destruct r as [o s]. simpl. by intros ->. Qed.
Ltac run_ok := apply run_result; vm_compute; reflexivity.
(** [E : m s = (o, s')] for a closed run: evaluate its outcome. *)
Ltac run_value E o s' v :=
  let Hr := fresh in
  assert (o = Ok v) as Hr by (change o with ((o, s').1); rewrite <- E; vm_compute; reflexivity);
  subst o.
Ltac run_succeeds E o s' := run_value E o s' tt.

(** Split a successful run into its steps, discarding impossible branches. *)
Ltac inv_ok_step :=
  match goal with
  | H : (_ ≫= _) _ = (Ok _, _) |- _ =>
      let a := fresh "a" in let s := fresh "s" in
      let H1 := fresh "Hrun" in let H2 := fresh "Hrun" in
      apply bind_ok in H as (a & s & H1 & H2); cbn beta iota zeta in H2
  | H : mret _ _ = (Ok _, _) |- _ =>
      let E := fresh "Hret" in apply ret_ok in H as [E ->]; simplify_eq
  | H : fail _ _ = (Ok _, _) |- _ => by apply fail_ok in H
  | H : panic _ = (Ok _, _) |- _ => by apply panic_ok in H
  | H : gets _ _ = (Ok _, _) |- _ =>
      let E := fresh "Hget" in apply gets_ok in H as [E ->]; unfold id in E; subst
  | H : modify _ _ = (Ok _, _) |- _ => apply modify_ok in H; subst
  | H : deref _ _ = (Ok _, _) |- _ =>
      let E := fresh "Hsome" in apply deref_ok in H as [E ->]
  | H : guard_err _ _ _ = (Ok _, _) |- _ =>
      let E := fresh "Hguard" in apply guard_ok in H as [E ->]
  | H : ext _ _ = (Ok _, _) |- _ =>
      let E1 := fresh "Hst" in let E2 := fresh "Hev" in apply ext_ok in H as [E1 E2]
  | H : publish _ _ _ = (Ok _, _) |- _ =>
      let E1 := fresh "Hst" in let E2 := fresh "Hev" in apply publish_ok in H as [E1 E2]
  | H : wrap_err _ _ _ = (Ok _, _) |- _ => apply wrap_err_ok in H
  | H : (let '(_, _) := ?p in _) _ = (Ok _, _) |- _ =>
      let E := fresh "Hpair" in
      first [is_var p; destruct p | destruct p eqn:E]; cbn beta iota zeta in H
  end.
Ltac inv_ok := repeat inv_ok_step.
