(* ===== verification/GoRuntime.v ===== *)
(** * GoRuntime: the parts of the Go language and standard library the
    components use: iteration over maps, [sort.Slice], [sort.Search] and
    IEEE-754 arithmetic. *)
From S2P Require Import Prelude.
From Stdlib Require Import SpecFloat.

(** ** Ranging over a map

    Go visits the entries of a map in an unspecified order that can differ
    from one loop to the next.  [go_range n m] is the order of the loop
    labelled [n]; every theorem holds for every choice. *)
Class MapRange := {
  go_range : forall {K : Type} `{Countable K} {V : Type}, nat -> gmap K V -> list (K * V);
  go_range_perm : forall {K : Type} `{Countable K} {V : Type} n (m : gmap K V),
    go_range n m ≡ₚ map_to_list m
}.

(** One admissible order, used to evaluate the definitions. *)
Definition map_range_canonical : MapRange := {|
  go_range := fun K _ _ V _ m => map_to_list m;
  go_range_perm := fun K _ _ V n m => Permutation_refl _
|}.

Section MapRange.
Context `{MapRange} `{Countable K} {V : Type}.
Implicit Types m : gmap K V.

Lemma elem_of_go_range n m k v : (k, v) ∈ go_range n m <-> m !! k = Some v.
Proof. rewrite go_range_perm. apply elem_of_map_to_list. Qed.

Lemma go_range_fst_NoDup n m : NoDup (go_range n m).*1.
Proof. rewrite go_range_perm. apply NoDup_fst_map_to_list. Qed.

Lemma go_range_NoDup n m : NoDup (go_range n m).
Proof. rewrite go_range_perm. apply NoDup_map_to_list. Qed.

Lemma go_range_nil n m : go_range n m = [] <-> m = ∅.
Proof.
  rewrite <- (map_to_list_empty_iff m). split; intros E.
  - apply Permutation_nil. by rewrite <- E, go_range_perm.
  - apply Permutation_nil. by rewrite <- E, <- go_range_perm.
Qed.
End MapRange.

(** ** sort.Slice

    The result is a permutation of the slice.  When [less] compares a key,
    strictly, it is in key order; [less] may answer anything on equal keys as
    long as no two elements share one. *)
Definition compares {A} (key : A -> Z) (less : A -> A -> bool) (l : list A) : Prop :=
  (forall a b, a ∈ l -> b ∈ l -> key a <> key b -> less a b = bool_decide (key a < key b)) /\
  (NoDup (key <$> l) \/ forall a b, a ∈ l -> b ∈ l -> key a = key b -> less a b = false).

Definition key_sorted {A} (key : A -> Z) (l : list A) : Prop :=
  StronglySorted (fun a b => key a <= key b) l.

Class SortSlice := {
  sort_slice : forall {A : Type}, (A -> A -> bool) -> list A -> list A;
  sort_slice_perm : forall {A : Type} (less : A -> A -> bool) l, sort_slice less l ≡ₚ l;
  sort_slice_sorted : forall {A : Type} (key : A -> Z) less (l : list A),
    compares key less l -> key_sorted key (sort_slice less l)
}.

Section InsertionSort.
Context {A : Type} (less : A -> A -> bool).

Fixpoint ins (x : A) (l : list A) : list A :=
  match l with
  | [] => [x]
  | y :: t => if less x y then x :: y :: t else y :: ins x t
  end.

Definition insertion_sort (l : list A) : list A := foldr ins [] l.

Lemma ins_perm x l : ins x l ≡ₚ x :: l.
Proof.
  induction l as [|y t IH]; simpl; [done|].
  destruct (less x y); [done|]. rewrite IH. apply Permutation_swap.
Qed.

Lemma insertion_sort_perm l : insertion_sort l ≡ₚ l.
Proof. induction l as [|x l IH]; simpl; [done|]. by rewrite ins_perm, IH. Qed.

Lemma ins_sorted (key : A -> Z) x l :
  (forall y, y ∈ l -> key x <> key y -> less x y = bool_decide (key x < key y)) ->
  key_sorted key l -> key_sorted key (ins x l).
Proof.
  intros Hless. induction 1 as [|y t Ht IH Hy]; simpl; [repeat constructor|].
  assert (Hxy : key x <> key y -> less x y = bool_decide (key x < key y)) by (apply Hless; left).
  assert (key_sorted key (ins x t)) by (apply IH; intros; apply Hless; [by right|done]).
  rewrite Forall_forall in Hy.
  destruct (less x y) eqn:E.
  - assert (key x <= key y).
    { destruct (decide (key x = key y)) as [->|Hne]; [lia|].
      specialize (Hxy Hne). symmetry in Hxy. apply bool_decide_eq_true_1 in Hxy. lia. }
    constructor; [by constructor; [|apply Forall_forall]|].
    apply Forall_forall. intros z [->|Hz]%elem_of_cons; [done|].
    specialize (Hy z Hz). simpl in Hy. lia.
  - assert (key y <= key x).
    { destruct (decide (key x = key y)) as [->|Hne]; [lia|].
      specialize (Hxy Hne). symmetry in Hxy. apply bool_decide_eq_false_1 in Hxy. lia. }
    constructor; [done|]. apply Forall_forall. intros z Hz.
    rewrite ins_perm in Hz. apply elem_of_cons in Hz as [->|Hz]; [done|by apply Hy].
Qed.

Lemma insertion_sort_sorted (key : A -> Z) l :
  compares key less l -> key_sorted key (insertion_sort l).
Proof.
  intros [Hless _]. unfold insertion_sort.
  induction l as [|x l IH]; simpl; [constructor|].
  apply ins_sorted.
  - intros y Hy. fold (insertion_sort l) in Hy. rewrite insertion_sort_perm in Hy.
    apply Hless; [left|by right].
  - apply IH. intros a b Ha Hb. apply Hless; by right.
Qed.
End InsertionSort.

(** One admissible sort, used to evaluate the definitions. *)
Definition sort_slice_insertion : SortSlice := {|
  sort_slice := fun A less l => insertion_sort less l;
  sort_slice_perm := fun A less l => insertion_sort_perm less l;
  sort_slice_sorted := fun A key less l => insertion_sort_sorted less key l
|}.

Lemma compares_ltb {A} (key : A -> Z) l : compares key (fun a b => key a <? key b) l.
Proof.
  split.
  - intros a b _ _ _. destruct (Z.ltb_spec (key a) (key b)); symmetry;
      [apply bool_decide_eq_true_2|apply bool_decide_eq_false_2]; lia.
  - right. intros a b _ _ E. lia.
Qed.

Lemma compares_gtb {A} (key : A -> Z) l :
  compares (fun a => - key a) (fun a b => key b <? key a) l.
Proof.
  split.
  - intros a b _ _ _. destruct (Z.ltb_spec (key b) (key a)); symmetry;
      [apply bool_decide_eq_true_2|apply bool_decide_eq_false_2]; lia.
  - right. intros a b _ _ E. lia.
Qed.

(** ** sort.Search

    Binary search for the least index in [0, n) at which [f] holds; each
    round shrinks [j - i], so [n] rounds are enough. *)
Fixpoint sort_search_loop (fuel : nat) (f : nat -> bool) (i j : nat) : nat :=
  match fuel with
  | O => i
  | S fuel =>
    if (i <? j)%nat then
      let h := Nat.div2 (i + j) in
      if f h then sort_search_loop fuel f i h else sort_search_loop fuel f (S h) j
    else i
  end.

Definition sort_search (n : nat) (f : nat -> bool) : nat := sort_search_loop n f 0 n.

Lemma sort_search_loop_spec f n fuel i j :
  (forall a b, (a <= b < n)%nat -> f a = true -> f b = true) ->
  (i <= j <= n)%nat -> (j - i <= fuel)%nat ->
  (forall a, (a < i)%nat -> f a = false) ->
  (forall a, (j <= a < n)%nat -> f a = true) ->
  let r := sort_search_loop fuel f i j in
  (r <= n)%nat /\ (forall a, (a < r)%nat -> f a = false) /\
  (forall a, (r <= a < n)%nat -> f a = true).
Proof.
  intros Hmono. revert i j. induction fuel as [|fuel IH]; intros i j Hij Hf Hlo Hhi; simpl.
  - assert (i = j) by lia. subst. split; [lia|done].
  - destruct (Nat.ltb_spec i j) as [Hlt|]; [|assert (i = j) by lia; subst; split; [lia|done]].
    assert (i <= Nat.div2 (i + j) < j)%nat as Hh.
    { rewrite Nat.div2_div. split; [apply Nat.div_le_lower_bound|apply Nat.Div0.div_lt_upper_bound]; lia. }
    destruct (f (Nat.div2 (i + j))) eqn:E; apply IH; try lia; try done.
    + intros a Ha. apply (Hmono (Nat.div2 (i + j)) a); [lia|done].
    + intros a Ha. destruct (f a) eqn:Ea; [|done].
      rewrite (Hmono a (Nat.div2 (i + j)) ltac:(lia) Ea) in E. done.
Qed.

Lemma sort_search_spec f n :
  (forall a b, (a <= b < n)%nat -> f a = true -> f b = true) ->
  let r := sort_search n f in
  (r <= n)%nat /\ (forall a, (a < r)%nat -> f a = false) /\
  (forall a, (r <= a < n)%nat -> f a = true).
Proof. intros Hm. apply sort_search_loop_spec; [done|lia..]. Qed.

Lemma StronglySorted_lookup {A} (R : relation A) (l : list A) i j x y :
  StronglySorted R l -> (i < j)%nat -> l !! i = Some x -> l !! j = Some y -> R x y.
Proof.
  intros Hs. revert i j. induction Hs as [|z l _ IH Hz]; intros i j Hij Hi Hj; [done|].
  destruct j as [|j]; [lia|]. destruct i as [|i]; simpl in *; simplify_eq.
  - rewrite Forall_forall in Hz. apply Hz. by eapply list_elem_of_lookup_2.
  - apply (IH i j); [lia|done..].
Qed.

(** The search in a sorted slice finds a member at its first index. *)
Lemma sort_search_member (l : list Z) x :
  StronglySorted Z.le l ->
  let i := sort_search (length l) (fun i => x <=? nth i l 0) in
  ((i <? length l)%nat && (nth i l 0 =? x)) = true <-> x ∈ l.
Proof.
  intros Hs i.
  assert (Hnth : forall a, (a < length l)%nat -> l !! a = Some (nth a l 0)).
  { intros a Ha. rewrite nth_lookup. destruct (lookup_lt_is_Some_2 l a Ha) as [y Hy]. by rewrite Hy. }
  assert (Hmono : forall a b, (a <= b < length l)%nat ->
            (x <=? nth a l 0) = true -> (x <=? nth b l 0) = true).
  { intros a b Hab Ha. apply Z.leb_le in Ha. apply Z.leb_le.
    destruct (decide (a = b)) as [->|]; [done|].
    pose proof (StronglySorted_lookup Z.le l a b _ _ Hs ltac:(lia) (Hnth a ltac:(lia)) (Hnth b ltac:(lia))).
    simpl in *. lia. }
  destruct (sort_search_spec _ _ Hmono) as (Hle & Hlo & Hhi). fold i in Hle, Hlo, Hhi.
  rewrite andb_true_iff, Nat.ltb_lt, Z.eqb_eq. split.
  - intros [Hi E]. apply (list_elem_of_lookup_2 _ i). rewrite (Hnth i Hi). by f_equal.
  - intros (a & Ha)%list_elem_of_lookup. pose proof (lookup_lt_Some _ _ _ Ha) as Hlt.
    assert (nth a l 0 = x) as Hax by (by apply nth_lookup_Some).
    destruct (decide (a < i)%nat) as [Hai|Hai].
    { specialize (Hlo a Hai). apply Z.leb_gt in Hlo. lia. }
    split; [lia|]. assert (i < length l)%nat as Hi by lia.
    pose proof (Hhi i ltac:(lia)) as Hxi. apply Z.leb_le in Hxi.
    destruct (decide (i = a)) as [E|]; [by rewrite E|].
    pose proof (StronglySorted_lookup Z.le l i a _ _ Hs ltac:(lia) (Hnth i Hi) Ha). simpl in *. lia.
Qed.

(** ** Floating point

    [float64] and [float32] are binary64 and binary32 with rounding to
    nearest even, on the Standard Library's reference arithmetic. *)
Definition f64_of_int (z : Z) : spec_float := binary_normalize 53 1024 z 0 false.
Definition f64_div : spec_float -> spec_float -> spec_float := SFdiv 53 1024.
Definition f64_mul : spec_float -> spec_float -> spec_float := SFmul 53 1024.
Definition f32_of_int (z : Z) : spec_float := binary_normalize 24 128 z 0 false.
Definition f32_sub : spec_float -> spec_float -> spec_float := SFsub 24 128.

(** float32(x) for a float64 [x]. *)
Definition f32_of_f64 (x : spec_float) : spec_float :=
  match x with
  | S754_finite s m e => binary_normalize 24 128 (if s then Zneg m else Zpos m) e s
  | _ => x
  end.

(** float64(x) for a float32 [x]: exact. *)
Definition f64_of_f32 (x : spec_float) : spec_float :=
  match x with
  | S754_finite s m e => binary_normalize 53 1024 (if s then Zneg m else Zpos m) e s
  | _ => x
  end.

(** [m * 2^e] rounded towards zero, and up to the next integer. *)
Definition sf_trunc (x : spec_float) : Z :=
  match x with
  | S754_finite s m e =>
    let v := if 0 <=? e then Zpos m * 2 ^ e else Zpos m / 2 ^ (- e) in
    if s then - v else v
  | _ => 0
  end.

(** uint32(math.Ceil(x)): the truncation of an already integral value. *)
Definition sf_ceil (x : spec_float) : Z :=
  match x with
  | S754_finite s m e =>
    let v := if s then Zneg m else Zpos m in
    if 0 <=? e then v * 2 ^ e else - ((- v) / 2 ^ (- e))
  | _ => 0
  end.
