(* ===== verification/GoStrings.v ===== *)
(** * GoStrings: the string keys the services build with [fmt.Sprintf]

    Every store key is a decimal number followed by a colon and more text, or
    preceded by a fixed prefix.  The lemmas show that such keys determine
    their parts, so that maps keyed by them behave as maps keyed by tuples. *)
From stdpp Require Import pretty.
From Stdlib Require Import Ascii.
From S2P Require Import Prelude.

(** [%d] *)
Definition fmt_d (x : Z) : string := pretty x.

Definition digit (c : Ascii.ascii) : Prop := exists x : N, (x < 10)%N /\ c = pretty_N_char x.

Fixpoint all_chars (P : Ascii.ascii -> Prop) (s : string) : Prop :=
  match s with
  | EmptyString => True
  | String c s => P c /\ all_chars P s
  end.

Lemma all_chars_impl (P Q : Ascii.ascii -> Prop) s :
  (forall c, P c -> Q c) -> all_chars P s -> all_chars Q s.
Proof. intros HPQ. induction s as [|c s IH]; simpl; [done|]. intros [? ?]. auto. Qed.

Lemma pretty_N_go_digits x s : all_chars digit s -> all_chars digit (pretty_N_go x s).
Proof.
  revert s. induction (N.lt_wf_0 x) as [x _ IH]; intros s Hs.
  assert (x = 0 \/ 0 < x)%N as [->|Hx] by lia; [by rewrite pretty_N_go_0|].
  rewrite pretty_N_go_step by done. apply IH; [by apply N.div_lt|].
  simpl. split; [|done]. exists (x `mod` 10)%N. split; [by apply N.mod_lt|done].
Qed.

Definition not_colon (c : Ascii.ascii) : Prop := c <> ":"%char.

Lemma digit_not_colon c : digit c -> not_colon c.
Proof.
  intros (x & Hx & ->). unfold not_colon, pretty_N_char. by repeat case_match.
Qed.

Lemma pretty_N_not_colon (x : N) : all_chars not_colon (pretty x).
Proof.
  apply (all_chars_impl digit); [exact digit_not_colon|].
  unfold pretty, pretty_N. case_decide.
  - simpl. split; [by exists 0%N|done].
  - by apply pretty_N_go_digits.
Qed.

Lemma fmt_d_not_colon x : all_chars not_colon (fmt_d x).
Proof.
  unfold fmt_d, pretty, pretty_Z. destruct x as [|p|p].
  - simpl. split; [discriminate|done].
  - apply (pretty_N_not_colon (Npos p)).
  - change ("-" +:+ pretty p) with (String "-" (pretty p)). simpl.
    split; [discriminate|]. apply (pretty_N_not_colon (Npos p)).
Qed.

Lemma append_String c s t : String c s +:+ t = String c (s +:+ t).
Proof. reflexivity. Qed.
Lemma append_nil t : "" +:+ t = t.
Proof. reflexivity. Qed.

(** The text before the first colon is determined. *)
Lemma before_colon a b s t :
  all_chars not_colon a -> all_chars not_colon b ->
  a +:+ String ":" s = b +:+ String ":" t -> a = b /\ s = t.
Proof.
  revert b. induction a as [|c a IH]; intros [|d b] Ha Hb; simpl in Ha, Hb;
    rewrite ?append_String, ?append_nil; intros E; injection E; intros; subst.
  - done.
  - by destruct Hb as [[] _].
  - by destruct Ha as [[] _].
  - destruct (IH b) as [-> ->]; [by destruct Ha..|by destruct Hb|done|done].
Qed.

Lemma fmt_d_key_inj x y s t :
  fmt_d x +:+ String ":" s = fmt_d y +:+ String ":" t -> x = y /\ s = t.
Proof.
  intros E. apply before_colon in E as [E ->]; try apply fmt_d_not_colon.
  split; [|done]. by apply (inj pretty) in E.
Qed.

Lemma append_inv_head s t u : s +:+ t = s +:+ u -> t = u.
Proof.
  induction s as [|c s IH]; [done|]. rewrite !append_String. intros [= E]. auto.
Qed.

(** strings.ToLower on ASCII text, which is all that addresses hold. *)
Definition lower_char (c : Ascii.ascii) : Ascii.ascii :=
  let n := Ascii.nat_of_ascii c in
  if ((65 <=? n) && (n <=? 90))%nat then Ascii.ascii_of_nat (n + 32) else c.
Fixpoint ToLower (s : string) : string :=
  match s with
  | EmptyString => EmptyString
  | String c s => String (lower_char c) (ToLower s)
  end.

Lemma lower_char_idemp c : lower_char (lower_char c) = lower_char c.
Proof. by destruct c as [[] [] [] [] [] [] [] []]. Qed.
Lemma ToLower_idemp s : ToLower (ToLower s) = ToLower s.
Proof. induction s as [|c s IH]; simpl; [done|]. by rewrite lower_char_idemp, IH. Qed.

Lemma pretty_N_go_nonempty x s : s <> "" -> pretty_N_go x s <> "".
Proof.
  revert s. induction (N.lt_wf_0 x) as [x _ IH]; intros s Hs.
  assert (x = 0 \/ 0 < x)%N as [->|Hx] by lia; [by rewrite pretty_N_go_0|].
  rewrite pretty_N_go_step by done. apply IH; [by apply N.div_lt|done].
Qed.
Lemma fmt_d_nonempty x : fmt_d x <> "".
Proof.
  unfold fmt_d, pretty, pretty_Z. destruct x as [|p|p]; [done| |done].
  unfold pretty, pretty_positive, pretty, pretty_N. rewrite decide_False by done.
  rewrite pretty_N_go_step by done. by apply pretty_N_go_nonempty.
Qed.

(** strings.HasPrefix *)
Fixpoint HasPrefix (s prefix : string) {struct prefix} : bool :=
  match prefix, s with
  | EmptyString, _ => true
  | String c p, String d s => Ascii.eqb c d && HasPrefix s p
  | String _ _, EmptyString => false
  end.

Lemma HasPrefix_spec s p : HasPrefix s p = true <-> exists t, s = p +:+ t.
Proof.
  revert s. induction p as [|c p IH]; intros s; simpl.
  - split; [intros _; by exists s|done].
  - destruct s as [|d s].
    + split; [done|]. intros [t Ht]. rewrite append_String in Ht. discriminate.
    + rewrite andb_true_iff, IH, Ascii.eqb_eq. split.
      * intros [-> [t ->]]. by exists t.
      * intros [t Ht]. rewrite append_String in Ht. injection Ht as -> ->. eauto.
Qed.

Lemma append_assoc a b c : (a +:+ b) +:+ c = a +:+ (b +:+ c).
Proof. induction a as [|x a IH]; [done|]. by rewrite !append_String, IH. Qed.

(** A realm prefix ["%d:"] selects exactly the keys of that realm. *)
Lemma HasPrefix_realm x y s :
  HasPrefix (fmt_d x +:+ String ":" s) (fmt_d y +:+ ":") = bool_decide (x = y).
Proof.
  destruct (HasPrefix _ _) eqn:E; symmetry.
  - apply HasPrefix_spec in E as [t Ht]. rewrite append_assoc in Ht.
    apply bool_decide_eq_true_2. by apply fmt_d_key_inj in Ht as [-> _].
  - apply bool_decide_eq_false_2. intros ->.
    assert (HasPrefix (fmt_d y +:+ String ":" s) (fmt_d y +:+ ":") = true) as H; [|congruence].
    apply HasPrefix_spec. exists s. by rewrite append_assoc.
Qed.

(** ** numbers in text (strconv.Atoi) and lists in text
    (strings.Split with a one-character separator, strings.Join) *)
(** ** strings.Split and strings.Join *)
Fixpoint Split (sep : ascii) (s : string) : list string :=
  match s with
  | EmptyString => [""]
  | String c s =>
    if Ascii.eqb c sep then "" :: Split sep s
    else match Split sep s with
         | [] => [String c EmptyString]
         | t :: ts => String c t :: ts
         end
  end.
Fixpoint Join (sep : ascii) (ts : list string) : string :=
  match ts with
  | [] => ""
  | [t] => t
  | t :: ts => t +:+ String sep (Join sep ts)
  end.
Definition without (sep : ascii) (c : ascii) : Prop := c <> sep.

Lemma Split_nonempty sep s : Split sep s <> [].
Proof. destruct s as [|c s]; [done|]. cbn. destruct (Ascii.eqb c sep); [done|]. by destruct (Split sep s). Qed.
Lemma Split_token sep t : all_chars (without sep) t -> Split sep t = [t].
Proof.
  induction t as [|c t IH]; intros Ht; [done|]. destruct Ht as [Hc Ht]. cbn. apply Ascii.eqb_neq in Hc. by rewrite Hc, IH.
Qed.
Lemma Split_app sep t s : all_chars (without sep) t -> Split sep (t +:+ String sep s) = t :: Split sep s.
Proof.
  induction t as [|c t IH]; intros Ht.
  - rewrite append_nil. cbn. by rewrite Ascii.eqb_refl.
  - destruct Ht as [Hc Ht]. rewrite append_String. cbn. apply Ascii.eqb_neq in Hc. by rewrite Hc, IH.
Qed.
(** What is joined is split again, as long as no token holds the separator. *)
Lemma Split_Join sep ts : ts <> [] -> Forall (all_chars (without sep)) ts -> Split sep (Join sep ts) = ts.
Proof.
  induction ts as [|t ts IH]; intros Hne Ht; [done|]. apply Forall_cons in Ht as [Ht Hts]. destruct ts as [|t' ts].
  - by apply Split_token.
  - cbn [Join]. rewrite Split_app by done. f_equal. by apply IH.
Qed.

(** ** strconv.Atoi

    What [Atoi] returns beside its error: the number with its sign; zero when the text is not a number; the nearest
    64-bit number when it is out of range, as [ParseInt] gives it back. *)
Definition digit_of (c : ascii) : option Z :=
  let n := nat_of_ascii c in if ((48 <=? n) && (n <=? 57))%nat then Some (Z.of_nat n - 48) else None.
Fixpoint parse_dec (s : string) (n : u64) : option u64 :=
  match s with
  | EmptyString => Some n
  | String c s =>
    d ← digit_of c;
    let n := n * 10 + d in if 2 ^ 64 <=? n then Some (2 ^ 64 - 1) else parse_dec s n
  end.
Definition ParseUint (s : string) : option u64 := match s with EmptyString => None | _ => parse_dec s 0 end.
Definition Atoi_value (s : string) : int :=
  let '(neg, t) := match s with
                   | String c t => if Ascii.eqb c "-" then (true, t) else if Ascii.eqb c "+" then (false, t) else (false, s)
                   | EmptyString => (false, s)
                   end in
  match ParseUint t with
  | None => 0
  | Some un =>
    if (negb neg && (2 ^ 63 <=? un)) then 2 ^ 63 - 1
    else if neg && (2 ^ 63 <? un) then - 2 ^ 63
    else if neg then - un else un
  end.

Lemma digit_of_pretty x : (x < 10)%N -> digit_of (pretty_N_char x) = Some (Z.of_N x).
Proof.
  intros Hx. assert (x = 0 \/ x = 1 \/ x = 2 \/ x = 3 \/ x = 4 \/ x = 5 \/ x = 6 \/ x = 7 \/ x = 8 \/ x = 9)%N as Hc by lia.
  repeat destruct Hc as [->|Hc]; [done..|]. by subst x.
Qed.
(** Digits in front of a text are read first. *)
Lemma parse_dec_pretty_go x : forall s, Z.of_N x < 2 ^ 64 -> parse_dec (pretty_N_go x s) 0 = parse_dec s (Z.of_N x).
Proof.
  induction (N.lt_wf_0 x) as [x _ IH]; intros s Hx.
  assert (x = 0 \/ 0 < x)%N as [->|Hpos] by lia; [by rewrite pretty_N_go_0|].
  assert (x `mod` 10 < 10)%N as Hm by (by apply N.mod_lt). assert (x `div` 10 < x)%N as Hlt by (by apply N.div_lt).
  rewrite pretty_N_go_step by done. rewrite IH by (done || lia). cbn [parse_dec]. rewrite digit_of_pretty by done. cbn [mbind option_bind].
  replace (Z.of_N (x `div` 10) * 10 + Z.of_N (x `mod` 10)) with (Z.of_N x) by (pose proof (N.div_mod x 10); lia).
  destruct (Z.leb_spec (2 ^ 64) (Z.of_N x)); [lia|done].
Qed.
Lemma pretty_N_digits (x : N) : all_chars digit (pretty x).
Proof.
  unfold pretty, pretty_N. case_decide; [cbn; split; [by exists 0%N|done]|]. by apply pretty_N_go_digits.
Qed.
Lemma fmt_d_pretty (x : Z) : 0 <= x -> fmt_d x = pretty (Z.to_N x).
Proof. intros Hx. unfold fmt_d, pretty at 1, pretty_Z. by destruct x as [|p|p]. Qed.
Lemma fmt_d_digits x : 0 <= x -> all_chars digit (fmt_d x).
Proof. intros Hx. rewrite fmt_d_pretty by done. apply pretty_N_digits. Qed.
Lemma digit_not c d : digit c -> (forall x, (x < 10)%N -> pretty_N_char x <> d) -> c <> d.
Proof. intros (x & Hx & ->) Hd. by apply Hd. Qed.
Lemma digit_without sep : digit_of sep = None -> forall s, all_chars digit s -> all_chars (without sep) s.
Proof.
  intros Hs s. apply all_chars_impl. intros c (x & Hx & ->) <-. by rewrite digit_of_pretty in Hs.
Qed.
Lemma Atoi_value_fmt_d x : 0 <= x < 2 ^ 63 -> Atoi_value (fmt_d x) = x.
Proof.
  intros Hx. assert (HP : ParseUint (fmt_d x) = Some x).
  { destruct (decide (x = 0)) as [->|Hne]; [done|]. rewrite fmt_d_pretty by lia.
    unfold ParseUint. destruct (pretty (Z.to_N x)) eqn:E; [by destruct (fmt_d_nonempty x); rewrite fmt_d_pretty by lia|]. rewrite <- E.
    unfold pretty, pretty_N. rewrite decide_False by lia. rewrite parse_dec_pretty_go by lia. cbn. f_equal. lia. }
  pose proof (fmt_d_digits x (proj1 Hx)) as Hd. unfold Atoi_value. destruct (fmt_d x) as [|c s] eqn:E; [by destruct (fmt_d_nonempty x)|].
  destruct Hd as [Hd _]. assert (c <> "-"%char /\ c <> "+"%char) as [H1 H2].
  { split; apply (digit_not _ _ Hd); intros y Hy He; pose proof (digit_of_pretty y Hy) as Hv; by rewrite He in Hv. }
  apply Ascii.eqb_neq in H1, H2. rewrite H1, H2, HP. cbn [negb andb].
  destruct (Z.leb_spec (2 ^ 63) x); [lia|done].
Qed.
Example Atoi_minus : Atoi_value "-12" = -12. Proof. reflexivity. Qed.
Example Atoi_junk : Atoi_value "12x" = 0. Proof. reflexivity. Qed.
Example Atoi_large : Atoi_value "99999999999999999999x" = 2 ^ 63 - 1. Proof. reflexivity. Qed.
