(* ===== verification/ObjectGuid.v ===== *)
(** * ObjectGuid: the 64-bit object identifiers of shared/wow/guid

    A raw guid packs a 16-bit type ("high"), and either an entry and a 24-bit
    counter, or a realm id and a 32-bit counter.  [PlayerUnwrapped] is the
    (realm, low guid) pair the matchmaking server uses as a map key. *)
From S2P Require Import Prelude.

(** ** Types and constants *)
Abbreviation HighGuid := Z (only parsing).
Definition Player : HighGuid := 0x0000.
Definition Item : HighGuid := 0x4000.
Definition Container : HighGuid := 0x4000.
Definition GameObject : HighGuid := 0xF110.
Definition Transport : HighGuid := 0xF120.
Definition Unit : HighGuid := 0xF130.
Definition Pet : HighGuid := 0xF140.
Definition Vehicle : HighGuid := 0xF150.
Definition DynamicObject : HighGuid := 0xF100.
Definition Corpse : HighGuid := 0xF101.
Definition MoTransport : HighGuid := 0x1FC0.
Definition Instance_ : HighGuid := 0x1F40.
Definition Group : HighGuid := 0x1F50.

Record ObjectGuid := { guid : u64 }.
Abbreviation LowType := Z (only parsing).

(** ** Construction *)
Definition New (raw : u64) : ObjectGuid := {| guid := raw |}.

Definition NewFromCounter (hi : HighGuid) (counter : LowType) : ObjectGuid :=
  {| guid := if counter =? 0 then 0
             else Z.lor counter (wrap64 (Z.shiftl hi 48)) |}.

Definition NewCrossrealmPlayerGUID (realmID : u16) (counter : LowType) : ObjectGuid :=
  {| guid := if counter =? 0 then 0
             else Z.lor (Z.lor counter (wrap64 (Z.shiftl realmID 32)))
                        (wrap64 (Z.shiftl Player 48)) |}.

Definition NewFromEntryAndCounter (hi : HighGuid) (entry : u32) (counter : LowType) : ObjectGuid :=
  {| guid := if counter =? 0 then 0
             else Z.lor (Z.lor counter (wrap64 (Z.shiftl entry 24)))
                        (wrap64 (Z.shiftl hi 48)) |}.

(** ** Projections *)
Definition HasEntry (high : HighGuid) : bool := negb (high =? Player).

Definition GetRawValue (g : ObjectGuid) : u64 := guid g.

Definition GetHigh (g : ObjectGuid) : HighGuid :=
  wrap16 (Z.land (Z.shiftr (guid g) 48) 0x0000FFFF).

Definition GetEntry (g : ObjectGuid) : u32 :=
  if HasEntry (GetHigh g)
  then wrap32 (Z.land (Z.shiftr (guid g) 24) 0x0000000000FFFFFF) else 0.

Definition GetCounter (g : ObjectGuid) : LowType :=
  if HasEntry (GetHigh g)
  then wrap32 (Z.land (guid g) 0x0000000000FFFFFF)
  else wrap32 (Z.land (guid g) 0x00000000FFFFFFFF).

Definition GetRealmID (g : ObjectGuid) : u16 :=
  wrap16 (Z.land (Z.shiftr (guid g) 32) 0xFFFF).

Definition GetMaxCounter (high : HighGuid) : LowType :=
  if HasEntry high then 0x00FFFFFF else 0xFFFFFFFF.

(** ** Players across realms *)
Record PlayerUnwrapped := { RealmID : u16; LowGUID : LowType }.

#[export] Instance PlayerUnwrapped_eq_dec : EqDecision PlayerUnwrapped.
Proof. solve_decision. Defined.
#[export] Instance PlayerUnwrapped_countable : Countable PlayerUnwrapped.
Proof.
  apply (inj_countable' (fun u => (RealmID u, LowGUID u))
           (fun p => {| RealmID := p.1; LowGUID := p.2 |})).
  by intros [].
Defined.

Definition NewPlayerUnwrappedFromRawGUID (g : ObjectGuid) : PlayerUnwrapped :=
  {| RealmID := GetRealmID g; LowGUID := GetCounter g |}.

Definition NewPlayerUnwrapped (realm : u16) (low : u32) : PlayerUnwrapped :=
  {| RealmID := realm; LowGUID := low |}.

Definition Wrap (u : PlayerUnwrapped) : ObjectGuid :=
  NewCrossrealmPlayerGUID (RealmID u) (LowGUID u).

(** The conversion the services apply to a 64-bit player guid received over
    gRPC: [PlayerUnwrapped{RealmID: uint16(realm), LowGUID: LowType(guid)}]. *)
Definition unwrap_player (realmID : u32) (playerGUID : u64) : PlayerUnwrapped :=
  {| RealmID := wrap16 realmID; LowGUID := wrap32 playerGUID |}.

(** ** Packing and unpacking *)
Lemma land_ones_16 x : Z.land x 0xFFFF = x mod 2 ^ 16.
Proof. apply (Z.land_ones x 16). lia. Qed.
Lemma land_ones_24 x : Z.land x 0xFFFFFF = x mod 2 ^ 24.
Proof. apply (Z.land_ones x 24). lia. Qed.
Lemma land_ones_32 x : Z.land x 0xFFFFFFFF = x mod 2 ^ 32.
Proof. apply (Z.land_ones x 32). lia. Qed.

(** Unfold the projections into divisions by powers of two. *)
Ltac guid_fields :=
  unfold GetHigh, GetEntry, GetCounter, GetRealmID, GetRawValue;
  rewrite ?land_ones_16, ?land_ones_24, ?land_ones_32, ?Z.shiftr_div_pow2 by lia.

Lemma crossrealm_raw r c :
  in_range 16 r -> in_range 32 c -> c <> 0 ->
  guid (NewCrossrealmPlayerGUID r c) = c + r * 2 ^ 32.
Proof.
  intros Hr Hc Hc0. unfold NewCrossrealmPlayerGUID; simpl.
  rewrite (proj2 (Z.eqb_neq c 0) Hc0). rewrite Z.lor_0_r.
  rewrite wrap_small; [by apply lor_shiftl_add|].
  rewrite Z.shiftl_mul_pow2 by lia. unfold in_range in *. lia.
Qed.

Lemma from_entry_raw hi e c :
  in_range 16 hi -> in_range 24 e -> in_range 24 c -> c <> 0 ->
  guid (NewFromEntryAndCounter hi e c) = c + e * 2 ^ 24 + hi * 2 ^ 48.
Proof.
  intros Hh He Hc Hc0. unfold NewFromEntryAndCounter; simpl.
  rewrite (proj2 (Z.eqb_neq c 0) Hc0).
  rewrite !wrap_small by (rewrite Z.shiftl_mul_pow2 by lia; unfold in_range in *; lia).
  rewrite (lor_shiftl_add c e 24) by (done || lia). apply lor_shiftl_add; [done|]. unfold in_range in *. lia.
Qed.

Lemma crossrealm_fields r c :
  in_range 16 r -> in_range 32 c -> c <> 0 ->
  let g := NewCrossrealmPlayerGUID r c in
  GetHigh g = Player /\ GetRealmID g = r /\ GetCounter g = c.
Proof.
  intros Hr Hc Hc0 g. pose proof (crossrealm_raw r c Hr Hc Hc0) as Hg. fold g in Hg.
  assert (GetHigh g = Player) as Hh.
  { guid_fields. rewrite Hg. unfold Player in *; word_lia. }
  split; [done|split].
  - guid_fields. rewrite Hg. word_lia.
  - unfold GetCounter. rewrite Hh. change (HasEntry Player) with false. cbv iota.
    guid_fields. rewrite Hg. word_lia.
Qed.

(** A player guid survives the trip through its packed form: unwrapping
    the raw cross-realm guid gives back realm and low guid, except that a low
    guid of 0 is "no player" and packs to the empty guid. *)
Theorem player_guid_roundtrip u :
  in_range 16 (RealmID u) -> in_range 32 (LowGUID u) ->
  NewPlayerUnwrappedFromRawGUID (Wrap u) =
    if LowGUID u =? 0 then {| RealmID := 0; LowGUID := 0 |} else u.
Proof.
  intros Hr Hc. destruct u as [r c]; simpl in *. unfold Wrap, NewPlayerUnwrappedFromRawGUID; simpl.
  destruct (Z.eqb_spec c 0) as [->|Hne].
  - reflexivity.
  - destruct (crossrealm_fields r c Hr Hc Hne) as (_ & -> & ->). done.
Qed.
Lemma player_guid_roundtrip_witness :
  NewPlayerUnwrappedFromRawGUID (Wrap {| RealmID := 42; LowGUID := 1000000095 |}) =
  {| RealmID := 42; LowGUID := 1000000095 |}.
Proof.
  apply (player_guid_roundtrip {| RealmID := 42; LowGUID := 1000000095 |}); split;
    vm_compute; congruence.
Defined.

(** An entry guid of a type other than [Player] gives back its type, its
    24-bit entry and its 24-bit counter; a counter that does not fit 24 bits
    is read back truncated by [GetCounter] even when the guid was built
    without an entry. *)
Theorem entry_guid_roundtrip hi e c :
  in_range 16 hi -> hi <> Player -> in_range 24 e -> in_range 24 c -> c <> 0 ->
  let g := NewFromEntryAndCounter hi e c in
  GetHigh g = hi /\ GetEntry g = e /\ GetCounter g = c /\
  forall k, in_range 32 k -> k <> 0 -> GetCounter (NewFromCounter hi k) = k mod 2 ^ 24.
Proof.
  intros Hh Hp He Hc Hc0 g. pose proof (from_entry_raw hi e c Hh He Hc Hc0) as Hg. fold g in Hg.
  assert (HasEntry hi = true) as Hent by (unfold HasEntry; destruct (Z.eqb_spec hi Player); done).
  assert (GetHigh g = hi) as Hhi.
  { guid_fields. rewrite Hg. word_lia. }
  split; [done|]. split; [|split].
  - unfold GetEntry. rewrite Hhi, Hent. guid_fields. rewrite Hg. word_lia.
  - unfold GetCounter. rewrite Hhi, Hent. guid_fields. rewrite Hg. word_lia.
  - intros k Hk Hk0.
    assert (guid (NewFromCounter hi k) = k + hi * 2 ^ 48) as Hraw.
    { unfold NewFromCounter; simpl. rewrite (proj2 (Z.eqb_neq k 0) Hk0).
      rewrite wrap_small by (rewrite Z.shiftl_mul_pow2 by lia; unfold in_range in *; lia).
      apply lor_shiftl_add; [done|]. unfold in_range in *. lia. }
    assert (GetHigh (NewFromCounter hi k) = hi) as Hkh.
    { guid_fields. rewrite Hraw. word_lia. }
    unfold GetCounter. rewrite Hkh, Hent. guid_fields. rewrite Hraw. word_lia.
Qed.
Lemma entry_guid_roundtrip_witness :
  GetEntry (NewFromEntryAndCounter Item 512 100) = 512 /\
  GetCounter (NewFromCounter Item 16777217) = 1.
Proof.
  destruct (entry_guid_roundtrip Item 512 100) as (_ & He & _ & Hk);
    try (unfold in_range, Item, Player; lia).
  split; [exact He|]. rewrite (Hk 16777217) by (unfold in_range; lia). reflexivity.
Defined.
