(* ===== verification/GuidDiapasons.v ===== *)
(** * GuidDiapasons: the guid ranges cached by the guid server
    (apps/guidserver/service/guid-diapasons.go)

    A diapason is a closed range of guids with a cursor; [AvailableDiapasons]
    is the list of ranges bought from the storage, consumed from the front.
    Its operations hold the lock for their whole body, so each is atomic. *)
From S2P Require Import Prelude GoRuntime.
From Stdlib Require Import SpecFloat.

(** ** Data *)
Record GuidDiapason := { Start : u64; End_ : u64 }.

#[export] Instance GuidDiapason_eq_dec : EqDecision GuidDiapason.
Proof. solve_decision. Defined.

Record GuidDiapasonWithState := { diapason_ : GuidDiapason; CurrentGuid : u64 }.

Definition AvailableDiapasons : Type := list GuidDiapasonWithState.

Definition set_current (d : GuidDiapasonWithState) (c : u64) : GuidDiapasonWithState :=
  {| diapason_ := diapason_ d; CurrentGuid := c |}.

(** ** Operations *)
Definition GuidsLeft (d : GuidDiapasonWithState) : u64 :=
  if End_ (diapason_ d) <? CurrentGuid d then 0
  else wrap64 (End_ (diapason_ d) - CurrentGuid d + 1).

Definition TotalCount (d : GuidDiapasonWithState) : u64 :=
  wrap64 (End_ (diapason_ d) - Start (diapason_ d) + 1).

(** [totalCount] and [totalLeft] accumulate in uint64. *)
Definition pct_totals (ds : AvailableDiapasons) : u64 * u64 :=
  foldl (fun '(c, l) d => (wrap64 (c + TotalCount d), wrap64 (l + GuidsLeft d))) (0, 0) ds.

Definition PctUsage (ds : AvailableDiapasons) : spec_float :=
  if len ds =? 0 then f32_of_int 100
  else
    let '(totalCount, totalLeft) := pct_totals ds in
    f32_sub (f32_of_int 100)
      (f32_of_f64 (f64_div (f64_of_int totalLeft)
                           (f64_div (f64_of_int totalCount) (f64_of_int 100)))).

Fixpoint CleanupEmpty (ds : AvailableDiapasons) : AvailableDiapasons :=
  match ds with
  | [] => []
  | d :: rest => if negb (GuidsLeft d =? 0) then ds else CleanupEmpty rest
  end.

(** The loop of [UseGuids].  [range d.Diapasons] copies each element: the
    fulfilling branch writes back through the index, the draining branch sets
    the cursor of the copy only. *)
Fixpoint use_loop (remaining : u64) (ds : AvailableDiapasons)
    : list GuidDiapason * AvailableDiapasons :=
  match ds with
  | [] => ([], [])
  | d :: rest =>
    let left := GuidsLeft d in
    if remaining <=? left then
      ([{| Start := CurrentGuid d; End_ := wrap64 (CurrentGuid d - 1 + remaining) |}],
       set_current d (wrap64 (CurrentGuid d + remaining)) :: rest)
    else
      let copy := set_current d (End_ (diapason_ d)) in (* assigned, never stored *)
      let '(got, rest') := use_loop (wrap64 (remaining - left)) rest in
      ({| Start := CurrentGuid d; End_ := End_ (diapason_ d) |} :: got, d :: rest')
  end.

Definition UseGuids (guidsAmount : u64) (ds : AvailableDiapasons)
    : list GuidDiapason * AvailableDiapasons :=
  let '(got, ds') := use_loop guidsAmount ds in (got, CleanupEmpty ds').

Definition AddDiapason (g : GuidDiapason) (ds : AvailableDiapasons) : AvailableDiapasons :=
  match last ds with
  | Some l =>
    if End_ (diapason_ l) =? wrap64 (Start g - 1) then
      removelast ds ++
      [{| diapason_ := {| Start := Start (diapason_ l); End_ := End_ g |};
          CurrentGuid := CurrentGuid l |}]
    else ds ++ [{| diapason_ := g; CurrentGuid := Start g |}]
  | None => ds ++ [{| diapason_ := g; CurrentGuid := Start g |}]
  end.

(** ** Well-formed ranges *)
Definition valid_range (g : GuidDiapason) : Prop :=
  0 < Start g <= End_ g /\ End_ g + 1 < 2 ^ 64.

Definition wf_diapason (d : GuidDiapasonWithState) : Prop :=
  0 < Start (diapason_ d) <= CurrentGuid d /\
  CurrentGuid d <= End_ (diapason_ d) + 1 /\
  End_ (diapason_ d) + 1 < 2 ^ 64.

Definition covers (g : GuidDiapason) (x : u64) : Prop := Start g <= x <= End_ g.
Definition size_of (g : GuidDiapason) : Z := End_ g - Start g + 1.
Definition total_left (ds : AvailableDiapasons) : Z := foldr (fun d n => GuidsLeft d + n) 0 ds.
Definition sizes (gs : list GuidDiapason) : Z := foldr (fun g n => size_of g + n) 0 gs.

(** A guid a diapason can still hand out. *)
Definition free_in (ds : AvailableDiapasons) (x : u64) : Prop :=
  Exists (fun d => CurrentGuid d <= x <= End_ (diapason_ d)) ds.

Lemma GuidsLeft_wf d : wf_diapason d -> GuidsLeft d = End_ (diapason_ d) + 1 - CurrentGuid d.
Proof.
  unfold wf_diapason, GuidsLeft. intros H.
  destruct (Z.ltb_spec (End_ (diapason_ d)) (CurrentGuid d)); word_lia.
Qed.

Lemma GuidsLeft_nonneg d : wf_diapason d -> 0 <= GuidsLeft d < 2 ^ 64.
Proof. intros H. rewrite GuidsLeft_wf by done. unfold wf_diapason in H. lia. Qed.

Lemma total_left_nonneg ds : Forall wf_diapason ds -> 0 <= total_left ds.
Proof.
  induction 1 as [|d ds Hd _ IH]; simpl; [lia|].
  pose proof (GuidsLeft_nonneg d Hd). lia.
Qed.

Lemma total_left_app a b : total_left (a ++ b) = total_left a + total_left b.
Proof. induction a as [|d a IH]; simpl; [done|]. rewrite IH. lia. Qed.

(** ** CleanupEmpty drops exactly the exhausted prefix *)
Lemma CleanupEmpty_spec ds :
  exists dropped, ds = dropped ++ CleanupEmpty ds /\
    Forall (fun d => GuidsLeft d = 0) dropped /\
    (forall d rest, CleanupEmpty ds = d :: rest -> GuidsLeft d <> 0).
Proof.
  induction ds as [|d ds (dropped & Hds & Hdrop & Hhd)]; simpl.
  - exists []. split; [done|]. split; [constructor|]. intros; discriminate.
  - destruct (Z.eqb_spec (GuidsLeft d) 0) as [E|E]; simpl.
    + exists (d :: dropped). simpl. rewrite <- Hds. split; [done|].
      split; [by constructor|done].
    + exists []. split; [done|]. split; [constructor|]. by intros d' rest [= <- <-].
Qed.

Lemma CleanupEmpty_total ds : total_left (CleanupEmpty ds) = total_left ds.
Proof.
  induction ds as [|d ds IH]; simpl; [done|].
  destruct (Z.eqb_spec (GuidsLeft d) 0) as [E|E]; simpl; [lia|done].
Qed.

Lemma CleanupEmpty_wf ds : Forall wf_diapason ds -> Forall wf_diapason (CleanupEmpty ds).
Proof.
  induction 1 as [|d ds Hd Hds IH]; simpl; [constructor|].
  destruct (GuidsLeft d =? 0); simpl; [done|by constructor].
Qed.

Lemma CleanupEmpty_head d rest : GuidsLeft d <> 0 -> CleanupEmpty (d :: rest) = d :: rest.
Proof. intros H. simpl. by rewrite (proj2 (Z.eqb_neq _ _) H). Qed.

(** ** What [UseGuids] hands out *)
Lemma use_loop_spec ds n :
  Forall wf_diapason ds -> 0 <= n <= total_left ds -> n < 2 ^ 64 ->
  sizes (use_loop n ds).1 = n /\
  Forall wf_diapason (use_loop n ds).2 /\
  Forall (fun g => forall x, covers g x -> free_in ds x) (use_loop n ds).1.
Proof.
  intros Hwf. revert n. induction Hwf as [|d ds Hd Hds IH]; intros n Hn Hlt; simpl in Hn |- *.
  - assert (n = 0) as -> by lia. done.
  - pose proof (GuidsLeft_wf d Hd) as HL. pose proof (GuidsLeft_nonneg d Hd) as HL0.
    unfold wf_diapason in Hd.
    destruct (Z.leb_spec n (GuidsLeft d)) as [Hle|Hgt]; simpl.
    + unfold size_of, covers, wf_diapason; simpl.
      rewrite !wrap_small by (unfold in_range; lia).
      split; [lia|]. split.
      * constructor; [simpl; lia|done].
      * constructor; [|constructor]. intros x Hx. left. simpl in *. lia.
    + destruct (IH (wrap64 (n - GuidsLeft d))) as (Hs & Hw & Hc);
        [rewrite wrap_small by (unfold in_range; lia); lia|..].
      { rewrite wrap_small by (unfold in_range; lia). lia. }
      rewrite (wrap_small 64 (n - GuidsLeft d)) in * by (unfold in_range; lia).
      destruct (use_loop (n - GuidsLeft d) ds) as [got rest]; simpl in *.
      unfold size_of; simpl. split; [lia|]. split; [by constructor|].
      constructor; [intros x Hx; left; apply Hx|].
      eapply Forall_impl; [exact Hc|]. intros g Hg x Hx. right. by apply Hg.
Qed.

(** In a well-formed cache that still holds [n] guids, [UseGuids n] hands out
    exactly [n] guids, all of them taken from the unused parts of the cached
    ranges, and leaves the cache well formed. *)
Theorem UseGuids_amount ds n :
  Forall wf_diapason ds -> 0 <= n <= total_left ds -> n < 2 ^ 64 ->
  sizes (UseGuids n ds).1 = n /\
  Forall wf_diapason (UseGuids n ds).2 /\
  Forall (fun g => forall x, covers g x -> free_in ds x) (UseGuids n ds).1.
Proof.
  intros Hwf Hn Hlt. destruct (use_loop_spec ds n Hwf Hn Hlt) as (Hs & Hw & Hc).
  unfold UseGuids. destruct (use_loop n ds) as [got ds']; simpl in *.
  auto using CleanupEmpty_wf.
Qed.
Definition sample_cache : AvailableDiapasons :=
  [{| diapason_ := {| Start := 1000; End_ := 2000 |}; CurrentGuid := 1500 |};
   {| diapason_ := {| Start := 5000; End_ := 6000 |}; CurrentGuid := 5500 |}].
Lemma sample_cache_wf : Forall wf_diapason sample_cache.
Proof. repeat constructor; simpl; lia. Qed.
Lemma UseGuids_amount_witness :
  sizes (UseGuids 600 sample_cache).1 = 600 /\
  (UseGuids 600 sample_cache).1 = [{| Start := 1500; End_ := 2000 |}; {| Start := 5500; End_ := 5598 |}].
Proof.
  split; [|reflexivity].
  apply (UseGuids_amount sample_cache 600 sample_cache_wf); vm_compute; [split|]; congruence.
Defined.

(** The unused parts of distinct cached ranges do not overlap. *)
Fixpoint disjoint_free (ds : AvailableDiapasons) : Prop :=
  match ds with
  | [] => True
  | d :: rest =>
    (forall x, CurrentGuid d <= x <= End_ (diapason_ d) -> ~ free_in rest x) /\ disjoint_free rest
  end.

Lemma free_in_CleanupEmpty ds x :
  Forall wf_diapason ds -> free_in (CleanupEmpty ds) x <-> free_in ds x.
Proof.
  unfold free_in. induction 1 as [|d ds Hd Hds IH]; simpl; [done|].
  pose proof (GuidsLeft_wf d Hd).
  destruct (Z.eqb_spec (GuidsLeft d) 0) as [E|E]; simpl; [|done].
  rewrite IH, Exists_cons. split; [auto|]. intros [?|?]; [lia|done].
Qed.

(** When the first cached range can serve the request, the guids handed out
    are exactly the ones that stop being available: nothing is handed out
    twice and nothing is lost. *)
Theorem UseGuids_exact d ds n :
  Forall wf_diapason (d :: ds) -> disjoint_free (d :: ds) -> 0 < n <= GuidsLeft d ->
  (UseGuids n (d :: ds)).1 = [{| Start := CurrentGuid d; End_ := CurrentGuid d + n - 1 |}] /\
  forall x, free_in (UseGuids n (d :: ds)).2 x <->
            free_in (d :: ds) x /\ ~ Exists (fun g => covers g x) (UseGuids n (d :: ds)).1.
Proof.
  intros Hwf [Hdis _] Hn. inversion Hwf as [|? ? Hd Hds]; subst.
  pose proof (GuidsLeft_wf d Hd) as HL.
  destruct (use_loop_spec (d :: ds) n Hwf) as (_ & Hw & _).
  { pose proof (total_left_nonneg ds Hds). simpl. lia. }
  { pose proof (GuidsLeft_nonneg d Hd). lia. }
  unfold UseGuids. revert Hw. unfold use_loop; fold use_loop.
  rewrite (proj2 (Z.leb_le n (GuidsLeft d))) by lia. cbn [fst snd]. intros Hw.
  pose proof Hd as Hd'. unfold wf_diapason in Hd'.
  rewrite !wrap_small in * by (unfold in_range; lia).
  split; [do 2 f_equal; lia|]. intros x. rewrite free_in_CleanupEmpty by done.
  unfold free_in, covers in *. rewrite !Exists_cons, Exists_nil; simpl.
  specialize (Hdis x). split.
  - intros [H|H]; [split; [left|]; lia|]. split; [by right|]. intros [Hc|[]]. apply Hdis; [lia|done].
  - intros [[H|H] Hnc]; [left; lia|by right].
Qed.
Lemma UseGuids_exact_witness :
  (UseGuids 100 sample_cache).1 = [{| Start := 1500; End_ := 1599 |}].
Proof.
  apply (UseGuids_exact _ _ 100 sample_cache_wf).
  - split; [|split; [|done]]; intros x Hx; unfold free_in; rewrite ?Exists_cons, ?Exists_nil;
      simpl in *; lia.
  - vm_compute. split; congruence.
Defined.

(** A request that drains a range hands the same guids out again: the
    draining branch moves the cursor of the loop's copy only, so whatever the
    next non-empty request is, its answer starts with the drained range's
    first guid, which the previous answer already contained. *)
Theorem UseGuids_drained_reissued d ds n m :
  wf_diapason d -> 0 < GuidsLeft d < n -> 0 < m < 2 ^ 64 ->
  let '(got, ds') := UseGuids n (d :: ds) in
  Exists (fun g => covers g (CurrentGuid d)) got /\
  Exists (fun g => covers g (CurrentGuid d)) (UseGuids m ds').1.
Proof.
  intros Hd Hn Hm. pose proof (GuidsLeft_wf d Hd) as HL. unfold wf_diapason in Hd.
  unfold UseGuids at 1. cbn [use_loop].
  rewrite (proj2 (Z.leb_gt n (GuidsLeft d))) by lia.
  destruct (use_loop (wrap64 (n - GuidsLeft d)) ds) as [got ds'].
  rewrite CleanupEmpty_head by lia. split.
  - left. unfold covers; simpl. lia.
  - unfold UseGuids. cbn [use_loop]. destruct (Z.leb_spec m (GuidsLeft d)).
    + cbn [fst]. left. unfold covers; simpl. rewrite wrap_small by (unfold in_range; lia). lia.
    + destruct (use_loop (wrap64 (m - GuidsLeft d)) ds') as [got' ds'']. cbn [fst].
      left. unfold covers; simpl. lia.
Qed.
Lemma UseGuids_drained_reissued_witness :
  let '(got, ds') := UseGuids 600 sample_cache in
  Exists (fun g => covers g 1500) got /\ Exists (fun g => covers g 1500) (UseGuids 10 ds').1.
Proof.
  apply (UseGuids_drained_reissued
           {| diapason_ := {| Start := 1000; End_ := 2000 |}; CurrentGuid := 1500 |} _ 600 10);
    vm_compute; repeat split; congruence.
Defined.

(** Adding a bought range keeps the cache well formed and adds exactly its
    size to the guids left, whether it extends the last range or is appended. *)
Theorem AddDiapason_total ds g :
  Forall wf_diapason ds -> valid_range g ->
  Forall wf_diapason (AddDiapason g ds) /\
  total_left (AddDiapason g ds) = total_left ds + size_of g.
Proof.
  intros Hwf Hg. unfold AddDiapason, valid_range in *.
  assert (Hnew : wf_diapason {| diapason_ := g; CurrentGuid := Start g |})
    by (unfold wf_diapason; simpl; lia).
  assert (Happ : Forall wf_diapason (ds ++ [{| diapason_ := g; CurrentGuid := Start g |}]) /\
    total_left (ds ++ [{| diapason_ := g; CurrentGuid := Start g |}]) = total_left ds + size_of g).
  { split; [apply Forall_app; auto|]. rewrite total_left_app. simpl.
    rewrite GuidsLeft_wf by done. unfold size_of; simpl. lia. }
  destruct (last ds) as [l|] eqn:Hl; [|exact Happ].
  destruct (Z.eqb_spec (End_ (diapason_ l)) (wrap64 (Start g - 1))) as [E|E]; [|exact Happ].
  apply last_Some in Hl as [init ->]. rewrite removelast_last.
  apply Forall_app in Hwf as [Hi Hlw]. inversion Hlw as [|? ? Hlw' _]; subst.
  rewrite wrap_small in E by (unfold in_range; lia).
  assert (wf_diapason {| diapason_ := {| Start := Start (diapason_ l); End_ := End_ g |};
                         CurrentGuid := CurrentGuid l |}) by (unfold wf_diapason in *; simpl; lia).
  split; [apply Forall_app; auto|]. rewrite !total_left_app. simpl.
  rewrite !GuidsLeft_wf by done. unfold size_of; simpl. lia.
Qed.
Lemma AddDiapason_total_witness :
  total_left (AddDiapason {| Start := 6001; End_ := 6100 |} sample_cache) = 1102.
Proof.
  rewrite (proj2 (AddDiapason_total sample_cache {| Start := 6001; End_ := 6100 |}
    sample_cache_wf ltac:(unfold valid_range; simpl; lia))). reflexivity.
Defined.
