(* ===== verification/GuidService.v ===== *)
(** * GuidService: buying guid ranges for a realm
    (apps/guidserver/service/guid.go, apps/guidserver/repo/redis-max-guid-storage.go)

    The guid server keeps the highest guid ever sold per realm and guid type
    in Redis, buys ranges by raising it, and caches bought ranges in
    [AvailableDiapasons].  A single goroutine owns the request tables; worker
    goroutines talk to Redis. *)
From S2P Require Import Prelude GoRuntime GoStrings GuidDiapasons.
From Stdlib Require Import SpecFloat.

(** ** Redis, as the interface the storage relies on *)
Class RedisKV (D : Type) := {
  rget : D -> string -> option u64;
  rset : D -> string -> u64 -> D;
  rget_rset_eq : forall d k v, rget (rset d k v) k = Some v;
  rget_rset_ne : forall d k k' v, k <> k' -> rget (rset d k v) k' = rget d k'
}.

#[export] Instance RedisKV_gmap : RedisKV (gmap string u64) := {|
  rget := fun d k => d !! k;
  rset := fun d k v => <[k := v]> d;
  rget_rset_eq := fun d k v => lookup_insert_eq d k v;
  rget_rset_ne := fun d k k' v => lookup_insert_ne d k k' v
|}.

(** ** Guid types *)
Abbreviation GuidType := Z (only parsing).
Definition GuidTypeCharacter : GuidType := 0.
Definition GuidTypeItem : GuidType := 1.
Definition GuidTypeInstance : GuidType := 2.
Definition GuidTypeMax : GuidType := 3.

Definition RequestGuidsBufferMultiplayer : int := 5.

Inductive guid_err :=
| ErrRedis | ErrMysql | ErrMaxRetries
| ErrRealmNotFound (realmID : u32).

(** ** The Redis-backed counter *)
Section Storage.
Context {D : Type} `{RedisKV D}.

Definition characterKey (realmID : u32) : string := "realm:" +:+ fmt_d realmID +:+ ":maxChar".
Definition itemKey (realmID : u32) : string := "realm:" +:+ fmt_d realmID +:+ ":maxItem".
Definition instanceKey (realmID : u32) : string := "realm:" +:+ fmt_d realmID +:+ ":maxInstance".

(** redis.Nil reads as 0. *)
Definition max_of (d : D) (key : string) : u64 := default 0 (rget d key).

(** What one WATCH/MULTI/EXEC attempt ends in.  [TxFailed d'] means another
    client changed the key: the next attempt sees the store [d']. *)
Inductive watch :=
| Committed
| TxFailed (d' : D)
| OtherErr.

Fixpoint increaseKey (retries : nat) (outs : list watch) (key : string)
    (increaseAmount : u64) (d : D) : outcome guid_err u64 * D :=
  match retries with
  | O => (Fail ErrMaxRetries, d)
  | S retries =>
    match outs with
    | [] | Committed :: _ =>
      let newMaxAmount := wrap64 (max_of d key + increaseAmount) in
      (Ok newMaxAmount, rset d key newMaxAmount)
    | TxFailed d' :: outs => increaseKey retries outs key increaseAmount d'
    | OtherErr :: _ => (Fail ErrRedis, d)
    end
  end.
End Storage.
Arguments watch : clear implicits.

(** ** Start-up: copying the maxima from MySQL when Redis has none *)
Section Init.
Context {D : Type} `{RedisKV D}.
(** The maxima stored in the character databases. *)
Variables mysql_chars mysql_items mysql_instances : u32 -> u64.

Abbreviation M A := (go D Empty_set guid_err A).

Definition redis_max (key : string) : M u64 := ext ErrRedis ;; gets (fun d => max_of d key).
Definition redis_set (key : string) (v : u64) : M unit :=
  ext ErrRedis ;; modify (fun d => rset d key v).

Definition init_characters (realmID : u32) : M unit :=
  max ← redis_max (characterKey realmID);
  if max =? 0 then
    ext ErrMysql ;; redis_set (characterKey realmID) (mysql_chars realmID)
  else mret tt.

Definition init_items (realmID : u32) : M unit :=
  max ← redis_max (itemKey realmID);
  if max =? 0 then
    ext ErrMysql ;; redis_set (itemKey realmID) (mysql_items realmID)
  else mret tt.

Definition init_instances (realmID : u32) : M unit :=
  max ← redis_max (instanceKey realmID);
  if max =? 0 then
    ext ErrMysql ;; redis_set (instanceKey realmID) (mysql_instances realmID)
  else mret tt.

Definition init_realm (realmID : u32) : M unit :=
  init_characters realmID ;; init_items realmID ;; init_instances realmID.

Fixpoint init_realms (realmIDs : list u32) : M unit :=
  match realmIDs with
  | [] => mret tt
  | r :: rs => init_realm r ;; init_realms rs
  end.

(** [NewGuidService]: the maxima, then three empty caches per realm. *)
Definition NewGuidService (realmIDs : list u32) : M (gmap u32 (list AvailableDiapasons)) :=
  init_realms realmIDs ;;
  mret (foldl (fun cache r => <[r := replicate 3 []]> cache) ∅ realmIDs).
End Init.

(** ** Requests, responses and the goroutines *)
Record guidsRequest := {
  req_realmID : u32;
  req_guidType : GuidType;
  desiredAmount : u64;
  callback : option nat  (* the channel the caller waits on *)
}.

Definition key (r : guidsRequest) : string :=
  fmt_d (req_realmID r) +:+ ":" +:+ fmt_d (req_guidType r) +:+ ":" +:+ fmt_d (desiredAmount r).

Record guidsResponse := { request : guidsRequest; newGuids : GuidDiapason }.

(** Where a [GetGuids] call stands: about to look at the usage, blocked on its
    channel, about to take guids, or finished. *)
Inductive caller :=
| Checking (realmID : u32) (guidType : GuidType) (desiredSize : u64)
| Waiting (ch : nat) (realmID : u32) (guidType : GuidType) (desiredSize : u64)
| Using (realmID : u32) (guidType : GuidType) (desiredSize : u64)
| Returned (ds : list GuidDiapason)
| Errored (e : guid_err)
| Panicked.

Abbreviation cache_t := (gmap u32 (list AvailableDiapasons)).

(** The state the goroutines share.  [busy] holds the responses of workers that
    talked to Redis and have not answered yet; [bought] and [wrapped] are
    ghost: every range sold so far with its Redis key, and whether a counter
    ever ran out of uint64. *)
Record svc (D : Type) := Svc {
  localCache : cache_t;
  middleware : list guidsRequest;
  requestsWithRespInProcess : gmap string guidsRequest;
  callbacksQueue : gmap string (list nat);
  requestsChan : list guidsRequest;
  busy : list guidsResponse;
  responseChan : list guidsResponse;
  redis : D;
  callers : list caller;
  bought : list (string * GuidDiapason);
  wrapped : bool
}.
Arguments Svc {D} _ _ _ _ _ _ _ _ _ _ _.
Arguments localCache {D} _.
Arguments middleware {D} _.
Arguments requestsWithRespInProcess {D} _.
Arguments callbacksQueue {D} _.
Arguments requestsChan {D} _.
Arguments busy {D} _.
Arguments responseChan {D} _.
Arguments redis {D} _.
Arguments callers {D} _.
Arguments bought {D} _.
Arguments wrapped {D} _.

Definition sf_geb (a b : spec_float) : bool := SFleb b a.

(** The first half of [GetGuids]: the caller's next step and the request it
    sends to the middleware.  [ch] is the fresh channel of a blocked caller. *)
Definition GetGuids_check (cache : cache_t) (ch : nat)
    (realmID : u32) (guidType : GuidType) (desiredSize : u64)
    : caller * option guidsRequest :=
  match cache !! realmID with
  | None => (Errored (ErrRealmNotFound realmID), None)
  | Some availableGuidsWithTypes =>
    match availableGuidsWithTypes !! Z.to_nat guidType with
    | None => (Panicked, None)
    | Some availableGuids =>
      let pctUsed := PctUsage availableGuids in
      let amount := wrap64 (desiredSize * RequestGuidsBufferMultiplayer) in
      if sf_geb pctUsed (f32_of_int 99) then
        (Waiting ch realmID guidType desiredSize,
         Some {| req_realmID := realmID; req_guidType := guidType;
                 desiredAmount := amount; callback := Some ch |})
      else if sf_geb pctUsed (f32_of_int 70) then
        (Using realmID guidType desiredSize,
         Some {| req_realmID := realmID; req_guidType := guidType;
                 desiredAmount := amount; callback := None |})
      else (Using realmID guidType desiredSize, None)
    end
  end.

(** The second half: take guids, and start over when there were none. *)
Definition GetGuids_use (cache : cache_t) (realmID : u32) (guidType : GuidType)
    (desiredSize : u64) : caller * cache_t :=
  match cache !! realmID with
  | None => (Panicked, cache)
  | Some types =>
    match types !! Z.to_nat guidType with
    | None => (Panicked, cache)
    | Some availableGuids =>
      let '(diapasons, availableGuids') := UseGuids desiredSize availableGuids in
      (if len diapasons =? 0 then Checking realmID guidType desiredSize
       else Returned diapasons,
       <[realmID := <[Z.to_nat guidType := availableGuids']> types]> cache)
    end
  end.

(** The middleware goroutine receives a request. *)
Definition on_request {D} (r : guidsRequest) (s : svc D) : svc D :=
  match requestsWithRespInProcess s !! key r with
  | Some _ =>
    match callback r with
    | Some ch =>
      Svc (localCache s) (middleware s) (requestsWithRespInProcess s)
        (<[key r := default [] (callbacksQueue s !! key r) ++ [ch]]> (callbacksQueue s))
        (requestsChan s) (busy s) (responseChan s) (redis s) (callers s) (bought s) (wrapped s)
    | None => s
    end
  | None =>
    Svc (localCache s) (middleware s) (<[key r := r]> (requestsWithRespInProcess s))
      (callbacksQueue s) (requestsChan s ++ [r]) (busy s) (responseChan s) (redis s)
      (callers s) (bought s) (wrapped s)
  end.

(** A caller blocked on one of [chs] is released: it calls [GetGuids] again. *)
Definition wake (chs : list nat) (c : caller) : caller :=
  match c with
  | Waiting ch realmID guidType desiredSize =>
    if bool_decide (ch ∈ chs) then Checking realmID guidType desiredSize else c
  | _ => c
  end.

Definition add_to_cache (r : guidsResponse) (cache : cache_t) : cache_t :=
  alter (fun types => alter (AddDiapason (newGuids r)) (Z.to_nat (req_guidType (request r))) types)
        (req_realmID (request r)) cache.

(** The middleware goroutine receives a response. *)
Definition on_response {D} (r : guidsResponse) (s : svc D) : svc D :=
  let k := key (request r) in
  let chs := option_list (callback (request r)) ++ default [] (callbacksQueue s !! k) in
  Svc (add_to_cache r (localCache s)) (middleware s)
    (delete k (requestsWithRespInProcess s)) (delete k (callbacksQueue s))
    (requestsChan s) (busy s) (responseChan s) (redis s) (wake chs <$> callers s)
    (bought s) (wrapped s).

Definition storage_key (guidType : GuidType) (realmID : u32) : option string :=
  if guidType =? GuidTypeCharacter then Some (characterKey realmID)
  else if guidType =? GuidTypeItem then Some (itemKey realmID)
  else if guidType =? GuidTypeInstance then Some (instanceKey realmID)
  else None.

Section Worker.
Context {D : Type} `{RedisKV D}.

(** [requestProcessor] on one request; no answer for an unknown type. *)
Definition requestProcessor (retriesCount : nat) (outs : list (watch D)) (r : guidsRequest)
    (d : D) : option guidsResponse * D :=
  match storage_key (req_guidType r) (req_realmID r) with
  | None => (None, d)
  | Some k =>
    match increaseKey retriesCount outs k (desiredAmount r) d with
    | (Ok newMax, d') =>
      (Some {| request := r;
               newGuids := {| Start := wrap64 (wrap64 (newMax - desiredAmount r) + 1);
                              End_ := newMax |} |}, d')
    | (_, d') => (Some {| request := r; newGuids := {| Start := 0; End_ := 0 |} |}, d')
    end
  end.
End Worker.

(** ** The interleavings of callers, middleware and workers *)
Section Steps.
Context {D : Type} `{RedisKV D}.
Variable retriesCount : nat.
Implicit Types (s : svc D) (d : D).

(** Other guid servers share the store and only ever raise counters. *)
Definition grows d d' : Prop := forall k, max_of d k <= max_of d' k < 2 ^ 64.

Fixpoint outs_ok d (outs : list (watch D)) : Prop :=
  match outs with
  | TxFailed d' :: outs => grows d d' /\ outs_ok d' outs
  | _ => True
  end.

Definition set_callers s (cs : list caller) : svc D :=
  Svc (localCache s) (middleware s) (requestsWithRespInProcess s) (callbacksQueue s)
    (requestsChan s) (busy s) (responseChan s) (redis s) cs (bought s) (wrapped s).
Definition set_middleware s (rs : list guidsRequest) : svc D :=
  Svc (localCache s) rs (requestsWithRespInProcess s) (callbacksQueue s)
    (requestsChan s) (busy s) (responseChan s) (redis s) (callers s) (bought s) (wrapped s).
Definition set_responses s (rs : list guidsResponse) : svc D :=
  Svc (localCache s) (middleware s) (requestsWithRespInProcess s) (callbacksQueue s)
    (requestsChan s) (busy s) rs (redis s) (callers s) (bought s) (wrapped s).
Definition set_cache s (c : cache_t) : svc D :=
  Svc c (middleware s) (requestsWithRespInProcess s) (callbacksQueue s)
    (requestsChan s) (busy s) (responseChan s) (redis s) (callers s) (bought s) (wrapped s).
Definition set_redis s d : svc D :=
  Svc (localCache s) (middleware s) (requestsWithRespInProcess s) (callbacksQueue s)
    (requestsChan s) (busy s) (responseChan s) d (callers s) (bought s) (wrapped s).

(** Does the counter reach the end of uint64 while this request is served? *)
Fixpoint increase_wraps (retries : nat) (outs : list (watch D)) (r : guidsRequest) d : bool :=
  match retries, storage_key (req_guidType r) (req_realmID r) with
  | S retries, Some k =>
    match outs with
    | [] | Committed :: _ => bool_decide (2 ^ 64 - 1 <= max_of d k + desiredAmount r)
    | TxFailed d' :: outs => increase_wraps retries outs r d'
    | OtherErr :: _ => false
    end
  | _, _ => false
  end.

(** A worker ran its request: what it bought is recorded. *)
Definition worker_done (r : guidsRequest) (rest : list guidsRequest)
    (res : option guidsResponse * D) (wraps : bool) s : svc D :=
  let k := default "" (storage_key (req_guidType r) (req_realmID r)) in
  let sold := match res.1 with
              | Some a => if bool_decide (newGuids a = {| Start := 0; End_ := 0 |})
                          then [] else [(k, newGuids a)]
              | None => []
              end in
  Svc (localCache s) (middleware s) (requestsWithRespInProcess s) (callbacksQueue s)
    rest (busy s ++ option_list res.1) (responseChan s) res.2 (callers s)
    (bought s ++ sold)
    (wrapped s || wraps).

Inductive step : svc D -> svc D -> Prop :=
| step_call s realmID guidType n :
    in_range 8 guidType -> in_range 64 n ->
    step s (set_callers s (callers s ++ [Checking realmID guidType n]))
| step_check s pre realmID guidType n post ch c r :
    callers s = pre ++ Checking realmID guidType n :: post ->
    (forall realmID' guidType' n', Waiting ch realmID' guidType' n' ∉ callers s) ->
    GetGuids_check (localCache s) ch realmID guidType n = (c, r) ->
    step s (set_middleware (set_callers s (pre ++ c :: post)) (middleware s ++ option_list r))
| step_use s pre realmID guidType n post c cache :
    callers s = pre ++ Using realmID guidType n :: post ->
    GetGuids_use (localCache s) realmID guidType n = (c, cache) ->
    step s (set_cache (set_callers s (pre ++ c :: post)) cache)
| step_request s r rest :
    middleware s = r :: rest ->
    step s (on_request r (set_middleware s rest))
| step_worker s r rest outs :
    requestsChan s = r :: rest -> outs_ok (redis s) outs ->
    step s (worker_done r rest (requestProcessor retriesCount outs r (redis s))
              (increase_wraps retriesCount outs r (redis s)) s)
| step_answer s pre a post :
    busy s = pre ++ a :: post ->
    step s (Svc (localCache s) (middleware s) (requestsWithRespInProcess s) (callbacksQueue s)
              (requestsChan s) (pre ++ post) (responseChan s ++ [a]) (redis s) (callers s)
              (bought s) (wrapped s))
| step_response s a rest :
    responseChan s = a :: rest ->
    step s (on_response a (set_responses s rest))
| step_others s d' : grows (redis s) d' -> step s (set_redis s d').

Definition initial (cache : cache_t) d : svc D :=
  Svc cache [] ∅ ∅ [] [] [] d [] [] false.

Definition reachable (cache : cache_t) d : svc D -> Prop := rtc step (initial cache d).
End Steps.

(** ** Ranges sold never overlap *)
Section Ranges.
Context {D : Type} `{RedisKV D} (retriesCount : nat).
Implicit Types (s : svc D) (d : D).

Definition store_ok d : Prop := forall k, in_range 64 (max_of d k).

Lemma max_of_rset d k k' v :
  max_of (rset d k v) k' = if decide (k = k') then v else max_of d k'.
Proof.
  unfold max_of. case_decide; subst; [by rewrite rget_rset_eq|by rewrite rget_rset_ne].
Qed.

(** A successful sale takes the numbers just above some value of the counter
    at or above the one the worker started from. *)
Lemma increaseKey_ok outs r k d newMax d' n :
  storage_key (req_guidType r) (req_realmID r) = Some k ->
  store_ok d -> outs_ok d outs -> in_range 64 (desiredAmount r) ->
  increase_wraps n outs r d = false ->
  increaseKey n outs k (desiredAmount r) d = (Ok newMax, d') ->
  exists d0, (forall k', max_of d k' <= max_of d0 k') /\ store_ok d0 /\
    newMax = max_of d0 k + desiredAmount r /\ newMax < 2 ^ 64 - 1 /\ d' = rset d0 k newMax.
Proof.
  intros Hk. revert outs d. induction n as [|n IH]; intros outs d Hd Ho Ha Hw; simpl; [done|].
  simpl in Hw. rewrite Hk in Hw.
  assert (Hcommit : bool_decide (2 ^ 64 - 1 <= max_of d k + desiredAmount r) = false ->
    (Ok (wrap64 (max_of d k + desiredAmount r)), rset d k (wrap64 (max_of d k + desiredAmount r)))
      = (@Ok guid_err _ newMax, d') ->
    exists d0, (forall k', max_of d k' <= max_of d0 k') /\ store_ok d0 /\
    newMax = max_of d0 k + desiredAmount r /\ newMax < 2 ^ 64 - 1 /\ d' = rset d0 k newMax).
  { intros Hb%bool_decide_eq_false_1 [= <- <-]. exists d.
    specialize (Hd k) as Hdk. unfold in_range in Hdk, Ha.
    rewrite wrap_small by (unfold in_range; lia). repeat split; try done; try apply Hd; lia. }
  destruct outs as [|[|d1|] outs]; [by apply Hcommit..| |done].
  destruct Ho as [Hg Ho]. intros E.
  destruct (IH outs d1) as (d0 & Hle & Hd0 & ? & ? & ?); try done.
  { intros k'. specialize (Hg k'). specialize (Hd k'). unfold in_range in *. lia. }
  exists d0. repeat split; try done; try apply Hd0. intros k'. specialize (Hg k'). specialize (Hle k'). lia.
Qed.

Lemma increaseKey_grows outs r k d n :
  storage_key (req_guidType r) (req_realmID r) = Some k ->
  store_ok d -> outs_ok d outs -> in_range 64 (desiredAmount r) ->
  increase_wraps n outs r d = false ->
  let d' := (increaseKey n outs k (desiredAmount r) d).2 in
  (forall k', max_of d k' <= max_of d' k') /\ store_ok d'.
Proof.
  intros Hk. revert outs d. induction n as [|n IH]; intros outs d Hd Ho Ha Hw; simpl; [done|].
  assert (Hcommit : bool_decide (2 ^ 64 - 1 <= max_of d k + desiredAmount r) = false ->
    let d' := rset d k (wrap64 (max_of d k + desiredAmount r)) in
    (forall k', max_of d k' <= max_of d' k') /\ store_ok d').
  { intros Hb%bool_decide_eq_false_1. unfold in_range in *.
    rewrite wrap_small by (specialize (Hd k); unfold in_range in *; lia). simpl.
    split; intros k'; rewrite max_of_rset; specialize (Hd k'); unfold in_range in *;
      case_decide; subst; lia. }
  simpl in Hw. rewrite Hk in Hw.
  destruct outs as [|[|d1|] outs]; [by apply Hcommit..| |done].
  destruct Ho as [Hg Ho]. destruct (IH outs d1) as [Hle Hd']; try done.
  { intros k'. specialize (Hg k'). specialize (Hd k'). unfold in_range in *. lia. }
  split; [|done]. intros k'. specialize (Hg k'). specialize (Hle k'). lia.
Qed.

Definition bought_disjoint (b : list (string * GuidDiapason)) : Prop :=
  forall i j k g h x, b !! i = Some (k, g) -> b !! j = Some (k, h) ->
    covers g x -> covers h x -> i = j.

Lemma bought_disjoint_snoc b k g :
  bought_disjoint b ->
  (forall h x, (k, h) ∈ b -> covers h x -> ~ covers g x) ->
  bought_disjoint (b ++ [(k, g)]).
Proof.
  intros Hb Hnew i j k' g' h x Hi Hj Hg Hh.
  apply lookup_snoc_Some in Hi as [[Hi Hi']|[-> [= <- <-]]];
    apply lookup_snoc_Some in Hj as [[Hj Hj']|[-> E]]; simplify_eq.
  - by eapply Hb.
  - exfalso. by eapply Hnew; [eapply list_elem_of_lookup_2|..].
  - exfalso. by eapply Hnew; [eapply list_elem_of_lookup_2|..].
  - done.
Qed.

Definition ranges_inv s : Prop :=
  Forall (fun r => in_range 64 (desiredAmount r)) (middleware s ++ requestsChan s) /\
  (wrapped s = false ->
     store_ok (redis s) /\ bought_disjoint (bought s) /\
     forall k g, (k, g) ∈ bought s -> 1 <= Start g /\ End_ g <= max_of (redis s) k).

Lemma bought_bound_mono d d' (b : list (string * GuidDiapason)) :
  (forall k, max_of d k <= max_of d' k) ->
  (forall k g, (k, g) ∈ b -> 1 <= Start g /\ End_ g <= max_of d k) ->
  forall k g, (k, g) ∈ b -> 1 <= Start g /\ End_ g <= max_of d' k.
Proof. intros Hg Hb k g Hin. specialize (Hg k). specialize (Hb k g Hin). lia. Qed.

Lemma ranges_inv_worker r rest outs s :
  requestsChan s = r :: rest -> outs_ok (redis s) outs -> ranges_inv s ->
  ranges_inv (worker_done r rest (requestProcessor retriesCount outs r (redis s))
                (increase_wraps retriesCount outs r (redis s)) s).
Proof.
  intros Hr Ho [Ham Hinv]. rewrite Hr in Ham. split.
  { simpl. apply Forall_app in Ham as [? Ham]. inversion Ham; subst. by apply Forall_app. }
  simpl. intros [Hw Hnw]%orb_false_iff. destruct (Hinv Hw) as (Hst & Hdis & Hbd).
  apply Forall_app in Ham as [_ Ham]. inversion Ham as [|? ? Hra _]; subst.
  unfold requestProcessor. destruct (storage_key _ _) as [k|] eqn:Hk; simpl;
    [|rewrite app_nil_r; by auto].
  destruct (increaseKey_grows outs r k _ _ Hk Hst Ho Hra Hnw) as [Hgrow Hst'].
  destruct (increaseKey retriesCount outs k _ _) as [[newMax|e|] d'] eqn:E; simpl in *;
    [|rewrite ?app_nil_r; eauto using bought_bound_mono..].
  destruct (increaseKey_ok _ _ _ _ _ _ _ Hk Hst Ho Hra Hnw E)
    as (d0 & Hle & Hd0 & Hm & Hlt & ->).
  assert (Hpos := Hd0 k). unfold in_range in Hpos, Hra.
  rewrite (wrap_small 64 (newMax - desiredAmount r)) by (unfold in_range; lia).
  replace (newMax - desiredAmount r + 1) with (max_of d0 k + 1) by lia.
  rewrite wrap_small by (unfold in_range; lia).
  rewrite bool_decide_eq_false_2 by (intros [=]; lia). split; [done|].
  assert (Hold : forall h, (k, h) ∈ bought s -> 1 <= Start h /\ End_ h <= max_of d0 k).
  { intros h Hh. by eapply (bought_bound_mono (redis s) d0). }
  split.
  - apply bought_disjoint_snoc; [done|]. intros h x Hh Hc1 Hc2.
    apply Hold in Hh. unfold covers in *. simpl in *. lia.
  - intros k' h [Hh|Hh%list_elem_of_singleton]%elem_of_app; simplify_eq/=.
    + rewrite max_of_rset. destruct (Hbd k' h Hh). specialize (Hle k').
      case_decide; subst; lia.
    + rewrite max_of_rset, decide_True by done. lia.
Qed.

Lemma check_amount cache ch realmID guidType n c r :
  GetGuids_check cache ch realmID guidType n = (c, r) ->
  Forall (fun r => in_range 64 (desiredAmount r)) (option_list r).
Proof.
  unfold GetGuids_check. intros E. repeat case_match; simplify_eq/=; repeat constructor; simpl;
    apply wrap_range; lia.
Qed.

Lemma ranges_inv_step s s' : step retriesCount s s' -> ranges_inv s -> ranges_inv s'.
Proof.
  destruct 1 as [| |s pre rid gt n post c cache| |s r rest outs Hr Ho| |s a rest|s d' Hg];
    intros Hinv; try exact Hinv.
  - destruct Hinv as [Ham Hi]. split; [|exact Hi]. simpl.
    apply Forall_app in Ham as [? ?]. rewrite !Forall_app. eauto using check_amount.
  - destruct Hinv as [Ham Hi]. rewrite H0 in Ham. inversion Ham as [|? ? Hr Hrest]; subst.
    unfold on_request; simpl. destruct (_ !! _); [destruct (callback r)|]; simpl;
      split; simpl; try done.
    rewrite app_assoc. apply Forall_app. split; [done|].
    apply Forall_cons; split; [done|constructor].
  - by apply ranges_inv_worker.
  - destruct Hinv as [Ham Hi]. split; [done|]. intros Hw. destruct (Hi Hw) as (Hst & Hdis & Hbd).
    simpl. split; [|split; [done|]].
    + intros k. specialize (Hg k). specialize (Hst k). unfold in_range in *. lia.
    + eapply bought_bound_mono; [|done]. intros k. apply Hg.
Qed.

(** C1: whatever the interleaving of callers, workers, storage failures, lost
    optimistic locks and other guid servers sharing the store, two ranges
    sold for the same counter never share a guid, as long as the counter has
    not run out of uint64. *)
Theorem bought_ranges_disjoint cache d s i j k g h x :
  store_ok d -> reachable retriesCount cache d s -> wrapped s = false ->
  bought s !! i = Some (k, g) -> bought s !! j = Some (k, h) ->
  covers g x -> covers h x -> i = j.
Proof.
  intros Hd Hr Hw. assert (ranges_inv s) as [_ Hinv].
  { eapply rtc_invariant; [exact ranges_inv_step| |exact Hr].
    split; [constructor|]. intros _. split; [done|]. split; simpl.
    - intros ? ? ? ? ? ? E. by rewrite lookup_nil in E.
    - by intros ? ? ?%elem_of_nil. }
  destruct (Hinv Hw) as (_ & Hdis & _). intros. by eapply Hdis.
Qed.
End Ranges.

(** A run that sells one range: a caller finds the cache empty, the middleware
    forwards its request and a worker raises the counter from 41. *)
Definition sample_store : gmap string u64 := {[ characterKey 1 := 41 ]}.
Definition sample_localCache : cache_t := {[ 1 := replicate 3 [] ]}.
Definition sample_request : guidsRequest :=
  {| req_realmID := 1; req_guidType := 0; desiredAmount := 50; callback := Some 7%nat |}.
Definition sample_sold : svc (gmap string u64) :=
  worker_done sample_request []
    (requestProcessor 3 [] sample_request sample_store)
    (increase_wraps 3 [] sample_request sample_store)
    (on_request sample_request
       (set_callers (initial sample_localCache sample_store) [Waiting 7 1 0 10])).

Lemma sample_sold_reachable : reachable 3 sample_localCache sample_store sample_sold.
Proof.
  unfold reachable, sample_sold.
  eapply rtc_l; [apply (step_call 3 _ 1 0 10); vm_compute; split; congruence|].
  eapply rtc_l.
  { apply (step_check 3 _ [] 1 0 10 [] 7 (Waiting 7 1 0 10) (Some sample_request)).
    - reflexivity.
    - intros ? ? ? Hin%list_elem_of_singleton. discriminate.
    - vm_compute. reflexivity. }
  eapply rtc_l; [eapply (step_request 3 _ sample_request []); vm_compute; reflexivity|].
  eapply rtc_l; [eapply (step_worker 3 _ sample_request [] []); [vm_compute; reflexivity|exact I]|].
  apply rtc_refl.
Qed.

Lemma bought_ranges_disjoint_witness :
  bought sample_sold !! 0%nat = Some (characterKey 1, {| Start := 42; End_ := 91 |}) /\
  (forall j h x, bought sample_sold !! j = Some (characterKey 1, h) ->
     covers h x -> 42 <= x <= 91 -> 0%nat = j).
Proof.
  split; [vm_compute; reflexivity|]. intros j h x Hj Hh Hx.
  apply (bought_ranges_disjoint 3 sample_localCache sample_store sample_sold 0 j (characterKey 1)
           {| Start := 42; End_ := 91 |} h x); try done.
  - intros k. unfold max_of, rget, RedisKV_gmap, sample_store.
    destruct (decide (characterKey 1 = k)) as [<-|Hne];
      [rewrite lookup_singleton_eq|rewrite lookup_singleton_ne by done]; simpl; word_lia.
  - apply sample_sold_reachable.
Defined.

(** ** No lost wake-up *)
Section WakeUp.
Context {D : Type} `{RedisKV D} (retriesCount : nat).
Implicit Types (s : svc D) (d : D).

(** Requests forwarded to the workers and not answered yet. *)
Definition inflight s : list guidsRequest :=
  requestsChan s ++ (request <$> busy s ++ responseChan s).

Definition known_type (r : guidsRequest) : Prop :=
  is_Some (storage_key (req_guidType r) (req_realmID r)).

Definition pending s (ch : nat) : Prop :=
  (exists r, r ∈ middleware s ++ inflight s /\ callback r = Some ch) \/
  (exists r chs, r ∈ inflight s /\ callbacksQueue s !! key r = Some chs /\ ch ∈ chs).

Definition caller_ok (c : caller) : Prop :=
  match c with
  | Checking _ gt _ | Waiting _ _ gt _ | Using _ gt _ => 0 <= gt
  | _ => True
  end.

Record wake_inv s : Prop := {
  wi_callers : Forall caller_ok (callers s);
  wi_cache : forall rid types, localCache s !! rid = Some types -> length types = 3%nat;
  wi_types : Forall known_type (middleware s ++ inflight s);
  wi_single : NoDup (key <$> inflight s);
  wi_inprocess : forall k, is_Some (requestsWithRespInProcess s !! k) <-> k ∈ key <$> inflight s;
  wi_waiting : forall ch rid gt n, Waiting ch rid gt n ∈ callers s -> pending s ch
}.

Lemma known_type_of_cache gt rid :
  (Z.to_nat gt < 3)%nat -> 0 <= gt -> is_Some (storage_key gt rid).
Proof.
  intros Hlt H0. unfold storage_key, GuidTypeCharacter, GuidTypeItem, GuidTypeInstance.
  destruct (Z.eqb_spec gt 0); [done|]. destruct (Z.eqb_spec gt 1); [done|].
  destruct (Z.eqb_spec gt 2); [done|]. lia.
Qed.

(** A waiting caller stays covered when nothing in flight disappears. *)
Lemma pending_mono s s' ch :
  (forall r, r ∈ middleware s ++ inflight s -> r ∈ middleware s' ++ inflight s') ->
  (forall r, r ∈ inflight s -> r ∈ inflight s') ->
  (forall k chs, callbacksQueue s !! k = Some chs -> ch ∈ chs ->
     exists chs', callbacksQueue s' !! k = Some chs' /\ ch ∈ chs') ->
  pending s ch -> pending s' ch.
Proof.
  intros H1 H2 H3 [(r & Hr & Hc)|(r & chs & Hr & Hq & Hin)].
  - left. eauto.
  - right. destruct (H3 _ _ Hq Hin) as (chs' & ? & ?). exists r, chs'. auto.
Qed.

Lemma wake_inv_check s pre rid gt n post ch c r :
  callers s = pre ++ Checking rid gt n :: post ->
  GetGuids_check (localCache s) ch rid gt n = (c, r) -> wake_inv s ->
  wake_inv (set_middleware (set_callers s (pre ++ c :: post)) (middleware s ++ option_list r)).
Proof.
  intros Hc Hg [Hcs Hca Hty Hsi Hip Hwa].
  rewrite Hc in Hcs. apply Forall_app in Hcs as [Hpre Hcs].
  inversion Hcs as [|? ? Hgt Hpost]; subst. simpl in Hgt.
  assert (caller_ok c /\ Forall known_type (option_list r) /\
    forall ch' rid' gt' n', c = Waiting ch' rid' gt' n' ->
      exists q, q ∈ option_list r /\ callback q = Some ch') as (Hok & Hk & Hw).
  { unfold GetGuids_check in Hg.
    repeat case_match; simplify_eq/=; split_and!; try done; try (by apply Forall_nil).
    - apply Forall_singleton. unfold known_type; simpl. apply known_type_of_cache; [|done].
      erewrite <- Hca by done. by eapply lookup_lt_Some.
    - intros ? ? ? ? [= <- <- <- <-]. eexists. by split; [apply list_elem_of_singleton|].
    - apply Forall_singleton. unfold known_type; simpl. apply known_type_of_cache; [|done].
      erewrite <- Hca by done. by eapply lookup_lt_Some. }
  constructor; simpl; try done.
  - apply Forall_app. by split; [|apply Forall_cons].
  - unfold inflight in *; simpl in *. apply Forall_app in Hty as [? ?].
    rewrite !Forall_app in *. naive_solver.
  - intros ch' rid' gt' n' Hin.
    assert (c = Waiting ch' rid' gt' n' \/ Waiting ch' rid' gt' n' ∈ callers s) as [E|E].
    { rewrite Hc. rewrite elem_of_app, elem_of_cons in *. naive_solver. }
    + destruct (Hw _ _ _ _ E) as (q & ? & ?). left. exists q. simpl. set_solver.
    + eapply pending_mono; [..|by eapply Hwa]; unfold inflight; simpl; set_solver.
Qed.

Lemma wake_inv_request s r rest :
  middleware s = r :: rest -> wake_inv s -> wake_inv (on_request r (set_middleware s rest)).
Proof.
  intros Hm [Hcs Hca Hty Hsi Hip Hwa]. unfold on_request; simpl.
  rewrite Hm in Hty. inversion Hty as [|? ? Hr Hrest]; subst.
  destruct (requestsWithRespInProcess s !! key r) as [q|] eqn:E.
  - assert (key r ∈ key <$> inflight s) as Hk by (apply Hip; eauto).
    apply list_elem_of_fmap in Hk as (q' & Hkq & Hq').
    destruct (callback r) as [ch|] eqn:Hcb; simpl; constructor; simpl; try done.
    + intros ch' rid gt n Hin. destruct (Hwa _ _ _ _ Hin) as [(x & Hx & Hxc)|(x & chs & Hx & Hxq & Hch)].
      * rewrite Hm in Hx. apply elem_of_cons in Hx as [->|Hx].
        -- right. exists q'. eexists. split; [done|]. simpl. rewrite <- Hkq, lookup_insert_eq.
           split; [done|]. replace ch' with ch by congruence. set_solver.
        -- left. eauto.
      * right. exists x. simpl. destruct (decide (key r = key x)) as [Ek|Ek].
        -- eexists. rewrite Ek, lookup_insert_eq. split_and!; [done..|]. rewrite Hxq. set_solver.
        -- exists chs. by rewrite lookup_insert_ne.
    + intros ch' rid gt n Hin. destruct (Hwa _ _ _ _ Hin) as [(x & Hx & Hxc)|?]; [|by right].
      rewrite Hm in Hx. apply elem_of_cons in Hx as [->|Hx]; [congruence|left; eauto].
  - assert (key r ∉ key <$> inflight s) as Hk by (rewrite <- Hip, E; by intros [? ?]).
    set (s' := Svc _ _ _ _ _ _ _ _ _ _ _).
    assert (inflight s' ≡ₚ r :: inflight s) as Hp
      by (unfold inflight; simpl; rewrite <- app_assoc; solve_Permutation).
    constructor; rewrite ?Hp; try done.
    + change (middleware s') with rest. rewrite <- Permutation_middle. by constructor.
    + simpl. by constructor.
    + intros k. rewrite Hp. simpl. rewrite elem_of_cons, <- Hip.
      destruct (decide (key r = k)) as [->|Ek];
        [rewrite lookup_insert_eq|rewrite lookup_insert_ne by done]; naive_solver.
    + intros ch rid gt n Hin. eapply pending_mono; [..|by eapply Hwa].
      * intros x. change (middleware s') with rest. rewrite Hp, Hm. clear. set_solver.
      * intros x. rewrite Hp. clear. set_solver.
      * eauto.
Qed.

Lemma inflight_worker_done s r rest outs :
  requestsChan s = r :: rest -> known_type r ->
  inflight (worker_done r rest (requestProcessor retriesCount outs r (redis s))
              (increase_wraps retriesCount outs r (redis s)) s) ≡ₚ inflight s.
Proof.
  intros Hr [k Hk]. unfold inflight, worker_done, requestProcessor. rewrite Hk, Hr. simpl.
  destruct (increaseKey _ _ _ _ _) as [[?|?|] ?]; simpl;
    rewrite !fmap_app; simpl; rewrite <- app_assoc; simpl; solve_Permutation.
Qed.

(** [inflight] changes by a permutation only. *)
Lemma wake_inv_permute s s' :
  callers s' = callers s -> localCache s' = localCache s -> middleware s' = middleware s ->
  callbacksQueue s' = callbacksQueue s ->
  requestsWithRespInProcess s' = requestsWithRespInProcess s ->
  inflight s' ≡ₚ inflight s -> wake_inv s -> wake_inv s'.
Proof.
  intros E1 E2 E3 E4 E5 Hp [Hcs Hca Hty Hsi Hip Hwa].
  constructor; rewrite ?E1, ?E2, ?E3, ?E5; try done.
  - by rewrite Hp.
  - by rewrite Hp.
  - intros k. by rewrite Hp.
  - intros ch rid gt n Hin. eapply pending_mono; [..|by eapply Hwa]; rewrite ?E3, ?E4.
    + intros r. by rewrite Hp.
    + intros r. by rewrite Hp.
    + eauto.
Qed.

Lemma wake_waiting chs c ch rid gt n :
  wake chs c = Waiting ch rid gt n -> c = Waiting ch rid gt n /\ ch ∉ chs.
Proof.
  destruct c; simpl; try done. case_bool_decide; [done|]. by intros [= <- <- <- <-].
Qed.

Definition response_wakes s (a : guidsResponse) (ch : nat) : Prop :=
  callback (request a) = Some ch \/
  exists chs, callbacksQueue s !! key (request a) = Some chs /\ ch ∈ chs.

Lemma on_response_wakes s a ch rid gt n :
  Waiting ch rid gt n ∈ callers (on_response a s) ->
  Waiting ch rid gt n ∈ callers s /\ ~ response_wakes s a ch.
Proof.
  simpl. intros (c & E & Hc)%list_elem_of_fmap. symmetry in E.
  apply wake_waiting in E as [-> Hn]. split; [done|].
  intros [E|(chs & E & ?)]; apply Hn; rewrite E, elem_of_app; [left|by right].
  by apply list_elem_of_singleton.
Qed.

Lemma add_to_cache_shape a (cache : cache_t) rid types :
  (forall rid types, cache !! rid = Some types -> length types = 3%nat) ->
  add_to_cache a cache !! rid = Some types -> length types = 3%nat.
Proof.
  unfold add_to_cache. rewrite lookup_alter. intros Hc.
  case_decide; [|by apply Hc]. intros (t & Ht & ->)%fmap_Some.
  rewrite length_alter. by eapply Hc.
Qed.

Lemma wake_inv_response s a rest :
  responseChan s = a :: rest -> wake_inv s -> wake_inv (on_response a (set_responses s rest)).
Proof.
  intros Ha [Hcs Hca Hty Hsi Hip Hwa].
  assert (inflight s ≡ₚ request a :: inflight (on_response a (set_responses s rest))) as Hp.
  { unfold inflight; simpl. rewrite Ha, !fmap_app. simpl. solve_Permutation. }
  rewrite Hp in Hty, Hsi. simpl in Hsi. inversion Hsi as [|? ? Hnew Hnd]; subst.
  rewrite <- Permutation_middle in Hty. inversion Hty; subst.
  constructor; try done.
  - simpl. apply Forall_fmap. eapply Forall_impl; [exact Hcs|].
    intros c Hc. unfold compose. destruct c; simpl in *; try done. by case_bool_decide.
  - simpl. intros rid types. by apply add_to_cache_shape.
  - intros k. specialize (Hip k). rewrite Hp in Hip. simpl in Hip |- *.
    rewrite elem_of_cons in Hip.
    destruct (decide (key (request a) = k)) as [<-|Ek].
    + rewrite lookup_delete_eq. split; [by intros [? ?]|done].
    + rewrite lookup_delete_ne by done. naive_solver.
  - intros ch rid gt n Hin. apply on_response_wakes in Hin as [Hin Hnw].
    destruct (Hwa _ _ _ _ Hin) as [(x & Hx & Hxc)|(x & chs & Hx & Hxq & Hch)];
      rewrite Hp in Hx.
    + left. exists x. split; [|done]. rewrite <- Permutation_middle in Hx.
      apply elem_of_cons in Hx as [->|Hx]; [|done]. exfalso. apply Hnw. by left.
    + apply elem_of_cons in Hx as [->|Hx]; [exfalso; apply Hnw; right; eauto|].
      right. exists x, chs. split_and!; try done. simpl. rewrite lookup_delete_ne; [done|].
      intros E. apply Hnew. rewrite E. by apply list_elem_of_fmap_2.
Qed.

Lemma wake_inv_use s pre rid gt n post c cache :
  callers s = pre ++ Using rid gt n :: post ->
  GetGuids_use (localCache s) rid gt n = (c, cache) -> wake_inv s ->
  wake_inv (set_cache (set_callers s (pre ++ c :: post)) cache).
Proof.
  intros Hc Hg [Hcs Hca Hty Hsi Hip Hwa].
  rewrite Hc in Hcs. apply Forall_app in Hcs as [Hpre Hcs].
  inversion Hcs as [|? ? Hgt Hpost]; subst. simpl in Hgt.
  assert (caller_ok c /\ (forall ch r g m, c <> Waiting ch r g m) /\
    forall rid types, cache !! rid = Some types -> length types = 3%nat) as (Hok & Hnw & Hca').
  { unfold GetGuids_use in Hg. destruct (localCache s !! rid) as [types|] eqn:E;
      [|by simplify_eq/=]. destruct (types !! _) as [ds|]; [|by simplify_eq/=].
    destruct (UseGuids n ds) as [got ds']. injection Hg as <- <-.
    split_and!; [by destruct (len got =? 0)|by destruct (len got =? 0)|].
    intros rid' types'. rewrite lookup_insert. case_decide; [|by apply Hca].
    intros [= <-]. rewrite length_insert. by eapply Hca. }
  constructor; simpl; try done.
  - apply Forall_app. by split; [|apply Forall_cons].
  - intros ch rid' gt' n' Hin. apply (Hwa ch rid' gt' n'). rewrite Hc.
    rewrite elem_of_app, elem_of_cons in *. naive_solver.
Qed.

Lemma wake_inv_step s s' : step retriesCount s s' -> wake_inv s -> wake_inv s'.
Proof.
  destruct 1 as [s rid gt n Hgt Hn|s pre rid gt n post ch c r Hc _ Hg|s pre rid gt n post c cache Hc Hg
    |s r rest Hm|s r rest outs Hr Ho|s pre a post Hb|s a rest Ha|s d' Hg]; intros Hinv.
  - destruct Hinv as [Hcs Hca Hty Hsi Hip Hwa]. constructor; simpl; try done.
    + apply Forall_app. split; [done|]. apply Forall_singleton. simpl.
      unfold in_range in Hgt. lia.
    + intros ch rid' gt' n' Hin. apply (Hwa ch rid' gt' n').
      apply elem_of_app in Hin as [?|Hin%list_elem_of_singleton]; done.
  - by eapply wake_inv_check.
  - by eapply wake_inv_use.
  - by eapply wake_inv_request.
  - apply (wake_inv_permute s); try done. apply inflight_worker_done; [done|].
    apply wi_types in Hinv. rewrite Forall_forall in Hinv. apply Hinv.
    unfold inflight. rewrite Hr. set_solver.
  - apply (wake_inv_permute s); try done. unfold inflight; simpl. rewrite Hb.
    rewrite !fmap_app. simpl. solve_Permutation.
  - by eapply wake_inv_response.
  - by apply (wake_inv_permute s).
Qed.

(** No wake-up is ever lost. In every reachable state a blocked caller's
    channel is in a request that waits for the middleware or for a worker, or
    in the queue of callbacks of such a request; at most one request per key
    is in flight; and the response to that request releases the caller. *)
Theorem no_lost_wakeup cache d s ch rid gt n :
  (forall rid types, cache !! rid = Some types -> length types = 3%nat) ->
  reachable retriesCount cache d s ->
  Waiting ch rid gt n ∈ callers s ->
  pending s ch /\ NoDup (key <$> inflight s) /\
  forall a rest, responseChan s = a :: rest -> response_wakes s a ch ->
    Waiting ch rid gt n ∉ callers (on_response a (set_responses s rest)).
Proof.
  intros Hcache Hr Hin. assert (wake_inv s) as Hinv.
  { eapply rtc_invariant; [exact wake_inv_step| |exact Hr].
    constructor; simpl; [constructor|exact Hcache|constructor|constructor|..].
    - intros k. rewrite lookup_empty, elem_of_nil. by split; [intros [? ?]|].
    - by intros ? ? ? ? ?%elem_of_nil. }
  split; [by eapply wi_waiting|]. split; [by apply wi_single|].
  intros a rest _ Hw [_ Hn]%on_response_wakes. by apply Hn.
Qed.
End WakeUp.

Lemma no_lost_wakeup_witness : pending sample_sold 7.
Proof.
  apply (no_lost_wakeup 3 sample_localCache sample_store sample_sold 7 1 0 10).
  - intros rid types. unfold sample_localCache.
    destruct (decide (1 = rid)) as [<-|Hne];
      [rewrite lookup_singleton_eq|rewrite lookup_singleton_ne by done]; [by intros [= <-]|done].
  - apply sample_sold_reachable.
  - apply list_elem_of_singleton. reflexivity.
Defined.

(** ** Start-up *)
Section InitSpec.
Context {D : Type} `{RedisKV D}.
Variables mysql_chars mysql_items mysql_instances : u32 -> u64.
Implicit Types d : D.

(** The value a counter must have after start-up. *)
Definition start_value d (k : string) (fallback : u64) : u64 :=
  if max_of d k =? 0 then fallback else max_of d k.

Definition first_char (s : string) : option Ascii.ascii :=
  match s with String c _ => Some c | EmptyString => None end.

Lemma storage_keys_distinct r :
  characterKey r <> itemKey r /\ characterKey r <> instanceKey r /\ itemKey r <> instanceKey r.
Proof.
  unfold characterKey, itemKey, instanceKey.
  split_and!; intros E; apply append_inv_head in E; apply append_inv_head in E; discriminate.
Qed.

(** Initialising a realm without store failures gives each of the three
    counters its own value: the one already in Redis, or else the maximum of
    the matching MySQL table; no counter receives another one's maximum. *)
Theorem init_realm_counters d r evs :
  exists d',
    init_realm mysql_chars mysql_items mysql_instances r (Sys d [] evs) = (Ok tt, Sys d' [] evs) /\
    max_of d' (characterKey r) = start_value d (characterKey r) (mysql_chars r) /\
    max_of d' (itemKey r) = start_value d (itemKey r) (mysql_items r) /\
    max_of d' (instanceKey r) = start_value d (instanceKey r) (mysql_instances r) /\
    forall k, k <> characterKey r -> k <> itemKey r -> k <> instanceKey r ->
      max_of d' k = max_of d k.
Proof.
  destruct (storage_keys_distinct r) as (Hci & Hcn & Hin).
  assert (Hm : forall d k k' v, k <> k' -> max_of (rset d k v) k' = max_of d k')
    by (intros; by rewrite max_of_rset, decide_False).
  assert (He : forall d k v, max_of (rset d k v) k = v)
    by (intros; by rewrite max_of_rset, decide_True).
  unfold init_realm, init_characters, init_items, init_instances, redis_max, redis_set, start_value.
  unfold mbind, go_bind; simpl. unfold ext, gets, modify; simpl.
  destruct (max_of d (characterKey r) =? 0) eqn:E1; simpl;
    rewrite ?(Hm _ (characterKey r) (itemKey r)) by done;
    destruct (max_of d (itemKey r) =? 0) eqn:E2; simpl;
    rewrite ?(Hm _ (itemKey r) (instanceKey r)), ?(Hm _ (characterKey r) (instanceKey r)) by done;
    destruct (max_of d (instanceKey r) =? 0) eqn:E3; simpl;
    (eexists; split; [reflexivity|]);
    split_and!; intros; rewrite ?He, ?Hm by done; rewrite ?He, ?Hm by done; rewrite ?He, ?Hm by done;
    reflexivity.
Qed.
End InitSpec.

(** ** A purchase that failed *)

(** A failed purchase hands out guid 0 for ever. After a storage failure the
    middleware adds the zero range to the caller's empty cache; from then on
    every request for two guids or more is answered with the range [0, 0] at
    once, the cache stays as it is and no new range is asked for. *)
Theorem failed_purchase_serves_zero realmID r gt n ch :
  2 <= n < 2 ^ 64 -> req_realmID r = realmID -> req_guidType r = gt -> 0 <= gt < 3 ->
  let cache := add_to_cache {| request := r; newGuids := {| Start := 0; End_ := 0 |} |}
                 {[ realmID := replicate 3 [] ]} in
  GetGuids_check cache ch realmID gt n = (Using realmID gt n, None) /\
  GetGuids_use cache realmID gt n = (Returned [{| Start := 0; End_ := 0 |}], cache).
Proof.
  intros Hn Hr Hg Hgt.
  set (zero := {| diapason_ := {| Start := 0; End_ := 0 |}; CurrentGuid := 0 |}).
  set (types := <[Z.to_nat gt := [zero]]> (replicate 3 []) : list AvailableDiapasons).
  assert (Hc : add_to_cache {| request := r; newGuids := {| Start := 0; End_ := 0 |} |}
     ({[ realmID := replicate 3 [] ]} : cache_t) = {[ realmID := types ]}).
  { unfold add_to_cache. cbn [request]. rewrite Hr, Hg, alter_singleton, decide_True by done. reflexivity. }
  assert (Ht : types !! Z.to_nat gt = Some ([zero] : AvailableDiapasons))
    by (apply list_lookup_insert_eq; simpl; lia).
  assert (Hu : UseGuids n [zero] = ([{| Start := 0; End_ := 0 |}], [zero])).
  { unfold UseGuids. cbn [use_loop]. change (GuidsLeft zero) with 1.
    by rewrite (proj2 (Z.leb_gt n 1)) by lia. }
  cbv zeta. rewrite Hc. unfold GetGuids_check, GetGuids_use. rewrite lookup_singleton_eq. cbv beta iota.
  rewrite Ht, Hu, list_insert_id by done. split; [reflexivity|].
  by rewrite insert_singleton_eq.
Qed.
Lemma failed_purchase_serves_zero_witness :
  GetGuids_use (add_to_cache {| request := sample_request; newGuids := {| Start := 0; End_ := 0 |} |}
                  sample_localCache) 1 0 10 =
  (Returned [{| Start := 0; End_ := 0 |}],
   add_to_cache {| request := sample_request; newGuids := {| Start := 0; End_ := 0 |} |}
     sample_localCache).
Proof.
  apply (failed_purchase_serves_zero 1 sample_request 0 10 0); try reflexivity; lia.
Defined.
