(* ===== verification/GuildCache.v ===== *)
(** * GuildCache: guilds, their repository and the in-memory cache
    (apps/guildserver/repo/guilds.go, repo/guilds_mysql.go,
    service/guilds-cache_inmem.go)

    The cache owns the guilds and the members.  A member is one heap object
    reachable both from its guild's slice and from [guildMembersCache]; a guild
    pointer is the cell [(realm, id)] of the cache.  Locks are held for whole
    operations, so every cache operation is atomic. *)
From S2P Require Import Prelude GoRuntime.

(** ** Data *)
Abbreviation loc := nat (only parsing).

Record GuildEmblem := {
  Style : u8; Color : u8; BorderStyle : u8; BorderColor : u8; BackgroundColor : u8
}.

(** GuildRank *)
Record GuildRank := {
  gr_GuildID : u64; gr_Rank : u8; gr_Name : string; gr_Rights : u32; gr_MoneyPerDay : u32
}.

Inductive GuildMemberStatus := GuildMemberStatusOffline | GuildMemberStatusOnline.

(** GuildMember *)
Record GuildMember := {
  gm_GuildID : u64; gm_PlayerGUID : u64; gm_Rank : u8; gm_PublicNote : string;
  gm_OfficerNote : string; gm_Name : string; gm_Race : u8; gm_Class : u8; gm_Lvl : u8;
  gm_Gender : u8; gm_AreaID : u32; gm_Account : u64; gm_LogoutTime : Z;
  gm_Status : GuildMemberStatus
}.

(** Guild; [g_GuildMembers] holds pointers. *)
Record Guild := {
  g_RealmID : u32; g_ID : u64; g_Name : string; g_CrateTimeUnix : Z; g_LeaderGUID : u64;
  g_Emblem : GuildEmblem; g_Info : string; g_MessageOfTheDay : string; g_BankMoney : u64;
  g_GuildRanks : list GuildRank; g_GuildMembers : list loc
}.

Definition GuildRankGuildMaster : u8 := 0.
Definition GuildRankOfficer : u8 := 1.
Definition GuildRankVeteran : u8 := 2.
Definition GuildRankMember : u8 := 3.
Definition GuildRankInitiate : u8 := 4.
Definition GuildRankMax : int := 10.

Definition RightEmpty : u32 := 0x40.
Definition RightChatListen : u32 := Z.lor RightEmpty 0x1.
Definition RightChatSpeak : u32 := Z.lor RightEmpty 0x2.
Definition RightOfficerChatListen : u32 := Z.lor RightEmpty 0x4.
Definition RightOfficerChatSpeak : u32 := Z.lor RightEmpty 0x8.
Definition RightInvite : u32 := Z.lor RightEmpty 0x10.
Definition RightRemove : u32 := Z.lor RightEmpty 0x20.
Definition RightPromote : u32 := Z.lor RightEmpty 0x80.
Definition RightDemote : u32 := Z.lor RightEmpty 0x100.
Definition RightSetMessageOfTheDay : u32 := Z.lor RightEmpty 0x1000.
Definition RightEditPublicNote : u32 := Z.lor RightEmpty 0x2000.
Definition RightViewOfficersNote : u32 := Z.lor RightEmpty 0x4000.
Definition RightEditOfficersNote : u32 := Z.lor RightEmpty 0x8000.
Definition RightModifyGuildInfo : u32 := Z.lor RightEmpty 0x10000.
Definition RightAll : u32 := 0x1DF1FF.

Definition HasRight (r : GuildRank) (right : u32) : bool :=
  negb (Z.land (gr_Rights r) right =? RightEmpty).

(** *** Field assignments *)
Definition set_GuildMembers (g : Guild) (ms : list loc) : Guild :=
  {| g_RealmID := g_RealmID g; g_ID := g_ID g; g_Name := g_Name g;
     g_CrateTimeUnix := g_CrateTimeUnix g; g_LeaderGUID := g_LeaderGUID g; g_Emblem := g_Emblem g;
     g_Info := g_Info g; g_MessageOfTheDay := g_MessageOfTheDay g; g_BankMoney := g_BankMoney g;
     g_GuildRanks := g_GuildRanks g; g_GuildMembers := ms |}.
Definition set_GuildRanks (g : Guild) (rs : list GuildRank) : Guild :=
  {| g_RealmID := g_RealmID g; g_ID := g_ID g; g_Name := g_Name g;
     g_CrateTimeUnix := g_CrateTimeUnix g; g_LeaderGUID := g_LeaderGUID g; g_Emblem := g_Emblem g;
     g_Info := g_Info g; g_MessageOfTheDay := g_MessageOfTheDay g; g_BankMoney := g_BankMoney g;
     g_GuildRanks := rs; g_GuildMembers := g_GuildMembers g |}.
Definition set_texts (g : Guild) (info motd : string) : Guild :=
  {| g_RealmID := g_RealmID g; g_ID := g_ID g; g_Name := g_Name g;
     g_CrateTimeUnix := g_CrateTimeUnix g; g_LeaderGUID := g_LeaderGUID g; g_Emblem := g_Emblem g;
     g_Info := info; g_MessageOfTheDay := motd; g_BankMoney := g_BankMoney g;
     g_GuildRanks := g_GuildRanks g; g_GuildMembers := g_GuildMembers g |}.

Definition set_notes (m : GuildMember) (public officer : string) : GuildMember :=
  {| gm_GuildID := gm_GuildID m; gm_PlayerGUID := gm_PlayerGUID m; gm_Rank := gm_Rank m;
     gm_PublicNote := public; gm_OfficerNote := officer; gm_Name := gm_Name m;
     gm_Race := gm_Race m; gm_Class := gm_Class m; gm_Lvl := gm_Lvl m; gm_Gender := gm_Gender m;
     gm_AreaID := gm_AreaID m; gm_Account := gm_Account m; gm_LogoutTime := gm_LogoutTime m;
     gm_Status := gm_Status m |}.
Definition set_Rank (m : GuildMember) (rank : u8) : GuildMember :=
  {| gm_GuildID := gm_GuildID m; gm_PlayerGUID := gm_PlayerGUID m; gm_Rank := rank;
     gm_PublicNote := gm_PublicNote m; gm_OfficerNote := gm_OfficerNote m; gm_Name := gm_Name m;
     gm_Race := gm_Race m; gm_Class := gm_Class m; gm_Lvl := gm_Lvl m; gm_Gender := gm_Gender m;
     gm_AreaID := gm_AreaID m; gm_Account := gm_Account m; gm_LogoutTime := gm_LogoutTime m;
     gm_Status := gm_Status m |}.
Definition set_Status (m : GuildMember) (status : GuildMemberStatus) (logout : Z) : GuildMember :=
  {| gm_GuildID := gm_GuildID m; gm_PlayerGUID := gm_PlayerGUID m; gm_Rank := gm_Rank m;
     gm_PublicNote := gm_PublicNote m; gm_OfficerNote := gm_OfficerNote m; gm_Name := gm_Name m;
     gm_Race := gm_Race m; gm_Class := gm_Class m; gm_Lvl := gm_Lvl m; gm_Gender := gm_Gender m;
     gm_AreaID := gm_AreaID m; gm_Account := gm_Account m; gm_LogoutTime := logout;
     gm_Status := status |}.
Definition set_place (m : GuildMember) (area : u32) (lvl : u8) : GuildMember :=
  {| gm_GuildID := gm_GuildID m; gm_PlayerGUID := gm_PlayerGUID m; gm_Rank := gm_Rank m;
     gm_PublicNote := gm_PublicNote m; gm_OfficerNote := gm_OfficerNote m; gm_Name := gm_Name m;
     gm_Race := gm_Race m; gm_Class := gm_Class m; gm_Lvl := lvl; gm_Gender := gm_Gender m;
     gm_AreaID := area; gm_Account := gm_Account m; gm_LogoutTime := gm_LogoutTime m;
     gm_Status := gm_Status m |}.

(** *** Rows of the character database *)
Record guild_row := {
  row_guildid : u64; row_name : string; row_leaderguid : u64; row_emblem : GuildEmblem;
  row_info : string; row_motd : string; row_createdate : Z; row_BankMoney : u64
}.

(** What [LoadAllForRealm] selects; the member row has every column but the
    race, which is not queried. *)
Record guild_tables := {
  t_guild : list guild_row; t_guild_rank : list GuildRank; t_guild_member : list GuildMember
}.

(** *** Events consumed *)
Record CharacterUpdate := {
  u_ID : u64; u_Lvl : option u8; u_Map : option u32; u_Area : option u32; u_Zone : option u32
}.

(** *** Errors *)
Inductive guild_err :=
| ErrDB | ErrBus | ErrNoRows
| ErrNotEnoughRight | ErrGuildNotFound | ErrLeaderCantLeave
| ErrInviteeInGuild | ErrNoRank (player guild : u64) | ErrCantInvite (e : guild_err)
| ErrNoInvites | ErrRankLimit | ErrAlreadyLowest.

(** ** State *)
Record guilds_state := {
  heap : gmap loc GuildMember;                       (* the member objects *)
  next_loc : loc;
  cache : gmap u32 (gmap u64 Guild);
  guildMembersCache : gmap u32 (gmap u64 loc);
  guild_invites : gmap (u32 * u64) u64               (* table guild_invites, by realm and charGuid *)
}.

Definition set_heap (s : guilds_state) h :=
  {| heap := h; next_loc := next_loc s; cache := cache s;
     guildMembersCache := guildMembersCache s; guild_invites := guild_invites s |}.
Definition set_cache (s : guilds_state) c :=
  {| heap := heap s; next_loc := next_loc s; cache := c;
     guildMembersCache := guildMembersCache s; guild_invites := guild_invites s |}.
Definition set_members (s : guilds_state) m :=
  {| heap := heap s; next_loc := next_loc s; cache := cache s;
     guildMembersCache := m; guild_invites := guild_invites s |}.
Definition set_invites (s : guilds_state) i :=
  {| heap := heap s; next_loc := next_loc s; cache := cache s;
     guildMembersCache := guildMembersCache s; guild_invites := i |}.
Definition new_member (s : guilds_state) (m : GuildMember) :=
  {| heap := <[next_loc s := m]> (heap s); next_loc := S (next_loc s); cache := cache s;
     guildMembersCache := guildMembersCache s; guild_invites := guild_invites s |}.

Definition guild_at (s : guilds_state) (realmID : u32) (guildID : u64) : option Guild :=
  cache s !! realmID ≫= (.!! guildID).
Definition member_at (s : guilds_state) (realmID : u32) (guid : u64) : option loc :=
  guildMembersCache s !! realmID ≫= (.!! guid).

(** Write through a guild pointer, through a member pointer. *)
Definition update_guild (realmID : u32) (guildID : u64) (f : Guild -> Guild) (s : guilds_state) :=
  set_cache s (alter (alter f guildID) realmID (cache s)).
Definition update_member (l : loc) (f : GuildMember -> GuildMember) (s : guilds_state) :=
  set_heap s (alter f l (heap s)).

(** ** Operations *)
Section Cache.
Context {E : Type} `{MapRange}.
Variable tables : u32 -> guild_tables.

Abbreviation M A := (go guilds_state E guild_err A).

(** One MySQL statement. *)
Definition db : M unit := ext ErrDB.

(** *** repo/guilds_mysql.go *)
Definition guild_of_row (r : guild_row) : Guild :=
  {| g_RealmID := 0; g_ID := row_guildid r; g_Name := row_name r;
     g_CrateTimeUnix := row_createdate r; g_LeaderGUID := row_leaderguid r;
     g_Emblem := row_emblem r; g_Info := row_info r; g_MessageOfTheDay := row_motd r;
     g_BankMoney := row_BankMoney r; g_GuildRanks := []; g_GuildMembers := [] |}.

Definition member_of_row (m : GuildMember) : GuildMember :=
  {| gm_GuildID := gm_GuildID m; gm_PlayerGUID := gm_PlayerGUID m; gm_Rank := gm_Rank m;
     gm_PublicNote := gm_PublicNote m; gm_OfficerNote := gm_OfficerNote m; gm_Name := gm_Name m;
     gm_Race := 0; gm_Class := gm_Class m; gm_Lvl := gm_Lvl m; gm_Gender := gm_Gender m;
     gm_AreaID := gm_AreaID m; gm_Account := gm_Account m; gm_LogoutTime := gm_LogoutTime m;
     gm_Status := gm_Status m |}.

Definition load_guilds (rows : list guild_row) : gmap u64 Guild :=
  foldl (fun result r => <[row_guildid r := guild_of_row r]> result) ∅ rows.

Definition load_ranks (rows : list GuildRank) (result : gmap u64 Guild) : gmap u64 Guild :=
  foldl (fun result r =>
    alter (fun g => set_GuildRanks g (g_GuildRanks g ++ [r])) (gr_GuildID r) result) result rows.

Definition load_member (s : guilds_state * gmap u64 Guild) (row : GuildMember) :=
  let '(s, result) := s in
  (new_member s (member_of_row row),
   alter (fun g => set_GuildMembers g (g_GuildMembers g ++ [next_loc s])) (gm_GuildID row) result).

Definition LoadAllForRealm (realmID : u32) : M (gmap u64 Guild) :=
  db ;; db ;; db ;;
  s ← gets id;
  let result := load_ranks (t_guild_rank (tables realmID)) (load_guilds (t_guild (tables realmID))) in
  let '(s', result) := foldl load_member (s, result) (t_guild_member (tables realmID)) in
  modify (fun _ => s') ;; mret result.

Definition AddGuildInvite (realmID : u32) (charGUID guildID : u64) : M unit :=
  db ;; modify (fun s => set_invites s (<[(realmID, charGUID) := guildID]> (guild_invites s))).

Definition GuildIDByCharInvite (realmID : u32) (charGUID : u64) : M u64 :=
  db ;;
  row ← gets (fun s => guild_invites s !! (realmID, charGUID));
  match row with Some guildID => mret guildID | None => fail ErrNoRows end.

Definition RemoveGuildInviteForCharacter (realmID : u32) (charGUID : u64) : M unit :=
  db ;; modify (fun s => set_invites s (delete (realmID, charGUID) (guild_invites s))).

(** *** service/guilds-cache_inmem.go *)
Definition GuildIDByRealmAndMemberGUID (realmID : u32) (memberGUID : u64) : M u64 :=
  s ← gets id;
  match member_at s realmID memberGUID with
  | None => mret 0
  | Some l => m ← deref (heap s !! l); mret (gm_GuildID m)
  end.

(** A pointer to the guild, or nil. *)
Definition GuildByRealmAndID (realmID : u32) (guildID : u64) : M (option (u32 * u64)) :=
  s ← gets id;
  mret (match guild_at s realmID guildID with Some _ => Some (realmID, guildID) | None => None end).

(** Both map writes panic on a realm that was never warmed up. *)
Definition AddGuildMember (realmID : u32) (member : GuildMember) : M unit :=
  db ;;
  s ← gets id;
  ms ← deref (guildMembersCache s !! realmID);
  let l := next_loc s in
  modify (fun s => set_members (new_member s member)
    (<[realmID := <[gm_PlayerGUID member := l]> ms]> (guildMembersCache s))) ;;
  g ← deref (guild_at s realmID (gm_GuildID member));
  modify (update_guild realmID (gm_GuildID member)
    (fun g => set_GuildMembers g (g_GuildMembers g ++ [l]))).

(** The loop that cuts the first member with the guid out of the slice. *)
Fixpoint cut_member (h : gmap loc GuildMember) (guid : u64) (ls : list loc) : list loc :=
  match ls with
  | [] => []
  | l :: ls =>
    if bool_decide (gm_PlayerGUID <$> (h !! l) = Some guid) then ls
    else l :: cut_member h guid ls
  end.

Definition RemoveGuildMember (realmID : u32) (characterGUID : u64) : M unit :=
  db ;;
  s ← gets id;
  match member_at s realmID characterGUID with
  | None => mret tt
  | Some l =>
    modify (fun s => set_members s (alter (delete characterGUID) realmID (guildMembersCache s))) ;;
    member ← deref (heap s !! l);
    g ← deref (guild_at s realmID (gm_GuildID member));
    modify (fun s => update_guild realmID (gm_GuildID member)
      (fun g => set_GuildMembers g (cut_member (heap s) characterGUID (g_GuildMembers g))) s)
  end.

Definition cached_guild_update (realmID : u32) (guildID : u64) (f : Guild -> Guild) : M unit :=
  db ;; modify (update_guild realmID guildID f).

Definition cached_member_update (realmID : u32) (memberGUID : u64)
    (f : GuildMember -> GuildMember) : M unit :=
  modify (fun s => match member_at s realmID memberGUID with
                   | Some l => update_member l f s
                   | None => s
                   end).

Definition SetMessageOfTheDay_repo (realmID : u32) (guildID : u64) (message : string) : M unit :=
  cached_guild_update realmID guildID (fun g => set_texts g (g_Info g) message).

Definition SetGuildInfo_repo (realmID : u32) (guildID : u64) (info : string) : M unit :=
  cached_guild_update realmID guildID (fun g => set_texts g info (g_MessageOfTheDay g)).

Definition SetMemberPublicNote_repo (realmID : u32) (memberGUID : u64) (note : string) : M unit :=
  db ;; cached_member_update realmID memberGUID (fun m => set_notes m note (gm_OfficerNote m)).

Definition SetMemberOfficerNote_repo (realmID : u32) (memberGUID : u64) (note : string) : M unit :=
  db ;; cached_member_update realmID memberGUID (fun m => set_notes m (gm_PublicNote m) note).

Definition SetMemberRank_repo (realmID : u32) (memberGUID : u64) (rank : u8) : M unit :=
  db ;; cached_member_update realmID memberGUID (fun m => set_Rank m rank).

Fixpoint replace_rank (r : GuildRank) (ranks : list GuildRank) : list GuildRank :=
  match ranks with
  | [] => []
  | x :: xs => if gr_Rank x =? gr_Rank r then r :: xs else x :: replace_rank r xs
  end.

Definition UpdateGuildRank_repo (realmID : u32) (guildID : u64) (r : GuildRank) : M unit :=
  cached_guild_update realmID guildID (fun g => set_GuildRanks g (replace_rank r (g_GuildRanks g))).

Definition AddGuildRank_repo (realmID : u32) (guildID : u64) (r : GuildRank) : M unit :=
  cached_guild_update realmID guildID (fun g => set_GuildRanks g (g_GuildRanks g ++ [r])).

Definition DeleteLowestGuildRank (realmID : u32) (guildID : u64) (rank : u8) : M unit :=
  cached_guild_update realmID guildID (fun g =>
    if len (g_GuildRanks g) <? rank then g
    else set_GuildRanks g (take (Z.to_nat rank) (g_GuildRanks g))).

Definition index_members (s : guilds_state) (guilds : gmap u64 Guild) : gmap u64 loc :=
  foldl (fun acc '(_, g) =>
    foldl (fun acc l =>
      match heap s !! l with
      | Some m => <[gm_PlayerGUID m := l]> acc
      | None => acc
      end) acc (g_GuildMembers g)) ∅ (go_range 0 guilds).

Definition Warmup (realmID : u32) : M unit :=
  guilds ← LoadAllForRealm realmID;
  modify (fun s =>
    set_members (set_cache s (<[realmID := guilds]> (cache s)))
      (<[realmID := index_members s guilds]> (guildMembersCache s))).

Definition HandleCharacterLoggedIn (realmID : u32) (charGUID : u64) : M unit :=
  cached_member_update realmID charGUID
    (fun m => set_Status m GuildMemberStatusOnline (gm_LogoutTime m)).

Definition HandleCharacterLoggedOut (now : Z) (realmID : u32) (charGUID : u64) : M unit :=
  cached_member_update realmID charGUID (fun m => set_Status m GuildMemberStatusOffline now).

Definition applyCharUpdate (m : GuildMember) (upd : CharacterUpdate) : GuildMember :=
  set_place m (default (gm_AreaID m) (u_Area upd)) (default (gm_Lvl m) (u_Lvl upd)).

Fixpoint HandleCharactersUpdates (realmID : u32) (updates : list CharacterUpdate) : M unit :=
  match updates with
  | [] => mret tt
  | u :: us =>
    cached_member_update realmID (u_ID u) (fun m => applyCharUpdate m u) ;;
    HandleCharactersUpdates realmID us
  end.
End Cache.

(** ** The cache invariant

    Every member index entry points to a live object with that guid that its
    guild lists; every listed object is indexed under its guid; nobody with a
    pending invite is a member; the two maps know the same realms. *)
Record guilds_ok (s : guilds_state) : Prop := {
  ok_fresh : forall l m, heap s !! l = Some m -> (l < next_loc s)%nat;
  ok_member : forall realm guid l, member_at s realm guid = Some l ->
    exists m g, heap s !! l = Some m /\ gm_PlayerGUID m = guid /\
      guild_at s realm (gm_GuildID m) = Some g /\ l ∈ g_GuildMembers g;
  ok_guild : forall realm id g, guild_at s realm id = Some g ->
    (g_ID g = id /\ id <> 0) /\ NoDup (g_GuildMembers g) /\
    forall l, l ∈ g_GuildMembers g -> exists m, heap s !! l = Some m /\ gm_GuildID m = id /\
      member_at s realm (gm_PlayerGUID m) = Some l;
  ok_invites : forall realm guid id, guild_invites s !! (realm, guid) = Some id ->
    member_at s realm guid = None;
  ok_realms : forall realm, is_Some (cache s !! realm) <-> is_Some (guildMembersCache s !! realm)
}.

Lemma guild_at_update r i f s r' i' :
  guild_at (update_guild r i f s) r' i' =
    (if decide (r = r' /\ i = i') then f <$> guild_at s r' i' else guild_at s r' i').
Proof.
  unfold guild_at, update_guild; simpl. rewrite lookup_alter.
  destruct (decide (r = r')) as [->|Hr].
  - destruct (cache s !! r') as [gs|]; simpl; [|by case_decide].
    rewrite lookup_alter. repeat case_decide; naive_solver.
  - rewrite decide_False by naive_solver. done.
Qed.

Lemma cache_update_is_Some r i f s r' :
  is_Some (cache (update_guild r i f s) !! r') <-> is_Some (cache s !! r').
Proof. unfold update_guild; simpl. rewrite lookup_alter. case_decide; subst; by rewrite ?fmap_is_Some. Qed.

Lemma guilds_ok_update_guild s r i f :
  (forall g, g_ID (f g) = g_ID g /\ g_GuildMembers (f g) = g_GuildMembers g) ->
  guilds_ok s -> guilds_ok (update_guild r i f s).
Proof.
  intros Hf [Hfr Hm Hg Hi Hr]. constructor; try done.
  - intros realm guid l Hl. destruct (Hm realm guid l Hl) as (m & g & Hh & Hp & Hgu & Hin).
    exists m. rewrite guild_at_update, Hgu. case_decide; simpl; [|by exists g].
    exists (f g). by rewrite (proj2 (Hf g)).
  - intros realm id g. rewrite guild_at_update. case_decide; [|by apply Hg].
    intros (g' & E & ->)%fmap_Some. destruct (Hf g') as [-> ->]. by apply Hg.
  - intros realm. rewrite cache_update_is_Some. apply Hr.
Qed.

Lemma guilds_ok_update_member s r guid f :
  (forall m, gm_PlayerGUID (f m) = gm_PlayerGUID m /\ gm_GuildID (f m) = gm_GuildID m) ->
  guilds_ok s ->
  guilds_ok (match member_at s r guid with Some l => update_member l f s | None => s end).
Proof.
  intros Hf Hok. destruct (member_at s r guid) as [l0|]; [|done].
  destruct Hok as [Hfr Hm Hg Hi Hr]. constructor; try done; simpl.
  - intros l m. rewrite lookup_alter. case_decide; subst; [|by eauto].
    intros (m' & E & _)%fmap_Some. eauto.
  - intros realm u l Hl. destruct (Hm realm u l Hl) as (m & g & Hh & Hp & Hgu & Hin).
    rewrite lookup_alter. case_decide; subst; rewrite Hh; [|by exists m, g].
    exists (f m), g. destruct (Hf m) as [-> ->]. done.
  - intros realm id g Hgu. destruct (Hg realm id g Hgu) as (? & ? & Hall).
    split; [done|split; [done|]]. intros l Hl. destruct (Hall l Hl) as (m & Hh & Hid & Hat).
    rewrite lookup_alter. case_decide; subst; rewrite Hh; [|by exists m].
    exists (f m). destruct (Hf m) as [-> ->]. done.
Qed.

Lemma guilds_ok_invite s realm char id :
  member_at s realm char = None -> guilds_ok s ->
  guilds_ok (set_invites s (<[(realm, char) := id]> (guild_invites s))).
Proof.
  intros Hn [Hfr Hm Hg Hi Hr]. constructor; try done; simpl.
  intros r c i. rewrite lookup_insert. case_decide as E; [|by apply Hi].
  injection E as <- <-. done.
Qed.

Lemma guilds_ok_uninvite s k :
  guilds_ok s -> guilds_ok (set_invites s (delete k (guild_invites s))).
Proof.
  intros [Hfr Hm Hg Hi Hr]. constructor; try done; simpl.
  intros r c i. rewrite lookup_delete. case_decide; [done|by apply Hi].
Qed.

(** The slice loses exactly the member's object. *)
Lemma cut_member_spec h guid l ls :
  NoDup ls -> l ∈ ls -> gm_PlayerGUID <$> (h !! l) = Some guid ->
  (forall l', l' ∈ ls -> gm_PlayerGUID <$> (h !! l') = Some guid -> l' = l) ->
  NoDup (cut_member h guid ls) /\
  forall l', l' ∈ cut_member h guid ls <-> l' ∈ ls /\ l' <> l.
Proof.
  intros Hnd Hin Hl Huniq. induction ls as [|x ls IH]; [by apply elem_of_nil in Hin|].
  inversion Hnd as [|? ? Hx Hnd']; subst. simpl. case_bool_decide as E.
  - assert (x = l) as -> by (apply Huniq; [left|done]). split; [done|].
    intros l'. rewrite elem_of_cons. naive_solver.
  - assert (x <> l) by (intros ->; done). apply elem_of_cons in Hin as [->|Hin]; [done|].
    destruct IH as [IH1 IH2]; [done..| |]; [intros l' ?; apply Huniq; by right|].
    split.
    + constructor; [|done]. rewrite IH2. naive_solver.
    + intros l'. rewrite !elem_of_cons, IH2. naive_solver.
Qed.

(** *** Adding and removing members *)
Definition member_added (realmID : u32) (ms : gmap u64 loc) (member : GuildMember) (s : guilds_state) :=
  let l := next_loc s in
  update_guild realmID (gm_GuildID member)
    (fun g => set_GuildMembers g (g_GuildMembers g ++ [l]))
    (set_members (new_member s member)
      (<[realmID := <[gm_PlayerGUID member := l]> ms]> (guildMembersCache s))).

Definition member_removed (realmID : u32) (guid : u64) (member : GuildMember) (s : guilds_state) :=
  update_guild realmID (gm_GuildID member)
    (fun g => set_GuildMembers g (cut_member (heap s) guid (g_GuildMembers g)))
    (set_members s (alter (delete guid) realmID (guildMembersCache s))).

Lemma member_at_added realmID ms member s r g :
  guildMembersCache s !! realmID = Some ms ->
  member_at (member_added realmID ms member s) r g =
    if decide (r = realmID /\ g = gm_PlayerGUID member) then Some (next_loc s) else member_at s r g.
Proof.
  intros Hms. unfold member_at, member_added; simpl. rewrite lookup_insert.
  destruct (decide (realmID = r)) as [<-|Hr]; simpl.
  - rewrite Hms. simpl. rewrite lookup_insert. repeat case_decide; naive_solver.
  - by rewrite decide_False by naive_solver.
Qed.

Lemma member_at_removed realmID guid m s r g :
  member_at (member_removed realmID guid m s) r g =
    if decide (r = realmID /\ g = guid) then None else member_at s r g.
Proof.
  unfold member_at, member_removed; simpl. rewrite lookup_alter.
  destruct (decide (realmID = r)) as [<-|Hr]; simpl.
  - destruct (guildMembersCache s !! realmID) as [ms|]; simpl; [|by case_decide].
    rewrite lookup_delete. repeat case_decide; naive_solver.
  - by rewrite decide_False by naive_solver.
Qed.

Lemma guilds_ok_added s realmID ms member g0 :
  guilds_ok s -> guildMembersCache s !! realmID = Some ms ->
  guild_at s realmID (gm_GuildID member) = Some g0 ->
  member_at s realmID (gm_PlayerGUID member) = None ->
  guild_invites s !! (realmID, gm_PlayerGUID member) = None ->
  guilds_ok (member_added realmID ms member s).
Proof.
  intros [Hfr Hm Hg Hi Hr] Hms Hg0 Hnew Hinv.
  assert (Hheap : forall l m, heap s !! l = Some m -> <[next_loc s := member]> (heap s) !! l = Some m).
  { intros l m Hl. rewrite lookup_insert_ne; [done|]. specialize (Hfr l m Hl). lia. }
  constructor.
  - intros l m. simpl. rewrite lookup_insert. case_decide; [lia|].
    intros Hl. specialize (Hfr l m Hl). lia.
  - intros r u l. rewrite (member_at_added _ ms) by done. case_decide as E.
    + intros [= <-]. destruct E as [-> ->]. exists member. eexists.
      split_and!; [by simpl; rewrite lookup_insert_eq|done| |].
      * unfold member_added. rewrite guild_at_update, decide_True by done.
        change (guild_at (set_members _ _) ?a ?b) with (guild_at s a b). rewrite Hg0. done.
      * simpl. apply elem_of_app. right. by apply list_elem_of_singleton.
    + intros Hl. destruct (Hm r u l Hl) as (m & g & Hh & Hp & Hgu & Hin).
      exists m. unfold member_added. rewrite guild_at_update.
      change (guild_at (set_members _ _) ?a ?b) with (guild_at s a b). rewrite Hgu.
      destruct (decide _); simpl; eexists; split_and!; try done; [by apply Hheap| |by apply Hheap].
      simpl. apply elem_of_app. by left.
  - intros r i g. unfold member_added at 1. rewrite guild_at_update.
    change (guild_at (set_members _ _) ?a ?b) with (guild_at s a b).
    assert (Hold : forall g, guild_at s r i = Some g -> forall l, l ∈ g_GuildMembers g ->
      exists m, heap (member_added realmID ms member s) !! l = Some m /\ gm_GuildID m = i /\
        member_at (member_added realmID ms member s) r (gm_PlayerGUID m) = Some l).
    { intros g' Hg' l Hl. destruct (Hg r i g' Hg') as (_ & _ & Hall).
      destruct (Hall l Hl) as (m & Hh & Hid & Hat). exists m. split_and!; [by apply Hheap|done|].
      rewrite (member_at_added _ ms) by done. rewrite decide_False; [done|].
      intros [-> E]. rewrite E in Hat. congruence. }
    case_decide as E.
    + destruct E as [<- <-]. intros (g' & Hg' & ->)%fmap_Some. simpl.
      destruct (Hg _ _ g' Hg') as (Hid & Hnd & Hall). split; [done|]. split.
      * apply NoDup_app. split_and!; [done| |apply NoDup_singleton].
        intros l Hl E%list_elem_of_singleton; subst l. destruct (Hall _ Hl) as (m & Hh & _).
        specialize (Hfr _ _ Hh). lia.
      * intros l [Hl|Hl]%elem_of_app; [by eapply Hold|]. apply list_elem_of_singleton in Hl as ->.
        exists member. split_and!; [simpl; by rewrite lookup_insert_eq|done|].
        rewrite (member_at_added _ ms) by done. by rewrite decide_True.
    + intros Hg'. destruct (Hg _ _ g Hg') as (Hid & Hnd & _). split; [done|split; [done|by apply Hold]].
  - intros r u i Hinvite. rewrite (member_at_added _ ms) by done.
    change (guild_invites (member_added realmID ms member s)) with (guild_invites s) in Hinvite.
    rewrite decide_False; [by eapply Hi|]. intros [-> ->]. congruence.
  - intros r. unfold member_added. rewrite cache_update_is_Some. simpl.
    rewrite lookup_insert. case_decide; subst; [|done]. rewrite Hr, Hms. by split.
Qed.

Lemma guilds_ok_removed s realmID guid l m :
  guilds_ok s -> member_at s realmID guid = Some l -> heap s !! l = Some m ->
  guilds_ok (member_removed realmID guid m s).
Proof.
  intros Hok Hat Hhl. pose proof Hok as [Hfr Hm Hg Hi Hr].
  destruct (Hm realmID guid l Hat) as (m' & g0 & Hh & Hp & Hg0 & Hin). simplify_eq.
  assert (Hcut : forall g, guild_at s realmID (gm_GuildID m) = Some g ->
    NoDup (cut_member (heap s) (gm_PlayerGUID m) (g_GuildMembers g)) /\
    forall l', l' ∈ cut_member (heap s) (gm_PlayerGUID m) (g_GuildMembers g) <->
      l' ∈ g_GuildMembers g /\ l' <> l).
  { intros g Hgg. assert (g = g0) as -> by congruence. destruct (Hg _ _ _ Hgg) as (_ & Hnd & Hall).
    apply cut_member_spec; [done|done|by rewrite Hhl|].
    intros l' Hl' (m' & Hh' & E)%fmap_Some. destruct (Hall l' Hl') as (m'' & Hh'' & _ & Hat').
    simplify_eq. rewrite <- E in Hat'. congruence. }
  constructor.
  - exact Hfr.
  - intros r u l'. rewrite member_at_removed. case_decide as E; [done|]. intros Hl'.
    destruct (Hm r u l' Hl') as (m' & g & Hh' & Hp' & Hgu & Hin').
    exists m'. unfold member_removed. rewrite guild_at_update.
    change (guild_at (set_members _ _) ?a ?b) with (guild_at s a b). rewrite Hgu.
    case_decide as E'; simpl; eexists; split_and!; try done. simpl.
    destruct E' as [<- E']. rewrite <- E' in Hgu. apply Hcut; [done|]. split; [done|].
    intros ->. apply E. split; [done|congruence].
  - intros r i g. unfold member_removed at 1. rewrite guild_at_update.
    change (guild_at (set_members _ _) ?a ?b) with (guild_at s a b).
    case_decide as E.
    + destruct E as [<- <-]. intros (g' & Hg' & ->)%fmap_Some.
      destruct (Hg _ _ _ Hg') as (Hid & Hnd & Hall). simpl. split; [done|].
      destruct (Hcut g' Hg') as [Hnd' Hiff]. split; [done|].
      intros l' [Hl' Hne]%Hiff. destruct (Hall l' Hl') as (m' & Hh' & Hid' & Hat').
      exists m'. split_and!; [done..|]. rewrite member_at_removed, decide_False; [done|].
      intros [_ E]. rewrite E in Hat'. congruence.
    + intros Hg'. destruct (Hg _ _ _ Hg') as (Hid & Hnd & Hall). split; [done|split; [done|]].
      intros l' Hl'. destruct (Hall l' Hl') as (m' & Hh' & Hid' & Hat').
      exists m'. split_and!; [done..|]. rewrite member_at_removed, decide_False; [done|].
      intros [-> E2]. apply E. split; [done|]. rewrite E2, Hat in Hat'. congruence.
  - intros r u i Hinv. rewrite member_at_removed. case_decide; [done|]. by eapply Hi.
  - intros r. unfold member_removed. rewrite cache_update_is_Some. simpl.
    rewrite lookup_alter. case_decide; subst; rewrite ?fmap_is_Some; apply Hr.
Qed.

(** *** Every cache operation keeps the invariant *)
Section CacheKeeps.
Context {E : Type} `{MapRange}.

Abbreviation M A := (go guilds_state E guild_err A).

Lemma keeps_db I : keeps I (db : M unit).
Proof. apply keeps_ext. Qed.

Lemma keeps_GuildIDByCharInvite I r c : keeps I (GuildIDByCharInvite r c : M u64).
Proof. unfold GuildIDByCharInvite, db. keeps_tac. Qed.

Lemma keeps_GuildIDByRealmAndMemberGUID I r g : keeps I (GuildIDByRealmAndMemberGUID r g : M u64).
Proof. unfold GuildIDByRealmAndMemberGUID. keeps_tac. Qed.

Lemma keeps_GuildByRealmAndID I r g : keeps I (GuildByRealmAndID r g : M _).
Proof. unfold GuildByRealmAndID. keeps_tac. Qed.

Lemma keeps_cached_guild_update r i f :
  (forall g, g_ID (f g) = g_ID g /\ g_GuildMembers (f g) = g_GuildMembers g) ->
  keeps guilds_ok (cached_guild_update r i f : M unit).
Proof.
  intros Hf. apply keeps_bind; [apply keeps_db|]. intros _. apply keeps_modify.
  intros s. by apply guilds_ok_update_guild.
Qed.

Lemma keeps_cached_member_update r u f :
  (forall m, gm_PlayerGUID (f m) = gm_PlayerGUID m /\ gm_GuildID (f m) = gm_GuildID m) ->
  keeps guilds_ok (cached_member_update r u f : M unit).
Proof. intros Hf. apply keeps_modify. intros s. by apply guilds_ok_update_member. Qed.

Lemma keeps_SetMessageOfTheDay_repo r i t : keeps guilds_ok (SetMessageOfTheDay_repo r i t : M unit).
Proof. by apply keeps_cached_guild_update. Qed.
Lemma keeps_SetGuildInfo_repo r i t : keeps guilds_ok (SetGuildInfo_repo r i t : M unit).
Proof. by apply keeps_cached_guild_update. Qed.
Lemma keeps_UpdateGuildRank_repo r i t : keeps guilds_ok (UpdateGuildRank_repo r i t : M unit).
Proof. by apply keeps_cached_guild_update. Qed.
Lemma keeps_AddGuildRank_repo r i t : keeps guilds_ok (AddGuildRank_repo r i t : M unit).
Proof. by apply keeps_cached_guild_update. Qed.
Lemma keeps_DeleteLowestGuildRank r i t : keeps guilds_ok (DeleteLowestGuildRank r i t : M unit).
Proof. apply keeps_cached_guild_update. intros g. by case_match. Qed.

Lemma keeps_SetMemberPublicNote_repo r i t : keeps guilds_ok (SetMemberPublicNote_repo r i t : M unit).
Proof. apply keeps_bind; [apply keeps_db|]. intros _. by apply keeps_cached_member_update. Qed.
Lemma keeps_SetMemberOfficerNote_repo r i t : keeps guilds_ok (SetMemberOfficerNote_repo r i t : M unit).
Proof. apply keeps_bind; [apply keeps_db|]. intros _. by apply keeps_cached_member_update. Qed.
Lemma keeps_SetMemberRank_repo r i t : keeps guilds_ok (SetMemberRank_repo r i t : M unit).
Proof. apply keeps_bind; [apply keeps_db|]. intros _. by apply keeps_cached_member_update. Qed.

Lemma keeps_HandleCharacterLoggedIn r g : keeps guilds_ok (HandleCharacterLoggedIn r g : M unit).
Proof. by apply keeps_cached_member_update. Qed.
Lemma keeps_HandleCharacterLoggedOut t r g : keeps guilds_ok (HandleCharacterLoggedOut t r g : M unit).
Proof. by apply keeps_cached_member_update. Qed.
Lemma keeps_HandleCharactersUpdates r us : keeps guilds_ok (HandleCharactersUpdates r us : M unit).
Proof.
  induction us as [|u us IH]; simpl; [apply keeps_ret|].
  apply keeps_bind; [by apply keeps_cached_member_update|by intros _].
Qed.

Lemma RemoveGuildMember_keeps r g : keeps guilds_ok (RemoveGuildMember r g : M unit).
Proof.
  apply keeps_bind; [apply keeps_db|]. intros _ s Hs.
  unfold mbind, go_bind, gets, id; simpl.
  destruct (member_at (st s) r g) as [l|] eqn:Hat; [|done].
  destruct (ok_member _ Hs _ _ _ Hat) as (m & gu & Hh & _ & Hgu & _).
  unfold modify; simpl. rewrite Hh. simpl.
  change (guild_at (set_members _ _) ?a ?b) with (guild_at (st s) a b). rewrite Hgu. simpl.
  exact (guilds_ok_removed _ _ _ _ _ Hs Hat Hh).
Qed.

(** A new member must not be one already, and the guild must exist. *)
Lemma AddGuildMember_triple r m :
  triple (fun s => guilds_ok s /\ is_Some (guild_at s r (gm_GuildID m)) /\
                   member_at s r (gm_PlayerGUID m) = None /\
                   guild_invites s !! (r, gm_PlayerGUID m) = None)
         (AddGuildMember r m : M unit) (fun _ => guilds_ok) guilds_ok.
Proof.
  apply (triple_bind _ (fun _ s => guilds_ok s /\ is_Some (guild_at s r (gm_GuildID m)) /\
                   member_at s r (gm_PlayerGUID m) = None /\
                   guild_invites s !! (r, gm_PlayerGUID m) = None)).
  { intros s Hs. unfold db, ext. destruct (faults s) as [|[] fs]; simpl; [done| |done]. apply Hs. }
  intros _ s (Hok & [g Hg] & Hnew & Hinv). unfold mbind, go_bind, gets, id; simpl.
  destruct (guildMembersCache (st s) !! r) as [ms|] eqn:Hms.
  - simpl. unfold modify; simpl.
    change (guild_at (set_members _ _) ?a ?b) with (guild_at (st s) a b). rewrite Hg. simpl.
    by eapply guilds_ok_added.
  - exfalso. assert (is_Some (guildMembersCache (st s) !! r)) as [? E2]; [|congruence].
    apply (ok_realms _ Hok). unfold guild_at in Hg.
    destruct (cache (st s) !! r); [done|discriminate].
Qed.
End CacheKeeps.

#[export] Hint Resolve keeps_db keeps_GuildIDByCharInvite keeps_GuildIDByRealmAndMemberGUID
  keeps_GuildByRealmAndID keeps_SetMessageOfTheDay_repo keeps_SetGuildInfo_repo
  keeps_UpdateGuildRank_repo keeps_AddGuildRank_repo keeps_DeleteLowestGuildRank
  keeps_SetMemberPublicNote_repo keeps_SetMemberOfficerNote_repo keeps_SetMemberRank_repo
  keeps_HandleCharacterLoggedIn keeps_HandleCharacterLoggedOut keeps_HandleCharactersUpdates
  RemoveGuildMember_keeps : keeps.
