(* ===== verification/Guilds.v ===== *)
(** * Guilds: the guild service
    (apps/guildserver/service/guilds.go, shared/events/events-guild.go)

    The service keeps no state of its own: it works on the cache of
    [GuildCache] through guild and member pointers and publishes events.  A
    handler reads through its pointers at the points where the source does. *)
From S2P Require Import Prelude GoRuntime GuildCache.

(** ** Events *)
Record GenericGuildEvent := {
  ge_ServiceID : string; ge_RealmID : u32; ge_GuildID : u64; ge_GuildName : string;
  ge_MembersOnline : list u64
}.

Inductive guild_event :=
| InviteCreated (ServiceID : string) (RealmID : u32) (GuildID : u64) (GuildName : string)
    (InviterGUID : u64) (InviterName : string) (InviteeGUID : u64) (InviteeName : string)
| MemberAdded (ge : GenericGuildEvent) (MemberGUID : u64) (MemberName : string)
| MemberLeft (ge : GenericGuildEvent) (MemberGUID : u64) (MemberName : string)
| MemberKicked (ge : GenericGuildEvent) (MemberGUID : u64) (MemberName : string)
    (KickerGUID : u64) (KickerName : string)
| MemberNoteUpdated (ge : GenericGuildEvent) (MemberGUID : u64) (MemberName : string)
    (UpdaterGUID : u64) (UpdaterName : string) (Note : string)
| MemberOfficerNoteUpdated (ge : GenericGuildEvent) (MemberGUID : u64) (MemberName : string)
    (UpdaterGUID : u64) (UpdaterName : string) (Note : string)
| RankCreated (ge : GenericGuildEvent) (RankID : u8) (RankName : string) (RanksCount : u8)
| RankUpdated (ge : GenericGuildEvent) (RankID : u8) (RankName : string) (RankRights : u32)
    (RankMoneyPerDay : u32) (RanksCount : u8)
| RankDeleted (ge : GenericGuildEvent) (RankID : u8) (RankName : string) (RanksCount : u8)
| MemberPromote (ge : GenericGuildEvent) (RankID : u8) (RankName : string)
    (PromoterGUID : u64) (PromoterName : string) (MemberGUID : u64) (MemberName : string)
| MemberDemote (ge : GenericGuildEvent) (RankID : u8) (RankName : string)
    (DemoterGUID : u64) (DemoterName : string) (MemberGUID : u64) (MemberName : string)
| MOTDUpdated (ge : GenericGuildEvent) (NewMessageOfTheDay : string)
| GuildInfoUpdated (ge : GenericGuildEvent) (NewGuildInfo : string)
| NewMessage (ServiceID : string) (RealmID : u32) (GuildID : u64) (SenderGUID : u64)
    (SenderName : string) (Language : u32) (Msg : string) (ForOfficers : bool)
    (Receivers : list u64).

(** ** Parameters of the calls *)
Record InviteAcceptedParams := {
  CharGUID : u64; CharName : string; CharRace : u8; CharClass : u8; CharLvl : u8;
  CharGender : u8; CharAreaID : u32; CharAccount : u64
}.

Record RankParams := { RankID : u8; rp_Name : string; rp_Rights : u32; rp_MoneyPerDay : u32 }.

(** ** Looking things up in a guild *)
Abbreviation members_heap := (gmap loc GuildMember).

Definition member_guid_is (h : members_heap) (guid : u64) (l : loc) : bool :=
  match h !! l with Some m => gm_PlayerGUID m =? guid | None => false end.

Fixpoint find_first {A} (p : A -> bool) (l : list A) : option A :=
  match l with
  | [] => None
  | x :: l => if p x then Some x else find_first p l
  end.

Definition guildMemberForMemberGuid (h : members_heap) (guild : Guild) (memberGUID : u64) : option loc :=
  find_first (member_guid_is h memberGUID) (g_GuildMembers guild).

Definition rankWithID (guild : Guild) (id : u8) : option GuildRank :=
  find_first (fun rank => gr_Rank rank =? id) (g_GuildRanks guild).

Definition rankForMember (h : members_heap) (guild : Guild) (memberGUID : u64) : option GuildRank :=
  l ← guildMemberForMemberGuid h guild memberGUID;
  member ← h !! l;
  rankWithID guild (gm_Rank member).

Definition lowestRankInGuild (guild : Guild) : u8 :=
  foldl (fun highest rank => if highest <? gr_Rank rank then gr_Rank rank else highest)
    0 (g_GuildRanks guild).

Definition is_online (m : GuildMember) : bool :=
  match gm_Status m with GuildMemberStatusOnline => true | _ => false end.

Definition online_guids (h : members_heap) (ls : list loc) : list u64 :=
  omap (fun l => m ← h !! l; if is_online m then Some (gm_PlayerGUID m) else None) ls.

(** ** Handlers *)
Section Service.
Variable ServiceID : string.

Abbreviation M A := (go guilds_state guild_event guild_err A).

Definition buildGenericEventPayload (h : members_heap) (guild : Guild) : GenericGuildEvent :=
  {| ge_ServiceID := ServiceID; ge_RealmID := g_RealmID guild; ge_GuildID := g_ID guild;
     ge_GuildName := g_Name guild; ge_MembersOnline := online_guids h (g_GuildMembers guild) |}.

(** Read the guild behind a pointer, together with the member objects. *)
Definition load (p : u32 * u64) : M (members_heap * Guild) :=
  s ← gets id; g ← deref (guild_at s p.1 p.2); mret (heap s, g).

(** Read the member behind a pointer that may be nil. *)
Definition load_member (l : option loc) : M GuildMember :=
  l ← deref l; s ← gets id; deref (heap s !! l).

Definition guildByMemberGUID (realmID : u32) (memberGUID : u64) : M (option (u32 * u64)) :=
  guildID ← GuildIDByRealmAndMemberGUID realmID memberGUID;
  if guildID =? 0 then mret None else GuildByRealmAndID realmID guildID.

Definition emit (e : guild_event) : M unit := publish ErrBus e.

Definition InviteMember (realmID : u32) (inviterGUID inviteeGUID : u64) (inviteeName : string) : M unit :=
  guildID ← GuildIDByRealmAndMemberGUID realmID inviterGUID;
  guard_err (guildID =? 0) ErrGuildNotFound ;;
  inviteeGuildID ← GuildIDByRealmAndMemberGUID realmID inviteeGUID;
  guard_err (negb (inviteeGuildID =? 0)) ErrInviteeInGuild ;;
  guild ← GuildByRealmAndID realmID guildID;
  p ← not_nil ErrGuildNotFound guild;
  ' (h, g) ← load p;
  rank ← not_nil (ErrNoRank inviterGUID guildID) (rankForMember h g inviterGUID);
  guard_err (negb (HasRight rank RightInvite)) ErrNotEnoughRight ;;
  wrap_err ErrCantInvite (AddGuildInvite realmID inviteeGUID guildID) ;;
  ' (h, g) ← load p;
  member ← load_member (guildMemberForMemberGuid h g inviterGUID);
  emit (InviteCreated ServiceID realmID guildID (g_Name g) inviterGUID (gm_Name member)
          inviteeGUID inviteeName).

Definition InviteAccepted (realmID : u32) (params : InviteAcceptedParams) : M u64 :=
  guildID ← GuildIDByCharInvite realmID (CharGUID params);
  guard_err (guildID =? 0) ErrNoInvites ;;
  guild ← GuildByRealmAndID realmID guildID;
  p ← not_nil ErrGuildNotFound guild;
  RemoveGuildInviteForCharacter realmID (CharGUID params) ;;
  ' (_, g) ← load p;
  AddGuildMember realmID
    {| gm_GuildID := guildID; gm_PlayerGUID := CharGUID params; gm_Rank := lowestRankInGuild g;
       gm_PublicNote := ""; gm_OfficerNote := ""; gm_Name := CharName params;
       gm_Race := CharRace params; gm_Class := CharClass params; gm_Lvl := CharLvl params;
       gm_Gender := CharGender params; gm_AreaID := CharAreaID params;
       gm_Account := CharAccount params; gm_LogoutTime := 0;
       gm_Status := GuildMemberStatusOnline |} ;;
  guild ← GuildByRealmAndID realmID guildID;
  p ← deref guild;
  ' (h, g) ← load p;
  emit (MemberAdded (buildGenericEventPayload h g) (CharGUID params) (CharName params)) ;;
  mret guildID.

Definition Leave (realmID : u32) (charGUID : u64) : M unit :=
  guild ← guildByMemberGUID realmID charGUID;
  p ← not_nil ErrGuildNotFound guild;
  ' (h, g) ← load p;
  rank ← deref (rankForMember h g charGUID);
  guard_err (gr_Rank rank =? GuildRankGuildMaster) ErrLeaderCantLeave ;;
  let member := guildMemberForMemberGuid h g charGUID in
  let payload := buildGenericEventPayload h g in
  RemoveGuildMember realmID charGUID ;;
  m ← load_member member;
  emit (MemberLeft payload (gm_PlayerGUID m) (gm_Name m)).

Definition Kick (realmID : u32) (kicker target : u64) : M unit :=
  guild ← guildByMemberGUID realmID kicker;
  p ← not_nil ErrGuildNotFound guild;
  targetsGuildID ← GuildIDByRealmAndMemberGUID realmID target;
  ' (h, g) ← load p;
  guard_err (negb (g_ID g =? targetsGuildID)) ErrNotEnoughRight ;;
  let kickerMember := guildMemberForMemberGuid h g kicker in
  let targetMember := guildMemberForMemberGuid h g target in
  rankOfKicker ← deref (rankForMember h g kicker);
  guard_err (negb (HasRight rankOfKicker RightRemove)) ErrNotEnoughRight ;;
  rankOfTarget ← deref (rankForMember h g target);
  guard_err (gr_Rank rankOfTarget <=? gr_Rank rankOfKicker) ErrNotEnoughRight ;;
  let payload := buildGenericEventPayload h g in
  RemoveGuildMember realmID target ;;
  t ← load_member targetMember;
  k ← load_member kickerMember;
  emit (MemberKicked payload (gm_PlayerGUID t) (gm_Name t) (gm_PlayerGUID k) (gm_Name k)).

Definition SetMessageOfTheDay (realmID : u32) (updaterGUID : u64) (message : string) : M unit :=
  guild ← guildByMemberGUID realmID updaterGUID;
  p ← not_nil ErrGuildNotFound guild;
  ' (h, g) ← load p;
  rank ← deref (rankForMember h g updaterGUID);
  guard_err (negb (HasRight rank RightSetMessageOfTheDay)) ErrNotEnoughRight ;;
  SetMessageOfTheDay_repo realmID (g_ID g) message ;;
  ' (h, g) ← load p;
  emit (MOTDUpdated (buildGenericEventPayload h g) message).

Definition SetGuildInfo (realmID : u32) (updaterGUID : u64) (info : string) : M unit :=
  guild ← guildByMemberGUID realmID updaterGUID;
  p ← not_nil ErrGuildNotFound guild;
  ' (h, g) ← load p;
  rank ← deref (rankForMember h g updaterGUID);
  guard_err (negb (HasRight rank RightModifyGuildInfo)) ErrNotEnoughRight ;;
  SetGuildInfo_repo realmID (g_ID g) info ;;
  ' (h, g) ← load p;
  emit (GuildInfoUpdated (buildGenericEventPayload h g) info).

Definition SetMemberPublicNote (realmID : u32) (updaterGUID targetGUID : u64) (note : string) : M unit :=
  updaterGuildID ← GuildIDByRealmAndMemberGUID realmID updaterGUID;
  guard_err (updaterGuildID =? 0) ErrGuildNotFound ;;
  targetGuildID ← GuildIDByRealmAndMemberGUID realmID targetGUID;
  guard_err (targetGuildID =? 0) ErrGuildNotFound ;;
  guard_err (negb (targetGuildID =? updaterGuildID)) ErrNotEnoughRight ;;
  guild ← GuildByRealmAndID realmID updaterGuildID;
  p ← deref guild;
  ' (h, g) ← load p;
  rank ← deref (rankForMember h g updaterGUID);
  guard_err (negb (HasRight rank RightEditPublicNote)) ErrNotEnoughRight ;;
  SetMemberPublicNote_repo realmID targetGUID note ;;
  ' (h, g) ← load p;
  t ← load_member (guildMemberForMemberGuid h g targetGUID);
  u ← load_member (guildMemberForMemberGuid h g updaterGUID);
  emit (MemberNoteUpdated (buildGenericEventPayload h g) targetGUID (gm_Name t)
          updaterGUID (gm_Name u) note).

(** The rank is looked up with the guild's id in place of the updater's guid. *)
Definition SetMemberOfficerNote (realmID : u32) (updaterGUID targetGUID : u64) (note : string) : M unit :=
  updaterGuildID ← GuildIDByRealmAndMemberGUID realmID updaterGUID;
  guard_err (updaterGuildID =? 0) ErrGuildNotFound ;;
  targetGuildID ← GuildIDByRealmAndMemberGUID realmID targetGUID;
  guard_err (targetGuildID =? 0) ErrGuildNotFound ;;
  guard_err (negb (targetGuildID =? updaterGuildID)) ErrNotEnoughRight ;;
  guild ← GuildByRealmAndID realmID updaterGuildID;
  p ← deref guild;
  ' (h, g) ← load p;
  rank ← deref (rankForMember h g updaterGuildID);
  guard_err (negb (HasRight rank RightEditOfficersNote)) ErrNotEnoughRight ;;
  SetMemberOfficerNote_repo realmID targetGUID note ;;
  ' (h, g) ← load p;
  t ← load_member (guildMemberForMemberGuid h g targetGUID);
  u ← load_member (guildMemberForMemberGuid h g updaterGUID);
  emit (MemberOfficerNoteUpdated (buildGenericEventPayload h g) targetGUID (gm_Name t)
          updaterGUID (gm_Name u) note).

Definition UpdateGuildRank (realmID : u32) (updaterGUID : u64) (rank : RankParams) : M unit :=
  guild ← guildByMemberGUID realmID updaterGUID;
  p ← not_nil ErrGuildNotFound guild;
  ' (h, g) ← load p;
  memberRank ← deref (rankForMember h g updaterGUID);
  guard_err (negb (gr_Rank memberRank =? GuildRankGuildMaster)) ErrNotEnoughRight ;;
  UpdateGuildRank_repo realmID (g_ID g)
    {| gr_GuildID := g_ID g; gr_Rank := RankID rank; gr_Name := rp_Name rank;
       gr_Rights := rp_Rights rank; gr_MoneyPerDay := rp_MoneyPerDay rank |} ;;
  ' (h, g) ← load p;
  emit (RankUpdated (buildGenericEventPayload h g) (RankID rank) (rp_Name rank)
          (rp_Rights rank) (rp_MoneyPerDay rank) (wrap8 (len (g_GuildRanks g)))).

Definition AddGuildRank (realmID : u32) (updaterGUID : u64) (rankName : string) : M unit :=
  guild ← guildByMemberGUID realmID updaterGUID;
  p ← not_nil ErrGuildNotFound guild;
  ' (h, g) ← load p;
  memberRank ← deref (rankForMember h g updaterGUID);
  guard_err (negb (gr_Rank memberRank =? GuildRankGuildMaster)) ErrNotEnoughRight ;;
  guard_err (GuildRankMax <=? len (g_GuildRanks g)) ErrRankLimit ;;
  let rankID := wrap8 (lowestRankInGuild g + 1) in
  AddGuildRank_repo realmID (g_ID g)
    {| gr_GuildID := g_ID g; gr_Rank := rankID; gr_Name := rankName;
       gr_Rights := RightEmpty; gr_MoneyPerDay := 0 |} ;;
  ' (h, g) ← load p;
  emit (RankCreated (buildGenericEventPayload h g) rankID rankName (wrap8 (len (g_GuildRanks g)))).

Definition DeleteLastGuildRank (realmID : u32) (updaterGUID : u64) : M unit :=
  guild ← guildByMemberGUID realmID updaterGUID;
  p ← not_nil ErrGuildNotFound guild;
  ' (h, g) ← load p;
  memberRank ← deref (rankForMember h g updaterGUID);
  guard_err (negb (gr_Rank memberRank =? GuildRankGuildMaster)) ErrNotEnoughRight ;;
  let lowestRank := lowestRankInGuild g in
  let rankToDelete := from_option gr_Name "" (rankWithID g lowestRank) in
  DeleteLowestGuildRank realmID (g_ID g) lowestRank ;;
  ' (h, g) ← load p;
  emit (RankDeleted (buildGenericEventPayload h g) (gr_Rank memberRank) rankToDelete
          (wrap8 (len (g_GuildRanks g)))).

(** [newRank] is a uint8: promoting rank 0 gives 255. *)
Definition updateRank (realmID : u32) (updaterGUID targetGUID : u64) (promote : bool) : M unit :=
  guild ← guildByMemberGUID realmID updaterGUID;
  p ← not_nil ErrGuildNotFound guild;
  targetGuildGUID ← GuildIDByRealmAndMemberGUID realmID targetGUID;
  guard_err (targetGuildGUID =? 0) ErrGuildNotFound ;;
  ' (h, g) ← load p;
  guard_err (negb (targetGuildGUID =? g_ID g)) ErrNotEnoughRight ;;
  rank ← deref (rankForMember h g updaterGUID);
  guard_err (promote && negb (HasRight rank RightPromote)) ErrNotEnoughRight ;;
  guard_err (negb promote && negb (HasRight rank RightDemote)) ErrNotEnoughRight ;;
  targetRank ← deref (rankForMember h g targetGUID);
  let newRank := if promote then wrap8 (gr_Rank targetRank - 1) else wrap8 (gr_Rank targetRank + 1) in
  (if promote then guard_err (newRank <=? gr_Rank rank) ErrNotEnoughRight
   else
     guard_err (gr_Rank targetRank <=? gr_Rank rank) ErrNotEnoughRight ;;
     guard_err (lowestRankInGuild g <? newRank) ErrAlreadyLowest) ;;
  let newRankObj := rankWithID g newRank in
  let updater := guildMemberForMemberGuid h g updaterGUID in
  let target := guildMemberForMemberGuid h g targetGUID in
  SetMemberRank_repo realmID targetGUID newRank ;;
  ' (h, g) ← load p;
  o ← deref newRankObj;
  u ← load_member updater;
  t ← load_member target;
  emit (if promote
        then MemberPromote (buildGenericEventPayload h g) (gr_Rank o) (gr_Name o)
               (gm_PlayerGUID u) (gm_Name u) (gm_PlayerGUID t) (gm_Name t)
        else MemberDemote (buildGenericEventPayload h g) (gr_Rank o) (gr_Name o)
               (gm_PlayerGUID u) (gm_Name u) (gm_PlayerGUID t) (gm_Name t)).

Definition PromoteMember (realmID : u32) (updaterGUID targetGUID : u64) : M unit :=
  updateRank realmID updaterGUID targetGUID true.
Definition DemoteMember (realmID : u32) (updaterGUID targetGUID : u64) : M unit :=
  updateRank realmID updaterGUID targetGUID false.

Definition SendGuildMessage (realmID : u32) (senderGUID : u64) (message : string) (lang : u32)
    (isOfficers : bool) : M unit :=
  guild ← guildByMemberGUID realmID senderGUID;
  p ← not_nil ErrGuildNotFound guild;
  ' (h, g) ← load p;
  l ← not_nil ErrGuildNotFound (guildMemberForMemberGuid h g senderGUID);
  sender ← deref (h !! l);
  let receivers := filter (fun guid => guid <> senderGUID) (online_guids h (g_GuildMembers g)) in
  emit (NewMessage ServiceID realmID (g_ID g) senderGUID (gm_Name sender) lang message
          isOfficers receivers).
End Service.

(** ** All requests of the service, and the events it consumes *)
Inductive guild_request :=
| ReqInviteMember (realmID : u32) (inviter invitee : u64) (name : string)
| ReqInviteAccepted (realmID : u32) (params : InviteAcceptedParams)
| ReqLeave (realmID : u32) (char : u64)
| ReqKick (realmID : u32) (kicker target : u64)
| ReqSetMessageOfTheDay (realmID : u32) (updater : u64) (message : string)
| ReqSetGuildInfo (realmID : u32) (updater : u64) (info : string)
| ReqSetMemberPublicNote (realmID : u32) (updater target : u64) (note : string)
| ReqSetMemberOfficerNote (realmID : u32) (updater target : u64) (note : string)
| ReqUpdateGuildRank (realmID : u32) (updater : u64) (rank : RankParams)
| ReqAddGuildRank (realmID : u32) (updater : u64) (name : string)
| ReqDeleteLastGuildRank (realmID : u32) (updater : u64)
| ReqPromoteMember (realmID : u32) (updater target : u64)
| ReqDemoteMember (realmID : u32) (updater target : u64)
| ReqSendGuildMessage (realmID : u32) (sender : u64) (message : string) (lang : u32) (officers : bool)
| EvCharacterLoggedIn (realmID : u32) (char : u64)
| EvCharacterLoggedOut (now : Z) (realmID : u32) (char : u64)
| EvCharactersUpdates (realmID : u32) (updates : list CharacterUpdate).

Section Requests.
Variable ServiceID : string.

Abbreviation M A := (go guilds_state guild_event guild_err A).

Definition handle (r : guild_request) : M unit :=
  match r with
  | ReqInviteMember realmID a b n => InviteMember ServiceID realmID a b n
  | ReqInviteAccepted realmID p => InviteAccepted ServiceID realmID p ;; mret tt
  | ReqLeave realmID a => Leave ServiceID realmID a
  | ReqKick realmID a b => Kick ServiceID realmID a b
  | ReqSetMessageOfTheDay realmID a t => SetMessageOfTheDay ServiceID realmID a t
  | ReqSetGuildInfo realmID a t => SetGuildInfo ServiceID realmID a t
  | ReqSetMemberPublicNote realmID a b t => SetMemberPublicNote ServiceID realmID a b t
  | ReqSetMemberOfficerNote realmID a b t => SetMemberOfficerNote ServiceID realmID a b t
  | ReqUpdateGuildRank realmID a k => UpdateGuildRank ServiceID realmID a k
  | ReqAddGuildRank realmID a n => AddGuildRank ServiceID realmID a n
  | ReqDeleteLastGuildRank realmID a => DeleteLastGuildRank ServiceID realmID a
  | ReqPromoteMember realmID a b => PromoteMember ServiceID realmID a b
  | ReqDemoteMember realmID a b => DemoteMember ServiceID realmID a b
  | ReqSendGuildMessage realmID a t l o => SendGuildMessage ServiceID realmID a t l o
  | EvCharacterLoggedIn realmID c => HandleCharacterLoggedIn realmID c
  | EvCharacterLoggedOut now realmID c => HandleCharacterLoggedOut now realmID c
  | EvCharactersUpdates realmID us => HandleCharactersUpdates realmID us
  end.

(** *** Reads keep any assertion *)
Lemma keeps_load I p : keeps I (load p : M _).
Proof. unfold load. keeps_tac. Qed.
Lemma keeps_load_member I l : keeps I (load_member l : M _).
Proof. unfold load_member. keeps_tac. Qed.
Lemma keeps_guildByMemberGUID I r g : keeps I (guildByMemberGUID r g : M _).
Proof. unfold guildByMemberGUID. keeps_tac. Qed.
Lemma keeps_emit I e : keeps I (emit e : M unit).
Proof. apply keeps_publish. Qed.
#[local] Hint Resolve keeps_load keeps_load_member keeps_guildByMemberGUID keeps_emit : keeps.

(** Guild id 0 means: not a member. *)
Lemma GuildIDByRealmAndMemberGUID_zero r u :
  triple guilds_ok (GuildIDByRealmAndMemberGUID r u : M u64)
    (fun id s => guilds_ok s /\ (id = 0 -> member_at s r u = None)) guilds_ok.
Proof.
  intros s Hok. unfold GuildIDByRealmAndMemberGUID, mbind, go_bind, gets; simpl.
  unfold id. destruct (member_at (st s) r u) as [l|] eqn:Hat; simpl; [|done].
  destruct (ok_member _ Hok _ _ _ Hat) as (m & g & -> & _ & Hg & _). simpl.
  split; [done|]. intros Hz. by destruct (ok_guild _ Hok _ _ _ Hg) as [[_ ?] _].
Qed.

Lemma InviteMember_keeps r a b n : keeps guilds_ok (InviteMember ServiceID r a b n).
Proof.
  unfold InviteMember. apply keeps_bind; [auto with keeps|]. intros guildID.
  apply keeps_bind; [auto with keeps|]. intros _.
  eapply triple_bind; [apply GuildIDByRealmAndMemberGUID_zero|]. intros inviteeGuildID.
  apply (triple_guard _ (fun s => guilds_ok s /\ member_at s r b = None)); [by intros ? []|..].
  { intros s [Hok Hz] Hb%negb_false_iff%Z.eqb_eq. auto. }
  do 2 (apply triple_bind_keeps; [auto with keeps|by intros ? []|intros]).
  apply triple_bind_keeps; [auto with keeps|by intros ? []|intros [h g]].
  do 2 (apply triple_bind_keeps; [auto with keeps|by intros ? []|intros]).
  apply (triple_bind _ (fun _ => guilds_ok)); [|intros; keeps_tac].
  intros s [Hok Hn]. unfold wrap_err, AddGuildInvite, db, mbind, go_bind, ext, modify.
  destruct (faults s) as [|[] fs]; simpl; [by apply guilds_ok_invite|done|by apply guilds_ok_invite].
Qed.

Lemma InviteAccepted_keeps r p : keeps guilds_ok (InviteAccepted ServiceID r p).
Proof.
  unfold InviteAccepted.
  apply (triple_bind _ (fun _ s => guilds_ok s /\ member_at s r (CharGUID p) = None)).
  { intros s Hok. unfold GuildIDByCharInvite, db, mbind, go_bind, ext, gets.
    destruct (faults s) as [|[] fs]; simpl; [|done|];
      (destruct (guild_invites (st s) !! _) eqn:E; simpl; [|done]);
      split; [done|by eapply ok_invites|done|by eapply ok_invites]. }
  intros guildID. apply triple_bind_keeps; [auto with keeps|by intros ? []|intros _].
  apply (triple_bind _ (fun o s => guilds_ok s /\ member_at s r (CharGUID p) = None /\
    (o = None \/ (o = Some (r, guildID) /\ is_Some (guild_at s r guildID))))).
  { intros s [Hok Hn]. unfold GuildByRealmAndID, mbind, go_bind, gets, id; simpl.
    destruct (guild_at (st s) r guildID); eauto 6. }
  intros o. eapply triple_bind.
  { intros s (Hok & Hn & [->|[-> Hg]]); simpl; [exact Hok|].
    instantiate (1 := fun q s => guilds_ok s /\ is_Some (guild_at s r guildID) /\
      member_at s r (CharGUID p) = None). simpl. auto. }
  intros q. apply (triple_bind _ (fun _ s => guilds_ok s /\ is_Some (guild_at s r guildID) /\
      member_at s r (CharGUID p) = None /\ guild_invites s !! (r, CharGUID p) = None)).
  { intros s (Hok & Hg & Hn). unfold RemoveGuildInviteForCharacter, db, mbind, go_bind, ext, modify.
    destruct (faults s) as [|[] fs]; simpl; [|done|]; split_and!; try done;
      try (by apply guilds_ok_uninvite); apply lookup_delete_eq. }
  intros _. apply triple_bind_keeps; [auto with keeps|by intros ? []|intros [h g]].
  apply (triple_bind _ (fun _ => guilds_ok)).
  { eapply triple_conseq; [apply AddGuildMember_triple|..]; simpl; tauto. }
  intros _. refine (_ : keeps guilds_ok _). keeps_tac.
Qed.

Lemma handle_keeps_ok req : keeps guilds_ok (handle req).
Proof.
  destruct req; simpl; try (auto 2 using InviteMember_keeps with keeps; fail).
  - apply keeps_bind; [apply InviteAccepted_keeps|auto with keeps].
  - unfold Leave. keeps_tac.
  - unfold Kick. keeps_tac.
  - unfold SetMessageOfTheDay. keeps_tac.
  - unfold SetGuildInfo. keeps_tac.
  - unfold SetMemberPublicNote. keeps_tac.
  - unfold SetMemberOfficerNote. keeps_tac.
  - unfold UpdateGuildRank. keeps_tac.
  - unfold AddGuildRank. keeps_tac.
  - unfold DeleteLastGuildRank. keeps_tac.
  - unfold PromoteMember, updateRank. keeps_tac.
  - unfold DemoteMember, updateRank. keeps_tac.
  - unfold SendGuildMessage. keeps_tac.
Qed.

(** Whatever request or event arrives and however it ends - success, refusal,
    database or bus failure, panic - the cache stays consistent: the member
    index and the guilds' member lists describe the same membership, nobody is
    in two guilds or listed twice, and nobody with a pending invite is a
    member. *)
Theorem guild_service_consistent req s :
  guilds_ok (st s) -> guilds_ok (st (handle req s).2).
Proof. apply keeps_use, handle_keeps_ok. Qed.
End Requests.

(** ** Looking up members in a consistent cache *)
Lemma find_first_some {A} (p : A -> bool) l x : find_first p l = Some x -> x ∈ l /\ p x = true.
Proof.
  induction l as [|y l IH]; simpl; [done|]. destruct (p y) eqn:E.
  - intros [= ->]. split; [left|done].
  - intros H. destruct (IH H). split; [by right|done].
Qed.
Lemma find_first_unique {A} (p : A -> bool) l x :
  x ∈ l -> p x = true -> (forall y, y ∈ l -> p y = true -> y = x) -> find_first p l = Some x.
Proof.
  intros Hin Hx Hu. induction l as [|y l IH]; simpl; [by apply elem_of_nil in Hin|].
  destruct (p y) eqn:E; [f_equal; apply Hu; [left|done]|].
  apply IH; [|intros z Hz; apply Hu; by right].
  apply elem_of_cons in Hin as [->|?]; [congruence|done].
Qed.
Lemma find_first_none {A} (p : A -> bool) l : (forall y, y ∈ l -> p y = false) -> find_first p l = None.
Proof.
  intros H. induction l as [|y l IH]; simpl; [done|].
  rewrite (H y) by left. apply IH. intros z Hz. apply H. by right.
Qed.

Lemma member_lookup s realm guid l m g :
  guilds_ok s -> member_at s realm guid = Some l -> heap s !! l = Some m ->
  guild_at s realm (gm_GuildID m) = Some g ->
  guildMemberForMemberGuid (heap s) g guid = Some l.
Proof.
  intros Hok Hat Hh Hg. destruct (ok_member _ Hok _ _ _ Hat) as (m' & g' & ? & Hp & ? & Hin).
  simplify_eq. destruct (ok_guild _ Hok _ _ _ Hg) as (_ & _ & Hall).
  apply find_first_unique; [done| |].
  - unfold member_guid_is. rewrite Hh. by apply Z.eqb_refl.
  - intros y Hy. unfold member_guid_is. destruct (Hall y Hy) as (my & -> & _ & Haty).
    intros E%Z.eqb_eq. rewrite E in Haty. congruence.
Qed.

Lemma member_lookup_inv s realm id g guid l :
  guilds_ok s -> guild_at s realm id = Some g ->
  guildMemberForMemberGuid (heap s) g guid = Some l ->
  exists m, heap s !! l = Some m /\ gm_PlayerGUID m = guid /\ gm_GuildID m = id /\
    member_at s realm guid = Some l.
Proof.
  intros Hok Hg Hf. apply find_first_some in Hf as [Hin Hp].
  destruct (ok_guild _ Hok _ _ _ Hg) as (_ & _ & Hall).
  destruct (Hall l Hin) as (m & Hh & Hid & Hat). unfold member_guid_is in Hp. rewrite Hh in Hp.
  apply Z.eqb_eq in Hp as <-. eauto.
Qed.

Section Theorems.
Variable ServiceID : string.
Abbreviation M A := (go guilds_state guild_event guild_err A).
Implicit Types s : sys guilds_state guild_event.

(** *** Reading steps of a run *)
Lemma guildID_run s realm guid l m :
  member_at (st s) realm guid = Some l -> heap (st s) !! l = Some m ->
  GuildIDByRealmAndMemberGUID realm guid s = (Ok (gm_GuildID m) : outcome guild_err _, s).
Proof.
  intros Hat Hh. unfold GuildIDByRealmAndMemberGUID, mbind, go_bind, gets, id; simpl.
  rewrite Hat. simpl. by rewrite Hh.
Qed.
Lemma guildByID_run s realm id g :
  guild_at (st s) realm id = Some g ->
  GuildByRealmAndID realm id s = (Ok (Some (realm, id)) : outcome guild_err _, s).
Proof.
  intros Hg. unfold GuildByRealmAndID, mbind, go_bind, gets; simpl. by rewrite Hg.
Qed.
Lemma load_run s p g :
  guild_at (st s) p.1 p.2 = Some g -> load p s = (Ok (heap (st s), g), s).
Proof.
  intros Hg. unfold load, mbind, go_bind, gets, id; simpl. rewrite Hg. done.
Qed.
Lemma guildByMember_run s realm guid l m g :
  guilds_ok (st s) -> member_at (st s) realm guid = Some l -> heap (st s) !! l = Some m ->
  guild_at (st s) realm (gm_GuildID m) = Some g ->
  guildByMemberGUID realm guid s = (Ok (Some (realm, gm_GuildID m)), s).
Proof.
  intros Hok Hat Hh Hg. unfold guildByMemberGUID, mbind, go_bind.
  rewrite (guildID_run _ _ _ _ _ Hat Hh).
  destruct (ok_guild _ Hok _ _ _ Hg) as ([_ Hz] & _).
  rewrite (proj2 (Z.eqb_neq _ _) Hz). by eapply guildByID_run.
Qed.

(** *** Inversion of the reads *)
Lemma guildID_ok s realm guid gid s' :
  GuildIDByRealmAndMemberGUID realm guid s = (Ok gid : outcome guild_err _, s') ->
  s' = s /\ (gid = 0 \/ exists l m, member_at (st s) realm guid = Some l /\
                        heap (st s) !! l = Some m /\ gm_GuildID m = gid).
Proof.
  unfold GuildIDByRealmAndMemberGUID. intros H. inv_ok. 
  destruct (member_at (st s) realm guid) as [l|] eqn:E; inv_ok; [|by auto].
  split; [done|]. right. eauto.
Qed.
Lemma guildByID_ok s realm gid o s' :
  GuildByRealmAndID realm gid s = (Ok o : outcome guild_err _, s') ->
  s' = s /\ o = (if guild_at (st s) realm gid then Some (realm, gid) else None).
Proof. unfold GuildByRealmAndID. intros H. inv_ok. by destruct (guild_at _ _ _). Qed.
Lemma load_ok s p h g s' :
  load p s = (Ok (h, g), s') -> s' = s /\ h = heap (st s) /\ guild_at (st s) p.1 p.2 = Some g.
Proof. unfold load. intros H. inv_ok. done. Qed.
Lemma load_member_ok s l m s' :
  load_member l s = (Ok m, s') -> s' = s /\ exists l', l = Some l' /\ heap (st s) !! l' = Some m.
Proof. unfold load_member. intros H. inv_ok. eauto. Qed.

Lemma guildByMember_ok s realm guid p s' :
  guilds_ok (st s) -> guildByMemberGUID realm guid s = (Ok (Some p), s') ->
  s' = s /\ exists l m g, member_at (st s) realm guid = Some l /\ heap (st s) !! l = Some m /\
    p = (realm, gm_GuildID m) /\ guild_at (st s) realm (gm_GuildID m) = Some g.
Proof.
  intros Hok. unfold guildByMemberGUID. intros H. inv_ok.
  apply guildID_ok in Hrun as [-> Hid]. destruct (Z.eqb_spec a 0) as [->|Hz]; [inv_ok; done|].
  destruct Hid as [?|(l & m & Hat & Hh & <-)]; [done|].
  apply guildByID_ok in Hrun0 as [-> E]. split; [done|].
  destruct (guild_at (st s) realm (gm_GuildID m)) as [g|] eqn:Hg; [|done].
  injection E as ->. eauto 8.
Qed.

(** Invert the service's own reading steps as well. *)
Ltac inv_guild_step Hok :=
  match goal with
  | H : not_nil _ _ _ = (Ok _, _) |- _ => apply not_nil_ok in H as [-> ->]
  | H : guildByMemberGUID _ _ _ = (Ok (Some _), _) |- _ =>
      let l := fresh "l" in let m := fresh "m" in let g := fresh "g" in
      let Hat := fresh "Hat" in let Hh := fresh "Hheap" in let Hg := fresh "Hguild" in
      apply (guildByMember_ok _ _ _ _ _ Hok) in H as (-> & l & m & g & Hat & Hh & -> & Hg)
  | H : load _ _ = (Ok (_, _), _) |- _ =>
      let Hl := fresh "Hload" in apply load_ok in H as (-> & -> & Hl); cbn [fst snd] in Hl
  | H : load_member _ _ = (Ok _, _) |- _ =>
      let l := fresh "l" in let Hl := fresh "Hloc" in let Hh := fresh "Hheap" in
      apply load_member_ok in H as (-> & l & Hl & Hh)
  | H : GuildIDByRealmAndMemberGUID _ _ _ = (Ok _, _) |- _ =>
      let Hid := fresh "Hid" in apply guildID_ok in H as [-> Hid]
  | H : negb _ = false |- _ => apply negb_false_iff in H
  | H : (_ =? _) = true |- _ => apply Z.eqb_eq in H
  | H : (_ =? _) = false |- _ => apply Z.eqb_neq in H
  | H : (_ <=? _) = false |- _ => apply Z.leb_gt in H
  | H1 : guild_at _ _ _ = Some _, H2 : guild_at _ _ _ = Some _ |- _ =>
      rewrite H1 in H2; injection H2 as ->
  | _ => inv_ok_step
  end.
Ltac inv_guild Hok := repeat inv_guild_step Hok.

Lemma guildByMember_cases s realm guid :
  guilds_ok (st s) ->
  guildByMemberGUID realm guid s = (Ok None, s) \/
  exists l m g, member_at (st s) realm guid = Some l /\ heap (st s) !! l = Some m /\
    guild_at (st s) realm (gm_GuildID m) = Some g /\
    guildByMemberGUID realm guid s = (Ok (Some (realm, gm_GuildID m)), s).
Proof.
  intros Hok. destruct (member_at (st s) realm guid) as [l|] eqn:Hat.
  - destruct (ok_member _ Hok _ _ _ Hat) as (m & g & Hh & _ & Hg & _). right.
    exists l, m, g. eauto using guildByMember_run.
  - left. unfold guildByMemberGUID, GuildIDByRealmAndMemberGUID, mbind, go_bind, gets, id; simpl.
    by rewrite Hat.
Qed.

Lemma db_remove_ok s realm guid u s' l m :
  guilds_ok (st s) -> member_at (st s) realm guid = Some l -> heap (st s) !! l = Some m ->
  (RemoveGuildMember realm guid : M unit) s = (Ok u, s') ->
  st s' = member_removed realm guid m (st s) /\ events s' = events s.
Proof.
  intros Hok Hat Hh H. unfold RemoveGuildMember, db in H. inv_ok. 
  rewrite Hst, Hat in *. inv_ok. simpl in *. rewrite Hst in *. by simplify_eq.
Qed.


(** The rank looked up for a member is the rank object of its rank number. *)
Lemma rankForMember_some (s : guilds_state) realm gid g guid rk :
  guilds_ok s -> guild_at s realm gid = Some g -> rankForMember (heap s) g guid = Some rk ->
  exists l m, member_at s realm guid = Some l /\ heap s !! l = Some m /\ gm_PlayerGUID m = guid /\
    gm_GuildID m = gid /\ rankWithID g (gm_Rank m) = Some rk /\
    guildMemberForMemberGuid (heap s) g guid = Some l.
Proof.
  intros Hok Hg. unfold rankForMember.
  destruct (guildMemberForMemberGuid (heap s) g guid) as [l|] eqn:Hf; [|done]. simpl.
  destruct (member_lookup_inv _ _ _ _ _ _ Hok Hg Hf) as (m & Hh & Hp & Hid & Hat).
  rewrite Hh. simpl. intros Hr. exists l, m. auto 8.
Qed.

(** A kick that succeeds was allowed: kicker and target are members of the
    same guild, the kicker's rank has the removal right and is strictly above
    the target's; the target, and nobody else, stops being a member, and one
    event naming both is published. *)
Theorem Kick_authorised s realm kicker target u s' :
  guilds_ok (st s) -> Kick ServiceID realm kicker target s = (Ok u, s') ->
  exists lk mk lt mt g rk rt,
    member_at (st s) realm kicker = Some lk /\ heap (st s) !! lk = Some mk /\
    member_at (st s) realm target = Some lt /\ heap (st s) !! lt = Some mt /\
    gm_GuildID mk = gm_GuildID mt /\ guild_at (st s) realm (gm_GuildID mk) = Some g /\
    rankWithID g (gm_Rank mk) = Some rk /\ rankWithID g (gm_Rank mt) = Some rt /\
    HasRight rk RightRemove = true /\ gr_Rank rk < gr_Rank rt /\
    (forall r v, member_at (st s') r v =
       if decide (r = realm /\ v = target) then None else member_at (st s) r v) /\
    events s' = events s ++
      [MemberKicked (buildGenericEventPayload ServiceID (heap (st s)) g)
         target (gm_Name mt) kicker (gm_Name mk)].
Proof.
  intros Hok H. unfold Kick, emit in H. inv_guild Hok.
  destruct (rankForMember_some _ _ _ _ _ _ Hok Hguild Hsome0) as (lk & mk & Hk & Hhk & Hpk & Hgk & Hrk & Hfk).
  destruct (rankForMember_some _ _ _ _ _ _ Hok Hguild Hsome) as (lt & mt & Ht & Hht & Hpt & Hgt & Hrt & Hft).
  destruct (db_remove_ok _ _ _ _ _ _ _ Hok Ht Hht Hrun4) as [Hst5 Hev5].
  rewrite Hst5 in Hheap0, Hheap1. simplify_eq/=.
  do 7 eexists. split_and!; eauto; try congruence.
  intros r v. rewrite Hst, Hst5. apply member_at_removed.
Qed.

(** What a call of SetMemberRank that succeeds leaves behind. *)
Lemma SetMemberRank_ok s realm guid rank u s' l m :
  member_at (st s) realm guid = Some l -> heap (st s) !! l = Some m ->
  (SetMemberRank_repo realm guid rank : M unit) s = (Ok u, s') ->
  st s' = update_member l (fun m => set_Rank m rank) (st s) /\ events s' = events s.
Proof.
  intros Hat Hh H. unfold SetMemberRank_repo, cached_member_update, db in H. inv_ok. simpl.
  rewrite Hst, Hat. done.
Qed.

(** A promotion or demotion that succeeds was allowed: updater and target
    are in one guild, the updater's rank has the right, and it is strictly
    above the target's new rank when promoting and above its old rank when
    demoting; the new rank exists in the guild, is the old one moved by one,
    and is what the target now has; nobody else's record changes. *)
Theorem updateRank_authorised s realm updater target promote u s' :
  guilds_ok (st s) -> updateRank ServiceID realm updater target promote s = (Ok u, s') ->
  exists lu mu lt mt g ru rt o,
    member_at (st s) realm updater = Some lu /\ heap (st s) !! lu = Some mu /\
    member_at (st s) realm target = Some lt /\ heap (st s) !! lt = Some mt /\
    gm_GuildID mu = gm_GuildID mt /\ guild_at (st s) realm (gm_GuildID mu) = Some g /\
    rankForMember (heap (st s)) g updater = Some ru /\ rankWithID g (gm_Rank mt) = Some rt /\
    HasRight ru (if promote then RightPromote else RightDemote) = true /\
    rankWithID g (gr_Rank o) = Some o /\
    gr_Rank o = wrap8 (if promote then gr_Rank rt - 1 else gr_Rank rt + 1) /\
    (if promote then gr_Rank ru < gr_Rank o else gr_Rank ru < gr_Rank rt) /\
    st s' = update_member lt (fun m => set_Rank m (gr_Rank o)) (st s).
Proof.
  intros Hok H. unfold updateRank, emit in H. inv_guild Hok.
  destruct (rankForMember_some _ _ _ _ _ _ Hok Hguild Hsome) as (lt & mt & Ht & Hht & Hpt & Hgt & Hrt & Hft).
assert (gr_Rank a8 = wrap8 (if promote then gr_Rank a5 - 1 else gr_Rank a5 + 1)) as Ha8.
  { apply find_first_some in Hsome1 as [_ E%Z.eqb_eq]. by destruct promote. }
  assert (s5 = s /\ HasRight a2 (if promote then RightPromote else RightDemote) = true /\
    if promote then gr_Rank a2 < gr_Rank a8 else gr_Rank a2 < gr_Rank a5) as (-> & Hr & Hlt).
  { rewrite Ha8. destruct promote; simpl in *; inv_guild Hok; done. }
  replace (if promote then wrap8 (gr_Rank a5 - 1) else wrap8 (gr_Rank a5 + 1))
    with (gr_Rank a8) in * by (by destruct promote).
  destruct (SetMemberRank_ok _ _ _ _ _ _ _ _ Ht Hht Hrun5) as [Hs6 _].
  exists l, m, lt, mt, g1, a2, a5, a8. split_and!; try done; congruence.
Qed.
(** The officer note of a member can never be set: the handler looks for
    the rank of a player whose guid is the guild's id, so for every updater, of
    whatever rank, it dereferences nil, unless some member's guid happens to be
    the guild's id. Nothing changes and nothing is published. *)
Theorem SetMemberOfficerNote_panics s realm updater target note lu mu lt mt g :
  guilds_ok (st s) ->
  member_at (st s) realm updater = Some lu -> heap (st s) !! lu = Some mu ->
  member_at (st s) realm target = Some lt -> heap (st s) !! lt = Some mt ->
  gm_GuildID mt = gm_GuildID mu -> guild_at (st s) realm (gm_GuildID mu) = Some g ->
  member_at (st s) realm (gm_GuildID mu) = None ->
  SetMemberOfficerNote ServiceID realm updater target note s = (Panic, s).
Proof.
  intros Hok Hu Hhu Ht Hht Hsame Hg Hnone.
  destruct (ok_guild _ Hok _ _ _ Hg) as ((Hid & Hz) & _ & Hall).
  assert (Hrank : rankForMember (heap (st s)) g (gm_GuildID mu) = None).
  { unfold rankForMember. destruct (guildMemberForMemberGuid _ _ _) as [l|] eqn:Hf; [|done].
    destruct (member_lookup_inv _ _ _ _ _ _ Hok Hg Hf) as (? & _ & _ & _ & ?). congruence. }
  unfold SetMemberOfficerNote, mbind, go_bind.
  rewrite (guildID_run _ _ _ _ _ Hu Hhu), (proj2 (Z.eqb_neq _ _) Hz). cbn [guard_err].
  unfold mret, go_ret.
  rewrite (guildID_run _ _ _ _ _ Ht Hht), Hsame, (proj2 (Z.eqb_neq _ _) Hz), Z.eqb_refl.
  cbn [guard_err negb]. unfold mret, go_ret. rewrite (guildByID_run _ _ _ _ Hg). cbn [deref].
  unfold mret, go_ret. rewrite (load_run _ _ g) by exact Hg. by rewrite Hrank.
Qed.

(** A member whose rank has the promotion right can "promote" the guild
    master: rank 0 minus one is 255 in uint8, which passes every check, so the
    master is stored with rank 255 - in the cache, after the database - before
    the handler panics on the rank that does not exist. *)
Theorem promote_guild_master_underflow ev (s0 : guilds_state) realm updater target lu mu lt mt g ru rt :
  guilds_ok s0 ->
  member_at s0 realm updater = Some lu -> heap s0 !! lu = Some mu ->
  member_at s0 realm target = Some lt -> heap s0 !! lt = Some mt ->
  gm_GuildID mt = gm_GuildID mu -> guild_at s0 realm (gm_GuildID mu) = Some g ->
  rankWithID g (gm_Rank mu) = Some ru -> HasRight ru RightPromote = true ->
  gm_Rank mu < 255 -> gm_Rank mt = GuildRankGuildMaster -> rankWithID g 0 = Some rt ->
  rankWithID g 255 = None ->
  PromoteMember ServiceID realm updater target (Sys s0 [] ev) =
    (Panic, Sys (update_member lt (fun m => set_Rank m 255) s0) [] ev).
Proof.
  set (s := Sys s0 [] ev). intros Hok Hu Hhu Ht Hht Hsame Hg Hru Hright Hlt Hmaster Hrt H255.
  destruct (ok_guild _ Hok _ _ _ Hg) as ((Hid & Hz) & _ & Hall).
  assert (Hg' : guild_at s0 realm (gm_GuildID mt) = Some g) by congruence.
  pose proof (member_lookup _ _ _ _ _ _ Hok Hu Hhu Hg) as Hfu.
  pose proof (member_lookup _ _ _ _ _ _ Hok Ht Hht Hg') as Hft.
  assert (Hrku : rankForMember (heap s0) g updater = Some ru).
  { unfold rankForMember. rewrite Hfu. simpl. rewrite Hhu. exact Hru. }
  assert (Hrkt : rankForMember (heap s0) g target = Some rt).
  { unfold rankForMember. rewrite Hft. simpl. rewrite Hht. simpl. rewrite Hmaster. exact Hrt. }
  pose proof (find_first_some _ _ _ Hru) as [_ Eu%Z.eqb_eq].
  pose proof (find_first_some _ _ _ Hrt) as [_ Et%Z.eqb_eq].
  unfold PromoteMember, updateRank, mbind, go_bind.
  rewrite (guildByMember_run s _ _ _ _ _ Hok Hu Hhu Hg). cbn [not_nil]. unfold mret, go_ret.
  rewrite (guildID_run s _ _ _ _ Ht Hht), Hsame, (proj2 (Z.eqb_neq _ _) Hz). cbn [guard_err].
  unfold mret, go_ret. rewrite (load_run s _ g) by exact Hg. cbn [st s].
  rewrite Hid, Z.eqb_refl, Hrku. cbn [guard_err negb deref andb]. unfold mret, go_ret.
  rewrite Hright, Hrkt. cbn [guard_err negb deref andb]. unfold mret, go_ret.
  rewrite Et, Eu. change (wrap8 (0 - 1)) with 255. rewrite (proj2 (Z.leb_gt _ _) Hlt).
  cbn [guard_err]. unfold mret, go_ret, SetMemberRank_repo, cached_member_update, db, mbind, go_bind, ext, modify.
  cbn [faults st s events]. rewrite Ht, H255. unfold load, mbind, go_bind, gets, id. cbn [st].
  change (guild_at (update_member _ _ _) ?a ?b) with (guild_at s0 a b). cbn [fst snd]. rewrite Hg.
  reflexivity.
Qed.

(** A rank whose rights carry the marker bit 0x40 has a right exactly when
    one of the right's own bits is set in its rights; a rank without the marker
    has every right, in particular the rank with no rights at all. *)
Theorem HasRight_spec r bits :
  Z.land RightEmpty bits = 0 ->
  (Z.testbit (gr_Rights r) 6 = true ->
     HasRight r (Z.lor RightEmpty bits) = negb (Z.land (gr_Rights r) bits =? 0)) /\
  (Z.testbit (gr_Rights r) 6 = false -> HasRight r (Z.lor RightEmpty bits) = true).
Proof.
  intros Hb. unfold HasRight.
  assert (Hbit : Z.testbit bits 6 = false).
  { assert (E : Z.testbit (Z.land RightEmpty bits) 6 = false) by (rewrite Hb; reflexivity).
    rewrite Z.land_spec in E. exact E. }
  split; intros H.
  - f_equal. apply eq_true_iff_eq. rewrite !Z.eqb_eq.
    assert (HR : Z.land (gr_Rights r) RightEmpty = RightEmpty).
    { change RightEmpty with (2 ^ 6). apply Z.bits_inj'. intros i Hi.
      rewrite Z.land_spec, Z.pow2_bits_eqb by lia.
      destruct (Z.eqb_spec 6 i) as [<-|]; [by rewrite H|apply andb_false_r]. }
    rewrite Z.land_lor_distr_r, HR. split; intros E.
    + apply Z.bits_inj'. intros i Hi. rewrite Z.bits_0, Z.land_spec.
      assert (Ei : Z.testbit (Z.lor RightEmpty (Z.land (gr_Rights r) bits)) i = Z.testbit RightEmpty i)
        by (by rewrite E).
      rewrite Z.lor_spec, Z.land_spec in Ei. change RightEmpty with (2 ^ 6) in Ei.
      rewrite Z.pow2_bits_eqb in Ei by lia. destruct (Z.eqb_spec 6 i) as [<-|]; [|done].
      rewrite Hbit. apply andb_false_r.
    + by rewrite E, Z.lor_0_r.
  - apply negb_true_iff, Z.eqb_neq. intros E.
    assert (Ei : Z.testbit (Z.land (gr_Rights r) (Z.lor RightEmpty bits)) 6 = Z.testbit RightEmpty 6)
      by (by rewrite E).
    rewrite Z.land_spec, H in Ei. discriminate.
Qed.
End Theorems.

(** ** The numbering of ranks *)
Definition ranks_numbered (rs : list GuildRank) : Prop :=
  gr_Rank <$> rs = seqZ 0 (len rs) /\ len rs <= GuildRankMax.

Definition ranks_ok (s : guilds_state) : Prop :=
  forall r i g, guild_at s r i = Some g -> ranks_numbered (g_GuildRanks g).

Lemma lowest_numbered g :
  ranks_numbered (g_GuildRanks g) -> lowestRankInGuild g = Z.max 0 (len (g_GuildRanks g) - 1).
Proof.
  intros [H _]. unfold lowestRankInGuild. revert H.
  induction (g_GuildRanks g) as [|x l IH] using rev_ind; intros H; [done|].
  unfold len in *. rewrite length_app in *. simpl in *. rewrite foldl_app. simpl.
  rewrite fmap_app, Nat2Z.inj_add, seqZ_app in H by lia. apply app_inj_2 in H as [Hl Hx]; [|done].
  rewrite IH by done. rewrite seqZ_cons in Hx by lia. injection Hx as Hx. rewrite Hx.
  case_match; lia.
Qed.

Lemma ranks_numbered_snoc rs r :
  ranks_numbered rs -> len rs < GuildRankMax -> gr_Rank r = len rs -> ranks_numbered (rs ++ [r]).
Proof.
  intros [H Hlen] Hlt Hr. unfold ranks_numbered, len, GuildRankMax in *.
  rewrite length_app, fmap_app, H. simpl. split; [|lia].
  rewrite Nat2Z.inj_add, seqZ_app by lia. f_equal. simpl. rewrite Hr, seqZ_cons by lia. done.
Qed.

Lemma ranks_numbered_take rs n : ranks_numbered rs -> ranks_numbered (take n rs).
Proof.
  intros [H Hlen]. unfold ranks_numbered, len in *. rewrite length_take. split; [|lia].
  rewrite fmap_take, H. destruct (decide (n <= length rs)%nat).
  - replace (Z.of_nat (length rs)) with (Z.of_nat n + (Z.of_nat (length rs) - Z.of_nat n)) by lia.
    rewrite seqZ_app, take_app_length' by (try rewrite length_seqZ; lia).
    f_equal. lia.
  - rewrite take_ge by (rewrite length_seqZ; lia). f_equal. lia.
Qed.

Lemma replace_rank_numbers r rs : gr_Rank <$> replace_rank r rs = gr_Rank <$> rs.
Proof.
  induction rs as [|x rs IH]; cbn [replace_rank]; [done|].
  destruct (Z.eqb_spec (gr_Rank x) (gr_Rank r)); rewrite !fmap_cons; congruence.
Qed.

Lemma ranks_ok_update r i f s :
  (forall g, guild_at s r i = Some g -> ranks_numbered (g_GuildRanks g) ->
     ranks_numbered (g_GuildRanks (f g))) ->
  ranks_ok s -> ranks_ok (update_guild r i f s).
Proof.
  intros Hf Hok r' i' g. rewrite guild_at_update. case_decide as E; [|by apply Hok].
  destruct E as [<- <-]. intros (g' & Hg' & ->)%fmap_Some. eauto.
Qed.

Section Ranks.
Variable ServiceID : string.
Abbreviation M A := (go guilds_state guild_event guild_err A).

Lemma ranks_keeps_guild_update r i f :
  (forall g, ranks_numbered (g_GuildRanks g) -> ranks_numbered (g_GuildRanks (f g))) ->
  keeps ranks_ok (cached_guild_update r i f : M unit).
Proof.
  intros Hf. apply keeps_bind; [apply keeps_db|intros _]. apply keeps_modify.
  intros s. apply ranks_ok_update. auto.
Qed.
Lemma ranks_keeps_member_update r u f : keeps ranks_ok (cached_member_update r u f : M unit).
Proof. apply keeps_modify. intros s Hs. by destruct (member_at s r u). Qed.
Lemma ranks_keeps_characters r us : keeps ranks_ok (HandleCharactersUpdates r us : M unit).
Proof.
  induction us as [|u us IH]; simpl; [apply keeps_ret|].
  apply keeps_bind; [apply ranks_keeps_member_update|by intros _].
Qed.
Lemma ranks_keeps_remove r u : keeps ranks_ok (RemoveGuildMember r u : M unit).
Proof.
  apply keeps_bind; [apply keeps_db|intros _]. apply keeps_bind; [auto with keeps|intros c].
  destruct (member_at c r u); [|auto with keeps].
  apply keeps_bind; [by apply keeps_modify|intros _].
  do 2 (apply keeps_bind; [auto with keeps|intros]).
  apply keeps_modify. intros s. apply ranks_ok_update. auto.
Qed.
Lemma ranks_keeps_add r m : keeps ranks_ok (AddGuildMember r m : M unit).
Proof.
  apply keeps_bind; [apply keeps_db|intros _].
  do 2 (apply keeps_bind; [auto with keeps|intros]).
  apply keeps_bind; [by apply keeps_modify|intros].
  apply keeps_bind; [auto with keeps|intros].
  apply keeps_modify. intros s. apply ranks_ok_update. auto.
Qed.
Lemma ranks_keeps_invite r c i : keeps ranks_ok (AddGuildInvite r c i : M unit).
Proof. apply keeps_bind; [apply keeps_db|intros _]. by apply keeps_modify. Qed.
Lemma ranks_keeps_uninvite r c : keeps ranks_ok (RemoveGuildInviteForCharacter r c : M unit).
Proof. apply keeps_bind; [apply keeps_db|intros _]. by apply keeps_modify. Qed.
Lemma ranks_keeps_motd r i t : keeps ranks_ok (SetMessageOfTheDay_repo r i t : M unit).
Proof. by apply ranks_keeps_guild_update. Qed.
Lemma ranks_keeps_info r i t : keeps ranks_ok (SetGuildInfo_repo r i t : M unit).
Proof. by apply ranks_keeps_guild_update. Qed.
Lemma ranks_keeps_public r i t : keeps ranks_ok (SetMemberPublicNote_repo r i t : M unit).
Proof. apply keeps_bind; [apply keeps_db|intros _]. apply ranks_keeps_member_update. Qed.
Lemma ranks_keeps_officer r i t : keeps ranks_ok (SetMemberOfficerNote_repo r i t : M unit).
Proof. apply keeps_bind; [apply keeps_db|intros _]. apply ranks_keeps_member_update. Qed.
Lemma ranks_keeps_rank r i t : keeps ranks_ok (SetMemberRank_repo r i t : M unit).
Proof. apply keeps_bind; [apply keeps_db|intros _]. apply ranks_keeps_member_update. Qed.
Lemma ranks_keeps_UpdateGuildRank_repo r i k : keeps ranks_ok (UpdateGuildRank_repo r i k : M unit).
Proof.
  apply ranks_keeps_guild_update. intros g [H1 H2]. unfold ranks_numbered, len in *. simpl.
  rewrite replace_rank_numbers, H1.
  by rewrite <- (length_fmap gr_Rank (replace_rank _ _)), replace_rank_numbers, length_fmap.
Qed.
Lemma ranks_keeps_delete r i k : keeps ranks_ok (DeleteLowestGuildRank r i k : M unit).
Proof.
  apply ranks_keeps_guild_update. intros g Hg. case_match; [done|]. by apply ranks_numbered_take.
Qed.
#[local] Hint Resolve ranks_keeps_characters ranks_keeps_remove ranks_keeps_add
  ranks_keeps_invite ranks_keeps_uninvite ranks_keeps_motd ranks_keeps_info ranks_keeps_public
  ranks_keeps_officer ranks_keeps_rank ranks_keeps_UpdateGuildRank_repo ranks_keeps_delete
  keeps_load keeps_load_member keeps_guildByMemberGUID keeps_emit : keeps.

Lemma ranks_keeps_AddGuildRank r u n :
  triple (fun s => guilds_ok s /\ ranks_ok s) (AddGuildRank ServiceID r u n) (fun _ => ranks_ok) ranks_ok.
Proof.
  intros s [Hok Hr]. unfold AddGuildRank. unfold mbind at 1, go_bind at 1.
  destruct (guildByMember_cases s r u Hok) as [-> | (l & m & g & Hat & Hh & Hg & ->)]; [exact Hr|].
  unfold mbind at 1, go_bind at 1. cbn [not_nil]. unfold mret at 1, go_ret at 1.
  unfold mbind at 1, go_bind at 1. rewrite (load_run _ _ g) by exact Hg.
  unfold mbind at 1, go_bind at 1.
  destruct (rankForMember (heap (st s)) g u) as [k|] eqn:Hk; [|exact Hr].
  cbn [deref]. unfold mret at 1, go_ret at 1.
  destruct (ok_guild _ Hok _ _ _ Hg) as ((Hid & _) & _). pose proof (Hr _ _ _ Hg) as Hnum.
  assert (Hpos : 0 < len (g_GuildRanks g)).
  { unfold rankForMember in Hk. destruct (guildMemberForMemberGuid _ _ _) as [l'|]; [|done].
    simpl in Hk. destruct (heap (st s) !! l'); [|done]. simpl in Hk.
    unfold rankWithID, len in *. destruct (g_GuildRanks g); [done|]. simpl. lia. }
  unfold mbind at 1, go_bind at 1. destruct (negb _); [exact Hr|]. cbn [guard_err].
  unfold mret at 1, go_ret at 1. unfold mbind at 1, go_bind at 1.
  destruct (Z.leb_spec GuildRankMax (len (g_GuildRanks g))) as [|Hlt]; [exact Hr|]. cbn [guard_err].
  unfold mret at 1, go_ret at 1. revert s Hok Hr Hat Hh Hg Hk. 
  intros s Hok Hr Hat Hh Hg Hk.
  refine (triple_bind (fun c => ranks_ok c /\ guild_at c r (g_ID g) = Some g) (fun _ => ranks_ok) _ ranks_ok _ _ _ _ s _);
    [|intros; refine (_ : keeps ranks_ok _); keeps_tac|by rewrite Hid].
  apply (triple_bind _ (fun _ c => ranks_ok c /\ guild_at c r (g_ID g) = Some g)).
  { intros c Hc. unfold db, ext. destruct (faults c) as [|[] ?]; [exact Hc|apply Hc|exact Hc]. }
  intros _ c [Hc Hgc]. unfold modify; simpl. apply ranks_ok_update; [|done].
  intros g' Hg' _. rewrite Hgc in Hg'. injection Hg' as <-. simpl.
  rewrite (lowest_numbered _ Hnum). unfold GuildRankMax in Hlt.
  apply ranks_numbered_snoc; [done|done|]. simpl. rewrite wrap_small by word_lia. lia.
Qed.

Lemma handle_keeps_ranks req :
  triple (fun s => guilds_ok s /\ ranks_ok s) (handle ServiceID req) (fun _ => ranks_ok) ranks_ok.
Proof.
  destruct req; try apply ranks_keeps_AddGuildRank;
    (apply (triple_conseq _ ranks_ok _ (fun _ => ranks_ok) _ ranks_ok); [|by intros ? []|done..]);
    match goal with |- triple ?I ?m _ _ => change (keeps I m) end; cbn [handle];
    try apply ranks_keeps_member_update;
    unfold InviteMember, InviteAccepted, Leave, Kick, SetMessageOfTheDay, SetGuildInfo,
      SetMemberPublicNote, SetMemberOfficerNote, UpdateGuildRank, DeleteLastGuildRank,
      PromoteMember, DemoteMember, updateRank, SendGuildMessage; keeps_tac.
Qed.

(** The ranks of every guild stay numbered 0, 1, 2, ... without gaps and
    never exceed ten, whatever requests and events arrive and however they
    end. *)
Theorem guild_ranks_numbered req s :
  guilds_ok (st s) -> ranks_ok (st s) -> ranks_ok (st (handle ServiceID req s).2).
Proof.
  intros Hok Hr. pose proof (handle_keeps_ranks req s (conj Hok Hr)) as H.
  by destruct (handle ServiceID req s) as [[?|?|] ?].
Qed.
End Ranks.

(** ** The realm of a loaded guild *)
Section Loaded.
Context `{MapRange}.
Variables (ServiceID : string) (tables : u32 -> guild_tables).

Definition realm_zero (gs : gmap u64 Guild) : Prop := forall i g, gs !! i = Some g -> g_RealmID g = 0.

Lemma realm_zero_insert gs i g : realm_zero gs -> g_RealmID g = 0 -> realm_zero (<[i := g]> gs).
Proof. intros Hz Hg j g'. rewrite lookup_insert. case_decide; [by intros [= <-]|apply Hz]. Qed.

Lemma realm_zero_alter gs i f :
  (forall g, g_RealmID (f g) = g_RealmID g) -> realm_zero gs -> realm_zero (alter f i gs).
Proof.
  intros Hf Hz j g'. rewrite lookup_alter. case_decide; [|apply Hz].
  intros (g & Hg & ->)%fmap_Some. rewrite Hf. by eapply Hz.
Qed.

Lemma realm_zero_foldl {A} (step : gmap u64 Guild -> A -> gmap u64 Guild) l gs :
  (forall gs a, realm_zero gs -> realm_zero (step gs a)) -> realm_zero gs ->
  realm_zero (foldl step gs l).
Proof. intros Hs. revert gs. induction l as [|a l IH]; simpl; auto. Qed.

Lemma realm_zero_load_members l s gs :
  realm_zero gs -> realm_zero (foldl GuildCache.load_member (s, gs) l).2.
Proof.
  revert s gs. induction l as [|a l IH]; intros s gs Hz; simpl; [done|].
  apply IH. by apply realm_zero_alter.
Qed.

(** Guilds loaded at start-up carry realm 0: the query does not select the
    realm and nothing sets it, so every generic event about them names realm 0,
    whatever realm they belong to. *)
Theorem Warmup_realm_zero realmID (s : sys guilds_state guild_event) u s' i g h :
  Warmup tables realmID s = (Ok u, s') -> guild_at (st s') realmID i = Some g ->
  ge_RealmID (buildGenericEventPayload ServiceID h g) = 0.
Proof.
  intros Hrun. unfold Warmup, LoadAllForRealm, db in Hrun. inv_ok. clear Hst Hst0 Hst1.
  unfold guild_at; simpl. rewrite lookup_insert_eq. simpl.
  intros Hg. revert Hg. change g1 with (g0, g1).2. rewrite <- Hpair.
  apply realm_zero_load_members. unfold load_ranks, load_guilds.
  apply realm_zero_foldl; [intros; by apply realm_zero_alter|].
  apply realm_zero_foldl; [intros; by apply realm_zero_insert|].
  intros j g' Hj. by rewrite lookup_empty in Hj.
Qed.
End Loaded.

(** ** A small guild to evaluate the handlers on *)
Definition sample_member (guid : u64) (rank : u8) (name : string) : GuildMember :=
  {| gm_GuildID := 7; gm_PlayerGUID := guid; gm_Rank := rank; gm_PublicNote := "";
     gm_OfficerNote := ""; gm_Name := name; gm_Race := 1; gm_Class := 1; gm_Lvl := 80;
     gm_Gender := 0; gm_AreaID := 0; gm_Account := 1; gm_LogoutTime := 0;
     gm_Status := GuildMemberStatusOnline |}.
Definition sample_rank (n : u8) (rights : u32) : GuildRank :=
  {| gr_GuildID := 7; gr_Rank := n; gr_Name := ""; gr_Rights := rights; gr_MoneyPerDay := 0 |}.
Definition sample_guild : Guild :=
  {| g_RealmID := 1; g_ID := 7; g_Name := "Sample"; g_CrateTimeUnix := 0; g_LeaderGUID := 10;
     g_Emblem := {| Style := 0; Color := 0; BorderStyle := 0; BorderColor := 0; BackgroundColor := 0 |};
     g_Info := ""; g_MessageOfTheDay := ""; g_BankMoney := 0;
     g_GuildRanks := [sample_rank 0 RightAll; sample_rank 1 RightAll; sample_rank 2 RightEmpty];
     g_GuildMembers := [0; 1; 2]%nat |}.
Definition sample_guilds : guilds_state :=
  {| heap := {[ 0%nat := sample_member 10 0 "Master"; 1%nat := sample_member 11 1 "Officer";
                2%nat := sample_member 12 2 "Recruit" ]};
     next_loc := 3; cache := {[ 1 := {[ 7 := sample_guild ]} ]};
     guildMembersCache := {[ 1 := {[ 10 := 0%nat; 11 := 1%nat; 12 := 2%nat ]} ]};
     guild_invites := ∅ |}.

Lemma sample_guild_at r i g :
  guild_at sample_guilds r i = Some g -> r = 1 /\ i = 7 /\ g = sample_guild.
Proof.
  unfold guild_at; simpl. destruct (decide (1 = r)) as [<-|];
    [rewrite lookup_singleton_eq; simpl|by rewrite lookup_singleton_ne].
  destruct (decide (7 = i)) as [<-|];
    [rewrite lookup_singleton_eq; simpl|by rewrite lookup_singleton_ne]. by intros [= <-].
Qed.

Lemma sample_member_at r u l :
  member_at sample_guilds r u = Some l ->
  r = 1 /\ ((u = 10 /\ l = 0%nat) \/ (u = 11 /\ l = 1%nat) \/ (u = 12 /\ l = 2%nat)).
Proof.
  unfold member_at; simpl. destruct (decide (1 = r)) as [<-|];
    [rewrite lookup_singleton_eq; simpl|by rewrite lookup_singleton_ne].
  intros [[<- <-]|[_ [[<- <-]|[_ [<- <-]%lookup_singleton_Some]]%lookup_insert_Some]]%lookup_insert_Some;
    eauto 7.
Qed.

Lemma sample_guilds_ok : guilds_ok sample_guilds.
Proof.
  constructor.
  - simpl. intros l m.
    intros [[<- _]|[_ [[<- _]|[_ [<- _]%lookup_singleton_Some]]%lookup_insert_Some]]%lookup_insert_Some; lia.
  - intros r u l Hl. apply sample_member_at in Hl as [-> [[-> ->]|[[-> ->]|[-> ->]]]];
      eexists _, sample_guild; split_and!; try reflexivity; simpl; set_solver.
  - intros r i g Hg. apply sample_guild_at in Hg as (-> & -> & ->). split; [done|]. split.
    + simpl. repeat constructor; set_solver.
    + simpl. intros l Hl. rewrite !elem_of_cons, elem_of_nil in Hl.
      destruct Hl as [->|[->|[->|[]]]]; eexists; by split_and!.
  - intros r u i E. simpl in E. by rewrite lookup_empty in E.
  - intros r. simpl. destruct (decide (1 = r)) as [<-|Hr];
      [rewrite !lookup_singleton_eq|rewrite !lookup_singleton_ne by done]; [by split|].
    by split; intros [? ?].
Qed.

Definition sample_sys : sys guilds_state guild_event := Sys sample_guilds [] [].

Lemma guild_service_consistent_witness :
  guilds_ok (st (handle "svc" (ReqKick 1 10 12) sample_sys).2).
Proof. apply (guild_service_consistent "svc" (ReqKick 1 10 12) sample_sys). exact sample_guilds_ok. Defined.

Lemma sample_ranks_ok : ranks_ok sample_guilds.
Proof. intros r i g Hg. apply sample_guild_at in Hg as (_ & _ & ->). split; [reflexivity|vm_compute; congruence]. Qed.

Lemma guild_ranks_numbered_witness :
  ranks_ok (st (handle "svc" (ReqAddGuildRank 1 10 "Alt") sample_sys).2).
Proof.
  apply (guild_ranks_numbered "svc" (ReqAddGuildRank 1 10 "Alt") sample_sys);
    [exact sample_guilds_ok|exact sample_ranks_ok].
Defined.

Lemma Kick_authorised_witness :
  exists s', Kick "svc" 1 10 12 sample_sys = (Ok tt, s') /\ member_at (st s') 1 12 = None.
Proof.
  destruct (Kick "svc" 1 10 12 sample_sys) as [o s'] eqn:E.
  assert (o = Ok tt) as -> by (change o with (o, s').1; rewrite <- E; vm_compute; reflexivity).
  exists s'. split; [done|].
  destruct (Kick_authorised "svc" sample_sys 1 10 12 tt s' sample_guilds_ok E)
    as (lk & mk & lt & mt & g & rk & rt & _ & _ & _ & _ & _ & _ & _ & _ & _ & _ & Hm & _).
  rewrite Hm. by rewrite decide_True.
Defined.

Lemma updateRank_authorised_witness :
  exists s', updateRank "svc" 1 10 11 false sample_sys = (Ok tt, s') /\
    exists lt rank, st s' = update_member lt (fun m => set_Rank m rank) sample_guilds.
Proof.
  destruct (updateRank "svc" 1 10 11 false sample_sys) as [o s'] eqn:E.
  assert (o = Ok tt) as -> by (change o with (o, s').1; rewrite <- E; vm_compute; reflexivity).
  exists s'. split; [done|].
  destruct (updateRank_authorised "svc" sample_sys 1 10 11 false tt s' sample_guilds_ok E)
    as (lu & mu & lt & mt & g & ru & rt & o & _ & _ & _ & _ & _ & _ & _ & _ & _ & _ & _ & _ & Hs).
  eexists _, _. exact Hs.
Defined.

Lemma SetMemberOfficerNote_panics_witness :
  SetMemberOfficerNote "svc" 1 10 12 "late" sample_sys = (Panic, sample_sys).
Proof.
  apply (SetMemberOfficerNote_panics "svc" sample_sys 1 10 12 "late" 0 (sample_member 10 0 "Master")
           2 (sample_member 12 2 "Recruit") sample_guild); try reflexivity. exact sample_guilds_ok.
Defined.

Lemma promote_guild_master_underflow_witness :
  PromoteMember "svc" 1 11 10 sample_sys =
    (Panic, Sys (update_member 0 (fun m => set_Rank m 255) sample_guilds) [] []).
Proof.
  apply (promote_guild_master_underflow "svc" [] sample_guilds 1 11 10 1 (sample_member 11 1 "Officer")
           0 (sample_member 10 0 "Master") sample_guild (sample_rank 1 RightAll) (sample_rank 0 RightAll));
    try reflexivity. exact sample_guilds_ok.
Defined.

Lemma HasRight_spec_witness :
  HasRight (sample_rank 4 0) RightRemove = true /\ HasRight (sample_rank 2 RightEmpty) RightRemove = false.
Proof.
  split.
  - apply (HasRight_spec (sample_rank 4 0) 0x20); reflexivity.
  - change RightRemove with (Z.lor RightEmpty 0x20).
    rewrite (proj1 (HasRight_spec (sample_rank 2 RightEmpty) 0x20 eq_refl)); reflexivity.
Defined.

Definition sample_tables : guild_tables :=
  {| t_guild := [ {| row_guildid := 7; row_name := "Sample"; row_leaderguid := 10;
                     row_emblem := g_Emblem sample_guild; row_info := ""; row_motd := "";
                     row_createdate := 0; row_BankMoney := 0 |} ];
     t_guild_rank := g_GuildRanks sample_guild;
     t_guild_member := [sample_member 10 0 "Master"] |}.
Definition empty_guilds : guilds_state :=
  {| heap := ∅; next_loc := 0; cache := ∅; guildMembersCache := ∅; guild_invites := ∅ |}.

Lemma Warmup_realm_zero_witness :
  exists s' g,
    Warmup (E:=guild_event) (H:=map_range_canonical) (fun _ => sample_tables) 1 (Sys empty_guilds [] [])
      = (Ok tt, s') /\
    guild_at (st s') 1 7 = Some g /\ ge_RealmID (buildGenericEventPayload "svc" ∅ g) = 0.
Proof.
  destruct (Warmup (E:=guild_event) (H:=map_range_canonical) (fun _ => sample_tables) 1
              (Sys empty_guilds [] [])) as [o s'] eqn:E.
  assert (o = Ok tt) as -> by (change o with (o, s').1; rewrite <- E; vm_compute; reflexivity).
  destruct (guild_at (st s') 1 7) as [g|] eqn:Hg.
  - exists s', g. split; [done|]. split; [done|].
    exact (Warmup_realm_zero (H:=map_range_canonical) "svc" (fun _ => sample_tables) 1
             (Sys empty_guilds [] []) tt s' 7 g ∅ E Hg).
  - exfalso. revert Hg. change s' with (@Ok guild_err _ tt, s').2. rewrite <- E. vm_compute. discriminate.
Defined.
