(* ===== verification/GroupCache.v ===== *)
(** * GroupCache: groups, their repository and the in-memory cache
    (apps/groupserver/repo/group.go, repo/group_mysql.go,
    service/group-cache_inmem.go, service/map.go)

    Members are kept by value in slices, and [groupMembersCache] holds pointers
    into their backing arrays.  The model therefore has the arrays: a slice is
    an array and a length, a member pointer is an array and an index, [append]
    writes in place while the capacity lasts and moves to a new array when it
    does not. *)
From S2P Require Import Prelude GoRuntime.

(** ** Constants *)
Definition MaxTargetIcons : int := 8.
Abbreviation GroupTypeFlags := Z (only parsing).
Definition GroupTypeFlagsNormal : GroupTypeFlags := 0.
Definition GroupTypeFlagsBG : GroupTypeFlags := 1.
Definition GroupTypeFlagsRaid : GroupTypeFlags := 2.
Definition MaxGroupSize : int := 5.
Definition MaxRaidSize : int := 40.
Definition MaxRealmID : u32 := 256.

(** Without iota a constant group repeats its first value: all are 0. *)
Definition LootTypeFreeForAll : u8 := 0.
Definition LootTypeRoundRobin : u8 := 0.
Definition LootTypeMasterLoot : u8 := 0.
Definition LootTypeGroupLoot : u8 := 0.
Definition LootTypeNeedBeforeGreed : u8 := 0.
Definition ItemQualityPoor : u8 := 0.
Definition ItemQualityNormal : u8 := 0.
Definition ItemQualityUncommon : u8 := 0.
Definition ItemQualityRare : u8 := 0.
Definition ItemQualityEpic : u8 := 0.
Definition ItemQualityLegendary : u8 := 0.
Definition ItemQualityArtifact : u8 := 0.

Definition RoleFlagsAssistant : u8 := 1.
Definition RoleFlagsMainTank : u8 := 2.
Definition RoleFlagsMainAssistant : u8 := 4.

Definition dungeonMaps : list int :=
  [33; 34; 36; 43; 44; 47; 48; 70; 90; 109; 129; 189; 209; 229; 230; 269; 289; 329; 349; 389;
   429; 540; 542; 543; 545; 546; 547; 552; 553; 554; 555; 556; 557; 558; 560; 574; 575; 576;
   578; 585; 595; 598; 599; 600; 601; 602; 604; 608; 619; 632; 650; 658; 668].
Definition raidMaps : list int :=
  [169; 249; 309; 409; 469; 509; 531; 532; 533; 534; 544; 548; 550; 564; 565; 568; 580; 603;
   615; 616; 624; 631; 649; 724].
Definition IsDungeon (m : int) : bool := bool_decide (m ∈ dungeonMaps).
Definition IsRaidMap (m : int) : bool := bool_decide (m ∈ raidMaps).

(** ** Data *)
Record GroupMember := {
  gm_GroupID : Z; gm_MemberGUID : u64; gm_MemberFlags : u8; gm_MemberName : string;
  gm_IsOnline : bool; gm_SubGroup : u8; gm_Roles : u8
}.
Definition zero_member : GroupMember :=
  {| gm_GroupID := 0; gm_MemberGUID := 0; gm_MemberFlags := 0; gm_MemberName := "";
     gm_IsOnline := false; gm_SubGroup := 0; gm_Roles := 0 |}.

Definition IsAssistant (m : GroupMember) : bool := 0 <? Z.land (gm_Roles m) RoleFlagsAssistant.

(** A slice of members: the first [sl_len] cells of array [sl_arr]. *)
Record slice := { sl_arr : nat; sl_len : nat }.

Record Group := {
  g_ID : Z; g_LeaderGUID : u64; g_LootMethod : u8; g_LooterGUID : u64; g_LootThreshold : u8;
  g_TargetIcons : list u64; g_GroupType : GroupTypeFlags; g_Difficulty : u8;
  g_RaidDifficulty : u8; g_MasterLooterGuid : u64; g_Members : slice
}.

Record GroupInvite := {
  i_Inviter : u64; i_InviterName : string; i_Invitee : u64; i_InviteeName : string; i_GroupID : Z
}.

Definition set_Members (g : Group) (ms : slice) : Group :=
  {| g_ID := g_ID g; g_LeaderGUID := g_LeaderGUID g; g_LootMethod := g_LootMethod g;
     g_LooterGUID := g_LooterGUID g; g_LootThreshold := g_LootThreshold g;
     g_TargetIcons := g_TargetIcons g; g_GroupType := g_GroupType g; g_Difficulty := g_Difficulty g;
     g_RaidDifficulty := g_RaidDifficulty g; g_MasterLooterGuid := g_MasterLooterGuid g;
     g_Members := ms |}.
Definition set_ID (g : Group) (id : Z) : Group :=
  {| g_ID := id; g_LeaderGUID := g_LeaderGUID g; g_LootMethod := g_LootMethod g;
     g_LooterGUID := g_LooterGUID g; g_LootThreshold := g_LootThreshold g;
     g_TargetIcons := g_TargetIcons g; g_GroupType := g_GroupType g; g_Difficulty := g_Difficulty g;
     g_RaidDifficulty := g_RaidDifficulty g; g_MasterLooterGuid := g_MasterLooterGuid g;
     g_Members := g_Members g |}.
Definition set_LeaderGUID (g : Group) (leader : u64) : Group :=
  {| g_ID := g_ID g; g_LeaderGUID := leader; g_LootMethod := g_LootMethod g;
     g_LooterGUID := g_LooterGUID g; g_LootThreshold := g_LootThreshold g;
     g_TargetIcons := g_TargetIcons g; g_GroupType := g_GroupType g; g_Difficulty := g_Difficulty g;
     g_RaidDifficulty := g_RaidDifficulty g; g_MasterLooterGuid := g_MasterLooterGuid g;
     g_Members := g_Members g |}.
Definition set_Loot (g : Group) (method threshold : u8) (looter : u64) : Group :=
  {| g_ID := g_ID g; g_LeaderGUID := g_LeaderGUID g; g_LootMethod := method;
     g_LooterGUID := looter; g_LootThreshold := threshold;
     g_TargetIcons := g_TargetIcons g; g_GroupType := g_GroupType g; g_Difficulty := g_Difficulty g;
     g_RaidDifficulty := g_RaidDifficulty g; g_MasterLooterGuid := g_MasterLooterGuid g;
     g_Members := g_Members g |}.
Definition set_TargetIcons (g : Group) (icons : list u64) : Group :=
  {| g_ID := g_ID g; g_LeaderGUID := g_LeaderGUID g; g_LootMethod := g_LootMethod g;
     g_LooterGUID := g_LooterGUID g; g_LootThreshold := g_LootThreshold g;
     g_TargetIcons := icons; g_GroupType := g_GroupType g; g_Difficulty := g_Difficulty g;
     g_RaidDifficulty := g_RaidDifficulty g; g_MasterLooterGuid := g_MasterLooterGuid g;
     g_Members := g_Members g |}.
Definition set_Mode (g : Group) (ty : GroupTypeFlags) (difficulty raidDifficulty : u8) : Group :=
  {| g_ID := g_ID g; g_LeaderGUID := g_LeaderGUID g; g_LootMethod := g_LootMethod g;
     g_LooterGUID := g_LooterGUID g; g_LootThreshold := g_LootThreshold g;
     g_TargetIcons := g_TargetIcons g; g_GroupType := ty; g_Difficulty := difficulty;
     g_RaidDifficulty := raidDifficulty; g_MasterLooterGuid := g_MasterLooterGuid g;
     g_Members := g_Members g |}.

Definition set_IsOnline (m : GroupMember) (online : bool) : GroupMember :=
  {| gm_GroupID := gm_GroupID m; gm_MemberGUID := gm_MemberGUID m; gm_MemberFlags := gm_MemberFlags m;
     gm_MemberName := gm_MemberName m; gm_IsOnline := online; gm_SubGroup := gm_SubGroup m;
     gm_Roles := gm_Roles m |}.
Definition set_GroupID (m : GroupMember) (id : Z) : GroupMember :=
  {| gm_GroupID := id; gm_MemberGUID := gm_MemberGUID m; gm_MemberFlags := gm_MemberFlags m;
     gm_MemberName := gm_MemberName m; gm_IsOnline := gm_IsOnline m; gm_SubGroup := gm_SubGroup m;
     gm_Roles := gm_Roles m |}.

Definition IsRaid (g : Group) : bool := 0 <? Z.land (g_GroupType g) GroupTypeFlagsRaid.

Definition IsFull (g : Group) : bool :=
  if IsRaid g then MaxRaidSize <=? Z.of_nat (sl_len (g_Members g))
  else MaxGroupSize <=? Z.of_nat (sl_len (g_Members g)).

(** ** Errors *)
Inductive group_err :=
| ErrDB | ErrBus | ErrRPC
| ErrAlreadyInGroup | ErrNoPermissions | ErrGroupFull | ErrGroupNotFound | ErrGroupMemberNotFound
| ErrMemberInDungeonOrRaid | ErrInviteNotFound
| ErrNoMember (player : u64) (groupID : Z) | ErrIcon (iconID : u8) | ErrMessageType (ty : u8)
| ErrWrap (e : group_err).

(** ** State: the memory of the process and the tables it reads back *)
Record groups_state := {
  arrays : gmap nat (list GroupMember);         (* backing arrays, one cell per unit of capacity *)
  next_array : nat;
  groups : gmap nat Group;                      (* group objects *)
  next_group : nat;
  groupsCache : gmap u32 (gmap Z nat);          (* a realm without an entry has a nil map *)
  groupMembersCache : gmap u32 (gmap u64 (nat * nat));
  group_invites : gmap (u32 * u64) GroupInvite; (* table group_invites, by realm and invited *)
  last_insert_id : gmap u32 Z                   (* AUTO_INCREMENT of table groups *)
}.

Definition with_arrays (s : groups_state) a n :=
  {| arrays := a; next_array := n; groups := groups s; next_group := next_group s;
     groupsCache := groupsCache s; groupMembersCache := groupMembersCache s;
     group_invites := group_invites s; last_insert_id := last_insert_id s |}.
Definition with_groups (s : groups_state) g n :=
  {| arrays := arrays s; next_array := next_array s; groups := g; next_group := n;
     groupsCache := groupsCache s; groupMembersCache := groupMembersCache s;
     group_invites := group_invites s; last_insert_id := last_insert_id s |}.
Definition with_caches (s : groups_state) gc mc :=
  {| arrays := arrays s; next_array := next_array s; groups := groups s; next_group := next_group s;
     groupsCache := gc; groupMembersCache := mc;
     group_invites := group_invites s; last_insert_id := last_insert_id s |}.
Definition with_tables (s : groups_state) i l :=
  {| arrays := arrays s; next_array := next_array s; groups := groups s; next_group := next_group s;
     groupsCache := groupsCache s; groupMembersCache := groupMembersCache s;
     group_invites := i; last_insert_id := l |}.

(** A process that has just started; array 0 is never allocated: a nil slice
    points to it and has no capacity. *)
Definition NewInMemGroupsCache : groups_state :=
  {| arrays := ∅; next_array := 1; groups := ∅; next_group := 0; groupsCache := ∅;
     groupMembersCache := ∅; group_invites := ∅; last_insert_id := ∅ |}.

(** Lookups in the two maps; a nil map has no entries. *)
Definition member_ptr (s : groups_state) (realmID : u32) (guid : u64) : option (nat * nat) :=
  groupMembersCache s !! realmID ≫= (.!! guid).
Definition group_ptr (s : groups_state) (realmID : u32) (groupID : Z) : option nat :=
  groupsCache s !! realmID ≫= (.!! groupID).

(** ** Slices and pointers *)

(** How [append] grows a full array: only that it grows is used. *)
Class SliceGrow := {
  grow : nat -> nat;
  grow_lt : forall cap, (cap < grow cap)%nat
}.
Definition slice_grow_double : SliceGrow.
Proof. refine {| grow := fun cap => (2 * cap + 1)%nat |}. lia. Defined.

Definition cells (s : groups_state) (a : nat) : list GroupMember := default [] (arrays s !! a).
Definition slice_read (s : groups_state) (sl : slice) : list GroupMember :=
  take (sl_len sl) (cells s (sl_arr sl)).
Definition members_of (s : groups_state) (g : Group) : list GroupMember := slice_read s (g_Members g).
Definition ptr_read (s : groups_state) (p : nat * nat) : option GroupMember := cells s p.1 !! p.2.
Definition ptr_write (p : nat * nat) (m : GroupMember) (s : groups_state) : groups_state :=
  with_arrays s (alter (<[p.2 := m]>) p.1 (arrays s)) (next_array s).

(** append(sl, x) *)
Definition slice_append `{SliceGrow} (sl : slice) (x : GroupMember) (s : groups_state) : slice * groups_state :=
  let cs := cells s (sl_arr sl) in
  if (sl_len sl <? length cs)%nat then
    ({| sl_arr := sl_arr sl; sl_len := S (sl_len sl) |},
     with_arrays s (<[sl_arr sl := <[sl_len sl := x]> cs]> (arrays s)) (next_array s))
  else
    let cs' := take (sl_len sl) cs ++ x :: replicate (grow (length cs) - S (sl_len sl)) zero_member in
    ({| sl_arr := next_array s; sl_len := S (sl_len sl) |},
     with_arrays s (<[next_array s := cs']> (arrays s)) (S (next_array s))).

(** append(sl[:i], sl[i+1:]...): the tail moves down inside the array and the
    cell after the new end keeps its old contents. *)
Definition slice_cut (sl : slice) (i : nat) (s : groups_state) : slice * groups_state :=
  let cs := cells s (sl_arr sl) in
  let n := sl_len sl in
  let cs' := take i cs ++ drop (S i) (take n cs) ++ drop (n - 1) cs in
  ({| sl_arr := sl_arr sl; sl_len := n - 1 |},
   with_arrays s (<[sl_arr sl := cs']> (arrays s)) (next_array s)).

Fixpoint index_of (guid : u64) (ms : list GroupMember) : option nat :=
  match ms with
  | [] => None
  | m :: ms => if gm_MemberGUID m =? guid then Some O else S <$> index_of guid ms
  end.

(** [group.MemberByGUID(guid)]: a pointer into the group's array, or nil. *)
Definition MemberByGUID (s : groups_state) (g : Group) (guid : u64) : option (nat * nat) :=
  (fun i => (sl_arr (g_Members g), i)) <$> index_of guid (members_of s g).

Definition OnlineMemberGUIDs (s : groups_state) (g : Group) : list u64 :=
  gm_MemberGUID <$> filter (fun m => gm_IsOnline m = true) (members_of s g).

(** ** Operations *)

(** What [LoadAllForRealm] selects: group rows (without members), member rows. *)
Record group_tables := { t_groups : list Group; t_group_member : list GroupMember }.

Section Cache.
Context {E : Type} `{MapRange} `{SliceGrow}.
Variable tables : u32 -> group_tables.

Abbreviation M A := (go groups_state E group_err A).

Definition db : M unit := ext ErrDB.

(** Indexing the [MaxRealmID]-element arrays. *)
Definition idx (realmID : u32) : M unit := if MaxRealmID <=? realmID then panic else mret tt.

Definition load_group (p : nat) : M Group := s ← gets id; deref (groups s !! p).
Definition store_group (p : nat) (g : Group) : M unit :=
  modify (fun s => with_groups s (<[p := g]> (groups s)) (next_group s)).

(** *** repo/group_mysql.go *)
Fixpoint insert_members (sl : slice) (id : Z) (i n : nat) : M unit :=
  match n with
  | O => mret tt
  | S n =>
    s ← gets Datatypes.id;
    m ← deref (ptr_read s (sl_arr sl, i));
    modify (ptr_write (sl_arr sl, i) (set_GroupID m id)) ;;
    wrap_err ErrWrap db ;;
    insert_members sl id (S i) n
  end.

Definition mysql_Create (realmID : u32) (p : nat) : M unit :=
  db ;;
  s ← gets Datatypes.id;
  let id := default 0 (last_insert_id s !! realmID) + 1 in
  modify (fun s => with_tables s (group_invites s) (<[realmID := id]> (last_insert_id s))) ;;
  db ;;
  g ← load_group p;
  store_group p (set_ID g id) ;;
  insert_members (g_Members g) id 0 (sl_len (g_Members g)).

Definition mysql_Delete : M unit := db ;; db.

Definition mysql_AddInvite (realmID : u32) (invite : GroupInvite) : M unit :=
  db ;; modify (fun s => with_tables s (<[(realmID, i_Invitee invite) := invite]> (group_invites s)) (last_insert_id s)).

Definition mysql_GetInviteByInvitedPlayer (realmID : u32) (invitedPlayer : u64) : M (option GroupInvite) :=
  db ;; gets (fun s => group_invites s !! (realmID, invitedPlayer)).

(** Group rows get fresh objects with nil slices; member rows are appended. *)
Definition load_row (acc : groups_state * gmap Z nat) (row : Group) : groups_state * gmap Z nat :=
  let '(s, result) := acc in
  (with_groups s (<[next_group s := set_Members row {| sl_arr := 0; sl_len := 0 |}]> (groups s)) (S (next_group s)),
   <[g_ID row := next_group s]> result).

Definition load_member_row (acc : groups_state * gmap Z nat) (m : GroupMember) : groups_state * gmap Z nat :=
  let '(s, result) := acc in
  match result !! gm_GroupID m with
  | Some p =>
    match groups s !! p with
    | Some g =>
      let '(sl, s) := slice_append (g_Members g) m s in
      (with_groups s (<[p := set_Members g sl]> (groups s)) (next_group s), result)
    | None => acc
    end
  | None => acc
  end.

Definition LoadAllForRealm (realmID : u32) : M (gmap Z nat) :=
  db ;; db ;;
  s ← gets Datatypes.id;
  let '(s', result) := foldl load_member_row (foldl load_row (s, ∅) (t_groups (tables realmID)))
                         (t_group_member (tables realmID)) in
  modify (fun _ => s') ;; mret result.

(** *** service/group-cache_inmem.go *)
Definition GroupByID (realmID : u32) (groupID : Z) : M (option nat) :=
  idx realmID ;; gets (fun s => group_ptr s realmID groupID).

Definition groupMemberByGUID (realmID : u32) (player : u64) : M (option (nat * nat)) :=
  idx realmID ;; gets (fun s => member_ptr s realmID player).

Definition GroupIDByPlayer (realmID : u32) (player : u64) : M Z :=
  member ← groupMemberByGUID realmID player;
  match member with
  | None => mret 0
  | Some p => s ← gets id; m ← deref (ptr_read s p); mret (gm_GroupID m)
  end.

(** Writes into the realm's maps: they panic when the map is nil. *)
Definition put_group (realmID : u32) (id : Z) (p : nat) : M unit :=
  idx realmID ;;
  s ← gets Datatypes.id;
  gc ← deref (groupsCache s !! realmID);
  modify (fun s => with_caches s (<[realmID := <[id := p]> gc]> (groupsCache s)) (groupMembersCache s)).

Definition put_member (realmID : u32) (guid : u64) (p : nat * nat) : M unit :=
  idx realmID ;;
  s ← gets Datatypes.id;
  mc ← deref (groupMembersCache s !! realmID);
  modify (fun s => with_caches s (groupsCache s) (<[realmID := <[guid := p]> mc]> (groupMembersCache s))).

(** delete on a nil map does nothing. *)
Definition drop_member (realmID : u32) (guid : u64) : M unit :=
  modify (fun s => with_caches s (groupsCache s) (alter (delete guid) realmID (groupMembersCache s))).
Definition drop_group (realmID : u32) (id : Z) : M unit :=
  modify (fun s => with_caches s (alter (delete id) realmID (groupsCache s)) (groupMembersCache s)).

Fixpoint index_members (realmID : u32) (a : nat) (i : nat) (ms : list GroupMember) : M unit :=
  match ms with
  | [] => mret tt
  | m :: ms => put_member realmID (gm_MemberGUID m) (a, i) ;; index_members realmID a (S i) ms
  end.

Definition Create (realmID : u32) (p : nat) : M unit :=
  mysql_Create realmID p ;;
  g ← load_group p;
  put_group realmID (g_ID g) p ;;
  s ← gets id;
  index_members realmID (sl_arr (g_Members g)) 0 (members_of s g).

Fixpoint drop_members (realmID : u32) (ms : list GroupMember) : M unit :=
  match ms with
  | [] => mret tt
  | m :: ms => drop_member realmID (gm_MemberGUID m) ;; drop_members realmID ms
  end.

Definition Delete (realmID : u32) (groupID : Z) : M unit :=
  mysql_Delete ;;
  group ← GroupByID realmID groupID;
  p ← deref group;
  g ← load_group p;
  s ← gets id;
  drop_members realmID (members_of s g) ;;
  drop_group realmID groupID.

Definition Update (realmID : u32) (p : nat) : M unit :=
  db ;; g ← load_group p; put_group realmID (g_ID g) p.

Definition AddMember (realmID : u32) (m : GroupMember) : M unit :=
  db ;;
  group ← GroupByID realmID (gm_GroupID m);
  p ← deref group;
  g ← load_group p;
  s ← gets id;
  let '(sl, s') := slice_append (g_Members g) m s in
  modify (fun _ => s') ;;
  store_group p (set_Members g sl) ;;
  put_member realmID (gm_MemberGUID m) (sl_arr sl, sl_len sl - 1)%nat.

Definition UpdateMember (realmID : u32) (m : GroupMember) : M unit :=
  db ;;
  group ← GroupByID realmID (gm_GroupID m);
  p ← deref group;
  g ← load_group p;
  s ← gets id;
  match MemberByGUID s g (gm_MemberGUID m) with
  | Some ptr => modify (ptr_write ptr m) ;; put_member realmID (gm_MemberGUID m) ptr
  | None => mret tt
  end.

Definition RemoveMember (realmID : u32) (memberGUID : u64) : M unit :=
  db ;;
  groupID ← GroupIDByPlayer realmID memberGUID;
  group ← GroupByID realmID groupID;
  p ← deref group;
  g ← load_group p;
  s ← gets id;
  match index_of memberGUID (members_of s g) with
  | Some i =>
    let '(sl, s') := slice_cut (g_Members g) i s in
    modify (fun _ => s') ;;
    store_group p (set_Members g sl) ;;
    drop_member realmID memberGUID
  | None => mret tt
  end.

Definition set_online (online : bool) (realmID : u32) (charGUID : u64) : M unit :=
  member ← groupMemberByGUID realmID charGUID;
  match member with
  | None => mret tt
  | Some p => s ← gets id; m ← deref (ptr_read s p); modify (ptr_write p (set_IsOnline m online))
  end.
Definition cache_HandleCharacterLoggedIn := set_online true.
Definition cache_HandleCharacterLoggedOut := set_online false.

Fixpoint index_groups (realmID : u32) (gs : list (Z * nat)) : M unit :=
  match gs with
  | [] => mret tt
  | (_, p) :: gs =>
    g ← load_group p; s ← gets id;
    index_members realmID (sl_arr (g_Members g)) 0 (members_of s g) ;;
    index_groups realmID gs
  end.

(** The guard lets [MaxRealmID] itself through to an out-of-range index. *)
Definition Warmup (realmID : u32) : M unit :=
  (if MaxRealmID <? realmID then panic else mret tt) ;;
  groups ← LoadAllForRealm realmID;
  idx realmID ;;
  modify (fun s => with_caches s (<[realmID := groups]> (groupsCache s))
                                 (<[realmID := ∅]> (groupMembersCache s))) ;;
  index_groups realmID (go_range 0 groups).
End Cache.

(** ** A group as the cache sees it

    [view s realm p g ms]: object [p] is the cached group [g] with members
    [ms], and the pointer cached for each member leads to a record of that
    group - not necessarily to the member's own cell.  [fresh_view] adds that
    it does lead to the member's own cell, as the comment on
    [groupMembersCache] promises. *)
Record view (s : groups_state) (realmID : u32) (p : nat) (g : Group) (ms : list GroupMember) : Prop := {
  v_realm : realmID < MaxRealmID;
  v_cached : group_ptr s realmID (g_ID g) = Some p;
  v_obj : groups s !! p = Some g;
  v_members : members_of s g = ms;
  v_len : sl_len (g_Members g) = length ms;
  v_id : g_ID g <> 0;
  v_nodup : NoDup (gm_MemberGUID <$> ms);
  v_ptrs : forall m, m ∈ ms -> exists ptr x, member_ptr s realmID (gm_MemberGUID m) = Some ptr /\
    ptr_read s ptr = Some x /\ gm_GroupID x = g_ID g
}.

Definition fresh_view s realmID p g ms : Prop :=
  view s realmID p g ms /\
  forall i m, ms !! i = Some m -> member_ptr s realmID (gm_MemberGUID m) = Some (sl_arr (g_Members g), i).

Lemma index_of_Some guid ms i :
  index_of guid ms = Some i -> exists m, ms !! i = Some m /\ gm_MemberGUID m = guid.
Proof.
  revert i. induction ms as [|m ms IH]; intros i; simpl; [done|].
  destruct (Z.eqb_spec (gm_MemberGUID m) guid) as [E|E]; [by intros [= <-]; eauto|].
  intros (j & Hj & ->)%fmap_Some. apply (IH j Hj).
Qed.

Lemma index_of_nodup ms i m :
  NoDup (gm_MemberGUID <$> ms) -> ms !! i = Some m -> index_of (gm_MemberGUID m) ms = Some i.
Proof.
  revert i. induction ms as [|x ms IH]; intros i Hnd Hi; simpl in *; [done|].
  inversion Hnd as [|? ? Hx Hnd']; subst. destruct i as [|i]; simpl in Hi.
  - injection Hi as ->. by rewrite Z.eqb_refl.
  - destruct (Z.eqb_spec (gm_MemberGUID x) (gm_MemberGUID m)) as [E|E].
    + exfalso. apply Hx. rewrite E. apply list_elem_of_fmap_2. by eapply list_elem_of_lookup_2.
    + by rewrite (IH i).
Qed.

Lemma view_lookup s realmID p g ms i m :
  view s realmID p g ms -> ms !! i = Some m ->
  cells s (sl_arr (g_Members g)) !! i = Some m /\ (i < sl_len (g_Members g))%nat.
Proof.
  intros Hv Hi. pose proof (lookup_lt_Some _ _ _ Hi) as Hlt.
  rewrite <- (v_len _ _ _ _ _ Hv) in Hlt. split; [|done].
  rewrite <- (v_members _ _ _ _ _ Hv) in Hi. unfold members_of, slice_read in Hi.
  by rewrite lookup_take_Some in Hi; destruct Hi.
Qed.

(** *** Reads *)
Section Runs.
Context {E : Type} `{SliceGrow}.
Abbreviation M A := (go groups_state E group_err A).
Implicit Types s : sys groups_state E.

Lemma idx_run s realmID : realmID < MaxRealmID -> (idx realmID : M unit) s = (Ok tt, s).
Proof. intros Hr. unfold idx. by rewrite (proj2 (Z.leb_gt _ _) Hr). Qed.

Lemma GroupIDByPlayer_run s realmID p g ms m :
  view (st s) realmID p g ms -> m ∈ ms ->
  (GroupIDByPlayer realmID (gm_MemberGUID m) : M Z) s = (Ok (g_ID g), s).
Proof.
  intros Hv Hm. destruct (v_ptrs _ _ _ _ _ Hv m Hm) as (ptr & x & Hp & Hx & Hid).
  unfold GroupIDByPlayer, groupMemberByGUID, mbind, go_bind. rewrite idx_run by apply Hv.
  unfold gets. rewrite Hp.
  unfold id; simpl. rewrite Hx. simpl. by rewrite Hid.
Qed.

Lemma GroupByID_run s realmID p g ms :
  view (st s) realmID p g ms -> (GroupByID realmID (g_ID g) : M _) s = (Ok (Some p), s).
Proof.
  intros Hv. unfold GroupByID, mbind, go_bind. rewrite idx_run by apply Hv.
  unfold gets. by rewrite (v_cached _ _ _ _ _ Hv).
Qed.

Lemma load_group_run s p g :
  groups (st s) !! p = Some g -> (load_group p : M _) s = (Ok g, s).
Proof. intros Hg. unfold load_group, mbind, go_bind, gets, id; simpl. by rewrite Hg. Qed.

Lemma load_group_ok s p g s' :
  (load_group p : M _) s = (Ok g, s') -> groups (st s) !! p = Some g /\ s' = s.
Proof. unfold load_group. intros H0. inv_ok. done. Qed.

Lemma idx_ok s realmID u s' : (idx realmID : M unit) s = (Ok u, s') -> realmID < MaxRealmID /\ s' = s.
Proof. unfold idx. destruct (Z.leb_spec MaxRealmID realmID); intros Hr; inv_ok; done. Qed.

Lemma GroupByID_ok s realmID groupID o s' :
  (GroupByID realmID groupID : M _) s = (Ok o, s') -> group_ptr (st s) realmID groupID = o /\ s' = s.
Proof. unfold GroupByID. intros Hr. inv_ok. by apply idx_ok in Hrun as [_ ->]. Qed.

Lemma GroupIDByPlayer_ok s realmID player gid s' :
  (GroupIDByPlayer realmID player : M _) s = (Ok gid, s') ->
  s' = s /\ (gid = 0 \/ exists ptr m, member_ptr (st s) realmID player = Some ptr /\
                      ptr_read (st s) ptr = Some m /\ gm_GroupID m = gid).
Proof.
  unfold GroupIDByPlayer, groupMemberByGUID. intros Hr. inv_ok. apply idx_ok in Hrun1 as [_ ->].
  destruct (member_ptr (st s) realmID player) as [ptr|] eqn:E1; inv_ok; [|by auto].
  split; [done|]. right. eauto.
Qed.
End Runs.

(** Invert the cache's reading steps. *)
Ltac inv_cache_step :=
  match goal with
  | H : GroupByID _ _ _ = (Ok _, _) |- _ =>
      let E := fresh "Hgroup" in apply GroupByID_ok in H as [E ->]
  | H : load_group _ _ = (Ok _, _) |- _ =>
      let E := fresh "Hobj" in apply load_group_ok in H as [E ->]
  | H : idx _ _ = (Ok _, _) |- _ =>
      let E := fresh "Hrealm" in apply idx_ok in H as [E ->]
  | _ => inv_ok_step
  end.
Ltac inv_cache := repeat inv_cache_step.

(** ** Adding a member to a full array *)

(** What [AddMember] does to the memory. *)
Definition member_appended `{SliceGrow} (realmID : u32) (p : nat) (g : Group) (m : GroupMember)
    (mc : gmap u64 (nat * nat)) (s : groups_state) : groups_state :=
  let '(sl, s1) := slice_append (g_Members g) m s in
  with_caches (with_groups s1 (<[p := set_Members g sl]> (groups s1)) (next_group s1))
    (groupsCache s1)
    (<[realmID := <[gm_MemberGUID m := (sl_arr sl, (sl_len sl - 1)%nat)]> mc]> (groupMembersCache s1)).

Definition member_cut (realmID : u32) (p : nat) (g : Group) (i : nat) (guid : u64)
    (s : groups_state) : groups_state :=
  let '(sl, s1) := slice_cut (g_Members g) i s in
  with_caches (with_groups s1 (<[p := set_Members g sl]> (groups s1)) (next_group s1))
    (groupsCache s1) (alter (delete guid) realmID (groupMembersCache s1)).

Section Appending.
Context {E : Type} `{SliceGrow}.
Abbreviation M A := (go groups_state E group_err A).
Implicit Types s : sys groups_state E.

Lemma AddMember_ok s realmID p g ms m mc u s' :
  view (st s) realmID p g ms -> gm_GroupID m = g_ID g ->
  groupMembersCache (st s) !! realmID = Some mc ->
  (AddMember realmID m : M unit) s = (Ok u, s') ->
  st s' = member_appended realmID p g m mc (st s) /\ events s' = events s.
Proof.
  intros Hv Hid Hmc Hrun. unfold AddMember, put_member, store_group, db in Hrun.
  rewrite Hid in Hrun. inv_cache.
  simpl in *. rewrite Hst in *.
  rewrite (v_cached _ _ _ _ _ Hv) in Hsome. simplify_eq.
  rewrite (v_obj _ _ _ _ _ Hv) in Hobj. simplify_eq.
  unfold member_appended. rewrite Hpair. split; [|done].
  assert (groupMembersCache g0 = groupMembersCache (st s)) as Hc.
  { unfold slice_append in Hpair. by case_match; simplify_eq. }
  rewrite Hc in Hsome0. by simplify_eq.
Qed.

Lemma RemoveMember_ok s realmID p g ms m i u s' :
  view (st s) realmID p g ms -> ms !! i = Some m ->
  (RemoveMember realmID (gm_MemberGUID m) : M unit) s = (Ok u, s') ->
  st s' = member_cut realmID p g i (gm_MemberGUID m) (st s) /\ events s' = events s.
Proof.
  intros Hv Hi Hrun. unfold RemoveMember, drop_member, store_group, db in Hrun.
  inv_cache.
  match goal with Hq : GroupIDByPlayer _ _ ?s0 = _ |- _ =>
    rewrite <- Hst in Hv; rewrite (GroupIDByPlayer_run _ _ _ _ _ _ Hv) in Hq by
      (by eapply list_elem_of_lookup_2); rewrite Hst in Hv; injection Hq as <- <- end.
  rewrite Hst in *.
  rewrite (v_cached _ _ _ _ _ Hv) in Hsome. injection Hsome as <-.
  rewrite (v_obj _ _ _ _ _ Hv) in Hobj. injection Hobj as <-.
  rewrite (v_members _ _ _ _ _ Hv), (index_of_nodup _ _ _ (v_nodup _ _ _ _ _ Hv) Hi) in Hrun3.
  unfold member_cut. destruct (slice_cut (g_Members g) i (st s)) as [sl s1]. inv_ok. done.
Qed.
End Appending.

(** *** What is left of the group *)
Lemma slice_cut_members s realmID p g ms i m :
  view s realmID p g ms -> ms !! i = Some m ->
  let '(sl, s1) := slice_cut (g_Members g) i s in
  slice_read s1 sl = delete i ms /\ sl_len sl = length (delete i ms).
Proof.
  intros Hv Hi. unfold slice_cut, slice_read, cells; simpl. rewrite lookup_insert_eq. simpl.
  pose proof (lookup_lt_Some _ _ _ Hi) as Hlt. rewrite <- (v_len _ _ _ _ _ Hv) in Hlt.
  assert (Hms : take (sl_len (g_Members g)) (cells s (sl_arr (g_Members g))) = ms)
    by apply (v_members _ _ _ _ _ Hv).
  pose proof (v_len _ _ _ _ _ Hv) as Hlen. fold (cells s (sl_arr (g_Members g))).
  rewrite Hms, length_delete by (by eexists). split; [|lia].
  assert (Hti : take i (cells s (sl_arr (g_Members g))) = take i ms)
    by (rewrite <- Hms, take_take; f_equal; lia).
  rewrite Hti, app_assoc, <- delete_take_drop.
  assert (length (delete i ms) = length ms - 1)%nat as Hd by (rewrite length_delete; [lia|by eexists]).
  rewrite take_app_le by lia. apply take_ge. lia.
Qed.

Lemma member_cut_group s realmID p g ms i m :
  view s realmID p g ms -> ms !! i = Some m ->
  let s' := member_cut realmID p g i (gm_MemberGUID m) s in
  exists g', groups s' !! p = Some g' /\ g_ID g' = g_ID g /\ g_LeaderGUID g' = g_LeaderGUID g /\
    members_of s' g' = delete i ms /\ group_ptr s' realmID (g_ID g) = Some p /\
    sl_arr (g_Members g') = sl_arr (g_Members g) /\
    sl_len (g_Members g') = length (delete i ms) /\
    (forall guid, member_ptr s' realmID guid =
       if decide (guid = gm_MemberGUID m) then None else member_ptr s realmID guid).
Proof.
  intros Hv Hi. pose proof (slice_cut_members _ _ _ _ _ _ _ Hv Hi) as Hcut.
  unfold member_cut. destruct (slice_cut (g_Members g) i s) as [sl s1] eqn:E. simpl.
  destruct Hcut as [Hread Hlen].
  exists (set_Members g sl). rewrite lookup_insert_eq. split_and!; try done.
  - unfold slice_cut in E. injection E as <- <-. apply Hv.
  - unfold slice_cut in E. by injection E as <- <-.
  - intros guid. unfold member_ptr; simpl.
    replace (groupMembersCache s1) with (groupMembersCache s)
      by (unfold slice_cut in E; by injection E as <- <-).
    rewrite lookup_alter, decide_True by done. destruct (groupMembersCache s !! realmID) as [mc|];
      simpl; [|by case_decide].
    rewrite lookup_delete. by repeat case_decide; subst.
Qed.

Lemma slice_append_members `{SliceGrow} s realmID p g ms x :
  view s realmID p g ms ->
  let '(sl, s1) := slice_append (g_Members g) x s in
  slice_read s1 sl = ms ++ [x] /\ sl_len sl = S (length ms) /\
  sl_arr sl = (if decide (sl_len (g_Members g) < length (cells s (sl_arr (g_Members g))))%nat
               then sl_arr (g_Members g) else next_array s).
Proof.
  intros Hv. unfold slice_append.
  assert (Hms : take (sl_len (g_Members g)) (cells s (sl_arr (g_Members g))) = ms)
    by apply (v_members _ _ _ _ _ Hv).
  pose proof (v_len _ _ _ _ _ Hv) as Hlen.
  destruct (Nat.ltb_spec (sl_len (g_Members g)) (length (cells s (sl_arr (g_Members g))))) as [Hlt|Hge].
  - unfold slice_read, cells; simpl. rewrite lookup_insert_eq. simpl.
    fold (cells s (sl_arr (g_Members g))).
    rewrite decide_True by done. split; [|split; [lia|done]].
    erewrite take_S_r by (apply list_lookup_insert_eq; lia).
    by rewrite take_insert_ge, Hms by lia.
  - unfold slice_read, cells; simpl. rewrite lookup_insert_eq. simpl.
    fold (cells s (sl_arr (g_Members g))).
    rewrite decide_False by lia. rewrite Hms. split; [|split; [lia|done]].
    rewrite Hlen, cons_middle, app_assoc.
    rewrite take_app_le by (rewrite length_app; simpl; lia).
    apply take_ge. rewrite length_app; simpl; lia.
Qed.

Lemma member_appended_group `{SliceGrow} s realmID p g ms m mc :
  view s realmID p g ms -> groupMembersCache s !! realmID = Some mc ->
  let s' := member_appended realmID p g m mc s in
  exists g', groups s' !! p = Some g' /\ g_ID g' = g_ID g /\ g_LeaderGUID g' = g_LeaderGUID g /\
    g_GroupType g' = g_GroupType g /\
    members_of s' g' = ms ++ [m] /\ group_ptr s' realmID (g_ID g) = Some p /\
    sl_len (g_Members g') = S (length ms) /\
    sl_arr (g_Members g') =
      (if decide (sl_len (g_Members g) < length (cells s (sl_arr (g_Members g))))%nat
       then sl_arr (g_Members g) else next_array s) /\
    (forall guid, guid <> gm_MemberGUID m -> member_ptr s' realmID guid = member_ptr s realmID guid) /\
    (forall a, a <> sl_arr (g_Members g) -> a <> next_array s -> cells s' a = cells s a) .
Proof.
  intros Hv Hmc. pose proof (slice_append_members _ _ _ _ _ m Hv) as Hap.
  unfold member_appended. destruct (slice_append (g_Members g) m s) as [sl s1] eqn:E. simpl.
  destruct Hap as (Hread & Hlen & Harr).
  assert (groupsCache s1 = groupsCache s /\ groupMembersCache s1 = groupMembersCache s) as [Hgc Hmc1].
  { unfold slice_append in E. destruct (_ <? _)%nat; injection E as <- <-; by split. }
  exists (set_Members g sl). rewrite lookup_insert_eq. split_and!; try done.
  - unfold group_ptr; simpl. rewrite Hgc. apply Hv.
  - intros guid Hne. unfold member_ptr; simpl. rewrite lookup_insert_eq, Hmc. simpl.
    by rewrite lookup_insert_ne.
  - intros a Ha1 Ha2. unfold slice_append in E. unfold cells at 1; simpl.
    destruct (_ <? _)%nat; injection E as <- <-; simpl; by rewrite lookup_insert_ne.
Qed.

(** ** The pointer cache goes stale *)
Section Stale.
Context {E : Type} `{SliceGrow}.
Abbreviation M A := (go groups_state E group_err A).
Implicit Types s : sys groups_state E.

Lemma set_online_ok s online realmID guid u s' :
  (set_online online realmID guid : M unit) s = (Ok u, s') ->
  match member_ptr (st s) realmID guid with
  | Some ptr => exists m, ptr_read (st s) ptr = Some m /\
                  st s' = ptr_write ptr (set_IsOnline m online) (st s)
  | None => st s' = st s
  end.
Proof.
  unfold set_online, groupMemberByGUID. intros Hrun. inv_cache.
  destruct (member_ptr _ _ _) as [ptr|]; inv_ok; [|done]. eauto.
Qed.

(** Once a member has joined a group whose array was full - the third member
    of every group made by an invitation - logins and logouts of the earlier
    members no longer reach the group: their cached pointers still lead into
    the old array. *)
Theorem append_stales_pointers s s1 s2 realmID p g ms mc m j mj online u u' :
  fresh_view (st s) realmID p g ms -> groupMembersCache (st s) !! realmID = Some mc ->
  length (cells (st s) (sl_arr (g_Members g))) = length ms ->
  (sl_arr (g_Members g) < next_array (st s))%nat ->
  gm_GroupID m = g_ID g -> gm_MemberGUID m ∉ gm_MemberGUID <$> ms -> ms !! j = Some mj ->
  (AddMember realmID m : M unit) s = (Ok u, s1) ->
  (set_online online realmID (gm_MemberGUID mj) : M unit) s1 = (Ok u', s2) ->
  exists g', groups (st s2) !! p = Some g' /\ members_of (st s2) g' = ms ++ [m].
Proof.
  intros [Hv Hptr] Hmc Hfull Hlt Hid Hnew Hj Hadd Hset.
  destruct (AddMember_ok _ _ _ _ _ _ _ _ _ Hv Hid Hmc Hadd) as [Hs1 _].
  destruct (member_appended_group _ _ _ _ _ m _ Hv Hmc)
    as (g' & Hg' & _ & _ & _ & Hms & _ & Hlen & Harr & Hother & _).
  rewrite <- Hs1 in *. rewrite decide_False in Harr by (rewrite (v_len _ _ _ _ _ Hv); lia).
  apply set_online_ok in Hset. rewrite Hother, (Hptr _ _ Hj) in Hset.
  2:{ intros E1. apply Hnew. rewrite <- E1. apply list_elem_of_fmap_2. by eapply list_elem_of_lookup_2. }
  destruct Hset as (x & _ & ->). exists g'. split; [done|]. rewrite <- Hms.
  unfold members_of, slice_read, cells, ptr_write; simpl.
  rewrite lookup_alter_ne; [done|]. rewrite Harr. lia.
Qed.

(** When a member leaves, the later members move down one cell and the
    cached pointers do not: a login or logout of a later member changes the
    status of the one after it instead of its own. *)
Theorem remove_shifts_pointers s s1 s2 realmID p g ms i j m mj mk online u u' :
  fresh_view (st s) realmID p g ms ->
  ms !! i = Some m -> (i < j)%nat -> ms !! j = Some mj -> ms !! S j = Some mk ->
  (RemoveMember realmID (gm_MemberGUID m) : M unit) s = (Ok u, s1) ->
  (set_online online realmID (gm_MemberGUID mj) : M unit) s1 = (Ok u', s2) ->
  exists g', groups (st s2) !! p = Some g' /\
    members_of (st s2) g' = <[j := set_IsOnline mk online]> (delete i ms).
Proof.
  intros [Hv Hptr] Hi Hij Hj Hk Hrem Hset.
  destruct (RemoveMember_ok _ _ _ _ _ _ _ _ _ Hv Hi Hrem) as [Hs1 _].
  destruct (member_cut_group _ _ _ _ _ _ _ Hv Hi)
    as (g' & Hg' & _ & _ & Hms & _ & Harr & Hlen & Hother).
  rewrite <- Hs1 in *. apply set_online_ok in Hset.
  assert (gm_MemberGUID mj <> gm_MemberGUID m) as Hne.
  { intros E1. pose proof (v_nodup _ _ _ _ _ Hv) as Hnd.
    apply (index_of_nodup _ _ _ Hnd) in Hi. apply (index_of_nodup _ _ _ Hnd) in Hj.
    rewrite E1, Hi in Hj. injection Hj. lia. }
  rewrite Hother, decide_False, (Hptr _ _ Hj) in Hset by done.
  assert (Hdel : delete i ms !! j = Some mk) by (by rewrite list_lookup_delete_ge by lia).
  pose proof (lookup_lt_Some _ _ _ Hdel) as Hjlt.
  destruct Hset as (x & Hx & ->). exists g'. split; [done|].
  unfold members_of, slice_read in Hms |- *. rewrite <- Harr in Hx |- *.
  unfold ptr_read in Hx; simpl in Hx.
  rewrite <- Hms, lookup_take_lt, Hx in Hdel by lia. injection Hdel as ->.
  rewrite <- Hms, Harr. unfold cells, ptr_write; simpl. rewrite lookup_alter_eq.
  fold (cells (st s1) (sl_arr (g_Members g))).
  unfold cells. destruct (arrays (st s1) !! sl_arr (g_Members g)) as [cs|] eqn:Ecs; simpl.
  - by rewrite take_insert_lt by lia.
  - rewrite take_nil. done.
Qed.
End Stale.

(** ** A sample group: realm 1, group 7, led by player 10 *)
Definition sample_member (guid : u64) : GroupMember :=
  {| gm_GroupID := 7; gm_MemberGUID := guid; gm_MemberFlags := 0; gm_MemberName := "";
     gm_IsOnline := true; gm_SubGroup := 0; gm_Roles := 0 |}.
Definition sample_group (n : nat) : Group :=
  {| g_ID := 7; g_LeaderGUID := 10; g_LootMethod := 0; g_LooterGUID := 10; g_LootThreshold := 0;
     g_TargetIcons := [0; 5; 0; 0; 0; 0; 0; 0]; g_GroupType := GroupTypeFlagsNormal; g_Difficulty := 0;
     g_RaidDifficulty := 0; g_MasterLooterGuid := 10; g_Members := {| sl_arr := 1; sl_len := n |} |}.
Definition sample_state (ms : list GroupMember) : groups_state :=
  {| arrays := {[1%nat := ms]}; next_array := 2; groups := {[0%nat := sample_group (length ms)]};
     next_group := 1; groupsCache := {[1 := {[7 := 0%nat]}]};
     groupMembersCache := {[1 := list_to_map (imap (fun i m => (gm_MemberGUID m, (1%nat, i))) ms)]};
     group_invites := {[(1, 30) := {| i_Inviter := 10; i_InviterName := "A"; i_Invitee := 30;
                                      i_InviteeName := "B"; i_GroupID := 7 |}]};
     last_insert_id := {[1 := 7]} |}.

Lemma sample_view guids :
  NoDup guids ->
  fresh_view (sample_state (sample_member <$> guids)) 1 0 (sample_group (length guids)) (sample_member <$> guids).
Proof.
  intros Hnd.
  assert (Hg : gm_MemberGUID <$> (sample_member <$> guids) = guids)
    by (rewrite <- list_fmap_compose; apply list_fmap_id).
  assert (Hptr : forall i m, (sample_member <$> guids) !! i = Some m ->
    member_ptr (sample_state (sample_member <$> guids)) 1 (gm_MemberGUID m) = Some (1%nat, i)).
  { intros i m Hi. unfold member_ptr; simpl. rewrite lookup_singleton_eq. simpl.
    apply elem_of_list_to_map_1.
    - rewrite fmap_imap.
      replace (imap _ _) with (gm_MemberGUID <$> (sample_member <$> guids)) by (symmetry; apply (imap_const gm_MemberGUID)).
      by rewrite Hg.
    - apply elem_of_lookup_imap. eauto. }
  split; [|exact Hptr]. constructor; simpl; try done.
  - rewrite lookup_singleton_eq, length_fmap. done.
  - unfold members_of, slice_read, cells; simpl. rewrite lookup_singleton_eq. simpl.
    apply take_ge. by rewrite length_fmap.
  - by rewrite length_fmap.
  - by rewrite Hg.
  - intros m (i & Hi)%list_elem_of_lookup. exists (1%nat, i), m. split; [by apply Hptr|].
    unfold ptr_read, cells; simpl. rewrite lookup_singleton_eq. simpl. split; [done|].
    apply list_elem_of_lookup_2, list_elem_of_fmap in Hi as (x & -> & _). done.
Qed.

Definition sample_sys (ms : list GroupMember) : sys groups_state unit := Sys (sample_state ms) [] [].
#[local] Existing Instance slice_grow_double.

(** Player 10 logs out after player 20 has joined the pair 10, 11: the group still shows 10 online. *)
Lemma append_stales_pointers_witness :
  let ms := sample_member <$> [10; 11] in
  exists (s2 : sys groups_state unit) g', groups (st s2) !! 0%nat = Some g' /\ members_of (st s2) g' = ms ++ [sample_member 20].
Proof.
  intros ms.
  destruct ((AddMember 1 (sample_member 20) : go groups_state unit group_err unit) (sample_sys ms))
    as [o s1] eqn:E1.
  assert (o = Ok tt) as -> by (change o with ((o, s1).1); rewrite <- E1; vm_compute; reflexivity).
  destruct ((set_online false 1 10 : go groups_state unit group_err unit) s1) as [o s2] eqn:E2.
  assert (o = Ok tt) as ->.
  { change o with ((o, s2).1). change s1 with ((@Ok group_err unit tt, s1).2) in E2. rewrite <- E1 in E2.
    rewrite <- E2; vm_compute; reflexivity. }
  exists s2.
  apply (append_stales_pointers (sample_sys ms) s1 s2 1 0 (sample_group 2) ms
    (list_to_map (imap (fun i m => (gm_MemberGUID m, (1%nat, i))) ms)) (sample_member 20) 0
    (sample_member 10) false tt tt); try done.
  - apply (sample_view [10; 11]). by apply (bool_decide_unpack _).
  - simpl. lia.
  - simpl. by apply (bool_decide_unpack _).
Defined.

(** Player 10 leaves, then player 11 logs out: the group shows 12 offline instead. *)
Lemma remove_shifts_pointers_witness :
  let ms := sample_member <$> [10; 11; 12] in
  exists (s2 : sys groups_state unit) g', groups (st s2) !! 0%nat = Some g' /\
    members_of (st s2) g' = [sample_member 11; set_IsOnline (sample_member 12) false].
Proof.
  intros ms.
  destruct ((RemoveMember 1 10 : go groups_state unit group_err unit) (sample_sys ms)) as [o s1] eqn:E1.
  assert (o = Ok tt) as -> by (change o with ((o, s1).1); rewrite <- E1; vm_compute; reflexivity).
  destruct ((set_online false 1 11 : go groups_state unit group_err unit) s1) as [o s2] eqn:E2.
  assert (o = Ok tt) as ->.
  { change o with ((o, s2).1). change s1 with ((@Ok group_err unit tt, s1).2) in E2. rewrite <- E1 in E2.
    rewrite <- E2; vm_compute; reflexivity. }
  exists s2.
  apply (remove_shifts_pointers (sample_sys ms) s1 s2 1 0 (sample_group 3) ms 0 1 (sample_member 10)
    (sample_member 11) (sample_member 12) false tt tt); try done.
  - apply (sample_view [10; 11; 12]). by apply (bool_decide_unpack _).
  - lia.
Defined.
