(* ===== verification/Groups.v ===== *)
(** * Groups: the group service
    (apps/groupserver/service/group.go, shared/events/events-group.go)

    Handlers work on the group objects of [GroupCache] through pointers and
    change their fields before asking the repository to store them.  Failures
    of the message bus are only logged. *)
From S2P Require Import Prelude GoRuntime GroupCache.

(** ** Events *)
Record EventGroupMember := {
  em_MemberGUID : u64; em_MemberFlags : u8; em_MemberName : string; em_IsOnline : bool;
  em_SubGroup : u8; em_Roles : u8
}.

Inductive group_event :=
| InviteCreated (ServiceID : string) (RealmID : u32) (GroupID : Z) (InviterGUID : u64)
    (InviterName : string) (InviteeGUID : u64) (InviteeName : string)
| GroupCreated (ServiceID : string) (RealmID : u32) (GroupID : Z) (LeaderGUID : u64)
    (LootMethod : u8) (LooterGUID : u64) (LootThreshold : u8) (GroupType : u8) (Difficulty : u8)
    (RaidDifficulty : u8) (MasterLooterGuid : u64) (Members : list EventGroupMember)
| GroupMemberOnlineStatusChanged (ServiceID : string) (RealmID : u32) (GroupID : Z)
    (MemberGUID : u64) (IsOnline : bool) (OnlineMembers : list u64)
| GroupMemberLeft (ServiceID : string) (RealmID : u32) (GroupID : Z) (MemberGUID : u64)
    (MemberName : string) (NewLeaderID : u64) (OnlineMembers : list u64)
| MemberAdded (ServiceID : string) (RealmID : u32) (GroupID : Z) (MemberGUID : u64)
    (MemberName : string) (OnlineMembers : list u64)
| LeaderChanged (ServiceID : string) (RealmID : u32) (GroupID : Z) (PreviousLeader : u64)
    (NewLeader : u64) (OnlineMembers : list u64)
| LootTypeChanged (ServiceID : string) (RealmID : u32) (GroupID : Z) (NewLootType : u8)
    (NewLooterGUID : u64) (NewLooterThreshold : u8) (OnlineMembers : list u64)
| ConvertedToRaid (ServiceID : string) (RealmID : u32) (GroupID : Z) (Leader : u64)
    (OnlineMembers : list u64)
| GroupDisband (ServiceID : string) (RealmID : u32) (GroupID : Z) (OnlineMembers : list u64)
| SendChatMessage (ServiceID : string) (RealmID : u32) (GroupID : Z) (SenderGUID : u64)
    (SenderName : string) (Language : u32) (Msg : string) (MessageType : u8) (Receivers : list u64)
| TargetIconUpdated (ServiceID : string) (RealmID : u32) (GroupID : Z) (Updater : u64)
    (Target : u64) (IconID : u8) (Receivers : list u64)
| GroupDifficultyChanged (ServiceID : string) (RealmID : u32) (GroupID : Z) (Updater : u64)
    (DungeonDifficulty RaidDifficulty : option u8) (Receivers : list u64).

Definition MessageTypeGroup : u8 := 0x2.
Definition MessageTypeGroupLeader : u8 := 0x33.
Definition MessageTypeRaid : u8 := 0x3.
Definition MessageTypeRaidLeader : u8 := 0x27.

(** ** Handlers *)
Section Service.
Context `{SliceGrow}.
Variable ServiceID : string.
(** The characters service: the maps of the online characters among the guids. *)
Variable ShortOnlineCharactersDataByGUIDs : u32 -> list u64 -> list int.

Abbreviation M A := (go groups_state group_event group_err A).

Definition emit (e : group_event) : M unit := log_err (publish ErrBus e).
Definition state : M groups_state := gets id.

Definition Invite (realmID : u32) (inviter invited : u64) (inviterName invitedName : string) : M unit :=
  groupID ← GroupIDByPlayer realmID invited;
  guard_err (negb (groupID =? 0)) ErrAlreadyInGroup ;;
  inviterGroupID ← GroupIDByPlayer realmID inviter;
  if inviterGroupID =? 0 then
    mysql_AddInvite realmID
      {| i_Inviter := inviter; i_InviterName := inviterName; i_Invitee := invited;
         i_InviteeName := invitedName; i_GroupID := 0 |} ;;
    emit (InviteCreated ServiceID realmID 0 inviter inviterName invited invitedName)
  else
    group ← GroupByID realmID inviterGroupID;
    p ← deref group;
    g ← load_group p; s ← state;
    ptr ← not_nil (ErrNoMember inviter inviterGroupID) (MemberByGUID s g inviter);
    member ← deref (ptr_read s ptr);
    guard_err (negb ((g_LeaderGUID g =? inviter) || IsAssistant member)) ErrNoPermissions ;;
    guard_err (IsFull g) ErrGroupFull ;;
    mysql_AddInvite realmID
      {| i_Inviter := inviter; i_InviterName := inviterName; i_Invitee := invited;
         i_InviteeName := invitedName; i_GroupID := inviterGroupID |} ;;
    emit (InviteCreated ServiceID realmID inviterGroupID inviter inviterName invited invitedName).

Definition GroupByMemberGUID (realmID : u32) (memberGUID : u64) : M (option nat) :=
  groupID ← GroupIDByPlayer realmID memberGUID;
  GroupByID realmID groupID.

Definition event_member (m : GroupMember) : EventGroupMember :=
  {| em_MemberGUID := gm_MemberGUID m; em_MemberFlags := gm_MemberFlags m;
     em_MemberName := gm_MemberName m; em_IsOnline := gm_IsOnline m;
     em_SubGroup := gm_SubGroup m; em_Roles := gm_Roles m |}.

Definition first_member (guid : u64) (name : string) : GroupMember :=
  {| gm_GroupID := 0; gm_MemberGUID := guid; gm_MemberFlags := 0; gm_MemberName := name;
     gm_IsOnline := true; gm_SubGroup := 0; gm_Roles := 0 |}.

Definition new_group (invite : GroupInvite) (a : nat) : Group :=
  {| g_ID := 0; g_LeaderGUID := i_Inviter invite; g_LootMethod := LootTypeFreeForAll;
     g_LooterGUID := i_Inviter invite; g_LootThreshold := ItemQualityUncommon;
     g_TargetIcons := replicate 8 0; g_GroupType := GroupTypeFlagsNormal; g_Difficulty := 0;
     g_RaidDifficulty := 0; g_MasterLooterGuid := i_Inviter invite;
     g_Members := {| sl_arr := a; sl_len := 2 |} |}.

(** The composite literal: a two-cell array and a group object. *)
Definition alloc_group (invite : GroupInvite) : M nat :=
  s ← state;
  modify (fun s =>
    let members := [first_member (i_Inviter invite) (i_InviterName invite);
                    first_member (i_Invitee invite) (i_InviteeName invite)] in
    with_groups (with_arrays s (<[next_array s := members]> (arrays s)) (S (next_array s)))
      (<[next_group s := new_group invite (next_array s)]> (groups s)) (S (next_group s))) ;;
  mret (next_group s).

Definition createGroup (realmID : u32) (invite : GroupInvite) : M unit :=
  p ← alloc_group invite;
  Create realmID p ;;
  g ← load_group p; s ← state;
  emit (GroupCreated ServiceID realmID (g_ID g) (g_LeaderGUID g) (g_LootMethod g) (g_LooterGUID g)
          (g_LootThreshold g) (g_GroupType g) (g_Difficulty g) (g_RaidDifficulty g)
          (g_MasterLooterGuid g) (event_member <$> members_of s g)).

Definition addMember (realmID : u32) (group : option nat) (invite : GroupInvite) : M unit :=
  AddMember realmID
    {| gm_GroupID := i_GroupID invite; gm_MemberGUID := i_Invitee invite; gm_MemberFlags := 0;
       gm_MemberName := i_InviteeName invite; gm_IsOnline := true; gm_SubGroup := 0; gm_Roles := 0 |} ;;
  p ← deref group;
  g ← load_group p; s ← state;
  emit (MemberAdded ServiceID realmID (g_ID g) (i_Invitee invite) (i_InviteeName invite)
          (OnlineMemberGUIDs s g ++ [i_Invitee invite])).

Definition AcceptInvite (realmID : u32) (player : u64) : M unit :=
  o ← mysql_GetInviteByInvitedPlayer realmID player;
  invite ← not_nil ErrInviteNotFound o;
  if i_GroupID invite =? 0 then createGroup realmID invite
  else
    group ← GroupByID realmID (i_GroupID invite);
    addMember realmID group invite.

Definition disband (realmID : u32) (p : nat) : M unit :=
  g ← load_group p; s ← state;
  let players := OnlineMemberGUIDs s g in
  wrap_err ErrWrap (Delete realmID (g_ID g)) ;;
  emit (GroupDisband ServiceID realmID (g_ID g) players).

Definition changeLeader (realmID : u32) (p : nat) (newLeader : u64) (needsEventUpdate : bool) : M unit :=
  g ← load_group p;
  let prevLeader := g_LeaderGUID g in
  store_group p (set_LeaderGUID g newLeader) ;;
  wrap_err ErrWrap (Update realmID p) ;;
  if needsEventUpdate then
    g ← load_group p; s ← state;
    emit (LeaderChanged ServiceID realmID (g_ID g) prevLeader newLeader (OnlineMemberGUIDs s g))
  else mret tt.

Definition Uninvite (realmID : u32) (initiator target : u64) : M unit :=
  groupID ← wrap_err ErrWrap (GroupIDByPlayer realmID initiator);
  guard_err (groupID =? 0) ErrGroupNotFound ;;
  group ← GroupByID realmID groupID;
  p ← not_nil ErrGroupNotFound group;
  g ← load_group p; s ← state;
  ptr ← not_nil ErrGroupNotFound (MemberByGUID s g target);
  guard_err (negb (g_LeaderGUID g =? initiator)) ErrNoPermissions ;;
  if (sl_len (g_Members g) <=? 2)%nat then wrap_err ErrWrap (disband realmID p)
  else
    m ← deref (ptr_read s ptr);
    let event := GroupMemberLeft ServiceID realmID groupID (gm_MemberGUID m) (gm_MemberName m)
                   (g_LeaderGUID g) (OnlineMemberGUIDs s g) in
    wrap_err ErrWrap (RemoveMember realmID target) ;;
    emit event.

(** The first other member who is online; 0 when there is none. *)
Fixpoint next_leader (player : u64) (ms : list GroupMember) : u64 :=
  match ms with
  | [] => 0
  | m :: ms =>
    if negb (gm_IsOnline m) || (gm_MemberGUID m =? player) then next_leader player ms
    else gm_MemberGUID m
  end.

Definition Leave (realmID : u32) (player : u64) : M unit :=
  groupID ← wrap_err ErrWrap (GroupIDByPlayer realmID player);
  guard_err (groupID =? 0) ErrGroupNotFound ;;
  group ← GroupByID realmID groupID;
  p ← deref group;
  g ← load_group p; s ← state;
  ptr ← not_nil ErrGroupNotFound (MemberByGUID s g player);
  if (sl_len (g_Members g) <=? 2)%nat then disband realmID p
  else
    (if player =? g_LeaderGUID g
     then wrap_err ErrWrap (changeLeader realmID p (next_leader player (members_of s g)) false)
     else mret tt) ;;
    s ← state; g ← load_group p;
    m ← deref (ptr_read s ptr);
    let event := GroupMemberLeft ServiceID realmID groupID (gm_MemberGUID m) (gm_MemberName m)
                   (g_LeaderGUID g) (OnlineMemberGUIDs s g) in
    wrap_err ErrWrap (RemoveMember realmID player) ;;
    emit event.

Definition getGroupWithLeader (realmID : u32) (leaderGUID : u64) : M nat :=
  groupID ← wrap_err ErrWrap (GroupIDByPlayer realmID leaderGUID);
  guard_err (groupID =? 0) ErrGroupNotFound ;;
  group ← GroupByID realmID groupID;
  p ← not_nil ErrGroupNotFound group;
  g ← load_group p;
  guard_err (negb (g_LeaderGUID g =? leaderGUID)) ErrNoPermissions ;;
  mret p.

Definition ChangeLeader (realmID : u32) (player newLeader : u64) : M unit :=
  p ← getGroupWithLeader realmID player;
  g ← load_group p; s ← state;
  _ ← not_nil ErrGroupNotFound (MemberByGUID s g newLeader);
  changeLeader realmID p newLeader true.

Definition ConvertToRaid (realmID : u32) (player : u64) : M unit :=
  p ← getGroupWithLeader realmID player;
  g ← load_group p;
  store_group p (set_Mode g (Z.lor (g_GroupType g) GroupTypeFlagsRaid) (g_Difficulty g) (g_RaidDifficulty g)) ;;
  wrap_err ErrWrap (Update realmID p) ;;
  g ← load_group p; s ← state;
  emit (ConvertedToRaid ServiceID realmID (g_ID g) (g_LeaderGUID g) (OnlineMemberGUIDs s g)).

Definition SendMessage (realmID : u32) (senderGUID : u64) (message : string) (lang : u32)
    (messageType : u8) : M unit :=
  groupID ← wrap_err ErrWrap (GroupIDByPlayer realmID senderGUID);
  guard_err (groupID =? 0) ErrGroupNotFound ;;
  group ← GroupByID realmID groupID;
  p ← not_nil ErrGroupNotFound group;
  g ← load_group p; s ← state;
  ptr ← not_nil ErrGroupMemberNotFound (MemberByGUID s g senderGUID);
  isLeader ←
    (if (messageType =? MessageTypeGroup) || (messageType =? MessageTypeRaid) then mret false
     else if (messageType =? MessageTypeGroupLeader) || (messageType =? MessageTypeRaidLeader) then mret true
     else fail (ErrMessageType messageType));
  guard_err (isLeader && negb (g_LeaderGUID g =? senderGUID)) ErrNoPermissions ;;
  member ← deref (ptr_read s ptr);
  emit (SendChatMessage ServiceID realmID (g_ID g) senderGUID (gm_MemberName member) lang message
          messageType (OnlineMemberGUIDs s g)).

Fixpoint icon_of (target : u64) (icons : list u64) : option nat :=
  match icons with
  | [] => None
  | x :: icons => if x =? target then Some O else S <$> icon_of target icons
  end.

Definition SetTargetIcon (realmID : u32) (updaterGUID : u64) (iconID : u8) (targetGUID : u64) : M unit :=
  guard_err (MaxTargetIcons <=? iconID) (ErrIcon iconID) ;;
  groupID ← wrap_err ErrWrap (GroupIDByPlayer realmID updaterGUID);
  guard_err (groupID =? 0) ErrGroupNotFound ;;
  group ← GroupByID realmID groupID;
  p ← not_nil ErrGroupNotFound group;
  g ← load_group p; s ← state;
  (if IsRaid g && negb (g_LeaderGUID g =? updaterGUID) then
     ptr ← deref (MemberByGUID s g updaterGUID);
     member ← deref (ptr_read s ptr);
     guard_err (negb (IsAssistant member)) ErrNoPermissions
   else mret tt) ;;
  (match icon_of targetGUID (g_TargetIcons g) with
   | Some i =>
     store_group p (set_TargetIcons g (<[i := 0]> (g_TargetIcons g))) ;;
     emit (TargetIconUpdated ServiceID realmID (g_ID g) 0 0 (Z.of_nat i) (OnlineMemberGUIDs s g))
   | None => mret tt
   end) ;;
  g ← load_group p;
  store_group p (set_TargetIcons g (<[Z.to_nat iconID := targetGUID]> (g_TargetIcons g))) ;;
  wrap_err ErrWrap (Update realmID p) ;;
  emit (TargetIconUpdated ServiceID realmID (g_ID g) updaterGUID targetGUID iconID (OnlineMemberGUIDs s g)).

Definition SetLootMethod (realmID : u32) (updaterGUID : u64) (method : u8) (lootMaster : u64)
    (lootThreshold : u8) : M unit :=
  p ← getGroupWithLeader realmID updaterGUID;
  g ← load_group p;
  store_group p (set_Loot g method lootThreshold lootMaster) ;;
  Update realmID p ;;
  g ← load_group p; s ← state;
  emit (LootTypeChanged ServiceID realmID (g_ID g) (g_LootMethod g) (g_LooterGUID g)
          (g_LootThreshold g) (OnlineMemberGUIDs s g)).

(** The call to the characters service; one of the maps found blocks the change. *)
Definition check_maps (blocked : int -> bool) (realmID : u32) (p : nat) : M unit :=
  g ← load_group p; s ← state;
  wrap_err ErrWrap (ext ErrRPC) ;;
  guard_err (existsb blocked (ShortOnlineCharactersDataByGUIDs realmID (OnlineMemberGUIDs s g)))
    ErrMemberInDungeonOrRaid.

Definition SetDungeonDifficulty (realmID : u32) (updaterGUID : u64) (difficulty : u8) : M unit :=
  p ← getGroupWithLeader realmID updaterGUID;
  check_maps IsDungeon realmID p ;;
  g ← load_group p;
  store_group p (set_Mode g (g_GroupType g) difficulty (g_RaidDifficulty g)) ;;
  Update realmID p ;;
  g ← load_group p; s ← state;
  emit (GroupDifficultyChanged ServiceID realmID (g_ID g) updaterGUID (Some difficulty) None
          (OnlineMemberGUIDs s g)).

Definition SetRaidDifficulty (realmID : u32) (updaterGUID : u64) (difficulty : u8) : M unit :=
  p ← getGroupWithLeader realmID updaterGUID;
  check_maps IsRaidMap realmID p ;;
  g ← load_group p;
  store_group p (set_Mode g (g_GroupType g) (g_Difficulty g) difficulty) ;;
  Update realmID p ;;
  g ← load_group p; s ← state;
  emit (GroupDifficultyChanged ServiceID realmID (g_ID g) updaterGUID None (Some difficulty)
          (OnlineMemberGUIDs s g)).

(** The service's own reaction to a login or logout; a bus failure is returned. *)
Definition online_changed (online : bool) (realmID : u32) (charGUID : u64) : M unit :=
  groupID ← GroupIDByPlayer realmID charGUID;
  if groupID =? 0 then mret tt
  else
    group ← GroupByID realmID groupID;
    p ← deref group;
    g ← load_group p; s ← state;
    publish ErrBus (GroupMemberOnlineStatusChanged ServiceID realmID groupID charGUID online
                      (OnlineMemberGUIDs s g)).
Definition HandleCharacterLoggedIn := online_changed true.
Definition HandleCharacterLoggedOut := online_changed false.
End Service.

(** ** Lemmas on the steps *)
Section Steps.
Context `{SliceGrow}.
Abbreviation M A := (go groups_state group_event group_err A).
Implicit Types s : sys groups_state group_event.

(** A logged publication always succeeds and leaves the state alone; the event
    is out unless the bus failed. *)
Lemma emit_ok e s u s' :
  (emit e : M unit) s = (Ok u, s') ->
  st s' = st s /\ (events s' = events s ++ [e] \/ events s' = events s).
Proof.
  unfold emit, log_err, publish, ext.
  destruct (faults s) as [|[] ?]; intros Hrun; simplify_eq/=; eauto.
Qed.

Lemma Update_ok s realmID p u s' :
  (Update realmID p : M unit) s = (Ok u, s') ->
  exists g gc, groups (st s) !! p = Some g /\ groupsCache (st s) !! realmID = Some gc /\
    st s' = with_caches (st s) (<[realmID := <[g_ID g := p]> gc]> (groupsCache (st s)))
              (groupMembersCache (st s)).
Proof.
  unfold Update, put_group, db. intros Hrun. inv_cache. rewrite Hst in *. simpl.
  eexists _, _. split_and!; done.
Qed.
End Steps.

Ltac inv_group_step :=
  match goal with
  | H : not_nil _ _ _ = (Ok _, _) |- _ =>
      let E := fresh "Hnil" in apply not_nil_ok in H as [E ->]
  | H : emit _ _ = (Ok _, _) |- _ =>
      let E1 := fresh "Hst" in let E2 := fresh "Hev" in apply emit_ok in H as [E1 E2]
  | H : state _ = (Ok _, _) |- _ => unfold state in H
  | H : negb _ = false |- _ => apply negb_false_iff in H
  | H : (_ =? _) = true |- _ => apply Z.eqb_eq in H
  | H : (_ =? _) = false |- _ => apply Z.eqb_neq in H
  | H : (_ <=? _) = false |- _ => apply Z.leb_gt in H
  | _ => inv_cache_step
  end.
Ltac inv_group := repeat inv_group_step.

(** Use what a view says about the steps of a run. *)
Ltac use_view Hv :=
  repeat match goal with
  | Hg : group_ptr ?s ?r ?i = _ |- _ =>
      rewrite (v_cached _ _ _ _ _ Hv) in Hg; injection Hg as <-
  | Ho : groups _ !! _ = Some _ |- _ =>
      rewrite (v_obj _ _ _ _ _ Hv) in Ho; injection Ho as <-
  end.

Section Theorems.
Context `{SliceGrow}.
Variable ServiceID : string.
Abbreviation M A := (go groups_state group_event group_err A).
Implicit Types s : sys groups_state group_event.

(** Accepting an invitation to an existing group never looks at its size:
    a full group takes the new member all the same, so a group can exceed five
    and a raid forty; and the event, when the bus takes it, lists the new
    member twice among the members to notify. *)
Theorem AcceptInvite_ignores_size s realm p g ms mc player invite u s' :
  view (st s) realm p g ms -> groupMembersCache (st s) !! realm = Some mc ->
  group_invites (st s) !! (realm, player) = Some invite ->
  i_GroupID invite = g_ID g -> IsFull g = true ->
  AcceptInvite ServiceID realm player s = (Ok u, s') ->
  exists g' m, groups (st s') !! p = Some g' /\ g_ID g' = g_ID g /\ IsRaid g' = IsRaid g /\
    gm_MemberGUID m = i_Invitee invite /\ members_of (st s') g' = ms ++ [m] /\
    (if IsRaid g' then MaxRaidSize else MaxGroupSize) < len (members_of (st s') g') /\
    (events s' = events s \/
     events s' = events s ++
      [MemberAdded ServiceID realm (g_ID g) (i_Invitee invite) (i_InviteeName invite)
         ((gm_MemberGUID <$> filter (fun m => gm_IsOnline m = true) ms) ++
            [i_Invitee invite; i_Invitee invite])]).
Proof.
  intros Hv Hmc Hinv Hid Hfull Hrun.
  unfold AcceptInvite, mysql_GetInviteByInvitedPlayer, GroupCache.db in Hrun. inv_group.
  rewrite Hst, Hinv in Hnil. injection Hnil as <-. rewrite Hid in *.
  rewrite (proj2 (Z.eqb_neq _ _) (v_id _ _ _ _ _ Hv)) in Hrun2. unfold addMember in Hrun2.
  inv_group. rewrite Hst in *. use_view Hv.
  rewrite <- Hst in Hv, Hmc.
  destruct ((fun h => AddMember_ok _ _ _ _ _ _ _ _ _ Hv h Hmc Hrun) Hid) as [Hs2 Hev2].
  match type of Hs2 with _ = member_appended _ _ _ ?m _ _ =>
    destruct (member_appended_group _ _ _ _ _ m _ Hv Hmc)
      as (g' & Hg' & Hid' & _ & Hty & Hms & _) end.
  rewrite <- Hs2 in *. rewrite Hg' in Hobj. injection Hobj as <-.
  assert (IsRaid g' = IsRaid g) as Hraid by (unfold IsRaid; by rewrite Hty).
  rewrite Hst0. eexists _, _. split_and!; eauto; try congruence.
  - done.
  - rewrite Hraid, Hms. unfold len. rewrite length_app. simpl.
    unfold IsFull in Hfull. rewrite (v_len _ _ _ _ _ Hv) in Hfull.
    destruct (IsRaid g); apply Z.leb_le in Hfull; lia.
  - rewrite Hev2, Hev in Hev0. destruct Hev0 as [Hev0|Hev0]; [right|by left].
    rewrite Hev0, Hid'. do 3 f_equal. unfold OnlineMemberGUIDs. rewrite Hms.
    rewrite filter_app, fmap_app, <- app_assoc. f_equal.
Qed.

(** *** Disbanding *)
Lemma Delete_ok s realm p g ms u s' :
  view (st s) realm p g ms -> (Delete realm (g_ID g) : M unit) s = (Ok u, s') ->
  group_ptr (st s') realm (g_ID g) = None /\
  (forall m, m ∈ ms -> member_ptr (st s') realm (gm_MemberGUID m) = None) /\
  (forall guid, guid ∉ gm_MemberGUID <$> ms ->
     member_ptr (st s') realm guid = member_ptr (st s) realm guid).
Proof.
  intros Hv Hrun. unfold Delete, mysql_Delete, GroupCache.db, drop_group in Hrun. inv_group.
  rewrite Hst0, Hst in *. use_view Hv. rewrite (v_members _ _ _ _ _ Hv) in *.
  assert (Hdrop : forall ms (s s' : sys groups_state group_event) u,
    (drop_members realm ms : M unit) s = (Ok u, s') ->
    groupsCache (st s') = groupsCache (st s) /\
    (forall m, m ∈ ms -> member_ptr (st s') realm (gm_MemberGUID m) = None) /\
    (forall guid, guid ∉ gm_MemberGUID <$> ms ->
       member_ptr (st s') realm guid = member_ptr (st s) realm guid)).
  { clear. intros ms. induction ms as [|x ms IH]; intros s s' u Hrun; simpl in Hrun.
    - inv_group. split_and!; [done| |done]. by intros ? ?%elem_of_nil.
    - unfold drop_member in Hrun. inv_group. apply IH in Hrun1 as (Hgc & Hin & Hout).
      assert (Hstep : forall guid,
        member_ptr (with_caches (st s) (groupsCache (st s))
          (alter (delete (gm_MemberGUID x)) realm (groupMembersCache (st s)))) realm guid =
        if decide (guid = gm_MemberGUID x) then None else member_ptr (st s) realm guid).
      { intros guid. unfold member_ptr; simpl. rewrite lookup_alter, decide_True by done.
        destruct (groupMembersCache (st s) !! realm) as [mc|]; simpl; [|by case_decide].
        rewrite lookup_delete. by repeat case_decide; subst. }
      simpl in Hgc, Hout. split_and!; [done| |].
      + intros m [->|Hm]%elem_of_cons; [|by apply Hin].
        destruct (decide (gm_MemberGUID x ∈ gm_MemberGUID <$> ms)) as [(y & Ey & Hy)%list_elem_of_fmap|Hnot].
        * rewrite Ey. by apply Hin.
        * rewrite Hout, Hstep by done. by rewrite decide_True.
      + intros guid Hn. rewrite fmap_cons, elem_of_cons in Hn.
        rewrite Hout, Hstep, decide_False by naive_solver. done. }
  match goal with Hd : drop_members _ _ _ = _ |- _ => apply Hdrop in Hd as (Hgc & Hin & Hout) end.
  simpl. split_and!; [|exact Hin|rewrite <- Hst; exact Hout].
  unfold group_ptr; simpl. rewrite lookup_alter, decide_True by done.
  destruct (_ !! realm); simpl; [by rewrite lookup_delete_eq|done].
Qed.

Lemma disband_ok s realm p g ms u s' :
  view (st s) realm p g ms -> disband ServiceID realm p s = (Ok u, s') ->
  group_ptr (st s') realm (g_ID g) = None /\
  (forall m, m ∈ ms -> member_ptr (st s') realm (gm_MemberGUID m) = None).
Proof.
  intros Hv Hrun. unfold disband in Hrun. inv_group. use_view Hv.
  match goal with Hd : Delete _ _ _ = _ |- _ => eapply Delete_ok in Hd as (Hg & Hm & _); [|done] end.
  by rewrite Hst.
Qed.

(** An expulsion that succeeds was ordered by the group's leader against a
    member of that group; it leaves the group with exactly the other members,
    the same leader and no cached pointer for the expelled player, or, when
    two members or fewer were left, without any trace in the cache. *)
Theorem Uninvite_authorised s realm p g ms mi initiator target u s' :
  view (st s) realm p g ms -> mi ∈ ms -> gm_MemberGUID mi = initiator ->
  Uninvite ServiceID realm initiator target s = (Ok u, s') ->
  g_LeaderGUID g = initiator /\
  exists i m, ms !! i = Some m /\ gm_MemberGUID m = target /\
    if (length ms <=? 2)%nat then
      group_ptr (st s') realm (g_ID g) = None /\
      (forall m, m ∈ ms -> member_ptr (st s') realm (gm_MemberGUID m) = None)
    else
      exists g', groups (st s') !! p = Some g' /\ group_ptr (st s') realm (g_ID g) = Some p /\
        g_LeaderGUID g' = g_LeaderGUID g /\ members_of (st s') g' = delete i ms /\
        member_ptr (st s') realm target = None.
Proof.
  intros Hv Hmi <- Hrun. unfold Uninvite in Hrun. inv_group.
  rewrite (GroupIDByPlayer_run _ _ _ _ _ _ Hv Hmi) in *. simplify_eq.
  use_view Hv. split; [done|].
  apply fmap_Some in Hnil0 as (i & Hi & ->). rewrite (v_members _ _ _ _ _ Hv) in Hi.
  apply index_of_Some in Hi as (m & Hi & Hm). subst target. exists i, m. split_and!; [done..|].
  rewrite (v_len _ _ _ _ _ Hv) in Hrun3. destruct (length ms <=? 2)%nat.
  - inv_group. by eapply disband_ok.
  - inv_group. match goal with Hr : RemoveMember _ _ _ = _ |- _ =>
      eapply RemoveMember_ok in Hr as [Hs1 _]; [|done..] end.
    destruct (member_cut_group _ _ _ _ _ _ _ Hv Hi)
      as (g' & Hg' & _ & Hl & Hms & Hc & _ & _ & Hptr).
    rewrite Hst, Hs1. exists g'. split_and!; try done. by rewrite Hptr, decide_True.
Qed.

(** Changing the leader's field keeps the group's view. *)
Lemma view_store (s0 : groups_state) realm p g g' ms gc :
  view s0 realm p g ms -> g_ID g' = g_ID g -> g_Members g' = g_Members g ->
  groupsCache s0 !! realm = Some gc ->
  view (with_caches (with_groups s0 (<[p := g']> (groups s0)) (next_group s0))
          (<[realm := <[g_ID g' := p]> gc]> (groupsCache s0)) (groupMembersCache s0)) realm p g' ms.
Proof.
  intros [Hr Hc Ho Hms Hlen Hid Hnd Hptr] Hid' Hm' Hgc. constructor; try done; simpl.
  - unfold group_ptr; simpl. by rewrite lookup_insert_eq; simpl; rewrite lookup_insert_eq.
  - by rewrite lookup_insert_eq.
  - unfold members_of in *. rewrite Hm'. exact Hms.
  - by rewrite Hm'.
  - by rewrite Hid'.
  - rewrite Hid'. exact Hptr.
Qed.

Lemma changeLeader_ok s realm p g ms l ev u s' :
  view (st s) realm p g ms -> changeLeader ServiceID realm p l ev s = (Ok u, s') ->
  view (st s') realm p (set_LeaderGUID g l) ms /\
  arrays (st s') = arrays (st s) /\ groupMembersCache (st s') = groupMembersCache (st s).
Proof.
  intros Hv Hrun. unfold changeLeader, store_group in Hrun. inv_group. use_view Hv.
  match goal with Hu : Update _ _ _ = (_, ?s1) |- _ =>
    apply Update_ok in Hu as (g' & gc & Hg' & Hgc & Hs1); assert (st s' = st s1) as -> end.
  { destruct ev; inv_group; [|done]. done. }
  simpl in Hg'. rewrite lookup_insert_eq in Hg'. injection Hg' as <-. simpl in Hgc, Hs1.
  rewrite Hs1. split_and!; try done.
  by apply (view_store (st s) realm p g (set_LeaderGUID g l) ms gc).
Qed.

Lemma next_leader_spec player ms :
  (exists m, m ∈ ms /\ gm_IsOnline m = true /\ gm_MemberGUID m <> player /\
     next_leader player ms = gm_MemberGUID m) \/
  (next_leader player ms = 0 /\ forall m, m ∈ ms -> gm_IsOnline m = true -> gm_MemberGUID m = player).
Proof.
  induction ms as [|x ms IH]; simpl; [right; split; [done|by intros ? ?%elem_of_nil]|].
  destruct (gm_IsOnline x) eqn:Eo; simpl; [destruct (Z.eqb_spec (gm_MemberGUID x) player)|].
  - destruct IH as [(m & Hm & Hr)|[-> Hall]]; [left; exists m; split; [by right|done]|right].
    split; [done|]. intros m [->|?]%elem_of_cons; auto.
  - left. exists x. split; [left|done].
  - destruct IH as [(m & Hm & Hr)|[-> Hall]]; [left; exists m; split; [by right|done]|right].
    split; [done|]. intros m [->|?]%elem_of_cons; [congruence|auto].
Qed.

(** When the leader leaves a group of three or more, exactly that member is
    removed and the first other member marked online becomes the leader; when
    nobody else is online the group is stored with leader 0, so that no member
    can lead it any more. *)
Theorem Leave_leader s realm p g ms m i u s' :
  view (st s) realm p g ms -> ms !! i = Some m -> gm_MemberGUID m = g_LeaderGUID g ->
  (2 < length ms)%nat ->
  Leave ServiceID realm (gm_MemberGUID m) s = (Ok u, s') ->
  exists g', groups (st s') !! p = Some g' /\ members_of (st s') g' = delete i ms /\
    g_LeaderGUID g' = next_leader (gm_MemberGUID m) ms /\
    ((exists m', m' ∈ ms /\ gm_IsOnline m' = true /\ gm_MemberGUID m' <> gm_MemberGUID m /\
        g_LeaderGUID g' = gm_MemberGUID m') \/
     (g_LeaderGUID g' = 0 /\ forall m', m' ∈ ms -> gm_IsOnline m' = true -> gm_MemberGUID m' = gm_MemberGUID m)).
Proof.
  intros Hv Hi Hlead Hlen Hrun. unfold Leave in Hrun. inv_group.
  rewrite (GroupIDByPlayer_run _ _ _ _ _ _ Hv) in * by (by eapply list_elem_of_lookup_2). simplify_eq.
  use_view Hv. rewrite (v_members _ _ _ _ _ Hv), (v_len _ _ _ _ _ Hv) in *.
  rewrite <- Hlead, Z.eqb_refl in *.
  rewrite (proj2 (Nat.leb_gt _ _)) in Hrun5 by lia. inv_group.
  match goal with Hc : changeLeader _ _ _ _ _ _ = _ |- _ =>
    eapply changeLeader_ok in Hc as (Hv' & _ & _); [|done] end.
  match goal with Hr : RemoveMember _ _ _ = _ |- _ =>
    eapply RemoveMember_ok in Hr as [Hs1 _]; [|exact Hv'|exact Hi] end.
  destruct (member_cut_group _ _ _ _ _ _ _ Hv' Hi) as (g' & Hg' & _ & Hl & Hms & _).
  rewrite Hst, Hs1. exists g'. split_and!; try done.
  rewrite Hl. simpl. destruct (next_leader_spec (gm_MemberGUID m) ms) as [(m' & ? & ? & ? & ->)|[-> ?]];
    [left; eauto|right; eauto].
Qed.

Lemma MemberByGUID_read (s0 : groups_state) realm p g ms guid ptr x :
  view s0 realm p g ms -> MemberByGUID s0 g guid = Some ptr -> ptr_read s0 ptr = Some x ->
  x ∈ ms /\ gm_MemberGUID x = guid.
Proof.
  intros Hv Hp Hx. unfold MemberByGUID in Hp. rewrite (v_members _ _ _ _ _ Hv) in Hp.
  apply fmap_Some in Hp as (i & Hi & ->). apply index_of_Some in Hi as (y & Hi & Hy).
  unfold ptr_read in Hx; simpl in Hx.
  pose proof Hi as Hi'. rewrite <- (v_members _ _ _ _ _ Hv) in Hi'.
  unfold members_of, slice_read in Hi'. apply lookup_take_Some in Hi' as [Hi' _].
  rewrite Hi' in Hx. injection Hx as <-. split; [by eapply list_elem_of_lookup_2|done].
Qed.

(** *** Target icons *)
Definition icons_unique (icons : list u64) : Prop :=
  forall i j t, icons !! i = Some t -> icons !! j = Some t -> t <> 0 -> i = j.

Lemma icon_of_None t icons : icon_of t icons = None -> forall i, icons !! i <> Some t.
Proof.
  induction icons as [|x icons IH]; simpl; [done|].
  destruct (Z.eqb_spec x t) as [|Hne]; [done|]. intros Hn%fmap_None i.
  destruct i; simpl; [congruence|by apply IH].
Qed.
Lemma icon_of_Some t icons i : icon_of t icons = Some i -> icons !! i = Some t.
Proof.
  revert i. induction icons as [|x icons IH]; intros i; simpl; [done|].
  destruct (Z.eqb_spec x t) as [->|Hne]; [by intros [= <-]|].
  intros (j & Hj & ->)%fmap_Some. by apply IH.
Qed.

(** What SetTargetIcon leaves in the icon table. *)
Definition icons_after (icons : list u64) (iconID : nat) (target : u64) : list u64 :=
  <[iconID := target]> (match icon_of target icons with Some i => <[i := 0]> icons | None => icons end).

Lemma icons_after_unique icons k t : icons_unique icons -> icons_unique (icons_after icons k t).
Proof.
  intros Hu. unfold icons_after.
  set (cleared := match icon_of t icons with Some i => <[i := 0]> icons | None => icons end).
  assert (Hc : forall i x, cleared !! i = Some x -> x <> 0 -> icons !! i = Some x /\ x <> t).
  { intros i x. unfold cleared. destruct (icon_of t icons) as [j|] eqn:E.
    - rewrite list_lookup_insert_Some. intros [(-> & <- & _)|[Hne Hi]] Hx; [done|].
      split; [done|]. intros ->. apply icon_of_Some in E. by rewrite (Hu _ _ _ E Hi Hx) in Hne.
    - intros Hi _. split; [done|]. intros ->. by apply (icon_of_None _ _ E i). }
  intros i j x Hi Hj Hx. rewrite list_lookup_insert_Some in Hi, Hj.
  destruct Hi as [(<- & <- & _)|[Hni Hi]], Hj as [(<- & E & _)|[Hnj Hj]]; try done.
  - by destruct (Hc _ _ Hj Hx).
  - subst. by destruct (Hc _ _ Hi Hx).
  - destruct (Hc _ _ Hi Hx) as [Hi' _], (Hc _ _ Hj Hx) as [Hj' _]. by eapply Hu.
Qed.

(** Marking a target moves its icon: the target ends up under the chosen
    icon and under no other, every other mark stays, and no target ever has
    two icons; in a raid only the leader and assistants can do it. *)
Theorem SetTargetIcon_moves s realm p g ms m iconID target u s' :
  view (st s) realm p g ms -> m ∈ ms -> 0 <= iconID -> length (g_TargetIcons g) = 8%nat ->
  icons_unique (g_TargetIcons g) ->
  SetTargetIcon ServiceID realm (gm_MemberGUID m) iconID target s = (Ok u, s') ->
  exists g', groups (st s') !! p = Some g' /\
    g_TargetIcons g' = icons_after (g_TargetIcons g) (Z.to_nat iconID) target /\
    g_TargetIcons g' !! Z.to_nat iconID = Some target /\ icons_unique (g_TargetIcons g') /\
    (IsRaid g = true -> g_LeaderGUID g = gm_MemberGUID m \/
       exists m', m' ∈ ms /\ gm_MemberGUID m' = gm_MemberGUID m /\ IsAssistant m' = true).
Proof.
  intros Hv Hm Hid Hlen Hu Hrun. unfold SetTargetIcon, store_group in Hrun. inv_group.
  rewrite (GroupIDByPlayer_run _ _ _ _ _ _ Hv Hm) in *. simplify_eq. use_view Hv.
  assert (s4 = s1 /\ (IsRaid g = true -> g_LeaderGUID g = gm_MemberGUID m \/
       exists m', m' ∈ ms /\ gm_MemberGUID m' = gm_MemberGUID m /\ IsAssistant m' = true)) as [-> Hraid].
  { destruct (IsRaid g); simpl in Hrun4; [|by inv_group].
    destruct (Z.eqb_spec (g_LeaderGUID g) (gm_MemberGUID m)); simpl in Hrun4; inv_group; [by auto|].
    split; [done|]. intros _. right.
    match goal with Hp : MemberByGUID _ _ _ = _, Hr : ptr_read _ _ = _ |- _ =>
      destruct (MemberByGUID_read _ _ _ _ _ _ _ _ Hv Hp Hr) end. eauto. }
  clear Hrun4.
  assert (groups (st s5) !! p = Some (set_TargetIcons g
    (match icon_of target (g_TargetIcons g) with
     | Some i => <[i := 0]> (g_TargetIcons g) | None => g_TargetIcons g end))) as Hg5.
  { destruct (icon_of _ _); inv_group.
    - rewrite Hst0; simpl. by rewrite lookup_insert_eq.
    - rewrite (v_obj _ _ _ _ _ Hv). by destruct g. }
  rewrite Hg5 in Hobj0. injection Hobj0 as <-.
  apply Update_ok in Hrun7 as (g' & gc & Hg' & _ & Hs7). simpl in Hg', Hs7.
  rewrite lookup_insert_eq in Hg'. injection Hg' as <-. rewrite Hst, Hs7; simpl.
  rewrite lookup_insert_eq. eexists. split; [done|]. simpl.
  change (<[Z.to_nat iconID:=target]> _) with (icons_after (g_TargetIcons g) (Z.to_nat iconID) target).
  split_and!; [done| |by apply icons_after_unique|exact Hraid].
  unfold icons_after. apply list_lookup_insert_eq. unfold MaxTargetIcons in *.
  destruct (icon_of _ _); rewrite ?length_insert; lia.
Qed.
(** *** Creating a group *)
Definition created_members (invite : GroupInvite) (groupID : Z) : list GroupMember :=
  [set_GroupID (first_member (i_Inviter invite) (i_InviterName invite)) groupID;
   set_GroupID (first_member (i_Invitee invite) (i_InviteeName invite)) groupID].

Lemma insert_two_ok sl gid a b ar s u s' :
  arrays (st s) = <[sl_arr sl := [a; b]]> ar ->
  (insert_members sl gid 0 2 : M unit) s = (Ok u, s') ->
  st s' = with_arrays (st s) (<[sl_arr sl := [set_GroupID a gid; set_GroupID b gid]]> ar) (next_array (st s)).
Proof.
  intros Har Hrun. simpl in Hrun. unfold GroupCache.db in Hrun. inv_group. simpl in *.
  rewrite Hst. unfold ptr_write in *. rewrite Hst0 in *.
  unfold ptr_read, cells in *. simpl in *.
  rewrite Har, ?alter_insert_eq, ?lookup_insert_eq in *. simpl in *.
  repeat match goal with E : Some _ = Some _ |- _ => injection E as <- end.
  done.
Qed.

Lemma index_two_ok realm a x y s u s' :
  (index_members realm a 0 [x; y] : M unit) s = (Ok u, s') ->
  exists mc, groupMembersCache (st s) !! realm = Some mc /\
    st s' = with_caches (st s) (groupsCache (st s))
      (<[realm := <[gm_MemberGUID y := (a, 1%nat)]> (<[gm_MemberGUID x := (a, 0%nat)]> mc)]>
         (groupMembersCache (st s))).
Proof.
  intros Hrun. simpl in Hrun. unfold put_member in Hrun. inv_group. simpl in *.
  rewrite lookup_insert_eq in *.
  repeat match goal with E : Some _ = Some _ |- _ => injection E as <- end.
  rewrite insert_insert_eq. eauto.
Qed.

Lemma created_fresh_view (s0 : groups_state) realm p g a invite :
  realm < MaxRealmID -> group_ptr s0 realm (g_ID g) = Some p -> groups s0 !! p = Some g ->
  g_Members g = {| sl_arr := a; sl_len := 2 |} ->
  arrays s0 !! a = Some (created_members invite (g_ID g)) -> g_ID g <> 0 ->
  i_Inviter invite <> i_Invitee invite ->
  member_ptr s0 realm (i_Inviter invite) = Some (a, 0%nat) ->
  member_ptr s0 realm (i_Invitee invite) = Some (a, 1%nat) ->
  fresh_view s0 realm p g (created_members invite (g_ID g)).
Proof.
  intros Hr Hptr Hobj Hsl Har Hid Hne H1 H2. split.
  - constructor; try done.
    + unfold members_of, slice_read, cells. by rewrite Hsl; simpl; rewrite Har.
    + by rewrite Hsl.
    + simpl. rewrite NoDup_cons, list_elem_of_singleton. split; [done|apply NoDup_singleton].
    + intros m Hm. unfold ptr_read, cells.
      assert (m = set_GroupID (first_member (i_Inviter invite) (i_InviterName invite)) (g_ID g) \/
              m = set_GroupID (first_member (i_Invitee invite) (i_InviteeName invite)) (g_ID g)) as [-> | ->]
        by (unfold created_members in Hm; set_solver); simpl.
      * exists (a, 0%nat). simpl. rewrite Har. simpl. eauto.
      * exists (a, 1%nat). simpl. rewrite Har. simpl. eauto.
  - intros i m Hm. rewrite Hsl. destruct i as [|[|i]]; simpl in Hm; [injection Hm as <-..|done]; done.
Qed.

(** Accepting an invitation by a player who had no group makes the inviter
    and the invited player the two online members of a fresh group led by the
    inviter, with free-for-all loot and the threshold the code calls uncommon
    but whose constant is 0; the caches point to the members' own records. *)
Theorem AcceptInvite_creates s realm player invite u s' :
  group_invites (st s) !! (realm, player) = Some invite -> i_GroupID invite = 0 ->
  i_Inviter invite <> i_Invitee invite -> realm < MaxRealmID ->
  0 <= default 0 (last_insert_id (st s) !! realm) ->
  AcceptInvite ServiceID realm player s = (Ok u, s') ->
  exists p g, fresh_view (st s') realm p g (created_members invite (g_ID g)) /\
    g_LeaderGUID g = i_Inviter invite /\ g_LootMethod g = 0 /\ g_LootThreshold g = 0 /\
    g_GroupType g = GroupTypeFlagsNormal /\
    g_ID g = default 0 (last_insert_id (st s) !! realm) + 1.
Proof.
  intros Hinv Hid Hne Hr Hai Hrun.
  unfold AcceptInvite, mysql_GetInviteByInvitedPlayer, GroupCache.db in Hrun. inv_group.
  rewrite Hst, Hinv in Hnil. injection Hnil as <-. rewrite Hid in *. simpl in Hrun2.
  unfold createGroup, alloc_group, Create, mysql_Create, put_group, GroupCache.db in Hrun2. inv_group.
  simpl in *. rewrite Hst2 in Hst1. rewrite Hst1 in Hobj1. simpl in Hobj1.
  rewrite lookup_insert_eq in Hobj1. injection Hobj1 as <-.
  unfold store_group in Hrun10. inv_group.
  eapply insert_two_ok in Hrun11; [|simpl; rewrite Hst1; reflexivity]. simpl in Hrun11.
  rewrite Hrun11 in *; simpl in *. rewrite Hst1, Hst2, Hst in *; simpl in *.
  rewrite lookup_insert_eq in Hobj0. injection Hobj0 as <-.
  unfold members_of, slice_read, cells in Hrun5; simpl in Hrun5.
  rewrite lookup_insert_eq in Hrun5.
  apply (index_two_ok realm _ (set_GroupID (first_member (i_Inviter invite) (i_InviterName invite)) _)
           (set_GroupID (first_member (i_Invitee invite) (i_InviteeName invite)) _)) in Hrun5 as (mc & Hmc & Hs2). simpl in Hmc, Hs2.
  rewrite Hst0, Hs2; simpl.
  exists (next_group (st s)),
    (set_ID (new_group invite (next_array (st s))) (default 0 (last_insert_id (st s) !! realm) + 1)).
  split; [|by split_and!].
  eapply created_fresh_view with (a := next_array (st s)); simpl; try done.
  - unfold group_ptr; simpl. rewrite lookup_insert_eq. simpl. apply lookup_insert_eq.
  - by rewrite lookup_insert_eq.
  - by rewrite lookup_insert_eq.
  - lia.
  - unfold member_ptr; simpl. rewrite lookup_insert_eq. simpl.
    rewrite lookup_insert_ne by congruence. apply lookup_insert_eq.
  - unfold member_ptr; simpl. rewrite lookup_insert_eq. simpl. apply lookup_insert_eq.
Qed.
End Theorems.

(** ** Witnesses on the sample group *)
#[local] Existing Instance slice_grow_double.
Definition sample_run (guids : list u64) : sys groups_state group_event :=
  Sys (sample_state (sample_member <$> guids)) [] [].

Lemma AcceptInvite_ignores_size_witness :
  exists (s' : sys groups_state group_event) g', groups (st s') !! 0%nat = Some g' /\
    MaxGroupSize < len (members_of (st s') g').
Proof.
  destruct (AcceptInvite "svc" 1 30 (sample_run [10; 11; 12; 13; 14])) as [o s'] eqn:E.
  run_succeeds E o s'. exists s'.
  destruct (AcceptInvite_ignores_size "svc" (sample_run [10; 11; 12; 13; 14]) 1 0 (sample_group 5)
    (sample_member <$> [10; 11; 12; 13; 14])
    (list_to_map (imap (fun i m => (gm_MemberGUID m, (1%nat, i))) (sample_member <$> [10; 11; 12; 13; 14])))
    30 {| i_Inviter := 10; i_InviterName := "A"; i_Invitee := 30; i_InviteeName := "B"; i_GroupID := 7 |}
    tt s') as (g' & m & Hg & _ & Hr & _ & _ & Hsize & _); try done.
  - apply (sample_view [10; 11; 12; 13; 14]). by apply (bool_decide_unpack _).
  - exists g'. split; [done|]. rewrite Hr in Hsize. exact Hsize.
Defined.

Lemma AcceptInvite_creates_witness :
  let s := Sys (with_tables (sample_state [])
      {[(1, 30) := {| i_Inviter := 10; i_InviterName := "A"; i_Invitee := 30;
                      i_InviteeName := "B"; i_GroupID := 0 |}]} ∅) [] [] in
  exists (s' : sys groups_state group_event) p g, AcceptInvite "svc" 1 30 s = (Ok tt, s') /\
    groups (st s') !! p = Some g /\ gm_MemberGUID <$> members_of (st s') g = [10; 30].
Proof.
  intros s. destruct (AcceptInvite "svc" 1 30 s) as [o s'] eqn:E.
  run_succeeds E o s'. exists s'.
  destruct (AcceptInvite_creates "svc" s 1 30
    {| i_Inviter := 10; i_InviterName := "A"; i_Invitee := 30; i_InviteeName := "B"; i_GroupID := 0 |}
    tt s') as (p & g & [Hv _] & _); try done.
  exists p, g. split; [done|]. split; [apply Hv|]. by rewrite (v_members _ _ _ _ _ Hv).
Defined.

(** Three players, so the group survives; two, so it is disbanded. *)
Lemma Uninvite_authorised_witness :
  (exists (s' : sys groups_state group_event) g', groups (st s') !! 0%nat = Some g' /\
     members_of (st s') g' = sample_member <$> [10; 12]) /\
  (exists s' : sys groups_state group_event, group_ptr (st s') 1 7 = None).
Proof.
  split.
  - destruct (Uninvite "svc" 1 10 11 (sample_run [10; 11; 12])) as [o s'] eqn:E.
    run_succeeds E o s'. exists s'.
    destruct (Uninvite_authorised "svc" (sample_run [10; 11; 12]) 1 0 (sample_group 3)
      (sample_member <$> [10; 11; 12]) (sample_member 10) 10 11 tt s')
      as (_ & i & m & Hi & Hm & g' & Hg & _ & _ & Hms & _); try done.
    + apply (sample_view [10; 11; 12]). by apply (bool_decide_unpack _).
    + left.
    + exists g'. split; [done|]. rewrite Hms.
      destruct i as [|[|[|i]]]; simpl in Hi; [injection Hi as <-..|done]; done.
  - destruct (Uninvite "svc" 1 10 11 (sample_run [10; 11])) as [o s'] eqn:E.
    run_succeeds E o s'. exists s'.
    destruct (Uninvite_authorised "svc" (sample_run [10; 11]) 1 0 (sample_group 2)
      (sample_member <$> [10; 11]) (sample_member 10) 10 11 tt s')
      as (_ & i & m & Hi & Hm & Hg & _); try done.
    + apply (sample_view [10; 11]). by apply (bool_decide_unpack _).
    + left.
Defined.

Lemma Leave_leader_witness :
  exists (s' : sys groups_state group_event) g', groups (st s') !! 0%nat = Some g' /\
    g_LeaderGUID g' = 11 /\ members_of (st s') g' = sample_member <$> [11; 12].
Proof.
  destruct (Leave "svc" 1 10 (sample_run [10; 11; 12])) as [o s'] eqn:E.
  run_succeeds E o s'. exists s'.
  destruct (Leave_leader "svc" (sample_run [10; 11; 12]) 1 0 (sample_group 3)
    (sample_member <$> [10; 11; 12]) (sample_member 10) 0 tt s')
    as (g' & Hg & Hms & Hl & _); try done.
  - apply (sample_view [10; 11; 12]). by apply (bool_decide_unpack _).
  - simpl. lia.
  - eauto.
Defined.

(** The target under icon 1 moves to icon 3. *)
Lemma SetTargetIcon_moves_witness :
  exists (s' : sys groups_state group_event) g', groups (st s') !! 0%nat = Some g' /\
    g_TargetIcons g' = [0; 0; 0; 5; 0; 0; 0; 0].
Proof.
  destruct (SetTargetIcon "svc" 1 11 3 5 (sample_run [10; 11; 12])) as [o s'] eqn:E.
  run_succeeds E o s'. exists s'.
  destruct (SetTargetIcon_moves "svc" (sample_run [10; 11; 12]) 1 0 (sample_group 3)
    (sample_member <$> [10; 11; 12]) (sample_member 11) 3 5 tt s')
    as (g' & Hg & Hicons & _); try done.
  - apply (sample_view [10; 11; 12]). by apply (bool_decide_unpack _).
  - right; left.
  - intros i j t Hi Hj Ht. simpl in Hi, Hj.
    do 8 (destruct i as [|i]; [do 8 (destruct j as [|j]; [simpl in *; congruence|]); done|]). done.
  - eauto.
Defined.
