(* ===== verification/GameServerRepo.v ===== *)
(** * GameServerRepo: the registered game servers
    (apps/servers-registry/repo/game-server.go, repo/game-server_redis.go,
    repo/game-server_inmem.go)

    A server is stored as one Redis document and indexed by a set per realm
    (one more for the cross-realm servers).  [GameServerRepo] is the interface
    the registry service uses; the Redis repository implements it, with a
    contract stated on an abstract map from ids to servers. *)
From S2P Require Import Prelude GoRuntime GoStrings.
From Stdlib Require Import Ascii.

(** ** Data *)
Record DiffData := { Mean : u32; Median : u32; Percentile95 : u32; Percentile99 : u32; Max : u32 }.

Record GameServer := {
  ID : string; Address : string; HealthCheckAddr : string; GRPCAddress : string;
  RealmID : u32; IsCrossRealm : bool;
  AvailableMaps : list u32;
  ActiveConnections : u32; Diff : DiffData;
  AssignedMapsToHandle : list u32;
  AssignedButPendingMaps : list u32
}.

Definition set_identity (s : GameServer) (gid address : string) : GameServer :=
  {| ID := gid; Address := address; HealthCheckAddr := HealthCheckAddr s; GRPCAddress := GRPCAddress s;
     RealmID := RealmID s; IsCrossRealm := IsCrossRealm s; AvailableMaps := AvailableMaps s;
     ActiveConnections := ActiveConnections s; Diff := Diff s;
     AssignedMapsToHandle := AssignedMapsToHandle s; AssignedButPendingMaps := AssignedButPendingMaps s |}.
Definition set_available (s : GameServer) (maps : list u32) : GameServer :=
  {| ID := ID s; Address := Address s; HealthCheckAddr := HealthCheckAddr s; GRPCAddress := GRPCAddress s;
     RealmID := RealmID s; IsCrossRealm := IsCrossRealm s; AvailableMaps := maps;
     ActiveConnections := ActiveConnections s; Diff := Diff s;
     AssignedMapsToHandle := AssignedMapsToHandle s; AssignedButPendingMaps := AssignedButPendingMaps s |}.
Definition set_assigned (s : GameServer) (maps : list u32) : GameServer :=
  {| ID := ID s; Address := Address s; HealthCheckAddr := HealthCheckAddr s; GRPCAddress := GRPCAddress s;
     RealmID := RealmID s; IsCrossRealm := IsCrossRealm s; AvailableMaps := AvailableMaps s;
     ActiveConnections := ActiveConnections s; Diff := Diff s;
     AssignedMapsToHandle := maps; AssignedButPendingMaps := AssignedButPendingMaps s |}.
Definition set_pending (s : GameServer) (maps : list u32) : GameServer :=
  {| ID := ID s; Address := Address s; HealthCheckAddr := HealthCheckAddr s; GRPCAddress := GRPCAddress s;
     RealmID := RealmID s; IsCrossRealm := IsCrossRealm s; AvailableMaps := AvailableMaps s;
     ActiveConnections := ActiveConnections s; Diff := Diff s;
     AssignedMapsToHandle := AssignedMapsToHandle s; AssignedButPendingMaps := maps |}.
Definition set_metrics (s : GameServer) (connections : u32) (diff : DiffData) : GameServer :=
  {| ID := ID s; Address := Address s; HealthCheckAddr := HealthCheckAddr s; GRPCAddress := GRPCAddress s;
     RealmID := RealmID s; IsCrossRealm := IsCrossRealm s; AvailableMaps := AvailableMaps s;
     ActiveConnections := connections; Diff := diff;
     AssignedMapsToHandle := AssignedMapsToHandle s; AssignedButPendingMaps := AssignedButPendingMaps s |}.

Definition HealthCheckAddress (g : GameServer) : string := HealthCheckAddr g.
Definition MetricsAddress (g : GameServer) : string := HealthCheckAddr g.

Definition CanHandleMap (g : GameServer) (map : u32) : bool :=
  let maps := AssignedMapsToHandle g in
  let i := sort_search (length maps) (fun i => map <=? nth i maps 0) in
  if (i <? length maps)%nat && (nth i maps 0 =? map) then
    negb (existsb (fun pendingMap => pendingMap =? map) (AssignedButPendingMaps g))
  else false.

Definition IsAllMapsAvailable (g : GameServer) : bool := (length (AvailableMaps g) =? 0)%nat.

(** The three [copy] calls copy each slice onto itself. *)
Definition Copy (g : GameServer) : GameServer := g.

(** A server answers for exactly the maps assigned to it and not pending, as
    long as its assigned maps are sorted. *)
Lemma CanHandleMap_sorted g m :
  StronglySorted Z.le (AssignedMapsToHandle g) ->
  CanHandleMap g m = true <-> m ∈ AssignedMapsToHandle g /\ m ∉ AssignedButPendingMaps g.
Proof.
  intros Hs. unfold CanHandleMap. rewrite <- (sort_search_member _ m Hs). cbv zeta.
  destruct (_ && _); [|naive_solver]. rewrite negb_true_iff, <- not_true_iff_false, existsb_exists.
  setoid_rewrite Z.eqb_eq. setoid_rewrite <- list_elem_of_In. naive_solver.
Qed.

(** Sorted or not, it never answers for a map that is not assigned to it. *)
Lemma CanHandleMap_assigned g m : CanHandleMap g m = true -> m ∈ AssignedMapsToHandle g.
Proof.
  unfold CanHandleMap. destruct (_ && _) eqn:E; [|done]. intros _.
  apply andb_true_iff in E as [Hi Hm]. apply Nat.ltb_lt in Hi. apply Z.eqb_eq in Hm.
  destruct (nth_lookup_or_length (AssignedMapsToHandle g)
    (sort_search (length (AssignedMapsToHandle g)) (fun i => m <=? nth i (AssignedMapsToHandle g) 0)) 0)
    as [Hl|]; [|lia].
  rewrite Hm in Hl. by eapply list_elem_of_lookup_2.
Qed.

(** ** The repository interface

    [normal] is what [Upsert] does to the struct behind its pointer before it
    stores it.  [listed d] is what a repository in state [d] holds, by id; the
    laws say what each successful call does to it. *)
Inductive registry_err := ErrRedis | ErrBus | ErrServerNotFound | ErrRedisNil | ErrWrap (e : registry_err).

Class GameServerRepo (D E : Type) := {
  normal : GameServer -> GameServer;
  Upsert : GameServer -> go D E registry_err unit;
  Update : string -> (GameServer -> GameServer) -> go D E registry_err unit;
  Remove : string -> go D E registry_err unit;
  ListByRealm : u32 -> go D E registry_err (list GameServer);
  ListOfCrossRealms : go D E registry_err (list GameServer);
  ListAll : go D E registry_err (list GameServer);
  One : string -> go D E registry_err (option GameServer)
}.
#[global] Arguments normal {D E _} _.

(** The servers of a realm, or the cross-realm ones. *)
Definition in_list (realmID : u32) (cross : bool) (s : GameServer) : Prop :=
  IsCrossRealm s = cross /\ (cross = false -> RealmID s = realmID).
Definition same_list (s t : GameServer) : Prop := in_list (RealmID t) (IsCrossRealm t) s.

Class GameServerRepoLaws (D E : Type) {R : GameServerRepo D E} := {
  consistent : D -> Prop;
  listed : D -> string -> option GameServer;
  normal_spec : forall g, exists gid addr, normal g = set_identity g gid addr;
  normal_idemp : forall g, normal (normal g) = normal g;
  normal_local : forall g h, ID g = ID h -> Address g = Address h ->
    ID (normal g) = ID (normal h) /\ Address (normal g) = Address (normal h);
  listed_id : forall d gid g, consistent d -> listed d gid = Some g -> ID g = gid /\ normal g = g;
  Upsert_law : forall g s u s', consistent (st s) ->
    (forall old, listed (st s) (ID (normal g)) = Some old -> same_list old g) ->
    Upsert (normal g) s = (Ok u, s') ->
    consistent (st s') /\ events s' = events s /\
    (forall gid, listed (st s') gid = if decide (gid = ID (normal g)) then Some (normal g) else listed (st s) gid);
  Remove_law : forall gid s u s', consistent (st s) -> Remove gid s = (Ok u, s') ->
    consistent (st s') /\ events s' = events s /\
    (forall gid', listed (st s') gid' = if decide (gid' = gid) then None else listed (st s) gid');
  ListByRealm_law : forall realmID s l s', consistent (st s) -> ListByRealm realmID s = (Ok l, s') ->
    NoDup (ID <$> l) /\ st s' = st s /\ events s' = events s /\
    (forall g, g ∈ l <-> listed (st s) (ID g) = Some g /\ in_list realmID false g);
  ListOfCrossRealms_law : forall s l s', consistent (st s) -> ListOfCrossRealms s = (Ok l, s') ->
    NoDup (ID <$> l) /\ st s' = st s /\ events s' = events s /\
    (forall g, g ∈ l <-> listed (st s) (ID g) = Some g /\ in_list 0 true g);
  Upsert_healthy : forall g, healthy (Upsert g);
  Remove_healthy : forall gid, healthy (Remove gid);
  ListByRealm_healthy : forall realmID, healthy (ListByRealm realmID);
  ListOfCrossRealms_healthy : healthy ListOfCrossRealms;
  One_healthy : forall gid, healthy (One gid);
  One_law : forall gid s o s', consistent (st s) -> One gid s = (Ok o, s') ->
    o = listed (st s) gid /\ st s' = st s /\ events s' = events s
}.

(** ** Redis, as the repository uses it

    Documents under string keys (the JSON of a server, which decodes to the
    server it was made from) and sets of strings.  The laws concern a document
    key and a set key that differ: Redis keeps one key space. *)
Class RedisDocs (V D : Type) := {
  dget : D -> string -> option V;
  dset : D -> string -> V -> D;
  ddel : D -> string -> D;
  smembers : D -> string -> list string;
  sadd : D -> string -> string -> D;
  srem : D -> string -> string -> D;
  scan : D -> string -> list string;
  dget_dset : forall d k v k', dget (dset d k v) k' = if decide (k' = k) then Some v else dget d k';
  dget_ddel : forall d k k', dget (ddel d k) k' = if decide (k' = k) then None else dget d k';
  dget_sadd : forall d t x k, k <> t -> dget (sadd d t x) k = dget d k;
  dget_srem : forall d t x k, k <> t -> dget (srem d t x) k = dget d k;
  smembers_dset : forall d k v t, t <> k -> smembers (dset d k v) t ≡ₚ smembers d t;
  smembers_ddel : forall d k t, t <> k -> smembers (ddel d k) t ≡ₚ smembers d t;
  smembers_sadd : forall d t x t' y,
    y ∈ smembers (sadd d t x) t' <-> (t' = t /\ y = x) \/ y ∈ smembers d t';
  smembers_srem : forall d t x t' y,
    y ∈ smembers (srem d t x) t' <-> y ∈ smembers d t' /\ ~ (t' = t /\ y = x);
  smembers_NoDup : forall d t, NoDup (smembers d t);
  scan_prefix : forall d p k, k ∈ scan d p -> HasPrefix k p = true;
  scan_complete : forall d p k, is_Some (dget d k) -> HasPrefix k p = true -> k ∈ scan d p
}.

(** ** The Redis repository *)

(** hash/fnv's 32-bit FNV-1a. *)
Fixpoint fnv32a (h : u32) (s : string) : u32 :=
  match s with
  | EmptyString => h
  | String c s => fnv32a (wrap32 (Z.lxor h (Z.of_nat (Ascii.nat_of_ascii c)) * 16777619)) s
  end.
Definition generateID (address : string) : string := fmt_d (fnv32a 2166136261 address).

Definition realmIndexKey (realmID : u32) (isCrossRealm : bool) : string :=
  if isCrossRealm then "crossrealm:wss" else "realm:" +:+ fmt_d realmID +:+ ":wss".
Definition key (gid : string) : string := "ws:" +:+ gid.
Definition index_of_server (g : GameServer) : string := realmIndexKey (RealmID g) (IsCrossRealm g).

Section Redis.
Context {D E : Type} `{RedisDocs GameServer D}.
Abbreviation M A := (go D E registry_err A).

Definition redis : M unit := ext ErrRedis.

Definition redis_normal (g : GameServer) : GameServer :=
  let address := ToLower (Address g) in
  if String.eqb (ID g) "" then set_identity g (generateID address) address
  else set_identity g (ID g) address.

Definition redis_Upsert (g : GameServer) : M unit :=
  redis ;; modify (fun d => dset d (key (ID g)) g) ;;
  res ← try_err (redis ;; modify (fun d => sadd d (index_of_server g) (key (ID g))));
  match res with
  | Some _ => mret tt
  | None => try_err (redis ;; modify (fun d => ddel d (key (ID g)))) ;; fail ErrRedis
  end.

(** A missing document is an error here. *)
Definition redis_Update (gid : string) (f : GameServer -> GameServer) : M unit :=
  redis ;; d ← gets id;
  v ← not_nil ErrRedisNil (dget d (key gid));
  redis ;; modify (fun d => dset d (key (ID (f v))) (f v)).

Definition redis_Remove (gid : string) : M unit :=
  redis ;; d ← gets id;
  match dget d (key gid) with
  | None => mret tt
  | Some v =>
    redis ;; modify (fun d => srem d (index_of_server v) (key gid)) ;;
    redis ;; modify (fun d => ddel d (key gid))
  end.

Definition listForRealmOrCrossRealm (realmID : u32) (isCrossRealm : bool) : M (list GameServer) :=
  redis ;; keys ← gets (fun d => smembers d (realmIndexKey realmID isCrossRealm));
  if (length keys =? 0)%nat then mret []
  else redis ;; gets (fun d => omap (dget d) keys).

(** A document that cannot be fetched is skipped. *)
Fixpoint fetch_all (keys : list string) : M (list GameServer) :=
  match keys with
  | [] => mret []
  | k :: keys =>
    v ← try_err (redis ;; gets (fun d => dget d k));
    rest ← fetch_all keys;
    mret (match v with Some (Some obj) => obj :: rest | _ => rest end)
  end.

Definition redis_ListAll : M (list GameServer) :=
  redis ;; keys ← gets (fun d => scan d "ws:");
  fetch_all keys.

Definition redis_One (gid : string) : M (option GameServer) :=
  redis ;; gets (fun d => dget d (key gid)).

#[export] Instance redis_repo : GameServerRepo D E := {|
  normal := redis_normal;
  Upsert := redis_Upsert;
  Update := redis_Update;
  Remove := redis_Remove;
  ListByRealm := fun realmID => listForRealmOrCrossRealm realmID false;
  ListOfCrossRealms := listForRealmOrCrossRealm 0 true;
  ListAll := redis_ListAll;
  One := redis_One
|}.
End Redis.

(** ** The Redis repository keeps its contract *)
Lemma key_inj a b : key a = key b -> a = b.
Proof. unfold key. apply append_inv_head. Qed.
Lemma key_not_index a r c : key a <> realmIndexKey r c.
Proof. unfold key, realmIndexKey. destruct c; discriminate. Qed.
Lemma realmIndexKey_inj r c r' c' :
  realmIndexKey r c = realmIndexKey r' c' -> c = c' /\ (c = false -> r = r').
Proof.
  unfold realmIndexKey. destruct c, c'; intros E; try done.
  split; [done|]. intros _. apply append_inv_head in E. by apply fmt_d_key_inj in E as [-> _].
Qed.

Section RedisLaws.
Context {D E : Type} `{RedisDocs GameServer D}.
Implicit Types s : sys D E.

(** Every document sits under the key of its id and is indexed in its realm's
    set; the sets have no other members. *)
Definition redis_consistent (d : D) : Prop :=
  (forall gid g, dget d (key gid) = Some g ->
     ID g = gid /\ redis_normal g = g /\ key gid ∈ smembers d (index_of_server g)) /\
  (forall r c k, k ∈ smembers d (realmIndexKey r c) ->
     exists gid g, k = key gid /\ dget d k = Some g /\ index_of_server g = realmIndexKey r c).

Definition redis_listed (d : D) (gid : string) : option GameServer := dget d (key gid).

Lemma redis_normal_idemp g : redis_normal (redis_normal g) = redis_normal g.
Proof.
  unfold redis_normal, set_identity. destruct (String.eqb_spec (ID g) "") as [E1|E1]; simpl;
    rewrite ToLower_idemp.
  - destruct (String.eqb_spec (generateID (ToLower (Address g))) "") as [E2|]; [|done].
    by apply fmt_d_nonempty in E2.
  - by rewrite (proj2 (String.eqb_neq _ _) E1).
Qed.

Lemma redis_normal_realm g :
  RealmID (redis_normal g) = RealmID g /\ IsCrossRealm (redis_normal g) = IsCrossRealm g.
Proof. unfold redis_normal. by case_match. Qed.

Lemma dget_sadd_key d r c x a : dget (sadd d (realmIndexKey r c) x) (key a) = dget d (key a).
Proof. apply dget_sadd, key_not_index. Qed.

Lemma dget_put d g t h gid :
  dget (sadd (dset d (key (ID g)) t) (index_of_server h) (key (ID g))) (key gid) =
  if decide (gid = ID g) then Some t else dget d (key gid).
Proof.
  unfold index_of_server. rewrite dget_sadd_key, dget_dset. repeat case_decide; subst; try done.
  match goal with E : key _ = key _ |- _ => by apply key_inj in E end.
Qed.

Lemma consistent_put d g :
  redis_consistent d -> redis_normal g = g ->
  (forall old, redis_listed d (ID g) = Some old -> same_list old g) ->
  redis_consistent (sadd (dset d (key (ID g)) g) (index_of_server g) (key (ID g))).
Proof.
  intros [Hdoc Hset] Hn Hold. split.
  - intros gid x. rewrite dget_put, smembers_sadd.
    rewrite smembers_dset by (apply not_eq_sym, key_not_index).
    case_decide as Hg; [intros [= <-]; subst; auto|]. intros Hx. apply Hdoc in Hx as (? & ? & ?). auto.
  - intros r c k. rewrite smembers_sadd. rewrite smembers_dset by (apply not_eq_sym, key_not_index).
    intros [[Hi ->]|Hk].
    + exists (ID g), g. rewrite dget_put, decide_True by done. auto.
    + destruct (Hset _ _ _ Hk) as (gid & x & -> & Hx & Hi). rewrite dget_put.
      case_decide as Hg; [|by exists gid, x].
      exists gid, g. split_and!; [done|done|]. subst gid. destruct (Hold _ Hx) as [Hcr Hr].
      rewrite <- Hi. unfold index_of_server, realmIndexKey. rewrite Hcr.
      destruct (IsCrossRealm g); [done|]. by rewrite Hr.
Qed.

Lemma redis_Upsert_ok g s u s' :
  redis_Upsert g s = (Ok u, s') ->
  st s' = sadd (dset (st s) (key (ID g)) g) (index_of_server g) (key (ID g)) /\ events s' = events s.
Proof.
  intros Hrun. unfold redis_Upsert, redis in Hrun. inv_ok.
  match goal with Ht : try_err _ _ = (Ok ?o, _) |- _ => apply try_err_ok in Ht; destruct o; inv_ok end.
  simpl in *. split; congruence.
Qed.

Lemma redis_list_ok r c s l s' :
  listForRealmOrCrossRealm r c s = (Ok l, s') ->
  l = omap (dget (st s)) (smembers (st s) (realmIndexKey r c)) /\ st s' = st s /\ events s' = events s.
Proof.
  intros Hrun. unfold listForRealmOrCrossRealm, redis in Hrun. inv_ok. rewrite Hst in *.
  destruct (smembers (st s) (realmIndexKey r c)) as [|k ks]; simpl in Hrun2; inv_ok.
  - split_and!; try done; congruence.
  - repeat match goal with Es : st _ = st _ |- _ => rewrite Es; clear Es end. split_and!; [done..|congruence].
Qed.

Lemma redis_Upsert_law g s u s' :
  redis_consistent (st s) ->
  (forall old, redis_listed (st s) (ID (redis_normal g)) = Some old -> same_list old g) ->
  redis_Upsert (redis_normal g) s = (Ok u, s') ->
  redis_consistent (st s') /\ events s' = events s /\
  (forall gid, redis_listed (st s') gid =
     if decide (gid = ID (redis_normal g)) then Some (redis_normal g) else redis_listed (st s) gid).
Proof.
  intros Hc Hold Hrun. pose proof (redis_normal_idemp g) as Hn.
  assert (Hold' : forall old, redis_listed (st s) (ID (redis_normal g)) = Some old ->
    same_list old (redis_normal g)).
  { unfold same_list. by destruct (redis_normal_realm g) as [-> ->]. }
  set (g' := redis_normal g) in *. clearbody g'. clear Hold.
  apply redis_Upsert_ok in Hrun as [-> ->]. split_and!; [by apply consistent_put|done|].
  intros gid. unfold redis_listed. by rewrite dget_put.
Qed.

Lemma dget_drop d gid h x gid' :
  dget (ddel (srem d (index_of_server h) x) (key gid)) (key gid') =
  if decide (gid' = gid) then None else dget d (key gid').
Proof.
  rewrite dget_ddel. destruct (decide (gid' = gid)) as [->|Hne]; [by rewrite decide_True|].
  rewrite decide_False by (by intros ->%key_inj). apply dget_srem, key_not_index.
Qed.

Lemma consistent_drop d gid g :
  redis_consistent d -> dget d (key gid) = Some g ->
  redis_consistent (ddel (srem d (index_of_server g) (key gid)) (key gid)).
Proof.
  intros [Hdoc Hset] Hg. split.
  - intros gid' x. rewrite dget_drop. case_decide as Hne; [done|]. intros Hx.
    apply Hdoc in Hx as (? & ? & ?). split_and!; try done.
    rewrite smembers_ddel, smembers_srem by (apply not_eq_sym, key_not_index).
    split; [done|]. by intros [_ ->%key_inj].
  - intros r c k. rewrite smembers_ddel, smembers_srem by (apply not_eq_sym, key_not_index).
    intros [Hk Hne]. destruct (Hset _ _ _ Hk) as (gid' & x & -> & Hx & Hi).
    exists gid', x. rewrite dget_drop. case_decide as Hgid; [subst|by auto].
    destruct Hne. rewrite Hg in Hx. by simplify_eq.
Qed.

Lemma redis_Remove_law gid s u s' :
  redis_consistent (st s) -> redis_Remove gid s = (Ok u, s') ->
  redis_consistent (st s') /\ events s' = events s /\
  (forall gid', redis_listed (st s') gid' = if decide (gid' = gid) then None else redis_listed (st s) gid').
Proof.
  intros Hc Hrun. unfold redis_Remove, redis in Hrun. inv_ok. rewrite Hst in *.
  destruct (dget (st s) (key gid)) as [v|] eqn:Ev; inv_ok.
  2:{ rewrite Hst. split_and!; [done|done|]. intros gid'. unfold redis_listed. by case_decide; subst. }
  simpl in *. rewrite Hst0, Hst1, Hst.
  split_and!; [by apply consistent_drop|congruence|].
  intros gid'. unfold redis_listed. by rewrite dget_drop.
Qed.

Lemma redis_list_law r c s l s' :
  redis_consistent (st s) -> listForRealmOrCrossRealm r c s = (Ok l, s') ->
  NoDup (ID <$> l) /\ st s' = st s /\ events s' = events s /\
  (forall g, g ∈ l <-> redis_listed (st s) (ID g) = Some g /\ in_list r c g).
Proof.
  intros [Hdoc Hset] Hrun. apply redis_list_ok in Hrun as (-> & -> & ->).
  assert (Hin : forall g, g ∈ omap (dget (st s)) (smembers (st s) (realmIndexKey r c)) <->
    redis_listed (st s) (ID g) = Some g /\ in_list r c g).
  { intros g. rewrite list_elem_of_omap. split.
    - intros (k & Hk & Hg). destruct (Hset _ _ _ Hk) as (gid & x & -> & Hx & Hi).
      rewrite Hg in Hx. injection Hx as <-. destruct (Hdoc _ _ Hg) as [<- _].
      split; [done|]. apply realmIndexKey_inj in Hi as [<- Hr]. by split.
    - intros [Hg [Hc Hr]]. exists (key (ID g)). split; [|done].
      destruct (Hdoc _ _ Hg) as (_ & _ & Hi). unfold index_of_server in Hi.
      rewrite Hc in Hi. destruct c; [done|]. by rewrite Hr in Hi. }
  assert (Hnd : NoDup (ID <$> omap (dget (st s)) (smembers (st s) (realmIndexKey r c)))).
  { pose proof (smembers_NoDup (st s) (realmIndexKey r c)) as Hnd.
    assert (Hall : forall k, k ∈ smembers (st s) (realmIndexKey r c) -> exists gid g,
      k = key gid /\ dget (st s) k = Some g /\ ID g = gid).
    { intros k Hk. destruct (Hset _ _ _ Hk) as (gid & g & -> & Hg & _).
      exists gid, g. split_and!; [done..|]. by apply Hdoc in Hg as [-> _]. }
    clear -Hnd Hall. induction Hnd as [|k ks Hk _ IH]; simpl; [constructor|].
    destruct (Hall k ltac:(left)) as (gid & g & -> & Hg & HID). rewrite Hg. simpl.
    assert (IH' : forall k, k ∈ ks -> exists gid g, k = key gid /\ dget (st s) k = Some g /\ ID g = gid)
      by (intros; apply Hall; by right).
    constructor; [|by apply IH]. intros (h & Hh & Hin)%list_elem_of_fmap.
    apply list_elem_of_omap in Hin as (k & Hk' & Hg'). destruct (IH' k Hk') as (gid' & h' & -> & Hh' & HID').
    rewrite Hg' in Hh'. injection Hh' as <-. apply Hk. by rewrite <- HID, Hh, HID'. }
  by split_and!.
Qed.

Lemma redis_normal_spec g : exists gid addr, redis_normal g = set_identity g gid addr.
Proof. unfold redis_normal. case_match; eauto. Qed.
Lemma redis_normal_local g h : ID g = ID h -> Address g = Address h ->
  ID (redis_normal g) = ID (redis_normal h) /\ Address (redis_normal g) = Address (redis_normal h).
Proof. unfold redis_normal. intros -> ->. by case_match. Qed.
Lemma redis_listed_id d gid g :
  redis_consistent d -> redis_listed d gid = Some g -> ID g = gid /\ redis_normal g = g.
Proof. intros [Hdoc _] Hg. by apply Hdoc in Hg as (? & ? & _). Qed.
Lemma redis_One_law gid s o s' :
  redis_consistent (st s) -> redis_One gid s = (Ok o, s') ->
  o = redis_listed (st s) gid /\ st s' = st s /\ events s' = events s.
Proof.
  intros _ Hrun. unfold redis_One, redis in Hrun. inv_ok. rewrite Hst. by split_and!.
Qed.

Lemma redis_Upsert_healthy g : healthy (redis_Upsert (E:=E) g).
Proof.
  intros s Hs. unfold redis_Upsert, redis, mbind, go_bind, ext, try_err, modify. rewrite Hs. simpl.
  rewrite Hs. simpl. eexists _, _. split; [done|]. by simpl.
Qed.
Lemma redis_Remove_healthy gid : healthy (redis_Remove (E:=E) gid).
Proof. unfold redis_Remove, redis. healthy_tac. Qed.
Lemma redis_list_healthy r c : healthy (listForRealmOrCrossRealm (E:=E) r c).
Proof. unfold listForRealmOrCrossRealm, redis. healthy_tac. Qed.
Lemma redis_One_healthy gid : healthy (redis_One (E:=E) gid).
Proof. unfold redis_One, redis. healthy_tac. Qed.

#[export] Instance redis_repo_laws : GameServerRepoLaws D E := {|
  consistent := redis_consistent;
  listed := redis_listed;
  normal_spec := redis_normal_spec;
  normal_idemp := redis_normal_idemp;
  normal_local := redis_normal_local;
  listed_id := redis_listed_id;
  Upsert_law := redis_Upsert_law;
  Remove_law := redis_Remove_law;
  ListByRealm_law := fun r => redis_list_law r false;
  ListOfCrossRealms_law := redis_list_law 0 true;
  Upsert_healthy := redis_Upsert_healthy;
  Remove_healthy := redis_Remove_healthy;
  ListByRealm_healthy := fun r => redis_list_healthy r false;
  ListOfCrossRealms_healthy := redis_list_healthy 0 true;
  One_healthy := redis_One_healthy;
  One_law := redis_One_law
|}.
End RedisLaws.

(** Redis as a pair of finite maps, used to evaluate the definitions. *)
Definition docs_of (V : Type) : Type := gmap string V * gmap string (gset string).
#[export] Instance RedisDocs_gmap V : RedisDocs V (docs_of V).
Proof.
  refine {|
    dget := fun d k => d.1 !! k;
    dset := fun d k v => (<[k := v]> d.1, d.2);
    ddel := fun d k => (delete k d.1, d.2);
    smembers := fun d t => elements (default ∅ (d.2 !! t));
    sadd := fun d t x => (d.1, <[t := {[x]} ∪ default ∅ (d.2 !! t)]> d.2);
    srem := fun d t x => (d.1, <[t := default ∅ (d.2 !! t) ∖ {[x]}]> d.2);
    scan := fun d p => filter (fun k => HasPrefix k p = true) (map_to_list d.1).*1
  |}; simpl; intros; try done.
  - rewrite lookup_insert. by repeat case_decide; subst.
  - rewrite lookup_delete. by repeat case_decide; subst.
  - rewrite !elem_of_elements, lookup_insert. case_decide; subst; simpl; set_solver.
  - rewrite !elem_of_elements, lookup_insert. case_decide; subst; simpl; set_solver.
  - apply NoDup_elements.
  - by apply list_elem_of_filter in H as [H _].
  - apply list_elem_of_filter. split; [done|]. destruct H as [v Hv].
    apply list_elem_of_fmap. exists (k, v). split; [done|]. by apply elem_of_map_to_list.
Defined.

Section RedisFindings.
Context {D E : Type} `{RedisDocs GameServer D}.
Implicit Types s : sys D E.

(** Registering a known server under another realm leaves it in the old
    realm's set: the old realm's list then holds a server of the new realm. *)
Theorem moved_server_stays_listed s s' s'' g old u l :
  redis_consistent (st s) -> redis_listed (st s) (ID (redis_normal g)) = Some old ->
  IsCrossRealm old = false -> IsCrossRealm g = false ->
  redis_Upsert (redis_normal g) s = (Ok u, s') ->
  listForRealmOrCrossRealm (RealmID old) false s' = (Ok l, s'') ->
  redis_normal g ∈ l.
Proof.
  intros [Hdoc _] Hold Hco Hcg Hput Hlist.
  destruct (Hdoc _ _ Hold) as (HID & _ & Hidx).
  set (g' := redis_normal g) in *. assert (IsCrossRealm g' = false) as Hcg' by (subst g'; by rewrite (proj2 (redis_normal_realm g))).
  clearbody g'.
  apply redis_Upsert_ok in Hput as [Hs' _]. apply redis_list_ok in Hlist as (-> & _).
  apply list_elem_of_omap. exists (key (ID g')). split.
  - rewrite Hs', smembers_sadd. right. rewrite smembers_dset by (apply not_eq_sym, key_not_index).
    unfold index_of_server in Hidx. by rewrite Hco in Hidx.
  - by rewrite Hs', dget_put, decide_True.
Qed.
End RedisFindings.

(** ** The in-memory repository *)
Section InMem.
Context {E : Type}.
Abbreviation M A := (go (list GameServer) E registry_err A).

Definition mem_normal (g : GameServer) : GameServer :=
  if String.eqb (ID g) "" then set_identity g (Address g) (Address g) else g.

Definition mem_Upsert (g : GameServer) : M unit := modify (fun l => l ++ [g]).

(** The callback works on the stored element itself. *)
Fixpoint update_first (gid : string) (f : GameServer -> GameServer) (l : list GameServer) : list GameServer :=
  match l with
  | [] => []
  | g :: l => if String.eqb (ID g) gid then f g :: l else g :: update_first gid f l
  end.
Definition mem_Update (gid : string) (f : GameServer -> GameServer) : M unit := modify (update_first gid f).

Fixpoint remove_first (gid : string) (l : list GameServer) : list GameServer :=
  match l with
  | [] => []
  | g :: l => if String.eqb (ID g) gid then l else g :: remove_first gid l
  end.
Definition mem_Remove (gid : string) : M unit := modify (remove_first gid).

Definition mem_ListByRealm (realmID : u32) : M (list GameServer) :=
  gets (filter (fun g => RealmID g = realmID)).
Definition mem_ListOfCrossRealms : M (list GameServer) := gets (filter (fun g => IsCrossRealm g = true)).
Definition mem_ListAll : M (list GameServer) := gets id.
Definition mem_One (gid : string) : M (option GameServer) :=
  gets (fun l => List.find (fun g => String.eqb (ID g) gid) l).

Definition mem_repo : GameServerRepo (list GameServer) E := {|
  normal := mem_normal; Upsert := mem_Upsert; Update := mem_Update; Remove := mem_Remove;
  ListByRealm := mem_ListByRealm; ListOfCrossRealms := mem_ListOfCrossRealms; ListAll := mem_ListAll;
  One := mem_One
|}.

(** It appends instead of replacing: a server that is stored again keeps its
    first record in [One], so the interface's contract fails here. *)
Lemma mem_Upsert_keeps_first g gid old s s' s'' u o :
  List.find (fun g => String.eqb (ID g) gid) (st s) = Some old ->
  mem_Upsert g s = (Ok u, s') -> mem_One gid s' = (Ok o, s'') -> o = Some old.
Proof.
  unfold mem_Upsert, mem_One. intros Hf Hp Ho. inv_ok. simpl.
  induction (st s) as [|x l IH]; simpl in *; [done|]. destruct (String.eqb (ID x) gid); auto.
Qed.
End InMem.

(** ** Server ids *)
Definition sample_server (address : string) (realmID : u32) : GameServer :=
  {| ID := ""; Address := address; HealthCheckAddr := address; GRPCAddress := ""; RealmID := realmID;
     IsCrossRealm := false; AvailableMaps := []; ActiveConnections := 0;
     Diff := {| Mean := 0; Median := 0; Percentile95 := 0; Percentile99 := 0; Max := 0 |};
     AssignedMapsToHandle := []; AssignedButPendingMaps := [] |}.

(** The 32-bit id does not tell addresses apart: these two private addresses
    share one, and once both servers are registered the repository holds only
    the second. *)
Theorem address_ids_collide (s s1 s2 : sys (docs_of GameServer) unit) u1 u2 :
  let a := redis_normal (sample_server "10.0.148.22:8085" 1) in
  let b := redis_normal (sample_server "10.0.152.203:8087" 1) in
  redis_Upsert a s = (Ok u1, s1) -> redis_Upsert b s1 = (Ok u2, s2) ->
  ID a = ID b /\ Address a <> Address b /\ redis_listed (st s2) (ID a) = Some b.
Proof.
  intros a b Ha Hb. assert (Eid : ID a = ID b) by (vm_compute; reflexivity).
  apply redis_Upsert_ok in Ha as [Ha _]. apply redis_Upsert_ok in Hb as [Hb _].
  split_and!; [done|done|]. unfold redis_listed. rewrite Hb, dget_put, Eid. by rewrite decide_True.
Qed.

Definition empty_redis : sys (docs_of GameServer) unit := Sys (∅, ∅) [] [].

Lemma address_ids_collide_witness :
  let a := redis_normal (sample_server "10.0.148.22:8085" 1) in
  let b := redis_normal (sample_server "10.0.152.203:8087" 1) in
  let s1 := snd (redis_Upsert a empty_redis) in
  let s2 := snd (redis_Upsert b s1) in
  redis_listed (st s2) (ID a) = Some b.
Proof. intros a b s1 s2. apply (address_ids_collide empty_redis s1 s2 tt tt); run_ok. Defined.

Lemma empty_redis_consistent : redis_consistent (st empty_redis).
Proof.
  split; [by intros ? ?|]. intros r c k Hk. exfalso. revert Hk. unfold smembers; simpl.
  rewrite lookup_empty. simpl. by rewrite elements_empty, elem_of_nil.
Qed.

Definition sample_known (realmID : u32) : GameServer := set_identity (sample_server "" realmID) "7" "gs:8085".

(** The server of realm 1 comes back as one of realm 2. *)
Lemma moved_server_stays_listed_witness :
  let g := redis_normal (sample_known 1) in
  let h := redis_normal (sample_known 2) in
  let s1 := snd (redis_Upsert g empty_redis) in
  let s2 := snd (redis_Upsert h s1) in
  exists l, fst (listForRealmOrCrossRealm 1 false s2) = Ok l /\ h ∈ l.
Proof.
  intros g h s1 s2. exists [h]. split; [vm_compute; reflexivity|].
  apply (moved_server_stays_listed s1 s2 (snd (listForRealmOrCrossRealm 1 false s2))
    (sample_known 2) g tt [h]); [|vm_compute; reflexivity|done|done|run_ok|run_ok].
  assert (Hput : redis_Upsert g empty_redis = (Ok tt, s1)) by run_ok.
  apply (redis_Upsert_law (sample_known 1)) in Hput as [Hc _]; [exact Hc| |].
  - apply empty_redis_consistent.
  - intros old Hold. unfold redis_listed in Hold. simpl in Hold. by rewrite lookup_empty in Hold.
Defined.
