(* ===== verification/GatewayRepo.v ===== *)
(** * GatewayRepo: the registered gateways
    (apps/servers-registry/repo/gateway-server.go, repo/gateway-server_redis.go,
    repo/gateway-server-inmem.go)

    A gateway is identified by its health check address.  As for the game
    servers, a Redis document per gateway and a set per realm. *)
From S2P Require Import Prelude GoRuntime GoStrings GameServerRepo.

Record GatewayServer := {
  gw_ID : string; gw_Address : string; gw_HealthCheckAddr : string; gw_RealmID : u32;
  gw_ActiveConnections : int
}.
Definition gw_set_identity (s : GatewayServer) (gid health : string) : GatewayServer :=
  {| gw_ID := gid; gw_Address := gw_Address s; gw_HealthCheckAddr := health; gw_RealmID := gw_RealmID s;
     gw_ActiveConnections := gw_ActiveConnections s |}.
Definition gw_set_connections (s : GatewayServer) (n : int) : GatewayServer :=
  {| gw_ID := gw_ID s; gw_Address := gw_Address s; gw_HealthCheckAddr := gw_HealthCheckAddr s;
     gw_RealmID := gw_RealmID s; gw_ActiveConnections := n |}.

Definition gw_HealthCheckAddress (g : GatewayServer) : string := gw_HealthCheckAddr g.
Definition gw_MetricsAddress (g : GatewayServer) : string := gw_HealthCheckAddr g.

Definition gw_realmIndexKey (realmID : u32) : string := "realm:" +:+ fmt_d realmID +:+ ":gws".
Definition gw_key (gid : string) : string := "gw:" +:+ gid.

(** ** The Redis repository *)
Section Redis.
Context {D E : Type} `{RedisDocs GatewayServer D}.
Abbreviation M A := (go D E registry_err A).

(** What [Add] does to the struct before it stores it. *)
Definition gw_normal (g : GatewayServer) : GatewayServer :=
  let health := ToLower (gw_HealthCheckAddr g) in
  gw_set_identity g (generateID health) health.

Definition gw_Add (g : GatewayServer) : M unit :=
  redis ;; modify (fun d => dset d (gw_key (gw_ID g)) g) ;;
  res ← try_err (redis ;; modify (fun d => sadd d (gw_realmIndexKey (gw_RealmID g)) (gw_key (gw_ID g))));
  match res with
  | Some _ => mret tt
  | None => try_err (redis ;; modify (fun d => ddel d (gw_key (gw_ID g)))) ;; fail ErrRedis
  end.

Definition gw_Update (gid : string) (f : GatewayServer -> GatewayServer) : M unit :=
  redis ;; d ← gets id;
  v ← not_nil ErrRedisNil (dget d (gw_key gid));
  redis ;; modify (fun d => dset d (gw_key (gw_ID (f v))) (f v)).

Definition gw_Remove (healthCheckAddress : string) : M unit :=
  redis ;; d ← gets id;
  match dget d (gw_key (generateID healthCheckAddress)) with
  | None => mret tt
  | Some v =>
    redis ;; modify (fun d => srem d (gw_realmIndexKey (gw_RealmID v)) (gw_key (generateID healthCheckAddress))) ;;
    redis ;; modify (fun d => ddel d (gw_key (generateID healthCheckAddress)))
  end.

Definition gw_ListByRealm (realmID : u32) : M (list GatewayServer) :=
  redis ;; keys ← gets (fun d => smembers d (gw_realmIndexKey realmID));
  if (length keys =? 0)%nat then mret []
  else redis ;; gets (fun d => omap (dget d) keys).

Implicit Types s : sys D E.

Lemma gw_Add_ok g s u s' :
  gw_Add g s = (Ok u, s') ->
  st s' = sadd (dset (st s) (gw_key (gw_ID g)) g) (gw_realmIndexKey (gw_RealmID g)) (gw_key (gw_ID g)) /\
  events s' = events s.
Proof.
  intros Hrun. unfold gw_Add, redis in Hrun. inv_ok.
  match goal with Ht : try_err _ _ = (Ok ?o, _) |- _ => apply try_err_ok in Ht; destruct o; inv_ok end.
  simpl in *. split; congruence.
Qed.

Lemma gw_list_ok r s l s' :
  gw_ListByRealm r s = (Ok l, s') ->
  l = omap (dget (st s)) (smembers (st s) (gw_realmIndexKey r)) /\ st s' = st s /\ events s' = events s.
Proof.
  intros Hrun. unfold gw_ListByRealm, redis in Hrun. inv_ok. rewrite Hst in *.
  destruct (smembers (st s) (gw_realmIndexKey r)) as [|k ks]; simpl in Hrun2; inv_ok.
  - split_and!; try done; congruence.
  - repeat match goal with Es : st _ = st _ |- _ => rewrite Es; clear Es end. split_and!; [done..|congruence].
Qed.
Lemma gw_list_healthy r : healthy (gw_ListByRealm r).
Proof. unfold gw_ListByRealm, redis. healthy_tac. Qed.
End Redis.

(** ** The in-memory repository, keyed by the health check address *)
Record gw_mem := { storage : gmap string GatewayServer; counter : int }.

Section InMem.
Context {E : Type} `{MapRange}.
Abbreviation M A := (go gw_mem E registry_err A).

(** The caller's struct gets the counter as its id; the store keeps a pointer to it. *)
Definition gw_mem_Add (g : GatewayServer) : M GatewayServer :=
  m ← gets id;
  let n := counter m + 1 in
  let g := gw_set_identity g (fmt_d n) (gw_HealthCheckAddr g) in
  modify (fun m => {| storage := <[gw_HealthCheckAddr g := g]> (storage m); counter := n |}) ;;
  mret g.

(** The first gateway met with this id is replaced. *)
Definition gw_mem_Update (gid : string) (f : GatewayServer -> GatewayServer) : M unit :=
  m ← gets id;
  match List.find (fun e => String.eqb (gw_ID e.2) gid) (go_range 0 (storage m)) with
  | Some (_, v) =>
    modify (fun m => {| storage := <[gw_HealthCheckAddr v := f v]> (storage m); counter := counter m |})
  | None => mret tt
  end.

Definition gw_mem_Remove (healthCheckAddress : string) : M unit :=
  modify (fun m => {| storage := delete healthCheckAddress (storage m); counter := counter m |}).

Definition gw_mem_ListByRealm (realmID : u32) : M (list GatewayServer) :=
  m ← gets id; mret (filter (fun v => gw_RealmID v = realmID) (go_range 1 (storage m)).*2).
End InMem.
