(* ===== verification/BinPack.v ===== *)
(** * BinPack: which game server handles which map
    (apps/servers-registry/mapbalancing/binpack/distributor.go) *)
From S2P Require Import Prelude GoRuntime GoStrings GameServerRepo.
From Stdlib Require Import SpecFloat.

Abbreviation MapsWeight := (gmap u32 u32).

Record mapIDWeight := { mapID : u32; weight : u32 }.

Section Distributor.
Context `{MapRange} `{SortSlice}.

Fixpoint firstAvailableBin (binStates : list u32) (mapWeight : u32) : option nat :=
  match binStates with
  | [] => None
  | availableBinSize :: binStates =>
    if mapWeight <=? availableBinSize then Some O
    else S <$> firstAvailableBin binStates mapWeight
  end.

Definition totalWeight (weights : MapsWeight) : u32 :=
  foldl (fun total e => wrap32 (total + e.2)) 0 (go_range 1 weights).

(** uint32(math.Ceil(float64(totalWeight) / float64(len(servers)))) *)
Definition weightPerServer (weights : MapsWeight) (servers : nat) : u32 :=
  wrap32 (sf_ceil (f64_div (f64_of_int (totalWeight weights)) (f64_of_int (Z.of_nat servers)))).

(** Maps heavier than a server's share are cut down to it. *)
Definition clip (share : u32) (weights : MapsWeight) : MapsWeight :=
  foldl (fun ws e => if share <? e.2 then <[e.1 := share]> ws else ws) weights (go_range 2 weights).

(** Heaviest first; the order of equal weights is the sort's. *)
Definition by_weight (weights : MapsWeight) : list mapIDWeight :=
  sort_slice (fun a b => weight b <? weight a)
    ((fun e => {| mapID := e.1; weight := e.2 |}) <$> go_range 3 weights).

Definition place (share : u32) (acc : list u32 * list (list mapIDWeight)) (mw : mapIDWeight) :
    list u32 * list (list mapIDWeight) :=
  let '(binStates, packing) := acc in
  match firstAvailableBin binStates (weight mw) with
  | Some i => (alter (fun free => wrap32 (free - weight mw)) i binStates,
               alter (fun bin => bin ++ [mw]) i packing)
  | None => (binStates ++ [wrap32 (share - weight mw)], packing ++ [[mw]])
  end.

(** The surplus bins go round the servers, one map at a time. *)
Definition next_server (servers : nat) (acc : nat * list (list mapIDWeight)) (mw : mapIDWeight) :
    nat * list (list mapIDWeight) :=
  let '(serversItr, packing) := acc in
  ((serversItr + 1) mod servers, alter (fun bin => bin ++ [mw]) serversItr packing)%nat.

Definition spread_surplus (servers : nat) (packing : list (list mapIDWeight)) : list (list mapIDWeight) :=
  if (servers <? length packing)%nat then
    (foldl (next_server servers) (O, take servers packing) (concat (drop servers packing))).2
  else packing.

Definition pack (weights : MapsWeight) (servers : nat) : list (list mapIDWeight) :=
  let share := weightPerServer weights servers in
  (foldl (place share) ([], []) (by_weight (clip share weights))).2.

Definition sort_maps (maps : list u32) : list u32 := sort_slice Z.ltb maps.

(** Bin [i] goes to server [i]; a server without a bin keeps what it has. *)
Fixpoint assign (packing : list (list mapIDWeight)) (servers : list GameServer) : list GameServer :=
  match servers, packing with
  | s :: servers, bin :: packing =>
    set_assigned s (AssignedMapsToHandle s ++ (mapID <$> bin)) :: assign packing servers
  | servers, _ => servers
  end.

Definition greedyBinPackBalancer (weights : MapsWeight) (servers : list GameServer) : list GameServer :=
  let packing := spread_surplus (length servers) (pack weights (length servers)) in
  (fun s => set_assigned s (sort_maps (AssignedMapsToHandle s))) <$> assign packing servers.

Definition split_server (acc : list GameServer * list GameServer * MapsWeight) (server : GameServer) :
    list GameServer * list GameServer * MapsWeight :=
  let '(readyServers, serversToBalance, weights) := acc in
  if IsAllMapsAvailable server then (readyServers, serversToBalance ++ [server], weights)
  else (readyServers ++ [set_assigned server (AvailableMaps server)], serversToBalance,
        foldl (fun ws m => delete m ws) weights (AvailableMaps server)).

(** The servers come back with the ones that declared their maps first. *)
Definition Distribute (weights : MapsWeight) (servers : list GameServer) : list GameServer :=
  let cleaned := (fun s => set_assigned s []) <$> servers in
  let '(readyServers, serversToBalance, weightsCopy) := foldl split_server ([], [], weights) cleaned in
  match serversToBalance with
  | [] => readyServers
  | [server] =>
    readyServers ++
      [set_assigned server (sort_maps (AssignedMapsToHandle server ++ (go_range 0 weightsCopy).*1))]
  | _ => readyServers ++ greedyBinPackBalancer weightsCopy serversToBalance
  end.
End Distributor.

(** ** Evaluation *)
Definition sample_gs (available : list u32) : GameServer := set_available (sample_known 1) available.

Example distribute_two_servers :
  AssignedMapsToHandle <$>
    (@Distribute map_range_canonical sort_slice_insertion
       (list_to_map [(1, 3); (0, 1); (3, 2)]) [sample_gs []; sample_gs []]) = [[1]; [0; 3]].
Proof. vm_compute. reflexivity. Qed.

Example distribute_surplus :
  AssignedMapsToHandle <$>
    (@Distribute map_range_canonical sort_slice_insertion
       (list_to_map [(1, 3); (0, 1); (3, 2)]) [sample_gs []; sample_gs []; sample_gs [1]]) = [[1]; [3]; [0]].
Proof. vm_compute. reflexivity. Qed.

(** ** Lists of bins *)
Lemma concat_alter_snoc {A} (x : A) i (l : list (list A)) :
  (i < length l)%nat -> concat (alter (fun b => b ++ [x]) i l) ≡ₚ x :: concat l.
Proof.
  revert i. induction l as [|b l IH]; intros [|i] Hi; simpl in *; try lia.
  - rewrite <- app_assoc. symmetry. apply Permutation_middle.
  - change (b ++ concat (alter (fun b => b ++ [x]) i l) ≡ₚ x :: b ++ concat l).
    rewrite IH by lia. symmetry. apply Permutation_middle.
Qed.

Lemma firstAvailableBin_Some free w i :
  firstAvailableBin free w = Some i ->
  exists x, free !! i = Some x /\ w <= x /\ forall j y, (j < i)%nat -> free !! j = Some y -> y < w.
Proof.
  revert i. induction free as [|x free IH]; intros i; simpl; [done|].
  destruct (Z.leb_spec w x); [intros [= <-]; exists x; split_and!; [done|lia|lia]|].
  intros (i' & Hi & ->)%fmap_Some. destruct (IH _ Hi) as (y & Hy & Hw & Hlt).
  exists y. split_and!; [done|lia|]. intros [|j] z Hj Hz; simpl in Hz; [by simplify_eq|].
  apply (Hlt j); [lia|done].
Qed.
Lemma firstAvailableBin_None free w :
  firstAvailableBin free w = None -> forall j y, free !! j = Some y -> y < w.
Proof.
  induction free as [|x free IH]; simpl; [done|].
  destruct (Z.leb_spec w x); [done|]. intros Hn%fmap_None [|j] y Hy; simpl in Hy; [by simplify_eq|].
  by apply (IH Hn j).
Qed.

Definition bin_weight (bin : list mapIDWeight) : Z := zsum weight bin.

Section Packing.
Context `{MapRange} `{SortSlice}.

(** *** First fit *)

(** [free] is what is left of the share in each bin; every map in a bin is too
    heavy for what is left in the bins before it. *)
Record packed (share : Z) (free : list Z) (bins : list (list mapIDWeight)) : Prop := {
  pk_len : length free = length bins;
  pk_free : forall i f b, free !! i = Some f -> bins !! i = Some b -> f = share - bin_weight b /\ 0 <= f <= share;
  pk_full : forall i j f b mw, (i < j)%nat -> free !! i = Some f -> bins !! j = Some b -> mw ∈ b ->
    f < weight mw;
  pk_ne : forall i b, bins !! i = Some b -> b <> []
}.
Lemma packed_nil share : packed share [] [].
Proof. by constructor. Qed.

(** Packing one map: the counts, the maps packed and the first-fit property. *)
Lemma place_packed share free bins mw free' bins' :
  share < 2 ^ 32 -> 0 <= weight mw <= share -> packed share free bins ->
  place share (free, bins) mw = (free', bins') ->
  packed share free' bins' /\ concat bins' ≡ₚ mw :: concat bins.
Proof.
  intros Hshare Hw [Hlen Hfree Hfull Hne]. unfold place.
  destruct (firstAvailableBin free (weight mw)) as [i|] eqn:Ei; intros [= <- <-].
  - apply firstAvailableBin_Some in Ei as (x & Hx & Hwx & Hbefore).
    pose proof (lookup_lt_Some _ _ _ Hx) as Hi. rewrite Hlen in Hi.
    destruct (lookup_lt_is_Some_2 bins i Hi) as [bi Hbi].
    destruct (Hfree _ _ _ Hx Hbi) as [Hfx Hx0].
    assert (wrap32 (x - weight mw) = x - weight mw) as Hwrap by (apply wrap_small; word_lia).
    split; [constructor|by apply concat_alter_snoc].
    + by rewrite !length_alter.
    + intros j f b. rewrite !list_lookup_alter. case_decide; [subst j|by apply Hfree].
      rewrite Hx, Hbi. simpl. intros [= <-] [= <-]. unfold bin_weight in *. rewrite zsum_app. simpl. lia.
    + intros j k f b y Hjk Hf Hb Hy. rewrite list_lookup_alter in Hf. rewrite list_lookup_alter in Hb.
      assert (exists f', free !! j = Some f' /\ f <= f') as (f' & Hf' & Hle).
      { destruct (decide (i = j)) as [<-|]; [|by eauto using Z.le_refl].
        rewrite Hx in Hf. injection Hf as <-. exists x. split; [done|lia]. }
      destruct (decide (i = k)) as [<-|Hik]; [|by eapply Z.le_lt_trans; [exact Hle|eapply Hfull]].
      rewrite Hbi in Hb. injection Hb as <-. apply elem_of_app in Hy as [Hy|Hy]; [|apply list_elem_of_singleton in Hy as ->].
      * eapply Z.le_lt_trans; [exact Hle|by eapply (Hfull j i)].
      * eapply Z.le_lt_trans; [exact Hle|by eapply Hbefore].
    + intros j b. rewrite list_lookup_alter. case_decide; [subst j|by apply Hne].
      rewrite Hbi. intros [= <-]. by destruct bi.
  - pose proof (firstAvailableBin_None _ _ Ei) as Hbefore.
    assert (wrap32 (share - weight mw) = share - weight mw) as Hwrap by (apply wrap_small; word_lia).
    split; [constructor|by rewrite concat_app; simpl; rewrite Permutation_app_comm].
    + rewrite !length_app. simpl. lia.
    + intros j f b Hf Hb. apply lookup_app_Some in Hf as [Hf|[Hj Hf]].
      * rewrite lookup_app_l in Hb by (rewrite <- Hlen; by eapply lookup_lt_Some). by eapply Hfree.
      * rewrite lookup_app_r in Hb by lia. rewrite Hlen in Hf.
        destruct (j - length bins)%nat; simpl in *; simplify_eq. simpl. lia.
    + intros j k f b y Hjk Hf Hb Hy. apply lookup_app_Some in Hb as [Hb|[Hk Hb]].
      * rewrite lookup_app_l in Hf; [by eapply Hfull|].
        apply lookup_lt_Some in Hb. lia.
      * destruct (k - length bins)%nat eqn:Ek; simpl in Hb; simplify_eq.
        apply list_elem_of_singleton in Hy as ->. rewrite lookup_app_l in Hf by lia. by eapply Hbefore.
    + intros j b [Hb|[Hj Hb]]%lookup_app_Some; [by eapply Hne|].
      destruct (j - length bins)%nat; simpl in Hb; by simplify_eq.
Qed.

Lemma foldl_place_packed share l : forall free bins,
  share < 2 ^ 32 -> (forall mw, mw ∈ l -> 0 <= weight mw <= share) -> packed share free bins ->
  let r := foldl (place share) (free, bins) l in
  packed share r.1 r.2 /\ concat r.2 ≡ₚ l ++ concat bins.
Proof.
  induction l as [|mw l IH]; intros free bins Hs Hl Hp; cbn [foldl]; [by split|].
  destruct (place share (free, bins) mw) as [free' bins'] eqn:E.
  destruct (place_packed _ _ _ _ _ _ Hs (Hl mw ltac:(left)) Hp E) as [Hp' Hperm].
  destruct (IH free' bins' Hs ltac:(intros; apply Hl; by right) Hp') as [Hp'' Hperm'].
  split; [exact Hp''|]. rewrite Hperm', Hperm. symmetry. apply Permutation_middle.
Qed.

(** *** The weights *)
Lemma clip_lookup share ws k :
  clip share ws !! k = (fun v => if share <? v then share else v) <$> ws !! k.
Proof.
  unfold clip. set (f := fun v => if share <? v then share else v).
  assert (Hgen : forall l (acc : MapsWeight), NoDup l.*1 -> (forall k v, (k, v) ∈ l -> acc !! k = Some v) ->
    foldl (fun ws e => if share <? e.2 then <[e.1 := share]> ws else ws) acc l !! k =
    if decide (k ∈ l.*1) then f <$> acc !! k else acc !! k).
  { induction l as [|[a v] l IH]; intros acc Hnd Hacc; cbn [foldl].
    { rewrite decide_False; [done|]. apply not_elem_of_nil. }
    rewrite fmap_cons in *. apply NoDup_cons in Hnd as [Ha Hnd]. simpl in Ha |- *.
    assert (Hav : acc !! a = Some v) by (apply Hacc; left).
    rewrite IH; [|done|].
    - rewrite (decide_ext (k ∈ a :: l.*1) (k = a \/ k ∈ l.*1)) by (by rewrite elem_of_cons).
      destruct (decide (k = a)) as [->|Hka].
      + rewrite decide_False, decide_True by auto. rewrite Hav. simpl. unfold f.
        destruct (share <? v); [by rewrite lookup_insert_eq|done].
      + rewrite (decide_ext (k = a \/ k ∈ l.*1) (k ∈ l.*1)) by naive_solver.
        destruct (share <? v); by rewrite ?lookup_insert_ne.
    - intros k' v' Hk'. assert (k' <> a) by (intros ->; apply Ha; by apply (list_elem_of_fmap_2 fst) in Hk').
      destruct (share <? v); rewrite ?lookup_insert_ne by done; apply Hacc; by right. }
  rewrite Hgen; [|apply go_range_fst_NoDup|intros ? ?; apply elem_of_go_range].
  case_decide as Hk; [done|]. destruct (ws !! k) as [v|] eqn:E; [|done].
  destruct Hk. apply elem_of_go_range with (n := 2%nat) in E. by apply (list_elem_of_fmap_2 fst) in E.
Qed.

Lemma by_weight_perm ws : by_weight ws ≡ₚ (fun e => {| mapID := e.1; weight := e.2 |}) <$> go_range 3 ws.
Proof. apply sort_slice_perm. Qed.

Lemma by_weight_elem ws mw : mw ∈ by_weight ws <-> ws !! mapID mw = Some (weight mw).
Proof.
  rewrite by_weight_perm, list_elem_of_fmap. split.
  - intros ([k v] & -> & Hk). by apply elem_of_go_range in Hk.
  - intros Hk. exists (mapID mw, weight mw). split; [by destruct mw|by apply elem_of_go_range].
Qed.

(** First fit: every map is packed once, no bin is heavier than the share, and
    any two bins together are. *)
Lemma pack_spec ws n :
  (forall k v, ws !! k = Some v -> 0 <= v) ->
  let share := weightPerServer ws n in
  concat (pack ws n) ≡ₚ by_weight (clip share ws) /\
  (forall b, b ∈ pack ws n -> bin_weight b <= share) /\
  (forall i j b c, (i < j)%nat -> pack ws n !! i = Some b -> pack ws n !! j = Some c ->
     share < bin_weight b + bin_weight c).
Proof.
  intros Hws share.
  assert (0 <= share < 2 ^ 32) as Hshare by (apply (wrap_range 32); lia).
  assert (Hw : forall mw, mw ∈ by_weight (clip share ws) -> 0 <= weight mw <= share).
  { intros mw Hmw. apply by_weight_elem in Hmw. rewrite clip_lookup in Hmw.
    apply fmap_Some in Hmw as (v & Hv & ->). apply Hws in Hv.
    destruct (Z.ltb_spec share v); lia. }
  destruct (foldl_place_packed share _ [] [] ltac:(lia) Hw (packed_nil share)) as [Hp Hperm].
  fold share in Hp, Hperm. unfold pack. fold share.
  set (r := foldl (place share) ([], []) (by_weight (clip share ws))) in *.
  assert (Hfree : forall i b, r.2 !! i = Some b -> exists f, r.1 !! i = Some f).
  { intros i b Hb. apply lookup_lt_is_Some_2. rewrite (pk_len _ _ _ Hp). by eapply lookup_lt_Some. }
  split_and!; [by rewrite Hperm, app_nil_r| |].
  - intros b (i & Hb)%list_elem_of_lookup. destruct (Hfree _ _ Hb) as [f Hf].
    destruct (pk_free _ _ _ Hp _ _ _ Hf Hb). lia.
  - intros i j b c Hij Hb Hc. destruct (Hfree _ _ Hb) as [f Hf].
    destruct (pk_free _ _ _ Hp _ _ _ Hf Hb) as [-> _].
    destruct c as [|mw c]; [by apply (pk_ne _ _ _ Hp) in Hc|].
    pose proof (pk_full _ _ _ Hp _ _ _ _ mw Hij Hf Hc ltac:(left)).
    enough (weight mw <= bin_weight (mw :: c)) by lia.
    apply zsum_elem_le; [|left]. intros y Hy.
    enough (0 <= weight y <= share) by lia. apply Hw.
    rewrite app_nil_r in Hperm. rewrite <- Hperm. apply list_elem_of_In, in_concat.
    exists (mw :: c). split; apply list_elem_of_In; [by eapply list_elem_of_lookup_2|done].
Qed.
(** *** Handing the bins to the servers *)
Lemma spread_surplus_spec n bins :
  (0 < n)%nat ->
  concat (spread_surplus n bins) ≡ₚ concat bins /\ (length (spread_surplus n bins) <= n)%nat /\
  ((length bins <= n)%nat -> spread_surplus n bins = bins).
Proof.
  intros Hn. unfold spread_surplus. destruct (Nat.ltb_spec n (length bins)) as [Hlt|Hge]; [|done].
  assert (Hgen : forall l k acc, (k < n)%nat -> length acc = n ->
    concat (foldl (next_server n) (k, acc) l).2 ≡ₚ l ++ concat acc /\
    length (foldl (next_server n) (k, acc) l).2 = n).
  { induction l as [|mw l IH]; intros k acc Hk Hacc; [done|]. cbn [foldl]. unfold next_server at 2 4.
    destruct (IH ((k + 1) mod n)%nat (alter (fun bin => bin ++ [mw]) k acc)) as [-> ->].
    - apply Nat.mod_upper_bound. lia.
    - by rewrite length_alter.
    - split; [|done]. rewrite concat_alter_snoc by lia. symmetry. apply Permutation_middle. }
  destruct (Hgen (concat (drop n bins)) O (take n bins)) as [-> ->]; [lia|rewrite length_take; lia|].
  split_and!; [|lia|lia]. rewrite Permutation_app_comm, <- concat_app. by rewrite take_drop.
Qed.

Lemma assign_spec : forall packing servers, (length packing <= length servers)%nat ->
  (forall s, s ∈ servers -> AssignedMapsToHandle s = []) ->
  (fun s => set_assigned s []) <$> assign packing servers = (fun s => set_assigned s []) <$> servers /\
  (exists rest, AssignedMapsToHandle <$> assign packing servers = (fmap (M:=list) mapID <$> packing) ++ rest /\
     forall l, l ∈ rest -> l = []).
Proof.
  induction packing as [|bin packing IH]; intros [|s servers] Hlen Hnil; cbn [assign length] in *; try lia.
  - split; [done|]. exists []. split; [done|]. by intros l ?%elem_of_nil.
  - split; [done|]. exists (AssignedMapsToHandle <$> s :: servers). split; [done|].
    intros l (x & -> & Hx)%list_elem_of_fmap. by apply Hnil.
  - destruct (IH servers) as (Hs & rest & Hr & Hrest); [lia|intros; apply Hnil; by right|].
    rewrite !fmap_cons, Hs, Hr. split; [done|]. exists rest. split; [|done].
    simpl. by rewrite (Hnil s) by left.
Qed.

(** The whole of one server's assignment. *)
Definition map_keys (ws : MapsWeight) (l : list u32) : Prop :=
  NoDup l /\ forall m, m ∈ l <-> is_Some (ws !! m).

Lemma map_keys_perm ws l k : l ≡ₚ k -> map_keys ws l -> map_keys ws k.
Proof. intros Hp [Hnd Hl]. split; [by rewrite <- Hp|]. intros m. by rewrite <- Hp. Qed.

Lemma go_range_keys n (ws : MapsWeight) : map_keys ws (go_range n ws).*1.
Proof.
  split; [apply go_range_fst_NoDup|]. intros m. rewrite list_elem_of_fmap. split.
  - intros ([k v] & -> & Hk). apply elem_of_go_range in Hk. eauto.
  - intros [v Hv]. exists (m, v). split; [done|]. by apply elem_of_go_range.
Qed.

Lemma greedy_spec ws servers :
  (forall k v, ws !! k = Some v -> 0 <= v) -> (0 < length servers)%nat ->
  (forall s, s ∈ servers -> AssignedMapsToHandle s = []) ->
  let r := greedyBinPackBalancer ws servers in
  (fun s => set_assigned s []) <$> r = (fun s => set_assigned s []) <$> servers /\
  map_keys ws (concat (AssignedMapsToHandle <$> r)) /\
  (forall s, s ∈ r -> StronglySorted Z.le (AssignedMapsToHandle s)).
Proof.
  intros Hws Hn Hnil r. destruct (pack_spec ws (length servers) Hws) as (Hperm & _ & _).
  destruct (spread_surplus_spec _ (pack ws (length servers)) Hn) as (Hsp & Hlen & _).
  destruct (assign_spec _ servers Hlen Hnil) as (Hs & rest & Hr & Hrest).
  unfold r, greedyBinPackBalancer. split_and!.
  - rewrite <- list_fmap_compose. rewrite <- Hs. by apply list_fmap_ext.
  - rewrite <- list_fmap_compose.
    eapply map_keys_perm.
    { symmetry. etrans; [apply (concat_fmap_perm _ AssignedMapsToHandle)|].
      - intros x. simpl. apply sort_slice_perm.
      - rewrite Hr, concat_app, (concat_nils rest Hrest), app_nil_r.
        rewrite <- fmap_concat, Hsp, Hperm. rewrite by_weight_perm, <- list_fmap_compose. reflexivity. }
    assert (Hk : map_keys (clip (weightPerServer ws (length servers)) ws)
      (go_range 3 (clip (weightPerServer ws (length servers)) ws)).*1) by apply go_range_keys.
    destruct Hk as [Hnd Hin]. split; [done|]. intros m. etrans; [apply Hin|].
    rewrite clip_lookup. by rewrite fmap_is_Some.
  - intros s (x & -> & _)%list_elem_of_fmap. simpl. unfold sort_maps.
    apply (sort_slice_sorted id). apply (compares_ltb id).
Qed.
(** *** Loads *)
Definition load (ws : MapsWeight) (s : GameServer) : Z :=
  zsum (fun m => default 0 (ws !! m)) (AssignedMapsToHandle s).

Lemma assign_lookup packing : forall servers i s,
  (forall s, s ∈ servers -> AssignedMapsToHandle s = []) ->
  assign packing servers !! i = Some s ->
  AssignedMapsToHandle s = mapID <$> default [] (packing !! i).
Proof.
  induction packing as [|bin packing IH]; intros [|x servers] i s Hnil; cbn [assign]; try done.
  - intros Hs. rewrite (Hnil s) by (by eapply list_elem_of_lookup_2). by destruct i.
  - destruct i as [|i]; simpl.
    + intros [= <-]. simpl. by rewrite (Hnil x) by left.
    + apply IH. intros; apply Hnil; by right.
Qed.

Lemma greedy_load ws servers i s :
  (forall k v, ws !! k = Some v -> 0 <= v) ->
  (forall s, s ∈ servers -> AssignedMapsToHandle s = []) ->
  let n := length servers in
  (length (pack ws n) <= n)%nat ->
  greedyBinPackBalancer ws servers !! i = Some s ->
  load (clip (weightPerServer ws n) ws) s = bin_weight (default [] (pack ws n !! i)) /\
  (AssignedMapsToHandle s <> [] -> is_Some (pack ws n !! i)).
Proof.
  intros Hws Hnil n Hfit Hs. unfold greedyBinPackBalancer, spread_surplus in Hs. fold n in Hs.
  rewrite (proj2 (Nat.ltb_ge _ _) Hfit) in Hs.
  rewrite list_lookup_fmap in Hs. apply fmap_Some in Hs as (t & Ht & ->).
  apply assign_lookup in Ht; [|done]. unfold load; simpl. unfold sort_maps.
  destruct (pack_spec ws n Hws) as (Hperm & _ & _). rewrite Ht. split.
  - rewrite (zsum_perm _ _ (mapID <$> default [] (pack ws n !! i))) by apply sort_slice_perm.
    rewrite zsum_fmap. apply zsum_ext. intros mw Hmw.
    destruct (pack ws n !! i) as [b|] eqn:Eb; simpl in Hmw; [|by apply elem_of_nil in Hmw].
    assert (mw ∈ by_weight (clip (weightPerServer ws n) ws)) as Hin.
    { rewrite <- Hperm. apply list_elem_of_In, in_concat. exists b.
      split; apply list_elem_of_In; [by eapply list_elem_of_lookup_2|done]. }
    apply by_weight_elem in Hin. by rewrite Hin.
  - intros Hne. destruct (pack ws n !! i); [done|]. simpl in Hne.
    destruct Hne. apply Permutation_nil. symmetry. apply sort_slice_perm.
Qed.

(** While the bins do not outnumber the servers, no server is given more
    than its share - the average load, rounded up - with heavier maps counted
    as one share, and any two servers that both have maps hold more than one
    share together: first fit leaves no bin that could join another. *)
Theorem balanced_shares ws servers i j s t :
  (forall k v, ws !! k = Some v -> 0 <= v) ->
  (forall s, s ∈ servers -> AssignedMapsToHandle s = []) ->
  let n := length servers in
  let share := weightPerServer ws n in
  (length (pack ws n) <= n)%nat -> (i < j)%nat ->
  greedyBinPackBalancer ws servers !! i = Some s ->
  greedyBinPackBalancer ws servers !! j = Some t ->
  load (clip share ws) s <= share /\
  (AssignedMapsToHandle t <> [] -> share < load (clip share ws) s + load (clip share ws) t).
Proof.
  intros Hws Hnil n share Hfit Hij Hs Ht.
  destruct (greedy_load _ _ _ _ Hws Hnil Hfit Hs) as [Hls _].
  destruct (greedy_load _ _ _ _ Hws Hnil Hfit Ht) as [Hlt Hbt].
  fold n share in Hls, Hlt, Hbt. rewrite Hls, Hlt.
  destruct (pack_spec ws n Hws) as (_ & Hle & Hpair). fold share in Hle, Hpair. split.
  - destruct (pack ws n !! i) as [b|] eqn:Eb; simpl; [apply Hle; by eapply list_elem_of_lookup_2|].
    apply (wrap_range 32). lia.
  - intros Hne. destruct (Hbt Hne) as [c Hc].
    destruct (lookup_lt_is_Some_2 (pack ws n) i) as [b Hb]; [apply lookup_lt_Some in Hc; lia|].
    rewrite Hb, Hc. simpl. by eapply Hpair.
Qed.

(** *** The whole distribution *)
Lemma split_spec l : forall ready balance ws,
  foldl split_server (ready, balance, ws) l =
  (ready ++ ((fun s => set_assigned s (AvailableMaps s)) <$> filter (fun s => IsAllMapsAvailable s = false) l),
   balance ++ filter (fun s => IsAllMapsAvailable s = true) l,
   foldl (fun ws m => delete m ws) ws (concat (AvailableMaps <$> filter (fun s => IsAllMapsAvailable s = false) l))).
Proof.
  induction l as [|x l IH]; intros ready balance ws; [by rewrite !app_nil_r|].
  cbn [foldl split_server]. rewrite !filter_cons.
  destruct (IsAllMapsAvailable x) eqn:Ex; rewrite IH; repeat (case_decide; [|try done]); try done.
  - by rewrite <- app_assoc.
  - rewrite !fmap_cons, <- app_assoc. cbn [concat]. by rewrite foldl_app.
Qed.

Lemma deletes_lookup (ms : list u32) : forall (ws : MapsWeight) k,
  foldl (fun ws m => delete m ws) ws ms !! k = if decide (k ∈ ms) then None else ws !! k.
Proof.
  induction ms as [|m ms IH]; intros ws k; cbn [foldl].
  - rewrite decide_False; [done|]. apply not_elem_of_nil.
  - rewrite IH, lookup_delete. repeat case_decide; set_solver.
Qed.

Lemma filter_fmap {A B} (f : A -> B) (P : B -> Prop) `{forall x, Decision (P x)} (l : list A) :
  filter P (f <$> l) = f <$> filter (fun x => P (f x)) l.
Proof.
  induction l as [|x l IH]; [done|]. rewrite fmap_cons, !filter_cons.
  repeat case_decide; try done. rewrite fmap_cons. by f_equal.
Qed.

(** The servers that take any map share out all that is left. *)
Definition share_out (ws : MapsWeight) (servers : list GameServer) : list GameServer :=
  match servers with
  | [] => []
  | [server] => [set_assigned server (sort_maps (AssignedMapsToHandle server ++ (go_range 0 ws).*1))]
  | _ => greedyBinPackBalancer ws servers
  end.

Lemma share_out_spec ws servers :
  (forall k v, ws !! k = Some v -> 0 <= v) ->
  (forall s, s ∈ servers -> AssignedMapsToHandle s = []) ->
  let r := share_out ws servers in
  (fun s => set_assigned s []) <$> r = (fun s => set_assigned s []) <$> servers /\
  (servers <> [] -> map_keys ws (concat (AssignedMapsToHandle <$> r))) /\
  (forall s, s ∈ r -> StronglySorted Z.le (AssignedMapsToHandle s)).
Proof.
  intros Hws Hnil. destruct servers as [|x [|y servers]]; cbn [share_out].
  - split_and!; [done|done|]. by intros s ?%elem_of_nil.
  - rewrite (Hnil x) by left. split_and!; [done| |].
    + intros _. eapply map_keys_perm; [|apply (go_range_keys 0)]. simpl. rewrite app_nil_r.
      symmetry. apply sort_slice_perm.
    + intros s ->%list_elem_of_singleton. simpl. apply (sort_slice_sorted id), (compares_ltb id).
  - destruct (greedy_spec ws (x :: y :: servers) Hws ltac:(simpl; lia) Hnil) as (Hs & Hk & Hsort).
    by split_and!.
Qed.

Lemma Distribute_share_out ws servers :
  let clear := fun s => set_assigned s [] in
  let declared := filter (fun s => IsAllMapsAvailable s = false) servers in
  Distribute ws servers =
    ((fun s => set_assigned s (AvailableMaps s)) <$> declared) ++
    share_out (foldl (fun ws m => delete m ws) ws (concat (AvailableMaps <$> declared)))
      (clear <$> filter (fun s => IsAllMapsAvailable s = true) servers).
Proof.
  intros clear declared. unfold Distribute. fold clear. rewrite split_spec. rewrite !app_nil_l.
  rewrite !filter_fmap. rewrite <- !list_fmap_compose.
  change (filter (fun s => IsAllMapsAvailable (clear s) = false) servers) with declared.
  change (AvailableMaps ∘ clear) with AvailableMaps.
  change ((fun s => set_assigned s (AvailableMaps s)) ∘ clear) with (fun s => set_assigned s (AvailableMaps s)).
  change (filter (fun s => IsAllMapsAvailable (clear s) = true) servers)
    with (filter (fun s => IsAllMapsAvailable s = true) servers).
  destruct (clear <$> _) as [|x [|y l]]; cbn [share_out]; [by rewrite app_nil_r|done..].
Qed.

Lemma filter_bool_perm {A} (f : A -> bool) (l : list A) :
  filter (fun x => f x = false) l ++ filter (fun x => f x = true) l ≡ₚ l.
Proof.
  induction l as [|x l IH]; [done|]. rewrite !filter_cons.
  destruct (f x) eqn:E; repeat (case_decide; [|try congruence]); try congruence; simpl.
  - by rewrite <- Permutation_middle, IH.
  - by rewrite IH.
Qed.

(** No server is lost, and only assignments change. *)
Lemma Distribute_same ws servers :
  (forall k v, ws !! k = Some v -> 0 <= v) ->
  (fun s => set_assigned s []) <$> Distribute ws servers ≡ₚ (fun s => set_assigned s []) <$> servers.
Proof.
  intros Hws. rewrite Distribute_share_out, fmap_app.
  destruct (share_out_spec (foldl (fun ws m => delete m ws) ws (concat (AvailableMaps <$>
    filter (fun s => IsAllMapsAvailable s = false) servers)))
    ((fun s => set_assigned s []) <$> filter (fun s => IsAllMapsAvailable s = true) servers)) as (-> & _ & _).
  - intros k v. rewrite deletes_lookup. case_decide; [done|apply Hws].
  - by intros s (x & -> & _)%list_elem_of_fmap.
  - rewrite <- !list_fmap_compose. rewrite <- (filter_bool_perm IsAllMapsAvailable servers) at 3.
    rewrite fmap_app. done.
Qed.

Lemma filter_all {A} (P : A -> Prop) `{forall x, Decision (P x)} (l : list A) :
  (forall x, x ∈ l -> P x) -> filter P l = l.
Proof.
  induction l as [|x l IH]; intros Hl; [done|]. rewrite filter_cons, decide_True by (apply Hl; left).
  f_equal. apply IH. intros; apply Hl; by right.
Qed.
Lemma filter_none {A} (P : A -> Prop) `{forall x, Decision (P x)} (l : list A) :
  (forall x, x ∈ l -> ~ P x) -> filter P l = [].
Proof.
  induction l as [|x l IH]; intros Hl; [done|]. rewrite filter_cons, decide_False by (apply Hl; left).
  apply IH. intros; apply Hl; by right.
Qed.

(** The open servers' assignments, map by map; the others get what they declared. *)
Lemma Distribute_open ws servers :
  (forall k v, ws !! k = Some v -> 0 <= v) ->
  let balanced := filter (fun s => IsAllMapsAvailable s = true) (Distribute ws servers) in
  (forall s, s ∈ Distribute ws servers -> IsAllMapsAvailable s = false ->
     AssignedMapsToHandle s = AvailableMaps s) /\
  (forall s, s ∈ balanced -> StronglySorted Z.le (AssignedMapsToHandle s)) /\
  (balanced <> [] ->
   let maps := concat (AssignedMapsToHandle <$> balanced) in
   NoDup maps /\
   forall m, m ∈ maps <->
     is_Some (ws !! m) /\ forall s, s ∈ servers -> IsAllMapsAvailable s = false -> m ∉ AvailableMaps s).
Proof.
  intros Hws. rewrite Distribute_share_out. cbv zeta.
  set (clear := fun s => set_assigned s []). set (any := filter (fun s => IsAllMapsAvailable s = true) servers).
  set (declared := filter _ servers). set (ws' := foldl _ _ _).
  assert (Hws' : forall m, ws' !! m = if decide (m ∈ concat (AvailableMaps <$> declared)) then None else ws !! m)
    by (intros; apply deletes_lookup).
  destruct (share_out_spec ws' (clear <$> any)) as (Hc & Hk & Hsort).
  { intros k v. rewrite Hws'. case_decide; [done|apply Hws]. }
  { by intros s (x & -> & _)%list_elem_of_fmap. }
  assert (Hdecl : forall s, s ∈ declared -> IsAllMapsAvailable s = false)
    by (by intros s [? _]%list_elem_of_filter).
  assert (Hopen : forall s, s ∈ share_out ws' (clear <$> any) -> IsAllMapsAvailable s = true).
  { intros s Hs. apply (list_elem_of_fmap_2 clear) in Hs. unfold clear in Hs, Hc. rewrite Hc in Hs.
    apply list_elem_of_fmap in Hs as (x & Hx & (y & -> & Hy)%list_elem_of_fmap).
    apply list_elem_of_filter in Hy as [Hy _]. unfold IsAllMapsAvailable in *.
    by apply (f_equal AvailableMaps) in Hx; simpl in Hx; rewrite Hx. }
  split.
  { intros s [(x & -> & _)%list_elem_of_fmap|Hs]%elem_of_app; [done|]. by rewrite (Hopen s Hs). }
  rewrite filter_app, filter_none, (filter_all _ (share_out _ _)); [|exact Hopen|].
  2:{ intros s (x & -> & Hx)%list_elem_of_fmap Ht. apply Hdecl in Hx.
      change (IsAllMapsAvailable x = true) in Ht. congruence. }
  rewrite app_nil_l. split; [done|]. intros Hne.
  destruct Hk as [Hnd Hin]. { intros E. apply Hne. by rewrite E. }
  split; [done|]. intros m. rewrite Hin, Hws'.
  case_decide as Hd; rewrite elem_of_concat in Hd; setoid_rewrite list_elem_of_fmap in Hd.
  - destruct Hd as (l & (s & -> & Hs) & Hm). apply list_elem_of_filter in Hs as [Hd Hs].
    split; [by intros [? ?]|]. intros [_ Hall]. by destruct (Hall s Hs Hd).
  - assert (forall s, s ∈ servers -> IsAllMapsAvailable s = false -> m ∉ AvailableMaps s).
    { intros s Hs Hd' Hm. apply Hd. exists (AvailableMaps s). split; [|done]. exists s. split; [done|].
      by apply list_elem_of_filter. }
    naive_solver.
Qed.

(** C4: every map of the weight table that no server declared for itself is
    assigned to exactly one of the servers that take any map (when there is
    one); their lists are sorted, a server with declared maps gets exactly
    those, and no server is lost or changed otherwise. *)
Theorem Distribute_partition ws servers :
  (forall k v, ws !! k = Some v -> 0 <= v) ->
  let balanced := filter (fun s => IsAllMapsAvailable s = true) (Distribute ws servers) in
  let maps := concat (AssignedMapsToHandle <$> balanced) in
  (fun s => set_assigned s []) <$> Distribute ws servers ≡ₚ (fun s => set_assigned s []) <$> servers /\
  (forall s, s ∈ Distribute ws servers -> IsAllMapsAvailable s = false ->
     AssignedMapsToHandle s = AvailableMaps s) /\
  (forall s, s ∈ balanced -> StronglySorted Z.le (AssignedMapsToHandle s)) /\
  (balanced <> [] ->
   NoDup maps /\
   forall m, m ∈ maps <->
     is_Some (ws !! m) /\ forall s, s ∈ servers -> IsAllMapsAvailable s = false -> m ∉ AvailableMaps s).
Proof. intros Hws balanced maps. split; [by apply Distribute_same|by apply Distribute_open]. Qed.
End Packing.

(** ** Witnesses *)
#[local] Existing Instances map_range_canonical sort_slice_insertion.
Definition sample_weights : MapsWeight := list_to_map [(1, 3); (0, 1); (3, 2)].

Lemma sample_weights_nonneg k v : sample_weights !! k = Some v -> 0 <= v.
Proof.
  intros Hv. apply elem_of_list_to_map_2 in Hv.
  rewrite !elem_of_cons in Hv. destruct Hv as [|[|[|Hv]]]; [simplify_eq; lia..|by apply elem_of_nil in Hv].
Qed.

(** Maps 0 and 3 go to the two open servers, map 1 to the one that declared it. *)
Lemma Distribute_partition_witness :
  let r := Distribute sample_weights [sample_gs []; sample_gs []; sample_gs [1]] in
  AssignedMapsToHandle <$> r = [[1]; [3]; [0]] /\
  (forall m, m ∈ concat (AssignedMapsToHandle <$> filter (fun s => IsAllMapsAvailable s = true) r) <->
     is_Some (sample_weights !! m) /\ m <> 1).
Proof.
  intros r. split; [vm_compute; reflexivity|].
  destruct (Distribute_partition sample_weights [sample_gs []; sample_gs []; sample_gs [1]]
    sample_weights_nonneg) as (_ & _ & _ & Hall).
  destruct (Hall ltac:(vm_compute; discriminate)) as [_ Hin].
  intros m. etrans; [apply Hin|]. apply and_iff_compat_l. split.
  - intros Hm ->. apply (Hm (sample_gs [1])); [right; right; left|reflexivity|left].
  - intros Hm s Hs Hf Hms. rewrite !elem_of_cons in Hs. destruct Hs as [->|[->|[->|Hs]]].
    + discriminate Hf.
    + discriminate Hf.
    + change (m ∈ [1]) in Hms. apply list_elem_of_singleton in Hms. exact (Hm Hms).
    + by apply elem_of_nil in Hs.
Defined.

(** Shares of 3: map 1 alone, maps 0 and 3 together. *)
Lemma balanced_shares_witness :
  exists s t, greedyBinPackBalancer sample_weights [sample_gs []; sample_gs []] = [s; t] /\
    load (clip 3 sample_weights) s <= 3 < load (clip 3 sample_weights) s + load (clip 3 sample_weights) t.
Proof.
  exists (set_assigned (sample_gs []) [1]), (set_assigned (sample_gs []) [0; 3]).
  split; [vm_compute; reflexivity|].
  destruct (balanced_shares sample_weights [sample_gs []; sample_gs []] 0 1
    (set_assigned (sample_gs []) [1]) (set_assigned (sample_gs []) [0; 3]) sample_weights_nonneg)
    as [Hs Ht].
  - intros s Hs. rewrite !elem_of_cons in Hs. destruct Hs as [->|[->|Hs]]; [done..|by apply elem_of_nil in Hs].
  - vm_compute. lia.
  - lia.
  - vm_compute. reflexivity.
  - vm_compute. reflexivity.
  - assert (weightPerServer sample_weights (length [sample_gs []; sample_gs []]) = 3) as E by (vm_compute; reflexivity).
    rewrite E in Hs, Ht. split; [exact Hs|apply Ht; discriminate].
Defined.

(** ** the weight table the registry is started with
    (apps/servers-registry/mapbalancing/binpack/weights.go) *)
Definition default_weights : list (u32 * u32) := [
  (0, 100); (1, 100); (30, 1); (33, 1); (34, 1); (36, 1); (43, 1); (47, 1); (48, 1); (70, 1);
  (90, 1); (109, 1); (129, 1); (189, 1); (209, 1); (229, 1); (230, 1); (249, 1); (269, 1);
  (289, 1); (309, 1); (329, 1); (349, 1); (369, 1); (389, 1); (409, 1); (429, 1); (449, 1);
  (450, 1); (451, 1); (469, 1); (489, 1); (509, 1); (529, 1); (530, 50); (531, 1); (532, 1);
  (533, 1); (534, 1); (540, 1); (542, 1); (543, 1); (544, 1); (545, 1); (546, 1); (547, 1);
  (548, 1); (550, 1); (552, 1); (553, 1); (554, 1); (555, 1); (556, 1); (557, 1); (558, 1);
  (559, 1); (560, 1); (562, 1); (564, 1); (565, 1); (566, 1); (568, 1); (571, 120); (572, 1);
  (574, 1); (575, 1); (576, 1); (578, 1); (580, 1); (582, 1); (584, 1); (585, 1); (586, 1);
  (587, 1); (588, 1); (589, 1); (590, 1); (591, 1); (593, 1); (594, 1); (595, 1); (599, 1);
  (600, 1); (601, 1); (602, 1); (603, 2); (604, 1); (607, 1); (608, 1); (609, 2); (610, 1);
  (612, 1); (613, 1); (614, 1); (615, 1); (616, 1); (617, 1); (618, 1); (619, 1); (620, 1);
  (621, 1); (622, 1); (623, 1); (624, 1); (628, 1); (631, 1); (632, 1); (641, 1); (642, 1);
  (647, 1); (649, 1); (650, 1); (658, 1); (668, 1); (672, 1); (673, 1); (712, 1); (713, 1);
  (724, 1)].
Definition DefaultMapsWeight : MapsWeight := list_to_map default_weights.

(** The maps that servers declared for themselves are taken out. *)
Definition without (ms : list u32) (ws : MapsWeight) : MapsWeight := foldl (fun ws m => delete m ws) ws ms.

Section Totals.
Context `{MapRange}.

Lemma total_loop (l : list (u32 * u32)) : forall acc,
  0 <= acc -> (forall e, e ∈ l -> 0 <= e.2) -> acc + zsum snd l < 2 ^ 32 ->
  foldl (fun total e => wrap32 (total + e.2)) acc l = acc + zsum snd l.
Proof.
  induction l as [|e l IH]; intros acc Ha Hl Hb; [cbn; lia|].
  change (zsum snd (e :: l)) with (e.2 + zsum snd l) in *. cbn [foldl].
  assert (0 <= e.2) by (apply Hl; left).
  assert (Hl' : forall e, e ∈ l -> 0 <= e.2) by (intros; apply Hl; by right).
  assert (0 <= zsum snd l) by (by apply zsum_nonneg).
  rewrite wrap_small by word_lia. rewrite IH; [lia|lia|done|lia].
Qed.

Definition weight_sum (ws : MapsWeight) : Z := zsum snd (map_to_list ws).

Lemma totalWeight_exact (ws : MapsWeight) :
  (forall k v, ws !! k = Some v -> 0 <= v) -> weight_sum ws < 2 ^ 32 -> totalWeight ws = weight_sum ws.
Proof.
  intros Hws Hb. unfold totalWeight, weight_sum in *. rewrite <- (go_range_perm 1 ws) in Hb |- *.
  rewrite total_loop; [lia|lia| |lia]. intros [k v] He. apply elem_of_go_range in He. by eapply Hws.
Qed.

Lemma weight_sum_nonneg ws : (forall k v, ws !! k = Some v -> 0 <= v) -> 0 <= weight_sum ws.
Proof. intros Hws. apply zsum_nonneg. intros [k v] He%elem_of_map_to_list. by eapply Hws. Qed.

Lemma weight_sum_delete m ws : (forall k v, ws !! k = Some v -> 0 <= v) ->
  weight_sum (delete m ws) <= weight_sum ws.
Proof.
  intros Hws. destruct (ws !! m) as [v|] eqn:E.
  - pose proof (zsum_perm snd _ _ (map_to_list_delete ws m v E)) as Hp.
    change (v + weight_sum (delete m ws) = weight_sum ws) in Hp. specialize (Hws _ _ E). lia.
  - by rewrite delete_id.
Qed.

Lemma without_weights ms : forall ws, (forall k v, ws !! k = Some v -> 0 <= v) ->
  (forall k v, without ms ws !! k = Some v -> 0 <= v) /\ weight_sum (without ms ws) <= weight_sum ws.
Proof.
  induction ms as [|m ms IH]; intros ws Hws; [done|]. cbn [without foldl].
  destruct (IH (delete m ws)) as [Hn Hs].
  - intros k v [_ Hk]%lookup_delete_Some. by eapply Hws.
  - split; [done|]. pose proof (weight_sum_delete m ws Hws). unfold without in Hs. lia.
Qed.

Lemma default_nonneg k v : DefaultMapsWeight !! k = Some v -> 0 <= v.
Proof.
  intros Hk. apply elem_of_list_to_map_2 in Hk.
  assert (Hall : Forall (fun e : u32 * u32 => 0 <= e.2) default_weights) by (by repeat constructor).
  rewrite Forall_forall in Hall. exact (Hall _ Hk).
Qed.

Lemma default_total : weight_sum DefaultMapsWeight = 487.
Proof. vm_compute. reflexivity. Qed.

(** The float64 quotient rounded up is the integer quotient rounded up, for
    every total the table can have and up to 8 servers. *)
Definition share_exact (total n : Z) : bool :=
  wrap32 (sf_ceil (f64_div (f64_of_int total) (f64_of_int n))) =? (total + n - 1) / n.
Lemma share_exact_all :
  forallb (fun total => forallb (share_exact total) (seqZ 1 8)) (seqZ 0 488) = true.
Proof. vm_compute. reflexivity. Qed.

(** With the production table, whatever maps the servers declared for
    themselves, the 32-bit sum of the remaining weights never wraps and the
    share computed in float64 is their average over the servers rounded up,
    for up to 8 servers. *)
Theorem production_share_exact (declared : list u32) (servers : nat) :
  (1 <= servers <= 8)%nat ->
  let ws := without declared DefaultMapsWeight in
  totalWeight ws = weight_sum ws /\ weight_sum ws <= 487 /\
  weightPerServer ws servers = (weight_sum ws + Z.of_nat servers - 1) / Z.of_nat servers.
Proof.
  intros Hn ws. destruct (without_weights declared _ default_nonneg) as [Hws Hle]. fold ws in Hws, Hle.
  rewrite default_total in Hle. pose proof (weight_sum_nonneg ws Hws) as H0.
  assert (Ht : totalWeight ws = weight_sum ws) by (apply totalWeight_exact; [done|lia]).
  split_and!; [done..|]. unfold weightPerServer. rewrite Ht.
  pose proof share_exact_all as Hall. rewrite forallb_forall in Hall.
  specialize (Hall (weight_sum ws)). rewrite forallb_forall in Hall.
  apply Z.eqb_eq, Hall; apply list_elem_of_In, elem_of_seqZ; lia.
Qed.
End Totals.

#[local] Existing Instance map_range_canonical.
(** One server took maps 0 and 1; 287 remain for three. *)
Lemma production_share_exact_witness :
  weight_sum (without [0; 1] DefaultMapsWeight) = 287 /\
  weightPerServer (without [0; 1] DefaultMapsWeight) 3 = 96.
Proof.
  assert (Hs : weight_sum (without [0; 1] DefaultMapsWeight) = 287) by (vm_compute; reflexivity).
  split; [exact Hs|].
  destruct (production_share_exact [0; 1] 3) as (_ & _ & Hw); [lia|]. rewrite Hw, Hs. reflexivity.
Defined.
