(* ===== verification/Registry.v ===== *)
(** * Registry: the state of the servers registry, its health checker and
    metrics consumer (shared/healthandmetrics/health-checker.go,
    metrics-reader.go) and its events (shared/events/events-serversregistry.go)

    Both services share one health checker and one metrics consumer; those
    hold pointers to the server structs, told apart by their addresses. *)
From S2P Require Import Prelude GoRuntime GoStrings GameServerRepo GatewayRepo.

(** ** Events *)
Record EventGameServer := {
  e_ID : string; e_Address : string; e_RealmID : u32; e_IsCrossRealm : bool;
  e_AvailableMaps : list u32; OldAssignedMapsToHandle : list u32; NewAssignedMapsToHandle : list u32
}.

(** The elements of the first list that the second does not have. *)
Definition only_in (l k : list u32) : list u32 := filter (fun m => existsb (Z.eqb m) k = false) l.
Definition OnlyNewMaps (s : EventGameServer) : list u32 :=
  only_in (NewAssignedMapsToHandle s) (OldAssignedMapsToHandle s).
Definition OnlyRemovedMaps (s : EventGameServer) : list u32 :=
  only_in (OldAssignedMapsToHandle s) (NewAssignedMapsToHandle s).

Lemma elem_of_only_in l k m : m ∈ only_in l k <-> m ∈ l /\ m ∉ k.
Proof.
  unfold only_in. rewrite list_elem_of_filter, <- not_true_iff_false, existsb_exists.
  setoid_rewrite Z.eqb_eq. setoid_rewrite <- list_elem_of_In. naive_solver.
Qed.

Inductive sr_event :=
| GWAdded (gid address healthCheckAddr : string) (realmID : u32)
| GWRemovedUnhealthy (gid address healthCheckAddr : string) (realmID : u32)
| GSMapsReassigned (servers : list EventGameServer)
| GSAdded (server : EventGameServer)
| GSRemoved (server : EventGameServer).

Definition SubjectName (e : sr_event) : string :=
  match e with
  | GWAdded _ _ _ _ => "sr.gw.added"
  | GWRemovedUnhealthy _ _ _ _ => "sr.gw.removed.unhealthy"
  | GSMapsReassigned _ => "sr.gs.maps.reassigned"
  | GSAdded _ => "sr.gs.added"
  | GSRemoved _ => "sr.gs.removed"
  end.

(** ** State *)
Inductive observed := OGameServer (p : nat) | OGateway (p : nat).

Record registry (D G : Type) := {
  gs_store : D;                        (* what the game server repository keeps *)
  gw_store : G;                        (* what the gateway repository keeps *)
  gs_heap : gmap nat GameServer;       (* the structs behind the pointers *)
  gw_heap : gmap nat GatewayServer;
  next_gs : nat; next_gw : nat;
  checked : list observed;             (* healthChecker.objects *)
  measured : list observed             (* metricsConsumerImpl.objects *)
}.
Arguments gs_store {D G} _. Arguments gw_store {D G} _. Arguments gs_heap {D G} _.
Arguments gw_heap {D G} _. Arguments next_gs {D G} _. Arguments next_gw {D G} _.
Arguments checked {D G} _. Arguments measured {D G} _.

Section State.
Context {D G : Type}.
Implicit Types r : registry D G.

Definition with_gs_store (d : D) r : registry D G :=
  {| gs_store := d; gw_store := gw_store r; gs_heap := gs_heap r; gw_heap := gw_heap r;
     next_gs := next_gs r; next_gw := next_gw r; checked := checked r; measured := measured r |}.
Definition with_gw_store (g : G) r : registry D G :=
  {| gs_store := gs_store r; gw_store := g; gs_heap := gs_heap r; gw_heap := gw_heap r;
     next_gs := next_gs r; next_gw := next_gw r; checked := checked r; measured := measured r |}.
Definition with_gs_heap (h : gmap nat GameServer) (n : nat) r : registry D G :=
  {| gs_store := gs_store r; gw_store := gw_store r; gs_heap := h; gw_heap := gw_heap r;
     next_gs := n; next_gw := next_gw r; checked := checked r; measured := measured r |}.
Definition with_gw_heap (h : gmap nat GatewayServer) (n : nat) r : registry D G :=
  {| gs_store := gs_store r; gw_store := gw_store r; gs_heap := gs_heap r; gw_heap := h;
     next_gs := next_gs r; next_gw := n; checked := checked r; measured := measured r |}.
Definition with_checked (l : list observed) r : registry D G :=
  {| gs_store := gs_store r; gw_store := gw_store r; gs_heap := gs_heap r; gw_heap := gw_heap r;
     next_gs := next_gs r; next_gw := next_gw r; checked := l; measured := measured r |}.
Definition with_measured (l : list observed) r : registry D G :=
  {| gs_store := gs_store r; gw_store := gw_store r; gs_heap := gs_heap r; gw_heap := gw_heap r;
     next_gs := next_gs r; next_gw := next_gw r; checked := checked r; measured := l |}.

(** [object.HealthCheckAddress()] and [MetricsAddress()], the same field. *)
Definition address_of r (o : observed) : string :=
  match o with
  | OGameServer p => default "" (HealthCheckAddress <$> gs_heap r !! p)
  | OGateway p => default "" (gw_HealthCheckAddress <$> gw_heap r !! p)
  end.

Definition add_observed r (objects : list observed) (o : observed) : list observed :=
  if existsb (fun x => String.eqb (address_of r x) (address_of r o)) objects then objects
  else objects ++ [o].
Fixpoint remove_observed r (objects : list observed) (o : observed) : list observed :=
  match objects with
  | [] => []
  | x :: objects =>
    if String.eqb (address_of r x) (address_of r o) then objects else x :: remove_observed r objects o
  end.

Abbreviation M A := (go (registry D G) sr_event registry_err A).

Definition AddHealthCheckObject (o : observed) : M unit :=
  modify (fun r => with_checked (add_observed r (checked r) o) r).
Definition RemoveHealthCheckObject (o : observed) : M unit :=
  modify (fun r => with_checked (remove_observed r (checked r) o) r).
Definition AddMetricsObservable (o : observed) : M unit :=
  modify (fun r => with_measured (add_observed r (measured r) o) r).
Definition RemoveMetricsObservable (o : observed) : M unit :=
  modify (fun r => with_measured (remove_observed r (measured r) o) r).

(** An address is watched once. *)
Lemma add_observed_once r objects o :
  NoDup (address_of r <$> objects) -> NoDup (address_of r <$> add_observed r objects o).
Proof.
  intros Hnd. unfold add_observed. destruct (existsb _ _) eqn:E; [done|].
  rewrite fmap_app. apply NoDup_app. split_and!; [done| |apply NoDup_singleton].
  intros a Ha ->%list_elem_of_singleton. apply list_elem_of_fmap in Ha as (x & Hx & Hin).
  rewrite <- not_true_iff_false, existsb_exists in E. apply E. exists x.
  rewrite <- list_elem_of_In. split; [done|]. by apply String.eqb_eq.
Qed.
End State.
