(* ===== verification/GameServers.v ===== *)
(** * GameServers: the game server service of the registry
    (apps/servers-registry/service/game-server.go)

    The service is written against the interface [GameServerRepo]; its
    theorems use only the contract [GameServerRepoLaws], which the Redis
    repository fulfils. *)
From S2P Require Import Prelude GoRuntime GoStrings GameServerRepo GatewayRepo BinPack Registry.

(** A reading of a server's metrics. *)
Record MetricsRead := {
  m_ActiveConnections : int; DelayMean : int; DelayMedian : int; Delay95Percentile : int;
  Delay99Percentile : int; DelayMax : int
}.

Section Service.
Context {D G : Type} `{MapRange} `{SortSlice} `{GameServerRepo D sr_event}.
(** The balancer's weights: [NewBinPackBalancer(weights)]. *)
Variable weights : MapsWeight.

Abbreviation M A := (go (registry D G) sr_event registry_err A).

Definition repo {A} (m : go D sr_event registry_err A) : M A := zoom gs_store with_gs_store m.
Definition emit (e : sr_event) : M unit := log_err (publish ErrBus e).

Definition load_gs (p : nat) : M GameServer := r ← gets id; deref (gs_heap r !! p).
Definition store_gs (p : nat) (g : GameServer) : M unit :=
  modify (fun r => with_gs_heap (<[p := g]> (gs_heap r)) (next_gs r) r).
Definition alloc_gs (g : GameServer) : M nat :=
  r ← gets id;
  modify (fun r => with_gs_heap (<[next_gs r := g]> (gs_heap r)) (S (next_gs r)) r) ;;
  mret (next_gs r).

Definition ListForRealm (realmID : u32) : M (list GameServer) := repo (ListByRealm realmID).
Definition ListOfCross : M (list GameServer) := repo ListOfCrossRealms.
Definition ListAllServers : M (list GameServer) := repo ListAll.

Definition list_for (server : GameServer) : M (list GameServer) :=
  if IsCrossRealm server then ListOfCross else ListForRealm (RealmID server).

Definition with_id (gid : string) (l : list GameServer) : option GameServer :=
  List.find (fun g => String.eqb (ID g) gid) l.

(** The events are built without [IsCrossRealm]. *)
Definition reassigned_event (serversBefore : list GameServer) (d : GameServer) : EventGameServer :=
  {| e_ID := ID d; e_Address := Address d; e_RealmID := RealmID d; e_IsCrossRealm := false;
     e_AvailableMaps := AvailableMaps d;
     OldAssignedMapsToHandle :=
       match with_id (ID d) serversBefore with Some s => AssignedMapsToHandle s | None => [] end;
     NewAssignedMapsToHandle := AssignedMapsToHandle d |}.

Definition mark_pending (res : list EventGameServer) (d : GameServer) : GameServer :=
  match List.find (fun e => String.eqb (e_ID e) (ID d)) res with
  | Some server =>
    if (0 <? length (OldAssignedMapsToHandle server))%nat then set_pending d (OnlyNewMaps server) else d
  | None => d
  end.

Fixpoint upsert_all (res : list EventGameServer) (distributed : list GameServer) : M (list GameServer) :=
  match distributed with
  | [] => mret []
  | d :: distributed =>
    let d := normal (mark_pending res d) in
    repo (Upsert d) ;;
    rest ← upsert_all res distributed;
    mret (d :: rest)
  end.

Definition distributeMapsToServers (servers : list GameServer) : M (list GameServer) :=
  let serversBefore := Copy <$> servers in
  let distributed := Distribute weights servers in
  let res := reassigned_event serversBefore <$> distributed in
  distributed ← upsert_all res distributed;
  wrap_err ErrWrap (publish ErrBus (GSMapsReassigned res)) ;;
  mret distributed.

Definition added_event (s : GameServer) (old : list u32) : EventGameServer :=
  {| e_ID := ID s; e_Address := Address s; e_RealmID := RealmID s; e_IsCrossRealm := IsCrossRealm s;
     e_AvailableMaps := AvailableMaps s; OldAssignedMapsToHandle := old;
     NewAssignedMapsToHandle := AssignedMapsToHandle s |}.

(** The argument is the pointer to the server's struct. *)
Definition Register (p : nat) : M unit :=
  server ← load_gs p;
  store_gs p (set_available server (sort_slice Z.leb (AvailableMaps server))) ;;
  AddHealthCheckObject (OGameServer p) ;;
  AddMetricsObservable (OGameServer p) ;;
  server ← load_gs p;
  store_gs p (normal server) ;;
  repo (Upsert (normal server)) ;;
  server ← load_gs p;
  wsList ← list_for server;
  res ← wrap_err ErrWrap (distributeMapsToServers wsList);
  (match with_id (ID server) res with
   | Some gameServer => store_gs p (set_assigned server (AssignedMapsToHandle gameServer))
   | None => mret tt
   end) ;;
  server ← load_gs p;
  emit (GSAdded (added_event server [])).

Definition AvailableForMapAndRealm (mapID realmID : u32) (isCrossRealm : bool) : M (list GameServer) :=
  servers ← (if isCrossRealm then ListOfCross else ListForRealm realmID);
  mret (filter (fun server => CanHandleMap server mapID = true) servers).

(** [choice] is what [rand.Intn] returns, below the number of servers. *)
Definition RandomServerForRealm (realmID : u32) (choice : nat) : M (option GameServer) :=
  servers ← ListForRealm realmID;
  if (length servers =? 0)%nat then mret None
  else server ← deref (servers !! choice); mret (Some server).

Definition MapsLoadedForServer (serverID : string) (maps : list u32) : M GameServer :=
  o ← repo (One serverID);
  server ← not_nil ErrServerNotFound o;
  let server := normal (set_pending server (only_in (AssignedButPendingMaps server) maps)) in
  repo (Upsert server) ;;
  mret server.

Definition onServerUnhealthy (p : nat) : M unit :=
  server ← load_gs p;
  removed ← try_err (repo (Remove (ID server)));
  match removed with
  | None => mret tt
  | Some _ =>
    emit (GSRemoved (added_event server (AssignedMapsToHandle server))) ;;
    RemoveMetricsObservable (OGameServer p) ;;
    wsList ← try_err (list_for server);
    match wsList with
    | None => mret tt
    | Some wsList => _ ← try_err (distributeMapsToServers wsList); mret tt
    end
  end.

Definition onMetricsUpdate (p : nat) (m : MetricsRead) : M unit :=
  server ← load_gs p;
  log_err (repo (Update (ID server) (fun s =>
    set_metrics s (wrap32 (m_ActiveConnections m))
      {| Mean := wrap32 (DelayMean m); Median := wrap32 (DelayMedian m);
         Percentile95 := wrap32 (Delay95Percentile m); Percentile99 := wrap32 (Delay99Percentile m);
         Max := wrap32 (DelayMax m) |}))).

(** A failed health check: the object is forgotten, then the service told. *)
Definition handleFailedCheck (p : nat) : M unit :=
  RemoveHealthCheckObject (OGameServer p) ;; onServerUnhealthy p.

Fixpoint watch_all (servers : list GameServer) : M unit :=
  match servers with
  | [] => mret tt
  | g :: servers =>
    p ← alloc_gs g;
    AddHealthCheckObject (OGameServer p) ;; AddMetricsObservable (OGameServer p) ;;
    watch_all servers
  end.

Fixpoint watch_realms (supportedRealmIDs : list u32) : M unit :=
  match supportedRealmIDs with
  | [] => mret tt
  | id :: ids => servers ← repo (ListByRealm id); watch_all servers ;; watch_realms ids
  end.

Definition NewGameServer (supportedRealmIDs : list u32) : M unit :=
  watch_realms supportedRealmIDs ;;
  servers ← repo ListOfCrossRealms;
  watch_all servers.
End Service.

(** ** The distribution, through the repository's contract *)
Section Theorems.
Context {D G : Type} `{MapRange} `{SortSlice} `{GameServerRepoLaws D sr_event}.
Variable weights : MapsWeight.
Hypothesis weights_nonneg : forall k v, weights !! k = Some v -> 0 <= v.
Abbreviation M A := (go (registry D G) sr_event registry_err A).
Implicit Types s : sys (registry D G) sr_event.

Definition stored s (gid : string) : option GameServer := listed (gs_store (st s)) gid.
Definition store_ok s : Prop := consistent (gs_store (st s)).

Lemma repo_ok {A} (m : go D sr_event registry_err A) s a s' :
  repo m s = (Ok a, s') ->
  exists s1 : sys D sr_event, m (Sys (gs_store (st s)) (faults s) (events s)) = (Ok a, s1) /\
    st s' = with_gs_store (st s1) (st s) /\ events s' = events s1.
Proof. intros Hr. apply zoom_ok in Hr as (s1 & Hm & Hst & _ & Hev). eauto. Qed.

Lemma emit_ok' e s u s' :
  (emit e : M unit) s = (Ok u, s') ->
  st s' = st s /\ (events s' = events s ++ [e] \/ events s' = events s).
Proof.
  unfold emit, log_err, publish, ext.
  destruct (faults s) as [|[] ?]; intros Hrun; simplify_eq/=; eauto.
Qed.

(** A stored server keeps its identity, whatever else changes. *)
Lemma normal_stored d gid old g :
  consistent d -> listed d gid = Some old -> ID g = ID old -> Address g = Address old -> normal g = g.
Proof.
  intros Hc Hl Hid Haddr. destruct (listed_id _ _ _ Hc Hl) as [_ Hn].
  destruct (normal_local g old Hid Haddr) as [E1 E2]. rewrite Hn in E1, E2.
  destruct (normal_spec g) as (i & a & Hg). rewrite Hg in *. simpl in *.
  subst. rewrite <- Hid, <- Haddr. by destruct g.
Qed.

Lemma mark_pending_fields res d :
  exists l, mark_pending res d = set_pending d l.
Proof.
  unfold mark_pending. destruct (List.find _ _); [|exists (AssignedButPendingMaps d); by destruct d].
  destruct (_ <? _)%nat; [eauto|exists (AssignedButPendingMaps d); by destruct d].
Qed.

(** Every server of [ds] updates a stored one. *)
Definition updates s (d : GameServer) : Prop :=
  exists old, stored s (ID d) = Some old /\ Address d = Address old /\ same_list old d.

Lemma upsert_all_ok res ds : forall s out s',
  store_ok s -> NoDup (ID <$> ds) -> (forall d, d ∈ ds -> updates s d) ->
  upsert_all res ds s = (Ok out, s') ->
  out = mark_pending res <$> ds /\ store_ok s' /\ events s' = events s /\
  (exists d', st s' = with_gs_store d' (st s)) /\
  (forall g, g ∈ out -> stored s' (ID g) = Some g) /\
  (forall gid, gid ∉ ID <$> ds -> stored s' gid = stored s gid).
Proof.
  induction ds as [|d ds IH]; intros s out s' Hok Hnd Hup Hrun; cbn [upsert_all] in Hrun; inv_ok.
  - split_and!; try done; [exists (gs_store (st s)); by destruct (st s)|by intros g ?%elem_of_nil].
  - rewrite fmap_cons in Hnd. apply NoDup_cons in Hnd as [Hd Hnd].
    destruct (Hup d ltac:(left)) as (old & Hold & Haddr & Hsame).
    destruct (mark_pending_fields res d) as [l Hl].
    assert (Hn : normal (mark_pending res d) = mark_pending res d).
    { destruct (listed_id _ _ _ Hok Hold) as [Hid _].
      eapply normal_stored; [exact Hok|exact Hold|rewrite Hl; by symmetry|by rewrite Hl]. }
    rewrite Hn in *.
    apply repo_ok in Hrun0 as (s2 & Hu & Hst & Hev).
    rewrite <- Hn in Hu. apply Upsert_law in Hu as (Hok1 & Hev1 & Hl1); [|exact Hok|].
    2:{ rewrite Hn, Hl. simpl. intros o Ho. unfold stored in Hold. rewrite Hold in Ho. by injection Ho as <-. }
    rewrite Hn in Hl1. simpl in Hev1, Hl1.
    assert (Hidm : ID (mark_pending res d) = ID d) by (by rewrite Hl).
    assert (Hs0 : forall gid, stored s0 gid = if decide (gid = ID d) then Some (mark_pending res d) else stored s gid).
    { intros gid. unfold stored. rewrite Hst. simpl. rewrite Hl1, Hidm. done. }
    destruct (IH s0 a0 s1) as (-> & Hok' & Hev' & (d' & Hd') & Hin & Hout); [|done| |done|].
    { unfold store_ok. by rewrite Hst. }
    { intros x Hx. destruct (Hup x ltac:(by right)) as (o & Ho & Hox). exists o. split; [|done].
      rewrite Hs0, decide_False; [done|]. intros E. apply Hd. rewrite <- E. by apply list_elem_of_fmap_2. }
    split_and!; [done|done|congruence| | |].
    + exists d'. rewrite Hd', Hst. done.
    + intros g [->|Hg]%elem_of_cons; [|by apply Hin].
      rewrite Hidm, Hout, Hs0, decide_True by done. done.
    + intros gid Hgid. rewrite fmap_cons, not_elem_of_cons in Hgid. destruct Hgid as [Hne Hgid].
      by rewrite Hout, Hs0, decide_False.
Qed.

(** The servers of a realm (or the cross-realm ones) as they are stored. *)
Definition member s (realmID : u32) (cross : bool) (g : GameServer) : Prop :=
  stored s (ID g) = Some g /\ in_list realmID cross g.
(** [l] lists them, each once. *)
Definition lists s (realmID : u32) (cross : bool) (l : list GameServer) : Prop :=
  NoDup (ID <$> l) /\ forall g, g ∈ l <-> member s realmID cross g.

Lemma lists_lookup s r c l gid g :
  store_ok s -> lists s r c l -> stored s gid = Some g -> in_list r c g -> g ∈ l.
Proof.
  intros Hok [_ Hl] Hg Hin. apply Hl. split; [|done].
  destruct (listed_id _ _ _ Hok Hg) as [-> _]. exact Hg.
Qed.

Lemma ID_clear (l k : list GameServer) :
  (fun g => set_assigned g []) <$> l ≡ₚ (fun g => set_assigned g []) <$> k -> ID <$> l ≡ₚ ID <$> k.
Proof.
  intros Hp. apply (fmap_Permutation ID) in Hp. by rewrite <- !list_fmap_compose in Hp.
Qed.

(** After a distribution over a realm's servers the same servers are listed,
    with the balancer's assignments. *)
Lemma distribute_ok s r c l out s' :
  store_ok s -> lists s r c l ->
  distributeMapsToServers weights l s = (Ok out, s') ->
  out = mark_pending (reassigned_event l <$> Distribute weights l) <$> Distribute weights l /\
  store_ok s' /\ lists s' r c out /\ (exists d', st s' = with_gs_store d' (st s)) /\
  (forall gid, gid ∉ ID <$> l -> stored s' gid = stored s gid) /\ ID <$> out ≡ₚ ID <$> l.
Proof.
  intros Hok [Hnd Hl] Hrun. unfold distributeMapsToServers in Hrun.
  assert (Hc : Copy <$> l = l) by apply list_fmap_id. rewrite Hc in Hrun. inv_ok.
  pose proof (Distribute_same weights l weights_nonneg) as Hsame.
  pose proof (ID_clear _ _ Hsame) as Hids.
  assert (Hfrom : forall d, d ∈ Distribute weights l -> exists h, h ∈ l /\ set_assigned d [] = set_assigned h []).
  { intros d Hd. apply (list_elem_of_fmap_2 (fun g => set_assigned g [])) in Hd. rewrite Hsame in Hd.
    apply list_elem_of_fmap in Hd as (h & Hh & Hin). eauto. }
  match goal with Hu : upsert_all _ _ _ = _ |- _ =>
    apply upsert_all_ok in Hu as (-> & Hok' & _ & Hd' & Hin & Hout) end; [|done|by rewrite Hids|].
  2:{ intros d Hd. destruct (Hfrom d Hd) as (h & Hh & E). apply Hl in Hh as [Hsto Hinl].
      pose proof (f_equal ID E). pose proof (f_equal Address E). pose proof (f_equal RealmID E).
      pose proof (f_equal IsCrossRealm E). simpl in *. exists h. unfold same_list.
      split_and!; [congruence..|]. unfold in_list. split; congruence. }
  unfold stored, store_ok in *. rewrite Hst. setoid_rewrite Hids in Hout.
  set (ds := Distribute weights l) in *. set (res := reassigned_event l <$> ds) in *.
  assert (Hidout : ID <$> (mark_pending res <$> ds) = ID <$> ds).
  { rewrite <- list_fmap_compose. apply list_fmap_ext. intros _ d _. simpl.
    by destruct (mark_pending_fields res d) as [? ->]. }
  assert (Hmem : forall d, d ∈ ds -> in_list r c (mark_pending res d)).
  { intros d Hd. destruct (Hfrom d Hd) as (h & Hh & E). apply Hl in Hh as [_ [Hcr Hr]].
    destruct (mark_pending_fields res d) as [? ->].
    pose proof (f_equal RealmID E). pose proof (f_equal IsCrossRealm E). simpl in *.
    split; simpl; [congruence|]. intros Hc'. rewrite <- Hr; congruence. }
  split_and!; [done|done| |done|exact Hout|by rewrite Hidout].
  split; [by rewrite Hidout, Hids|]. intros g. unfold member, stored. rewrite Hst. split.
  - intros Hg. split; [by apply Hin|]. apply list_elem_of_fmap in Hg as (d & -> & Hd). by apply Hmem.
  - intros [Hg Hgl]. destruct (decide (ID g ∈ ID <$> ds)) as [Hd|Hd].
    + rewrite <- Hidout in Hd. apply list_elem_of_fmap in Hd as (x & Hx & Hxin).
      pose proof (Hin x Hxin) as Hsx. rewrite <- Hx, Hg in Hsx. by injection Hsx as <-.
    + rewrite Hids in Hd. rewrite Hout in Hg by done.
      destruct Hd. apply list_elem_of_fmap_2. by apply Hl.
Qed.

Lemma concat_unique (f : GameServer -> list u32) (l : list GameServer) m g h :
  NoDup (concat (f <$> l)) -> g ∈ l -> h ∈ l -> m ∈ f g -> m ∈ f h -> g = h.
Proof.
  induction l as [|x l IH]; intros Hnd Hg Hh Hmg Hmh; [by apply elem_of_nil in Hg|].
  rewrite fmap_cons in Hnd. simpl in Hnd. apply NoDup_app in Hnd as (_ & Hdis & Hnd).
  assert (Hin : forall y, y ∈ l -> m ∈ f y -> m ∈ concat (f <$> l)).
  { intros y Hy Hm. apply elem_of_concat. exists (f y). split; [by apply list_elem_of_fmap_2|done]. }
  apply elem_of_cons in Hg as [->|Hg], Hh as [->|Hh]; [done|..].
  - by destruct (Hdis m Hmg); eauto.
  - by destruct (Hdis m Hmh); eauto.
  - by apply IH.
Qed.

(** What a distribution promises about the stored servers of a realm. *)
Record distributed s (realmID : u32) (cross : bool) : Prop := {
  dist_declared : forall g, member s realmID cross g -> IsAllMapsAvailable g = false ->
    AssignedMapsToHandle g = AvailableMaps g;
  dist_sorted : forall g, member s realmID cross g -> IsAllMapsAvailable g = true ->
    StronglySorted Z.le (AssignedMapsToHandle g);
  dist_once : forall m g0, is_Some (weights !! m) -> member s realmID cross g0 ->
    IsAllMapsAvailable g0 = true ->
    (forall g, member s realmID cross g -> m ∉ AvailableMaps g) ->
    exists! g, member s realmID cross g /\ IsAllMapsAvailable g = true /\ m ∈ AssignedMapsToHandle g
}.

Lemma distribute_distributed s r c l out s' :
  store_ok s -> lists s r c l ->
  distributeMapsToServers weights l s = (Ok out, s') -> distributed s' r c.
Proof.
  intros Hok Hlist Hrun.
  destruct (distribute_ok _ _ _ _ _ _ Hok Hlist Hrun) as (-> & _ & [_ Hmem] & _).
  set (res := reassigned_event l <$> Distribute weights l) in *.
  destruct (Distribute_open weights l weights_nonneg) as (Hdecl & Hsort & Honce).
  assert (Hget : forall g, member s' r c g -> exists d, d ∈ Distribute weights l /\
    AvailableMaps g = AvailableMaps d /\ AssignedMapsToHandle g = AssignedMapsToHandle d).
  { intros g Hg. apply Hmem, list_elem_of_fmap in Hg as (d & -> & Hd). exists d.
    by destruct (mark_pending_fields res d) as [? ->]. }
  assert (Havail : forall g d, AvailableMaps g = AvailableMaps d -> IsAllMapsAvailable g = IsAllMapsAvailable d)
    by (unfold IsAllMapsAvailable; congruence).
  split.
  - intros g Hg Hf. destruct (Hget g Hg) as (d & Hd & Ea & Em). rewrite Ea, Em.
    apply Hdecl; [done|]. by rewrite <- (Havail g d Ea).
  - intros g Hg Hf. destruct (Hget g Hg) as (d & Hd & Ea & Em). rewrite Em.
    apply Hsort, list_elem_of_filter. by rewrite <- (Havail g d Ea).
  - intros m g0 Hm Hg0 Hopen Hnone. destruct (Hget g0 Hg0) as (d0 & Hd0 & Ea0 & _).
    destruct Honce as [Hnd Hin].
    { intros E. apply (not_elem_of_nil (A:=GameServer) d0). rewrite <- E. apply list_elem_of_filter.
      by rewrite <- (Havail g0 d0 Ea0). }
    assert (Hmin : m ∈ concat (AssignedMapsToHandle <$>
      filter (fun x => IsAllMapsAvailable x = true) (Distribute weights l))).
    { apply Hin. split; [done|]. intros x Hx _ Hmx.
      pose proof (Distribute_same weights l weights_nonneg) as Hsame.
      apply (list_elem_of_fmap_2 (fun g => set_assigned g [])) in Hx. rewrite <- Hsame in Hx.
      apply list_elem_of_fmap in Hx as (d & E & Hd). apply (f_equal AvailableMaps) in E. simpl in E.
      apply (Hnone (mark_pending res d)); [apply Hmem; by apply list_elem_of_fmap_2|].
      destruct (mark_pending_fields res d) as [? ->]. simpl. by rewrite <- E. }
    apply elem_of_concat in Hmin as (ms & (d & -> & Hd)%list_elem_of_fmap & Hmd).
    pose proof Hd as [Hdo Hdin]%list_elem_of_filter.
    exists (mark_pending res d). split; [split; [apply Hmem; by apply list_elem_of_fmap_2|]|].
    { by destruct (mark_pending_fields res d) as [? ->]. }
    intros g (Hg & Hgo & Hmg). apply Hmem, list_elem_of_fmap in Hg as (d' & -> & Hd').
    f_equal. apply (concat_unique AssignedMapsToHandle _ m d d' Hnd Hd); [|done|].
    + apply list_elem_of_filter. split; [|done]. by destruct (mark_pending_fields res d') as [? E]; rewrite E in Hgo.
    + by destruct (mark_pending_fields res d') as [? E]; rewrite E in Hmg.
Qed.
Lemma list_for_ok server s l s' :
  store_ok s -> list_for server s = (Ok l, s') ->
  lists s (RealmID server) (IsCrossRealm server) l /\ st s' = st s.
Proof.
  intros Hok Hrun. unfold list_for in Hrun. unfold lists, member, stored.
  assert (Hback : forall s1 : sys D sr_event, st s1 = gs_store (st s) ->
            st s' = with_gs_store (st s1) (st s) -> st s' = st s)
    by (intros s1 E1 E2; rewrite E2, E1; by destruct (st s)).
  destruct (IsCrossRealm server); apply repo_ok in Hrun as (s1 & Hrun & Hst & _).
  - apply ListOfCrossRealms_law in Hrun as (Hnd & Hs1 & _ & Hl); [|exact Hok].
    split; [split; [done|]|by eapply Hback]. intros g. rewrite Hl. simpl.
    split; intros [Hg [Hc _]]; (split; [exact Hg|split; [exact Hc|done]]).
  - apply ListByRealm_law in Hrun as (Hnd & Hs1 & _ & Hl); [|exact Hok].
    split; [by split|by eapply Hback].
Qed.

Lemma with_id_Some gid l g : with_id gid l = Some g -> g ∈ l /\ ID g = gid.
Proof.
  unfold with_id. intros Hf. apply List.find_some in Hf as [Hin E].
  split; [by apply list_elem_of_In|by apply String.eqb_eq].
Qed.
Lemma with_id_None gid l g : with_id gid l = None -> g ∈ l -> ID g <> gid.
Proof.
  unfold with_id. intros Hf Hin E. apply list_elem_of_In in Hin.
  pose proof (List.find_none _ _ Hf _ Hin) as Hn. simpl in Hn. by apply String.eqb_neq in Hn.
Qed.

Lemma load_gs_ok p s g s' : (load_gs p : M _) s = (Ok g, s') -> gs_heap (st s) !! p = Some g /\ s' = s.
Proof. unfold load_gs. intros Hrun. inv_ok. done. Qed.

Lemma distributed_same_store s1 s2 r c :
  gs_store (st s1) = gs_store (st s2) -> distributed s1 r c -> distributed s2 r c.
Proof.
  intros E [Hdecl Hsort Honce]. unfold member, stored in *.
  split; unfold member, stored; rewrite <- E; assumption.
Qed.

(** A registration that succeeds leaves the realm (or the cross-realm list)
    distributed - every weighted map nobody declared is assigned to exactly one
    server that takes any map, on sorted lists, and declared maps to their
    server - and the struct handed back carries the maps stored for it. *)
Theorem Register_distributes s s' p server u :
  store_ok s -> gs_heap (st s) !! p = Some server ->
  (forall old, stored s (ID (normal server)) = Some old -> same_list old server) ->
  Register weights p s = (Ok u, s') ->
  store_ok s' /\ distributed s' (RealmID server) (IsCrossRealm server) /\
  exists g told, member s' (RealmID server) (IsCrossRealm server) g /\ ID g = ID (normal server) /\
    gs_heap (st s') !! p = Some told /\ AssignedMapsToHandle told = AssignedMapsToHandle g.
Proof.
  intros Hok Hp Hold Hrun. unfold Register, store_gs, AddHealthCheckObject, AddMetricsObservable in Hrun.
  inv_ok.
  repeat match goal with Hl : load_gs _ _ = _ |- _ =>
    apply load_gs_ok in Hl as [? ->] end.
  simpl in *.
  repeat match goal with
  | Hh : gs_heap (st s) !! p = Some _ |- _ => rewrite Hp in Hh; injection Hh as <-
  | Hh : <[p := _]> _ !! p = Some _ |- _ => rewrite lookup_insert_eq in Hh; injection Hh as <-
  end.
  set (srv := set_available server _) in *.
  destruct (normal_local server srv eq_refl eq_refl) as [Eid Eaddr].
  destruct (normal_spec srv) as (i & ad & Hn).
  assert (RealmID (normal srv) = RealmID server /\ IsCrossRealm (normal srv) = IsCrossRealm server) as [Er Ec]
    by (by rewrite Hn).
  match goal with Hu : repo (Upsert _) _ = (_, ?s6) |- _ => rename s6 into sU; apply repo_ok in Hu as (sR & HU & HsU & _) end.
  apply Upsert_law in HU as (HokR & _ & HlR); [|exact Hok|].
  2:{ rewrite <- Eid. exact Hold. }
  simpl in HlR. assert (HokU : store_ok sU) by (unfold store_ok; by rewrite HsU).
  match goal with Hh : gs_heap (st sU) !! p = Some ?x |- _ =>
    rewrite HsU in Hh; simpl in Hh; rewrite lookup_insert_eq in Hh; injection Hh as <- end.
  match goal with Hl : list_for _ _ = (Ok ?l, ?s8) |- _ =>
    rename l into ws; rename s8 into sL; apply list_for_ok in Hl as [Hlist HsL]; [|exact HokU] end.
  rewrite Er, Ec in Hlist.
  assert (HokL : store_ok sL) by (unfold store_ok; by rewrite HsL).
  assert (HlistL : lists sL (RealmID server) (IsCrossRealm server) ws)
    by (unfold lists, member, stored in *; by rewrite HsL).
  match goal with Hd : distributeMapsToServers _ _ _ = (Ok ?o, ?s9) |- _ =>
    rename o into out; rename s9 into sD; rename Hd into HD end.
  pose proof (distribute_distributed _ _ _ _ _ _ HokL HlistL HD) as Hdist.
  destruct (distribute_ok _ _ _ _ _ _ HokL HlistL HD) as (_ & HokD & HlistD & [d' HsD] & _ & Hids).
  assert (Hself : stored sU (ID (normal srv)) = Some (normal srv))
    by (unfold stored; rewrite HsU; simpl; by rewrite HlR, decide_True).
  assert (Hws : normal srv ∈ ws).
  { eapply lists_lookup; [exact HokU|exact Hlist|exact Hself|]. split; [done|by rewrite Er]. }
  assert (Hout : ID (normal srv) ∈ ID <$> out) by (rewrite Hids; by apply list_elem_of_fmap_2).
  destruct (with_id (ID (normal srv)) out) as [g|] eqn:Eg.
  2:{ apply list_elem_of_fmap in Hout as (x & Hx & Hin). by destruct (with_id_None _ _ _ Eg Hin). }
  apply with_id_Some in Eg as [Hg Hgid]. apply HlistD in Hg.
  inv_ok. simpl in *.
  match goal with Hh : <[p := _]> _ !! p = Some _ |- _ => rewrite lookup_insert_eq in Hh; injection Hh as <- end.
  match goal with He : emit _ _ = _ |- _ => apply emit_ok' in He as [Hs' _] end.
  assert (Est : gs_store (st s') = gs_store (st sD)) by (by rewrite Hs').
  split_and!; [unfold store_ok; by rewrite Est|by eapply distributed_same_store|].
  exists g, (set_assigned (normal srv) (AssignedMapsToHandle g)). split_and!; [|congruence| |done].
  - unfold member, stored. rewrite Est. exact Hg.
  - rewrite Hs'. simpl. by rewrite lookup_insert_eq.
Qed.
(** *** Runs without failures *)
Lemma repo_healthy {A} (m : go D sr_event registry_err A) : healthy m -> healthy (repo m : M A).
Proof. apply healthy_zoom. Qed.
Lemma list_for_healthy server : healthy (list_for server : M _).
Proof.
  unfold list_for, ListOfCross, ListForRealm.
  destruct (IsCrossRealm server); apply repo_healthy; [apply ListOfCrossRealms_healthy|apply ListByRealm_healthy].
Qed.
Lemma distribute_healthy l : healthy (distributeMapsToServers weights l : M _).
Proof.
  unfold distributeMapsToServers. apply healthy_bind; [|intros; healthy_tac].
  generalize (reassigned_event (Copy <$> l) <$> Distribute weights l) as res.
  induction (Distribute weights l) as [|d ds IH]; intros res; cbn [upsert_all]; [apply healthy_ret|].
  apply healthy_bind; [apply repo_healthy, Upsert_healthy|]. intros _.
  apply healthy_bind; [apply IH|]. intros; apply healthy_ret.
Qed.

Lemma load_gs_run p s g : gs_heap (st s) !! p = Some g -> (load_gs p : M _) s = (Ok g, s).
Proof. intros Hg. unfold load_gs, mbind, go_bind, gets, id; simpl. by rewrite Hg. Qed.

(** A game server that fails its health check, when no call to the store or
    the bus fails, is removed and its realm's maps are distributed over the
    servers that remain; nothing stays stored under its id. *)
Theorem unhealthy_redistributes s p server g0 :
  store_ok s -> faults s = [] -> gs_heap (st s) !! p = Some server ->
  stored s (ID server) = Some g0 ->
  exists s', onServerUnhealthy weights p s = (Ok tt, s') /\
    store_ok s' /\ stored s' (ID server) = None /\
    distributed s' (RealmID server) (IsCrossRealm server).
Proof.
  intros Hok Hf Hp Hst. unfold onServerUnhealthy.
  rewrite (bind_run _ _ _ _ _ (load_gs_run _ _ _ Hp)).
  destruct (healthy_try_err (repo (Remove (ID server)) : M unit) s (repo_healthy _ (Remove_healthy _)) Hf)
    as ([] & s1 & Hr & Ht & Hf1).
  rewrite (bind_run _ _ _ _ _ Ht). cbn beta iota.
  apply repo_ok in Hr as (sR & Hr & Hs1 & _).
  apply Remove_law in Hr as (Hok1 & _ & Hl1); [|exact Hok].
  assert (Hrm : stored s1 (ID server) = None)
    by (unfold stored; rewrite Hs1; simpl; by rewrite Hl1, decide_True).
  assert (healthy (emit (GSRemoved (added_event server (AssignedMapsToHandle server))) : M unit)) as Hem
    by (unfold emit; healthy_tac).
  destruct (Hem s1 Hf1) as ([] & s2 & Hm & Hf2). rewrite (bind_run _ _ _ _ _ Hm).
  apply emit_ok' in Hm as [Hs2 _].
  rewrite (bind_run (RemoveMetricsObservable _) _ _ _ _ eq_refl). cbn beta iota.
  set (s3 := Sys _ _ _). assert (Hst3 : gs_store (st s3) = gs_store (st s1)) by (simpl; by rewrite Hs2).
  assert (Hok3 : store_ok s3) by (unfold store_ok; rewrite Hst3, Hs1; exact Hok1).
  destruct (healthy_try_err (list_for server : M _) s3 (list_for_healthy _) Hf2) as (l & s4 & Hl & Htl & Hf4).
  rewrite (bind_run _ _ _ _ _ Htl). cbn beta iota.
  apply list_for_ok in Hl as [Hlist Hs4]; [|exact Hok3].
  assert (Hok4 : store_ok s4) by (unfold store_ok; by rewrite Hs4).
  assert (Hlist4 : lists s4 (RealmID server) (IsCrossRealm server) l)
    by (unfold lists, member, stored in *; by rewrite Hs4).
  destruct (healthy_try_err (distributeMapsToServers weights l : M _) s4 (distribute_healthy _) Hf4)
    as (out & s5 & Hd & Htd & _).
  rewrite (bind_run _ _ _ _ _ Htd). exists s5. split; [done|].
  destruct (distribute_ok _ _ _ _ _ _ Hok4 Hlist4 Hd) as (_ & Hok5 & _ & _ & Hout & _).
  split_and!; [done| |exact (distribute_distributed _ _ _ _ _ _ Hok4 Hlist4 Hd)].
  assert (Hn4 : stored s4 (ID server) = None) by (unfold stored; rewrite Hs4, Hst3; exact Hrm).
  rewrite Hout; [exact Hn4|]. intros (x & Hx & Hin)%list_elem_of_fmap.
  apply Hlist4 in Hin as [Hxs _]. rewrite <- Hx, Hn4 in Hxs. done.
Qed.

(** Confirming loaded maps takes exactly those maps off the server's pending
    list, which makes the server answer for those of them it is assigned; every
    other server stays as it was. *)
Theorem MapsLoaded_confirms s serverID maps g s' :
  store_ok s -> MapsLoadedForServer serverID maps s = (Ok g, s') ->
  exists old, stored s serverID = Some old /\ ID g = serverID /\ store_ok s' /\
    (forall gid, stored s' gid = if decide (gid = serverID) then Some g else stored s gid) /\
    AssignedMapsToHandle g = AssignedMapsToHandle old /\
    (forall m, m ∈ AssignedButPendingMaps g <-> m ∈ AssignedButPendingMaps old /\ m ∉ maps) /\
    (StronglySorted Z.le (AssignedMapsToHandle old) ->
     forall m, m ∈ maps -> m ∈ AssignedMapsToHandle old -> CanHandleMap g m = true).
Proof.
  intros Hok Hrun. unfold MapsLoadedForServer in Hrun. inv_ok.
  match goal with Ho : repo (One _) _ = (Ok ?o, ?s1) |- _ =>
    apply repo_ok in Ho as (sR & HO & Hs1 & _); rename s1 into sO; rename o into oldo end.
  apply One_law in HO as (-> & HsR & _); [|exact Hok]. simpl in HsR.
  match goal with Hn : not_nil _ _ _ = _ |- _ => apply not_nil_ok in Hn as [Hold ->] end.
  match goal with Hu : repo (Upsert (normal (set_pending ?o _))) _ = _ |- _ =>
    rename o into old; apply repo_ok in Hu as (sU & HU & Hs' & _) end.
  simpl in Hold. destruct (listed_id _ _ _ Hok Hold) as [Hid _].
  pose proof (normal_stored _ _ old (set_pending old (only_in (AssignedButPendingMaps old) maps))
    Hok Hold eq_refl eq_refl) as Hn. rewrite Hn in *. set (g' := set_pending old _) in *.
  assert (EsO : gs_store (st sO) = gs_store (st s)) by (by rewrite Hs1).
  rewrite <- Hn in HU. rewrite EsO in HU. apply Upsert_law in HU as (Hok' & _ & Hl); [|exact Hok|].
  2:{ rewrite Hn. intros o Ho. simpl in Ho. rewrite Hid, Hold in Ho. injection Ho as <-. by split. }
  rewrite Hn in Hl. exists old. unfold store_ok, stored. rewrite Hs'. simpl.
  split_and!; [done..| |done| |].
  - intros gid. rewrite Hl. simpl. by rewrite Hid.
  - intros m. apply elem_of_only_in.
  - intros Hs m Hm Ha. apply CanHandleMap_sorted; [done|]. split; [done|].
    simpl. rewrite elem_of_only_in. naive_solver.
Qed.

(** A redistribution forgets what was pending: a server that already had
    maps is left with exactly its newly assigned maps pending, so a map it kept
    and had not confirmed yet is served from then on. *)
Theorem redistribution_drops_pending s r c l out s' h :
  store_ok s -> lists s r c l -> h ∈ l -> AssignedMapsToHandle h <> [] ->
  distributeMapsToServers weights l s = (Ok out, s') ->
  exists g, stored s' (ID h) = Some g /\
    (forall m, m ∈ AssignedButPendingMaps g <-> m ∈ AssignedMapsToHandle g /\ m ∉ AssignedMapsToHandle h) /\
    (StronglySorted Z.le (AssignedMapsToHandle g) ->
     forall m, m ∈ AssignedButPendingMaps h -> m ∈ AssignedMapsToHandle h -> m ∈ AssignedMapsToHandle g ->
     CanHandleMap g m = true).
Proof.
  intros Hok Hlist Hh Hne Hrun.
  destruct (distribute_ok _ _ _ _ _ _ Hok Hlist Hrun) as (Hout & _ & [_ Hmem] & _ & _ & Hids).
  set (res := reassigned_event l <$> Distribute weights l) in *.
  assert (HID : ID h ∈ ID <$> out) by (rewrite Hids; by apply list_elem_of_fmap_2).
  apply list_elem_of_fmap in HID as (g & Hg & Hgin). pose proof Hgin as Hgin'.
  apply Hmem in Hgin' as [Hst _]. exists g. rewrite Hg. split; [done|].
  assert (Hp : forall m, m ∈ AssignedButPendingMaps g <-> m ∈ AssignedMapsToHandle g /\ m ∉ AssignedMapsToHandle h).
  { rewrite Hout in Hgin. apply list_elem_of_fmap in Hgin as (d & -> & Hd).
    assert (HdID : ID d = ID h) by (destruct (mark_pending_fields res d) as [? E]; rewrite E in Hg; by symmetry).
    unfold mark_pending. destruct (List.find _ res) as [e|] eqn:Ee.
    2:{ apply List.find_none with (x := reassigned_event l d) in Ee;
          [by apply String.eqb_neq in Ee|]. apply list_elem_of_In. by apply list_elem_of_fmap_2. }
    apply List.find_some in Ee as [Hein Heid]. apply String.eqb_eq in Heid.
    apply list_elem_of_In, list_elem_of_fmap in Hein as (d' & -> & Hd').
    simpl in Heid.
    assert (d' = d) as ->.
    { apply (NoDup_key_unique ID (Distribute weights l)); [|done..].
      rewrite (ID_clear _ _ (Distribute_same weights l weights_nonneg)). apply Hlist. }
    assert (Hold : OldAssignedMapsToHandle (reassigned_event l d) = AssignedMapsToHandle h).
    { simpl. destruct (with_id (ID d) l) as [x|] eqn:Ex.
      - apply with_id_Some in Ex as [Hx Hxid].
        by rewrite (NoDup_key_unique ID l x h (proj1 Hlist) Hx Hh ltac:(congruence)).
      - by destruct (with_id_None _ _ _ Ex Hh). }
    rewrite Hold. destruct (AssignedMapsToHandle h) as [|a ms] eqn:Eh; [done|].
    intros m. change (m ∈ only_in (AssignedMapsToHandle d) (OldAssignedMapsToHandle (reassigned_event l d)) <->
      m ∈ AssignedMapsToHandle d /\ m ∉ a :: ms).
    by rewrite elem_of_only_in, Hold. }
  split; [exact Hp|]. intros Hs m _ Ha Hm. apply CanHandleMap_sorted; [done|]. split; [done|].
  rewrite Hp. naive_solver.
Qed.

(** C40: when the servers of a realm are distributed, a request for a map nobody
    declared gets at most one of the servers that take any map, and gets
    exactly those that have the map assigned and confirmed. *)
Theorem AvailableForMap_routes s mapID r c l s' :
  store_ok s -> distributed s r c -> (c = true -> r = 0) ->
  AvailableForMapAndRealm mapID r c s = (Ok l, s') ->
  (forall g, IsAllMapsAvailable g = true -> g ∈ l <->
     member s r c g /\ mapID ∈ AssignedMapsToHandle g /\ mapID ∉ AssignedButPendingMaps g) /\
  (is_Some (weights !! mapID) -> (forall g, member s r c g -> mapID ∉ AvailableMaps g) ->
   forall g h, g ∈ l -> h ∈ l -> g = h).
Proof.
  intros Hok Hdist Hr Hrun. unfold AvailableForMapAndRealm in Hrun. inv_ok.
  match goal with Hl : (if c then _ else _) _ = (Ok ?k, _) |- _ => rename k into servers;
    assert (Hmem : forall g, g ∈ servers <-> member s r c g) end.
  { destruct c.
    - match goal with Hl : ListOfCross _ = _ |- _ => apply repo_ok in Hl as (sR & HL & _) end.
      apply ListOfCrossRealms_law in HL as (_ & _ & _ & Hl); [|exact Hok]. rewrite (Hr eq_refl). exact Hl.
    - match goal with Hl : ListForRealm _ _ = _ |- _ => apply repo_ok in Hl as (sR & HL & _) end.
      apply ListByRealm_law in HL as (_ & _ & _ & Hl); [|exact Hok]. exact Hl. }
  assert (Hin : forall g, g ∈ filter (fun x => CanHandleMap x mapID = true) servers <->
                     CanHandleMap g mapID = true /\ member s r c g)
    by (intros g; by rewrite list_elem_of_filter, Hmem).
  split.
  - intros g Hopen. rewrite Hin. split.
    + intros [Hc Hg]. apply CanHandleMap_sorted in Hc; [by split|by eapply dist_sorted].
    + intros [Hg Hc]. split; [|done]. apply CanHandleMap_sorted; [by eapply dist_sorted|done].
  - intros Hw Hnone g h [Hcg Hg]%Hin [Hch Hh]%Hin.
    assert (Hopen : forall x, member s r c x -> CanHandleMap x mapID = true -> IsAllMapsAvailable x = true).
    { intros x Hx Hcx. destruct (IsAllMapsAvailable x) eqn:Ex; [done|].
      apply CanHandleMap_assigned in Hcx. rewrite (dist_declared _ _ _ Hdist x Hx Ex) in Hcx.
      by destruct (Hnone x Hx). }
    destruct (dist_once _ _ _ Hdist mapID g Hw Hg (Hopen g Hg Hcg) Hnone) as (x & _ & Huniq).
    rewrite <- (Huniq g), <- (Huniq h); [done|..]; split_and!; auto using CanHandleMap_assigned.
Qed.
End Theorems.

(** ** Witnesses: two servers of realm 1 behind Redis *)
#[local] Existing Instances map_range_canonical sort_slice_insertion.
Definition server_a : GameServer :=
  set_pending (set_assigned (set_identity (sample_server "" 1) "1" "a:8085") [0; 1; 3]) [1].
Definition server_b : GameServer := set_identity (sample_server "" 1) "2" "b:8085".

Definition put_doc (d : docs_of GameServer) (g : GameServer) : docs_of GameServer :=
  sadd (dset d (key (ID g)) g) (index_of_server g) (key (ID g)).
Definition two_docs : docs_of GameServer := put_doc (put_doc (∅, ∅) server_a) server_b.
Definition sample_registry (d : docs_of GameServer) : sys (registry (docs_of GameServer) unit) sr_event :=
  Sys {| gs_store := d; gw_store := tt; gs_heap := {[0%nat := server_a; 1%nat := server_b]};
         gw_heap := ∅; next_gs := 2; next_gw := 0; checked := []; measured := [] |} [] [].

Lemma two_docs_ok : redis_consistent two_docs.
Proof.
  apply consistent_put; [apply consistent_put| |].
  - apply empty_redis_consistent.
  - vm_compute; reflexivity.
  - intros old Ho. vm_compute in Ho. discriminate.
  - vm_compute; reflexivity.
  - intros old Ho. vm_compute in Ho. discriminate.
Qed.

Lemma sample_ok : store_ok (sample_registry two_docs).
Proof. exact two_docs_ok. Qed.

Lemma Register_distributes_witness :
  exists s', Register sample_weights 1 (sample_registry two_docs) = (Ok tt, s') /\
    distributed sample_weights s' 1 false.
Proof.
  destruct (Register sample_weights 1 (sample_registry two_docs)) as [o s'] eqn:E.
  run_succeeds E o s'. exists s'. split; [reflexivity|].
  destruct (Register_distributes sample_weights sample_weights_nonneg (sample_registry two_docs) s' 1 server_b tt)
    as (_ & Hd & _); [apply sample_ok|reflexivity| |exact E|exact Hd].
  intros old Ho. vm_compute in Ho. injection Ho as <-. split; reflexivity.
Defined.

(** Server 1 fails: its record goes and the maps go to server 2. *)
Lemma unhealthy_redistributes_witness :
  exists s', onServerUnhealthy sample_weights 0 (sample_registry two_docs) = (Ok tt, s') /\
    stored s' "1" = None /\ distributed sample_weights s' 1 false.
Proof.
  destruct (unhealthy_redistributes sample_weights sample_weights_nonneg (sample_registry two_docs) 0
    server_a server_a sample_ok eq_refl eq_refl) as (s' & Hrun & _ & Hn & Hd); [vm_compute; reflexivity|].
  exists s'. split; [exact Hrun|]. split; [exact Hn|exact Hd].
Defined.

(** Server 1 confirms map 1. *)
Lemma MapsLoaded_confirms_witness :
  exists g s', MapsLoadedForServer "1" [1] (sample_registry two_docs) = (Ok g, s') /\
    AssignedButPendingMaps g = [] /\ CanHandleMap g 1 = true.
Proof.
  destruct (MapsLoadedForServer "1" [1] (sample_registry two_docs)) as [o s'] eqn:E.
  run_value E o s' (set_pending server_a []). exists (set_pending server_a []), s'.
  split; [reflexivity|]. split; [reflexivity|].
  destruct (MapsLoaded_confirms (sample_registry two_docs) "1" [1] _ _ sample_ok E)
    as (old & Hold & _ & _ & _ & _ & _ & Hcan).
  vm_compute in Hold. injection Hold as <-. apply Hcan; [|left|right; left].
  repeat constructor; vm_compute; discriminate.
Defined.

Definition listed_servers : list GameServer := [server_a; server_b].
Lemma listed_servers_lists : lists (sample_registry two_docs) 1 false listed_servers.
Proof.
  destruct (list_for server_a (sample_registry two_docs)) as [o s'] eqn:E.
  run_value E o s' listed_servers.
  apply list_for_ok in E as [Hl _]; [exact Hl|apply sample_ok].
Qed.

Definition distributed_servers : list GameServer :=
  [set_pending (set_assigned server_a [1]) []; set_assigned server_b [0; 3]].

(** Map 1 was pending on server 1; after the redistribution it is not. *)
Lemma redistribution_drops_pending_witness :
  exists (s' : sys (registry (docs_of GameServer) unit) sr_event) g, stored s' "1" = Some g /\
    (forall m, m ∈ AssignedButPendingMaps g <-> m ∈ AssignedMapsToHandle g /\ m ∉ [0; 1; 3]).
Proof.
  destruct (distributeMapsToServers sample_weights listed_servers (sample_registry two_docs)) as [o s'] eqn:E.
  run_value E o s' distributed_servers. exists s'.
  destruct (redistribution_drops_pending sample_weights sample_weights_nonneg (sample_registry two_docs) 1 false
    listed_servers distributed_servers s' server_a sample_ok listed_servers_lists)
    as (g & Hg & Hp & _); [left|discriminate|exact E|].
  exists g. split; [exact Hg|exact Hp].
Defined.

(** One server for map 3. *)
Lemma AvailableForMap_routes_witness :
  exists (s' s'' : sys (registry (docs_of GameServer) unit) sr_event) g,
    AvailableForMapAndRealm 3 1 false s' = (Ok [g], s'') /\ member s' 1 false g.
Proof.
  destruct (distributeMapsToServers sample_weights listed_servers (sample_registry two_docs)) as [o s'] eqn:E.
  run_value E o s' distributed_servers. exists s'.
  destruct (AvailableForMapAndRealm 3 1 false s') as [o s''] eqn:E2.
  assert (o = Ok [set_assigned server_b [0; 3]]) as ->.
  { change o with ((o, s'').1). rewrite <- E2.
    change s' with ((@Ok registry_err (list GameServer) distributed_servers, s').2).
    rewrite <- E. vm_compute. reflexivity. }
  exists s'', (set_assigned server_b [0; 3]). split; [reflexivity|].
  destruct (distribute_ok sample_weights sample_weights_nonneg _ _ _ _ _ _ sample_ok listed_servers_lists E)
    as (_ & Hok & _).
  pose proof (distribute_distributed sample_weights sample_weights_nonneg _ _ _ _ _ _ sample_ok
    listed_servers_lists E) as Hd.
  destruct (AvailableForMap_routes sample_weights s' 3 1 false _ s'' Hok Hd ltac:(discriminate) E2) as [Hl _].
  apply (Hl (set_assigned server_b [0; 3]) eq_refl). left.
Defined.
