(* ===== verification/Gateways.v ===== *)
(** * Gateways: the gateway service of the registry and the request handlers
    (apps/servers-registry/service/gateway-server.go, server/registry-server.go) *)
From stdpp Require Import pretty.
From S2P Require Import Prelude GoRuntime GoStrings GameServerRepo GatewayRepo BinPack Registry GameServers.
From Stdlib Require Import Ascii.

(** ** The gateway service *)
Section Service.
Context {D G : Type} `{SortSlice} `{RedisDocs GatewayServer G}.
Abbreviation M A := (go (registry D G) sr_event registry_err A).

Definition gw_repo {A} (m : go G sr_event registry_err A) : M A := zoom gw_store with_gw_store m.
Definition load_gw (p : nat) : M GatewayServer := r ← gets id; deref (gw_heap r !! p).
Definition store_gw (p : nat) (g : GatewayServer) : M unit :=
  modify (fun r => with_gw_heap (<[p := g]> (gw_heap r)) (next_gw r) r).
Definition alloc_gw (g : GatewayServer) : M nat :=
  r ← gets id;
  modify (fun r => with_gw_heap (<[next_gw r := g]> (gw_heap r)) (S (next_gw r)) r) ;;
  mret (next_gw r).

Definition RegisterGatewayServer (p : nat) : M nat :=
  AddHealthCheckObject (OGateway p) ;;
  AddMetricsObservable (OGateway p) ;;
  server ← load_gw p;
  store_gw p (gw_normal server) ;;
  gw_repo (gw_Add (gw_normal server)) ;;
  server ← load_gw p;
  emit (GWAdded (gw_ID server) (gw_Address server) (gw_HealthCheckAddr server) (gw_RealmID server)) ;;
  mret p.

Definition GatewayForRealm (realmID : u32) : M (option GatewayServer) :=
  balancers ← gw_repo (gw_ListByRealm realmID);
  if (length balancers =? 0)%nat then mret None
  else mret (head (sort_slice (fun a b => gw_ActiveConnections a <? gw_ActiveConnections b) balancers)).

Definition GatewaysForRealm (realmID : u32) : M (list GatewayServer) := gw_repo (gw_ListByRealm realmID).

(** A failed removal is logged and the rest is done all the same. *)
Definition gw_onServerUnhealthy (p : nat) : M unit :=
  server ← load_gw p;
  log_err (gw_repo (gw_Remove (gw_HealthCheckAddr server))) ;;
  RemoveMetricsObservable (OGateway p) ;;
  emit (GWRemovedUnhealthy (gw_ID server) (gw_Address server) (gw_HealthCheckAddr server) (gw_RealmID server)).

Definition gw_handleFailedCheck (p : nat) : M unit :=
  RemoveHealthCheckObject (OGateway p) ;; gw_onServerUnhealthy p.

Definition gw_onMetricsUpdate (p : nat) (m : MetricsRead) : M unit :=
  server ← load_gw p;
  log_err (gw_repo (gw_Update (gw_ID server) (fun s => gw_set_connections s (m_ActiveConnections m)))).

Fixpoint gw_watch_all (servers : list GatewayServer) : M unit :=
  match servers with
  | [] => mret tt
  | g :: servers =>
    p ← alloc_gw g;
    AddHealthCheckObject (OGateway p) ;; AddMetricsObservable (OGateway p) ;;
    gw_watch_all servers
  end.
Fixpoint NewGateway (supportedRealmIDs : list u32) : M unit :=
  match supportedRealmIDs with
  | [] => mret tt
  | id :: ids => servers ← gw_repo (gw_ListByRealm id); gw_watch_all servers ;; NewGateway ids
  end.

Lemma gw_repo_list_ok realmID (s : sys (registry D G) sr_event) l s' :
  gw_repo (gw_ListByRealm realmID) s = (Ok l, s') ->
  l = omap (dget (gw_store (st s))) (smembers (gw_store (st s)) (gw_realmIndexKey realmID)) /\
  st s' = st s /\ events s' = events s.
Proof.
  intros Hl. apply zoom_ok in Hl as (sR & HL & Hst & _ & Hev).
  apply gw_list_ok in HL as (-> & Hst1 & Hev1). rewrite Hst, Hev, Hst1, Hev1. simpl.
  split_and!; [done| |done]. by destruct (st s).
Qed.

(** A gateway indexed under the realm. *)
Definition gw_listed (s : sys (registry D G) sr_event) (realmID : u32) (g : GatewayServer) : Prop :=
  exists k, k ∈ smembers (gw_store (st s)) (gw_realmIndexKey realmID) /\ dget (gw_store (st s)) k = Some g.

Lemma GatewayForRealm_run (s : sys (registry D G) sr_event) realmID :
  faults s = [] ->
  exists o s', GatewayForRealm realmID s = (Ok o, s') /\ st s' = st s /\ events s' = events s /\ faults s' = [] /\
  match o with
  | Some g => gw_listed s realmID g /\
              forall h, gw_listed s realmID h -> gw_ActiveConnections g <= gw_ActiveConnections h
  | None => forall h, ~ gw_listed s realmID h
  end.
Proof.
  intros Hf. assert (Hh : healthy (GatewayForRealm realmID))
    by (unfold GatewayForRealm, gw_repo; healthy_tac; apply healthy_zoom; apply gw_list_healthy).
  destruct (Hh s Hf) as (o & s' & Hrun & Hf'). exists o, s'. split; [exact Hrun|].
  unfold GatewayForRealm in Hrun. inv_ok.
  match goal with Hl : gw_repo _ _ = (Ok ?l, ?s1) |- _ =>
    rename l into gws; rename s1 into sL; apply gw_repo_list_ok in Hl as (Hgws & Hst & Hev) end.
  assert (Hl : forall g, gw_listed s realmID g <-> g ∈ gws)
    by (intros g; unfold gw_listed; rewrite Hgws, list_elem_of_omap; done).
  destruct gws as [|x gws].
  - cbn [length Nat.eqb] in *. inv_ok. split_and!; [done..|].
    intros h Hh'. apply Hl in Hh'. by apply elem_of_nil in Hh'.
  - cbn [length Nat.eqb] in *. inv_ok. split_and!; [done..|]. set (l := x :: gws) in *.
    pose proof (sort_slice_perm (fun a b => gw_ActiveConnections a <? gw_ActiveConnections b) l) as Hp.
    pose proof (sort_slice_sorted gw_ActiveConnections _ l (compares_ltb _ l)) as Hs.
    destruct (sort_slice _ l) as [|g rest]; simpl; [by apply Permutation_length in Hp|].
    split; [apply Hl; rewrite <- Hp; left|]. intros h Hh'. apply Hl in Hh'. rewrite <- Hp in Hh'.
    apply elem_of_cons in Hh' as [->|Hh']; [lia|].
    apply StronglySorted_inv in Hs as [_ Hs]. rewrite Forall_forall in Hs. by apply Hs.
Qed.
(** While Redis answers a player's request is answered; players are sent to
    a gateway of their realm with the fewest connections, and to none only
    when the realm has no gateway; nothing changes. *)
Theorem GatewayForRealm_least (s : sys (registry D G) sr_event) realmID :
  faults s = [] ->
  exists o s', GatewayForRealm realmID s = (Ok o, s') /\ st s' = st s /\ events s' = events s /\
  match o with
  | Some g => gw_listed s realmID g /\
              forall h, gw_listed s realmID h -> gw_ActiveConnections g <= gw_ActiveConnections h
  | None => forall h, ~ gw_listed s realmID h
  end.
Proof.
  intros Hf. destruct (GatewayForRealm_run s realmID Hf) as (o & s' & Hrun & Hst & Hev & _ & Ho). by exists o, s'.
Qed.
End Service.

#[local] Existing Instance sort_slice_insertion.
(** Two gateways of realm 1, the second with fewer players. *)
Definition sample_gateway (n : string) (players : int) : GatewayServer :=
  {| gw_ID := n; gw_Address := "gw" +:+ n; gw_HealthCheckAddr := "h" +:+ n; gw_RealmID := 1;
     gw_ActiveConnections := players |}.
Definition put_gateway (d : docs_of GatewayServer) (g : GatewayServer) : docs_of GatewayServer :=
  sadd (dset d (gw_key (gw_ID g)) g) (gw_realmIndexKey (gw_RealmID g)) (gw_key (gw_ID g)).
Definition two_gateways : sys (registry unit (docs_of GatewayServer)) sr_event :=
  Sys {| gs_store := tt;
         gw_store := put_gateway (put_gateway (∅, ∅) (sample_gateway "1" 9)) (sample_gateway "2" 4);
         gs_heap := ∅; gw_heap := ∅; next_gs := 0; next_gw := 0; checked := []; measured := [] |} [] [].

Lemma GatewayForRealm_least_witness :
  exists s' : sys (registry unit (docs_of GatewayServer)) sr_event,
    GatewayForRealm 1 two_gateways = (Ok (Some (sample_gateway "2" 4)), s') /\
    forall h, gw_listed two_gateways 1 h -> 4 <= gw_ActiveConnections h.
Proof.
  destruct (GatewayForRealm 1 two_gateways) as [o s'] eqn:E.
  run_value E o s' (Some (sample_gateway "2" 4)). exists s'. split; [reflexivity|].
  destruct (GatewayForRealm_least two_gateways 1 eq_refl) as (o1 & s1 & E1 & _ & _ & Hl).
  rewrite E in E1. injection E1 as <- <-. exact (proj2 Hl).
Defined.

(** ** Request handlers (server/registry-server.go) *)

(** The text before the last colon. *)
Fixpoint before_last_colon (address : string) : option string :=
  match address with
  | EmptyString => None
  | String c s =>
    match before_last_colon s with
    | Some t => Some (String c t)
    | None => if Ascii.eqb c ":" then Some "" else None
    end
  end.
Definition removePortFromAddress (address : string) : string :=
  default address (before_last_colon address).

(** strings.Split(s, ","): never empty. *)
Fixpoint split_comma (s : string) : list string :=
  match s with
  | EmptyString => [""]
  | String c s =>
    if Ascii.eqb c "," then "" :: split_comma s
    else match split_comma s with
         | v :: vs => String c v :: vs
         | [] => [String c ""]
         end
  end.

Definition digit_value (c : Ascii.ascii) : option Z :=
  let n := Z.of_nat (Ascii.nat_of_ascii c) in
  if (48 <=? n) && (n <=? 57) then Some (n - 48) else None.
Fixpoint parse_digits (acc : Z) (s : string) : option Z :=
  match s with
  | EmptyString => Some acc
  | String c s => match digit_value c with Some v => parse_digits (10 * acc + v) s | None => None end
  end.
(** strconv.Atoi: an optional sign, then digits, in the range of a 64-bit int. *)
Definition Atoi (s : string) : option int :=
  let parse neg d :=
    if String.eqb d "" then None
    else match parse_digits 0 d with
         | Some v =>
           let r := if neg : bool then - v else v in
           if (- 2 ^ 63 <=? r) && (r <? 2 ^ 63) then Some r else None
         | None => None
         end in
  match s with
  | String "-" d => parse true d
  | String "+" d => parse false d
  | _ => parse false s
  end.

(** Elements that do not parse are skipped. *)
Definition stringToAvailableMaps (s : string) : list u32 := omap (fun v => wrap32 <$> Atoi v) (split_comma s).

Definition host_port (host : string) (port : u32) : string := host +:+ ":" +:+ fmt_d port.

Record RegisterGameServerRequest := {
  gsr_GamePort : u32; gsr_HealthPort : u32; gsr_GrpcPort : u32; gsr_RealmID : u32;
  gsr_IsCrossRealm : bool; gsr_AvailableMaps : string; gsr_PreferredHostName : string
}.
Record RegisterGatewayRequest := {
  gwr_GamePort : u32; gwr_HealthPort : u32; gwr_RealmID : u32; gwr_PreferredHostName : string
}.
Record pb_Server := { pb_Address : string; pb_RealmID : u32; pb_IsCrossRealm : bool; pb_GrpcAddress : string }.
Record GameServerDetailed := {
  gd_ID : string; gd_Address : string; gd_HealthAddress : string; gd_GrpcAddress : string; gd_RealmID : u32;
  gd_IsCrossRealm : bool; gd_ActiveConnections : u32; gd_AvailableMaps : list u32; gd_AssignedMaps : list u32;
  gd_Diff : DiffData
}.
Record GatewayServerDetailed := {
  gwd_Id : string; gwd_Address : string; gwd_HealthAddress : string; gwd_RealmID : u32;
  gwd_ActiveConnections : u32
}.

Section Handlers.
Context {D G : Type} `{MapRange} `{SortSlice} `{GameServerRepo D sr_event} `{RedisDocs GatewayServer G}.
Variable weights : MapsWeight.
Abbreviation M A := (go (registry D G) sr_event registry_err A).

Definition new_game_server (peer : string) (request : RegisterGameServerRequest) : GameServer :=
  let host := if String.eqb (gsr_PreferredHostName request) "" then removePortFromAddress peer
              else gsr_PreferredHostName request in
  {| ID := ""; Address := host_port host (gsr_GamePort request);
     HealthCheckAddr := host_port host (gsr_HealthPort request);
     GRPCAddress := host_port host (gsr_GrpcPort request);
     RealmID := gsr_RealmID request; IsCrossRealm := gsr_IsCrossRealm request;
     AvailableMaps := stringToAvailableMaps (gsr_AvailableMaps request); ActiveConnections := 0;
     Diff := {| Mean := 0; Median := 0; Percentile95 := 0; Percentile99 := 0; Max := 0 |};
     AssignedMapsToHandle := []; AssignedButPendingMaps := [] |}.

(** The id and the maps the new server should load. *)
Definition RegisterGameServer (peer : string) (request : RegisterGameServerRequest) : M (string * list u32) :=
  p ← alloc_gs (new_game_server peer request);
  Register weights p ;;
  server ← load_gs p;
  mret (ID server, AssignedMapsToHandle server).

Definition AvailableGameServersForMapAndRealm (mapID realmID : u32) (isCrossRealm : bool) : M (list pb_Server) :=
  servers ← AvailableForMapAndRealm mapID realmID isCrossRealm;
  mret ((fun s => {| pb_Address := Address s; pb_RealmID := RealmID s; pb_IsCrossRealm := IsCrossRealm s;
                     pb_GrpcAddress := GRPCAddress s |}) <$> servers).

Definition detailed (s : GameServer) : GameServerDetailed :=
  {| gd_ID := ID s; gd_Address := Address s; gd_HealthAddress := HealthCheckAddr s;
     gd_GrpcAddress := GRPCAddress s; gd_RealmID := RealmID s; gd_IsCrossRealm := IsCrossRealm s;
     gd_ActiveConnections := ActiveConnections s; gd_AvailableMaps := AvailableMaps s;
     gd_AssignedMaps := AssignedMapsToHandle s; gd_Diff := Diff s |}.

Definition ListGameServersForRealm (realmID : u32) (isCrossRealm : bool) : M (list GameServerDetailed) :=
  servers ← (if isCrossRealm then ListOfCross else ListForRealm realmID);
  mret (detailed <$> servers).

Definition ListAllGameServers : M (list GameServerDetailed) :=
  servers ← ListAllServers; mret (detailed <$> servers).

(** Only the address and the realm are filled in. *)
Definition RandomGameServerForRealm (realmID : u32) (choice : nat) : M (option pb_Server) :=
  server ← RandomServerForRealm realmID choice;
  mret ((fun s => {| pb_Address := Address s; pb_RealmID := RealmID s; pb_IsCrossRealm := false;
                     pb_GrpcAddress := "" |}) <$> server).

Definition GameServerMapsLoaded (gameServerID : string) (mapsLoaded : list u32) : M unit :=
  MapsLoadedForServer gameServerID mapsLoaded ;; mret tt.

(** The game address uses the preferred host name even when it is empty. *)
Definition RegisterGateway (peer : string) (request : RegisterGatewayRequest) : M string :=
  let ip := removePortFromAddress peer in
  p ← alloc_gw {| gw_ID := ""; gw_Address := host_port (gwr_PreferredHostName request) (gwr_GamePort request);
                  gw_HealthCheckAddr := host_port ip (gwr_HealthPort request);
                  gw_RealmID := gwr_RealmID request; gw_ActiveConnections := 0 |};
  p ← RegisterGatewayServer p;
  server ← load_gw p;
  mret (gw_ID server).

Fixpoint GatewaysForRealms (realmIDs : list u32) : M (list pb_Server) :=
  match realmIDs with
  | [] => mret []
  | realmID :: realmIDs =>
    server ← GatewayForRealm realmID;
    rest ← GatewaysForRealms realmIDs;
    mret (match server with
          | Some s => {| pb_Address := gw_Address s; pb_RealmID := gw_RealmID s; pb_IsCrossRealm := false;
                         pb_GrpcAddress := "" |} :: rest
          | None => rest
          end)
  end.

Definition ListGatewaysForRealm (realmID : u32) : M (list GatewayServerDetailed) :=
  servers ← GatewaysForRealm realmID;
  mret ((fun s => {| gwd_Id := gw_ID s; gwd_Address := gw_Address s; gwd_HealthAddress := gw_HealthCheckAddr s;
                     gwd_RealmID := gw_RealmID s;
                     gwd_ActiveConnections := wrap32 (gw_ActiveConnections s) |}) <$> servers).
End Handlers.

(** ** Parsing what the servers send *)
Lemma before_last_colon_none s : all_chars not_colon s -> before_last_colon s = None.
Proof.
  induction s as [|c s IH]; simpl; [done|]. intros [Hc Hs]. rewrite IH by done.
  by rewrite (proj2 (Ascii.eqb_neq c ":") Hc).
Qed.

Lemma removePort_host_port host port : removePortFromAddress (host_port host port) = host.
Proof.
  unfold removePortFromAddress, host_port. rewrite append_String, append_nil.
  assert (before_last_colon (host +:+ String ":" (fmt_d port)) = Some host) as ->; [|done].
  induction host as [|c host IH]; [|by rewrite append_String; simpl; rewrite IH].
  rewrite append_nil. simpl. by rewrite before_last_colon_none by apply fmt_d_not_colon.
Qed.

Lemma digit_value_char x : (x < 10)%N -> digit_value (pretty_N_char x) = Some (Z.of_N x).
Proof. intros Hx. assert (x ∈ [0;1;2;3;4;5;6;7;8;9]%N) as Hin by (rewrite !elem_of_cons; lia).
  rewrite !elem_of_cons in Hin.
  repeat (destruct Hin as [->|Hin]; [reflexivity|]). by apply elem_of_nil in Hin.
Qed.

Lemma parse_pretty_go x : forall s, parse_digits 0 (pretty_N_go x s) = parse_digits (Z.of_N x) s.
Proof.
  induction (N.lt_wf_0 x) as [x _ IH]; intros s.
  assert (x = 0 \/ 0 < x)%N as [->|Hx] by lia; [by rewrite pretty_N_go_0|].
  rewrite pretty_N_go_step by done. rewrite IH by (by apply N.div_lt). simpl.
  rewrite digit_value_char by (by apply N.mod_lt). f_equal.
  rewrite N2Z.inj_div, N2Z.inj_mod. symmetry. apply Z.div_mod. lia.
Qed.

Lemma fmt_d_pos x : 0 < x -> fmt_d x = pretty_N_go (Z.to_N x) "".
Proof.
  intros Hx. destruct x as [|p|p]; [lia| |lia]. unfold fmt_d, pretty, pretty_Z.
  unfold pretty, pretty_positive, pretty, pretty_N. by rewrite decide_False.
Qed.

Lemma parse_fmt_d x : 0 <= x -> parse_digits 0 (fmt_d x) = Some x.
Proof.
  intros Hx. destruct (decide (x = 0)) as [->|]; [reflexivity|].
  rewrite fmt_d_pos by lia. rewrite parse_pretty_go. simpl. f_equal. lia.
Qed.

(** A decimal number starts with a digit, not with a sign. *)
Lemma parse_digits_head acc c s v : parse_digits acc (String c s) = Some v -> is_Some (digit_value c).
Proof. simpl. destruct (digit_value c); [eauto|done]. Qed.

Lemma Atoi_fmt_d x : 0 <= x < 2 ^ 63 -> Atoi (fmt_d x) = Some x.
Proof.
  intros Hx. pose proof (parse_fmt_d x ltac:(lia)) as Hp. pose proof (fmt_d_nonempty x) as Hne.
  unfold Atoi. destruct (fmt_d x) as [|c d] eqn:E; [done|].
  assert (Hparse : (if String.eqb (String c d) "" then None else
    match parse_digits 0 (String c d) with
    | Some v => if (- 2 ^ 63 <=? v) && (v <? 2 ^ 63) then Some v else None | None => None end) = Some x).
  { rewrite Hp. simpl String.eqb. cbv iota.
    by rewrite (proj2 (Z.leb_le _ _)), (proj2 (Z.ltb_lt _ _)) by lia. }
  apply parse_digits_head in Hp as [v Hv].
  destruct c as [[] [] [] [] [] [] [] []]; try discriminate Hv; exact Hparse.
Qed.

Lemma digits_no_comma c : digit c -> Ascii.eqb c "," = false.
Proof. intros (x & Hx & ->). unfold pretty_N_char. by repeat case_match. Qed.

Lemma split_comma_digits s t : all_chars (fun c => Ascii.eqb c "," = false) s ->
  split_comma (s +:+ String "," t) = s :: split_comma t.
Proof.
  induction s as [|c s IH]; intros Hs; [done|]. rewrite append_String. simpl in Hs |- *.
  destruct Hs as [-> Hs]. by rewrite IH.
Qed.
Lemma split_comma_last s : all_chars (fun c => Ascii.eqb c "," = false) s -> split_comma s = [s].
Proof. induction s as [|c s IH]; simpl; [done|]. intros [-> Hs]. by rewrite IH. Qed.

Lemma fmt_d_no_comma x : 0 <= x -> all_chars (fun c => Ascii.eqb c "," = false) (fmt_d x).
Proof.
  intros Hx. destruct (decide (x = 0)) as [->|]; [simpl; done|]. rewrite fmt_d_pos by lia.
  apply (all_chars_impl digit); [exact digits_no_comma|]. by apply pretty_N_go_digits.
Qed.

(** strings.Join of decimal numbers, as a game server sends its maps. *)
Fixpoint join_maps (maps : list u32) : string :=
  match maps with
  | [] => ""
  | [m] => fmt_d m
  | m :: maps => fmt_d m +:+ "," +:+ join_maps maps
  end.

(** The list of maps a game server sends, decimal and comma separated, is
    read back exactly, the empty one included. *)
Theorem available_maps_roundtrip maps :
  (forall m, m ∈ maps -> in_range 32 m) -> stringToAvailableMaps (join_maps maps) = maps.
Proof.
  intros Hm. unfold stringToAvailableMaps.
  assert (Hone : forall m, in_range 32 m -> wrap32 <$> Atoi (fmt_d m) = Some m).
  { intros m Hr. rewrite Atoi_fmt_d by word_lia. simpl. by rewrite wrap_small. }
  induction maps as [|m maps IH]; [done|].
  assert (in_range 32 m) as Hr by (apply Hm; left). assert (0 <= m) by word_lia.
  destruct maps as [|k maps].
  - simpl. rewrite split_comma_last by (by apply fmt_d_no_comma). simpl. by rewrite Hone.
  - cbn [join_maps]. rewrite append_String, append_nil.
    rewrite split_comma_digits by (by apply fmt_d_no_comma). simpl omap. rewrite Hone by done.
    f_equal. apply IH. intros; apply Hm; by right.
Qed.

Lemma available_maps_roundtrip_witness :
  join_maps [0; 530; 571] = "0,530,571" /\ stringToAvailableMaps "0,530,571" = [0; 530; 571].
Proof.
  split; [reflexivity|]. apply (available_maps_roundtrip [0; 530; 571]).
  intros m Hm. rewrite !elem_of_cons in Hm. unfold in_range.
  destruct Hm as [->|[->|[->|Hm]]]; [lia..|by apply elem_of_nil in Hm].
Defined.
