(* ===== verification/Battleground.v ===== *)
(** * Battleground: battlegrounds, their brackets and templates
    (apps/matchmakingserver/battleground/battleground.go, players-group.go,
    repo/battleground-template.go) *)
From S2P Require Import Prelude GoRuntime ObjectGuid.

(** ** Types and constants *)
Abbreviation QueueTypeID := Z (only parsing).
Definition QueueTypeIDNone : QueueTypeID := 0.
Definition QueueTypeIDAlteracValley : QueueTypeID := 1.
Definition QueueTypeIDWarsongGulch : QueueTypeID := 2.
Definition QueueTypeIDArathiBasin : QueueTypeID := 3.
Definition QueueTypeIDNagrandArena : QueueTypeID := 4.
Definition QueueTypeIDBladesEdgeArena : QueueTypeID := 5.
Definition QueueTypeIDAllArenas : QueueTypeID := 6.
Definition QueueTypeIDEyeOfTheStorm : QueueTypeID := 7.
Definition QueueTypeIDRuinsOfLordaeron : QueueTypeID := 8.
Definition QueueTypeIDStrandOfTheAncients : QueueTypeID := 9.
Definition QueueTypeIDDalaranSewers : QueueTypeID := 10.
Definition QueueTypeIDRingOfValor : QueueTypeID := 11.
Definition QueueTypeIDIsleOfConquest : QueueTypeID := 30.
Definition QueueTypeIDRandomBattleground : QueueTypeID := 32.
Definition QueueTypeIDEnd : QueueTypeID := 33.

Abbreviation PVPTeam := Z (only parsing).
Definition TeamAny : PVPTeam := 0.
Definition TeamAlliance : PVPTeam := 1.
Definition TeamHorde : PVPTeam := 2.

Abbreviation Status := Z (only parsing).
Definition StatusNone : Status := 0.
Definition StatusWaitQueue : Status := 1.
Definition StatusWaitJoin : Status := 2.
Definition StatusInProgress : Status := 3.
Definition StatusEnded : Status := 4.

(** Times are milliseconds on the process's clock. *)
Record InvitedPlayer := { GUID : PlayerUnwrapped; InvitedTime : Z }.

(** battleground.QueuedGroup *)
Record BGQueuedGroup := {
  bqg_LeaderGUID : PlayerUnwrapped; bqg_Members : list PlayerUnwrapped;
  bqg_SlotsPerMember : gmap PlayerUnwrapped u8; bqg_RealmID : u32; bqg_TeamID : PVPTeam;
  bqg_EnqueuedTime : Z
}.

(** The two arrays have one slot for each team value. *)
Record Battleground := {
  InstanceID : u32; bg_MapID : u32; GameserverAddress : string; BattlegroundTypeID : u8;
  bg_QueueTypeID : QueueTypeID; bg_BracketID : u8; bg_BattleGroupID : u32; bg_RealmID : u32;
  MinPlayersPerTeam : u8; MaxPlayersPerTeam : u8; bg_Status : Status;
  ActivePlayersPerTeam : list (list PlayerUnwrapped);
  InvitedPlayersPerTeam : list (list InvitedPlayer)
}.
Definition no_teams {A} : list (list A) := [[]; []; []].

Definition bg_set_status (b : Battleground) (s : Status) : Battleground :=
  {| InstanceID := InstanceID b; bg_MapID := bg_MapID b; GameserverAddress := GameserverAddress b;
     BattlegroundTypeID := BattlegroundTypeID b; bg_QueueTypeID := bg_QueueTypeID b;
     bg_BracketID := bg_BracketID b; bg_BattleGroupID := bg_BattleGroupID b; bg_RealmID := bg_RealmID b;
     MinPlayersPerTeam := MinPlayersPerTeam b; MaxPlayersPerTeam := MaxPlayersPerTeam b; bg_Status := s;
     ActivePlayersPerTeam := ActivePlayersPerTeam b; InvitedPlayersPerTeam := InvitedPlayersPerTeam b |}.
Definition bg_set_players (b : Battleground) active invited : Battleground :=
  {| InstanceID := InstanceID b; bg_MapID := bg_MapID b; GameserverAddress := GameserverAddress b;
     BattlegroundTypeID := BattlegroundTypeID b; bg_QueueTypeID := bg_QueueTypeID b;
     bg_BracketID := bg_BracketID b; bg_BattleGroupID := bg_BattleGroupID b; bg_RealmID := bg_RealmID b;
     MinPlayersPerTeam := MinPlayersPerTeam b; MaxPlayersPerTeam := MaxPlayersPerTeam b;
     bg_Status := bg_Status b; ActivePlayersPerTeam := active; InvitedPlayersPerTeam := invited |}.

(** What the matchmaking server publishes (shared/events/events-matchmaking.go). *)
Inductive mm_event :=
| PlayersQueued (realmID : u32) (players : list u32) (slots : gmap u32 u8) (minLvl maxLvl typeID : u8)
| PlayersInvited (realmID : u32) (players : list u32) (slots : gmap u32 u8) (minLvl maxLvl typeID : u8)
    (mapID : u32) (timeToAccept : u32)
| PlayersInviteExpired (realmID : u32) (players : list u32) (slots : gmap u32 u8).

Definition mm_SubjectName (e : mm_event) : string :=
  match e with
  | PlayersQueued _ _ _ _ _ _ => "matchmaking.pvpqueue.joined"
  | PlayersInvited _ _ _ _ _ _ _ _ => "matchmaking.pvpqueue.invited"
  | PlayersInviteExpired _ _ _ => "matchmaking.pvpqueue.invite.expired"
  end.

Inductive mm_err :=
| ErrPlayerNotFound | ErrAlreadyInQueue | ErrBGNotFound | ErrRegistry | ErrNoGameServers | ErrGrpcConn
| ErrStartBattleground | ErrMMBus | ErrUnknownQueueKey | ErrUnknownQueueType | ErrUnknownBracket
| ErrNotInvited | ErrParseRealm | ErrMMWrap (e : mm_err).

(** ** Levels and brackets *)
Definition BracketIDByLevel (level : u8) : u8 :=
  if level <? 10 then 1 else if 80 <=? level then 8 else level / 10.

Definition LevelsDiapasonForBracket (bracket : u8) : u8 * u8 :=
  if 8 <=? bracket then (80, 80) else (wrap8 (bracket * 10), wrap8 (bracket * 10 + 9)).

(** repo/battleground-template.go *)
Record BattlegroundTemplate := {
  t_TypeID : u32; t_MapID : u32; t_MinPlayersPerTeam : u8; t_MaxPlayersPerTeam : u8;
  MinLvl : u8; MaxLvl : u8; RandomBattlegroundWeight : int
}.

(** [for i := minLvl; i < maxLvl; i += 10]: with [10 <= i] and [maxLvl <= 80]
    there are at most seven rounds. *)
Fixpoint brackets_loop (fuel : nat) (i maxLvl : u8) : list u8 :=
  match fuel with
  | O => []
  | S fuel =>
    if i <? maxLvl then BracketIDByLevel i :: brackets_loop fuel (wrap8 (i + 10)) maxLvl else []
  end.

Definition GetAllBrackets (t : BattlegroundTemplate) : list u8 :=
  let minLvl := if MinLvl t <? 10 then 10 else MinLvl t in
  let maxLvl := if 80 <? MaxLvl t then 80 else MaxLvl t in
  brackets_loop 8 minLvl maxLvl ++ [BracketIDByLevel (MaxLvl t)].

Definition battlegroundTypeToMapID (typeID : u32) : u32 :=
  let ty := wrap8 typeID in
  if ty =? QueueTypeIDAlteracValley then 30
  else if ty =? QueueTypeIDWarsongGulch then 489
  else if ty =? QueueTypeIDArathiBasin then 529
  else if ty =? QueueTypeIDNagrandArena then 559
  else if ty =? QueueTypeIDBladesEdgeArena then 562
  else if ty =? QueueTypeIDAllArenas then 559
  else if ty =? QueueTypeIDEyeOfTheStorm then 566
  else if ty =? QueueTypeIDRuinsOfLordaeron then 572
  else if ty =? QueueTypeIDStrandOfTheAncients then 607
  else if ty =? QueueTypeIDDalaranSewers then 617
  else if ty =? QueueTypeIDRingOfValor then 618
  else if ty =? QueueTypeIDIsleOfConquest then 628
  else if ty =? QueueTypeIDRandomBattleground then 30
  else 30.

(** ** The methods of a battleground *)
Definition team {A} (teams : list (list A)) (t : PVPTeam) : list A := default [] (teams !! Z.to_nat t).

Definition FreeSlotsForTeam (b : Battleground) (t : PVPTeam) : u8 :=
  let r := MaxPlayersPerTeam b - (len (team (ActivePlayersPerTeam b) t) + len (team (InvitedPlayersPerTeam b) t)) in
  if r <? 0 then 0 else wrap8 r.

Definition IsActive (b : Battleground) : bool := negb (bg_Status b =? StatusEnded).

(** [append(l[:i], l[i+1:]...)] at the first element that matches. *)
Fixpoint cut_first {A} (f : A -> bool) (l : list A) : option (list A) :=
  match l with
  | [] => None
  | x :: l => if f x then Some l else cons x <$> cut_first f l
  end.
(** The first team that has such an element loses it. *)
Fixpoint cut_team {A} (f : A -> bool) (teams : list (list A)) : list (list A) :=
  match teams with
  | [] => []
  | t :: teams => match cut_first f t with Some t' => t' :: teams | None => t :: cut_team f teams end
  end.

Definition is_player (u v : PlayerUnwrapped) : bool := bool_decide (v = u).
Definition is_invite (u : PlayerUnwrapped) (p : InvitedPlayer) : bool := bool_decide (GUID p = u).

Fixpoint team_with {A} (f : A -> bool) (i : Z) (teams : list (list A)) : option PVPTeam :=
  match teams with
  | [] => None
  | t :: teams => if existsb f t then Some i else team_with f (i + 1) teams
  end.
(** [(found, team)] *)
Definition TeamForInvitedPlayer (b : Battleground) (playerGUID : u64) (realmID : u32) : option PVPTeam :=
  team_with (is_invite (unwrap_player realmID playerGUID)) 0 (InvitedPlayersPerTeam b).

Definition RemovePlayerFromInvite (b : Battleground) (playerGUID : u64) (realmID : u32) : Battleground :=
  bg_set_players b (ActivePlayersPerTeam b)
    (cut_team (is_invite (unwrap_player realmID playerGUID)) (InvitedPlayersPerTeam b)).

Definition RemovePlayer (b : Battleground) (playerGUID : u64) (realmID : u32) : Battleground :=
  RemovePlayerFromInvite
    (bg_set_players b (cut_team (is_player (unwrap_player realmID playerGUID)) (ActivePlayersPerTeam b))
       (InvitedPlayersPerTeam b))
    playerGUID realmID.

Definition AddActivePlayer (b : Battleground) (playerGUID : u64) (realmID : u32) (t : PVPTeam) : Battleground :=
  bg_set_players b
    (alter (fun l => l ++ [unwrap_player realmID playerGUID]) (Z.to_nat t) (ActivePlayersPerTeam b))
    (InvitedPlayersPerTeam b).

(** The copy shares nothing with the original. *)
Definition DeepCopy (b : Battleground) : Battleground := b.

Section Invite.
Context `{MapRange}.
Abbreviation M A := (go Battleground mm_event mm_err A).

Definition by_realm (groups : list BGQueuedGroup) : gmap u32 (list BGQueuedGroup) :=
  foldl (fun m g => <[bqg_RealmID g := default [] (m !! bqg_RealmID g) ++ [g]]> m) ∅ groups.

(** The members and then the leader get an invitation; the event lists the
    leader first. *)
Definition invitations (now : Z) (g : BGQueuedGroup) : list InvitedPlayer :=
  (fun m => {| GUID := m; InvitedTime := now |}) <$> (bqg_Members g ++ [bqg_LeaderGUID g]).
Definition invited_guids (g : BGQueuedGroup) : list u32 := LowGUID <$> bqg_LeaderGUID g :: bqg_Members g.
Definition invited_slots (slots : gmap u32 u8) (g : BGQueuedGroup) : gmap u32 u8 :=
  foldl (fun slots m => <[LowGUID m := default 0 (bqg_SlotsPerMember g !! m)]> slots) slots
    (bqg_Members g ++ [bqg_LeaderGUID g]).

Definition add_invitations (t : PVPTeam) (l : list InvitedPlayer) (b : Battleground) : Battleground :=
  bg_set_players b (ActivePlayersPerTeam b) (alter (fun i => i ++ l) (Z.to_nat t) (InvitedPlayersPerTeam b)).

Fixpoint invite_realms (t : PVPTeam) (now : Z) (l : list (u32 * list BGQueuedGroup)) : M unit :=
  match l with
  | [] => mret tt
  | (realm, queuedGroups) :: l =>
    modify (add_invitations t (concat (invitations now <$> queuedGroups))) ;;
    b ← gets id;
    publish ErrMMBus
      (PlayersInvited realm (concat (invited_guids <$> queuedGroups)) (foldl invited_slots ∅ queuedGroups)
         (LevelsDiapasonForBracket (bg_BracketID b)).1 (LevelsDiapasonForBracket (bg_BracketID b)).2
         (bg_QueueTypeID b) (bg_MapID b) 60000) ;;
    invite_realms t now l
  end.
(** One event for each realm that has groups among those invited. *)
Definition InviteGroups (t : PVPTeam) (now : Z) (groups : list BGQueuedGroup) : M unit :=
  invite_realms t now (go_range 0 (by_realm groups)).

(** *** Every group is invited once *)
Lemma by_realm_perm groups :
  concat (map_to_list (by_realm groups)).*2 ≡ₚ groups.
Proof.
  unfold by_realm. assert (Hgen : forall l (m : gmap u32 (list BGQueuedGroup)),
    concat (map_to_list (foldl (fun m g => <[bqg_RealmID g := default [] (m !! bqg_RealmID g) ++ [g]]> m) m l)).*2
      ≡ₚ concat (map_to_list m).*2 ++ l).
  { induction l as [|g l IH]; intros m; simpl; [by rewrite app_nil_r|]. rewrite IH.
    assert (concat (map_to_list (<[bqg_RealmID g := default [] (m !! bqg_RealmID g) ++ [g]]> m)).*2
      ≡ₚ g :: concat (map_to_list m).*2) as ->.
    { destruct (m !! bqg_RealmID g) as [old|] eqn:E; simpl.
      - rewrite <- (insert_delete_eq m). rewrite (map_to_list_insert (delete _ m)) by apply lookup_delete_eq.
        rewrite <- (map_to_list_delete m _ _ E). simpl. rewrite <- app_assoc. simpl.
        by rewrite <- Permutation_middle.
      - by rewrite map_to_list_insert. }
    by rewrite <- Permutation_middle. }
  specialize (Hgen groups ∅). by rewrite map_to_list_empty in Hgen.
Qed.

Lemma range_by_realm n groups : concat (go_range n (by_realm groups)).*2 ≡ₚ groups.
Proof. rewrite go_range_perm. apply by_realm_perm. Qed.

Lemma add_invitations_app t l k b :
  add_invitations t k (add_invitations t l b) = add_invitations t (l ++ k) b.
Proof.
  destruct b. unfold add_invitations, bg_set_players; simpl. f_equal.
  rewrite list_alter_alter_eq. apply list_alter_ext; [|done]. intros x _; simpl. by rewrite app_assoc.
Qed.
Lemma add_invitations_nil t b : add_invitations t [] b = b.
Proof.
  destruct b. unfold add_invitations, bg_set_players; simpl. f_equal.
  rewrite list_alter_id; [done|]. intros x. apply app_nil_r.
Qed.

Lemma invite_realms_ok t now l : forall (s : sys Battleground mm_event) u s',
  invite_realms t now l s = (Ok u, s') ->
  st s' = add_invitations t (concat (invitations now <$> concat l.*2)) (st s).
Proof.
  induction l as [|[r gs] l IH]; intros s u s' Hrun; cbn [invite_realms] in Hrun; inv_ok.
  - simpl. by rewrite add_invitations_nil.
  - match goal with Hr : invite_realms _ _ l _ = _ |- _ => apply IH in Hr; rewrite Hr end. simpl.
    rewrite fmap_app, concat_app, <- add_invitations_app.
    simpl in *. by match goal with Hs : st ?x = _ |- context [st ?x] => rewrite Hs end.
Qed.

(** A successful invitation invites every member and every leader, once. *)
Lemma InviteGroups_ok t now groups (s : sys Battleground mm_event) u s' :
  InviteGroups t now groups s = (Ok u, s') ->
  exists l, l ≡ₚ concat (invitations now <$> groups) /\ st s' = add_invitations t l (st s).
Proof.
  intros ->%invite_realms_ok. eexists. split; [|done]. apply concat_fmap_perm_l, range_by_realm.
Qed.
End Invite.

(** ** Brackets *)
Lemma brackets_loop_spec fuel : forall i maxLvl b,
  10 <= i -> maxLvl <= 80 -> maxLvl - i <= 10 * Z.of_nat fuel ->
  b ∈ brackets_loop fuel i maxLvl <-> exists k, 0 <= k /\ i + 10 * k < maxLvl /\ b = BracketIDByLevel (i + 10 * k).
Proof.
  induction fuel as [|fuel IH]; intros i maxLvl b Hi Hm Hf; cbn [brackets_loop].
  - rewrite elem_of_nil. split; [done|]. intros (k & ? & ? & _). lia.
  - destruct (Z.ltb_spec i maxLvl) as [Hlt|Hge].
    + rewrite wrap_small by word_lia. rewrite elem_of_cons, IH by lia. split.
      * intros [->|(k & Hk & Hlk & ->)]; [exists 0; split_and!; [lia|lia|f_equal; lia]|].
        exists (k + 1). split_and!; [lia|lia|f_equal; lia].
      * intros (k & Hk & Hlk & ->). destruct (decide (k = 0)) as [->|Hne]; [left; f_equal; lia|].
        right. exists (k - 1). split_and!; [lia|lia|f_equal; lia].
    + rewrite elem_of_nil. split; [done|]. intros (k & ? & ? & _). lia.
Qed.

Lemma bracket_tens level : 10 <= level < 80 -> BracketIDByLevel level = level / 10.
Proof.
  intros Hl. unfold BracketIDByLevel. destruct (Z.ltb_spec level 10); [lia|].
  by destruct (Z.leb_spec 80 level); [lia|].
Qed.
Lemma bracket_below level : level < 10 -> BracketIDByLevel level = 1.
Proof. intros Hl. unfold BracketIDByLevel. by destruct (Z.ltb_spec level 10); [|lia]. Qed.
Lemma bracket_top level : 80 <= level -> BracketIDByLevel level = 8.
Proof.
  intros Hl. unfold BracketIDByLevel. destruct (Z.ltb_spec level 10); [lia|].
  by destruct (Z.leb_spec 80 level); [|lia].
Qed.

(** The queues created for a battleground are those of its brackets: a
    bracket is listed exactly when some level the template allows is in it,
    so a player of an allowed level always finds a queue. *)
Theorem brackets_cover (t : BattlegroundTemplate) (b : u8) :
  in_range 8 (MinLvl t) -> in_range 8 (MaxLvl t) -> MinLvl t <= MaxLvl t ->
  b ∈ GetAllBrackets t <-> exists level, MinLvl t <= level <= MaxLvl t /\ b = BracketIDByLevel level.
Proof.
  intros Hmin Hmax Hle. unfold GetAllBrackets.
  set (lo := if MinLvl t <? 10 then 10 else MinLvl t). set (hi := if 80 <? MaxLvl t then 80 else MaxLvl t).
  assert (Hlo : 10 <= lo /\ MinLvl t <= lo /\ (10 < lo -> lo = MinLvl t))
    by (unfold lo; destruct (Z.ltb_spec (MinLvl t) 10); lia).
  assert (Hhi : hi <= 80 /\ hi <= MaxLvl t /\ (hi < 80 -> hi = MaxLvl t))
    by (unfold hi; destruct (Z.ltb_spec 80 (MaxLvl t)); lia).
  rewrite elem_of_app, brackets_loop_spec, list_elem_of_singleton by lia. split.
  - intros [(k & Hk & Hlk & ->)| ->]; [|exists (MaxLvl t); split; [lia|done]].
    exists (lo + 10 * k). split; [lia|done].
  - intros (level & Hl & ->). destruct (Z.ltb_spec level 10) as [Hlow|Hlow].
    { rewrite (bracket_below level) by lia. destruct (Z.ltb_spec lo hi) as [Hin|Hout].
      - left. exists 0. split_and!; [lia|lia|]. assert (lo = 10) as -> by lia. done.
      - right. symmetry. destruct (Z.ltb_spec (MaxLvl t) 10); [by apply bracket_below|].
        rewrite bracket_tens by lia. Z.to_euclidean_division_equations; lia. }
    destruct (Z.leb_spec 80 level) as [Htop|Htop]; [right; rewrite !bracket_top by lia; done|].
    destruct (decide (MaxLvl t < 80 /\ MaxLvl t / 10 = level / 10)) as [[Hm Heq]|Hne].
    { right. rewrite !bracket_tens by lia. done. }
    left. exists (level / 10 - lo / 10).
    assert (lo <= level) by lia.
    assert (level / 10 < hi / 10) by (Z.to_euclidean_division_equations; lia).
    split_and!; [Z.to_euclidean_division_equations; lia..|].
    rewrite !bracket_tens by (Z.to_euclidean_division_equations; lia).
    Z.to_euclidean_division_equations; lia.
Qed.

Lemma brackets_cover_witness :
  5 ∈ GetAllBrackets {| t_TypeID := 2; t_MapID := 489; t_MinPlayersPerTeam := 5; t_MaxPlayersPerTeam := 10;
                        MinLvl := 35; MaxLvl := 80; RandomBattlegroundWeight := 1 |}.
Proof.
  apply brackets_cover; [vm_compute; split; congruence..|vm_compute; congruence|].
  exists 51. split; [vm_compute; split; congruence|reflexivity].
Defined.

(** The cases of the Go test. *)
Definition level_template (lo hi : u8) : BattlegroundTemplate :=
  {| t_TypeID := 2; t_MapID := 489; t_MinPlayersPerTeam := 5; t_MaxPlayersPerTeam := 10;
     MinLvl := lo; MaxLvl := hi; RandomBattlegroundWeight := 1 |}.
Example brackets_1_80 : GetAllBrackets (level_template 1 80) = [1; 2; 3; 4; 5; 6; 7; 8].
Proof. reflexivity. Qed.
Example brackets_35_100 : GetAllBrackets (level_template 35 100) = [3; 4; 5; 6; 7; 8].
Proof. reflexivity. Qed.
