(* ===== verification/BattlegroundQueue.v ===== *)
(** * BattlegroundQueue: one queue of the matchmaking server
    (apps/matchmakingserver/service/battleground-queue.go)

    The bookkeeping of a queue and the formation of teams.  What a queue does
    with the teams it finds is in [Matchmaking]. *)
From S2P Require Import Prelude GoRuntime ObjectGuid Battleground.

Record QueuedGroup := {
  LeaderGUID : PlayerUnwrapped; Members : list PlayerUnwrapped;
  SlotsPerMember : gmap PlayerUnwrapped u8; qg_RealmID : u32; TeamID : PVPTeam;
  EnqueuedTime : Z; IsRandomQueue : bool
}.
Definition zero_player : PlayerUnwrapped := {| RealmID := 0; LowGUID := 0 |}.
Definition zero_group : QueuedGroup :=
  {| LeaderGUID := zero_player; Members := []; SlotsPerMember := ∅; qg_RealmID := 0; TeamID := TeamAny;
     EnqueuedTime := 0; IsRandomQueue := false |}.
Definition set_slots (g : QueuedGroup) (slots : gmap PlayerUnwrapped u8) : QueuedGroup :=
  {| LeaderGUID := LeaderGUID g; Members := Members g; SlotsPerMember := slots; qg_RealmID := qg_RealmID g;
     TeamID := TeamID g; EnqueuedTime := EnqueuedTime g; IsRandomQueue := IsRandomQueue g |}.
Definition set_random (g : QueuedGroup) : QueuedGroup :=
  {| LeaderGUID := LeaderGUID g; Members := Members g; SlotsPerMember := SlotsPerMember g;
     qg_RealmID := qg_RealmID g; TeamID := TeamID g; EnqueuedTime := EnqueuedTime g; IsRandomQueue := true |}.

(** GenericBattlegroundQueue; [is_random] tells the ones a
    BattlegroundRandomQueue wraps. *)
Record Queue := {
  q_BattlegroundTypeID : u8; q_QueueTypeID : QueueTypeID; q_BracketID : u8; q_BattleGroupID : u32;
  q_RealmID : u32; is_random : bool;
  queuedGroups : gmap PlayerUnwrapped QueuedGroup;
  playersGroupLeaderByPlayer : gmap PlayerUnwrapped PlayerUnwrapped
}.
Definition q_set (q : Queue) groups leaders : Queue :=
  {| q_BattlegroundTypeID := q_BattlegroundTypeID q; q_QueueTypeID := q_QueueTypeID q;
     q_BracketID := q_BracketID q; q_BattleGroupID := q_BattleGroupID q; q_RealmID := q_RealmID q;
     is_random := is_random q; queuedGroups := groups; playersGroupLeaderByPlayer := leaders |}.
Definition q_set_type (q : Queue) (typeID : u8) : Queue :=
  {| q_BattlegroundTypeID := typeID; q_QueueTypeID := q_QueueTypeID q;
     q_BracketID := q_BracketID q; q_BattleGroupID := q_BattleGroupID q; q_RealmID := q_RealmID q;
     is_random := is_random q; queuedGroups := queuedGroups q;
     playersGroupLeaderByPlayer := playersGroupLeaderByPlayer q |}.

Definition NewGenericBattlegroundQueue (template : BattlegroundTemplate) (realmID battlegroupID : u32)
    (bracketID : u8) : Queue :=
  {| q_BattlegroundTypeID := wrap8 (t_TypeID template); q_QueueTypeID := wrap8 (t_TypeID template);
     q_BracketID := bracketID; q_BattleGroupID := battlegroupID; q_RealmID := realmID; is_random := false;
     queuedGroups := ∅; playersGroupLeaderByPlayer := ∅ |}.
Definition NewBattlegroundRandomQueue (template : BattlegroundTemplate) (realmID battlegroupID : u32)
    (bracketID : u8) : Queue :=
  {| q_BattlegroundTypeID := wrap8 (t_TypeID template); q_QueueTypeID := QueueTypeIDRandomBattleground;
     q_BracketID := bracketID; q_BattleGroupID := battlegroupID; q_RealmID := realmID; is_random := true;
     queuedGroups := ∅; playersGroupLeaderByPlayer := ∅ |}.

Definition GetQueueTypeID (q : Queue) : QueueTypeID :=
  if is_random q then QueueTypeIDRandomBattleground else q_QueueTypeID q.

(** ** Bookkeeping *)

(** The part of AddQueuedGroup under the lock. *)
Definition add_group (g : QueuedGroup) (q : Queue) : Queue :=
  q_set q (<[LeaderGUID g := g]> (queuedGroups q))
    (<[LeaderGUID g := LeaderGUID g]>
       (foldl (fun m member => <[member := LeaderGUID g]> m) (playersGroupLeaderByPlayer q) (Members g))).

Definition forget_players (ms : list PlayerUnwrapped) (m : gmap PlayerUnwrapped PlayerUnwrapped) :=
  foldl (fun m p => delete p m) m ms.

(** [None]: ErrPlayerNotFound. *)
Definition RemoveQueuedGroup (player : PlayerUnwrapped) (q : Queue) : option Queue :=
  leaderID ← playersGroupLeaderByPlayer q !! player;
  let members := Members (default zero_group (queuedGroups q !! leaderID)) in
  Some (q_set q (delete leaderID (queuedGroups q)) (forget_players members (playersGroupLeaderByPlayer q))).

Definition removeGroupFromQueue (g : QueuedGroup) (q : Queue) : Queue :=
  q_set q (delete (LeaderGUID g) (queuedGroups q)) (forget_players (Members g) (playersGroupLeaderByPlayer q)).

Definition RemoveAllQueuedGroups (q : Queue) : Queue := q_set q ∅ ∅.

(** A leader without a group gives a pointer to the zero group. *)
Definition QueuedGroupByPlayer (q : Queue) (player : PlayerUnwrapped) : option QueuedGroup :=
  leader ← playersGroupLeaderByPlayer q !! player;
  Some (default zero_group (queuedGroups q !! leader)).

(** ** Team formation *)
Definition group_size (g : QueuedGroup) : int := len (Members g) + 1.
Definition totalMembers (groups : list QueuedGroup) : int := zsum group_size groups.

Record candidate := { best : list QueuedGroup; bestTotal : int; bestDiff : int }.

(** [backtrack(index, current, currentTotal, currentDiff)] on the groups from
    [index] on; the last argument is what the closure has found so far. *)
Fixpoint backtrack (minPlayers maxPlayers : int) (groups current : list QueuedGroup)
    (currentTotal currentDiff : int) (b : candidate) : candidate :=
  match groups with
  | [] =>
    if (minPlayers <=? currentTotal) && (currentTotal <=? maxPlayers) &&
       ((bestTotal b <? currentTotal) || ((currentTotal =? bestTotal b) && (currentDiff <? bestDiff b)))
    then {| best := current; bestTotal := currentTotal; bestDiff := currentDiff |}
    else b
  | g :: groups =>
    let maxPossiblePlayers := currentTotal + len (Members g) + 1 in
    let diff := Z.abs (maxPossiblePlayers - maxPlayers) in
    let b := if diff <=? bestDiff b
             then backtrack minPlayers maxPlayers groups (current ++ [g]) maxPossiblePlayers diff b
             else b in
    backtrack minPlayers maxPlayers groups current currentTotal currentDiff b
  end.

Definition findBestGroups (groups : list QueuedGroup) (minPlayers maxPlayers : int) : list QueuedGroup :=
  best (backtrack minPlayers maxPlayers groups [] 0 maxPlayers
          {| best := []; bestTotal := 0; bestDiff := maxPlayers |}).

Definition larger_first (a b : QueuedGroup) : bool := len (Members b) <? len (Members a).
Definition same_leader (g h : QueuedGroup) : bool := bool_decide (LeaderGUID h = LeaderGUID g).

Section Formation.
Context `{MapRange} `{SortSlice}.

Definition GetAllQueuedGroups (q : Queue) : list QueuedGroup := (go_range 0 (queuedGroups q)).*2.

(** The groups that can play for a team, largest first. *)
Definition candidates (t : PVPTeam) (q : Queue) : list QueuedGroup :=
  sort_slice larger_first
    (filter (fun g => TeamID g = t \/ TeamID g = TeamAny) (go_range 1 (queuedGroups q)).*2).

Definition balancedGroups (minPlayers maxPlayers : int) (q : Queue) : list QueuedGroup * list QueuedGroup :=
  let allianceGroups := candidates TeamAlliance q in
  let bestAlliance := findBestGroups allianceGroups minPlayers maxPlayers in
  let hordeGroups := foldl (fun hs g => default hs (cut_first (same_leader g) hs))
                       (candidates TeamHorde q) bestAlliance in
  let bestHorde := findBestGroups hordeGroups minPlayers maxPlayers in
  let totalBestHorde := totalMembers bestHorde in
  let totalBestAlliance := totalMembers bestAlliance in
  if 1 <? Z.abs (totalBestHorde - totalBestAlliance) then
    if totalBestAlliance <? totalBestHorde
    then (bestAlliance, findBestGroups hordeGroups minPlayers (totalBestAlliance + 1))
    else (findBestGroups allianceGroups minPlayers (totalBestHorde + 1), bestHorde)
  else (bestAlliance, bestHorde).

Fixpoint take_groups (slots : u8) (t : PVPTeam) (groups : list QueuedGroup) : list QueuedGroup :=
  match groups with
  | [] => []
  | g :: groups =>
    if slots =? 0 then []
    else if negb ((TeamID g =? t) || (TeamID g =? TeamAny)) || (slots <? wrap8 (len (Members g)))
    then take_groups slots t groups
    else g :: take_groups (wrap8 (slots - wrap8 (len (Members g)))) t groups
  end.
Definition findGroupsForGivenSlots (slots : u8) (t : PVPTeam) (q : Queue) : list QueuedGroup :=
  take_groups slots t (go_range 2 (queuedGroups q)).*2.
End Formation.

(** ** The search for a team *)
Lemma group_size_pos g : 1 <= group_size g.
Proof. unfold group_size, len. lia. Qed.
Lemma totalMembers_nonneg gs : 0 <= totalMembers gs.
Proof. apply zsum_nonneg. intros g _. pose proof (group_size_pos g). lia. Qed.
Lemma totalMembers_snoc gs g : totalMembers (gs ++ [g]) = totalMembers gs + len (Members g) + 1.
Proof. unfold totalMembers. rewrite zsum_app. cbn. unfold group_size. lia. Qed.
Lemma totalMembers_cons g gs : totalMembers (g :: gs) = len (Members g) + 1 + totalMembers gs.
Proof. reflexivity. Qed.

Section Search.
Variables (minPlayers maxPlayers : int).
Hypothesis max_nonneg : 0 <= maxPlayers.

(** What holds of the best team found so far, among [all]. *)
Record admissible (all : list QueuedGroup) (b : candidate) : Prop := {
  adm_sub : best b `sublist_of` all;
  adm_total : bestTotal b = totalMembers (best b);
  adm_diff : bestDiff b = maxPlayers - bestTotal b;
  adm_size : best b <> [] -> minPlayers <= bestTotal b <= maxPlayers
}.

Lemma backtrack_admissible gs : forall pre current b,
  current `sublist_of` pre -> admissible (pre ++ gs) b ->
  let r := backtrack minPlayers maxPlayers gs current (totalMembers current)
             (Z.abs (totalMembers current - maxPlayers)) b in
  admissible (pre ++ gs) r /\ bestTotal b <= bestTotal r.
Proof.
  induction gs as [|g gs IH]; intros pre current b Hcur Hb; cbn [backtrack].
  - destruct (_ && _ && _) eqn:E; [|split; [done|lia]].
    apply andb_prop in E as [[Hmin%Z.leb_le Hmax%Z.leb_le]%andb_prop Hbetter].
    split; [constructor; simpl|]; [by rewrite app_nil_r|done|lia|done|simpl].
    apply orb_prop in Hbetter as [?%Z.ltb_lt|[?%Z.eqb_eq _]%andb_prop]; lia.
  - rewrite <- totalMembers_snoc. rewrite (cons_middle g pre gs), (assoc_L (++)) in Hb |- *.
    destruct (Z.leb _ _).
    + destruct (IH (pre ++ [g]) (current ++ [g]) b) as [H1 Hle1];
        [by apply sublist_app|done|].
      destruct (IH (pre ++ [g]) current _ (sublist_inserts_r _ _ _ Hcur) H1) as [H2 Hle2].
      split; [exact H2|lia].
    + destruct (IH (pre ++ [g]) current b (sublist_inserts_r _ _ _ Hcur) Hb) as [H2 Hle2]. by split.
Qed.

(** While nothing is found, no admissible team is cut off. *)
Lemma backtrack_complete gs : forall pre current b s,
  current `sublist_of` pre -> admissible (pre ++ gs) b -> s `sublist_of` gs ->
  0 < totalMembers (current ++ s) -> minPlayers <= totalMembers (current ++ s) <= maxPlayers ->
  0 < bestTotal (backtrack minPlayers maxPlayers gs current (totalMembers current)
                   (Z.abs (totalMembers current - maxPlayers)) b).
Proof.
  induction gs as [|g gs IH]; intros pre current b s Hcur Hb Hs Hpos Hin.
  - apply sublist_nil_r in Hs as ->. rewrite app_nil_r in *. cbn [backtrack].
    destruct (_ && _ && _) eqn:E; [done|]. apply andb_false_iff in E as [E|E].
    { apply andb_false_iff in E as [?%Z.leb_gt|?%Z.leb_gt]; lia. }
    apply orb_false_iff in E as [?%Z.ltb_ge _]. lia.
  - cbn [backtrack]. rewrite <- totalMembers_snoc.
    rewrite (cons_middle g pre gs), (assoc_L (++)) in Hb.
    assert (Hcur' : current `sublist_of` pre ++ [g]) by by apply sublist_inserts_r.
    assert (Hcurg : current ++ [g] `sublist_of` pre ++ [g]) by by apply sublist_app.
    set (b1 := if Z.leb _ _ then _ else b).
    assert (Hb1 : admissible ((pre ++ [g]) ++ gs) b1 /\ bestTotal b <= bestTotal b1).
    { unfold b1. destruct (Z.leb _ _); [by apply backtrack_admissible|split; [done|lia]]. }
    destruct Hb1 as [Hb1 Hle1].
    pose proof (proj2 (backtrack_admissible gs (pre ++ [g]) current b1 Hcur' Hb1)) as Hle2.
    destruct (decide (0 < bestTotal b1)) as [Hfound|Hnone]; [lia|].
    apply sublist_cons_r in Hs as [Hs|(s' & -> & Hs)].
    + by apply (IH (pre ++ [g]) current b1 s).
    + exfalso. apply Hnone. rewrite cons_middle, (assoc_L (++)) in Hpos, Hin.
      unfold b1. destruct (Z.leb_spec (Z.abs (totalMembers (current ++ [g]) - maxPlayers)) (bestDiff b)) as [Hd|Hd].
      * by apply (IH (pre ++ [g]) (current ++ [g]) b s').
      * exfalso. assert (Hz : 0 <= bestTotal b) by (rewrite (adm_total _ _ Hb); apply totalMembers_nonneg).
        rewrite (adm_diff _ _ Hb) in Hd.
        assert (totalMembers (current ++ [g]) <= maxPlayers).
        { unfold totalMembers in *. rewrite zsum_app in Hin. pose proof (totalMembers_nonneg s'). unfold totalMembers in *. lia. }
        pose proof (totalMembers_nonneg (current ++ [g])). lia.
Qed.

(** Beyond the limit nothing is found. *)
Lemma backtrack_over gs : forall current t d b,
  maxPlayers < t -> backtrack minPlayers maxPlayers gs current t d b = b.
Proof.
  induction gs as [|g gs IH]; intros current t d b Ht; cbn [backtrack].
  - destruct (Z.leb_spec t maxPlayers); [lia|]. by rewrite andb_false_r.
  - rewrite IH by done. destruct (Z.leb _ _); [|done]. apply IH. unfold len. lia.
Qed.

(** With groups of one size the first team found is the largest possible. *)
Definition reachable_total (w t : Z) (n : nat) : Z := t + w * Z.min (Z.of_nat n) ((maxPlayers - t) / w).

Lemma reachable_step w t n : 1 <= w -> 0 <= t -> t + w <= maxPlayers ->
  reachable_total w (t + w) n = reachable_total w t (S n).
Proof.
  intros Hw Ht Hm. unfold reachable_total.
  replace (maxPlayers - t) with (maxPlayers - (t + w) + 1 * w) by lia. rewrite Z.div_add by lia. lia.
Qed.
Lemma reachable_full w t n : 1 <= w -> t <= maxPlayers -> maxPlayers < t + w -> reachable_total w t n = t.
Proof. intros Hw Ht Hm. unfold reachable_total. rewrite Z.div_small by lia. lia. Qed.

Lemma backtrack_uniform w gs : forall pre current b,
  1 <= w -> (forall g, g ∈ gs -> group_size g = w) ->
  current `sublist_of` pre -> admissible (pre ++ gs) b ->
  let t := totalMembers current in
  t <= maxPlayers -> minPlayers <= reachable_total w t (length gs) ->
  bestTotal b = 0 \/ reachable_total w t (length gs) <= bestTotal b ->
  reachable_total w t (length gs) <=
    bestTotal (backtrack minPlayers maxPlayers gs current t (Z.abs (t - maxPlayers)) b).
Proof.
  intros pre current b Hw. revert pre current b.
  induction gs as [|g gs IH]; intros pre current b Hgs Hcur Hb t Ht Hmin Hbest.
  - cbn [length] in *. assert (Hr : reachable_total w t 0 = t).
    { unfold reachable_total. pose proof (Z.div_pos (maxPlayers - t) w). lia. }
    rewrite Hr in *. cbn [backtrack].
    destruct (_ && _ && _) eqn:E; [simpl; lia|]. apply andb_false_iff in E as [E|E].
    { apply andb_false_iff in E as [?%Z.leb_gt|?%Z.leb_gt]; lia. }
    apply orb_false_iff in E as [?%Z.ltb_ge _]. lia.
  - pose proof (proj2 (backtrack_admissible (g :: gs) pre current b Hcur Hb)) as Hmono. fold t in Hmono.
    destruct Hbest as [Hz|Hdone]; [|lia]. clear Hmono.
    assert (Hg : group_size g = w) by (apply Hgs; left). unfold group_size in Hg.
    assert (Hgs' : forall g, g ∈ gs -> group_size g = w) by (intros; apply Hgs; by right).
    assert (0 <= t) by apply totalMembers_nonneg.
    rewrite (cons_middle g pre gs), (assoc_L (++)) in Hb.
    assert (Hcur' : current `sublist_of` pre ++ [g]) by by apply sublist_inserts_r.
    assert (Hcurg : current ++ [g] `sublist_of` pre ++ [g]) by by apply sublist_app.
    cbn [backtrack length]. replace (t + len (Members g) + 1) with (totalMembers (current ++ [g]))
      by apply totalMembers_snoc.
    assert (Htg : totalMembers (current ++ [g]) = t + w) by (rewrite totalMembers_snoc; fold t; lia).
    destruct (Z.leb_spec (t + w) maxPlayers) as [Hfit|Hover].
    + rewrite Htg. destruct (Z.leb_spec (Z.abs (t + w - maxPlayers)) (bestDiff b)) as [_|Hd];
        [|rewrite (adm_diff _ _ Hb) in Hd; lia].
      rewrite <- Htg. destruct (backtrack_admissible gs _ _ b Hcurg Hb) as [Hb1 _].
      set (b1 := backtrack _ _ gs (current ++ [g]) _ _ b) in *.
      pose proof (proj2 (backtrack_admissible gs _ _ b1 Hcur' Hb1)) as Hle. fold t in Hle.
      etransitivity; [|exact Hle]. unfold b1. rewrite <- reachable_step, <- Htg by (rewrite ?Htg; lia).
      cbn [length] in Hmin. rewrite <- reachable_step in Hmin by lia.
      apply (IH (pre ++ [g])); try done; [lia|by rewrite Htg|by left].
    + cbn [length] in Hmin. rewrite reachable_full in Hmin |- * by lia.
      assert (Hrf : reachable_total w t (length gs) = t) by (apply reachable_full; lia).
      set (b1 := if Z.leb _ _ then _ else b). assert (b1 = b) as ->.
      { unfold b1. destruct (Z.leb _ _); [|done]. apply backtrack_over. lia. }
      rewrite <- Hrf at 1. apply (IH (pre ++ [g])); try done; fold t; [by rewrite Hrf|by left].
Qed.
End Search.

(** *** What the search returns *)
Lemma start_admissible minPlayers maxPlayers all :
  admissible minPlayers maxPlayers all {| best := []; bestTotal := 0; bestDiff := maxPlayers |}.
Proof. constructor; simpl; [apply sublist_nil_l|done|lia|done]. Qed.

Lemma findBestGroups_spec groups minPlayers maxPlayers :
  0 <= maxPlayers ->
  exists b, admissible minPlayers maxPlayers groups b /\ findBestGroups groups minPlayers maxPlayers = best b /\
    b = backtrack minPlayers maxPlayers groups [] (totalMembers []) (Z.abs (totalMembers [] - maxPlayers))
          {| best := []; bestTotal := 0; bestDiff := maxPlayers |}.
Proof.
  intros Hmax. eexists. split; [|split; [|reflexivity]].
  - apply (backtrack_admissible minPlayers maxPlayers groups [] []); [done|apply start_admissible].
  - unfold findBestGroups. change (totalMembers []) with 0. by replace (Z.abs (0 - maxPlayers)) with maxPlayers by lia.
Qed.

(** C39: the team the search returns is made of queued groups, each taken at
    most once, and has an admissible number of players; it is empty only when
    no choice of groups has one. *)
Theorem findBestGroups_sound_complete groups minPlayers maxPlayers :
  0 <= maxPlayers ->
  let r := findBestGroups groups minPlayers maxPlayers in
  r `sublist_of` groups /\
  (r <> [] -> minPlayers <= totalMembers r <= maxPlayers) /\
  (r = [] -> forall s, s `sublist_of` groups -> s <> [] -> ~ minPlayers <= totalMembers s <= maxPlayers).
Proof.
  intros Hmax r. destruct (findBestGroups_spec groups minPlayers maxPlayers Hmax) as (b & Hb & Hr & Heq).
  unfold r. rewrite Hr. split; [apply Hb|]. rewrite <- (adm_total _ _ _ _ Hb). split; [apply Hb|].
  intros Hnil s Hs Hne Hin. destruct s as [|g s]; [done|].
  assert (Hpos : 0 < totalMembers ([] ++ g :: s)).
  { rewrite app_nil_l, totalMembers_cons. pose proof (totalMembers_nonneg s). unfold len. lia. }
  pose proof (backtrack_complete minPlayers maxPlayers Hmax groups [] [] _ (g :: s) (sublist_nil_l _)
    (start_admissible _ _ _) Hs Hpos Hin) as Hbt.
  rewrite <- Heq, (adm_total _ _ _ _ Hb), Hnil in Hbt. by cbn in Hbt.
Qed.

(** The reference: try every choice of groups. *)
Fixpoint choices (groups : list QueuedGroup) : list (list QueuedGroup) :=
  match groups with
  | [] => [[]]
  | g :: groups => (cons g <$> choices groups) ++ choices groups
  end.
Definition exhaustive_total (groups : list QueuedGroup) (minPlayers maxPlayers : int) : int :=
  foldr Z.max 0 (filter (fun n => minPlayers <= n <= maxPlayers) (totalMembers <$> choices groups)).

Lemma elem_of_choices groups : forall s, s ∈ choices groups <-> s `sublist_of` groups.
Proof.
  induction groups as [|g groups IH]; intros s; cbn [choices].
  - rewrite list_elem_of_singleton. split; [by intros ->|apply sublist_nil_r].
  - rewrite elem_of_app, list_elem_of_fmap, IH, sublist_cons_r. setoid_rewrite IH. naive_solver.
Qed.

Lemma foldr_max_ge (l : list Z) x : x ∈ l -> x <= foldr Z.max 0 l.
Proof. induction l as [|y l IH]; [by intros ?%elem_of_nil|]. intros [->|Hx]%elem_of_cons; simpl; [lia|]. specialize (IH Hx). lia. Qed.
Lemma foldr_max_nonneg (l : list Z) : 0 <= foldr Z.max 0 l.
Proof. induction l; simpl; lia. Qed.
Lemma foldr_max_le (l : list Z) m : 0 <= m -> (forall x, x ∈ l -> x <= m) -> foldr Z.max 0 l <= m.
Proof.
  intros Hm. induction l as [|y l IH]; intros Hl; simpl; [done|].
  apply Z.max_lub; [apply Hl; left|apply IH; intros; apply Hl; by right].
Qed.

Lemma uniform_total w s : (forall g, g ∈ s -> group_size g = w) -> totalMembers s = w * Z.of_nat (length s).
Proof.
  induction s as [|g s IH]; intros Hs; [simpl; lia|]. rewrite totalMembers_cons.
  assert (group_size g = w) as Hg by (apply Hs; left). unfold group_size in Hg.
  rewrite IH by (intros; apply Hs; by right). simpl length. lia.
Qed.

(** When the queued groups all have the same size - single players, say -
    the pruned search finds as many players as trying every choice of groups. *)
Theorem uniform_search_exhaustive groups minPlayers maxPlayers w :
  0 <= maxPlayers -> 1 <= w -> (forall g, g ∈ groups -> group_size g = w) ->
  totalMembers (findBestGroups groups minPlayers maxPlayers) = exhaustive_total groups minPlayers maxPlayers.
Proof.
  intros Hmax Hw Hgs. destruct (findBestGroups_spec groups minPlayers maxPlayers Hmax) as (b & Hb & -> & Heq).
  apply Z.le_antisymm; unfold exhaustive_total.
  - destruct (decide (best b = [])) as [->|Hne].
    { apply foldr_max_nonneg. }
    apply foldr_max_ge, list_elem_of_filter. rewrite <- (adm_total _ _ _ _ Hb). split; [by apply Hb|].
    rewrite (adm_total _ _ _ _ Hb). apply list_elem_of_fmap_2, elem_of_choices, Hb.
  - apply foldr_max_le; [apply totalMembers_nonneg|]. intros x [Hin Hx]%list_elem_of_filter.
    apply list_elem_of_fmap in Hx as (s & -> & Hs%elem_of_choices).
    assert (Hsw : forall g, g ∈ s -> group_size g = w).
    { intros g Hg. apply Hgs. eapply elem_of_submseteq; [exact Hg|by apply sublist_submseteq]. }
    pose proof (uniform_total w s Hsw) as Ht. pose proof (sublist_length _ _ Hs) as Hlen.
    assert (Hreach : totalMembers s <= reachable_total maxPlayers w 0 (length groups)).
    { unfold reachable_total. rewrite Z.sub_0_r, Z.add_0_l, Ht. apply Z.mul_le_mono_nonneg_l; [lia|].
      apply Z.min_glb; [lia|]. apply Z.div_le_lower_bound; lia. }
    etransitivity; [exact Hreach|]. rewrite <- (adm_total _ _ _ _ Hb), Heq.
    apply (backtrack_uniform minPlayers maxPlayers w groups [] []); try done;
      [apply start_admissible|cbn; lia|by left].
Qed.

(** *** Witnesses, and what the pruning costs *)
Definition sample_player (n : Z) : PlayerUnwrapped := {| RealmID := 1; LowGUID := n |}.
(** A group of leader [n] with [k] more members. *)
Definition sample_group (n : Z) (k : nat) (t : PVPTeam) : QueuedGroup :=
  {| LeaderGUID := sample_player n; Members := (fun i => sample_player (100 * n + Z.of_nat i)) <$> seq 1 k;
     SlotsPerMember := ∅; qg_RealmID := 1; TeamID := t; EnqueuedTime := 0; IsRandomQueue := false |}.

Definition three_groups : list QueuedGroup :=
  [sample_group 1 5 TeamAlliance; sample_group 2 4 TeamAlliance; sample_group 3 4 TeamAlliance].

Lemma findBestGroups_sound_complete_witness :
  findBestGroups three_groups 1 10 = [sample_group 1 5 TeamAlliance] /\
  6 = totalMembers (findBestGroups three_groups 1 10) /\ 1 <= totalMembers (findBestGroups three_groups 1 10) <= 10.
Proof.
  assert (E : findBestGroups three_groups 1 10 = [sample_group 1 5 TeamAlliance]) by (vm_compute; reflexivity).
  split; [exact E|]. split; [rewrite E; vm_compute; reflexivity|].
  apply (findBestGroups_sound_complete three_groups 1 10); [lia|]. rewrite E. discriminate.
Defined.

Definition four_singles : list QueuedGroup :=
  [sample_group 1 0 TeamHorde; sample_group 2 0 TeamHorde; sample_group 3 0 TeamHorde; sample_group 4 0 TeamHorde].
Lemma uniform_search_exhaustive_witness : totalMembers (findBestGroups four_singles 2 3) = 3.
Proof.
  rewrite (uniform_search_exhaustive four_singles 2 3 1); [vm_compute; reflexivity|lia|lia|].
  intros g Hg. unfold four_singles in Hg. rewrite !elem_of_cons in Hg.
  destruct Hg as [->|[->|[->|[->|Hg]]]]; [reflexivity..|by apply elem_of_nil in Hg].
Defined.

(** With groups of 6, 5 and 5 players and room for ten, the search settles for
    the six: once they are found, the branch without them starts too low and is
    cut off, although the two groups of five fill the team. *)
Example pruning_misses_full_team :
  totalMembers (findBestGroups three_groups 1 10) = 6 /\ exhaustive_total three_groups 1 10 = 10.
Proof. split; vm_compute; reflexivity. Qed.

(** ** The two teams *)
Section Teams.
Context `{MapRange} `{SortSlice}.

Lemma elem_of_candidates t q g :
  g ∈ candidates t q -> (exists k, queuedGroups q !! k = Some g) /\ (TeamID g = t \/ TeamID g = TeamAny).
Proof.
  unfold candidates. rewrite sort_slice_perm. intros [Ht Hg]%list_elem_of_filter. split; [|done].
  apply list_elem_of_fmap in Hg as ([k h] & -> & Hg%elem_of_go_range). by exists k.
Qed.

Lemma cut_first_sublist {A} (f : A -> bool) (l : list A) : default l (cut_first f l) `sublist_of` l.
Proof.
  induction l as [|x l IH]; simpl; [done|]. destruct (f x); simpl; [by apply sublist_cons|].
  destruct (cut_first f l); simpl in *; [by apply sublist_skip|done].
Qed.
Lemma cut_all_sublist {A} (same : A -> A -> bool) gs : forall l : list A,
  foldl (fun hs g => default hs (cut_first (same g) hs)) l gs `sublist_of` l.
Proof.
  induction gs as [|g gs IH]; intros l; simpl; [done|].
  etransitivity; [apply IH|apply cut_first_sublist].
Qed.

Lemma best_in_queue t q gs minPlayers maxPlayers g :
  0 <= maxPlayers -> gs `sublist_of` candidates t q -> g ∈ findBestGroups gs minPlayers maxPlayers ->
  (exists k, queuedGroups q !! k = Some g) /\ (TeamID g = t \/ TeamID g = TeamAny).
Proof.
  intros Hmax Hgs Hg. apply elem_of_candidates.
  destruct (findBestGroups_spec gs minPlayers maxPlayers Hmax) as (b & Hb & E & _). rewrite E in Hg.
  eapply elem_of_submseteq; [exact Hg|]. apply sublist_submseteq. etransitivity; [apply Hb|done].
Qed.
Lemma best_size gs minPlayers maxPlayers m :
  0 <= maxPlayers <= m -> findBestGroups gs minPlayers maxPlayers <> [] ->
  minPlayers <= totalMembers (findBestGroups gs minPlayers maxPlayers) <= m.
Proof.
  intros Hmax Hne. destruct (findBestGroups_spec gs minPlayers maxPlayers) as (b & Hb & E & _); [lia|].
  rewrite E in *. rewrite <- (adm_total _ _ _ _ Hb). pose proof (adm_size _ _ _ _ Hb Hne). lia.
Qed.

(** Each team that is formed consists of queued groups of its faction, or
    of any, and has an admissible number of players, also when the search is
    run a second time to even the teams out. *)
Theorem balancedGroups_admissible q minPlayers maxPlayers alliance horde :
  0 <= maxPlayers -> balancedGroups minPlayers maxPlayers q = (alliance, horde) ->
  (forall g, g ∈ alliance -> (exists k, queuedGroups q !! k = Some g) /\ (TeamID g = TeamAlliance \/ TeamID g = TeamAny)) /\
  (forall g, g ∈ horde -> (exists k, queuedGroups q !! k = Some g) /\ (TeamID g = TeamHorde \/ TeamID g = TeamAny)) /\
  (alliance <> [] -> minPlayers <= totalMembers alliance <= maxPlayers) /\
  (horde <> [] -> minPlayers <= totalMembers horde <= maxPlayers).
Proof.
  intros Hmax. unfold balancedGroups.
  set (al := candidates TeamAlliance q). set (a := findBestGroups al minPlayers maxPlayers).
  set (hs := foldl _ _ a). set (h := findBestGroups hs minPlayers maxPlayers).
  assert (Hhs : hs `sublist_of` candidates TeamHorde q) by apply cut_all_sublist.
  assert (Ha : a = [] \/ totalMembers a <= maxPlayers).
  { destruct (decide (a = [])) as [|Hne]; [by left|right]. by apply (best_size al minPlayers maxPlayers maxPlayers). }
  assert (Hh : h = [] \/ totalMembers h <= maxPlayers).
  { destruct (decide (h = [])) as [|Hne]; [by left|right]. by apply (best_size hs minPlayers maxPlayers maxPlayers). }
  assert (Hteam : forall t gs m, 0 <= m -> m <= maxPlayers -> gs `sublist_of` candidates t q ->
    let r := findBestGroups gs minPlayers m in
    (forall g, g ∈ r -> (exists k, queuedGroups q !! k = Some g) /\ (TeamID g = t \/ TeamID g = TeamAny)) /\
    (r <> [] -> minPlayers <= totalMembers r <= maxPlayers)).
  { intros t gs m Hm Hle Hgs r. split; [intros g Hg; by apply (best_in_queue t q gs minPlayers m)|].
    intros Hne. apply best_size; [lia|done]. }
  pose proof (totalMembers_nonneg a) as Ha0. pose proof (totalMembers_nonneg h) as Hh0.
  destruct (Hteam TeamAlliance al maxPlayers) as [Ha1 Ha2]; [lia..|done|]. fold a in Ha1, Ha2.
  destruct (Hteam TeamHorde hs maxPlayers) as [Hh1 Hh2]; [lia..|done|]. fold h in Hh1, Hh2.
  destruct (Z.ltb_spec 1 (Z.abs (totalMembers h - totalMembers a))) as [Hfar|Hnear];
    [destruct (Z.ltb_spec (totalMembers a) (totalMembers h)) as [Hlt|Hge]|]; intros [= <- <-].
  - assert (totalMembers h <= maxPlayers) by (destruct Hh as [Hh|Hh]; [rewrite Hh; cbn; lia|done]).
    destruct (Hteam TeamHorde hs (totalMembers a + 1)) as [? ?]; [lia..|done|]. done.
  - assert (totalMembers a <= maxPlayers) by (destruct Ha as [Ha|Ha]; [rewrite Ha; cbn; lia|done]).
    destruct (Hteam TeamAlliance al (totalMembers h + 1)) as [? ?]; [lia..|done|]. done.
  - done.
Qed.
End Teams.

(** *** Witnesses *)
#[local] Existing Instances map_range_canonical sort_slice_insertion.
Definition empty_queue : Queue :=
  NewGenericBattlegroundQueue (level_template 10 80) 1 0 1.
Definition queue_of (groups : list QueuedGroup) : Queue := foldr add_group empty_queue groups.

Lemma balancedGroups_admissible_witness :
  exists alliance horde,
    balancedGroups 2 3 (queue_of [sample_group 1 1 TeamAlliance; sample_group 2 2 TeamHorde; sample_group 3 0 TeamAlliance])
      = (alliance, horde) /\
    totalMembers alliance = 3 /\ totalMembers horde = 3 /\
    forall g, g ∈ horde -> TeamID g = TeamHorde \/ TeamID g = TeamAny.
Proof.
  set (q := queue_of _). destruct (balancedGroups 2 3 q) as [alliance horde] eqn:E.
  exists alliance, horde. split; [reflexivity|].
  assert (E2 : balancedGroups 2 3 q = ([sample_group 1 1 TeamAlliance; sample_group 3 0 TeamAlliance],
    [sample_group 2 2 TeamHorde])) by (vm_compute; reflexivity).
  pose proof (balancedGroups_admissible q 2 3 alliance horde ltac:(lia) E) as (_ & Hh & _ & _).
  rewrite E in E2. injection E2 as Ea Eh. rewrite Ea, Eh. split; [reflexivity|]. split; [reflexivity|].
  intros g Hg. rewrite <- Eh in Hg. apply (Hh g Hg).
Defined.

(** A group that can play for either side can end up on both: the alliance
    has a group of six players and the horde none of its own; the group of
    four that fits both is first given to the horde, and the second search for
    a smaller alliance team picks it again. *)
Theorem any_group_on_both_teams :
  let any := sample_group 2 3 TeamAny in
  balancedGroups 1 8 (queue_of [sample_group 1 5 TeamAlliance; any]) = ([any], [any]).
Proof. vm_compute. reflexivity. Qed.

(** The second search can overshoot: five against one, when five against ten
    was thought too uneven. *)
Example second_search_overshoots :
  (fun p => (totalMembers p.1, totalMembers p.2))
    (balancedGroups 1 10 (queue_of [sample_group 1 4 TeamAlliance; sample_group 2 9 TeamHorde; sample_group 3 0 TeamHorde]))
  = (5, 1).
Proof. vm_compute. reflexivity. Qed.

(** ** The bookkeeping of a queue *)
Lemma forget_players_lookup ms : forall m p,
  forget_players ms m !! p = if decide (p ∈ ms) then None else m !! p.
Proof.
  unfold forget_players. induction ms as [|x ms IH]; intros m p; simpl; [done|].
  rewrite IH. destruct (decide (p ∈ ms)) as [Hp|Hp].
  - by rewrite decide_True by (by right).
  - destruct (decide (p = x)) as [->|Hne].
    + rewrite lookup_delete_eq. by rewrite decide_True by left.
    + rewrite lookup_delete_ne by done. rewrite decide_False; [done|]. by rewrite not_elem_of_cons.
Qed.
Lemma map_players_lookup l ms : forall (m : gmap PlayerUnwrapped PlayerUnwrapped) p,
  foldl (fun m member => <[member := l]> m) m ms !! p = if decide (p ∈ ms) then Some l else m !! p.
Proof.
  induction ms as [|x ms IH]; intros m p; simpl; [done|].
  rewrite IH. destruct (decide (p ∈ ms)) as [Hp|Hp].
  - by rewrite decide_True by (by right).
  - destruct (decide (p = x)) as [->|Hne].
    + rewrite lookup_insert_eq. by rewrite decide_True by left.
    + rewrite lookup_insert_ne by done. rewrite decide_False; [done|]. by rewrite not_elem_of_cons.
Qed.

Lemma added_leader g q p : p ∈ LeaderGUID g :: Members g ->
  playersGroupLeaderByPlayer (add_group g q) !! p = Some (LeaderGUID g).
Proof.
  intros Hp. simpl. destruct (decide (p = LeaderGUID g)) as [->|Hne]; [by rewrite lookup_insert_eq|].
  rewrite lookup_insert_ne, map_players_lookup by done. rewrite decide_True; [done|].
  by apply elem_of_cons in Hp as [?|?].
Qed.

(** Every player of a queued group finds the group; when any of them
    leaves, the group is out of the queue and its members are forgotten, but
    its leader is not: the leader, who the gateway does not list among the
    members, is still mapped and finds an empty group. *)
Theorem queue_add_remove g q p :
  p ∈ LeaderGUID g :: Members g -> LeaderGUID g ∉ Members g ->
  QueuedGroupByPlayer (add_group g q) p = Some g /\
  exists q', RemoveQueuedGroup p (add_group g q) = Some q' /\
    queuedGroups q' = delete (LeaderGUID g) (queuedGroups q) /\
    (forall m, m ∈ Members g -> QueuedGroupByPlayer q' m = None) /\
    QueuedGroupByPlayer q' (LeaderGUID g) = Some zero_group.
Proof.
  intros Hp Hl. pose proof (added_leader g q p Hp) as Hmap. split.
  - unfold QueuedGroupByPlayer. rewrite Hmap. simpl. by rewrite lookup_insert_eq.
  - unfold RemoveQueuedGroup. rewrite Hmap. simpl. rewrite lookup_insert_eq. simpl.
    eexists. split; [reflexivity|]. simpl. split; [by rewrite delete_insert_eq|].
    unfold QueuedGroupByPlayer; simpl. split.
    + intros m Hm. by rewrite forget_players_lookup, decide_True.
    + rewrite forget_players_lookup, decide_False by done. rewrite lookup_insert_eq. simpl.
      by rewrite lookup_delete_eq.
Qed.

Lemma queue_add_remove_witness :
  exists q', RemoveQueuedGroup (sample_player 102) (queue_of [sample_group 1 2 TeamHorde]) = Some q' /\
    QueuedGroupByPlayer q' (sample_player 1) = Some zero_group.
Proof.
  destruct (queue_add_remove (sample_group 1 2 TeamHorde) empty_queue (sample_player 102))
    as (_ & q' & Hr & _ & _ & Hl); 
    [right; right; left|apply (bool_decide_unpack _); vm_compute; exact I|exists q'; by split].
Defined.

(** ** Filling up a running battleground *)
Section Slots.
Context `{MapRange}.

Lemma take_groups_singles slots t gs :
  0 < slots < 256 -> (forall g, g ∈ gs -> Members g = []) ->
  take_groups slots t gs = filter (fun g => TeamID g = t \/ TeamID g = TeamAny) gs.
Proof.
  intros Hs. induction gs as [|g gs IH]; intros Hgs; cbn [take_groups filter list_filter]; [done|].
  rewrite (Hgs g) by left. destruct (Z.eqb_spec slots 0) as [?|_]; [lia|].
  change (wrap8 (len (@nil PlayerUnwrapped))) with 0. rewrite (proj2 (Z.ltb_ge slots 0)), orb_false_r by lia.
  rewrite Z.sub_0_r, wrap_small by word_lia. rewrite IH by (intros; apply Hgs; by right).
  destruct (Z.eqb_spec (TeamID g) t), (Z.eqb_spec (TeamID g) TeamAny); simpl;
    destruct (decide _) as [Hd|Hd]; naive_solver.
Qed.

Lemma take_groups_spec slots t gs :
  in_range 8 slots -> (forall g, g ∈ gs -> len (Members g) < 256) ->
  take_groups slots t gs `sublist_of` gs /\
  zsum (fun g => len (Members g)) (take_groups slots t gs) <= slots.
Proof.
  revert slots. induction gs as [|g gs IH]; intros slots Hs Hgs; cbn [take_groups]; [split; [done|cbn; word_lia]|].
  assert (len (Members g) < 256) by (apply Hgs; left). assert (0 <= len (Members g)) by (unfold len; lia).
  assert (Hgs' : forall g, g ∈ gs -> len (Members g) < 256) by (intros; apply Hgs; by right).
  destruct (slots =? 0); [split; [apply sublist_nil_l|cbn; word_lia]|].
  rewrite (wrap_small 8 (len (Members g))) by word_lia.
  destruct (negb _); simpl; [destruct (IH slots Hs Hgs'); split; [by apply sublist_cons|done]|].
  destruct (Z.ltb_spec slots (len (Members g))); [destruct (IH slots Hs Hgs'); split; [by apply sublist_cons|done]|].
  rewrite wrap_small by word_lia.
  destruct (IH (slots - len (Members g))) as [Hsub Hsum]; [by word_lia|done|].
  split; [by apply sublist_skip|]. cbn. fold (zsum (fun g => len (Members g)) (take_groups (slots - len (Members g)) t gs)). lia.
Qed.

(** The free slots of a battleground bound the members that are invited but
    not the leaders: every player who queued alone is invited at once, however
    few slots are free. *)
Theorem singles_ignore_slots q t slots k g :
  0 < slots < 256 -> (forall k g, queuedGroups q !! k = Some g -> Members g = []) ->
  queuedGroups q !! k = Some g -> TeamID g = t \/ TeamID g = TeamAny ->
  g ∈ findGroupsForGivenSlots slots t q.
Proof.
  intros Hs Hq Hk Ht. unfold findGroupsForGivenSlots. rewrite take_groups_singles by
    (done || (intros h Hh; apply list_elem_of_fmap in Hh as ([k' h'] & -> & Hh%elem_of_go_range); by eapply Hq)).
  apply list_elem_of_filter. split; [done|]. apply (list_elem_of_fmap_2' _ _ (k, g)); [by apply elem_of_go_range|done].
Qed.
End Slots.

(** Four horde players for one free slot. *)
Lemma singles_ignore_slots_witness :
  length (findGroupsForGivenSlots 1 TeamHorde (queue_of four_singles)) = 4%nat /\
  sample_group 3 0 TeamHorde ∈ findGroupsForGivenSlots 1 TeamHorde (queue_of four_singles).
Proof.
  split; [vm_compute; reflexivity|].
  apply (singles_ignore_slots _ _ _ (sample_player 3)); [lia| |reflexivity|by left].
  intros k g Hk. unfold four_singles, queue_of in Hk. simpl in Hk.
  rewrite !lookup_insert_Some in Hk. naive_solver.
Defined.
