(* ===== verification/MatchmakingState.v ===== *)
(** * MatchmakingState: what the matchmaking server keeps
    (apps/matchmakingserver/service/battleground_service.go, repo/battleground_inmem.go,
    repo/battlegroups_inmem.go, service/crossrealm-nodes-tracker.go, shared/gameserver/conn)

    Queues and battlegrounds are structs behind pointers: two heaps.  What the
    server learns from outside is part of the state: the registry's view, the
    instance ids the game servers answer with, the random numbers and the
    clock. *)
From stdpp Require Import pretty.
From S2P Require Import Prelude GoRuntime GoStrings ObjectGuid Registry Gateways Battleground BattlegroundQueue.

Record QueueKey := { qk_BattlegroupID : u32; qk_RealmID : u32 }.
#[export] Instance QueueKey_eq_dec : EqDecision QueueKey.
Proof. solve_decision. Defined.
#[export] Instance QueueKey_countable : Countable QueueKey.
Proof.
  apply (inj_countable' (fun k => (qk_BattlegroupID k, qk_RealmID k))
           (fun p => {| qk_BattlegroupID := p.1; qk_RealmID := p.2 |})).
  by intros [].
Defined.

Record BattlegroundKey := { k_RealmID : u32; k_InstanceID : u32; k_BattlegroupID : u32 }.
(** QueueOrBattlegroundLink: one of the two pointers is set. *)
Record Link := { l_Queue : option nat; l_Battleground : option BattlegroundKey }.
Definition queue_link (q : option nat) : Link := {| l_Queue := q; l_Battleground := None |}.

Record CrossRealmNode := { cn_ID : string; cn_AvailableMaps : list u32 }.

Record mm := {
  bgTemplates : list (option BattlegroundTemplate);                       (* indexed by queue type *)
  queues : gmap QueueKey (gmap QueueTypeID (gmap u8 nat));
  q_heap : gmap nat Queue; next_q : nat;
  links : gmap PlayerUnwrapped (list Link);                               (* playersQueueOrBattleground *)
  bg_index : gmap string nat; bg_heap : gmap nat Battleground; next_bg : nat;
  battleGroupIDByRealmID : gmap u32 u32;
  activeCrossRealmNodes : gmap string CrossRealmNode;
  addressesMapping : gmap string string; addressWithConn : gset string;
  available : u32 -> u32 -> bool -> list pb_Server;                       (* the registry's answers *)
  instances : list u32; dice : list Z; now : Z
}.

Definition set_queues (qs : gmap QueueKey (gmap QueueTypeID (gmap u8 nat))) (h : gmap nat Queue) (n : nat) (m : mm) : mm :=
  {| bgTemplates := bgTemplates m; queues := qs; q_heap := h; next_q := n; links := links m;
     bg_index := bg_index m; bg_heap := bg_heap m; next_bg := next_bg m;
     battleGroupIDByRealmID := battleGroupIDByRealmID m; activeCrossRealmNodes := activeCrossRealmNodes m;
     addressesMapping := addressesMapping m; addressWithConn := addressWithConn m; available := available m;
     instances := instances m; dice := dice m; now := now m |}.
Definition set_links (ls : gmap PlayerUnwrapped (list Link)) (m : mm) : mm :=
  {| bgTemplates := bgTemplates m; queues := queues m; q_heap := q_heap m; next_q := next_q m; links := ls;
     bg_index := bg_index m; bg_heap := bg_heap m; next_bg := next_bg m;
     battleGroupIDByRealmID := battleGroupIDByRealmID m; activeCrossRealmNodes := activeCrossRealmNodes m;
     addressesMapping := addressesMapping m; addressWithConn := addressWithConn m; available := available m;
     instances := instances m; dice := dice m; now := now m |}.
Definition set_bgs (i : gmap string nat) (h : gmap nat Battleground) (n : nat) (m : mm) : mm :=
  {| bgTemplates := bgTemplates m; queues := queues m; q_heap := q_heap m; next_q := next_q m; links := links m;
     bg_index := i; bg_heap := h; next_bg := n;
     battleGroupIDByRealmID := battleGroupIDByRealmID m; activeCrossRealmNodes := activeCrossRealmNodes m;
     addressesMapping := addressesMapping m; addressWithConn := addressWithConn m; available := available m;
     instances := instances m; dice := dice m; now := now m |}.
Definition set_nodes (ns : gmap string CrossRealmNode) (m : mm) : mm :=
  {| bgTemplates := bgTemplates m; queues := queues m; q_heap := q_heap m; next_q := next_q m; links := links m;
     bg_index := bg_index m; bg_heap := bg_heap m; next_bg := next_bg m;
     battleGroupIDByRealmID := battleGroupIDByRealmID m; activeCrossRealmNodes := ns;
     addressesMapping := addressesMapping m; addressWithConn := addressWithConn m; available := available m;
     instances := instances m; dice := dice m; now := now m |}.
Definition set_conns (a : gmap string string) (c : gset string) (m : mm) : mm :=
  {| bgTemplates := bgTemplates m; queues := queues m; q_heap := q_heap m; next_q := next_q m; links := links m;
     bg_index := bg_index m; bg_heap := bg_heap m; next_bg := next_bg m;
     battleGroupIDByRealmID := battleGroupIDByRealmID m; activeCrossRealmNodes := activeCrossRealmNodes m;
     addressesMapping := a; addressWithConn := c; available := available m;
     instances := instances m; dice := dice m; now := now m |}.
Definition set_inputs (ids : list u32) (ds : list Z) (m : mm) : mm :=
  {| bgTemplates := bgTemplates m; queues := queues m; q_heap := q_heap m; next_q := next_q m; links := links m;
     bg_index := bg_index m; bg_heap := bg_heap m; next_bg := next_bg m;
     battleGroupIDByRealmID := battleGroupIDByRealmID m; activeCrossRealmNodes := activeCrossRealmNodes m;
     addressesMapping := addressesMapping m; addressWithConn := addressWithConn m; available := available m;
     instances := ids; dice := ds; now := now m |}.
Definition set_templates (ts : list (option BattlegroundTemplate)) (m : mm) : mm :=
  {| bgTemplates := ts; queues := queues m; q_heap := q_heap m; next_q := next_q m; links := links m;
     bg_index := bg_index m; bg_heap := bg_heap m; next_bg := next_bg m;
     battleGroupIDByRealmID := battleGroupIDByRealmID m; activeCrossRealmNodes := activeCrossRealmNodes m;
     addressesMapping := addressesMapping m; addressWithConn := addressWithConn m; available := available m;
     instances := instances m; dice := dice m; now := now m |}.

Abbreviation M A := (go mm mm_event mm_err A).

(** [if err != nil { undo; return fmt.Errorf("...: %w", err) }] *)
Definition rollback (m undo : M unit) : M unit := fun s =>
  match m s with
  | (Fail e, s') => (undo ;; fail (ErrMMWrap e)) s'
  | r => r
  end.

(** ** Inputs *)

(** [rand.Intn(n)] *)
Definition roll (n : Z) : M Z :=
  m ← gets id;
  match dice m with
  | d :: ds => modify (set_inputs (instances m) ds) ;; mret (d mod n)
  | [] => mret 0
  end.
(** The instance id in a game server's answer. *)
Definition next_instance : M u32 :=
  m ← gets id;
  match instances m with
  | i :: ids => modify (set_inputs ids (dice m)) ;; mret i
  | [] => mret 0
  end.

(** ** Pointers *)
Definition load_q (p : nat) : M Queue := m ← gets id; deref (q_heap m !! p).
Definition store_q (p : nat) (q : Queue) : M unit :=
  modify (fun m => set_queues (queues m) (<[p := q]> (q_heap m)) (next_q m) m).
Definition alloc_q (q : Queue) : M nat :=
  m ← gets id;
  modify (fun m => set_queues (queues m) (<[next_q m := q]> (q_heap m)) (S (next_q m)) m) ;;
  mret (next_q m).
Definition load_bg (p : nat) : M Battleground := m ← gets id; deref (bg_heap m !! p).
Definition store_bg (p : nat) (b : Battleground) : M unit :=
  modify (fun m => set_bgs (bg_index m) (<[p := b]> (bg_heap m)) (next_bg m) m).
Definition alloc_bg (b : Battleground) : M nat :=
  m ← gets id;
  modify (fun m => set_bgs (bg_index m) (<[next_bg m := b]> (bg_heap m)) (S (next_bg m)) m) ;;
  mret (next_bg m).

(** Run a method of a battleground on the one behind the pointer; what it did
    before an error stays done. *)
Definition on_bg {A} (p : nat) (a : go Battleground mm_event mm_err A) : M A :=
  b ← load_bg p;
  zoom (fun m => default b (bg_heap m !! p))
       (fun b m => set_bgs (bg_index m) (<[p := b]> (bg_heap m)) (next_bg m) m) a.

(** ** The battlegrounds in memory (repo/battleground_inmem.go) *)
Section Repo.
Context `{MapRange}.

(** The battlegroup is not part of the key. *)
Definition indexKeyForInstanceAndRealm (instanceID realmID : u32) : string :=
  fmt_d instanceID +:+ ":" +:+ fmt_d realmID.
Definition index_of_bg (b : Battleground) : string :=
  indexKeyForInstanceAndRealm (InstanceID b) (bg_RealmID b).

Definition set_index (f : gmap string nat -> gmap string nat) (m : mm) : mm :=
  set_bgs (f (bg_index m)) (bg_heap m) (next_bg m) m.

Definition SaveBattleground (p : nat) : M unit :=
  b ← load_bg p;
  if bg_Status b =? StatusEnded then modify (set_index (delete (index_of_bg b)))
  else modify (set_index <[index_of_bg b := p]>).

Definition GetBattlegroundByInstanceID (instanceID realmID : u32) : M (option nat) :=
  gets (fun m => bg_index m !! indexKeyForInstanceAndRealm instanceID realmID).

(** The battlegrounds in the index, as deep copies. *)
Definition indexed (n : nat) (f : Battleground -> bool) (m : mm) : list Battleground :=
  filter (fun b => f b = true) (omap (fun e => bg_heap m !! e.2) (go_range n (bg_index m))).

Definition GetActiveBattlegrounds (bgType : QueueTypeID) (bracket : u8) (realmID battlegroupID : u32) :
    M (list Battleground) :=
  gets (indexed 3 (fun b => (bg_QueueTypeID b =? bgType) && (bg_BracketID b =? bracket) &&
                     (bg_RealmID b =? realmID) && (bg_BattleGroupID b =? battlegroupID) && IsActive b)).
Definition GetAllActiveBattlegrounds : M (list Battleground) := gets (indexed 4 IsActive).

Definition UpdateBattleground (instanceID realmID : u32) (u : Battleground -> M Battleground) : M unit :=
  o ← GetBattlegroundByInstanceID instanceID realmID;
  p ← not_nil ErrBGNotFound o;
  b ← load_bg p;
  b' ← u b;
  store_bg p b' ;;
  if bg_Status b' =? StatusEnded then modify (set_index (delete (index_of_bg b'))) else mret tt.

Definition DeleteAllWithGameServerAddress (address : string) : M (list Battleground) :=
  m ← gets id;
  let at_address := fun p : nat =>
    match bg_heap m !! p with Some b => String.eqb (GameserverAddress b) address | None => false end in
  let found := filter (fun e => at_address e.2 = true) (go_range 5 (bg_index m)) in
  modify (set_index (fun i => foldl (fun i e => delete e.1 i) i found)) ;;
  mret (rev (omap (fun e => bg_heap m !! e.2) found)).
End Repo.

(** ** Battlegroups (repo/battlegroups_inmem.go) *)

(** strconv.ParseUint(s, 10, 32) *)
Definition ParseUint32 (s : string) : option u32 :=
  if String.eqb s "" then None
  else match parse_digits 0 s with Some v => if v <? 2 ^ 32 then Some v else None | None => None end.

Section BattleGroups.
Context `{MapRange}.

Fixpoint parse_realms (battleGroupID : u32) (realms : list string) (m : gmap u32 u32) : option (gmap u32 u32) :=
  match realms with
  | [] => Some m
  | realm :: realms =>
    realmID ← ParseUint32 realm; parse_realms battleGroupID realms (<[realmID := battleGroupID]> m)
  end.
Fixpoint parse_battlegroups (config : list (u32 * string)) (m : gmap u32 u32) : option (gmap u32 u32) :=
  match config with
  | [] => Some m
  | (battleGroupID, realmsString) :: config =>
    m ← parse_realms battleGroupID (split_comma realmsString) m; parse_battlegroups config m
  end.
Definition NewBattleGroupsInMemWithConfigValue (valueFromConfig : gmap u32 string) : option (gmap u32 u32) :=
  parse_battlegroups (go_range 6 valueFromConfig) ∅.

Definition BattleGroupIDByRealmID (realmID : u32) : M u32 :=
  gets (fun m => default 0 (battleGroupIDByRealmID m !! realmID)).
Definition AllRealmsInBattleGroups : M (list u32) := gets (fun m => (go_range 7 (battleGroupIDByRealmID m)).*1).
Definition AllBattleGroupsIDs : M (list u32) :=
  gets (fun m => (go_range 8 (list_to_map ((fun g => (g, tt)) <$> (map_to_list (battleGroupIDByRealmID m)).*2) : gmap u32 unit)).*1).
End BattleGroups.

(** ** Connections to game servers (shared/gameserver/conn) *)
Definition AddAddressMapping (gameServerAddress grpcServerAddress : string) : M unit :=
  modify (fun m => set_conns (<[gameServerAddress := grpcServerAddress]> (addressesMapping m)) (addressWithConn m) m).
Definition GRPCAddressForGameServer (gameServerAddress : string) : M string :=
  gets (fun m => default "" (addressesMapping m !! gameServerAddress)).
(** A connection is dialled once; dialling can fail. *)
Definition GRPCConnByGameServerAddress (address : string) : M unit :=
  m ← gets id;
  let connAddress := default "" (addressesMapping m !! address) in
  if String.eqb connAddress "" then fail ErrGrpcConn
  else if bool_decide (connAddress ∈ addressWithConn m) then mret tt
  else ext ErrGrpcConn ;; modify (fun m => set_conns (addressesMapping m) ({[connAddress]} ∪ addressWithConn m) m).
