(* ===== verification/BattlegroundRepo.v ===== *)
(** * BattlegroundRepo: the in-memory battlegrounds are a map
    (apps/matchmakingserver/repo/battleground_inmem.go)

    The repository's contract is a finite map from instance id and realm to
    battleground, without the ended ones.  The code keeps pointers under a
    string key; [represents A m] relates the two. *)
From stdpp Require Import pretty.
From S2P Require Import Prelude GoRuntime GoStrings ObjectGuid Registry Gateways Battleground BattlegroundQueue MatchmakingState.

(** ** The contract *)
Abbreviation bg_map := (gmap (u32 * u32) Battleground).
Definition abs_key (b : Battleground) : u32 * u32 := (InstanceID b, bg_RealmID b).
Definition abs_put (b : Battleground) (A : bg_map) : bg_map :=
  if bg_Status b =? StatusEnded then delete (abs_key b) A else <[abs_key b := b]> A.
Definition abs_all (A : bg_map) : list Battleground := (map_to_list A).*2.

Record represents (A : bg_map) (m : mm) : Prop := {
  rep_lookup : forall i r, A !! (i, r) = bg_index m !! indexKeyForInstanceAndRealm i r ≫= fun p => bg_heap m !! p;
  rep_valid : forall k p, bg_index m !! k = Some p -> exists b, bg_heap m !! p = Some b /\ k = index_of_bg b
}.

Lemma indexKey_inj i r i' r' :
  indexKeyForInstanceAndRealm i r = indexKeyForInstanceAndRealm i' r' -> i = i' /\ r = r'.
Proof. intros E. apply fmt_d_key_inj in E as [-> E]. by apply (inj pretty) in E. Qed.

Section Repo.
Context `{MapRange}.
Implicit Types (s : sys mm mm_event) (A : bg_map).

Lemma rep_entry A m i r b :
  represents A m -> A !! (i, r) = Some b <->
  exists p, bg_index m !! indexKeyForInstanceAndRealm i r = Some p /\ bg_heap m !! p = Some b.
Proof. intros Hm. rewrite (rep_lookup _ _ Hm), bind_Some. done. Qed.
Lemma rep_key A m i r b : represents A m -> A !! (i, r) = Some b -> abs_key b = (i, r).
Proof.
  intros Hm (p & Hp & Hb)%(rep_entry _ _ _ _ _ Hm). destruct (rep_valid _ _ Hm _ _ Hp) as (b' & Hb' & Hk).
  simplify_eq. apply indexKey_inj in Hk as [-> ->]. done.
Qed.
Lemma rep_key_ne i r i' r' : (i, r) <> (i', r') ->
  indexKeyForInstanceAndRealm i r <> indexKeyForInstanceAndRealm i' r'.
Proof. intros Hne [-> ->]%indexKey_inj. done. Qed.

(** ** One operation at a time *)

(** The battleground behind [p] changes and is put under its key. *)
Lemma rep_put A m p b :
  represents A m -> (forall k, bg_index m !! k = Some p -> k = index_of_bg b) ->
  represents (abs_put b A)
    (set_bgs (if bg_Status b =? StatusEnded then delete (index_of_bg b) (bg_index m)
              else <[index_of_bg b := p]> (bg_index m)) (<[p := b]> (bg_heap m)) (next_bg m) m).
Proof.
  intros Hm Hp. unfold abs_put. constructor; destruct (bg_Status b =? StatusEnded); simpl.
  - intros i r. destruct (decide (abs_key b = (i, r))) as [E|Hne].
    + unfold abs_key in E. simplify_eq. by rewrite !lookup_delete_eq.
    + rewrite !lookup_delete_ne by (first [done|by apply rep_key_ne]). rewrite (rep_lookup _ _ Hm).
      destruct (bg_index m !! _) as [q|] eqn:Eq; [|done]. simpl. rewrite lookup_insert_ne; [done|]. intros <-.
      by apply Hp, indexKey_inj in Eq as [-> ->].
  - intros i r. destruct (decide (abs_key b = (i, r))) as [E|Hne].
    + unfold abs_key in E. simplify_eq. rewrite !lookup_insert_eq. simpl. by rewrite lookup_insert_eq.
    + rewrite !lookup_insert_ne by (first [done|by apply rep_key_ne]). rewrite (rep_lookup _ _ Hm).
      destruct (bg_index m !! _) as [q|] eqn:Eq; [|done]. simpl. rewrite lookup_insert_ne; [done|]. intros <-.
      by apply Hp, indexKey_inj in Eq as [-> ->].
  - intros k q [Hne Hq]%lookup_delete_Some. rewrite lookup_insert_ne; [by apply (rep_valid _ _ Hm)|].
    intros <-. by apply Hne; rewrite (Hp k Hq).
  - intros k q [[<- <-]|[Hne Hq]]%lookup_insert_Some; [exists b; by rewrite lookup_insert_eq|].
    rewrite lookup_insert_ne; [by apply (rep_valid _ _ Hm)|]. intros <-. by apply Hne; rewrite (Hp k Hq).
Qed.

Lemma Save_refines A s p b :
  represents A (st s) -> bg_heap (st s) !! p = Some b ->
  exists s', SaveBattleground p s = (Ok tt, s') /\ represents (abs_put b A) (st s').
Proof.
  intros Hm Hb. unfold SaveBattleground, load_bg. rewrite bind_run with (a := b) (s' := s).
  2: { unfold mbind, go_bind, gets, id. by rewrite Hb. }
  assert (Hp : forall k, bg_index (st s) !! k = Some p -> k = index_of_bg b).
  { intros k Hk. destruct (rep_valid _ _ Hm _ _ Hk) as (b' & Hb' & ->). by simplify_eq. }
  pose proof (rep_put _ _ _ _ Hm Hp) as Hr. rewrite (insert_id (bg_heap (st s))) in Hr by done.
  destruct (bg_Status b =? StatusEnded); eexists; (split; [reflexivity|exact Hr]).
Qed.

Lemma Update_refines A s i r (f : Battleground -> Battleground) :
  represents A (st s) -> (forall b, abs_key (f b) = abs_key b) ->
  match A !! (i, r) with
  | Some b => exists s', UpdateBattleground i r (fun b => mret (f b)) s = (Ok tt, s') /\ represents (abs_put (f b) A) (st s')
  | None => UpdateBattleground i r (fun b => mret (f b)) s = (Fail ErrBGNotFound, s)
  end.
Proof.
  intros Hm Hf. rewrite (rep_lookup _ _ Hm).
  unfold UpdateBattleground, GetBattlegroundByInstanceID, load_bg, store_bg, mbind, go_bind, gets, id, modify.
  destruct (bg_index (st s) !! _) as [p|] eqn:Ep; simpl; [|done].
  destruct (rep_valid _ _ Hm _ _ Ep) as (b & Hb & Hk). rewrite Hb; simpl.
  assert (Hp : forall k, bg_index (st s) !! k = Some p -> k = index_of_bg (f b)).
  { intros k Hk'. destruct (rep_valid _ _ Hm _ _ Hk') as (b' & Hb' & ->).
    rewrite Hb in Hb'. injection Hb' as <-. unfold index_of_bg. by injection (Hf b) as -> ->. }
  pose proof (rep_put _ _ _ _ Hm Hp) as Hr.
  destruct (bg_Status (f b) =? StatusEnded); eexists; (split; [reflexivity|]); [exact Hr|].
  rewrite <- (Hp _ Ep) in Hr. rewrite (insert_id (bg_index (st s))) in Hr by done. exact Hr.
Qed.

(** The battlegrounds the index leads to are those of the map. *)
Lemma omap_NoDup {K V W} (f : K * V -> option W) (l : list (K * V)) :
  NoDup l -> (forall x y w, x ∈ l -> y ∈ l -> f x = Some w -> f y = Some w -> x = y) -> NoDup (omap f l).
Proof.
  induction 1 as [|x l Hx Hl IH]; intros Hinj; simpl; [constructor|].
  assert (NoDup (omap f l)) by (apply IH; intros a b w Ha Hb; apply (Hinj a b w); by right).
  destruct (f x) as [w|] eqn:E; [|done]. constructor; [|done].
  intros (y & Hy & Ey)%list_elem_of_omap. assert (x = y) as <- by (apply (Hinj x y w); [left|by right|done|done]). done.
Qed.
Lemma omap_index n A m :
  represents A m -> omap (fun e => bg_heap m !! e.2) (go_range n (bg_index m)) ≡ₚ abs_all A.
Proof.
  intros Hm. apply NoDup_Permutation.
  - apply omap_NoDup; [apply go_range_NoDup|]. intros [k p] [k' p'] b Hk Hk' Hb Hb'. simpl in *.
    apply elem_of_go_range in Hk, Hk'.
    destruct (rep_valid _ _ Hm _ _ Hk) as (c & Hc & ->), (rep_valid _ _ Hm _ _ Hk') as (c' & Hc' & ->). simplify_eq.
    done.
  - unfold abs_all. apply (NoDup_fmap_1 (A := Battleground) abs_key). rewrite <- list_fmap_compose.
    rewrite (list_fmap_ext _ fst); [apply NoDup_fst_map_to_list|].
    intros j [[i r] b] Hb%list_elem_of_lookup_2%elem_of_map_to_list. simpl. by eapply rep_key.
  - intros b. unfold abs_all. rewrite list_elem_of_omap, list_elem_of_fmap. split.
    + intros ([k p] & Hk%elem_of_go_range & Hb). simpl in Hb.
      destruct (rep_valid _ _ Hm _ _ Hk) as (c & Hc & ->). simplify_eq.
      exists (abs_key b, b). split; [done|]. apply elem_of_map_to_list. unfold abs_key.
      apply (rep_entry _ _ _ _ _ Hm). by exists p.
    + intros ([[i r] c] & -> & Hc%elem_of_map_to_list). apply (rep_entry _ _ _ _ _ Hm) in Hc as (p & Hp & Hb).
      exists (indexKeyForInstanceAndRealm i r, p). split; [by apply elem_of_go_range|done].
Qed.

Lemma indexed_refines n A m f :
  represents A m -> indexed n f m ≡ₚ filter (fun b => f b = true) (abs_all A).
Proof. intros Hm. unfold indexed. by rewrite (omap_index n A m Hm). Qed.

(** Removing the entries of a list of keys. *)
Lemma foldl_delete (l : list (string * nat)) : forall (idx : gmap string nat) k,
  foldl (fun i e => delete e.1 i) idx l !! k = (if decide (k ∈ l.*1) then None else idx !! k).
Proof.
  induction l as [|e l IH]; intros idx k; simpl; [done|]. rewrite IH.
  destruct (decide (k ∈ l.*1)) as [Hin|Hout]; [rewrite decide_True; [done|by right]|].
  destruct (decide (k = e.1)) as [->|Hne]; [rewrite lookup_delete_eq, decide_True; [done|left]|].
  rewrite lookup_delete_ne by done. rewrite decide_False; [done|]. by intros [|]%elem_of_cons.
Qed.

Lemma omap_filter {X Y} (f : X -> option Y) (P : X -> Prop) (Q : Y -> Prop) `{forall x, Decision (P x)} `{forall y, Decision (Q y)} (l : list X) :
  (forall x y, f x = Some y -> P x <-> Q y) -> omap f (filter P l) = filter Q (omap f l).
Proof.
  intros Hf. induction l as [|x l IH]; [done|]. rewrite filter_cons.
  assert (Hcons : forall k, omap f (x :: k) = match f x with Some y => y :: omap f k | None => omap f k end) by done.
  rewrite Hcons. destruct (f x) as [y|] eqn:E; [rewrite filter_cons|];
    destruct (decide (P x)) as [Hp|Hp]; rewrite ?Hcons, ?IH; try done.
  - by rewrite decide_True by by apply (Hf _ _ E).
  - by rewrite decide_False by by rewrite <- (Hf _ _ E).
Qed.

Definition at_server (address : string) (b : Battleground) : Prop := GameserverAddress b = address.
#[export] Instance at_server_dec address b : Decision (at_server address b).
Proof. unfold at_server. apply _. Defined.
Lemma DeleteAll_refines A s address :
  represents A (st s) ->
  exists l s', DeleteAllWithGameServerAddress address s = (Ok l, s') /\
    l ≡ₚ filter (at_server address) (abs_all A) /\
    represents (filter (fun e => ~ at_server address e.2) A) (st s').
Proof.
  intros Hm. unfold DeleteAllWithGameServerAddress.
  set (at_p := fun (p : nat) => match bg_heap (st s) !! p with Some b => String.eqb (GameserverAddress b) address | None => false end).
  eexists _, _. split; [reflexivity|]. simpl.
  set (found := filter (fun e => at_p e.2 = true) (go_range 5 (bg_index (st s)))).
  assert (Hat : forall p b, bg_heap (st s) !! p = Some b -> at_p p = true <-> at_server address b).
  { intros p b Hb. unfold at_p, at_server. rewrite Hb. apply String.eqb_eq. }
  split.
  - rewrite <- Permutation_rev. rewrite <- (omap_index 5 A _ Hm). unfold found. clear found.
    rewrite (omap_filter _ _ (at_server address)); [done|]. intros e b Hb. by apply Hat.
  - assert (Hidx : forall k p, foldl (fun i e => delete e.1 i) (bg_index (st s)) found !! k = Some p <->
              bg_index (st s) !! k = Some p /\ at_p p = false).
    { intros k p. rewrite foldl_delete. destruct (decide (k ∈ found.*1)) as [Hin|Hout].
      - split; [done|]. intros [Hk Hp]. apply list_elem_of_fmap in Hin as ([k' p'] & -> & Hf).
        unfold found in Hf. apply list_elem_of_filter in Hf as [Hp' Hf%elem_of_go_range]. simpl in *. congruence.
      - split; [|tauto]. intros Hk. split; [done|]. destruct (at_p p) eqn:Ep; [|done]. destruct Hout.
        apply list_elem_of_fmap. exists (k, p). split; [done|]. apply list_elem_of_filter. split; [done|].
        by apply elem_of_go_range. }
    constructor; simpl.
    + intros i r. apply option_eq. intros b. rewrite map_lookup_filter_Some, (rep_entry _ _ _ _ _ Hm), bind_Some. simpl.
      split.
      * intros [(p & Hp & Hb) Hn]. exists p. split; [apply Hidx; split; [done|]|done].
        apply not_true_iff_false. by rewrite (Hat _ _ Hb).
      * intros (p & [Hp Ha]%Hidx & Hb). split; [by exists p|]. rewrite <- (Hat _ _ Hb). congruence.
    + intros k p [Hk _]%Hidx. by apply (rep_valid _ _ Hm).
Qed.

(** C17: the repository of battlegrounds refines a finite map from instance id
    and realm to battleground: every operation returns what the map says and
    leaves a state that represents the map after the operation.  Ended
    battlegrounds are never kept. *)
Theorem battleground_repo_refines A s :
  represents A (st s) ->
  (forall p b, bg_heap (st s) !! p = Some b ->
     exists s', SaveBattleground p s = (Ok tt, s') /\ represents (abs_put b A) (st s')) /\
  (forall i r, exists o, GetBattlegroundByInstanceID i r s = (Ok o, s) /\
     A !! (i, r) = o ≫= fun p => bg_heap (st s) !! p) /\
  (forall i r f, (forall b, abs_key (f b) = abs_key b) ->
     match A !! (i, r) with
     | Some b => exists s', UpdateBattleground i r (fun b => mret (f b)) s = (Ok tt, s') /\ represents (abs_put (f b) A) (st s')
     | None => UpdateBattleground i r (fun b => mret (f b)) s = (Fail ErrBGNotFound, s)
     end) /\
  (exists l, GetAllActiveBattlegrounds s = (Ok l, s) /\ l ≡ₚ filter (fun b => IsActive b = true) (abs_all A)) /\
  (forall address, exists l s', DeleteAllWithGameServerAddress address s = (Ok l, s') /\
     l ≡ₚ filter (at_server address) (abs_all A) /\ represents (filter (fun e => ~ at_server address e.2) A) (st s')).
Proof.
  intros Hm. split_and!.
  - intros p b. by apply Save_refines.
  - intros i r. eexists. split; [reflexivity|]. apply (rep_lookup _ _ Hm).
  - intros i r f. by apply Update_refines.
  - eexists. split; [reflexivity|]. by apply indexed_refines.
  - intros address. by apply DeleteAll_refines.
Qed.
End Repo.

(** ** One battleground *)
Definition sample_bg : Battleground :=
  {| InstanceID := 7; bg_MapID := 489; GameserverAddress := "10.0.0.1:8085"; BattlegroundTypeID := 2;
     bg_QueueTypeID := 2; bg_BracketID := 8; bg_BattleGroupID := 0; bg_RealmID := 1; MinPlayersPerTeam := 1;
     MaxPlayersPerTeam := 2; bg_Status := StatusWaitJoin; ActivePlayersPerTeam := no_teams;
     InvitedPlayersPerTeam := no_teams |}.
Definition one_bg : mm :=
  {| bgTemplates := []; queues := ∅; q_heap := ∅; next_q := 0; links := ∅;
     bg_index := {[index_of_bg sample_bg := 0%nat]}; bg_heap := {[0%nat := sample_bg]}; next_bg := 1;
     battleGroupIDByRealmID := ∅; activeCrossRealmNodes := ∅; addressesMapping := ∅; addressWithConn := ∅;
     available := fun _ _ _ => []; instances := []; dice := []; now := 0 |}.
Lemma one_bg_represents : represents {[abs_key sample_bg := sample_bg]} one_bg.
Proof.
  constructor; simpl.
  - intros i r. destruct (decide (abs_key sample_bg = (i, r))) as [E|Hne].
    + injection E as <- <-. reflexivity.
    + rewrite lookup_singleton_ne by done. rewrite lookup_singleton_ne; [done|]. by apply rep_key_ne.
  - intros k p [<- <-]%lookup_singleton_Some. exists sample_bg. split; reflexivity.
Qed.
Lemma battleground_repo_refines_witness :
  exists l s', @DeleteAllWithGameServerAddress map_range_canonical "10.0.0.1:8085" (Sys one_bg [] []) = (Ok l, s') /\
    l ≡ₚ [sample_bg] /\ represents ∅ (st s').
Proof.
  destruct (@battleground_repo_refines map_range_canonical _ (Sys one_bg [] []) one_bg_represents) as (_ & _ & _ & _ & Hdel).
  destruct (Hdel "10.0.0.1:8085") as (l & s' & Hrun & Hl & Hs'). exists l, s'. split_and!; [done| |].
  - rewrite Hl. vm_compute. done.
  - assert (E : filter (fun e : Z * Z * Battleground => ~ at_server "10.0.0.1:8085" e.2) {[abs_key sample_bg := sample_bg]}
        =@{bg_map} ∅) by (vm_compute; reflexivity). by rewrite <- E.
Defined.
