(* ===== verification/Matchmaking.v ===== *)
(** * Matchmaking: the battleground service
    (apps/matchmakingserver/service/battleground_service.go, battleground-queue.go [process],
    battleground-random-queue.go, crossrealm-nodes-tracker.go, characters-listener.go,
    server/matchmaking.go) *)
From stdpp Require Import pretty.
From S2P Require Import Prelude GoRuntime GoStrings ObjectGuid Registry Gateways Battleground BattlegroundQueue MatchmakingState.

Section Service.
Context `{MapRange} `{SortSlice}.

(** ** The links of the players *)
Definition GetQueueOrBattlegroundLinkForPlayer (p : PlayerUnwrapped) : M (list Link) :=
  gets (fun m => default [] (links m !! p)).
Definition put_links (p : PlayerUnwrapped) (ls : list Link) : M unit :=
  modify (fun m => set_links (<[p := ls]> (links m)) m).

Fixpoint add_links (l : Link) (ps : list PlayerUnwrapped) (slots : gmap PlayerUnwrapped u8) :
    M (gmap PlayerUnwrapped u8) :=
  match ps with
  | [] => mret slots
  | p :: ps =>
    ls ← GetQueueOrBattlegroundLinkForPlayer p;
    put_links p (ls ++ [l]) ;;
    add_links l ps (<[p := wrap8 (len (ls ++ [l]) - 1)]> slots)
  end.
(** The slots are also stored in the group the pointer leads to. *)
Definition addQueueOrBattlegroundLinkForGroupMembers (l : Link) (g : QueuedGroup) : M (gmap PlayerUnwrapped u8) :=
  add_links l (Members g ++ [LeaderGUID g]) ∅.
Definition addQueueForGroupMembers (q : option nat) (g : QueuedGroup) : M (gmap PlayerUnwrapped u8) :=
  addQueueOrBattlegroundLinkForGroupMembers (queue_link q) g.
Definition bg_link (b : Battleground) : Link :=
  {| l_Queue := None;
     l_Battleground := Some {| k_RealmID := bg_RealmID b; k_InstanceID := InstanceID b;
                               k_BattlegroupID := bg_BattleGroupID b |} |}.
Definition addBattlegroundForGroupMembers (p : nat) (g : QueuedGroup) : M (gmap PlayerUnwrapped u8) :=
  b ← load_bg p; addQueueOrBattlegroundLinkForGroupMembers (bg_link b) g.

(** The first link to a queue of [q]'s type goes; a nil queue is only looked at
    when there is a queue to compare it with. *)
Fixpoint cut_queue_link (q : option nat) (ls : list Link) : M (option (list Link)) :=
  match ls with
  | [] => mret None
  | l :: ls =>
    match l_Queue l with
    | None => rest ← cut_queue_link q ls; mret (cons l <$> rest)
    | Some lq =>
      linked ← load_q lq; qp ← deref q; wanted ← load_q qp;
      if GetQueueTypeID linked =? GetQueueTypeID wanted then mret (Some ls)
      else rest ← cut_queue_link q ls; mret (cons l <$> rest)
    end
  end.
Fixpoint remove_queue_links (q : option nat) (ps : list PlayerUnwrapped) : M unit :=
  match ps with
  | [] => mret tt
  | p :: ps =>
    ls ← GetQueueOrBattlegroundLinkForPlayer p;
    rest ← cut_queue_link q ls;
    (match rest with Some ls => put_links p ls | None => mret tt end) ;;
    remove_queue_links q ps
  end.
Definition removeQueueForGroupMembers (q : option nat) (g : QueuedGroup) : M unit :=
  remove_queue_links q (Members g ++ [LeaderGUID g]).

Definition links_to (k : BattlegroundKey) (l : Link) : bool :=
  match l_Battleground l with
  | Some k' => (k_InstanceID k' =? k_InstanceID k) && (k_RealmID k' =? k_RealmID k)
  | None => false
  end.
Definition removeBattlegroundLinkForPlayer (k : BattlegroundKey) (player : u64) (realmID : u32) : M unit :=
  let p := unwrap_player realmID player in
  ls ← GetQueueOrBattlegroundLinkForPlayer p;
  match cut_first (links_to k) ls with Some ls => put_links p ls | None => mret tt end.

(** ** Templates *)
Definition template_at (i : QueueTypeID) : M (option BattlegroundTemplate) :=
  m ← gets id; deref (bgTemplates m !! Z.to_nat i).
Definition template_ptr (i : QueueTypeID) : M BattlegroundTemplate := o ← template_at i; deref o.

Fixpoint pick_template (randomWeight currentWeight : Z) (ts : list BattlegroundTemplate) : option BattlegroundTemplate :=
  match ts with
  | [] => None
  | t :: ts =>
    let currentWeight := currentWeight + RandomBattlegroundWeight t in
    if randomWeight <=? currentWeight then Some t else pick_template randomWeight currentWeight ts
  end.
Definition selectRandomTemplate (ts : list BattlegroundTemplate) : M (option BattlegroundTemplate) :=
  let totalWeight := zsum (fun t => if 0 <? RandomBattlegroundWeight t then RandomBattlegroundWeight t else 0) ts in
  if totalWeight =? 0 then mret None
  else d ← roll totalWeight; mret (pick_template (d + 1) 0 ts).

Fixpoint templates_of (ids : list QueueTypeID) : M (list BattlegroundTemplate) :=
  match ids with
  | [] => mret []
  | i :: ids => t ← template_ptr i; rest ← templates_of ids; mret (t :: rest)
  end.
Definition random_types : list QueueTypeID :=
  [QueueTypeIDAlteracValley; QueueTypeIDArathiBasin; QueueTypeIDEyeOfTheStorm; QueueTypeIDWarsongGulch;
   QueueTypeIDIsleOfConquest; QueueTypeIDStrandOfTheAncients].

Definition TemplateForQueueTypeID (i : QueueTypeID) : M BattlegroundTemplate :=
  fallbackBG ← template_at QueueTypeIDWarsongGulch;
  if negb (i =? QueueTypeIDRandomBattleground) then
    o ← template_at i;
    match o with Some t => mret t | None => deref fallbackBG end
  else
    ts ← templates_of random_types;
    res ← selectRandomTemplate ts;
    match res with Some t => mret t | None => deref fallbackBG end.

(** ** Inviting *)
Definition BattlegroundsThatNeedPlayers (typeID : QueueTypeID) (bracketID : u8) (battleGroupID realmID : u32) :
    M (list Battleground) :=
  bgs ← GetActiveBattlegrounds typeID bracketID realmID battleGroupID;
  mret (filter (fun b => (0 <? FreeSlotsForTeam b TeamAlliance) || (0 <? FreeSlotsForTeam b TeamHorde) = true) bgs).

Definition to_bg_group (g : QueuedGroup) : BGQueuedGroup :=
  {| bqg_LeaderGUID := LeaderGUID g; bqg_Members := Members g; bqg_SlotsPerMember := SlotsPerMember g;
     bqg_RealmID := qg_RealmID g; bqg_TeamID := TeamID g; bqg_EnqueuedTime := EnqueuedTime g |}.

(** [s.queues[key][type][bracket]], nil when one of the keys is missing. *)
Definition queue_at (k : QueueKey) (ty : QueueTypeID) (bracket : u8) : M (option nat) :=
  gets (fun m => queues m !! k ≫= fun byType => byType !! ty ≫= fun byBracket => byBracket !! bracket).

Fixpoint relink (q : option nat) (p : nat) (groups : list QueuedGroup) : M unit :=
  match groups with
  | [] => mret tt
  | g :: groups =>
    removeQueueForGroupMembers q g ;; addBattlegroundForGroupMembers p g ;; relink q p groups
  end.

Definition invite_to (p : nat) (t : PVPTeam) (groups : list QueuedGroup) : M unit :=
  time ← gets now;
  on_bg p (wrap_err ErrMMWrap (Battleground.InviteGroups t time (to_bg_group <$> groups))).

Definition InviteGroups (groups : list QueuedGroup) (p : nat) (t : PVPTeam) : M unit :=
  invite_to p t groups ;;
  SaveBattleground p ;;
  b ← load_bg p;
  q ← queue_at {| qk_BattlegroupID := bg_BattleGroupID b; qk_RealmID := bg_RealmID b |} (bg_QueueTypeID b) (bg_BracketID b);
  relink q p groups.

(** The answer's first server gets the battleground. *)
Definition CreateBattleground (template : BattlegroundTemplate) (queueType : QueueTypeID) (bracketID : u8)
    (realmID battlegroupID : u32) (allianceGroups hordeGroups : list QueuedGroup) : M unit :=
  let isCrossRealm := 0 <? battlegroupID in
  let realmID := if isCrossRealm then 0 else realmID in
  ext ErrRegistry ;;
  servers ← gets (fun m => available m (t_MapID template) realmID isCrossRealm);
  server ← not_nil ErrNoGameServers (head servers);
  AddAddressMapping (pb_Address server) (pb_GrpcAddress server) ;;
  wrap_err ErrMMWrap (GRPCConnByGameServerAddress (pb_Address server)) ;;
  ext ErrStartBattleground ;;
  instance ← next_instance;
  p ← alloc_bg {| InstanceID := instance; bg_MapID := t_MapID template; GameserverAddress := pb_Address server;
                  BattlegroundTypeID := wrap8 (t_TypeID template); bg_QueueTypeID := queueType;
                  bg_BracketID := bracketID; bg_BattleGroupID := battlegroupID; bg_RealmID := realmID;
                  MinPlayersPerTeam := t_MinPlayersPerTeam template; MaxPlayersPerTeam := t_MaxPlayersPerTeam template;
                  bg_Status := StatusWaitJoin; ActivePlayersPerTeam := no_teams; InvitedPlayersPerTeam := no_teams |};
  invite_to p TeamHorde hordeGroups ;;
  invite_to p TeamAlliance allianceGroups ;;
  SaveBattleground p ;;
  q ← queue_at {| qk_BattlegroupID := battlegroupID; qk_RealmID := realmID |} queueType bracketID;
  relink q p hordeGroups ;;
  relink q p allianceGroups.

(** ** A queue's matching round (battleground-queue.go, [process]) *)
Definition on_q (p : nat) (f : Queue -> Queue) : M unit := q ← load_q p; store_q p (f q).

Fixpoint leave_queue (p : nat) (groups : list QueuedGroup) : M unit :=
  match groups with
  | [] => mret tt
  | g :: groups => on_q p (removeGroupFromQueue g) ;; leave_queue p groups
  end.

(** A failed invitation is logged and the groups stay queued. *)
Definition inviteGroupsToBG (qp : nat) (groups : list QueuedGroup) (p : nat) (t : PVPTeam) : M unit :=
  invited ← try_err (InviteGroups groups p t);
  match invited with None => mret tt | Some _ => leave_queue qp groups end.

Definition fill_team (qp p : nat) (t : PVPTeam) : M unit :=
  b ← load_bg p;
  if 0 <? FreeSlotsForTeam b t then
    q ← load_q qp;
    let groupsToInvite := findGroupsForGivenSlots (FreeSlotsForTeam b t) t q in
    if (0 <? length groupsToInvite)%nat then inviteGroupsToBG qp groupsToInvite p t else mret tt
  else mret tt.
Fixpoint fill_all (qp : nat) (bgs : list Battleground) : M unit :=
  match bgs with
  | [] => mret tt
  | b :: bgs =>
    p ← alloc_bg b; fill_team qp p TeamAlliance ;; fill_team qp p TeamHorde ;; fill_all qp bgs
  end.

Definition getBattlegroundTemplate (qp : nat) : M BattlegroundTemplate :=
  q ← load_q qp; TemplateForQueueTypeID (q_BattlegroundTypeID q).

(** The random queue draws the next battleground before it creates this one. *)
Definition create_from (qp : nat) (template : BattlegroundTemplate) (alliance horde : list QueuedGroup) : M unit :=
  q ← load_q qp;
  (if is_random q then
     t ← TemplateForQueueTypeID QueueTypeIDRandomBattleground;
     on_q qp (fun q => q_set_type q (wrap8 (t_TypeID t)))
   else mret tt) ;;
  CreateBattleground template (q_QueueTypeID q) (q_BracketID q) (q_RealmID q) (q_BattleGroupID q) alliance horde.

Definition process (qp : nat) : M unit :=
  q ← load_q qp;
  battlegroundToFillIn ← BattlegroundsThatNeedPlayers (q_QueueTypeID q) (q_BracketID q) (q_BattleGroupID q) (q_RealmID q);
  fill_all qp battlegroundToFillIn ;;
  template ← getBattlegroundTemplate qp;
  q ← load_q qp;
  let '(allianceGroup, hordeGroup) :=
    balancedGroups (t_MinPlayersPerTeam template) (t_MaxPlayersPerTeam template) q in
  if (length allianceGroup =? 0)%nat || (length hordeGroup =? 0)%nat then mret tt
  else
    template ← getBattlegroundTemplate qp;
    wrap_err ErrMMWrap (create_from qp template allianceGroup hordeGroup) ;;
    leave_queue qp hordeGroup ;;
    leave_queue qp allianceGroup.

Definition AddQueuedGroup (qp : nat) (g : QueuedGroup) : M unit :=
  q ← load_q qp;
  store_q qp (add_group (if is_random q then set_random g else g) q) ;;
  process qp.

(** ** Joining the queue *)
Definition IsCrossRealmNodeAvailable : M bool := gets (fun m => (0 <? size (activeCrossRealmNodes m))%nat).

(** Nobody of the party may have a link. *)
Fixpoint check_free (ps : list PlayerUnwrapped) : M unit :=
  match ps with
  | [] => mret tt
  | p :: ps =>
    ls ← GetQueueOrBattlegroundLinkForPlayer p;
    guard_err (0 <? length ls)%nat ErrAlreadyInQueue ;; check_free ps
  end.

Definition AddGroupToQueue (realmID : u32) (leaderGUID : u64) (partyMembers : list u64) (typeID : QueueTypeID)
    (leaderLvl : u8) (teamID : PVPTeam) : M unit :=
  let leader := unwrap_player realmID leaderGUID in
  let members := unwrap_player realmID <$> partyMembers in
  check_free (leader :: members) ;;
  battleGroupID ← BattleGroupIDByRealmID realmID;
  crossRealm ← IsCrossRealmNodeAvailable;
  let queueKey := if negb (battleGroupID =? 0) && crossRealm
                  then {| qk_BattlegroupID := battleGroupID; qk_RealmID := 0 |}
                  else {| qk_BattlegroupID := 0; qk_RealmID := realmID |} in
  m ← gets id;
  byType ← not_nil ErrUnknownQueueKey (queues m !! queueKey);
  byBracket ← not_nil ErrUnknownQueueType (byType !! typeID);
  let bracketID := BracketIDByLevel leaderLvl in
  queue ← not_nil ErrUnknownBracket (byBracket !! bracketID);
  time ← gets now;
  let group := {| LeaderGUID := leader; Members := members; SlotsPerMember := ∅; qg_RealmID := realmID;
                  TeamID := teamID; EnqueuedTime := time; IsRandomQueue := false |} in
  slots ← addQueueForGroupMembers (Some queue) group;
  rollback (AddQueuedGroup queue (set_slots group slots)) (removeQueueForGroupMembers (Some queue) group) ;;
  let slotsWithLowGUIDs : gmap u32 u8 := foldl (fun acc e => <[LowGUID e.1 := e.2]> acc) ∅ (go_range 9 slots) in
  wrap_err ErrMMWrap (publish ErrMMBus
    (PlayersQueued realmID ((wrap32 <$> partyMembers) ++ [wrap32 leaderGUID]) slotsWithLowGUIDs
       (LevelsDiapasonForBracket bracketID).1 (LevelsDiapasonForBracket bracketID).2 typeID)).

(** ** Battlegrounds that run *)
Definition realm_of (isCrossrealm : bool) (realmID : u32) : u32 := if isCrossrealm then 0 else realmID.
(** [if errors.Is(err, repo.ErrNotFound) { return nil }] *)
Definition ignore_not_found (m : M unit) : M unit := fun s =>
  match m s with
  | (Fail ErrBGNotFound, s') => (Ok tt, s')
  | r => r
  end.

(** The link is only removed when the battleground is still known. *)
Definition PlayerLeftBattleground (playerGUID : u64) (realmID instanceID : u32) (isCrossrealm : bool) : M unit :=
  ignore_not_found
    (UpdateBattleground instanceID (realm_of isCrossrealm realmID) (fun b => mret (RemovePlayer b playerGUID realmID)) ;;
     removeBattlegroundLinkForPlayer
       {| k_RealmID := realm_of isCrossrealm realmID; k_InstanceID := instanceID; k_BattlegroupID := 0 |}
       playerGUID realmID).

Definition join (playerGUID : u64) (realmID : u32) (b : Battleground) : M Battleground :=
  t ← not_nil ErrNotInvited (TeamForInvitedPlayer b playerGUID realmID);
  mret (AddActivePlayer (RemovePlayer b playerGUID realmID) playerGUID realmID t).
Definition PlayerJoinedBattleground (playerGUID : u64) (realmID instanceID : u32) (isCrossrealm : bool) : M unit :=
  UpdateBattleground instanceID (realm_of isCrossrealm realmID) (join playerGUID realmID).

Definition key_of (b : Battleground) : BattlegroundKey :=
  {| k_RealmID := bg_RealmID b; k_InstanceID := InstanceID b; k_BattlegroupID := bg_BattleGroupID b |}.
Fixpoint unlink_all (k : BattlegroundKey) (ps : list PlayerUnwrapped) : M unit :=
  match ps with
  | [] => mret tt
  | p :: ps => removeBattlegroundLinkForPlayer k (LowGUID p) (RealmID p) ;; unlink_all k ps
  end.
(** Only the players that joined lose their links. *)
Definition unlink_active (b : Battleground) : M unit :=
  unlink_all (key_of b) (team (ActivePlayersPerTeam b) TeamHorde ++ team (ActivePlayersPerTeam b) TeamAlliance).

Definition BattlegroundStatusChanged (status : Status) (realmID instanceID : u32) (isCrossrealm : bool) : M unit :=
  ignore_not_found
    (UpdateBattleground instanceID (realm_of isCrossrealm realmID) (fun b =>
       (if status =? StatusEnded then unlink_active (bg_set_status b status) else mret tt) ;;
       mret (bg_set_status b status))).

Fixpoint unlink_bgs (bgs : list Battleground) : M unit :=
  match bgs with [] => mret tt | b :: bgs => unlink_active b ;; unlink_bgs bgs end.
Definition OnGameServerRemoved (gs : EventGameServer) : M unit :=
  bgs ← DeleteAllWithGameServerAddress (e_Address gs);
  unlink_bgs bgs.

(** ** Leaving the queue *)
Definition leave_by_link (p : PlayerUnwrapped) (qp : nat) : M unit :=
  q ← load_q qp;
  match QueuedGroupByPlayer q p with
  | Some g =>
    removeQueueForGroupMembers (Some qp) g ;;
    (* ErrPlayerNotFound is dropped *)
    on_q qp (fun q => default q (RemoveQueuedGroup p q))
  | None => mret tt
  end.

Definition remove_link (playerGUID : u64) (realmID : u32) (typeID : QueueTypeID) (l : Link) : M unit :=
  match l_Battleground l with
  | Some k =>
    o ← GetBattlegroundByInstanceID (k_InstanceID k) (k_RealmID k);
    match o with
    | None => mret tt
    | Some p =>
      b ← load_bg p;
      if negb (bg_QueueTypeID b =? typeID) then mret tt
      else PlayerLeftBattleground playerGUID realmID (k_InstanceID k) (negb (k_BattlegroupID k =? 0))
    end
  | None =>
    qp ← deref (l_Queue l); q ← load_q qp;
    if GetQueueTypeID q =? typeID then leave_by_link (unwrap_player realmID playerGUID) qp else mret tt
  end.

(** The loop ranges over the player's slice while removals shift its elements
    down in place: [view] is the array under it, [i] the next index. *)
Fixpoint remove_links (fuel : nat) (playerGUID : u64) (realmID : u32) (typeID : QueueTypeID) (i : nat) (view : list Link) :
    M unit :=
  match fuel with
  | O => mret tt
  | S fuel =>
    match view !! i with
    | None => mret tt
    | Some l =>
      remove_link playerGUID realmID typeID l ;;
      ls ← GetQueueOrBattlegroundLinkForPlayer (unwrap_player realmID playerGUID);
      remove_links fuel playerGUID realmID typeID (S i) (ls ++ drop (length ls) view)
    end
  end.
(** The loop runs once for each element of the slice it started with. *)
Definition RemovePlayerFromQueue (playerGUID : u64) (realmID : u32) (typeID : QueueTypeID) : M unit :=
  ls ← GetQueueOrBattlegroundLinkForPlayer (unwrap_player realmID playerGUID);
  remove_links (length ls) playerGUID realmID typeID 0 ls.

(** This loop ranges over a copy. *)
Fixpoint offline_links (playerGUID : u64) (realmID : u32) (ls : list Link) : M unit :=
  match ls with
  | [] => mret tt
  | l :: ls =>
    match l_Battleground l with
    | Some k => PlayerLeftBattleground playerGUID realmID (k_InstanceID k) (negb (k_BattlegroupID k =? 0))
    | None => qp ← deref (l_Queue l); leave_by_link (unwrap_player realmID playerGUID) qp
    end ;;
    offline_links playerGUID realmID ls
  end.
Definition PlayerBecomeOffline (playerGUID : u64) (realmID : u32) : M unit :=
  ls ← GetQueueOrBattlegroundLinkForPlayer (unwrap_player realmID playerGUID);
  offline_links playerGUID realmID ls.

(** characters-listener.go *)
Definition on_logged_out (charGUID : u64) (realmID : u32) : M unit := log_err (PlayerBecomeOffline charGUID realmID).
Fixpoint on_disconnected (charactersGUID : list u64) (realmID : u32) : M unit :=
  match charactersGUID with
  | [] => mret tt
  | c :: cs => log_err (PlayerBecomeOffline c realmID) ;; on_disconnected cs realmID
  end.

(** ** Expired invitations: one round of the ticker *)
Definition expire (b : Battleground) (i : InvitedPlayer) : M unit :=
  let guid := LowGUID (GUID i) in let realm := RealmID (GUID i) in
  removed ← try_err (UpdateBattleground (InstanceID b) (bg_RealmID b)
                       (fun b => mret (RemovePlayerFromInvite b guid realm)));
  match removed with
  | None => mret tt
  | Some _ =>
    left ← try_err (RemovePlayerFromQueue guid realm (bg_QueueTypeID b));
    match left with
    | None => mret tt
    | Some _ => log_err (publish ErrMMBus (PlayersInviteExpired realm [guid] {[guid := 0]}))
    end
  end.
Fixpoint expire_invites (time : Z) (b : Battleground) (is_ : list InvitedPlayer) : M unit :=
  match is_ with
  | [] => mret tt
  | i :: is_ => (if 60000 <? time - InvitedTime i then expire b i else mret tt) ;; expire_invites time b is_
  end.
Fixpoint expire_all (time : Z) (bgs : list Battleground) : M unit :=
  match bgs with
  | [] => mret tt
  | b :: bgs => expire_invites time b (concat (InvitedPlayersPerTeam b)) ;; expire_all time bgs
  end.
Definition ProcessExpiredBattlegroundInvites : M unit :=
  bgs ← GetAllActiveBattlegrounds; time ← gets now; expire_all time bgs.

(** ** Cross-realm nodes (crossrealm-nodes-tracker.go) *)

(** Groups move to another queue: links to the old queue go, the new queue
    tries to match at once, and only then are the links to it added. *)
Fixpoint move_groups (old : nat) (target : QueuedGroup -> M (option nat)) (groups : list QueuedGroup) : M unit :=
  match groups with
  | [] => mret tt
  | g :: groups =>
    removeQueueForGroupMembers (Some old) g ;;
    o ← target g;
    newQueue ← deref o;
    log_err (AddQueuedGroup newQueue g) ;;
    addQueueForGroupMembers (Some newQueue) g ;;
    move_groups old target groups
  end.
Definition move_queue (old : nat) (target : QueuedGroup -> M (option nat)) : M unit :=
  q ← load_q old;
  let groups := GetAllQueuedGroups q in
  if (length groups =? 0)%nat then mret tt
  else store_q old (RemoveAllQueuedGroups q) ;; move_groups old target groups.

(** The queues under a key, with their type and bracket. *)
Definition queues_under (k : QueueKey) (m : mm) : list (QueueTypeID * u8 * nat) :=
  byType ← go_range 10 (default ∅ (queues m !! k));
  (fun e => (byType.1, e.1, e.2)) <$> go_range 11 byType.2.

Fixpoint move_all (target : QueueTypeID -> u8 -> QueuedGroup -> M (option nat)) (l : list (QueueTypeID * u8 * nat)) :
    M unit :=
  match l with
  | [] => mret tt
  | (ty, bracket, old) :: l => move_queue old (target ty bracket) ;; move_all target l
  end.

Fixpoint to_battlegroups (realms : list u32) : M unit :=
  match realms with
  | [] => mret tt
  | realm :: realms =>
    battlegroupID ← BattleGroupIDByRealmID realm;
    l ← gets (queues_under {| qk_BattlegroupID := 0; qk_RealmID := realm |});
    move_all (fun ty bracket _ => queue_at {| qk_BattlegroupID := battlegroupID; qk_RealmID := 0 |} ty bracket) l ;;
    to_battlegroups realms
  end.
Definition OnNoCrossRealmNodesAvailable : M unit := realms ← AllRealmsInBattleGroups; to_battlegroups realms.

Fixpoint to_realms (battlegroups : list u32) : M unit :=
  match battlegroups with
  | [] => mret tt
  | battlegroup :: battlegroups =>
    l ← gets (queues_under {| qk_BattlegroupID := battlegroup; qk_RealmID := 0 |});
    move_all (fun ty bracket g => queue_at {| qk_BattlegroupID := 0; qk_RealmID := qg_RealmID g |} ty bracket) l ;;
    to_realms battlegroups
  end.
Definition OnNoCrossRealmNodesUnAvailable : M unit := battlegroups ← AllBattleGroupsIDs; to_realms battlegroups.

Definition OnGameServerAdded (gs : EventGameServer) : M unit :=
  if negb (e_IsCrossRealm gs) then mret tt
  else
    m ← gets id;
    modify (set_nodes (<[e_ID gs := {| cn_ID := e_ID gs; cn_AvailableMaps := e_AvailableMaps gs |}]>
                         (activeCrossRealmNodes m))) ;;
    if (size (activeCrossRealmNodes m) =? 0)%nat then OnNoCrossRealmNodesAvailable else mret tt.
Definition tracker_OnGameServerRemoved (gs : EventGameServer) : M unit :=
  if negb (e_IsCrossRealm gs) then mret tt
  else
    m ← gets id;
    if (size (activeCrossRealmNodes m) =? 0)%nat then mret tt
    else
      modify (set_nodes (delete (e_ID gs) (activeCrossRealmNodes m))) ;;
      if (size (delete (e_ID gs) (activeCrossRealmNodes m)) =? 0)%nat then OnNoCrossRealmNodesUnAvailable else mret tt.

(** The servers the registry lists at start-up. *)
Definition NewCrossRealmNodesTracker (servers : list GameServerDetailed) : gmap string CrossRealmNode :=
  foldl (fun ns s => <[gd_ID s := {| cn_ID := gd_ID s; cn_AvailableMaps := gd_AvailableMaps s |}]> ns) ∅ servers.

(** ** Start-up *)
Definition queue_types : list QueueTypeID :=
  [QueueTypeIDAlteracValley; QueueTypeIDWarsongGulch; QueueTypeIDArathiBasin; QueueTypeIDEyeOfTheStorm;
   QueueTypeIDIsleOfConquest; QueueTypeIDStrandOfTheAncients; QueueTypeIDRandomBattleground].

Fixpoint bracket_queues (ty : QueueTypeID) (template : BattlegroundTemplate) (realmID battlegroupID : u32)
    (brackets : list u8) (acc : gmap u8 nat) : M (gmap u8 nat) :=
  match brackets with
  | [] => mret acc
  | bracket :: brackets =>
    p ← alloc_q (if ty =? QueueTypeIDRandomBattleground
                 then NewBattlegroundRandomQueue template realmID battlegroupID bracket
                 else NewGenericBattlegroundQueue template realmID battlegroupID bracket);
    bracket_queues ty template realmID battlegroupID brackets (<[bracket := p]> acc)
  end.
Fixpoint type_queues (realmID battlegroupID : u32) (types : list QueueTypeID) (acc : gmap QueueTypeID (gmap u8 nat)) :
    M (gmap QueueTypeID (gmap u8 nat)) :=
  match types with
  | [] => mret acc
  | ty :: types =>
    template ← TemplateForQueueTypeID ty;
    byBracket ← bracket_queues ty template realmID battlegroupID (GetAllBrackets template) ∅;
    type_queues realmID battlegroupID types (<[ty := byBracket]> acc)
  end.
Fixpoint generate_queues (keys : list QueueKey) : M unit :=
  match keys with
  | [] => mret tt
  | k :: keys =>
    byType ← type_queues (qk_RealmID k) (qk_BattlegroupID k) queue_types ∅;
    modify (fun m => set_queues (<[k := byType]> (queues m)) (q_heap m) (next_q m) m) ;;
    generate_queues keys
  end.
Fixpoint store_templates (ts : list BattlegroundTemplate) (l : list (option BattlegroundTemplate)) :
    M (list (option BattlegroundTemplate)) :=
  match ts with
  | [] => mret l
  | t :: ts =>
    deref (l !! Z.to_nat (t_TypeID t)) ;;
    store_templates ts (<[Z.to_nat (t_TypeID t) := Some t]> l)
  end.
(** A row of battleground_template with its map filled in. *)
Definition with_map (t : BattlegroundTemplate) : BattlegroundTemplate :=
  {| t_TypeID := t_TypeID t; t_MapID := battlegroundTypeToMapID (t_TypeID t);
     t_MinPlayersPerTeam := t_MinPlayersPerTeam t; t_MaxPlayersPerTeam := t_MaxPlayersPerTeam t;
     MinLvl := MinLvl t; MaxLvl := MaxLvl t; RandomBattlegroundWeight := RandomBattlegroundWeight t |}.

Definition NewBattleGroundService (rows : list BattlegroundTemplate) (realmIDs : list u32) : M unit :=
  ts ← store_templates (with_map <$> rows) (replicate 33 None);
  modify (set_templates ts) ;;
  battlegroups ← AllBattleGroupsIDs;
  generate_queues (((fun r => {| qk_BattlegroupID := 0; qk_RealmID := r |}) <$> realmIDs) ++
                   ((fun g => {| qk_BattlegroupID := g; qk_RealmID := 0 |}) <$> battlegroups)).

(** ** Request handlers (server/matchmaking.go) *)
Definition EnqueueToBattleground (realmID : u32) (leaderGUID : u64) (partyMembers : list u64) (bgTypeID leadersLvl teamID : u32) :
    M unit :=
  AddGroupToQueue realmID leaderGUID partyMembers (wrap8 bgTypeID) (wrap8 leadersLvl) (wrap8 teamID).
Definition RemovePlayerFromQueue_rpc (playerGUID : u64) (realmID battlegroundType : u32) : M unit :=
  RemovePlayerFromQueue playerGUID realmID (wrap8 battlegroundType).

Inductive QueueSlot :=
| SlotInvited (bgTypeID instanceID mapID battlegroupID : u32) (gameserverAddress grpcAddress : string)
| SlotInQueue (bgTypeID : u32).
(** A slot whose battleground is gone stays nil. *)
Fixpoint queue_slots (ls : list Link) : M (list (option QueueSlot)) :=
  match ls with
  | [] => mret []
  | l :: ls =>
    slot ← match l_Battleground l with
           | Some k =>
             o ← GetBattlegroundByInstanceID (k_InstanceID k) (k_RealmID k);
             match o with
             | None => mret None
             | Some p =>
               b ← load_bg p;
               grpc ← GRPCAddressForGameServer (GameserverAddress b);
               mret (Some (SlotInvited (BattlegroundTypeID b) (InstanceID b) (bg_MapID b) (bg_BattleGroupID b)
                             (GameserverAddress b) grpc))
             end
           | None => qp ← deref (l_Queue l); q ← load_q qp; mret (Some (SlotInQueue (GetQueueTypeID q)))
           end;
    rest ← queue_slots ls;
    mret (slot :: rest)
  end.
Definition BattlegroundQueueDataForPlayer (playerGUID : u64) (realmID : u32) : M (list (option QueueSlot)) :=
  ls ← GetQueueOrBattlegroundLinkForPlayer (unwrap_player realmID playerGUID); queue_slots ls.

Definition BattlegroundStatusChanged_rpc (status realmID instanceID : u32) (isCrossRealm : bool) : M unit :=
  BattlegroundStatusChanged (wrap8 status) realmID instanceID isCrossRealm.
End Service.

(** ** A small server

    One realm, in a battlegroup of its own; every battleground takes one player
    on each side and levels up to 80. *)
#[local] Existing Instances map_range_canonical sort_slice_insertion.
Definition small_row (lo : u8) (ty : QueueTypeID) : BattlegroundTemplate :=
  {| t_TypeID := ty; t_MapID := 0; t_MinPlayersPerTeam := 1; t_MaxPlayersPerTeam := 2; MinLvl := lo; MaxLvl := 80;
     RandomBattlegroundWeight := 1 |}.
Definition small_rows : list BattlegroundTemplate := small_row 10 <$> random_types.
Definition small_server : pb_Server :=
  {| pb_Address := "10.0.0.1:8085"; pb_RealmID := 1; pb_IsCrossRealm := false; pb_GrpcAddress := "10.0.0.1:9501" |}.
Definition mm_empty : mm :=
  {| bgTemplates := []; queues := ∅; q_heap := ∅; next_q := 0; links := ∅; bg_index := ∅; bg_heap := ∅; next_bg := 0;
     battleGroupIDByRealmID := {[1 := 1]}; activeCrossRealmNodes := ∅; addressesMapping := ∅; addressWithConn := ∅;
     available := fun _ _ _ => [small_server]; instances := [7; 8; 9]; dice := []; now := 1000 |}.
Definition mm_started : sys mm mm_event := (NewBattleGroundService small_rows [1] (Sys mm_empty [] [])).2.
