(* ===== verification/Safety.v ===== *)
(** * Safety: handlers that do not panic

    [safe I m Q]: started in a component state satisfying [I], the handler
    does not panic, leaves a state satisfying [I] whether it returns or fails,
    and returns a value satisfying [Q].  [spec P m Q F B] tells the three ways
    to end apart. *)
From S2P Require Import Prelude.

Definition safe {C E X A} (I : C -> Prop) (m : go C E X A) (Q : A -> Prop) : Prop :=
  forall s, I (st s) ->
    match m s with
    | (Ok a, s') => I (st s') /\ Q a
    | (Fail _, s') => I (st s')
    | (Panic, _) => False
    end.
Abbreviation any := (fun _ => True).

Section Safe.
Context {C E X : Type}.
Implicit Types (I J : C -> Prop).

Lemma safe_bind {A B} I (m : go C E X A) (k : A -> go C E X B) Q R :
  safe I m Q -> (forall a, Q a -> safe I (k a) R) -> safe I (m ≫= k) R.
Proof.
  intros Hm Hk s Hs. specialize (Hm s Hs). unfold mbind, go_bind.
  destruct (m s) as [[a|e|] s']; [|done..]. destruct Hm as [Hs' Ha]. exact (Hk a Ha s' Hs').
Qed.
Lemma safe_post {A} I (m : go C E X A) (Q R : A -> Prop) :
  safe I m Q -> (forall a, Q a -> R a) -> safe I m R.
Proof.
  intros Hm HQ s Hs. specialize (Hm s Hs). destruct (m s) as [[a|e|] s']; [|done..].
  split; [apply Hm|apply HQ, Hm].
Qed.
Lemma safe_any {A} I (m : go C E X A) Q : safe I m Q -> safe I m any.
Proof. intros Hm. by eapply safe_post. Qed.
(** A stronger assertion may be assumed, when the state is known to satisfy it. *)
Lemma safe_strengthen {A} I (m : go C E X A) Q :
  (forall s : sys C E, I (st s) -> exists J', J' (st s) /\ (forall c, J' c -> I c) /\ safe J' m Q) -> safe I m Q.
Proof.
  intros Hm s Hs. destruct (Hm s Hs) as (J' & HJ & Himp & Hsafe). specialize (Hsafe s HJ).
  destruct (m s) as [[a|e|] s']; [|by apply Himp|done]. split; [apply Himp, Hsafe|apply Hsafe].
Qed.
Lemma safe_ret {A} I (a : A) (Q : A -> Prop) : Q a -> safe I (mret a : go C E X A) Q.
Proof. intros Ha s Hs. by split. Qed.
Lemma safe_fail {A} I e Q : safe I (fail e : go C E X A) Q.
Proof. by intros s Hs. Qed.
Lemma safe_gets {A} I (f : C -> A) (Q : A -> Prop) : (forall c, I c -> Q (f c)) -> safe I (gets f : go C E X A) Q.
Proof. intros Hf s Hs. split; [done|by apply Hf]. Qed.
Lemma safe_gets_any {A} I (f : C -> A) : safe I (gets f : go C E X A) any.
Proof. by apply safe_gets. Qed.
Lemma safe_modify I (f : C -> C) : (forall c, I c -> I (f c)) -> safe I (modify f : go C E X unit) any.
Proof. intros Hf s Hs. split; [by apply Hf|done]. Qed.
Lemma safe_deref {A} I (o : option A) : is_Some o -> safe I (deref o : go C E X A) (fun a => o = Some a).
Proof. intros [a ->] s Hs. by split. Qed.
Lemma safe_not_nil {A} I e (o : option A) : safe I (not_nil e o : go C E X A) (fun a => o = Some a).
Proof. destruct o; [by apply safe_ret|by apply safe_fail]. Qed.
Lemma safe_guard I b e : safe I (guard_err b e : go C E X unit) (fun _ => b = false).
Proof. destruct b; [apply safe_fail|by apply safe_ret]. Qed.
Lemma safe_ext I e : safe I (ext e : go C E X unit) any.
Proof. intros s Hs. unfold ext. by destruct (faults s) as [|[] ?]. Qed.
Lemma safe_publish I x e : safe I (publish x e : go C E X unit) any.
Proof. intros s Hs. unfold publish, ext. by destruct (faults s) as [|[] ?]. Qed.
Lemma safe_log_err I (m : go C E X unit) : safe I m any -> safe I (log_err m) any.
Proof. intros Hm s Hs. specialize (Hm s Hs). unfold log_err. by destruct (m s) as [[?|?|] ?]. Qed.
Lemma safe_wrap_err {A} I f (m : go C E X A) Q : safe I m Q -> safe I (wrap_err f m) Q.
Proof. intros Hm s Hs. specialize (Hm s Hs). unfold wrap_err. by destruct (m s) as [[?|?|] ?]. Qed.
Lemma safe_try_err {A} I (m : go C E X A) Q : safe I m Q -> safe I (try_err m) any.
Proof. intros Hm s Hs. specialize (Hm s Hs). unfold try_err. destruct (m s) as [[?|?|] ?]; [by split; [apply Hm|]|done..]. Qed.
Lemma safe_if {A} I (b : bool) (m n : go C E X A) Q :
  (b = true -> safe I m Q) -> (b = false -> safe I n Q) -> safe I (if b then m else n) Q.
Proof. destruct b; auto. Qed.
End Safe.

Create HintDb safe.
#[export] Hint Resolve safe_fail safe_gets_any safe_ext safe_publish safe_any : safe.
#[export] Hint Extern 1 (safe _ (mret _) _) => (apply safe_ret; done) : safe.

(** Walk through the control structure; what is left are the operations that
    need an argument. *)
Ltac safe_step :=
  match goal with
  | |- safe _ (mret _) _ => apply safe_ret; try done
  | |- safe _ (fail _) _ => apply safe_fail
  | |- safe _ (ext _ ≫= _) _ => apply (safe_bind _ _ _ any); [apply safe_ext|intros ? _]
  | |- safe _ (publish _ _ ≫= _) _ => apply (safe_bind _ _ _ any); [apply safe_publish|intros ? _]
  | |- safe _ (ext _) _ => apply safe_ext
  | |- safe _ (publish _ _) _ => apply safe_publish
  | |- safe _ (gets _ ≫= _) _ => apply (safe_bind _ _ _ any); [apply safe_gets_any|intros ? _]
  | |- safe _ (gets _) any => apply safe_gets_any
  | |- safe _ (guard_err ?b _ ≫= _) _ => apply (safe_bind _ _ _ (fun _ => b = false)); [apply safe_guard|intros ? ?]
  | |- safe _ (not_nil _ ?o ≫= _) _ => apply (safe_bind _ _ _ (fun a => o = Some a)); [apply safe_not_nil|intros ? ?]
  | |- safe _ (wrap_err _ _) _ => apply safe_wrap_err
  | |- safe _ (log_err _) _ => apply safe_log_err
  | |- safe _ (if _ then _ else _) _ => apply safe_if; intros ?
  end.
Ltac safe_tac := repeat safe_step.
(** [m ;; k], when [m] returns nothing of interest. *)
Ltac safe_seq := apply (safe_bind _ _ _ any); [|intros ? _].

(** ** Values, errors and panics apart *)

(** [spec P m Q F B]: from a state with [P], [m] returns a value with [Q],
    fails with [F] or panics with [B]. *)
Definition spec {C E X A} (P : C -> Prop) (m : go C E X A) (Q : A -> C -> Prop) (F : X -> C -> Prop) (B : C -> Prop) : Prop :=
  forall s, P (st s) ->
    match m s with
    | (Ok a, s') => Q a (st s')
    | (Fail e, s') => F e (st s')
    | (Panic, s') => B (st s')
    end.

Section Spec.
Context {C E X : Type}.
Implicit Types (P : C -> Prop) (F : X -> C -> Prop) (B : C -> Prop).
Lemma spec_bind {A A'} P Q R F B (m : go C E X A) (k : A -> go C E X A') :
  spec P m Q F B -> (forall a, spec (Q a) (k a) R F B) -> spec P (m ≫= k) R F B.
Proof.
  intros Hm Hk s Hs. specialize (Hm s Hs). unfold mbind, go_bind. destruct (m s) as [[a|e|] s']; [by apply Hk|done..].
Qed.
Lemma spec_conseq {A} P P' (Q Q' : A -> C -> Prop) F F' B B' (m : go C E X A) :
  spec P' m Q' F' B' -> (forall c, P c -> P' c) -> (forall a c, Q' a c -> Q a c) ->
  (forall e c, F' e c -> F e c) -> (forall c, B' c -> B c) -> spec P m Q F B.
Proof.
  intros Hm HP HQ HF HB s Hs. specialize (Hm s (HP _ Hs)). destruct (m s) as [[a|e|] s']; auto.
Qed.
Lemma spec_pre {A} P P' (Q : A -> C -> Prop) F B (m : go C E X A) :
  spec P' m Q F B -> (forall c, P c -> P' c) -> spec P m Q F B.
Proof. intros Hm HP. by eapply spec_conseq. Qed.
Lemma spec_pure {A} (phi : Prop) P (Q : A -> C -> Prop) F B (m : go C E X A) :
  (phi -> spec P m Q F B) -> spec (fun c => phi /\ P c) m Q F B.
Proof. intros Hm s [Hphi Hs]. by apply Hm. Qed.
Lemma spec_exists {A T} (P : T -> C -> Prop) (Q : A -> C -> Prop) F B (m : go C E X A) :
  (forall t, spec (P t) m Q F B) -> spec (fun c => exists t, P t c) m Q F B.
Proof. intros Hm s [t Hs]. by apply (Hm t). Qed.
Lemma spec_ret {A} P (Q : A -> C -> Prop) F B (a : A) : (forall c, P c -> Q a c) -> spec P (mret a : go C E X A) Q F B.
Proof. intros HQ s Hs. by apply HQ. Qed.
Lemma spec_fail {A} P (Q : A -> C -> Prop) F B e : (forall c, P c -> F e c) -> spec P (fail e : go C E X A) Q F B.
Proof. intros HF s Hs. by apply HF. Qed.
Lemma spec_gets {A} P F B (f : C -> A) : spec P (gets f : go C E X A) (fun a c => a = f c /\ P c) F B.
Proof. by intros s Hs. Qed.
Lemma spec_gets_post {A} P (Q : A -> C -> Prop) F B (f : C -> A) : (forall c, P c -> Q (f c) c) -> spec P (gets f : go C E X A) Q F B.
Proof. intros HQ s Hs. by apply HQ. Qed.
Lemma spec_modify P (Q : unit -> C -> Prop) F B f : (forall c, P c -> Q tt (f c)) -> spec P (modify f : go C E X unit) Q F B.
Proof. intros HQ s Hs. by apply HQ. Qed.
Lemma spec_ext P F B e : (forall c, P c -> F e c) -> spec P (ext e : go C E X unit) (fun _ => P) F B.
Proof. intros HF s Hs. unfold ext. destruct (faults s) as [|[] fs]; auto. Qed.
Lemma spec_publish P F B e ev : (forall c, P c -> F e c) -> spec P (publish e ev : go C E X unit) (fun _ => P) F B.
Proof. intros HF s Hs. unfold publish, ext. destruct (faults s) as [|[] fs]; simpl; auto. Qed.
Lemma spec_guard P F B b e : (forall c, P c -> F e c) -> spec P (guard_err b e : go C E X unit) (fun _ c => b = false /\ P c) F B.
Proof. intros HF s Hs. destruct b; [by apply HF|done]. Qed.
Lemma spec_not_nil {A} P F B e (o : option A) :
  (forall c, P c -> F e c) -> spec P (not_nil e o : go C E X A) (fun a c => o = Some a /\ P c) F B.
Proof. intros HF s Hs. destruct o; [done|by apply HF]. Qed.
Lemma spec_deref {A} P F B (o : option A) :
  (forall c, P c -> o = None -> B c) -> spec P (deref o : go C E X A) (fun a c => o = Some a /\ P c) F B.
Proof. intros HB s Hs. destruct o; [done|by apply HB]. Qed.
Lemma spec_try {A} P (Q : option A -> C -> Prop) F B (m : go C E X A) :
  spec P m (fun a => Q (Some a)) (fun _ => Q None) B -> spec P (try_err m) Q F B.
Proof. intros Hm s Hs. specialize (Hm s Hs). unfold try_err. by destruct (m s) as [[a|e|] s']. Qed.
Lemma spec_keeps {A} (I : C -> Prop) F B (m : go C E X A) :
  keeps I m -> (forall e c, I c -> F e c) -> (forall c, I c -> B c) -> spec I m (fun _ => I) F B.
Proof. intros Hm HF HB s Hs. specialize (Hm s Hs). destruct (m s) as [[a|e|] s']; auto. Qed.
(** On a part of the state. *)
Lemma spec_zoom {D A} P (Q : A -> C -> Prop) F B (get : C -> D) put (m : go D E X A) :
  (forall c, P c -> spec (fun d => d = get c) m (fun a d => Q a (put d c)) (fun e d => F e (put d c)) (fun d => B (put d c))) ->
  spec P (zoom get put m) Q F B.
Proof.
  intros Hm s Hs. specialize (Hm (st s) Hs (Sys (get (st s)) (faults s) (events s)) eq_refl). unfold zoom.
  by destruct (m _) as [[a|e|] s'].
Qed.
End Spec.
