(* ===== verification/MatchmakingSafety.v ===== *)
(** * MatchmakingSafety: no request panics the matchmaking server

    The pointers of a running server are the numbers handed out so far: [V nb]
    is the well-formedness of a state with [nq] queues and at least [nb]
    battlegrounds allocated.  A pointer below these bounds stays valid. *)
From S2P Require Import Prelude Safety GoRuntime GoStrings ObjectGuid Registry Gateways Battleground BattlegroundQueue MatchmakingState Matchmaking.

(** A template is stored under its own type, an index of the array. *)
Definition template_ok (t : BattlegroundTemplate) : Prop := 0 <= t_TypeID t < 33.
Record templates_ok (ts : list (option BattlegroundTemplate)) : Prop := {
  ts_length : length ts = 33%nat;
  ts_types : forall i t, ts !! i = Some (Some t) -> t_TypeID t = Z.of_nat i;
  ts_random : forall ty, ty ∈ random_types -> exists t, ts !! Z.to_nat ty = Some (Some t)
}.
Lemma ts_ok ts i t : templates_ok ts -> ts !! i = Some (Some t) -> template_ok t.
Proof.
  intros Hts Ht. unfold template_ok. rewrite (ts_types _ Hts _ _ Ht).
  apply lookup_lt_Some in Ht. rewrite (ts_length _ Hts) in Ht. lia.
Qed.
Definition link_ok (nq : nat) (l : Link) : Prop :=
  match l_Queue l with Some q => (q < nq)%nat | None => is_Some (l_Battleground l) end.

Abbreviation table := (gmap QueueKey (gmap QueueTypeID (gmap u8 nat))).
Definition entry (T : table) (k : QueueKey) (ty : QueueTypeID) (bracket : u8) : option nat :=
  T !! k ≫= fun byType => byType !! ty ≫= fun byBracket => byBracket !! bracket.

(** What never changes about a queue. *)
Record identity := { i_key : QueueKey; i_type : QueueTypeID; i_bracket : u8 }.
Definition key_of_queue (q : Queue) : QueueKey :=
  {| qk_BattlegroupID := q_BattleGroupID q; qk_RealmID := q_RealmID q |}.
Definition identity_of (q : Queue) : identity :=
  {| i_key := key_of_queue q; i_type := q_QueueTypeID q; i_bracket := q_BracketID q |}.

Definition queue_ok (q : Queue) : Prop := 0 <= q_BattlegroundTypeID q < 33.
(** A battleground belongs to a queue of the table. *)
Definition bg_ok (T : table) (b : Battleground) : Prop :=
  is_Some (entry T {| qk_BattlegroupID := bg_BattleGroupID b; qk_RealmID := bg_RealmID b |}
             (bg_QueueTypeID b) (bg_BracketID b)).

(** The table [T] leads to the queues below [nq], whose identities are [ident]. *)
Record table_ok (nq : nat) (T : table) (ident : nat -> identity) : Prop := {
  tb_entry : forall k ty bracket p, entry T k ty bracket = Some p ->
    (p < nq)%nat /\ ident p = {| i_key := k; i_type := ty; i_bracket := bracket |};
  tb_cross : forall k ty bracket p, entry T k ty bracket = Some p ->
    0 < qk_BattlegroupID k -> qk_RealmID k = 0
}.

Record W (nq : nat) (T : table) (ident : nat -> identity) (nb : nat) (m : mm) : Prop := {
  w_templates : templates_ok (bgTemplates m);
  w_table : queues m = T;
  w_nq : next_q m = nq;
  w_nb : (nb <= next_bg m)%nat;
  w_queues : forall p, (p < nq)%nat -> exists q, q_heap m !! p = Some q /\ queue_ok q /\ identity_of q = ident p;
  w_links : forall p ls l, links m !! p = Some ls -> l ∈ ls -> link_ok nq l;
  w_index : forall s p, bg_index m !! s = Some p -> (p < next_bg m)%nat;
  w_bgs : forall p, (p < next_bg m)%nat -> exists b, bg_heap m !! p = Some b /\ bg_ok T b
}.

Section Safe.
Context `{MapRange} `{SortSlice}.
Variables (nq : nat) (T : table) (ident : nat -> identity).
Abbreviation V := (W nq T ident).

Lemma W_weaken nb nb' m : (nb <= nb')%nat -> V nb' m -> V nb m.
Proof. intros Hle Hm. destruct Hm. constructor; try done. lia. Qed.

(** ** Loads, stores and allocations *)
Lemma safe_load_q nb p : (p < nq)%nat -> safe (V nb) (load_q p) (fun q => queue_ok q /\ identity_of q = ident p).
Proof.
  intros Hp s Hs. destruct (w_queues _ _ _ _ _ Hs p Hp) as (q & Hq & Hok). unfold load_q, mbind, go_bind, gets, id.
  by rewrite Hq.
Qed.
Lemma safe_store_q nb p q : queue_ok q -> identity_of q = ident p -> safe (V nb) (store_q p q) any.
Proof.
  intros Hq Hi. apply safe_modify. intros m Hm. destruct Hm. constructor; simpl; try done.
  intros p' Hp'. destruct (decide (p = p')) as [<-|Hne].
  - exists q. by rewrite lookup_insert_eq.
  - rewrite lookup_insert_ne by done. auto.
Qed.
Lemma safe_load_bg nb p : (p < nb)%nat -> safe (V nb) (load_bg p) (bg_ok T).
Proof.
  intros Hp s Hs. destruct (w_bgs _ _ _ _ _ Hs p) as (b & Hb & Hok).
  { pose proof (w_nb _ _ _ _ _ Hs). lia. }
  unfold load_bg, mbind, go_bind, gets, id. by rewrite Hb.
Qed.

Lemma W_store_bg nb p b m : (p < nb)%nat -> bg_ok T b -> V nb m ->
  V nb (set_bgs (bg_index m) (<[p := b]> (bg_heap m)) (next_bg m) m).
Proof.
  intros Hp Hb Hm. destruct Hm. constructor; simpl; try done.
  intros p' Hp'. destruct (decide (p = p')) as [<-|Hne]; [exists b; by rewrite lookup_insert_eq|].
  rewrite lookup_insert_ne by done. auto.
Qed.
Lemma safe_store_bg nb p b : (p < nb)%nat -> bg_ok T b -> safe (V nb) (store_bg p b) any.
Proof. intros Hp Hb. apply safe_modify. intros m. by apply W_store_bg. Qed.

Lemma safe_alloc_bg {A} nb b (k : nat -> M A) Q :
  bg_ok T b -> (forall p, (nb <= p)%nat -> safe (V (S p)) (k p) Q) -> safe (V nb) (alloc_bg b ≫= k) Q.
Proof.
  intros Hb Hk s Hs. unfold alloc_bg, mbind, go_bind, gets, modify, id. simpl.
  pose proof (w_nb _ _ _ _ _ Hs) as Hnb. specialize (Hk (next_bg (st s)) Hnb).
  set (s1 := Sys _ _ _). assert (Hs1 : V (S (next_bg (st s))) (st s1)).
  { destruct Hs. constructor; simpl; try done.
    - intros t p Hp. specialize (w_index0 t p Hp). lia.
    - intros p Hp. destruct (decide (p = next_bg (st s))) as [->|Hne]; [exists b; by rewrite lookup_insert_eq|].
      rewrite lookup_insert_ne by done. apply w_bgs0. lia. }
  specialize (Hk s1 Hs1). change (go_ret _ _ s1) with (@Ok mm_err nat (next_bg (st s)), s1). simpl.
  destruct (k (next_bg (st s)) s1) as [[a|e|] s2]; [|by eapply W_weaken; [|exact Hk]; lia|done].
  split; [|apply Hk]. eapply W_weaken; [|apply Hk]. lia.
Qed.

Lemma on_bg_run {A} (p : nat) (a : go Battleground mm_event mm_err A) (s : sys mm mm_event) b :
  bg_heap (st s) !! p = Some b ->
  on_bg p a s =
    (let '(o, s') := a (Sys b (faults s) (events s)) in
     (o, Sys (set_bgs (bg_index (st s)) (<[p := st s']> (bg_heap (st s))) (next_bg (st s)) (st s)) (faults s') (events s'))).
Proof.
  intros Hb. unfold on_bg, load_bg, mbind, go_bind, gets, id. simpl. rewrite Hb. simpl.
  unfold zoom. by rewrite Hb.
Qed.
Lemma safe_on_bg {A} nb p (a : go Battleground mm_event mm_err A) :
  (p < nb)%nat -> safe (bg_ok T) a any -> safe (V nb) (on_bg p a) any.
Proof.
  intros Hp Ha s Hs. destruct (w_bgs _ _ _ _ _ Hs p) as (b & Hb & Hok).
  { pose proof (w_nb _ _ _ _ _ Hs). lia. }
  rewrite (on_bg_run _ _ _ _ Hb). specialize (Ha (Sys b (faults s) (events s)) Hok).
  destruct (a _) as [[r|e|] s']; simpl; [split; [|done]|..]; [apply W_store_bg; [done|apply Ha|done]|by apply W_store_bg|done].
Qed.

(** ** The battleground store *)
Lemma safe_set_index nb f :
  (forall m s p, V nb m -> f (bg_index m) !! s = Some p -> (p < next_bg m)%nat) ->
  safe (V nb) (modify (set_index f) : M unit) any.
Proof. intros Hf. apply safe_modify. intros m Hm. pose proof (fun s p => Hf m s p Hm) as Hfm. destruct Hm. by constructor. Qed.

Lemma safe_Save nb p : (p < nb)%nat -> safe (V nb) (SaveBattleground p) any.
Proof.
  intros Hp. apply (safe_bind _ _ _ (bg_ok T)); [by apply safe_load_bg|intros b Hb]. apply safe_if; intros _; apply safe_set_index.
  - intros m s q Hm [_ Hq]%lookup_delete_Some. by eapply w_index.
  - intros m s q Hm [[_ <-]|[_ Hq]]%lookup_insert_Some; [|by eapply w_index].
    pose proof (w_nb _ _ _ _ _ Hm). lia.
Qed.

(** A pointer found in the index raises the bound above it. *)
Lemma safe_get_bg {A} nb i r (k : option nat -> M A) Q :
  safe (V nb) (k None) Q ->
  (forall p nb', (p < nb')%nat -> (nb <= nb')%nat -> safe (V nb') (k (Some p)) Q) ->
  safe (V nb) (GetBattlegroundByInstanceID i r ≫= k) Q.
Proof.
  intros Hnone Hsome s Hs. unfold GetBattlegroundByInstanceID, mbind, go_bind, gets.
  destruct (bg_index (st s) !! _) as [p|] eqn:E; [|by apply Hnone].
  pose proof (w_index _ _ _ _ _ Hs _ _ E) as Hp. pose proof (w_nb _ _ _ _ _ Hs) as Hnb.
  specialize (Hsome p (next_bg (st s)) Hp Hnb s). destruct (k (Some p) s) as [[a|e|] s'].
  - destruct Hsome as [Hs' Ha]; [by destruct Hs; constructor|]. split; [by eapply W_weaken|done].
  - eapply W_weaken; [exact Hnb|]. apply Hsome. by destruct Hs; constructor.
  - apply Hsome. by destruct Hs; constructor.
Qed.

Lemma safe_Update nb i r (u : Battleground -> M Battleground) :
  (forall nb' b, (nb <= nb')%nat -> bg_ok T b -> safe (V nb') (u b) (bg_ok T)) -> safe (V nb) (UpdateBattleground i r u) any.
Proof.
  intros Hu. apply safe_get_bg; [by apply (safe_bind _ _ _ (fun _ => False)); [apply safe_fail|]|].
  intros p nb' Hp Hle. safe_tac. simplify_eq.
  apply (safe_bind _ _ _ (bg_ok T)); [by apply safe_load_bg|intros b Hb].
  apply (safe_bind _ _ _ (bg_ok T)); [by apply Hu|intros b' Hb'].
  safe_seq; [by apply safe_store_bg|]. safe_tac. apply safe_set_index.
  intros m s q Hm [_ Hq]%lookup_delete_Some. by eapply w_index.
Qed.

Create HintDb mm_safe.
#[local] Hint Resolve safe_Save safe_store_bg : mm_safe.

(** ** The links of the players *)
Abbreviation links_ok := (fun ls : list Link => forall l, l ∈ ls -> link_ok nq l).

Lemma safe_links nb p : safe (V nb) (GetQueueOrBattlegroundLinkForPlayer p) links_ok.
Proof.
  apply safe_gets. intros m Hm l Hl. destruct (links m !! p) as [ls|] eqn:E; simpl in Hl; [|by apply elem_of_nil in Hl].
  by eapply w_links.
Qed.
Lemma safe_put_links nb p ls : links_ok ls -> safe (V nb) (put_links p ls) any.
Proof.
  intros Hls. apply safe_modify. intros m Hm. destruct Hm. constructor; simpl; try done.
  intros p' ls' l [[_ <-]|[_ Hp]]%lookup_insert_Some Hl; [by apply Hls|by eapply w_links0].
Qed.
Lemma cut_first_elem {A} (f : A -> bool) (l k : list A) x : cut_first f l = Some k -> x ∈ k -> x ∈ l.
Proof.
  intros Hc Hx. eapply elem_of_submseteq; [exact Hx|]. apply sublist_submseteq.
  pose proof (cut_first_sublist f l) as Hs. by rewrite Hc in Hs.
Qed.

Lemma safe_unlink nb k player realmID : safe (V nb) (removeBattlegroundLinkForPlayer k player realmID) any.
Proof.
  apply (safe_bind _ _ _ links_ok); [apply safe_links|intros ls Hls].
  destruct (cut_first _ ls) as [ls'|] eqn:E; [|by apply safe_ret].
  apply safe_put_links. intros l Hl. apply Hls. by eapply cut_first_elem.
Qed.
Lemma safe_add_links nb l ps : forall slots, link_ok nq l -> safe (V nb) (add_links l ps slots) any.
Proof.
  induction ps as [|p ps IH]; intros slots Hl; cbn [add_links]; [by apply safe_ret|].
  apply (safe_bind _ _ _ links_ok); [apply safe_links|intros ls Hls].
  safe_seq; [|by apply IH]. apply safe_put_links.
  intros x [Hx|Hx%list_elem_of_singleton]%elem_of_app; [by apply Hls|by subst].
Qed.
Lemma safe_cut_queue_link nb q ls : (q < nq)%nat -> links_ok ls ->
  safe (V nb) (cut_queue_link (Some q) ls) (fun o => match o with Some ls => links_ok ls | None => True end).
Proof.
  intros Hq. induction ls as [|l ls IH]; intros Hls; cbn [cut_queue_link]; [by apply safe_ret|].
  assert (Hl : link_ok nq l) by (apply Hls; left). assert (Hls' : links_ok ls) by (intros; apply Hls; by right).
  specialize (IH Hls').
  assert (Hrest : safe (V nb) (rest ← cut_queue_link (Some q) ls; mret (cons l <$> rest))
            (fun o => match o with Some ls => links_ok ls | None => True end)).
  { eapply safe_bind; [exact IH|]. intros [ls'|] Hls''; apply safe_ret; [|done].
    intros x [->|Hx]%elem_of_cons; [done|by apply Hls'']. }
  unfold link_ok in Hl. destruct (l_Queue l) as [lq|]; [|exact Hrest].
  eapply safe_bind; [by apply safe_load_q|intros linked _].
  eapply safe_bind; [by apply safe_deref|intros ? [= <-]].
  eapply safe_bind; [by apply safe_load_q|intros wanted _].
  by apply safe_if; intros _; [apply safe_ret|].
Qed.
Lemma safe_removeQueue nb q g : (q < nq)%nat -> safe (V nb) (removeQueueForGroupMembers (Some q) g) any.
Proof.
  intros Hq. unfold removeQueueForGroupMembers. induction (Members g ++ [LeaderGUID g]) as [|p ps IH];
    cbn [remove_queue_links]; [by apply safe_ret|].
  apply (safe_bind _ _ _ links_ok); [apply safe_links|intros ls Hls].
  eapply safe_bind; [by apply safe_cut_queue_link|intros rest Hrest].
  safe_seq; [|exact IH]. destruct rest; [by apply safe_put_links|by apply safe_ret].
Qed.
Lemma safe_addQueue nb q g : (q < nq)%nat -> safe (V nb) (addQueueForGroupMembers (Some q) g) any.
Proof. intros Hq. by apply safe_add_links. Qed.
Lemma safe_addBattleground nb p g : (p < nb)%nat -> safe (V nb) (addBattlegroundForGroupMembers p g) any.
Proof.
  intros Hp. eapply safe_bind; [by apply safe_load_bg|intros b _]. apply safe_add_links. by eexists.
Qed.

(** ** Templates *)
Lemma safe_template_at nb i : 0 <= i < 33 ->
  safe (V nb) (template_at i) (fun o => match o with Some t => template_ok t | None => True end).
Proof.
  intros Hi s Hs. pose proof (w_templates _ _ _ _ _ Hs) as Hts. pose proof (ts_length _ Hts) as Hlen.
  destruct (lookup_lt_is_Some_2 (bgTemplates (st s)) (Z.to_nat i)) as [o Ho]; [lia|].
  unfold template_at, mbind, go_bind, gets, id. rewrite Ho. simpl. split; [done|].
  destruct o; [by eapply ts_ok|done].
Qed.
Lemma safe_template_of nb i : i ∈ random_types -> safe (V nb) (template_ptr i) template_ok.
Proof.
  intros Hi s Hs. pose proof (w_templates _ _ _ _ _ Hs) as Hts. destruct (ts_random _ Hts i Hi) as [t Ht].
  unfold template_ptr, template_at, mbind, go_bind, gets, id. rewrite Ht. simpl. split; [done|by eapply ts_ok].
Qed.
Lemma safe_templates_of nb ids : (forall i, i ∈ ids -> i ∈ random_types) ->
  safe (V nb) (templates_of ids) (Forall template_ok).
Proof.
  induction ids as [|i ids IH]; intros Hids; cbn [templates_of]; [by apply safe_ret|].
  eapply safe_bind; [apply safe_template_of, Hids; left|intros t Ht].
  eapply safe_bind; [apply IH; intros; apply Hids; by right|intros ts Hts]. apply safe_ret. by constructor.
Qed.
Lemma safe_inputs nb ids ds : safe (V nb) (modify (set_inputs ids ds) : M unit) any.
Proof. apply safe_modify. intros m Hm. destruct Hm. by constructor. Qed.
Lemma safe_roll nb n : safe (V nb) (roll n) any.
Proof.
  unfold roll. safe_step. destruct (dice _); [by apply safe_ret|]. safe_seq; [apply safe_inputs|by apply safe_ret].
Qed.
Lemma safe_next_instance nb : safe (V nb) next_instance any.
Proof.
  unfold next_instance. safe_step. destruct (instances _); [by apply safe_ret|].
  safe_seq; [apply safe_inputs|by apply safe_ret].
Qed.
Lemma pick_template_elem w ts : forall c t, pick_template w c ts = Some t -> t ∈ ts.
Proof.
  induction ts as [|x ts IH]; intros c t; cbn [pick_template]; [done|].
  destruct (_ <=? _); [intros [= ->]; left|intros Ht; right; by eapply IH].
Qed.

(** Warsong Gulch is the fallback. *)
Lemma safe_fallback nb i : 0 <= i < 33 ->
  safe (V nb) (TemplateForQueueTypeID i) template_ok.
Proof.
  intros Hi s Hs. unfold TemplateForQueueTypeID.
  pose proof (w_templates _ _ _ _ _ Hs) as Hts.
  destruct (ts_random _ Hts QueueTypeIDWarsongGulch) as [ws Hws]; [right; right; right; left|].
  assert (Hok : template_ok ws) by (by eapply ts_ok).
  rewrite (bind_run (template_at QueueTypeIDWarsongGulch) _ s (Some ws) s).
  2:{ unfold template_at, mbind, go_bind, gets, id. by rewrite Hws. }
  revert s Hs Hts Hws. cut (safe (V nb) (if negb (i =? QueueTypeIDRandomBattleground)
    then o ← template_at i; match o with Some t => mret t | None => deref (Some ws) end
    else ts ← templates_of random_types; res ← selectRandomTemplate ts;
         match res with Some t => mret t | None => deref (Some ws) end) template_ok).
  { intros Hsafe s Hs _ _. by apply Hsafe. }
  apply safe_if; intros _.
  - eapply safe_bind; [by apply safe_template_at|]. intros [t|] Ht; [by apply safe_ret|].
    eapply safe_post; [by apply safe_deref|]. by intros ? [= <-].
  - eapply safe_bind; [by apply safe_templates_of|intros ts Hts].
    apply (safe_bind _ _ _ (fun o => match o with Some t => t ∈ ts | None => True end)).
    + unfold selectRandomTemplate. apply safe_if; intros _; [by apply safe_ret|].
      eapply safe_bind; [apply safe_roll|intros d _]. apply safe_ret. destruct (pick_template _ _ ts) eqn:E; [by eapply pick_template_elem|done].
    + intros [t|] Ht; [apply safe_ret; by eapply Forall_forall|].
      eapply safe_post; [by apply safe_deref|]. by intros ? [= <-].
Qed.

(** ** Inviting and matching *)
Hypothesis HT : table_ok nq T ident.

Lemma safe_queue_at nb k ty bracket : safe (V nb) (queue_at k ty bracket) (fun o => o = entry T k ty bracket).
Proof. apply safe_gets. intros m Hm. by rewrite (w_table _ _ _ _ _ Hm). Qed.

Lemma safe_relink nb q p gs : (q < nq)%nat -> (p < nb)%nat -> safe (V nb) (relink (Some q) p gs) any.
Proof.
  intros Hq Hp. induction gs as [|g gs IH]; cbn [relink]; [by apply safe_ret|].
  safe_seq; [by apply safe_removeQueue|]. safe_seq; [by apply safe_addBattleground|exact IH].
Qed.
Lemma safe_invite_realms t time l : safe (bg_ok T) (invite_realms t time l) any.
Proof.
  induction l as [|[r gs] l IH]; cbn [invite_realms]; [by apply safe_ret|].
  safe_seq; [by apply safe_modify|]. safe_step. safe_step. exact IH.
Qed.
Lemma safe_invite_to nb p t gs : (p < nb)%nat -> safe (V nb) (invite_to p t gs) any.
Proof.
  intros Hp. unfold invite_to. safe_step. apply safe_on_bg; [done|]. apply safe_wrap_err, safe_invite_realms.
Qed.
Lemma safe_InviteGroups nb gs p t : (p < nb)%nat -> safe (V nb) (InviteGroups gs p t) any.
Proof.
  intros Hp. safe_seq; [by apply safe_invite_to|]. safe_seq; [by apply safe_Save|].
  eapply safe_bind; [by apply safe_load_bg|intros b [q Hq]].
  eapply safe_bind; [apply safe_queue_at|intros o ->]. rewrite Hq.
  apply safe_relink; [by eapply tb_entry|done].
Qed.

Lemma safe_conns nb a c : safe (V nb) (modify (set_conns a c) : M unit) any.
Proof. apply safe_modify. intros m Hm. destruct Hm. by constructor. Qed.
Lemma safe_mapping nb a g : safe (V nb) (AddAddressMapping a g) any.
Proof. apply safe_modify. intros m Hm. destruct Hm. by constructor. Qed.
Lemma safe_conn nb a : safe (V nb) (GRPCConnByGameServerAddress a) any.
Proof.
  unfold GRPCConnByGameServerAddress. safe_step. safe_tac.
  apply safe_modify. intros m Hm. destruct Hm. by constructor.
Qed.

Lemma safe_Create nb t ty bracket realmID battlegroupID al ho q :
  entry T {| qk_BattlegroupID := battlegroupID; qk_RealmID := realmID |} ty bracket = Some q ->
  safe (V nb) (CreateBattleground t ty bracket realmID battlegroupID al ho) any.
Proof.
  intros Hq. unfold CreateBattleground. destruct (tb_entry _ _ _ HT _ _ _ _ Hq) as [Hlt _].
  assert ((if 0 <? battlegroupID then 0 else realmID) = realmID) as ->.
  { destruct (Z.ltb_spec 0 battlegroupID); [|done]. symmetry. by apply (tb_cross _ _ _ HT _ _ _ _ Hq). }
  safe_step. safe_step. safe_step. safe_seq; [apply safe_mapping|].
  safe_seq; [apply safe_wrap_err, safe_conn|]. safe_step.
  eapply safe_bind; [apply safe_next_instance|intros instance _].
  apply safe_alloc_bg; [by exists q|intros p Hp].
  safe_seq; [apply safe_invite_to; lia|]. safe_seq; [apply safe_invite_to; lia|].
  safe_seq; [apply safe_Save; lia|].
  eapply safe_bind; [apply safe_queue_at|intros o ->]. rewrite Hq.
  safe_seq; [apply safe_relink; [done|lia]|]. apply safe_relink; [done|lia].
Qed.

(** A queue that the table leads to under its own identity. *)
Definition tabled (qp : nat) : Prop :=
  entry T (i_key (ident qp)) (i_type (ident qp)) (i_bracket (ident qp)) = Some qp.
Lemma tabled_entry k ty bracket qp : entry T k ty bracket = Some qp -> tabled qp.
Proof. intros He. unfold tabled. by destruct (tb_entry _ _ _ HT _ _ _ _ He) as [_ ->]. Qed.
Lemma tabled_lt qp : tabled qp -> (qp < nq)%nat.
Proof. intros Hq. by apply (tb_entry _ _ _ HT _ _ _ _ Hq). Qed.

Lemma safe_on_q nb qp f : (qp < nq)%nat ->
  (forall q, queue_ok q -> queue_ok (f q) /\ identity_of (f q) = identity_of q) -> safe (V nb) (on_q qp f) any.
Proof.
  intros Hq Hf. eapply safe_bind; [by apply safe_load_q|intros q [Hok Hi]].
  destruct (Hf q Hok) as [Hok' Hi']. apply safe_store_q; [done|congruence].
Qed.
Lemma safe_leave_queue nb qp gs : (qp < nq)%nat -> safe (V nb) (leave_queue qp gs) any.
Proof.
  intros Hq. induction gs as [|g gs IH]; cbn [leave_queue]; [by apply safe_ret|].
  safe_seq; [by apply safe_on_q|exact IH].
Qed.
Lemma safe_fill_team nb qp p t : (qp < nq)%nat -> (p < nb)%nat -> safe (V nb) (fill_team qp p t) any.
Proof.
  intros Hq Hp. eapply safe_bind; [by apply safe_load_bg|intros b _]. apply safe_if; intros _; [|by apply safe_ret].
  eapply safe_bind; [by apply safe_load_q|intros q _]. apply safe_if; intros _; [|by apply safe_ret].
  eapply safe_bind; [by eapply safe_try_err, safe_InviteGroups|].
  intros [[]|] _; [by apply safe_leave_queue|by apply safe_ret].
Qed.
Lemma safe_fill_all qp bgs : (qp < nq)%nat -> forall nb, Forall (bg_ok T) bgs -> safe (V nb) (fill_all qp bgs) any.
Proof.
  intros Hq. induction bgs as [|b bgs IH]; intros nb Hbgs; cbn [fill_all]; [by apply safe_ret|].
  inversion Hbgs; subst. apply safe_alloc_bg; [done|intros p Hp].
  safe_seq; [apply safe_fill_team; [done|lia]|]. safe_seq; [apply safe_fill_team; [done|lia]|]. by apply IH.
Qed.

Lemma safe_indexed nb n f : safe (V nb) (gets (indexed n f) : M _) (Forall (bg_ok T)).
Proof.
  apply safe_gets. intros m Hm. apply Forall_forall. intros b [_ Hb]%list_elem_of_filter.
  apply list_elem_of_omap in Hb as ([s p] & Hp%elem_of_go_range & Hb).
  destruct (w_bgs _ _ _ _ _ Hm p) as (b' & Hb' & Hok); [by eapply w_index|]. simpl in Hb. congruence.
Qed.
Lemma safe_need nb ty bracket bgid realm : safe (V nb) (BattlegroundsThatNeedPlayers ty bracket bgid realm) (Forall (bg_ok T)).
Proof.
  eapply safe_bind; [apply safe_indexed|intros bgs Hbgs]. apply safe_ret. rewrite Forall_forall in *.
  intros b [_ Hb]%list_elem_of_filter. by apply Hbgs.
Qed.
Lemma safe_queue_template nb qp : (qp < nq)%nat -> safe (V nb) (getBattlegroundTemplate qp) template_ok.
Proof. intros Hq. eapply safe_bind; [by apply safe_load_q|intros q [Hok _]]. by apply safe_fallback. Qed.

Lemma safe_create_from nb qp t al ho : tabled qp -> safe (V nb) (create_from qp t al ho) any.
Proof.
  intros Hq. pose proof (tabled_lt qp Hq) as Hlt.
  eapply safe_bind; [by apply safe_load_q|intros q [Hok Hi]]. safe_seq.
  - apply safe_if; intros _; [|by apply safe_ret].
    eapply safe_bind; [by apply safe_fallback|intros t' Ht']. apply safe_on_q; [done|]. intros q' _. split; [|done].
    unfold queue_ok, template_ok in *; simpl. rewrite wrap_small; [done|]. word_lia.
  - unfold tabled in Hq. rewrite <- Hi in Hq. by apply (safe_Create _ _ _ _ _ _ _ _ qp).
Qed.
Lemma safe_process nb qp : tabled qp -> safe (V nb) (process qp) any.
Proof.
  intros Hq. pose proof (tabled_lt qp Hq) as Hlt.
  eapply safe_bind; [by apply safe_load_q|intros q _].
  eapply safe_bind; [apply safe_need|intros bgs Hbgs].
  safe_seq; [by apply safe_fill_all|].
  eapply safe_bind; [by apply safe_queue_template|intros t _].
  eapply safe_bind; [by apply safe_load_q|intros q' _].
  destruct (balancedGroups _ _ _) as [al ho]. apply safe_if; intros _; [by apply safe_ret|].
  eapply safe_bind; [by apply safe_queue_template|intros t' _].
  safe_seq; [by apply safe_wrap_err, safe_create_from|].
  safe_seq; by apply safe_leave_queue.
Qed.
Lemma safe_AddQueuedGroup nb qp g : tabled qp -> safe (V nb) (AddQueuedGroup qp g) any.
Proof.
  intros Hq. eapply safe_bind; [by apply safe_load_q, tabled_lt|intros q [Hok Hi]].
  safe_seq; [by apply safe_store_q|by apply safe_process].
Qed.
Lemma safe_rollback nb (m undo : M unit) : safe (V nb) m any -> safe (V nb) undo any -> safe (V nb) (rollback m undo) any.
Proof.
  intros Hm Hu s Hs. specialize (Hm s Hs). unfold rollback. destruct (m s) as [[[]|e|] s']; [done| |done].
  assert (Hf : safe (V nb) (undo ;; (fail (ErrMMWrap e) : M unit)) any) by (safe_seq; [done|apply safe_fail]).
  exact (Hf s' Hm).
Qed.

(** ** The requests *)
Lemma safe_check_free nb ps : safe (V nb) (check_free ps) any.
Proof.
  induction ps as [|p ps IH]; cbn [check_free]; [by apply safe_ret|].
  eapply safe_bind; [apply safe_links|intros ls _]. safe_step. exact IH.
Qed.
Lemma safe_AddGroupToQueue nb realmID leader members ty lvl t :
  safe (V nb) (AddGroupToQueue realmID leader members ty lvl t) any.
Proof.
  unfold AddGroupToQueue. cbv zeta. safe_seq; [apply safe_check_free|].
  apply (safe_bind _ _ _ any); [apply safe_gets_any|intros bgid _].
  apply (safe_bind _ _ _ any); [apply safe_gets_any|intros cross _].
  set (k := if _ && _ then _ else _).
  apply (safe_bind _ _ _ (fun m => queues m = T)); [by apply safe_gets; intros m Hm; apply (w_table _ _ _ _ _ Hm)|].
  intros m Hm.
  eapply safe_bind; [apply safe_not_nil|intros byType Hty].
  eapply safe_bind; [apply safe_not_nil|intros byBracket Hb].
  eapply safe_bind; [apply safe_not_nil|intros qp Hqp]. safe_step.
  assert (Hq : tabled qp)
    by (eapply (tabled_entry k ty); unfold entry; rewrite <- Hm, Hty; simpl; rewrite Hb; simpl; exact Hqp).
  pose proof (tabled_lt _ Hq) as Hlt.
  eapply safe_bind; [by apply safe_addQueue|intros slots _].
  safe_seq; [apply safe_rollback; [by apply safe_AddQueuedGroup|by apply safe_removeQueue]|]. safe_tac.
Qed.

Lemma safe_ignore nb (m : M unit) : safe (V nb) m any -> safe (V nb) (ignore_not_found m) any.
Proof. intros Hm s Hs. specialize (Hm s Hs). unfold ignore_not_found. by destruct (m s) as [[?|[]|] ?]. Qed.
Lemma safe_Left nb player realmID instance cross : safe (V nb) (PlayerLeftBattleground player realmID instance cross) any.
Proof.
  apply safe_ignore. safe_seq; [|apply safe_unlink]. apply safe_Update. intros nb' b _ Hb. by apply safe_ret.
Qed.
Lemma safe_Joined nb player realmID instance cross : safe (V nb) (PlayerJoinedBattleground player realmID instance cross) any.
Proof. apply safe_Update. intros nb' b _ Hb. unfold join. safe_step. by apply safe_ret. Qed.
Lemma safe_unlink_all nb k ps : safe (V nb) (unlink_all k ps) any.
Proof.
  induction ps as [|p ps IH]; cbn [unlink_all]; [by apply safe_ret|]. safe_seq; [apply safe_unlink|exact IH].
Qed.
Lemma safe_StatusChanged nb status realmID instance cross :
  safe (V nb) (BattlegroundStatusChanged status realmID instance cross) any.
Proof.
  apply safe_ignore, safe_Update. intros nb' b _ Hb. safe_seq; [|by apply safe_ret].
  apply safe_if; intros _; [apply safe_unlink_all|by apply safe_ret].
Qed.
Lemma safe_unlink_bgs nb bgs : safe (V nb) (unlink_bgs bgs) any.
Proof.
  induction bgs as [|b bgs IH]; cbn [unlink_bgs]; [by apply safe_ret|]. safe_seq; [apply safe_unlink_all|exact IH].
Qed.
Lemma safe_GameServerRemoved nb gs : safe (V nb) (OnGameServerRemoved gs) any.
Proof.
  apply (safe_bind _ _ _ any); [|intros bgs _; apply safe_unlink_bgs]. unfold DeleteAllWithGameServerAddress.
  eapply (safe_bind _ _ _ any); [apply safe_gets_any|intros m0 _].
  eapply (safe_bind _ _ _ any); [|intros ? _; by apply safe_ret]. apply safe_set_index. intros m s p Hm.
  assert (Hl : forall l (i : gmap string nat), (forall s p, i !! s = Some p -> (p < next_bg m)%nat) ->
    forall s p, foldl (fun i (e : string * nat) => delete e.1 i) i l !! s = Some p -> (p < next_bg m)%nat).
  { clear. induction l as [|e l IH]; intros i Hi s p Hs; simpl in Hs; [by eapply Hi|].
    eapply IH; [|exact Hs]. intros s' p' [_ Hp]%lookup_delete_Some. by eapply Hi. }
  apply Hl. intros s' p' Hs'. by eapply w_index.
Qed.

Lemma safe_leave_by_link nb p qp : (qp < nq)%nat -> safe (V nb) (leave_by_link p qp) any.
Proof.
  intros Hq. eapply safe_bind; [by apply safe_load_q|intros q _]. destruct (QueuedGroupByPlayer q p); [|by apply safe_ret].
  safe_seq; [by apply safe_removeQueue|]. apply safe_on_q; [done|]. intros q' Hok. unfold RemoveQueuedGroup.
  destruct (playersGroupLeaderByPlayer q' !! p); simpl; split; [exact Hok|done|exact Hok|done].
Qed.
Lemma safe_remove_link nb player realmID ty l : link_ok nq l -> safe (V nb) (remove_link player realmID ty l) any.
Proof.
  intros Hl. unfold remove_link, link_ok in *. destruct (l_Battleground l) as [k|].
  - apply safe_get_bg; [by apply safe_ret|]. intros p nb' Hp Hle.
    eapply safe_bind; [by apply safe_load_bg|intros b _]. apply safe_if; intros _; [by apply safe_ret|apply safe_Left].
  - destruct (l_Queue l) as [qp|]; [|by destruct Hl].
    eapply safe_bind; [by apply safe_deref|intros ? [= <-]].
    eapply safe_bind; [by apply safe_load_q|intros q _].
    apply safe_if; intros _; [by apply safe_leave_by_link|by apply safe_ret].
Qed.
Lemma safe_remove_links nb player realmID ty fuel : forall i view, links_ok view ->
  safe (V nb) (remove_links fuel player realmID ty i view) any.
Proof.
  induction fuel as [|fuel IH]; intros i view Hview; cbn [remove_links]; [by apply safe_ret|].
  destruct (view !! i) as [l|] eqn:E; [|by apply safe_ret].
  safe_seq; [apply safe_remove_link, Hview; by eapply list_elem_of_lookup_2|].
  eapply safe_bind; [apply safe_links|intros ls Hls]. apply IH.
  intros x [Hx|Hx]%elem_of_app; [by apply Hls|apply Hview].
  eapply elem_of_submseteq; [exact Hx|]. apply sublist_submseteq, sublist_drop.
Qed.
Lemma safe_RemovePlayer nb player realmID ty : safe (V nb) (RemovePlayerFromQueue player realmID ty) any.
Proof. eapply safe_bind; [apply safe_links|intros ls Hls]. by apply safe_remove_links. Qed.
Lemma safe_Offline nb player realmID : safe (V nb) (PlayerBecomeOffline player realmID) any.
Proof.
  eapply safe_bind; [apply safe_links|intros ls Hls]. induction ls as [|l ls IH]; cbn [offline_links]; [by apply safe_ret|].
  safe_seq; [|apply IH; intros; apply Hls; by right].
  assert (Hl : link_ok nq l) by (apply Hls; left). unfold link_ok in Hl.
  destruct (l_Battleground l); [apply safe_Left|]. destruct (l_Queue l) as [qp|]; [|by destruct Hl].
  eapply safe_bind; [by apply safe_deref|intros ? [= <-]]. by apply safe_leave_by_link.
Qed.
Lemma safe_disconnected nb cs realmID : safe (V nb) (on_disconnected cs realmID) any.
Proof.
  induction cs as [|c cs IH]; cbn [on_disconnected]; [by apply safe_ret|].
  safe_seq; [apply safe_log_err, safe_Offline|exact IH].
Qed.

Lemma safe_expire nb b i : safe (V nb) (expire b i) any.
Proof.
  unfold expire. cbv zeta. eapply safe_bind.
  { eapply safe_try_err, safe_Update. intros nb' b' _ Hb. by apply safe_ret. }
  intros [[]|] _; [|by apply safe_ret]. eapply safe_bind; [eapply safe_try_err, safe_RemovePlayer|].
  intros [[]|] _; [apply safe_log_err, safe_publish|by apply safe_ret].
Qed.
Lemma safe_expire_round nb : safe (V nb) ProcessExpiredBattlegroundInvites any.
Proof.
  eapply safe_bind; [apply safe_gets_any|intros bgs _]. safe_step.
  induction bgs as [|b bgs IH]; cbn [expire_all]; [by apply safe_ret|]. safe_seq; [|exact IH].
  induction (concat _) as [|i l IHl]; cbn [expire_invites]; [by apply safe_ret|]. safe_seq; [|exact IHl].
  apply safe_if; intros _; [apply safe_expire|by apply safe_ret].
Qed.
Lemma safe_queue_slots ls : links_ok ls -> forall nb, safe (V nb) (queue_slots ls) any.
Proof.
  induction ls as [|l ls IH]; intros Hls nb; cbn [queue_slots]; [by apply safe_ret|].
  assert (Hl : link_ok nq l) by (apply Hls; left). assert (Hls' : links_ok ls) by (intros; apply Hls; by right).
  specialize (IH Hls'). eapply (safe_bind _ _ _ any).
  - unfold link_ok in Hl. destruct (l_Battleground l) as [k|].
    + apply safe_get_bg; [by apply safe_ret|]. intros p nb' Hp Hle.
      eapply safe_bind; [by apply safe_load_bg|intros b _].
      eapply safe_bind; [apply safe_gets_any|intros g _]. by apply safe_ret.
    + destruct (l_Queue l) as [qp|]; [|by destruct Hl]. eapply safe_bind; [by apply safe_deref|intros ? [= <-]].
      eapply safe_bind; [by apply safe_load_q|intros q _]. by apply safe_ret.
  - intros slot _. eapply safe_bind; [apply IH|intros rest _]. by apply safe_ret.
Qed.
Lemma safe_QueueData nb player realmID : safe (V nb) (BattlegroundQueueDataForPlayer player realmID) any.
Proof. eapply safe_bind; [apply safe_links|intros ls Hls]. by apply safe_queue_slots. Qed.
End Safe.

(** ** Start-up *)

(** What start-up establishes step by step. *)
Record started (m : mm) : Prop := {
  sd_templates : templates_ok (bgTemplates m);
  sd_heap : forall p, (p < next_q m)%nat -> exists q, q_heap m !! p = Some q /\ queue_ok q;
  sd_links : links m = ∅;
  sd_index : bg_index m = ∅;
  sd_bgs : next_bg m = 0%nat
}.
Definition grown (m m' : mm) : Prop :=
  (next_q m <= next_q m')%nat /\ queues m' = queues m /\
  forall p q, (p < next_q m)%nat -> q_heap m !! p = Some q -> q_heap m' !! p = Some q.
Definition has_identity (m : mm) (p : nat) (i : identity) : Prop :=
  (p < next_q m)%nat /\ exists q, q_heap m !! p = Some q /\ identity_of q = i.

Lemma grown_refl m : grown m m.
Proof. by split_and!. Qed.
Lemma grown_trans m1 m2 m3 : grown m1 m2 -> grown m2 m3 -> grown m1 m3.
Proof.
  intros (Hn1 & Hq1 & Hh1) (Hn2 & Hq2 & Hh2). split_and!; [lia|congruence|].
  intros p q Hp Hq. apply Hh2; [lia|by apply Hh1].
Qed.
Lemma has_identity_grown m m' p i : grown m m' -> has_identity m p i -> has_identity m' p i.
Proof. intros (Hn & _ & Hh) (Hp & q & Hq & Hi). split; [lia|]. exists q. split; [by apply Hh|done]. Qed.

Lemma alloc_q_ok q (s : sys mm mm_event) p s' :
  alloc_q q s = (Ok p, s') -> started (st s) -> queue_ok q ->
  started (st s') /\ grown (st s) (st s') /\ has_identity (st s') p (identity_of q).
Proof.
  intros Hrun Hs Hq. unfold alloc_q in Hrun. inv_ok. destruct Hs. split_and!.
  - constructor; simpl; try done. intros p Hp. destruct (decide (p = next_q (st s))) as [->|Hne].
    + exists q. by rewrite lookup_insert_eq.
    + rewrite lookup_insert_ne by done. apply sd_heap0. lia.
  - split_and!; simpl; [lia|done|]. intros p q' Hp Hq'. rewrite lookup_insert_ne by lia. done.
  - split; simpl; [lia|]. exists q. by rewrite lookup_insert_eq.
Qed.

Section Start.
Context `{MapRange} `{SortSlice}.
Implicit Types s : sys mm mm_event.

Lemma bracket_queues_ok ty t realmID battlegroupID brackets : forall acc s acc' s',
  bracket_queues ty t realmID battlegroupID brackets acc s = (Ok acc', s') ->
  started (st s) -> template_ok t -> t_TypeID t = ty \/ ty = QueueTypeIDRandomBattleground ->
  started (st s') /\ grown (st s) (st s') /\
  forall b p, acc' !! b = Some p -> acc !! b = Some p \/
    has_identity (st s') p {| i_key := {| qk_BattlegroupID := battlegroupID; qk_RealmID := realmID |};
                              i_type := ty; i_bracket := b |}.
Proof.
  induction brackets as [|bracket brackets IH]; intros acc s acc' s' Hrun Hs Ht Hty; cbn [bracket_queues] in Hrun; inv_ok.
  { split_and!; [done|apply grown_refl|by left]. }
  match goal with Ha : alloc_q ?q s = (Ok ?p, ?s1), Hr : bracket_queues _ _ _ _ _ _ ?s1 = _ |- _ =>
    destruct (alloc_q_ok _ _ _ _ Ha Hs) as (Hs1 & Hg1 & Hi1); [|apply IH in Hr as (Hs2 & Hg2 & Hacc); try done] end.
  { unfold queue_ok, template_ok in *. destruct (ty =? _); simpl; rewrite wrap_small by word_lia; done. }
  split_and!; [done|by eapply grown_trans|]. intros b p Hp. destruct (Hacc b p Hp) as [Hins|Hid]; [|by right].
  apply lookup_insert_Some in Hins as [[<- <-]|[_ Hold]]; [right|by left].
  eapply has_identity_grown; [exact Hg2|].
  match type of Hi1 with has_identity _ _ ?i => match goal with |- has_identity _ _ ?j => replace j with i; [done|] end end.
  destruct (Z.eqb_spec ty QueueTypeIDRandomBattleground) as [->|Hne]; [done|].
  destruct Hty as [Hty|]; [|done]. unfold template_ok in Ht. unfold identity_of, key_of_queue; simpl.
  rewrite wrap_small by word_lia. by rewrite Hty.
Qed.

Lemma template_at_ok i s o s' : template_at i s = (Ok o, s') -> bgTemplates (st s) !! Z.to_nat i = Some o /\ s' = s.
Proof. intros Hrun. unfold template_at in Hrun. by inv_ok. Qed.
Lemma templates_of_ok ids : forall s ts s', templates_of ids s = (Ok ts, s') -> templates_ok (bgTemplates (st s)) ->
  Forall template_ok ts /\ s' = s.
Proof.
  induction ids as [|i ids IH]; intros s ts s' Hrun Hok; cbn [templates_of] in Hrun; inv_ok; [by split|].
  unfold template_ptr in *. inv_ok. match goal with Ht : template_at _ _ = _ |- _ => apply template_at_ok in Ht as [Ht ->] end.
  subst. match goal with Hr : templates_of _ _ = _ |- _ => apply IH in Hr as [Hts ->]; [|done] end.
  split; [|done]. constructor; [by eapply ts_ok|done].
Qed.
Lemma roll_started n s d s' : roll n s = (Ok d, s') -> started (st s) -> started (st s') /\ grown (st s) (st s').
Proof.
  intros Hrun Hs. unfold roll in Hrun. inv_ok. destruct (dice _); inv_ok; [by split|].
  split; [by destruct Hs; constructor|by split_and!].
Qed.
Lemma template_started ty s t s' :
  TemplateForQueueTypeID ty s = (Ok t, s') -> started (st s) -> ty ∈ queue_types ->
  started (st s') /\ grown (st s) (st s') /\ template_ok t /\ (t_TypeID t = ty \/ ty = QueueTypeIDRandomBattleground).
Proof.
  intros Hrun Hs Hty. pose proof (sd_templates _ Hs) as Hts. unfold TemplateForQueueTypeID in Hrun. inv_ok.
  match goal with Ht : template_at _ _ = _ |- _ => apply template_at_ok in Ht as [Hws ->] end.
  destruct (Z.eqb_spec ty QueueTypeIDRandomBattleground) as [->|Hne]; cbn [negb] in Hrun1; inv_ok.
  - match goal with Ht : templates_of _ _ = _ |- _ => apply templates_of_ok in Ht as [Hall ->]; [|done] end.
    assert (Hsel : started (st s1) /\ grown (st s) (st s1) /\ match a1 with Some t => template_ok t | None => True end).
    { unfold selectRandomTemplate in *. destruct (_ =? 0) in *; inv_ok; [split_and!; [done|apply grown_refl|done]|].
      match goal with Hr : roll _ _ = _ |- _ => apply roll_started in Hr as [Hs1 Hg1]; [|done] end.
      split_and!; [done|done|]. destruct (pick_template _ _ _) eqn:E; [|done]. apply pick_template_elem in E.
      by eapply Forall_forall. }
    destruct Hsel as (Hs1 & Hg1 & Ht1). destruct a1 as [t'|]; inv_ok; [by split_and!; [..|right]|].
    subst. split_and!; [done|done|by eapply ts_ok|by right].
  - match goal with Ht : template_at _ _ = _ |- _ => apply template_at_ok in Ht as [Ht ->] end.
    assert (Hr : ty ∈ random_types).
    { unfold queue_types, random_types in *. rewrite !elem_of_cons in *. naive_solver. }
    destruct (ts_random _ Hts ty Hr) as [t' Ht']. rewrite Ht' in Hrun. injection Hrun as <-. inv_ok.
    split_and!; [done|apply grown_refl|by eapply ts_ok|left]. rewrite (ts_types _ Hts _ _ Ht'). rewrite Z2Nat.id; [done|].
    unfold random_types in Hr. rewrite !elem_of_cons, elem_of_nil in Hr.
    unfold QueueTypeIDAlteracValley, QueueTypeIDArathiBasin, QueueTypeIDEyeOfTheStorm, QueueTypeIDWarsongGulch,
      QueueTypeIDIsleOfConquest, QueueTypeIDStrandOfTheAncients in Hr. lia.
Qed.

Lemma type_queues_ok realmID battlegroupID types : forall acc s acc' s',
  (forall ty, ty ∈ types -> ty ∈ queue_types) ->
  type_queues realmID battlegroupID types acc s = (Ok acc', s') -> started (st s) ->
  started (st s') /\ grown (st s) (st s') /\
  forall ty byBracket, acc' !! ty = Some byBracket -> acc !! ty = Some byBracket \/
    forall b p, byBracket !! b = Some p ->
      has_identity (st s') p {| i_key := {| qk_BattlegroupID := battlegroupID; qk_RealmID := realmID |};
                                i_type := ty; i_bracket := b |}.
Proof.
  induction types as [|ty types IH]; intros acc s acc' s' Htys Hrun Hs; cbn [type_queues] in Hrun; inv_ok.
  { split_and!; [done|apply grown_refl|by left]. }
  match goal with Ht : TemplateForQueueTypeID _ _ = _ |- _ =>
    apply template_started in Ht as (Hs1 & Hg1 & Hok & Hid); [|done|apply Htys; left] end.
  match goal with Hb : bracket_queues _ _ _ _ _ _ _ = _ |- _ =>
    apply bracket_queues_ok in Hb as (Hs2 & Hg2 & Hacc); [|done..] end.
  match goal with Hr : type_queues _ _ _ _ _ = _ |- _ =>
    apply IH in Hr as (Hs3 & Hg3 & Hall); [|intros; apply Htys; by right|done] end.
  split_and!; [done|by do 2 (eapply grown_trans; [done|])|].
  intros ty' byBracket Hty'. destruct (Hall ty' byBracket Hty') as [Hins|Hid']; [|by right].
  apply lookup_insert_Some in Hins as [[<- <-]|[_ Hold]]; [right|by left].
  intros b p Hp. destruct (Hacc b p Hp) as [He|Hi]; [by rewrite lookup_empty in He|].
  by eapply has_identity_grown.
Qed.

Definition table_started (m : mm) : Prop :=
  forall k ty b p, entry (queues m) k ty b = Some p ->
    has_identity m p {| i_key := k; i_type := ty; i_bracket := b |} /\ (0 < qk_BattlegroupID k -> qk_RealmID k = 0).

Lemma generate_queues_ok keys : forall s u s',
  (forall k, k ∈ keys -> 0 < qk_BattlegroupID k -> qk_RealmID k = 0) ->
  generate_queues keys s = (Ok u, s') -> started (st s) -> table_started (st s) ->
  started (st s') /\ table_started (st s').
Proof.
  induction keys as [|k keys IH]; intros s u s' Hk Hrun Hs Htab; cbn [generate_queues] in Hrun; inv_ok; [done|].
  match goal with Ht : type_queues _ _ _ _ _ = _ |- _ =>
    apply type_queues_ok in Ht as (Hs1 & Hg1 & Hall); [|done..] end.
  eapply IH; [intros; apply Hk; [by right|done]|done| |]; simpl.
  - by destruct Hs1; constructor.
  - intros k' ty b p He. unfold entry in He. simpl in He.
    destruct (decide (k = k')) as [<-|Hne].
    + rewrite lookup_insert_eq in He. simpl in He. split; [|apply Hk; left].
      destruct (a !! ty) as [byBracket|] eqn:E; [|done]. simpl in He.
      destruct (Hall ty byBracket E) as [Hnil|Hid]; [by rewrite lookup_empty in Hnil|].
      destruct k; by apply Hid.
    + rewrite lookup_insert_ne in He by done.
      pose proof Hg1 as (_ & Hq & _). rewrite Hq in He. destruct (Htab k' ty b p He) as [Hid Hr].
      split; [|done]. exact (has_identity_grown _ _ _ _ Hg1 Hid).
Qed.

(** The rows of battleground_template fill the array. *)
Definition array_ok (l : list (option BattlegroundTemplate)) : Prop :=
  length l = 33%nat /\ forall i t, l !! i = Some (Some t) -> t_TypeID t = Z.of_nat i.
Lemma store_templates_ok ts : forall l s l' s',
  store_templates ts l s = (Ok l', s') -> Forall (fun t => 0 <= t_TypeID t) ts -> array_ok l ->
  s' = s /\ array_ok l' /\
  forall i, (exists t, l !! i = Some (Some t)) \/ (exists t, t ∈ ts /\ t_TypeID t = Z.of_nat i) ->
    exists t, l' !! i = Some (Some t).
Proof.
  induction ts as [|t ts IH]; intros l s l' s' Hrun Hts [Hlen Hl]; cbn [store_templates] in Hrun; inv_ok.
  { split_and!; [done|done|]. intros i [Hi|(t & Ht & _)]; [done|]. by apply elem_of_nil in Ht. }
  apply Forall_cons in Hts as [Ht Hts].
  match goal with Hs : l !! _ = Some _, Hr : store_templates _ _ _ = _ |- _ =>
    pose proof (lookup_lt_Some _ _ _ Hs) as Hlt; apply IH in Hr as (-> & Hok & Hin); [|done|] end.
  - split_and!; [done|done|]. intros i Hi. apply Hin.
    destruct (decide (i = Z.to_nat (t_TypeID t))) as [->|Hne].
    { left. exists t. by rewrite list_lookup_insert_eq. }
    destruct Hi as [[t' Ht']|(t' & Ht' & Hi)]; [left; exists t'; by rewrite list_lookup_insert_ne|].
    right. exists t'. split; [|done]. apply elem_of_cons in Ht' as [->|]; [lia|done].
  - split; [by rewrite length_insert|]. intros i t' Hi. destruct (decide (i = Z.to_nat (t_TypeID t))) as [->|Hne].
    + rewrite list_lookup_insert_eq in Hi by done. injection Hi as <-. by rewrite Z2Nat.id.
    + rewrite list_lookup_insert_ne in Hi by done. by apply Hl.
Qed.

(** A server that has not started: no queue, link or battleground. *)
Definition fresh (m : mm) : Prop :=
  queues m = ∅ /\ next_q m = 0%nat /\ links m = ∅ /\ bg_index m = ∅ /\ next_bg m = 0%nat.
(** The table battleground_template has a row for each battleground of the random queue. *)
Definition rows_ok (rows : list BattlegroundTemplate) : Prop :=
  Forall (fun t => 0 <= t_TypeID t) rows /\ Forall (fun ty => ty ∈ t_TypeID <$> rows) random_types.

Lemma started_running rows realmIDs s u s' :
  fresh (st s) -> rows_ok rows -> NewBattleGroundService rows realmIDs s = (Ok u, s') ->
  exists nq T ident, W nq T ident 0 (st s') /\ table_ok nq T ident.
Proof.
  intros (Hq & Hnq & Hl & Hi & Hnb) [Hrows Hrand] Hrun. unfold NewBattleGroundService, AllBattleGroupsIDs in Hrun. inv_ok.
  match goal with Ht : store_templates _ _ _ = _ |- _ => apply store_templates_ok in Ht as (-> & [Hlen Hty] & Hin) end.
  2:{ rewrite Forall_fmap. eapply Forall_impl; [exact Hrows|done]. }
  2:{ split; [done|]. intros i t Ht. rewrite lookup_replicate in Ht. destruct Ht as [Ht _]. done. }
  match goal with Hg : generate_queues _ _ = _ |- _ => apply generate_queues_ok in Hg as [Hst Htab] end.
  - exists (next_q (st s')), (queues (st s')), (fun p => default {| i_key := {| qk_BattlegroupID := 0; qk_RealmID := 0 |};
      i_type := 0; i_bracket := 0 |} (identity_of <$> q_heap (st s') !! p)).
    destruct Hst as [Ht' Hh' Hl' Hi' Hn']. split; constructor; try done.
    + lia.
    + intros p Hp. destruct (Hh' p Hp) as (q & Hp' & Hok). exists q. by rewrite Hp'.
    + intros p ls l Hls. by rewrite Hl', lookup_empty in Hls.
    + intros t p Hp. by rewrite Hi', lookup_empty in Hp.
    + intros p Hp. lia.
    + intros k ty b p He. destruct (Htab k ty b p He) as [(Hp & q & Hp' & Hid) _]. split; [done|]. by rewrite Hp'.
    + intros k ty b p He. by destruct (Htab k ty b p He).
  - intros k [Hk|Hk]%elem_of_app Hpos; apply list_elem_of_fmap in Hk as (? & -> & _); simpl in *; [lia|done].
  - constructor; simpl; try done.
    + constructor; [done..|]. intros ty Hin'. rewrite Forall_forall in Hrand.
      pose proof (Hrand ty Hin') as (t & -> & Ht)%list_elem_of_fmap.
      apply Hin. right. exists (with_map t). split; [by apply list_elem_of_fmap_2|].
      simpl. rewrite Forall_forall in Hrows. specialize (Hrows t Ht). lia.
    + intros p Hp. rewrite Hnq in Hp. lia.
  - intros k ty b p He. unfold entry in He. simpl in He. by rewrite Hq, lookup_empty in He.
Qed.

(** ** A running server *)

(** What the server handles: the requests of the gateways and game servers, the
    events it listens to and a round of its ticker. *)
Inductive mm_request :=
| RqEnqueue (realmID : u32) (leaderGUID : u64) (partyMembers : list u64) (bgTypeID leadersLvl teamID : u32)
| RqRemoveFromQueue (playerGUID : u64) (realmID battlegroundType : u32)
| RqQueueData (playerGUID : u64) (realmID : u32)
| RqPlayerLeft (playerGUID : u64) (realmID instanceID : u32) (isCrossRealm : bool)
| RqPlayerJoined (playerGUID : u64) (realmID instanceID : u32) (isCrossRealm : bool)
| RqStatusChanged (status realmID instanceID : u32) (isCrossRealm : bool)
| EvLoggedOut (charGUID : u64) (realmID : u32)
| EvDisconnected (charactersGUID : list u64) (realmID : u32)
| EvServerRemoved (gs : EventGameServer)
| TickExpired.

Definition handle (r : mm_request) : M unit :=
  match r with
  | RqEnqueue realmID leader members ty lvl t => EnqueueToBattleground realmID leader members ty lvl t
  | RqRemoveFromQueue player realmID ty => RemovePlayerFromQueue_rpc player realmID ty
  | RqQueueData player realmID => BattlegroundQueueDataForPlayer player realmID ;; mret tt
  | RqPlayerLeft player realmID instance cross => PlayerLeftBattleground player realmID instance cross
  | RqPlayerJoined player realmID instance cross => PlayerJoinedBattleground player realmID instance cross
  | RqStatusChanged status realmID instance cross => BattlegroundStatusChanged_rpc status realmID instance cross
  | EvLoggedOut c realmID => on_logged_out c realmID
  | EvDisconnected cs realmID => on_disconnected cs realmID
  | EvServerRemoved gs => OnGameServerRemoved gs
  | TickExpired => ProcessExpiredBattlegroundInvites
  end.

(** Between requests the registry's view, the next answers, the clock and the
    fate of external calls change. *)
Definition outside (avail : u32 -> u32 -> bool -> list pb_Server) (ids : list u32) (ds : list Z) (time : Z) (m : mm) : mm :=
  {| bgTemplates := bgTemplates m; queues := queues m; q_heap := q_heap m; next_q := next_q m; links := links m;
     bg_index := bg_index m; bg_heap := bg_heap m; next_bg := next_bg m;
     battleGroupIDByRealmID := battleGroupIDByRealmID m; activeCrossRealmNodes := activeCrossRealmNodes m;
     addressesMapping := addressesMapping m; addressWithConn := addressWithConn m; available := avail;
     instances := ids; dice := ds; now := time |}.
Inductive mm_step : relation (sys mm mm_event) :=
| step_request r s : mm_step s (handle r s).2
| step_outside avail ids ds time fs s : mm_step s (Sys (outside avail ids ds time (st s)) fs (events s)).

Lemma safe_handle nq T ident r : table_ok nq T ident -> safe (W nq T ident 0) (handle r) any.
Proof.
  intros HT. destruct r; simpl.
  - by apply safe_AddGroupToQueue.
  - apply safe_RemovePlayer.
  - safe_seq; [by apply safe_QueueData|]. by apply safe_ret.
  - apply safe_Left.
  - apply safe_Joined.
  - apply safe_StatusChanged.
  - apply safe_log_err, safe_Offline.
  - apply safe_disconnected.
  - apply safe_GameServerRemoved.
  - apply safe_expire_round.
Qed.
Lemma W_outside nq T ident nb avail ids ds time m : W nq T ident nb m -> W nq T ident nb (outside avail ids ds time m).
Proof. intros Hm. by destruct Hm. Qed.

End Start.

(** Two players meet in a battleground; one joins, the other's invitation expires. *)
#[local] Existing Instances map_range_canonical sort_slice_insertion.
Definition run (r : mm_request) (s : sys mm mm_event) : sys mm mm_event := (handle r s).2.
Definition later (time : Z) (s : sys mm mm_event) : sys mm mm_event :=
  Sys (outside (available (st s)) (instances (st s)) (dice (st s)) time (st s)) (faults s) (events s).
Definition busy : sys mm mm_event :=
  run TickExpired (later 70000 (run (RqPlayerJoined 100 1 7 false)
    (run (RqEnqueue 1 200 [] 2 80 2) (run (RqEnqueue 1 100 [] 2 80 1) mm_started)))).
