(* ===== verification/MatchmakingFacts.v ===== *)
(** * MatchmakingFacts: what the requests of the matchmaking server do *)
From stdpp Require Import pretty.
From S2P Require Import Prelude Safety GoRuntime GoStrings ObjectGuid Registry Gateways Battleground BattlegroundQueue MatchmakingState BattlegroundRepo Matchmaking MatchmakingSafety.

(** ** Cutting a player out of the teams *)
Section Cut.
Context {A : Type} (key : A -> PlayerUnwrapped) (u : PlayerUnwrapped).
Abbreviation at_u := (fun x => bool_decide (key x = u)).
Abbreviation others := (filter (fun x => key x <> u)).

Lemma others_id (l : list A) : u ∉ key <$> l -> others l = l.
Proof.
  intros Hu. induction l as [|x l IH]; [done|]. rewrite fmap_cons, not_elem_of_cons in Hu. destruct Hu as [Hx Hl].
  rewrite filter_cons_True by congruence. by rewrite IH.
Qed.
Lemma cut_first_others (l : list A) : NoDup (key <$> l) ->
  match cut_first at_u l with
  | Some l' => l' = others l /\ u ∈ key <$> l
  | None => u ∉ key <$> l
  end.
Proof.
  induction l as [|x l IH]; intros Hl; [by apply not_elem_of_nil|].
  rewrite fmap_cons in Hl |- *. apply NoDup_cons in Hl as [Hx Hl]. cbn [cut_first]. case_bool_decide as E.
  - rewrite filter_cons_False by (intros Hn; by apply Hn). split; [|rewrite <- E; left].
    rewrite others_id; [done|]. by rewrite <- E.
  - specialize (IH Hl). destruct (cut_first at_u l) as [l'|]; simpl.
    + destruct IH as [-> Hu]. rewrite filter_cons_True by done. split; [done|by right].
    + rewrite not_elem_of_cons. split; [congruence|done].
Qed.
(** A player listed once disappears; everybody else stays where they are. *)
Lemma cut_team_others (teams : list (list A)) : NoDup (key <$> concat teams) -> cut_team at_u teams = others <$> teams.
Proof.
  induction teams as [|t teams IH]; intros Hn; [done|]. simpl in Hn. rewrite fmap_app, NoDup_app in Hn.
  destruct Hn as (Ht & Hdis & Hts). cbn [cut_team]. rewrite fmap_cons. pose proof (cut_first_others t Ht) as Hcut.
  destruct (cut_first at_u t) as [t'|].
  - destruct Hcut as [-> Hu]. f_equal. specialize (Hdis u Hu). clear IH Hts Ht Hu t.
    induction teams as [|t teams IH]; [done|]. simpl in Hdis. rewrite fmap_app, not_elem_of_app in Hdis.
    rewrite fmap_cons, others_id by apply Hdis. by rewrite <- IH by apply Hdis.
  - rewrite others_id by done. by rewrite IH.
Qed.
End Cut.

Section Facts.
Context `{MapRange} `{SortSlice}.
Implicit Types (s : sys mm mm_event) (b : Battleground).

Definition once (b : Battleground) : Prop :=
  NoDup (concat (ActivePlayersPerTeam b)) /\ NoDup (GUID <$> concat (InvitedPlayersPerTeam b)).
Lemma RemovePlayer_others b player realmID : once b ->
  RemovePlayer b player realmID =
  bg_set_players b (filter (fun v => v <> unwrap_player realmID player) <$> ActivePlayersPerTeam b)
                   (filter (fun i => GUID i <> unwrap_player realmID player) <$> InvitedPlayersPerTeam b).
Proof.
  intros [Ha Hi]. unfold RemovePlayer, RemovePlayerFromInvite, is_player, is_invite. simpl.
  rewrite (cut_team_others id) by by rewrite list_fmap_id. rewrite (cut_team_others GUID) by done. by destruct b.
Qed.

(** ** Running an update *)
Definition bg_at (s : sys mm mm_event) (i r : u32) (p : nat) (b : Battleground) : Prop :=
  bg_index (st s) !! indexKeyForInstanceAndRealm i r = Some p /\ bg_heap (st s) !! p = Some b.
Lemma run_Update i r (u : Battleground -> M Battleground) s s1 p b b' :
  bg_at s i r p b -> u b s = (Ok b', s1) ->
  UpdateBattleground i r u s =
  (Ok tt, Sys (set_bgs (if bg_Status b' =? StatusEnded then delete (index_of_bg b') (bg_index (st s1)) else bg_index (st s1))
                 (<[p := b']> (bg_heap (st s1))) (next_bg (st s1)) (st s1)) (faults s1) (events s1)).
Proof.
  intros [Hi Hb] Hu. unfold UpdateBattleground, GetBattlegroundByInstanceID, load_bg, store_bg, mbind, go_bind, gets, id, modify.
  rewrite Hi; simpl. rewrite Hb; simpl. rewrite Hu. by destruct (bg_Status b' =? StatusEnded).
Qed.
Lemma run_Update_missing i r (u : Battleground -> M Battleground) s :
  bg_index (st s) !! indexKeyForInstanceAndRealm i r = None -> UpdateBattleground i r u s = (Fail ErrBGNotFound, s).
Proof. intros Hi. unfold UpdateBattleground, GetBattlegroundByInstanceID, mbind, go_bind, gets. by rewrite Hi. Qed.

(** An invited player who joins is moved: the invitation goes, the player is
    active in the inviting team and in no other, everybody else keeps their
    place and all queue links are untouched; whoever is not invited is
    refused and nothing changes. *)
Theorem join_is_exact s i cross player realmID p b :
  bg_at s i (realm_of cross realmID) p b -> once b -> bg_Status b <> StatusEnded ->
  match TeamForInvitedPlayer b player realmID with
  | None => PlayerJoinedBattleground player realmID i cross s = (Fail ErrNotInvited, s)
  | Some t =>
    PlayerJoinedBattleground player realmID i cross s =
      (Ok tt, Sys (set_bgs (bg_index (st s))
        (<[p := bg_set_players b
           (alter (fun l => l ++ [unwrap_player realmID player]) (Z.to_nat t)
              (filter (fun v => v <> unwrap_player realmID player) <$> ActivePlayersPerTeam b))
           (filter (fun i => GUID i <> unwrap_player realmID player) <$> InvitedPlayersPerTeam b)]> (bg_heap (st s)))
        (next_bg (st s)) (st s)) (faults s) (events s))
  end.
Proof.
  intros Hat Hb Hst. unfold PlayerJoinedBattleground. destruct (TeamForInvitedPlayer _ _ _) as [t|] eqn:Et.
  - erewrite run_Update; [|exact Hat|unfold join; rewrite Et; reflexivity].
    rewrite RemovePlayer_others by done. simpl. by destruct (Z.eqb_spec (bg_Status b) StatusEnded).
  - destruct Hat as [Hi Hp]. unfold UpdateBattleground, GetBattlegroundByInstanceID, load_bg, mbind, go_bind, gets, id.
    rewrite Hi; simpl. rewrite Hp; simpl. unfold join. by rewrite Et.
Qed.

(** ** Links *)
Definition links_of (s : sys mm mm_event) (v : PlayerUnwrapped) : list Link := default [] (links (st s) !! v).

Lemma run_unlink k player realmID s :
  exists ls, removeBattlegroundLinkForPlayer k player realmID s = (Ok tt, Sys (set_links ls (st s)) (faults s) (events s)) /\
    (forall v, v <> unwrap_player realmID player -> ls !! v = links (st s) !! v) /\
    default [] (ls !! unwrap_player realmID player) =
      default (links_of s (unwrap_player realmID player)) (cut_first (links_to k) (links_of s (unwrap_player realmID player))).
Proof.
  unfold removeBattlegroundLinkForPlayer, GetQueueOrBattlegroundLinkForPlayer, put_links, mbind, go_bind, gets, modify, links_of.
  simpl. destruct (cut_first (links_to k) _) as [ls|] eqn:E.
  - exists (<[unwrap_player realmID player := ls]> (links (st s))). split_and!; [done|..].
    + intros v Hv. by rewrite lookup_insert_ne.
    + by rewrite lookup_insert_eq.
  - exists (links (st s)). split_and!; [by destruct s as [[] ? ?]|done|done].
Qed.
Lemma run_unlink_all k ps : forall s,
  exists ls, unlink_all k ps s = (Ok tt, Sys (set_links ls (st s)) (faults s) (events s)) /\
    forall v, v ∉ (fun p => unwrap_player (RealmID p) (LowGUID p)) <$> ps -> ls !! v = links (st s) !! v.
Proof.
  induction ps as [|p ps IH]; intros s; cbn [unlink_all].
  { exists (links (st s)). split; [by destruct s as [[] ? ?]|done]. }
  destruct (run_unlink k (LowGUID p) (RealmID p) s) as (ls & Hrun & Hls & _). rewrite (bind_run _ _ _ _ _ Hrun).
  destruct (IH (Sys (set_links ls (st s)) (faults s) (events s))) as (ls' & -> & Hls'). simpl in Hls'.
  exists ls'. split; [done|]. intros v Hv. rewrite fmap_cons, not_elem_of_cons in Hv. rewrite Hls' by apply Hv.
  apply Hls, Hv.
Qed.

Lemma busy_party realmID leader members ty lvl t s v :
  v ∈ unwrap_player realmID leader :: (unwrap_player realmID <$> members) -> links_of s v <> [] ->
  AddGroupToQueue realmID leader members ty lvl t s = (Fail ErrAlreadyInQueue, s).
Proof.
  intros Hv Hl. unfold AddGroupToQueue. cbv zeta. set (ps := _ :: _) in *. clearbody ps.
  assert (check_free ps s = (Fail ErrAlreadyInQueue, s)) as Hc; [|unfold mbind, go_bind; by rewrite Hc].
  induction ps as [|p ps IH]; [by apply elem_of_nil in Hv|]. cbn [check_free].
  unfold mbind, go_bind, GetQueueOrBattlegroundLinkForPlayer, gets, guard_err. fold (links_of s p).
  destruct (0 <? length (links_of s p))%nat eqn:E; [done|]. simpl. apply IH.
  apply elem_of_cons in Hv as [->|]; [|done]. destruct (links_of s p); [done|discriminate].
Qed.

(** Nothing is found under the link's key: the link stays. *)
Lemma left_missing player realmID i cross s :
  bg_index (st s) !! indexKeyForInstanceAndRealm i (realm_of cross realmID) = None ->
  PlayerLeftBattleground player realmID i cross s = (Ok tt, s).
Proof.
  intros Hi. unfold PlayerLeftBattleground, ignore_not_found, mbind, go_bind.
  by rewrite run_Update_missing.
Qed.

(** A player [v] of the realm of the battleground, or of its battlegroup. *)
Definition belongs (b : Battleground) (realmID : u32) : Prop :=
  bg_RealmID b = realm_of (negb (bg_BattleGroupID b =? 0)) realmID.

(** The links of the players that were only invited outlive the battleground. *)
Lemma ended_run s i r cross p b :
  bg_at s i (realm_of cross r) p b ->
  exists ls, BattlegroundStatusChanged StatusEnded r i cross s =
    (Ok tt, Sys (set_bgs (delete (index_of_bg b) (bg_index (st s))) (<[p := bg_set_status b StatusEnded]> (bg_heap (st s)))
                   (next_bg (st s)) (set_links ls (st s))) (faults s) (events s)) /\
    forall v, v ∉ (fun p => unwrap_player (RealmID p) (LowGUID p)) <$>
                (team (ActivePlayersPerTeam b) TeamHorde ++ team (ActivePlayersPerTeam b) TeamAlliance) ->
      ls !! v = links (st s) !! v.
Proof.
  intros Hat. destruct (run_unlink_all (key_of b)
    (team (ActivePlayersPerTeam b) TeamHorde ++ team (ActivePlayersPerTeam b) TeamAlliance) s) as (ls & Hrun & Hls).
  exists ls. split; [|done]. unfold BattlegroundStatusChanged, ignore_not_found.
  erewrite run_Update; [|exact Hat|rewrite Z.eqb_refl; unfold unlink_active; rewrite (bind_run _ _ _ _ _ Hrun); reflexivity].
  done.
Qed.

(** When a battleground ends, a player who was invited and did not join is
    left with the link to it: logging out and leaving the queue do not remove
    it, and every later attempt to queue, alone or in a party, is refused. *)
Theorem ended_battleground_strands_invited s i r cross p b player realmID :
  bg_at s i (realm_of cross r) p b -> i = InstanceID b -> realm_of cross r = bg_RealmID b -> belongs b realmID ->
  unwrap_player realmID player ∉ (fun p => unwrap_player (RealmID p) (LowGUID p)) <$>
    (team (ActivePlayersPerTeam b) TeamHorde ++ team (ActivePlayersPerTeam b) TeamAlliance) ->
  links_of s (unwrap_player realmID player) = [bg_link b] ->
  exists s', BattlegroundStatusChanged StatusEnded r i cross s = (Ok tt, s') /\
    PlayerBecomeOffline player realmID s' = (Ok tt, s') /\
    (forall ty, RemovePlayerFromQueue player realmID ty s' = (Ok tt, s')) /\
    (forall leader members ty lvl t, player ∈ leader :: members ->
       AddGroupToQueue realmID leader members ty lvl t s' = (Fail ErrAlreadyInQueue, s')).
Proof.
  intros Hat Hi Hr Hown Hin Hl. destruct (ended_run _ _ _ _ _ _ Hat) as (ls & -> & Hls).
  eexists. split; [reflexivity|]. set (s' := Sys _ _ _).
  assert (Hl' : links_of s' (unwrap_player realmID player) = [bg_link b])
    by (unfold links_of; simpl; rewrite Hls by done; exact Hl).
  assert (Hmiss : bg_index (st s') !! indexKeyForInstanceAndRealm (InstanceID b) (bg_RealmID b) = None)
    by (simpl; unfold index_of_bg; apply lookup_delete_eq).
  clearbody s'.
  split_and!.
  - unfold PlayerBecomeOffline, mbind, go_bind, GetQueueOrBattlegroundLinkForPlayer, gets. fold (links_of s' (unwrap_player realmID player)).
    rewrite Hl'. cbn [offline_links]. simpl. unfold mbind, go_bind. rewrite left_missing; [done|]. by rewrite <- Hown.
  - intros ty. unfold RemovePlayerFromQueue, mbind, go_bind, GetQueueOrBattlegroundLinkForPlayer, gets.
    fold (links_of s' (unwrap_player realmID player)). rewrite Hl'. simpl.
    assert (remove_link player realmID ty (bg_link b) s' = (Ok tt, s')) as Hrm; [|unfold mbind, go_bind; by rewrite Hrm].
    unfold remove_link, mbind, go_bind, GetBattlegroundByInstanceID, gets. simpl. by rewrite Hmiss.
  - intros leader members ty lvl t Hp. eapply (busy_party _ _ _ _ _ _ _ (unwrap_player realmID player)); [|by rewrite Hl'].
    rewrite <- (fmap_cons (unwrap_player realmID)). by apply list_elem_of_fmap_2.
Qed.

(** ** Expired invitations *)
Lemma links_to_bg_link b realmID : belongs b realmID ->
  links_to {| k_RealmID := realm_of (negb (bg_BattleGroupID b =? 0)) realmID; k_InstanceID := InstanceID b; k_BattlegroupID := 0 |}
    (bg_link b) = true.
Proof. intros <-. unfold links_to; simpl. by rewrite !Z.eqb_refl. Qed.

Lemma run_left b b' player realmID s p :
  bg_at s (InstanceID b) (bg_RealmID b) p b' -> belongs b realmID -> bg_Status b' <> StatusEnded ->
  links_of s (unwrap_player realmID player) = [bg_link b] ->
  exists ls, PlayerLeftBattleground player realmID (InstanceID b) (negb (bg_BattleGroupID b =? 0)) s =
    (Ok tt, Sys (set_bgs (bg_index (st s)) (<[p := RemovePlayer b' player realmID]> (bg_heap (st s))) (next_bg (st s))
                   (set_links ls (st s))) (faults s) (events s)) /\
    (forall v, v <> unwrap_player realmID player -> ls !! v = links (st s) !! v) /\
    default [] (ls !! unwrap_player realmID player) = [].
Proof.
  intros Hat Hown Hst Hl. unfold PlayerLeftBattleground, ignore_not_found. rewrite Hown in Hat.
  erewrite bind_run; [|by eapply run_Update]. simpl.
  destruct (Z.eqb_spec (bg_Status b') StatusEnded); [done|].
  match goal with |- context [removeBattlegroundLinkForPlayer ?k _ _ ?s1] =>
    destruct (run_unlink k player realmID s1) as (ls & -> & Hls & Hu) end.
  unfold links_of in Hu, Hl. simpl in Hu. rewrite Hl in Hu. simpl in Hu. rewrite links_to_bg_link in Hu by done.
  exists ls. done.
Qed.

Definition without (u : PlayerUnwrapped) (b : Battleground) : Battleground :=
  bg_set_players b (filter (fun v => v <> u) <$> ActivePlayersPerTeam b)
    (filter (fun i => GUID i <> u) <$> InvitedPlayersPerTeam b).
Lemma RemoveInvite_once b player realmID : once b ->
  once (RemovePlayerFromInvite b player realmID) /\
  RemovePlayer (RemovePlayerFromInvite b player realmID) player realmID = without (unwrap_player realmID player) b.
Proof.
  intros [Ha Hi]. set (u := unwrap_player realmID player).
  assert (E : RemovePlayerFromInvite b player realmID =
    bg_set_players b (ActivePlayersPerTeam b) (filter (fun i => GUID i <> u) <$> InvitedPlayersPerTeam b)).
  { unfold RemovePlayerFromInvite, is_invite. by rewrite (cut_team_others GUID). }
  assert (Hi' : NoDup (GUID <$> concat (filter (fun i => GUID i <> u) <$> InvitedPlayersPerTeam b))).
  { eapply sublist_NoDup; [exact Hi|]. apply fmap_sublist. clear.
    induction (InvitedPlayersPerTeam b) as [|t l IH]; [done|]. simpl. apply sublist_app; [apply sublist_filter|exact IH]. }
  rewrite E. split; [done|]. rewrite RemovePlayer_others by done. unfold without. simpl. fold u.
  destruct b; unfold bg_set_players; simpl. f_equal. rewrite <- list_fmap_compose. apply list_fmap_ext. intros _ t _. simpl.
  rewrite list_filter_filter. apply list_filter_iff. tauto.
Qed.
Lemma without_invited u b : u ∉ GUID <$> concat (InvitedPlayersPerTeam (without u b)).
Proof.
  intros (i & -> & Hi)%list_elem_of_fmap. apply elem_of_concat in Hi as (t & Ht & Hi). simpl in Ht.
  apply list_elem_of_fmap in Ht as (t' & -> & _). by apply list_elem_of_filter in Hi as [Hn _].
Qed.

(** An invitation that was not answered in time frees the player: the
    invitation is gone, the player holds no link (so may queue again), the
    other players' links and the rest of the battleground are untouched. *)
Theorem expired_invite_frees_player s b b' p u time :
  bg_at s (InstanceID b) (bg_RealmID b) p b' -> once b' -> bg_Status b' <> StatusEnded ->
  bg_QueueTypeID b' = bg_QueueTypeID b -> belongs b (RealmID u) ->
  unwrap_player (RealmID u) (LowGUID u) = u -> links_of s u = [bg_link b] ->
  exists s', expire b {| GUID := u; InvitedTime := time |} s = (Ok tt, s') /\
    bg_heap (st s') = <[p := without u b']> (bg_heap (st s)) /\
    u ∉ GUID <$> concat (InvitedPlayersPerTeam (without u b')) /\
    links_of s' u = [] /\
    (forall v, v <> u -> links_of s' v = links_of s v).
Proof.
  intros Hat Hb Hst Hty Hown Hu Hl. destruct (RemoveInvite_once b' (LowGUID u) (RealmID u) Hb) as [Hb1 Hgone].
  rewrite Hu in Hgone. unfold expire. simpl.
  erewrite bind_run; [|unfold try_err; erewrite run_Update by (exact Hat || reflexivity); reflexivity].
  simpl. destruct (Z.eqb_spec (bg_Status b') StatusEnded); [done|]. set (b1 := RemovePlayerFromInvite b' _ _) in *.
  set (s1 := Sys _ _ _).
  assert (Hat1 : bg_at s1 (InstanceID b) (bg_RealmID b) p b1) by (split; [apply Hat|apply lookup_insert_eq]).
  destruct (run_left b b1 (LowGUID u) (RealmID u) s1 p Hat1 Hown Hst) as (ls & Hleft & Hls & Hnone); [by rewrite Hu|].
  set (s2 := Sys _ _ _) in Hleft.
  assert (Hrem : RemovePlayerFromQueue (LowGUID u) (RealmID u) (bg_QueueTypeID b) s1 = (Ok tt, s2)).
  { unfold RemovePlayerFromQueue. rewrite Hu. erewrite bind_run by reflexivity. fold (links_of s1 u).
    change (links_of s1 u) with (links_of s u). rewrite Hl. cbn [length remove_links lookup list_lookup].
    rewrite (bind_run _ _ _ tt s2); [done|]. unfold remove_link; simpl.
    erewrite bind_run by reflexivity. destruct Hat1 as [Hi1 Hp1]. rewrite Hi1.
    rewrite (bind_run _ _ _ b1 s1) by (unfold load_bg, mbind, go_bind, gets, id; by rewrite Hp1).
    simpl. by rewrite Hty, Z.eqb_refl. }
  erewrite bind_run; [|unfold try_err; rewrite Hrem; reflexivity].
  unfold log_err, publish, ext. rewrite Hu in *.
  assert (Hs2 : bg_heap (st s2) = <[p := without u b']> (bg_heap (st s)) /\ links_of s2 u = [] /\
    (forall v, v <> u -> links_of s2 v = links_of s v)).
  { simpl. rewrite insert_insert_eq, Hgone. split_and!; [done|exact Hnone|]. intros v Hv. unfold links_of; simpl.
    by rewrite Hls. }
  destruct Hs2 as (Hh & Hn & Ho). pose proof (without_invited u b') as Hw.
  destruct (faults s2) as [|[] fs]; eexists; (split; [reflexivity|]); by split_and!.
Qed.

(** ** A match *)

(** [ps] hold exactly the links [ls]; everybody else holds what they held in [s]. *)
Definition only_relinked (ps : list PlayerUnwrapped) (ls : list Link) (s s' : sys mm mm_event) : Prop :=
  (forall v, v ∈ ps -> links_of s' v = ls) /\ (forall v, v ∉ ps -> links_of s' v = links_of s v) /\
  exists L, s' = Sys (set_links L (st s)) (faults s) (events s).
Lemma only_relinked_nil ls s : only_relinked [] ls s s.
Proof.
  split_and!; [by intros v Hv%elem_of_nil|done|]. exists (links (st s)). by destruct s as [[] ? ?].
Qed.
Lemma relinked_one v ls s :
  only_relinked [v] ls s (Sys (set_links (<[v := ls]> (links (st s))) (st s)) (faults s) (events s)).
Proof.
  split_and!; [| |by eexists].
  - intros w ->%list_elem_of_singleton. unfold links_of; simpl. by rewrite lookup_insert_eq.
  - intros w Hw. rewrite list_elem_of_singleton in Hw. unfold links_of; simpl. by rewrite lookup_insert_ne.
Qed.
Lemma relinked_app ps qs ls s s1 s2 : (forall v, v ∈ qs -> v ∉ ps) ->
  only_relinked ps ls s s1 -> only_relinked qs ls s1 s2 -> only_relinked (ps ++ qs) ls s s2.
Proof.
  intros Hdis (Hin1 & Hout1 & L1 & ->) (Hin2 & Hout2 & L2 & ->). split_and!.
  - intros v [Hv|Hv]%elem_of_app; [|by apply Hin2]. destruct (decide (v ∈ qs)); [by apply Hin2|].
    rewrite Hout2 by done. by apply Hin1.
  - intros v [Hp Hq]%not_elem_of_app. rewrite Hout2 by done. by apply Hout1.
  - by exists L2.
Qed.

(** The queue behind the pointer, and a queue of the same type. *)
Definition same_type (s : sys mm mm_event) (q q' : nat) : Prop :=
  exists Q Q', q_heap (st s) !! q = Some Q /\ q_heap (st s) !! q' = Some Q' /\ GetQueueTypeID Q = GetQueueTypeID Q'.

Lemma run_remove_queue_links q q' ps : forall s,
  NoDup ps -> same_type s q q' -> (forall v, v ∈ ps -> links_of s v = [queue_link (Some q')]) ->
  exists s', remove_queue_links (Some q) ps s = (Ok tt, s') /\ only_relinked ps [] s s'.
Proof.
  induction ps as [|v ps IH]; intros s Hn Hq Hl; [exists s; by split; [|apply only_relinked_nil]|].
  apply NoDup_cons in Hn as [Hv Hn]. destruct Hq as (Q & Q' & HQ & HQ' & Hty).
  set (s1 := Sys (set_links (<[v := []]> (links (st s))) (st s)) (faults s) (events s)).
  pose proof (relinked_one v [] s) as H1. fold s1 in H1. pose proof H1 as (_ & Hout & _).
  destruct (IH s1) as (s' & Hrun & Hs'); [done|by exists Q, Q'| |].
  { intros w Hw. rewrite Hout; [apply Hl; by right|]. intros ->%list_elem_of_singleton. done. }
  exists s'. split; [|apply (relinked_app [v] ps _ _ s1); [|done..]; intros w Hw ->%list_elem_of_singleton; done].
  cbn [remove_queue_links]. erewrite bind_run by reflexivity. fold (links_of s v). rewrite Hl by left.
  rewrite (bind_run _ _ _ (Some []) s).
  { rewrite (bind_run _ _ _ tt s1) by reflexivity. exact Hrun. }
  simpl. unfold load_q, mbind, go_bind, gets, id, deref. rewrite HQ'; simpl. rewrite HQ; simpl.
  by rewrite Hty, Z.eqb_refl.
Qed.

Lemma run_add_links l ps : forall slots s, NoDup ps -> (forall v, v ∈ ps -> links_of s v = []) ->
  exists slots' s', add_links l ps slots s = (Ok slots', s') /\ only_relinked ps [l] s s'.
Proof.
  induction ps as [|v ps IH]; intros slots s Hn Hl; [exists slots, s; by split; [|apply only_relinked_nil]|].
  apply NoDup_cons in Hn as [Hv Hn].
  set (s1 := Sys (set_links (<[v := [l]]> (links (st s))) (st s)) (faults s) (events s)).
  pose proof (relinked_one v [l] s) as H1. fold s1 in H1. pose proof H1 as (_ & Hout & _).
  cbn [add_links]. erewrite bind_run by reflexivity. fold (links_of s v). rewrite Hl by left.
  rewrite (bind_run _ _ _ tt s1) by reflexivity.
  destruct (IH (<[v := wrap8 (len ([] ++ [l]) - 1)]> slots) s1 Hn) as (slots' & s' & Hrun & Hs').
  { intros w Hw. rewrite Hout; [apply Hl; by right|]. intros ->%list_elem_of_singleton. done. }
  exists slots', s'. split; [exact Hrun|].
  apply (relinked_app [v] ps _ _ s1); [|done..]. intros w Hw ->%list_elem_of_singleton. done.
Qed.

Definition group_players (g : QueuedGroup) : list PlayerUnwrapped := Members g ++ [LeaderGUID g].

Lemma run_relink_one q q' p b g s :
  NoDup (group_players g) -> same_type s q q' -> bg_heap (st s) !! p = Some b ->
  (forall v, v ∈ group_players g -> links_of s v = [queue_link (Some q')]) ->
  exists slots s1 s', removeQueueForGroupMembers (Some q) g s = (Ok tt, s1) /\
    addBattlegroundForGroupMembers p g s1 = (Ok slots, s') /\ only_relinked (group_players g) [bg_link b] s s'.
Proof.
  intros Hn Hq Hb Hl. destruct (run_remove_queue_links q q' (group_players g) s Hn Hq Hl) as (s1 & Hrun & Hs1).
  pose proof Hs1 as (Hin1 & Hout1 & L1 & HL1).
  destruct (run_add_links (bg_link b) (group_players g) ∅ s1 Hn) as (slots & s' & Hrun' & Hs'); [by intros v Hv; apply Hin1|].
  exists slots, s1, s'. split_and!; [exact Hrun| |].
  - unfold addBattlegroundForGroupMembers. rewrite (bind_run _ _ _ b s1); [exact Hrun'|].
    unfold load_bg, mbind, go_bind, gets, id. rewrite HL1; simpl. by rewrite Hb.
  - destruct Hs' as (Hin & Hout & L & HL). split_and!; [done| |].
    + intros v Hv. rewrite Hout by done. by apply Hout1.
    + exists L. by rewrite HL, HL1.
Qed.

Lemma run_relink q q' p b gs : forall s,
  NoDup (concat (group_players <$> gs)) -> same_type s q q' -> bg_heap (st s) !! p = Some b ->
  (forall v, v ∈ concat (group_players <$> gs) -> links_of s v = [queue_link (Some q')]) ->
  exists s', relink (Some q) p gs s = (Ok tt, s') /\ only_relinked (concat (group_players <$> gs)) [bg_link b] s s'.
Proof.
  induction gs as [|g gs IH]; intros s Hn Hq Hb Hl; [exists s; by split; [|apply only_relinked_nil]|].
  rewrite fmap_cons in Hn, Hl |- *. cbn [concat] in *. apply NoDup_app in Hn as (Hg & Hdis & Hgs).
  destruct (run_relink_one q q' p b g s Hg Hq Hb) as (slots & s1 & s2 & Hrem & Hadd & Hs2).
  { intros v Hv. apply Hl, elem_of_app. by left. }
  pose proof Hs2 as (_ & Hout & L & HL).
  destruct (IH s2 Hgs) as (s' & Hrun & Hs').
  - destruct Hq as (Q & Q' & HQ). exists Q, Q'. by rewrite HL.
  - by rewrite HL.
  - intros v Hv. rewrite Hout; [apply Hl, elem_of_app; by right|]. intros Hvg. by apply (Hdis v Hvg).
  - exists s'. split; [|eapply relinked_app; [|done..]; intros v Hv Hvg; by apply (Hdis v Hvg)].
    cbn [relink]. rewrite (bind_run _ _ _ _ _ Hrem). rewrite (bind_run _ _ _ _ _ Hadd). exact Hrun.
Qed.

(** What an invitation leaves as it was. *)
Lemma bg_link_invitations t l b : bg_link (add_invitations t l b) = bg_link b.
Proof. by destruct b. Qed.

(** When the players matched by a queue are invited, each of them ends with
    one link, to the battleground, and none to the queue; nobody else's links
    change, and the battleground has one invitation more for each of them. *)
Theorem match_relinks_players s groups p t b q q' s' :
  bg_heap (st s) !! p = Some b ->
  entry (queues (st s)) {| qk_BattlegroupID := bg_BattleGroupID b; qk_RealmID := bg_RealmID b |}
    (bg_QueueTypeID b) (bg_BracketID b) = Some q ->
  same_type s q q' ->
  NoDup (concat (group_players <$> groups)) ->
  (forall v, v ∈ concat (group_players <$> groups) -> links_of s v = [queue_link (Some q')]) ->
  InviteGroups groups p t s = (Ok tt, s') ->
  (forall v, v ∈ concat (group_players <$> groups) -> links_of s' v = [bg_link b]) /\
  (forall v, v ∉ concat (group_players <$> groups) -> links_of s' v = links_of s v) /\
  exists l, GUID <$> l ≡ₚ concat (group_players <$> groups) /\
    bg_heap (st s') = <[p := add_invitations t l b]> (bg_heap (st s)).
Proof.
  intros Hb Hq Hty Hn Hl Hrun. unfold InviteGroups in Hrun.
  apply bind_ok in Hrun as ([] & s1 & Hinv & Hrun). unfold invite_to in Hinv.
  rewrite (bind_run _ _ _ (now (st s)) s) in Hinv by reflexivity.
  rewrite (on_bg_run _ _ _ _ Hb) in Hinv. destruct (wrap_err _ _ _) as [o si] eqn:Ei. injection Hinv as -> Hs1.
  apply wrap_err_ok, InviteGroups_ok in Ei as (l & Hperm & Hst). simpl in Hst.
  set (b' := add_invitations t l b) in *. rewrite Hst in Hs1.
  assert (Hb1 : bg_heap (st s1) !! p = Some b') by (rewrite <- Hs1; simpl; apply lookup_insert_eq).
  apply bind_ok in Hrun as ([] & s2 & Hsave & Hrun).
  assert (Hs2 : exists idx, s2 = Sys (set_bgs idx (bg_heap (st s1)) (next_bg (st s1)) (st s1)) (faults s1) (events s1)).
  { unfold SaveBattleground, load_bg, mbind, go_bind, gets, id in Hsave. rewrite Hb1 in Hsave; simpl in Hsave.
    destruct (_ =? _); apply modify_ok in Hsave; by eexists. }
  destruct Hs2 as (idx & Hs2).
  assert (Hb2 : bg_heap (st s2) !! p = Some b') by (by rewrite Hs2).
  rewrite (bind_run _ _ _ b' s2) in Hrun by (unfold load_bg, mbind, go_bind, gets, id; by rewrite Hb2).
  assert (Hq2 : queue_at {| qk_BattlegroupID := bg_BattleGroupID b'; qk_RealmID := bg_RealmID b' |} (bg_QueueTypeID b')
            (bg_BracketID b') s2 = (Ok (Some q), s2)).
  { unfold queue_at, gets. f_equal. f_equal. rewrite Hs2, <- Hs1. exact Hq. }
  rewrite (bind_run _ _ _ _ _ Hq2) in Hrun.
  assert (Hlinks : forall v, links_of s2 v = links_of s v) by (intros v; by rewrite Hs2, <- Hs1).
  destruct (run_relink q q' p b' groups s2) as (s3 & Hrun' & Hin & Hout & L & HL); [done| |done| |].
  - destruct Hty as (Q & Q' & HQ). exists Q, Q'. by rewrite Hs2, <- Hs1.
  - intros v Hv. rewrite Hlinks. by apply Hl.
  - rewrite Hrun' in Hrun. injection Hrun as <-. split_and!.
    + intros v Hv. rewrite Hin by done. unfold b'. by rewrite bg_link_invitations.
    + intros v Hv. by rewrite Hout, Hlinks.
    + exists l. split; [|by rewrite HL, Hs2, <- Hs1]. rewrite Hperm, fmap_concat, <- !list_fmap_compose.
      erewrite list_fmap_ext; [done|]. intros _ g _. unfold invitations, group_players, to_bg_group; simpl.
      rewrite <- list_fmap_compose. by rewrite list_fmap_id.
Qed.
End Facts.

(** ** On the small server *)
#[local] Existing Instances map_range_canonical sort_slice_insertion.
Definition wsg : u32 := 2.
Definition p100 : PlayerUnwrapped := unwrap_player 1 100.
Definition p200 : PlayerUnwrapped := unwrap_player 1 200.
Definition invited : sys mm mm_event := run (RqEnqueue 1 200 [] wsg 80 2) (run (RqEnqueue 1 100 [] wsg 80 1) mm_started).
Definition bg_of (s : sys mm mm_event) : Battleground := default sample_bg (bg_heap (st s) !! 0%nat).
Lemma bg_at_sample s : bg_index (st s) !! "7:1" = Some 0%nat -> is_Some (bg_heap (st s) !! 0%nat) ->
  bg_at s 7 1 0 (bg_of s).
Proof. intros Hi [b Hb]. split; [exact Hi|]. unfold bg_of. by rewrite Hb. Qed.
Ltac sample_bg_at := apply bg_at_sample; [vm_compute; reflexivity|vm_compute; by eexists].
Ltac evaluate := apply (bool_decide_unpack _); vm_compute; exact I.

Lemma join_is_exact_witness :
  exists b, (PlayerJoinedBattleground 100 1 7 false invited).1 = Ok tt /\
    bg_heap (st (PlayerJoinedBattleground 100 1 7 false invited).2) !! 0%nat = Some b /\
    team (ActivePlayersPerTeam b) TeamAlliance = [p100].
Proof.
  pose proof (join_is_exact invited 7 false 100 1 0 (bg_of invited)) as Hjoin.
  assert (Et : TeamForInvitedPlayer (bg_of invited) 100 1 = Some TeamAlliance) by (vm_compute; reflexivity).
  rewrite Et in Hjoin. eexists. rewrite Hjoin; [|sample_bg_at|split; evaluate|vm_compute; discriminate].
  split; [reflexivity|]. split; [apply lookup_insert_eq|]. vm_compute. reflexivity.
Defined.

Definition joined : sys mm mm_event := run (RqPlayerJoined 100 1 7 false) invited.
Lemma ended_battleground_strands_invited_witness :
  exists s', BattlegroundStatusChanged StatusEnded 1 7 false joined = (Ok tt, s') /\
    AddGroupToQueue 1 300 [200] wsg 80 TeamHorde s' = (Fail ErrAlreadyInQueue, s').
Proof.
  destruct (ended_battleground_strands_invited joined 7 1 false 0 (bg_of joined) 200 1) as (s' & Hrun & _ & _ & Hbusy).
  - sample_bg_at.
  - vm_compute. reflexivity.
  - vm_compute. reflexivity.
  - vm_compute. reflexivity.
  - evaluate.
  - vm_compute. reflexivity.
  - exists s'. split; [exact Hrun|]. apply Hbusy. right. left.
Defined.

Lemma expired_invite_frees_player_witness :
  exists s', expire (bg_of joined) {| GUID := p200; InvitedTime := 1000 |} joined = (Ok tt, s') /\ links_of s' p200 = [].
Proof.
  destruct (expired_invite_frees_player joined (bg_of joined) (bg_of joined) 0 p200 1000) as (s' & Hrun & _ & _ & Hl & _).
  - assert (E : InstanceID (bg_of joined) = 7 /\ bg_RealmID (bg_of joined) = 1) by (vm_compute; done).
    destruct E as [-> ->]. sample_bg_at.
  - split; evaluate.
  - vm_compute. discriminate.
  - reflexivity.
  - vm_compute. reflexivity.
  - vm_compute. reflexivity.
  - vm_compute. reflexivity.
  - exists s'. split; [exact Hrun|exact Hl].
Defined.

(** A third player waits in the queue of the running battleground. *)
Definition p300 : PlayerUnwrapped := unwrap_player 1 300.
Definition late_group : QueuedGroup :=
  {| LeaderGUID := p300; Members := []; SlotsPerMember := ∅; qg_RealmID := 1; TeamID := TeamAlliance; EnqueuedTime := 1000;
     IsRandomQueue := false |}.
Definition queue_of_bg : nat :=
  default 0%nat (entry (queues (st joined)) {| qk_BattlegroupID := 0; qk_RealmID := 1 |} wsg 8).
Definition waiting : sys mm mm_event := (addQueueForGroupMembers (Some queue_of_bg) late_group joined).2.
Lemma match_relinks_players_witness :
  links_of (InviteGroups [late_group] 0 TeamAlliance waiting).2 p300 = [bg_link (bg_of waiting)].
Proof.
  destruct (InviteGroups [late_group] 0 TeamAlliance waiting) as [o s'] eqn:E. run_succeeds E o s'.
  destruct (match_relinks_players waiting [late_group] 0 TeamAlliance (bg_of waiting) queue_of_bg queue_of_bg s')
    as (Hin & _); [| | | | |exact E|].
  - vm_compute. reflexivity.
  - vm_compute. reflexivity.
  - assert (HQ : exists Q, q_heap (st waiting) !! queue_of_bg = Some Q) by (eexists; vm_compute; reflexivity).
    destruct HQ as [Q HQ]. exists Q, Q. split; [exact HQ|split; [exact HQ|reflexivity]].
  - evaluate.
  - intros v Hv. apply list_elem_of_singleton in Hv as ->. vm_compute. reflexivity.
  - apply Hin. left.
Defined.

(** ** Failed matches and the cross-realm switch *)

(** No game server can take the battleground. *)
Definition no_servers (s : sys mm mm_event) : sys mm mm_event :=
  Sys (outside (fun _ _ _ => []) (instances (st s)) (dice (st s)) (now (st s)) (st s)) (faults s) (events s).
Definition queued_leaders (s : sys mm mm_event) : list PlayerUnwrapped :=
  match q_heap (st s) !! queue_of_bg with Some q => LeaderGUID <$> GetAllQueuedGroups q | None => [] end.
Definition one_waits : sys mm mm_event := no_servers (run (RqEnqueue 1 100 [] wsg 80 1) mm_started).

(** A match that cannot start a battleground is reported as an error and the
    player's link is removed, but the group stays in the queue; the player can
    queue again although the group is already there. *)
Example failed_match_stays_queued :
  let s := run (RqEnqueue 1 200 [] wsg 80 2) one_waits in
  (handle (RqEnqueue 1 200 [] wsg 80 2) one_waits).1 = Fail (ErrMMWrap (ErrMMWrap ErrNoGameServers)) /\
  links_of s p200 = [] /\ p200 ∈ queued_leaders s /\
  (handle (RqEnqueue 1 200 [] wsg 80 2) s).1 <> Fail ErrAlreadyInQueue.
Proof. vm_compute. split_and!; [done|done| |done]. right. left. Qed.

(** Alterac Valley starts at level 51, the rest at 10. *)
Definition mixed_rows : list BattlegroundTemplate :=
  small_row 51 QueueTypeIDAlteracValley :: (small_row 10 <$> drop 1 random_types).
Definition with_dice (ds : list Z) (s : sys mm mm_event) : sys mm mm_event :=
  Sys (outside (available (st s)) (instances (st s)) ds (now (st s)) (st s)) (faults s) (events s).
(** The random queue of the realm was set up from Arathi Basin, the one of the
    battlegroup from Alterac Valley. *)
Definition mixed_started : sys mm mm_event := (NewBattleGroundService mixed_rows [1] (with_dice [1; 0] (Sys mm_empty [] []))).2.
Definition cross_node : EventGameServer :=
  {| e_ID := "gs9"; e_Address := "10.0.0.9:8085"; e_RealmID := 0; e_IsCrossRealm := true; e_AvailableMaps := [];
     OldAssignedMapsToHandle := []; NewAssignedMapsToHandle := [] |}.
(** The queues of a realm and of its battlegroup need not have the same brackets:
    the switch of the random queue dereferences a queue that does not exist. *)
Example cross_realm_switch_panics :
  (OnGameServerAdded cross_node (run (RqEnqueue 1 100 [] 32 20 1) mixed_started)).1 = Panic.
Proof. vm_compute. reflexivity. Qed.

(** A group that is matched as it arrives in its new queue is linked to that
    queue only afterwards: it keeps a link to a queue it is no longer in. *)
Definition two_realms : mm :=
  {| bgTemplates := []; queues := ∅; q_heap := ∅; next_q := 0; links := ∅; bg_index := ∅; bg_heap := ∅; next_bg := 0;
     battleGroupIDByRealmID := {[1 := 1; 2 := 1]}; activeCrossRealmNodes := ∅; addressesMapping := ∅; addressWithConn := ∅;
     available := fun _ _ _ => [small_server]; instances := [7]; dice := []; now := 1000 |}.
Definition two_realms_wait : sys mm mm_event :=
  run (RqEnqueue 2 200 [] wsg 80 2) (run (RqEnqueue 1 100 [] wsg 80 1)
    (NewBattleGroundService small_rows [1; 2] (Sys two_realms [] [])).2).
Definition switched : sys mm mm_event := (OnGameServerAdded cross_node two_realms_wait).2.
Example cross_realm_switch_stale_link :
  exists q, links_of switched p100 = [bg_link (bg_of switched); queue_link (Some q)] /\
    exists Q, q_heap (st switched) !! q = Some Q /\ GetAllQueuedGroups Q = [].
Proof. exists 127%nat. split; [vm_compute; reflexivity|]. eexists. split; vm_compute; reflexivity. Qed.
