(* ===== verification/ChannelsRepo.v ===== *)
(** * ChannelsRepo: chat channels and where they are stored
    (apps/chatserver/repo/channels.go, channels_mysql.go, channels_noop.go,
    shared/events/events-chat.go)

    The interface is a record of operations on a store of any type [D]; the
    laws the channel manager relies on are a second record.  MySQL satisfies
    them, the no-op repository does not. *)
From stdpp Require Import pretty.
From S2P Require Import Prelude GoRuntime GoStrings.

(** ** Data *)

(** Times are nanoseconds; the database keeps seconds. *)
Definition second : Z := 1000000000.
Definition unix (t : Z) : Z := t / second.
Definition from_unix (t : Z) : Z := t * second.

Record Channel := {
  c_ChannelID : u32; c_Name : string; c_Team : u32; c_Announce : bool; c_Ownership : bool; c_Password : string;
  c_LastUsed : Z
}.
Record ChannelRights := {
  r_Name : string; r_Flags : u32; r_SpeakDelay : u32; r_JoinMessage : string; r_DelayMessage : string;
  Moderators : list u32
}.
Record ChannelBan := { ban_ChannelID : u32; ban_PlayerGUID : u64; BanTime : Z }.
Record ChannelMember := { PlayerGUID : u64; PlayerName : string; m_Flags : u8 }.

(** What the chat server publishes. *)
Inductive chat_event :=
| IncomingWhisper (gateway : string) (senderGUID : u64) (senderName : string) (senderRace : u8) (receiverGUID : u64)
    (receiverName : string) (language : u32) (msg : string)
| ChannelMessageEv (realmID : u32) (channelName : string) (channelID : u32) (senderGUID : u64) (senderName : string)
    (language : u32) (message : string)
| ChannelJoinedEv (serviceID : string) (realmID : u32) (channelName : string) (channelID : u32) (playerGUID : u64)
    (playerName : string) (playerFlags : u8)
| ChannelLeftEv (serviceID : string) (realmID : u32) (channelName : string) (channelID : u32) (playerGUID : u64)
    (playerName : string)
| ChannelNotificationEv (realmID : u32) (channelName : string) (channelID : u32) (notifyType : u8) (targetGUID : u64)
    (targetName : string) (secondGUID affectsPlayer : u64).

(** Channel events go to every gateway, a whisper to the receiver's. *)
Definition chat_SubjectName (e : chat_event) : string :=
  match e with
  | IncomingWhisper gateway _ _ _ _ _ _ _ => "chat.gw." +:+ gateway +:+ ".income.whisper"
  | ChannelMessageEv _ _ _ _ _ _ _ => "chat.gw.ALL.channel.message"
  | ChannelJoinedEv _ _ _ _ _ _ _ => "chat.gw.ALL.channel.joined"
  | ChannelLeftEv _ _ _ _ _ _ => "chat.gw.ALL.channel.left"
  | ChannelNotificationEv _ _ _ _ _ _ _ _ => "chat.gw.ALL.channel.notify"
  end.

Inductive chat_err :=
| ErrPlayerBanned | ErrWrongPassword | ErrNotMember | ErrNotModerator | ErrNotOwner | ErrPlayerNotFound
| ErrChannelNotFound | ErrMuted | ErrChatDB | ErrChatBus | ErrChatWrap (e : chat_err).

(** ** The interface *)
Record ChannelsRepo (D : Type) := {
  CreateChannel : u32 -> Channel -> go D chat_event chat_err Channel;      (* the channel with its new id *)
  GetChannelByID : u32 -> u32 -> go D chat_event chat_err (option Channel);
  GetChannelByName : u32 -> string -> u32 -> go D chat_event chat_err (option Channel);
  GetAllChannels : u32 -> go D chat_event chat_err (list Channel);
  UpdateChannel : u32 -> Channel -> go D chat_event chat_err unit;
  DeleteChannel : u32 -> u32 -> go D chat_event chat_err unit;
  UpdateChannelLastUsed : u32 -> u32 -> Z -> go D chat_event chat_err unit;
  CleanOldChannels : u32 -> Z -> go D chat_event chat_err unit;
  GetChannelRights : u32 -> string -> go D chat_event chat_err (option ChannelRights);
  SetChannelRights : u32 -> ChannelRights -> go D chat_event chat_err unit;
  AddChannelBan : u32 -> ChannelBan -> go D chat_event chat_err unit;
  RemoveChannelBan : u32 -> u32 -> u64 -> go D chat_event chat_err unit;
  GetChannelBans : u32 -> u32 -> go D chat_event chat_err (list ChannelBan);
  IsPlayerBanned : u32 -> u32 -> u64 -> Z -> go D chat_event chat_err bool;
  CleanExpiredBans : u32 -> Z -> go D chat_event chat_err unit;
  SaveChannelMember : u32 -> u32 -> ChannelMember -> go D chat_event chat_err unit;
  RemoveChannelMember : u32 -> u32 -> u64 -> go D chat_event chat_err unit;
  LoadChannelMembers : u32 -> u32 -> go D chat_event chat_err (list ChannelMember);
  UpdateMemberFlags : u32 -> u32 -> u64 -> u8 -> go D chat_event chat_err unit
}.
Arguments CreateChannel {D}. Arguments GetChannelByID {D}. Arguments GetChannelByName {D}.
Arguments GetAllChannels {D}. Arguments UpdateChannel {D}. Arguments UpdateChannelLastUsed {D}.
Arguments CleanOldChannels {D}. Arguments GetChannelRights {D}. Arguments AddChannelBan {D}.
Arguments RemoveChannelBan {D}. Arguments GetChannelBans {D}. Arguments CleanExpiredBans {D}.
Arguments SaveChannelMember {D}. Arguments RemoveChannelMember {D}. Arguments LoadChannelMembers {D}.
Arguments UpdateMemberFlags {D}. Arguments DeleteChannel {D}. Arguments SetChannelRights {D}.
Arguments IsPlayerBanned {D}.

(** A call writes [f] or fails without an effect, and publishes nothing. *)
Definition writes {D} (m : go D chat_event chat_err unit) (f : D -> D) : Prop :=
  forall s, m s = (ext ErrChatDB ;; modify f) s.

(** The members of the channels as the repository sees them. *)
Abbreviation member_table := (u32 -> u32 -> gmap u64 ChannelMember).
Definition upd_members (r i : u32) (f : gmap u64 ChannelMember -> gmap u64 ChannelMember) (t : member_table) : member_table :=
  fun r' i' => if bool_decide ((r', i') = (r, i)) then f (t r' i') else t r' i'.
Definition set_m_Flags (fl : u8) (m : ChannelMember) : ChannelMember :=
  {| PlayerGUID := PlayerGUID m; PlayerName := PlayerName m; m_Flags := fl |}.

(** What the manager relies on: members are stored by channel and player. *)
Record MembersLaws {D} (R : ChannelsRepo D) (members_of : D -> member_table) : Prop := {
  law_save : forall r i m, exists f, writes (SaveChannelMember R r i m) f /\
    forall d r' i', members_of (f d) r' i' = upd_members r i <[PlayerGUID m := m]> (members_of d) r' i';
  law_remove : forall r i g, exists f, writes (RemoveChannelMember R r i g) f /\
    forall d r' i', members_of (f d) r' i' = upd_members r i (delete g) (members_of d) r' i';
  law_flags : forall r i g fl, exists f, writes (UpdateMemberFlags R r i g fl) f /\
    forall d r' i', members_of (f d) r' i' = upd_members r i (alter (set_m_Flags fl) g) (members_of d) r' i';
  law_channel : forall r c, exists f, writes (UpdateChannel R r c) f /\
    forall d r' i', members_of (f d) r' i' = members_of d r' i';
  law_last_used : forall r i t, exists f, writes (UpdateChannelLastUsed R r i t) f /\
    forall d r' i', members_of (f d) r' i' = members_of d r' i';
  law_load_healthy : forall r i, healthy (LoadChannelMembers R r i);
  law_load : forall r i s o s', LoadChannelMembers R r i s = (o, s') -> st s' = st s /\
    forall l, o = Ok l -> (fun m => (PlayerGUID m, m)) <$> l ≡ₚ map_to_list (members_of (st s) r i)
}.

(** ** The MySQL repository *)
Record channels_db := {
  db_channels : gmap (u32 * u32) Channel;                  (* by realm and channel id *)
  db_next : gmap u32 u32;                                  (* AUTO_INCREMENT of each realm's table *)
  db_rights : gmap (u32 * string) ChannelRights;
  db_bans : gmap (u32 * u32) (gmap u64 Z);                 (* seconds *)
  db_members : gmap (u32 * u32) (gmap u64 ChannelMember)
}.
Definition set_db_channels (c : gmap (u32 * u32) Channel) (n : gmap u32 u32) (d : channels_db) : channels_db :=
  {| db_channels := c; db_next := n; db_rights := db_rights d; db_bans := db_bans d; db_members := db_members d |}.
Definition set_db_bans (b : gmap (u32 * u32) (gmap u64 Z)) (d : channels_db) : channels_db :=
  {| db_channels := db_channels d; db_next := db_next d; db_rights := db_rights d; db_bans := b;
     db_members := db_members d |}.
Definition set_db_members (m : gmap (u32 * u32) (gmap u64 ChannelMember)) (d : channels_db) : channels_db :=
  {| db_channels := db_channels d; db_next := db_next d; db_rights := db_rights d; db_bans := db_bans d;
     db_members := m |}.

Definition set_db_rights (t : gmap (u32 * string) ChannelRights) (d : channels_db) : channels_db :=
  {| db_channels := db_channels d; db_next := db_next d; db_rights := t; db_bans := db_bans d;
     db_members := db_members d |}.

(** The rows of one channel; a channel without rows has an empty table. *)
Definition rows {V} (t : gmap (u32 * u32) (gmap u64 V)) (r i : u32) : gmap u64 V := default ∅ (t !! (r, i)).
Definition upd_rows {V} (r i : u32) (f : gmap u64 V -> gmap u64 V) (t : gmap (u32 * u32) (gmap u64 V)) :
    gmap (u32 * u32) (gmap u64 V) :=
  <[(r, i) := f (rows t r i)]> t.

Section MySQL.
Context `{MapRange}.
(** The collation of the name columns: which names are equal. *)
Variable same_name : string -> string -> bool.
Abbreviation Q A := (go channels_db chat_event chat_err A).
Definition sql (f : channels_db -> channels_db) : Q unit := ext ErrChatDB ;; modify f.
Definition query {A} (f : channels_db -> A) : Q A := ext ErrChatDB ;; gets f.

(** A row as it is read back: seconds. *)
Definition read_back (c : Channel) : Channel :=
  {| c_ChannelID := c_ChannelID c; c_Name := c_Name c; c_Team := c_Team c; c_Announce := c_Announce c;
     c_Ownership := c_Ownership c; c_Password := c_Password c; c_LastUsed := from_unix (unix (c_LastUsed c)) |}.
Definition with_channel_id (i : u32) (c : Channel) : Channel :=
  {| c_ChannelID := i; c_Name := c_Name c; c_Team := c_Team c; c_Announce := c_Announce c;
     c_Ownership := c_Ownership c; c_Password := c_Password c; c_LastUsed := c_LastUsed c |}.
Definition channels_of_realm (r : u32) (d : channels_db) : list Channel :=
  omap (fun e => if e.1.1 =? r then Some (read_back e.2) else None) (go_range 12 (db_channels d)).

Definition mysql_CreateChannel (r : u32) (c : Channel) : Q Channel :=
  ext ErrChatDB ;;
  d ← gets id;
  let i := default 1 (db_next d !! r) in
  modify (set_db_channels (<[(r, i) := with_channel_id i c]> (db_channels d)) (<[r := i + 1]> (db_next d))) ;;
  mret (with_channel_id (wrap32 i) c).
Definition mysql_GetChannelByID (r i : u32) : Q (option Channel) := query (fun d => read_back <$> db_channels d !! (r, i)).
Definition mysql_GetChannelByName (r : u32) (name : string) (team : u32) : Q (option Channel) :=
  query (fun d => head (filter (fun c => same_name (c_Name c) name && (c_Team c =? team) = true) (channels_of_realm r d))).
Definition mysql_GetAllChannels (r : u32) : Q (list Channel) := query (channels_of_realm r).
(** The name and the team of a row never change. *)
Definition mysql_UpdateChannel (r : u32) (c : Channel) : Q unit :=
  sql (fun d => set_db_channels
    (alter (fun old => {| c_ChannelID := c_ChannelID old; c_Name := c_Name old; c_Team := c_Team old;
                          c_Announce := c_Announce c; c_Ownership := c_Ownership c; c_Password := c_Password c;
                          c_LastUsed := c_LastUsed c |}) (r, c_ChannelID c) (db_channels d)) (db_next d) d).
(** The rows of the members and the bans stay. *)
Definition mysql_DeleteChannel (r i : u32) : Q unit :=
  sql (fun d => set_db_channels (delete (r, i) (db_channels d)) (db_next d) d).
Definition mysql_UpdateChannelLastUsed (r i : u32) (now : Z) : Q unit :=
  sql (fun d => set_db_channels
    (alter (fun old => {| c_ChannelID := c_ChannelID old; c_Name := c_Name old; c_Team := c_Team old;
                          c_Announce := c_Announce old; c_Ownership := c_Ownership old; c_Password := c_Password old;
                          c_LastUsed := now |}) (r, i) (db_channels d)) (db_next d) d).
Definition mysql_CleanOldChannels (r : u32) (olderThan : Z) : Q unit :=
  sql (fun d => set_db_channels
    (filter (fun e => negb ((e.1.1 =? r) && (unix (c_LastUsed e.2) <? unix olderThan)) = true) (db_channels d)) (db_next d) d).
Definition mysql_GetChannelRights (r : u32) (name : string) : Q (option ChannelRights) :=
  query (fun d => head (omap (fun e => if (e.1.1 =? r) && same_name e.1.2 name then Some e.2 else None)
                          (go_range 13 (db_rights d)))).
(** The moderators are stored as text, without zeros; an existing row, found
    by the name's collation, keeps its name. *)
Definition mysql_SetChannelRights (r : u32) (rights : ChannelRights) : Q unit :=
  sql (fun d =>
    let name := match head (filter (fun e => (e.1.1 =? r) && same_name e.1.2 (r_Name rights) = true) (go_range 27 (db_rights d))) with
                | Some e => e.1.2
                | None => r_Name rights
                end in
    set_db_rights (<[(r, name) := {| r_Name := name; r_Flags := r_Flags rights; r_SpeakDelay := r_SpeakDelay rights;
                                     r_JoinMessage := r_JoinMessage rights; r_DelayMessage := r_DelayMessage rights;
                                     Moderators := filter (fun g => negb (g =? 0) = true) (Moderators rights) |}]>
                     (db_rights d)) d).
Definition mysql_AddChannelBan (r : u32) (b : ChannelBan) : Q unit :=
  sql (fun d => set_db_bans (upd_rows r (ban_ChannelID b) <[ban_PlayerGUID b := unix (BanTime b)]> (db_bans d)) d).
Definition mysql_RemoveChannelBan (r i : u32) (g : u64) : Q unit :=
  sql (fun d => set_db_bans (upd_rows r i (delete g) (db_bans d)) d).
Definition mysql_GetChannelBans (r i : u32) : Q (list ChannelBan) :=
  query (fun d => (fun e => {| ban_ChannelID := i; ban_PlayerGUID := e.1; BanTime := from_unix e.2 |})
                    <$> go_range 14 (rows (db_bans d) r i)).
Definition mysql_IsPlayerBanned (r i : u32) (g : u64) (now : Z) : Q bool :=
  query (fun d => match rows (db_bans d) r i !! g with Some t => unix now <? t | None => false end).
Definition mysql_CleanExpiredBans (r : u32) (now : Z) : Q unit :=
  sql (fun d => set_db_bans
    (map_imap (fun k bans => if k.1 =? r then Some (filter (fun e => unix now < e.2) bans) else Some bans) (db_bans d)) d).
Definition mysql_SaveChannelMember (r i : u32) (m : ChannelMember) : Q unit :=
  sql (fun d => set_db_members (upd_rows r i <[PlayerGUID m := m]> (db_members d)) d).
Definition mysql_RemoveChannelMember (r i : u32) (g : u64) : Q unit :=
  sql (fun d => set_db_members (upd_rows r i (delete g) (db_members d)) d).
Definition mysql_LoadChannelMembers (r i : u32) : Q (list ChannelMember) :=
  query (fun d => (fun e => {| PlayerGUID := e.1; PlayerName := PlayerName e.2; m_Flags := m_Flags e.2 |})
                    <$> go_range 15 (rows (db_members d) r i)).
Definition mysql_UpdateMemberFlags (r i : u32) (g : u64) (fl : u8) : Q unit :=
  sql (fun d => set_db_members (upd_rows r i (alter (set_m_Flags fl) g) (db_members d)) d).

Definition ChannelsMYSQL : ChannelsRepo channels_db := {|
  CreateChannel := mysql_CreateChannel; GetChannelByID := mysql_GetChannelByID;
  GetChannelByName := mysql_GetChannelByName; GetAllChannels := mysql_GetAllChannels;
  UpdateChannel := mysql_UpdateChannel; UpdateChannelLastUsed := mysql_UpdateChannelLastUsed;
  CleanOldChannels := mysql_CleanOldChannels; GetChannelRights := mysql_GetChannelRights;
  AddChannelBan := mysql_AddChannelBan; RemoveChannelBan := mysql_RemoveChannelBan;
  DeleteChannel := mysql_DeleteChannel; SetChannelRights := mysql_SetChannelRights; IsPlayerBanned := mysql_IsPlayerBanned;
  GetChannelBans := mysql_GetChannelBans; CleanExpiredBans := mysql_CleanExpiredBans;
  SaveChannelMember := mysql_SaveChannelMember; RemoveChannelMember := mysql_RemoveChannelMember;
  LoadChannelMembers := mysql_LoadChannelMembers; UpdateMemberFlags := mysql_UpdateMemberFlags
|}.
End MySQL.

(** ** The repository that stores nothing; its state is the next channel id *)
Definition noop_CreateChannel (r : u32) (c : Channel) : go u32 chat_event chat_err Channel :=
  if c_ChannelID c =? 0 then
    modify (fun next => wrap32 (next + 1)) ;; i ← gets id; mret (with_channel_id i c)
  else mret c.
Definition ChannelsNoop : ChannelsRepo u32 := {|
  CreateChannel := noop_CreateChannel; GetChannelByID := fun _ _ => mret None; GetChannelByName := fun _ _ _ => mret None;
  GetAllChannels := fun _ => mret []; UpdateChannel := fun _ _ => mret tt; UpdateChannelLastUsed := fun _ _ _ => mret tt;
  CleanOldChannels := fun _ _ => mret tt; GetChannelRights := fun _ _ => mret None;
  DeleteChannel := fun _ _ => mret tt; SetChannelRights := fun _ _ => mret tt; IsPlayerBanned := fun _ _ _ _ => mret false; AddChannelBan := fun _ _ => mret tt;
  RemoveChannelBan := fun _ _ _ => mret tt; GetChannelBans := fun _ _ => mret []; CleanExpiredBans := fun _ _ => mret tt;
  SaveChannelMember := fun _ _ _ => mret tt; RemoveChannelMember := fun _ _ _ => mret tt;
  LoadChannelMembers := fun _ _ => mret []; UpdateMemberFlags := fun _ _ _ _ => mret tt
|}.

(** ** MySQL satisfies the laws *)
Definition at_guid (g : u64) (m : ChannelMember) : ChannelMember :=
  {| PlayerGUID := g; PlayerName := PlayerName m; m_Flags := m_Flags m |}.
Definition mysql_members (d : channels_db) : member_table :=
  fun r i => map_imap (fun g m => Some (at_guid g m)) (rows (db_members d) r i).

Lemma rows_upd {V} (r i : u32) (f : gmap u64 V -> gmap u64 V) (t : gmap (u32 * u32) (gmap u64 V)) (r' i' : u32) :
  rows (upd_rows r i f t) r' i' = if bool_decide ((r', i') = (r, i)) then f (rows t r' i') else rows t r' i'.
Proof.
  unfold rows, upd_rows. case_bool_decide as E; [injection E as -> ->; by rewrite lookup_insert_eq|].
  by rewrite lookup_insert_ne.
Qed.

Section Laws.
Context `{MapRange}.
Variable same_name : string -> string -> bool.

Lemma sql_writes (f : channels_db -> channels_db) : writes (sql f) f.
Proof. by intros s. Qed.
(** A statement on the members changes the table the way [f] changes the rows. *)
Lemma mysql_members_upd r i (f g : gmap u64 ChannelMember -> gmap u64 ChannelMember) d :
  (forall ms, map_imap (fun g m => Some (at_guid g m)) (f ms) = g (map_imap (fun g m => Some (at_guid g m)) ms)) ->
  forall r' i', mysql_members (set_db_members (upd_rows r i f (db_members d)) d) r' i' =
    upd_members r i g (mysql_members d) r' i'.
Proof.
  intros Hf r' i'. unfold mysql_members, upd_members; simpl. rewrite rows_upd.
  case_bool_decide as E; [by rewrite Hf|done].
Qed.

Lemma imap_insert (k : u64) v ms :
  map_imap (fun g m => Some (at_guid g m)) (<[k := v]> ms) =
  <[k := at_guid k v]> (map_imap (fun g m => Some (at_guid g m)) ms).
Proof. by rewrite map_imap_insert. Qed.
Lemma imap_delete (k : u64) ms :
  map_imap (fun g m => Some (at_guid g m)) (delete k ms) = delete k (map_imap (fun g m => Some (at_guid g m)) ms).
Proof. apply map_imap_delete. Qed.
Lemma imap_alter (k : u64) fl ms :
  map_imap (fun g m => Some (at_guid g m)) (alter (set_m_Flags fl) k ms) =
  alter (set_m_Flags fl) k (map_imap (fun g m => Some (at_guid g m)) ms).
Proof.
  apply map_eq. intros g. rewrite map_lookup_imap. destruct (decide (g = k)) as [->|Hne].
  - rewrite !lookup_alter_eq, map_lookup_imap. by destruct (ms !! k).
  - rewrite !lookup_alter_ne, map_lookup_imap by done. done.
Qed.
Lemma imap_list (ms : gmap u64 ChannelMember) :
  map_to_list (map_imap (fun g m => Some (at_guid g m)) ms) ≡ₚ (fun e => (e.1, at_guid e.1 e.2)) <$> map_to_list ms.
Proof.
  induction ms as [|k v ms Hk IH] using map_ind; [by rewrite map_imap_empty, !map_to_list_empty|].
  rewrite imap_insert, (map_to_list_insert ms) by done. rewrite map_to_list_insert.
  - by rewrite IH.
  - by rewrite map_lookup_imap, Hk.
Qed.

Lemma ChannelsMYSQL_laws : MembersLaws (ChannelsMYSQL same_name) mysql_members.
Proof.
  constructor.
  - intros r i m. eexists. split; [apply sql_writes|]. intros d. apply mysql_members_upd. intros ms.
    rewrite imap_insert. f_equal. by destruct m.
  - intros r i g. eexists. split; [apply sql_writes|]. intros d. apply mysql_members_upd. apply imap_delete.
  - intros r i g fl. eexists. split; [apply sql_writes|]. intros d. apply mysql_members_upd. apply imap_alter.
  - intros r c. eexists. split; [apply sql_writes|]. done.
  - intros r i t. eexists. split; [apply sql_writes|]. done.
  - intros r i. apply healthy_bind; [apply healthy_ext|intros; apply healthy_gets].
  - intros r i s o s' Hrun. cbn in Hrun. unfold mysql_LoadChannelMembers, query, mbind, go_bind, ext in Hrun.
    assert (Hl : forall d l, l = (fun e : u64 * ChannelMember => {| PlayerGUID := e.1; PlayerName := PlayerName e.2; m_Flags := m_Flags e.2 |})
                          <$> go_range 15 (rows (db_members d) r i) ->
              (fun m => (PlayerGUID m, m)) <$> l ≡ₚ map_to_list (mysql_members d r i)).
    { intros d l ->. unfold mysql_members. rewrite imap_list, <- list_fmap_compose. by rewrite go_range_perm. }
    destruct (faults s) as [|[] fs]; unfold gets in Hrun; injection Hrun as <- <-; (split; [done|]);
      intros l [= <-]; by apply Hl.
Qed.
End Laws.
