(* ===== verification/Channels.v ===== *)
(** * Channels: an active chat channel
    (apps/chatserver/service/channel-manager.go, the methods of ActiveChannel)

    A method runs with the channel's lock held: it sees the channel, the
    repository and the clock.  Member records are reachable only through the
    channel's map, so the map holds values. *)
From S2P Require Import Prelude GoRuntime GoStrings ChannelsRepo.

Definition MemberFlagNone : u8 := 0x00.
Definition MemberFlagOwner : u8 := 0x01.
Definition MemberFlagModerator : u8 := 0x02.
Definition MemberFlagVoiced : u8 := 0x04.
Definition MemberFlagMuted : u8 := 0x08.
Definition MemberFlagCustom : u8 := 0x10.
Definition MemberFlagMicMuted : u8 := 0x20.

Definition ChannelFlagNone : u8 := 0x00.
Definition ChannelFlagCustom : u8 := 0x01.
Definition ChannelFlagTrade : u8 := 0x04.
Definition ChannelFlagNotLFG : u8 := 0x08.
Definition ChannelFlagGeneral : u8 := 0x10.
Definition ChannelFlagCity : u8 := 0x20.
Definition ChannelFlagLFG : u8 := 0x40.
Definition ChannelFlagVoice : u8 := 0x80.
Definition ChannelRightCantSpeak : u32 := 0x008.

(** pb.TeamID is an int32. *)
Definition TeamID_of (x : u32) : Z := if x <? 2 ^ 31 then x else x - 2 ^ 32.

Record ActiveChannel := {
  ac_channelID : u32; ac_name : string; ac_team : Z; ac_password : string; ac_announce : bool; ac_ownership : bool;
  ac_moderation : bool; ac_flags : u8; ac_ownerGUID : u64; ac_rights : option ChannelRights;
  members : gmap u64 ChannelMember; bannedUntil : gmap u64 Z
}.
Definition ac_set_members (ms : gmap u64 ChannelMember) (owner : u64) (c : ActiveChannel) : ActiveChannel :=
  {| ac_channelID := ac_channelID c; ac_name := ac_name c; ac_team := ac_team c; ac_password := ac_password c;
     ac_announce := ac_announce c; ac_ownership := ac_ownership c; ac_moderation := ac_moderation c;
     ac_flags := ac_flags c; ac_ownerGUID := owner; ac_rights := ac_rights c; members := ms;
     bannedUntil := bannedUntil c |}.
Definition ac_set_bans (bans : gmap u64 Z) (c : ActiveChannel) : ActiveChannel :=
  {| ac_channelID := ac_channelID c; ac_name := ac_name c; ac_team := ac_team c; ac_password := ac_password c;
     ac_announce := ac_announce c; ac_ownership := ac_ownership c; ac_moderation := ac_moderation c;
     ac_flags := ac_flags c; ac_ownerGUID := ac_ownerGUID c; ac_rights := ac_rights c; members := members c;
     bannedUntil := bans |}.
Definition ac_set_modes (password : string) (announce moderation : bool) (c : ActiveChannel) : ActiveChannel :=
  {| ac_channelID := ac_channelID c; ac_name := ac_name c; ac_team := ac_team c; ac_password := password;
     ac_announce := announce; ac_ownership := ac_ownership c; ac_moderation := moderation; ac_flags := ac_flags c;
     ac_ownerGUID := ac_ownerGUID c; ac_rights := ac_rights c; members := members c; bannedUntil := bannedUntil c |}.

(** [m.Flags & bit != 0] *)
Definition has (bit : u8) (m : ChannelMember) : bool := negb (Z.land (m_Flags m) bit =? 0).
(** [m.Flags |= bit] and [m.Flags &= ^bit] *)
Definition set_bit (bit : u8) (m : ChannelMember) : ChannelMember := set_m_Flags (Z.lor (m_Flags m) bit) m.
Definition clear_bit (bit : u8) (m : ChannelMember) : ChannelMember := set_m_Flags (Z.land (m_Flags m) (255 - bit)) m.

(** ** Reading methods *)
Definition IsMember (c : ActiveChannel) (g : u64) : bool := bool_decide (is_Some (members c !! g)).
Definition GetMemberFlags (c : ActiveChannel) (g : u64) : u8 :=
  match members c !! g with Some m => m_Flags m | None => MemberFlagNone end.
Definition GetNumMembers (c : ActiveChannel) : int := Z.of_nat (size (members c)).

Definition CanSpeak (c : ActiveChannel) (g : u64) : bool :=
  match members c !! g with
  | None => false
  | Some m =>
    if has MemberFlagMuted m then false
    else if ac_moderation c && (Z.land (m_Flags m) (Z.lor (Z.lor MemberFlagVoiced MemberFlagModerator) MemberFlagOwner) =? 0) then false
    else match ac_rights c with
         | Some r => Z.land (r_Flags r) ChannelRightCantSpeak =? 0
         | None => true
         end
  end.

Record conn (D : Type) := Conn { chan : ActiveChannel; repo : D; clock : Z }.
Arguments Conn {D}. Arguments chan {D}. Arguments repo {D}. Arguments clock {D}.

Section Methods.
Context `{MapRange} {D : Type} (R : ChannelsRepo D).
Abbreviation M A := (go (conn D) chat_event chat_err A).

Definition in_repo {A} (m : go D chat_event chat_err A) : M A :=
  zoom repo (fun d c => Conn (chan c) d (clock c)) m.
Definition on_chan (f : ActiveChannel -> ActiveChannel) : M unit :=
  modify (fun c => Conn (f (chan c)) (repo c) (clock c)).
Definition set_members (f : gmap u64 ChannelMember -> gmap u64 ChannelMember) : M unit :=
  on_chan (fun c => ac_set_members (f (members c)) (ac_ownerGUID c) c).
Definition set_owner (g : u64) : M unit := on_chan (fun c => ac_set_members (members c) g c).
(** [if err := call; err != nil { undo; return fmt.Errorf("...: %w", err) }] *)
Definition or_undo (call undo : M unit) : M unit := fun s =>
  match call s with
  | (Fail e, s') => (undo ;; fail (ErrChatWrap e)) s'
  | r => r
  end.

Definition GetMembers (c : ActiveChannel) : list ChannelMember := (go_range 16 (members c)).*2.
(** 0 when nobody has the name. *)
Definition FindMemberByName (c : ActiveChannel) (name : string) : u64 :=
  match head (filter (fun m => String.eqb (PlayerName m) name = true) (go_range 17 (members c)).*2) with
  | Some m => PlayerGUID m
  | None => 0
  end.

(** ** Joining and leaving *)
Definition is_moderator_by_right (c : ActiveChannel) (g : u64) : bool :=
  match ac_rights c with Some r => existsb (fun guid => guid =? g) (Moderators r) | None => false end.

(** The owner is set before the member is stored and stays when that fails. *)
Definition JoinChannel (realmID : u32) (playerGUID : u64) (playerName password : string) : M unit :=
  c ← gets chan; now ← gets clock;
  guard_err (match bannedUntil c !! playerGUID with Some t => now <? t | None => false end) ErrPlayerBanned ;;
  guard_err (negb (String.eqb (ac_password c) "") && negb (String.eqb (ac_password c) password)) ErrWrongPassword ;;
  if IsMember c playerGUID then mret tt
  else
    let first := (size (members c) =? 0)%nat && ac_ownership c in
    (if first then set_owner playerGUID else mret tt) ;;
    let flags := if first then MemberFlagOwner else MemberFlagNone in
    let flags := if is_moderator_by_right c playerGUID then Z.lor flags MemberFlagModerator else flags in
    let member := {| PlayerGUID := playerGUID; PlayerName := playerName; m_Flags := flags |} in
    set_members <[playerGUID := member]> ;;
    or_undo (in_repo (SaveChannelMember R realmID (ac_channelID c) member)) (set_members (delete playerGUID)).

(** The first moderator the loop meets, or else the first member; 0 for none. *)
Definition next_owner (n : nat) (ms : gmap u64 ChannelMember) : u64 :=
  let moderator := match head (filter (fun e => has MemberFlagModerator e.2 = true) (go_range n ms)) with
                   | Some e => e.1
                   | None => 0
                   end in
  if moderator =? 0 then match head (go_range (S n) ms) with Some e => e.1 | None => 0 end else moderator.
(** The new owner's flag is written; a failure is only logged. *)
Definition give_ownership (realmID : u32) (g : u64) : M unit :=
  set_members (alter (set_bit MemberFlagOwner) g) ;;
  set_owner g ;;
  c ← gets chan;
  log_err (in_repo (UpdateMemberFlags R realmID (ac_channelID c) g (GetMemberFlags c g))).

Definition LeaveChannel (realmID : u32) (playerGUID : u64) : M u64 :=
  c ← gets chan;
  member ← not_nil ErrNotMember (members c !! playerGUID);
  set_members (delete playerGUID) ;;
  or_undo (in_repo (RemoveChannelMember R realmID (ac_channelID c) playerGUID)) (set_members <[playerGUID := member]>) ;;
  c ← gets chan;
  if has MemberFlagOwner member && (0 <? size (members c))%nat && ac_ownership c then
    let newOwnerGUID := next_owner 18 (members c) in
    (if negb (newOwnerGUID =? 0) then give_ownership realmID newOwnerGUID else mret tt) ;;
    mret newOwnerGUID
  else mret 0.

(** ** Modes *)
Definition SetFlag (bit : u8) (realmID : u32) (playerGUID : u64) (on : bool) : M unit :=
  c ← gets chan;
  member ← not_nil ErrNotMember (members c !! playerGUID);
  let member' := if on then set_bit bit member else clear_bit bit member in
  set_members <[playerGUID := member']> ;;
  or_undo (in_repo (UpdateMemberFlags R realmID (ac_channelID c) playerGUID (m_Flags member')))
          (set_members <[playerGUID := member]>).
Definition SetModerator : u32 -> u64 -> bool -> M unit := SetFlag MemberFlagModerator.
Definition SetMute : u32 -> u64 -> bool -> M unit := SetFlag MemberFlagMuted.

Definition to_db_channel (c : ActiveChannel) (now : Z) : Channel :=
  {| c_ChannelID := ac_channelID c; c_Name := ac_name c; c_Team := wrap32 (ac_team c); c_Announce := ac_announce c;
     c_Ownership := ac_ownership c; c_Password := ac_password c; c_LastUsed := now |}.
Definition store_channel (realmID : u32) : M unit :=
  c ← gets chan; now ← gets clock; in_repo (UpdateChannel R realmID (to_db_channel c now)).
Definition SetPassword (realmID : u32) (password : string) : M unit :=
  on_chan (fun c => ac_set_modes password (ac_announce c) (ac_moderation c) c) ;; store_channel realmID.
Definition PersistToggleAnnouncements (realmID : u32) : M unit := store_channel realmID.
Definition ToggleModeration : M bool :=
  on_chan (fun c => ac_set_modes (ac_password c) (ac_announce c) (negb (ac_moderation c)) c) ;; c ← gets chan; mret (ac_moderation c).
Definition ToggleAnnouncements : M bool :=
  on_chan (fun c => ac_set_modes (ac_password c) (negb (ac_announce c)) (ac_moderation c) c) ;; c ← gets chan; mret (ac_announce c).

(** The old owner's record, when there is one; the flag goes first. *)
Definition drop_owner (realmID : u32) : M (option ChannelMember) :=
  c ← gets chan;
  if ac_ownerGUID c =? 0 then mret None
  else match members c !! ac_ownerGUID c with
       | None => mret None
       | Some oldOwner =>
         set_members <[ac_ownerGUID c := clear_bit MemberFlagOwner oldOwner]> ;;
         or_undo (in_repo (UpdateMemberFlags R realmID (ac_channelID c) (ac_ownerGUID c)
                             (m_Flags (clear_bit MemberFlagOwner oldOwner))))
                 (set_members <[ac_ownerGUID c := oldOwner]>) ;;
         mret (Some oldOwner)
       end.
Definition SetOwner (realmID : u32) (newOwnerGUID : u64) : M unit :=
  c ← gets chan;
  not_nil ErrPlayerNotFound (members c !! newOwnerGUID) ;;
  oldOwner ← drop_owner realmID;
  c' ← gets chan;
  newOwner ← deref (members c' !! newOwnerGUID);
  set_members <[newOwnerGUID := set_bit MemberFlagOwner newOwner]> ;;
  or_undo (in_repo (UpdateMemberFlags R realmID (ac_channelID c) newOwnerGUID (m_Flags (set_bit MemberFlagOwner newOwner))))
          (set_members <[newOwnerGUID := newOwner]> ;;
           match oldOwner with
           | Some o => set_members (alter (set_m_Flags (m_Flags o)) (ac_ownerGUID c))
           | None => mret tt
           end) ;;
  set_owner newOwnerGUID.

(** ** Offline players *)
Definition others (playerGUID : u64) (n : nat) (ms : gmap u64 ChannelMember) : list (u64 * ChannelMember) :=
  filter (fun e => negb (e.1 =? playerGUID) = true) (go_range n ms).
Definition next_owner_but (playerGUID : u64) (ms : gmap u64 ChannelMember) : u64 :=
  let moderator := match head (filter (fun e => has MemberFlagModerator e.2 = true) (others playerGUID 20 ms)) with
                   | Some e => e.1
                   | None => 0
                   end in
  if moderator =? 0 then match head (others playerGUID 21 ms) with Some e => e.1 | None => 0 end else moderator.
(** One channel of TransferOwnershipOnLogout: the new owner, if any. *)
Definition transfer_on_logout (realmID : u32) (playerGUID : u64) : M (option u64) :=
  c ← gets chan;
  match members c !! playerGUID with
  | None => mret None
  | Some member =>
    if negb (has MemberFlagOwner member) || negb (ac_ownership c) then mret None
    else
      let newOwnerGUID := next_owner_but playerGUID (members c) in
      if newOwnerGUID =? 0 then mret None
      else
        set_members <[playerGUID := clear_bit MemberFlagOwner member]> ;;
        log_err (in_repo (UpdateMemberFlags R realmID (ac_channelID c) playerGUID (m_Flags (clear_bit MemberFlagOwner member)))) ;;
        give_ownership realmID newOwnerGUID ;;
        mret (Some newOwnerGUID)
  end.

Fixpoint remove_offline (realmID channelID : u32) (offline : list u64) : M unit :=
  match offline with
  | [] => mret tt
  | g :: offline =>
    set_members (delete g) ;;
    log_err (in_repo (RemoveChannelMember R realmID channelID g)) ;;
    remove_offline realmID channelID offline
  end.
Definition PruneOfflineMembers (realmID : u32) (online : gset u64) : M unit :=
  c ← gets chan;
  remove_offline realmID (ac_channelID c)
    (filter (fun g => bool_decide (g ∈ online) = false) (go_range 22 (members c)).*1) ;;
  if negb (ac_ownerGUID c =? 0) && negb (bool_decide (ac_ownerGUID c ∈ online)) then
    set_owner 0 ;;
    c ← gets chan;
    if (0 <? size (members c))%nat && ac_ownership c then
      let newOwnerGUID := next_owner 23 (members c) in
      if negb (newOwnerGUID =? 0) then give_ownership realmID newOwnerGUID else mret tt
    else mret tt
  else mret tt.
End Methods.
