(* ===== verification/ChannelFacts.v ===== *)
(** * ChannelFacts: ownership, write-through and rollback of a channel *)
From S2P Require Import Prelude GoRuntime GoStrings ChannelsRepo Channels.

(** ** Bits *)
Lemma has_owner_bit m : has MemberFlagOwner m = Z.testbit (m_Flags m) 0.
Proof.
  unfold has, MemberFlagOwner. change 1 with (Z.ones 1) at 1. rewrite Z.land_ones by lia. change (2 ^ 1) with 2.
  rewrite Z.bit0_odd, Zmod_odd. by destruct (Z.odd _).
Qed.
Lemma has_set_owner m : has MemberFlagOwner (set_bit MemberFlagOwner m) = true.
Proof. rewrite has_owner_bit. unfold set_bit. cbn [m_Flags set_m_Flags]. rewrite Z.lor_spec. apply orb_true_r. Qed.
Lemma has_clear_owner m : has MemberFlagOwner (clear_bit MemberFlagOwner m) = false.
Proof. rewrite has_owner_bit. unfold clear_bit. cbn [m_Flags set_m_Flags]. rewrite Z.land_spec. apply andb_false_r. Qed.
Lemma has_owner_flags m m' : m_Flags m = m_Flags m' -> has MemberFlagOwner m = has MemberFlagOwner m'.
Proof. unfold has. by intros ->. Qed.
(** The other flags leave the owner's alone. *)
Lemma has_owner_other bit (on : bool) m : Z.testbit bit 0 = false -> Z.testbit (255 - bit) 0 = true ->
  has MemberFlagOwner (if on then set_bit bit m else clear_bit bit m) = has MemberFlagOwner m.
Proof.
  intros H0 H1. rewrite !has_owner_bit. destruct on; unfold set_bit, clear_bit; cbn [m_Flags set_m_Flags]; [rewrite Z.lor_spec, H0|rewrite Z.land_spec, H1].
  - apply orb_false_r.
  - apply andb_true_r.
Qed.

Lemma alter_insert_eq (f : ChannelMember -> ChannelMember) (g : u64) (m : ChannelMember) (ms : gmap u64 ChannelMember) :
  ms !! g = Some m -> alter f g ms = <[g := f m]> ms.
Proof.
  intros Hg. apply map_eq. intros k. destruct (decide (k = g)) as [->|Hne].
  - by rewrite lookup_alter_eq, lookup_insert_eq, Hg.
  - by rewrite lookup_alter_ne, lookup_insert_ne.
Qed.

(** Giving a member its flags back. *)
Lemma alter_flags_back (g : u64) (o m : ChannelMember) (ms : gmap u64 ChannelMember) :
  PlayerGUID m = PlayerGUID o -> PlayerName m = PlayerName o -> ms !! g = Some o ->
  alter (set_m_Flags (m_Flags o)) g (<[g := m]> ms) = ms.
Proof.
  intros H1 H2 Hg. rewrite (alter_insert_eq _ _ m) by apply lookup_insert_eq. rewrite insert_insert_eq.
  apply insert_id. rewrite Hg. destruct o, m. simpl in *. by subst.
Qed.

Section Facts.
Context `{MapRange} {D : Type} (R : ChannelsRepo D) (members_of : D -> member_table).
Hypothesis HR : MembersLaws R members_of.
Abbreviation M A := (go (conn D) chat_event chat_err A).
Implicit Types (s : sys (conn D) chat_event) (c : ActiveChannel).

(** ** Calls of the repository *)

(** [s] after a call that wrote [f]. *)
Definition wrote (f : D -> D) (fs : list bool) s : sys (conn D) chat_event :=
  Sys (Conn (chan (st s)) (f (repo (st s))) (clock (st s))) fs (events s).
Definition missed (fs : list bool) s : sys (conn D) chat_event := Sys (st s) fs (events s).

Lemma in_repo_writes m f s : writes m f ->
  in_repo m s =
  match faults s with
  | true :: fs => (Fail ErrChatDB, missed fs s)
  | false :: fs => (Ok tt, wrote f fs s)
  | [] => (Ok tt, wrote f [] s)
  end.
Proof.
  intros Hm. unfold in_repo, zoom. rewrite Hm. unfold mbind, go_bind, ext, modify, wrote, missed. simpl.
  destruct s as [[c d t] [|[] fs] ev]; reflexivity.
Qed.
Lemma or_undo_cases m f (undo : M unit) s : writes m f ->
  (exists fs, (faults s = [] -> fs = []) /\ or_undo (in_repo m) undo s = (Ok tt, wrote f fs s)) \/
  (exists fs, faults s = true :: fs /\ or_undo (in_repo m) undo s = (undo ;; fail (ErrChatWrap ErrChatDB)) (missed fs s)).
Proof.
  intros Hm. unfold or_undo. rewrite (in_repo_writes _ _ _ Hm). destruct (faults s) as [|[] fs] eqn:E.
  - left. by exists [].
  - right. by exists fs.
  - left. by exists fs.
Qed.
Lemma log_err_cases m f s : writes m f ->
  (exists fs, (faults s = [] -> fs = []) /\ log_err (in_repo m) s = (Ok tt, wrote f fs s)) \/
  (exists fs, faults s = true :: fs /\ log_err (in_repo m) s = (Ok tt, missed fs s)).
Proof.
  intros Hm. unfold log_err. rewrite (in_repo_writes _ _ _ Hm). destruct (faults s) as [|[] fs] eqn:E.
  - left. by exists [].
  - right. by exists fs.
  - left. by exists fs.
Qed.

(** ** The invariant of a channel *)
Record owned (c : ActiveChannel) : Prop := {
  ow_unique : forall g m, members c !! g = Some m -> has MemberFlagOwner m = true -> g = ac_ownerGUID c;
  ow_exists : ac_ownership c = true -> members c <> ∅ ->
    exists m, members c !! ac_ownerGUID c = Some m /\ has MemberFlagOwner m = true;
  ow_nonzero : members c !! 0 = None
}.
(** The repository stores the members the channel has in memory. *)
Definition mirrored (r : u32) (k : conn D) : Prop :=
  members_of (repo k) r (ac_channelID (chan k)) = members (chan k) /\
  forall g m, members (chan k) !! g = Some m -> PlayerGUID m = g.

(** *** Choosing an owner *)
Lemma head_filter_elem {A} (P : A -> Prop) `{forall x, Decision (P x)} l x :
  head (filter P l) = Some x -> x ∈ l /\ P x.
Proof.
  intros Hx. assert (x ∈ filter P l) as Hin; [|apply list_elem_of_filter in Hin; tauto].
  destruct (filter P l); simplify_eq/=. left.
Qed.
Lemma next_owner_spec n ms : ms !! 0 = None ->
  next_owner n ms = 0 /\ ms = ∅ \/ is_Some (ms !! next_owner n ms) /\ next_owner n ms <> 0.
Proof.
  intros H0. unfold next_owner.
  set (md := match head _ with Some e => e.1 | None => 0 end).
  assert (Hmd : md = 0 \/ is_Some (ms !! md)).
  { unfold md. destruct (head _) as [[g m]|] eqn:E; [right|by left].
    apply head_filter_elem in E as [E%elem_of_go_range _]. simpl. by exists m. }
  destruct (Z.eqb_spec md 0) as [E|Hne]; [|right; split; [by destruct Hmd|done]].
  destruct (go_range (S n) ms) as [|[g m] l] eqn:El; simpl.
  - left. split; [done|]. by apply (go_range_nil (S n)).
  - assert (ms !! g = Some m) as Hg by (apply (elem_of_go_range (S n)); rewrite El; left).
    right. split; [by exists m|]. intros ->. congruence.
Qed.
Lemma next_owner_but_spec g ms : ms !! 0 = None ->
  next_owner_but g ms = 0 \/ is_Some (ms !! next_owner_but g ms) /\ next_owner_but g ms <> 0 /\ next_owner_but g ms <> g.
Proof.
  intros H0. unfold next_owner_but.
  assert (Hoth : forall n e, e ∈ others g n ms -> ms !! e.1 = Some e.2 /\ e.1 <> g).
  { intros n [k m]. unfold others. rewrite list_elem_of_filter, elem_of_go_range, negb_true_iff, Z.eqb_neq. tauto. }
  set (md := match head _ with Some e => e.1 | None => 0 end).
  assert (Hmd : md = 0 \/ is_Some (ms !! md) /\ md <> g).
  { unfold md. destruct (head _) as [e|] eqn:E; [right|by left].
    apply head_filter_elem in E as [E _]. destruct (Hoth _ _ E) as [-> Hne]. split; [by eexists|done]. }
  destruct (Z.eqb_spec md 0) as [E|Hne]; [|right; tauto].
  destruct (others g 21 ms) as [|e l] eqn:El; simpl; [by left|]. right.
  destruct (Hoth 21%nat e) as [He Hne]; [rewrite El; left|]. split; [by eexists|]. split; [|done]. intros E0. congruence.
Qed.

(** *** Effects of the writes on the invariants *)
Definition nobody_owns (ms : gmap u64 ChannelMember) : Prop :=
  forall g m, ms !! g = Some m -> has MemberFlagOwner m = false.

Lemma owned_given c g : nobody_owns (members c) -> members c !! 0 = None -> is_Some (members c !! g) ->
  owned (ac_set_members (alter (set_bit MemberFlagOwner) g (members c)) g c).
Proof.
  intros Hn H0 [m Hg]. assert (Hg0 : g <> 0) by (intros ->; congruence). constructor; simpl.
  - intros k m'. destruct (decide (k = g)) as [->|Hne]; [done|]. rewrite lookup_alter_ne by done.
    intros Hk Ho. by rewrite (Hn _ _ Hk) in Ho.
  - intros _ _. exists (set_bit MemberFlagOwner m). by rewrite lookup_alter_eq, Hg, has_set_owner.
  - by rewrite lookup_alter_ne.
Qed.

Lemma mirrored_set r k f u o ms' :
  (forall d r' i', members_of (f d) r' i' = upd_members r (ac_channelID (chan k)) u (members_of d) r' i') ->
  mirrored r k -> u (members (chan k)) = ms' -> (forall g m, ms' !! g = Some m -> PlayerGUID m = g) ->
  mirrored r (Conn (ac_set_members ms' o (chan k)) (f (repo k)) (clock k)).
Proof.
  intros Hf [Hm _] Hu Hk. split; [|done]. simpl. rewrite Hf. unfold upd_members.
  rewrite bool_decide_eq_true_2 by done. by rewrite Hm.
Qed.

Lemma keyed_insert (ms : gmap u64 ChannelMember) g m :
  (forall k m', ms !! k = Some m' -> PlayerGUID m' = k) -> PlayerGUID m = g ->
  forall k m', <[g := m]> ms !! k = Some m' -> PlayerGUID m' = k.
Proof. intros Hms Hg k m' [[<- <-]|[_ Hk]]%lookup_insert_Some; [done|by apply Hms]. Qed.
Lemma keyed_delete (ms : gmap u64 ChannelMember) g :
  (forall k m', ms !! k = Some m' -> PlayerGUID m' = k) ->
  forall k m', delete g ms !! k = Some m' -> PlayerGUID m' = k.
Proof. intros Hms k m' [_ Hk]%lookup_delete_Some. by apply Hms. Qed.

(** The ownership goes to a member while nobody has it. *)
Lemma give_ownership_run r g m s : members (chan (st s)) !! g = Some m ->
  exists d fs, give_ownership R r g s =
    (Ok tt, Sys (Conn (ac_set_members (<[g := set_bit MemberFlagOwner m]> (members (chan (st s)))) g (chan (st s))) d (clock (st s)))
               fs (events s)) /\
    (faults s = [] -> fs = [] /\ (mirrored r (st s) ->
       mirrored r (Conn (ac_set_members (<[g := set_bit MemberFlagOwner m]> (members (chan (st s)))) g (chan (st s))) d (clock (st s))))).
Proof.
  intros Hg. unfold give_ownership, set_members, set_owner, on_chan. do 2 erewrite bind_run by reflexivity.
  erewrite bind_run by reflexivity. cbn [chan st ac_set_members ac_channelID].
  match goal with |- context [log_err (in_repo (UpdateMemberFlags R ?r ?i ?g ?fl)) ?s1] =>
    destruct (law_flags _ _ HR r i g fl) as (f & Hw & Hf); destruct (log_err_cases _ f s1 Hw) as [(fs & Hfs & ->)|(fs & Hfs & ->)] end.
  - exists (f (repo (st s))), fs. unfold wrote; simpl. rewrite (alter_insert_eq _ _ _ _ Hg). split; [done|]. intros E.
    split; [by apply Hfs|]. intros Hm. eapply mirrored_set; [exact Hf|done| |].
    + unfold GetMemberFlags; simpl. rewrite !(alter_insert_eq _ _ _ _ Hg), lookup_insert_eq. reflexivity.
    + apply keyed_insert; [apply Hm|]. exact (proj2 Hm _ _ Hg).
  - exists (repo (st s)), fs. unfold missed; simpl. rewrite (alter_insert_eq _ _ _ _ Hg). split; [done|]. intros E.
    simpl in Hfs. congruence.
Qed.

(** ** Every method *)
Inductive ch_op :=
| OpJoin (playerGUID : u64) (playerName password : string)
| OpLeave (playerGUID : u64)
| OpModerator (playerGUID : u64) (on : bool)
| OpMute (playerGUID : u64) (on : bool)
| OpOwner (newOwnerGUID : u64)
| OpPassword (password : string)
| OpToggleModeration
| OpToggleAnnouncements
| OpLogout (playerGUID : u64)
| OpPrune (online : gset u64)
| OpBan (playerGUID : u64) (banTime : Z)
| OpUnban (playerGUID : u64).
Definition run_op (r : u32) (op : ch_op) : M unit :=
  match op with
  | OpJoin g name password => JoinChannel R r g name password
  | OpLeave g => LeaveChannel R r g ;; mret tt
  | OpModerator g on => SetModerator R r g on
  | OpMute g on => SetMute R r g on
  | OpOwner g => SetOwner R r g
  | OpPassword password => SetPassword R r password
  | OpToggleModeration => ToggleModeration ;; mret tt
  | OpToggleAnnouncements => ToggleAnnouncements ;; PersistToggleAnnouncements R r
  | OpLogout g => transfer_on_logout R r g ;; mret tt
  | OpPrune online => PruneOfflineMembers R r online
  | OpBan g t => on_chan (fun c => ac_set_bans (<[g := t]> (bannedUntil c)) c)
  | OpUnban g => on_chan (fun c => ac_set_bans (delete g (bannedUntil c)) c)
  end.
(** Players have guids other than 0. *)
Definition op_ok (op : ch_op) : Prop := match op with OpJoin g _ _ => g <> 0 | _ => True end.

(** What is shown of each method, whatever calls fail. *)
Definition good (r : u32) s (s' : sys (conn D) chat_event) : Prop :=
  owned (chan (st s)) ->
  owned (chan (st s')) /\ (faults s = [] -> faults s' = [] /\ (mirrored r (st s) -> mirrored r (st s'))).
Lemma good_refl r s : good r s s.
Proof. by intros. Qed.
(** Changes that leave the members and the owner alone. *)
Lemma good_same r s s' :
  members (chan (st s')) = members (chan (st s)) -> ac_ownerGUID (chan (st s')) = ac_ownerGUID (chan (st s)) ->
  ac_ownership (chan (st s')) = ac_ownership (chan (st s)) -> (faults s = [] -> faults s' = []) ->
  (faults s = [] -> mirrored r (st s) -> mirrored r (st s')) -> good r s s'.
Proof.
  intros Hm Ho Hw Hf Hmir [Hu He H0]. split; [|by intros; split; [apply Hf|apply Hmir]].
  constructor; rewrite ?Hm, ?Ho, ?Hw; done.
Qed.

Lemma Join_good r g name password s : g <> 0 -> good r s (JoinChannel R r g name password s).2.
Proof.
  intros Hg0. unfold JoinChannel. do 2 erewrite bind_run by reflexivity.
  destruct (match bannedUntil (chan (st s)) !! g with Some t => _ | None => _ end); [apply good_refl|].
  erewrite bind_run by reflexivity. destruct (negb _ && negb _); [apply good_refl|]. erewrite bind_run by reflexivity.
  unfold IsMember. case_bool_decide as Hm; [apply good_refl|]. apply eq_None_not_Some in Hm.
  set (first := (size (members (chan (st s))) =? 0)%nat && ac_ownership (chan (st s))).
  set (o := if first then g else ac_ownerGUID (chan (st s))).
  rewrite (bind_run _ _ _ tt (Sys (Conn (ac_set_members (members (chan (st s))) o (chan (st s))) (repo (st s)) (clock (st s)))
    (faults s) (events s))).
  2:{ unfold o. destruct first; [done|]. by destruct s as [[[] ? ?] ? ?]. }
  set (fl := if is_moderator_by_right _ _ then _ else _).
  assert (Hfl : Z.testbit fl 0 = first).
  { unfold fl. destruct (is_moderator_by_right _ _); [rewrite Z.lor_spec|]; by destruct first. }
  set (m := {| PlayerGUID := g; PlayerName := name; m_Flags := fl |}).
  unfold set_members at 1, on_chan. erewrite bind_run by reflexivity. cbn [chan st repo clock members ac_set_members ac_ownerGUID].
  destruct (law_save _ _ HR r (ac_channelID (chan (st s))) m) as (f & Hw & Hf).
  match goal with |- context [or_undo (in_repo ?call) ?undo ?s1] =>
    destruct (or_undo_cases call f undo s1 Hw) as [(fs & Hfs & ->)|(fs & Hfs & ->)] end; cbn in Hfs;
    intros [Hu He H0]; split; cbn.
  - constructor; simpl.
    + intros k m' [[<- <-]|[Hne Hk]]%lookup_insert_Some Ho; unfold o.
      * rewrite has_owner_bit in Ho. cbn [m_Flags m] in Ho. rewrite Hfl in Ho. by rewrite Ho.
      * destruct first eqn:Ef; [|by eapply Hu]. apply andb_true_iff in Ef as [Ef _]. apply Nat.eqb_eq, map_size_empty_inv in Ef.
        by rewrite Ef, lookup_empty in Hk.
    + intros Hown _. unfold o. destruct first eqn:Ef.
      * exists m. rewrite lookup_insert_eq, has_owner_bit. split; [done|exact Hfl].
      * unfold first in Ef. rewrite Hown, andb_true_r in Ef. apply Nat.eqb_neq in Ef.
        destruct He as (m' & Hm' & Ho); [done|intros E; rewrite E in Ef; by rewrite map_size_empty in Ef|].
        exists m'. rewrite lookup_insert_ne; [done|]. intros ->. congruence.
    + by rewrite lookup_insert_ne.
  - intros E. split; [by apply Hfs|]. intros Hmir. eapply mirrored_set; [exact Hf|done|done|].
    apply keyed_insert; [apply Hmir|done].
  - constructor; simpl; rewrite ?delete_insert_id by done.
    + intros k m' Hk Ho. unfold o. destruct first eqn:Ef; [|by eapply Hu].
      apply andb_true_iff in Ef as [Ef _]. apply Nat.eqb_eq, map_size_empty_inv in Ef. by rewrite Ef, lookup_empty in Hk.
    + intros Hown Hne. unfold o. destruct first eqn:Ef; [|by apply He]. apply andb_true_iff in Ef as [Ef _].
      by apply Nat.eqb_eq, map_size_empty_inv in Ef.
    + done.
  - intros E. congruence.
Qed.

Lemma nobody_after_owner c g m : owned c -> members c !! g = Some m -> has MemberFlagOwner m = true ->
  nobody_owns (delete g (members c)).
Proof.
  intros [Hu _ _] Hg Ho k m' [Hne Hk]%lookup_delete_Some. destruct (has MemberFlagOwner m') eqn:E; [|done].
  by rewrite (Hu _ _ Hk E), <- (Hu _ _ Hg Ho) in Hne.
Qed.
(** Without the member, when the ownership is where it was. *)
Lemma owned_delete c g m : owned c -> members c !! g = Some m ->
  has MemberFlagOwner m = false \/ ac_ownership c = false \/ delete g (members c) = ∅ ->
  owned (ac_set_members (delete g (members c)) (ac_ownerGUID c) c).
Proof.
  intros [Hu He H0] Hg Hcase. constructor; simpl.
  - intros k m' [_ Hk]%lookup_delete_Some. by apply Hu.
  - intros Hown Hne. destruct Hcase as [Hm|[Hf|Hemp]]; [|congruence|done].
    destruct He as (m' & Hm' & Ho); [done|intros E; by rewrite E, lookup_empty in Hg|].
    exists m'. rewrite lookup_delete_ne; [done|]. intros ->. congruence.
  - rewrite lookup_delete_None. by right.
Qed.

Lemma Leave_good r g s : owned (chan (st s)) -> good r s (LeaveChannel R r g s).2.
Proof.
  intros Hc. unfold LeaveChannel. erewrite bind_run by reflexivity.
  destruct (members (chan (st s)) !! g) as [m|] eqn:Hg; [|apply good_refl]. erewrite bind_run by reflexivity.
  unfold set_members at 1, on_chan. erewrite bind_run by reflexivity. cbn [chan st repo clock].
  set (ms := delete g (members (chan (st s)))). destruct (law_remove _ _ HR r (ac_channelID (chan (st s))) g) as (f & Hw & Hf).
  match goal with |- context [or_undo (in_repo ?call) ?undo ≫= ?k] =>
    match goal with |- context [(_ ≫= _) ?s1] => destruct (or_undo_cases call f undo s1 Hw) as [(fs & Hfs & Hrun)|(fs & Hfs & Hrun)] end end.
  - cbn in Hfs. rewrite (bind_run _ _ _ _ _ Hrun). erewrite bind_run by reflexivity. unfold wrote.
    cbn [chan st repo clock faults events members ac_set_members ac_ownership].
    assert (Hmir : mirrored r (st s) -> mirrored r (Conn (ac_set_members ms (ac_ownerGUID (chan (st s))) (chan (st s)))
              (f (repo (st s))) (clock (st s)))).
    { intros Hmir. eapply mirrored_set; [exact Hf|done|done|]. apply keyed_delete, Hmir. }
    destruct (has MemberFlagOwner m && (0 <? size ms)%nat && ac_ownership (chan (st s))) eqn:Ecase.
    + apply andb_true_iff in Ecase as [[Hm Hs]%andb_true_iff Hown]. apply Nat.ltb_lt in Hs.
      assert (H0 : ms !! 0 = None) by (unfold ms; rewrite lookup_delete_None; right; apply Hc).
      destruct (next_owner_spec 18 ms H0) as [[_ Hemp]|[[m' Hm'] Hne]]; [rewrite Hemp, map_size_empty in Hs; lia|].
      destruct (Z.eqb_spec (next_owner 18 ms) 0) as [|_]; [done|]. cbn [negb].
      match goal with |- context [(give_ownership R r ?g' ≫= _) ?s1] =>
        destruct (give_ownership_run r g' m' s1 Hm') as (d & fs' & Hgive & Hd) end.
      rewrite (bind_run _ _ _ _ _ Hgive). cbn in Hd |- *. intros _. split; cbn.
      * pose proof (owned_given (ac_set_members ms (ac_ownerGUID (chan (st s))) (chan (st s))) (next_owner 18 ms)) as Hgiven.
        simpl in Hgiven. rewrite (alter_insert_eq _ _ _ _ Hm') in Hgiven. apply Hgiven; [|done|by eexists].
        by eapply nobody_after_owner.
      * intros E. destruct (Hd (Hfs E)) as [-> Hd']. split; [done|]. intros Hmr. by apply Hd', Hmir.
    + intros _. split; cbn.
      * eapply owned_delete; [done|exact Hg|]. fold ms.
        destruct (has MemberFlagOwner m); [right|by left]. destruct (ac_ownership (chan (st s))); [right|by left].
        rewrite andb_true_r in Ecase. simpl in Ecase. apply Nat.ltb_ge in Ecase. apply map_size_empty_inv. lia.
      * intros E. split; [by apply Hfs|exact Hmir].
  - unfold mbind at 1, go_bind at 1. rewrite Hrun. cbn in Hfs.
    assert (Hback : <[g := m]> ms = members (chan (st s))) by (unfold ms; by rewrite insert_delete_id).
    apply good_same; [exact Hback|reflexivity|reflexivity|intros E; congruence|intros E; congruence].
Qed.

Lemma SetFlag_good bit r g on s : Z.testbit bit 0 = false -> Z.testbit (255 - bit) 0 = true ->
  good r s (SetFlag R bit r g on s).2.
Proof.
  intros Hb0 Hb1. unfold SetFlag. erewrite bind_run by reflexivity.
  destruct (members (chan (st s)) !! g) as [m|] eqn:Hg; [|apply good_refl]. erewrite bind_run by reflexivity.
  set (m' := if on then set_bit bit m else clear_bit bit m).
  assert (Hm' : has MemberFlagOwner m' = has MemberFlagOwner m) by by apply has_owner_other.
  assert (Hm2 : m' = set_m_Flags (m_Flags m') m) by (unfold m'; by destruct on).
  unfold set_members at 1, on_chan. erewrite bind_run by reflexivity. cbn [chan st repo clock].
  destruct (law_flags _ _ HR r (ac_channelID (chan (st s))) g (m_Flags m')) as (f & Hw & Hf).
  match goal with |- context [or_undo (in_repo ?call) ?undo ?s1] =>
    destruct (or_undo_cases call f undo s1 Hw) as [(fs & Hfs & ->)|(fs & Hfs & ->)] end; cbn in Hfs.
  - intros [Hu He H0]. split; [|intros E; split; [by apply Hfs|]]; cbn.
    + constructor; simpl.
      * intros k m1 [[<- <-]|[_ Hk]]%lookup_insert_Some; [|by apply Hu]. rewrite Hm'. by apply Hu.
      * intros Hown _. destruct He as (m1 & Hm1 & Ho); [done|intros E; by rewrite E, lookup_empty in Hg|].
        destruct (decide (g = ac_ownerGUID (chan (st s)))) as [->|Hne].
        -- exists m'. rewrite lookup_insert_eq, Hm'. split; [done|]. congruence.
        -- exists m1. by rewrite lookup_insert_ne.
      * rewrite lookup_insert_ne; [done|]. intros ->. congruence.
    + intros Hmir. eapply mirrored_set; [exact Hf|done| |].
      * rewrite (alter_insert_eq _ _ _ _ Hg). by rewrite <- Hm2.
      * apply keyed_insert; [apply Hmir|]. rewrite Hm2. exact (proj2 Hmir _ _ Hg).
  - assert (Hback : <[g := m]> (<[g := m']> (members (chan (st s)))) = members (chan (st s)))
      by (by rewrite insert_insert_eq, insert_id).
    apply good_same; [exact Hback|reflexivity|reflexivity|intros E; congruence|intros E; congruence].
Qed.

(** *** SetOwner *)
Lemma nobody_cleared c o : owned c -> members c !! ac_ownerGUID c = Some o ->
  nobody_owns (<[ac_ownerGUID c := clear_bit MemberFlagOwner o]> (members c)).
Proof.
  intros [Hu _ _] Ho k m [[<- <-]|[Hne Hk]]%lookup_insert_Some; [apply has_clear_owner|].
  destruct (has MemberFlagOwner m) eqn:E; [|done]. by rewrite (Hu _ _ Hk E) in Hne.
Qed.
Lemma nobody_absent c : owned c -> members c !! ac_ownerGUID c = None -> nobody_owns (members c).
Proof.
  intros [Hu _ _] Ho k m Hk. destruct (has MemberFlagOwner m) eqn:E; [|done]. rewrite (Hu _ _ Hk E) in Hk. congruence.
Qed.

(** The run ended with the first half done: the members [ms] have no owner. *)
Definition owner_dropped (r : u32) s (out : outcome chat_err (option ChannelMember) * sys (conn D) chat_event) : Prop :=
  exists o ms d fs,
    out = (Ok o, Sys (Conn (ac_set_members ms (ac_ownerGUID (chan (st s))) (chan (st s))) d (clock (st s))) fs (events s)) /\
    nobody_owns ms /\ (forall g, is_Some (ms !! g) <-> is_Some (members (chan (st s)) !! g)) /\
    match o with
    | Some old => members (chan (st s)) !! ac_ownerGUID (chan (st s)) = Some old /\
                  ms = <[ac_ownerGUID (chan (st s)) := clear_bit MemberFlagOwner old]> (members (chan (st s)))
    | None => ms = members (chan (st s))
    end /\
    (faults s = [] -> fs = [] /\ (mirrored r (st s) ->
       mirrored r (Conn (ac_set_members ms (ac_ownerGUID (chan (st s))) (chan (st s))) d (clock (st s))))).
Lemma drop_owner_run r s : owned (chan (st s)) ->
  owner_dropped r s (drop_owner R r s) \/
  (exists e s', drop_owner R r s = (Fail e, s') /\ good r s s' /\ members (chan (st s')) = members (chan (st s))).
Proof.
  intros Hc. unfold drop_owner. erewrite bind_run by reflexivity.
  assert (Hnone : members (chan (st s)) !! ac_ownerGUID (chan (st s)) = None ->
    owner_dropped r s ((mret None : M (option ChannelMember)) s)).
  { intros Hno. exists None, (members (chan (st s))), (repo (st s)), (faults s). split_and!; try done.
    - by destruct s as [[[] ? ?] ? ?].
    - by apply nobody_absent. }
  destruct (Z.eqb_spec (ac_ownerGUID (chan (st s))) 0) as [E0|_].
  { left. apply Hnone. rewrite E0. apply Hc. }
  destruct (members (chan (st s)) !! ac_ownerGUID (chan (st s))) as [o|] eqn:Ho; [|left; by apply Hnone].
  clear Hnone. set (m' := clear_bit MemberFlagOwner o).
  unfold set_members at 1, on_chan. erewrite bind_run by reflexivity. cbn [chan st repo clock].
  destruct (law_flags _ _ HR r (ac_channelID (chan (st s))) (ac_ownerGUID (chan (st s))) (m_Flags m')) as (f & Hw & Hf).
  match goal with |- context [or_undo (in_repo ?call) ?undo ≫= ?k] =>
    match goal with |- context [(_ ≫= _) ?s1] => destruct (or_undo_cases call f undo s1 Hw) as [(fs & Hfs & Hrun)|(fs & Hfs & Hrun)] end end;
    cbn in Hfs.
  - left. rewrite (bind_run _ _ _ _ _ Hrun). exists (Some o), (<[ac_ownerGUID (chan (st s)) := m']> (members (chan (st s)))), (f (repo (st s))), fs.
    split_and!; try done.
    + by apply nobody_cleared.
    + intros k. rewrite lookup_insert_is_Some. destruct (decide (ac_ownerGUID (chan (st s)) = k)) as [<-|]; [|tauto].
      split; [by intros _; exists o|by left].
    + intros E. split; [by apply Hfs|]. intros Hmir. eapply mirrored_set; [exact Hf|done| |].
      * by rewrite (alter_insert_eq _ _ _ _ Ho).
      * apply keyed_insert; [apply Hmir|]. exact (proj2 Hmir _ _ Ho).
  - right. eexists _, _. split; [erewrite bind_run by reflexivity; apply bind_fail; exact Hrun|].
    assert (Hback : <[ac_ownerGUID (chan (st s)) := o]> (<[ac_ownerGUID (chan (st s)) := m']> (members (chan (st s)))) = members (chan (st s)))
      by (by rewrite insert_insert_eq, insert_id).
    split; [|exact Hback].
    apply good_same; [exact Hback|reflexivity|reflexivity|intros E; congruence|intros E; congruence].
Qed.

Lemma SetOwner_good r g s : owned (chan (st s)) -> good r s (SetOwner R r g s).2.
Proof.
  intros Hc. unfold SetOwner. erewrite bind_run by reflexivity.
  destruct (members (chan (st s)) !! g) as [n0|] eqn:Hg; [|apply good_refl]. erewrite bind_run by reflexivity.
  destruct (drop_owner_run r s Hc) as [(o & ms & d & fs & Hrun & Hnobody & Hdom & Ho & Hmir)|(e & s' & Hrun & Hgood & _)].
  2:{ unfold mbind at 1, go_bind at 1. by rewrite Hrun. }
  rewrite (bind_run _ _ _ _ _ Hrun). erewrite bind_run by reflexivity. cbn [chan st members ac_set_members].
  destruct (proj2 (Hdom g)) as [n Hn]; [by exists n0|]. rewrite Hn. erewrite bind_run by reflexivity.
  unfold set_members at 1, on_chan. erewrite bind_run by reflexivity. cbn [chan st repo clock faults events].
  destruct (law_flags _ _ HR r (ac_channelID (chan (st s))) g (m_Flags (set_bit MemberFlagOwner n))) as (f & Hw & Hf).
  match goal with |- context [or_undo (in_repo ?call) ?undo ≫= ?k] =>
    match goal with |- context [(_ ≫= _) ?s1] => destruct (or_undo_cases call f undo s1 Hw) as [(fs' & Hfs & Hrun')|(fs' & Hfs & Hrun')] end end;
    cbn in Hfs.
  - rewrite (bind_run _ _ _ _ _ Hrun'). intros _. split; cbn.
    + pose proof (owned_given (ac_set_members ms (ac_ownerGUID (chan (st s))) (chan (st s))) g Hnobody) as Hgiven.
      simpl in Hgiven. rewrite (alter_insert_eq _ _ _ _ Hn) in Hgiven. apply Hgiven; [|by exists n].
      apply eq_None_not_Some. rewrite Hdom. apply eq_None_not_Some, Hc.
    + intros E. destruct (Hmir E) as [-> Hmir']. split; [by apply Hfs|]. intros Hm. specialize (Hmir' Hm).
      eapply (mirrored_set r (Conn (ac_set_members ms (ac_ownerGUID (chan (st s))) (chan (st s))) d (clock (st s))));
        [exact Hf|exact Hmir'| |].
      * simpl. by rewrite (alter_insert_eq _ _ _ _ Hn).
      * apply keyed_insert; [apply Hmir'|]. exact (proj2 Hmir' _ _ Hn).
  - unfold mbind at 1, go_bind at 1. rewrite Hrun'.
    assert (Hback : <[g := n]> (<[g := set_bit MemberFlagOwner n]> ms) = ms) by (by rewrite insert_insert_eq, insert_id).
    assert (Hnofs : faults s <> []) by (intros E; destruct (Hmir E) as [-> _]; done).
    destruct o as [old|].
    + destruct Ho as [Hold ->]. unfold set_members at 1, on_chan. apply good_same; cbn; [|done..].
      change (alter (set_m_Flags (m_Flags old)) (ac_ownerGUID (chan (st s)))
        (<[g := n]> (<[g := set_bit MemberFlagOwner n]> (<[ac_ownerGUID (chan (st s)) := clear_bit MemberFlagOwner old]> (members (chan (st s))))))
        = members (chan (st s))).
      rewrite Hback. rewrite (alter_insert_eq _ _ (clear_bit MemberFlagOwner old)) by apply lookup_insert_eq.
      rewrite insert_insert_eq. apply insert_id. rewrite Hold. by destruct old.
    + subst ms. apply good_same; [exact Hback|done..].
Qed.

(** *** Logging out *)
Lemma owned_same_members c c' : owned c -> members c' = members c -> ac_ownerGUID c' = ac_ownerGUID c ->
  ac_ownership c' = ac_ownership c -> owned c'.
Proof. intros [Hu He H0] E1 E2 E3. constructor; rewrite ?E1, ?E2, ?E3; done. Qed.

(** A logged call leaves the channel alone; without failures it writes. *)
Lemma log_err_run m f s : writes m f ->
  exists d fs, log_err (in_repo m) s = (Ok tt, Sys (Conn (chan (st s)) d (clock (st s))) fs (events s)) /\
    (faults s = [] -> fs = [] /\ d = f (repo (st s))).
Proof.
  intros Hw. destruct (log_err_cases m f s Hw) as [(fs & Hfs & ->)|(fs & Hfs & ->)].
  - exists (f (repo (st s))), fs. split; [done|]. intros E. split; [by apply Hfs|done].
  - exists (repo (st s)), fs. split; [by destruct s as [[? ? ?] ? ?]|]. intros E. congruence.
Qed.

Lemma Logout_good r g s : owned (chan (st s)) -> good r s (transfer_on_logout R r g s).2.
Proof.
  intros Hc. unfold transfer_on_logout. erewrite bind_run by reflexivity.
  destruct (members (chan (st s)) !! g) as [m|] eqn:Hg; [|apply good_refl].
  destruct (has MemberFlagOwner m) eqn:Ho; [|apply good_refl]. destruct (ac_ownership (chan (st s))) eqn:Hown; [|apply good_refl].
  cbn [negb orb]. set (o := next_owner_but g (members (chan (st s)))).
  assert (Ho' := next_owner_but_spec g (members (chan (st s))) (ow_nonzero _ Hc)). fold o in Ho'.
  destruct (Z.eqb_spec o 0) as [|Hne]; [apply good_refl|]. destruct Ho' as [|([n Hn] & _ & Hog)]; [done|].
  pose proof (ow_unique _ Hc _ _ Hg Ho) as Hgo.
  unfold set_members at 1, on_chan. erewrite bind_run by reflexivity. cbn [chan st repo clock].
  destruct (law_flags _ _ HR r (ac_channelID (chan (st s))) g (m_Flags (clear_bit MemberFlagOwner m))) as (f & Hw & Hf).
  match goal with |- context [(log_err (in_repo ?call) ≫= _) ?s1] =>
    destruct (log_err_run call f s1 Hw) as (d & fs & Hrun & Hfs) end.
  rewrite (bind_run _ _ _ _ _ Hrun). cbn in Hfs |- *.
  set (ms := <[g := clear_bit MemberFlagOwner m]> (members (chan (st s)))) in *.
  assert (Hn' : ms !! o = Some n) by (unfold ms; by rewrite lookup_insert_ne).
  match goal with |- context [(give_ownership R r ?g' ≫= _) ?s1] =>
    destruct (give_ownership_run r g' n s1 Hn') as (d' & fs' & Hgive & Hd) end.
  rewrite (bind_run _ _ _ _ _ Hgive). cbn in Hd |- *. intros _. split; cbn.
  - pose proof (owned_given (ac_set_members ms (ac_ownerGUID (chan (st s))) (chan (st s))) o) as Hgiven.
    simpl in Hgiven. rewrite (alter_insert_eq _ _ _ _ Hn') in Hgiven. apply Hgiven; [|unfold ms|by eexists].
    + unfold ms. rewrite Hgo. apply nobody_cleared; [done|]. by rewrite <- Hgo.
    + rewrite lookup_insert_ne; [apply Hc|]. intros ->. by rewrite (ow_nonzero _ Hc) in Hg.
  - intros E. destruct (Hfs E) as [-> ->]. destruct (Hd eq_refl) as [-> Hd']. split; [done|]. intros Hmir. apply Hd'.
    eapply mirrored_set; [exact Hf|done| |].
    + by rewrite (alter_insert_eq _ _ _ _ Hg).
    + apply keyed_insert; [apply Hmir|]. exact (proj2 Hmir _ _ Hg).
Qed.

(** *** Pruning *)
Lemma remove_offline_run r l s : exists ms d fs,
  remove_offline R r (ac_channelID (chan (st s))) l s =
    (Ok tt, Sys (Conn (ac_set_members ms (ac_ownerGUID (chan (st s))) (chan (st s))) d (clock (st s))) fs (events s)) /\
  (forall g m, ms !! g = Some m <-> members (chan (st s)) !! g = Some m /\ g ∉ l) /\
  (faults s = [] -> fs = [] /\ (mirrored r (st s) ->
     mirrored r (Conn (ac_set_members ms (ac_ownerGUID (chan (st s))) (chan (st s))) d (clock (st s))))).
Proof.
  revert s. induction l as [|g l IH]; intros s; cbn [remove_offline].
  - exists (members (chan (st s))), (repo (st s)), (faults s). split; [by destruct s as [[[] ? ?] ? ?]|]. split.
    + intros g m. split; [intros Hg; split; [exact Hg|apply not_elem_of_nil]|by intros [Hg _]].
    + intros E. split; [done|]. by destruct s as [[[] ? ?] ? ?].
  - unfold set_members at 1, on_chan. erewrite bind_run by reflexivity.
    destruct (law_remove _ _ HR r (ac_channelID (chan (st s))) g) as (f & Hw & Hf).
    match goal with |- context [(log_err (in_repo ?call) ≫= _) ?s1] =>
      destruct (log_err_run call f s1 Hw) as (d & fs & Hrun & Hfs) end.
    rewrite (bind_run _ _ _ _ _ Hrun). cbn in Hfs |- *.
    match goal with |- context [remove_offline R r _ l ?s1] => destruct (IH s1) as (ms & d' & fs' & Hl & Hms & Hmir) end.
    cbn in Hl, Hms, Hmir |- *. exists ms, d', fs'. split; [exact Hl|]. split.
    + intros k m. rewrite Hms, lookup_delete_Some, not_elem_of_cons. naive_solver.
    + intros E. destruct (Hfs E) as [-> ->]. destruct (Hmir eq_refl) as [-> Hmir']. split; [done|]. intros Hm. apply Hmir'.
      eapply mirrored_set; [exact Hf|done|done|]. apply keyed_delete, Hm.
Qed.

Lemma Prune_good r online s : owned (chan (st s)) -> good r s (PruneOfflineMembers R r online s).2.
Proof.
  intros Hc. unfold PruneOfflineMembers. erewrite bind_run by reflexivity.
  set (off := filter _ _).
  assert (Hoff : forall g, g ∈ off <-> is_Some (members (chan (st s)) !! g) /\ g ∉ online).
  { intros g. unfold off. rewrite list_elem_of_filter, bool_decide_eq_false, list_elem_of_fmap. split.
    - intros (Hg & [k m] & -> & Hk%elem_of_go_range). split; [by exists m|done].
    - intros [[m Hm] Hg]. split; [done|]. exists (g, m). split; [done|]. by apply elem_of_go_range. }
  destruct (remove_offline_run r off s) as (ms & d & fs & Hrun & Hms & Hmir).
  rewrite (bind_run _ _ _ _ _ Hrun). set (o := ac_ownerGUID (chan (st s))) in *.
  assert (Hms0 : ms !! 0 = None).
  { destruct (ms !! 0) as [m|] eqn:E; [|done]. apply Hms in E as [E _]. by rewrite (ow_nonzero _ Hc) in E. }
  destruct (negb (o =? 0) && negb (bool_decide (o ∈ online))) eqn:Ecase.
  - apply andb_true_iff in Ecase as [_ Ho]. apply negb_true_iff, bool_decide_eq_false in Ho.
    assert (Hnobody : nobody_owns ms).
    { intros g m [Hg Hnoff]%Hms. destruct (has MemberFlagOwner m) eqn:E; [|done]. destruct Hnoff. apply Hoff.
      split; [by exists m|]. by rewrite (ow_unique _ Hc _ _ Hg E). }
    unfold set_owner, on_chan. erewrite bind_run by reflexivity. erewrite bind_run by reflexivity.
    cbn [chan st repo clock members ac_set_members ac_ownership faults events].
    destruct ((0 <? size ms)%nat && ac_ownership (chan (st s))) eqn:Egive.
    + apply andb_true_iff in Egive as [Hsize%Nat.ltb_lt _].
      destruct (next_owner_spec 23 ms Hms0) as [[_ Hemp]|[[m Hm] Hne]]; [rewrite Hemp, map_size_empty in Hsize; lia|].
      destruct (Z.eqb_spec (next_owner 23 ms) 0) as [|_]; [done|]. cbn [negb].
      match goal with |- context [give_ownership R r ?g' ?s1] =>
        destruct (give_ownership_run r g' m s1 Hm) as (d' & fs' & -> & Hd) end.
      cbn in Hd |- *. intros _. split; cbn.
      * pose proof (owned_given (ac_set_members ms 0 (chan (st s))) (next_owner 23 ms)) as Hgiven.
        simpl in Hgiven. rewrite (alter_insert_eq _ _ _ _ Hm) in Hgiven. apply Hgiven; [done|done|by eexists].
      * intros E. destruct (Hmir E) as [-> Hmir']. destruct (Hd eq_refl) as [-> Hd']. split; [done|].
        intros Hmr. apply Hd'. destruct (Hmir' Hmr) as [H1 H2]. by split.
    + intros _. split; cbn.
      * constructor; simpl; [|intros Hown Hne|done].
        -- intros g m Hg E. by rewrite (Hnobody _ _ Hg) in E.
        -- rewrite Hown, andb_true_r in Egive. apply Nat.ltb_ge in Egive. destruct Hne. apply map_size_empty_inv. lia.
      * intros E. destruct (Hmir E) as [-> Hmir']. split; [done|]. intros Hmr. destruct (Hmir' Hmr) as [H1 H2]. by split.
  - intros _. split; cbn; [|exact Hmir]. constructor; simpl; [| |done].
    + intros g m [Hg _]%Hms. by apply (ow_unique _ Hc).
    + intros Hown [k [m0 Hk]]%map_choose. apply Hms in Hk as [Hk _].
      destruct (ow_exists _ Hc Hown) as (m & Hm & Hmo); [intros E; by rewrite E, lookup_empty in Hk|].
      exists m. split; [|done]. apply Hms. split; [done|]. intros [_ Honl]%Hoff. apply andb_false_iff in Ecase as [E|E].
      * apply negb_false_iff, Z.eqb_eq in E. fold o in Hm. rewrite E in Hm. by rewrite (ow_nonzero _ Hc) in Hm.
      * apply negb_false_iff, bool_decide_eq_true in E. done.
Qed.

(** *** Modes and bans *)
Lemma store_good r s : good r s (store_channel R r s).2.
Proof.
  unfold store_channel. do 2 erewrite bind_run by reflexivity.
  destruct (law_channel _ _ HR r (to_db_channel (chan (st s)) (clock (st s)))) as (f & Hw & Hf).
  rewrite (in_repo_writes _ _ _ Hw). destruct (faults s) as [|[] fs] eqn:E; apply good_same; try done; simpl; try congruence.
  intros _ [Hm Hk]. split; [|done]. simpl. by rewrite Hf.
Qed.
Lemma good_trans r s s1 s2 : good r s s1 -> good r s1 s2 -> good r s s2.
Proof.
  intros H1 H2 Hc. destruct (H1 Hc) as [Hc1 Hf1]. destruct (H2 Hc1) as [Hc2 Hf2]. split; [done|].
  intros E. destruct (Hf1 E) as [E1 Hm1]. destruct (Hf2 E1) as [E2 Hm2]. split; [done|]. auto.
Qed.
Lemma on_chan_good r f s :
  (forall c, members (f c) = members c) -> (forall c, ac_ownerGUID (f c) = ac_ownerGUID c) ->
  (forall c, ac_ownership (f c) = ac_ownership c) -> (forall c, ac_channelID (f c) = ac_channelID c) ->
  good r s (on_chan f s : outcome chat_err unit * _).2.
Proof.
  intros H1 H2 H3 H4. apply good_same; simpl; [apply H1|apply H2|apply H3|done|].
  intros _ [Hm Hk]. split; simpl; rewrite H1, ?H4; done.
Qed.
Lemma bind_good {A B} r s (m : M A) (k : A -> M B) :
  good r s (m s).2 -> (forall a s', m s = (Ok a, s') -> good r s' (k a s').2) -> good r s ((m ≫= k) s).2.
Proof.
  intros Hm Hk. unfold mbind, go_bind. destruct (m s) as [[a|e|] s1] eqn:E; [|exact Hm..].
  eapply good_trans; [exact Hm|]. by apply Hk.
Qed.

Lemma run_op_good r op s : op_ok op -> owned (chan (st s)) -> good r s (run_op r op s).2.
Proof.
  intros Hok Hc. destruct op; cbn [run_op] in *.
  - by apply Join_good.
  - apply bind_good; [by apply Leave_good|]. intros. apply good_refl.
  - by apply SetFlag_good.
  - by apply SetFlag_good.
  - by apply SetOwner_good.
  - apply bind_good; [by apply on_chan_good|]. intros. apply store_good.
  - apply bind_good; [|intros; apply good_refl]. apply bind_good; [by apply on_chan_good|]. intros. apply good_refl.
  - apply bind_good; [|intros; apply store_good]. apply bind_good; [by apply on_chan_good|]. intros. apply good_refl.
  - apply bind_good; [by apply Logout_good|]. intros. apply good_refl.
  - by apply Prune_good.
  - by apply on_chan_good.
  - by apply on_chan_good.
Qed.

(** ** Errors *)

(** An error of [m] leaves the members as they were. *)
Definition undone {A} (m : M A) : Prop :=
  forall s e s', m s = (Fail e, s') -> members (chan (st s')) = members (chan (st s)).
(** The end of a run that wrote the member's change, or undid it. *)
Lemma undone_write {A} call f undo (k : unit -> M A) s1 e s' :
  writes call f -> (forall u s2 x s3, k u s2 <> (Fail x, s3)) ->
  (or_undo (in_repo call) (set_members undo) ≫= k) s1 = (Fail e, s') ->
  members (chan (st s')) = undo (members (chan (st s1))).
Proof.
  intros Hw Hk. destruct (or_undo_cases call f (set_members undo) s1 Hw) as [(fs & _ & Hrun)|(fs & _ & Hrun)].
  - rewrite (bind_run _ _ _ _ _ Hrun). intros Hr. by destruct (Hk _ _ _ _ Hr).
  - rewrite (bind_fail _ _ _ _ _ Hrun). by intros [= _ <-].
Qed.

Lemma Join_undone r g name password : undone (JoinChannel R r g name password).
Proof.
  intros s e s'. unfold JoinChannel. do 2 erewrite bind_run by reflexivity.
  destruct (match bannedUntil (chan (st s)) !! g with Some t => _ | None => _ end); [by intros [= _ <-]|].
  erewrite bind_run by reflexivity. destruct (negb _ && negb _); [by intros [= _ <-]|]. erewrite bind_run by reflexivity.
  unfold IsMember. case_bool_decide as Hm; [done|]. apply eq_None_not_Some in Hm.
  set (o := if _ && _ then set_owner g else mret tt).
  assert (Ho : exists c, o s = (Ok tt, Sys (Conn c (repo (st s)) (clock (st s))) (faults s) (events s)) /\
                members c = members (chan (st s))).
  { unfold o. destruct (_ && _); [by eexists|]. exists (chan (st s)). split; [by destruct s as [[? ? ?] ? ?]|done]. }
  destruct Ho as (c & Ho & Hc). rewrite (bind_run _ _ _ _ _ Ho). set (m := Build_ChannelMember _ _ _).
  unfold set_members at 1, on_chan. erewrite bind_run by reflexivity. cbn [chan st repo clock].
  destruct (law_save _ _ HR r (ac_channelID (chan (st s))) m) as (f & Hw & _).
  match goal with |- context [or_undo (in_repo ?call) ?undo ?s1] =>
    destruct (or_undo_cases call f undo s1 Hw) as [(fs & _ & ->)|(fs & _ & ->)] end; [done|].
  intros [= _ <-]. cbn. rewrite Hc. by apply delete_insert_id.
Qed.
Lemma give_ownership_ok r g s x s' : give_ownership R r g s <> (Fail x, s').
Proof.
  unfold give_ownership, set_members, set_owner, on_chan. do 3 erewrite bind_run by reflexivity.
  unfold log_err. destruct (in_repo _ _) as [[?|?|] ?]; by intros [= ? ?].
Qed.
Lemma Leave_undone r g : undone (LeaveChannel R r g).
Proof.
  intros s e s'. unfold LeaveChannel. erewrite bind_run by reflexivity.
  destruct (members (chan (st s)) !! g) as [m|] eqn:Hg; [|by intros [= _ <-]]. erewrite bind_run by reflexivity.
  unfold set_members at 1, on_chan. erewrite bind_run by reflexivity. cbn [chan st repo clock].
  destruct (law_remove _ _ HR r (ac_channelID (chan (st s))) g) as (f & Hw & _). intros Hrun.
  apply (undone_write _ _ (<[g := m]>) _ _ _ _ Hw) in Hrun as ->; [by apply insert_delete_id|].
  intros u s2 x s3. erewrite bind_run by reflexivity. destruct (_ && _); [|done].
  unfold mbind at 1, go_bind at 1. destruct (negb _); [|done].
  destruct (give_ownership _ _ _ _) as [[?|?|] ?] eqn:E; [done| |done]. by apply give_ownership_ok in E.
Qed.
Lemma SetFlag_undone bit r g on : undone (SetFlag R bit r g on).
Proof.
  intros s e s'. unfold SetFlag. erewrite bind_run by reflexivity.
  destruct (members (chan (st s)) !! g) as [m|] eqn:Hg; [|by intros [= _ <-]]. erewrite bind_run by reflexivity.
  set (m' := if on then _ else _). unfold set_members at 1, on_chan. erewrite bind_run by reflexivity.
  destruct (law_flags _ _ HR r (ac_channelID (chan (st s))) g (m_Flags m')) as (f & Hw & _).
  match goal with |- context [or_undo (in_repo ?call) ?undo ?s1] =>
    destruct (or_undo_cases call f undo s1 Hw) as [(fs & _ & ->)|(fs & _ & ->)] end; [done|].
  intros [= _ <-]. cbn. by rewrite insert_insert_eq, insert_id.
Qed.

(** Both halves are undone. *)
Lemma SetOwner_undone r g s e s' : owned (chan (st s)) -> SetOwner R r g s = (Fail e, s') ->
  members (chan (st s')) = members (chan (st s)).
Proof.
  intros Hc. unfold SetOwner. erewrite bind_run by reflexivity.
  destruct (members (chan (st s)) !! g) as [n0|] eqn:Hg; [|by intros [= _ <-]]. erewrite bind_run by reflexivity.
  destruct (drop_owner_run r s Hc) as [(o & ms & d & fs & Hrun & _ & Hdom & Ho & _)|(x & s1 & Hrun & _ & Hs1)].
  2:{ rewrite (bind_fail _ _ _ _ _ Hrun). by intros [= _ <-]. }
  rewrite (bind_run _ _ _ _ _ Hrun). erewrite bind_run by reflexivity. cbn [chan st members ac_set_members].
  destruct (proj2 (Hdom g)) as [n Hn]; [by exists n0|]. rewrite Hn. erewrite bind_run by reflexivity.
  unfold set_members at 1, on_chan. erewrite bind_run by reflexivity. cbn [chan st repo clock faults events].
  destruct (law_flags _ _ HR r (ac_channelID (chan (st s))) g (m_Flags (set_bit MemberFlagOwner n))) as (f & Hw & Hf).
  match goal with |- context [or_undo (in_repo ?call) ?undo ≫= ?k] =>
    match goal with |- context [(_ ≫= _) ?s1] => destruct (or_undo_cases call f undo s1 Hw) as [(fs' & Hfs & Hrun')|(fs' & Hfs & Hrun')] end end.
  - by rewrite (bind_run _ _ _ _ _ Hrun').
  - unfold mbind at 1, go_bind at 1. rewrite Hrun'.
    assert (Hback : <[g := n]> (<[g := set_bit MemberFlagOwner n]> ms) = ms) by (by rewrite insert_insert_eq, insert_id).
    destruct o as [old|]; intros [= _ <-].
    + destruct Ho as [Hold ->]. cbn. rewrite Hback. by apply alter_flags_back.
    + subst ms. exact Hback.
Qed.
Lemma store_undone r : undone (store_channel R r).
Proof.
  intros s e s'. unfold store_channel. do 2 erewrite bind_run by reflexivity.
  destruct (law_channel _ _ HR r (to_db_channel (chan (st s)) (clock (st s)))) as (f & Hw & _).
  rewrite (in_repo_writes _ _ _ Hw). destruct (faults s) as [|[] fs]; [done| |done]. by intros [= _ <-].
Qed.
Lemma Logout_undone r g : undone (transfer_on_logout R r g).
Proof.
  intros s e s'. unfold transfer_on_logout. erewrite bind_run by reflexivity.
  destruct (members (chan (st s)) !! g) as [m|]; [|done]. destruct (_ || _); [done|]. destruct (_ =? 0); [done|].
  unfold set_members at 1, on_chan. erewrite bind_run by reflexivity.
  destruct (law_flags _ _ HR r (ac_channelID (chan (st s))) g (m_Flags (clear_bit MemberFlagOwner m))) as (f & Hw & _).
  match goal with |- context [(log_err (in_repo ?call) ≫= _) ?s1] =>
    destruct (log_err_run call f s1 Hw) as (d & fs & Hrun & _) end.
  rewrite (bind_run _ _ _ _ _ Hrun). unfold mbind, go_bind. destruct (give_ownership _ _ _ _) as [[?|?|] ?] eqn:E; [done| |done].
  by apply give_ownership_ok in E.
Qed.
Lemma Prune_undone r online : undone (PruneOfflineMembers R r online).
Proof.
  intros s e s'. unfold PruneOfflineMembers. erewrite bind_run by reflexivity.
  match goal with |- context [remove_offline R r _ ?l] => destruct (remove_offline_run r l s) as (ms & d & fs & Hrun & _) end.
  rewrite (bind_run _ _ _ _ _ Hrun). destruct (_ && _); [|done]. unfold set_owner, on_chan. do 2 erewrite bind_run by reflexivity.
  destruct (_ && _); [|done]. destruct (negb _); [|done]. intros E. by apply give_ownership_ok in E.
Qed.
Lemma undone_then {A B} (m : M A) (k : A -> M B) :
  undone m -> (forall a s e s', k a s <> (Fail e, s')) -> undone (m ≫= k).
Proof.
  intros Hm Hk s e s'. unfold mbind, go_bind. destruct (m s) as [[a|x|] s1] eqn:E; intros Hr; [by apply Hk in Hr| |done].
  injection Hr as <- <-. by eapply Hm.
Qed.
Lemma undone_after {B} f (k : M B) : (forall c, members (f c) = members c) -> undone k -> undone (on_chan f ;; k).
Proof. intros Hf Hk s e s' Hr. rewrite (Hk _ _ _ Hr). apply Hf. Qed.

Lemma run_op_undone r op s e s' : owned (chan (st s)) -> run_op r op s = (Fail e, s') ->
  members (chan (st s')) = members (chan (st s)).
Proof.
  intros Hc. destruct op; cbn [run_op].
  - apply Join_undone.
  - apply undone_then; [apply Leave_undone|done].
  - apply SetFlag_undone.
  - apply SetFlag_undone.
  - by apply SetOwner_undone.
  - apply undone_after; [done|apply store_undone].
  - apply undone_then; [|done]. by intros ? ? ? ?.
  - intros Hr. apply (store_undone r) in Hr. exact Hr.
  - apply undone_then; [apply Logout_undone|done].
  - apply Prune_undone.
  - by intros ?.
  - by intros ?.
Qed.

(** ** Histories of a channel *)
Definition run_ops (r : u32) (ops : list ch_op) (s : sys (conn D) chat_event) : sys (conn D) chat_event :=
  foldl (fun s op => (run_op r op s).2) s ops.
Lemma run_ops_good r ops s : Forall op_ok ops -> owned (chan (st s)) -> good r s (run_ops r ops s).
Proof.
  intros Hops. revert s. induction Hops as [|op ops Hop _ IH]; intros s Hs; [apply good_refl|]. cbn [run_ops foldl].
  pose proof (run_op_good r op s Hop Hs) as Hg. eapply good_trans; [exact Hg|]. apply IH. by apply Hg.
Qed.
End Facts.
