(* ===== verification/ChannelManager.v ===== *)
(** * ChannelManager: the channels of the chat server
    (apps/chatserver/service/channel-manager.go, the methods of ChannelManager)

    The manager keeps one active channel per key "realm:name:team".  The code
    passes pointers to channels; here a method runs in the channel stored
    under its key ([in_channel]).  [time.Now] does not change within a step. *)
From stdpp Require Import pretty.
From S2P Require Import Prelude GoRuntime GoStrings ChannelsRepo Channels.

Record ChannelManager (D : Type) := Mgr { channels : gmap string ActiveChannel; cm_repo : D; cm_now : Z }.
Arguments Mgr {D}. Arguments channels {D}. Arguments cm_repo {D}. Arguments cm_now {D}.

Definition NewChannelManager {D} (channelsRepo : D) (now : Z) : ChannelManager D := Mgr ∅ channelsRepo now.

Definition channelKey (realmID : u32) (channelName : string) (team : Z) : string :=
  fmt_d realmID +:+ ":" +:+ ToLower channelName +:+ ":" +:+ fmt_d team.
Definition realm_prefix (realmID : u32) : string := fmt_d realmID +:+ ":".

Definition hour : Z := 3600 * second.
(** The ban of BanPlayerByName: 100 years. *)
Definition ban_time : Z := 100 * 365 * 24 * hour.

Record OwnershipTransfer := { t_ChannelName : string; t_ChannelID : u32; t_TeamID : Z; NewOwnerGUID : u64 }.

Section Manager.
Context `{MapRange} {D : Type} (R : ChannelsRepo D).
Abbreviation M A := (go (ChannelManager D) chat_event chat_err A).

Definition on_repo {A} (m : go D chat_event chat_err A) : M A :=
  zoom cm_repo (fun d s => Mgr (channels s) d (cm_now s)) m.
Definition set_channels (f : gmap string ActiveChannel -> gmap string ActiveChannel) : M unit :=
  modify (fun s => Mgr (f (channels s)) (cm_repo s) (cm_now s)).
(** A method of the channel stored under [key]. *)
Definition in_channel {A} (key : string) (m : go (conn D) chat_event chat_err A) : M A :=
  ch ← gets (fun s => channels s !! key);
  ch ← deref ch;
  zoom (fun s => Conn ch (cm_repo s) (cm_now s))
       (fun k s => Mgr (<[key := chan k]> (channels s)) (repo k) (clock k)) m.
Definition reading {A} (f : ActiveChannel -> A) : go (conn D) chat_event chat_err A := c ← gets chan; mret (f c).

(** ** Finding and creating channels *)
Definition GetChannel (realmID : u32) (channelName : string) (team : Z) : M (option ActiveChannel) :=
  gets (fun s => channels s !! channelKey realmID channelName team).

Definition loaded_bans (now : Z) (bans : list ChannelBan) : gmap u64 Z :=
  foldl (fun m b => if now <? BanTime b then <[ban_PlayerGUID b := BanTime b]> m else m) ∅ bans.
Definition loaded_members (ms : list ChannelMember) : gmap u64 ChannelMember :=
  foldl (fun t m => <[PlayerGUID m := m]> t) ∅ ms.
Definition loaded_owner (ms : list ChannelMember) : u64 :=
  foldl (fun o m => if has MemberFlagOwner m then PlayerGUID m else o) 0 ms.

Definition GetOrCreateChannel (realmID : u32) (channelName : string) (channelID : u32) (team : Z) (password : string)
    (flags : u8) : M ActiveChannel :=
  let key := channelKey realmID channelName team in
  ch ← gets (fun s => channels s !! key);
  match ch with
  | Some ch => mret ch
  | None =>
    now ← gets cm_now;
    dbChannel ← wrap_err ErrChatWrap (on_repo
      (if negb (channelID =? 0) && negb (Z.land flags ChannelFlagCustom =? 0) then GetChannelByID R realmID channelID
       else GetChannelByName R realmID channelName (wrap32 team)));
    dbChannel ← match dbChannel with
                | Some c => mret c
                | None => wrap_err ErrChatWrap (on_repo (CreateChannel R realmID
                    {| c_ChannelID := 0; c_Name := channelName; c_Team := wrap32 team; c_Announce := true;
                       c_Ownership := true; c_Password := password; c_LastUsed := now |}))
                end;
    rights ← wrap_err ErrChatWrap (on_repo (GetChannelRights R realmID channelName));
    bans ← wrap_err ErrChatWrap (on_repo (GetChannelBans R realmID (c_ChannelID dbChannel)));
    loaded ← wrap_err ErrChatWrap (on_repo (LoadChannelMembers R realmID (c_ChannelID dbChannel)));
    let ch := {| ac_channelID := c_ChannelID dbChannel; ac_name := c_Name dbChannel;
                 ac_team := TeamID_of (c_Team dbChannel); ac_password := c_Password dbChannel;
                 ac_announce := c_Announce dbChannel; ac_ownership := c_Ownership dbChannel; ac_moderation := false;
                 ac_flags := flags; ac_ownerGUID := loaded_owner loaded; ac_rights := rights;
                 members := loaded_members loaded; bannedUntil := loaded_bans now bans |} in
    set_channels <[key := ch]> ;; mret ch
  end.

Definition with_channel {A} (notFound : chat_err) (realmID : u32) (channelName : string) (team : Z)
    (k : string -> ActiveChannel -> M A) : M A :=
  ch ← GetChannel realmID channelName team;
  ch ← not_nil notFound ch;
  k (channelKey realmID channelName team) ch.

(** ** Bans *)
Definition BanPlayer (realmID : u32) (channelName : string) (team : Z) (playerGUID : u64) (banTime : Z) : M unit :=
  with_channel ErrChannelNotFound realmID channelName team (fun key ch =>
    in_channel key (on_chan (fun c => ac_set_bans (<[playerGUID := banTime]> (bannedUntil c)) c)) ;;
    on_repo (AddChannelBan R realmID
      {| ban_ChannelID := ac_channelID ch; ban_PlayerGUID := playerGUID; BanTime := banTime |})).
Definition UnbanPlayer (realmID : u32) (channelName : string) (team : Z) (playerGUID : u64) : M unit :=
  with_channel ErrChannelNotFound realmID channelName team (fun key ch =>
    in_channel key (on_chan (fun c => ac_set_bans (delete playerGUID (bannedUntil c)) c)) ;;
    on_repo (RemoveChannelBan R realmID (ac_channelID ch) playerGUID)).

Definition UpdateLastUsed (realmID : u32) (channelName : string) (team : Z) : M unit :=
  ch ← GetChannel realmID channelName team;
  match ch with
  | None => mret tt
  | Some ch =>
    if ac_channelID ch =? 0 then mret tt
    else now ← gets cm_now; on_repo (UpdateChannelLastUsed R realmID (ac_channelID ch) now)
  end.

(** ** Operations by name, with their permission checks *)
Definition is_moderator (ch : ActiveChannel) (g : u64) : bool :=
  negb (Z.land (GetMemberFlags ch g) (Z.lor MemberFlagModerator MemberFlagOwner) =? 0).
Definition is_owner (ch : ActiveChannel) (g : u64) : bool := negb (Z.land (GetMemberFlags ch g) MemberFlagOwner =? 0).
Definition find_member (ch : ActiveChannel) (targetName : string) : M u64 :=
  let targetGUID := FindMemberByName ch targetName in
  guard_err (targetGUID =? 0) ErrPlayerNotFound ;; mret targetGUID.
(** The common start: the acting player is a member with the rights. *)
Definition as_member (allowed : ActiveChannel -> u64 -> bool) (denied : chat_err) (ch : ActiveChannel) (actor : u64) : M unit :=
  guard_err (negb (IsMember ch actor)) ErrNotMember ;; guard_err (negb (allowed ch actor)) denied.

Definition KickPlayer (realmID : u32) (channelName : string) (team : Z) (kickerGUID : u64) (targetName : string) : M u64 :=
  with_channel ErrChannelNotFound realmID channelName team (fun key ch =>
    as_member is_moderator ErrNotModerator ch kickerGUID ;;
    targetGUID ← find_member ch targetName;
    in_channel key (LeaveChannel R realmID targetGUID) ;;
    mret targetGUID).

(** A failed kick is only logged, the ban goes on. *)
Definition BanPlayerByName (realmID : u32) (channelName : string) (team : Z) (bannerGUID : u64) (targetName : string) : M u64 :=
  with_channel ErrChannelNotFound realmID channelName team (fun key ch =>
    as_member is_moderator ErrNotModerator ch bannerGUID ;;
    targetGUID ← find_member ch targetName;
    try_err (in_channel key (LeaveChannel R realmID targetGUID)) ;;
    now ← gets cm_now;
    wrap_err ErrChatWrap (BanPlayer realmID channelName team targetGUID (now + ban_time)) ;;
    mret targetGUID).

(** The target is looked up among the current members. *)
Definition UnbanPlayerByName (realmID : u32) (channelName : string) (team : Z) (unbannerGUID : u64) (targetName : string) : M u64 :=
  with_channel ErrChannelNotFound realmID channelName team (fun key ch =>
    guard_err (negb (is_moderator ch unbannerGUID)) ErrNotModerator ;;
    targetGUID ← find_member ch targetName;
    UnbanPlayer realmID channelName team targetGUID ;;
    mret targetGUID).

Definition SetModeratorByName (realmID : u32) (channelName : string) (team : Z) (setterGUID : u64) (targetName : string)
    (isModerator : bool) : M u64 :=
  with_channel ErrChannelNotFound realmID channelName team (fun key ch =>
    as_member is_owner ErrNotOwner ch setterGUID ;;
    targetGUID ← find_member ch targetName;
    in_channel key (SetModerator R realmID targetGUID isModerator) ;;
    mret targetGUID).
Definition SetMuteByName (realmID : u32) (channelName : string) (team : Z) (muterGUID : u64) (targetName : string)
    (isMuted : bool) : M u64 :=
  with_channel ErrChannelNotFound realmID channelName team (fun key ch =>
    as_member is_moderator ErrNotModerator ch muterGUID ;;
    targetGUID ← find_member ch targetName;
    in_channel key (SetMute R realmID targetGUID isMuted) ;;
    mret targetGUID).
Definition SetOwnerByName (realmID : u32) (channelName : string) (team : Z) (setterGUID : u64) (targetName : string) : M u64 :=
  with_channel ErrChannelNotFound realmID channelName team (fun key ch =>
    guard_err (negb (is_owner ch setterGUID)) ErrNotOwner ;;
    targetGUID ← find_member ch targetName;
    in_channel key (SetOwner R realmID targetGUID) ;;
    mret targetGUID).
Definition SetChannelPassword (realmID : u32) (channelName : string) (team : Z) (setterGUID : u64) (password : string) : M unit :=
  with_channel ErrChannelNotFound realmID channelName team (fun key ch =>
    guard_err (negb (is_owner ch setterGUID)) ErrNotOwner ;;
    in_channel key (SetPassword R realmID password)).
Definition ToggleChannelModeration (realmID : u32) (channelName : string) (team : Z) (togglerGUID : u64) : M bool :=
  with_channel ErrChannelNotFound realmID channelName team (fun key ch =>
    as_member is_moderator ErrNotModerator ch togglerGUID ;;
    in_channel key ToggleModeration).
Definition ToggleChannelAnnouncements (realmID : u32) (channelName : string) (team : Z) (togglerGUID : u64) : M bool :=
  with_channel ErrChannelNotFound realmID channelName team (fun key ch =>
    as_member is_moderator ErrNotModerator ch togglerGUID ;;
    enabled ← in_channel key ToggleAnnouncements;
    wrap_err ErrChatWrap (in_channel key (PersistToggleAnnouncements R realmID)) ;;
    mret enabled).

(** The player's name, whether the channel is custom, the new owner. *)
Definition LeaveChannelByGUID (realmID : u32) (channelName : string) (team : Z) (playerGUID : u64) : M (string * bool * u64) :=
  with_channel ErrChannelNotFound realmID channelName team (fun key ch =>
    let playerName := match head (filter (fun m => (PlayerGUID m =? playerGUID) = true) (GetMembers ch)) with
                      | Some m => PlayerName m
                      | None => ""
                      end in
    newOwnerGUID ← in_channel key (LeaveChannel R realmID playerGUID);
    mret (playerName, negb (Z.land (ac_flags ch) ChannelFlagCustom =? 0), newOwnerGUID)).

Definition ValidateSendMessage (realmID : u32) (channelName : string) (team : Z) (senderGUID : u64) : M ActiveChannel :=
  with_channel ErrNotMember realmID channelName team (fun key ch =>
    guard_err (negb (IsMember ch senderGUID)) ErrNotMember ;;
    guard_err (negb (CanSpeak ch senderGUID)) ErrMuted ;;
    mret ch).

(** ** All channels of a realm *)
Definition realm_keys (n : nat) (realmID : u32) (cs : gmap string ActiveChannel) : list string :=
  filter (fun key => HasPrefix key (realm_prefix realmID) = true) (go_range n cs).*1.

Fixpoint transfer_all (realmID : u32) (playerGUID : u64) (keys : list string) : M (list OwnershipTransfer) :=
  match keys with
  | [] => mret []
  | key :: keys =>
    t ← in_channel key (newOwner ← transfer_on_logout R realmID playerGUID; c ← gets chan; mret (newOwner, c));
    ts ← transfer_all realmID playerGUID keys;
    mret (match t.1 with
          | Some newOwnerGUID => {| t_ChannelName := ac_name t.2; t_ChannelID := ac_channelID t.2;
                                    t_TeamID := ac_team t.2; NewOwnerGUID := newOwnerGUID |} :: ts
          | None => ts
          end)
  end.
Definition TransferOwnershipOnLogout (realmID : u32) (playerGUID : u64) : M (list OwnershipTransfer) :=
  cs ← gets channels; transfer_all realmID playerGUID (realm_keys 24 realmID cs).

Fixpoint prune_all (realmID : u32) (online : gset u64) (keys : list string) : M unit :=
  match keys with
  | [] => mret tt
  | key :: keys => log_err (in_channel key (PruneOfflineMembers R realmID online)) ;; prune_all realmID online keys
  end.
Definition PruneOfflineMembersFromAllChannels (realmID : u32) (online : gset u64) : M unit :=
  cs ← gets channels; prune_all realmID online (realm_keys 25 realmID cs).

(** A channel that fails to load is skipped. *)
Fixpoint preload (realmID : u32) (dbChannels : list Channel) : M unit :=
  match dbChannels with
  | [] => mret tt
  | c :: dbChannels =>
    try_err (GetOrCreateChannel realmID (c_Name c) (c_ChannelID c) (TeamID_of (c_Team c)) "" ChannelFlagCustom) ;;
    preload realmID dbChannels
  end.
Definition PreloadChannels (realmID : u32) : M unit :=
  dbChannels ← wrap_err ErrChatWrap (on_repo (GetAllChannels R realmID)); preload realmID dbChannels.

Definition cleanupLocalMemory (realmID : u32) : M int :=
  cs ← gets channels;
  let empty := filter (fun key => match cs !! key with Some ch => GetNumMembers ch =? 0 | None => false end = true)
                 (realm_keys 26 realmID cs) in
  set_channels (fun cs => foldl (fun m key => delete key m) cs empty) ;;
  mret (len empty).
Definition CleanupStaleChannels (realmID : u32) (inactiveDuration : Z) : M unit :=
  cleanupLocalMemory realmID ;;
  now ← gets cm_now;
  wrap_err ErrChatWrap (on_repo (CleanOldChannels R realmID (now - inactiveDuration))) ;;
  wrap_err ErrChatWrap (on_repo (CleanExpiredBans R realmID now)).
End Manager.
