(* ===== verification/ChatSessions.v ===== *)
(** * ChatSessions: the characters that are online
    (apps/chatserver/repo/characters_inmem.go, apps/chatserver/sender/sender.go)

    The repository holds every character twice, by guid and by lower-cased
    name.  Characters are never changed once added, so the maps hold values
    instead of pointers. *)
From stdpp Require Import pretty.
From S2P Require Import Prelude GoRuntime GoStrings ChannelsRepo.

Record Character := { RealmID : u32; GatewayID : string; GUID : u64; Name : string; Race : u8 }.
Record charactersInMemRepo := { charsByGUID : gmap string Character; charsByName : gmap string Character }.
Definition NewCharactersInMemRepo : charactersInMemRepo := {| charsByGUID := ∅; charsByName := ∅ |}.

Definition mapKeyForRealmAndGuid (realm : u32) (guid : u64) : string := fmt_d realm +:+ ":" +:+ fmt_d guid.
Definition mapKeyForRealmAndName (realm : u32) (name : string) : string := fmt_d realm +:+ ":" +:+ ToLower name.

Definition AddCharacter (character : Character) (c : charactersInMemRepo) : charactersInMemRepo :=
  {| charsByGUID := <[mapKeyForRealmAndGuid (RealmID character) (GUID character) := character]> (charsByGUID c);
     charsByName := <[mapKeyForRealmAndName (RealmID character) (Name character) := character]> (charsByName c) |}.
Definition RemoveCharacter (realmID : u32) (characterGUID : u64) (c : charactersInMemRepo) : charactersInMemRepo :=
  let guidKey := mapKeyForRealmAndGuid realmID characterGUID in
  {| charsByGUID := delete guidKey (charsByGUID c);
     charsByName := match charsByGUID c !! guidKey with
                    | Some char => delete (mapKeyForRealmAndName realmID (Name char)) (charsByName c)
                    | None => charsByName c
                    end |}.
Definition CharacterByRealmAndGUID (realmID : u32) (characterGUID : u64) (c : charactersInMemRepo) : option Character :=
  charsByGUID c !! mapKeyForRealmAndGuid realmID characterGUID.
Definition CharacterByRealmAndName (realmID : u32) (name : string) (c : charactersInMemRepo) : option Character :=
  charsByName c !! mapKeyForRealmAndName realmID name.

Section Sessions.
Context `{MapRange}.

(** The matching names, found in one pass, with the guids they belong to. *)
Definition realm_entries (realmID : u32) (c : charactersInMemRepo) : list (string * Character) :=
  filter (fun e => HasPrefix e.1 (fmt_d realmID +:+ ":") = true) (go_range 28 (charsByName c)).
Definition RemoveCharactersWithRealm (realmID : u32) (c : charactersInMemRepo) : charactersInMemRepo :=
  let entries := realm_entries realmID c in
  {| charsByGUID := foldl (fun m e => delete (mapKeyForRealmAndGuid realmID (GUID e.2)) m) (charsByGUID c) entries;
     charsByName := foldl (fun m e => delete e.1 m) (charsByName c) entries |}.

(** ** Refinement of a map from realm and guid to the character *)
Inductive session_op :=
| LogIn (character : Character)
| LogOut (realmID : u32) (characterGUID : u64)
| RealmGone (realmID : u32).
Definition run_session (op : session_op) (c : charactersInMemRepo) : charactersInMemRepo :=
  match op with
  | LogIn character => AddCharacter character c
  | LogOut r g => RemoveCharacter r g c
  | RealmGone r => RemoveCharactersWithRealm r c
  end.
Abbreviation online := (gmap (u32 * u64) Character).
Definition spec_session (op : session_op) (m : online) : online :=
  match op with
  | LogIn character => <[(RealmID character, GUID character) := character]> m
  | LogOut r g => delete (r, g) m
  | RealmGone r => filter (fun e => e.1.1 <> r) m
  end.

(** Names identify characters: [who r g] is the lower-cased name of a guid. *)
Variable who : u32 -> u64 -> string.
Definition named (char : Character) : Prop := ToLower (Name char) = who (RealmID char) (GUID char).
Definition op_named (op : session_op) : Prop := match op with LogIn char => named char | _ => True end.

Record simulates (m : online) (c : charactersInMemRepo) : Prop := {
  si_keys : forall r g char, m !! (r, g) = Some char -> RealmID char = r /\ GUID char = g /\ named char;
  si_guid : forall r g, CharacterByRealmAndGUID r g c = m !! (r, g);
  si_name : forall k char, charsByName c !! k = Some char <->
    k = mapKeyForRealmAndName (RealmID char) (Name char) /\ m !! (RealmID char, GUID char) = Some char;
  si_guid_keys : forall k char, charsByGUID c !! k = Some char ->
    k = mapKeyForRealmAndGuid (RealmID char) (GUID char)
}.
Hypothesis who_inj : forall r g g', who r g = who r g' -> g = g'.

Lemma guid_key_inj r g r' g' : mapKeyForRealmAndGuid r g = mapKeyForRealmAndGuid r' g' -> r = r' /\ g = g'.
Proof. intros [-> E]%fmt_d_key_inj. split; [done|]. exact (inj pretty _ _ E). Qed.
Lemma name_key_inj r n r' n' : mapKeyForRealmAndName r n = mapKeyForRealmAndName r' n' -> r = r' /\ ToLower n = ToLower n'.
Proof. intros E. by apply fmt_d_key_inj in E. Qed.
Lemma name_key_prefix r n r' : HasPrefix (mapKeyForRealmAndName r n) (fmt_d r' +:+ ":") = bool_decide (r = r').
Proof. apply HasPrefix_realm. Qed.
Lemma same_name_key char char' : named char -> named char' ->
  mapKeyForRealmAndName (RealmID char) (Name char) = mapKeyForRealmAndName (RealmID char') (Name char') <->
  (RealmID char, GUID char) = (RealmID char', GUID char').
Proof.
  unfold named. intros H1 H2. split.
  - intros [E1 E2]%name_key_inj. f_equal; [done|]. apply (who_inj (RealmID char)). by rewrite <- H1, E1, <- H2.
  - intros [= E1 E2]. unfold mapKeyForRealmAndName. by rewrite H1, H2, E1, E2.
Qed.
Lemma lookup_foldl_delete {A V} (f : A -> string) (l : list A) (m : gmap string V) k v :
  foldl (fun m e => delete (f e) m) m l !! k = Some v <-> m !! k = Some v /\ forall e, e ∈ l -> f e <> k.
Proof.
  revert m. induction l as [|x l IH]; intros m; simpl.
  - split; [|tauto]. intros Hm. split; [done|]. by intros e ?%elem_of_nil.
  - rewrite IH, lookup_delete_Some. setoid_rewrite elem_of_cons. naive_solver.
Qed.
Lemma simulates_LogIn char m c : named char -> simulates m c ->
  simulates (<[(RealmID char, GUID char) := char]> m) (AddCharacter char c).
Proof.
  intros Hn [Hk Hg Hnm Hgk]. constructor; simpl.
  - intros r g ch [[[= <- <-] <-]|[_ Hl]]%lookup_insert_Some; [done|by apply Hk].
  - intros r g. unfold CharacterByRealmAndGUID, AddCharacter; cbn [charsByGUID].
    destruct (decide ((r, g) = (RealmID char, GUID char))) as [[= -> ->]|Hne]; [by rewrite !lookup_insert_eq|].
    rewrite !lookup_insert_ne; [apply Hg|congruence|]. intros E. apply guid_key_inj in E. apply Hne. naive_solver.
  - intros k ch. rewrite !lookup_insert_Some, Hnm. split.
    + intros [[<- <-]|(Hne & -> & Hm)]; [naive_solver|]. split; [done|]. right. split; [|done].
      intros E. apply Hne. apply same_name_key; [done|by eapply Hk|done].
    + intros (-> & [[E <-]|[Hne Hm]]); [by left|]. right. split; [|done]. intros E. apply Hne.
      apply same_name_key in E; [done|done|by eapply Hk].
  - intros k ch [[<- <-]|[_ Hl]]%lookup_insert_Some; [done|by apply Hgk].
Qed.
Lemma simulates_LogOut r g m c : simulates m c -> simulates (delete (r, g) m) (RemoveCharacter r g c).
Proof.
  intros [Hk Hg Hnm Hgk]. constructor; simpl.
  - intros r' g' ch [_ Hl]%lookup_delete_Some. by apply Hk.
  - intros r' g'. unfold CharacterByRealmAndGUID, RemoveCharacter; cbn [charsByGUID].
    destruct (decide ((r', g') = (r, g))) as [[= -> ->]|Hne]; [by rewrite !lookup_delete_eq|].
    rewrite !lookup_delete_ne; [apply Hg|congruence|]. intros E. apply guid_key_inj in E. apply Hne. naive_solver.
  - intros k ch. change (charsByGUID c !! mapKeyForRealmAndGuid r g) with (CharacterByRealmAndGUID r g c). rewrite Hg.
    destruct (m !! (r, g)) as [old|] eqn:Hold; [|rewrite Hnm, lookup_delete_Some; naive_solver].
    destruct (Hk _ _ _ Hold) as (<- & <- & Hold'). rewrite !lookup_delete_Some, Hnm. split.
    + intros (Hne & -> & Hm). split_and!; [done| |done]. intros E. apply Hne. apply same_name_key; [done|by eapply Hk|done].
    + intros (-> & Hne & Hm). split_and!; [|done|done]. intros E. apply Hne. apply same_name_key in E; [done|done|by eapply Hk].
  - intros k ch [_ Hl]%lookup_delete_Some. by apply Hgk.
Qed.
Lemma elem_of_realm_entries r m c k char : simulates m c ->
  (k, char) ∈ realm_entries r c <-> charsByName c !! k = Some char /\ RealmID char = r.
Proof.
  intros Hs. unfold realm_entries. rewrite list_elem_of_filter, elem_of_go_range. simpl.
  split; intros [H1 H2].
  - split; [done|]. apply (si_name _ _ Hs) in H2 as [-> _]. rewrite name_key_prefix in H1. by apply bool_decide_eq_true in H1.
  - split; [|done]. apply (si_name _ _ Hs) in H1 as [-> _]. rewrite name_key_prefix. by apply bool_decide_eq_true.
Qed.
Lemma simulates_RealmGone r m c : simulates m c ->
  simulates (filter (fun e => e.1.1 <> r) m) (RemoveCharactersWithRealm r c).
Proof.
  intros Hs. pose proof Hs as [Hk Hg Hnm Hgk]. constructor; simpl.
  - intros r' g' ch [Hl _]%map_lookup_filter_Some. exact (Hk _ _ _ Hl).
  - intros r' g'. apply option_eq. intros ch. unfold CharacterByRealmAndGUID, RemoveCharactersWithRealm; cbn [charsByGUID].
    rewrite lookup_foldl_delete, map_lookup_filter_Some. simpl.
    change (charsByGUID c !! _) with (CharacterByRealmAndGUID r' g' c). rewrite Hg. split; intros [Hm Hr]; (split; [exact Hm|]).
    + intros ->. destruct (Hk _ _ _ Hm) as (Hr' & <- & _).
      apply (Hr (mapKeyForRealmAndName (RealmID ch) (Name ch), ch)); [|done].
      apply (elem_of_realm_entries r m); [done|]. split; [|done]. apply Hnm. by rewrite Hr'.
    + intros [k e] _ E. apply guid_key_inj in E as [-> _]. by destruct Hr.
  - intros k ch. rewrite lookup_foldl_delete, map_lookup_filter_Some, Hnm. simpl. split.
    + intros ((-> & Hm) & Hr). split_and!; [done|done|]. intros E.
      apply (Hr (mapKeyForRealmAndName (RealmID ch) (Name ch), ch)); [|done].
      apply (elem_of_realm_entries r m); [done|]. split; [by apply Hnm|done].
    + intros (-> & Hm & Hne). split_and!; [done|done|]. intros [k e] He. simpl. intros ->.
      apply (elem_of_realm_entries r m) in He as [He1 He2]; [|done]. apply Hnm in He1 as [E He1].
      apply Hne. rewrite <- He2. apply name_key_inj in E. naive_solver.
  - intros k ch [Hl _]%lookup_foldl_delete. by apply Hgk.
Qed.
End Sessions.

(** C18: the two indexes of the online characters implement one map from realm
    and guid to the character: after any logins, logouts and lost gateways,
    from the empty repository, a lookup by guid is the map's, and a lookup by
    name finds the character of the map that has the name in any case.  Names
    identify the characters of a realm. *)
Theorem sessions_refine `{MapRange} (who : u32 -> u64 -> string) (ops : list session_op) :
  (forall r g g', who r g = who r g' -> g = g') -> Forall (op_named who) ops ->
  let m := foldl (fun m op => spec_session op m) ∅ ops in
  let c := foldl (fun c op => run_session op c) NewCharactersInMemRepo ops in
  (forall r g, CharacterByRealmAndGUID r g c = m !! (r, g)) /\
  (forall r name char, CharacterByRealmAndName r name c = Some char <->
     RealmID char = r /\ ToLower (Name char) = ToLower name /\ m !! (r, GUID char) = Some char).
Proof.
  intros Hinj Hops m c.
  assert (simulates who m c) as [Hk Hg Hnm _].
  { unfold m, c. assert (Hs : simulates who ∅ NewCharactersInMemRepo) by (constructor; set_solver).
    revert Hs. generalize (∅ : gmap (u32 * u64) Character), NewCharactersInMemRepo. clear m c.
    induction Hops as [|op ops Hop _ IH]; intros m c Hs; [done|]. cbn [foldl]. apply IH.
    destruct op; [by apply simulates_LogIn|by apply simulates_LogOut|by apply simulates_RealmGone]. }
  split; [exact Hg|]. intros r name char. unfold CharacterByRealmAndName. rewrite Hnm. split.
  - intros ([<- E]%name_key_inj & Hm). done.
  - intros (<- & E & Hm). split; [|done]. unfold mapKeyForRealmAndName. by rewrite E.
Qed.

#[local] Existing Instance map_range_canonical.
Definition player_names (r : u32) (g : u64) : string := "p" +:+ fmt_d g.
Definition player (r : u32) (gw : string) (g : u64) (name : string) : Character :=
  {| RealmID := r; GatewayID := gw; GUID := g; Name := name; Race := 1 |}.
(** Three players log in, one of them again elsewhere; one logs out and a
    gateway of the second realm is lost. *)
Lemma sessions_refine_witness :
  let ops := [LogIn (player 1 "a" 10 "P10"); LogIn (player 1 "b" 11 "p11"); LogIn (player 2 "a" 10 "p10");
              LogIn (player 1 "b" 10 "p10"); LogOut 1 11; RealmGone 2] in
  let c := foldl (fun c op => run_session op c) NewCharactersInMemRepo ops in
  CharacterByRealmAndGUID 1 10 c = Some (player 1 "b" 10 "p10") /\ CharacterByRealmAndName 2 "p10" c = None /\
  forall r g, CharacterByRealmAndGUID r g c = (foldl (fun m op => spec_session op m) ∅ ops : gmap (u32 * u64) Character) !! (r, g).
Proof.
  split; [vm_compute; reflexivity|]. split; [vm_compute; reflexivity|].
  apply (sessions_refine player_names).
  - intros r g g' E. unfold player_names in E. apply append_inv_head in E. exact (inj pretty _ _ E).
  - repeat constructor; vm_compute; reflexivity.
Defined.
