(* ===== verification/ChatServer.v ===== *)
(** * ChatServer: the requests and events the chat server handles
    (apps/chatserver/server/chat.go, chat-channels.go,
    apps/chatserver/service/characters-listener.go, channels-listener.go,
    serversregistry-listener.go)

    A response is its status with what else it carries.  The goroutine that
    SendChannelMessage starts is run after the message is published. *)
From S2P Require Import Prelude GoRuntime GoStrings ChannelsRepo Channels ChannelManager ChatSessions.

#[export] Instance chat_err_eq : EqDecision chat_err.
Proof. solve_decision. Defined.

(** [errors.Is] *)
Fixpoint Is (err target : chat_err) : bool :=
  bool_decide (err = target) || match err with ErrChatWrap e => Is e target | _ => false end.

Inductive chat_status :=
| StOk | StBanned | StWrongPassword | StNotMember | StMuted | StNotModerator | StNotOwner | StPlayerNotFound
| StPlayerNotBanned | StPlayerAlreadyMember | StCharacterNotFound.
Record ChannelInfo := { i_Name : string; i_ChannelID : u32; i_Flags : u32; NumMembers : u32; MemberFlags : u32 }.
Inductive chat_body :=
| NoBody
| InfoBody (channel : ChannelInfo)
| MembersBody (members : list (u64 * string * u32))
| EnabledBody (enabled : bool)
| ReceiverBody (receiverGUID : u64).
Definition chat_response : Type := chat_status * chat_body.

Record ChatService (D : Type) := Chat { channelMgr : ChannelManager D; charRepo : charactersInMemRepo }.
Arguments Chat {D}. Arguments channelMgr {D}. Arguments charRepo {D}.

Section Server.
Context `{MapRange} {D : Type} (R : ChannelsRepo D).
Variable serviceID : string.
Abbreviation M A := (go (ChatService D) chat_event chat_err A).

Definition in_mgr {A} (m : go (ChannelManager D) chat_event chat_err A) : M A :=
  zoom channelMgr (fun cm s => Chat cm (charRepo s)) m.
Definition on_chars (f : charactersInMemRepo -> charactersInMemRepo) : M unit :=
  modify (fun s => Chat (channelMgr s) (f (charRepo s))).
(** [if err != nil { if errors.Is(err, ...) { return status } ... return err }] *)
Definition reply_err {A} (statuses : list (chat_err * chat_status)) (m : M A) (k : A -> M chat_response) : M chat_response :=
  fun s => match m s with
  | (Ok a, s') => k a s'
  | (Fail e, s') => match find (fun p => Is e p.1) statuses with
                    | Some p => (Ok (p.2, NoBody), s')
                    | None => (Fail e, s')
                    end
  | (Panic, s') => (Panic, s')
  end.
Definition channel_now (realmID : u32) (channelName : string) (team : Z) : M (option ActiveChannel) :=
  in_mgr (GetChannel realmID channelName team).

(** ** Broadcasts *)
Definition broadcastChannelMessage (realmID : u32) (ch : ActiveChannel) (senderGUID : u64) (senderName : string)
    (language : u32) (message : string) : M unit :=
  publish ErrChatBus (ChannelMessageEv realmID (ac_name ch) (ac_channelID ch) senderGUID senderName language message).
Definition broadcastChannelJoined (realmID : u32) (ch : ActiveChannel) (playerGUID : u64) (playerName : string) : M unit :=
  publish ErrChatBus (ChannelJoinedEv serviceID realmID (ac_name ch) (ac_channelID ch) playerGUID playerName
    (GetMemberFlags ch playerGUID)).
Definition broadcastChannelLeft (realmID : u32) (ch : ActiveChannel) (playerGUID : u64) (playerName : string) : M unit :=
  publish ErrChatBus (ChannelLeftEv serviceID realmID (ac_name ch) (ac_channelID ch) playerGUID playerName).
Definition broadcastModeChange (realmID : u32) (ch : ActiveChannel) (targetGUID : u64) : M unit :=
  publish ErrChatBus (ChannelNotificationEv realmID (ac_name ch) (ac_channelID ch) 0x0C targetGUID "" 0 0).
Definition broadcastOwnerChanged (realmID : u32) (ch : ActiveChannel) (newOwnerGUID : u64) : M unit :=
  publish ErrChatBus (ChannelNotificationEv realmID (ac_name ch) (ac_channelID ch) 0x08 newOwnerGUID "" 0 0).
(** [if channel != nil { broadcasts }] *)
Definition if_channel (realmID : u32) (channelName : string) (team : Z) (k : ActiveChannel -> M unit) : M unit :=
  ch ← channel_now realmID channelName team;
  match ch with Some ch => k ch | None => mret tt end.
Definition announce_owner (realmID : u32) (ch : ActiveChannel) (newOwnerGUID : u64) : M unit :=
  log_err (broadcastModeChange realmID ch newOwnerGUID) ;; log_err (broadcastOwnerChanged realmID ch newOwnerGUID).

(** ** Requests *)
Definition SendWhisperMessage (realmID : u32) (senderGUID : u64) (senderName : string) (senderRace : u32)
    (receiverName : string) (language : u32) (msg : string) : M chat_response :=
  s ← gets charRepo;
  match CharacterByRealmAndName realmID receiverName s with
  | None => mret (StCharacterNotFound, NoBody)
  | Some char =>
    publish ErrChatBus (IncomingWhisper (GatewayID char) senderGUID senderName (wrap8 senderRace) (GUID char) (Name char)
                          language msg) ;;
    mret (StOk, ReceiverBody (GUID char))
  end.

Definition JoinChannel (realmID : u32) (channelName : string) (channelID : u32) (team : Z) (password : string)
    (channelFlags : u32) (playerGUID : u64) (playerName : string) : M chat_response :=
  wrap_err ErrChatWrap (in_mgr (GetOrCreateChannel R realmID channelName channelID team password (wrap8 channelFlags))) ;;
  let key := channelKey realmID channelName team in
  reply_err [(ErrPlayerBanned, StBanned); (ErrWrongPassword, StWrongPassword)]
    (in_mgr (in_channel key (Channels.JoinChannel R realmID playerGUID playerName password;; gets chan))) (fun ch =>
    log_err (broadcastChannelJoined realmID ch playerGUID playerName) ;;
    mret (StOk, InfoBody {| i_Name := ac_name ch; i_ChannelID := ac_channelID ch; i_Flags := ac_flags ch;
                            NumMembers := wrap32 (GetNumMembers ch); MemberFlags := GetMemberFlags ch playerGUID |})).

Definition not_member : list (chat_err * chat_status) :=
  [(ErrNotMember, StNotMember); (ErrChannelNotFound, StNotMember)].
Definition denied_moderator : list (chat_err * chat_status) := not_member ++ [(ErrNotModerator, StNotModerator)].
Definition denied_owner : list (chat_err * chat_status) := not_member ++ [(ErrNotOwner, StNotOwner)].
Definition no_player : list (chat_err * chat_status) := [(ErrPlayerNotFound, StPlayerNotFound)].

Definition LeaveChannel (realmID : u32) (channelName : string) (team : Z) (playerGUID : u64) : M chat_response :=
  reply_err not_member (in_mgr (LeaveChannelByGUID R realmID channelName team playerGUID)) (fun '(playerName, isCustom, newOwnerGUID) =>
    (if isCustom then
       if_channel realmID channelName team (fun ch =>
         log_err (broadcastChannelLeft realmID ch playerGUID playerName) ;;
         if negb (newOwnerGUID =? 0) then announce_owner realmID ch newOwnerGUID else mret tt)
     else mret tt) ;;
    mret (StOk, NoBody)).

(** A message that could not be published is an error. *)
Definition SendChannelMessage (realmID : u32) (channelName : string) (team : Z) (senderGUID : u64) (senderName : string)
    (language : u32) (message : string) : M chat_response :=
  reply_err [(ErrNotMember, StNotMember); (ErrMuted, StMuted)]
    (in_mgr (ValidateSendMessage realmID channelName team senderGUID)) (fun ch =>
    broadcastChannelMessage realmID ch senderGUID senderName language message ;;
    log_err (in_mgr (UpdateLastUsed R realmID channelName team)) ;;
    mret (StOk, NoBody)).

Definition GetChannelList (realmID : u32) (channelName : string) (team : Z) (playerGUID : u64) : M chat_response :=
  ch ← channel_now realmID channelName team;
  match ch with
  | None => mret (StNotMember, NoBody)
  | Some ch =>
    if negb (IsMember ch playerGUID) then mret (StNotMember, NoBody)
    else mret (StOk, MembersBody ((fun m => (PlayerGUID m, PlayerName m, m_Flags m)) <$> GetMembers ch))
  end.

Definition KickFromChannel (realmID : u32) (channelName : string) (team : Z) (kickerGUID : u64) (targetName : string) : M chat_response :=
  reply_err (denied_moderator ++ no_player) (in_mgr (KickPlayer R realmID channelName team kickerGUID targetName)) (fun targetGUID =>
    if_channel realmID channelName team (fun ch => log_err (broadcastChannelLeft realmID ch targetGUID targetName)) ;;
    mret (StOk, NoBody)).
Definition BanFromChannel (realmID : u32) (channelName : string) (team : Z) (bannerGUID : u64) (targetName : string) : M chat_response :=
  reply_err (denied_moderator ++ no_player) (in_mgr (BanPlayerByName R realmID channelName team bannerGUID targetName)) (fun _ =>
    mret (StOk, NoBody)).
Definition UnbanFromChannel (realmID : u32) (channelName : string) (team : Z) (unbannerGUID : u64) (targetName : string) : M chat_response :=
  reply_err [(ErrChannelNotFound, StNotMember); (ErrNotModerator, StNotModerator); (ErrPlayerNotFound, StPlayerNotBanned)]
    (in_mgr (UnbanPlayerByName R realmID channelName team unbannerGUID targetName)) (fun _ => mret (StOk, NoBody)).

Definition change_moderator (on : bool) (realmID : u32) (channelName : string) (team : Z) (setterGUID : u64) (targetName : string) : M chat_response :=
  reply_err (denied_owner ++ no_player) (in_mgr (SetModeratorByName R realmID channelName team setterGUID targetName on)) (fun targetGUID =>
    if_channel realmID channelName team (fun ch => log_err (broadcastModeChange realmID ch targetGUID)) ;;
    mret (StOk, NoBody)).
Definition SetChannelModerator : u32 -> string -> Z -> u64 -> string -> M chat_response := change_moderator true.
Definition UnsetChannelModerator : u32 -> string -> Z -> u64 -> string -> M chat_response := change_moderator false.
Definition change_mute (on : bool) (realmID : u32) (channelName : string) (team : Z) (muterGUID : u64) (targetName : string) : M chat_response :=
  reply_err (denied_moderator ++ no_player) (in_mgr (SetMuteByName R realmID channelName team muterGUID targetName on)) (fun targetGUID =>
    if_channel realmID channelName team (fun ch => log_err (broadcastModeChange realmID ch targetGUID)) ;;
    mret (StOk, NoBody)).
Definition SetChannelMute : u32 -> string -> Z -> u64 -> string -> M chat_response := change_mute true.
Definition UnsetChannelMute : u32 -> string -> Z -> u64 -> string -> M chat_response := change_mute false.

Definition SetChannelOwner (realmID : u32) (channelName : string) (team : Z) (setterGUID : u64) (targetName : string) : M chat_response :=
  reply_err ([(ErrChannelNotFound, StNotMember); (ErrNotOwner, StNotOwner)] ++ no_player)
    (in_mgr (SetOwnerByName R realmID channelName team setterGUID targetName)) (fun targetGUID =>
    if_channel realmID channelName team (fun ch => announce_owner realmID ch targetGUID) ;;
    mret (StOk, NoBody)).
Definition SetChannelPassword (realmID : u32) (channelName : string) (team : Z) (setterGUID : u64) (password : string) : M chat_response :=
  reply_err [(ErrChannelNotFound, StNotMember); (ErrNotOwner, StNotOwner)]
    (in_mgr (ChannelManager.SetChannelPassword R realmID channelName team setterGUID password)) (fun _ => mret (StOk, NoBody)).
Definition ToggleChannelModeration (realmID : u32) (channelName : string) (team : Z) (togglerGUID : u64) : M chat_response :=
  reply_err denied_moderator (in_mgr (ChannelManager.ToggleChannelModeration realmID channelName team togglerGUID)) (fun enabled =>
    mret (StOk, EnabledBody enabled)).
Definition ToggleChannelAnnouncements (realmID : u32) (channelName : string) (team : Z) (togglerGUID : u64) : M chat_response :=
  reply_err denied_moderator (in_mgr (ChannelManager.ToggleChannelAnnouncements R realmID channelName team togglerGUID)) (fun enabled =>
    mret (StOk, EnabledBody enabled)).

Definition InviteToChannel (realmID : u32) (channelName : string) (team : Z) (inviterGUID : u64) (targetName : string) : M chat_response :=
  s ← gets charRepo;
  match CharacterByRealmAndName realmID targetName s with
  | None => mret (StPlayerNotFound, NoBody)
  | Some targetChar =>
    ch ← channel_now realmID channelName team;
    match ch with
    | None => mret (StNotMember, NoBody)
    | Some ch =>
      if negb (IsMember ch inviterGUID) then mret (StNotMember, NoBody)
      else if IsMember ch (GUID targetChar) then mret (StPlayerAlreadyMember, NoBody)
      else
        log_err (publish ErrChatBus (ChannelNotificationEv realmID channelName (ac_channelID ch) 0x18 inviterGUID targetName
                                       inviterGUID (GUID targetChar))) ;;
        mret (StOk, NoBody)
    end
  end.

(** ** Events from the other services *)
Definition CharacterLoggedIn (realmID : u32) (gatewayID : string) (charGUID : u64) (charName : string) (charRace : u8) : M unit :=
  on_chars (AddCharacter {| RealmID := realmID; GatewayID := gatewayID; GUID := charGUID; Name := charName; Race := charRace |}).

Fixpoint announce_transfers (realmID : u32) (transfers : list OwnershipTransfer) : M unit :=
  match transfers with
  | [] => mret tt
  | t :: transfers =>
    log_err (publish ErrChatBus (ChannelNotificationEv realmID (t_ChannelName t) (t_ChannelID t) 0x0C (NewOwnerGUID t) "" 0 0)) ;;
    log_err (publish ErrChatBus (ChannelNotificationEv realmID (t_ChannelName t) (t_ChannelID t) 0x08 (NewOwnerGUID t) "" 0 0)) ;;
    announce_transfers realmID transfers
  end.
Definition CharacterLoggedOut (realmID : u32) (charGUID : u64) : M unit :=
  transfers ← in_mgr (TransferOwnershipOnLogout R realmID charGUID);
  announce_transfers realmID transfers ;;
  on_chars (RemoveCharacter realmID charGUID).

(** A join or leave another chat server announced: always the key of team 0
    and an empty password. *)
Definition SyncJoined (origin : string) (realmID : u32) (channelName : string) (channelID : u32) (playerGUID : u64)
    (playerName : string) : M unit :=
  if String.eqb origin serviceID then mret tt
  else
    ch ← try_err (in_mgr (GetOrCreateChannel R realmID channelName channelID 0 "" ChannelFlagCustom));
    match ch with
    | None => mret tt
    | Some _ => log_err (in_mgr (in_channel (channelKey realmID channelName 0) (Channels.JoinChannel R realmID playerGUID playerName "")))
    end.
Definition SyncLeft (origin : string) (realmID : u32) (channelName : string) (playerGUID : u64) : M unit :=
  if String.eqb origin serviceID then mret tt
  else
    ch ← channel_now realmID channelName 0;
    match ch with
    | None => mret tt
    | Some _ =>
      log_err (in_mgr (in_channel (channelKey realmID channelName 0) (Channels.LeaveChannel R realmID playerGUID ;; mret tt)))
    end.

Definition GatewayRemovedUnhealthy (realmID : u32) : M unit := on_chars (RemoveCharactersWithRealm realmID).
End Server.
