(* ===== verification/ChatSafety.v ===== *)
(** * ChatSafety: what holds through every request of the chat server

    [chan_ok w P c] is the invariant of a channel: members are stored under
    their guids, the guids [P] are members, and the ban [w] that is watched
    stands while its player is no member.  [W watch K m] is the invariant of
    the manager: the channels of the keys [K] exist and each channel is well
    formed for the ban watched under its key. *)
From S2P Require Import Prelude Safety GoRuntime GoStrings ChannelsRepo Channels ChannelManager ChatSessions ChatServer.

Definition ban_watch : Type := option (u64 * Z).
Definition bans_hold (w : ban_watch) (now : Z) (c : ActiveChannel) : Prop :=
  match w with
  | Some (g, T) => bannedUntil c !! g = Some T /\ members c !! g = None /\ now < T
  | None => True
  end.
Record ch_ok (w : ban_watch) (P : list u64) (now : Z) (c : ActiveChannel) : Prop := {
  ck_keyed : forall g m, members c !! g = Some m -> PlayerGUID m = g;
  ck_present : forall g, g ∈ P -> is_Some (members c !! g);
  ck_bans : bans_hold w now c
}.
(** A member to store: under its guid, and not the banned player. *)
Definition mem_ok (w : ban_watch) (g : u64) (m : ChannelMember) : Prop :=
  PlayerGUID m = g /\ match w with Some (g', _) => g <> g' | None => True end.
Lemma ch_mem_ok w P now c g m : ch_ok w P now c -> members c !! g = Some m -> mem_ok w g m.
Proof.
  intros [Hk _ Hb] Hg. split; [by apply Hk|]. destruct w as [[g' T]|]; [|done]. intros ->. destruct Hb as (_ & Hn & _). congruence.
Qed.
Lemma ch_ok_insert w P now c g m : mem_ok w g m -> ch_ok w P now c ->
  ch_ok w P now (ac_set_members (<[g := m]> (members c)) (ac_ownerGUID c) c).
Proof.
  intros [Hm Hw] [Hk Hp Hb]. constructor; simpl.
  - intros k m' [[<- <-]|[_ Hl]]%lookup_insert_Some; [done|by apply Hk].
  - intros k Hin. rewrite lookup_insert_is_Some'. right. by apply Hp.
  - destruct w as [[g' T]|]; [|done]. simpl in *. by rewrite lookup_insert_ne.
Qed.
Lemma ch_ok_delete w now c g : ch_ok w [] now c -> ch_ok w [] now (ac_set_members (delete g (members c)) (ac_ownerGUID c) c).
Proof.
  intros [Hk Hp Hb]. constructor; simpl.
  - intros k m' [_ Hl]%lookup_delete_Some. by apply Hk.
  - by intros k ?%elem_of_nil.
  - destruct w as [[g' T]|]; [|done]. simpl in *. rewrite lookup_delete_None. tauto.
Qed.
Lemma ch_ok_alter w P now c g (f : ChannelMember -> ChannelMember) : (forall m, PlayerGUID (f m) = PlayerGUID m) ->
  ch_ok w P now c -> ch_ok w P now (ac_set_members (alter f g (members c)) (ac_ownerGUID c) c).
Proof.
  intros Hf [Hk Hp Hb]. constructor; simpl.
  - intros k m'. rewrite lookup_alter_Some. intros [(<- & m & Hm & ->)|[_ Hl]]; [rewrite Hf|]; by apply Hk.
  - intros k Hin. rewrite lookup_alter_is_Some. by apply Hp.
  - destruct w as [[g' T]|]; [|done]. simpl in *. rewrite lookup_alter_None. tauto.
Qed.
(** Only the members, the bans and the time matter. *)
Lemma ch_ok_same w P now c c' : members c' = members c -> bannedUntil c' = bannedUntil c -> ch_ok w P now c -> ch_ok w P now c'.
Proof. intros E1 E2 [Hk Hp Hb]. constructor; unfold bans_hold in *; rewrite ?E1, ?E2; done. Qed.

Lemma safe_zoom {C D E X A} (I : C -> Prop) (J : D -> Prop) get put (m : go D E X A) Q :
  (forall c, I c -> J (get c)) -> (forall c d, I c -> J d -> I (put d c)) -> safe J m Q -> safe I (zoom get put m) Q.
Proof.
  intros Hg Hp Hm s Hs. unfold zoom. specialize (Hm (Sys (get (st s)) (faults s) (events s)) (Hg _ Hs)).
  destruct (m _) as [[a|e|] s1]; simpl; [split; [apply Hp; [done|apply Hm]|apply Hm]|by apply Hp|done].
Qed.
Lemma safe_or_undo {D} (I : conn D -> Prop) call undo : safe I call any -> safe I undo any -> safe I (or_undo call undo) any.
Proof.
  intros Hc Hu s Hs. specialize (Hc s Hs). unfold or_undo. destruct (call s) as [[a|e|] s1]; [done| |done].
  specialize (Hu s1 Hc). unfold mbind, go_bind. by destruct (undo s1) as [[?|?|] ?]; [apply Hu|exact Hu|].
Qed.

(** A repository whose calls return, with or without an error. *)
Definition returns {D A} (m : go D chat_event chat_err A) : Prop := safe any m any.
Record RepoTotal {D} (R : ChannelsRepo D) : Prop := {
  tot_create : forall r c, returns (CreateChannel R r c);
  tot_by_id : forall r i, returns (GetChannelByID R r i);
  tot_by_name : forall r n t, returns (GetChannelByName R r n t);
  tot_all : forall r, returns (GetAllChannels R r);
  tot_update : forall r c, returns (UpdateChannel R r c);
  tot_last_used : forall r i t, returns (UpdateChannelLastUsed R r i t);
  tot_clean : forall r t, returns (CleanOldChannels R r t);
  tot_rights : forall r n, returns (GetChannelRights R r n);
  tot_ban : forall r b, returns (AddChannelBan R r b);
  tot_unban : forall r i g, returns (RemoveChannelBan R r i g);
  tot_bans : forall r i, returns (GetChannelBans R r i);
  tot_clean_bans : forall r t, returns (CleanExpiredBans R r t);
  tot_save : forall r i m, returns (SaveChannelMember R r i m);
  tot_remove : forall r i g, returns (RemoveChannelMember R r i g);
  tot_load : forall r i, returns (LoadChannelMembers R r i);
  tot_flags : forall r i g fl, returns (UpdateMemberFlags R r i g fl)
}.
Lemma MYSQL_total `{MapRange} same_name : RepoTotal (ChannelsMYSQL same_name).
Proof.
  constructor; intros; unfold returns; simpl;
    unfold mysql_CreateChannel, mysql_GetChannelByID, mysql_GetChannelByName, mysql_GetAllChannels, mysql_UpdateChannel,
      mysql_UpdateChannelLastUsed, mysql_CleanOldChannels, mysql_GetChannelRights, mysql_AddChannelBan,
      mysql_RemoveChannelBan, mysql_GetChannelBans, mysql_CleanExpiredBans, mysql_SaveChannelMember,
      mysql_RemoveChannelMember, mysql_LoadChannelMembers, mysql_UpdateMemberFlags, sql, query; safe_tac;
    try (apply safe_modify; done); safe_seq; try (apply safe_modify; done); safe_tac.
Qed.
Lemma Noop_total : RepoTotal ChannelsNoop.
Proof.
  constructor; intros; unfold returns; simpl; try (apply safe_ret; done). unfold noop_CreateChannel. safe_tac.
  safe_seq; [apply safe_modify; done|]. safe_tac.
Qed.

(** ** The methods of a channel *)
Section Channel.
Context `{MapRange} {D : Type} (R : ChannelsRepo D) (HR : RepoTotal R).
Variables (w : ban_watch) (now : Z).
Definition conn_ok (P : list u64) (k : conn D) : Prop := clock k = now /\ ch_ok w P now (chan k).
Abbreviation M A := (go (conn D) chat_event chat_err A).

Lemma safe_in_repo {A} P (m : go D chat_event chat_err A) : returns m -> safe (conn_ok P) (in_repo m) any.
Proof. intros Hm. apply (safe_zoom _ any); [done|by intros [c d t] d' Hk _|exact Hm]. Qed.
Lemma safe_chan P : safe (conn_ok P) (gets chan : M ActiveChannel) (ch_ok w P now).
Proof. apply safe_gets. intros k Hk. apply Hk. Qed.
Lemma safe_chan_clock {A} P (k : ActiveChannel -> Z -> M A) Q :
  (forall c, ch_ok w P now c -> safe (conn_ok P) (k c now) Q) ->
  safe (conn_ok P) (c ← gets chan; t ← gets clock; k c t) Q.
Proof.
  intros Hk s [Ht Hs]. do 2 erewrite bind_run by reflexivity. rewrite Ht. exact (Hk (chan (st s)) Hs s (conj Ht Hs)).
Qed.
Lemma safe_on_chan P f : (forall c, members (f c) = members c) -> (forall c, bannedUntil (f c) = bannedUntil c) ->
  safe (conn_ok P) (on_chan f : M unit) any.
Proof. intros H1 H2. apply safe_modify. intros k [Ht Hk]. split; [done|]. eapply ch_ok_same; [apply H1|apply H2|exact Hk]. Qed.
Lemma safe_set_owner P g : safe (conn_ok P) (set_owner g : M unit) any.
Proof. by apply safe_on_chan. Qed.
Lemma safe_insert P g m : mem_ok w g m -> safe (conn_ok P) (set_members <[g := m]> : M unit) any.
Proof. intros Hm. apply safe_modify. intros k [Ht Hk]. split; [done|]. by apply ch_ok_insert. Qed.
Lemma safe_delete g : safe (conn_ok []) (set_members (delete g) : M unit) any.
Proof. apply safe_modify. intros k [Ht Hk]. split; [done|]. by apply ch_ok_delete. Qed.
Lemma safe_alter P g f : (forall m, PlayerGUID (f m) = PlayerGUID m) -> safe (conn_ok P) (set_members (alter f g) : M unit) any.
Proof. intros Hf. apply safe_modify. intros k [Ht Hk]. split; [done|]. by apply ch_ok_alter. Qed.
(** Changed flags of a member. *)
Lemma mem_ok_flags g m m' : PlayerGUID m' = PlayerGUID m -> mem_ok w g m -> mem_ok w g m'.
Proof. unfold mem_ok. by intros ->. Qed.

(** [c ← gets chan;], with what is known of [c]. *)
Ltac read_chan c Hc :=
  match goal with |- safe (conn_ok ?P) _ _ =>
    apply (safe_bind _ _ _ (ch_ok w P now)); [apply safe_chan|intros c Hc] end.

Lemma safe_JoinChannel r g name password :
  safe (conn_ok []) (Channels.JoinChannel R r g name password) any.
Proof.
  unfold Channels.JoinChannel. apply safe_chan_clock. intros c Hc. safe_step.
  match goal with Hb : _ = false |- _ => rename Hb into Hban end. safe_step. safe_step; [by apply safe_ret|].
  safe_seq; [safe_tac; by apply safe_set_owner|].
  safe_seq; [apply safe_insert|].
  - split; [done|]. destruct w as [[g' T]|] eqn:Ew; [|done]. intros ->. destruct (ck_bans _ _ _ _ Hc) as (Hb & _ & Hlt).
    rewrite Hb in Hban. apply Z.ltb_ge in Hban. lia.
  - apply safe_or_undo; [apply safe_in_repo, HR|apply safe_delete].
Qed.
Lemma safe_give_ownership P r g : safe (conn_ok P) (give_ownership R r g) any.
Proof.
  unfold give_ownership. safe_seq; [by apply safe_alter|]. safe_seq; [apply safe_set_owner|]. read_chan c Hc.
  apply safe_log_err, safe_in_repo, HR.
Qed.
Lemma safe_LeaveChannel r g : safe (conn_ok []) (Channels.LeaveChannel R r g) any.
Proof.
  unfold Channels.LeaveChannel. read_chan c Hc. safe_step. safe_seq; [apply safe_delete|].
  safe_seq; [apply safe_or_undo; [apply safe_in_repo, HR|apply safe_insert; by eapply ch_mem_ok]|].
  read_chan c' Hc'. safe_tac. safe_seq; [safe_tac; apply safe_give_ownership|]. safe_tac.
Qed.
Lemma safe_SetFlag bit r g on : safe (conn_ok []) (SetFlag R bit r g on) any.
Proof.
  unfold SetFlag. read_chan c Hc. safe_step. assert (Hm : mem_ok w g a) by by eapply ch_mem_ok.
  safe_seq; [apply safe_insert; apply (mem_ok_flags g a); [by destruct on|done]|].
  apply safe_or_undo; [apply safe_in_repo, HR|by apply safe_insert].
Qed.
Lemma safe_drop_owner P r : safe (conn_ok P) (drop_owner R r) any.
Proof.
  unfold drop_owner. read_chan c Hc. safe_step; [by apply safe_ret|]. destruct (members c !! _) as [o|] eqn:Ho; [|by apply safe_ret].
  assert (Hm : mem_ok w (ac_ownerGUID c) o) by by eapply ch_mem_ok.
  safe_seq; [apply safe_insert; by apply (mem_ok_flags _ o)|].
  safe_seq; [apply safe_or_undo; [apply safe_in_repo, HR|by apply safe_insert]|]. by apply safe_ret.
Qed.
Lemma safe_SetOwner r g : safe (conn_ok []) (SetOwner R r g) any.
Proof.
  assert (Hin : safe (conn_ok [g]) (SetOwner R r g) any).
  { unfold SetOwner. read_chan c Hc. safe_seq; [by eapply safe_post; [apply safe_not_nil|]|].
    apply (safe_bind _ _ _ any); [apply safe_drop_owner|intros o _]. read_chan c' Hc'.
    apply (safe_bind _ _ _ (fun m => members c' !! g = Some m)); [apply safe_deref, (ck_present _ _ _ _ Hc'); left|intros m Hm].
    assert (Hok : mem_ok w g m) by by eapply ch_mem_ok.
    safe_seq; [apply safe_insert; by apply (mem_ok_flags _ m)|].
    safe_seq; [apply safe_or_undo; [apply safe_in_repo, HR|]|apply safe_set_owner].
    safe_seq; [by apply safe_insert|]. destruct o; [by apply safe_alter|by apply safe_ret]. }
  intros s Hs. destruct (members (chan (st s)) !! g) as [m|] eqn:Hg.
  - assert (Hs' : conn_ok [g] (st s)).
    { destruct Hs as [Ht [H1 _ H3]]. split; [done|]. constructor; [done| |done]. intros k ->%list_elem_of_singleton. by exists m. }
    specialize (Hin s Hs'). destruct (SetOwner R r g s) as [[?|?|] s1]; [split; [|done]; destruct Hin as [Hin _]|..]; try done.
    all: destruct Hin as [Ht [H1 _ H3]]; split; [done|]; constructor; [done| |done]; by intros k ?%elem_of_nil.
  - unfold SetOwner. erewrite bind_run by reflexivity. by rewrite Hg.
Qed.
Lemma safe_store r : safe (conn_ok []) (store_channel R r) any.
Proof. unfold store_channel. safe_step. safe_step. apply safe_in_repo, HR. Qed.
Lemma safe_transfer r g : safe (conn_ok []) (transfer_on_logout R r g) any.
Proof.
  unfold transfer_on_logout. read_chan c Hc. destruct (members c !! g) as [m|] eqn:Hg; [|by apply safe_ret].
  safe_step; [by apply safe_ret|]. safe_step; [by apply safe_ret|].
  safe_seq; [apply safe_insert; apply (mem_ok_flags _ m); [done|by eapply ch_mem_ok]|].
  safe_seq; [apply safe_log_err, safe_in_repo, HR|]. safe_seq; [apply safe_give_ownership|]. by apply safe_ret.
Qed.
Lemma safe_prune r online : safe (conn_ok []) (PruneOfflineMembers R r online) any.
Proof.
  assert (Hrem : forall i l, safe (conn_ok []) (remove_offline R r i l) any).
  { intros i l. induction l as [|g l IH]; cbn [remove_offline]; [by apply safe_ret|].
    safe_seq; [apply safe_delete|]. safe_seq; [apply safe_log_err, safe_in_repo, HR|]. exact IH. }
  unfold PruneOfflineMembers. read_chan c Hc. safe_seq; [apply Hrem|]. safe_step; [|by apply safe_ret].
  safe_seq; [apply safe_set_owner|]. read_chan c' Hc'. safe_tac. apply safe_give_ownership.
Qed.
End Channel.

(** ** The manager *)

(** A step whose success establishes [J]. *)
Definition safe_to {C E X A} (I J : C -> Prop) (m : go C E X A) : Prop :=
  forall s, I (st s) -> match m s with (Ok _, s') => J (st s') | (Fail _, s') => I (st s') | (Panic, _) => False end.
Lemma safe_to_bind {C E X A B} (I J : C -> Prop) (m : go C E X A) (k : A -> go C E X B) Q :
  safe I m Q -> (forall a, Q a -> safe_to I J (k a)) -> safe_to I J (m ≫= k).
Proof.
  intros Hm Hk s Hs. specialize (Hm s Hs). unfold mbind, go_bind. destruct (m s) as [[a|e|] s1]; [|done..].
  destruct Hm as [Hs1 Ha]. exact (Hk a Ha s1 Hs1).
Qed.
Lemma safe_bind_to {C E X A B} (I J : C -> Prop) (m : go C E X A) (k : A -> go C E X B) Q :
  safe_to I J m -> (forall c, J c -> I c) -> (forall a, safe J (k a) Q) -> safe I (m ≫= k) Q.
Proof.
  intros Hm HJ Hk s Hs. specialize (Hm s Hs). unfold mbind, go_bind. destruct (m s) as [[a|e|] s1]; [|done..].
  specialize (Hk a s1 Hm). destruct (k a s1) as [[b|e|] s2]; [split; [apply HJ, Hk|apply Hk]|by apply HJ|done].
Qed.

Section Manager.
Context `{MapRange} {D : Type}.
Variable watch : string -> ban_watch.
Record W (K : gset string) (m : ChannelManager D) : Prop := {
  w_ok : forall key c, channels m !! key = Some c -> ch_ok (watch key) [] (cm_now m) c;
  w_present : forall key, key ∈ K -> is_Some (channels m !! key);
  w_watched : forall key, is_Some (watch key) -> is_Some (channels m !! key)
}.
Abbreviation M A := (go (ChannelManager D) chat_event chat_err A).
Abbreviation known key := (fun c => exists now, ch_ok (watch key) [] now c).
(** Not the player watched under the key. *)
Definition free (key : string) (g : u64) : Prop := match watch key with Some (g', _) => g <> g' | None => True end.

Lemma W_less K K' m : K ⊆ K' -> W K' m -> W K m.
Proof. intros Hle [H1 H2 H3]. constructor; [done| |done]. auto. Qed.
Lemma W_channel K key c m : channels m !! key = Some c -> W K m -> W ({[key]} ∪ K) m.
Proof. intros Hc [H1 H2 H3]. constructor; [done| |done]. intros k [->%elem_of_singleton|Hk]%elem_of_union; [by exists c|auto]. Qed.
Lemma W_insert K key c m d : ch_ok (watch key) [] (cm_now m) c -> W K m -> W ({[key]} ∪ K) (Mgr (<[key := c]> (channels m)) d (cm_now m)).
Proof.
  intros Hc [H1 H2 H3]. constructor; simpl.
  - intros k c' [[<- <-]|[_ Hl]]%lookup_insert_Some; [done|by apply H1].
  - intros k [->%elem_of_singleton|Hk]%elem_of_union; rewrite lookup_insert_is_Some'; [by left|right; auto].
  - intros k Hk. rewrite lookup_insert_is_Some'. right. auto.
Qed.
Lemma safe_on_repo {A} K (m : go D chat_event chat_err A) : returns m -> safe (W K) (on_repo m) any.
Proof. intros Hm. apply (safe_zoom _ any); [done|by intros [c d t] d' [H1 H2 H3] _|exact Hm]. Qed.
Lemma safe_in_channel {A} K key (m : go (conn D) chat_event chat_err A) Q :
  key ∈ K -> (forall now, safe (conn_ok (watch key) now []) m Q) -> safe (W K) (in_channel key m) Q.
Proof.
  intros Hk Hm s Hs. unfold in_channel. erewrite bind_run by reflexivity.
  destruct (w_present _ _ Hs key Hk) as [c Hc]. rewrite Hc. erewrite bind_run by reflexivity. unfold zoom.
  specialize (Hm (cm_now (st s)) (Sys (Conn c (cm_repo (st s)) (cm_now (st s))) (faults s) (events s)) (conj eq_refl (w_ok _ _ Hs _ _ Hc))).
  assert (Hput : forall k, conn_ok (watch key) (cm_now (st s)) [] k -> W K (Mgr (<[key := chan k]> (channels (st s))) (repo k) (clock k))).
  { intros k [-> Hok]. apply (W_less _ ({[key]} ∪ K)); [set_solver|]. by apply W_insert. }
  destruct (m _) as [[a|e|] s1]; [split; [apply Hput, Hm|apply Hm]|by apply Hput|done].
Qed.
Lemma safe_with_channel {A} K e r name team (k : string -> ActiveChannel -> M A) Q :
  (forall ch, known (channelKey r name team) ch ->
     safe (W ({[channelKey r name team]} ∪ K)) (k (channelKey r name team) ch) Q) ->
  safe (W K) (with_channel e r name team k) Q.
Proof.
  intros Hk s Hs. unfold with_channel, GetChannel. erewrite bind_run by reflexivity.
  destruct (channels (st s) !! channelKey r name team) as [ch|] eqn:Hch; [|done]. erewrite bind_run by reflexivity.
  specialize (Hk ch (ex_intro _ _ (w_ok _ _ Hs _ _ Hch)) s (W_channel _ _ _ _ Hch Hs)).
  destruct (k _ ch s) as [[a|x|] s1]; [split; [|apply Hk]|..]; try done.
  - eapply W_less; [|apply Hk]. set_solver.
  - eapply W_less; [|exact Hk]. set_solver.
Qed.

Lemma loaded_keyed l g m : loaded_members l !! g = Some m -> PlayerGUID m = g.
Proof.
  unfold loaded_members. assert (Hall : forall t : gmap u64 ChannelMember, (forall g m, t !! g = Some m -> PlayerGUID m = g) ->
    foldl (fun t m => <[PlayerGUID m := m]> t) t l !! g = Some m -> PlayerGUID m = g).
  { induction l as [|x l IH]; simpl; intros t Ht; [apply Ht|]. apply IH.
    intros k v [[<- <-]|[_ Hl]]%lookup_insert_Some; [done|by apply Ht]. }
  by apply Hall.
Qed.
Context (R : ChannelsRepo D) (HR : RepoTotal R).
Lemma safe_GetOrCreate K r name i team password flags :
  safe_to (W K) (W ({[channelKey r name team]} ∪ K)) (GetOrCreateChannel R r name i team password flags).
Proof.
  intros s Hs. unfold GetOrCreateChannel. erewrite bind_run by reflexivity.
  destruct (channels (st s) !! channelKey r name team) as [ch|] eqn:Hch; [by eapply W_channel|].
  assert (Hw : watch (channelKey r name team) = None).
  { destruct (watch (channelKey r name team)) eqn:E; [|done].
    destruct (w_watched _ _ Hs (channelKey r name team)) as [c Hc]; [by rewrite E|congruence]. }
  clear Hch. revert s Hs.
  match goal with |- forall s, W K (st s) -> match ?m s with _ => _ end => change (safe_to (W K) (W ({[channelKey r name team]} ∪ K)) m) end.
  eapply safe_to_bind; [apply safe_gets_any|intros now _].
  eapply safe_to_bind; [apply safe_wrap_err, safe_on_repo; destruct (_ && _); apply HR|intros db _].
  apply (safe_to_bind _ _ _ _ any); [destruct db; [by apply safe_ret|apply safe_wrap_err, safe_on_repo, HR]|intros c _].
  do 3 (eapply safe_to_bind; [apply safe_wrap_err, safe_on_repo, HR|intros ? _]).
  intros s Hs. unfold set_channels. erewrite bind_run by reflexivity. cbn. apply W_insert; [|done].
  constructor; [apply loaded_keyed|by intros ? ?%elem_of_nil|]. by rewrite Hw.
Qed.

(** *** The operations *)
Lemma safe_find_member I key ch name : known key ch -> safe I (find_member ch name : M u64) (free key).
Proof.
  intros [now Hc]. unfold find_member. safe_step. apply safe_ret. unfold FindMemberByName in *.
  destruct (head _) as [m|] eqn:E; [|done]. apply head_Some in E as [l E].
  assert (Hm : m ∈ filter (fun m => String.eqb (PlayerName m) name = true) (go_range 17 (members ch)).*2) by (rewrite E; left).
  apply list_elem_of_filter in Hm as [_ Hm]. apply list_elem_of_fmap in Hm as ([g m'] & -> & Hm). apply elem_of_go_range in Hm.
  destruct (ch_mem_ok _ _ _ _ _ _ Hc Hm) as [Hg Hfree]. simpl. rewrite Hg. exact Hfree.
Qed.
Lemma safe_as_member I allowed denied ch g : safe I (as_member allowed denied ch g : M unit) any.
Proof. unfold as_member. safe_step. eapply safe_any, safe_guard. Qed.
Ltac find_target Hc := eapply safe_bind; [by apply safe_find_member|intros ? ?].
Ltac by_member := safe_seq; [apply safe_as_member|].

Lemma safe_bans w now g f : (match w with Some (g', _) => g <> g' | None => True end) ->
  (forall bans : gmap u64 Z, forall g', g <> g' -> f bans !! g' = bans !! g') ->
  safe (conn_ok w now []) (on_chan (D:=D) (fun c => ac_set_bans (f (bannedUntil c)) c)) any.
Proof.
  intros Hw Hf. apply safe_modify. intros k [Ht [H1 H2 H3]]. split; [done|]. constructor; [exact H1|exact H2|].
  destruct w as [[g' T]|]; [|done]. simpl in *. by rewrite Hf.
Qed.
Lemma safe_BanPlayer K r name team g t : free (channelKey r name team) g -> safe (W K) (BanPlayer R r name team g t) any.
Proof.
  intros Hg. apply safe_with_channel. intros ch Hch. safe_seq; [|apply safe_on_repo, HR].
  apply safe_in_channel; [set_solver|]. intros now. apply (safe_bans _ _ g <[g := t]>); [exact Hg|].
  intros bans g' Hne. by apply lookup_insert_ne.
Qed.
Lemma safe_UnbanPlayer K r name team g : free (channelKey r name team) g -> safe (W K) (UnbanPlayer R r name team g) any.
Proof.
  intros Hg. apply safe_with_channel. intros ch Hch. safe_seq; [|apply safe_on_repo, HR].
  apply safe_in_channel; [set_solver|]. intros now. apply (safe_bans _ _ g (delete g)); [exact Hg|].
  intros bans g' Hne. by apply lookup_delete_ne.
Qed.
(** A method on a target that was found by name. *)
Ltac in_chan := safe_seq; [apply safe_in_channel; [set_solver|intros ?]|by apply safe_ret].
Lemma safe_Kick K r name team g target : safe (W K) (KickPlayer R r name team g target) any.
Proof.
  apply safe_with_channel. intros ch Hch. by_member. find_target Hch. in_chan. by apply safe_LeaveChannel.
Qed.
Lemma safe_BanByName K r name team g target : safe (W K) (BanPlayerByName R r name team g target) any.
Proof.
  apply safe_with_channel. intros ch Hch. by_member. find_target Hch. safe_seq.
  - eapply safe_try_err, safe_in_channel; [set_solver|]. intros now. by apply safe_LeaveChannel.
  - safe_step. safe_seq; [by apply safe_wrap_err, safe_BanPlayer|]. by apply safe_ret.
Qed.
Lemma safe_UnbanByName K r name team g target : safe (W K) (UnbanPlayerByName R r name team g target) any.
Proof.
  apply safe_with_channel. intros ch Hch. safe_step. find_target Hch. safe_seq; [by apply safe_UnbanPlayer|]. by apply safe_ret.
Qed.
Lemma safe_SetModeratorByName K r name team g target on : safe (W K) (SetModeratorByName R r name team g target on) any.
Proof. apply safe_with_channel. intros ch Hch. by_member. find_target Hch. in_chan. by apply safe_SetFlag. Qed.
Lemma safe_SetMuteByName K r name team g target on : safe (W K) (SetMuteByName R r name team g target on) any.
Proof. apply safe_with_channel. intros ch Hch. by_member. find_target Hch. in_chan. by apply safe_SetFlag. Qed.
Lemma safe_SetOwnerByName K r name team g target : safe (W K) (SetOwnerByName R r name team g target) any.
Proof. apply safe_with_channel. intros ch Hch. safe_step. find_target Hch. in_chan. by apply safe_SetOwner. Qed.
Lemma safe_modes w now f : (forall c, members (f c) = members c) -> (forall c, bannedUntil (f c) = bannedUntil c) ->
  safe (conn_ok w now []) (on_chan (D:=D) f) any.
Proof. by apply safe_on_chan. Qed.
Lemma safe_Password K r name team g pw : safe (W K) (ChannelManager.SetChannelPassword R r name team g pw) any.
Proof.
  apply safe_with_channel. intros ch Hch. safe_step. apply safe_in_channel; [set_solver|]. intros now.
  unfold SetPassword. safe_seq; [by apply safe_modes|by apply safe_store].
Qed.
Lemma safe_ToggleModeration K r name team g : safe (W K) (ChannelManager.ToggleChannelModeration r name team g) any.
Proof.
  apply safe_with_channel. intros ch Hch. by_member. apply safe_in_channel; [set_solver|]. intros now.
  unfold ToggleModeration. safe_seq; [by apply safe_modes|]. safe_tac.
Qed.
Lemma safe_ToggleAnnouncements K r name team g : safe (W K) (ChannelManager.ToggleChannelAnnouncements R r name team g) any.
Proof.
  apply safe_with_channel. intros ch Hch. by_member. apply (safe_bind _ _ _ any); [|intros on _].
  - apply safe_in_channel; [set_solver|]. intros now. unfold ToggleAnnouncements. safe_seq; [by apply safe_modes|]. safe_tac.
  - safe_seq; [|by apply safe_ret]. apply safe_wrap_err, safe_in_channel; [set_solver|]. intros now. by apply safe_store.
Qed.
Lemma safe_LeaveByGUID K r name team g : safe (W K) (LeaveChannelByGUID R r name team g) any.
Proof.
  apply safe_with_channel. intros ch Hch. apply (safe_bind _ _ _ any); [|intros o _; by apply safe_ret].
  apply safe_in_channel; [set_solver|]. intros now. by apply safe_LeaveChannel.
Qed.
Lemma safe_Validate K r name team g : safe (W K) (ValidateSendMessage (D:=D) r name team g) any.
Proof. apply safe_with_channel. intros ch Hch. safe_tac. Qed.
Lemma safe_UpdateLastUsed K r name team : safe (W K) (UpdateLastUsed R r name team) any.
Proof.
  unfold UpdateLastUsed, GetChannel. safe_step. destruct a; [|by apply safe_ret]. safe_tac. apply safe_on_repo, HR.
Qed.

(** *** All channels *)
Lemma safe_all_channels {A} K (k : gmap string ActiveChannel -> M A) Q :
  (forall cs, safe (W (dom cs ∪ K)) (k cs) Q) -> safe (W K) (gets channels ≫= k) Q.
Proof.
  intros Hk s Hs. erewrite bind_run by reflexivity.
  assert (Hs' : W (dom (channels (st s)) ∪ K) (st s)).
  { destruct Hs as [H1 H2 H3]. constructor; [done| |done]. intros key [Hin|Hin]%elem_of_union; [by apply elem_of_dom|auto]. }
  specialize (Hk (channels (st s)) s Hs'). destruct (k _ s) as [[a|x|] s1]; [split; [|apply Hk]|..]; try done.
  - eapply W_less; [|apply Hk]. set_solver.
  - eapply W_less; [|exact Hk]. set_solver.
Qed.
Lemma realm_keys_dom n r cs key : key ∈ realm_keys n r cs -> key ∈ (dom cs : gset string).
Proof.
  intros [_ Hin]%list_elem_of_filter. apply list_elem_of_fmap in Hin as ([k c] & -> & Hin%elem_of_go_range).
  apply elem_of_dom. by exists c.
Qed.
Lemma safe_Transfer K r g : safe (W K) (TransferOwnershipOnLogout R r g) any.
Proof.
  apply safe_all_channels. intros cs. pose proof (realm_keys_dom 24 r cs) as Hin.
  induction (realm_keys 24 r cs) as [|key keys IH]; cbn [transfer_all]; [by apply safe_ret|].
  apply (safe_bind _ _ _ any); [|intros t _; apply (safe_bind _ _ _ any); [|intros ts _; by apply safe_ret]].
  - apply safe_in_channel; [apply elem_of_union_l, Hin; left|]. intros now.
    apply (safe_bind _ _ _ any); [by apply safe_transfer|intros o _]. safe_tac.
  - apply IH. intros k Hk. apply Hin. by right.
Qed.
Lemma safe_PruneAll K r online : safe (W K) (PruneOfflineMembersFromAllChannels R r online) any.
Proof.
  apply safe_all_channels. intros cs. pose proof (realm_keys_dom 25 r cs) as Hin.
  induction (realm_keys 25 r cs) as [|key keys IH]; cbn [prune_all]; [by apply safe_ret|]. safe_seq.
  - apply safe_log_err, safe_in_channel; [apply elem_of_union_l, Hin; left|]. intros now. by apply safe_prune.
  - apply IH. intros k Hk. apply Hin. by right.
Qed.
Lemma safe_to_safe {A} I J (m : M A) : safe_to I J m -> (forall c, J c -> I c) -> safe I m any.
Proof. intros Hm HJ s Hs. specialize (Hm s Hs). destruct (m s) as [[a|e|] s1]; [split; [by apply HJ|done]|done..]. Qed.
Lemma safe_Preload K r : safe (W K) (PreloadChannels R r) any.
Proof.
  unfold PreloadChannels. apply (safe_bind _ _ _ any); [apply safe_wrap_err, safe_on_repo, HR|intros l _].
  induction l as [|c l IH]; cbn [preload]; [by apply safe_ret|]. safe_seq; [|exact IH].
  eapply safe_try_err, safe_to_safe; [apply safe_GetOrCreate|]. intros m. apply W_less. set_solver.
Qed.
End Manager.

(** Cleaning up removes channels, with the bans it has in memory. *)
Lemma safe_Cleanup `{MapRange} {D} (R : ChannelsRepo D) (HR : RepoTotal R) r inactive :
  safe (W (fun _ => None) ∅) (CleanupStaleChannels R r inactive) any.
Proof.
  unfold CleanupStaleChannels. apply (safe_bind _ _ _ any); [|intros n _].
  - unfold cleanupLocalMemory. safe_step. safe_seq; [|by apply safe_ret]. apply safe_modify. intros m [H1 _ _].
    constructor; [|set_solver|by intros key [? ?]]. intros key c [Hc _]%(lookup_foldl_delete id). exact (H1 key c Hc).
  - safe_step. safe_seq; [apply safe_wrap_err, safe_on_repo, HR|]. apply safe_wrap_err, safe_on_repo, HR.
Qed.

(** ** The server *)

(** The requests of the gateways. *)
Inductive chat_request :=
| RqWhisper (realmID : u32) (senderGUID : u64) (senderName : string) (senderRace : u32) (receiverName : string)
    (language : u32) (msg : string)
| RqJoin (realmID : u32) (channelName : string) (channelID : u32) (team : Z) (password : string) (channelFlags : u32)
    (playerGUID : u64) (playerName : string)
| RqLeave (realmID : u32) (channelName : string) (team : Z) (playerGUID : u64)
| RqMessage (realmID : u32) (channelName : string) (team : Z) (senderGUID : u64) (senderName : string) (language : u32)
    (message : string)
| RqList (realmID : u32) (channelName : string) (team : Z) (playerGUID : u64)
| RqKick (realmID : u32) (channelName : string) (team : Z) (kickerGUID : u64) (targetName : string)
| RqBan (realmID : u32) (channelName : string) (team : Z) (bannerGUID : u64) (targetName : string)
| RqUnban (realmID : u32) (channelName : string) (team : Z) (unbannerGUID : u64) (targetName : string)
| RqModerator (on : bool) (realmID : u32) (channelName : string) (team : Z) (setterGUID : u64) (targetName : string)
| RqMute (on : bool) (realmID : u32) (channelName : string) (team : Z) (muterGUID : u64) (targetName : string)
| RqOwner (realmID : u32) (channelName : string) (team : Z) (setterGUID : u64) (targetName : string)
| RqPassword (realmID : u32) (channelName : string) (team : Z) (setterGUID : u64) (password : string)
| RqModeration (realmID : u32) (channelName : string) (team : Z) (togglerGUID : u64)
| RqAnnouncements (realmID : u32) (channelName : string) (team : Z) (togglerGUID : u64)
| RqInvite (realmID : u32) (channelName : string) (team : Z) (inviterGUID : u64) (targetName : string).
(** Everything the server handles: requests, events and its own jobs. *)
Inductive chat_input :=
| InRequest (r : chat_request)
| InLoggedIn (realmID : u32) (gatewayID : string) (charGUID : u64) (charName : string) (charRace : u8)
| InLoggedOut (realmID : u32) (charGUID : u64)
| InJoined (origin : string) (realmID : u32) (channelName : string) (channelID : u32) (playerGUID : u64) (playerName : string)
| InLeft (origin : string) (realmID : u32) (channelName : string) (playerGUID : u64)
| InGatewayRemoved (realmID : u32)
| JobPreload (realmID : u32)
| JobPrune (realmID : u32) (online : gset u64)
| JobCleanup (realmID : u32) (inactiveDuration : Z).

Section Inputs.
Context `{MapRange} {D : Type} (R : ChannelsRepo D) (serviceID : string).
Abbreviation M A := (go (ChatService D) chat_event chat_err A).
Definition respond (r : chat_request) : M chat_response :=
  match r with
  | RqWhisper realm g name race receiver lang msg => SendWhisperMessage realm g name race receiver lang msg
  | RqJoin realm ch i team pw flags g name => ChatServer.JoinChannel R serviceID realm ch i team pw flags g name
  | RqLeave realm ch team g => ChatServer.LeaveChannel R serviceID realm ch team g
  | RqMessage realm ch team g name lang msg => SendChannelMessage R realm ch team g name lang msg
  | RqList realm ch team g => GetChannelList realm ch team g
  | RqKick realm ch team g target => KickFromChannel R serviceID realm ch team g target
  | RqBan realm ch team g target => BanFromChannel R realm ch team g target
  | RqUnban realm ch team g target => UnbanFromChannel R realm ch team g target
  | RqModerator on realm ch team g target =>
    (if on then SetChannelModerator R else UnsetChannelModerator R) realm ch team g target
  | RqMute on realm ch team g target => (if on then SetChannelMute R else UnsetChannelMute R) realm ch team g target
  | RqOwner realm ch team g target => SetChannelOwner R realm ch team g target
  | RqPassword realm ch team g pw => ChatServer.SetChannelPassword R realm ch team g pw
  | RqModeration realm ch team g => ChatServer.ToggleChannelModeration realm ch team g
  | RqAnnouncements realm ch team g => ChatServer.ToggleChannelAnnouncements R realm ch team g
  | RqInvite realm ch team g target => InviteToChannel realm ch team g target
  end.
Definition handle (i : chat_input) : M unit :=
  match i with
  | InRequest r => respond r ;; mret tt
  | InLoggedIn realm gw g name race => CharacterLoggedIn realm gw g name race
  | InLoggedOut realm g => CharacterLoggedOut R realm g
  | InJoined origin realm ch i g name => SyncJoined R serviceID origin realm ch i g name
  | InLeft origin realm ch g => SyncLeft R serviceID origin realm ch g
  | InGatewayRemoved realm => GatewayRemovedUnhealthy realm
  | JobPreload realm => in_mgr (PreloadChannels R realm)
  | JobPrune realm online => in_mgr (PruneOfflineMembersFromAllChannels R realm online)
  | JobCleanup realm inactive => in_mgr (CleanupStaleChannels R realm inactive)
  end.
(** Between inputs the database, the clock and the fate of calls change. *)
Inductive chat_step (allowed : chat_input -> Prop) (time_ok : Z -> Prop) : relation (sys (ChatService D) chat_event) :=
| chat_handle i s : allowed i -> chat_step allowed time_ok s (handle i s).2
| chat_outside d now fs s : time_ok now ->
    chat_step allowed time_ok s (Sys (Chat (Mgr (channels (channelMgr (st s))) d now) (charRepo (st s))) fs (events s)).
Definition is_cleanup (i : chat_input) : Prop := match i with JobCleanup _ _ => True | _ => False end.
#[export] Instance is_cleanup_dec i : Decision (is_cleanup i).
Proof. destruct i; simpl; apply _. Defined.

(** *** Safety of the handlers *)
Hypothesis HR : RepoTotal R.
Variable watch : string -> ban_watch.
Definition V (K : gset string) (s : ChatService D) : Prop := W watch K (channelMgr s).

Lemma safe_in_mgr {A} K (m : go (ChannelManager D) chat_event chat_err A) Q : safe (W watch K) m Q -> safe (V K) (in_mgr m) Q.
Proof. by apply safe_zoom. Qed.
Lemma safe_reply_err {A} K statuses (m : M A) (k : A -> M chat_response) :
  safe (V K) m any -> (forall a, safe (V K) (k a) any) -> safe (V K) (reply_err statuses m k) any.
Proof.
  intros Hm Hk s Hs. specialize (Hm s Hs). unfold reply_err. destruct (m s) as [[a|e|] s1]; [apply Hk, Hm| |done].
  by destruct (find _ _).
Qed.
Lemma safe_if_channel K r name team (k : ActiveChannel -> M unit) :
  (forall ch, safe (V K) (k ch) any) -> safe (V K) (if_channel r name team k) any.
Proof.
  intros Hk. unfold if_channel, channel_now, GetChannel. apply (safe_bind _ _ _ any); [apply safe_in_mgr, safe_gets_any|].
  intros [ch|] _; [apply Hk|by apply safe_ret].
Qed.
Lemma safe_on_chars K f : safe (V K) (on_chars f : M unit) any.
Proof. by apply safe_modify. Qed.
Lemma safe_announce_owner K r ch g : safe (V K) (announce_owner r ch g : M unit) any.
Proof. unfold announce_owner. safe_seq; [apply safe_log_err, safe_publish|]. apply safe_log_err, safe_publish. Qed.
Lemma safe_join_key K r name team g pname pw : safe (V ({[channelKey r name team]} ∪ K))
  (in_mgr (in_channel (channelKey r name team) (Channels.JoinChannel R r g pname pw ;; gets chan))) any.
Proof.
  apply safe_in_mgr, safe_in_channel; [set_solver|]. intros now. safe_seq; [by apply safe_JoinChannel|apply safe_gets_any].
Qed.
Lemma safe_to_mgr {A} K K' (m : go (ChannelManager D) chat_event chat_err A) :
  safe_to (W watch K) (W watch K') m -> safe_to (V K) (V K') (in_mgr m).
Proof.
  intros Hm s Hs. unfold in_mgr, zoom. specialize (Hm (Sys (channelMgr (st s)) (faults s) (events s)) Hs).
  by destruct (m _) as [[?|?|] ?].
Qed.
Lemma V_less K K' s : K ⊆ K' -> V K' s -> V K s.
Proof. apply W_less. Qed.
Lemma safe_Join K r name i team pw flags g pname : safe (V K) (ChatServer.JoinChannel R serviceID r name i team pw flags g pname) any.
Proof.
  unfold ChatServer.JoinChannel. eapply (safe_bind_to _ (V ({[channelKey r name team]} ∪ K))).
  - intros s Hs. pose proof (safe_to_mgr _ _ _ (safe_GetOrCreate watch R HR K r name i team pw (wrap8 flags)) s Hs) as Hm.
    unfold wrap_err. by destruct (in_mgr _ s) as [[?|?|] ?].
  - intros s. apply V_less. set_solver.
  - intros _. apply safe_reply_err; [apply safe_join_key|]. intros ch. safe_seq; [apply safe_log_err, safe_publish|].
    by apply safe_ret.
Qed.
Lemma safe_SyncJoined K origin r name i g pname : safe (V K) (SyncJoined R serviceID origin r name i g pname) any.
Proof.
  unfold SyncJoined. safe_step; [by apply safe_ret|]. intros s Hs.
  pose proof (safe_to_mgr _ _ _ (safe_GetOrCreate watch R HR K r name i 0 "" ChannelFlagCustom) s Hs) as Hm.
  unfold mbind at 1, go_bind at 1, try_err. destruct (in_mgr _ s) as [[ch|?|] s1]; [|by split|done].
  assert (Hj : safe (V ({[channelKey r name 0]} ∪ K))
    (log_err (in_mgr (in_channel (channelKey r name 0) (Channels.JoinChannel R r g pname "")))) any).
  { apply safe_log_err, safe_in_mgr, safe_in_channel; [set_solver|]. intros now. by apply safe_JoinChannel. }
  specialize (Hj s1 Hm). destruct (log_err _ s1) as [[?|?|] s2]; [split; [|done]; eapply V_less; [|apply Hj]|eapply V_less; [|exact Hj]|done]; set_solver.
Qed.
Lemma safe_SyncLeft K origin r name g : safe (V K) (SyncLeft R serviceID origin r name g) any.
Proof.
  unfold SyncLeft. safe_step; [by apply safe_ret|]. intros s Hs. unfold channel_now, GetChannel.
  erewrite bind_run by reflexivity. cbn [channelMgr st]. destruct (channels (channelMgr (st s)) !! _) as [ch|] eqn:Hch; [|by split].
  assert (Hl : safe (V ({[channelKey r name 0]} ∪ K))
    (log_err (in_mgr (in_channel (channelKey r name 0) (Channels.LeaveChannel R r g ;; mret tt)))) any).
  { apply safe_log_err, safe_in_mgr, safe_in_channel; [set_solver|]. intros now.
    apply (safe_bind _ _ _ any); [by apply safe_LeaveChannel|intros; by apply safe_ret]. }
  match goal with |- context [log_err _ ?s1] => assert (Hs1 : V ({[channelKey r name 0]} ∪ K) (st s1)) by (by eapply W_channel);
    specialize (Hl s1 Hs1) end.
  destruct (log_err _ _) as [[?|?|] s2]; [split; [|done]; eapply V_less; [|apply Hl]|eapply V_less; [|exact Hl]|done]; set_solver.
Qed.
Local Tactic Notation "by_reply" uconstr(L) := apply safe_reply_err; [apply safe_in_mgr; by eapply L|intros ?].
Lemma safe_respond K r : safe (V K) (respond r) any.
Proof.
  destruct r; simpl.
  - unfold SendWhisperMessage. safe_step. destruct (CharacterByRealmAndName _ _ _); [|by apply safe_ret]. safe_tac.
  - apply safe_Join.
  - unfold ChatServer.LeaveChannel. by_reply safe_LeaveByGUID. destruct a as [[n custom] o]. safe_seq; [|by apply safe_ret].
    safe_step; [|by apply safe_ret]. apply safe_if_channel. intros ch. safe_seq; [apply safe_log_err, safe_publish|].
    safe_step; [apply safe_announce_owner|by apply safe_ret].
  - unfold SendChannelMessage. by_reply safe_Validate. safe_seq; [apply safe_publish|]. safe_seq; [|by apply safe_ret].
    apply safe_log_err, safe_in_mgr. by apply safe_UpdateLastUsed.
  - unfold GetChannelList, channel_now, GetChannel. apply (safe_bind _ _ _ any); [apply safe_in_mgr, safe_gets_any|].
    intros [ch|] _; safe_tac.
  - unfold KickFromChannel. by_reply safe_Kick. safe_seq; [|by apply safe_ret]. apply safe_if_channel. intros ch.
    apply safe_log_err, safe_publish.
  - unfold BanFromChannel. by_reply safe_BanByName. by apply safe_ret.
  - unfold UnbanFromChannel. by_reply safe_UnbanByName. by apply safe_ret.
  - assert (Hm : safe (V K) (change_moderator R on realmID channelName team setterGUID targetName) any).
    { unfold change_moderator. by_reply safe_SetModeratorByName. safe_seq; [|by apply safe_ret]. apply safe_if_channel.
      intros ch. apply safe_log_err, safe_publish. }
    by destruct on.
  - assert (Hm : safe (V K) (change_mute R on realmID channelName team muterGUID targetName) any).
    { unfold change_mute. by_reply safe_SetMuteByName. safe_seq; [|by apply safe_ret]. apply safe_if_channel.
      intros ch. apply safe_log_err, safe_publish. }
    by destruct on.
  - unfold SetChannelOwner. by_reply safe_SetOwnerByName. safe_seq; [|by apply safe_ret]. apply safe_if_channel.
    intros ch. apply safe_announce_owner.
  - unfold ChatServer.SetChannelPassword. by_reply safe_Password. by apply safe_ret.
  - unfold ChatServer.ToggleChannelModeration. by_reply safe_ToggleModeration. by apply safe_ret.
  - unfold ChatServer.ToggleChannelAnnouncements. by_reply safe_ToggleAnnouncements. by apply safe_ret.
  - unfold InviteToChannel. safe_step. destruct (CharacterByRealmAndName _ _ _); [|by apply safe_ret].
    unfold channel_now, GetChannel. apply (safe_bind _ _ _ any); [apply safe_in_mgr, safe_gets_any|].
    intros [ch|] _; [|by apply safe_ret]. safe_step; [by apply safe_ret|]. safe_step; [by apply safe_ret|].
    safe_seq; [apply safe_log_err, safe_publish|]. by apply safe_ret.
Qed.
Lemma safe_chat_handle K i : ~ is_cleanup i -> safe (V K) (handle i) any.
Proof.
  intros Hi. destruct i; simpl in *; [| | | | | | | |done].
  - apply (safe_bind _ _ _ any); [apply safe_respond|intros; by apply safe_ret].
  - apply safe_on_chars.
  - unfold CharacterLoggedOut. apply (safe_bind _ _ _ any); [apply safe_in_mgr; by apply safe_Transfer|intros ts _].
    safe_seq; [|apply safe_on_chars]. induction ts as [|t ts IH]; cbn [announce_transfers]; [by apply safe_ret|].
    safe_seq; [apply safe_log_err, safe_publish|]. safe_seq; [apply safe_log_err, safe_publish|]. exact IH.
  - apply safe_SyncJoined.
  - apply safe_SyncLeft.
  - apply safe_on_chars.
  - apply safe_in_mgr. by apply safe_Preload.
  - apply safe_in_mgr. by apply safe_PruneAll.
Qed.
End Inputs.
