(* ===== verification/ChatFacts.v ===== *)
(** * ChatFacts: properties of the chat server *)
From S2P Require Import Prelude Safety GoRuntime GoStrings ChannelsRepo Channels ChannelFacts ChannelManager ChatSessions ChatServer ChatSafety.

Definition keyed_channel (c : ActiveChannel) : Prop := forall g m, members c !! g = Some m -> PlayerGUID m = g.

Section Facts.
Context `{MapRange} {D : Type} (R : ChannelsRepo D) (serviceID : string).
Implicit Types s : sys (ChatService D) chat_event.

Abbreviation Vs watch := (V (D:=D) watch ∅).

Lemma V_outside watch d now fs s :
  Vs watch (st s) -> (forall key g T, watch key = Some (g, T) -> now < T) ->
  Vs watch (st (Sys (Chat (Mgr (channels (channelMgr (st s))) d now) (charRepo (st s))) fs (events s))).
Proof.
  intros [H1 H2 H3] Hnow. constructor; [|exact H2|exact H3]. intros key c Hc. destruct (H1 _ _ Hc) as [Hk Hp Hb].
  constructor; [done|done|]. destruct (watch key) as [[g T]|] eqn:E; [|done]. destruct Hb as (Hb & Hm & _). split_and!; [done|done|].
  by eapply Hnow.
Qed.
Lemma V_steps watch (allowed : chat_input -> Prop) (time_ok : Z -> Prop) s s' :
  RepoTotal R -> (forall i, allowed i -> is_cleanup i -> watch = fun _ => None) ->
  (forall now key g T, time_ok now -> watch key = Some (g, T) -> now < T) ->
  rtc (chat_step R serviceID allowed time_ok) s s' -> Vs watch (st s) -> Vs watch (st s').
Proof.
  intros HR Hclean Htime Hsteps Hs. eapply (rtc_invariant _ (fun s => Vs watch (st s))); [|exact Hs|exact Hsteps].
  intros x y Hxy Hx. destruct Hxy as [i x Hi|d now fs x Hnow]; [|apply V_outside; [done|by eauto]].
  assert (Hsafe : safe (Vs watch) (handle R serviceID i) any).
  { destruct (decide (is_cleanup i)) as [Hc|Hc]; [|by apply safe_chat_handle].
    destruct i; try done. rewrite (Hclean _ Hi Hc). simpl. apply safe_in_mgr. by apply safe_Cleanup. }
  specialize (Hsafe x Hx). destruct (handle R serviceID i x) as [[?|?|] ?]; [apply Hsafe|exact Hsafe|done].
Qed.
Lemma V_start s : channels (channelMgr (st s)) = ∅ -> Vs (fun _ => None) (st s).
Proof. intros E. constructor; [by rewrite E|set_solver|by intros key [? ?]]. Qed.

(** No request, event or job panics the chat server: whatever was handled
    since it started with no channels, whatever the database holds and
    whichever calls fail, the next input returns. *)
Theorem chat_never_panics s0 s i :
  RepoTotal R -> channels (channelMgr (st s0)) = ∅ ->
  rtc (chat_step R serviceID (fun _ => True) (fun _ => True)) s0 s -> (handle R serviceID i s).1 <> Panic.
Proof.
  intros HR Hempty Hsteps.
  assert (Hs : Vs (fun _ => None) (st s)) by (eapply V_steps; [done| | |exact Hsteps|by apply V_start]; done).
  assert (Hsafe : safe (Vs (fun _ => None)) (handle R serviceID i) any).
  { destruct (decide (is_cleanup i)) as [Hc|Hc]; [|by apply safe_chat_handle].
    destruct i; try done. simpl. apply safe_in_mgr. by apply safe_Cleanup. }
  specialize (Hsafe s Hs). by destruct (handle R serviceID i s) as [[?|?|] ?].
Qed.

(** ** Bans *)
Lemma give_ownership_total members_of r g (s : sys (conn D) chat_event) : MembersLaws R members_of ->
  exists d fs, give_ownership R r g s = (Ok tt, Sys (Conn (ac_set_members (alter (set_bit MemberFlagOwner) g (members (chan (st s)))) g
    (chan (st s))) d (clock (st s))) fs (events s)).
Proof.
  intros HR. unfold give_ownership, set_members, set_owner, on_chan. do 3 erewrite bind_run by reflexivity. cbn [chan st ac_set_members ac_channelID].
  match goal with |- context [log_err (in_repo (UpdateMemberFlags R ?r ?i ?g ?fl)) ?s1] =>
    destruct (law_flags _ _ HR r i g fl) as (f & Hw & _); destruct (log_err_run _ f s1 Hw) as (d & fs & -> & _) end.
  by exists d, fs.
Qed.
Lemma Leave_removes members_of r g m (s : sys (conn D) chat_event) :
  MembersLaws R members_of -> faults s = [] -> members (chan (st s)) !! g = Some m ->
  exists o (s' : sys (conn D) chat_event), Channels.LeaveChannel R r g s = (Ok o, s') /\ members (chan (st s')) !! g = None /\ clock (st s') = clock (st s).
Proof.
  intros HR Hf Hg. unfold Channels.LeaveChannel. erewrite bind_run by reflexivity. rewrite Hg. erewrite bind_run by reflexivity.
  unfold set_members at 1, on_chan. erewrite bind_run by reflexivity. cbn [chan st repo clock].
  destruct (law_remove _ _ HR r (ac_channelID (chan (st s))) g) as (f & Hw & _).
  match goal with |- context [or_undo (in_repo ?call) ?undo ≫= ?k] =>
    match goal with |- context [(_ ≫= _) ?s1] => destruct (or_undo_cases call f undo s1 Hw) as [(fs & _ & Hrun)|(fs & Hfs & _)] end end.
  2:{ simpl in Hfs. congruence. }
  rewrite (bind_run _ _ _ _ _ Hrun). erewrite bind_run by reflexivity. cbn.
  assert (Hgone : delete g (members (chan (st s))) !! g = None) by apply lookup_delete_eq.
  destruct (_ && _); [|eexists _, _; split; [reflexivity|by split]].
  destruct (negb _); [|eexists _, _; split; [reflexivity|by split]].
  match goal with |- context [(give_ownership R r ?g' ≫= _) ?s1] =>
    destruct (give_ownership_total members_of r g' s1 HR) as (d & fs' & Hgive) end.
  rewrite (bind_run _ _ _ _ _ Hgive). eexists _, _. split; [reflexivity|]. cbn. by rewrite lookup_alter_None.
Qed.

(** A method of the channel, run on the manager. *)
Lemma in_channel_run {A} key (m : go (conn D) chat_event chat_err A) (s : sys (ChannelManager D) chat_event) c o k :
  channels (st s) !! key = Some c -> m (Sys (Conn c (cm_repo (st s)) (cm_now (st s))) (faults s) (events s)) = (o, k) ->
  in_channel key m s = (o, Sys (Mgr (<[key := chan (st k)]> (channels (st s))) (repo (st k)) (clock (st k))) (faults k) (events k)).
Proof. intros Hc Hm. unfold in_channel. erewrite bind_run by reflexivity. rewrite Hc. erewrite bind_run by reflexivity. unfold zoom. cbn. by rewrite Hm. Qed.
Lemma with_channel_run {A} e r name team (k : string -> ActiveChannel -> go (ChannelManager D) chat_event chat_err A) (s : sys (ChannelManager D) chat_event) c :
  channels (st s) !! channelKey r name team = Some c -> with_channel e r name team k s = k (channelKey r name team) c s.
Proof. intros Hc. unfold with_channel, GetChannel. erewrite bind_run by reflexivity. rewrite Hc. by erewrite bind_run by reflexivity. Qed.
Lemma with_channel_none {A} e r name team (k : string -> ActiveChannel -> go (ChannelManager D) chat_event chat_err A) (s : sys (ChannelManager D) chat_event) :
  channels (st s) !! channelKey r name team = None -> with_channel e r name team k s = (Fail e, s).
Proof. intros Hc. unfold with_channel, GetChannel. erewrite bind_run by reflexivity. by rewrite Hc. Qed.
Lemma found_member ch name : keyed_channel ch -> FindMemberByName ch name <> 0 ->
  exists m, members ch !! FindMemberByName ch name = Some m /\ PlayerName m = name.
Proof.
  intros Hk. unfold FindMemberByName. destruct (head _) as [m|] eqn:E; [|done]. intros _.
  apply head_filter_elem in E as [Hm Hn]. apply String.eqb_eq in Hn. apply list_elem_of_fmap in Hm as ([g m'] & -> & Hm).
  apply elem_of_go_range in Hm. simpl in *. rewrite (Hk _ _ Hm). by exists m'.
Qed.

Lemma as_member_ok allowed denied c g (s s' : sys (ChannelManager D) chat_event) u :
  as_member allowed denied c g s = (Ok u, s') -> IsMember c g = true /\ allowed c g = true /\ s' = s.
Proof.
  unfold as_member. intros Hrun. inv_ok.
  repeat match goal with Hg : negb _ = false |- _ => apply negb_false_iff in Hg end. done.
Qed.
Lemma find_member_ok c name (s s' : sys (ChannelManager D) chat_event) g :
  find_member c name s = (Ok g, s') -> g = FindMemberByName c name /\ g <> 0 /\ s' = s.
Proof. unfold find_member. intros Hrun. inv_ok. by match goal with Hz : (_ =? 0) = false |- _ => apply Z.eqb_neq in Hz end. Qed.
(** A request that is answered with Ok did what it was asked. *)
Lemma reply_err_ok {A} statuses (m : go (ChatService D) chat_event chat_err A) k s b s' :
  Forall (fun p => p.2 <> StOk) statuses -> reply_err statuses m k s = (Ok (StOk, b), s') ->
  exists a s1, m s = (Ok a, s1) /\ k a s1 = (Ok (StOk, b), s').
Proof.
  intros Hst. unfold reply_err. destruct (m s) as [[a|e|] s1]; [by eauto| |done].
  destruct (find _ _) as [p|] eqn:E; [|done]. apply find_some in E as [E _]. apply list_elem_of_In in E.
  rewrite Forall_forall in Hst. intros [= Hp _ _]. by destruct (Hst p E).
Qed.
Lemma BanByName_run members_of r name team banner target (s s1 : sys (ChannelManager D) chat_event) c g :
  MembersLaws R members_of -> keyed_channel c -> faults s = [] -> channels (st s) !! channelKey r name team = Some c ->
  BanPlayerByName R r name team banner target s = (Ok g, s1) ->
  g = FindMemberByName c target /\ cm_now (st s1) = cm_now (st s) /\
  exists c', channels (st s1) !! channelKey r name team = Some c' /\
    bannedUntil c' !! g = Some (cm_now (st s) + ban_time) /\ members c' !! g = None.
Proof.
  intros HR Hk Hf Hc. unfold BanPlayerByName. rewrite (with_channel_run _ _ _ _ _ _ _ Hc). intros Hrun.
  apply bind_ok in Hrun as (u & s2 & (_ & _ & ->)%as_member_ok & Hrun).
  apply bind_ok in Hrun as (g' & s3 & (-> & Hne & ->)%find_member_ok & Hrun).
  destruct (found_member c target Hk Hne) as (m & Hm & _).
  destruct (Leave_removes members_of r _ m (Sys (Conn c (cm_repo (st s)) (cm_now (st s))) (faults s) (events s)) HR Hf Hm)
    as (o & k & Hleave & Hgone & Hclock).
  pose proof (in_channel_run _ _ _ _ _ _ Hc Hleave) as Hin.
  apply bind_ok in Hrun as (o' & s4 & Htry & Hrun). unfold try_err in Htry. rewrite Hin in Htry. injection Htry as _ <-.
  erewrite bind_run in Hrun by reflexivity. apply bind_ok in Hrun as ([] & s5 & Hban & Hrun). apply ret_ok in Hrun as [-> ->].
  apply wrap_err_ok in Hban. unfold BanPlayer in Hban. cbn [st] in Hban.
  erewrite with_channel_run in Hban by (cbn; apply lookup_insert_eq).
  erewrite bind_run in Hban; [|eapply in_channel_run; [cbn; apply lookup_insert_eq|reflexivity]].
  unfold on_repo in Hban. apply zoom_ok in Hban as (d & _ & Hst & _). rewrite Hst. cbn in Hclock |- *. split; [done|].
  split; [exact Hclock|]. eexists. split; [apply lookup_insert_eq|]. cbn. rewrite Hclock, lookup_insert_eq. done.
Qed.


(** ** Messages *)

(** The rules of speaking, as the chat commands promise them. *)
Definition may_speak (c : ActiveChannel) (g : u64) : Prop := exists m, members c !! g = Some m /\
  has MemberFlagMuted m = false /\
  (ac_moderation c = true ->
     has MemberFlagVoiced m = true \/ has MemberFlagModerator m = true \/ has MemberFlagOwner m = true) /\
  forall rights, ac_rights c = Some rights -> Z.testbit (r_Flags rights) 3 = false.
Lemma has_any m b1 b2 b3 : (Z.land (m_Flags m) (Z.lor (Z.lor b1 b2) b3) =? 0) = false <->
  has b1 m = true \/ has b2 m = true \/ has b3 m = true.
Proof.
  unfold has. rewrite !Z.land_lor_distr_r, !negb_true_iff, !Z.eqb_neq.
  rewrite !Z.lor_eq_0_iff. destruct (Z.eq_dec (Z.land (m_Flags m) b1) 0), (Z.eq_dec (Z.land (m_Flags m) b2) 0),
    (Z.eq_dec (Z.land (m_Flags m) b3) 0); intuition.
Qed.
Lemma land_bit3 x : (Z.land x ChannelRightCantSpeak =? 0) = negb (Z.testbit x 3).
Proof. exact (land_bit x 3 ltac:(lia)). Qed.
Lemma CanSpeak_spec c g : CanSpeak c g = true <-> may_speak c g.
Proof.
  unfold CanSpeak, may_speak. destruct (members c !! g) as [m|] eqn:Hm; [|naive_solver].
  destruct (has MemberFlagMuted m) eqn:Emute; [naive_solver|].
  destruct (ac_moderation c) eqn:Emod; cbn [andb].
  - destruct (Z.land _ _ =? 0) eqn:Eflags.
    + split; [done|]. intros (m' & [= <-] & _ & Hv & _). specialize (Hv eq_refl). apply has_any in Hv. congruence.
    + apply has_any in Eflags. destruct (ac_rights c) as [rights|]; rewrite ?land_bit3, ?negb_true_iff; naive_solver.
  - destruct (ac_rights c) as [rights|]; rewrite ?land_bit3, ?negb_true_iff; naive_solver.
Qed.

Lemma UpdateLastUsed_run members_of r name team (s : sys (ChannelManager D) chat_event) :
  MembersLaws R members_of -> faults s = [] ->
  exists d, UpdateLastUsed R r name team s = (Ok tt, Sys (Mgr (channels (st s)) d (cm_now (st s))) [] (events s)).
Proof.
  intros HR Hf. destruct s as [[cs d now] fs ev]. simpl in Hf. subst. unfold UpdateLastUsed, GetChannel.
  erewrite bind_run by reflexivity. cbn [st channels]. destruct (cs !! _) as [ch|]; [|by exists d].
  destruct (_ =? 0); [by exists d|]. erewrite bind_run by reflexivity. cbn [st cm_now].
  destruct (law_last_used _ _ HR r (ac_channelID ch) now) as (f & Hw & _). exists (f d).
  unfold on_repo, zoom. by rewrite Hw.
Qed.

Lemma SendChannelMessage_run r name team g playerName lang msg s ch :
  channels (channelMgr (st s)) !! channelKey r name team = Some ch ->
  SendChannelMessage R r name team g playerName lang msg s =
  if negb (IsMember ch g) then (Ok (StNotMember, NoBody), s)
  else if negb (CanSpeak ch g) then (Ok (StMuted, NoBody), s)
  else (broadcastChannelMessage r ch g playerName lang msg ;; log_err (in_mgr (UpdateLastUsed R r name team)) ;;
        mret (StOk, NoBody)) s.
Proof.
  intros Hch. unfold SendChannelMessage, reply_err, ValidateSendMessage. unfold in_mgr at 1, zoom.
  rewrite (with_channel_run _ _ _ _ _ (Sys (channelMgr (st s)) (faults s) (events s)) _ Hch).
  destruct s as [[cm chars] fs ev]. destruct (IsMember ch g); [|reflexivity]. destruct (CanSpeak ch g); reflexivity.
Qed.

(** A channel message is published exactly when its sender may speak: the
    sender is a member and not muted, voiced, a moderator or the owner when
    the channel is moderated, and the channel's rights do not forbid it.  Then
    the one event carries the channel, the sender and the text; otherwise the
    answer is not Ok and nothing changes. *)
Theorem message_published_iff members_of r name team g playerName lang msg s ch :
  MembersLaws R members_of -> faults s = [] -> channels (channelMgr (st s)) !! channelKey r name team = Some ch ->
  (may_speak ch g -> exists s', SendChannelMessage R r name team g playerName lang msg s = (Ok (StOk, NoBody), s') /\
     events s' = events s ++ [ChannelMessageEv r (ac_name ch) (ac_channelID ch) g playerName lang msg] /\
     channels (channelMgr (st s')) = channels (channelMgr (st s))) /\
  (~ may_speak ch g -> exists status, SendChannelMessage R r name team g playerName lang msg s = (Ok (status, NoBody), s) /\
     (status = StNotMember \/ status = StMuted)).
Proof.
  intros HR Hf Hch. rewrite (SendChannelMessage_run _ _ _ _ _ _ _ _ _ Hch), <- CanSpeak_spec.
  destruct (IsMember ch g) eqn:Em; cbn [negb]; [destruct (CanSpeak ch g) eqn:Es; cbn [negb]|].
  - split; [intros _|done]. unfold broadcastChannelMessage.
    match goal with |- context [publish ErrChatBus ?e] => set (ev := e) end.
    erewrite (bind_run _ _ _ tt (Sys (st s) [] (events s ++ [ev]))) by (unfold publish, ext; rewrite Hf; cbn; by rewrite Hf).
    destruct (UpdateLastUsed_run members_of r name team (Sys (channelMgr (st s)) [] (events s ++ [ev])) HR eq_refl) as (d & Hrun).
    unfold log_err, in_mgr, zoom. erewrite bind_run by (cbn; by rewrite Hrun). eexists. split; [reflexivity|]. done.
  - split; [done|intros _]. exists StMuted. split; [done|by right].
  - split; [intros Hs|intros _; exists StNotMember; split; [done|by left]].
    exfalso. apply CanSpeak_spec in Hs as (m & Hm & _). unfold IsMember in Em. by rewrite Hm in Em.
Qed.

(** ** Permissions *)

(** The requests that moderate a channel: where, who asks, and what the actor
    has to be. *)
Definition moderation (q : chat_request) : option (u32 * string * Z * u64 * (ActiveChannel -> u64 -> bool)) :=
  match q with
  | RqKick r ch t g _ | RqBan r ch t g _ | RqUnban r ch t g _ | RqMute _ r ch t g _
  | RqModeration r ch t g | RqAnnouncements r ch t g => Some (r, ch, t, g, is_moderator)
  | RqModerator _ r ch t g _ | RqOwner r ch t g _ | RqPassword r ch t g _ => Some (r, ch, t, g, is_owner)
  | _ => None
  end.
Lemma denied_with_channel {A} statuses r name team (e : chat_err) k (kk : A -> go (ChatService D) chat_event chat_err chat_response) s P :
  (forall c, channels (channelMgr (st s)) !! channelKey r name team = Some c ->
     exists x, k (channelKey r name team) c (Sys (channelMgr (st s)) (faults s) (events s)) =
       (Fail x, Sys (channelMgr (st s)) (faults s) (events s)) /\
     exists p, find (fun p => Is x p.1) statuses = Some p /\ P p.2) ->
  (exists p, find (fun p => Is e p.1) statuses = Some p /\ P p.2) ->
  exists status, reply_err statuses (in_mgr (with_channel e r name team k)) kk s = (Ok (status, NoBody), s) /\ P status.
Proof.
  intros Hk (p0 & Hp0 & HP0). unfold reply_err, in_mgr, zoom.
  assert (Hback : Sys (Chat (channelMgr (st s)) (charRepo (st s))) (faults s) (events s) = s) by (by destruct s as [[? ?] ? ?]).
  destruct (channels (channelMgr (st s)) !! channelKey r name team) as [c|] eqn:Hc.
  - rewrite (with_channel_run _ _ _ _ _ (Sys (channelMgr (st s)) (faults s) (events s)) _ Hc).
    destruct (Hk c eq_refl) as (x & -> & p & -> & HP). exists p.2. cbn. by rewrite Hback.
  - rewrite (with_channel_none _ _ _ _ _ (Sys (channelMgr (st s)) (faults s) (events s)) Hc), Hp0. exists p0.2. cbn.
    by rewrite Hback.
Qed.
Lemma as_member_denied allowed e c g (s : sys (ChannelManager D) chat_event) : allowed c g = false ->
  as_member allowed e c g s = (Fail (if IsMember c g then e else ErrNotMember), s).
Proof. intros Hno. unfold as_member. rewrite Hno. by destruct (IsMember c g). Qed.

(** Who lacks the rights moderates nothing: kicking, banning, unbanning,
    muting, moderation and announcements need a moderator or the owner, giving
    moderators, ownership and the password need the owner.  Any other player's
    request, and one for a channel that is not active, is answered with a
    refusal, calls nothing, publishes nothing and leaves the server as it was. *)
Theorem denied_changes_nothing q r name team g allowed s :
  moderation q = Some (r, name, team, g, allowed) ->
  (forall c, channels (channelMgr (st s)) !! channelKey r name team = Some c -> allowed c g = false) ->
  exists status, respond R serviceID q s = (Ok (status, NoBody), s) /\
    (status = StNotMember \/ status = StNotModerator \/ status = StNotOwner).
Proof.
  intros Hq Hno.
  assert (Hm : forall e c (s' : sys (ChannelManager D) chat_event), channels (channelMgr (st s)) !! channelKey r name team = Some c ->
    as_member (D:=D) allowed e c g s' = (Fail (if IsMember c g then e else ErrNotMember), s')).
  { intros e c s' Hc. apply as_member_denied. auto. }
  assert (Hg : forall (e : chat_err) c (s' : sys (ChannelManager D) chat_event),
    channels (channelMgr (st s)) !! channelKey r name team = Some c ->
    guard_err (negb (allowed c g)) e s' = (Fail e, s')) by (intros e c s' Hc; by rewrite (Hno c Hc)).
  destruct q; try discriminate; cbn [moderation] in Hq; injection Hq as -> -> -> -> <-; cbn [respond];
    unfold KickFromChannel, BanFromChannel, UnbanFromChannel, SetChannelModerator, UnsetChannelModerator, SetChannelMute,
      UnsetChannelMute, change_moderator, change_mute, SetChannelOwner, ChatServer.SetChannelPassword,
      ChatServer.ToggleChannelModeration, ChatServer.ToggleChannelAnnouncements, KickPlayer, BanPlayerByName,
      UnbanPlayerByName, SetModeratorByName, SetMuteByName, SetOwnerByName, ChannelManager.SetChannelPassword,
      ChannelManager.ToggleChannelModeration, ChannelManager.ToggleChannelAnnouncements; try destruct on;
    apply denied_with_channel; try (eexists; split; [reflexivity|by left]); intros c Hc;
    eexists; (split; [apply bind_fail; first [apply Hm; exact Hc|apply Hg; exact Hc]|]);
    try destruct (IsMember c g); eexists; (split; [reflexivity|]); auto.
Qed.

(** ** A channel and its copy in the database *)
Lemma loaded_members_map l : loaded_members l = list_to_map (reverse ((fun m => (PlayerGUID m, m)) <$> l)).
Proof.
  unfold loaded_members. induction l as [|m l IH] using rev_ind; [done|].
  by rewrite foldl_app, fmap_app, reverse_app, IH.
Qed.
Lemma loaded_members_perm l (t : gmap u64 ChannelMember) : (fun m => (PlayerGUID m, m)) <$> l ≡ₚ map_to_list t -> loaded_members l = t.
Proof. intros Hp. rewrite loaded_members_map. symmetry. apply list_to_map_flip. by rewrite reverse_Permutation. Qed.
Lemma loaded_owner_unique l o : (forall m, m ∈ l -> has MemberFlagOwner m = true -> PlayerGUID m = o) ->
  (exists m, m ∈ l /\ has MemberFlagOwner m = true) -> loaded_owner l = o.
Proof.
  unfold loaded_owner. induction l as [|x l IH] using rev_ind; intros Hall (m & Hm & Ho); [by apply elem_of_nil in Hm|].
  rewrite foldl_app. simpl. destruct (has MemberFlagOwner x) eqn:Ex; [apply Hall; [set_solver|done]|].
  apply IH; [intros m' Hm'; apply Hall; set_solver|]. exists m. split; [|done].
  apply elem_of_app in Hm as [Hm|Hm%list_elem_of_singleton]; [done|congruence].
Qed.

(** C6: one owner: whichever calls of the repository fail, every operation on a
    channel keeps that at most one member has the owner's flag, that it is the
    one the channel names as its owner, and that a channel with ownership has
    an owner while it has members. *)
Theorem channel_keeps_owner members_of r ops (s : sys (conn D) chat_event) :
  MembersLaws R members_of -> Forall op_ok ops -> owned (chan (st s)) ->
  owned (chan (st (run_ops R r ops s))).
Proof. intros HR Hops Hc. by apply (run_ops_good R members_of HR r ops s Hops Hc). Qed.

(** The database is written through: when no call fails, after any
    operations the members that would be loaded from the database are those
    in memory, and so is the owner that is found among them. *)
Theorem reload_restores_channel members_of r ops (s : sys (conn D) chat_event) :
  MembersLaws R members_of -> faults s = [] -> Forall op_ok ops -> owned (chan (st s)) -> mirrored members_of r (st s) ->
  let c := chan (st (run_ops R r ops s)) in
  exists l (s' : sys D chat_event), LoadChannelMembers R r (ac_channelID c) (Sys (repo (st (run_ops R r ops s))) [] []) = (Ok l, s') /\
    loaded_members l = members c /\
    (ac_ownership c = true -> members c <> ∅ -> loaded_owner l = ac_ownerGUID c).
Proof.
  intros HR Hf Hops Hc Hmir c. destruct (run_ops_good R members_of HR r ops s Hops Hc Hc) as [Hc' Hrest].
  destruct (Hrest Hf) as [_ Hm]. destruct (Hm Hmir) as [Hsame _]. fold c in Hc', Hsame.
  destruct (law_load_healthy _ _ HR r (ac_channelID c) (Sys (repo (st (run_ops R r ops s))) [] []) eq_refl) as (l & s' & Hl & _).
  exists l, s'. split; [exact Hl|]. destruct (law_load _ _ HR _ _ _ _ _ Hl) as [_ Hperm]. specialize (Hperm l eq_refl).
  cbn [st] in Hperm. rewrite Hsame in Hperm. split; [by apply loaded_members_perm|]. intros Hown Hne.
  assert (Hin : forall m, m ∈ l <-> members c !! PlayerGUID m = Some m /\ m ∈ l).
  { intros m. split; [|tauto]. intros Hm'. split; [|done]. apply elem_of_map_to_list. rewrite <- Hperm.
    apply list_elem_of_fmap. by exists m. }
  apply loaded_owner_unique.
  - intros m [Hm' _]%Hin Ho. by apply (ow_unique _ Hc' _ _ Hm').
  - destruct (ow_exists _ Hc' Hown Hne) as (m & Hm' & Ho). exists m. split; [|done].
    apply elem_of_map_to_list in Hm'. rewrite <- Hperm in Hm'. apply list_elem_of_fmap in Hm' as (m2 & [= _ ->] & Hm2). done.
Qed.

(** An operation on a channel that answers with an error leaves the members
    and their flags as they were: a joining player is taken back out, a leaving
    one put back, changed flags are restored, a change of the owner is undone
    at both members. *)
Theorem failed_operation_undone members_of r op (s s' : sys (conn D) chat_event) e :
  MembersLaws R members_of -> owned (chan (st s)) -> run_op R r op s = (Fail e, s') ->
  members (chan (st s')) = members (chan (st s)).
Proof. intros HR Hc Hrun. by apply (run_op_undone R members_of HR r op s e s' Hc). Qed.
End Facts.

(** ** A running server, on MySQL *)
#[local] Existing Instance map_range_canonical.
Definition ci (a b : string) : bool := String.eqb (ToLower a) (ToLower b).
Definition db0 : channels_db := {| db_channels := ∅; db_next := ∅; db_rights := ∅; db_bans := ∅; db_members := ∅ |}.
Definition chat0 : sys (ChatService channels_db) chat_event :=
  Sys (Chat (NewChannelManager db0 1000) NewCharactersInMemRepo) [] [].
Abbreviation My := (ChannelsMYSQL ci).
Abbreviation do q s := (handle My "chat-1" (InRequest q) s).2.
(** Anna creates the channel and owns it, Bert and Cleo join. *)
Definition chat_busy : sys (ChatService channels_db) chat_event :=
  do (RqJoin 1 "world" 0 0 "" 1 102 "Cleo") (do (RqJoin 1 "WORLD" 0 0 "" 1 101 "Bert") (do (RqJoin 1 "World" 0 0 "" 1 100 "Anna") chat0)).
Definition chat_steps (allowed : chat_input -> Prop) (time_ok : Z -> Prop) := chat_step My "chat-1" allowed time_ok.
Lemma busy_reached : rtc (chat_steps (fun _ => True) (fun _ => True)) chat0 chat_busy.
Proof. do 3 (eapply rtc_r; [|by apply chat_handle]). apply rtc_refl. Qed.
Definition world : ActiveChannel := default (Build_ActiveChannel 0 "" 0 "" false false false 0 0 None ∅ ∅)
  (channels (channelMgr (st chat_busy)) !! channelKey 1 "world" 0).

Lemma chat_never_panics_witness :
  length (events chat_busy) = 3%nat /\ (handle My "chat-1" (InRequest (RqOwner 1 "world" 0 100 "Bert")) chat_busy).1 <> Panic.
Proof.
  split; [vm_compute; reflexivity|]. apply (chat_never_panics My "chat-1" chat0).
  - apply MYSQL_total.
  - reflexivity.
  - exact busy_reached.
Defined.

Definition after_ban : sys (ChatService channels_db) chat_event := (BanFromChannel My 1 "world" 0 100 "Bert" chat_busy).2.

Lemma message_published_iff_witness :
  may_speak world 101 /\ exists s', SendChannelMessage My 1 "world" 0 101 "Bert" 7 "hi" chat_busy = (Ok (StOk, NoBody), s') /\
     events s' = events chat_busy ++ [ChannelMessageEv 1 (ac_name world) (ac_channelID world) 101 "Bert" 7 "hi"] /\
     channels (channelMgr (st s')) = channels (channelMgr (st chat_busy)).
Proof.
  assert (Hs : may_speak world 101) by (apply CanSpeak_spec; vm_compute; reflexivity). split; [exact Hs|].
  apply (message_published_iff My mysql_members 1 "world" 0 101 "Bert" 7 "hi" chat_busy world).
  - apply ChannelsMYSQL_laws.
  - vm_compute. reflexivity.
  - vm_compute. reflexivity.
  - exact Hs.
Defined.

Lemma denied_changes_nothing_witness :
  is_moderator world 102 = false /\
  exists status, respond My "chat-1" (RqKick 1 "world" 0 102 "Anna") chat_busy = (Ok (status, NoBody), chat_busy) /\
    (status = StNotMember \/ status = StNotModerator \/ status = StNotOwner).
Proof.
  assert (Hno : is_moderator world 102 = false) by (vm_compute; reflexivity). split; [exact Hno|].
  apply (denied_changes_nothing My "chat-1" _ 1 "world" 0 102 is_moderator chat_busy); [reflexivity|].
  intros c Hc. unfold world in Hno. rewrite Hc in Hno. exact Hno.
Defined.

(** A new channel, and one where a call fails in every place. *)
Definition new_channel : conn channels_db := Conn (Build_ActiveChannel 1 "World" 0 "" true true false 1 0 None ∅ ∅) db0 1000.
Lemma new_owned : owned (chan new_channel).
Proof. by constructor. Qed.
Definition quarrel : list ch_op :=
  [OpJoin 100 "Anna" ""; OpJoin 101 "Bert" ""; OpModerator 101 true; OpOwner 101; OpLogout 101; OpLeave 100; OpPrune {[101]}].
Lemma channel_keeps_owner_witness :
  size (members (chan (st (run_ops My 1 quarrel (Sys new_channel [true; false; true; false] []))))) = 1%nat /\
  owned (chan (st (run_ops My 1 quarrel (Sys new_channel [true; false; true; false] [])))).
Proof.
  split; [vm_compute; reflexivity|]. apply (channel_keeps_owner My mysql_members).
  - apply ChannelsMYSQL_laws.
  - repeat constructor; done.
  - exact new_owned.
Defined.
Lemma reload_restores_channel_witness :
  ac_ownerGUID (chan (st (run_ops My 1 quarrel (Sys new_channel [] [])))) = 101 /\
  let c := chan (st (run_ops My 1 quarrel (Sys new_channel [] []))) in
  exists l (s' : sys channels_db chat_event),
    LoadChannelMembers My 1 (ac_channelID c) (Sys (repo (st (run_ops My 1 quarrel (Sys new_channel [] [])))) [] []) = (Ok l, s') /\
    loaded_members l = members c /\ (ac_ownership c = true -> members c <> ∅ -> loaded_owner l = ac_ownerGUID c).
Proof.
  split; [vm_compute; reflexivity|]. apply (reload_restores_channel My mysql_members).
  - apply ChannelsMYSQL_laws.
  - reflexivity.
  - repeat constructor; done.
  - exact new_owned.
  - by split.
Defined.
Definition two_join : list ch_op := [OpJoin 100 "Anna" ""; OpJoin 101 "Bert" ""].
Definition two_members : sys (conn channels_db) chat_event := run_ops My 1 two_join (Sys new_channel [] []).
Lemma two_members_owned : owned (chan (st two_members)).
Proof.
  assert (Hops : Forall op_ok two_join) by (repeat constructor; done).
  exact (proj1 (run_ops_good My mysql_members (ChannelsMYSQL_laws ci) 1 two_join (Sys new_channel [] []) Hops new_owned new_owned)).
Qed.
Definition second_write_fails : sys (conn channels_db) chat_event :=
  (run_op My 1 (OpOwner 101) (Sys (st two_members) [false; true] [])).2.
Lemma failed_operation_undone_witness :
  size (members (chan (st two_members))) = 2%nat /\
  members (chan (st second_write_fails)) = members (chan (st two_members)).
Proof.
  split; [vm_compute; reflexivity|].
  apply (failed_operation_undone My mysql_members 1 (OpOwner 101) (Sys (st two_members) [false; true] []) second_write_fails
    (ErrChatWrap ErrChatDB)).
  - apply ChannelsMYSQL_laws.
  - exact two_members_owned.
  - unfold second_write_fails. match goal with |- ?x = (_, ?x.2) => transitivity (x.1, x.2); [by destruct x|f_equal; vm_compute; reflexivity] end.
Defined.
(** In memory Anna owns the channel again; the database has no owner. *)
Example owner_lost_in_database :
  ac_ownerGUID (chan (st second_write_fails)) = 100 /\
  GetMemberFlags (chan (st second_write_fails)) 100 = MemberFlagOwner /\
  loaded_owner (map_to_list (mysql_members (repo (st second_write_fails)) 1 1)).*2 = 0.
Proof. vm_compute. done. Qed.
