(* ===== verification/Bytes.v ===== *)
(** * Bytes: slices of bytes and numbers in them
    (encoding/binary, math/big and conversions of strings, of the standard
    library; shared/slices)

    A byte is a [Z] below 256.  [le_encode n x] are the [n] low bytes of [x],
    least significant first. *)
From S2P Require Import Prelude.
From Stdlib Require Import Ascii.

Abbreviation bytes := (list Z).
Definition is_bytes (b : bytes) : Prop := Forall (in_range 8) b.
#[export] Instance in_range_dec w x : Decision (in_range w x).
Proof. unfold in_range. apply _. Defined.

Lemma some_bind {A B} (a : A) (f : A -> option B) : Some a ≫= f = f a.
Proof. done. Qed.

Fixpoint le_encode (n : nat) (x : Z) : bytes :=
  match n with
  | O => []
  | S n => x mod 256 :: le_encode n (x / 256)
  end.
Fixpoint le_decode (b : bytes) : Z :=
  match b with
  | [] => 0
  | x :: b => x + 256 * le_decode b
  end.

Lemma le_encode_length n x : length (le_encode n x) = n.
Proof. revert x. induction n as [|n IH]; intros x; simpl; [done|]. by rewrite IH. Qed.
Lemma le_encode_bytes n x : is_bytes (le_encode n x).
Proof.
  revert x. induction n as [|n IH]; intros x; simpl; [constructor|]. constructor; [|apply IH].
  unfold in_range. change (2 ^ 8) with 256. apply Z.mod_pos_bound. lia.
Qed.
Lemma pow256_S n : 2 ^ (8 * Z.of_nat (S n)) = 256 * 2 ^ (8 * Z.of_nat n).
Proof. replace (8 * Z.of_nat (S n)) with (8 + 8 * Z.of_nat n) by lia. by rewrite Z.pow_add_r by lia. Qed.
Lemma le_decode_encode n x : in_range (8 * Z.of_nat n) x -> le_decode (le_encode n x) = x.
Proof.
  revert x. induction n as [|n IH]; intros x Hx; simpl.
  - unfold in_range in Hx. simpl in Hx. lia.
  - rewrite IH; [pose proof (Z.div_mod x 256); lia|]. unfold in_range in *. rewrite pow256_S in Hx.
    split; [apply Z.div_pos; lia|apply Z.div_lt_upper_bound; lia].
Qed.
Lemma le_decode_range b : is_bytes b -> in_range (8 * Z.of_nat (length b)) (le_decode b).
Proof.
  induction 1 as [|x b Hx Hb IH]; [done|]. cbn [length le_decode]. unfold in_range in *. rewrite pow256_S.
  change (2 ^ 8) with 256 in Hx. lia.
Qed.
Lemma le_encode_decode b : is_bytes b -> le_encode (length b) (le_decode b) = b.
Proof.
  induction 1 as [|x b Hx Hb IH]; [done|]. cbn [length le_decode le_encode]. unfold in_range in Hx. change (2 ^ 8) with 256 in Hx.
  rewrite (Z.mul_comm 256), Z.mod_add, Z.mod_small by lia. rewrite Z.div_add, Z.div_small, Z.add_0_l by lia. by rewrite IH.
Qed.
Lemma le_decode_app a b : le_decode (a ++ b) = le_decode a + 2 ^ (8 * Z.of_nat (length a)) * le_decode b.
Proof.
  induction a as [|x a IH]; [simpl; lia|]. cbn [app le_decode length]. rewrite IH, pow256_S. lia.
Qed.

(** ** big.Int *)

(** The number of bytes of [x]: none for 0. *)
Definition byte_len (x : Z) : nat := if x =? 0 then 0%nat else S (Z.to_nat (Z.log2 x / 8)).
(** [x.Bytes()]: most significant first, without leading zeros *)
Definition big_Bytes (x : Z) : bytes := reverse (le_encode (byte_len x) x).
Definition big_SetBytes (b : bytes) : Z := le_decode (reverse b).
(** [Exp(x, y, m)] for y >= 0 and m > 0 *)
Fixpoint exp_pos (x : Z) (y : positive) (m : Z) : Z :=
  match y with
  | xH => x mod m
  | xO y => let r := exp_pos x y m in (r * r) mod m
  | xI y => let r := exp_pos x y m in (x * ((r * r) mod m)) mod m
  end.
Definition big_Exp (x y m : Z) : Z := match y with Zpos y => exp_pos x y m | _ => 1 mod m end.

Lemma exp_pos_spec x y m : exp_pos x y m = (x ^ Zpos y) mod m.
Proof.
  induction y as [y IH|y IH|]; cbn [exp_pos].
  - rewrite IH, <- Zmult_mod, Zmult_mod_idemp_r. f_equal.
    replace (Zpos y~1) with (1 + (Zpos y + Zpos y)) by lia. rewrite Z.pow_add_r, Z.pow_1_r, Z.pow_add_r by lia. done.
  - rewrite IH, <- Zmult_mod. f_equal. replace (Zpos y~0) with (Zpos y + Zpos y) by lia. by rewrite Z.pow_add_r by lia.
  - by rewrite Z.pow_1_r.
Qed.
Lemma big_Exp_spec x y m : 0 <= y -> big_Exp x y m = (x ^ y) mod m.
Proof. destruct y; intros Hy; [done|apply exp_pos_spec|lia]. Qed.

Lemma byte_len_range x : 0 <= x -> in_range (8 * Z.of_nat (byte_len x)) x.
Proof.
  intros Hx. unfold byte_len. destruct (Z.eqb_spec x 0) as [->|Hne]; [done|]. split; [done|].
  rewrite Nat2Z.inj_succ, Z2Nat.id by (apply Z.div_pos; [apply Z.log2_nonneg|lia]).
  apply Z.log2_lt_pow2; [lia|]. pose proof (Z.div_mod (Z.log2 x) 8 ltac:(lia)).
  pose proof (Z.mod_pos_bound (Z.log2 x) 8 ltac:(lia)). lia.
Qed.
Lemma byte_len_bound n x : 0 <= x < 2 ^ (8 * Z.of_nat n) -> (byte_len x <= n)%nat.
Proof.
  intros [H0 Hx]. unfold byte_len. destruct (Z.eqb_spec x 0) as [->|Hne]; [lia|].
  assert (Z.log2 x < 8 * Z.of_nat n) by (apply Z.log2_lt_pow2; lia).
  assert (Z.log2 x / 8 < Z.of_nat n) by (apply Z.div_lt_upper_bound; lia).
  pose proof (Z.div_pos (Z.log2 x) 8 (Z.log2_nonneg x) ltac:(lia)). lia.
Qed.
Lemma big_bytes_roundtrip x : 0 <= x -> big_SetBytes (big_Bytes x) = x.
Proof. intros Hx. unfold big_SetBytes, big_Bytes. rewrite reverse_involutive. apply le_decode_encode. by apply byte_len_range. Qed.

(** ** Strings *)
Fixpoint string_bytes (s : string) : bytes :=
  match s with
  | EmptyString => []
  | String c s => Z.of_N (N_of_ascii c) :: string_bytes s
  end.
Definition byte_string (b : Z) (s : string) : string := String (ascii_of_N (Z.to_N b)) s.
Definition bytes_string (b : bytes) : string := foldr byte_string EmptyString b.

Lemma bytes_string_bytes s : bytes_string (string_bytes s) = s.
Proof. induction s as [|c s IH]; [done|]. unfold bytes_string in *. cbn. rewrite IH. unfold byte_string. by rewrite N2Z.id, ascii_N_embedding. Qed.
Lemma string_bytes_is_bytes s : is_bytes (string_bytes s).
Proof.
  induction s as [|c s IH]; [constructor|]. constructor; [|exact IH]. unfold in_range. change (2 ^ 8) with 256.
  pose proof (N_ascii_bounded c). lia.
Qed.

(** ** shared/slices *)
Definition AppendBytes (b : list bytes) : bytes := foldl (fun result x => result ++ x) [] b.
Fixpoint same_loop (a b : bytes) : bool :=
  match a, b with
  | x :: a, y :: b => if negb (x =? y) then false else same_loop a b
  | _, _ => true
  end.
Definition SameBytes (a b : bytes) : bool := if negb (length a =? length b)%nat then false else same_loop a b.

Lemma AppendBytes_concat b : AppendBytes b = concat b.
Proof.
  unfold AppendBytes. change (concat b) with ([] ++ concat b). generalize (@nil Z).
  induction b as [|x b IH]; intros r; simpl; [by rewrite app_nil_r|]. by rewrite IH, app_assoc.
Qed.
Lemma SameBytes_spec a b : SameBytes a b = true <-> a = b.
Proof.
  unfold SameBytes. destruct (Nat.eqb_spec (length a) (length b)) as [Hlen|Hlen]; simpl; [|split; [done|by intros ->]].
  revert b Hlen. induction a as [|x a IH]; intros [|y b] Hlen; simpl in *; try done.
  destruct (Z.eqb_spec x y) as [->|Hne]; simpl; [|split; [done|congruence]]. rewrite IH by lia. split; congruence.
Qed.
