(* ===== verification/Packet.v ===== *)
(** * Packet: reading and writing the fields of game packets
    (apps/gateway/packet/reader.go, writer.go, packet.go)

    A reader holds the bytes that are left and the first error; a failed read
    of a number uses up what was left, as io.ReadFull does.  A float32 is its
    32 bits. *)
From S2P Require Import Prelude Bytes.

Inductive ByteOrder := LittleEndian | BigEndian.
Definition ordered (o : ByteOrder) (b : bytes) : bytes := match o with LittleEndian => b | BigEndian => reverse b end.
(** The signed number of [w] bits. *)
Definition signed (w x : Z) : Z := if x <? 2 ^ (w - 1) then x else x - 2 ^ w.

Record Packet := { Opcode : u16; Source : u8; Size : u32; Data : bytes }.

(** ** Reader *)
Inductive read_error := EOF | UnexpectedEOF.
Record Reader := { r_data : bytes; r_err : option read_error }.
Definition NewReaderWithData (d : bytes) : Reader := {| r_data := d; r_err := None |}.
Definition Packet_Reader (p : Packet) : Reader := NewReaderWithData (Data p).

(** [binary.Read] of [n] bytes. *)
Definition read_fixed (n : nat) (r : Reader) : Z * Reader :=
  match r_err r with
  | Some _ => (0, r)
  | None =>
    if (n <=? length (r_data r))%nat then (le_decode (take n (r_data r)), {| r_data := drop n (r_data r); r_err := None |})
    else (0, {| r_data := []; r_err := Some (if (length (r_data r) =? 0)%nat then EOF else UnexpectedEOF) |})
  end.
Definition Uint8 : Reader -> u8 * Reader := read_fixed 1.
Definition Uint16 : Reader -> u16 * Reader := read_fixed 2.
Definition Uint32 : Reader -> u32 * Reader := read_fixed 4.
Definition Uint64 : Reader -> u64 * Reader := read_fixed 8.
Definition Float32 : Reader -> u32 * Reader := read_fixed 4.
Definition read_signed (n : nat) (r : Reader) : Z * Reader :=
  let '(x, r) := read_fixed n r in (signed (8 * Z.of_nat n) x, r).
Definition Int8 : Reader -> Z * Reader := read_signed 1.
Definition Int16 : Reader -> Z * Reader := read_signed 2.
Definition Int32 : Reader -> Z * Reader := read_signed 4.
Definition Int64 : Reader -> Z * Reader := read_signed 8.

(** Up to a zero byte or the end, which is no error. *)
Fixpoint read_string (d : bytes) : bytes * bytes :=
  match d with
  | [] => ([], [])
  | x :: d => if x =? 0 then ([], d) else let '(s, d) := read_string d in (x :: s, d)
  end.
Definition Reader_String (r : Reader) : bytes * Reader :=
  match r_err r with
  | Some _ => ([], r)
  | None => let '(s, d) := read_string (r_data r) in (s, {| r_data := d; r_err := None |})
  end.

(** The bytes the mark announces, the [fuel] lowest not yet read. *)
Fixpoint read_guid_loop (fuel : nat) (i guidMark guid : Z) (d : bytes) : option Z * bytes :=
  match fuel with
  | O => (Some guid, d)
  | S fuel =>
    if negb (Z.land guidMark (Z.shiftl 1 i) =? 0) then
      match d with
      | [] => (None, [])
      | b :: d => read_guid_loop fuel (i + 1) guidMark (Z.lor guid (Z.shiftl b (i * 8))) d
      end
    else read_guid_loop fuel (i + 1) guidMark guid d
  end.
Definition ReadGUID (r : Reader) : u64 * Reader :=
  match r_err r with
  | Some _ => (0, r)
  | None =>
    match r_data r with
    | [] => (0, {| r_data := []; r_err := Some EOF |})
    | guidMark :: d =>
      match read_guid_loop 8 0 guidMark 0 d with
      | (Some guid, d) => (guid, {| r_data := d; r_err := None |})
      | (None, d) => (0, {| r_data := d; r_err := Some EOF |})
      end
    end
  end.
Definition Left (r : Reader) : int := len (r_data r).

(** ** Writer *)
Record Writer := { Payload : bytes; w_Opcode : u16; w_Size : Z; order : ByteOrder; w_err : bool }.
Definition NewWriter (opcode : u16) : Writer :=
  {| Payload := []; w_Opcode := opcode; w_Size := -1; order := LittleEndian; w_err := false |}.
Definition NewWriterWithSize (opcode : u16) (size : u32) : Writer :=
  {| Payload := []; w_Opcode := opcode; w_Size := signed 32 size; order := LittleEndian; w_err := false |}.
Definition ToPacket (w : Writer) : Packet :=
  {| Opcode := w_Opcode w; Source := 0; Size := wrap32 (len (Payload w)); Data := Payload w |}.
(** Writing to a buffer does not fail. *)
Definition put (b : bytes) (w : Writer) : Writer :=
  if w_err w then w
  else {| Payload := Payload w ++ b; w_Opcode := w_Opcode w; w_Size := w_Size w; order := order w; w_err := false |}.
Definition put_fixed (n : nat) (v : Z) (w : Writer) : Writer := put (ordered (order w) (le_encode n v)) w.
Definition WUint8 (v : u8) : Writer -> Writer := put [v].
Definition WBool (v : bool) : Writer -> Writer := put [if v then 1 else 0].
Definition WUint16 (v : u16) : Writer -> Writer := put_fixed 2 v.
Definition WInt16 (v : Z) : Writer -> Writer := put_fixed 2 v.
Definition WUint32 (v : u32) : Writer -> Writer := put_fixed 4 v.
Definition WInt32 (v : Z) : Writer -> Writer := put_fixed 4 v.
Definition WUint64 (v : u64) : Writer -> Writer := put_fixed 8 v.
Definition WInt64 (v : Z) : Writer -> Writer := put_fixed 8 v.
Definition WFloat32 (v : u32) : Writer -> Writer := put_fixed 4 v.
Definition WString (v : bytes) : Writer -> Writer := put (v ++ [0]).
Definition WBytes (v : bytes) : Writer -> Writer := put v.
Definition SetByteOrder (o : ByteOrder) (w : Writer) : Writer :=
  {| Payload := Payload w; w_Opcode := w_Opcode w; w_Size := w_Size w; order := o; w_err := w_err w |}.

(** The loop over the guid's bytes fills [packGUID], an array of nine bytes;
    [None]: an index out of range, or out of fuel. *)
Definition set_index (b : bytes) (i : nat) (x : u8) : option bytes :=
  if (i <? length b)%nat then Some (<[i := x]> b) else None.
Fixpoint pack_guid_loop (fuel : nat) (i : u8) (size : nat) (packGUID : bytes) (guid : u64) : option (bytes * nat) :=
  if guid =? 0 then Some (packGUID, size)
  else
    match fuel with
    | O => None
    | S fuel =>
      let byte := Z.land guid 0xFF in
      if negb (byte =? 0) then
        mark ← packGUID !! 0%nat;
        packGUID ← set_index packGUID 0 (Z.lor mark (wrap8 (Z.shiftl 1 i)));
        packGUID ← set_index packGUID size byte;
        pack_guid_loop fuel (wrap8 (i + 1)) (S size) packGUID (Z.shiftr guid 8)
      else pack_guid_loop fuel (wrap8 (i + 1)) size packGUID (Z.shiftr guid 8)
    end.
Definition pack_guid (guid : u64) : option bytes :=
  '(packGUID, size) ← pack_guid_loop 8 0 1 (replicate 9 0) guid;
  if (size <=? length packGUID)%nat then Some (take size packGUID) else None.
Definition WGUID (guid : u64) (w : Writer) : option Writer :=
  if w_err w then Some w else packed ← pack_guid guid; Some (WBytes packed w).

(** ** Packed guids *)

(** The mark has a bit for each byte that is not zero. *)
Fixpoint marks (i : Z) (b : bytes) : Z :=
  match b with
  | [] => 0
  | x :: b => (if x =? 0 then 0 else 2 ^ i) + marks (i + 1) b
  end.
Definition nonzero (b : bytes) : bytes := filter (fun x => x <> 0) b.

Lemma marks_range i b : 0 <= i -> 0 <= marks i b < 2 ^ (i + len b) /\ (marks i b) mod 2 ^ i = 0.
Proof.
  revert i. induction b as [|x b IH]; intros i Hi; simpl.
  - unfold len; simpl. rewrite Z.add_0_r, Z.mod_0_l by (apply Z.pow_nonzero; lia). split; [|done]. split; [done|]. by apply Z.pow_pos_nonneg.
  - destruct (IH (i + 1) ltac:(lia)) as [[H1 H2] H3].
    replace (i + 1 + len b) with (i + len (x :: b)) in H2 by (unfold len; simpl; lia).
    assert (Hp : 0 < 2 ^ i) by (by apply Z.pow_pos_nonneg). rewrite Z.pow_add_r in H3 by lia. change (2 ^ 1) with 2 in H3.
    apply Z.mod_divide in H3 as [q Hq]; [|lia]. rewrite Hq in *.
    assert (Hlen : 2 ^ (i + len (x :: b)) = 2 ^ i * (2 * 2 ^ len b)).
    { unfold len. simpl. rewrite Nat2Z.inj_succ, Z.pow_add_r, Z.pow_succ_r by lia. done. }
    rewrite Hlen in *. split.
    + destruct (x =? 0); [lia|]. split; [lia|].
      assert (q < 2 ^ len b) by nia. nia.
    + apply Z.mod_divide; [lia|]. destruct (x =? 0); [exists (q * 2)|exists (1 + q * 2)]; ring.
Qed.

(** *** Packing *)
Lemma set_index_ok b i x : (i < length b)%nat -> set_index b i x = Some (<[i := x]> b).
Proof. intros Hi. unfold set_index. by rewrite (proj2 (Nat.ltb_lt _ _) Hi). Qed.
Lemma pack_guid_loop_run n : forall i size pack guid mark,
  (n <= 8)%nat -> i = 8 - Z.of_nat n -> in_range (8 * Z.of_nat n) guid ->
  length pack = 9%nat -> (1 <= size <= 9 - n)%nat -> pack !! 0%nat = Some mark -> 0 <= mark < 2 ^ i ->
  exists pack' size', pack_guid_loop n i size pack guid = Some (pack', size') /\ (size' <= 9)%nat /\ length pack' = 9%nat /\
    take size' pack' = (mark + marks i (le_encode n guid)) :: drop 1 (take size pack) ++ nonzero (le_encode n guid).
Proof.
  induction n as [|n IH]; intros i size pack guid mark Hn -> Hg Hlen Hsize Hmark Hmr.
  - assert (guid = 0) as -> by (unfold in_range in Hg; simpl in Hg; lia). simpl. exists pack, size. split; [done|].
    split; [lia|]. split; [done|]. destruct pack as [|x pack]; [done|]. injection Hmark as ->. destruct size as [|size]; [lia|].
    simpl. by rewrite Z.add_0_r, drop_0, app_nil_r.
  - cbn [pack_guid_loop]. destruct (Z.eqb_spec guid 0) as [->|Hne].
    + exists pack, size. split; [done|]. split; [lia|]. split; [done|].
      assert (Hz : forall m j, marks j (le_encode m 0) = 0 /\ nonzero (le_encode m 0) = []).
      { intros m. induction m as [|m IHm]; intros j; [done|]. cbn [le_encode]. rewrite Z.mod_0_l, Z.div_0_l by lia. apply IHm. }
      destruct (Hz (S n) (8 - Z.of_nat (S n))) as [-> ->]. rewrite Z.add_0_r, app_nil_r.
      destruct pack as [|x pack]; [done|]. injection Hmark as ->. destruct size as [|size]; [lia|]. simpl. by rewrite drop_0.
    + cbn [le_encode marks]. set (i := 8 - Z.of_nat (S n)) in *. assert (Hi : 0 <= i < 8) by lia.
      assert (Hby : Z.land guid 255 = guid mod 256) by (apply (Z.land_ones guid 8); lia). rewrite Hby.
      rewrite (Z.shiftr_div_pow2 guid 8) by lia. change (2 ^ 8) with 256.
      assert (Hg' : in_range (8 * Z.of_nat n) (guid / 256)).
      { unfold in_range in *. rewrite pow256_S in Hg. split; [apply Z.div_pos; lia|apply Z.div_lt_upper_bound; lia]. }
      assert (Hi1 : wrap8 (i + 1) = i + 1) by (apply wrap_small; unfold in_range; change (2 ^ 8) with 256; lia). rewrite Hi1.
      assert (Hbit : 2 ^ (i + 1) = 2 * 2 ^ i) by (rewrite Z.pow_add_r by lia; change (2 ^ 1) with 2; ring).
      destruct (Z.eqb_spec (guid mod 256) 0) as [E0|E0]; cbn [negb].
      * destruct (IH (i + 1) size pack (guid / 256) mark ltac:(lia) ltac:(lia) Hg' Hlen ltac:(lia) Hmark ltac:(lia))
          as (pack' & size' & Hrun & H1 & H2 & H3).
        exists pack', size'. split; [done|]. split; [done|]. split; [done|]. rewrite H3. unfold nonzero.
        rewrite filter_cons_False by (by intros []). f_equal.
      * rewrite Hmark. rewrite some_bind, set_index_ok, some_bind by lia. rewrite set_index_ok, some_bind by (rewrite length_insert; lia).
        assert (Hor : Z.lor mark (wrap8 (Z.shiftl 1 i)) = mark + 2 ^ i).
        { rewrite wrap_small; [rewrite (lor_shiftl_add mark 1 i); [ring|lia|exact Hmr]|].
          unfold in_range. rewrite Z.shiftl_1_l. split; [by apply Z.pow_nonneg|]. apply Z.pow_lt_mono_r; lia. }
        rewrite Hor.
        destruct pack as [|x pack]; [done|]. injection Hmark as ->. destruct size as [|size]; [lia|]. cbn in Hlen.
        change (<[0%nat := mark + 2 ^ i]> (mark :: pack)) with ((mark + 2 ^ i) :: pack).
        change (<[S size := guid mod 256]> ((mark + 2 ^ i) :: pack)) with ((mark + 2 ^ i) :: <[size := guid mod 256]> pack).
        destruct (IH (i + 1) (S (S size)) ((mark + 2 ^ i) :: <[size := guid mod 256]> pack) (guid / 256) (mark + 2 ^ i)
          ltac:(lia) ltac:(lia) Hg' ltac:(simpl; rewrite length_insert; lia) ltac:(lia) eq_refl ltac:(lia))
          as (pack' & size' & Hrun & H1 & H2 & H3).
        exists pack', size'. split; [done|]. split; [done|]. split; [done|]. rewrite H3. unfold nonzero.
        rewrite filter_cons_True by done. cbn [take drop]. rewrite drop_0. f_equal; [lia|].
        rewrite (take_S_r _ size (guid mod 256)) by (apply list_lookup_insert_eq; lia).
        rewrite take_insert_ge by lia. by rewrite <- app_assoc.
Qed.
Lemma pack_guid_run guid : in_range 64 guid ->
  pack_guid guid = Some (marks 0 (le_encode 8 guid) :: nonzero (le_encode 8 guid)).
Proof.
  intros Hg. unfold pack_guid.
  destruct (pack_guid_loop_run 8 0 1 (replicate 9 0) guid 0) as (pack' & size' & Hrun & H1 & H2 & H3); try done; try lia.
  rewrite Hrun. cbn [mbind option_bind]. rewrite (proj2 (Nat.leb_le _ _)) by lia. rewrite H3. done.
Qed.

(** *** Unpacking *)
Lemma marks_bit i low x b : 0 <= i -> 0 <= low < 2 ^ i ->
  Z.testbit (low + marks i (x :: b)) i = negb (x =? 0).
Proof.
  intros Hi Hlow. cbn [marks]. destruct (marks_range (i + 1) b ltac:(lia)) as [_ Hdiv].
  apply Z.mod_divide in Hdiv as [q Hq]; [|apply Z.pow_nonzero; lia]. rewrite Hq, (Z.pow_add_r 2 i 1), Z.pow_1_r by lia.
  apply (Z.testbit_unique _ _ _ low q); [exact Hlow|]. destruct (x =? 0); simpl; ring.
Qed.
Lemma read_guid_loop_run b : forall i low guid rest,
  is_bytes b -> 0 <= i -> 0 <= low < 2 ^ i -> in_range (8 * i) guid ->
  read_guid_loop (length b) i (low + marks i b) guid (nonzero b ++ rest) =
    (Some (guid + 2 ^ (8 * i) * le_decode b), rest).
Proof.
  induction b as [|x b IH]; intros i low guid rest Hb Hi Hlow Hg; [simpl; do 2 f_equal; ring|].
  inversion Hb as [|? ? Hx Hb']; subst. cbn [read_guid_loop length]. rewrite land_bit, negb_involutive by done. rewrite marks_bit by done.
  assert (Hp : 2 ^ (i + 1) = 2 * 2 ^ i) by (rewrite Z.pow_add_r by lia; change (2 ^ 1) with 2; ring).
  assert (Hp8 : 2 ^ (8 * (i + 1)) = 256 * 2 ^ (8 * i)) by (replace (8 * (i + 1)) with (8 + 8 * i) by ring; by rewrite Z.pow_add_r by lia).
  unfold in_range in Hx. change (2 ^ 8) with 256 in Hx.
  assert (Hpos : 0 < 2 ^ (8 * i)) by (apply Z.pow_pos_nonneg; lia). assert (Hposi : 0 < 2 ^ i) by (by apply Z.pow_pos_nonneg).
  cbn [marks le_decode]. unfold nonzero. destruct (Z.eqb_spec x 0) as [->|Hne]; cbn [negb].
  - rewrite filter_cons_False by (by intros []). rewrite Z.add_0_l. fold (nonzero b).
    rewrite (IH (i + 1) low guid rest); [|done|lia|lia|unfold in_range in *; lia]. rewrite Hp8. do 2 f_equal. ring.
  - rewrite filter_cons_True by done. cbn [app]. fold (nonzero b).
    replace (i * 8) with (8 * i) by ring. rewrite lor_shiftl_add by (done || lia). rewrite Z.add_assoc.
    rewrite (IH (i + 1) (low + 2 ^ i)); [|done|lia|lia|unfold in_range in *; nia]. rewrite Hp8. do 2 f_equal. ring.
Qed.
Lemma read_packed guid rest : in_range 64 guid ->
  ReadGUID (NewReaderWithData (marks 0 (le_encode 8 guid) :: nonzero (le_encode 8 guid) ++ rest)) = (guid, NewReaderWithData rest).
Proof.
  intros Hg. unfold ReadGUID, NewReaderWithData; cbn [r_err r_data].
  pose proof (read_guid_loop_run (le_encode 8 guid) 0 0 0 rest (le_encode_bytes 8 guid) ltac:(lia) ltac:(lia) ltac:(done)) as Hrun.
  rewrite le_encode_length, Z.add_0_l in Hrun. rewrite Hrun. rewrite Z.mul_0_r, Z.pow_0_r, Z.mul_1_l, Z.add_0_l.
  by rewrite (le_decode_encode 8 guid).
Qed.

(** ** Fields *)
Inductive field :=
| FUint8 (v : u8) | FBool (v : bool) | FUint16 (v : u16) | FInt16 (v : Z) | FUint32 (v : u32) | FInt32 (v : Z)
| FUint64 (v : u64) | FInt64 (v : Z) | FFloat32 (v : u32) | FString (v : bytes) | FGUID (v : u64).
Definition in_signed (w x : Z) : Prop := - 2 ^ (w - 1) <= x < 2 ^ (w - 1).
Definition field_ok (f : field) : Prop :=
  match f with
  | FUint8 v => in_range 8 v
  | FBool v => True
  | FUint16 v => in_range 16 v
  | FInt16 v => in_signed 16 v
  | FUint32 v | FFloat32 v => in_range 32 v
  | FInt32 v => in_signed 32 v
  | FUint64 v | FGUID v => in_range 64 v
  | FInt64 v => in_signed 64 v
  | FString v => 0 ∉ v
  end.
Definition write_field (w : Writer) (f : field) : option Writer :=
  match f with
  | FUint8 v => Some (WUint8 v w)
  | FBool v => Some (WBool v w)
  | FUint16 v => Some (WUint16 v w)
  | FInt16 v => Some (WInt16 v w)
  | FUint32 v => Some (WUint32 v w)
  | FInt32 v => Some (WInt32 v w)
  | FUint64 v => Some (WUint64 v w)
  | FInt64 v => Some (WInt64 v w)
  | FFloat32 v => Some (WFloat32 v w)
  | FString v => Some (WString v w)
  | FGUID v => WGUID v w
  end.
Fixpoint write_fields (w : Writer) (fs : list field) : option Writer :=
  match fs with
  | [] => Some w
  | f :: fs => w ← write_field w f; write_fields w fs
  end.
Definition map_fst {A B C} (f : A -> C) (p : A * B) : C * B := (f p.1, p.2).
(** Read a field like [f]; a bool is read as a byte. *)
Definition read_field (f : field) (r : Reader) : field * Reader :=
  match f with
  | FUint8 _ => map_fst FUint8 (Uint8 r)
  | FBool _ => map_fst (fun b => FBool (negb (b =? 0))) (Uint8 r)
  | FUint16 _ => map_fst FUint16 (Uint16 r)
  | FInt16 _ => map_fst FInt16 (Int16 r)
  | FUint32 _ => map_fst FUint32 (Uint32 r)
  | FInt32 _ => map_fst FInt32 (Int32 r)
  | FUint64 _ => map_fst FUint64 (Uint64 r)
  | FInt64 _ => map_fst FInt64 (Int64 r)
  | FFloat32 _ => map_fst FFloat32 (Float32 r)
  | FString _ => map_fst FString (Reader_String r)
  | FGUID _ => map_fst FGUID (ReadGUID r)
  end.
Fixpoint read_fields (fs : list field) (r : Reader) : list field * Reader :=
  match fs with
  | [] => ([], r)
  | f :: fs => let '(g, r) := read_field f r in let '(gs, r) := read_fields fs r in (g :: gs, r)
  end.

(** The bytes of a field, in the order readers use. *)
Definition field_bytes (f : field) : bytes :=
  match f with
  | FUint8 v => [v]
  | FBool v => [if v then 1 else 0]
  | FUint16 v | FInt16 v => le_encode 2 v
  | FUint32 v | FInt32 v | FFloat32 v => le_encode 4 v
  | FUint64 v | FInt64 v => le_encode 8 v
  | FString v => v ++ [0]
  | FGUID v => marks 0 (le_encode 8 v) :: nonzero (le_encode 8 v)
  end.
Lemma write_field_run w f : field_ok f -> w_err w = false -> order w = LittleEndian ->
  exists w', write_field w f = Some w' /\ Payload w' = Payload w ++ field_bytes f /\ w_err w' = false /\ order w' = LittleEndian.
Proof.
  intros Hf He Ho. destruct f; cbn [write_field];
    try (eexists; split; [reflexivity|]; cbv [WUint8 WBool WUint16 WInt16 WUint32 WInt32 WUint64 WInt64 WFloat32 WString put_fixed put];
         rewrite He, ?Ho; done).
  unfold WGUID. rewrite He, pack_guid_run by done. eexists. split; [reflexivity|]. unfold WBytes, put. by rewrite He.
Qed.

Lemma read_fixed_run n x rest : read_fixed n (NewReaderWithData (le_encode n x ++ rest)) = (le_decode (le_encode n x), NewReaderWithData rest).
Proof.
  unfold read_fixed, NewReaderWithData; cbn [r_err r_data]. rewrite length_app, le_encode_length, (proj2 (Nat.leb_le _ _)) by lia.
  by rewrite take_app_length', drop_app_length' by (by rewrite le_encode_length).
Qed.
Lemma le_decode_mod n x : le_decode (le_encode n x) = x mod 2 ^ (8 * Z.of_nat n).
Proof.
  revert x. induction n as [|n IH]; intros x; [by rewrite Z.mod_1_r|]. cbn [le_encode le_decode]. rewrite IH, pow256_S.
  rewrite Z.rem_mul_r; [done|lia|apply Z.pow_pos_nonneg; lia].
Qed.
Lemma signed_encode n x : (0 < n)%nat -> in_signed (8 * Z.of_nat n) x ->
  signed (8 * Z.of_nat n) (le_decode (le_encode n x)) = x.
Proof.
  intros Hn Hx. rewrite le_decode_mod. unfold signed, in_signed in *. set (w := 8 * Z.of_nat n) in *.
  assert (Hp : 2 ^ w = 2 * 2 ^ (w - 1)) by (replace w with (1 + (w - 1)) at 1 by ring; rewrite Z.pow_add_r by lia; done).
  destruct (Z.ltb_spec x 0).
  - replace (x mod 2 ^ w) with (x + 2 ^ w).
    + destruct (Z.ltb_spec (x + 2 ^ w) (2 ^ (w - 1))); lia.
    + symmetry. rewrite <- (Z.mod_add x 1) by lia. rewrite Z.mul_1_l. apply Z.mod_small. lia.
  - rewrite Z.mod_small by lia. destruct (Z.ltb_spec x (2 ^ (w - 1))); lia.
Qed.
Lemma read_string_run v rest : 0 ∉ v -> read_string (v ++ 0 :: rest) = (v, rest).
Proof.
  induction v as [|x v IH]; intros Hv; [done|]. rewrite not_elem_of_cons in Hv. destruct Hv as [Hx Hv]. cbn [app read_string].
  rewrite (proj2 (Z.eqb_neq x 0)) by done. by rewrite IH.
Qed.
Lemma read_field_run f rest : field_ok f ->
  read_field f (NewReaderWithData (field_bytes f ++ rest)) = (f, NewReaderWithData rest).
Proof.
  intros Hf. destruct f; cbn [read_field field_bytes field_ok] in *; unfold map_fst.
  - pose proof (read_fixed_run 1 v rest) as Hr. cbn [le_encode app] in Hr. unfold in_range in Hf. change (2 ^ 8) with 256 in Hf.
    rewrite Z.mod_small in Hr by done. unfold Uint8. cbn [app]. rewrite Hr. simpl. by rewrite Z.add_0_r.
  - by destruct v.
  - unfold Uint16. by rewrite read_fixed_run, (le_decode_encode 2).
  - unfold Int16, read_signed. by rewrite read_fixed_run, (signed_encode 2) by (done || lia).
  - unfold Uint32. by rewrite read_fixed_run, (le_decode_encode 4).
  - unfold Int32, read_signed. by rewrite read_fixed_run, (signed_encode 4) by (done || lia).
  - unfold Uint64. by rewrite read_fixed_run, (le_decode_encode 8).
  - unfold Int64, read_signed. by rewrite read_fixed_run, (signed_encode 8) by (done || lia).
  - unfold Float32. by rewrite read_fixed_run, (le_decode_encode 4).
  - unfold Reader_String, NewReaderWithData; cbn [r_err r_data]. rewrite <- app_assoc. cbn [app]. by rewrite read_string_run.
  - cbn [app]. by rewrite read_packed.
Qed.

Lemma read_fields_run fs rest : Forall field_ok fs ->
  read_fields fs (NewReaderWithData (concat (field_bytes <$> fs) ++ rest)) = (fs, NewReaderWithData rest).
Proof.
  induction 1 as [|f fs Hf Hfs IH]; [done|]. cbn [fmap list_fmap concat read_fields].
  rewrite <- app_assoc, read_field_run by done. by rewrite IH.
Qed.
Lemma write_fields_run fs : forall w, Forall field_ok fs -> w_err w = false -> order w = LittleEndian ->
  exists w', write_fields w fs = Some w' /\ Payload w' = Payload w ++ concat (field_bytes <$> fs) /\ w_err w' = false.
Proof.
  induction fs as [|f fs IH]; intros w Hok He Ho; [exists w; by rewrite app_nil_r|].
  apply Forall_cons in Hok as [Hf Hfs]. destruct (write_field_run w f Hf He Ho) as (w1 & Hrun & Hp & He1 & Ho1).
  destruct (IH w1 Hfs He1 Ho1) as (w2 & Hrun2 & Hp2 & He2). exists w2. cbn [write_fields]. rewrite Hrun, some_bind.
  split; [done|]. split; [|done]. rewrite Hp2, Hp. cbn [fmap list_fmap concat]. by rewrite <- app_assoc.
Qed.

(** ** Errors of a reader *)

(** What a failed read answers. *)
Definition zero_field (f : field) : field :=
  match f with
  | FUint8 _ => FUint8 0
  | FBool _ => FBool false
  | FUint16 _ => FUint16 0
  | FInt16 _ => FInt16 0
  | FUint32 _ => FUint32 0
  | FInt32 _ => FInt32 0
  | FUint64 _ => FUint64 0
  | FInt64 _ => FInt64 0
  | FFloat32 _ => FFloat32 0
  | FString _ => FString []
  | FGUID _ => FGUID 0
  end.
Definition is_string (f : field) : bool := match f with FString _ => true | _ => false end.

Lemma read_field_failed f r : r_err r <> None -> read_field f r = (zero_field f, r).
Proof. destruct r as [d [e|]]; [|done]. intros _. by destruct f. Qed.
Lemma read_fields_failed fs r : r_err r <> None -> read_fields fs r = (zero_field <$> fs, r).
Proof.
  intros Hr. induction fs as [|f fs IH]; [done|]. cbn [read_fields fmap list_fmap].
  rewrite read_field_failed by done. by rewrite IH.
Qed.
Lemma read_fixed_short n d : (length d < n)%nat -> exists e, read_fixed n (NewReaderWithData d) = (0, {| r_data := []; r_err := Some e |}).
Proof.
  intros Hlen. unfold read_fixed, NewReaderWithData; cbn [r_err r_data]. rewrite (proj2 (Nat.leb_gt _ _)) by done. by eexists.
Qed.
Lemma read_guid_loop_short b : forall i low guid d, is_bytes b -> 0 <= i -> 0 <= low < 2 ^ i ->
  (length d < length (nonzero b))%nat -> read_guid_loop (length b) i (low + marks i b) guid d = (None, []).
Proof.
  induction b as [|x b IH]; intros i low guid d Hb Hi Hlow Hd; [simpl in Hd; lia|].
  inversion Hb as [|? ? Hx Hb']; subst. cbn [read_guid_loop length]. rewrite land_bit, negb_involutive by done. rewrite marks_bit by done.
  assert (Hp : 2 ^ (i + 1) = 2 * 2 ^ i) by (rewrite Z.pow_add_r by lia; change (2 ^ 1) with 2; ring).
  cbn [marks] in *. unfold nonzero in Hd. destruct (Z.eqb_spec x 0) as [->|Hne]; cbn [negb].
  - rewrite filter_cons_False in Hd by (by intros []). rewrite Z.add_0_l. apply IH; [done|lia|lia|done].
  - rewrite filter_cons_True in Hd by done. destruct d as [|y d]; [done|]. rewrite Z.add_assoc. apply IH; [done|lia|lia|].
    cbn [length] in Hd. unfold nonzero. lia.
Qed.
(** A field cut short is an error, strings apart. *)
Lemma read_field_short f d y t : field_ok f -> is_string f = false -> field_bytes f = d ++ y :: t ->
  r_err (read_field f (NewReaderWithData d)).2 <> None.
Proof.
  intros Hf Hs Hsplit. assert (Hlen : (length d < length (field_bytes f))%nat) by (rewrite Hsplit, length_app; simpl; lia).
  destruct f; try done; cbn [field_bytes read_field] in *; rewrite ?le_encode_length in Hlen;
    try (unfold Uint8, Uint16, Uint32, Uint64, Float32, Int16, Int32, Int64, read_signed, map_fst;
         first [destruct (read_fixed_short 1 d Hlen) as [e ->] | destruct (read_fixed_short _ d Hlen) as [e ->]]; done).
  unfold map_fst, ReadGUID, NewReaderWithData; cbn [r_err r_data]. destruct d as [|mark d]; [done|].
  pose proof (f_equal (fun l => nth 0 l 0) Hsplit : marks 0 (le_encode 8 v) = mark) as <-.
  assert (Hd : (length d < length (nonzero (le_encode 8 v)))%nat) by (cbn [length] in Hlen; lia).
  pose proof (read_guid_loop_short (le_encode 8 v) 0 0 0 d (le_encode_bytes 8 v) ltac:(lia) ltac:(lia) Hd) as Hrun.
  rewrite le_encode_length, Z.add_0_l in Hrun. by rewrite Hrun.
Qed.
Lemma read_fields_short fs : forall d y t, Forall field_ok fs -> forallb (fun f => negb (is_string f)) fs = true ->
  concat (field_bytes <$> fs) = d ++ y :: t -> r_err (read_fields fs (NewReaderWithData d)).2 <> None.
Proof.
  induction fs as [|f fs IH]; intros d y t Hok Hs Hsplit; [by destruct d|].
  apply Forall_cons in Hok as [Hf Hfs]. cbn [forallb] in Hs. apply andb_true_iff in Hs as [Hs Hss]. apply negb_true_iff in Hs.
  cbn [fmap list_fmap concat read_fields] in *.
  destruct (decide (length d < length (field_bytes f))%nat) as [Hlt|Hge].
  - assert (exists y' t', field_bytes f = d ++ y' :: t') as (y' & t' & Hd).
    { exists (nth (length d) (field_bytes f) 0), (drop (S (length d)) (field_bytes f)).
      assert (Hpre : take (length d) (field_bytes f) = d).
      { pose proof (take_app_length d (y :: t)) as Ht. rewrite <- Hsplit in Ht. by rewrite take_app_le in Ht by lia. }
      rewrite <- Hpre at 1. rewrite <- (take_drop (length d) (field_bytes f)) at 1. f_equal.
      apply drop_S. rewrite nth_lookup. destruct (lookup_lt_is_Some_2 _ _ Hlt) as [z Hz]. by rewrite Hz. }
    pose proof (read_field_short f d y' t' Hf Hs Hd) as Herr. destruct (read_field f _) as [g r]. cbn in Herr.
    by rewrite read_fields_failed.
  - apply app_eq_inv in Hsplit as [(k & Hd & Hk)|(k & Hb & Hk)].
    + rewrite Hd in Hge. rewrite length_app in Hge. destruct k; [|simpl in Hge; lia]. rewrite app_nil_r in Hd.
      pose proof (read_field_run f [] Hf) as Hrun. rewrite app_nil_r, Hd in Hrun. rewrite Hrun. cbn [app] in Hk.
      pose proof (IH [] y t Hfs Hss (eq_sym Hk)) as Herr. by destruct (read_fields fs _).
    + rewrite Hb, read_field_run by done. pose proof (IH k y t Hfs Hss Hk) as Herr. by destruct (read_fields fs _).
Qed.

(** C32: what a packet's writer writes, a reader of the packet reads back, field
    by field, with nothing left over and no error; a string must not hold a
    zero byte. *)
Theorem packet_roundtrip op fs (Hok : Forall field_ok fs) :
  exists w, write_fields (NewWriter op) fs = Some w /\ Opcode (ToPacket w) = op /\
    read_fields fs (Packet_Reader (ToPacket w)) = (fs, NewReaderWithData []).
Proof.
  destruct (write_fields_run fs (NewWriter op) Hok eq_refl eq_refl) as (w & Hrun & Hp & _). exists w. split; [done|]. split.
  - clear Hp Hok. assert (Hop : forall w0, write_fields w0 fs = Some w -> w_Opcode w = w_Opcode w0).
    { clear Hrun. induction fs as [|f fs IH]; intros w0 Hrun; [by injection Hrun as ->|]. cbn [write_fields] in Hrun.
      apply bind_Some in Hrun as (w1 & H1 & H2). rewrite (IH w1 H2). clear -H1. destruct f; cbn [write_field] in H1;
        try (injection H1 as <-; cbv [WUint8 WBool WUint16 WInt16 WUint32 WInt32 WUint64 WInt64 WFloat32 WString put_fixed put];
             by destruct (w_err w0)).
      unfold WGUID in H1. destruct (w_err w0) eqn:E; [by injection H1 as <-|]. apply bind_Some in H1 as (b & _ & H1).
      injection H1 as <-. unfold WBytes, put. by rewrite E. }
    exact (Hop _ Hrun).
  - unfold Packet_Reader, ToPacket. cbn [Data]. rewrite Hp. cbn [Payload NewWriter app].
    rewrite <- (app_nil_r (concat _)). by apply read_fields_run.
Qed.
Lemma packet_roundtrip_witness : exists w, write_fields (NewWriter 7) [FInt32 (-2); FString [65; 66]; FGUID 0x1200_0000_0034; FBool true] = Some w /\ Opcode (ToPacket w) = 7 /\
  read_fields [FInt32 (-2); FString [65; 66]; FGUID 0x1200_0000_0034; FBool true] (Packet_Reader (ToPacket w)) =
    ([FInt32 (-2); FString [65; 66]; FGUID 0x1200_0000_0034; FBool true], NewReaderWithData []).
Proof.
  apply packet_roundtrip. repeat constructor; try done. intros [?|[?|?%elem_of_nil]%elem_of_cons]%elem_of_cons; done.
Defined.

(** The loop that packs a guid ends within eight rounds whatever the guid,
    stays inside its array of nine bytes, and every byte of the result is one
    that the reader needs: one mark and the bytes of the guid that are not
    zero. *)
Theorem packed_guid_total guid (Hg : in_range 64 guid) :
  exists b, pack_guid guid = Some b /\ (1 <= length b <= 9)%nat /\ is_bytes b /\
    length b = S (length (nonzero (le_encode 8 guid))) /\ ReadGUID (NewReaderWithData b) = (guid, NewReaderWithData []).
Proof.
  eexists. split; [by apply pack_guid_run|]. pose proof (length_filter (fun x : Z => x <> 0) (le_encode 8 guid)) as Hlen.
  rewrite le_encode_length in Hlen. split; [unfold nonzero; simpl in *; lia|]. split; [constructor|split; [done|]].
  - apply marks_range. lia.
  - apply Forall_forall. intros x Hx. unfold nonzero in Hx. apply list_elem_of_filter in Hx as [_ Hx].
    by apply (proj1 (Forall_forall _ _) (le_encode_bytes 8 guid)).
  - rewrite <- (app_nil_r (nonzero _)). by apply read_packed.
Qed.
Lemma packed_guid_total_witness : exists b, pack_guid 0xFF00_0000_0000_0001 = Some b /\ (1 <= length b <= 9)%nat /\ is_bytes b /\
    length b = S (length (nonzero (le_encode 8 0xFF00_0000_0000_0001))) /\
    ReadGUID (NewReaderWithData b) = (0xFF00_0000_0000_0001, NewReaderWithData []).
Proof. apply packed_guid_total. done. Defined.

(** A payload cut short inside its fields never goes unnoticed: the reader
    ends with an error, and from the first failed read on it answers zero
    values and keeps the error.  Packets that end in a string are different: a
    string also ends where the payload does. *)
Theorem truncated_packet_detected fs d y t more
  (Hok : Forall field_ok fs) (Hs : forallb (fun f => negb (is_string f)) fs = true)
  (Hcut : concat (field_bytes <$> fs) = d ++ y :: t) :
  let r := (read_fields fs (NewReaderWithData d)).2 in
  r_err r <> None /\ read_fields more r = (zero_field <$> more, r).
Proof. intros r. assert (r_err r <> None) by (by eapply read_fields_short). split; [done|]. by apply read_fields_failed. Qed.
Lemma truncated_packet_detected_witness : let r := (read_fields [FUint32 5; FGUID 0x301] (NewReaderWithData [5; 0; 0; 0; 3; 1])).2 in
  r_err r <> None /\ read_fields [FInt16 1; FString [65]] r = ([FInt16 0; FString []], r).
Proof.
  apply (truncated_packet_detected [FUint32 5; FGUID 0x301] [5; 0; 0; 0; 3; 1] 3 [] [FInt16 1; FString [65]]); [|done..].
  repeat constructor; done.
Defined.
