(* ===== verification/Crypto.v ===== *)
(** * Sha1: the hash of crypto/sha1 (standard library)

    FIPS 180-4 on lists of bytes; words are 32-bit. *)
From S2P Require Import Prelude Bytes.

Definition rotl32 (n x : Z) : u32 := wrap32 (Z.lor (Z.shiftl x n) (Z.shiftr x (32 - n))).

(** The five words of the chaining value. *)
Record digest := { h0 : u32; h1 : u32; h2 : u32; h3 : u32; h4 : u32 }.
Definition sha1_init : digest :=
  {| h0 := 0x67452301; h1 := 0xEFCDAB89; h2 := 0x98BADCFE; h3 := 0x10325476; h4 := 0xC3D2E1F0 |}.

Definition be32 (x : u32) : bytes := reverse (le_encode 4 x).
Fixpoint words (b : bytes) : list u32 :=
  match b with
  | b0 :: b1 :: b2 :: b3 :: b => le_decode [b3; b2; b1; b0] :: words b
  | _ => []
  end.
(** A one bit, zeros up to 56 bytes modulo 64, and the length in bits. *)
Definition sha1_pad (b : bytes) : bytes :=
  b ++ [0x80] ++ replicate (Z.to_nat ((55 - len b) mod 64)) 0 ++ reverse (le_encode 8 (8 * len b)).

(** The schedule, latest word first. *)
Definition next_word (w : list u32) : u32 :=
  rotl32 1 (Z.lxor (Z.lxor (nth 2 w 0) (nth 7 w 0)) (Z.lxor (nth 13 w 0) (nth 15 w 0))).
Fixpoint extend (n : nat) (w : list u32) : list u32 :=
  match n with
  | O => w
  | S n => extend n (next_word w :: w)
  end.
Definition round_f (t : nat) (b c d : u32) : u32 :=
  if (t <? 20)%nat then Z.lxor d (Z.land b (Z.lxor c d))
  else if (t <? 40)%nat then Z.lxor (Z.lxor b c) d
  else if (t <? 60)%nat then Z.lor (Z.land b c) (Z.land d (Z.lor b c))
  else Z.lxor (Z.lxor b c) d.
Definition round_k (t : nat) : u32 :=
  if (t <? 20)%nat then 0x5A827999
  else if (t <? 40)%nat then 0x6ED9EBA1
  else if (t <? 60)%nat then 0x8F1BBCDC
  else 0xCA62C1D6.
Definition sha1_round (t : nat) (s : digest) (w : u32) : digest :=
  {| h0 := wrap32 (rotl32 5 (h0 s) + round_f t (h1 s) (h2 s) (h3 s) + h4 s + w + round_k t);
     h1 := h0 s; h2 := rotl32 30 (h1 s); h3 := h2 s; h4 := h3 s |}.
Fixpoint sha1_rounds (t : nat) (s : digest) (ws : list u32) : digest :=
  match ws with
  | [] => s
  | w :: ws => sha1_rounds (S t) (sha1_round t s w) ws
  end.
Definition sha1_block (s : digest) (block : list u32) : digest :=
  let r := sha1_rounds 0 s (reverse (extend 64 (reverse block))) in
  {| h0 := wrap32 (h0 s + h0 r); h1 := wrap32 (h1 s + h1 r); h2 := wrap32 (h2 s + h2 r);
     h3 := wrap32 (h3 s + h3 r); h4 := wrap32 (h4 s + h4 r) |}.
Fixpoint sha1_blocks (fuel : nat) (s : digest) (ws : list u32) : digest :=
  match fuel with
  | O => s
  | S fuel => if (length ws <? 16)%nat then s else sha1_blocks fuel (sha1_block s (take 16 ws)) (drop 16 ws)
  end.
Definition digest_bytes (s : digest) : bytes :=
  be32 (h0 s) ++ be32 (h1 s) ++ be32 (h2 s) ++ be32 (h3 s) ++ be32 (h4 s).
Definition sha1_Size : nat := 20.
Definition sha1_Sum (b : bytes) : bytes :=
  let ws := words (sha1_pad b) in digest_bytes (sha1_blocks (length ws) sha1_init ws).

Lemma be32_length x : length (be32 x) = 4%nat.
Proof. unfold be32. by rewrite length_reverse, le_encode_length. Qed.
Lemma sha1_length b : length (sha1_Sum b) = sha1_Size.
Proof. unfold sha1_Sum, digest_bytes. by rewrite !length_app, !be32_length. Qed.
Lemma be32_bytes x : is_bytes (be32 x).
Proof. unfold is_bytes, be32. rewrite Forall_reverse. apply le_encode_bytes. Qed.
Lemma sha1_bytes b : is_bytes (sha1_Sum b).
Proof. unfold sha1_Sum, digest_bytes, is_bytes. rewrite !Forall_app. repeat split; apply be32_bytes. Qed.
(** The padded message is a whole number of blocks. *)
Lemma sha1_pad_length b : (len (sha1_pad b)) mod 64 = 0.
Proof.
  unfold sha1_pad, len. rewrite !length_app, length_reverse, le_encode_length, length_replicate. cbn [length].
  rewrite !Nat2Z.inj_add, Z2Nat.id by (apply Z.mod_pos_bound; lia). Z.to_euclidean_division_equations. lia.
Qed.

(** The example of the standard: the hash of ABC in lower case. *)
Example sha1_abc : sha1_Sum [97; 98; 99] =
  [0xa9; 0x99; 0x3e; 0x36; 0x47; 0x06; 0x81; 0x6a; 0xba; 0x3e; 0x25; 0x71; 0x78; 0x50; 0xc2; 0x6c; 0x9c; 0xd0; 0xd8; 0x9d].
Proof. vm_compute. reflexivity. Qed.

(** ** the header encryption of the game protocol
    (apps/gateway/crypto/arc4.go, on crypto/rc4 and crypto/hmac of the
    standard library)

    The key stream does not depend on the data, so that applying it twice from
    the same state gives the data back. *)
(** ** crypto/rc4 *)
Record cipher := { rc_s : bytes; rc_i : u8; rc_j : u8 }.
Definition at_byte (l : bytes) (i : u8) : u8 := nth (Z.to_nat i) l 0.
Definition swap (s : bytes) (i j : u8) : bytes :=
  <[Z.to_nat j := at_byte s i]> (<[Z.to_nat i := at_byte s j]> s).
Fixpoint key_schedule (n : nat) (i : Z) (j : u8) (key s : bytes) : bytes :=
  match n with
  | O => s
  | S n =>
    let j := wrap8 (j + at_byte s i + at_byte key (i mod len key)) in
    key_schedule n (i + 1) j key (swap s i j)
  end.
(** [None]: the key has no byte, or more than 256. *)
Definition NewCipher (key : bytes) : option cipher :=
  if (len key <? 1) || (256 <? len key) then None
  else Some {| rc_s := key_schedule 256 0 0 key (Z.of_nat <$> seq 0 256); rc_i := 0; rc_j := 0 |}.
Definition next_key (c : cipher) : u8 * cipher :=
  let i := wrap8 (rc_i c + 1) in
  let j := wrap8 (rc_j c + at_byte (rc_s c) i) in
  let s := swap (rc_s c) i j in
  (wrap8 (at_byte s (wrap8 (at_byte s i + at_byte s j))), {| rc_s := s; rc_i := i; rc_j := j |}).
Fixpoint XORKeyStream (c : cipher) (src : bytes) : bytes * cipher :=
  match src with
  | [] => ([], c)
  | v :: src =>
    let '(k, c) := next_key c in
    let '(dst, c) := XORKeyStream c src in
    (Z.lxor v k :: dst, c)
  end.

(** ** crypto/hmac with SHA-1: blocks of 64 bytes *)
Definition hmac_key (k : bytes) : bytes :=
  let k := if 64 <? len k then sha1_Sum k else k in k ++ replicate (64 - length k) 0.
Definition hmacSha1Hash (k m : bytes) : bytes :=
  sha1_Sum (map (Z.lxor 0x5C) (hmac_key k) ++ sha1_Sum (map (Z.lxor 0x36) (hmac_key k) ++ m)).

(** ** Arc *)
Record Arc := { arc_server : cipher; arc_client : cipher }.
Definition serverEncryptionKey : bytes :=
  [0xCC; 0x98; 0xAE; 0x04; 0xE8; 0x97; 0xEA; 0xCA; 0x12; 0xDD; 0xC0; 0x93; 0x42; 0x91; 0x53; 0x57].
Definition clientEncryptionKey : bytes :=
  [0xC2; 0xB3; 0x72; 0x3C; 0xC6; 0xAE; 0xD9; 0xB5; 0x34; 0x3C; 0x53; 0xEE; 0x2F; 0x43; 0x67; 0xCE].
Definition drop1024 (c : cipher) : cipher := (XORKeyStream c (replicate 1024 0)).2.
Definition NewArc (sessionKey : bytes) : option Arc :=
  server ← NewCipher (hmacSha1Hash serverEncryptionKey sessionKey);
  client ← NewCipher (hmacSha1Hash clientEncryptionKey sessionKey);
  Some {| arc_server := drop1024 server; arc_client := drop1024 client |}.
Definition Encrypt (a : Arc) (d : bytes) : bytes * Arc :=
  let '(d, c) := XORKeyStream (arc_server a) d in (d, {| arc_server := c; arc_client := arc_client a |}).
Definition Decrypt (a : Arc) (d : bytes) : bytes * Arc :=
  let '(d, c) := XORKeyStream (arc_client a) d in (d, {| arc_server := arc_server a; arc_client := c |}).

(** ** Lemmas *)
Lemma next_key_range c : in_range 8 (next_key c).1.
Proof. apply wrap_range. lia. Qed.
Lemma xor_length c d : length (XORKeyStream c d).1 = length d.
Proof.
  revert c. induction d as [|v d IH]; intros c; cbn [XORKeyStream]; [done|]. destruct (next_key c) as [k c'].
  specialize (IH c'). destruct (XORKeyStream c' d) as [out c'']. cbn in *. lia.
Qed.
(** The same key stream twice. *)
Lemma xor_involutive c d : XORKeyStream c (XORKeyStream c d).1 = (d, (XORKeyStream c d).2).
Proof.
  revert c. induction d as [|v d IH]; intros c; cbn [XORKeyStream]; [done|]. destruct (next_key c) as [k c'] eqn:E.
  specialize (IH c'). destruct (XORKeyStream c' d) as [out c'']. cbn [fst snd XORKeyStream] in *. rewrite E, IH.
  by rewrite Z.lxor_assoc, Z.lxor_nilpotent, Z.lxor_0_r.
Qed.
Lemma lxor_range n a b : 0 <= n -> in_range n a -> in_range n b -> in_range n (Z.lxor a b).
Proof.
  intros Hn Ha Hb. split; [apply Z.lxor_nonneg; destruct Ha, Hb; lia|].
  destruct (decide (Z.lxor a b = 0)) as [->|Hne]; [apply Z.pow_pos_nonneg; lia|].
  assert (0 <= Z.lxor a b) by (apply Z.lxor_nonneg; destruct Ha, Hb; lia).
  apply Z.log2_lt_pow2; [lia|]. destruct (Z.lt_ge_cases (Z.log2 (Z.lxor a b)) n) as [|Hge]; [done|].
  assert (Hb1 : Z.testbit (Z.lxor a b) (Z.log2 (Z.lxor a b)) = true) by (apply Z.bit_log2; lia).
  by rewrite Z.lxor_spec, (testbit_above n a), (testbit_above n b) in Hb1.
Qed.
Lemma xor_bytes c d : is_bytes d -> is_bytes (XORKeyStream c d).1.
Proof.
  intros Hd. revert c. induction Hd as [|v d Hv Hd IH]; intros c; cbn [XORKeyStream]; [constructor|].
  pose proof (next_key_range c) as Hk. destruct (next_key c) as [k c']. specialize (IH c').
  destruct (XORKeyStream c' d) as [out c'']. constructor; [by apply lxor_range|done].
Qed.
(** Both ends of a connection make the same streams: an [Arc] always exists. *)
Lemma NewArc_total key : is_Some (NewArc key).
Proof.
  assert (Hc : forall k, is_Some (NewCipher (hmacSha1Hash k key))).
  { intros k. unfold NewCipher, len, hmacSha1Hash. rewrite sha1_length. by eexists. }
  unfold NewArc. destruct (Hc serverEncryptionKey) as [a ->], (Hc clientEncryptionKey) as [b ->]. by eexists.
Qed.

(** Vectors of the standard library's tests. *)
Example rc4_key : option_map (fun c => (XORKeyStream c (replicate 8 0)).1) (NewCipher [0x01; 0x23; 0x45; 0x67; 0x89; 0xab; 0xcd; 0xef]) =
  Some [0x74; 0x94; 0xc2; 0xe7; 0x10; 0x4b; 0x08; 0x79].
Proof. vm_compute. reflexivity. Qed.
(** RFC 2202: the key of 20 bytes 0x0b and the text Hi There. *)
Example hmac_rfc2202 : hmacSha1Hash (replicate 20 0x0b) [0x48; 0x69; 0x20; 0x54; 0x68; 0x65; 0x72; 0x65] =
  [0xb6; 0x17; 0x31; 0x86; 0x55; 0x05; 0x72; 0x64; 0xe2; 0x8b; 0xc0; 0xb6; 0xfb; 0x37; 0x8c; 0x8e; 0xf1; 0x46; 0xbe; 0x00].
Proof. vm_compute. reflexivity. Qed.
