(* ===== verification/Srp6.v ===== *)
(** * Srp6: the password proof of the login
    (apps/authserver/crypto/srp6/srp6.go)

    [None] is a panic; a nil session key is [Some None].  Random bytes are
    arguments. *)
From S2P Require Import Prelude Bytes Crypto.
From Stdlib Require Import Zpow_facts.

(** ** Numbers as bytes *)

(** The bytes are swapped pairwise from both ends. *)
Fixpoint switch_loop (n i : nat) (b r : bytes) : bytes :=
  match n with
  | O => r
  | S n => switch_loop n (S i) b (<[(length b - i - 1)%nat := nth i b 0]> (<[i := nth (length b - i - 1) b 0]> r))
  end.
Definition switchEndian (b : bytes) : bytes := switch_loop (Nat.div (length b) 2) 0 b b.
Definition bigIntToBytesLittleEndian (i : Z) : bytes := switchEndian (big_Bytes i).
Definition bigIntFromLittleEndian (b : bytes) : Z := big_SetBytes (switchEndian b).

Definition _N : Z := big_SetBytes
  [137; 75; 100; 94; 137; 225; 83; 91; 189; 173; 91; 139; 41; 6; 80; 83;
   8; 1; 177; 142; 191; 191; 94; 143; 171; 60; 130; 135; 42; 62; 155; 183].
Definition _g : Z := 7.

(** ** The server's side *)
Definition GetSessionVerifier (A clientM K : bytes) : bytes := sha1_Sum (AppendBytes [A; clientM; K]).

Record SRP6 := { _I : bytes; _b : Z; _v : Z; _s : bytes; srp_B : bytes }.
Definition DataForClient (s : SRP6) : bytes * bytes * bytes * bytes :=
  (srp_B s, bigIntToBytesLittleEndian _g, bigIntToBytesLittleEndian _N, _s s).

Definition _B (b v : Z) : bytes :=
  let v3 := v * 3 in
  let gbnExp := big_Exp _g b _N in
  bigIntToBytesLittleEndian ((gbnExp + v3) mod _N).
Definition NewSRP (random : bytes) (username salt verifier : bytes) : SRP6 :=
  let v := bigIntFromLittleEndian verifier in
  let b := bigIntFromLittleEndian random in
  {| _I := sha1_Sum username; _v := v; _b := b; _s := salt; srp_B := _B b v |}.

Fixpoint first_nonzero (buf : bytes) : nat :=
  match buf with
  | 0 :: buf => S (first_nonzero buf)
  | _ => 0%nat
  end.
Definition slice_from (b : bytes) (p : nat) : option bytes := if (p <=? length b)%nat then Some (drop p b) else None.
Fixpoint stick_together (hash0 hash1 : bytes) : bytes :=
  match hash0, hash1 with
  | x :: hash0, y :: hash1 => x :: y :: stick_together hash0 hash1
  | _, _ => []
  end.
Definition sha1Interleave (S : bytes) : option bytes :=
  let buf0 := (fun i => nth (2 * i) S 0) <$> seq 0 (Nat.div (length S) 2) in
  let buf1 := (fun i => nth (2 * i + 1) S 0) <$> seq 0 (Nat.div (length S) 2) in
  let p := first_nonzero S in
  let p := if Nat.odd p then (p + 1)%nat else p in
  let p := Nat.div p 2 in
  from0 ← slice_from buf0 p;
  from1 ← slice_from buf1 p;
  Some (stick_together (sha1_Sum from0) (sha1_Sum from1)).

Definition VerifyChallengeResponse (s : SRP6) (A clientM : bytes) : option (option bytes) :=
  let _A := bigIntFromLittleEndian A in
  if wrap64 (_A mod _N) =? 0 then Some None
  else
    let ABHash := sha1_Sum (A ++ srp_B s) in
    let u := bigIntFromLittleEndian ABHash in
    let SBig := big_Exp (_A * big_Exp (_v s) u _N) (_b s) _N in
    let S := bigIntToBytesLittleEndian SBig in
    K ← sha1Interleave S;
    let NHash := sha1_Sum (bigIntToBytesLittleEndian _N) in
    let gHash := sha1_Sum (bigIntToBytesLittleEndian _g) in
    let NgHash := zip_with Z.lxor NHash gHash in
    let ourM := sha1_Sum (AppendBytes [NgHash; _I s; _s s; A; srp_B s; K]) in
    Some (if SameBytes ourM clientM then Some K else None).

Definition ReconnectChallengeValid (username R1 R2 reconnectProof K : bytes) : bool :=
  SameBytes R2 (sha1_Sum (AppendBytes [username; R1; reconnectProof; K])).

(** ** Endianness *)
Lemma switch_loop_lookup n : forall i b r, (2 * (i + n) <= length b)%nat -> length r = length b ->
  (forall j, r !! j = if decide (j < i \/ length b - i <= j < length b)%nat then b !! (length b - 1 - j)%nat else b !! j) ->
  forall j, switch_loop n i b r !! j =
    if decide (j < i + n \/ length b - (i + n) <= j < length b)%nat then b !! (length b - 1 - j)%nat else b !! j.
Proof.
  induction n as [|n IH]; intros i b r Hn Hlen Hr j; cbn [switch_loop]; [by rewrite Nat.add_0_r|].
  rewrite (IH (S i)); [|lia|by rewrite !length_insert|].
  { replace (S i + n)%nat with (i + S n)%nat by lia. done. }
  clear j. intros j.
  assert (Hnth : forall k, (k < length b)%nat -> b !! k = Some (nth k b 0)).
  { intros k Hk. destruct (lookup_lt_is_Some_2 b k Hk) as [x Hx]. rewrite Hx. f_equal. symmetry. rewrite nth_lookup, Hx. done. }
  destruct (decide (j = length b - i - 1)%nat) as [->|Hj1].
  - rewrite list_lookup_insert_eq by (rewrite length_insert; lia). rewrite decide_True by lia.
    replace (length b - 1 - (length b - i - 1))%nat with i by lia. rewrite Hnth by lia. done.
  - rewrite list_lookup_insert_ne by done. destruct (decide (j = i)) as [->|Hj2].
    + rewrite list_lookup_insert_eq by lia. rewrite decide_True by lia.
      replace (length b - 1 - i)%nat with (length b - i - 1)%nat by lia. rewrite Hnth by lia. done.
    + rewrite list_lookup_insert_ne by done. rewrite Hr.
      destruct (decide (j < i \/ length b - i <= j < length b)%nat); destruct (decide (j < S i \/ length b - S i <= j < length b)%nat);
        first [done|lia].
Qed.
Lemma switchEndian_reverse b : switchEndian b = reverse b.
Proof.
  apply list_eq. intros j. unfold switchEndian.
  assert (Hdiv : (2 * Nat.div (length b) 2 <= length b < 2 * Nat.div (length b) 2 + 2)%nat).
  { pose proof (Nat.div_mod (length b) 2 ltac:(lia)). pose proof (Nat.mod_upper_bound (length b) 2 ltac:(lia)). lia. }
  rewrite switch_loop_lookup; [|lia|done|].
  2:{ intros k. rewrite decide_False by lia. done. }
  destruct (decide (j < length b)%nat) as [Hj|Hj].
  - rewrite reverse_lookup by done. replace (length b - S j)%nat with (length b - 1 - j)%nat by lia. case_decide; [done|]. f_equal. lia.
  - rewrite decide_False by lia. rewrite !lookup_ge_None_2; [done|rewrite length_reverse; lia|lia].
Qed.
Lemma toLE_eq i : bigIntToBytesLittleEndian i = le_encode (byte_len i) i.
Proof. unfold bigIntToBytesLittleEndian, big_Bytes. by rewrite switchEndian_reverse, reverse_involutive. Qed.
Lemma fromLE_eq b : bigIntFromLittleEndian b = le_decode b.
Proof. unfold bigIntFromLittleEndian, big_SetBytes. by rewrite switchEndian_reverse, reverse_involutive. Qed.

(** ** The session key *)
Lemma first_nonzero_bound b : last b <> Some 0 -> b <> [] -> (first_nonzero b < length b)%nat.
Proof.
  induction b as [|x b IH]; intros Hl Hne; [done|]. destruct x; cbn [first_nonzero length]; try lia.
  destruct b as [|y b]; [done|]. specialize (IH Hl ltac:(done)). lia.
Qed.
Lemma slice_from_ok b p : (p <= length b)%nat -> slice_from b p = Some (drop p b).
Proof. intros Hp. unfold slice_from. by rewrite (proj2 (Nat.leb_le _ _)). Qed.
Lemma stick_together_length a b : length a = length b -> length (stick_together a b) = (2 * length a)%nat.
Proof. revert b. induction a as [|x a IH]; intros [|y b] Hlen; simpl in *; try done. rewrite IH by lia. lia. Qed.

(** The halves that are hashed: even and odd bytes, from the first nonzero
    byte, rounded up, on. *)
Definition half (k : nat) (b : bytes) : bytes := (fun i => nth (2 * i + k) b 0) <$> seq 0 (Nat.div (length b) 2).
Definition skipped (b : bytes) : nat := Nat.div (S (first_nonzero b)) 2.
Definition session_key (b : bytes) : bytes :=
  stick_together (sha1_Sum (drop (skipped b) (half 0 b))) (sha1_Sum (drop (skipped b) (half 1 b))).
Lemma skipped_eq b : Nat.div (if Nat.odd (first_nonzero b) then (first_nonzero b + 1)%nat else first_nonzero b) 2 = skipped b.
Proof.
  unfold skipped. set (p := first_nonzero b). destruct (Nat.odd p) eqn:E.
  - by rewrite Nat.add_1_r.
  - assert (Nat.even p = true) as Hev by (by rewrite <- Nat.negb_odd, E). apply Nat.even_spec in Hev as [q ->].
    rewrite Nat.mul_comm, Nat.div_mul by lia. replace (S (q * 2)) with (1 + q * 2)%nat by lia. by rewrite Nat.div_add.
Qed.
Lemma interleave_run b : last b <> Some 0 -> sha1Interleave b = Some (session_key b).
Proof.
  intros Hl. unfold sha1Interleave. cbv zeta. rewrite skipped_eq.
  assert (Hb : (skipped b <= Nat.div (length b) 2)%nat).
  { unfold skipped. destruct (decide (b = [])) as [->|Hne]; [done|]. pose proof (first_nonzero_bound b Hl Hne).
    apply Nat.Div0.div_le_mono. lia. }
  rewrite !slice_from_ok, !some_bind by (by rewrite length_fmap, length_seq).
  unfold session_key, half. do 4 f_equal. apply list_fmap_ext. intros i x _. by rewrite Nat.add_0_r.
Qed.
Lemma session_key_length b : length (session_key b) = 40%nat.
Proof. unfold session_key. rewrite stick_together_length, sha1_length; [done|by rewrite !sha1_length]. Qed.

Lemma last_le_encode n x : last (le_encode (S n) x) = Some ((x / 2 ^ (8 * Z.of_nat n)) mod 256).
Proof.
  revert x. induction n as [|n IH]; intros x; [by rewrite Z.div_1_r|].
  change (le_encode (S (S n)) x) with (x mod 256 :: le_encode (S n) (x / 256)).
  rewrite last_cons, IH, Z.div_div by (try lia; apply Z.pow_pos_nonneg; lia). by rewrite <- pow256_S.
Qed.
(** Numbers have no zero byte at the top. *)
Lemma toLE_last x : 0 <= x -> last (bigIntToBytesLittleEndian x) <> Some 0.
Proof.
  intros Hx. rewrite toLE_eq. unfold byte_len. destruct (Z.eqb_spec x 0) as [->|Hne]; [done|].
  rewrite last_le_encode. set (n := Z.to_nat (Z.log2 x / 8)).
  assert (Hn : Z.of_nat n = Z.log2 x / 8) by (apply Z2Nat.id, Z.div_pos; [apply Z.log2_nonneg|lia]).
  pose proof (Z.log2_spec x ltac:(lia)) as [Hlo Hhi]. pose proof (Z.div_mod (Z.log2 x) 8 ltac:(lia)).
  pose proof (Z.mod_pos_bound (Z.log2 x) 8 ltac:(lia)).
  assert (H1 : 2 ^ (8 * Z.of_nat n) <= x) by (etrans; [apply Z.pow_le_mono_r; [lia|]|exact Hlo]; lia).
  assert (H2 : x < 256 * 2 ^ (8 * Z.of_nat n)).
  { rewrite <- pow256_S. eapply Z.lt_le_trans; [exact Hhi|]. apply Z.pow_le_mono_r; lia. }
  assert (Hp : 0 < 2 ^ (8 * Z.of_nat n)) by (apply Z.pow_pos_nonneg; lia).
  assert (1 <= x / 2 ^ (8 * Z.of_nat n)) by (apply Z.div_le_lower_bound; lia).
  assert (x / 2 ^ (8 * Z.of_nat n) < 256) by (apply Z.div_lt_upper_bound; lia).
  rewrite Z.mod_small by lia. intros [= E]. lia.
Qed.

(** A secret of 31 bytes loses its top byte: the halves have 15 bytes each. *)
Lemma first_nonzero_app b t : (first_nonzero b < length b)%nat -> first_nonzero (b ++ t) = first_nonzero b.
Proof.
  induction b as [|x b IH]; intros Hb; [simpl in Hb; lia|]. destruct x; cbn [first_nonzero app length] in *; try done.
  rewrite IH; [done|lia].
Qed.
Lemma half_app k n b t : length b = (2 * n)%nat -> (k < 2)%nat -> (length t < 2)%nat -> half k (b ++ t) = half k b.
Proof.
  intros Hb Hk Ht. unfold half. rewrite length_app, Hb.
  replace (Nat.div (2 * n + length t) 2) with n.
  2:{ rewrite Nat.mul_comm, Nat.div_add_l, (Nat.div_small (length t)) by lia. lia. }
  rewrite Nat.mul_comm, Nat.div_mul by lia. apply map_ext_in. intros i Hi%in_seq. apply app_nth1. lia.
Qed.
Lemma session_key_ignores_top n b x : length b = (2 * n)%nat -> (first_nonzero b < length b)%nat ->
  session_key (b ++ [x]) = session_key b.
Proof.
  intros Hb Hz. unfold session_key, skipped. rewrite first_nonzero_app by done.
  by rewrite !(half_app _ n) by (done || simpl; lia).
Qed.

(** ** Both sides of the exchange *)

(** The parameters as mathematics has them. *)
Definition server_secret (A b v u : Z) : Z := ((A * v ^ u) ^ b) mod _N.
Definition expected_M (s : SRP6) (A K : bytes) : bytes :=
  sha1_Sum (zip_with Z.lxor (sha1_Sum (bigIntToBytesLittleEndian _N)) (sha1_Sum (bigIntToBytesLittleEndian _g)) ++
    _I s ++ _s s ++ A ++ srp_B s ++ K).
Definition scrambler (A B : bytes) : Z := le_decode (sha1_Sum (A ++ B)).
Definition server_key (s : SRP6) (A : bytes) : bytes :=
  session_key (bigIntToBytesLittleEndian (server_secret (le_decode A) (_b s) (_v s) (scrambler A (srp_B s)))).
(** The random exponent of a session is not negative. *)
Definition srp_wf (s : SRP6) : Prop := 0 <= _b s.

Lemma N_pos : 0 < _N.
Proof. reflexivity. Qed.
Lemma pow_mod_l a n m : 0 < m -> ((a mod m) ^ n) mod m = (a ^ n) mod m.
Proof. intros Hm. symmetry. by apply Zpower_mod. Qed.
Lemma secret_run A b v u : 0 <= u -> 0 <= b -> big_Exp (A * big_Exp v u _N) b _N = server_secret A b v u.
Proof.
  intros Hu Hb. rewrite !big_Exp_spec by done. unfold server_secret.
  rewrite <- pow_mod_l, Z.mul_mod_idemp_r, pow_mod_l by (pose proof N_pos; lia). done.
Qed.
Lemma scrambler_nonneg A B : 0 <= scrambler A B.
Proof. unfold scrambler. apply (le_decode_range _ (sha1_bytes _)). Qed.
Lemma verify_run s A M : srp_wf s ->
  VerifyChallengeResponse s A M =
    Some (if wrap64 (le_decode A mod _N) =? 0 then None
          else if decide (M = expected_M s A (server_key s A)) then Some (server_key s A) else None).
Proof.
  intros Hs. unfold VerifyChallengeResponse. rewrite !fromLE_eq. destruct (_ =? 0); [done|].
  rewrite secret_run by (done || apply scrambler_nonneg).
  rewrite interleave_run, some_bind by (apply toLE_last; unfold server_secret; apply Z.mod_pos_bound, N_pos).
  fold (scrambler A (srp_B s)) (server_key s A). rewrite AppendBytes_concat. cbn [concat]. rewrite app_nil_r.
  fold (expected_M s A (server_key s A)). f_equal. destruct (SameBytes _ M) eqn:E.
  - apply SameBytes_spec in E. by rewrite decide_True.
  - rewrite decide_False; [done|]. intros ->. by rewrite (proj2 (SameBytes_spec _ _) eq_refl) in E.
Qed.

(** The client of the protocol, who knows the private key [x] behind the
    verifier and picks [a]. *)
Definition client_A (a : Z) : bytes := le_encode 32 (_g ^ a mod _N).
Definition client_verifier (x : Z) : bytes := le_encode 32 (_g ^ x mod _N).
Definition client_secret (B a x u : Z) : Z := ((B - 3 * (_g ^ x mod _N)) ^ (a + u * x)) mod _N.
Definition client_key (a x : Z) (B : bytes) : bytes :=
  session_key (bigIntToBytesLittleEndian (client_secret (le_decode B) a x (scrambler (client_A a) B))).
Definition client_M (username : bytes) (a x : Z) (B g N s : bytes) : bytes :=
  sha1_Sum (zip_with Z.lxor (sha1_Sum N) (sha1_Sum g) ++ sha1_Sum username ++ s ++ client_A a ++ B ++ client_key a x B).

Lemma N_32 : _N < 2 ^ (8 * Z.of_nat 32).
Proof. reflexivity. Qed.
Lemma decode_32 y : le_decode (le_encode 32 (y mod _N)) = y mod _N.
Proof.
  apply le_decode_encode. unfold in_range. pose proof (Z.mod_pos_bound y _N N_pos). pose proof N_32. lia.
Qed.
Lemma decode_toLE y : 0 <= y -> le_decode (bigIntToBytesLittleEndian y) = y.
Proof. intros Hy. rewrite toLE_eq. apply le_decode_encode. by apply byte_len_range. Qed.
(** The two ways to the secret, over any modulus. *)
Lemma secrets_agree g n a b x u : 0 < n -> 0 <= a -> 0 <= b -> 0 <= x -> 0 <= u ->
  ((((g ^ b mod n + (g ^ x mod n) * 3) mod n) - 3 * (g ^ x mod n)) ^ (a + u * x)) mod n =
  (((g ^ a mod n) * (g ^ x mod n) ^ u) ^ b) mod n.
Proof.
  intros Hn Ha Hb Hx Hu. set (v := g ^ x mod n). trans ((g ^ (b * (a + u * x))) mod n).
  - rewrite <- (pow_mod_l (_ - _)) by done. rewrite Zminus_mod_idemp_l.
    replace (g ^ b mod n + v * 3 - 3 * v) with (g ^ b mod n) by ring. rewrite Z.mod_mod by lia.
    rewrite pow_mod_l by done. rewrite <- Z.pow_mul_r by nia. done.
  - rewrite <- (pow_mod_l (_ * _)) by done. unfold v.
    assert (Hin : (g ^ a mod n * (g ^ x mod n) ^ u) mod n = g ^ (a + u * x) mod n).
    { rewrite Z.mul_mod_idemp_l, <- Z.mul_mod_idemp_r, pow_mod_l, Z.mul_mod_idemp_r by lia.
      rewrite <- Z.pow_mul_r, <- Z.pow_add_r by nia. do 2 f_equal. ring. }
    rewrite Hin, pow_mod_l, <- Z.pow_mul_r by nia. do 2 f_equal. ring.
Qed.
Lemma B_eq b v : 0 <= b -> le_decode (_B b v) = (_g ^ b mod _N + v * 3) mod _N.
Proof.
  intros Hb. unfold _B. rewrite big_Exp_spec by done. apply decode_toLE. apply Z.mod_pos_bound, N_pos.
Qed.
Lemma NewSRP_wf random username salt verifier : is_bytes random -> srp_wf (NewSRP random username salt verifier).
Proof. intros Hr. unfold srp_wf, NewSRP; cbn [_b]. rewrite fromLE_eq. by apply (le_decode_range _ Hr). Qed.
Lemma keys_agree random username salt x a : is_bytes random -> 0 <= x -> 0 <= a ->
  let s := NewSRP random username salt (client_verifier x) in
  server_key s (client_A a) = client_key a x (srp_B s).
Proof.
  intros Hr Hx Ha s. unfold server_key, client_key. do 2 f_equal. unfold server_secret, client_secret.
  pose proof (NewSRP_wf random username salt (client_verifier x) Hr) as Hb. fold s in Hb. unfold srp_wf in Hb.
  assert (Hv : _v s = _g ^ x mod _N) by (unfold s, NewSRP; cbn [_v]; rewrite fromLE_eq; apply decode_32).
  assert (HB : srp_B s = _B (_b s) (_v s)) by done. rewrite HB at 2. rewrite B_eq by done. rewrite Hv. unfold client_A. rewrite decode_32.
  symmetry. apply secrets_agree; [exact N_pos|done..|apply scrambler_nonneg].
Qed.

Lemma agreement_run random username salt x a
  (Hr : is_bytes random) (Hx : 0 <= x) (Ha : 0 <= a) (HA : wrap64 (_g ^ a mod _N) <> 0) :
  let s := NewSRP random username salt (client_verifier x) in
  let '(B, g, N, s') := DataForClient s in
  VerifyChallengeResponse s (client_A a) (client_M username a x B g N s') = Some (Some (client_key a x B)).
Proof.
  intros s. unfold DataForClient. rewrite (verify_run s) by (by apply NewSRP_wf).
  unfold client_A at 1. rewrite decode_32, Z.mod_mod by (pose proof N_pos; lia). rewrite (proj2 (Z.eqb_neq _ _) HA).
  unfold s. rewrite keys_agree by done. by rewrite decide_True.
Qed.

(** The check of a proof never panics and accepts exactly the hash of the
    session key, where the key is the one of the exponentials modulo N; the
    square-and-multiply and the byte-swapping loops of the code compute them. *)
Theorem verify_exact s A M (Hs : srp_wf s) :
  VerifyChallengeResponse s A M =
    Some (if wrap64 (le_decode A mod _N) =? 0 then None
          else if decide (M = expected_M s A (server_key s A)) then Some (server_key s A) else None) /\
  length (server_key s A) = 40%nat.
Proof. split; [by apply verify_run|apply session_key_length]. Qed.
Lemma verify_exact_witness : let s := NewSRP [3] [65] [1; 2] [7] in
  VerifyChallengeResponse s [2] [] =
    Some (if wrap64 (le_decode [2] mod _N) =? 0 then None
          else if decide ([] = expected_M s [2] (server_key s [2])) then Some (server_key s [2]) else None) /\
  length (server_key s [2]) = 40%nat.
Proof. apply verify_exact. apply NewSRP_wf. constructor; [done|constructor]. Defined.

(** The exchange of the repository's test of a reconnect. *)
Example reconnect_test_vector : ReconnectChallengeValid [65; 68; 77; 73; 78]
  [233; 248; 19; 122; 141; 205; 37; 95; 0; 231; 254; 63; 7; 128; 206; 157]
  [132; 61; 17; 12; 194; 243; 44; 205; 171; 199; 208; 14; 129; 208; 167; 234; 153; 155; 19; 112]
  [245; 75; 232; 199; 75; 73; 133; 142; 157; 29; 19; 101; 22; 210; 137; 91]
  [39; 91; 5; 20; 186; 53; 80; 110; 73; 20; 199; 246; 34; 235; 14; 23; 138; 84; 52; 215; 61; 120; 119; 1; 124; 0;
   76; 23; 54; 217; 213; 136; 241; 140; 124; 12; 172; 101; 227; 124] = true.
Proof. vm_compute. reflexivity. Qed.
