(* ===== verification/AuthRepo.v ===== *)
(** * AuthRepo: accounts and realms of the login database, and the realm list
    (apps/authserver/repo, apps/authserver/service/realm.go)

    The MySQL tables are lists of rows.  How the column of user names compares
    is up to the database's collation, a parameter. *)
From S2P Require Import Prelude GoRuntime GoStrings Bytes GameServerRepo GatewayRepo BinPack Registry GameServers Gateways.

Record Account := {
  ID : u32;
  Username : bytes;
  Salt : bytes;
  Verifier : bytes;
  SessionKeyAuth : bytes;
  Locked : bool;
  LastIP : bytes
}.
Record Realm := {
  r_ID : u32;
  r_Name : string;
  r_Icon : u8;
  r_Flag : u8;
  r_Timezone : u8;
  r_AllowedSecurityLevel : u8;
  r_GameBuild : u32
}.
Record CharsCountInRealm := { cc_RealmID : u32; cc_CharCount : u8 }.

(** The tables account, realmlist and realmcharacters (with the account's
    number first). *)
Record authdb := { accounts : list Account; realmlist : list Realm; realmcharacters : list (u32 * CharsCountInRealm) }.
Definition with_accounts (l : list Account) (d : authdb) : authdb :=
  {| accounts := l; realmlist := realmlist d; realmcharacters := realmcharacters d |}.

Inductive auth_err :=
| ErrDB | ErrRegistry | ErrConn | ErrRead | ErrRandom | ErrDeadline | ErrUnknownCommand | ErrInvalidStatus
| ErrBadReconnect | ErrOutOfFuel.

Section Repo.
Context {E : Type} (same_username : bytes -> bytes -> bool).
Abbreviation M A := (go authdb E auth_err A).

Definition AccountByUserName (username : bytes) : M (option Account) :=
  ext ErrDB ;;
  d ← gets id;
  mret (head (filter (fun a => same_username (Username a) username = true) (accounts d))).
Definition update_row (a row : Account) : Account := if ID row =? ID a then a else row.
Definition UpdateAccount (a : Account) : M unit :=
  ext ErrDB ;;
  modify (fun d => with_accounts (update_row a <$> accounts d) d).
Definition LoadRealms : M (list Realm) := ext ErrDB ;; gets realmlist.
Definition CountCharsPerRealmByAccountID (accountID : u32) : M (list CharsCountInRealm) :=
  ext ErrDB ;;
  d ← gets id;
  mret (snd <$> filter (fun r => r.1 = accountID) (realmcharacters d)).
End Repo.

(** ** The realm list *)
Definition RealmFlagOffline : u8 := 0x2.
Record RealmListItem := {
  i_ID : u32;
  i_Name : string;
  i_Address : string;
  i_Icon : u8;
  i_Flag : u8;
  i_Timezone : u8;
  i_Locked : u8;
  i_CharsCount : u8;
  i_GameBuild : u32;
  i_PopulationLevel : u32
}.

Section Service.
Context {D G E : Type} `{SortSlice} `{RedisDocs GatewayServer G}.
(** The service sees the database and, through its client, the registry. *)
Record backends := { b_db : authdb; b_registry : sys (registry D G) sr_event }.
Definition with_db (d : authdb) (b : backends) : backends := {| b_db := d; b_registry := b_registry b |}.
Abbreviation M A := (go backends E auth_err A).

Definition in_db {A} (m : go authdb E auth_err A) : M A := zoom b_db with_db m.
(** A remote call can fail on the way; the registry's errors, and its end, are
    errors of the call. *)
Definition in_registry {A} (m : go (registry D G) sr_event registry_err A) : M A := fun s =>
  let '(o, reg) := m (b_registry (st s)) in
  (match o with Ok a => Ok a | _ => Fail ErrRegistry end,
   Sys {| b_db := b_db (st s); b_registry := reg |} (faults s) (events s)).
Definition remote {A} (m : go (registry D G) sr_event registry_err A) : M A := ext ErrRegistry ;; in_registry m.

Definition realm_address (gateways : list pb_Server) : gmap u32 string :=
  foldl (fun m lb => <[pb_RealmID lb := pb_Address lb]> m) ∅ gateways.
Definition realm_chars (chars : list CharsCountInRealm) : gmap u32 u8 :=
  foldl (fun m c => <[cc_RealmID c := cc_CharCount c]> m) ∅ chars.
Definition realm_item (addresses : gmap u32 string) (chars : gmap u32 u8) (realm : Realm) : RealmListItem :=
  let address := addresses !! r_ID realm in
  {| i_ID := r_ID realm; i_Name := r_Name realm; i_Address := default "" address; i_Icon := r_Icon realm;
     i_Flag := match address with
               | None => Z.lor (r_Flag realm) RealmFlagOffline
               | Some _ => Z.ldiff (r_Flag realm) RealmFlagOffline
               end;
     i_Timezone := r_Timezone realm; i_Locked := 0; i_CharsCount := default 0 (chars !! r_ID realm);
     i_GameBuild := r_GameBuild realm; i_PopulationLevel := 0 |}.

Definition RealmListForAccount (account : option Account) : M (list RealmListItem) :=
  realms ← in_db LoadRealms;
  gateways ← remote (GatewaysForRealms (r_ID <$> realms));
  account ← deref account;
  chars ← in_db (CountCharsPerRealmByAccountID (ID account));
  mret (realm_item (realm_address gateways) (realm_chars chars) <$> realms).
End Service.
Arguments backends : clear implicits.

(** ** The list as the client sees it *)
Lemma foldl_insert_lookup {A V} (k : A -> Z) (v : A -> V) l : forall (m : gmap Z V) r,
  match foldl (fun m a => <[k a := v a]> m) m l !! r with
  | Some x => (exists a, a ∈ l /\ k a = r /\ v a = x) \/ m !! r = Some x
  | None => m !! r = None /\ forall a, a ∈ l -> k a <> r
  end.
Proof.
  induction l as [|a l IH]; intros m r; cbn [foldl].
  - destruct (m !! r); [by right|]. split; [done|]. intros a Ha. by apply elem_of_nil in Ha.
  - specialize (IH (<[k a := v a]> m) r). destruct (foldl _ _ l !! r) as [x|].
    + destruct IH as [(b & Hb & Hk)|Hm]; [left; exists b; split; [by right|done]|].
      destruct (decide (k a = r)) as [Ha|Ha].
      * rewrite Ha, lookup_insert_eq in Hm. injection Hm as <-. left. exists a. split; [left|done].
      * rewrite lookup_insert_ne in Hm by done. by right.
    + destruct IH as [Hm Hl]. destruct (decide (k a = r)) as [Ha|Ha]; [by rewrite Ha, lookup_insert_eq in Hm|].
      rewrite lookup_insert_ne in Hm by done. split; [done|]. intros b [->|Hb]%elem_of_cons; [done|by apply Hl].
Qed.

Section Facts.
Context {D G E : Type} `{SortSlice} `{RedisDocs GatewayServer G}.
Implicit Types reg : sys (registry D G) sr_event.

(** A gateway of the realm that no other one undercuts. *)
Definition least_gateway reg (r : u32) (g : GatewayServer) : Prop :=
  gw_listed reg r g /\ forall h, gw_listed reg r h -> gw_ActiveConnections g <= gw_ActiveConnections h.

Lemma GatewaysForRealms_run ids : forall reg, faults reg = [] ->
  exists l reg', GatewaysForRealms ids reg = (Ok l, reg') /\ st reg' = st reg /\ faults reg' = [] /\
  (forall lb, lb ∈ l -> exists r g, least_gateway reg r g /\ pb_RealmID lb = gw_RealmID g /\ pb_Address lb = gw_Address g) /\
  (forall r, r ∈ ids -> (exists h, gw_listed reg r h) -> exists lb g, lb ∈ l /\ gw_listed reg r g /\ pb_RealmID lb = gw_RealmID g).
Proof.
  induction ids as [|r ids IH]; intros reg Hf.
  - exists [], reg. split_and!; [done..| |]; intros ? Hin; by apply elem_of_nil in Hin.
  - destruct (GatewayForRealm_run reg r Hf) as (o & reg1 & Hrun & Hst & _ & Hf1 & Ho).
    destruct (IH reg1 Hf1) as (l & reg2 & Hrun2 & Hst2 & Hf2 & Hin & Hout).
    unfold least_gateway, gw_listed in *. rewrite Hst in *.
    cbn [GatewaysForRealms]. eexists _, reg2. erewrite bind_run by exact Hrun. erewrite bind_run by exact Hrun2.
    split; [reflexivity|]. split; [done|]. split; [done|]. destruct o as [g|].
    + split.
      * intros lb [->|Hlb]%elem_of_cons; [by exists r, g|by apply Hin].
      * intros r' [->|Hr']%elem_of_cons Hh.
        { eexists _, g. split; [left|]. destruct Ho as [Hg _]. done. }
        destruct (Hout r' Hr' Hh) as (lb & g' & Hlb & Hg'). exists lb, g'. split; [by right|done].
    + split; [exact Hin|]. intros r' [->|Hr']%elem_of_cons Hh; [|by apply Hout]. destruct Hh as [h Hh]. by destruct (Ho h).
Qed.

(** An entry of the list, for a realm of the database. *)
Definition item_for reg (d : authdb) (a : Account) (r : Realm) (i : RealmListItem) : Prop :=
  i_ID i = r_ID r /\ i_Name i = r_Name r /\
  (forall n, n <> 1 -> Z.testbit (i_Flag i) n = Z.testbit (r_Flag r) n) /\
  (Z.testbit (i_Flag i) 1 = true <-> forall g, ~ gw_listed reg (r_ID r) g) /\
  (forall h, gw_listed reg (r_ID r) h -> exists g, least_gateway reg (r_ID r) g /\ i_Address i = gw_Address g) /\
  (i_CharsCount i = 0 \/ exists c, (ID a, c) ∈ realmcharacters d /\ cc_RealmID c = r_ID r /\ i_CharsCount i = cc_CharCount c).

Lemma item_correct reg d a gateways realm :
  (forall r g, gw_listed reg r g -> gw_RealmID g = r) ->
  (forall lb, lb ∈ gateways -> exists r g, least_gateway reg r g /\ pb_RealmID lb = gw_RealmID g /\ pb_Address lb = gw_Address g) ->
  ((exists h, gw_listed reg (r_ID realm) h) -> exists lb g, lb ∈ gateways /\ gw_listed reg (r_ID realm) g /\ pb_RealmID lb = gw_RealmID g) ->
  item_for reg d a realm
    (realm_item (realm_address gateways) (realm_chars (snd <$> filter (fun r => r.1 = ID a) (realmcharacters d))) realm).
Proof.
  intros Hreg Hin Hout. pose proof (foldl_insert_lookup pb_RealmID pb_Address gateways ∅ (r_ID realm)) as Ha.
  fold (realm_address gateways) in Ha.
  assert (Hon : is_Some (realm_address gateways !! r_ID realm) <-> exists h, gw_listed reg (r_ID realm) h).
  { split.
    - intros [x Hx]. rewrite Hx in Ha. destruct Ha as [(lb & Hlb & Hk & _)|?]; [|done].
      destruct (Hin lb Hlb) as (r & g & [Hg _] & Hrid & _). rewrite Hk, (Hreg r g Hg) in Hrid. subst r. by exists g.
    - intros Hh. destruct (realm_address gateways !! r_ID realm) as [x|]; [by eexists|]. destruct Ha as [_ Ha].
      destruct (Hout Hh) as (lb & g & Hlb & Hg & Hrid). rewrite (Hreg _ _ Hg) in Hrid. by destruct (Ha lb Hlb). }
  unfold item_for, realm_item; cbn [i_ID i_Name i_Flag i_Address i_CharsCount]. split_and!; [done..| | | |].
  - intros n Hn. assert (Hbit : Z.testbit RealmFlagOffline n = false).
    { change RealmFlagOffline with (2 ^ 1). apply Z.pow2_bits_false. lia. }
    destruct (realm_address gateways !! r_ID realm);
      [rewrite Z.ldiff_spec, Hbit; apply andb_true_r|rewrite Z.lor_spec, Hbit; apply orb_false_r].
  - destruct (realm_address gateways !! r_ID realm) as [x|] eqn:Ea.
    + rewrite Z.ldiff_spec. change (Z.testbit RealmFlagOffline 1) with true. rewrite andb_false_r.
      split; [done|]. intros Hno. destruct (proj1 Hon) as [h Hh]; [by eexists|]. by destruct (Hno h).
    + rewrite Z.lor_spec. change (Z.testbit RealmFlagOffline 1) with true. rewrite orb_true_r. split; [|done].
      intros _ g Hg. destruct (proj2 Hon) as [x Hx]; [by eexists|done].
  - intros h Hh. destruct (proj2 Hon) as [x Hx]; [by eexists|]. rewrite Hx in Ha |- *.
    destruct Ha as [(lb & Hlb & Hk & Hv)|?]; [|done]. destruct (Hin lb Hlb) as (r & g & Hl & Hrid & Haddr).
    destruct Hl as [Hg Hl]. rewrite Hk, (Hreg r g Hg) in Hrid. subst r. exists g. split; [by split|]. cbn. congruence.
  - match goal with |- context [realm_chars ?l] => pose proof (foldl_insert_lookup cc_RealmID cc_CharCount l ∅ (r_ID realm)) as Hc;
      fold (realm_chars l) in Hc; set (chars := realm_chars l) in * end.
    destruct (chars !! r_ID realm) as [x|]; [|by left]. destruct Hc as [(c & Hc & Hk & Hv)|?]; [|done].
    right. exists c. apply list_elem_of_fmap in Hc as ([aid c'] & -> & Hc). apply list_elem_of_filter in Hc as [Haid Hc].
    cbn in Haid. subst aid. done.
Qed.

(** The realm list has one entry for each realm of the database, in its
    order: marked offline exactly when the registry knows no gateway of the
    realm, otherwise with the address of a gateway of the realm that has the
    fewest connections, and with the player's number of characters there;
    nothing changes. *)
Theorem realm_list_exact (s : sys (backends D G) E) a
  (Hf : faults s = []) (Hfr : faults (b_registry (st s)) = [])
  (Hreg : forall r g, gw_listed (b_registry (st s)) r g -> gw_RealmID g = r) :
  exists items s', RealmListForAccount (Some a) s = (Ok items, s') /\
    b_db (st s') = b_db (st s) /\ st (b_registry (st s')) = st (b_registry (st s)) /\
    Forall2 (item_for (b_registry (st s)) (b_db (st s)) a) (realmlist (b_db (st s))) items.
Proof.
  destruct s as [[d reg] fs evs]. cbn in Hf, Hfr, Hreg. subst fs.
  destruct (GatewaysForRealms_run (r_ID <$> realmlist d) reg Hfr) as (l & reg' & Hrun & Hst & _ & Hin & Hout).
  assert (Hcall : in_registry (E:=E) (GatewaysForRealms (r_ID <$> realmlist d)) (Sys {| b_db := d; b_registry := reg |} [] evs) =
    (Ok l, Sys {| b_db := d; b_registry := reg' |} [] evs)) by (unfold in_registry; cbn [st b_registry]; by rewrite Hrun).
  eexists _, _. split.
  { unfold RealmListForAccount, remote. erewrite bind_run by reflexivity. erewrite bind_run.
    2:{ erewrite bind_run by reflexivity. exact Hcall. }
    erewrite bind_run by reflexivity. erewrite bind_run by reflexivity. reflexivity. }
  split; [done|]. split; [exact Hst|]. cbn [st b_db b_registry]. apply Forall2_fmap_r, Forall2_same_length_lookup_2; [done|].
  intros i x y Hx Hy. rewrite Hx in Hy. injection Hy as <-. apply item_correct; [exact Hreg|exact Hin|].
  apply Hout. apply list_elem_of_fmap. exists x. split; [done|]. by eapply list_elem_of_lookup_2.
Qed.
End Facts.

#[local] Existing Instance sort_slice_insertion.
Definition sample_realm (i : u32) (flag : u8) : Realm :=
  {| r_ID := i; r_Name := "realm"; r_Icon := 0; r_Flag := flag; r_Timezone := 1; r_AllowedSecurityLevel := 0; r_GameBuild := 12340 |}.
Definition sample_account : Account :=
  {| ID := 5; Username := [65]; Salt := [1]; Verifier := [7]; SessionKeyAuth := []; Locked := false; LastIP := [] |}.
Definition sample_authdb : authdb :=
  {| accounts := [sample_account]; realmlist := [sample_realm 1 2; sample_realm 2 0]; realmcharacters := [(5, {| cc_RealmID := 1; cc_CharCount := 3 |})] |}.
(** Realm 1 has two gateways, realm 2 none. *)
Definition sample_backends : sys (backends unit (docs_of GatewayServer)) unit :=
  Sys {| b_db := sample_authdb; b_registry := two_gateways |} [] [].
Lemma sample_registry_realms r g : gw_listed two_gateways r g -> gw_RealmID g = r.
Proof.
  intros (k & Hk & Hg). assert (r = 1) as ->.
  { unfold two_gateways, put_gateway in Hk. cbn [st gw_store] in Hk. rewrite !smembers_sadd in Hk.
    assert (Hinj : gw_realmIndexKey r = gw_realmIndexKey 1 -> r = 1).
    { unfold gw_realmIndexKey. intros Heq%append_inv_head%fmt_d_key_inj. by destruct Heq. }
    destruct Hk as [[Hr _]|Hk]; [by apply Hinj|]. apply Hinj.
    rewrite smembers_dset in Hk by (unfold gw_realmIndexKey, gw_key; done). rewrite smembers_sadd in Hk.
    destruct Hk as [[Hr _]|Hk]; [exact Hr|]. rewrite smembers_dset in Hk by (unfold gw_realmIndexKey, gw_key; done).
    unfold smembers in Hk; cbn in Hk. rewrite lookup_empty in Hk. cbn in Hk. by apply elem_of_nil in Hk. }
  unfold two_gateways, put_gateway in Hg. cbn in Hg.
  apply lookup_insert_Some in Hg as [[_ <-]|[_ Hg]]; [done|]. apply lookup_insert_Some in Hg as [[_ <-]|[_ Hg]]; [done|].
  by rewrite lookup_empty in Hg.
Qed.
Definition sample_item (i : u32) (address : string) (flag chars : u8) : RealmListItem :=
  {| i_ID := i; i_Name := "realm"; i_Address := address; i_Icon := 0; i_Flag := flag; i_Timezone := 1; i_Locked := 0;
     i_CharsCount := chars; i_GameBuild := 12340; i_PopulationLevel := 0 |}.
Definition sample_items : list RealmListItem := [sample_item 1 "gw2" 0 3; sample_item 2 "" 2 0].
Lemma realm_list_exact_witness :
  exists s', RealmListForAccount (Some sample_account) sample_backends = (Ok sample_items, s') /\
    Forall2 (item_for two_gateways sample_authdb sample_account) (realmlist sample_authdb) sample_items.
Proof.
  destruct (realm_list_exact sample_backends sample_account eq_refl eq_refl sample_registry_realms) as (items & s' & Hrun & _ & _ & Hall).
  destruct (RealmListForAccount (Some sample_account) sample_backends) as [o s1] eqn:Eo.
  run_value Eo o s1 sample_items. injection Hrun as <- <-. exists s1. split; [reflexivity|exact Hall].
Defined.
