(* ===== verification/AuthSession.v ===== *)
(** * AuthSession: the socket protocol of the login
    (apps/authserver/session/authsession.go)

    What the client sends arrives in segments, each of which one Read returns
    at most; what the server writes are the events, one for each value.  The
    random source is a tape of bytes, which fails when it is used up.  An
    error that ends the session is a failure of the loop. *)
From S2P Require Import Prelude GoRuntime GoStrings Bytes GameServerRepo GatewayRepo BinPack Registry GameServers Gateways AuthRepo Crypto Srp6.

Inductive Status := StatusChallenge | StatusLogonProof | StatusReconnectProof | StatusAuthed | StatusClosed.
#[export] Instance Status_eq_dec : EqDecision Status.
Proof. solve_decision. Defined.

Definition AuthResultSuccess : u8 := 0.
Definition AuthResultUnkAccount : u8 := 4.
Definition CommandLogonChallenge : u8 := 0.
Definition CommandLogonProof : u8 := 1.
Definition CommandReconnectChallenge : u8 := 2.
Definition CommandReconnectProof : u8 := 3.
Definition CommandRealmList : u8 := 0x10.
Definition Commands (opcode : u8) : option Status :=
  if opcode =? CommandLogonChallenge then Some StatusChallenge
  else if opcode =? CommandLogonProof then Some StatusLogonProof
  else if opcode =? CommandReconnectChallenge then Some StatusChallenge
  else if opcode =? CommandReconnectProof then Some StatusReconnectProof
  else if opcode =? CommandRealmList then Some StatusAuthed
  else None.

(** ** The connection *)

(** One Read of a buffer of [n] bytes: what the next segment has. *)
Fixpoint next_bytes (n : nat) (segs : list bytes) : option (bytes * list bytes) :=
  match segs with
  | [] => None
  | [] :: segs => next_bytes n segs
  | seg :: segs => Some (take n seg, drop n seg :: segs)
  end.
Fixpoint drop_bytes (n : nat) (segs : list bytes) : list bytes :=
  match segs with
  | [] => []
  | seg :: segs => if (n <? length seg)%nat then drop n seg :: segs else drop_bytes (n - length seg) segs
  end.

Section Session.
Context {D G : Type} `{SortSlice} `{RedisDocs GatewayServer G} (same_username : bytes -> bytes -> bool).

Record AuthSession := {
  conn : list bytes;
  tape : bytes;
  back : backends D G;
  srp : option SRP6;
  status : Status;
  account : option Account;
  reconnectProof : bytes
}.
Definition with_conn (c : list bytes) (s : AuthSession) : AuthSession :=
  {| conn := c; tape := tape s; back := back s; srp := srp s; status := status s; account := account s; reconnectProof := reconnectProof s |}.
Definition with_tape (t : bytes) (s : AuthSession) : AuthSession :=
  {| conn := conn s; tape := t; back := back s; srp := srp s; status := status s; account := account s; reconnectProof := reconnectProof s |}.
Definition with_back (b : backends D G) (s : AuthSession) : AuthSession :=
  {| conn := conn s; tape := tape s; back := b; srp := srp s; status := status s; account := account s; reconnectProof := reconnectProof s |}.
Definition with_srp (p : option SRP6) (s : AuthSession) : AuthSession :=
  {| conn := conn s; tape := tape s; back := back s; srp := p; status := status s; account := account s; reconnectProof := reconnectProof s |}.
Definition with_status (t : Status) (s : AuthSession) : AuthSession :=
  {| conn := conn s; tape := tape s; back := back s; srp := srp s; status := t; account := account s; reconnectProof := reconnectProof s |}.
Definition with_account (a : option Account) (s : AuthSession) : AuthSession :=
  {| conn := conn s; tape := tape s; back := back s; srp := srp s; status := status s; account := a; reconnectProof := reconnectProof s |}.
Definition with_proof (p : bytes) (s : AuthSession) : AuthSession :=
  {| conn := conn s; tape := tape s; back := back s; srp := srp s; status := status s; account := account s; reconnectProof := p |}.

Abbreviation M A := (go AuthSession bytes auth_err A).

Definition set_status (t : Status) : M unit := modify (with_status t).
(** A session on a new connection. *)
Definition NewAuthSession (c : list bytes) (t : bytes) (b : backends D G) : AuthSession :=
  {| conn := c; tape := t; back := b; srp := None; status := StatusChallenge; account := None; reconnectProof := [] |}.

(** conn.Read into a buffer of [n] bytes; an empty buffer reads nothing. *)
Definition conn_read (n : nat) : M bytes :=
  if (n =? 0)%nat then mret []
  else
    s ← gets id;
    match next_bytes n (conn s) with
    | Some (b, rest) => modify (with_conn rest) ;; mret b
    | None => fail ErrRead
    end.
(** binary.Read of [n] bytes. *)
Definition read_exactly (n : nat) : M bytes :=
  s ← gets id;
  if (n <=? length (concat (conn s)))%nat then modify (with_conn (drop_bytes n (conn s))) ;; mret (take n (concat (conn s)))
  else modify (with_conn []) ;; fail ErrRead.
Definition rand_Read (n : nat) : M bytes :=
  s ← gets id;
  if (n <=? length (tape s))%nat then modify (with_tape (drop n (tape s))) ;; mret (take n (tape s)) else fail ErrRandom.
(** The random bytes of the SRP session: the provider panics on an error. *)
Definition randCryptoBytesProvider : M bytes := b ← try_err (rand_Read 32); deref b.

Fixpoint Write (v : list bytes) : M unit :=
  match v with
  | [] => mret tt
  | d :: v => publish ErrConn d ;; Write v
  end.
Definition in_back {A} (m : go (backends D G) bytes auth_err A) : M A := zoom back with_back m.

Definition u16_bytes (x : Z) : bytes := le_encode 2 x.
Definition u32_bytes (x : Z) : bytes := le_encode 4 x.
Definition version_challenge : bytes :=
  [0xBA; 0xA3; 0x1E; 0x99; 0xA0; 0x0B; 0x21; 0x57; 0xFC; 0x37; 0x3F; 0xB3; 0x69; 0xCD; 0xD2; 0xF1].

(** ** The challenges

    Of the 33 bytes of the header only the last, the length of the name, is
    used.  The name is read with one Read: a name that arrives in pieces ends
    in zeros. *)
Definition challenge_size : nat := 33.
Definition read_login : M bytes :=
  d ← read_exactly challenge_size;
  let ILen := Z.to_nat (nth 32 d 0) in
  login ← conn_read ILen;
  mret (login ++ replicate (ILen - length login) 0).
Definition find_account (username : bytes) : M unit :=
  found ← try_err (in_back (in_db (AccountByUserName same_username username)));
  modify (with_account (default None found)) ;;
  guard_err (bool_decide (found = None)) ErrDB.

Definition HandleLogonChallenge : M unit :=
  set_status StatusClosed ;;
  username ← read_login;
  find_account username ;;
  acc ← gets account;
  match acc with
  | None => Write [[CommandLogonProof]; [AuthResultUnkAccount]; u16_bytes 0]
  | Some acc =>
    random ← randCryptoBytesProvider;
    let p := NewSRP random username (Salt acc) (Verifier acc) in
    modify (with_srp (Some p)) ;;
    let '(B, g, N, s) := DataForClient p in
    Write [[CommandLogonChallenge; 0]; [AuthResultSuccess]; B; [1]; g; [32]; N; s; version_challenge; [0]] ;;
    set_status StatusLogonProof
  end.

Definition HandleReconnectChallenge : M unit :=
  set_status StatusClosed ;;
  username ← read_login;
  find_account username ;;
  modify (with_proof (replicate 16 0)) ;;
  proof ← rand_Read 16;
  modify (with_proof proof) ;;
  set_status StatusReconnectProof ;;
  Write [[CommandReconnectChallenge]; [AuthResultSuccess]; proof; version_challenge].

(** ** The proofs *)
Definition HandleReconnectProof : M unit :=
  d ← read_exactly 57;
  let R1 := take 16 d in
  let R2 := take 20 (drop 16 d) in
  s ← gets id;
  acc ← deref (account s);
  guard_err (negb (ReconnectChallengeValid (Username acc) R1 R2 (reconnectProof s) (SessionKeyAuth acc))) ErrBadReconnect ;;
  Write [[CommandReconnectProof]; [AuthResultSuccess]; u16_bytes 0] ;;
  set_status StatusAuthed.

Definition with_key (K : bytes) (a : Account) : Account :=
  {| ID := ID a; Username := Username a; Salt := Salt a; Verifier := Verifier a; SessionKeyAuth := K; Locked := Locked a; LastIP := LastIP a |}.
Definition HandleLogonProof : M unit :=
  d ← read_exactly 74;
  let A := take 32 d in
  let ClientM := take 20 (drop 32 d) in
  s ← gets id;
  p ← deref (srp s);
  verdict ← deref (VerifyChallengeResponse p A ClientM);
  match verdict with
  | None => Write [[CommandLogonProof]; [AuthResultUnkAccount]; u16_bytes 0]
  | Some K =>
    acc ← deref (account s);
    modify (with_account (Some (with_key K acc))) ;;
    in_back (in_db (UpdateAccount (with_key K acc))) ;;
    Write [[CommandLogonProof; 0] ++ GetSessionVerifier A ClientM K ++ u32_bytes 0x00800000 ++ u32_bytes 0 ++ u16_bytes 0] ;;
    set_status StatusAuthed
  end.

(** ** The realm list *)
Definition realm_bytes (realm : RealmListItem) : bytes :=
  [i_Icon realm; i_Locked realm; i_Flag realm] ++ string_bytes (i_Name realm) ++ [0] ++ string_bytes (i_Address realm) ++ [0] ++
  u32_bytes (i_PopulationLevel realm) ++ [i_CharsCount realm; i_Timezone realm; wrap8 (i_ID realm)].
Definition HandleRealmList : M unit :=
  read_exactly 4 ;;
  s ← gets id;
  realmList ← in_back (RealmListForAccount (account s));
  let pktData := concat (realm_bytes <$> realmList) ++ [0x10; 0x00] in
  Write [[CommandRealmList]; u16_bytes (len pktData + 6); u32_bytes 0; u16_bytes (len realmList); pktData] ;;
  set_status StatusAuthed.

(** ** The loop *)
Definition process_command : M unit :=
  ext ErrDeadline ;;
  b ← conn_read 1;
  let opcode := nth 0 b 0 in
  validStatus ← not_nil ErrUnknownCommand (Commands opcode);
  current ← gets status;
  guard_err (negb (bool_decide (current = validStatus))) ErrInvalidStatus ;;
  if opcode =? CommandLogonChallenge then HandleLogonChallenge
  else if opcode =? CommandLogonProof then HandleLogonProof
  else if opcode =? CommandRealmList then HandleRealmList
  else if opcode =? CommandReconnectChallenge then HandleReconnectChallenge
  else if opcode =? CommandReconnectProof then HandleReconnectProof
  else mret tt.
(** The loop only ends with an error. *)
Fixpoint ListenAndProcess (fuel : nat) : M unit :=
  match fuel with
  | O => fail ErrOutOfFuel
  | S fuel => process_command ;; ListenAndProcess fuel
  end.
End Session.
Arguments AuthSession : clear implicits.
