(* ===== verification/AuthFacts.v ===== *)
(** * AuthFacts: who gets through the login
    (apps/authserver/session/authsession.go)

    What holds of every session, whatever the client sends and whichever
    calls fail, and the runs of an honest client and of two that are not. *)
From S2P Require Import Prelude Safety GoRuntime GoStrings Bytes GameServerRepo GatewayRepo BinPack Registry GameServers Gateways AuthRepo Crypto Srp6 AuthSession.

(** ** Reading *)
Lemma next_bytes_length n segs b rest : next_bytes n segs = Some (b, rest) ->
  (length b + length (concat rest) = length (concat segs))%nat /\ (0 < n -> 0 < length b)%nat.
Proof.
  induction segs as [|[|x seg] segs IH]; cbn [next_bytes]; [done|exact IH|]. intros [= <- <-].
  split; [cbn [concat]; rewrite !length_app, length_take, length_drop; lia|]. rewrite length_take. simpl. lia.
Qed.
Lemma concat_drop_bytes n segs : concat (drop_bytes n segs) = drop n (concat segs).
Proof.
  revert n. induction segs as [|seg segs IH]; intros n; cbn [drop_bytes concat]; [by rewrite drop_nil|].
  destruct (Nat.ltb_spec n (length seg)); cbn [concat]; [by rewrite drop_app_le by lia|]. by rewrite IH, drop_app_ge by lia.
Qed.

Section Facts.
Context {D G : Type} `{SortSlice} `{RedisDocs GatewayServer G} (same_username : bytes -> bytes -> bool).
Abbreviation S := (AuthSession D G).
Abbreviation M A := (go (AuthSession D G) bytes auth_err A).
Implicit Types c : AuthSession D G.

Definition left (c : S) : nat := length (concat (conn c)).
Definition db_of (c : S) : authdb := b_db (back c).

(** Assertions that do not mind input being used up. *)
Definition reading (P : S -> Prop) : Prop := forall c l, P c -> (length (concat l) <= left c)%nat -> P (with_conn l c).
Lemma spec_read_exactly n (P : S -> Prop) F B : reading P -> (forall c, P c -> F ErrRead c) ->
  spec P (read_exactly n : M bytes) (fun b c => length b = n /\ P c) F B.
Proof.
  intros HP HF [c fs evs] Hs. unfold read_exactly, mbind, go_bind, gets, modify, mret, go_ret, fail, id. cbn [st faults events] in *.
  destruct (Nat.leb_spec n (length (concat (conn c)))) as [Hle|Hgt]; cbn [st].
  - split; [rewrite length_take; lia|]. apply HP; [done|]. rewrite concat_drop_bytes, length_drop. unfold left. lia.
  - apply HF, HP; [done|]. simpl. lia.
Qed.
Lemma spec_conn_read n (P : S -> Prop) F B : reading P -> (forall c, P c -> F ErrRead c) ->
  spec P (conn_read n : M bytes) (fun _ => P) F B.
Proof.
  intros HP HF [c fs evs] Hs. unfold conn_read. destruct (Nat.eqb_spec n 0); [done|].
  unfold mbind, go_bind, gets, modify, mret, go_ret, fail, id. cbn [st faults events] in *.
  destruct (next_bytes n (conn c)) as [[b rest]|] eqn:E; cbn [st]; [|by apply HF].
  apply next_bytes_length in E as [E _]. apply HP; [done|]. unfold left. lia.
Qed.
(** Reading an opcode uses up a byte. *)
Lemma spec_read_opcode n (P : S -> Prop) F B : reading P -> (forall c, P c -> F ErrRead c) ->
  spec (fun c => P c /\ (left c <= n)%nat) (conn_read 1 : M bytes) (fun _ c => exists k, n = Datatypes.S k /\ P c /\ (left c <= k)%nat) F B.
Proof.
  intros HP HF [c fs evs] [Hs Hn]. unfold conn_read, mbind, go_bind, gets, modify, mret, go_ret, fail, id. cbn [Nat.eqb st faults events] in *.
  destruct (next_bytes 1 (conn c)) as [[b rest]|] eqn:E; cbn [st]; [|by apply HF].
  apply next_bytes_length in E as [E Hb]. specialize (Hb ltac:(lia)). unfold left in *. exists (n - 1)%nat.
  split; [lia|]. split; [apply HP; [done|unfold left; lia]|]. cbn [conn with_conn]. lia.
Qed.
Lemma spec_rand n (P : S -> Prop) F B :
  (forall c t, P c -> (is_bytes (tape c) -> is_bytes t) -> P (with_tape t c)) -> (forall c, P c -> (length (tape c) < n)%nat -> F ErrRandom c) ->
  spec P (rand_Read n : M bytes) (fun b c => P c /\ exists c0, P c0 /\ b = take n (tape c0)) F B.
Proof.
  intros HP HF [c fs evs] Hs. unfold rand_Read, mbind, go_bind, gets, modify, mret, go_ret, fail, id. cbn [st faults events] in *.
  destruct (Nat.leb_spec n (length (tape c))); cbn [st]; [|by apply HF].
  split; [|by exists c]. apply HP; [done|]. apply Forall_drop.
Qed.
Lemma spec_write vs (P : S -> Prop) F B : (forall c, P c -> F ErrConn c) -> spec P (Write vs : M unit) (fun _ => P) F B.
Proof.
  intros HF. induction vs as [|v vs IH]; [by apply spec_ret|]. cbn [Write].
  eapply spec_bind; [by apply spec_publish|]. intros ?. exact IH.
Qed.

(** ** Assertions *)

(** The exchange [p] was set up for the account [a]. *)
Definition srp_of (a : Account) (p : SRP6) : Prop := srp_wf p /\ _s p = Salt a /\ _v p = bigIntFromLittleEndian (Verifier a).
Definition accepted (p : SRP6) (K : bytes) : Prop := exists A clientM, VerifyChallengeResponse p A clientM = Some (Some K).
(** The client of the session has proved what an account's owner knows. *)
Definition proven (c : S) : Prop :=
  exists a, account c = Some a /\
    ((exists p, srp c = Some p /\ srp_of a p /\ accepted p (SessionKeyAuth a)) \/
     (exists R1 R2, ReconnectChallengeValid (Username a) R1 R2 (reconnectProof c) (SessionKeyAuth a) = true)).
(** The database is as it was, or one account has the key of an accepted
    proof. *)
Definition db_ok (d0 : authdb) (c : S) : Prop :=
  db_of c = d0 \/
  exists a p K, a ∈ accounts d0 /\ srp_of a p /\ accepted p K /\
    db_of c = with_accounts (update_row (with_key K a) <$> accounts d0) d0.
Definition authed_ok (c : S) : Prop := status c = StatusAuthed -> proven c.
(** Between commands. *)
Definition inv (d0 : authdb) (c : S) : Prop :=
  is_bytes (tape c) /\ db_ok d0 c /\ authed_ok c /\
  (status c <> StatusAuthed -> db_of c = d0) /\
  (status c = StatusLogonProof -> exists a p, account c = Some a /\ srp c = Some p /\ a ∈ accounts d0 /\ srp_of a p).
(** A session that ended, and one that panicked. *)
Definition ended (d0 : authdb) (e : auth_err) (c : S) : Prop := e <> ErrOutOfFuel /\ db_ok d0 c /\ authed_ok c.
Definition broken (d0 : authdb) (c : S) : Prop :=
  db_ok d0 c /\ authed_ok c /\ ((status c = StatusReconnectProof /\ account c = None) \/ (length (tape c) < 32)%nat).
(** While a challenge is answered. *)
Definition closed (d0 : authdb) (c : S) : Prop := is_bytes (tape c) /\ db_of c = d0 /\ status c = StatusClosed.
Definition closed_with (d0 : authdb) (o : option Account) (c : S) : Prop :=
  closed d0 c /\ account c = o /\ forall a, o = Some a -> a ∈ accounts d0.

Lemma inv_ended d0 c : inv d0 c -> db_ok d0 c /\ authed_ok c.
Proof. by intros (_ & ? & ? & _). Qed.
Lemma closed_ended d0 e c : e <> ErrOutOfFuel -> closed d0 c -> ended d0 e c.
Proof. intros He (_ & Hd & Hs). split; [done|]. split; [by left|]. unfold authed_ok. by rewrite Hs. Qed.
Lemma closed_inv d0 c : closed d0 c -> inv d0 c.
Proof. intros (Ht & Hd & Hs). unfold inv, authed_ok. rewrite Hs. split_and!; try done. by left. Qed.

Lemma closed_reading d0 : reading (closed d0).
Proof. by intros c l. Qed.
Lemma inv_reading d0 : reading (inv d0).
Proof. by intros c l. Qed.
Lemma closed_ended' d0 e c : ended d0 e c <-> e <> ErrOutOfFuel /\ db_ok d0 c /\ authed_ok c.
Proof. done. Qed.

(** ** The commands *)
Lemma spec_read_login d0 : spec (closed d0) (read_login : M bytes) (fun _ => closed d0) (ended d0) (broken d0).
Proof.
  unfold read_login. eapply spec_bind; [apply spec_read_exactly; [apply closed_reading|intros c; by apply closed_ended]|]. intros d.
  eapply spec_bind; [eapply spec_pre; [apply (spec_conn_read _ (closed d0)); [apply closed_reading|intros c; by apply closed_ended]|by intros c []]|].
  intros l. by apply spec_ret.
Qed.
Lemma spec_find_account d0 u :
  spec (closed d0) (find_account same_username u : M unit) (fun _ c => exists o, closed_with d0 o c) (ended d0) (broken d0).
Proof.
  unfold find_account. eapply spec_bind.
  { apply (spec_try _ (fun o c => closed d0 c /\ forall a, default None o = Some a -> a ∈ accounts d0)).
    unfold in_back, in_db. apply spec_zoom. intros c (Ht & Hd & Hs). apply spec_zoom. intros b ->. unfold AccountByUserName.
    eapply spec_bind; [apply spec_ext|intros ?; eapply spec_bind; [apply spec_gets|intros d; apply spec_ret]].
    - by intros d ->.
    - intros d' [-> ->]. split; [by split_and!|]. cbn. intros a' Ha. apply head_Some_elem_of in Ha.
      apply list_elem_of_filter in Ha as [_ Ha]. unfold id in Ha. by rewrite <- Hd. }
  intros o. eapply spec_bind; [apply (spec_modify _ (fun _ => closed_with d0 (default None o)))|].
  { intros c [(Ht & Hd & Hs) Ha]. by split_and!. }
  intros ?. eapply spec_conseq; [apply (spec_guard (closed_with d0 (default None o)) (ended d0) (broken d0))|done| |done|done].
  - intros c [Hc _]. by apply closed_ended.
  - intros u' c [_ Hc]. by exists (default None o).
Qed.

Lemma spec_rand_closed d0 o n F :
  (forall c, closed_with d0 o c -> (length (tape c) < n)%nat -> F ErrRandom c) ->
  spec (closed_with d0 o) (rand_Read n : M bytes) (fun b c => closed_with d0 o c /\ is_bytes b) F (fun _ => False).
Proof.
  intros HF. eapply spec_conseq; [apply (spec_rand n (closed_with d0 o) F (fun _ => False))|done| |done|done].
  - intros c t ((Ht & Hd & Hs) & Ha & Hin) Hb. split; [|done]. split; [by apply Hb|done].
  - exact HF.
  - intros b c (Hc & c0 & Hc0 & ->). split; [done|]. apply Forall_take, Hc0.
Qed.
Lemma closed_with_ended d0 o e c : e <> ErrOutOfFuel -> closed_with d0 o c -> ended d0 e c.
Proof. intros He [Hc _]. by apply closed_ended. Qed.

Lemma spec_set_closed d0 F B : spec (inv d0) (set_status StatusClosed : M unit) (fun _ c => db_of c = d0 -> closed d0 c) F B.
Proof. apply spec_modify. intros c (Ht & _) Hd. by split_and!. Qed.

Lemma spec_HandleReconnectChallenge d0 :
  spec (fun c => inv d0 c /\ status c = StatusChallenge) (HandleReconnectChallenge same_username : M unit) (fun _ => inv d0) (ended d0) (broken d0).
Proof.
  unfold HandleReconnectChallenge. eapply spec_bind; [apply (spec_modify _ (fun _ => closed d0))|].
  { intros c [(Ht & _ & _ & Hd & _) Hs]. split_and!; [done| |done]. apply Hd. by rewrite Hs. }
  intros ?. eapply spec_bind; [apply spec_read_login|]. intros u. eapply spec_bind; [apply spec_find_account|]. intros ?.
  intros s [o Ho]. revert s Ho. change (spec (closed_with d0 o)
    (modify (with_proof (replicate 16 0)) ;; proof ← rand_Read 16; modify (with_proof proof) ;; set_status StatusReconnectProof ;;
     Write [[CommandReconnectChallenge]; [AuthResultSuccess]; proof; version_challenge] : M unit) (fun _ => inv d0) (ended d0) (broken d0)).
  eapply spec_bind; [by apply (spec_modify _ (fun _ => closed_with d0 o))|]. intros ?.
  eapply spec_bind; [eapply spec_conseq; [apply (spec_rand_closed d0 o 16 (ended d0))|done..|]|].
  { intros c Hc _. by eapply closed_with_ended. }
  { done. }
  intros b. eapply spec_bind; [apply (spec_modify _ (fun _ => closed_with d0 o)); by intros c []|]. intros ?.
  eapply spec_bind; [apply (spec_modify _ (fun _ c => inv d0 c /\ status c = StatusReconnectProof))|].
  { intros c ((Ht & Hd & Hs) & _). split; [|done]. unfold inv, authed_ok. cbn. split_and!; try done. by left. }
  intros ?. eapply spec_conseq; [apply (spec_write _ (fun c => inv d0 c /\ status c = StatusReconnectProof) (ended d0) (broken d0))|done| |done|done].
  - intros c [Hi _]. split; [done|by apply inv_ended].
  - by intros ? c [].
Qed.

Lemma spec_random_provider d0 o :
  spec (closed_with d0 o) (randCryptoBytesProvider : M bytes) (fun b c => closed_with d0 o c /\ is_bytes b) (ended d0) (broken d0).
Proof.
  unfold randCryptoBytesProvider. eapply spec_bind.
  { apply (spec_try _ (fun r c => closed_with d0 o c /\ match r with Some b => is_bytes b | None => (length (tape c) < 32)%nat end)).
    eapply spec_conseq; [apply (spec_rand_closed d0 o 32 (fun _ c => closed_with d0 o c /\ (length (tape c) < 32)%nat))|done..]. by intros c. }
  intros [b|]; [by apply spec_ret|]. intros s [[Hc _] Hlen]. cbn. split_and!; [by left; destruct Hc as (_ & ? & _)| |by right].
  destruct Hc as (_ & _ & Hs). unfold authed_ok. by rewrite Hs.
Qed.
Lemma spec_HandleLogonChallenge d0 :
  spec (fun c => inv d0 c /\ status c = StatusChallenge) (HandleLogonChallenge same_username : M unit) (fun _ => inv d0) (ended d0) (broken d0).
Proof.
  unfold HandleLogonChallenge. eapply spec_bind; [apply (spec_modify _ (fun _ => closed d0))|].
  { intros c [(Ht & _ & _ & Hd & _) Hs]. split_and!; [done| |done]. apply Hd. by rewrite Hs. }
  intros ?. eapply spec_bind; [apply spec_read_login|]. intros u. eapply spec_bind; [apply spec_find_account|]. intros ?.
  eapply spec_bind; [apply spec_gets|]. intros [acc|].
  - eapply spec_pre with (P' := closed_with d0 (Some acc)).
    2:{ intros c [Ha [o Ho]]. pose proof Ho as (_ & Hacc & _). by rewrite Hacc in Ha; subst o. }
    eapply spec_bind; [apply spec_random_provider|]. intros random.
    eapply spec_pre with (P' := fun c => is_bytes random /\ closed_with d0 (Some acc) c); [|by intros c []].
    apply spec_pure. intros Hr. set (p := NewSRP random u (Salt acc) (Verifier acc)).
    assert (Hp : srp_of acc p) by (split; [by apply NewSRP_wf|done]).
    eapply spec_bind; [apply (spec_modify _ (fun _ c => closed_with d0 (Some acc) c /\ srp c = Some p)); by intros c []|]. intros ?.
    unfold DataForClient. eapply spec_bind; [apply spec_write; intros c [Hc _]; by eapply closed_with_ended|]. intros ?.
    apply spec_modify. intros c (((Ht & Hd & Hs) & Ha & Hin) & Hsrp). unfold inv, authed_ok. cbn. split_and!; try done; [by left|].
    intros _. exists acc, p. split_and!; [done..| |done]. by apply Hin.
  - eapply spec_conseq; [apply (spec_write _ (closed d0) (ended d0) (broken d0)); intros c Hc; by apply closed_ended| | |done|done].
    + by intros c [_ [o [Hc _]]].
    + intros ? c. apply closed_inv.
Qed.

Lemma spec_HandleReconnectProof d0 :
  spec (fun c => inv d0 c /\ status c = StatusReconnectProof) (HandleReconnectProof : M unit) (fun _ => inv d0) (ended d0) (broken d0).
Proof.
  set (P := fun c => inv d0 c /\ status c = StatusReconnectProof).
  assert (HP : forall e c, e <> ErrOutOfFuel -> P c -> ended d0 e c) by (intros e c He [Hi _]; split; [done|by apply inv_ended]).
  unfold HandleReconnectProof. eapply spec_bind; [apply (spec_read_exactly _ P); [by intros c l|intros c; by apply HP]|]. intros d.
  eapply spec_bind; [apply spec_gets|]. intros s0.
  eapply spec_pre with (P' := fun c => s0 = c /\ P s0); [|by intros c [-> [_ Hc]]].
  set (R1 := take 16 d). set (R2 := take 20 (drop 16 d)).
  eapply spec_bind; [apply spec_deref; intros c [-> [Hi Hs]] Hnone; destruct (inv_ended d0 c Hi); split_and!; [done..|by left]|]. intros acc.
  apply spec_pure. intros Hacc. eapply spec_bind; [apply spec_guard; intros c [-> Hc]; by apply HP|]. intros ?.
  apply spec_pure. intros Hv%negb_false_iff.
  eapply spec_bind; [apply spec_write; intros c [-> Hc]; by apply HP|]. intros ?.
  apply spec_modify. intros c [-> [(Ht & Hdb & _ & Hd & _) Hs]]. unfold inv, authed_ok. cbn. split_and!; try done.
  intros _. exists acc. split; [done|]. right. by exists R1, R2.
Qed.

Lemma spec_HandleLogonProof d0 :
  spec (fun c => inv d0 c /\ status c = StatusLogonProof) (HandleLogonProof : M unit) (fun _ => inv d0) (ended d0) (broken d0).
Proof.
  set (P := fun c => inv d0 c /\ status c = StatusLogonProof).
  assert (HP : forall e c, e <> ErrOutOfFuel -> P c -> ended d0 e c) by (intros e c He [Hi _]; split; [done|by apply inv_ended]).
  unfold HandleLogonProof. eapply spec_bind; [apply (spec_read_exactly _ P); [by intros c l|intros c; by apply HP]|]. intros d.
  eapply spec_bind; [apply spec_gets|]. intros s0.
  eapply spec_pre with (P' := fun c => P s0 /\ s0 = c); [|by intros c [-> [_ Hc]]].
  apply spec_pure. intros HP0. pose proof HP0 as [(Ht & Hdb & Hau & Hd & Hl) Hs].
  destruct (Hl Hs) as (acc & p & Hacc & Hsrp & Hin & Hof). rewrite Hsrp, Hacc. cbn [deref].
  set (A := take 32 d). set (ClientM := take 20 (drop 32 d)).
  eapply spec_bind; [by apply (spec_ret _ (fun a c => a = p /\ s0 = c))|]. intros p'. apply spec_pure. intros ->.
  pose proof (verify_run p A ClientM (proj1 Hof)) as Hv.
  destruct (VerifyChallengeResponse p A ClientM) as [verdict|] eqn:Ev; [clear Hv|done]. cbn [deref].
  eapply spec_bind; [by apply (spec_ret _ (fun a c => a = verdict /\ s0 = c))|]. intros v'. apply spec_pure. intros ->.
  destruct verdict as [K|].
  2:{ eapply spec_conseq; [apply (spec_write _ (fun c => s0 = c) (ended d0) (broken d0)); intros c <-; by apply HP| | |done|done]; [done|].
      by intros ? c <-. }
  assert (Hok : accepted p K) by (by exists A, ClientM).
  eapply spec_bind; [by apply (spec_ret _ (fun a c => a = acc /\ s0 = c))|]. intros a'. apply spec_pure. intros ->.
  set (a1 := with_key K acc). assert (Hof1 : srp_of a1 p) by exact Hof.
  set (s1 := with_account (Some a1) s0).
  eapply spec_bind; [apply (spec_modify _ (fun _ c => c = s1)); by intros c <-|]. intros ?.
  assert (Hend1 : forall e, e <> ErrOutOfFuel -> ended d0 e s1).
  { intros e He. split; [done|]. split; [left; apply Hd; by rewrite Hs|]. unfold authed_ok. cbn. by rewrite Hs. }
  set (s2 := with_back (with_db (with_accounts (update_row a1 <$> accounts d0) d0) (back s0)) s1).
  assert (Hdb2 : db_ok d0 s2) by (right; exists acc, p, K; done).
  eapply spec_bind; [apply (spec_zoom _ (fun _ c => c = s2))|].
  { intros c ->. apply spec_zoom. intros b ->. unfold UpdateAccount.
    assert (Hd0 : b_db (back s1) = d0) by (apply Hd; by rewrite Hs). rewrite Hd0.
    assert (Hsame : with_back (with_db d0 (back s1)) s1 = s1).
    { unfold with_back, with_db, s1. cbn. destruct s0 as [? ? [bd br] ? ? ? ?]. cbn in *. by rewrite Hd0. }
    eapply spec_bind; [apply (spec_ext (fun d => d = d0))|intros ?; apply spec_modify; by intros d' ->].
    intros d' ->. rewrite Hsame. by apply Hend1. }
  intros ?. eapply spec_bind; [apply (spec_write _ (fun c => c = s2))|].
  { intros c ->. split; [done|]. split; [done|]. unfold authed_ok. cbn. by rewrite Hs. }
  intros ?. apply spec_modify. intros c ->. unfold inv, authed_ok. cbn. split_and!; try done.
  intros _. exists a1. split; [done|]. left. by exists p.
Qed.

Lemma spec_remote {A} (m : go (registry D G) sr_event registry_err A) d1 B :
  spec (fun b => b_db b = d1) (remote m : go (backends D G) bytes auth_err A) (fun _ b => b_db b = d1)
    (fun e b => e <> ErrOutOfFuel /\ b_db b = d1) B.
Proof.
  unfold remote. eapply spec_bind; [by apply spec_ext|]. intros ? s Hs. unfold in_registry.
  destruct (m (b_registry (st s))) as [[x|e|] reg]; cbn; [done|split; done|split; done].
Qed.
Lemma spec_in_db {A} (m : go authdb bytes auth_err A) d1 B :
  spec (fun d => d = d1) m (fun _ d => d = d1) (fun e d => e <> ErrOutOfFuel /\ d = d1) (fun _ => False) ->
  spec (fun b => b_db b = d1) (in_db m : go (backends D G) bytes auth_err A) (fun _ b => b_db b = d1)
    (fun e b => e <> ErrOutOfFuel /\ b_db b = d1) B.
Proof.
  intros Hm. unfold in_db. apply spec_zoom. intros b Hb. eapply spec_conseq; [exact Hm|..]; try done.
  by intros d ->.
Qed.
Lemma spec_RealmList a d1 B :
  spec (fun b => b_db b = d1) (RealmListForAccount (Some a) : go (backends D G) bytes auth_err _) (fun _ b => b_db b = d1)
    (fun e b => e <> ErrOutOfFuel /\ b_db b = d1) B.
Proof.
  unfold RealmListForAccount. eapply spec_bind; [apply spec_in_db|].
  { eapply spec_bind; [apply spec_ext; by intros d ->|]. intros ?. by apply spec_gets_post. }
  intros realms. eapply spec_bind; [apply spec_remote|]. intros gws.
  eapply spec_bind; [by apply (spec_ret _ (fun _ b => b_db b = d1))|]. intros a'.
  eapply spec_bind; [apply spec_in_db|by intros chars; apply spec_ret].
  eapply spec_bind; [apply spec_ext; by intros d ->|]. intros ?. eapply spec_bind; [apply spec_gets|]. intros d. apply spec_ret. by intros ? [_ ->].
Qed.
Lemma spec_HandleRealmList d0 :
  spec (fun c => inv d0 c /\ status c = StatusAuthed) (HandleRealmList : M unit) (fun _ => inv d0) (ended d0) (broken d0).
Proof.
  set (P := fun c => inv d0 c /\ status c = StatusAuthed).
  assert (HP : forall e c, e <> ErrOutOfFuel -> P c -> ended d0 e c) by (intros e c He [Hi _]; split; [done|by apply inv_ended]).
  unfold HandleRealmList. eapply spec_bind; [apply (spec_read_exactly _ P); [by intros c l|intros c; by apply HP]|]. intros d.
  eapply spec_bind; [apply spec_gets|]. intros s0.
  eapply spec_pre with (P' := fun c => P s0 /\ s0 = c); [|by intros c [-> [_ Hc]]].
  apply spec_pure. intros HP0. pose proof HP0 as [(Ht & Hdb & Hau & _) Hs]. destruct (Hau Hs) as (a & Ha & Hproof). rewrite Ha.
  assert (Hput : forall b, b_db b = b_db (back s0) -> P (with_back b s0)).
  { intros b Hb. assert (Hdb' : db_of (with_back b s0) = db_of s0) by exact Hb. split; [|done]. unfold inv, db_ok. rewrite Hdb'.
    unfold authed_ok. cbn. rewrite Hs. split_and!; try done. intros _. by exists a. }
  eapply spec_bind; [apply (spec_zoom _ (fun _ c => P c))|].
  { intros c <-. eapply spec_conseq; [apply (spec_RealmList a (b_db (back s0)) (fun _ => False))|by intros b ->|intros ? b; apply Hput| |done].
    intros e b [He Hb]. apply HP; [done|by apply Hput]. }
  intros items. eapply spec_bind; [apply spec_write; intros c; by apply HP|]. intros ?.
  apply spec_modify. intros c [Hi Hs']. destruct Hi as (Ht' & Hdb' & Hau' & _). split_and!; try done. by intros _; apply Hau'.
Qed.

(** ** A whole session *)
Lemma spec_and_keeps {A} P I (Q : A -> S -> Prop) F B (m : M A) :
  spec P m Q F B -> keeps I m -> spec (fun c => P c /\ I c) m (fun a c => Q a c /\ I c) F B.
Proof. intros Hm HI s [Hs Hi]. specialize (Hm s Hs). specialize (HI s Hi). by destruct (m s) as [[a'|e|] s']. Qed.
Section Left.
Context (k : nat).
Abbreviation within := (fun c => (left c <= k)%nat).
Lemma keeps_read_exactly n : keeps within (read_exactly n : M bytes).
Proof.
  intros s Hs. pose proof (spec_read_exactly n within (fun _ => within) within) as Hr. unfold reading in Hr.
  specialize (Hr ltac:(intros c l Hc Hl; unfold left in *; cbn; lia) ltac:(done) s Hs).
  by destruct (read_exactly n s) as [[?|?|] ?]; [apply Hr|..].
Qed.
Lemma keeps_conn_read n : keeps within (conn_read n : M bytes).
Proof.
  intros s Hs. pose proof (spec_conn_read n within (fun _ => within) within) as Hr. unfold reading in Hr.
  specialize (Hr ltac:(intros c l Hc Hl; unfold left in *; cbn; lia) ltac:(done) s Hs).
  by destruct (conn_read n s) as [[?|?|] ?].
Qed.
Lemma keeps_rand n : keeps within (rand_Read n : M bytes).
Proof. unfold rand_Read. keeps_tac. by apply keeps_modify. Qed.
Lemma keeps_write vs : keeps within (Write vs : M unit).
Proof. induction vs as [|v vs IH]; cbn [Write]; keeps_tac. Qed.
Lemma keeps_in_back {A} (m : go (backends D G) bytes auth_err A) : keeps within (in_back m).
Proof. intros s Hs. unfold in_back, zoom. by destruct (m _) as [[?|?|] ?]. Qed.
Lemma keeps_modify_within (f : S -> S) : (forall c, conn (f c) = conn c) -> keeps within (modify f : M unit).
Proof. intros Hf. apply keeps_modify. intros c. unfold left. by rewrite Hf. Qed.
Hint Resolve keeps_read_exactly keeps_conn_read keeps_rand keeps_write keeps_in_back : keeps.
Hint Extern 1 (keeps _ (modify _)) => (by apply keeps_modify_within) : keeps.
Hint Extern 1 (keeps _ (set_status _)) => (by apply keeps_modify_within) : keeps.
Lemma keeps_login : keeps within (read_login : M bytes).
Proof. unfold read_login. keeps_tac. Qed.
Lemma keeps_find u : keeps within (find_account same_username u : M unit).
Proof. unfold find_account. keeps_tac. Qed.
Hint Resolve keeps_login keeps_find : keeps.
Lemma handlers_keep_left :
  keeps within (HandleLogonChallenge same_username : M unit) /\ keeps within (HandleLogonProof : M unit) /\
  keeps within (HandleReconnectChallenge same_username : M unit) /\ keeps within (HandleReconnectProof : M unit) /\
  keeps within (HandleRealmList : M unit).
Proof.
  unfold HandleLogonChallenge, HandleLogonProof, HandleReconnectChallenge, HandleReconnectProof, HandleRealmList,
    randCryptoBytesProvider. split_and!; keeps_tac.
Qed.
End Left.

Lemma spec_process_command d0 n :
  spec (fun c => inv d0 c /\ (left c <= n)%nat) (process_command same_username : M unit)
    (fun _ c => exists k, n = Datatypes.S k /\ inv d0 c /\ (left c <= k)%nat) (ended d0) (broken d0).
Proof.
  assert (HP : forall e c, e <> ErrOutOfFuel -> inv d0 c -> ended d0 e c) by (intros e c He Hi; split; [done|by apply inv_ended]).
  unfold process_command. eapply spec_bind; [apply spec_ext; intros c [Hc _]; by apply HP|]. intros ?.
  eapply spec_bind; [apply spec_read_opcode; [apply inv_reading|intros c; by apply HP]|]. intros b.
  intros s (k & -> & Hs). revert s Hs. set (opcode := nth 0 b 0).
  match goal with |- forall s, _ -> match ?m s with _ => _ end =>
    change (spec (fun c => inv d0 c /\ (left c <= k)%nat) m
      (fun _ c => exists k', Datatypes.S k = Datatypes.S k' /\ inv d0 c /\ (left c <= k')%nat) (ended d0) (broken d0)) end.
  eapply spec_bind; [apply spec_not_nil; intros c [Hc _]; by apply HP|]. intros valid. apply spec_pure. intros Hvalid.
  eapply spec_bind; [apply spec_gets|]. intros current.
  eapply spec_bind; [apply spec_guard; intros c [_ [Hc _]]; by apply HP|]. intros ?.
  apply spec_pure. intros Hb%negb_false_iff%bool_decide_eq_true. subst valid.
  destruct (handlers_keep_left k) as (K1 & K2 & K3 & K4 & K5).
  assert (Hrun : forall (h : M unit) t, spec (fun c => inv d0 c /\ status c = t) h (fun _ => inv d0) (ended d0) (broken d0) ->
    keeps (fun c => (left c <= k)%nat) h -> current = t ->
    spec (fun c => current = status c /\ inv d0 c /\ (left c <= k)%nat) h
      (fun _ c => exists k', Datatypes.S k = Datatypes.S k' /\ inv d0 c /\ (left c <= k')%nat) (ended d0) (broken d0)).
  { intros h t Hh Hk <-. eapply spec_conseq; [by apply (spec_and_keeps _ _ _ _ _ _ Hh Hk)| | |done|done].
    - by intros c (-> & ? & ?).
    - intros ? c [Hi Hl]. by exists k. }
  unfold Commands in Hvalid.
  destruct (opcode =? CommandLogonChallenge); [injection Hvalid as <-; eapply Hrun; [apply spec_HandleLogonChallenge|done..]|].
  destruct (opcode =? CommandLogonProof); [injection Hvalid as <-; eapply Hrun; [apply spec_HandleLogonProof|done..]|].
  destruct (opcode =? CommandReconnectChallenge) eqn:E2.
  { destruct (Z.eqb_spec opcode CommandRealmList) as [E|_]; [apply Z.eqb_eq in E2; by rewrite E in E2|].
    injection Hvalid as <-; eapply Hrun; [apply spec_HandleReconnectChallenge|done..]. }
  destruct (opcode =? CommandReconnectProof) eqn:E3.
  { destruct (Z.eqb_spec opcode CommandRealmList) as [E|_]; [apply Z.eqb_eq in E3; by rewrite E in E3|].
    injection Hvalid as <-; eapply Hrun; [apply spec_HandleReconnectProof|done..]. }
  destruct (opcode =? CommandRealmList); [injection Hvalid as <-; eapply Hrun; [apply spec_HandleRealmList|done..]|done].
Qed.
Lemma spec_listen d0 fuel : forall n, (n < fuel)%nat ->
  spec (fun c => inv d0 c /\ (left c <= n)%nat) (ListenAndProcess same_username fuel : M unit) (fun _ _ => False) (ended d0) (broken d0).
Proof.
  induction fuel as [|fuel IH]; intros n Hn; [lia|]. cbn [ListenAndProcess].
  eapply spec_bind; [apply spec_process_command|]. intros ? s (k & -> & Hs). exact (IH k ltac:(lia) s Hs).
Qed.
Lemma fresh_inv l t b : is_bytes t -> inv (b_db b) (NewAuthSession l t b : S).
Proof. intros Ht. unfold inv, authed_ok. cbn. split_and!; try done. by left. Qed.
End Facts.
