(* ===== verification/AuthRuns.v ===== *)
(** * AuthRuns: what the login does with its clients
    (apps/authserver/session/authsession.go)

    Every session ends and lets nobody through without a proof; an honest
    client gets through; and two clients show what goes wrong. *)
From S2P Require Import Prelude GoRuntime GoStrings Bytes GameServerRepo GatewayRepo BinPack Registry GameServers Gateways AuthRepo Crypto Srp6 AuthSession AuthFacts.

Section Runs.
Context {D G : Type} `{SortSlice} `{RedisDocs GatewayServer G} (same_username : bytes -> bytes -> bool).
Abbreviation S := (AuthSession D G).
Abbreviation M A := (go (AuthSession D G) bytes auth_err A).
Implicit Types c : AuthSession D G.

#[local] Opaque sha1_Sum GetSessionVerifier u32_bytes u16_bytes.
(** ** Steps of a run without failures *)
Lemma write_run vs : forall c evs, (Write vs : M unit) (Sys c [] evs) = (Ok tt, Sys c [] (evs ++ vs)).
Proof.
  induction vs as [|v vs IH]; intros c evs; [by rewrite app_nil_r|]. cbn [Write]. erewrite bind_run by reflexivity.
  cbn [st faults events]. by rewrite IH, <- app_assoc.
Qed.
Lemma read_opcode_run op segs c evs : next_bytes 1 (conn c) = Some ([op], segs) ->
  (conn_read 1 : M bytes) (Sys c [] evs) = (Ok [op], Sys (with_conn segs c) [] evs).
Proof.
  intros Hc. unfold conn_read. cbn [Nat.eqb]. erewrite bind_run by reflexivity. cbn [st]. unfold id. rewrite Hc.
  by erewrite bind_run by reflexivity.
Qed.
Lemma conn_read_run b l c evs : b <> [] -> conn c = b :: l ->
  (conn_read (length b) : M bytes) (Sys c [] evs) = (Ok b, Sys (with_conn ([] :: l) c) [] evs).
Proof.
  intros Hb Hc. unfold conn_read. destruct b as [|x b]; [done|]. cbn [Nat.eqb length]. erewrite bind_run by reflexivity.
  cbn [st]. unfold id. rewrite Hc. cbn [next_bytes]. change (Datatypes.S (length b)) with (length (x :: b)). rewrite take_ge, drop_ge by done.
  by erewrite bind_run by reflexivity.
Qed.
(** A value that begins a segment with more behind it, or ends one. *)
Lemma read_exactly_run n b r l c evs : length b = n -> r <> [] -> conn c = (b ++ r) :: l ->
  (read_exactly n : M bytes) (Sys c [] evs) = (Ok b, Sys (with_conn (r :: l) c) [] evs).
Proof.
  intros Hn Hr Hc. unfold read_exactly. erewrite bind_run by reflexivity. cbn [st]. unfold id. rewrite Hc. cbn [concat drop_bytes].
  rewrite (proj2 (Nat.leb_le _ _)) by (rewrite !length_app; lia).
  rewrite (proj2 (Nat.ltb_lt _ _)) by (rewrite length_app; destruct r; [done|simpl; lia]).
  erewrite bind_run by reflexivity. rewrite <- app_assoc, take_app_length', drop_app_length' by done. done.
Qed.
Lemma drop_bytes_0 l : [] ∉ l -> drop_bytes 0 l = l.
Proof. destruct l as [|[|x seg] l]; intros Hl; [done|destruct Hl; left|]. cbn [drop_bytes length]. by rewrite drop_0. Qed.
Lemma read_exactly_end n b l c evs : length b = n -> [] ∉ l -> conn c = b :: l ->
  (read_exactly n : M bytes) (Sys c [] evs) = (Ok b, Sys (with_conn l c) [] evs).
Proof.
  intros Hn Hl Hc. unfold read_exactly. erewrite bind_run by reflexivity. cbn [st]. unfold id. rewrite Hc. cbn [concat drop_bytes].
  rewrite (proj2 (Nat.leb_le _ _)) by (rewrite length_app; lia). rewrite (proj2 (Nat.ltb_ge _ _)) by lia.
  erewrite bind_run by reflexivity. replace (n - length b)%nat with 0%nat by lia. rewrite drop_bytes_0 by done.
  by rewrite take_app_length' by done.
Qed.
Lemma rand_run n c evs : (n <= length (tape c))%nat ->
  (rand_Read n : M bytes) (Sys c [] evs) = (Ok (take n (tape c)), Sys (with_tape (drop n (tape c)) c) [] evs).
Proof.
  intros Hn. unfold rand_Read. erewrite bind_run by reflexivity. cbn [st]. unfold id. by rewrite (proj2 (Nat.leb_le _ _)).
Qed.

(** What a client sends to begin: 32 bytes nobody looks at and its name. *)
Definition challenge_bytes (hdr username : bytes) : bytes := hdr ++ [len username] ++ username.
Lemma login_run hdr username l c evs : length hdr = 32%nat -> username <> [] -> conn c = challenge_bytes hdr username :: l ->
  (read_login : M bytes) (Sys c [] evs) = (Ok username, Sys (with_conn ([] :: l) c) [] evs).
Proof.
  intros Hh Hu Hc. unfold read_login, challenge_size, challenge_bytes in *. rewrite app_assoc in Hc.
  erewrite bind_run by (eapply read_exactly_run; [|exact Hu|exact Hc]; rewrite length_app, Hh; done).
  assert (Hn : nth 32 (hdr ++ [len username]) 0 = len username) by (rewrite app_nth2, Hh by lia; done).
  rewrite Hn. unfold len. rewrite Nat2Z.id. erewrite bind_run by (by apply conn_read_run). 
  rewrite Nat.sub_diag. cbn [replicate]. by rewrite app_nil_r.
Qed.
Definition lookup_account (c : S) (username : bytes) : option Account :=
  head (filter (fun a => same_username (Username a) username = true) (accounts (db_of c))).
Lemma with_back_same c : with_back (with_db (b_db (back c)) (back c)) c = c.
Proof. by destruct c as [? ? [? ?] ? ? ? ?]. Qed.
Lemma find_run username c evs :
  (find_account same_username username : M unit) (Sys c [] evs) = (Ok tt, Sys (with_account (lookup_account c username) c) [] evs).
Proof.
  unfold find_account. erewrite bind_run by reflexivity. cbn [st faults events]. rewrite with_back_same.
  erewrite bind_run by reflexivity. cbn [st faults events default]. by rewrite bool_decide_false.
Qed.
(** The frame around a command. *)
Lemma command_run op valid segs c evs (h : M unit) :
  next_bytes 1 (conn c) = Some ([op], segs) -> Commands op = Some valid -> status c = valid ->
  h = (if op =? CommandLogonChallenge then HandleLogonChallenge same_username
       else if op =? CommandLogonProof then HandleLogonProof
       else if op =? CommandRealmList then HandleRealmList
       else if op =? CommandReconnectChallenge then HandleReconnectChallenge same_username
       else if op =? CommandReconnectProof then HandleReconnectProof
       else mret tt) ->
  (process_command same_username : M unit) (Sys c [] evs) = h (Sys (with_conn segs c) [] evs).
Proof.
  intros Hc Hop Hs ->. unfold process_command. erewrite bind_run by reflexivity. erewrite bind_run by (by apply read_opcode_run).
  cbn [nth]. rewrite Hop. erewrite bind_run by reflexivity. erewrite bind_run by reflexivity. cbn [st status with_conn].
  rewrite Hs, bool_decide_true by done. by erewrite bind_run by reflexivity.
Qed.
(** The connection ends between two commands. *)
Lemma listen_end fuel c evs : concat (conn c) = [] ->
  exists s', (ListenAndProcess same_username (Datatypes.S fuel) : M unit) (Sys c [] evs) = (Fail ErrRead, s') /\ st s' = c /\ events s' = evs.
Proof.
  intros Hc. assert (Hnone : next_bytes 1 (conn c) = None).
  { induction (conn c) as [|[|x seg] l IH]; [done|by apply IH|done]. }
  eexists. split; [|split]; [| |].
  - cbn [ListenAndProcess]. unfold process_command. erewrite bind_fail; [reflexivity|]. erewrite bind_run by reflexivity.
    erewrite bind_fail; [reflexivity|]. unfold conn_read. cbn [Nat.eqb]. erewrite bind_run by reflexivity. cbn [st]. unfold id. rewrite Hnone. reflexivity.
  - done.
  - done.
Qed.

(** ** Every session *)

(** Every session ends, whatever the client sends and whichever calls
    fail: a round of the loop uses up at least a byte.  It ends with an error
    and a closed connection, or it panics, which happens only in the proof of
    a reconnect for an unknown account, or when the random source fails. *)
Theorem session_ends (s : sys S bytes) l t b fuel
  (Hs : st s = NewAuthSession l t b) (Ht : is_bytes t) (Hfuel : (length (concat l) < fuel)%nat) :
  match (ListenAndProcess same_username fuel : M unit) s with
  | (Ok _, _) => False
  | (Fail e, _) => e <> ErrOutOfFuel
  | (Panic, s') => (status (st s') = StatusReconnectProof /\ account (st s') = None) \/ (length (tape (st s')) < 32)%nat
  end.
Proof.
  pose proof (spec_listen same_username (b_db b) fuel (length (concat l)) Hfuel s) as Hrun.
  rewrite Hs in Hrun. specialize (Hrun (conj (fresh_inv l t b Ht) (Nat.le_refl _))).
  destruct (ListenAndProcess same_username fuel s) as [[?|e|] s']; [done|apply Hrun|apply Hrun].
Qed.


(** ** An honest client *)
Lemma logon_challenge_run hdr username acc segs l c evs :
  next_bytes 1 (conn c) = Some ([CommandLogonChallenge], segs) -> segs = challenge_bytes hdr username :: l ->
  length hdr = 32%nat -> username <> [] -> status c = StatusChallenge -> (32 <= length (tape c))%nat ->
  lookup_account c username = Some acc ->
  let p := NewSRP (take 32 (tape c)) username (Salt acc) (Verifier acc) in
  let '(B, g, N, s) := DataForClient p in
  (process_command same_username : M unit) (Sys c [] evs) =
    (Ok tt, Sys {| conn := [] :: l; tape := drop 32 (tape c); back := back c; srp := Some p; status := StatusLogonProof;
                   account := Some acc; reconnectProof := reconnectProof c |} []
              (evs ++ [[CommandLogonChallenge; 0]; [AuthResultSuccess]; B; [1]; g; [32]; N; s; version_challenge; [0]])).
Proof.
  intros Hc -> Hh Hu Hs Ht Hacc p. unfold DataForClient.
  rewrite (command_run CommandLogonChallenge StatusChallenge _ c evs (HandleLogonChallenge same_username) Hc) by done. unfold HandleLogonChallenge. erewrite bind_run by reflexivity. cbn [st faults events].
  erewrite bind_run by (eapply login_run; done). erewrite bind_run by apply find_run.
  erewrite bind_run by reflexivity. cbn [st account with_account].
  assert (Hl : forall c', db_of c' = db_of c -> lookup_account c' username = Some acc) by (intros c' E; unfold lookup_account; by rewrite E).
  rewrite Hl by done. unfold randCryptoBytesProvider, try_err.
  erewrite bind_run.
  2:{ erewrite bind_run by (rewrite rand_run by exact Ht; reflexivity). reflexivity. }
  cbv zeta. erewrite bind_run by reflexivity. cbv beta iota delta [DataForClient]. erewrite bind_run by apply write_run. reflexivity.
Qed.

Lemma logon_proof_run A Mc rest segs p acc K l c evs :
  next_bytes 1 (conn c) = Some ([CommandLogonProof], segs) -> segs = (A ++ Mc ++ rest) :: l -> [] ∉ l ->
  length A = 32%nat -> length Mc = 20%nat -> length rest = 22%nat ->
  status c = StatusLogonProof -> srp c = Some p -> account c = Some acc -> VerifyChallengeResponse p A Mc = Some (Some K) ->
  (process_command same_username : M unit) (Sys c [] evs) =
    (Ok tt, Sys {| conn := l; tape := tape c;
                   back := with_db (with_accounts (update_row (with_key K acc) <$> accounts (db_of c)) (db_of c)) (back c);
                   srp := Some p; status := StatusAuthed; account := Some (with_key K acc); reconnectProof := reconnectProof c |} []
              (evs ++ [[CommandLogonProof; 0] ++ GetSessionVerifier A Mc K ++ u32_bytes 0x00800000 ++ u32_bytes 0 ++ u16_bytes 0])).
Proof.
  intros Hc -> Hl HA HM Hr Hs Hsrp Hacc Hv.
  rewrite (command_run CommandLogonProof StatusLogonProof _ c evs HandleLogonProof Hc) by done. unfold HandleLogonProof.
  erewrite bind_run by (eapply read_exactly_end; [|exact Hl|reflexivity]; rewrite !length_app, HA, HM, Hr; done).
  cbv zeta. rewrite take_app_length', drop_app_length' by done. rewrite take_app_length' by done.
  erewrite bind_run by reflexivity. cbn [st srp account with_conn]. unfold id. cbn [srp account with_conn]. rewrite Hsrp.
  erewrite bind_run by reflexivity. rewrite Hv. erewrite bind_run by reflexivity. cbv beta iota. cbn [st account with_conn]. rewrite Hacc.
  erewrite bind_run by reflexivity. erewrite bind_run by reflexivity. cbn [st faults events].
  erewrite bind_run by reflexivity. erewrite bind_run by apply write_run.
  unfold set_status, modify. cbn [st faults events]. unfold with_status, with_back, with_account, with_conn, with_db, with_accounts, zoom; cbn. by rewrite Hsrp.
Qed.

(** An honest client gets in: whoever knows the private key behind the
    stored verifier and answers the challenge with its proof is logged in; the
    session key it computed is the one the database then holds, and the
    server's last message proves that it knows that key too. *)
Theorem honest_login l t b hdr username acc x a rest
  (Hacc : head (filter (fun a => same_username (Username a) username = true) (accounts (b_db b))) = Some acc)
  (Hv : Verifier acc = client_verifier x) (Hx : 0 <= x) (Ha : 0 <= a) (HA : wrap64 (_g ^ a mod _N) <> 0)
  (Ht : is_bytes t) (Hlen : (32 <= length t)%nat) (Hh : length hdr = 32%nat) (Hu : username <> []) (Hr : length rest = 22%nat) :
  let p := NewSRP (take 32 t) username (Salt acc) (Verifier acc) in
  let '(B, g, N, s) := DataForClient p in
  let proof := client_M username a x B g N s in
  let K := client_key a x B in
  l = [CommandLogonChallenge :: challenge_bytes hdr username; CommandLogonProof :: client_A a ++ proof ++ rest] ->
  exists s', (ListenAndProcess same_username 3 : M unit) (Sys (NewAuthSession l t b) [] []) = (Fail ErrRead, s') /\
    status (st s') = StatusAuthed /\ account (st s') = Some (with_key K acc) /\
    db_of (st s') = with_accounts (update_row (with_key K acc) <$> accounts (b_db b)) (b_db b) /\
    last (events s') = Some ([CommandLogonProof; 0] ++ GetSessionVerifier (client_A a) proof K ++ u32_bytes 0x00800000 ++ u32_bytes 0 ++ u16_bytes 0).
Proof.
  intros p. unfold DataForClient. cbv zeta. intros Hl. set (c0 := NewAuthSession l t b : S).
  assert (Hagree : VerifyChallengeResponse p (client_A a) (client_M username a x (srp_B p) (bigIntToBytesLittleEndian _g) (bigIntToBytesLittleEndian _N) (_s p)) =
    Some (Some (client_key a x (srp_B p)))).
  { unfold p. rewrite Hv. apply (agreement_run (take 32 t) username (Salt acc) x a); [by apply Forall_take|done..]. }
  assert (Hlook : lookup_account c0 username = Some acc) by exact Hacc.
  pose proof (logon_challenge_run hdr username acc _ [CommandLogonProof :: client_A a ++ client_M username a x (srp_B p) (bigIntToBytesLittleEndian _g) (bigIntToBytesLittleEndian _N) (_s p) ++ rest]
    c0 [] ltac:(unfold c0; cbn [conn NewAuthSession]; rewrite Hl; reflexivity) eq_refl Hh Hu eq_refl Hlen Hlook) as Hrun1.
  cbn [ListenAndProcess]. erewrite bind_run by exact Hrun1. clear Hrun1.
  erewrite bind_run by (eapply logon_proof_run; [reflexivity|reflexivity|apply not_elem_of_nil|apply le_encode_length|apply sha1_length|exact Hr|reflexivity|reflexivity|reflexivity|exact Hagree]).
  match goal with |- context [Sys ?c [] ?evs] => set (c1 := c); set (evs1 := evs) end.
  destruct (listen_end 0 c1 evs1 eq_refl) as (s' & Hend & Hst & Hev). cbn [ListenAndProcess] in Hend.
  exists s'. split; [exact Hend|]. rewrite Hst, Hev. by split_and!.
Qed.

(** ** Two other clients *)

Lemma reconnect_challenge_run hdr username segs l c evs :
  next_bytes 1 (conn c) = Some ([CommandReconnectChallenge], segs) -> segs = challenge_bytes hdr username :: l ->
  length hdr = 32%nat -> username <> [] -> status c = StatusChallenge -> (16 <= length (tape c))%nat ->
  (process_command same_username : M unit) (Sys c [] evs) =
    (Ok tt, Sys {| conn := [] :: l; tape := drop 16 (tape c); back := back c; srp := srp c; status := StatusReconnectProof;
                   account := lookup_account c username; reconnectProof := take 16 (tape c) |} []
              (evs ++ [[CommandReconnectChallenge]; [AuthResultSuccess]; take 16 (tape c); version_challenge])).
Proof.
  intros Hc -> Hh Hu Hs Ht.
  rewrite (command_run CommandReconnectChallenge StatusChallenge _ c evs (HandleReconnectChallenge same_username) Hc) by done.
  unfold HandleReconnectChallenge. erewrite bind_run by reflexivity. cbn [st faults events].
  erewrite bind_run by (eapply login_run; done). erewrite bind_run by apply find_run.
  erewrite bind_run by reflexivity. cbn [st faults events]. erewrite bind_run by (rewrite rand_run by exact Ht; reflexivity).
  erewrite bind_run by reflexivity. erewrite bind_run by reflexivity. apply write_run.
Qed.
(** The proof of a reconnect, as the first thing behind the opcode. *)
Lemma reconnect_proof_run R1 R2 rest segs l c evs :
  next_bytes 1 (conn c) = Some ([CommandReconnectProof], segs) -> segs = (R1 ++ R2 ++ rest) :: l -> [] ∉ l ->
  length R1 = 16%nat -> length R2 = 20%nat -> length rest = 21%nat -> status c = StatusReconnectProof ->
  (process_command same_username : M unit) (Sys c [] evs) =
    match account c with
    | None => (Panic, Sys (with_conn l c) [] evs)
    | Some acc =>
      if ReconnectChallengeValid (Username acc) R1 R2 (reconnectProof c) (SessionKeyAuth acc) then
        (Ok tt, Sys (with_status StatusAuthed (with_conn l c)) [] (evs ++ [[CommandReconnectProof]; [AuthResultSuccess]; u16_bytes 0]))
      else (Fail ErrBadReconnect, Sys (with_conn l c) [] evs)
    end.
Proof.
  intros Hc -> Hl H1 H2 Hr Hs.
  rewrite (command_run CommandReconnectProof StatusReconnectProof _ c evs HandleReconnectProof Hc) by done. unfold HandleReconnectProof.
  erewrite bind_run by (eapply read_exactly_end; [|exact Hl|reflexivity]; rewrite !length_app, H1, H2, Hr; done).
  cbv zeta. rewrite take_app_length', drop_app_length' by done. rewrite take_app_length' by done.
  erewrite bind_run by reflexivity. cbn [st]. unfold id. cbn [account reconnectProof with_conn].
  destruct (account c) as [acc|] eqn:Hacc; [|reflexivity]. erewrite bind_run by reflexivity.
  destruct (ReconnectChallengeValid _ _ _ _ _); cbn [negb]; [|reflexivity]. erewrite bind_run by reflexivity.
  erewrite bind_run by apply write_run. reflexivity.
Qed.

Lemma bind_panic {A B} (m : M A) (k : A -> M B) s s' : m s = (Panic, s') -> (m ≫= k) s = (Panic, s').
Proof. intros Hm. unfold mbind, go_bind. by rewrite Hm. Qed.

(** A reconnect that names an account which does not exist kills the
    server: the challenge is answered all the same, and the proof, whatever it
    is, reads the name of an account that is nil. *)
Theorem unknown_reconnect_panics t b hdr username proof
  (Hacc : filter (fun a => same_username (Username a) username = true) (accounts (b_db b)) = [])
  (Hlen : (16 <= length t)%nat) (Hh : length hdr = 32%nat) (Hu : username <> []) (Hp : length proof = 57%nat) :
  exists s', (ListenAndProcess same_username 2 : M unit)
    (Sys (NewAuthSession [CommandReconnectChallenge :: challenge_bytes hdr username; CommandReconnectProof :: proof] t b) [] []) = (Panic, s').
Proof.
  set (c0 := NewAuthSession _ t b : S). assert (Hlook : lookup_account c0 username = None) by (unfold lookup_account, db_of, c0; cbn; by rewrite Hacc).
  pose proof (reconnect_challenge_run hdr username _ [CommandReconnectProof :: proof] c0 [] eq_refl eq_refl Hh Hu eq_refl Hlen) as Hrun.
  eexists. cbn [ListenAndProcess]. erewrite bind_run by exact Hrun. apply bind_panic.
  rewrite (reconnect_proof_run (take 16 proof) (take 20 (drop 16 proof)) (drop 20 (drop 16 proof)) [proof] []);
    [cbn [account]; rewrite Hlook; reflexivity|reflexivity|by rewrite !take_drop|apply not_elem_of_nil| | | |reflexivity];
    rewrite ?length_take, ?length_drop; lia.
Qed.

(** An account without a session key is open to everyone: with the name
    alone, and the 16 bytes the server itself sends, a client computes a proof
    that the reconnect accepts. *)
Theorem keyless_account_open t b hdr username acc R1 rest
  (Hacc : head (filter (fun a => same_username (Username a) username = true) (accounts (b_db b))) = Some acc)
  (Hkey : SessionKeyAuth acc = []) (Hlen : (16 <= length t)%nat) (Hh : length hdr = 32%nat) (Hu : username <> [])
  (H1 : length R1 = 16%nat) (Hr : length rest = 21%nat) :
  let sent := take 16 t in
  let R2 := sha1_Sum (Username acc ++ R1 ++ sent) in
  exists s', (ListenAndProcess same_username 3 : M unit)
    (Sys (NewAuthSession [CommandReconnectChallenge :: challenge_bytes hdr username; CommandReconnectProof :: R1 ++ R2 ++ rest] t b) [] []) =
      (Fail ErrRead, s') /\ status (st s') = StatusAuthed /\ account (st s') = Some acc /\
    events s' = [[CommandReconnectChallenge]; [AuthResultSuccess]; sent; version_challenge;
                 [CommandReconnectProof]; [AuthResultSuccess]; u16_bytes 0].
Proof.
  intros sent R2. set (c0 := NewAuthSession _ t b : S). assert (Hlook : lookup_account c0 username = Some acc) by exact Hacc.
  pose proof (reconnect_challenge_run hdr username _ [CommandReconnectProof :: R1 ++ R2 ++ rest] c0 [] eq_refl eq_refl Hh Hu eq_refl Hlen) as Hrun.
  assert (Hvalid : ReconnectChallengeValid (Username acc) R1 R2 sent (SessionKeyAuth acc) = true).
  { unfold ReconnectChallengeValid. rewrite Hkey, AppendBytes_concat. cbn [concat]. rewrite app_nil_r. by apply SameBytes_spec. }
  cbn [ListenAndProcess]. erewrite bind_run by exact Hrun. rewrite Hlook. erewrite bind_run.
  2:{ rewrite (reconnect_proof_run R1 R2 rest [R1 ++ R2 ++ rest] []);
        [|reflexivity|reflexivity|apply not_elem_of_nil|exact H1|apply sha1_length|exact Hr|reflexivity].
      cbn [account reconnectProof tape c0 NewAuthSession]. change (tape c0) with t. fold sent. rewrite Hvalid. reflexivity. }
  match goal with |- context [Sys ?c [] ?evs] => set (c1 := c); set (evs1 := evs) end.
  destruct (listen_end 0 c1 evs1 eq_refl) as (s' & Hend & Hst & Hev). cbn [ListenAndProcess] in Hend.
  exists s'. split; [exact Hend|]. rewrite Hst, Hev. by split_and!.
Qed.
End Runs.

(** ** Sample runs *)
#[local] Existing Instance sort_slice_insertion.
Definition same_bytes (a b : bytes) : bool := bool_decide (a = b).
(** One account, of the client with the private key 1, without a session key. *)
Definition bob : Account :=
  {| ID := 3; Username := [66; 79; 66]; Salt := replicate 32 9; Verifier := client_verifier 1; SessionKeyAuth := []; Locked := false; LastIP := [] |}.
Definition bobs_db : backends unit (docs_of GatewayServer) :=
  {| b_db := {| accounts := [bob]; realmlist := []; realmcharacters := [] |}; b_registry := two_gateways |}.
Definition zeros (n : nat) : bytes := replicate n 0.
Lemma zeros_bytes n : is_bytes (zeros n).
Proof. unfold zeros, is_bytes. apply Forall_replicate. done. Qed.
(** A client that reconnects as nobody. *)
Definition nobody : list bytes := [CommandReconnectChallenge :: challenge_bytes (zeros 32) [88]; CommandReconnectProof :: zeros 57].
Definition session_of (l : list bytes) : sys (AuthSession unit (docs_of GatewayServer)) bytes :=
  Sys (NewAuthSession l (zeros 40) bobs_db) [] [].

Lemma session_ends_witness :
  match ListenAndProcess same_bytes 100 (session_of [[CommandRealmList]; [7]]) with
  | (Ok _, _) => False
  | (Fail e, _) => e <> ErrOutOfFuel
  | (Panic, s') => (status (st s') = StatusReconnectProof /\ account (st s') = None) \/ (length (tape (st s')) < 32)%nat
  end.
Proof. apply (session_ends same_bytes _ [[CommandRealmList]; [7]] (zeros 40) bobs_db); [reflexivity|apply zeros_bytes|simpl; lia]. Defined.
Definition bobs_srp : SRP6 := NewSRP (take 32 (zeros 40)) (Username bob) (Salt bob) (Verifier bob).
Definition bobs_proof : bytes := let '(B, g, N, s) := DataForClient bobs_srp in client_M (Username bob) 2 1 B g N s.
Definition bobs_key : bytes := client_key 2 1 (srp_B bobs_srp).
#[local] Opaque NewSRP client_M client_key client_A bigIntToBytesLittleEndian.
Lemma honest_login_witness :
  exists s', ListenAndProcess same_bytes 3 (session_of
      [CommandLogonChallenge :: challenge_bytes (zeros 32) (Username bob); CommandLogonProof :: client_A 2 ++ bobs_proof ++ zeros 22]) =
      (Fail ErrRead, s') /\
    status (st s') = StatusAuthed /\ account (st s') = Some (with_key bobs_key bob) /\
    db_of (st s') = with_accounts (update_row (with_key bobs_key bob) <$> [bob]) (b_db bobs_db) /\
    last (events s') = Some ([CommandLogonProof; 0] ++ GetSessionVerifier (client_A 2) bobs_proof bobs_key ++
      u32_bytes 0x00800000 ++ u32_bytes 0 ++ u16_bytes 0).
Proof.
  assert (HA : wrap64 (_g ^ 2 mod _N) <> 0) by (vm_compute; discriminate).
  exact (honest_login same_bytes _ (zeros 40) bobs_db (zeros 32) (Username bob) bob 1 2 (zeros 22)
    eq_refl eq_refl ltac:(lia) ltac:(lia) HA (zeros_bytes 40) ltac:(simpl; lia) eq_refl ltac:(discriminate) eq_refl eq_refl).
Defined.
Lemma unknown_reconnect_panics_witness : exists s', ListenAndProcess same_bytes 2 (session_of nobody) = (Panic, s').
Proof. apply unknown_reconnect_panics; [reflexivity|simpl; lia|reflexivity|discriminate|reflexivity]. Defined.
Lemma keyless_account_open_witness :
  let sent := take 16 (zeros 40) in
  let R2 := sha1_Sum (Username bob ++ zeros 16 ++ sent) in
  exists s', ListenAndProcess same_bytes 3
    (session_of [CommandReconnectChallenge :: challenge_bytes (zeros 32) (Username bob); CommandReconnectProof :: zeros 16 ++ R2 ++ zeros 21]) =
      (Fail ErrRead, s') /\ status (st s') = StatusAuthed /\ account (st s') = Some bob /\
    events s' = [[CommandReconnectChallenge]; [AuthResultSuccess]; sent; version_challenge;
                 [CommandReconnectProof]; [AuthResultSuccess]; u16_bytes 0].
Proof. apply keyless_account_open; [reflexivity|reflexivity|simpl; lia|reflexivity|discriminate|reflexivity|reflexivity]. Defined.
