(* ===== verification/OnlineCharacters.v ===== *)
(** * OnlineCharacters: the characters that are in the game
    (apps/charserver/repo/online-characters.go, online-characters_inmem.go)

    Two indexes, by guid and by name in upper case, hold pointers to the same
    characters; the heap is explicit, so that an update through one index is
    seen through the other. *)
From stdpp Require Import pretty.
From S2P Require Import Prelude GoRuntime GoStrings.
From Stdlib Require Import Ascii.

(** ** strings *)
Definition upper_char (c : ascii) : ascii :=
  let n := nat_of_ascii c in if ((97 <=? n) && (n <=? 122))%nat then ascii_of_nat (n - 32) else c.
Fixpoint ToUpper (s : string) : string :=
  match s with
  | EmptyString => EmptyString
  | String c s => String (upper_char c) (ToUpper s)
  end.
Fixpoint Contains (s sub : string) : bool :=
  HasPrefix s sub || match s with EmptyString => false | String _ s => Contains s sub end.

Record Character := {
  RealmID : u32;
  GatewayID : string;
  CharGUID : u64;
  CharName : string;
  CharRace : u8;
  CharClass : u8;
  CharGender : u8;
  CharLevel : u8;
  CharZone : u32;
  CharMap : u32;
  CharPosX : u32;
  CharPosY : u32;
  CharPosZ : u32;
  CharGuildID : u32;
  AccountID : u32
}.
Definition with_place (zone : u32) (lvl : u8) (map : u32) (c : Character) : Character :=
  {| RealmID := RealmID c; GatewayID := GatewayID c; CharGUID := CharGUID c; CharName := CharName c; CharRace := CharRace c;
     CharClass := CharClass c; CharGender := CharGender c; CharLevel := lvl; CharZone := zone; CharMap := map;
     CharPosX := CharPosX c; CharPosY := CharPosY c; CharPosZ := CharPosZ c; CharGuildID := CharGuildID c; AccountID := AccountID c |}.

(** ** Events of the gateways (shared/events/events-gateway.go) *)

(** The payload of a login has the fields of a character. *)
Definition LoggedInPayload : Type := Character.
Record LoggedOutPayload := { lo_RealmID : u32; lo_GatewayID : string; lo_CharGUID : u64; lo_CharName : string; lo_CharGuildID : u32; lo_AccountID : u32 }.
Record CharacterUpdate := { u_ID : u64; u_Lvl : option u8; u_Map : option u32; u_Area : option u32; u_Zone : option u32 }.
Record CharactersUpdatesPayload := { us_RealmID : u32; us_GatewayID : string; us_Updates : list CharacterUpdate }.

Record CharactersWhoQuery := {
  LvlMin : u8;
  LvlMax : u8;
  ClassMask : u32;
  RaceMask : u32;
  Zones : list u32;
  Strings : list string
}.

(** ** The repository *)
Record online := {
  guidStorage : gmap u32 (gmap u64 nat);
  nameStorage : gmap u32 (gmap string nat);
  chars : gmap nat Character;
  next_char : nat
}.
Definition NewCharactersOnlineInMem : online := {| guidStorage := ∅; nameStorage := ∅; chars := ∅; next_char := 0 |}.

(** Lookup in the two levels of a map; a missing realm is a nil map. *)
Definition lookup2 {K V} `{Countable K} (m : gmap u32 (gmap K V)) (r : u32) (k : K) : option V := m !! r ≫= fun t => t !! k.
Definition delete2 {K V} `{Countable K} (m : gmap u32 (gmap K V)) (r : u32) (k : K) : gmap u32 (gmap K V) := alter (delete k) r m.
Definition insert2 {K V} `{Countable K} (m : gmap u32 (gmap K V)) (r : u32) (k : K) (v : V) : gmap u32 (gmap K V) := alter (insert k v) r m.

Definition with_storages (gs : gmap u32 (gmap u64 nat)) (ns : gmap u32 (gmap string nat)) (s : online) : online :=
  {| guidStorage := gs; nameStorage := ns; chars := chars s; next_char := next_char s |}.
Definition update_char (p : nat) (f : Character -> Character) (s : online) : online :=
  {| guidStorage := guidStorage s; nameStorage := nameStorage s; chars := alter f p (chars s); next_char := next_char s |}.

(** [character] is a new pointer of the caller. *)
Definition Add (character : Character) (s : online) : online :=
  let p := next_char s in
  let r := RealmID character in
  let missing := bool_decide (guidStorage s !! r = None) in
  let gs := if missing then <[r := ∅]> (guidStorage s) else guidStorage s in
  let ns := if missing then <[r := ∅]> (nameStorage s) else nameStorage s in
  {| guidStorage := insert2 gs r (CharGUID character) p; nameStorage := insert2 ns r (ToUpper (CharName character)) p;
     chars := <[p := character]> (chars s); next_char := S p |}.
Definition char_pointer (s : online) (realmID : u32) (guid : u64) : option nat := lookup2 (guidStorage s) realmID guid.
Definition OneByRealmAndGUID (s : online) (realmID : u32) (guid : u64) : option Character :=
  p ← char_pointer s realmID guid; chars s !! p.
Definition OneByRealmAndName (s : online) (realmID : u32) (name : string) : option Character :=
  p ← lookup2 (nameStorage s) realmID (ToUpper name); chars s !! p.
Definition Remove (realmID : u32) (guid : u64) (s : online) : online :=
  match OneByRealmAndGUID s realmID guid with
  | None => s
  | Some char =>
    with_storages (delete2 (guidStorage s) realmID guid) (delete2 (nameStorage s) realmID (ToUpper (CharName char))) s
  end.
(** [None] is a nil slice. *)
Definition CharactersByRealmAndGUIDs (s : online) (realmID : u32) (guids : list u64) : option (list Character) :=
  match guidStorage s !! realmID with
  | None => None
  | Some t => Some (omap (fun guid => p ← t !! guid; chars s !! p) guids)
  end.

Definition applyCharUpdate (c : Character) (upd : CharacterUpdate) : Character :=
  with_place (default (CharZone c) (u_Zone upd)) (default (CharLevel c) (u_Lvl upd)) (default (CharMap c) (u_Map upd)) c.
Definition apply_update (realmID : u32) (s : online) (upd : CharacterUpdate) : online :=
  match char_pointer s realmID (u_ID upd) with
  | Some p => update_char p (fun c => applyCharUpdate c upd) s
  | None => s
  end.
Definition HandleCharactersUpdates (payload : CharactersUpdatesPayload) (s : online) : online :=
  foldl (apply_update (us_RealmID payload)) s (us_Updates payload).
Definition HandleCharacterLoggedIn (payload : LoggedInPayload) (s : online) : online := Add payload s.
Definition HandleCharacterLoggedOut (payload : LoggedOutPayload) (s : online) : online :=
  Remove (lo_RealmID payload) (lo_CharGUID payload) s.

Section Ranges.
Context `{MapRange}.
Definition realm_table (s : online) (realmID : u32) : gmap u64 nat := default ∅ (guidStorage s !! realmID).
Definition AllGUIDsByRealm (s : online) (realmID : u32) : list u64 := (go_range 0 (realm_table s realmID)).*1.
Definition on_gateway (s : online) (gatewayID : string) (e : u64 * nat) : bool :=
  bool_decide (GatewayID <$> chars s !! e.2 = Some gatewayID).
Definition remove_char (realmID : u32) (s : online) (guid : u64) : online :=
  match OneByRealmAndGUID s realmID guid with
  | None => s
  | Some char =>
    with_storages (delete2 (guidStorage s) realmID guid) (delete2 (nameStorage s) realmID (ToUpper (CharName char))) s
  end.
Definition RemoveAllWithGatewayID (realmID : u32) (gatewayID : string) (s : online) : list u64 * online :=
  let charsToDelete := (filter (fun e => on_gateway s gatewayID e = true) (go_range 1 (realm_table s realmID))).*1 in
  (charsToDelete, foldl (remove_char realmID) s charsToDelete).

(** Zones are compared with the positions of the query's list. *)
Fixpoint zone_loop (zone : u32) (i : nat) (n : nat) (showZones : bool) : bool :=
  match n with
  | O => showZones
  | S n => if zone =? wrap32 (Z.of_nat i) then true else zone_loop zone (S i) n false
  end.
Definition show_name (c : Character) (strings : list string) : bool :=
  existsb (fun s => Contains (ToLower (CharName c)) (ToLower s)) strings.
Definition who_match (realmID : u32) (query : CharactersWhoQuery) (c : Character) : bool :=
  if negb (realmID =? RealmID c) then false
  else if (LvlMax query <? CharLevel c) || (CharLevel c <? LvlMin query) then false
  else if Z.land (RaceMask query) (wrap32 (Z.shiftl 1 (CharRace c))) =? 0 then false
  else if Z.land (ClassMask query) (wrap32 (Z.shiftl 1 (CharClass c))) =? 0 then false
  else if negb (zone_loop (CharZone c) 0 (length (Zones query)) true) then false
  else if (0 <? length (Strings query))%nat && negb (show_name c (Strings query)) then false
  else true.
Definition WhoRequest (s : online) (requesterRealmID : u32) (query : CharactersWhoQuery) : list Character :=
  filter (fun c => who_match requesterRealmID query c = true)
    (omap (fun e => chars s !! e.2) (go_range 2 (realm_table s requesterRealmID))).
End Ranges.

(** ** Refinement of a map from realm and guid to the character *)
Section Refinement.
Context `{MapRange}.
Inductive char_op :=
| LogIn (payload : LoggedInPayload)
| LogOut (payload : LoggedOutPayload)
| Updates (payload : CharactersUpdatesPayload)
| GatewayGone (realmID : u32) (gatewayID : string).
Definition run_op (op : char_op) (s : online) : online :=
  match op with
  | LogIn payload => HandleCharacterLoggedIn payload s
  | LogOut payload => HandleCharacterLoggedOut payload s
  | Updates payload => HandleCharactersUpdates payload s
  | GatewayGone r gw => (RemoveAllWithGatewayID r gw s).2
  end.
Abbreviation present := (gmap (u32 * u64) Character).
Definition spec_update (r : u32) (m : present) (upd : CharacterUpdate) : present := alter (fun c => applyCharUpdate c upd) (r, u_ID upd) m.
Definition spec_op (op : char_op) (m : present) : present :=
  match op with
  | LogIn c => <[(RealmID c, CharGUID c) := c]> m
  | LogOut p => delete (lo_RealmID p, lo_CharGUID p) m
  | Updates p => foldl (spec_update (us_RealmID p)) m (us_Updates p)
  | GatewayGone r gw => filter (fun e => ~ (e.1.1 = r /\ GatewayID e.2 = gw)) m
  end.

(** Names identify characters: [who r g] is the name of a guid, in upper case. *)
Variable who : u32 -> u64 -> string.
Definition named (c : Character) : Prop := ToUpper (CharName c) = who (RealmID c) (CharGUID c).
Definition op_named (op : char_op) : Prop := match op with LogIn c => named c | _ => True end.
Hypothesis who_inj : forall r g g', who r g = who r g' -> g = g'.

Record simulates (m : present) (s : online) : Prop := {
  si_guid : forall r g, OneByRealmAndGUID s r g = m !! (r, g);
  si_keys : forall r g c, m !! (r, g) = Some c -> RealmID c = r /\ CharGUID c = g /\ named c;
  si_live : forall r g p, char_pointer s r g = Some p -> is_Some (chars s !! p) /\ (p < next_char s)%nat;
  si_inj : forall r g r' g' p, char_pointer s r g = Some p -> char_pointer s r' g' = Some p -> r = r' /\ g = g';
  si_name : forall r n p, lookup2 (nameStorage s) r n = Some p <-> exists g, char_pointer s r g = Some p /\ who r g = n;
  si_realms : forall r, guidStorage s !! r = None <-> nameStorage s !! r = None
}.

Lemma lookup2_insert2 {K V} `{Countable K} (t : gmap u32 (gmap K V)) r k (v : V) r' k' : is_Some (t !! r) ->
  lookup2 (insert2 t r k v) r' k' = if decide (r = r' /\ k = k') then Some v else lookup2 t r' k'.
Proof.
  intros [x Hx]. unfold lookup2, insert2. destruct (decide (r = r')) as [->|Hr].
  - rewrite lookup_alter_eq, Hx. simpl. destruct (decide (k = k')) as [->|Hk].
    + by rewrite lookup_insert_eq, decide_True.
    + rewrite lookup_insert_ne by done. rewrite decide_False by naive_solver. done.
  - rewrite lookup_alter_ne by done. by rewrite decide_False by naive_solver.
Qed.
Lemma lookup2_delete2 {K V} `{Countable K} (t : gmap u32 (gmap K V)) r k r' k' :
  lookup2 (delete2 t r k) r' k' = if decide (r = r' /\ k = k') then None else lookup2 t r' k'.
Proof.
  unfold lookup2, delete2. destruct (decide (r = r')) as [->|Hr].
  - rewrite lookup_alter_eq. destruct (t !! r') as [x|]; simpl; [|by case_decide]. destruct (decide (k = k')) as [->|Hk].
    + by rewrite lookup_delete_eq, decide_True.
    + rewrite lookup_delete_ne by done. rewrite decide_False by naive_solver. done.
  - rewrite lookup_alter_ne by done. by rewrite decide_False by naive_solver.
Qed.
Lemma lookup2_fresh {K V} `{Countable K} (t : gmap u32 (gmap K V)) r r' k : t !! r = None -> lookup2 (<[r := ∅]> t) r' k = lookup2 t r' k.
Proof.
  intros Ht. unfold lookup2. destruct (decide (r = r')) as [->|Hr].
  - rewrite lookup_insert_eq, Ht. simpl. apply lookup_empty.
  - by rewrite lookup_insert_ne.
Qed.

Lemma empty_simulates : simulates ∅ NewCharactersOnlineInMem.
Proof.
  split; try done. intros r n p. split; [done|]. intros (g & Hg & _). done.
Qed.
Lemma Add_pointers c s m r g : simulates m s ->
  char_pointer (Add c s) r g = if decide (RealmID c = r /\ CharGUID c = g) then Some (next_char s) else char_pointer s r g.
Proof.
  intros Hs. unfold char_pointer, Add; cbn. case_bool_decide as Hr.
  - rewrite lookup2_insert2 by (by rewrite lookup_insert_eq; eexists). by rewrite lookup2_fresh.
  - rewrite lookup2_insert2; [done|]. by destruct (guidStorage s !! RealmID c); [eexists|].
Qed.
Lemma Add_names c s m r n : simulates m s ->
  lookup2 (nameStorage (Add c s)) r n = if decide (RealmID c = r /\ ToUpper (CharName c) = n) then Some (next_char s) else lookup2 (nameStorage s) r n.
Proof.
  intros Hs. unfold Add; cbn. case_bool_decide as Hr.
  - rewrite lookup2_insert2 by (by rewrite lookup_insert_eq; eexists). rewrite lookup2_fresh; [done|]. by apply (si_realms m s Hs).
  - rewrite lookup2_insert2; [done|]. destruct (nameStorage s !! RealmID c) eqn:E; [by eexists|]. by apply (si_realms m s Hs) in E.
Qed.
Lemma Add_simulates c s m : named c -> simulates m s -> simulates (<[(RealmID c, CharGUID c) := c]> m) (Add c s).
Proof.
  intros Hn Hs. pose proof (si_live m s Hs) as Hl. split.
  - intros r g. unfold OneByRealmAndGUID. rewrite (Add_pointers c s m) by done. rewrite lookup_insert.
    destruct (decide (RealmID c = r /\ CharGUID c = g)) as [[-> ->]|Hne].
    + rewrite decide_True by done. cbn. by rewrite lookup_insert_eq.
    + rewrite decide_False by (intros [=]; tauto). rewrite <- (si_guid m s Hs). unfold OneByRealmAndGUID.
      destruct (char_pointer s r g) as [p|] eqn:E; [|done]. cbn. destruct (Hl r g p E). by rewrite lookup_insert_ne by lia.
  - intros r g c'. rewrite lookup_insert. case_decide as E; [intros [= ->]; by injection E as -> ->|apply (si_keys m s Hs)].
  - intros r g p. rewrite (Add_pointers c s m) by done. cbn. case_decide; [intros [= <-]|intros Hp; destruct (Hl r g p Hp)];
      (split; [|lia]); [rewrite lookup_insert_eq; by eexists|by rewrite lookup_insert_ne by lia].
  - intros r g r' g' p. rewrite !(Add_pointers c s m) by done. repeat case_decide.
    + intros _ _. naive_solver.
    + intros [= <-] Hp. destruct (Hl _ _ _ Hp). lia.
    + intros Hp [= <-]. destruct (Hl _ _ _ Hp). lia.
    + apply (si_inj m s Hs).
  - intros r n p. rewrite (Add_names c s m) by done. split.
    + case_decide as E; [intros [= <-]|intros Hp].
      * destruct E as [<- <-]. exists (CharGUID c). rewrite (Add_pointers c s m) by done. by rewrite decide_True.
      * apply (si_name m s Hs) in Hp as (g & Hg & Hw). exists g. rewrite (Add_pointers c s m) by done. split; [|done].
        rewrite decide_False; [done|]. intros [<- <-]. apply E. by rewrite <- Hw.
    + intros (g & Hg & <-). rewrite (Add_pointers c s m) in Hg by done. case_decide as E.
      * destruct E as [<- <-]. by rewrite decide_True.
      * rewrite decide_False; [apply (si_name m s Hs); by exists g|]. intros [<- Hw]. apply E. split; [done|]. unfold named in Hn.
        rewrite Hn in Hw. by apply who_inj in Hw.
  - intros r. unfold Add; cbn. unfold insert2. rewrite !lookup_alter_None. case_bool_decide; [|apply (si_realms m s Hs)].
    rewrite !lookup_insert_None. pose proof (si_realms m s Hs r). naive_solver.
Qed.

Lemma simulates_char m s r g p c : simulates m s -> char_pointer s r g = Some p -> chars s !! p = Some c -> m !! (r, g) = Some c.
Proof. intros Hs Hp Hc. rewrite <- (si_guid m s Hs). unfold OneByRealmAndGUID. by rewrite Hp. Qed.
Lemma Remove_simulates r g s m : simulates m s -> simulates (delete (r, g) m) (Remove r g s).
Proof.
  intros Hs. unfold Remove. rewrite (si_guid m s Hs). destruct (m !! (r, g)) as [c|] eqn:Ec.
  2:{ by rewrite delete_id. }
  destruct (si_keys m s Hs r g c Ec) as (Hr & Hg & Hn). unfold named in Hn. rewrite Hn, Hr, Hg.
  assert (Hp : forall r' g', char_pointer (with_storages (delete2 (guidStorage s) r g) (delete2 (nameStorage s) r (who r g)) s) r' g' =
    if decide (r = r' /\ g = g') then None else char_pointer s r' g') by (intros r' g'; apply lookup2_delete2).
  split.
  - intros r' g'. unfold OneByRealmAndGUID. rewrite Hp. rewrite lookup_delete. case_decide as E.
    + destruct E as [-> ->]. by rewrite decide_True.
    + rewrite decide_False by (intros [=]; tauto). apply (si_guid m s Hs).
  - intros r' g' c' Hc'. apply lookup_delete_Some in Hc' as [_ Hc']. by apply (si_keys m s Hs).
  - intros r' g' p. rewrite Hp. case_decide; [done|]. apply (si_live m s Hs).
  - intros r1 g1 r2 g2 p. rewrite !Hp. repeat case_decide; try done. apply (si_inj m s Hs).
  - intros r' n p. cbn [nameStorage with_storages]. rewrite lookup2_delete2. split.
    + case_decide as E; [done|]. intros Hq. apply (si_name m s Hs) in Hq as (g' & Hq & Hw). exists g'. rewrite Hp.
      split; [|done]. rewrite decide_False; [done|]. intros [<- <-]. by apply E.
    + intros (g' & Hq & Hw). rewrite Hp in Hq. case_decide as E; [done|]. rewrite decide_False.
      * apply (si_name m s Hs). by exists g'.
      * intros [<- Hw']. apply E. split; [done|]. rewrite <- Hw in Hw'. by apply who_inj in Hw'.
  - intros r'. cbn [nameStorage guidStorage with_storages]. unfold delete2. rewrite !lookup_alter_None. apply (si_realms m s Hs).
Qed.
Lemma apply_update_simulates r upd s m : simulates m s -> simulates (spec_update r m upd) (apply_update r s upd).
Proof.
  intros Hs. unfold apply_update, spec_update. destruct (char_pointer s r (u_ID upd)) as [p|] eqn:Ep.
  2:{ assert (Hm : m !! (r, u_ID upd) = None) by (rewrite <- (si_guid m s Hs); unfold OneByRealmAndGUID; by rewrite Ep).
      rewrite alter_id; [done|]. intros x Hx. by rewrite Hx in Hm. }
  destruct (si_live m s Hs _ _ _ Ep) as [[c Hc] _].
  assert (Hsame : forall r' g', char_pointer (update_char p (fun c => applyCharUpdate c upd) s) r' g' = char_pointer s r' g') by done.
  split.
  - intros r' g'. unfold OneByRealmAndGUID. rewrite Hsame. destruct (decide ((r, u_ID upd) = (r', g'))) as [E|E].
    + inversion E; subst r' g'. rewrite Ep, lookup_alter_eq, <- (si_guid m s Hs). unfold OneByRealmAndGUID. rewrite Ep. cbn. by rewrite lookup_alter_eq.
    + rewrite lookup_alter_ne by done. rewrite <- (si_guid m s Hs). unfold OneByRealmAndGUID. destruct (char_pointer s r' g') as [q|] eqn:Eq; [|done].
      cbn. rewrite lookup_alter_ne; [done|]. intros <-. destruct (si_inj m s Hs _ _ _ _ _ Ep Eq); congruence.
  - intros r' g' c' Hc'. apply lookup_alter_Some in Hc' as [(E & c0 & Hc0 & ->)|[_ Hc']]; [|by apply (si_keys m s Hs)].
    inversion E; subst r' g'. exact (si_keys m s Hs _ _ _ Hc0).
  - intros r' g' q Hq. rewrite Hsame in Hq. destruct (si_live m s Hs _ _ _ Hq) as [Hl Hlt]. split; [|done]. cbn.
    by apply lookup_alter_is_Some.
  - intros r1 g1 r2 g2 q. rewrite !Hsame. apply (si_inj m s Hs).
  - exact (si_name m s Hs).
  - exact (si_realms m s Hs).
Qed.
Lemma updates_simulate r us : forall s m, simulates m s -> simulates (foldl (spec_update r) m us) (foldl (apply_update r) s us).
Proof. induction us as [|u us IH]; intros s m Hs; [done|]. cbn [foldl]. by apply IH, apply_update_simulates. Qed.

Lemma removals_simulate r gs : forall s m, simulates m s ->
  simulates (foldl (fun m g => delete (r, g) m) m gs) (foldl (remove_char r) s gs).
Proof. induction gs as [|g gs IH]; intros s m Hs; [done|]. cbn [foldl]. by apply IH, Remove_simulates. Qed.
Lemma lookup_deletes {V} r gs : forall (m : gmap (u32 * u64) V) k,
  foldl (fun m g => delete (r, g) m) m gs !! k = if decide (k.1 = r /\ k.2 ∈ gs) then None else m !! k.
Proof.
  induction gs as [|g gs IH]; intros m [r' g']; cbn [foldl fst snd].
  - rewrite decide_False; [done|]. intros [_ Hin]. by apply elem_of_nil in Hin.
  - rewrite IH. cbn [fst snd]. rewrite lookup_delete. repeat case_decide; try done; set_solver.
Qed.
(** The characters that a lost gateway takes with it. *)
Lemma elem_of_lost r gw s m g : simulates m s ->
  g ∈ (RemoveAllWithGatewayID r gw s).1 <-> exists c, m !! (r, g) = Some c /\ GatewayID c = gw.
Proof.
  intros Hs. unfold RemoveAllWithGatewayID. cbn [fst]. rewrite list_elem_of_fmap.
  assert (Hptr : forall p, (g, p) ∈ go_range 1 (realm_table s r) <-> char_pointer s r g = Some p).
  { intros p. rewrite elem_of_go_range. unfold realm_table, char_pointer, lookup2. by destruct (guidStorage s !! r). }
  split.
  - intros ([g' p] & Hg & He). cbn in Hg. subst g'. apply list_elem_of_filter in He as [Hgw He]. apply Hptr in He.
    unfold on_gateway in Hgw. apply bool_decide_eq_true in Hgw. cbn in Hgw. destruct (chars s !! p) as [c|] eqn:Ec; [|done]. injection Hgw as Hgw.
    exists c. split; [by eapply simulates_char|done].
  - intros (c & Hc & Hgw). rewrite <- (si_guid m s Hs) in Hc. unfold OneByRealmAndGUID in Hc. apply bind_Some in Hc as (p & Hp & Hc).
    exists (g, p). split; [done|]. apply list_elem_of_filter. split; [|by apply Hptr]. unfold on_gateway. apply bool_decide_eq_true. cbn. by rewrite Hc, <- Hgw.
Qed.
Lemma RemoveAll_simulates r gw s m : simulates m s -> simulates (spec_op (GatewayGone r gw) m) (RemoveAllWithGatewayID r gw s).2.
Proof.
  intros Hs. pose proof (fun g => elem_of_lost r gw s m g Hs) as Hl.
  assert (Hm : spec_op (GatewayGone r gw) m = foldl (fun m g => delete (r, g) m) m (RemoveAllWithGatewayID r gw s).1).
  { apply map_eq. intros [r' g']. rewrite lookup_deletes. cbn [spec_op fst snd]. destruct (m !! (r', g')) as [c|] eqn:Ec.
    - case_decide as E.
      + destruct E as [-> Hin]. apply Hl in Hin as (c' & Hc' & Hgw). rewrite Ec in Hc'. injection Hc' as <-.
        apply map_lookup_filter_None. right. intros x Hx. rewrite Ec in Hx. injection Hx as <-. cbn. tauto.
      + apply map_lookup_filter_Some. split; [done|]. cbn. intros [-> Hgw]. apply E. split; [done|]. apply Hl. by exists c.
    - case_decide; apply map_lookup_filter_None; by left. }
  rewrite Hm. unfold RemoveAllWithGatewayID. cbn [fst snd]. by apply removals_simulate.
Qed.
Lemma run_op_simulates op s m : op_named op -> simulates m s -> simulates (spec_op op m) (run_op op s).
Proof.
  intros Hn Hs. destruct op as [c|p|p|r gw]; cbn [run_op]; [by apply Add_simulates|by apply Remove_simulates|by apply updates_simulate|by apply RemoveAll_simulates].
Qed.
Definition run_ops (ops : list char_op) (s : online) : online := foldl (fun s op => run_op op s) s ops.
Definition spec_ops (ops : list char_op) (m : present) : present := foldl (fun m op => spec_op op m) m ops.
Lemma run_ops_simulate ops : forall s m, Forall op_named ops -> simulates m s -> simulates (spec_ops ops m) (run_ops ops s).
Proof.
  induction ops as [|op ops IH]; intros s m Hn Hs; [done|]. apply Forall_cons in Hn as [Ho Hn]. apply IH; [done|]. by apply run_op_simulates.
Qed.
Lemma simulates_by_name m s r n c : simulates m s ->
  OneByRealmAndName s r n = Some c <-> exists g, m !! (r, g) = Some c /\ ToUpper (CharName c) = ToUpper n.
Proof.
  intros Hs. unfold OneByRealmAndName. split.
  - intros Hc. apply bind_Some in Hc as (p & Hp & Hc). apply (si_name m s Hs) in Hp as (g & Hp & Hw). exists g.
    pose proof (simulates_char m s r g p c Hs Hp Hc) as Hm. split; [done|]. destruct (si_keys m s Hs r g c Hm) as (Hr & Hg & Hn).
    unfold named in Hn. by rewrite Hn, Hr, Hg.
  - intros (g & Hm & Hn). destruct (si_keys m s Hs r g c Hm) as (Hr & Hg & Hnm). unfold named in Hnm. rewrite Hr, Hg in Hnm.
    rewrite <- (si_guid m s Hs) in Hm. unfold OneByRealmAndGUID in Hm. apply bind_Some in Hm as (p & Hp & Hc).
    assert (lookup2 (nameStorage s) r (ToUpper n) = Some p) as -> by (apply (si_name m s Hs); exists g; split; [done|congruence]). done.
Qed.

(** ** Who *)
Lemma mask_bit m i : in_range 32 m -> (Z.land m (wrap32 (Z.shiftl 1 i)) =? 0) = negb (Z.testbit m i).
Proof.
  intros Hm. destruct (Z.leb_spec 0 i) as [Hi|Hi].
  - destruct (Z.ltb_spec i 32) as [Hlt|Hge].
    + rewrite wrap_small; [by apply land_bit|]. rewrite Z.shiftl_1_l. split; [by apply Z.pow_nonneg|]. apply Z.pow_lt_mono_r; lia.
    + rewrite (testbit_above 32 m i) by (done || lia). rewrite Z.shiftl_1_l. unfold wrap.
      replace i with (32 + (i - 32)) by lia. rewrite Z.pow_add_r by lia. rewrite Z.mul_comm, Z.mod_mul by lia. by rewrite Z.land_0_r.
  - rewrite Z.testbit_neg_r by done. rewrite Z.shiftl_div_pow2 by lia. rewrite Z.div_small; [by rewrite Z.land_0_r|].
    split; [lia|]. apply Z.pow_gt_1; lia.
Qed.
Lemma zone_loop_true zone n : forall i b, Z.of_nat (i + n) <= 2 ^ 32 ->
  zone_loop zone i n b = true <-> (n = 0%nat /\ b = true) \/ Z.of_nat i <= zone < Z.of_nat (i + n).
Proof.
  induction n as [|n IH]; intros i b Hn; cbn [zone_loop].
  - split; [intros Hb; by left|]. intros [[_ Hb]|Hz]; [done|lia].
  - rewrite wrap_small by (unfold in_range; lia). destruct (Z.eqb_spec zone (Z.of_nat i)) as [->|Hne].
    + split; [intros _; right; lia|done].
    + rewrite IH by lia. split; [intros [[_ ?]|Hz]; [done|right; lia]|]. intros [[? _]|Hz]; [done|right; lia].
Qed.
(** The characters a query is about; by zone it asks for the zones below the
    number of zones in the query, if there are any. *)
Definition wanted (realmID : u32) (q : CharactersWhoQuery) (c : Character) : Prop :=
  RealmID c = realmID /\ LvlMin q <= CharLevel c <= LvlMax q /\
  Z.testbit (RaceMask q) (CharRace c) = true /\ Z.testbit (ClassMask q) (CharClass c) = true /\
  (Zones q = [] \/ 0 <= CharZone c < len (Zones q)) /\
  (Strings q = [] \/ exists str, str ∈ Strings q /\ Contains (ToLower (CharName c)) (ToLower str) = true).
Definition query_ok (q : CharactersWhoQuery) : Prop :=
  in_range 32 (RaceMask q) /\ in_range 32 (ClassMask q) /\ len (Zones q) <= 2 ^ 32.
Lemma who_match_spec r q c : query_ok q -> who_match r q c = true <-> wanted r q c.
Proof.
  intros (Hr & Hcl & Hz). unfold who_match, wanted. rewrite !mask_bit by done.
  assert (Hzone : zone_loop (CharZone c) 0 (length (Zones q)) true = true <-> Zones q = [] \/ 0 <= CharZone c < len (Zones q)).
  { unfold len in *. rewrite zone_loop_true by lia. cbn. split.
    - intros [[Hn _]|?]; [left; by apply length_zero_iff_nil|by right].
    - intros [->|?]; [by left|by right]. }
  assert (Hname : (0 <? length (Strings q))%nat && negb (show_name c (Strings q)) = false <->
    Strings q = [] \/ exists str, str ∈ Strings q /\ Contains (ToLower (CharName c)) (ToLower str) = true).
  { rewrite andb_false_iff, negb_false_iff. unfold show_name. rewrite existsb_exists. setoid_rewrite list_elem_of_In.
    destruct (Strings q) as [|x l]; cbn; [tauto|]. split; [intros [?|?]; [done|by right]|intros [?|?]; [done|by right]]. }
  destruct (Z.eqb_spec r (RealmID c)) as [->|Hne]; cbn [negb]; [|split; [done|intros (? & _); congruence]].
  destruct ((LvlMax q <? CharLevel c) || (CharLevel c <? LvlMin q)) eqn:El.
  { apply orb_true_iff in El. rewrite !Z.ltb_lt in El. split; [done|]. intros (_ & ? & _). lia. }
  apply orb_false_iff in El. rewrite !Z.ltb_ge in El.
  destruct (Z.testbit (RaceMask q) (CharRace c)); cbn [negb]; [|split; [done|tauto]].
  destruct (Z.testbit (ClassMask q) (CharClass c)); cbn [negb]; [|split; [done|tauto]].
  destruct (zone_loop (CharZone c) 0 (length (Zones q)) true); cbn [negb].
  2:{ split; [done|]. intros (_ & _ & _ & _ & Hx & _). by apply Hzone in Hx. }
  destruct ((0 <? length (Strings q))%nat && _).
  - split; [done|]. intros (_ & _ & _ & _ & _ & Hx). by apply Hname in Hx.
  - split; [|done]. intros _. split_and!; try done; [lia|lia|by apply Hzone|by apply Hname].
Qed.
Lemma elem_of_who m s r q c : simulates m s -> query_ok q -> c ∈ WhoRequest s r q <-> (exists g, m !! (r, g) = Some c) /\ wanted r q c.
Proof.
  intros Hs Hq. unfold WhoRequest. rewrite list_elem_of_filter, who_match_spec by done.
  assert (Hin : c ∈ omap (fun e => chars s !! e.2) (go_range 2 (realm_table s r)) <-> exists g, m !! (r, g) = Some c); [|tauto].
  rewrite list_elem_of_omap. split.
  - intros ([g p] & He & Hc). apply elem_of_go_range in He. exists g. eapply simulates_char; [done| |exact Hc].
    unfold realm_table in He. unfold char_pointer, lookup2. by destruct (guidStorage s !! r).
  - intros (g & Hm). rewrite <- (si_guid m s Hs) in Hm. unfold OneByRealmAndGUID in Hm. apply bind_Some in Hm as (p & Hp & Hc).
    exists (g, p). split; [|done]. apply elem_of_go_range. unfold realm_table. unfold char_pointer, lookup2 in Hp. by destruct (guidStorage s !! r).
Qed.

(** The online characters are one map from realm and guid, whatever the
    gateways report and in whatever order: logins insert, logouts delete,
    updates change the character under both of its keys, a lost gateway takes
    exactly its own characters, and a name finds the one character that bears
    it, in any case.  Names identify characters. *)
Theorem online_refines ops (Hn : Forall op_named ops) :
  let s := run_ops ops NewCharactersOnlineInMem in
  let m := spec_ops ops ∅ in
  (forall r g, OneByRealmAndGUID s r g = m !! (r, g)) /\
  (forall r n c, OneByRealmAndName s r n = Some c <-> exists g, m !! (r, g) = Some c /\ ToUpper (CharName c) = ToUpper n) /\
  (forall r g, g ∈ AllGUIDsByRealm s r <-> is_Some (m !! (r, g))).
Proof.
  intros s m. assert (Hs : simulates m s) by (by apply run_ops_simulate, empty_simulates).
  split; [apply (si_guid m s Hs)|]. split; [intros r n c; by apply simulates_by_name|].
  intros r g. rewrite <- (si_guid m s Hs). unfold AllGUIDsByRealm, OneByRealmAndGUID. rewrite list_elem_of_fmap. split.
  - intros ([g' p] & -> & He). apply elem_of_go_range in He. cbn. assert (Hp : char_pointer s r g' = Some p).
    { unfold realm_table in He. unfold char_pointer, lookup2. by destruct (guidStorage s !! r). }
    rewrite Hp. cbn. by apply (si_live m s Hs r g').
  - intros [c Hc]. apply bind_Some in Hc as (p & Hp & Hc). exists (g, p). split; [done|]. apply elem_of_go_range.
    unfold realm_table. unfold char_pointer, lookup2 in Hp. by destruct (guidStorage s !! r).
Qed.

(** A who query answers with exactly the characters of the realm that it
    describes by level, race, class and name; by zone it selects the wrong
    ones: a character passes when the number of its zone is below the number
    of zones asked for, because the loop compares it with the positions of the
    list. *)
Theorem who_exact ops r q (Hn : Forall op_named ops) (Hq : query_ok q) c :
  let s := run_ops ops NewCharactersOnlineInMem in
  let m := spec_ops ops ∅ in
  c ∈ WhoRequest s r q <-> (exists g, m !! (r, g) = Some c) /\ wanted r q c.
Proof. intros s m. apply elem_of_who; [|done]. by apply run_ops_simulate, empty_simulates. Qed.
End Refinement.

(** ** Samples *)
#[local] Existing Instance map_range_canonical.
Definition sample_char (guid : u64) (name : string) (zone : u32) (gw : string) : Character :=
  {| RealmID := 1; GatewayID := gw; CharGUID := guid; CharName := name; CharRace := 1; CharClass := 2; CharGender := 0; CharLevel := 30;
     CharZone := zone; CharMap := 0; CharPosX := 0; CharPosY := 0; CharPosZ := 0; CharGuildID := 0; AccountID := 9 |}.
(** Character 1 is Ann, character 2 is N2, and so on. *)
Definition sample_who (r : u32) (g : u64) : string := if g =? 1 then "ANN" else "N" +:+ fmt_d g.
Definition sample_ops : list char_op :=
  [LogIn (sample_char 1 "Ann" 12 "gw1"); LogIn (sample_char 2 "n2" 0 "gw2");
   Updates {| us_RealmID := 1; us_GatewayID := "gw1"; us_Updates := [{| u_ID := 1; u_Lvl := Some 31; u_Map := None; u_Area := None; u_Zone := None |}] |}].
Lemma sample_who_inj r g g' : sample_who r g = sample_who r g' -> g = g'.
Proof.
  assert (Hd : forall x, "ANN" <> "N" +:+ fmt_d x) by (intros x; rewrite append_String; discriminate).
  unfold sample_who. repeat case_match; try lia; intros E; [by apply Hd in E|by symmetry in E; apply Hd in E|].
  apply append_inv_head in E. exact (inj pretty _ _ E).
Qed.
Lemma sample_ops_named : Forall (op_named sample_who) sample_ops.
Proof. repeat constructor. Qed.
Lemma online_refines_witness :
  let s := run_ops sample_ops NewCharactersOnlineInMem in
  let m := spec_ops sample_ops ∅ in
  (forall r g, OneByRealmAndGUID s r g = m !! (r, g)) /\
  (forall r n c, OneByRealmAndName s r n = Some c <-> exists g, m !! (r, g) = Some c /\ ToUpper (CharName c) = ToUpper n) /\
  (forall r g, g ∈ AllGUIDsByRealm s r <-> is_Some (m !! (r, g))).
Proof. apply (online_refines sample_who sample_who_inj). exact sample_ops_named. Defined.
(** Asked for zone 12, the query finds the character of zone 0. *)
Definition sample_query : CharactersWhoQuery :=
  {| LvlMin := 1; LvlMax := 80; ClassMask := 4; RaceMask := 2; Zones := [12]; Strings := [] |}.
Lemma who_exact_witness :
  let s := run_ops sample_ops NewCharactersOnlineInMem in
  let m := spec_ops sample_ops ∅ in
  (CharZone <$> WhoRequest s 1 sample_query) = [0] /\
  (sample_char 2 "n2" 0 "gw2" ∈ WhoRequest s 1 sample_query <->
    (exists g, m !! (1, g) = Some (sample_char 2 "n2" 0 "gw2")) /\ wanted 1 sample_query (sample_char 2 "n2" 0 "gw2")).
Proof.
  split; [vm_compute; reflexivity|]. apply (who_exact sample_who sample_who_inj); [exact sample_ops_named|]. by vm_compute.
Defined.
