(* ===== verification/Friends.v ===== *)
(** * Friends: friends and ignored players
    (apps/charserver/service/friends.go, friends-cache.go, the social part of
    apps/charserver/repo/characters_mysql.go, shared/events/events-friends.go)

    The table character_social of each realm is a list of rows; a realm
    without a database has a nil statement, which panics.  The cache of online
    players is fed by the events of the gateways. *)
From S2P Require Import Prelude GoRuntime GoStrings Safety OnlineCharacters.

Definition SocialFlagFriend : u8 := 0x01.
Definition SocialFlagIgnore : u8 := 0x02.
Record FriendEntry := { PlayerGUID : u64; FriendGUID : u64; Flags : u8; Note : string }.
Record OnlinePlayerInfo := { oi_GUID : u64; oi_Level : u32; oi_Class : u32; oi_Area : u32; oi_Status : u8 }.

Definition MaxFriendsLimit : int := 50.
Definition MaxIgnoreLimit : int := 50.
Definition FriendResultListFull : u32 := 0x01.
Definition FriendResultAddedOnline : u32 := 0x06.
Definition FriendResultAddedOffline : u32 := 0x07.
Definition FriendResultAlready : u32 := 0x08.
Definition FriendResultSelf : u32 := 0x09.
Definition FriendResultIgnoreSelf : u32 := 0x0B.
Definition FriendResultIgnoreAlready : u32 := 0x0D.
Definition FriendResultIgnoreAdded : u32 := 0x0E.
Definition FriendResultIgnoreFull : u32 := 0x10.

Record FriendInfo := { fi_GUID : u64; fi_Note : string; fi_Status : u8; fi_Area : u32; fi_Level : u32; fi_ClassID : u32 }.
Record FriendsList := { Friends : list FriendInfo; Ignored : list u64 }.
Record AddFriendResult := { ar_Result : u32; ar_Status : u8; ar_Area : u32; ar_Level : u32; ar_ClassID : u32 }.
Definition result_only (r : u32) : AddFriendResult := {| ar_Result := r; ar_Status := 0; ar_Area := 0; ar_Level := 0; ar_ClassID := 0 |}.

Inductive friend_event :=
| FriendEventStatusChange (RealmID : u32) (PlayerGUID : u64) (Status : u8) (Area Level ClassID : u32) (NotifyPlayers : list u64)
| FriendEventAdded (RealmID : u32) (PlayerGUID FriendGUID : u64) (FriendName Note : string)
| FriendEventRemoved (RealmID : u32) (PlayerGUID FriendGUID : u64)
| FriendEventNoteUpdate (RealmID : u32) (PlayerGUID FriendGUID : u64) (Note : string)
| CharEventCharsDisconnectedUnhealthyGW (RealmID : u32) (GatewayID : string) (CharactersGUID : list u64).
Inductive char_err := ErrDB | ErrPublish | ItemsTemplateNotFound.

Record friends_state := {
  social : gmap u32 (list FriendEntry);
  onlineInfoByGUID : gmap u64 OnlinePlayerInfo;
  friendsService : bool
}.
Definition with_social (t : gmap u32 (list FriendEntry)) (s : friends_state) : friends_state :=
  {| social := t; onlineInfoByGUID := onlineInfoByGUID s; friendsService := friendsService s |}.
Definition with_online (t : gmap u64 OnlinePlayerInfo) (s : friends_state) : friends_state :=
  {| social := social s; onlineInfoByGUID := t; friendsService := friendsService s |}.
Abbreviation M A := (go friends_state friend_event char_err A).

(** ** The table *)
Definition rows_of (realmID : u32) : M (list FriendEntry) :=
  s ← gets id;
  rows ← deref (social s !! realmID);
  ext ErrDB ;; mret rows.
Definition set_rows (realmID : u32) (f : list FriendEntry -> list FriendEntry) : M unit :=
  rows ← rows_of realmID;
  modify (fun s => with_social (<[realmID := f rows]> (social s)) s).
Definition is_row (player friend : u64) (flags : u8) (e : FriendEntry) : bool :=
  (PlayerGUID e =? player) && (FriendGUID e =? friend) && (Flags e =? flags).

Definition GetFriendsForPlayer (realmID : u32) (playerGUID : u64) : M (list FriendEntry) :=
  rows ← rows_of realmID;
  mret (filter (fun e => PlayerGUID e = playerGUID) rows).
Definition repo_AddFriend (realmID : u32) (playerGUID friendGUID : u64) (note : string) : M unit :=
  set_rows realmID (fun rows => rows ++ [{| PlayerGUID := playerGUID; FriendGUID := friendGUID; Flags := SocialFlagFriend; Note := note |}]).
Definition repo_RemoveFriend (realmID : u32) (playerGUID friendGUID : u64) : M unit :=
  set_rows realmID (filter (fun e => is_row playerGUID friendGUID SocialFlagFriend e = false)).
Definition UpdateFriendNote (realmID : u32) (playerGUID friendGUID : u64) (note : string) : M unit :=
  set_rows realmID (fmap (fun e => if is_row playerGUID friendGUID SocialFlagFriend e
    then {| PlayerGUID := PlayerGUID e; FriendGUID := FriendGUID e; Flags := Flags e; Note := note |} else e)).
Definition repo_AddIgnore (realmID : u32) (playerGUID ignoredGUID : u64) : M unit :=
  set_rows realmID (fun rows => rows ++ [{| PlayerGUID := playerGUID; FriendGUID := ignoredGUID; Flags := SocialFlagIgnore; Note := "" |}]).
Definition repo_RemoveIgnore (realmID : u32) (playerGUID ignoredGUID : u64) : M unit :=
  set_rows realmID (filter (fun e => is_row playerGUID ignoredGUID SocialFlagIgnore e = false)).
Definition GetPlayersWhoHaveAsFriend (realmID : u32) (playerGUID : u64) : M (list u64) :=
  rows ← rows_of realmID;
  mret (PlayerGUID <$> filter (fun e => FriendGUID e = playerGUID /\ Flags e = SocialFlagFriend) rows).

(** ** The cache *)
Definition PlayerLoggedIn (playerGUID : u64) (level class area : u32) : M unit :=
  modify (fun s => with_online (<[playerGUID := {| oi_GUID := playerGUID; oi_Level := level; oi_Class := class; oi_Area := area; oi_Status := 1 |}]> (onlineInfoByGUID s)) s).
Definition PlayerLoggedOut (playerGUID : u64) : M unit := modify (fun s => with_online (delete playerGUID (onlineInfoByGUID s)) s).
Definition GetOnlineInfo (playerGUID : u64) : M (option OnlinePlayerInfo) := gets (fun s => onlineInfoByGUID s !! playerGUID).
Definition update_info (update : CharacterUpdate) (info : OnlinePlayerInfo) : OnlinePlayerInfo :=
  {| oi_GUID := oi_GUID info; oi_Level := default (oi_Level info) (u_Lvl update); oi_Class := oi_Class info;
     oi_Area := match u_Zone update with Some z => z | None => default (oi_Area info) (u_Area update) end; oi_Status := oi_Status info |}.
Definition friends_HandleCharactersUpdates (payload : CharactersUpdatesPayload) : M unit :=
  modify (fun s => with_online (foldl (fun t update => alter (update_info update) (u_ID update) t) (onlineInfoByGUID s) (us_Updates payload)) s).

(** ** The service *)
Definition NotifyStatusChange (realmID : u32) (playerGUID : u64) (status : u8) (area level classID : u32) : M unit :=
  notifyPlayers ← GetPlayersWhoHaveAsFriend realmID playerGUID;
  if (length notifyPlayers =? 0)%nat then mret tt
  else publish ErrPublish (FriendEventStatusChange realmID playerGUID status area level classID notifyPlayers).
Definition friends_HandleCharacterLoggedIn (payload : LoggedInPayload) : M unit :=
  PlayerLoggedIn (CharGUID payload) (CharLevel payload) (CharClass payload) (CharZone payload) ;;
  fs ← gets friendsService;
  if fs : bool then NotifyStatusChange (RealmID payload) (CharGUID payload) 1 (CharZone payload) (CharLevel payload) (CharClass payload)
  else mret tt.
Definition friends_HandleCharacterLoggedOut (payload : LoggedOutPayload) : M unit :=
  PlayerLoggedOut (lo_CharGUID payload) ;;
  fs ← gets friendsService;
  if fs : bool then NotifyStatusChange (lo_RealmID payload) (lo_CharGUID payload) 0 0 0 0 else mret tt.

Definition friend_info (entry : FriendEntry) (o : option OnlinePlayerInfo) : FriendInfo :=
  match o with
  | Some info => {| fi_GUID := FriendGUID entry; fi_Note := Note entry; fi_Status := 1; fi_Area := oi_Area info; fi_Level := oi_Level info; fi_ClassID := oi_Class info |}
  | None => {| fi_GUID := FriendGUID entry; fi_Note := Note entry; fi_Status := 0; fi_Area := 0; fi_Level := 0; fi_ClassID := 0 |}
  end.
Fixpoint friends_loop (entries : list FriendEntry) (result : FriendsList) : M FriendsList :=
  match entries with
  | [] => mret result
  | entry :: entries =>
    if Flags entry =? SocialFlagFriend then
      o ← GetOnlineInfo (FriendGUID entry);
      friends_loop entries {| Friends := Friends result ++ [friend_info entry o]; Ignored := Ignored result |}
    else if Flags entry =? SocialFlagIgnore then
      friends_loop entries {| Friends := Friends result; Ignored := Ignored result ++ [FriendGUID entry] |}
    else friends_loop entries result
  end.
Definition GetFriendsList (realmID : u32) (playerGUID : u64) : M FriendsList :=
  entries ← GetFriendsForPlayer realmID playerGUID;
  friends_loop entries {| Friends := []; Ignored := [] |}.

(** The entries with a flag, counted until the guid is met: [None] when it is. *)
Fixpoint count_entries (flag : u8) (guid : u64) (entries : list FriendEntry) (count : int) : option int :=
  match entries with
  | [] => Some count
  | entry :: entries =>
    if Flags entry =? flag then
      if FriendGUID entry =? guid then None else count_entries flag guid entries (count + 1)
    else count_entries flag guid entries count
  end.
Definition AddFriend (realmID : u32) (playerGUID friendGUID : u64) (friendName note : string) : M AddFriendResult :=
  if playerGUID =? friendGUID then mret (result_only FriendResultSelf)
  else
    entries ← GetFriendsForPlayer realmID playerGUID;
    match count_entries SocialFlagFriend friendGUID entries 0 with
    | None => mret (result_only FriendResultAlready)
    | Some friendCount =>
      if MaxFriendsLimit <=? friendCount then mret (result_only FriendResultListFull)
      else
        repo_AddFriend realmID playerGUID friendGUID note ;;
        o ← GetOnlineInfo friendGUID;
        let result := match o with
                      | Some info => {| ar_Result := FriendResultAddedOnline; ar_Status := 1; ar_Area := oi_Area info; ar_Level := oi_Level info; ar_ClassID := oi_Class info |}
                      | None => result_only FriendResultAddedOffline
                      end in
        log_err (publish ErrPublish (FriendEventAdded realmID playerGUID friendGUID friendName note)) ;;
        mret result
    end.
Definition RemoveFriend (realmID : u32) (playerGUID friendGUID : u64) : M unit :=
  repo_RemoveFriend realmID playerGUID friendGUID ;;
  log_err (publish ErrPublish (FriendEventRemoved realmID playerGUID friendGUID)).
Definition SetFriendNote (realmID : u32) (playerGUID friendGUID : u64) (note : string) : M unit :=
  UpdateFriendNote realmID playerGUID friendGUID note ;;
  log_err (publish ErrPublish (FriendEventNoteUpdate realmID playerGUID friendGUID note)).
Definition AddIgnore (realmID : u32) (playerGUID ignoredGUID : u64) : M u32 :=
  if playerGUID =? ignoredGUID then mret FriendResultIgnoreSelf
  else
    entries ← GetFriendsForPlayer realmID playerGUID;
    match count_entries SocialFlagIgnore ignoredGUID entries 0 with
    | None => mret FriendResultIgnoreAlready
    | Some ignoreCount =>
      if MaxIgnoreLimit <=? ignoreCount then mret FriendResultIgnoreFull
      else repo_AddIgnore realmID playerGUID ignoredGUID ;; mret FriendResultIgnoreAdded
    end.
Definition RemoveIgnore (realmID : u32) (playerGUID ignoredGUID : u64) : M unit := repo_RemoveIgnore realmID playerGUID ignoredGUID.

(** ** what the friends service guarantees
    (apps/charserver/service/friends.go) *)
(** ** Entries of a player *)
Definition entries_of (p : u64) (flag : u8) (rows : list FriendEntry) : list u64 :=
  FriendGUID <$> filter (fun e => PlayerGUID e = p /\ Flags e = flag) rows.

Lemma count_entries_spec flag g es n : count_entries flag g es n =
  if decide (g ∈ FriendGUID <$> filter (fun e => Flags e = flag) es) then None else Some (n + len (filter (fun e => Flags e = flag) es)).
Proof.
  revert n. induction es as [|e es IH]; intros n; cbn [count_entries].
  - rewrite decide_False; [f_equal; unfold len; simpl; lia|]. apply not_elem_of_nil.
  - destruct (Z.eqb_spec (Flags e) flag) as [Hf|Hf].
    + rewrite !filter_cons_True by done. cbn [fmap list_fmap]. destruct (Z.eqb_spec (FriendGUID e) g) as [->|Hg].
      * by rewrite decide_True by left.
      * rewrite IH. case_decide as E; case_decide as E'; try done.
        -- destruct E'. by right.
        -- apply elem_of_cons in E' as [->|?]; done.
        -- f_equal. unfold len. simpl. lia.
    + rewrite !filter_cons_False by done. apply IH.
Qed.
Lemma entries_of_filter p flag rows :
  FriendGUID <$> filter (fun e => Flags e = flag) (filter (fun e => PlayerGUID e = p) rows) = entries_of p flag rows.
Proof.
  unfold entries_of. f_equal. rewrite list_filter_filter. apply list_filter_iff. intros e. tauto.
Qed.
Lemma entries_of_app p flag rows e :
  entries_of p flag (rows ++ [e]) = entries_of p flag rows ++ (if decide (PlayerGUID e = p /\ Flags e = flag) then [FriendGUID e] else []).
Proof. unfold entries_of. rewrite filter_app, fmap_app. f_equal. rewrite filter_cons. by case_decide. Qed.

(** ** Runs *)
Section Friends.
Abbreviation M A := (go friends_state friend_event char_err A).
Implicit Types c : friends_state.

Lemma spec_rows_of r (P : friends_state -> Prop) :
  spec P (rows_of r : M _) (fun rows c => social c !! r = Some rows /\ P c) (fun _ => P) (fun c => social c !! r = None /\ P c).
Proof.
  intros [c fs evs] Hc. unfold rows_of, mbind, go_bind, gets, deref, mret, go_ret, panic, ext, id. cbn [st faults] in *.
  destruct (social c !! r) as [rows|] eqn:E; cbn [st faults]; [|done]. by destruct fs as [|[] fs]; cbn.
Qed.
Lemma spec_set_rows r f (P Q : friends_state -> Prop) :
  (forall c rows, P c -> social c !! r = Some rows -> Q (with_social (<[r := f rows]> (social c)) c)) ->
  spec P (set_rows r f : M _) (fun _ => Q) (fun _ => P) (fun c => social c !! r = None /\ P c).
Proof.
  intros HQ. unfold set_rows. eapply spec_bind; [apply spec_rows_of|]. intros rows. apply spec_modify.
  intros c [Hr Hc]. by apply HQ.
Qed.
Lemma rows_of_run c evs r rows : social c !! r = Some rows -> (rows_of r : M _) (Sys c [] evs) = (Ok rows, Sys c [] evs).
Proof. intros Hr. unfold rows_of, mbind, go_bind, gets, deref, mret, go_ret, id. cbn [st]. by rewrite Hr. Qed.
Lemma set_rows_run c evs r f rows : social c !! r = Some rows ->
  (set_rows r f : M _) (Sys c [] evs) = (Ok tt, Sys (with_social (<[r := f rows]> (social c)) c) [] evs).
Proof. intros Hr. unfold set_rows. by erewrite bind_run by (by apply rows_of_run). Qed.

(** ** The lists stay bounded *)

(** Every player's list of friends and of ignored players has no double
    entries, does not hold the player, and has at most fifty entries. *)
Definition list_ok (p : u64) (l : list u64) : Prop := NoDup l /\ p ∉ l /\ len l <= 50.
Definition rows_ok (rows : list FriendEntry) : Prop :=
  forall p, list_ok p (entries_of p SocialFlagFriend rows) /\ list_ok p (entries_of p SocialFlagIgnore rows).
Definition rows_ok_everywhere (c : friends_state) : Prop := forall r rows, social c !! r = Some rows -> rows_ok rows.
(** The realms of [D] have a database. *)
Definition tables_ok (D : gset u32) (c : friends_state) : Prop := dom (social c) = D /\ rows_ok_everywhere c.

Inductive friends_request :=
| ReqGetFriendsList (realmID : u32) (playerGUID : u64)
| ReqAddFriend (realmID : u32) (playerGUID friendGUID : u64) (friendName note : string)
| ReqRemoveFriend (realmID : u32) (playerGUID friendGUID : u64)
| ReqSetFriendNote (realmID : u32) (playerGUID friendGUID : u64) (note : string)
| ReqAddIgnore (realmID : u32) (playerGUID ignoredGUID : u64)
| ReqRemoveIgnore (realmID : u32) (playerGUID ignoredGUID : u64)
| ReqNotifyStatusChange (realmID : u32) (playerGUID : u64) (status : u8) (area level classID : u32)
| EvLoggedIn (payload : LoggedInPayload)
| EvLoggedOut (payload : LoggedOutPayload)
| EvUpdates (payload : CharactersUpdatesPayload).
Definition serve_friends (r : friends_request) : M unit :=
  match r with
  | ReqGetFriendsList r p => GetFriendsList r p ;; mret tt
  | ReqAddFriend r p f n note => AddFriend r p f n note ;; mret tt
  | ReqRemoveFriend r p f => RemoveFriend r p f
  | ReqSetFriendNote r p f note => SetFriendNote r p f note
  | ReqAddIgnore r p i => AddIgnore r p i ;; mret tt
  | ReqRemoveIgnore r p i => RemoveIgnore r p i
  | ReqNotifyStatusChange r p status area level classID => NotifyStatusChange r p status area level classID
  | EvLoggedIn p => friends_HandleCharacterLoggedIn p
  | EvLoggedOut p => friends_HandleCharacterLoggedOut p
  | EvUpdates p => friends_HandleCharactersUpdates p
  end.

Section Tables.
Variable D : gset u32.
Abbreviation social_ok := (tables_ok D).
Lemma social_ok_update c r rows' :
  social_ok c -> is_Some (social c !! r) -> rows_ok rows' -> social_ok (with_social (<[r := rows']> (social c)) c).
Proof.
  intros [HD Hc] Hs Hr. split; cbn [social with_social].
  - rewrite dom_insert_lookup_L; done.
  - intros r' rows1. cbn [social with_social]. rewrite lookup_insert. case_decide; [intros [= <-]; done|apply Hc].
Qed.
Lemma list_ok_app p l g : list_ok p l -> g <> p -> g ∉ l -> len l < 50 -> list_ok p (l ++ [g]).
Proof.
  intros (Hnd & Hp & Hl) Hg Hin Hlt. split_and!.
  - apply NoDup_app. split; [done|]. split; [|by apply NoDup_singleton]. intros x Hx ->%list_elem_of_singleton. done.
  - rewrite elem_of_app, list_elem_of_singleton. intros [?|?]; [done|congruence].
  - unfold len in *. rewrite length_app. simpl. lia.
Qed.
Lemma rows_ok_add rows p g flag note : rows_ok rows -> p <> g -> (flag = SocialFlagFriend \/ flag = SocialFlagIgnore) ->
  g ∉ entries_of p flag rows -> len (entries_of p flag rows) < 50 ->
  rows_ok (rows ++ [{| PlayerGUID := p; FriendGUID := g; Flags := flag; Note := note |}]).
Proof.
  intros Hr Hne Hflag Hin Hl p'. destruct (Hr p') as [H1 H2]. rewrite !entries_of_app. cbn [PlayerGUID Flags FriendGUID].
  split; case_decide as E; rewrite ?app_nil_r; try done; destruct E as [<- ->]; by apply list_ok_app.
Qed.
(** Fewer rows keep shorter lists. *)
Lemma list_ok_sublist p l k : l `sublist_of` k -> list_ok p k -> list_ok p l.
Proof.
  intros Hs (Hnd & Hp & Hl). split_and!; [by eapply sublist_NoDup|intros Hin; apply Hp; by eapply elem_of_sublist|].
  apply sublist_length in Hs. unfold len in *. lia.
Qed.
Lemma entries_of_sublist p flag rows (keep : FriendEntry -> bool) :
  entries_of p flag (filter (fun e => keep e = false) rows) `sublist_of` entries_of p flag rows.
Proof.
  unfold entries_of. induction rows as [|e rows IH]; [constructor|]. rewrite !filter_cons. repeat case_decide; cbn [fmap list_fmap]; rewrite ?filter_cons;
    repeat case_decide; cbn [fmap list_fmap]; try done; by constructor.
Qed.
Lemma rows_ok_filter rows keep : rows_ok rows -> rows_ok (filter (fun e => keep e = false) rows).
Proof. intros Hr p. destruct (Hr p). split; (eapply list_ok_sublist; [apply entries_of_sublist|done]). Qed.
Lemma rows_ok_fmap rows f : (forall e, PlayerGUID (f e) = PlayerGUID e /\ FriendGUID (f e) = FriendGUID e /\ Flags (f e) = Flags e) ->
  rows_ok rows -> rows_ok (f <$> rows).
Proof.
  intros Hf Hr p. assert (He : forall flag, entries_of p flag (f <$> rows) = entries_of p flag rows).
  { intros flag. unfold entries_of. clear Hr. induction rows as [|e rows IH]; [done|]. rewrite fmap_cons, !filter_cons. destruct (Hf e) as (-> & E & ->).
    case_decide; cbn [fmap list_fmap]; [by rewrite E, <- IH|done]. }
  rewrite !He. apply Hr.
Qed.

(** A request for a realm without a database panics, and changes nothing. *)
Definition request_realm (r : friends_request) : u32 :=
  match r with
  | ReqGetFriendsList r _ | ReqAddFriend r _ _ _ _ | ReqRemoveFriend r _ _ | ReqSetFriendNote r _ _ _ | ReqAddIgnore r _ _
  | ReqRemoveIgnore r _ _ | ReqNotifyStatusChange r _ _ _ _ _ => r
  | EvLoggedIn p => RealmID p
  | EvLoggedOut p => lo_RealmID p
  | EvUpdates p => us_RealmID p
  end.

Section Bounded.
Variable (req : friends_request).
Abbreviation bounded m := (spec social_ok m (fun _ => social_ok) (fun _ => social_ok) (fun c => social c !! request_realm req = None /\ social_ok c)).

Lemma bounded_publish e ev B : spec social_ok (publish e ev : M unit) (fun _ => social_ok) (fun _ => social_ok) B.
Proof. by apply spec_publish. Qed.
Lemma bounded_log e ev B : spec social_ok (log_err (publish e ev) : M unit) (fun _ => social_ok) (fun _ => social_ok) B.
Proof. intros s Hs. unfold log_err, publish, ext. by destruct (faults s) as [|[] ?]. Qed.
Lemma bounded_friends_loop es : forall acc B, spec social_ok (friends_loop es acc : M _) (fun _ => social_ok) (fun _ => social_ok) B.
Proof.
  induction es as [|e es IH]; intros acc B; cbn [friends_loop]; [by apply spec_ret|].
  destruct (_ =? _); [eapply spec_bind; [by apply (spec_gets_post _ (fun _ => social_ok))|intros o; apply IH]|]. destruct (_ =? _); apply IH.
Qed.
(** A new row for a player whose list was looked at. *)
Lemma bounded_add r p g flag note rows (m : M unit) B :
  p <> g -> (flag = SocialFlagFriend \/ flag = SocialFlagIgnore) -> g ∉ entries_of p flag rows -> len (entries_of p flag rows) < 50 ->
  m = set_rows r (fun rows => rows ++ [{| PlayerGUID := p; FriendGUID := g; Flags := flag; Note := note |}]) ->
  (forall c, social c !! r = None -> social_ok c -> B c) ->
  spec (fun c => social c !! r = Some rows /\ social_ok c) m (fun _ => social_ok) (fun _ => social_ok) B.
Proof.
  intros Hne Hflag Hin Hlen -> HB.
  eapply spec_conseq; [apply (spec_set_rows r _ (fun c => social c !! r = Some rows /\ social_ok c) social_ok)|done|done| |].
  - intros c rows' [Hr Hc] Hr'. rewrite Hr in Hr'. injection Hr' as <-. apply social_ok_update; [done|by eexists|]. apply rows_ok_add; try done. by apply (proj2 Hc r).
  - by intros _ c [_ Hc].
  - intros c [Hnone [_ Hc]]. by apply HB.
Qed.
Lemma bounded_entries r p flag :
  request_realm req = r ->
  spec social_ok (GetFriendsForPlayer r p : M _)
    (fun es c => exists rows, social c !! r = Some rows /\ social_ok c /\ FriendGUID <$> filter (fun e => Flags e = flag) es = entries_of p flag rows)
    (fun _ => social_ok) (fun c => social c !! request_realm req = None /\ social_ok c).
Proof.
  intros ->. unfold GetFriendsForPlayer. eapply spec_bind; [apply spec_rows_of|]. intros rows. apply spec_ret. intros c [Hr Hc].
  exists rows. split_and!; [done..|]. apply entries_of_filter.
Qed.
End Bounded.

Lemma bounded_set_rows req r f :
  request_realm req = r -> (forall rows, rows_ok rows -> rows_ok (f rows)) ->
  spec social_ok (set_rows r f : M _) (fun _ => social_ok) (fun _ => social_ok) (fun c => social c !! request_realm req = None /\ social_ok c).
Proof. intros Hr Hf. subst r. apply spec_set_rows. intros c rows Hc Hr. apply social_ok_update; [done|by eexists|]. apply Hf. by eapply (proj2 Hc). Qed.
Lemma bounded_notify req r p status area level classID :
  request_realm req = r ->
  spec social_ok (NotifyStatusChange r p status area level classID) (fun _ => social_ok) (fun _ => social_ok)
    (fun c => social c !! request_realm req = None /\ social_ok c).
Proof.
  intros <-. unfold NotifyStatusChange, GetPlayersWhoHaveAsFriend. eapply spec_bind.
  - eapply spec_bind; [apply spec_rows_of|]. intros rows. by apply (spec_ret _ (fun _ => social_ok)); intros c [_ Hc].
  - intros l. cbv beta. destruct (_ =? _)%nat; [by apply spec_ret|apply bounded_publish].
Qed.
(** An event that changes who is online, then tells the friends. *)
Lemma bounded_online req r p t status area level classID :
  request_realm req = r ->
  spec social_ok
    (modify (fun s => with_online (t (onlineInfoByGUID s)) s) ;; fs ← gets friendsService;
     if fs : bool then NotifyStatusChange r p status area level classID else mret tt)
    (fun _ => social_ok) (fun _ => social_ok) (fun c => social c !! request_realm req = None /\ social_ok c).
Proof.
  intros Hr. eapply spec_bind; [by apply (spec_modify _ (fun _ => social_ok))|]. intros ?.
  eapply spec_bind; [by apply (spec_gets_post _ (fun _ => social_ok))|]. intros [].
  - by apply bounded_notify.
  - by apply spec_ret.
Qed.
(** The check of the list, then the row. *)
Lemma bounded_list_add {A} req r p g flag note (kn : M A) (kf : M A) (k : M A) :
  request_realm req = r -> p <> g -> (flag = SocialFlagFriend \/ flag = SocialFlagIgnore) ->
  spec social_ok kn (fun _ => social_ok) (fun _ => social_ok) (fun c => social c !! request_realm req = None /\ social_ok c) ->
  spec social_ok kf (fun _ => social_ok) (fun _ => social_ok) (fun c => social c !! request_realm req = None /\ social_ok c) ->
  spec social_ok k (fun _ => social_ok) (fun _ => social_ok) (fun c => social c !! request_realm req = None /\ social_ok c) ->
  spec social_ok
    (entries ← GetFriendsForPlayer r p;
     match count_entries flag g entries 0 with
     | None => kn
     | Some n => if 50 <=? n then kf else
       set_rows r (fun rows => rows ++ [{| PlayerGUID := p; FriendGUID := g; Flags := flag; Note := note |}]) ;; k
     end)
    (fun _ => social_ok) (fun _ => social_ok) (fun c => social c !! request_realm req = None /\ social_ok c).
Proof.
  intros Hr Hne Hflag Hn Hf Hk. eapply spec_bind; [by apply (bounded_entries req r p flag)|]. intros es. cbv beta.
  rewrite count_entries_spec. apply spec_exists. intros rows.
  apply (spec_pre _ (fun c => FriendGUID <$> filter (fun e => Flags e = flag) es = entries_of p flag rows /\ (social c !! r = Some rows /\ social_ok c)));
    [|by intros c (?&?&?)]. apply spec_pure. intros He.
  case_decide as Hin; [by eapply spec_pre; [apply Hn|intros c (?&?)]|].
  destruct (Z.leb_spec 50 (0 + len (filter (fun e => Flags e = flag) es))) as [Hl|Hl]; [by eapply spec_pre; [apply Hf|intros c (?&?)]|].
  eapply spec_bind; [|intros ?; apply Hk]. eapply bounded_add; try done.
  - by rewrite <- He.
  - rewrite <- He. unfold len in *. rewrite length_fmap. lia.
  - intros c Hnone Hc. by subst r.
Qed.
Lemma requests_bounded req :
  spec social_ok (serve_friends req) (fun _ => social_ok) (fun _ => social_ok) (fun c => social c !! request_realm req = None /\ social_ok c).
Proof.
  destruct req as [r p|r p f n note|r p f|r p f note|r p i|r p i|r p st0 ar lv cl|pl|pl|pl]; cbn [serve_friends].
  - unfold GetFriendsList. apply (spec_bind _ (fun _ => social_ok)); [|intros ?; by apply (spec_ret _ (fun _ => social_ok))].
    eapply spec_bind; [by apply (bounded_entries _ r p SocialFlagFriend)|]. intros es. eapply spec_pre; [apply bounded_friends_loop|by intros c (?&?&?&?)].
  - unfold AddFriend. apply (spec_bind _ (fun _ => social_ok)); [|intros ?; by apply (spec_ret _ (fun _ => social_ok))].
    destruct (Z.eqb_spec p f) as [|Hne]; [by apply spec_ret|]. apply bounded_list_add; try done; [by left|by apply spec_ret|by apply spec_ret|].
    eapply spec_bind; [by apply (spec_gets_post _ (fun _ => social_ok))|]. intros o.
    apply (spec_bind _ (fun _ => social_ok)); [apply bounded_log|]. intros ?. by apply spec_ret.
  - unfold RemoveFriend. apply (spec_bind _ (fun _ => social_ok)); [|intros ?; apply bounded_log]. apply bounded_set_rows; [done|]. intros rows. apply rows_ok_filter.
  - unfold SetFriendNote. apply (spec_bind _ (fun _ => social_ok)); [|intros ?; apply bounded_log]. apply bounded_set_rows; [done|]. intros rows. apply rows_ok_fmap.
    intros e. by destruct (is_row _ _ _ e).
  - unfold AddIgnore. apply (spec_bind _ (fun _ => social_ok)); [|intros ?; by apply (spec_ret _ (fun _ => social_ok))].
    destruct (Z.eqb_spec p i) as [|Hne]; [by apply spec_ret|]. apply (bounded_list_add _ r p i SocialFlagIgnore ""); try done; [by right|by apply spec_ret..].
  - unfold RemoveIgnore. apply bounded_set_rows; [done|]. intros rows. apply rows_ok_filter.
  - by apply bounded_notify.
  - unfold friends_HandleCharacterLoggedIn, PlayerLoggedIn. by apply bounded_online.
  - unfold friends_HandleCharacterLoggedOut, PlayerLoggedOut. by apply bounded_online.
  - by apply (spec_modify _ (fun _ => social_ok)).
Qed.
End Tables.

(** Requests and events served one after the other; an error goes back to the
    caller, or to the log. *)
Fixpoint serve_requests (reqs : list friends_request) : M unit :=
  match reqs with
  | [] => mret tt
  | req :: reqs => try_err (serve_friends req) ;; serve_requests reqs
  end.
Lemma serve_requests_spec D reqs (F : char_err -> friends_state -> Prop) (B : friends_state -> Prop) :
  Forall (fun req => request_realm req ∈ D) reqs ->
  spec (tables_ok D) (serve_requests reqs) (fun _ => tables_ok D) F B.
Proof.
  induction 1 as [|req reqs HD _ IH]; cbn [serve_requests]; [by apply spec_ret|].
  apply (spec_bind _ (fun _ => tables_ok D)); [|by intros _]. apply spec_try.
  eapply spec_conseq; [apply (requests_bounded D req)|done..|]. intros c [Hnone [Hdom _]].
  rewrite <- Hdom in HD. apply not_elem_of_dom in Hnone. done.
Qed.

(** C20: whatever requests and events arrive, in whatever order, and whichever
    of the database and bus calls fail, the service does not panic as long as
    the realms they name have a database, and every player's lists of friends
    and of ignored players have no doubles, do not hold the player, and have at
    most fifty entries. *)
Theorem social_lists_bounded c fs evs reqs :
  rows_ok_everywhere c -> Forall (fun req => is_Some (social c !! request_realm req)) reqs ->
  match serve_requests reqs (Sys c fs evs) with
  | (Ok _, s') => rows_ok_everywhere (st s') /\ dom (social (st s')) = dom (social c)
  | _ => False
  end.
Proof.
  intros Hc Hreqs. assert (Forall (fun req => request_realm req ∈ dom (social c)) reqs) as Hd
    by (eapply Forall_impl; [done|]; intros ? ?; by apply elem_of_dom).
  pose proof (serve_requests_spec (dom (social c)) reqs (fun _ _ => False) (fun _ => False) Hd) as Hs.
  specialize (Hs (Sys c fs evs) (conj eq_refl Hc)). by destruct (serve_requests _ _) as [[?|?|] ?]; destruct Hs.
Qed.

(** ** Adding a friend *)
Definition presence (o : option OnlinePlayerInfo) : AddFriendResult :=
  match o with
  | Some info => {| ar_Result := FriendResultAddedOnline; ar_Status := 1; ar_Area := oi_Area info; ar_Level := oi_Level info; ar_ClassID := oi_Class info |}
  | None => result_only FriendResultAddedOffline
  end.
Lemma get_entries_run c evs r p rows : social c !! r = Some rows ->
  (GetFriendsForPlayer r p : M _) (Sys c [] evs) = (Ok (filter (fun e => PlayerGUID e = p) rows), Sys c [] evs).
Proof. intros Hr. unfold GetFriendsForPlayer. by erewrite bind_run by (by apply rows_of_run). Qed.

(** When the database and the bus answer, adding a friend gives the result
    that the list calls for: the player itself, a friend already, a full list,
    or a new row with the note and an event, and the presence of the friend;
    in the other cases nothing is written and nothing is published. *)
Theorem add_friend_exact c evs r p f name note rows :
  social c !! r = Some rows ->
  let friends := entries_of p SocialFlagFriend rows in
  AddFriend r p f name note (Sys c [] evs) =
    if decide (p = f) then (Ok (result_only FriendResultSelf), Sys c [] evs)
    else if decide (f ∈ friends) then (Ok (result_only FriendResultAlready), Sys c [] evs)
    else if decide (50 <= len friends) then (Ok (result_only FriendResultListFull), Sys c [] evs)
    else (Ok (presence (onlineInfoByGUID c !! f)),
          Sys (with_social (<[r := rows ++ [{| PlayerGUID := p; FriendGUID := f; Flags := SocialFlagFriend; Note := note |}]]> (social c)) c) []
            (evs ++ [FriendEventAdded r p f name note])).
Proof.
  intros Hr friends. unfold AddFriend. destruct (Z.eqb_spec p f) as [He|He]; [by rewrite decide_True|rewrite decide_False by done].
  erewrite bind_run by (by apply get_entries_run). rewrite count_entries_spec, entries_of_filter. fold friends.
  case_decide as Hin; [done|].
  assert (len (filter (fun e => Flags e = SocialFlagFriend) (filter (fun e => PlayerGUID e = p) rows)) = len friends) as Hl.
  { unfold friends. rewrite <- entries_of_filter. unfold len. by rewrite length_fmap. }
  rewrite Hl. unfold MaxFriendsLimit. destruct (Z.leb_spec 50 (0 + len friends)); case_decide; try lia; try done.
  unfold repo_AddFriend. erewrite bind_run by (by apply set_rows_run). by destruct (onlineInfoByGUID c !! f) eqn:E; cbn [with_social];
    (erewrite bind_run by (cbv [GetOnlineInfo gets]; cbn; by rewrite E)).
Qed.

(** ** The list *)
Lemma friends_loop_run es : forall acc c fs evs,
  friends_loop es acc (Sys c fs evs) =
  (Ok {| Friends := Friends acc ++ ((fun e => friend_info e (onlineInfoByGUID c !! FriendGUID e)) <$> filter (fun e => Flags e = SocialFlagFriend) es);
         Ignored := Ignored acc ++ (FriendGUID <$> filter (fun e => Flags e = SocialFlagIgnore) es) |}, Sys c fs evs).
Proof.
  induction es as [|e es IH]; intros [fr ig] c fs evs; cbn [friends_loop]; [by rewrite !app_nil_r|].
  rewrite !filter_cons. destruct (Z.eqb_spec (Flags e) SocialFlagFriend) as [Hf|Hf].
  - rewrite (decide_True _ _ Hf), decide_False by (by rewrite Hf). erewrite bind_run by reflexivity. rewrite IH.
    cbn. by rewrite <- app_assoc.
  - rewrite (decide_False _ _ Hf). destruct (Z.eqb_spec (Flags e) SocialFlagIgnore) as [Hi|Hi].
    + rewrite (decide_True _ _ Hi), IH. cbn. by rewrite <- app_assoc.
    + by rewrite (decide_False _ _ Hi), IH.
Qed.
End Friends.

(** The two lists of a player, with the presence of its friends. *)
Lemma friends_list_exact c evs r p rows : social c !! r = Some rows ->
  let mine flag := filter (fun e => Flags e = flag) (filter (fun e => PlayerGUID e = p) rows) in
  GetFriendsList r p (Sys c [] evs) =
  (Ok {| Friends := (fun e => friend_info e (onlineInfoByGUID c !! FriendGUID e)) <$> mine SocialFlagFriend;
         Ignored := FriendGUID <$> mine SocialFlagIgnore |}, Sys c [] evs).
Proof.
  intros Hr mine. unfold GetFriendsList. erewrite bind_run by (by apply get_entries_run). apply friends_loop_run.
Qed.

(** ** Samples *)
Definition sample_friends : friends_state :=
  {| social := {[1 := [{| PlayerGUID := 5; FriendGUID := 6; Flags := SocialFlagFriend; Note := "" |}]]}; onlineInfoByGUID := ∅; friendsService := true |}.
Lemma social_lists_bounded_witness :
  match serve_requests [ReqAddFriend 1 5 7 "x" ""; ReqAddIgnore 1 5 6; ReqAddFriend 1 5 7 "x" ""] (Sys sample_friends [false; true] []) with
  | (Ok _, s') => rows_ok_everywhere (st s') /\ dom (social (st s')) = dom (social sample_friends)
  | _ => False
  end.
Proof.
  apply social_lists_bounded.
  - intros r rows Hr. unfold sample_friends in Hr. cbn [social] in Hr. apply lookup_singleton_Some in Hr as [_ <-]. intros p.
    split; unfold entries_of; cbn; (case_decide as E; cbn; split_and!); try done; try apply NoDup_singleton; try apply not_elem_of_nil; try by constructor.
    all: destruct E as [<- E]; try discriminate E; by intros ?%list_elem_of_singleton.
  - repeat constructor; vm_compute; by eexists.
Defined.
Lemma add_friend_exact_witness :
  let friends := entries_of 5 SocialFlagFriend [{| PlayerGUID := 5; FriendGUID := 6; Flags := SocialFlagFriend; Note := "" |}] in
  AddFriend 1 5 7 "x" "y" (Sys sample_friends [] []) =
    if decide (5 = 7) then (Ok (result_only FriendResultSelf), Sys sample_friends [] [])
    else if decide (7 ∈ friends) then (Ok (result_only FriendResultAlready), Sys sample_friends [] [])
    else if decide (50 <= len friends) then (Ok (result_only FriendResultListFull), Sys sample_friends [] [])
    else (Ok (presence (onlineInfoByGUID sample_friends !! 7)),
          Sys (with_social (<[1 := [{| PlayerGUID := 5; FriendGUID := 6; Flags := SocialFlagFriend; Note := "" |}] ++
                [{| PlayerGUID := 5; FriendGUID := 7; Flags := SocialFlagFriend; Note := "y" |}]]> (social sample_friends)) sample_friends) []
            [FriendEventAdded 1 5 7 "x" "y"]).
Proof. apply (add_friend_exact sample_friends [] 1 5 7 "x" "y"). reflexivity. Defined.
