(* ===== verification/CharRepo.v ===== *)
(** * CharRepo: the characters' tables
    (apps/charserver/repo/characters.go, characters_mysql.go,
    items-template_cache.go)

    A realm's database holds the rows of the character query: the columns that
    are scanned, and those the statements filter by.  The order of the rows is
    the order of the query.  The comparison of names in SQL is a parameter. *)
From Stdlib Require Import Ascii.
From S2P Require Import Prelude GoStrings OnlineCharacters Friends.

Record LogInCharacter := {
  lc_GUID : u64; lc_AccountID : u32; lc_Name : string;
  lc_Race : u8; lc_Class : u8; lc_Gender : u8; lc_Skin : u8; lc_Face : u8; lc_HairStyle : u8; lc_HairColor : u8; lc_FacialStyle : u8;
  lc_Level : u8; lc_Zone : u32; lc_Map : u32; lc_PositionX : u32; lc_PositionY : u32; lc_PositionZ : u32;
  lc_GuildID : u32; lc_PlayerFlags : u32; lc_AtLoginFlags : u16; lc_PetEntry : u32; lc_PetModelID : u32; lc_PetLevel : u8;
  lc_Equipments : list u32; lc_Enchants : list u32; lc_Banned : bool
}.
Record AccountData := { ad_Type : u8; ad_Time : Z; ad_Data : string }.
Record ItemTemplate := { it_ID : u32; it_DisplayID : u32; it_InventoryType : u8 }.

(** A row of the query; the columns that are scanned into the item itself are
    kept in it. *)
Record char_row := { row_item : LogInCharacter; row_equipmentCache : string; row_bannedGuid : u32; row_deleted : bool }.
Record realm_db := { char_rows : list char_row; account_data : list (u32 * AccountData) }.
Record char_db := { realms : gmap u32 realm_db; item_template : gmap u32 ItemTemplate }.
Definition with_realms (t : gmap u32 realm_db) (s : char_db) : char_db := {| realms := t; item_template := item_template s |}.

Abbreviation M A := (go char_db friend_event char_err A).
Definition realm_rows (realmID : u32) : M realm_db :=
  t ← gets realms;
  d ← deref (t !! realmID);
  ext ErrDB ;; mret d.

(** ** The equipment of a character *)

(** [None]: the index of the item is out of range. *)
Fixpoint equip_loop (strs : list string) (i : nat) (n : nat) : option (list u32 * list u32) :=
  match n with
  | O => Some ([], [])
  | S n =>
    equip ← strs !! i;
    '(equipments, enchants) ← equip_loop strs (i + 2) n;
    let enchant := match strs !! (i + 1)%nat with Some e => wrap32 (Atoi_value e) | None => 0 end in
    Some (wrap32 (Atoi_value equip) :: equipments, enchant :: enchants)
  end.
Definition equip_slots : nat := 23.
Definition parse_equipment (equipmentCache : string) : option (list u32 * list u32) := equip_loop (Split " "%char equipmentCache) 0 equip_slots.

Definition with_equipment (item : LogInCharacter) (banned : bool) (equipments enchants : list u32) : LogInCharacter :=
  {| lc_GUID := lc_GUID item; lc_AccountID := lc_AccountID item; lc_Name := lc_Name item;
     lc_Race := lc_Race item; lc_Class := lc_Class item; lc_Gender := lc_Gender item; lc_Skin := lc_Skin item; lc_Face := lc_Face item;
     lc_HairStyle := lc_HairStyle item; lc_HairColor := lc_HairColor item; lc_FacialStyle := lc_FacialStyle item;
     lc_Level := lc_Level item; lc_Zone := lc_Zone item; lc_Map := lc_Map item;
     lc_PositionX := lc_PositionX item; lc_PositionY := lc_PositionY item; lc_PositionZ := lc_PositionZ item;
     lc_GuildID := lc_GuildID item; lc_PlayerFlags := lc_PlayerFlags item; lc_AtLoginFlags := lc_AtLoginFlags item;
     lc_PetEntry := lc_PetEntry item; lc_PetModelID := lc_PetModelID item; lc_PetLevel := lc_PetLevel item;
     lc_Equipments := equipments; lc_Enchants := enchants; lc_Banned := banned |}.
Definition scan_row (row : char_row) : option LogInCharacter :=
  '(equipments, enchants) ← parse_equipment (row_equipmentCache row);
  Some (with_equipment (row_item row) (0 <? row_bannedGuid row) equipments enchants).

(** The rows are scanned one after the other; a panic in one ends the loop. *)
Definition ListCharactersToLogIn (realmID accountID : u32) : M (list LogInCharacter) :=
  d ← realm_rows realmID;
  deref (mapM scan_row (filter (fun row => lc_AccountID (row_item row) = accountID /\ row_deleted row = false) (char_rows d))).
Definition CharacterToLogInByGUID (realmID : u32) (charGUID : u64) : M (option LogInCharacter) :=
  d ← realm_rows realmID;
  result ← deref (mapM scan_row (filter (fun row => lc_GUID (row_item row) = charGUID /\ row_deleted row = false) (char_rows d)));
  mret (head result).

Definition upper_first (s : string) : string := match s with EmptyString => EmptyString | String c s => String (upper_char c) s end.
(** The columns of the query by name; the realm and the gateway stay zero. *)
Definition char_of_row (name : string) (row : char_row) : Character :=
  let item := row_item row in
  {| RealmID := 0; GatewayID := ""; CharGUID := lc_GUID item; CharName := name; CharRace := lc_Race item; CharClass := lc_Class item;
     CharGender := lc_Gender item; CharLevel := lc_Level item; CharZone := lc_Zone item; CharMap := lc_Map item;
     CharPosX := lc_PositionX item; CharPosY := lc_PositionY item; CharPosZ := lc_PositionZ item;
     CharGuildID := lc_GuildID item; AccountID := lc_AccountID item |}.
Section Names.
Context (same_name : string -> string -> bool).
Definition repo_CharacterByName (realmID : u32) (name : string) : M (option Character) :=
  let nameRunes := upper_first (ToLower name) in
  match nameRunes with
  | EmptyString => mret None
  | _ =>
    d ← realm_rows realmID;
    mret (head (char_of_row nameRunes <$> filter (fun row => same_name (lc_Name (row_item row)) nameRunes = true) (char_rows d)))
  end.
End Names.

Definition AccountDataForAccountID (realmID accountID : u32) : M (list AccountData) :=
  d ← realm_rows realmID;
  mret (filter (fun r => r.1 = accountID) (account_data d)).*2.
Definition move_row (charGUID : u64) (mapID x y z : u32) (row : char_row) : char_row :=
  let item := row_item row in
  if lc_GUID item =? charGUID then
    {| row_item :=
         {| lc_GUID := lc_GUID item; lc_AccountID := lc_AccountID item; lc_Name := lc_Name item;
            lc_Race := lc_Race item; lc_Class := lc_Class item; lc_Gender := lc_Gender item; lc_Skin := lc_Skin item; lc_Face := lc_Face item;
            lc_HairStyle := lc_HairStyle item; lc_HairColor := lc_HairColor item; lc_FacialStyle := lc_FacialStyle item;
            lc_Level := lc_Level item; lc_Zone := lc_Zone item; lc_Map := mapID; lc_PositionX := x; lc_PositionY := y; lc_PositionZ := z;
            lc_GuildID := lc_GuildID item; lc_PlayerFlags := lc_PlayerFlags item; lc_AtLoginFlags := lc_AtLoginFlags item;
            lc_PetEntry := lc_PetEntry item; lc_PetModelID := lc_PetModelID item; lc_PetLevel := lc_PetLevel item;
            lc_Equipments := lc_Equipments item; lc_Enchants := lc_Enchants item; lc_Banned := lc_Banned item |};
       row_equipmentCache := row_equipmentCache row; row_bannedGuid := row_bannedGuid row; row_deleted := row_deleted row |}
  else row.
(** The orientation is not read by any query here. *)
Definition SaveCharacterPosition (realmID : u32) (charGUID : u64) (mapID x y z : u32) : M unit :=
  d ← realm_rows realmID;
  modify (fun s => with_realms (<[realmID := {| char_rows := move_row charGUID mapID x y z <$> char_rows d; account_data := account_data d |}]> (realms s)) s).

Definition TemplateByID (ID : u32) : M ItemTemplate :=
  cache ← gets item_template;
  not_nil ItemsTemplateNotFound (cache !! ID).
(** The rows of item_template, read when the server starts. *)
Definition NewItemsTemplateCache (rows : list ItemTemplate) : gmap u32 ItemTemplate :=
  foldl (fun cache item => <[it_ID item := item]> cache) ∅ rows.

(** ** Facts *)

(** The loop reads twenty-three items; it needs forty-five tokens. *)
Lemma equip_loop_spec strs n : forall i,
  equip_loop strs i n =
  if decide (n = 0%nat \/ (i + 2 * n <= S (length strs))%nat) then
    Some ((fun j => wrap32 (Atoi_value (default "" (strs !! (i + 2 * j)%nat)))) <$> seq 0 n,
          (fun j => match strs !! (i + 2 * j + 1)%nat with Some e => wrap32 (Atoi_value e) | None => 0 end) <$> seq 0 n)
  else None.
Proof.
  induction n as [|n IH]; intros i; cbn [equip_loop]; [by rewrite decide_True by (by left)|].
  destruct (strs !! i) as [e|] eqn:E; cbn [mbind option_bind].
  2:{ apply lookup_ge_None in E. rewrite decide_False by lia. done. }
  apply lookup_lt_Some in E as El. rewrite IH.
  destruct (decide (n = 0%nat \/ _)) as [H1|H1]; destruct (decide (S n = 0%nat \/ _)) as [H2|H2]; try lia; cbn [mbind option_bind]; try done.
  assert (forall (f : nat -> Z), f <$> seq 0 (S n) = f 0%nat :: ((fun j => f (S j)) <$> seq 0 n)) as Hseq.
  { intros f. cbn [seq fmap list_fmap]. f_equal. by rewrite <- seq_shift, <- list_fmap_compose. }
  rewrite !Hseq. f_equal. f_equal; f_equal.
  - rewrite Nat.mul_0_r, Nat.add_0_r. by rewrite E.
  - apply list_fmap_ext. intros k x _. by replace (i + 2 + 2 * x)%nat with (i + 2 * S x)%nat by lia.
  - by rewrite Nat.mul_0_r, Nat.add_0_r.
  - apply list_fmap_ext. intros k x _. replace (i + 2 + 2 * x + 1)%nat with (i + 2 * S x + 1)%nat by lia. reflexivity.
Qed.
Lemma parse_equipment_panics s : parse_equipment s = None <-> (length (Split " "%char s) < 45)%nat.
Proof.
  unfold parse_equipment, equip_slots. rewrite equip_loop_spec. case_decide as H; [|split; [lia|done]]. split; [done|]. destruct H; lia.
Qed.

(** The cache as the game server writes it: item and enchantment, slot by slot. *)
Definition equipment_tokens (slots : list (u32 * u32)) : list string := slots ≫= fun e => [fmt_d e.1; fmt_d e.2].
Lemma equip_loop_tokens slots pre : Forall (fun e => in_range 32 e.1 /\ in_range 32 e.2) slots ->
  equip_loop (pre ++ equipment_tokens slots) (length pre) (length slots) = Some (slots.*1, slots.*2).
Proof.
  revert pre. induction slots as [|[e n] slots IH]; intros pre Hs; [done|]. apply Forall_cons in Hs as [[He Hn] Hs].
  change (equipment_tokens ((e, n) :: slots)) with (fmt_d e :: fmt_d n :: equipment_tokens slots). cbn [length equip_loop].
  rewrite (list_lookup_middle pre _ _ (length pre) eq_refl). cbn [mbind option_bind].
  assert (equip_loop (pre ++ fmt_d e :: fmt_d n :: equipment_tokens slots) (length pre + 2) (length slots) = Some (slots.*1, slots.*2)) as ->.
  { specialize (IH (pre ++ [fmt_d e; fmt_d n]) Hs). rewrite length_app, <- app_assoc in IH. exact IH. }
  replace (length pre + 1)%nat with (length (pre ++ [fmt_d e])) by (rewrite length_app; simpl; lia).
  replace (pre ++ fmt_d e :: fmt_d n :: equipment_tokens slots) with ((pre ++ [fmt_d e]) ++ fmt_d n :: equipment_tokens slots) by (by rewrite <- app_assoc).
  rewrite (list_lookup_middle (pre ++ [fmt_d e]) _ _ _ eq_refl). unfold in_range in *. cbn in He, Hn. by rewrite !Atoi_value_fmt_d, !wrap_small by (unfold in_range; cbn in *; lia).
Qed.

(** The equipment that the game server writes as text, an item and an
    enchantment for each of the twenty-three slots, is read back exactly. *)
Theorem equipment_roundtrip slots :
  length slots = 23%nat -> Forall (fun e => in_range 32 e.1 /\ in_range 32 e.2) slots ->
  parse_equipment (Join " "%char (equipment_tokens slots)) = Some (slots.*1, slots.*2).
Proof.
  intros Hlen Hs. unfold parse_equipment, equip_slots. rewrite Split_Join.
  - rewrite <- Hlen. by apply (equip_loop_tokens slots []).
  - by destruct slots.
  - clear Hlen. assert (forall x, in_range 32 x -> all_chars (without " ") (fmt_d x)) as Htok.
    { intros x [Hx _]. apply digit_without; [done|]. by apply fmt_d_digits. }
    induction Hs as [|[e n] slots [He Hn] _ IH]; [constructor|]. apply Forall_cons_2; [by apply Htok|]. apply Forall_cons_2; [by apply Htok|exact IH].
Qed.
Definition equipment_sample : list (u32 * u32) := (fun i => (Z.of_nat i * 1000, Z.of_nat i)) <$> seq 0 23.
Lemma equipment_roundtrip_witness :
  parse_equipment (Join " "%char (equipment_tokens equipment_sample)) = Some (equipment_sample.*1, equipment_sample.*2).
Proof. apply equipment_roundtrip; [reflexivity|]. repeat constructor; vm_compute; congruence. Defined.
Example short_cache : parse_equipment "0 0 0" = None. Proof. reflexivity. Qed.
