(* ===== verification/CharServer.v ===== *)
(** * CharServer: the character service
    (apps/charserver/server/charserver.go, service/serversregistry-listener.go,
    service/characters-listener.go, cmd/charserver/main.go)

    The server holds the databases, the characters online and the friends.  The
    events of the gateways go to the last two, one after the other; an error of
    one handler is logged. *)
From S2P Require Import Prelude GoRuntime GoStrings OnlineCharacters Friends CharRepo.

Record charserver := { db : char_db; onlineChars : online; friends : friends_state }.
Definition with_db (d : char_db) (s : charserver) : charserver := {| db := d; onlineChars := onlineChars s; friends := friends s |}.
Definition with_onlineChars (o : online) (s : charserver) : charserver := {| db := db s; onlineChars := o; friends := friends s |}.
Definition with_friends (f : friends_state) (s : charserver) : charserver := {| db := db s; onlineChars := onlineChars s; friends := f |}.
Abbreviation M A := (go charserver friend_event char_err A).
Definition on_db {A} (m : go char_db friend_event char_err A) : M A := zoom db with_db m.
Definition on_friends {A} (m : go friends_state friend_event char_err A) : M A := zoom friends with_friends m.
Definition on_online (f : online -> online) : M unit := modify (fun s => with_onlineChars (f (onlineChars s)) s).

(** ** Answers *)
Record EquipmentDisplay := { DisplayInfoID : u32; InventoryType : u32; EnchantmentID : u32 }.
Definition no_item : EquipmentDisplay := {| DisplayInfoID := 0; InventoryType := 0; EnchantmentID := 0 |}.
Record pb_LogInCharacter := {
  pb_GUID : u64; pb_Name : string; pb_Race : u32; pb_Class : u32; pb_Gender : u32; pb_Skin : u32; pb_Face : u32; pb_HairStyle : u32;
  pb_HairColor : u32; pb_FacialStyle : u32; pb_Level : u32; pb_Zone : u32; pb_Map : u32; pb_PositionX : u32; pb_PositionY : u32; pb_PositionZ : u32;
  pb_GuildID : u32; pb_PlayerFlags : u32; pb_AtLogin : u32; pb_PetEntry : u32; pb_PetModelID : u32; pb_PetLevel : u32;
  pb_Equipments : list EquipmentDisplay; pb_Banned : bool; pb_AccountID : u32
}.
Record WhoItem := { wi_Guid : u64; wi_Name : string; wi_Guild : string; wi_Lvl : u32; wi_Class : u32; wi_Race : u32; wi_Gender : u32; wi_ZoneID : u32 }.
Record WhoQueryResponse := { TotalFound : u32; ItemsToDisplay : list WhoItem }.
Record pb_Char := {
  pc_RealmID : u32; pc_IsOnline : bool; pc_GatewayID : string; pc_CharGUID : u64; pc_CharName : string; pc_CharRace : u32; pc_CharClass : u32;
  pc_CharGender : u32; pc_CharLvl : u32; pc_CharZone : u32; pc_CharMap : u32; pc_CharGuildID : u64; pc_AccountID : u32
}.
Definition char_answer (isOnline : bool) (gatewayID : string) (char : Character) : pb_Char :=
  {| pc_RealmID := RealmID char; pc_IsOnline := isOnline; pc_GatewayID := gatewayID; pc_CharGUID := CharGUID char; pc_CharName := CharName char;
     pc_CharRace := CharRace char; pc_CharClass := CharClass char; pc_CharGender := CharGender char; pc_CharLvl := CharLevel char;
     pc_CharZone := CharZone char; pc_CharMap := CharMap char; pc_CharGuildID := CharGuildID char; pc_AccountID := AccountID char |}.
Definition online_answer (char : Character) : pb_Char := char_answer true (GatewayID char) char.

(** ** The list of characters to log in *)
Definition equipment_display (itemID : u32) : M EquipmentDisplay :=
  if itemID =? 0 then mret no_item
  else
    item ← on_db (TemplateByID itemID);
    mret {| DisplayInfoID := it_DisplayID item; InventoryType := it_InventoryType item; EnchantmentID := 0 |}.
Fixpoint equipment_displays (itemIDs : list u32) : M (list EquipmentDisplay) :=
  match itemIDs with
  | [] => mret []
  | itemID :: itemIDs =>
    e ← equipment_display itemID;
    equipments ← equipment_displays itemIDs;
    mret (e :: equipments)
  end.
Definition login_answer (char : LogInCharacter) (equipments : list EquipmentDisplay) : pb_LogInCharacter :=
  {| pb_GUID := lc_GUID char; pb_Name := lc_Name char; pb_Race := lc_Race char; pb_Class := lc_Class char; pb_Gender := lc_Gender char;
     pb_Skin := lc_Skin char; pb_Face := lc_Face char; pb_HairStyle := lc_HairStyle char; pb_HairColor := lc_HairColor char;
     pb_FacialStyle := lc_FacialStyle char; pb_Level := lc_Level char; pb_Zone := lc_Zone char; pb_Map := lc_Map char;
     pb_PositionX := lc_PositionX char; pb_PositionY := lc_PositionY char; pb_PositionZ := lc_PositionZ char;
     pb_GuildID := lc_GuildID char; pb_PlayerFlags := lc_PlayerFlags char; pb_AtLogin := lc_AtLoginFlags char;
     pb_PetEntry := lc_PetEntry char; pb_PetModelID := lc_PetModelID char; pb_PetLevel := lc_PetLevel char;
     pb_Equipments := equipments; pb_Banned := lc_Banned char; pb_AccountID := lc_AccountID char |}.
Fixpoint login_answers (chars : list LogInCharacter) : M (list pb_LogInCharacter) :=
  match chars with
  | [] => mret []
  | char :: chars =>
    equipments ← equipment_displays (lc_Equipments char);
    result ← login_answers chars;
    mret (login_answer char equipments :: result)
  end.
Definition CharactersToLoginForAccount (realmID accountID : u32) : M (list pb_LogInCharacter) :=
  chars ← on_db (ListCharactersToLogIn realmID accountID);
  login_answers chars.
Definition CharactersToLoginByGUID (realmID : u32) (characterGUID : u64) : M (option pb_LogInCharacter) :=
  char ← on_db (CharacterToLogInByGUID realmID characterGUID);
  match char with
  | None => mret None
  | Some char =>
    equipments ← equipment_displays (lc_Equipments char);
    mret (Some (login_answer char equipments))
  end.
Definition AccountDataForAccount (realmID accountID : u32) : M (list AccountData) := on_db (AccountDataForAccountID realmID accountID).
Definition SavePlayerPosition (realmID : u32) (charGUID : u64) (mapID x y z : u32) : M unit := on_db (SaveCharacterPosition realmID charGUID mapID x y z).

(** ** Who is online *)
Record WhoQueryRequest := { wq_LvlMin : u32; wq_LvlMax : u32; wq_ClassMask : u32; wq_RaceMask : u32; wq_Zones : list u32; wq_Strings : list string }.
Definition who_item (c : Character) : WhoItem :=
  {| wi_Guid := CharGUID c; wi_Name := CharName c; wi_Guild := ""; wi_Lvl := CharLevel c; wi_Class := CharClass c; wi_Race := CharRace c;
     wi_Gender := CharGender c; wi_ZoneID := CharZone c |}.
Definition who_query (request : WhoQueryRequest) : CharactersWhoQuery :=
  {| LvlMin := wrap8 (wq_LvlMin request); LvlMax := wrap8 (wq_LvlMax request); ClassMask := wq_ClassMask request; RaceMask := wq_RaceMask request;
     Zones := wq_Zones request; Strings := wq_Strings request |}.

Section Server.
Context `{MapRange} (same_name : string -> string -> bool).
Definition WhoQuery (realmID : u32) (request : WhoQueryRequest) : M WhoQueryResponse :=
  chars ← gets (fun s => WhoRequest (onlineChars s) realmID (who_query request));
  mret {| TotalFound := wrap32 (len chars); ItemsToDisplay := who_item <$> take 50 chars |}.
Definition CharacterOnlineByName (realmID : u32) (characterName : string) : M (option pb_Char) :=
  char ← gets (fun s => OneByRealmAndName (onlineChars s) realmID characterName);
  mret (online_answer <$> char).
Definition CharacterByName (realmID : u32) (characterName : string) : M (option pb_Char) :=
  char ← gets (fun s => OneByRealmAndName (onlineChars s) realmID characterName);
  match char with
  | Some char => mret (Some (online_answer char))
  | None =>
    char ← on_db (repo_CharacterByName same_name realmID characterName);
    mret (char_answer false "" <$> char)
  end.
Definition ShortOnlineCharactersDataByGUIDs (realmID : u32) (guids : list u64) : M (list pb_Char) :=
  chars ← gets (fun s => CharactersByRealmAndGUIDs (onlineChars s) realmID guids);
  mret (online_answer <$> default [] chars).
Definition GetOnlineCharacters (realmID : u32) : M (list u64 * u32) :=
  guids ← gets (fun s => AllGUIDsByRealm (onlineChars s) realmID);
  mret (guids, wrap32 (len guids)).

(** ** Events *)
Definition composite_HandleCharacterLoggedIn (payload : LoggedInPayload) : M unit :=
  on_online (HandleCharacterLoggedIn payload) ;;
  log_err (on_friends (friends_HandleCharacterLoggedIn payload)).
Definition composite_HandleCharacterLoggedOut (payload : LoggedOutPayload) : M unit :=
  on_online (HandleCharacterLoggedOut payload) ;;
  log_err (on_friends (friends_HandleCharacterLoggedOut payload)).
Definition composite_HandleCharactersUpdates (payload : CharactersUpdatesPayload) : M unit :=
  on_online (HandleCharactersUpdates payload) ;;
  log_err (on_friends (friends_HandleCharactersUpdates payload)).
(** A gateway is gone: one of the character services hears it from the
    registry and tells the others. *)
Definition HandleGWRemovedUnhealthy (realmID : u32) (gatewayID : string) : M unit :=
  userIDs ← gets (fun s => (RemoveAllWithGatewayID realmID gatewayID (onlineChars s)).1);
  on_online (fun o => (RemoveAllWithGatewayID realmID gatewayID o).2) ;;
  if (0 <? length userIDs)%nat then log_err (publish ErrPublish (CharEventCharsDisconnectedUnhealthyGW realmID gatewayID userIDs))
  else mret tt.
Definition HandleCharsDisconnectedUnhealthyGW (realmID : u32) (gatewayID : string) : M unit :=
  on_online (fun o => (RemoveAllWithGatewayID realmID gatewayID o).2).

(** ** Requests about friends *)
Definition srv_GetFriendsList (realmID : u32) (playerGUID : u64) : M FriendsList := on_friends (GetFriendsList realmID playerGUID).
Definition srv_AddFriend (realmID : u32) (playerGUID friendGUID : u64) (friendName note : string) : M AddFriendResult :=
  on_friends (AddFriend realmID playerGUID friendGUID friendName note).
Definition srv_RemoveFriend (realmID : u32) (playerGUID friendGUID : u64) : M unit := on_friends (RemoveFriend realmID playerGUID friendGUID).
Definition srv_SetFriendNote (realmID : u32) (playerGUID friendGUID : u64) (note : string) : M unit :=
  on_friends (SetFriendNote realmID playerGUID friendGUID note).
Definition srv_AddIgnore (realmID : u32) (playerGUID ignoredGUID : u64) : M u32 := on_friends (AddIgnore realmID playerGUID ignoredGUID).
Definition srv_RemoveIgnore (realmID : u32) (playerGUID ignoredGUID : u64) : M unit := on_friends (RemoveIgnore realmID playerGUID ignoredGUID).
Definition srv_NotifyStatusChange (realmID : u32) (playerGUID : u64) (status area level classID : u32) : M unit :=
  on_friends (NotifyStatusChange realmID playerGUID (wrap8 status) area level classID).
End Server.
