(* ===== verification/CharFacts.v ===== *)
(** * CharFacts: the character service as a whole
    (apps/charserver/cmd/charserver/main.go, server/charserver.go) *)
From Stdlib Require Import Ascii.
From S2P Require Import Prelude Safety GoRuntime GoStrings OnlineCharacters Friends CharRepo CharServer.

(** ** Online in both places *)
Section Events.
Context `{MapRange}.
Abbreviation M A := (go charserver friend_event char_err A).
Implicit Types s : charserver.

Definition serve_event (op : char_op) : M unit :=
  match op with
  | LogIn payload => composite_HandleCharacterLoggedIn payload
  | LogOut payload => composite_HandleCharacterLoggedOut payload
  | Updates payload => composite_HandleCharactersUpdates payload
  | GatewayGone r gw => HandleGWRemovedUnhealthy r gw
  end.
Fixpoint serve_events (ops : list char_op) : M unit :=
  match ops with [] => mret tt | op :: ops => serve_event op ;; serve_events ops end.

(** What an event does to the friends' cache. *)
Definition info_of (c : Character) : OnlinePlayerInfo :=
  {| oi_GUID := CharGUID c; oi_Level := CharLevel c; oi_Class := CharClass c; oi_Area := CharZone c; oi_Status := 1 |}.
Definition cache_op (op : char_op) (t : gmap u64 OnlinePlayerInfo) : gmap u64 OnlinePlayerInfo :=
  match op with
  | LogIn c => <[CharGUID c := info_of c]> t
  | LogOut p => delete (lo_CharGUID p) t
  | Updates p => foldl (fun t update => alter (update_info update) (u_ID update) t) t (us_Updates p)
  | GatewayGone _ _ => t
  end.

(** The realms with characters have a database. *)
Definition op_realm (op : char_op) : u32 :=
  match op with LogIn c => RealmID c | LogOut p => lo_RealmID p | Updates p => us_RealmID p | GatewayGone r _ => r end.

Definition friends_are (T : gmap u32 (list FriendEntry)) (t : gmap u64 OnlinePlayerInfo) (c : friends_state) : Prop :=
  social c = T /\ onlineInfoByGUID c = t.
Lemma NotifyStatusChange_keeps r p status area level classID T t : is_Some (T !! r) ->
  spec (friends_are T t) (NotifyStatusChange r p status area level classID : go friends_state friend_event char_err unit)
    (fun _ => friends_are T t) (fun _ => friends_are T t) (fun _ => False).
Proof.
  intros [rows Hrows] [c fs evs] [Hs Ht]. cbn [st] in *.
  unfold NotifyStatusChange, GetPlayersWhoHaveAsFriend, rows_of, mbind, go_bind, gets, deref, ext, id, mret, go_ret. cbn [st faults].
  rewrite Hs, Hrows. destruct fs as [|[] fs]; cbn; try done; (destruct (_ =? _)%nat; [done|]); unfold publish, ext; cbn; try done.
  by destruct fs as [|[] fs].
Qed.
(** A change of the cache, then the friends are told. *)
Lemma online_change_keeps r p status area level classID T t f : is_Some (T !! r) ->
  spec (friends_are T t)
    (modify (fun c => with_online (f (onlineInfoByGUID c)) c) ;; fs ← gets friendsService;
     if fs : bool then NotifyStatusChange r p status area level classID else mret tt : go friends_state friend_event char_err unit)
    (fun _ => friends_are T (f t)) (fun _ => friends_are T (f t)) (fun _ => False).
Proof.
  intros Hr. apply (spec_bind _ (fun _ => friends_are T (f t))); [apply spec_modify; by intros c [Hs <-]|]. intros _.
  apply (spec_bind _ (fun _ => friends_are T (f t))); [by apply spec_gets_post|]. intros [].
  - by apply NotifyStatusChange_keeps.
  - by apply spec_ret.
Qed.
Definition server_is (T : gmap u32 (list FriendEntry)) (o : online) (t : gmap u64 OnlinePlayerInfo) s : Prop :=
  onlineChars s = o /\ friends_are T t (friends s).
(** One handler after the other. *)
Lemma composite_spec T o t f (m : go friends_state friend_event char_err unit) t' :
  spec (friends_are T t) m (fun _ => friends_are T t') (fun _ => friends_are T t') (fun _ => False) ->
  spec (server_is T o t) (on_online f ;; log_err (on_friends m)) (fun _ => server_is T (f o) t') (fun _ _ => False) (fun _ => False).
Proof.
  intros Hm. apply (spec_bind _ (fun _ => server_is T (f o) t)); [apply spec_modify; by intros s [<- Hf]|]. intros _ [s fs evs] [Ho Hf].
  specialize (Hm (Sys (friends s) fs evs) Hf). unfold log_err, on_friends, zoom. cbn [st faults events]. by destruct (m _) as [[[]|e|] s'].
Qed.
(** One event: the repository and the cache take their steps, whatever fails. *)
Lemma serve_event_spec op T o t : is_Some (T !! op_realm op) ->
  spec (server_is T o t) (serve_event op) (fun _ => server_is T (run_op op o) (cache_op op t)) (fun _ _ => False) (fun _ => False).
Proof.
  intros Hr. destruct op as [c|p|p|r gw]; cbn [serve_event run_op cache_op op_realm] in *.
  - by apply composite_spec, (online_change_keeps _ _ _ _ _ _ _ _ (fun t => <[CharGUID c := info_of c]> t)).
  - by apply composite_spec, (online_change_keeps _ _ _ _ _ _ _ _ (delete (lo_CharGUID p))).
  - apply composite_spec. apply spec_modify. by intros c [Hs <-].
  - unfold HandleGWRemovedUnhealthy. apply (spec_bind _ (fun _ => server_is T o t)); [by apply spec_gets_post|]. intros userIDs.
    apply (spec_bind _ (fun _ => server_is T (RemoveAllWithGatewayID r gw o).2 t)); [apply spec_modify; by intros s [<- Hf]|]. intros _.
    destruct (_ <? _)%nat; [|by apply spec_ret]. intros [s fs evs] Hs. unfold log_err, publish, ext. cbn [faults]. by destruct fs as [|[] fs].
Qed.
Lemma serve_events_spec ops T : Forall (fun op => is_Some (T !! op_realm op)) ops -> forall o t,
  spec (server_is T o t) (serve_events ops) (fun _ => server_is T (run_ops ops o) (foldl (fun t op => cache_op op t) t ops))
    (fun _ _ => False) (fun _ => False).
Proof.
  induction 1 as [|op ops Hop _ IH]; intros o t; cbn [serve_events]; [by apply spec_ret|].
  eapply spec_bind; [by apply serve_event_spec|]. intros ?. apply IH.
Qed.

(** Each guid belongs to one realm, and no gateway is lost. *)
Definition op_at_home (home : u64 -> u32) (op : char_op) : Prop :=
  match op with
  | LogIn c => home (CharGUID c) = RealmID c
  | LogOut p => home (lo_CharGUID p) = lo_RealmID p
  | Updates p => Forall (fun u => home (u_ID u) = us_RealmID p) (us_Updates p)
  | GatewayGone _ _ => False
  end.
Definition same_player (c : Character) (i : OnlinePlayerInfo) : Prop := oi_Level i = CharLevel c /\ oi_Class i = CharClass c.
Record agree (home : u64 -> u32) (m : gmap (u32 * u64) Character) (t : gmap u64 OnlinePlayerInfo) : Prop := {
  ag_info : forall g, option_Forall2 same_player (m !! (home g, g)) (t !! g);
  ag_home : forall r g, is_Some (m !! (r, g)) -> r = home g
}.
Lemma agree_updates home r us : forall m t, Forall (fun u => home (u_ID u) = r) us -> agree home m t ->
  agree home (foldl (spec_update r) m us) (foldl (fun t update => alter (update_info update) (u_ID update) t) t us).
Proof.
  induction us as [|u us IH]; intros m t Hus Ha; [done|]. apply Forall_cons in Hus as [Hu Hus]. apply IH; [done|]. destruct Ha as [Hi Hh]. split.
  - intros g. unfold spec_update. destruct (decide (u_ID u = g)) as [<-|Hne].
    + rewrite Hu, !lookup_alter_eq. specialize (Hi (u_ID u)). rewrite Hu in Hi. destruct Hi as [c i [Hl Hc]|]; [|constructor]. constructor.
      split; [|done]. cbn. by rewrite Hl.
    + rewrite !lookup_alter_ne by congruence. apply Hi.
  - intros r' g. unfold spec_update. rewrite lookup_alter_is_Some. apply Hh.
Qed.
Lemma agree_op home m t op : op_at_home home op -> agree home m t -> agree home (spec_op op m) (cache_op op t).
Proof.
  intros Hop Ha. destruct op as [c|p|p|]; cbn [op_at_home spec_op cache_op] in *; [| |by apply agree_updates|done]; destruct Ha as [Hi Hh]; split.
  - intros g. rewrite !lookup_insert. destruct (decide (CharGUID c = g)) as [<-|Hne].
    + rewrite decide_True by (by rewrite Hop). by constructor.
    + rewrite decide_False by (intros [=]; tauto). apply Hi.
  - intros r g. rewrite lookup_insert. case_decide as E; [injection E as <- <-; by intros _|apply Hh].
  - intros g. rewrite !lookup_delete. destruct (decide (lo_CharGUID p = g)) as [<-|Hne].
    + rewrite decide_True by (by rewrite Hop). constructor.
    + rewrite decide_False by (intros [=]; tauto). apply Hi.
  - intros r g. rewrite lookup_delete. case_decide; [by intros [? ?]|apply Hh].
Qed.
Lemma agree_ops home ops : forall m t, Forall (op_at_home home) ops -> agree home m t ->
  agree home (spec_ops ops m) (foldl (fun t op => cache_op op t) t ops).
Proof.
  induction ops as [|op ops IH]; intros m t Hops Ha; [done|]. apply Forall_cons in Hops as [Hop Hops]. apply IH; [done|]. by apply agree_op.
Qed.

(** The server before any event. *)
Definition server0 (d : char_db) (T : gmap u32 (list FriendEntry)) : charserver :=
  {| db := d; onlineChars := NewCharactersOnlineInMem; friends := {| social := T; onlineInfoByGUID := ∅; friendsService := true |} |}.


(** A lost gateway takes its characters from the repository, not from the cache. *)
Lemma lost_gateway_friends_stay s fs evs r gw : is_Some (social (friends s) !! r) ->
  match HandleGWRemovedUnhealthy r gw (Sys s fs evs) with
  | (Ok _, s') => onlineInfoByGUID (friends (st s')) = onlineInfoByGUID (friends s) /\
                  onlineChars (st s') = (RemoveAllWithGatewayID r gw (onlineChars s)).2
  | _ => False
  end.
Proof.
  intros Hr. pose proof (serve_event_spec (GatewayGone r gw) _ (onlineChars s) (onlineInfoByGUID (friends s)) Hr (Sys s fs evs)) as Hs.
  specialize (Hs (conj eq_refl (conj eq_refl eq_refl))). cbn [serve_event] in Hs.
  destruct (HandleGWRemovedUnhealthy _ _ _) as [[?|?|] s']; [|done..]. by destruct Hs as (? & ? & ?).
Qed.
End Events.

(** ** The list of characters to log in *)
Section Login.
Abbreviation M A := (go charserver friend_event char_err A).
Implicit Types s : charserver.

Definition has_template (s : charserver) (itemID : u32) : Prop := itemID = 0 \/ is_Some (item_template (db s) !! itemID).
#[local] Instance has_template_dec s itemID : Decision (has_template s itemID) := ltac:(unfold has_template; apply _).
Definition display_of (s : charserver) (itemID : u32) : EquipmentDisplay :=
  if itemID =? 0 then no_item else
  match item_template (db s) !! itemID with
  | Some item => {| DisplayInfoID := it_DisplayID item; InventoryType := it_InventoryType item; EnchantmentID := 0 |}
  | None => no_item
  end.
Lemma equipment_display_run s fs evs i : equipment_display i (Sys s fs evs) =
  (if decide (has_template s i) then Ok (display_of s i) else Fail ItemsTemplateNotFound, Sys s fs evs).
Proof.
  unfold equipment_display, display_of. destruct (Z.eqb_spec i 0) as [->|Hne]; [by rewrite decide_True by (by left)|].
  unfold on_db, TemplateByID, zoom, mbind, go_bind, gets, not_nil, mret, go_ret, fail. cbn [st faults events].
  destruct s as [d o f]. destruct (decide (has_template _ i)) as [[?|[it E]]|Hn]; [done| |]; cbn [db] in *.
  - by rewrite E.
  - destruct (item_template d !! i) eqn:E; [|done]. destruct Hn. right. cbn. by rewrite E.
Qed.
Lemma equipment_displays_run s fs evs is_ : equipment_displays is_ (Sys s fs evs) =
  (if decide (Forall (has_template s) is_) then Ok (display_of s <$> is_) else Fail ItemsTemplateNotFound, Sys s fs evs).
Proof.
  induction is_ as [|i is_ IH]; cbn [equipment_displays]; [by rewrite decide_True by constructor|].
  unfold mbind, go_bind. rewrite equipment_display_run. destruct (decide (has_template s i)) as [Hi|Hi].
  - rewrite IH. case_decide as H1; case_decide as H2; try done; [by destruct H2; constructor|by apply Forall_cons in H2 as [_ ?]].
  - rewrite decide_False; [done|]. by intros [? ?]%Forall_cons.
Qed.
Lemma login_answers_run s fs evs chars : login_answers chars (Sys s fs evs) =
  (if decide (Forall (fun c => Forall (has_template s) (lc_Equipments c)) chars)
   then Ok ((fun c => login_answer c (display_of s <$> lc_Equipments c)) <$> chars) else Fail ItemsTemplateNotFound, Sys s fs evs).
Proof.
  induction chars as [|c chars IH]; cbn [login_answers]; [by rewrite decide_True by constructor|].
  unfold mbind, go_bind. rewrite equipment_displays_run. destruct (decide (Forall (has_template s) (lc_Equipments c))) as [Hi|Hi].
  - rewrite IH. case_decide as H1; case_decide as H2; try done; [by destruct H2; constructor|by apply Forall_cons in H2 as [_ ?]].
  - rewrite decide_False; [done|]. by intros [? ?]%Forall_cons.
Qed.

(** The rows of an account's characters that are not deleted. *)
Definition account_rows (d : realm_db) (accountID : u32) : list char_row :=
  filter (fun row => lc_AccountID (row_item row) = accountID /\ row_deleted row = false) (char_rows d).
Definition readable (row : char_row) : Prop := (45 <= length (Split " "%char (row_equipmentCache row)))%nat.
(** The item in a slot: the token at twice its position. *)
Definition slot_item (row : char_row) (j : nat) : u32 := wrap32 (Atoi_value (default "" (Split " "%char (row_equipmentCache row) !! (2 * j)%nat))).
Definition row_items (row : char_row) : list u32 := slot_item row <$> seq 0 23.
(** What the account's owner sees of a row. *)
Definition row_answer (s : charserver) (row : char_row) (a : pb_LogInCharacter) : Prop :=
  pb_GUID a = lc_GUID (row_item row) /\ pb_Name a = lc_Name (row_item row) /\ pb_Level a = lc_Level (row_item row) /\
  pb_Map a = lc_Map (row_item row) /\ pb_Zone a = lc_Zone (row_item row) /\
  (pb_Banned a = true <-> 0 < row_bannedGuid row) /\ pb_Equipments a = (fun i => display_of s i) <$> row_items row.

Lemma scan_row_spec row : scan_row row = None /\ ~ readable row \/
  exists c, scan_row row = Some c /\ readable row /\ lc_Equipments c = row_items row /\
    forall s, row_answer s row (login_answer c (display_of s <$> lc_Equipments c)).
Proof.
  unfold scan_row, readable, parse_equipment. rewrite equip_loop_spec. case_decide as Hd.
  - right. cbn [mbind option_bind]. eexists. split; [done|]. split; [unfold equip_slots in Hd; lia|]. split; [done|].
    intros s. unfold row_answer. cbn. split_and!; try done. apply Z.ltb_lt.
  - left. split; [done|]. unfold equip_slots in Hd. lia.
Qed.
Lemma scan_rows_spec rows : mapM scan_row rows = None /\ ~ Forall readable rows \/
  exists chars, mapM scan_row rows = Some chars /\ Forall readable rows /\
    Forall2 (fun row c => lc_Equipments c = row_items row /\ forall s, row_answer s row (login_answer c (display_of s <$> lc_Equipments c))) rows chars.
Proof.
  induction rows as [|row rows IH]; [right; by exists []|]. cbn [mapM]. destruct (scan_row_spec row) as [[-> Hr]|(c & -> & Hr & Hc)].
  - left. split; [done|]. by intros [? ?]%Forall_cons.
  - cbn [mbind option_bind]. destruct IH as [[-> Hrs]|(cs & -> & Hrs & Hcs)]; cbn.
    + left. split; [done|]. by intros [? ?]%Forall_cons.
    + right. exists (c :: cs). split; [done|]. split; by constructor.
Qed.

End Login.

(** ** Samples *)
#[local] Existing Instance map_range_canonical.
Definition sample_row (guid : u64) (cache : string) : char_row :=
  {| row_item := {| lc_GUID := guid; lc_AccountID := 7; lc_Name := "Ann"; lc_Race := 1; lc_Class := 2; lc_Gender := 0; lc_Skin := 0; lc_Face := 0;
       lc_HairStyle := 0; lc_HairColor := 0; lc_FacialStyle := 0; lc_Level := 30; lc_Zone := 12; lc_Map := 0; lc_PositionX := 0; lc_PositionY := 0;
       lc_PositionZ := 0; lc_GuildID := 0; lc_PlayerFlags := 0; lc_AtLoginFlags := 0; lc_PetEntry := 0; lc_PetModelID := 0; lc_PetLevel := 0;
       lc_Equipments := []; lc_Enchants := []; lc_Banned := false |};
     row_equipmentCache := cache; row_bannedGuid := 0; row_deleted := false |}.
Definition sample_server (cache : string) : charserver :=
  {| db := {| realms := {[1 := {| char_rows := [sample_row 5 cache]; account_data := [] |}]}; item_template := {[3 := {| it_ID := 3; it_DisplayID := 33; it_InventoryType := 1 |}]} |};
     onlineChars := NewCharactersOnlineInMem; friends := {| social := ∅; onlineInfoByGUID := ∅; friendsService := true |} |}.
Definition sample_cache (first : u32) : string := Join " "%char (equipment_tokens ((first, 0) :: replicate 22 (0, 0))).
Example login_shows_item :
  match (CharactersToLoginForAccount 1 7 (Sys (sample_server (sample_cache 3)) [] [])).1 with
  | Ok [a] => head (pb_Equipments a) = Some {| DisplayInfoID := 33; InventoryType := 1; EnchantmentID := 0 |}
  | _ => False
  end.
Proof. vm_compute. reflexivity. Qed.
Example login_unknown_item : (CharactersToLoginForAccount 1 7 (Sys (sample_server (sample_cache 4)) [] [])).1 = Fail ItemsTemplateNotFound.
Proof. vm_compute. reflexivity. Qed.
Example login_short_cache : (CharactersToLoginForAccount 1 7 (Sys (sample_server "") [] [])).1 = Panic.
Proof. vm_compute. reflexivity. Qed.
