(* ===== verification/MailRepo.v ===== *)
(** * MailRepo: the mail tables
    (apps/mailserver/repo/mail.go, mail_mysql.go, stmts.go)

    A realm's database has the mails in the order of their ids, the rows that
    tie items to mails, and the items by guid.  A transaction takes effect when
    it commits; an id that it took stays taken.  [client_found_rows] is the
    parameter of the driver that decides whether an update reports the rows it
    matched, or only the rows it changed, which is the default. *)
From S2P Require Import Prelude.

Record ItemAttachment := {
  at_GUID : u64; at_OwnerGUID : u64; at_Entry : u64; at_Pos : u8; at_Count : int; at_Charges : int; at_Flags : u64;
  at_RandomPropertyID : u64; at_PropertySeed : u64; at_Durability : int; at_Text : string
}.
Definition MailFlagRead : u16 := 1.
Definition MailFlagReturned : u16 := 2.
Definition MailFlagCashOnDelivery : u16 := 8.
Definition MailStationeryTypeDefault : u8 := 41.
Record Mail := {
  mail_ID : u64; mail_Type : u8; Stationery : u8; TemplateID : u32; SenderGuid : u64; ReceiverGuid : u64; FlagsMask : u16;
  Subject : string; Body : string; MoneyToSend : Z; CashOnDelivery : Z; DeliveryTimestamp : Z; ExpirationTimestamp : Z;
  HasItemAttachments : bool; Attachments : list ItemAttachment
}.
#[global] Instance ItemAttachment_eq_dec : EqDecision ItemAttachment.
Proof. solve_decision. Defined.
#[global] Instance Mail_eq_dec : EqDecision Mail.
Proof. solve_decision. Defined.

(** ** The tables *)
Record item_instance := { ii_Entry : u64; ii_OwnerGUID : u64; ii_Count : int; ii_Flags : u64; ii_RandomPropertyID : u64; ii_Durability : int; ii_Text : string }.
Record mail_item := { mi_mail : u64; mi_item : u64; mi_receiver : u64 }.
(** A row of the mail table is a mail without attachments. *)
Record mail_tables := { mails : list Mail; mail_items : list mail_item; instances : gmap u64 item_instance; next_id : u64 }.
Definition with_mails (l : list Mail) (d : mail_tables) : mail_tables :=
  {| mails := l; mail_items := mail_items d; instances := instances d; next_id := next_id d |}.
Definition with_mail_items (l : list mail_item) (d : mail_tables) : mail_tables :=
  {| mails := mails d; mail_items := l; instances := instances d; next_id := next_id d |}.
Definition with_instances (t : gmap u64 item_instance) (d : mail_tables) : mail_tables :=
  {| mails := mails d; mail_items := mail_items d; instances := t; next_id := next_id d |}.
Definition with_next_id (n : u64) (d : mail_tables) : mail_tables :=
  {| mails := mails d; mail_items := mail_items d; instances := instances d; next_id := n |}.

Inductive mail_event := MailEventIncomingMail (RealmID : u32) (SenderGUID ReceiverGUID : u64) (DeliveryTimestamp : Z) (MailID : u32).
Inductive mail_err := ErrDB | ErrPublish | ErrMailNotFound | ErrMailItemNotFound | ErrScan | ErrNotEnoughRight | ErrNoReceiver.
Abbreviation mail_state := (gmap u32 mail_tables).
Abbreviation M A := (go mail_state mail_event mail_err A).

(** A realm without a database is a nil pointer. *)
Definition db_of (realmID : u32) : M mail_tables := t ← gets id; deref (t !! realmID).
Definition query (realmID : u32) : M mail_tables := d ← db_of realmID; ext ErrDB ;; mret d.
Definition exec (realmID : u32) (f : mail_tables -> mail_tables) : M unit :=
  d ← query realmID; modify (<[realmID := f d]>).

(** ** A new mail *)
Definition mail_row (mail : Mail) (id : u64) : Mail :=
  {| mail_ID := id; mail_Type := mail_Type mail; Stationery := Stationery mail; TemplateID := TemplateID mail; SenderGuid := SenderGuid mail;
     ReceiverGuid := ReceiverGuid mail; FlagsMask := FlagsMask mail; Subject := Subject mail; Body := Body mail;
     MoneyToSend := MoneyToSend mail; CashOnDelivery := CashOnDelivery mail; DeliveryTimestamp := DeliveryTimestamp mail;
     ExpirationTimestamp := ExpirationTimestamp mail; HasItemAttachments := (0 <? length (Attachments mail))%nat; Attachments := [] |}.
Definition with_id (mail : Mail) (id : u64) : Mail :=
  {| mail_ID := id; mail_Type := mail_Type mail; Stationery := Stationery mail; TemplateID := TemplateID mail; SenderGuid := SenderGuid mail;
     ReceiverGuid := ReceiverGuid mail; FlagsMask := FlagsMask mail; Subject := Subject mail; Body := Body mail;
     MoneyToSend := MoneyToSend mail; CashOnDelivery := CashOnDelivery mail; DeliveryTimestamp := DeliveryTimestamp mail;
     ExpirationTimestamp := ExpirationTimestamp mail; HasItemAttachments := HasItemAttachments mail; Attachments := Attachments mail |}.
(** An item that exists keeps its entry. *)
Definition upsert_instance (t : gmap u64 item_instance) (att : ItemAttachment) : gmap u64 item_instance :=
  <[at_GUID att := {| ii_Entry := match t !! at_GUID att with Some old => ii_Entry old | None => at_Entry att end;
                      ii_OwnerGUID := at_OwnerGUID att; ii_Count := at_Count att; ii_Flags := at_Flags att;
                      ii_RandomPropertyID := at_RandomPropertyID att; ii_Durability := at_Durability att; ii_Text := at_Text att |}]> t.
Definition attachment_item (id receiver : u64) (att : ItemAttachment) : mail_item := {| mi_mail := id; mi_item := at_GUID att; mi_receiver := receiver |}.
Definition insert_mail (mail : Mail) (id : u64) (d : mail_tables) : mail_tables :=
  {| mails := mails d ++ [mail_row mail id];
     mail_items := mail_items d ++ (attachment_item id (ReceiverGuid mail) <$> Attachments mail);
     instances := foldl upsert_instance (instances d) (Attachments mail);
     next_id := next_id d |}.
(** The statements of the loop over the attachments. *)
Fixpoint exec_attachments (atts : list ItemAttachment) : M unit :=
  match atts with
  | [] => mret tt
  | _ :: atts => ext ErrDB ;; ext ErrDB ;; exec_attachments atts
  end.
Definition AddMail (realmID : u32) (mail : Mail) : M Mail :=
  db_of realmID ;;
  ext ErrDB ;;
  ext ErrDB ;;
  d ← db_of realmID;
  let id := next_id d in
  modify (<[realmID := with_next_id (id + 1) d]>) ;;
  ext ErrDB ;;
  ext ErrDB ;;
  ext ErrDB ;;
  exec_attachments (Attachments mail) ;;
  ext ErrDB ;;
  d ← db_of realmID;
  modify (<[realmID := insert_mail mail id d]>) ;;
  mret (with_id mail id).

(** ** Reading *)
Definition item_attachment (guid : u64) (ii : item_instance) : ItemAttachment :=
  {| at_GUID := guid; at_OwnerGUID := ii_OwnerGUID ii; at_Entry := ii_Entry ii; at_Pos := 0; at_Count := ii_Count ii; at_Charges := 0;
     at_Flags := ii_Flags ii; at_RandomPropertyID := ii_RandomPropertyID ii; at_PropertySeed := 0; at_Durability := ii_Durability ii; at_Text := ii_Text ii |}.
(** The rows of mail items joined with their mails and items; an item that does
    not exist leaves NULLs, which cannot be scanned. *)
Definition joined_items (d : mail_tables) (which : Mail -> bool) : list (u64 * option ItemAttachment) :=
  mail_items d ≫= fun mi =>
    (fun m => (mail_ID m, item_attachment (mi_item mi) <$> instances d !! mi_item mi))
      <$> filter (fun m => mail_ID m = mi_mail mi /\ which m = true) (mails d).
Definition add_attachment (att : ItemAttachment) (mail : Mail) : Mail :=
  {| mail_ID := mail_ID mail; mail_Type := mail_Type mail; Stationery := Stationery mail; TemplateID := TemplateID mail; SenderGuid := SenderGuid mail;
     ReceiverGuid := ReceiverGuid mail; FlagsMask := FlagsMask mail; Subject := Subject mail; Body := Body mail;
     MoneyToSend := MoneyToSend mail; CashOnDelivery := CashOnDelivery mail; DeliveryTimestamp := DeliveryTimestamp mail;
     ExpirationTimestamp := ExpirationTimestamp mail; HasItemAttachments := HasItemAttachments mail; Attachments := Attachments mail ++ [att] |}.

(** A mail that is not in the index is found at position 0. *)
Fixpoint attach_loop (rows : list (u64 * option ItemAttachment)) (mailsByID : gmap u64 nat) (mails : list Mail) : M (list Mail) :=
  match rows with
  | [] => mret mails
  | (mailID, attachment) :: rows =>
    attachment ← not_nil ErrScan attachment;
    let i := default 0%nat (mailsByID !! mailID) in
    mail ← deref (mails !! i);
    attach_loop rows mailsByID (<[i := add_attachment attachment mail]> mails)
  end.
Definition index_mails (mails : list Mail) : gmap u64 nat :=
  foldl (fun t e => <[mail_ID e.2 := e.1]> t) ∅ (imap pair mails).
Definition MailListForPlayer (realmID : u32) (playerGUID : u64) : M (list Mail) :=
  d ← query realmID;
  let mails := reverse (filter (fun m => ReceiverGuid m = playerGUID) (mails d)) in
  d ← query realmID;
  attach_loop (joined_items d (fun m => ReceiverGuid m =? playerGUID)) (index_mails mails) mails.

Definition mailByIDWithoutAttachments (realmID : u32) (mailID : u64) : M Mail :=
  d ← query realmID;
  match last (filter (fun m => mail_ID m = mailID) (mails d)) with
  | None => fail ErrMailNotFound
  | Some mail => if mail_ID mail =? 0 then fail ErrMailNotFound else mret mail
  end.
Fixpoint attach_all (rows : list (u64 * option ItemAttachment)) (mail : Mail) : M Mail :=
  match rows with
  | [] => mret mail
  | (_, attachment) :: rows =>
    attachment ← not_nil ErrScan attachment;
    attach_all rows (add_attachment attachment mail)
  end.
Definition repo_MailByID (realmID : u32) (mailID : u64) : M Mail :=
  mail ← mailByIDWithoutAttachments realmID mailID;
  d ← query realmID;
  attach_all (joined_items d (fun m => mail_ID m =? mailID)) mail.
Definition ExpiredMails (realmID : u32) (now : Z) : M (list Mail) :=
  d ← query realmID;
  mret (filter (fun m => ExpirationTimestamp m < now) (mails d)).
Definition MailItemsIDsByMailIDs (realmID : u32) (IDs : list u64) : M (list u64) :=
  d ← query realmID;
  mret (mi_item <$> filter (fun mi => mi_mail mi ∈ IDs) (mail_items d)).

(** ** Changing *)
Section Updates.
Context (client_found_rows : bool).
Definition affected (which : Mail -> bool) (old new : list Mail) : nat :=
  if client_found_rows then length (filter (fun m => which m = true) old)
  else length (filter (fun p => p.1 <> p.2) (zip old new)).
Definition update_rows (which : Mail -> bool) (f : Mail -> Mail) (l : list Mail) : list Mail := (fun m => if which m then f m else m) <$> l.
(** The number of rows that the driver reports. *)
Definition exec_update (realmID : u32) (which : Mail -> bool) (f : Mail -> Mail) : M nat :=
  d ← query realmID;
  let new := update_rows which f (mails d) in
  modify (<[realmID := with_mails new d]>) ;;
  mret (affected which (mails d) new).

Definition with_flags (mask : u16) (mail : Mail) : Mail :=
  {| mail_ID := mail_ID mail; mail_Type := mail_Type mail; Stationery := Stationery mail; TemplateID := TemplateID mail; SenderGuid := SenderGuid mail;
     ReceiverGuid := ReceiverGuid mail; FlagsMask := mask; Subject := Subject mail; Body := Body mail;
     MoneyToSend := MoneyToSend mail; CashOnDelivery := CashOnDelivery mail; DeliveryTimestamp := DeliveryTimestamp mail;
     ExpirationTimestamp := ExpirationTimestamp mail; HasItemAttachments := HasItemAttachments mail; Attachments := Attachments mail |}.
(** The columns that the update statement sets: all but the id and has_items. *)
Definition set_columns (mail row : Mail) : Mail :=
  {| mail_ID := mail_ID row; mail_Type := mail_Type mail; Stationery := Stationery mail; TemplateID := TemplateID mail; SenderGuid := SenderGuid mail;
     ReceiverGuid := ReceiverGuid mail; FlagsMask := FlagsMask mail; Subject := Subject mail; Body := Body mail;
     MoneyToSend := MoneyToSend mail; CashOnDelivery := CashOnDelivery mail; DeliveryTimestamp := DeliveryTimestamp mail;
     ExpirationTimestamp := ExpirationTimestamp mail; HasItemAttachments := HasItemAttachments row; Attachments := Attachments row |}.
Definition UpdateMailFlagsMaskForPlayer (realmID : u32) (playerGUID mailID : u64) (mask : u16) : M unit :=
  rows ← exec_update realmID (fun m => (mail_ID m =? mailID) && (ReceiverGuid m =? playerGUID)) (with_flags mask);
  guard_err (rows =? 0)%nat ErrMailNotFound.
Definition UpdateMailWithoutAttachments (realmID : u32) (mail : Mail) : M unit :=
  exec_update realmID (fun m => mail_ID m =? mail_ID mail) (set_columns mail) ;; mret tt.
Definition updateMailByIDWithoutAttachments (realmID : u32) (mail : Mail) : M unit :=
  rowsEffected ← exec_update realmID (fun m => mail_ID m =? mail_ID mail) (set_columns mail);
  guard_err (rowsEffected =? 0)%nat ErrMailNotFound.
Definition UpdateMailItemsOwner (realmID : u32) (mailID newReceiverID : u64) : M unit :=
  exec realmID (fun d => with_mail_items ((fun mi => if mi_mail mi =? mailID
    then {| mi_mail := mi_mail mi; mi_item := mi_item mi; mi_receiver := newReceiverID |} else mi) <$> mail_items d) d).

Definition delete_mail_item (realmID : u32) (which : mail_item -> bool) : M unit :=
  d ← query realmID;
  modify (<[realmID := with_mail_items (filter (fun mi => which mi = false) (mail_items d)) d]>) ;;
  guard_err (length (filter (fun mi => which mi = true) (mail_items d)) =? 0)%nat ErrMailItemNotFound.
Definition repo_RemoveMailItem (realmID : u32) (mailID mailItemGUID : u64) : M unit :=
  delete_mail_item realmID (fun mi => (mi_mail mi =? mailID) && (mi_item mi =? mailItemGUID)).
Definition RemoveMailItemForPlayer (realmID : u32) (mailID mailItemGUID playerGUID : u64) : M unit :=
  delete_mail_item realmID (fun mi => (mi_mail mi =? mailID) && (mi_item mi =? mailItemGUID) && (mi_receiver mi =? playerGUID)).

Definition without_money (mail : Mail) : Mail :=
  {| mail_ID := mail_ID mail; mail_Type := mail_Type mail; Stationery := Stationery mail; TemplateID := TemplateID mail; SenderGuid := SenderGuid mail;
     ReceiverGuid := ReceiverGuid mail; FlagsMask := FlagsMask mail; Subject := Subject mail; Body := Body mail;
     MoneyToSend := 0; CashOnDelivery := CashOnDelivery mail; DeliveryTimestamp := DeliveryTimestamp mail;
     ExpirationTimestamp := ExpirationTimestamp mail; HasItemAttachments := HasItemAttachments mail; Attachments := Attachments mail |}.
Definition repo_RemoveMailMoney (realmID : u32) (mailID : u64) : M Z :=
  mail ← mailByIDWithoutAttachments realmID mailID;
  updateMailByIDWithoutAttachments realmID (without_money mail) ;;
  mret (MoneyToSend mail).
Definition RemoveMailMoneyForPlayer (realmID : u32) (mailID playerGUID : u64) : M Z :=
  mail ← mailByIDWithoutAttachments realmID mailID;
  if negb (ReceiverGuid mail =? playerGUID) then mret 0
  else
    updateMailByIDWithoutAttachments realmID (without_money mail) ;;
    mret (MoneyToSend mail).

(** An empty list of ids is a syntax error. *)
Definition exec_in (realmID : u32) (ids : list u64) (f : mail_tables -> mail_tables) : M unit :=
  db_of realmID ;;
  match ids with [] => fail ErrDB | _ => exec realmID f end.
Definition DeleteMailsWithoutAttachments (realmID : u32) (IDs : list u64) : M unit :=
  exec_in realmID IDs (fun d => with_mails (filter (fun m => mail_ID m ∉ IDs) (mails d)) d).
Definition DeleteItemsWithIDs (realmID : u32) (itemIDs : list u64) : M unit :=
  exec_in realmID itemIDs (fun d => with_instances (filter (fun e => e.1 ∉ itemIDs) (instances d)) d).
Definition DeleteMailItemsWithIDs (realmID : u32) (itemIDs : list u64) : M unit :=
  exec_in realmID itemIDs (fun d => with_mail_items (filter (fun mi => mi_item mi ∉ itemIDs) (mail_items d)) d).
End Updates.
