(* ===== verification/MailService.v ===== *)
(** * MailService: sending, reading and cleaning up mail
    (apps/mailserver/service/mail.go, cleanup-ticker.go, server/mail.go)

    [now] is the clock in nanoseconds; it stands still within a request. *)
From S2P Require Import Prelude MailRepo.

Abbreviation M A := (go mail_state mail_event mail_err A).
Definition second : Z := 10 ^ 9.
(** [t.Unix()] *)
Definition Unix (t : Z) : Z := t / second.
(** A product of [time.Duration]s keeps its 64 bits. *)
Definition wrap_int64 (x : Z) : Z := (x + 2 ^ 63) mod 2 ^ 64 - 2 ^ 63.

Section Service.
Context (client_found_rows : bool) (defaultMailExpirationTime : Z) (now : Z).

Definition incoming_mail (realmID : u32) (mail : Mail) : M unit :=
  log_err (publish ErrPublish (MailEventIncomingMail realmID (SenderGuid mail) (ReceiverGuid mail) (DeliveryTimestamp mail) (wrap32 (mail_ID mail)))).
Definition with_defaults (mail : Mail) : Mail :=
  {| mail_ID := mail_ID mail; mail_Type := mail_Type mail;
     Stationery := if Stationery mail =? 0 then MailStationeryTypeDefault else Stationery mail;
     TemplateID := TemplateID mail; SenderGuid := SenderGuid mail;
     ReceiverGuid := ReceiverGuid mail; FlagsMask := FlagsMask mail; Subject := Subject mail; Body := Body mail;
     MoneyToSend := MoneyToSend mail; CashOnDelivery := CashOnDelivery mail;
     DeliveryTimestamp := if DeliveryTimestamp mail =? 0 then Unix (now + 5 * second) else DeliveryTimestamp mail;
     ExpirationTimestamp := if ExpirationTimestamp mail =? 0 then Unix (now + defaultMailExpirationTime) else ExpirationTimestamp mail;
     HasItemAttachments := HasItemAttachments mail; Attachments := Attachments mail |}.
Definition SendMail (realmID : u32) (mail : Mail) : M Mail :=
  if ReceiverGuid mail =? 0 then fail ErrNoReceiver
  else
    mail ← AddMail realmID (with_defaults mail);
    incoming_mail realmID mail ;;
    mret mail.
Definition MarkMailAsReadForPlayer (realmID : u32) (playerGUID mailID : u64) : M unit :=
  mail ← repo_MailByID realmID mailID;
  UpdateMailFlagsMaskForPlayer client_found_rows realmID playerGUID mailID (Z.lor (FlagsMask mail) MailFlagRead).

Definition with_columns (hasItems : bool) (cod : Z) (mail : Mail) : Mail :=
  {| mail_ID := mail_ID mail; mail_Type := mail_Type mail; Stationery := Stationery mail; TemplateID := TemplateID mail; SenderGuid := SenderGuid mail;
     ReceiverGuid := ReceiverGuid mail; FlagsMask := FlagsMask mail; Subject := Subject mail; Body := Body mail;
     MoneyToSend := MoneyToSend mail; CashOnDelivery := cod; DeliveryTimestamp := DeliveryTimestamp mail;
     ExpirationTimestamp := ExpirationTimestamp mail; HasItemAttachments := hasItems; Attachments := Attachments mail |}.
(** The payment that goes back to the sender. *)
Definition cod_mail (mail : Mail) : Mail :=
  {| mail_ID := 0; mail_Type := 0; Stationery := 0; TemplateID := 0; SenderGuid := ReceiverGuid mail; ReceiverGuid := SenderGuid mail;
     FlagsMask := MailFlagCashOnDelivery; Subject := Subject mail; Body := ""; MoneyToSend := CashOnDelivery mail; CashOnDelivery := 0;
     DeliveryTimestamp := 0; ExpirationTimestamp := 0; HasItemAttachments := false; Attachments := [] |}.
Definition RemoveMailItem (realmID : u32) (mailID itemGUID : u64) (receiverGUID : option u64) (handleCOD : bool) : M unit :=
  mail ← repo_MailByID realmID mailID;
  guard_err (match receiverGUID with Some r => negb (ReceiverGuid mail =? r) | None => false end) ErrNotEnoughRight ;;
  repo_RemoveMailItem realmID mailID itemGUID ;;
  let lastItem := HasItemAttachments mail && match Attachments mail with [att] => at_GUID att =? itemGUID | _ => false end in
  let pays := handleCOD && (0 <? CashOnDelivery mail) in
  (if pays then SendMail realmID (cod_mail mail) ;; mret tt else mret tt) ;;
  if lastItem || pays then
    UpdateMailWithoutAttachments client_found_rows realmID
      (with_columns (if lastItem then false else HasItemAttachments mail) (if pays then 0 else CashOnDelivery mail) mail)
  else mret tt.
Definition RemoveMailMoney (realmID : u32) (mailID : u64) (receiverGUID : option u64) : M Z :=
  match receiverGUID with
  | Some r => RemoveMailMoneyForPlayer client_found_rows realmID mailID r
  | None => repo_RemoveMailMoney client_found_rows realmID mailID
  end.
Definition DeleteMail (realmID : u32) (mailID : u64) : M unit :=
  mail ← repo_MailByID realmID mailID;
  let attachmentIDs := at_GUID <$> Attachments mail in
  (if (0 <? length attachmentIDs)%nat then
     DeleteMailItemsWithIDs realmID attachmentIDs ;;
     DeleteItemsWithIDs realmID attachmentIDs
   else mret tt) ;;
  DeleteMailsWithoutAttachments realmID [mailID].

(** ** Expired mails *)
Definition has_contents (mail : Mail) : bool := negb (MoneyToSend mail =? 0) || HasItemAttachments mail.
Definition returned (mail : Mail) : Mail :=
  {| mail_ID := mail_ID mail; mail_Type := mail_Type mail; Stationery := Stationery mail; TemplateID := TemplateID mail; SenderGuid := SenderGuid mail;
     ReceiverGuid := SenderGuid mail; FlagsMask := Z.lor (FlagsMask mail) MailFlagReturned; Subject := Subject mail; Body := Body mail;
     MoneyToSend := MoneyToSend mail; CashOnDelivery := CashOnDelivery mail; DeliveryTimestamp := DeliveryTimestamp mail;
     ExpirationTimestamp := Unix (now + wrap_int64 (wrap_int64 (ExpirationTimestamp mail - DeliveryTimestamp mail) * second));
     HasItemAttachments := HasItemAttachments mail; Attachments := Attachments mail |}.
Definition return_mail (realmID : u32) (mail : Mail) : M unit :=
  let mail := returned mail in
  UpdateMailWithoutAttachments client_found_rows realmID mail ;;
  (if HasItemAttachments mail then UpdateMailItemsOwner realmID (mail_ID mail) (SenderGuid mail) else mret tt) ;;
  incoming_mail realmID mail.
(** The ids of the mails that were returned before. *)
Fixpoint return_loop (realmID : u32) (mails : list Mail) : M (list u64) :=
  match mails with
  | [] => mret []
  | mail :: mails =>
    if 0 <? Z.land (FlagsMask mail) MailFlagReturned then
      ids ← return_loop realmID mails;
      mret (mail_ID mail :: ids)
    else
      return_mail realmID mail ;;
      return_loop realmID mails
  end.
Definition ProcessExpiredMails (realmID : u32) : M unit :=
  mails ← ExpiredMails realmID (Unix now);
  let mailsIDsWithoutAttachments := mail_ID <$> filter (fun m => has_contents m = false) mails in
  (if (length mailsIDsWithoutAttachments =? 0)%nat then mret tt
   else DeleteMailsWithoutAttachments realmID mailsIDsWithoutAttachments) ;;
  mailsIDsToDelete ← return_loop realmID (filter (fun m => has_contents m = true) mails);
  if (length mailsIDsToDelete =? 0)%nat then mret tt
  else
    mailItemsToDelete ← MailItemsIDsByMailIDs realmID mailsIDsToDelete;
    (if (0 <? length mailItemsToDelete)%nat then
       DeleteItemsWithIDs realmID mailItemsToDelete ;;
       DeleteMailItemsWithIDs realmID mailItemsToDelete
     else mret tt) ;;
    DeleteMailsWithoutAttachments realmID mailsIDsToDelete.
(** One tick of the cleanup. *)
Fixpoint cleanup_tick (realms : list u32) : M unit :=
  match realms with
  | [] => mret tt
  | realm :: realms => log_err (ProcessExpiredMails realm) ;; cleanup_tick realms
  end.

(** ** Requests *)
Record pb_ItemAttachment := {
  pa_Guid : u64; pa_Entry : u32; pa_Count : u32; pa_Flags : u32; pa_Durability : Z; pa_Charges : Z; pa_RandomPropertyID : u32; pa_PropertySeed : u32; pa_Text : string
}.
Record SendRequest := {
  sr_SenderGuid : option u64; sr_ReceiverGuid : u64; sr_Subject : string; sr_Body : string; sr_MoneyToSend : Z; sr_CashOnDelivery : Z;
  sr_Attachments : list pb_ItemAttachment; sr_DeliveryTimestamp : Z; sr_ExpirationTimestamp : Z; sr_FlagsMask : Z; sr_Type : Z; sr_TemplateID : u32; sr_Stationery : Z
}.
Definition wrap_int32 (x : Z) : Z := (x + 2 ^ 31) mod 2 ^ 32 - 2 ^ 31.
(** The charges are taken from the durability. *)
Definition request_attachment (a : pb_ItemAttachment) : ItemAttachment :=
  {| at_GUID := pa_Guid a; at_OwnerGUID := 0; at_Entry := pa_Entry a; at_Pos := 0; at_Count := pa_Count a; at_Charges := pa_Durability a;
     at_Flags := pa_Flags a; at_RandomPropertyID := pa_RandomPropertyID a; at_PropertySeed := 0; at_Durability := pa_Durability a; at_Text := pa_Text a |}.
Definition request_mail (r : SendRequest) : Mail :=
  {| mail_ID := 0; mail_Type := wrap8 (sr_Type r); Stationery := wrap8 (sr_Stationery r); TemplateID := sr_TemplateID r;
     SenderGuid := default 0 (sr_SenderGuid r); ReceiverGuid := sr_ReceiverGuid r; FlagsMask := wrap16 (sr_FlagsMask r); Subject := sr_Subject r;
     Body := sr_Body r; MoneyToSend := sr_MoneyToSend r; CashOnDelivery := sr_CashOnDelivery r; DeliveryTimestamp := sr_DeliveryTimestamp r;
     ExpirationTimestamp := sr_ExpirationTimestamp r; HasItemAttachments := false; Attachments := request_attachment <$> sr_Attachments r |}.
Definition Send (realmID : u32) (request : SendRequest) : M u32 :=
  mail ← SendMail realmID (request_mail request);
  mret (wrap32 (mail_ID mail)).

Record pb_Mail := {
  pm_Id : u32; pm_Sender : u64; pm_ReceiverGuid : u64; pm_Subject : string; pm_Body : string; pm_MoneyToSend : Z; pm_CashOnDelivery : Z;
  pm_Attachments : list pb_ItemAttachment; pm_DeliveryTimestamp : Z; pm_ExpirationTimestamp : Z; pm_Flags : Z; pm_Type : Z; pm_TemplateID : u32; pm_Stationery : Z
}.
Definition attachment_answer (a : ItemAttachment) : pb_ItemAttachment :=
  {| pa_Guid := at_GUID a; pa_Entry := wrap32 (at_Entry a); pa_Count := wrap32 (at_Count a); pa_Flags := wrap32 (at_Flags a);
     pa_Durability := wrap_int32 (at_Durability a); pa_Charges := wrap_int32 (at_Charges a); pa_RandomPropertyID := wrap32 (at_RandomPropertyID a);
     pa_PropertySeed := wrap32 (at_PropertySeed a); pa_Text := at_Text a |}.
Definition mail_answer (mail : Mail) : pb_Mail :=
  {| pm_Id := wrap32 (mail_ID mail); pm_Sender := SenderGuid mail; pm_ReceiverGuid := ReceiverGuid mail; pm_Subject := Subject mail; pm_Body := Body mail;
     pm_MoneyToSend := MoneyToSend mail; pm_CashOnDelivery := CashOnDelivery mail; pm_Attachments := attachment_answer <$> Attachments mail;
     pm_DeliveryTimestamp := DeliveryTimestamp mail; pm_ExpirationTimestamp := ExpirationTimestamp mail; pm_Flags := FlagsMask mail;
     pm_Type := mail_Type mail; pm_TemplateID := TemplateID mail; pm_Stationery := Stationery mail |}.
Definition MailsForPlayer (realmID : u32) (playerGUID : u64) : M (list pb_Mail) :=
  mails ← MailListForPlayer realmID playerGUID;
  mret (mail_answer <$> mails).
Definition MailByID (realmID : u32) (mailID : Z) : M pb_Mail :=
  mail ← repo_MailByID realmID (wrap64 mailID);
  mret (mail_answer mail).
Definition srv_MarkAsReadForPlayer (realmID : u32) (playerGUID : u64) (mailID : Z) : M unit := MarkMailAsReadForPlayer realmID playerGUID (wrap64 mailID).
Definition srv_RemoveMailItem (realmID : u32) (mailID : Z) (itemGuid : u64) (playerGuid : option u64) (handleCashOnDelivery : bool) : M unit :=
  RemoveMailItem realmID (wrap64 mailID) itemGuid playerGuid handleCashOnDelivery.
Definition srv_RemoveMailMoney (realmID : u32) (mailID : Z) (playerGuid : option u64) : M Z := RemoveMailMoney realmID (wrap64 mailID) playerGuid.
Definition srv_DeleteMail (realmID : u32) (mailID : Z) : M unit := DeleteMail realmID (wrap64 mailID).
End Service.
