(* ===== verification/MailFacts.v ===== *)
(** * MailFacts: what the mail service answers and does
    (apps/mailserver/repo/mail_mysql.go, service/mail.go, server/mail.go) *)
From S2P Require Import Prelude Safety MailRepo MailService.

Abbreviation M A := (go mail_state mail_event mail_err A).

(** ** Attachments *)
Definition add_attachments (atts : list ItemAttachment) (mail : Mail) : Mail := foldl (fun m a => add_attachment a m) mail atts.
Definition atts_for (id : u64) (rows : list (u64 * option ItemAttachment)) : list ItemAttachment :=
  omap (fun e => if e.1 =? id then e.2 else None) rows.
(** The attachments of a mail: its items that exist. *)
Definition attachments_of (d : mail_tables) (id : u64) : list ItemAttachment :=
  omap (fun mi => if mi_mail mi =? id then item_attachment (mi_item mi) <$> instances d !! mi_item mi else None) (mail_items d).

Lemma add_attachment_ID a m : mail_ID (add_attachment a m) = mail_ID m.
Proof. done. Qed.
Lemma attach_all_run rows : forall mail (s : sys mail_state mail_event),
  attach_all rows mail s =
  (if decide (Forall (fun e => is_Some e.2) rows) then Ok (add_attachments (omap snd rows) mail) else Fail ErrScan, s).
Proof.
  induction rows as [|[id [a|]] rows IH]; intros mail s; cbn [attach_all not_nil].
  - by rewrite decide_True by constructor.
  - erewrite bind_run by reflexivity. rewrite IH. cbn [omap list_omap snd].
    case_decide as H1; case_decide as H2; try done; [by destruct H2; constructor|by apply Forall_cons in H2 as [_ ?]].
  - rewrite decide_False; [done|]. intros [[? [=]] _]%Forall_cons.
Qed.

(** The index of a list without double ids. *)
Lemma index_mails_go (l : list Mail) : forall n (t : gmap u64 nat) id, NoDup (mail_ID <$> l) -> id ∈ mail_ID <$> l ->
  exists i m, foldl (fun t e => <[mail_ID e.2 := e.1]> t) t (imap (fun i m => (n + i, m)%nat) l) !! id = Some (n + i)%nat /\
    l !! i = Some m /\ mail_ID m = id.
Proof.
  assert (forall (l : list Mail) n (t : gmap u64 nat) id, id ∉ mail_ID <$> l ->
    foldl (fun t e => <[mail_ID e.2 := e.1]> t) t (imap (fun i m => (n + i, m)%nat) l) !! id = t !! id) as Hother.
  { clear l. induction l as [|m l IH]; intros n t id Hid; [done|]. cbn [imap foldl fst snd]. apply not_elem_of_cons in Hid as [Hne Hid].
    rewrite (imap_ext _ (fun i m => (S n + i, m)%nat)) by (intros; cbn; f_equal; lia). rewrite IH by done. by rewrite lookup_insert_ne. }
  induction l as [|m l IH]; intros n t id Hnd Hid; [by apply elem_of_nil in Hid|]. apply NoDup_cons in Hnd as [Hm Hnd].
  cbn [imap foldl fst snd]. rewrite (imap_ext _ (fun i m => (S n + i, m)%nat)) by (intros; cbn; f_equal; lia).
  destruct (decide (id = mail_ID m)) as [->|Hne].
  - exists 0%nat, m. rewrite Hother by done. by rewrite lookup_insert_eq.
  - apply elem_of_cons in Hid as [?|Hid]; [done|]. destruct (IH (S n) (<[mail_ID m := (n + 0)%nat]> t) id Hnd Hid) as (i & m' & Hi & Hm' & He).
    exists (S i), m'. split; [|done]. rewrite Hi. f_equal. lia.
Qed.
Lemma index_mails_lookup (l : list Mail) id : NoDup (mail_ID <$> l) -> id ∈ mail_ID <$> l ->
  exists i m, index_mails l !! id = Some i /\ l !! i = Some m /\ mail_ID m = id.
Proof. intros Hnd Hid. apply (index_mails_go l 0 ∅ id Hnd Hid). Qed.
Lemma attach_loop_run ms0 rows : NoDup (mail_ID <$> ms0) -> Forall (fun e => e.1 ∈ mail_ID <$> ms0) rows ->
  forall ms (s : sys mail_state mail_event), mail_ID <$> ms = mail_ID <$> ms0 ->
  attach_loop rows (index_mails ms0) ms s =
  (if decide (Forall (fun e => is_Some e.2) rows) then Ok ((fun m => add_attachments (atts_for (mail_ID m) rows) m) <$> ms) else Fail ErrScan, s).
Proof.
  intros Hnd Hrows. induction Hrows as [|[id o] rows Hid _ IH]; intros ms s Hms; cbn [attach_loop].
  { rewrite decide_True by constructor. by rewrite list_fmap_id. }
  destruct o as [a|]; cbn [not_nil]; [|by rewrite decide_False by (intros [[? [=]] _]%Forall_cons)].
  erewrite bind_run by reflexivity. destruct (index_mails_lookup ms0 id Hnd Hid) as (i & m0 & Hi & Hm0 & Hid0). rewrite Hi. change (default 0%nat (Some i)) with i.
  assert (exists m, ms !! i = Some m /\ mail_ID m = id) as (m & Hm & Hmid).
  { assert ((mail_ID <$> ms) !! i = Some id) as H by (by rewrite Hms, list_lookup_fmap, Hm0, <- Hid0).
    rewrite list_lookup_fmap in H. destruct (ms !! i) as [m|]; [|done]. exists m. split; [done|]. by injection H. }
  rewrite Hm. erewrite bind_run by reflexivity. rewrite IH.
  2:{ rewrite list_fmap_insert, add_attachment_ID, list_insert_id; [done|]. by rewrite list_lookup_fmap, Hm. }
  rewrite <- Hms in Hnd. f_equal. case_decide as H1; case_decide as H2; try done;
    [|by destruct H2; constructor|by apply Forall_cons in H2 as [_ ?]].
  f_equal. apply list_eq. intros j. rewrite !list_lookup_fmap. destruct (decide (i = j)) as [<-|Hne].
  - rewrite list_lookup_insert_eq by (by eapply lookup_lt_Some). rewrite Hm. cbn. rewrite <- Hmid, Z.eqb_refl. done.
  - rewrite list_lookup_insert_ne by done. destruct (ms !! j) as [m'|] eqn:Em'; [|done]. cbn. f_equal.
    rewrite (proj2 (Z.eqb_neq id (mail_ID m'))); [done|]. intros He. apply Hne.
    eapply (NoDup_lookup _ i j id Hnd); rewrite list_lookup_fmap; [by rewrite Hm, <- Hmid|by rewrite Em', He].
Qed.

(** The join picks, for one mail, its items. *)
Lemma filter_id (l : list Mail) (which : Mail -> bool) m : NoDup (mail_ID <$> l) -> m ∈ l -> which m = true ->
  filter (fun m' => mail_ID m' = mail_ID m /\ which m' = true) l = [m].
Proof.
  intros Hnd Hm Hw. induction l as [|m' l IH]; [by apply elem_of_nil in Hm|]. apply NoDup_cons in Hnd as [Hm' Hnd].
  apply elem_of_cons in Hm as [->|Hm].
  - rewrite filter_cons_True by done. f_equal. clear IH Hnd. induction l as [|m2 l IH]; [done|].
    apply not_elem_of_cons in Hm' as [Hne Hm']. rewrite filter_cons_False; [by apply IH|]. intros [E _]. congruence.
  - rewrite filter_cons_False; [by apply IH|]. intros [E _]. apply Hm'. rewrite E. by apply list_elem_of_fmap_2.
Qed.
Lemma atts_for_other id id' o (l : list Mail) : id <> id' -> Forall (fun m => mail_ID m = id') l ->
  atts_for id ((fun m => (mail_ID m, o)) <$> l) = [].
Proof.
  intros Hne. induction 1 as [|m l He _ IH]; [done|]. cbn. destruct (Z.eqb_spec (mail_ID m) id); [congruence|exact IH].
Qed.
Lemma atts_for_joined d which m : NoDup (mail_ID <$> mails d) -> m ∈ mails d -> which m = true ->
  atts_for (mail_ID m) (joined_items d which) = attachments_of d (mail_ID m).
Proof.
  intros Hnd Hm Hw. unfold attachments_of, joined_items. induction (mail_items d) as [|mi items IH]; [done|].
  rewrite bind_cons. unfold atts_for in *. rewrite omap_app, IH. cbn [omap list_omap]. destruct (Z.eqb_spec (mi_mail mi) (mail_ID m)) as [He|Hne].
  - rewrite He, filter_id by done. cbn. rewrite Z.eqb_refl. by destruct (instances d !! mi_item mi).
  - match goal with |- omap _ (_ <$> ?l) ++ _ = _ => assert (Forall (fun m => mail_ID m = mi_mail mi) l) as Hl end.
    { apply Forall_forall. intros m' Hm'. by apply list_elem_of_filter in Hm' as [[? _] _]. }
    pose proof (atts_for_other (mail_ID m) _ (item_attachment (mi_item mi) <$> instances d !! mi_item mi) _ (not_eq_sym Hne) Hl) as Ho.
    unfold atts_for in Ho. by rewrite Ho.
Qed.
(** All the items of the mails that [which] selects exist. *)
Definition items_exist (d : mail_tables) (which : Mail -> bool) : Prop :=
  Forall (fun mi => (exists m, m ∈ mails d /\ mail_ID m = mi_mail mi /\ which m = true) -> is_Some (instances d !! mi_item mi)) (mail_items d).
Lemma joined_items_exist d which : Forall (fun e => is_Some e.2) (joined_items d which) <-> items_exist d which.
Proof.
  unfold joined_items, items_exist. rewrite !Forall_forall. split.
  - intros H mi Hmi (m & Hm & He & Hw). assert ((mail_ID m, item_attachment (mi_item mi) <$> instances d !! mi_item mi) ∈ joined_items d which) as Hin.
    { unfold joined_items. apply list_elem_of_bind. exists mi. split; [|done]. apply list_elem_of_fmap. exists m. split; [done|]. by apply list_elem_of_filter. }
    apply H in Hin. by apply fmap_is_Some in Hin.
  - intros H e He. apply list_elem_of_bind in He as (mi & He & Hmi). apply list_elem_of_fmap in He as (m & -> & Hm).
    apply list_elem_of_filter in Hm as [[He Hw] Hm]. apply fmap_is_Some, (H mi Hmi). by exists m.
Qed.
#[global] Instance items_exist_dec d which : Decision (items_exist d which).
Proof.
  destruct (decide (Forall (fun e => is_Some e.2) (joined_items d which))) as [Hd|Hd]; [left|right]; by rewrite <- joined_items_exist.
Defined.

(** ** The mailbox *)
Section Mailbox.
Implicit Types c : mail_state.
Lemma query_run c evs r d : c !! r = Some d -> (query r : M _) (Sys c [] evs) = (Ok d, Sys c [] evs).
Proof. intros Hd. unfold query, db_of, mbind, go_bind, gets, deref, mret, go_ret, id. cbn [st]. by rewrite Hd. Qed.
Lemma joined_items_ids d which e : e ∈ joined_items d which -> exists m, m ∈ mails d /\ which m = true /\ mail_ID m = e.1.
Proof.
  intros He. apply list_elem_of_bind in He as (mi & He & Hmi). apply list_elem_of_fmap in He as (m & -> & Hm).
  apply list_elem_of_filter in Hm as [[He Hw] Hm]. by exists m.
Qed.
(** The list of a player's mails, which the code puts together from two
    queries with an index by id, is the player's mails, newest first, each with
    its own items; it never panics, and fails as a whole exactly when an item
    of one of the mails does not exist. *)
Theorem mailbox_exact c evs r d p : c !! r = Some d -> NoDup (mail_ID <$> mails d) ->
  let mine m := ReceiverGuid m =? p in
  MailListForPlayer r p (Sys c [] evs) =
  (if decide (items_exist d mine)
   then Ok ((fun m => add_attachments (attachments_of d (mail_ID m)) m) <$> reverse (filter (fun m => ReceiverGuid m = p) (mails d)))
   else Fail ErrScan, Sys c [] evs).
Proof.
  intros Hd Hnd mine. unfold MailListForPlayer. do 2 erewrite bind_run by (by apply query_run). fold mine.
  set (l := reverse (filter (fun m => ReceiverGuid m = p) (mails d))).
  assert (forall m, m ∈ l <-> ReceiverGuid m = p /\ m ∈ mails d) as Hl by (intros m; unfold l; by rewrite elem_of_reverse, list_elem_of_filter).
  assert (NoDup (mail_ID <$> l)) as Hndl.
  { unfold l. rewrite fmap_reverse, reverse_Permutation. clear Hl. induction (mails d) as [|m k IH]; [constructor|].
    apply NoDup_cons in Hnd as [Hm Hnd]. rewrite filter_cons. case_decide; [|by apply IH]. apply NoDup_cons. split; [|by apply IH].
    intros Hin. apply Hm. apply list_elem_of_fmap in Hin as (m' & -> & Hm'). apply list_elem_of_filter in Hm' as [_ Hm']. by apply list_elem_of_fmap_2. }
  rewrite (attach_loop_run l); [|done| |done].
  - f_equal. case_decide as H1; case_decide as H2; try done; [|by apply joined_items_exist in H1|by apply joined_items_exist in H2].
    f_equal. apply list_fmap_ext. intros i m Hm. apply list_elem_of_lookup_2, Hl in Hm as [Hr Hm]. rewrite atts_for_joined; [done..|].
    unfold mine. lia.
  - apply Forall_forall. intros e He. apply joined_items_ids in He as (m & Hm & Hw & <-). apply list_elem_of_fmap_2, Hl. split; [|done].
    unfold mine in Hw. lia.
Qed.
End Mailbox.

(** ** Sending *)
Section Sending.
Implicit Types c : mail_state.

(** Ids are distinct, and those to come are fresh. *)
Record tables_wf (d : mail_tables) : Prop := {
  wf_ids : NoDup (mail_ID <$> mails d);
  wf_fresh : Forall (fun m => 0 < mail_ID m < next_id d) (mails d);
  wf_items : Forall (fun mi => mi_mail mi < next_id d) (mail_items d);
  wf_next : 0 < next_id d
}.
Lemma tables_wf_insert d mail : tables_wf d -> tables_wf (insert_mail mail (next_id d) (with_next_id (next_id d + 1) d)).
Proof.
  intros [Hnd Hf Hi Hn]. split; cbn.
  - rewrite fmap_app. apply NoDup_app. split_and!; [done| |apply NoDup_singleton]. intros x Hx ->%list_elem_of_singleton.
    apply list_elem_of_fmap in Hx as (m & E & Hm). rewrite Forall_forall in Hf. specialize (Hf m Hm). cbn in E. lia.
  - apply Forall_app. split; [eapply Forall_impl; [done|]; cbn; lia|]. constructor; [cbn; lia|constructor].
  - apply Forall_app. split; [eapply Forall_impl; [done|]; cbn; lia|]. apply Forall_fmap. apply Forall_forall. intros; cbn; lia.
  - lia.
Qed.
Lemma exec_attachments_run atts c evs : exec_attachments atts (Sys c [] evs) = (Ok tt, Sys c [] evs).
Proof. induction atts as [|a atts IH]; [done|]. cbn [exec_attachments]. do 2 erewrite bind_run by reflexivity. exact IH. Qed.
Lemma db_of_run c evs r d : c !! r = Some d -> (db_of r : M _) (Sys c [] evs) = (Ok d, Sys c [] evs).
Proof. intros Hd. unfold db_of, mbind, go_bind, gets, deref, mret, go_ret, id. cbn [st]. by rewrite Hd. Qed.
Lemma AddMail_run c evs r d mail : c !! r = Some d ->
  AddMail r mail (Sys c [] evs) =
  (Ok (with_id mail (next_id d)), Sys (<[r := insert_mail mail (next_id d) (with_next_id (next_id d + 1) d)]> c) [] evs).
Proof.
  intros Hd. unfold AddMail. erewrite bind_run by (by apply db_of_run). do 2 erewrite bind_run by reflexivity.
  erewrite bind_run by (by apply db_of_run). do 4 erewrite bind_run by reflexivity. erewrite bind_run by apply exec_attachments_run.
  erewrite bind_run by reflexivity. erewrite bind_run by (apply db_of_run; cbn [st]; apply lookup_insert_eq).
  erewrite bind_run by reflexivity. cbn [st faults events]. by rewrite insert_insert_eq.
Qed.
Lemma SendMail_run expt now c evs r d mail : c !! r = Some d -> ReceiverGuid mail <> 0 ->
  let mail' := with_defaults expt now mail in
  SendMail expt now r mail (Sys c [] evs) =
  (Ok (with_id mail' (next_id d)),
   Sys (<[r := insert_mail mail' (next_id d) (with_next_id (next_id d + 1) d)]> c) []
     (evs ++ [MailEventIncomingMail r (SenderGuid mail) (ReceiverGuid mail) (DeliveryTimestamp mail') (wrap32 (next_id d))])).
Proof.
  intros Hd Hr mail'. unfold SendMail. apply Z.eqb_neq in Hr. rewrite Hr. erewrite bind_run by (by apply AddMail_run). fold mail'. by erewrite bind_run by reflexivity.
Qed.

Lemma upsert_lookup_other atts : forall t g, g ∉ at_GUID <$> atts -> foldl upsert_instance t atts !! g = t !! g.
Proof.
  induction atts as [|a atts IH]; intros t g Hg; [done|]. apply not_elem_of_cons in Hg as [Hne Hg]. cbn [foldl]. rewrite IH by done.
  unfold upsert_instance. by rewrite lookup_insert_ne.
Qed.
Definition stored_instance (t : gmap u64 item_instance) (att : ItemAttachment) : item_instance :=
  {| ii_Entry := match t !! at_GUID att with Some old => ii_Entry old | None => at_Entry att end;
     ii_OwnerGUID := at_OwnerGUID att; ii_Count := at_Count att; ii_Flags := at_Flags att;
     ii_RandomPropertyID := at_RandomPropertyID att; ii_Durability := at_Durability att; ii_Text := at_Text att |}.
Lemma upsert_lookup atts : forall t a, NoDup (at_GUID <$> atts) -> a ∈ atts ->
  foldl upsert_instance t atts !! at_GUID a = Some (stored_instance t a).
Proof.
  induction atts as [|b atts IH]; intros t a Hnd Ha; [by apply elem_of_nil in Ha|]. apply NoDup_cons in Hnd as [Hb Hnd]. cbn [foldl].
  apply elem_of_cons in Ha as [->|Ha].
  - rewrite upsert_lookup_other by done. unfold upsert_instance. by rewrite lookup_insert_eq.
  - rewrite IH by done. unfold stored_instance, upsert_instance. rewrite lookup_insert_ne; [done|]. intros E. apply Hb. rewrite E. by apply list_elem_of_fmap_2.
Qed.
(** The new mail has the items it was sent with. *)
Lemma new_attachments d mail : tables_wf d -> NoDup (at_GUID <$> Attachments mail) ->
  attachments_of (insert_mail mail (next_id d) (with_next_id (next_id d + 1) d)) (next_id d) =
  (fun a => item_attachment (at_GUID a) (stored_instance (instances d) a)) <$> Attachments mail.
Proof.
  intros Hwf Hnd. unfold attachments_of. cbn [insert_mail mail_items instances with_next_id]. rewrite omap_app.
  assert (omap (fun mi => if mi_mail mi =? next_id d then item_attachment (mi_item mi) <$> foldl upsert_instance (instances d) (Attachments mail) !! mi_item mi
    else None) (mail_items d) = []) as ->.
  { pose proof (wf_items d Hwf) as Hi. induction Hi as [|mi l Hmi _ IH]; [done|]. cbn. destruct (Z.eqb_spec (mi_mail mi) (next_id d)); [lia|exact IH]. }
  cbn [app]. assert (forall a, a ∈ Attachments mail -> foldl upsert_instance (instances d) (Attachments mail) !! at_GUID a = Some (stored_instance (instances d) a)) as Hl
    by (intros; by apply upsert_lookup).
  revert Hl. generalize (foldl upsert_instance (instances d) (Attachments mail)) as t. intros t Hl. clear Hnd.
  induction (Attachments mail) as [|a atts IH]; [done|]. cbn. rewrite Z.eqb_refl, (Hl a) by left. cbn. f_equal. apply IH. intros; apply Hl; by right.
Qed.
Lemma new_items_exist d mail : tables_wf d -> NoDup (at_GUID <$> Attachments mail) ->
  items_exist (insert_mail mail (next_id d) (with_next_id (next_id d + 1) d)) (fun m => mail_ID m =? next_id d).
Proof.
  intros Hwf Hnd. unfold items_exist. cbn [insert_mail mail_items instances with_next_id]. apply Forall_app. split.
  - eapply Forall_impl; [apply (wf_items d Hwf)|]. intros mi Hmi (m & _ & He & Hid%Z.eqb_eq). cbn in Hmi. lia.
  - apply Forall_fmap, Forall_forall. intros a Ha _. cbn. rewrite upsert_lookup by done. by eexists.
Qed.

Lemma mailByID_run c evs r d m : c !! r = Some d -> NoDup (mail_ID <$> mails d) -> m ∈ mails d -> mail_ID m <> 0 ->
  mailByIDWithoutAttachments r (mail_ID m) (Sys c [] evs) = (Ok m, Sys c [] evs).
Proof.
  intros Hd Hnd Hm H0. unfold mailByIDWithoutAttachments. erewrite bind_run by (by apply query_run).
  pose proof (filter_id (mails d) (fun _ => true) m Hnd Hm eq_refl) as Hf.
  rewrite (list_filter_iff (fun m' => mail_ID m' = mail_ID m) (fun m' => mail_ID m' = mail_ID m /\ true = true)) by (intros; tauto).
  rewrite Hf. cbn. apply Z.eqb_neq in H0. by rewrite H0.
Qed.
Lemma repo_MailByID_run c evs r d m : c !! r = Some d -> NoDup (mail_ID <$> mails d) -> m ∈ mails d -> mail_ID m <> 0 ->
  repo_MailByID r (mail_ID m) (Sys c [] evs) =
  (if decide (items_exist d (fun m' => mail_ID m' =? mail_ID m)) then Ok (add_attachments (attachments_of d (mail_ID m)) m) else Fail ErrScan, Sys c [] evs).
Proof.
  intros Hd Hnd Hm H0. unfold repo_MailByID. erewrite bind_run by (by apply (mailByID_run c evs r d)). erewrite bind_run by (by apply query_run).
  rewrite attach_all_run. set (rows := joined_items d _).
  assert (omap snd rows = attachments_of d (mail_ID m)) as ->.
  { rewrite <- (atts_for_joined d (fun m' => mail_ID m' =? mail_ID m)) by (done || apply Z.eqb_refl). fold rows.
    assert (Forall (fun e => e.1 = mail_ID m) rows) as Hr.
    { apply Forall_forall. intros e He. apply joined_items_ids in He as (m' & _ & Hw & <-). lia. }
    unfold atts_for. clear -Hr. induction Hr as [|[id o] rows He _ IH]; [done|]. cbn in *. subst id. rewrite Z.eqb_refl. destruct o; by rewrite IH. }
  f_equal. case_decide as H1; case_decide as H2; try done; [by apply joined_items_exist in H1|by apply joined_items_exist in H2].
Qed.
End Sending.

(** ** What is sent is received *)
Section Roundtrip.
Implicit Types c : mail_state.
(** The numbers of the request fit their types; the items are distinct, and an
    item that is in the table already is the same kind of item. *)
Definition attachment_ok (d : mail_tables) (a : pb_ItemAttachment) : Prop :=
  in_range 32 (pa_Entry a) /\ in_range 32 (pa_Count a) /\ in_range 32 (pa_Flags a) /\ in_range 32 (pa_RandomPropertyID a) /\
  - 2 ^ 31 <= pa_Durability a < 2 ^ 31 /\ forall old, instances d !! pa_Guid a = Some old -> ii_Entry old = pa_Entry a.
Definition request_ok (d : mail_tables) (rq : SendRequest) : Prop :=
  sr_ReceiverGuid rq <> 0 /\ NoDup (pa_Guid <$> sr_Attachments rq) /\ Forall (attachment_ok d) (sr_Attachments rq).
(** The attachment that comes back: its charges and its seed are lost. *)
Definition received_attachment (a : pb_ItemAttachment) : pb_ItemAttachment :=
  {| pa_Guid := pa_Guid a; pa_Entry := pa_Entry a; pa_Count := pa_Count a; pa_Flags := pa_Flags a; pa_Durability := pa_Durability a; pa_Charges := 0;
     pa_RandomPropertyID := pa_RandomPropertyID a; pa_PropertySeed := 0; pa_Text := pa_Text a |}.
Definition received_mail (expt now : Z) (id : u32) (rq : SendRequest) : pb_Mail :=
  {| pm_Id := id; pm_Sender := default 0 (sr_SenderGuid rq); pm_ReceiverGuid := sr_ReceiverGuid rq; pm_Subject := sr_Subject rq; pm_Body := sr_Body rq;
     pm_MoneyToSend := sr_MoneyToSend rq; pm_CashOnDelivery := sr_CashOnDelivery rq; pm_Attachments := received_attachment <$> sr_Attachments rq;
     pm_DeliveryTimestamp := if sr_DeliveryTimestamp rq =? 0 then Unix (now + 5 * second) else sr_DeliveryTimestamp rq;
     pm_ExpirationTimestamp := if sr_ExpirationTimestamp rq =? 0 then Unix (now + expt) else sr_ExpirationTimestamp rq;
     pm_Flags := wrap16 (sr_FlagsMask rq); pm_Type := wrap8 (sr_Type rq); pm_TemplateID := sr_TemplateID rq;
     pm_Stationery := if wrap8 (sr_Stationery rq) =? 0 then MailStationeryTypeDefault else wrap8 (sr_Stationery rq) |}.

Lemma wrap_int32_small x : - 2 ^ 31 <= x < 2 ^ 31 -> wrap_int32 x = x.
Proof. intros Hx. unfold wrap_int32. rewrite Z.mod_small by lia. lia. Qed.
Lemma add_attachments_fields atts : forall m,
  mail_answer (add_attachments atts m) =
  {| pm_Id := wrap32 (mail_ID m); pm_Sender := SenderGuid m; pm_ReceiverGuid := ReceiverGuid m; pm_Subject := Subject m; pm_Body := Body m;
     pm_MoneyToSend := MoneyToSend m; pm_CashOnDelivery := CashOnDelivery m; pm_Attachments := attachment_answer <$> (Attachments m ++ atts);
     pm_DeliveryTimestamp := DeliveryTimestamp m; pm_ExpirationTimestamp := ExpirationTimestamp m; pm_Flags := FlagsMask m;
     pm_Type := mail_Type m; pm_TemplateID := TemplateID m; pm_Stationery := Stationery m |}.
Proof.
  induction atts as [|a atts IH]; intros m; cbn [add_attachments foldl]; [unfold mail_answer; by rewrite app_nil_r|].
  change (foldl _ (add_attachment a m) atts) with (add_attachments atts (add_attachment a m)). rewrite IH. cbn. by rewrite <- app_assoc.
Qed.
Lemma received_attachment_spec d a : attachment_ok d a ->
  attachment_answer (item_attachment (pa_Guid a) (stored_instance (instances d) (request_attachment a))) = received_attachment a.
Proof.
  intros (He & Hc & Hf & Hr & Hdur & Hold). unfold attachment_answer, received_attachment. cbn.
  assert (match instances d !! pa_Guid a with Some old => ii_Entry old | None => pa_Entry a end = pa_Entry a) as ->.
  { destruct (instances d !! pa_Guid a) as [old|] eqn:E; [by apply Hold|done]. }
  by rewrite !wrap_small, !wrap_int32_small by done.
Qed.

End Roundtrip.
