(* ===== verification/MailCleanup.v ===== *)
(** * MailCleanup: what happens to expired mails
    (apps/mailserver/service/mail.go, ProcessExpiredMails) *)
From S2P Require Import Prelude MailRepo MailService MailFacts.

Abbreviation M A := (go mail_state mail_event mail_err A).

Section Cleanup.
Context (client_found_rows : bool) (now : Z).
Implicit Types c : mail_state.

(** ** The specification *)
Definition expired (m : Mail) : Prop := ExpirationTimestamp m < Unix now.
Definition was_returned (m : Mail) : bool := 0 <? Z.land (FlagsMask m) MailFlagReturned.
(** Mails without contents go; mails that were returned once go with their
    items; the others go back to their senders. *)
Definition thrown_away (m : Mail) : Prop := expired m /\ has_contents m = false.
Definition destroyed (m : Mail) : Prop := expired m /\ has_contents m = true /\ was_returned m = true.
Definition sent_back (m : Mail) : Prop := expired m /\ has_contents m = true /\ was_returned m = false.
#[global] Instance expired_dec m : Decision (expired m) := ltac:(unfold expired; apply _).
#[global] Instance thrown_away_dec m : Decision (thrown_away m) := ltac:(unfold thrown_away; apply _).
#[global] Instance destroyed_dec m : Decision (destroyed m) := ltac:(unfold destroyed; apply _).
#[global] Instance sent_back_dec m : Decision (sent_back m) := ltac:(unfold sent_back; apply _).
Definition after_cleanup (m : Mail) : option Mail :=
  if decide (thrown_away m \/ destroyed m) then None else if decide (sent_back m) then Some (returned now m) else Some m.
(** The items of the mails that are destroyed. *)
Definition doomed_items (d : mail_tables) : list u64 :=
  mi_item <$> filter (fun mi => mi_mail mi ∈ mail_ID <$> filter destroyed (mails d)) (mail_items d).
Definition new_owner (back : list Mail) (mi : mail_item) : mail_item :=
  match filter (fun m => mail_ID m = mi_mail mi /\ HasItemAttachments m = true) back with
  | m :: _ => {| mi_mail := mi_mail mi; mi_item := mi_item mi; mi_receiver := SenderGuid m |}
  | [] => mi
  end.
Definition cleaned (d : mail_tables) : mail_tables :=
  {| mails := omap after_cleanup (mails d);
     mail_items := filter (fun mi => mi_item mi ∉ doomed_items d) (new_owner (filter sent_back (mails d)) <$> mail_items d);
     instances := filter (fun e => e.1 ∉ doomed_items d) (instances d);
     next_id := next_id d |}.
Definition return_event (r : u32) (m : Mail) : mail_event :=
  MailEventIncomingMail r (SenderGuid m) (SenderGuid m) (DeliveryTimestamp m) (wrap32 (mail_ID m)).

(** ** The loop *)
Definition set_owner (m : Mail) (mi : mail_item) : mail_item :=
  if HasItemAttachments m && (mi_mail mi =? mail_ID m) then {| mi_mail := mi_mail mi; mi_item := mi_item mi; mi_receiver := SenderGuid m |} else mi.
Definition return_step (d : mail_tables) (m : Mail) : mail_tables :=
  {| mails := update_rows (fun row => mail_ID row =? mail_ID m) (set_columns (returned now m)) (mails d);
     mail_items := set_owner m <$> mail_items d; instances := instances d; next_id := next_id d |}.

Lemma exec_update_run c evs r d which f : c !! r = Some d ->
  (exec_update client_found_rows r which f : M _) (Sys c [] evs) =
  (Ok (affected client_found_rows which (mails d) (update_rows which f (mails d))),
   Sys (<[r := with_mails (update_rows which f (mails d)) d]> c) [] evs).
Proof. intros Hd. unfold exec_update. by erewrite bind_run by (by apply query_run). Qed.
Lemma exec_run c evs r d f : c !! r = Some d -> (exec r f : M _) (Sys c [] evs) = (Ok tt, Sys (<[r := f d]> c) [] evs).
Proof. intros Hd. unfold exec. by erewrite bind_run by (by apply query_run). Qed.
Lemma return_mail_run c evs r d m : c !! r = Some d ->
  return_mail client_found_rows now r m (Sys c [] evs) =
  (Ok tt, Sys (<[r := return_step d m]> c) [] (evs ++ [return_event r m])).
Proof.
  intros Hd. unfold return_mail, UpdateMailWithoutAttachments. cbv zeta.
  erewrite bind_run by (erewrite bind_run by (by apply exec_update_run); reflexivity). cbn [returned HasItemAttachments mail_ID SenderGuid].
  destruct (HasItemAttachments m) eqn:Hi.
  - unfold UpdateMailItemsOwner. erewrite bind_run by (apply exec_run, lookup_insert_eq). rewrite insert_insert_eq.
    unfold return_step, set_owner. rewrite Hi. reflexivity.
  - erewrite bind_run by reflexivity. unfold return_step, set_owner. rewrite Hi. cbn [andb].
    rewrite list_fmap_id. reflexivity.
Qed.
Lemma return_loop_run r l : forall c evs d, c !! r = Some d ->
  return_loop client_found_rows now r l (Sys c [] evs) =
  (Ok (mail_ID <$> filter (fun m => was_returned m = true) l),
   Sys (<[r := foldl return_step d (filter (fun m => was_returned m = false) l)]> c) []
     (evs ++ (return_event r <$> filter (fun m => was_returned m = false) l))).
Proof.
  induction l as [|m l IH]; intros c evs d Hd; cbn [return_loop].
  - rewrite insert_id by done. by rewrite app_nil_r.
  - fold (was_returned m). rewrite !filter_cons. destruct (was_returned m) eqn:E; cbn [fmap list_fmap].
    + rewrite decide_True, decide_False by done. erewrite bind_run by (by apply IH). done.
    + rewrite decide_False, decide_True by done. erewrite bind_run by (by apply return_mail_run).
      rewrite (IH _ _ (return_step d m)) by apply lookup_insert_eq. rewrite insert_insert_eq. cbn [foldl fmap list_fmap]. by rewrite <- app_assoc.
Qed.

(** The loop as one change of each row. *)
Definition back_row (l : list Mail) (row : Mail) : Mail :=
  match filter (fun m => mail_ID m = mail_ID row) l with
  | m :: _ => set_columns (returned now m) row
  | [] => row
  end.
Lemma mail_filter_none {A} (P : A -> Prop) `{forall x, Decision (P x)} (l : list A) : (forall x, x ∈ l -> ~ P x) -> filter P l = [].
Proof.
  induction l as [|x l IH]; intros Hn; [done|]. rewrite filter_cons_False; [apply IH; intros y Hy; apply Hn; by right|apply Hn; left].
Qed.
Lemma foldl_return_mails l : forall d, NoDup (mail_ID <$> l) -> mails (foldl return_step d l) = back_row l <$> mails d.
Proof.
  induction l as [|m l IH]; intros d Hnd; cbn [foldl].
  - symmetry. apply list_fmap_id.
  - apply NoDup_cons in Hnd as [Hm Hnd]. rewrite IH by done. unfold return_step at 1, update_rows. cbn [mails].
    rewrite <- list_fmap_compose. apply list_fmap_ext. intros _ row _. cbn. unfold back_row. rewrite filter_cons.
    destruct (Z.eqb_spec (mail_ID row) (mail_ID m)) as [He|Hne].
    + rewrite decide_True by done. cbn [set_columns mail_ID]. rewrite mail_filter_none; [done|]. intros x Hx E. apply Hm. rewrite <- He, <- E. by apply list_elem_of_fmap_2.
    + by rewrite decide_False by congruence.
Qed.
Lemma foldl_return_items l : forall d, NoDup (mail_ID <$> l) -> mail_items (foldl return_step d l) = new_owner l <$> mail_items d.
Proof.
  induction l as [|m l IH]; intros d Hnd; cbn [foldl].
  - symmetry. apply list_fmap_id.
  - apply NoDup_cons in Hnd as [Hm Hnd]. rewrite IH by done. unfold return_step at 1. cbn [mail_items].
    rewrite <- list_fmap_compose. apply list_fmap_ext. intros _ mi _. cbn. unfold new_owner, set_owner. rewrite filter_cons.
    destruct (HasItemAttachments m) eqn:Hi; cbn [andb]; [|by rewrite decide_False by (by intros [_ ?])].
    destruct (Z.eqb_spec (mi_mail mi) (mail_ID m)) as [He|Hne].
    + rewrite decide_True by done. cbn [mi_mail]. rewrite mail_filter_none; [done|]. intros x Hx [E _]. apply Hm. rewrite <- He, <- E. by apply list_elem_of_fmap_2.
    + by rewrite decide_False by (intros [? _]; congruence).
Qed.
Lemma foldl_return_rest l : forall d, instances (foldl return_step d l) = instances d /\ next_id (foldl return_step d l) = next_id d.
Proof. induction l as [|m l IH]; intros d; [done|]. cbn [foldl]. destruct (IH (return_step d m)) as [-> ->]. done. Qed.

(** ** The deletions *)
Lemma mail_filter_all {A} (P : A -> Prop) `{forall x, Decision (P x)} (l : list A) : (forall x, x ∈ l -> P x) -> filter P l = l.
Proof. induction l as [|x l IH]; intros Hp; [done|]. rewrite filter_cons_True by (apply Hp; left). f_equal. apply IH. intros y Hy. apply Hp. by right. Qed.
Lemma delete_mails_run c evs r d ids : c !! r = Some d ->
  (if (length ids =? 0)%nat then mret tt else DeleteMailsWithoutAttachments r ids : M unit) (Sys c [] evs) =
  (Ok tt, Sys (<[r := with_mails (filter (fun m => mail_ID m ∉ ids) (mails d)) d]> c) [] evs).
Proof.
  intros Hd. destruct ids as [|i ids]; cbn [length Nat.eqb].
  - rewrite mail_filter_all by (intros ? _; apply not_elem_of_nil). destruct d. cbn. by rewrite insert_id.
  - unfold DeleteMailsWithoutAttachments, exec_in. erewrite bind_run by (by apply db_of_run). by rewrite (exec_run c evs r d _ Hd).
Qed.
Definition finish (ids : list u64) (d : mail_tables) : mail_tables :=
  let items := mi_item <$> filter (fun mi => mi_mail mi ∈ ids) (mail_items d) in
  {| mails := filter (fun m => mail_ID m ∉ ids) (mails d); mail_items := filter (fun mi => mi_item mi ∉ items) (mail_items d);
     instances := filter (fun e => e.1 ∉ items) (instances d); next_id := next_id d |}.
Lemma finish_nil d : finish [] d = d.
Proof.
  unfold finish. rewrite (mail_filter_none (fun mi => mi_mail mi ∈ [])) by (intros ? _; apply not_elem_of_nil). cbn [fmap list_fmap].
  rewrite !mail_filter_all by (intros ? _; apply not_elem_of_nil). rewrite map_filter_id; [by destruct d|]. intros ? ? _. apply not_elem_of_nil.
Qed.
Lemma finish_run c evs r d ids : c !! r = Some d ->
  (if (length ids =? 0)%nat then mret tt
   else
     items ← MailItemsIDsByMailIDs r ids;
     (if (0 <? length items)%nat then DeleteItemsWithIDs r items ;; DeleteMailItemsWithIDs r items else mret tt) ;;
     DeleteMailsWithoutAttachments r ids : M unit) (Sys c [] evs) =
  (Ok tt, Sys (<[r := finish ids d]> c) [] evs).
Proof.
  intros Hd. destruct ids as [|i ids]; cbn [length Nat.eqb]; [by rewrite finish_nil, insert_id|].
  unfold MailItemsIDsByMailIDs. erewrite bind_run by (by erewrite bind_run by (by apply query_run)).
  unfold finish. destruct (mi_item <$> filter _ (mail_items d)) as [|x items]; cbn [length Nat.ltb Nat.leb].
  - erewrite bind_run by reflexivity. rewrite (mail_filter_all (fun mi => mi_item mi ∉ [])) by (intros ? _; apply not_elem_of_nil).
    rewrite map_filter_id by (intros ? ? _; apply not_elem_of_nil).
    unfold DeleteMailsWithoutAttachments, exec_in. erewrite bind_run by (by apply db_of_run). by rewrite (exec_run c evs r d _ Hd).
  - unfold DeleteItemsWithIDs, DeleteMailItemsWithIDs, DeleteMailsWithoutAttachments, exec_in.
    erewrite bind_run. 2:{ erewrite bind_run. 2:{ erewrite bind_run by (by apply db_of_run). by rewrite (exec_run c evs r d _ Hd). }
      erewrite bind_run by (apply db_of_run, lookup_insert_eq). apply exec_run, lookup_insert_eq. }
    erewrite bind_run by (apply db_of_run, lookup_insert_eq). erewrite exec_run by (apply lookup_insert_eq).
    by rewrite !insert_insert_eq.
Qed.

(** ** The result *)
Lemma id_in_filter (l : list Mail) (P : Mail -> Prop) `{forall m, Decision (P m)} m :
  NoDup (mail_ID <$> l) -> m ∈ l -> mail_ID m ∈ mail_ID <$> filter P l <-> P m.
Proof.
  intros Hnd Hm. rewrite list_elem_of_fmap. split.
  - intros (m' & E & Hm'). apply list_elem_of_filter in Hm' as [HP Hm']. by rewrite (NoDup_key_unique mail_ID l m m' Hnd Hm Hm' E).
  - intros HP. exists m. split; [done|]. by apply list_elem_of_filter.
Qed.
Lemma back_row_spec (l : list Mail) m : NoDup (mail_ID <$> l) -> m ∈ l ->
  back_row (filter sent_back l) m = if decide (sent_back m) then returned now m else m.
Proof.
  intros Hnd Hm. unfold back_row. rewrite list_filter_filter. case_decide as Hs.
  - rewrite (list_filter_iff _ (fun m' => mail_ID m' = mail_ID m /\ bool_decide (sent_back m') = true)).
    2:{ intros m'. rewrite bool_decide_eq_true. tauto. }
    rewrite (filter_id l (fun m' => bool_decide (sent_back m'))); [by destruct m|done..|by apply bool_decide_eq_true].
  - rewrite mail_filter_none; [done|]. intros m' Hm' [E HP]. apply Hs. by rewrite (NoDup_key_unique mail_ID l m m' Hnd Hm Hm' (eq_sym E)).
Qed.
Lemma mails_after (l : list Mail) : NoDup (mail_ID <$> l) ->
  filter (fun m => mail_ID m ∉ mail_ID <$> filter destroyed l)
    (back_row (filter sent_back l) <$> filter (fun m => mail_ID m ∉ mail_ID <$> filter thrown_away l) l) = (omap after_cleanup l : list Mail).
Proof.
  intros Hnd. assert (forall k, (forall m, m ∈ k -> m ∈ l) ->
    filter (fun m => mail_ID m ∉ mail_ID <$> filter destroyed l)
      (back_row (filter sent_back l) <$> filter (fun m => mail_ID m ∉ mail_ID <$> filter thrown_away l) k) = (omap after_cleanup k : list Mail)) as Hk; [|by apply Hk].
  induction k as [|m k IH]; intros Hin; [done|]. assert (m ∈ l) as Hm by (apply Hin; left). cbn [omap list_omap]. rewrite <- IH by (intros; apply Hin; by right).
  pose proof (id_in_filter l thrown_away m Hnd Hm) as Ht'. pose proof (id_in_filter l destroyed m Hnd Hm) as Hd'.
  pose proof (back_row_spec l m Hnd Hm) as Hb. unfold after_cleanup. destruct (decide (thrown_away m)) as [Ht|Ht].
  - rewrite filter_cons_False by tauto. by rewrite decide_True by (by left).
  - rewrite filter_cons_True by tauto. cbn [fmap list_fmap].
    assert (mail_ID (back_row (filter sent_back l) m) = mail_ID m) as Hid by (rewrite Hb; by case_decide).
    destruct (decide (destroyed m)) as [Hd|Hd].
    + rewrite filter_cons_False by (rewrite Hid; tauto). by rewrite decide_True by (by right).
    + rewrite filter_cons_True by (rewrite Hid; tauto). rewrite (decide_False (P := thrown_away m \/ destroyed m)) by tauto. rewrite Hb. by case_decide.
Qed.
Lemma finish_cleaned d : NoDup (mail_ID <$> mails d) ->
  finish (mail_ID <$> filter destroyed (mails d))
    (foldl return_step (with_mails (filter (fun m => mail_ID m ∉ mail_ID <$> filter thrown_away (mails d)) (mails d)) d) (filter sent_back (mails d))) = cleaned d.
Proof.
  intros Hnd. assert (NoDup (mail_ID <$> filter sent_back (mails d))) as Hndb.
  { clear -Hnd. induction (mails d) as [|m l IH]; [constructor|]. apply NoDup_cons in Hnd as [Hm Hnd]. rewrite filter_cons. case_decide; [|by apply IH].
    apply NoDup_cons. split; [|by apply IH]. intros Hin. apply Hm. apply list_elem_of_fmap in Hin as (m' & -> & Hm'). apply list_elem_of_filter in Hm' as [_ ?]. by apply list_elem_of_fmap_2. }
  unfold finish, cleaned. rewrite foldl_return_mails, foldl_return_items by done.
  destruct (foldl_return_rest (filter sent_back (mails d)) (with_mails (filter (fun m => mail_ID m ∉ mail_ID <$> filter thrown_away (mails d)) (mails d)) d)) as [-> ->].
  cbn [with_mails mails mail_items instances next_id]. rewrite mails_after by done.
  assert (mi_item <$> filter (fun mi => mi_mail mi ∈ mail_ID <$> filter destroyed (mails d)) (new_owner (filter sent_back (mails d)) <$> mail_items d) = doomed_items d) as ->; [|done].
  unfold doomed_items. induction (mail_items d) as [|mi l IH]; [done|]. cbn [fmap list_fmap]. rewrite !filter_cons.
  assert (mi_mail (new_owner (filter sent_back (mails d)) mi) = mi_mail mi /\ mi_item (new_owner (filter sent_back (mails d)) mi) = mi_item mi) as [-> Hi]
    by (unfold new_owner; by destruct (filter _ (filter sent_back (mails d)))).
  case_decide; cbn [fmap list_fmap]; [by rewrite Hi, <- IH|exact IH].
Qed.

(** The cleanup of a realm, when the database answers, throws away the
    expired mails that are empty, destroys those that were returned once,
    with their items, and sends the others back to their senders, with their
    items and for as long as they had been kept, telling each sender; every
    other mail stays as it is. *)
Theorem cleanup_exact c evs r d : c !! r = Some d -> NoDup (mail_ID <$> mails d) ->
  ProcessExpiredMails client_found_rows now r (Sys c [] evs) =
  (Ok tt, Sys (<[r := cleaned d]> c) [] (evs ++ (return_event r <$> filter sent_back (mails d)))).
Proof.
  intros Hd Hnd. unfold ProcessExpiredMails, ExpiredMails. erewrite bind_run by (by erewrite bind_run by (by apply query_run)).
  set (l := filter (fun m => ExpirationTimestamp m < Unix now) (mails d)).
  assert (filter (fun m => has_contents m = false) l = filter thrown_away (mails d)) as ->
    by (unfold l; rewrite list_filter_filter; apply list_filter_iff; unfold thrown_away, expired; tauto).
  cbv zeta. rewrite length_fmap, <- (length_fmap mail_ID). erewrite bind_run by (by apply delete_mails_run).
  erewrite bind_run by (apply return_loop_run, lookup_insert_eq). rewrite insert_insert_eq.
  assert (filter (fun m => was_returned m = true) (filter (fun m => has_contents m = true) l) = filter destroyed (mails d)) as ->
    by (unfold l; rewrite !list_filter_filter; apply list_filter_iff; unfold destroyed, expired; tauto).
  assert (filter (fun m => was_returned m = false) (filter (fun m => has_contents m = true) l) = filter sent_back (mails d)) as ->
    by (unfold l; rewrite !list_filter_filter; apply list_filter_iff; unfold sent_back, expired; tauto).
  rewrite (finish_run _ _ r _ _ (lookup_insert_eq _ _ _)). rewrite insert_insert_eq. by rewrite finish_cleaned.
Qed.
End Cleanup.
