(* ===== verification/MailMoney.v ===== *)
(** * MailMoney: the money in the mails
    (apps/mailserver/service/mail.go, repo/mail_mysql.go)

    Whatever calls fail and wherever a request breaks off, the mail service
    never hands out more money than was put in. *)
From S2P Require Import Prelude Safety MailRepo MailService MailFacts MailCleanup.

Abbreviation M A := (go mail_state mail_event mail_err A).

Definition money (d : mail_tables) : Z := zsum MoneyToSend (mails d).
Record money_wf (d : mail_tables) : Prop := {
  mw_ids : NoDup (mail_ID <$> mails d);
  mw_fresh : Forall (fun m => mail_ID m < next_id d) (mails d);
  mw_money : Forall (fun m => 0 <= MoneyToSend m) (mails d)
}.
(** What a request remembers of a mail agrees with the table. *)
Definition known (d : mail_tables) (m : Mail) : Prop :=
  mail_ID m < next_id d /\ forall row, row ∈ mails d -> mail_ID row = mail_ID m -> MoneyToSend row = MoneyToSend m.
Definition remembers (l : list Mail) (d : mail_tables) : Prop := forall m, m ∈ l -> known d m.

Section Money.
Context (client_found_rows : bool) (r : u32).
Implicit Types c : mail_state.

Definition holds (t : Z) (l : list Mail) (c : mail_state) : Prop :=
  exists d, c !! r = Some d /\ money_wf d /\ remembers l d /\ money d <= t.
Abbreviation keeps_money t l m := (spec (holds t l) m (fun _ => holds t l) (fun _ => holds t l) (fun _ => False)).

Lemma holds_mono t t' l l' c : t <= t' -> (forall m, m ∈ l' -> m ∈ l) -> holds t l c -> holds t' l' c.
Proof. intros Ht Hl (d & Hd & Hw & Hr & Hm). exists d. split_and!; [done..|intros m Hin; by apply Hr, Hl|lia]. Qed.
Lemma spec_db_of t l F : spec (holds t l) (db_of r : M _) (fun d c => c !! r = Some d /\ holds t l c) F (fun _ => False).
Proof.
  intros [c fs evs] Hc. cbn [st] in *. pose proof Hc as (d & Hd & _). unfold db_of, mbind, go_bind, gets, deref, mret, go_ret, id. cbn [st].
  by rewrite Hd.
Qed.
Lemma spec_query t l : spec (holds t l) (query r : M _) (fun d c => c !! r = Some d /\ holds t l c) (fun _ => holds t l) (fun _ => False).
Proof.
  unfold query. eapply spec_bind; [apply spec_db_of|]. intros d. eapply spec_bind; [by apply spec_ext; intros c [_ ?]|]. intros ?.
  by apply spec_ret.
Qed.
(** A change of the tables that keeps the money and what is remembered. *)
Lemma holds_change t l c d d' : c !! r = Some d -> holds t l c ->
  (money_wf d -> remembers l d -> money_wf d' /\ remembers l d' /\ money d' <= money d) -> holds t l (<[r := d']> c).
Proof.
  intros Hd (d0 & Hd0 & Hw & Hr & Hm) Hch. rewrite Hd in Hd0. injection Hd0 as <-. destruct (Hch Hw Hr) as (Hw' & Hr' & Hm').
  exists d'. rewrite lookup_insert_eq. split_and!; [done..|lia].
Qed.
Lemma spec_exec t l f :
  (forall d, money_wf d -> remembers l d -> money_wf (f d) /\ remembers l (f d) /\ money (f d) <= money d) -> keeps_money t l (exec r f : M _).
Proof.
  intros Hf. unfold exec. eapply spec_bind; [apply spec_query|]. intros d. apply spec_modify. intros c [Hd Hc]. eapply holds_change; [done..|apply Hf].
Qed.
Lemma same_mails_change l d d' : mails d' = mails d -> next_id d' = next_id d -> money_wf d -> remembers l d ->
  money_wf d' /\ remembers l d' /\ money d' <= money d.
Proof.
  intros Hm Hn [Hi Hf Ho] Hr. split_and!.
  - split; by rewrite ?Hm, ?Hn.
  - intros m Hin. destruct (Hr m Hin) as [? ?]. split; [by rewrite Hn|by rewrite Hm].
  - unfold money. by rewrite Hm.
Qed.
Lemma zsum_filter_le {A} (f : A -> Z) (P : A -> Prop) `{forall x, Decision (P x)} (l : list A) :
  Forall (fun x => 0 <= f x) l -> zsum f (filter P l) <= zsum f l.
Proof.
  induction 1 as [|x l Hx _ IH]; [done|]. rewrite filter_cons. case_decide; simpl; lia.
Qed.
Lemma fewer_mails_change l d (P : Mail -> Prop) `{forall m, Decision (P m)} : money_wf d -> remembers l d ->
  let d' := with_mails (filter P (mails d)) d in money_wf d' /\ remembers l d' /\ money d' <= money d.
Proof.
  intros [Hi Hf Ho] Hr d'. split_and!.
  - split; cbn.
    + clear -Hi. induction (mails d) as [|m k IH]; [constructor|]. apply NoDup_cons in Hi as [Hm Hnd]. rewrite filter_cons. case_decide; [|by apply IH].
      apply NoDup_cons. split; [|by apply IH]. intros Hin. apply Hm. apply list_elem_of_fmap in Hin as (m' & -> & Hm').
      apply list_elem_of_filter in Hm' as [_ ?]. by apply list_elem_of_fmap_2.
    + apply Forall_forall. intros m [_ Hm]%list_elem_of_filter. rewrite Forall_forall in Hf. by apply Hf.
    + apply Forall_forall. intros m [_ Hm]%list_elem_of_filter. rewrite Forall_forall in Ho. by apply Ho.
  - intros m Hin. destruct (Hr m Hin) as [Hlt He]. split; [done|]. cbn. intros row Hrow. apply list_elem_of_filter in Hrow as [_ Hrow]. by apply He.
  - by apply zsum_filter_le.
Qed.
(** Updates that keep the money of each row. *)
Lemma update_rows_ids which f (l : list Mail) : (forall m, mail_ID (f m) = mail_ID m) -> mail_ID <$> update_rows which f l = mail_ID <$> l.
Proof. intros Hf. unfold update_rows. rewrite <- list_fmap_compose. apply list_fmap_ext. intros i m _. cbn. by destruct (which m). Qed.
Lemma spec_update t l which f :
  (forall m, mail_ID (f m) = mail_ID m) ->
  (forall d row, remembers l d -> row ∈ mails d -> which row = true -> MoneyToSend (f row) = MoneyToSend row) ->
  keeps_money t l (exec_update client_found_rows r which f : M _).
Proof.
  intros Hid Hmoney. unfold exec_update. eapply spec_bind; [apply spec_query|]. intros d. cbv zeta.
  apply (spec_bind _ (fun _ => holds t l)); [|by intros _; apply spec_ret]. apply spec_modify. intros c [Hd Hc]. eapply holds_change; [done..|].
  intros [Hi Hf Ho] Hr. assert (forall row, row ∈ mails d -> MoneyToSend (if which row then f row else row) = MoneyToSend row) as Hsame.
  { intros row Hrow. destruct (which row) eqn:E; [by eapply Hmoney|done]. }
  split_and!.
  - split; cbn.
    + by rewrite update_rows_ids.
    + unfold update_rows. apply Forall_fmap. eapply Forall_impl; [exact Hf|]. intros m Hm. cbn. by destruct (which m); rewrite ?Hid.
    + unfold update_rows. apply Forall_fmap, Forall_forall. intros m Hm. cbn. rewrite Hsame by done. rewrite Forall_forall in Ho. by apply Ho.
  - intros m Hin. destruct (Hr m Hin) as [Hlt He]. split; [done|]. cbn. intros row Hrow Heq. unfold update_rows in Hrow.
    apply list_elem_of_fmap in Hrow as (row0 & -> & Hrow0). rewrite Hsame by done. apply He; [done|]. by destruct (which row0); rewrite <- Heq, ?Hid.
  - change (zsum MoneyToSend ((fun m => if which m then f m else m) <$> mails d) <= money d). rewrite zsum_fmap. rewrite (zsum_ext _ MoneyToSend); [done|]. exact Hsame.
Qed.
Lemma spec_update_known t l m m' :
  m ∈ l -> mail_ID m' = mail_ID m -> MoneyToSend m' = MoneyToSend m ->
  keeps_money t l (exec_update client_found_rows r (fun row => mail_ID row =? mail_ID m') (set_columns m') : M _).
Proof.
  intros Hm Hid Hmoney. apply spec_update; [done|]. intros d row Hr Hrow Hw. cbn. rewrite Hmoney. symmetry. apply (Hr m Hm); [done|]. lia.
Qed.
Lemma spec_log t l e ev : keeps_money t l (log_err (publish e ev) : M unit).
Proof. intros s Hs. unfold log_err, publish, ext. by destruct (faults s) as [|[] ?]. Qed.

(** ** Operations *)
Lemma spec_exec_attachments t l atts : keeps_money t l (exec_attachments atts : M _).
Proof.
  induction atts as [|a atts IH]; cbn [exec_attachments]; [by apply spec_ret|].
  do 2 (apply (spec_bind _ (fun _ => holds t l)); [by apply spec_ext|intros ?]). exact IH.
Qed.
Lemma insert_change t l c d mail id : c !! r = Some d -> holds t l c -> 0 <= MoneyToSend mail -> id < next_id d ->
  id ∉ mail_ID <$> mails d -> (forall m, m ∈ l -> mail_ID m <> id) ->
  holds (t + MoneyToSend mail) l (<[r := insert_mail mail id d]> c).
Proof.
  intros Hd (d0 & Hd0 & [Hi Hf Ho] & Hr & Ht) Hpos Hlt Hid Hl. rewrite Hd in Hd0. injection Hd0 as <-.
  exists (insert_mail mail id d). rewrite lookup_insert_eq. split_and!; [done| | |].
  - split; cbn.
    + rewrite fmap_app. apply NoDup_app. split_and!; [done| |apply NoDup_singleton]. by intros x Hx ->%list_elem_of_singleton.
    + apply Forall_app. split; [done|]. by repeat constructor.
    + apply Forall_app. split; [done|]. by repeat constructor.
  - intros m Hm. destruct (Hr m Hm) as [H1 H2]. split; [done|]. cbn. intros row [Hrow| ->%list_elem_of_singleton]%elem_of_app; [by apply H2|].
    cbn. intros E. by destruct (Hl m Hm).
  - unfold money in *. change (zsum MoneyToSend (mails d ++ [mail_row mail id]) <= t + MoneyToSend mail). rewrite zsum_app. cbn [zsum foldr mail_row MoneyToSend]. lia.
Qed.
(** The id that a transaction took stays its own. *)
Definition took (id : u64) (l : list Mail) (c : mail_state) : Prop :=
  exists d, c !! r = Some d /\ id < next_id d /\ id ∉ mail_ID <$> mails d /\ (forall m, m ∈ l -> mail_ID m <> id).
Lemma spec_AddMail t l mail : 0 <= MoneyToSend mail ->
  spec (holds t l) (AddMail r mail)
    (fun m' => holds (t + MoneyToSend mail) l) (fun _ => holds t l) (fun _ => False).
Proof.
  intros Hpos. unfold AddMail. apply (spec_bind _ (fun _ => holds t l)); [by eapply spec_conseq; [apply (spec_db_of t l (fun _ => holds t l))|done|intros ? ? [_ ?]|..]|].
  intros ?. do 2 (apply (spec_bind _ (fun _ => holds t l)); [by apply spec_ext|intros ?]).
  eapply spec_bind; [apply spec_db_of|]. intros d. cbv zeta.
  apply (spec_bind _ (fun _ c => took (next_id d) l c /\ holds t l c)).
  { apply spec_modify. intros c [Hd Hc]. pose proof Hc as (d0 & Hd0 & [Hi Hf Ho] & Hr & Ht). rewrite Hd in Hd0. injection Hd0 as <-. split.
    - exists (with_next_id (next_id d + 1) d). rewrite lookup_insert_eq. split_and!; [done|cbn; lia| |].
      + cbn. intros (m & E & Hm)%list_elem_of_fmap. rewrite Forall_forall in Hf. specialize (Hf m Hm). lia.
      + intros m Hm. destruct (Hr m Hm). lia.
    - eapply holds_change; [done..|]. intros _ _. split_and!; [|intros m Hm; destruct (Hr m Hm); split; [cbn; lia|done]|done].
      split; [done| |done]. eapply Forall_impl; [exact Hf|]. cbn. lia. }
  intros ?. assert (forall e, spec (fun c => took (next_id d) l c /\ holds t l c) (ext e : M unit)
    (fun _ c => took (next_id d) l c /\ holds t l c) (fun _ => holds t l) (fun _ => False)) as Hext by (intros; by apply spec_ext; intros ? [_ ?]).
  do 3 (eapply spec_bind; [apply Hext|intros ?]).
  apply (spec_bind _ (fun _ c => took (next_id d) l c /\ holds t l c)).
  { generalize (Attachments mail). intros atts. induction atts as [|att atts IH]; cbn [exec_attachments]; [by apply spec_ret|].
    do 2 (eapply spec_bind; [apply Hext|intros []]). exact IH. }
  intros ?. eapply spec_bind; [apply Hext|]. intros ?. apply (spec_bind _ (fun d' c => c !! r = Some d' /\ took (next_id d) l c /\ holds t l c)).
  { intros s [Htook Hc]. pose proof (spec_db_of t l (fun _ _ => False) s Hc) as Hs. unfold db_of, mbind, go_bind, gets, deref, mret, go_ret, id in *. cbn [st] in *.
    destruct (st s !! r) as [d'|] eqn:E; [|done]. split_and!; done. }
  intros d'. apply (spec_bind _ (fun _ => holds (t + MoneyToSend mail) l)); [|by intros ?; apply spec_ret].
  apply spec_modify. intros c (Hd' & (d0 & Hd0 & Hlt & Hid & Hl) & Hc). rewrite Hd' in Hd0. injection Hd0 as <-. by apply insert_change.
Qed.
Lemma spec_SendMail expt now t l mail : 0 <= MoneyToSend mail ->
  spec (holds t l) (SendMail expt now r mail) (fun _ => holds (t + MoneyToSend mail) l)
    (fun _ => holds (t + MoneyToSend mail) l) (fun _ => False).
Proof.
  intros Hpos. unfold SendMail. destruct (_ =? _); [apply spec_fail; intros c; apply holds_mono; [lia|done]|].
  apply (spec_bind _ (fun _ => holds (t + MoneyToSend mail) l)).
  - eapply spec_conseq; [apply (spec_AddMail t l (with_defaults expt now mail)); done|done|done| |done].
    intros ? c. apply holds_mono; [cbn; lia|done].
  - intros m'. apply (spec_bind _ (fun _ => holds (t + MoneyToSend mail) l)); [apply spec_log|]. intros ?. by apply spec_ret.
Qed.

(** Reading a mail: it is remembered. *)
Lemma spec_mailByID t l id :
  spec (holds t l) (mailByIDWithoutAttachments r id)
    (fun mail c => (exists d, c !! r = Some d /\ mail ∈ mails d /\ mail_ID mail = id) /\ holds t (mail :: l) c) (fun _ => holds t l) (fun _ => False).
Proof.
  unfold mailByIDWithoutAttachments. eapply spec_bind; [apply spec_query|]. intros d.
  destruct (last _) as [mail|] eqn:E; [|by apply spec_fail; intros c [_ ?]]. destruct (mail_ID mail =? 0); [by apply spec_fail; intros c [_ ?]|].
  apply last_Some in E as [l' E]. assert (mail ∈ filter (fun m => mail_ID m = id) (mails d)) as Hin by (rewrite E; apply elem_of_app; right; by left).
  apply list_elem_of_filter in Hin as [Hid Hin]. apply spec_ret. intros c [Hd (d0 & Hd0 & Hw & Hr & Ht)]. rewrite Hd in Hd0. injection Hd0 as <-.
  split; [by exists d|]. exists d. split_and!; [done..| |done]. intros m [->|Hm]%elem_of_cons; [|by apply Hr]. destruct Hw as [Hi Hf _].
  split; [rewrite Forall_forall in Hf; by apply Hf|]. intros row Hrow He. by rewrite (NoDup_key_unique mail_ID (mails d) row mail Hi Hrow Hin He).
Qed.
Lemma add_attachments_money atts : forall m, mail_ID (add_attachments atts m) = mail_ID m /\ MoneyToSend (add_attachments atts m) = MoneyToSend m.
Proof. induction atts as [|a atts IH]; intros m; [done|]. exact (IH (add_attachment a m)). Qed.
Lemma spec_MailByID t l id :
  spec (holds t l) (repo_MailByID r id) (fun mail c => mail_ID mail = id /\ holds t (mail :: l) c) (fun _ => holds t l) (fun _ => False).
Proof.
  unfold repo_MailByID. eapply spec_bind; [apply spec_mailByID|]. intros mail. apply (spec_pre _ (fun c => mail_ID mail = id /\ holds t (mail :: l) c));
    [|by intros c [(d & _ & _ & ?) ?]]. apply spec_pure. intros Hid.
  eapply spec_bind; [eapply spec_conseq; [apply (spec_query t (mail :: l))|done..| |done]; intros ? c; apply holds_mono; [done|by right]|].
  intros d s [_ Hs]. rewrite attach_all_run. case_decide.
  - destruct (add_attachments_money (omap snd (joined_items d (fun m => mail_ID m =? id))) mail) as [H1 H2]. split; [by rewrite H1|].
    destruct Hs as (d0 & Hd0 & Hw & Hr & Ht). exists d0. split_and!; [done..| |done]. intros m [->|Hm]%elem_of_cons; [|by apply Hr; right].
    unfold known. rewrite H1, H2. apply Hr. by left.
  - eapply holds_mono; [done| |exact Hs]. by right.
Qed.

(** ** Reading does not change the tables *)
Definition reads {A} (m : M A) : Prop := forall s, st (m s).2 = st s.
Lemma spec_reads {A} (R P : mail_state -> Prop) (Q : A -> mail_state -> Prop) F (m : M A) :
  reads m -> spec P m Q F (fun _ => False) -> spec (fun c => R c /\ P c) m (fun a c => R c /\ Q a c) (fun e c => R c /\ F e c) (fun _ => False).
Proof. intros Hr Hm s [HR HP]. specialize (Hm s HP). specialize (Hr s). destruct (m s) as [[a|e|] s']; cbn in *; by rewrite ?Hr in *. Qed.
Lemma reads_bind {A B} (m : M A) (k : A -> M B) : reads m -> (forall a, reads (k a)) -> reads (m ≫= k).
Proof.
  intros Hm Hk s. unfold mbind, go_bind. specialize (Hm s). destruct (m s) as [[a|e|] s']; cbn in *; [|done..]. rewrite Hk. exact Hm.
Qed.
Lemma reads_query : reads (query r : M _).
Proof.
  intros s. unfold query, db_of, mbind, go_bind, gets, deref, ext, mret, go_ret, panic, id. cbn [st faults].
  destruct (st s !! r); [|done]. by destruct (faults s) as [|[] fs].
Qed.
Lemma reads_mailByID id : reads (mailByIDWithoutAttachments r id).
Proof. apply reads_bind; [apply reads_query|]. intros d s. destruct (last _) as [mail|]; [|done]. by destruct (_ =? _). Qed.
Lemma reads_MailByID id : reads (repo_MailByID r id).
Proof. apply reads_bind; [apply reads_mailByID|]. intros mail. apply reads_bind; [apply reads_query|]. intros d s. by rewrite attach_all_run. Qed.
Lemma attach_loop_state rows idx : forall ms (s : sys mail_state mail_event), st (attach_loop rows idx ms s).2 = st s.
Proof.
  induction rows as [|[id [a|]] rows IH]; intros ms s; cbn [attach_loop not_nil]; [done| |done].
  erewrite bind_run by reflexivity. destruct (ms !! _); cbn [deref]; [|done]. erewrite bind_run by reflexivity. apply IH.
Qed.
Lemma reads_list p : reads (MailListForPlayer r p).
Proof.
  apply reads_bind; [apply reads_query|]. intros d. apply reads_bind; [apply reads_query|]. intros d' s. apply attach_loop_state.
Qed.

(** ** Taking money *)
Lemma zsum_update_cons which f x (l : list Mail) :
  zsum MoneyToSend (update_rows which f (x :: l)) = MoneyToSend (if which x then f x else x) + zsum MoneyToSend (update_rows which f l).
Proof. done. Qed.
Lemma zsum_cons {A} (f : A -> Z) x l : zsum f (x :: l) = f x + zsum f l.
Proof. done. Qed.
Lemma take_money_le m (l : list Mail) : m ∈ l -> Forall (fun m => 0 <= MoneyToSend m) l ->
  zsum MoneyToSend (update_rows (fun row => mail_ID row =? mail_ID m) (set_columns (without_money m)) l) + MoneyToSend m <= zsum MoneyToSend l.
Proof.
  assert (forall l, Forall (fun m => 0 <= MoneyToSend m) l ->
    zsum MoneyToSend (update_rows (fun row => mail_ID row =? mail_ID m) (set_columns (without_money m)) l) <= zsum MoneyToSend l) as Hle.
  { induction 1 as [|x k Hx _ IH]; [done|]. rewrite zsum_update_cons, zsum_cons. destruct (_ =? _); cbn [set_columns without_money MoneyToSend]; lia. }
  induction l as [|x l IH]; intros Hm Hpos; [by apply elem_of_nil in Hm|]. apply Forall_cons in Hpos as [Hx Hpos].
  rewrite zsum_update_cons, zsum_cons. apply elem_of_cons in Hm as [->|Hm].
  - specialize (Hle l Hpos). rewrite Z.eqb_refl. cbn [set_columns without_money MoneyToSend]. lia.
  - specialize (IH Hm Hpos). destruct (mail_ID x =? _); cbn [set_columns without_money MoneyToSend]; lia.
Qed.
Definition present (mail : Mail) (c : mail_state) : Prop := exists d, c !! r = Some d /\ mail ∈ mails d.
Lemma spec_take t mail :
  spec (fun c => present mail c /\ holds t [] c)
    (updateMailByIDWithoutAttachments client_found_rows r (without_money mail) ;; mret (MoneyToSend mail))
    (fun taken => holds (t - taken) []) (fun _ => holds t []) (fun _ => False).
Proof.
  apply (spec_bind _ (fun _ => holds (t - MoneyToSend mail) [])); [|by intros ?; apply spec_ret]. unfold updateMailByIDWithoutAttachments.
  apply (spec_bind _ (fun _ c => 0 <= MoneyToSend mail /\ holds (t - MoneyToSend mail) [] c)).
  - unfold exec_update. eapply spec_bind; [eapply spec_conseq; [apply (spec_reads (present mail) _ _ _ _ reads_query (spec_query t []))|done..| |done]; by intros ? ? [_ ?]|].
    intros d. cbv zeta. apply (spec_bind _ (fun _ c => 0 <= MoneyToSend mail /\ holds (t - MoneyToSend mail) [] c)); [|by intros ?; apply spec_ret].
    apply spec_modify. intros c ((d0 & Hd0 & Hin) & Hd & (d1 & Hd1 & [Hi Hf Ho] & _ & Ht)).
    rewrite Hd in Hd0, Hd1. injection Hd0 as <-. injection Hd1 as <-. split; [rewrite Forall_forall in Ho; by apply Ho|].
    eexists. rewrite lookup_insert_eq. split_and!; [done| |by intros ? ?%elem_of_nil|].
    + split; cbn.
      * by rewrite update_rows_ids.
      * unfold update_rows. apply Forall_fmap. eapply Forall_impl; [exact Hf|]. intros m Hm. cbn. by destruct (_ =? _).
      * unfold update_rows. apply Forall_fmap. eapply Forall_impl; [exact Ho|]. intros m Hm. cbn. by destruct (_ =? _).
    + pose proof (take_money_le mail (mails d) Hin Ho) as Hle. unfold money in *.
      change (zsum MoneyToSend (update_rows (fun row => mail_ID row =? mail_ID mail) (set_columns (without_money mail)) (mails d)) <= t - MoneyToSend mail). lia.
  - intros n. apply spec_pure. intros Hpos. destruct (_ =? _)%nat; [apply spec_fail; intros c; by apply holds_mono; [lia|]|by apply spec_ret].
Qed.
Lemma spec_RemoveMailMoney t id recv :
  spec (holds t []) (RemoveMailMoney client_found_rows r id recv) (fun taken => holds (t - taken) []) (fun _ => holds t []) (fun _ => False).
Proof.
  assert (forall k : Mail -> M Z, (forall mail, spec (fun c => present mail c /\ holds t [] c) (k mail) (fun taken => holds (t - taken) []) (fun _ => holds t []) (fun _ => False)) ->
    spec (holds t []) (mail ← mailByIDWithoutAttachments r id; k mail) (fun taken => holds (t - taken) []) (fun _ => holds t []) (fun _ => False)) as Hk.
  { intros k Hk. eapply spec_bind; [apply (spec_mailByID t [])|]. intros mail. eapply spec_pre; [apply Hk|].
    intros c [(d & Hd & Hin & _) Hc]. split; [by exists d|]. eapply holds_mono; [done| |exact Hc]. by intros ? ?%elem_of_nil. }
  unfold RemoveMailMoney, RemoveMailMoneyForPlayer, repo_RemoveMailMoney. destruct recv as [p|]; apply Hk; intros mail; [|apply spec_take].
  destruct (negb _); [|apply spec_take]. apply spec_ret. intros c [_ Hc]. by rewrite Z.sub_0_r.
Qed.

(** ** The other requests *)
Lemma spec_delete_mail_item t l which : keeps_money t l (delete_mail_item r which : M _).
Proof.
  unfold delete_mail_item. eapply spec_bind; [apply spec_query|]. intros d. apply (spec_bind _ (fun _ => holds t l)).
  - apply spec_modify. intros c [Hd Hc]. eapply holds_change; [done..|]. intros. by apply same_mails_change.
  - intros ?. eapply spec_conseq; [by apply (spec_guard _ (fun _ => holds t l) (fun _ => False))|done|by intros ? ? [_ ?]|done|done].
Qed.
Lemma spec_exec_in t l ids f :
  (forall d, money_wf d -> remembers l d -> money_wf (f d) /\ remembers l (f d) /\ money (f d) <= money d) -> keeps_money t l (exec_in r ids f : M _).
Proof.
  intros Hf. unfold exec_in. eapply spec_bind; [apply (spec_db_of t l (fun _ => holds t l))|]. intros d. eapply (spec_pre _ (holds t l)); [|by intros c [_ ?]].
  destruct ids; [by apply spec_fail|by apply spec_exec].
Qed.
Lemma spec_delete_mails t l ids : keeps_money t l (DeleteMailsWithoutAttachments r ids : M _).
Proof. apply spec_exec_in. intros d Hw Hr. by apply (fewer_mails_change l d). Qed.
Lemma spec_delete_items t l ids : keeps_money t l (DeleteItemsWithIDs r ids : M _).
Proof. apply spec_exec_in. intros d Hw Hr. by apply same_mails_change. Qed.
Lemma spec_delete_mail_items t l ids : keeps_money t l (DeleteMailItemsWithIDs r ids : M _).
Proof. apply spec_exec_in. intros d Hw Hr. by apply same_mails_change. Qed.
Lemma spec_seq {A B} t l (m : M A) (k : M B) : keeps_money t l m -> keeps_money t l k -> keeps_money t l (m ;; k).
Proof. intros Hm Hk. apply (spec_bind _ (fun _ => holds t l)); [done|by intros ?]. Qed.
Lemma spec_when {A} t l (b : bool) (m1 m2 : M A) : keeps_money t l m1 -> keeps_money t l m2 -> keeps_money t l (if b then m1 else m2).
Proof. by destruct b. Qed.
Lemma spec_skip t l : keeps_money t l (mret tt : M _).
Proof. by apply spec_ret. Qed.

Lemma spec_MarkMailAsRead t p id : keeps_money t [] (MarkMailAsReadForPlayer client_found_rows r p id).
Proof.
  unfold MarkMailAsReadForPlayer. eapply spec_bind; [apply spec_MailByID|]. intros mail.
  apply (spec_pre _ (holds t [])); [|intros c [_ Hc]; eapply holds_mono; [done| |exact Hc]; by intros ? ?%elem_of_nil].
  unfold UpdateMailFlagsMaskForPlayer. apply (spec_bind _ (fun _ => holds t [])); [by apply spec_update|]. intros n.
  eapply spec_conseq; [by apply (spec_guard _ (fun _ => holds t []) (fun _ => False))|done|by intros ? ? [_ ?]|done|done].
Qed.
Lemma spec_DeleteMail t id : keeps_money t [] (DeleteMail r id).
Proof.
  unfold DeleteMail. eapply spec_bind; [apply spec_MailByID|]. intros mail.
  apply (spec_pre _ (holds t [])); [|intros c [_ Hc]; eapply holds_mono; [done| |exact Hc]; by intros ? ?%elem_of_nil].
  apply spec_seq; [|apply spec_delete_mails]. apply spec_when; [|apply spec_skip]. apply spec_seq; [apply spec_delete_mail_items|apply spec_delete_items].
Qed.

(** The cash on delivery that a request may collect. *)
Definition cod_at_most (id : u64) (dep : Z) (c : mail_state) : Prop :=
  forall d row, c !! r = Some d -> row ∈ mails d -> mail_ID row = id -> CashOnDelivery row <= dep.
Lemma add_attachments_cod atts : forall m, CashOnDelivery (add_attachments atts m) = CashOnDelivery m.
Proof. induction atts as [|a atts IH]; intros m; [done|]. exact (IH (add_attachment a m)). Qed.
(** What [MailByID] reads is a row of the table. *)
Lemma MailByID_row mid s : match repo_MailByID r mid s with
  | (Ok mail, _) => exists d row, st s !! r = Some d /\ row ∈ mails d /\ mail_ID row = mid /\ CashOnDelivery mail = CashOnDelivery row
  | _ => True
  end.
Proof.
  unfold repo_MailByID, mbind, go_bind. destruct (mailByIDWithoutAttachments r mid s) as [[row|e|] s1] eqn:E; [|done..].
  assert (exists d, st s !! r = Some d /\ row ∈ mails d /\ mail_ID row = mid) as (d & Hd & Hrow & Hid).
  { unfold mailByIDWithoutAttachments, mbind, go_bind in E. destruct (query r s) as [[d|?|] s2] eqn:Eq; [|done..].
    exists d. split.
    - unfold query, db_of, mbind, go_bind, gets, deref, ext, mret, go_ret, panic, id in Eq. cbn [st faults] in Eq.
      destruct (st s !! r); [|done]. destruct (faults s) as [|[] fs]; cbn in Eq; congruence.
    - destruct (last _) as [m|] eqn:El; [|done]. destruct (mail_ID m =? 0); [done|]. injection E as -> _.
      apply last_Some in El as [l' El]. assert (row ∈ filter (fun m => mail_ID m = mid) (mails d)) as Hin by (rewrite El; apply elem_of_app; right; by left).
      apply list_elem_of_filter in Hin. tauto. }
  destruct (query r s1) as [[d'|e|] s3]; [|done..]. rewrite attach_all_run. case_decide; [|done]. exists d, row. by rewrite add_attachments_cod.
Qed.
Lemma spec_MailByID_cod t id dep :
  spec (fun c => cod_at_most id dep c /\ holds t [] c) (repo_MailByID r id)
    (fun mail c => CashOnDelivery mail <= dep /\ mail_ID mail = id /\ holds t [mail] c) (fun _ => holds t []) (fun _ => False).
Proof.
  intros s [Hcod Hs]. pose proof (MailByID_row id s) as Hrow. pose proof (spec_MailByID t [] id s Hs) as Hm.
  destruct (repo_MailByID r id s) as [[mail|e|] s']; [|done..]. destruct Hrow as (d & row & Hd & Hin & Hid & Hc). split; [|done].
  rewrite Hc. by eapply Hcod.
Qed.
Lemma spec_RemoveMailItem expt now t id item recv (handleCOD : bool) dep : 0 <= dep ->
  spec (fun c => (handleCOD = true -> cod_at_most id dep c) /\ holds t [] c)
    (RemoveMailItem client_found_rows expt now r id item recv handleCOD)
    (fun _ => holds (t + dep) []) (fun _ => holds (t + dep) []) (fun _ => False).
Proof.
  intros Hdep. unfold RemoveMailItem.
  apply (spec_bind _ (fun mail c => (handleCOD = true -> CashOnDelivery mail <= dep) /\ holds t [mail] c)).
  { destruct handleCOD.
    - eapply spec_conseq; [apply (spec_MailByID_cod t id dep)|by intros c [H1 H2]; split; [apply H1|]|by intros mail c (? & _ & ?)| |done].
      intros ? c. apply holds_mono; [lia|done].
    - eapply spec_conseq; [apply (spec_MailByID t [] id)|by intros c [_ ?]|by intros mail c (_ & ?)| |done]. intros ? c. apply holds_mono; [lia|done]. }
  intros mail. apply spec_pure. intros Hcod.
  assert (forall c l, holds t l c -> holds (t + dep) [] c) as Hweak by (intros c l; apply holds_mono; [lia|by intros ? ?%elem_of_nil]).
  apply (spec_bind _ (fun _ => holds t [mail])).
  { eapply spec_conseq; [by apply (spec_guard _ (fun _ => holds t [mail]) (fun _ => False))|done|by intros ? ? [_ ?]|intros ? ?; by apply Hweak|done]. }
  intros ?. apply (spec_bind _ (fun _ => holds t [mail])).
  { eapply spec_conseq; [apply (spec_delete_mail_item t [mail])|done..|intros ? ?; by apply Hweak|done]. }
  intros ?. cbv zeta. apply (spec_bind _ (fun _ => holds (t + dep) [mail])).
  - destruct (handleCOD && (0 <? CashOnDelivery mail)) eqn:Epay; [|apply spec_ret; intros c; by apply holds_mono; [lia|]].
    apply andb_true_iff in Epay as [Hh Hpos%Z.ltb_lt]. specialize (Hcod Hh).
    apply (spec_bind _ (fun _ => holds (t + dep) [mail])); [|by intros ?; apply spec_ret].
    eapply spec_conseq; [apply (spec_SendMail expt now t [mail] (cod_mail mail)); cbn; lia|done| | |done].
    + intros ? c. apply holds_mono; [cbn; lia|done].
    + intros ? c. apply holds_mono; [cbn; lia|by intros ? ?%elem_of_nil].
  - intros ?. destruct (_ || _); [|apply spec_ret; intros c; by apply holds_mono; [|intros ? ?%elem_of_nil]].
    unfold UpdateMailWithoutAttachments. apply (spec_bind _ (fun _ => holds (t + dep) [])); [|by intros ?; apply spec_ret].
    eapply spec_conseq; [apply (spec_update_known (t + dep) [mail] mail); [by left|done..]|done|..|done]; intros ? c; by apply holds_mono; [|intros ? ?%elem_of_nil].
Qed.

(** The cleanup. *)
Lemma spec_return_loop now t l0 : forall l, (forall m, m ∈ l -> m ∈ l0) -> keeps_money t l0 (return_loop client_found_rows now r l).
Proof.
  induction l as [|m l IH]; intros Hl; cbn [return_loop]; [by apply spec_ret|]. assert (forall m', m' ∈ l -> m' ∈ l0) as Hl' by (intros; apply Hl; by right).
  destruct (0 <? _).
  - apply (spec_bind _ (fun _ => holds t l0)); [by apply IH|]. intros ids. by apply spec_ret.
  - apply spec_seq; [|by apply IH]. unfold return_mail. cbv zeta. apply spec_seq; [|apply spec_seq; [|apply spec_log]].
    + unfold UpdateMailWithoutAttachments. apply spec_seq; [|apply spec_skip]. apply (spec_update_known t l0 m); [apply Hl; by left|done..].
    + apply spec_when; [|apply spec_skip]. unfold UpdateMailItemsOwner. apply spec_exec. intros. by apply same_mails_change.
Qed.
Lemma spec_ProcessExpiredMails now t : keeps_money t [] (ProcessExpiredMails client_found_rows now r).
Proof.
  unfold ProcessExpiredMails, ExpiredMails.
  apply (spec_bind _ (fun l => holds t l)).
  { eapply spec_bind; [apply spec_query|]. intros d. apply spec_ret. intros c [Hd (d0 & Hd0 & Hw & _ & Ht)]. rewrite Hd in Hd0. injection Hd0 as <-.
    exists d. split_and!; [done..| |done]. intros m [_ Hm]%list_elem_of_filter. destruct Hw as [Hi Hf _].
    split; [rewrite Forall_forall in Hf; by apply Hf|]. intros row Hrow He. by rewrite (NoDup_key_unique mail_ID (mails d) row m Hi Hrow Hm He). }
  intros l. cbv zeta. assert (forall c, holds t l c -> holds t [] c) as Hweak by (intros c; apply holds_mono; [done|by intros ? ?%elem_of_nil]).
  eapply (spec_conseq _ (holds t l) _ (fun _ => holds t l) _ (fun _ => holds t l) _ (fun _ => False)); [|done|intros ? ?; apply Hweak|intros ? ?; apply Hweak|done].
  apply spec_seq; [apply spec_when; [apply spec_skip|apply spec_delete_mails]|].
  apply (spec_bind _ (fun _ => holds t l)); [apply spec_return_loop; intros m [_ ?]%list_elem_of_filter; done|]. intros ids.
  apply spec_when; [apply spec_skip|]. apply (spec_bind _ (fun _ => holds t l)).
  { unfold MailItemsIDsByMailIDs. eapply spec_bind; [apply spec_query|]. intros d. by apply spec_ret; intros c [_ ?]. }
  intros items. apply spec_seq; [|apply spec_delete_mails]. apply spec_when; [|apply spec_skip]. apply spec_seq; [apply spec_delete_items|apply spec_delete_mail_items].
Qed.
End Money.

(** ** Runs *)
Section Runs.
Context (client_found_rows : bool) (expt : Z) (r : u32).

Inductive mail_request :=
| RqSend (request : SendRequest)
| RqList (playerGUID : u64)
| RqGet (mailID : Z)
| RqMarkRead (playerGUID : u64) (mailID : Z)
| RqRemoveItem (mailID : Z) (itemGuid : u64) (playerGuid : option u64) (handleCashOnDelivery : bool)
| RqRemoveMoney (mailID : Z) (playerGuid : option u64)
| RqDelete (mailID : Z)
| RqCleanup.
(** The money that a request hands out is its value. *)
Definition serve_mail (now : Z) (req : mail_request) : M Z :=
  match req with
  | RqSend rq => Send expt now r rq ;; mret 0
  | RqList p => MailsForPlayer r p ;; mret 0
  | RqGet i => MailByID r i ;; mret 0
  | RqMarkRead p i => srv_MarkAsReadForPlayer client_found_rows r p i ;; mret 0
  | RqRemoveItem i g p cod => srv_RemoveMailItem client_found_rows expt now r i g p cod ;; mret 0
  | RqRemoveMoney i p => srv_RemoveMailMoney client_found_rows r i p
  | RqDelete i => srv_DeleteMail r i ;; mret 0
  | RqCleanup => ProcessExpiredMails client_found_rows now r ;; mret 0
  end.
(** The money that comes with a request: what is sent, and the cash on delivery
    that the caller took from the player. *)
Definition pays_at_most (req : mail_request) (paid : Z) (c : mail_state) : Prop :=
  match req with
  | RqSend rq => 0 <= sr_MoneyToSend rq /\ paid = sr_MoneyToSend rq
  | RqRemoveItem i _ _ true => 0 <= paid /\ cod_at_most r (wrap64 i) paid c
  | _ => paid = 0
  end.
(** A run with the money that was put in and the money that was handed out. *)
Inductive mail_run : sys mail_state mail_event -> Z -> Z -> sys mail_state mail_event -> Prop :=
| run_nil s : mail_run s 0 0 s
| run_ok s now req paid got s1 paid' got' s2 :
    pays_at_most req paid (st s) -> serve_mail now req s = (Ok got, s1) -> mail_run s1 paid' got' s2 -> mail_run s (paid + paid') (got + got') s2
| run_fail s now req paid e s1 paid' got' s2 :
    pays_at_most req paid (st s) -> serve_mail now req s = (Fail e, s1) -> mail_run s1 paid' got' s2 -> mail_run s (paid + paid') got' s2.

(** A request that only hands back its answer. *)
Lemma spec_answer {A} t t' (m : M A) P F : spec P m (fun _ => holds r t' []) F (fun _ => False) ->
  t' <= t -> spec P (m ;; mret 0) (fun got => holds r (t - got) []) F (fun _ => False).
Proof.
  intros Hm Ht. apply (spec_bind _ (fun _ => holds r t' [])); [done|]. intros ?. apply spec_ret. intros c. apply holds_mono; [lia|done].
Qed.
(** Reading, apart from the panic of the mail list. *)
Lemma reads_holds {A} t (m : M A) s : reads m -> holds r t [] (st s) -> holds r t [] (st (m s).2).
Proof. intros Hm Hs. by rewrite Hm. Qed.
Lemma serve_mail_holds now req paid t s : pays_at_most req paid (st s) -> holds r t [] (st s) ->
  match serve_mail now req s with
  | (Ok got, s') => holds r (t + paid - got) [] (st s')
  | (Fail _, s') => holds r (t + paid) [] (st s')
  | (Panic, s') => True
  end.
Proof.
  intros Hp Hs. assert (forall (m : M Z), spec (holds r t []) m (fun got => holds r (t + paid - got) []) (fun _ => holds r (t + paid) []) (fun _ => False) ->
    match m s with (Ok got, s') => holds r (t + paid - got) [] (st s') | (Fail _, s') => holds r (t + paid) [] (st s') | (Panic, s') => True end) as Hspec.
  { intros m Hm. specialize (Hm s Hs). by destruct (m s) as [[?|?|] ?]. }
  destruct req as [rq|p|i|p i|i g p cod|i p|i|]; cbn [serve_mail pays_at_most] in *.
  - destruct Hp as [Hpos ->]. apply Hspec. apply (spec_answer _ (t + sr_MoneyToSend rq)); [|lia]. unfold Send.
    apply (spec_bind _ (fun _ => holds r (t + sr_MoneyToSend rq) [])); [by apply spec_SendMail|]. intros ?. by apply spec_ret.
  - subst paid. unfold MailsForPlayer, mbind, go_bind. pose proof (reads_holds t _ s (reads_list r p) Hs) as Hr.
    destruct (MailListForPlayer r p s) as [[?|?|] s']; [|by rewrite Z.add_0_r|done]. cbn in *. by rewrite Z.sub_0_r, Z.add_0_r.
  - subst paid. apply Hspec. rewrite Z.add_0_r. apply (spec_answer _ t); [|lia]. unfold MailByID. eapply spec_bind; [apply spec_MailByID|]. intros m.
    apply spec_ret. intros c [_ Hc]. eapply holds_mono; [done| |exact Hc]. by intros ? ?%elem_of_nil.
  - subst paid. apply Hspec. rewrite Z.add_0_r. apply (spec_answer _ t); [|lia]. apply spec_MarkMailAsRead.
  - assert (0 <= paid /\ (cod = true -> cod_at_most r (wrap64 i) paid (st s))) as [Hpos Hcod] by (destruct cod; [tauto|subst; done]).
    pose proof (spec_answer (t + paid) (t + paid) _ _ _ (spec_RemoveMailItem client_found_rows r expt now t (wrap64 i) g p cod paid Hpos) (Z.le_refl _) s (conj Hcod Hs)) as Hm.
    unfold srv_RemoveMailItem. by destruct ((RemoveMailItem _ _ _ _ _ _ _ _ ;; mret 0) s) as [[?|?|] ?].
  - subst paid. apply Hspec. rewrite Z.add_0_r. apply spec_RemoveMailMoney.
  - subst paid. apply Hspec. rewrite Z.add_0_r. apply (spec_answer _ t); [|lia]. apply spec_DeleteMail.
  - subst paid. apply Hspec. rewrite Z.add_0_r. apply (spec_answer _ t); [|lia]. apply spec_ProcessExpiredMails.
Qed.

End Runs.

(** ** sample runs of the mail service, and what goes wrong in it *)
Definition second_now : Z := 1000 * second.
Definition month : Z := 2592000 * second.
(** Mail 1 from 5 to 6: item 77, to be paid with 100 on delivery. *)
Definition sample_mail (id : u64) (kind : u8) (money cod expires : Z) (hasItems : bool) : Mail :=
  {| mail_ID := id; mail_Type := kind; Stationery := 41; TemplateID := 0; SenderGuid := 5; ReceiverGuid := 6; FlagsMask := 0; Subject := "S"; Body := "";
     MoneyToSend := money; CashOnDelivery := cod; DeliveryTimestamp := 10; ExpirationTimestamp := expires; HasItemAttachments := hasItems; Attachments := [] |}.
Definition sample_instance : item_instance :=
  {| ii_Entry := 25; ii_OwnerGUID := 5; ii_Count := 1; ii_Flags := 0; ii_RandomPropertyID := 0; ii_Durability := 20; ii_Text := "" |}.
Definition tables (l : list Mail) : mail_tables :=
  {| mails := l; mail_items := [{| mi_mail := 1; mi_item := 77; mi_receiver := 6 |}]; instances := {[77 := sample_instance]}; next_id := 9 |}.
Definition cod_tables : mail_tables := tables [sample_mail 1 0 0 100 5000 true].
Definition start (d : mail_tables) : mail_state := {[1 := d]}.

(** ** Witnesses *)
Lemma mailbox_exact_witness :
  let d := cod_tables in
  let mine m := ReceiverGuid m =? 6 in
  MailListForPlayer 1 6 (Sys (start d) [] []) =
  (if decide (items_exist d mine)
   then Ok ((fun m => add_attachments (attachments_of d (mail_ID m)) m) <$> reverse (filter (fun m => ReceiverGuid m = 6) (mails d)))
   else Fail ErrScan, Sys (start d) [] []).
Proof. apply (mailbox_exact (start cod_tables) [] 1 cod_tables 6); [reflexivity|]. apply NoDup_singleton. Defined.
Definition sample_request : SendRequest :=
  {| sr_SenderGuid := Some 5; sr_ReceiverGuid := 6; sr_Subject := "S"; sr_Body := "B"; sr_MoneyToSend := 30; sr_CashOnDelivery := 0;
     sr_Attachments := [{| pa_Guid := 80; pa_Entry := 25; pa_Count := 2; pa_Flags := 0; pa_Durability := 7; pa_Charges := 3; pa_RandomPropertyID := 0; pa_PropertySeed := 0; pa_Text := "" |}];
     sr_DeliveryTimestamp := 0; sr_ExpirationTimestamp := 0; sr_FlagsMask := 0; sr_Type := 0; sr_TemplateID := 0; sr_Stationery := 0 |}.
(** Mail 1 is past its time. *)
Definition expired_tables : mail_tables := tables [sample_mail 1 0 7 0 500 true; sample_mail 2 0 0 0 500 false].
Lemma cleanup_exact_witness :
  ProcessExpiredMails false second_now 1 (Sys (start expired_tables) [] []) =
  (Ok tt, Sys (<[1 := cleaned second_now expired_tables]> (start expired_tables)) []
    ([] ++ (return_event 1 <$> filter (sent_back second_now) (mails expired_tables)))).
Proof.
  apply (cleanup_exact false second_now (start expired_tables) [] 1 expired_tables); [reflexivity|].
  apply NoDup_cons. split; [by intros ?%list_elem_of_singleton|apply NoDup_singleton].
Defined.
Example cleanup_returns : (fun m => (mail_ID m, ReceiverGuid m, ExpirationTimestamp m)) <$> mails (cleaned second_now expired_tables) = [(1, 5, 1490)].
Proof. vm_compute. reflexivity. Qed.

Lemma run_step cfr expt r s now req paid got paid' got' s2 :
  pays_at_most r req paid (st s) -> (serve_mail cfr expt r now req s).1 = Ok got ->
  mail_run cfr expt r (serve_mail cfr expt r now req s).2 paid' got' s2 -> mail_run cfr expt r s (paid + paid') (got + got') s2.
Proof. intros Hp Ho Hrun. eapply run_ok; [exact Hp| |exact Hrun]. rewrite <- Ho. apply surjective_pairing. Qed.
(** The item is taken and paid for, and the sender collects the payment. *)
Definition after_item := (serve_mail false month 1 second_now (RqRemoveItem 1 77 (Some 6) true) (Sys (start cod_tables) [] [])).2.
Definition after_money := (serve_mail false month 1 second_now (RqRemoveMoney 9 (Some 5)) after_item).2.

(** ** What goes wrong *)

(** When the payment cannot be sent, the item has left the mail already. *)
Example unpaid_item :
  let '(o, s) := serve_mail false month 1 second_now (RqRemoveItem 1 77 (Some 6) true) (Sys (start cod_tables) [false; false; false; true] []) in
  o = Fail ErrDB /\ (mail_items <$> st s !! 1) = Some [] /\ (length ∘ mails <$> st s !! 1) = Some 1%nat.
Proof. vm_compute. done. Qed.
(** The last item is taken, and the mail still says that it has items. *)
Example has_items_stays : (fun d => HasItemAttachments <$> mails d) <$> st after_item !! 1 = Some [true; false].
Proof. vm_compute. reflexivity. Qed.
(** An update that changes nothing is reported as a mail that does not exist. *)
Example read_twice :
  let mark := serve_mail false month 1 second_now (RqMarkRead 6 1) in
  (mark (mark (Sys (start cod_tables) [] [])).2).1 = Fail ErrMailNotFound.
Proof. vm_compute. reflexivity. Qed.
(** Auction mail goes back to the player whose guid is the auction house's. *)
Example auction_mail_returned :
  (fun m => (mail_Type m, ReceiverGuid m)) <$> mails (cleaned second_now (tables [sample_mail 1 2 7 0 500 true])) = [(2, 5)].
Proof. vm_compute. reflexivity. Qed.
(** The item that comes back still has to be paid for, to oneself. *)
Example returned_cod : CashOnDelivery <$> mails (cleaned second_now (tables [sample_mail 1 0 0 100 500 true])) = [100].
Proof. vm_compute. reflexivity. Qed.

(** Two requests for the money of a mail, their statements interleaved, with a
    third that marks the mail as read: both get the money. *)
Definition take_twice : M (Z * Z) :=
  m1 ← mailByIDWithoutAttachments 1 1;
  m2 ← mailByIDWithoutAttachments 1 1;
  updateMailByIDWithoutAttachments false 1 (without_money m1) ;;
  UpdateMailFlagsMaskForPlayer false 1 6 1 MailFlagRead ;;
  updateMailByIDWithoutAttachments false 1 (without_money m2) ;;
  mret (MoneyToSend m1, MoneyToSend m2).
Example money_taken_twice : (take_twice (Sys (start (tables [sample_mail 1 0 7 0 5000 false])) [] [])).1 = Ok (7, 7).
Proof. vm_compute. reflexivity. Qed.
(** A mail that arrives between the two queries of the mail list: its items go to another mail, or the index is out of range. *)
Example late_mail_panics :
  (attach_loop (joined_items cod_tables (fun _ => true)) (index_mails []) [] (Sys (start cod_tables) [] [])).1 = Panic.
Proof. vm_compute. reflexivity. Qed.
