(* ===== verification/PacketsReader.v ===== *)
(** * PacketsReader: packets out of a stream of bytes
    (apps/gateway/sockets/packets-reader.go, and the writing side of
    sockets/gamesocket/game-socket.go and sockets/worldsocket/world-socket.go)

    A connection is the list of segments that arrive: a [Read] returns a part
    of one segment, or nothing for an empty one, and the error at the end of
    the list.  A header is read and decrypted, its size announces the
    payload. *)
From S2P Require Import Prelude Bytes Packet Crypto.

Abbreviation conn := (list bytes).
(** [Read(buf)] for a buffer of [n] bytes; [None] is [io.EOF]. *)
Definition Read (n : nat) (c : conn) : option bytes * conn :=
  match c with
  | [] => (None, [])
  | seg :: c => if (length seg <=? n)%nat then (Some seg, c) else (Some (take n seg), drop n seg :: c)
  end.
(** [binary.BigEndian.Uint16], [binary.LittleEndian.Uint16], [Uint32] *)
Definition be16_decode (b : bytes) : u16 := le_decode (reverse (take 2 b)).
Definition le16_decode (b : bytes) : u16 := le_decode (take 2 b).
Definition le32_decode (b : bytes) : u32 := le_decode (take 4 b).
Definition be16_encode (x : Z) : bytes := reverse (le_encode 2 x).
(** The bytes read land in the buffer from [pos] on. *)
Definition fill (buf : bytes) (pos : nat) (b : bytes) : bytes := take pos buf ++ b ++ drop (pos + length b) buf.

Definition MaxPacketSize : Z := 1 * 1024 * 1024.
Inductive reader_err := ErrEOF | ErrTooLarge (size : u32).
Record PacketsReader := {
  r : conn;
  encryption : option Arc;
  opcodeSize : u32;
  headerBuffer : bytes;
  hWritePos : nat;
  payloadBuffer : bytes;
  pWritePos : nat;
  err : option reader_err;
  packet : option Packet;
  sourceType : u8
}.
Definition NewPacketsReader (c : conn) (opcodeSize : u32) (sourceType : u8) : PacketsReader :=
  {| r := c; encryption := None; opcodeSize := opcodeSize; headerBuffer := replicate (Z.to_nat (2 + opcodeSize)) 0; hWritePos := 0;
     payloadBuffer := []; pWritePos := 0; err := None; packet := None; sourceType := sourceType |}.
Definition EnableEncryption (crypto : option Arc) (p : PacketsReader) : PacketsReader :=
  {| r := r p; encryption := crypto; opcodeSize := opcodeSize p; headerBuffer := headerBuffer p; hWritePos := hWritePos p;
     payloadBuffer := payloadBuffer p; pWritePos := pWritePos p; err := err p; packet := packet p; sourceType := sourceType p |}.

Definition with_err (e : reader_err) (c : conn) (p : PacketsReader) : PacketsReader :=
  {| r := c; encryption := encryption p; opcodeSize := opcodeSize p; headerBuffer := headerBuffer p; hWritePos := hWritePos p;
     payloadBuffer := payloadBuffer p; pWritePos := pWritePos p; err := Some e; packet := packet p; sourceType := sourceType p |}.
Definition with_header (b : bytes) (c : conn) (p : PacketsReader) : PacketsReader :=
  {| r := c; encryption := encryption p; opcodeSize := opcodeSize p; headerBuffer := fill (headerBuffer p) (hWritePos p) b;
     hWritePos := hWritePos p + length b; payloadBuffer := payloadBuffer p; pWritePos := pWritePos p; err := err p; packet := packet p;
     sourceType := sourceType p |}.
Definition with_payload (b : bytes) (c : conn) (p : PacketsReader) : PacketsReader :=
  {| r := c; encryption := encryption p; opcodeSize := opcodeSize p; headerBuffer := headerBuffer p; hWritePos := hWritePos p;
     payloadBuffer := fill (payloadBuffer p) (pWritePos p) b; pWritePos := pWritePos p + length b; err := err p; packet := packet p;
     sourceType := sourceType p |}.
(** [p.encryption.Decrypt(p.headerBuffer)] *)
Definition decrypt_header (p : PacketsReader) : PacketsReader :=
  match encryption p with
  | None => p
  | Some a =>
    let '(h, a) := Decrypt a (headerBuffer p) in
    {| r := r p; encryption := Some a; opcodeSize := opcodeSize p; headerBuffer := h; hWritePos := hWritePos p;
       payloadBuffer := payloadBuffer p; pWritePos := pWritePos p; err := err p; packet := packet p; sourceType := sourceType p |}
  end.
Definition new_payload (size : u32) (p : PacketsReader) : PacketsReader :=
  {| r := r p; encryption := encryption p; opcodeSize := opcodeSize p; headerBuffer := headerBuffer p; hWritePos := hWritePos p;
     payloadBuffer := replicate (Z.to_nat size) 0; pWritePos := pWritePos p; err := err p; packet := packet p; sourceType := sourceType p |}.
Definition deliver (pack : Packet) (p : PacketsReader) : PacketsReader :=
  {| r := r p; encryption := encryption p; opcodeSize := opcodeSize p; headerBuffer := headerBuffer p; hWritePos := 0;
     payloadBuffer := payloadBuffer p; pWritePos := 0; err := err p;
     packet := Some {| Opcode := Opcode pack; Source := Source pack; Size := Size pack; Data := payloadBuffer p |}; sourceType := sourceType p |}.

(** One round of the loop: [inl] goes on, [inr] returns. *)
Definition step_result : Type := (Packet * PacketsReader) + (bool * PacketsReader).
Definition payload_phase (pack : Packet) (p : PacketsReader) : step_result :=
  let deliver_full p := if (length (payloadBuffer p) =? pWritePos p)%nat then inr (true, deliver pack p) else inl (pack, p) in
  if (pWritePos p <? length (payloadBuffer p))%nat then
    match Read (length (payloadBuffer p) - pWritePos p) (r p) with
    | (None, c) => inr (false, with_err ErrEOF c p)
    | (Some b, c) => deliver_full (with_payload b c p)
    end
  else deliver_full p.
Definition read_header (pack : Packet) (p : PacketsReader) : step_result :=
  let p := decrypt_header p in
  let size := wrap32 (be16_decode (headerBuffer p) - opcodeSize p) in
  if MaxPacketSize <? size then inr (false, with_err (ErrTooLarge size) (r p) p)
  else
    let opcode := if opcodeSize p =? 2 then le16_decode (drop 2 (headerBuffer p)) else wrap16 (le32_decode (drop 2 (headerBuffer p))) in
    payload_phase {| Opcode := opcode; Source := Source pack; Size := size; Data := Data pack |} (new_payload size p).
Definition next_step (pack : Packet) (p : PacketsReader) : step_result :=
  if (hWritePos p <? length (headerBuffer p))%nat then
    match Read (length (headerBuffer p) - hWritePos p) (r p) with
    | (None, c) => inr (false, with_err ErrEOF c p)
    | (Some b, c) =>
      let p := with_header b c p in
      if (length (headerBuffer p) =? hWritePos p)%nat then read_header pack p else inl (pack, p)
    end
  else payload_phase pack p.
Fixpoint next_loop (fuel : nat) (pack : Packet) (p : PacketsReader) : option (bool * PacketsReader) :=
  match fuel with
  | O => None
  | S fuel =>
    match next_step pack p with
    | inl (pack, p) => next_loop fuel pack p
    | inr res => Some res
    end
  end.
(** The reads that are left: each takes a segment or a byte. *)
Definition reads_left (c : conn) : nat := length (concat c) + length c.
Definition Next (p : PacketsReader) : option (bool * PacketsReader) :=
  next_loop (S (reads_left (r p))) {| Opcode := 0; Source := sourceType p; Size := 0; Data := [] |} p.

(** [for p.Next() { handle(p.Packet()) }]; [None]: a [Next] or the loop did
    not end. *)
Fixpoint read_loop (fuel : nat) (p : PacketsReader) : option (list Packet * PacketsReader) :=
  match fuel with
  | O => None
  | S fuel =>
    '(more, p) ← Next p;
    if (more : bool) then
      pack ← packet p;
      '(packs, p) ← read_loop fuel p;
      Some (pack :: packs, p)
    else Some ([], p)
  end.
Definition read_all (p : PacketsReader) : option (list Packet * PacketsReader) := read_loop (S (reads_left (r p))) p.

(** ** Writing *)

(** To the game client: the header is encrypted. *)
Definition sendOriginalPacket (encryption : option Arc) (p : Packet) : bytes * option Arc :=
  let header := be16_encode (wrap16 (len (Data p) + 2)) ++ le_encode 2 (Opcode p) in
  match encryption with
  | None => (header ++ Data p, None)
  | Some a => let '(header, a) := Encrypt a header in (header ++ Data p, Some a)
  end.
(** To the world server. *)
Definition world_SendPacket (p : Packet) : bytes :=
  be16_encode (wrap16 (len (Data p) + 4)) ++ le_encode 4 (Opcode p) ++ Data p.

(** Several packets, one after the other. *)
Fixpoint send_stream (send : option Arc -> Packet -> bytes * option Arc) (e : option Arc) (ps : list Packet) : bytes * option Arc :=
  match ps with
  | [] => ([], e)
  | p :: ps =>
    let '(b, e) := send e p in
    let '(bs, e) := send_stream send e ps in
    (b ++ bs, e)
  end.
Definition world_send (e : option Arc) (p : Packet) : bytes * option Arc := (world_SendPacket p, e).

(** ** Reading from segments *)
Lemma Read_spec n c : (0 < n)%nat ->
  match Read n c with
  | (None, c') => c = [] /\ c' = []
  | (Some b, c') => concat c = b ++ concat c' /\ (length b <= n)%nat /\ (reads_left c' < reads_left c)%nat
  end.
Proof.
  intros Hn. destruct c as [|seg c]; [done|]. unfold Read, reads_left. cbn [concat length].
  destruct (Nat.leb_spec (length seg) n) as [Hle|Hgt].
  - split; [done|]. rewrite length_app. lia.
  - cbn [concat]. rewrite app_assoc, take_drop. split; [done|]. rewrite length_take, !length_app, length_drop. cbn [length]. lia.
Qed.
(** A read of at most what is expected takes a part of it. *)
Lemma Read_expected d rest c : concat c = d ++ rest -> d <> [] ->
  exists b d' c', Read (length d) c = (Some b, c') /\ d = b ++ d' /\ concat c' = d' ++ rest /\ (reads_left c' < reads_left c)%nat.
Proof.
  intros Hc Hd. pose proof (Read_spec (length d) c) as HR. destruct (Read (length d) c) as [[b|] c'].
  - destruct HR as (E & Hb & Hl); [destruct d; [done|cbn; lia]|]. rewrite Hc in E.
    assert (b = take (length b) d) as Eb.
    { apply (f_equal (take (length b))) in E. by rewrite take_app_length, take_app_le in E by done. }
    exists b, (drop (length b) d), c'. split; [done|]. split; [by rewrite Eb at 1; rewrite take_drop|]. split; [|done].
    apply (f_equal (drop (length b))) in E. by rewrite drop_app_length, drop_app_le in E by done.
  - destruct HR as [-> ->]; [destruct d; [done|cbn; lia]|]. cbn in Hc. by destruct d.
Qed.
(** A read that wants more than is left takes a part of the rest, or fails. *)
Lemma Read_cut n c : (length (concat c) < n)%nat ->
  match Read n c with
  | (None, c') => c = []
  | (Some b, c') => (length b + length (concat c') = length (concat c))%nat /\ (reads_left c' < reads_left c)%nat
  end.
Proof.
  intros Hn. pose proof (Read_spec n c ltac:(lia)) as HR. destruct (Read n c) as [[b|] c'].
  - destruct HR as (-> & _ & Hl). by rewrite length_app.
  - by destruct HR.
Qed.
Lemma take_fill buf pos b : (pos + length b <= length buf)%nat -> take (pos + length b) (fill buf pos b) = take pos buf ++ b.
Proof.
  intros Hl. unfold fill. rewrite app_assoc, take_app_le by (rewrite length_app, length_take; lia).
  apply take_ge. rewrite length_app, length_take. lia.
Qed.
Lemma length_fill buf pos b : (pos + length b <= length buf)%nat -> length (fill buf pos b) = length buf.
Proof. intros Hl. unfold fill. rewrite !length_app, length_take, length_drop. lia. Qed.

(** ** The loop *)
Definition continue (fuel : nat) (x : step_result) : option (bool * PacketsReader) :=
  match x with inl (pack, p) => next_loop fuel pack p | inr res => Some res end.
Definition header_full (p : PacketsReader) : Prop := hWritePos p = length (headerBuffer p).
Definition boundary (p : PacketsReader) : Prop := hWritePos p = 0%nat /\ pWritePos p = 0%nat /\ (length (headerBuffer p)) = Z.to_nat (2 + opcodeSize p).
Definition frame (p p' : PacketsReader) : Prop :=
  encryption p' = encryption p /\ opcodeSize p' = opcodeSize p /\ headerBuffer p' = headerBuffer p /\ sourceType p' = sourceType p.
Definition with_data (pack : Packet) (d : bytes) : Packet := {| Opcode := Opcode pack; Source := Source pack; Size := Size pack; Data := d |}.

Lemma payload_run d : forall fuel pack p rest, header_full p -> (pWritePos p + length d = length (payloadBuffer p))%nat ->
  concat (r p) = d ++ rest -> (reads_left (r p) <= fuel)%nat ->
  exists p', continue fuel (payload_phase pack p) = Some (true, p') /\ concat (r p') = rest /\ hWritePos p' = 0%nat /\ pWritePos p' = 0%nat /\
    packet p' = Some (with_data pack (take (pWritePos p) (payloadBuffer p) ++ d)) /\ frame p p'.
Proof.
  intros fuel. revert d. induction fuel as [|fuel IH]; intros d pack p rest Hf Hl Hc Hm; unfold payload_phase.
  all: destruct (Nat.ltb_spec (pWritePos p) (length (payloadBuffer p))) as [Hlt|Hge];
    [|rewrite (proj2 (Nat.eqb_eq _ _)) by lia; exists (deliver pack p); destruct d; [|cbn in Hl; lia];
      cbn [continue deliver r hWritePos pWritePos packet]; rewrite app_nil_r, take_ge by lia; by repeat split].
  all: destruct (Read_expected d rest (r p) Hc ltac:(destruct d; [cbn in Hl; lia|done])) as (b & d' & c' & HR & -> & Hc' & Hm');
    rewrite length_app in Hl.
  - lia.
  - replace (length (payloadBuffer p) - pWritePos p)%nat with (length (b ++ d')) by (rewrite length_app; lia). rewrite HR.
    pose proof (length_fill (payloadBuffer p) (pWritePos p) b ltac:(lia)) as Hlf.
    pose proof (take_fill (payloadBuffer p) (pWritePos p) b ltac:(lia)) as Htf.
    cbn [with_payload payloadBuffer pWritePos]. rewrite Hlf. destruct (Nat.eqb_spec (length (payloadBuffer p)) (pWritePos p + length b)) as [E|E].
    + destruct d'; [|cbn in Hl; lia]. exists (deliver pack (with_payload b c' p)). cbn [continue deliver with_payload r hWritePos pWritePos packet payloadBuffer].
      rewrite app_nil_r, <- Htf, take_ge by lia. by repeat split.
    + cbn [continue next_loop]. unfold next_step. cbn [with_payload hWritePos headerBuffer]. rewrite Hf, Nat.ltb_irrefl.
      destruct (IH d' pack (with_payload b c' p) rest) as (p' & Hrun & Hrest & Hh & Hp & Hpk & Hfr); cbn [with_payload header_full hWritePos headerBuffer pWritePos payloadBuffer r]; [done|lia|done|lia|].
      exists p'. split; [exact Hrun|]. split; [done|]. split; [done|]. split; [done|].
      cbn [with_payload pWritePos payloadBuffer] in Hpk. rewrite Htf, <- app_assoc in Hpk. done.
Qed.

Lemma payload_cut : forall fuel pack p, header_full p -> (pWritePos p + length (concat (r p)) < length (payloadBuffer p))%nat ->
  (reads_left (r p) <= fuel)%nat -> exists p', continue fuel (payload_phase pack p) = Some (false, p') /\ err p' = Some ErrEOF.
Proof.
  induction fuel as [|fuel IH]; intros pack p Hf Hl Hm; unfold payload_phase; rewrite (proj2 (Nat.ltb_lt _ _)) by lia.
  all: pose proof (Read_cut (length (payloadBuffer p) - pWritePos p) (r p) ltac:(lia)) as HR; destruct (Read _ _) as [[b|] c']; [|by eexists].
  - destruct HR as [_ HR]. lia.
  - destruct HR as [HR Hm']. pose proof (length_fill (payloadBuffer p) (pWritePos p) b ltac:(lia)) as Hlf.
    cbn [with_payload payloadBuffer pWritePos]. rewrite Hlf, (proj2 (Nat.eqb_neq _ _)) by lia.
    cbn [continue next_loop]. unfold next_step. cbn [with_payload hWritePos headerBuffer]. rewrite Hf, Nat.ltb_irrefl.
    apply IH; cbn [with_payload header_full hWritePos headerBuffer pWritePos payloadBuffer r]; [done|lia|lia].
Qed.

Definition set_header (h : bytes) (c : conn) (p : PacketsReader) : PacketsReader :=
  {| r := c; encryption := encryption p; opcodeSize := opcodeSize p; headerBuffer := h; hWritePos := length h;
     payloadBuffer := payloadBuffer p; pWritePos := pWritePos p; err := err p; packet := packet p; sourceType := sourceType p |}.
Lemma header_run h : forall fuel pack p tl, h <> [] -> (hWritePos p + length h = length (headerBuffer p))%nat ->
  concat (r p) = h ++ tl -> (reads_left (r p) <= fuel)%nat ->
  exists c' fuel', concat c' = tl /\ (reads_left c' <= fuel')%nat /\
    next_loop (S fuel) pack p = continue fuel' (read_header pack (set_header (take (hWritePos p) (headerBuffer p) ++ h) c' p)).
Proof.
  intros fuel. revert h. induction fuel as [|fuel IH]; intros h pack p tl Hh Hl Hc Hm;
    destruct (Read_expected h tl (r p) Hc Hh) as (b & h' & c' & HR & -> & Hc' & Hm'); [lia|]; rewrite length_app in Hl.
  cbn [next_loop]. unfold next_step. rewrite (proj2 (Nat.ltb_lt _ _)) by (destruct (b ++ h') eqn:E; [done|]; apply (f_equal length) in E; rewrite length_app in E; cbn in E; lia).
  replace (length (headerBuffer p) - hWritePos p)%nat with (length (b ++ h')) by (rewrite length_app; lia). rewrite HR.
  pose proof (length_fill (headerBuffer p) (hWritePos p) b ltac:(lia)) as Hlf.
  pose proof (take_fill (headerBuffer p) (hWritePos p) b ltac:(lia)) as Htf.
  cbn [with_header headerBuffer hWritePos]. rewrite Hlf. destruct (Nat.eqb_spec (length (headerBuffer p)) (hWritePos p + length b)) as [E|E].
  - destruct h'; [|cbn in Hl; lia]. exists c', (S fuel). split; [done|]. split; [lia|].
    replace (with_header b c' p) with (set_header (take (hWritePos p) (headerBuffer p) ++ b ++ []) c' p); [by destruct (read_header _ _) as [[? ?]|?]|].
    rewrite app_nil_r, <- Htf, take_ge by lia. unfold set_header, with_header. f_equal. lia.
  - destruct (IH h' pack (with_header b c' p) tl) as (c2 & fuel' & Hc2 & Hm2 & Hrun); cbn [with_header hWritePos headerBuffer r]; [intros ->; cbn in Hl; lia|lia|done|lia|].
    exists c2, fuel'. split; [done|]. split; [done|]. etransitivity; [exact Hrun|]. cbn [with_header hWritePos headerBuffer]. by rewrite Htf, <- app_assoc.
Qed.
Lemma header_cut : forall fuel pack p, (hWritePos p + length (concat (r p)) < length (headerBuffer p))%nat ->
  (reads_left (r p) <= fuel)%nat -> exists p', next_loop (S fuel) pack p = Some (false, p') /\ err p' = Some ErrEOF.
Proof.
  induction fuel as [|fuel IH]; intros pack p Hl Hm; cbn [next_loop]; unfold next_step; rewrite (proj2 (Nat.ltb_lt _ _)) by lia.
  all: pose proof (Read_cut (length (headerBuffer p) - hWritePos p) (r p) ltac:(lia)) as HR; destruct (Read _ _) as [[b|] c']; [|by eexists].
  - destruct HR as [_ HR]. lia.
  - destruct HR as [HR Hm']. pose proof (length_fill (headerBuffer p) (hWritePos p) b ltac:(lia)) as Hlf.
    cbn [with_header headerBuffer hWritePos]. rewrite Hlf, (proj2 (Nat.eqb_neq _ _)) by lia.
    apply (IH pack (with_header b c' p)); cbn [with_header headerBuffer hWritePos r]; lia.
Qed.

(** ** One packet *)
Lemma be16_roundtrip x rest : in_range 16 x -> be16_decode (be16_encode x ++ rest) = x.
Proof.
  intros Hx. unfold be16_decode, be16_encode. rewrite take_app_le by (by rewrite length_reverse, le_encode_length).
  rewrite take_ge by (by rewrite length_reverse, le_encode_length). rewrite reverse_involutive. by apply (le_decode_encode 2).
Qed.
Lemma be16_length x : length (be16_encode x) = 2%nat.
Proof. unfold be16_encode. by rewrite length_reverse, le_encode_length. Qed.
Definition fits (n : Z) (p : Packet) : Prop := in_range 16 (Opcode p) /\ len (Data p) + n < 2 ^ 16.
Definition clear_header (n : Z) (p : Packet) : bytes := be16_encode (len (Data p) + n) ++ le_encode (Z.to_nat n) (Opcode p).
Definition decrypted (e : option Arc) (h : bytes) : bytes * option Arc :=
  match e with None => (h, None) | Some a => let '(h, a) := Decrypt a h in (h, Some a) end.
Lemma decrypted_length e h : length (decrypted e h).1 = length h.
Proof.
  destruct e as [a|]; [|done]. unfold decrypted, Decrypt. pose proof (xor_length (arc_client a) h) as E.
  by destruct (XORKeyStream (arc_client a) h).
Qed.
Definition received (source : u8) (p : Packet) : Packet := {| Opcode := Opcode p; Source := source; Size := len (Data p); Data := Data p |}.
Definition small_opcode (n : Z) : Prop := n = 2 \/ n = 4.

Lemma read_header_run n p q pack e' fuel : small_opcode n -> fits n p -> opcodeSize q = n -> header_full q ->
  decrypted (encryption q) (headerBuffer q) = (clear_header n p, e') -> exists q1,
  continue fuel (read_header pack q) =
    continue fuel (payload_phase {| Opcode := Opcode p; Source := Source pack; Size := len (Data p); Data := Data pack |} q1) /\
  r q1 = r q /\ encryption q1 = e' /\ opcodeSize q1 = n /\ sourceType q1 = sourceType q /\ header_full q1 /\
  pWritePos q1 = pWritePos q /\ length (payloadBuffer q1) = length (Data p) /\ length (headerBuffer q1) = length (headerBuffer q).
Proof.
  intros Hn [Hop Hlen] Eops Hf Hdec.
  set (q0 := decrypt_header q).
  assert (H0 : headerBuffer q0 = clear_header n p /\ encryption q0 = e' /\ r q0 = r q /\ opcodeSize q0 = n /\ sourceType q0 = sourceType q /\
    hWritePos q0 = hWritePos q /\ pWritePos q0 = pWritePos q).
  { subst q0. unfold decrypt_header, decrypted in *. destruct (encryption q) as [a|] eqn:Ee.
    - destruct (Decrypt a (headerBuffer q)) as [h a']. injection Hdec as <- <-. by repeat split.
    - injection Hdec as -> <-. by repeat split. }
  destruct H0 as (Hh & He & Hr & Hops & Hsrc & Hhp & Hpp).
  assert (Hlh : length (headerBuffer q) = length (clear_header n p)).
  { rewrite <- (decrypted_length (encryption q)). by rewrite Hdec. }
  assert (Hsize : wrap32 (be16_decode (clear_header n p) - n) = len (Data p)).
  { unfold clear_header. rewrite be16_roundtrip by (unfold in_range, len in *; destruct Hn; lia).
    replace (len (Data p) + n - n) with (len (Data p)) by lia. apply wrap_small. unfold in_range, len in *. eval_pow2. destruct Hn; lia. }
  unfold read_header. fold q0. cbv zeta. rewrite Hh, Hops, Hsize.
  rewrite (proj2 (Z.ltb_ge _ _)) by (unfold MaxPacketSize, len in *; destruct Hn; eval_pow2; lia).
  assert ((if n =? 2 then le16_decode (drop 2 (clear_header n p)) else wrap16 (le32_decode (drop 2 (clear_header n p)))) = Opcode p) as ->.
  { unfold clear_header, le16_decode, le32_decode. rewrite drop_app_length' by (symmetry; apply be16_length).
    destruct Hn as [->| ->]; cbn [Z.eqb Pos.eqb]; rewrite take_ge by (by rewrite le_encode_length).
    - by apply (le_decode_encode 2).
    - change (Z.to_nat 4) with 4%nat. rewrite (le_decode_encode 4) by (unfold in_range in *; eval_pow2; lia). by apply wrap_small. }
  eexists. split; [reflexivity|]. cbn [new_payload r encryption opcodeSize sourceType header_full hWritePos headerBuffer pWritePos payloadBuffer].
  split; [done|]. split; [done|]. split; [done|]. split; [done|]. split; [unfold header_full in *; cbn; congruence|].
  split; [done|]. split; [rewrite length_replicate; unfold len; lia|]. congruence.
Qed.
Lemma clear_length n p : small_opcode n -> length (clear_header n p) = Z.to_nat (2 + n).
Proof. intros Hn. unfold clear_header. rewrite length_app, be16_length, le_encode_length. destruct Hn; lia. Qed.

(** [h] is the header of [p] as the reader gets it. *)
Definition is_header (q : PacketsReader) (p : Packet) (h : bytes) (e' : option Arc) : Prop :=
  decrypted (encryption q) h = (clear_header (opcodeSize q) p, e').
Lemma is_header_length q p h e' : small_opcode (opcodeSize q) -> is_header q p h e' -> length h = Z.to_nat (2 + opcodeSize q).
Proof. intros Hn Hh. rewrite <- (clear_length (opcodeSize q) p Hn), <- (decrypted_length (encryption q)). by rewrite Hh. Qed.

Lemma Next_run q p h e' rest : small_opcode (opcodeSize q) -> fits (opcodeSize q) p -> boundary q -> is_header q p h e' ->
  concat (r q) = h ++ Data p ++ rest ->
  exists q', Next q = Some (true, q') /\ packet q' = Some (received (sourceType q) p) /\ boundary q' /\ concat (r q') = rest /\
    encryption q' = e' /\ opcodeSize q' = opcodeSize q /\ sourceType q' = sourceType q.
Proof.
  intros Hn Hfit (Hh & Hp & Hl) Hhdr Hc. pose proof (is_header_length _ _ _ _ Hn Hhdr) as Hlen. unfold Next.
  set (pack := {| Opcode := 0; Source := _; Size := _; Data := _ |}).
  destruct (header_run h (reads_left (r q)) pack q (Data p ++ rest)) as (c' & fuel & Hc' & Hm & ->);
    [intros ->; cbn in Hlen; destruct Hn; lia|lia|done|lia|].
  rewrite Hh, take_0, app_nil_l. set (q0 := set_header h c' q).
  destruct (read_header_run (opcodeSize q) p q0 pack e' fuel Hn Hfit eq_refl eq_refl Hhdr) as (q1 & -> & Hr1 & He1 & Ho1 & Hs1 & Hf1 & Hp1 & Hl1 & Hb1).
  cbn [q0 set_header r pWritePos sourceType headerBuffer] in Hr1, Hp1, Hs1, Hb1.
  destruct (payload_run (Data p) fuel {| Opcode := Opcode p; Source := Source pack; Size := len (Data p); Data := Data pack |} q1 rest)
    as (q' & Hrun & Hrest & Hh' & Hp' & Hpk & He' & Ho' & Hb' & Hs'); [done|lia|by rewrite Hr1|by rewrite Hr1|].
  exists q'. rewrite Hp1, Hp, take_0 in Hpk. split; [exact Hrun|]. split; [done|].
  split; [|by repeat split; congruence]. split; [done|]. split; [done|]. rewrite Hb', Ho', Ho1, Hb1. exact Hlen.
Qed.
Lemma Next_cut q p h e' t u : small_opcode (opcodeSize q) -> fits (opcodeSize q) p -> boundary q -> is_header q p h e' ->
  h ++ Data p = t ++ u -> u <> [] -> concat (r q) = t -> exists q', Next q = Some (false, q') /\ err q' = Some ErrEOF.
Proof.
  intros Hn Hfit (Hh & Hp & Hl) Hhdr Ht Hu Hc. pose proof (is_header_length _ _ _ _ Hn Hhdr) as Hlen. unfold Next.
  set (pack := {| Opcode := 0; Source := _; Size := _; Data := _ |}).
  destruct (decide (length t < length h)%nat) as [Hlt|Hge]; [apply header_cut; rewrite ?Hc; lia|].
  assert (exists d, t = h ++ d /\ (length d < length (Data p))%nat) as (d & -> & Hd).
  { exists (take (length t - length h) (Data p)). apply (f_equal (take (length t))) in Ht as Ht1. rewrite take_app_length in Ht1.
    rewrite take_app_ge in Ht1 by lia. split; [done|]. apply (f_equal length) in Ht. rewrite !length_app in Ht. rewrite length_take.
    destruct u; [done|]. cbn in Ht. lia. }
  destruct (header_run h (reads_left (r q)) pack q d) as (c' & fuel & Hc' & Hm & ->);
    [intros ->; cbn in Hlen; destruct Hn; lia|lia|by rewrite Hc|lia|].
  rewrite Hh, take_0, app_nil_l. set (q0 := set_header h c' q).
  destruct (read_header_run (opcodeSize q) p q0 pack e' fuel Hn Hfit eq_refl eq_refl Hhdr) as (q1 & -> & Hr1 & He1 & Ho1 & Hs1 & Hf1 & Hp1 & Hl1 & Hb1).
  cbn [q0 set_header r pWritePos] in Hr1, Hp1. apply payload_cut; [done|rewrite Hr1, Hc'; lia|by rewrite Hr1].
Qed.

(** ** Streams *)
Section Streams.
(** A way of sending: [linked] relates the states of the two ends. *)
Context (send : option Arc -> Packet -> bytes * option Arc) (n : Z) (linked : option Arc -> option Arc -> Prop).
Hypothesis Hn : small_opcode n.
Hypothesis Hsend : forall e q p, opcodeSize q = n -> fits n p -> linked e (encryption q) ->
  exists h e', (send e p).1 = h ++ Data p /\ is_header q p h e' /\ linked (send e p).2 e'.

Lemma read_loop_run ps : forall fuel e q next t u, (length ps < fuel)%nat -> opcodeSize q = n -> Forall (fits n) ps -> fits n next ->
  linked e (encryption q) -> boundary q ->
  (send (send_stream send e ps).2 next).1 = t ++ u -> u <> [] -> concat (r q) = (send_stream send e ps).1 ++ t ->
  exists q', read_loop fuel q = Some (received (sourceType q) <$> ps, q') /\ err q' = Some ErrEOF.
Proof.
  induction ps as [|p ps IH]; intros fuel e q next t u Hfuel Eo Hps Hnext Hl Hb Ht Hu Hc; (destruct fuel as [|fuel]; [cbn in Hfuel; lia|]).
  - cbn [send_stream fst snd app] in *. destruct (Hsend e q next Eo Hnext Hl) as (h & e' & Hs & Hh & _). rewrite Hs in Ht.
    destruct (Next_cut q next h e' t u) as (q' & HN & He); [by rewrite Eo|by rewrite Eo|done|done|done|done|done|].
    exists q'. cbn [read_loop]. by rewrite HN.
  - apply Forall_cons in Hps as [Hp Hps]. destruct (Hsend e q p Eo Hp Hl) as (h & e' & Hs & Hh & Hl').
    cbn [send_stream] in *. destruct (send e p) as [b e1]. cbn [fst snd] in *. subst b.
    destruct (send_stream send e1 ps) as [bs e2] eqn:Ess. cbn [fst snd] in *.
    destruct (Next_run q p h e' (bs ++ t)) as (q1 & HN & Hpk & Hb1 & Hc1 & He1 & Ho1 & Hs1); [by rewrite Eo|by rewrite Eo|done|done|by rewrite Hc, <- !app_assoc|].
    destruct (IH fuel e1 q1 next t u) as (q' & Hrun & He); [cbn in Hfuel; lia|congruence|done|done|congruence|done|by rewrite Ess|done|by rewrite Ess|].
    exists q'. split; [|done]. cbn [read_loop]. rewrite HN. cbn [mbind option_bind]. rewrite Hpk. cbn [mbind option_bind]. rewrite Hrun. cbn. by rewrite Hs1.
Qed.
Lemma send_length e ps : forall q, opcodeSize q = n -> Forall (fits n) ps -> linked e (encryption q) -> (length ps <= length (send_stream send e ps).1)%nat.
Proof.
  revert e. induction ps as [|p ps IH]; intros e q Eo Hps Hl; [cbn; lia|]. apply Forall_cons in Hps as [Hp Hps].
  destruct (Hsend e q p Eo Hp Hl) as (h & e' & Hs & Hh & Hl'). pose proof (is_header_length _ _ _ _ ltac:(by rewrite Eo) Hh) as Hlen.
  cbn [send_stream]. destruct (send e p) as [b e1]. cbn [fst snd] in *.
  specialize (IH e1 (EnableEncryption e' q) Eo Hps Hl'). destruct (send_stream send e1 ps) as [bs e2]. cbn [fst] in *. subst b.
  rewrite !length_app. destruct Hn; cbn [length]; lia.
Qed.
Lemma read_all_run segs e e1 source ps next t u : Forall (fits n) ps -> fits n next -> linked e e1 ->
  (send (send_stream send e ps).2 next).1 = t ++ u -> u <> [] -> concat segs = (send_stream send e ps).1 ++ t ->
  exists q', read_all (EnableEncryption e1 (NewPacketsReader segs n source)) = Some (received source <$> ps, q') /\ err q' = Some ErrEOF.
Proof.
  intros Hps Hnext Hl Ht Hu Hc. unfold read_all. set (q := EnableEncryption e1 (NewPacketsReader segs n source)).
  apply (read_loop_run ps _ e q next t u); [|done|done|done|done| |done|done|done].
  - pose proof (send_length e ps q eq_refl Hps Hl) as Hlen. unfold reads_left. cbn [q EnableEncryption NewPacketsReader r]. rewrite Hc, length_app. lia.
  - split; [done|]. split; [done|]. cbn. by rewrite length_replicate.
Qed.
End Streams.

(** The two ends of an encrypted connection are in step. *)
Definition client_linked (e1 e2 : option Arc) : Prop :=
  match e1, e2 with
  | None, None => True
  | Some a, Some b => arc_server a = arc_client b
  | _, _ => False
  end.
Lemma client_send e q p : opcodeSize q = 2 -> fits 2 p -> client_linked e (encryption q) ->
  exists h e', (sendOriginalPacket e p).1 = h ++ Data p /\ is_header q p h e' /\ client_linked (sendOriginalPacket e p).2 e'.
Proof.
  intros Eo [Hop Hfit] Hl. unfold sendOriginalPacket, is_header. rewrite Eo. rewrite wrap_small by (unfold in_range, len in *; lia).
  fold (clear_header 2 p). change (be16_encode (len (Data p) + 2) ++ le_encode 2 (Opcode p)) with (clear_header 2 p).
  destruct e as [a|], (encryption q) as [b|]; try done; [|by exists (clear_header 2 p), None].
  cbn [decrypted]. unfold Encrypt, Decrypt. cbn [client_linked] in Hl. rewrite <- Hl.
  pose proof (xor_involutive (arc_server a) (clear_header 2 p)) as Hinv. destruct (XORKeyStream (arc_server a) (clear_header 2 p)) as [h c]. cbn [fst snd] in *.
  exists h, (Some {| arc_server := arc_server b; arc_client := c |}). rewrite Hinv. by repeat split.
Qed.
Lemma world_send_header e q p : opcodeSize q = 4 -> fits 4 p -> e = None /\ encryption q = None ->
  exists h e', (world_send e p).1 = h ++ Data p /\ is_header q p h e' /\ (world_send e p).2 = None /\ e' = None.
Proof.
  intros Eo [Hop Hfit] [-> Hq]. exists (clear_header 4 p), None. unfold world_send, world_SendPacket, is_header. rewrite Eo, Hq.
  rewrite wrap_small by (unfold in_range, len in *; lia). unfold clear_header. change (Z.to_nat 4) with 4%nat. cbn [fst]. by rewrite app_assoc.
Qed.

(** ** Any stream *)
Definition good_size (n : Z) (pack : Packet) : Prop := Size pack = len (Data pack) /\ Size pack + n < 2 ^ 16.
Section AnyStream.
Context (n : Z) (Hn : small_opcode n).
Definition ok (pack : Packet) (p : PacketsReader) : Prop :=
  opcodeSize p = n /\ length (headerBuffer p) = Z.to_nat (2 + n) /\ is_bytes (headerBuffer p) /\ Forall is_bytes (r p) /\
  ((hWritePos p < length (headerBuffer p))%nat /\ pWritePos p = 0%nat \/
   header_full p /\ (pWritePos p <= length (payloadBuffer p))%nat /\ good_size n (with_data pack (payloadBuffer p))).
(** What one round may do: going on it has less than [left] reads left, with
    a packet less than [after]. *)
Definition progress (left after : nat) (x : step_result) : Prop :=
  match x with
  | inl (pack, p) => ok pack p /\ (reads_left (r p) < left)%nat
  | inr (true, p) => boundary p /\ (exists pack, packet p = Some pack /\ good_size n pack) /\ (reads_left (r p) < after)%nat /\
      opcodeSize p = n /\ is_bytes (headerBuffer p) /\ Forall is_bytes (r p)
  | inr (false, p) => is_Some (err p)
  end.
Lemma is_bytes_fill buf pos b : is_bytes buf -> is_bytes b -> is_bytes (fill buf pos b).
Proof. intros Hbuf Hb. unfold fill, is_bytes. by repeat (apply Forall_app_2 || apply Forall_take || apply Forall_drop). Qed.
Lemma Read_bytes k c b c' : Forall is_bytes c -> Read k c = (Some b, c') -> is_bytes b /\ Forall is_bytes c'.
Proof.
  intros Hc. destruct Hc as [|seg c Hseg Hc]; [done|]. unfold Read. destruct (_ <=? _)%nat; intros [= <- <-]; [done|].
  split; [by apply Forall_take|]. constructor; [by apply Forall_drop|done].
Qed.
Lemma payload_progress pack p : ok pack p -> header_full p -> progress (reads_left (r p)) (S (reads_left (r p))) (payload_phase pack p).
Proof.
  intros (En & Hl & Hb & Hr & H) Hf. destruct H as [[H _]|(_ & Hp & Hg)]; [unfold header_full in Hf; lia|]. unfold payload_phase.
  assert (Hdel : forall q, opcodeSize q = opcodeSize p -> headerBuffer q = headerBuffer p -> length (payloadBuffer q) = length (payloadBuffer p) ->
    Forall is_bytes (r q) -> (reads_left (r q) <= reads_left (r p))%nat -> progress (reads_left (r p)) (S (reads_left (r p))) (inr (true, deliver pack q))).
  { intros q Ho Hh Hlq Hbq Hm. cbn [progress deliver opcodeSize packet headerBuffer r]. rewrite Ho, Hh. split; [split; [done|split; [done|]]; cbn; by rewrite Ho, Hh, En|].
    split; [|split; [lia|done]]. eexists. split; [reflexivity|]. unfold good_size, len in *. cbn [Size Data with_data] in *. by rewrite Hlq. }
  destruct (Nat.ltb_spec (pWritePos p) (length (payloadBuffer p))) as [Hlt|Hge].
  - destruct (Read _ _) as [[b|] c'] eqn:HR; [|by eexists].
    pose proof (Read_spec (length (payloadBuffer p) - pWritePos p) (r p) ltac:(lia)) as HS. rewrite HR in HS. destruct HS as (Hc & Hlb & Hm).
    destruct (Read_bytes _ _ _ _ Hr HR) as [Hbb Hbc]. pose proof (length_fill (payloadBuffer p) (pWritePos p) b ltac:(lia)) as Hlf.
    cbn [with_payload payloadBuffer pWritePos]. rewrite Hlf. destruct (_ =? _)%nat; [apply Hdel; cbn [with_payload opcodeSize headerBuffer payloadBuffer r]; auto with lia|].
    cbn [progress with_payload r]. split; [|done]. unfold ok, header_full. cbn [with_payload opcodeSize headerBuffer r hWritePos pWritePos payloadBuffer].
    split; [done|]. split; [done|]. split; [done|]. split; [done|]. right. rewrite Hlf. split; [done|]. split; [lia|].
    unfold good_size, len in *. cbn [Size Data with_data] in *. by rewrite Hlf.
  - rewrite (proj2 (Nat.eqb_eq _ _)) by lia. by apply Hdel.
Qed.
Lemma decrypt_header_frame p : let q := decrypt_header p in
  r q = r p /\ opcodeSize q = opcodeSize p /\ length (headerBuffer q) = length (headerBuffer p) /\ hWritePos q = hWritePos p /\ pWritePos q = pWritePos p /\
  (is_bytes (headerBuffer p) -> is_bytes (headerBuffer q)).
Proof.
  unfold decrypt_header. destruct (encryption p) as [a|]; [|done]. unfold Decrypt. pose proof (xor_length (arc_client a) (headerBuffer p)) as Hl.
  pose proof (xor_bytes (arc_client a) (headerBuffer p)) as Hb. by destruct (XORKeyStream (arc_client a) (headerBuffer p)).
Qed.
Lemma header_progress pack p : opcodeSize p = n -> length (headerBuffer p) = Z.to_nat (2 + n) -> is_bytes (headerBuffer p) ->
  Forall is_bytes (r p) -> header_full p -> pWritePos p = 0%nat -> progress (reads_left (r p)) (S (reads_left (r p))) (read_header pack p).
Proof.
  intros En Hl Hb Hr Hf Hp. pose proof (decrypt_header_frame p) as (Er & Eo & El & Eh & Ep & Hb'). specialize (Hb' Hb). unfold read_header. cbv zeta.
  set (q := decrypt_header p) in *. destruct (Z.ltb_spec MaxPacketSize (wrap32 (be16_decode (headerBuffer q) - opcodeSize q))) as [|Hmax]; [by eexists|].
  rewrite <- Er. apply (payload_progress _ (new_payload _ q)); [|unfold header_full in *; cbn; congruence].
  unfold ok. cbn [new_payload opcodeSize headerBuffer r hWritePos pWritePos payloadBuffer].
  split; [congruence|]. split; [congruence|]. split; [done|]. split; [by rewrite Er|]. right. split; [unfold header_full in *; cbn; congruence|].
  split; [lia|]. unfold good_size. cbn [Size Data with_data]. unfold len. rewrite length_replicate.
  assert (0 <= be16_decode (headerBuffer q) < 2 ^ 16) as Hbe.
  { unfold be16_decode. assert (is_bytes (reverse (take 2 (headerBuffer q)))) as HB by (by apply Forall_reverse, Forall_take).
    apply le_decode_range in HB. rewrite length_reverse, length_take in HB. replace (2 `min` length (headerBuffer q))%nat with 2%nat in HB by (destruct Hn; lia). exact HB. }
  unfold MaxPacketSize, wrap in *. rewrite Z2Nat.id by (apply Z.mod_pos_bound; lia). split; [done|]. rewrite Eo, En in *.
  eval_pow2. destruct Hn as [E|E]; rewrite E in *; Z.to_euclidean_division_equations; lia.
Qed.
Lemma step_progress pack p : ok pack p ->
  progress (reads_left (r p)) (if (hWritePos p <? length (headerBuffer p))%nat then reads_left (r p) else S (reads_left (r p))) (next_step pack p).
Proof.
  intros Hok. pose proof Hok as (En & Hl & Hb & Hr & H). unfold next_step. destruct (Nat.ltb_spec (hWritePos p) (length (headerBuffer p))) as [Hlt|Hge].
  - destruct H as [[_ Hp]|[H _]]; [|unfold header_full in H; lia].
    destruct (Read _ _) as [[b|] c'] eqn:HR; [|by eexists].
    pose proof (Read_spec (length (headerBuffer p) - hWritePos p) (r p) ltac:(lia)) as HS. rewrite HR in HS. destruct HS as (Hc & Hlb & Hm).
    destruct (Read_bytes _ _ _ _ Hr HR) as [Hbb Hbc]. pose proof (length_fill (headerBuffer p) (hWritePos p) b ltac:(lia)) as Hlf.
    pose proof (is_bytes_fill (headerBuffer p) (hWritePos p) b Hb Hbb) as Hbf.
    cbn [with_header headerBuffer hWritePos]. rewrite Hlf. destruct (Nat.eqb_spec (length (headerBuffer p)) (hWritePos p + length b)) as [E|E].
    + pose proof (header_progress pack (with_header b c' p)) as HP. cbn [with_header opcodeSize headerBuffer r pWritePos] in HP.
      specialize (HP En ltac:(rewrite Hlf; exact Hl) Hbf Hbc ltac:(unfold header_full; cbn [with_header headerBuffer hWritePos]; by rewrite Hlf) Hp).
      destruct (read_header pack (with_header b c' p)) as [[pack' q]|[[] q]]; cbn [progress] in *; [|destruct HP as (? & ? & ? & ?)|done].
      * destruct HP. split; [done|lia].
      * split; [done|]. split; [done|]. split; [lia|done].
    + cbn [progress with_header r]. split; [|done]. unfold ok. cbn [with_header opcodeSize headerBuffer r hWritePos pWritePos]. rewrite Hlf.
      split; [done|]. split; [done|]. split; [done|]. split; [done|]. left. split; [lia|done].
  - destruct H as [[H _]|H]; [lia|]. apply payload_progress; [done|apply H].
Qed.
Lemma next_loop_progress fuel : forall pack p, ok pack p -> (reads_left (r p) < fuel)%nat ->
  exists res, next_loop fuel pack p = Some res /\
    progress 0 (if (hWritePos p <? length (headerBuffer p))%nat then reads_left (r p) else S (reads_left (r p))) (inr res).
Proof.
  induction fuel as [|fuel IH]; intros pack p Hok Hm; [lia|]. cbn [next_loop]. pose proof (step_progress pack p Hok) as HP.
  destruct (next_step pack p) as [[pack' q]|res]; [|by exists res]. destruct HP as [Hok' Hlt].
  destruct (IH pack' q Hok' ltac:(lia)) as (res & -> & Hres). exists res. split; [done|]. destruct res as [[] q']; [|done].
  destruct Hres as (? & ? & ? & ?). split; [done|]. split; [done|]. split; [|done]. do 2 destruct (_ <? _)%nat; lia.
Qed.
Lemma read_loop_any fuel : forall p, boundary p -> opcodeSize p = n -> is_bytes (headerBuffer p) -> Forall is_bytes (r p) ->
  (reads_left (r p) < fuel)%nat ->
  exists packs q, read_loop fuel p = Some (packs, q) /\ Forall (good_size n) packs /\ is_Some (err q).
Proof.
  induction fuel as [|fuel IH]; intros p Hb En Hbb Hbr Hm; [lia|]. pose proof Hb as (Hh & Hp & Hl). rewrite En in Hl. cbn [read_loop]. unfold Next at 1.
  set (pack := {| Opcode := 0; Source := _; Size := _; Data := _ |}).
  assert (Hlt : (hWritePos p < length (headerBuffer p))%nat) by (rewrite Hh, Hl; destruct Hn as [->| ->]; cbn; lia).
  destruct (next_loop_progress (S (reads_left (r p))) pack p) as (res & -> & HP); [|lia|].
  { split; [done|]. split; [done|]. split; [done|]. split; [done|]. by left. }
  rewrite (proj2 (Nat.ltb_lt _ _) Hlt) in HP. destruct res as [[] q]; cbn [progress] in HP; cbn [mbind option_bind]; [|by exists [], q].
  destruct HP as (Hbq & (pk & Hpk & Hg) & Hmq & Hnq & Hbbq & Hbrq). rewrite Hpk. cbn [mbind option_bind].
  destruct (IH q Hbq Hnq Hbbq Hbrq ltac:(lia)) as (packs & q' & Hrun & Hgs & He). rewrite Hrun. exists (pk :: packs), q'. split; [done|].
  split; [by constructor|done].
Qed.
End AnyStream.
