(* ===== verification/GameSocket.v ===== *)
(** * GameSocket: the connection of a game client
    (apps/gateway/sockets/gamesocket/game-socket.go, sockets/sendorcancel.go,
    repo/account.go, repo/account_mysql.go)

    The state holds both channels of the socket; the goroutine that writes and
    the session that reads are separate operations on it.  A send to a full
    channel waits: [ErrBlocked] stands for a goroutine that goes no further. *)
From S2P Require Import Prelude Bytes Packet Crypto PacketsReader.

Record Account := {
  acc_ID : u32; acc_Username : bytes; acc_Salt : bytes; acc_Verifier : bytes; acc_SessionKeyAuth : bytes; acc_Locked : bool; acc_LastIP : bytes
}.
Inductive socket_err := ErrRandom | ErrPacket (e : read_error) | ErrDatabase | ErrAuthentication | ErrEncryptor | ErrAddonsTooBig (size : u32)
| ErrAddonsDecode | ErrAddonsSize | ErrConnection | ErrDropped | ErrBlocked.
#[export] Instance read_error_eq_dec : EqDecision read_error.
Proof. solve_decision. Defined.
#[export] Instance socket_err_eq_dec : EqDecision socket_err.
Proof. solve_decision. Defined.

(** The session object a login creates. *)
Record game_session := { gs_accountID : u32; gs_auth : Packet }.
Record GameSocket := {
  packetsReader : PacketsReader;
  gs_encryption : option Arc;
  sendChan : list Packet;
  readChan : list Packet;
  ctx_done : bool;
  session : option game_session;
  authSeed : bytes;
  accountID : u32;
  useEncryption : bool;
  random : list bytes;
  conn_out : bytes
}.
Definition channel_cap : nat := 256.
Definition NewGameSocket (c : conn) (random : list bytes) : GameSocket :=
  {| packetsReader := NewPacketsReader c 4 1; gs_encryption := None; sendChan := []; readChan := []; ctx_done := false; session := None;
     authSeed := []; accountID := 0; useEncryption := true; random := random; conn_out := [] |}.
Abbreviation M A := (go GameSocket Empty_set socket_err A).

Definition set_sendChan (q : list Packet) (s : GameSocket) : GameSocket :=
  {| packetsReader := packetsReader s; gs_encryption := gs_encryption s; sendChan := q; readChan := readChan s; ctx_done := ctx_done s; session := session s;
     authSeed := authSeed s; accountID := accountID s; useEncryption := useEncryption s; random := random s; conn_out := conn_out s |}.
Definition set_readChan (q : list Packet) (s : GameSocket) : GameSocket :=
  {| packetsReader := packetsReader s; gs_encryption := gs_encryption s; sendChan := sendChan s; readChan := q; ctx_done := ctx_done s; session := session s;
     authSeed := authSeed s; accountID := accountID s; useEncryption := useEncryption s; random := random s; conn_out := conn_out s |}.
Definition set_authSeed (seed : bytes) (s : GameSocket) : GameSocket :=
  {| packetsReader := packetsReader s; gs_encryption := gs_encryption s; sendChan := sendChan s; readChan := readChan s; ctx_done := ctx_done s; session := session s;
     authSeed := seed; accountID := accountID s; useEncryption := useEncryption s; random := random s; conn_out := conn_out s |}.
Definition set_random (q : list bytes) (s : GameSocket) : GameSocket :=
  {| packetsReader := packetsReader s; gs_encryption := gs_encryption s; sendChan := sendChan s; readChan := readChan s; ctx_done := ctx_done s; session := session s;
     authSeed := authSeed s; accountID := accountID s; useEncryption := useEncryption s; random := q; conn_out := conn_out s |}.
Definition set_accountID (id : u32) (s : GameSocket) : GameSocket :=
  {| packetsReader := packetsReader s; gs_encryption := gs_encryption s; sendChan := sendChan s; readChan := readChan s; ctx_done := ctx_done s; session := session s;
     authSeed := authSeed s; accountID := id; useEncryption := useEncryption s; random := random s; conn_out := conn_out s |}.
Definition set_encryption (e : option Arc) (s : GameSocket) : GameSocket :=
  {| packetsReader := packetsReader s; gs_encryption := e; sendChan := sendChan s; readChan := readChan s; ctx_done := ctx_done s; session := session s;
     authSeed := authSeed s; accountID := accountID s; useEncryption := useEncryption s; random := random s; conn_out := conn_out s |}.
Definition set_reader (p : PacketsReader) (s : GameSocket) : GameSocket :=
  {| packetsReader := p; gs_encryption := gs_encryption s; sendChan := sendChan s; readChan := readChan s; ctx_done := ctx_done s; session := session s;
     authSeed := authSeed s; accountID := accountID s; useEncryption := useEncryption s; random := random s; conn_out := conn_out s |}.
Definition set_session (g : game_session) (s : GameSocket) : GameSocket :=
  {| packetsReader := packetsReader s; gs_encryption := gs_encryption s; sendChan := sendChan s; readChan := readChan s; ctx_done := ctx_done s; session := Some g;
     authSeed := authSeed s; accountID := accountID s; useEncryption := useEncryption s; random := random s; conn_out := conn_out s |}.
Definition set_written (e : option Arc) (b : bytes) (s : GameSocket) : GameSocket :=
  {| packetsReader := packetsReader s; gs_encryption := e; sendChan := sendChan s; readChan := readChan s; ctx_done := ctx_done s; session := session s;
     authSeed := authSeed s; accountID := accountID s; useEncryption := useEncryption s; random := random s; conn_out := conn_out s ++ b |}.

(** [select] between a channel with room and a context that is done takes
    either. *)
Definition SendOrCancel (ch : GameSocket -> list Packet) (set : list Packet -> GameSocket -> GameSocket) (p : Packet) : M bool :=
  q ← gets ch;
  cancelled ← gets ctx_done;
  if (length q <? channel_cap)%nat then
    chosen ← (if cancelled : bool then try_err (ext ErrDropped) else mret (Some tt));
    match chosen with
    | Some _ => modify (set (q ++ [p])) ;; mret true
    | None => mret false
    end
  else if cancelled then mret false else fail ErrBlocked.
Definition SendPacket (p : Packet) : M unit := SendOrCancel sendChan set_sendChan p ;; mret tt.
Definition Send (w : Writer) : M unit := SendPacket (ToPacket w).

(** [rand.Read]: the next random bytes. *)
Definition rand_Read (n : nat) : M bytes :=
  ext ErrRandom ;;
  q ← gets random;
  match q with
  | [] => mret (replicate n 0)
  | b :: q => modify (set_random q) ;; mret (take n (b ++ replicate n 0))
  end.
Definition SMsgAuthChallenge : u16 := 0x1EC.
Definition CMsgAuthSession : u16 := 0x1ED.
Definition SMsgAuthResponse : u16 := 0x1EE.
Definition SMsgTutorialFlags : u16 := 0x0FD.
Definition SMsgAddonInfo : u16 := 0x2EF.
Definition Handshake : M unit :=
  modify (set_authSeed (replicate 4 0)) ;;
  seed ← rand_Read 4;
  modify (set_authSeed seed) ;;
  randomBytes ← rand_Read 32;
  Send (WBytes randomBytes (WBytes seed (WUint32 1 (NewWriterWithSize SMsgAuthChallenge 40)))).

(** [reader.Read(&buf)] for a buffer of [n] bytes. *)
Definition read_raw (n : nat) (r : Reader) : bytes * Reader :=
  match r_err r with
  | Some _ => (replicate n 0, r)
  | None =>
    if (n <=? length (r_data r))%nat then (take n (r_data r), {| r_data := drop n (r_data r); r_err := None |})
    else (replicate n 0, {| r_data := []; r_err := Some (if (length (r_data r) =? 0)%nat then EOF else UnexpectedEOF) |})
  end.
Record auth_request := { ar_account : bytes; ar_localChallenge : bytes; ar_digest : bytes; ar_addons : bytes }.
Definition read_auth (p : Packet) : auth_request * Reader :=
  let r := Packet_Reader p in
  let r := (Uint32 r).2 in
  let r := (Uint32 r).2 in
  let '(account, r) := Reader_String r in
  let r := (Uint32 r).2 in
  let '(localChallenge, r) := read_raw 4 r in
  let r := (Uint32 r).2 in
  let r := (Uint32 r).2 in
  let r := (Uint32 r).2 in
  let r := (Uint64 r).2 in
  let '(theirDigest, r) := read_raw 20 r in
  let '(addonInfo, r) := read_raw (Z.to_nat (Left r)) r in
  ({| ar_account := account; ar_localChallenge := localChallenge; ar_digest := theirDigest; ar_addons := addonInfo |}, r).
Definition auth_digest (account localChallenge seed key : bytes) : bytes :=
  sha1_Sum (account ++ [0; 0; 0; 0] ++ localChallenge ++ seed ++ key).

Section Socket.
(** The account table under its collation, and the decoder: what a [Read] of a
    buffer of that size gets out of compressed data. *)
Context (account_row : bytes -> option Account) (zlib_read : bytes -> u32 -> option bytes).

(** No row is no error. *)
Definition AccountByUserName (username : bytes) : M (option Account) :=
  ext ErrDatabase ;;
  mret (account_row username).

(** An answer for each addon the client announced. *)
Fixpoint addon_loop (addonsCount : nat) (r : Reader) (w : Writer) : Writer :=
  match addonsCount with
  | O => w
  | S addonsCount =>
    let r := (Reader_String r).2 in
    let '(hasKey, r) := Uint8 r in
    let r := (Uint32 r).2 in
    let r := (Uint32 r).2 in
    let w := WUint8 hasKey (WUint8 2 w) in
    let w := if hasKey =? 1 then WUint32 0 (WUint8 0 w) else w in
    addon_loop addonsCount r (WUint8 0 w)
  end.
Definition handleAddons (b : bytes) : M unit :=
  let '(size, r) := Uint32 (NewReaderWithData b) in
  if size =? 0 then mret tt
  else if 0xFFFFF <? size then fail (ErrAddonsTooBig size)
  else
    let size := wrap32 (size - 4) in
    decodedData ← not_nil ErrAddonsDecode (zlib_read (r_data r) size);
    guard_err (negb (len decodedData =? size)) ErrAddonsSize ;;
    let '(addonsCount, r) := Uint32 (NewReaderWithData decodedData) in
    Send (WUint32 0 (addon_loop (Z.to_nat addonsCount) r (NewWriter SMsgAddonInfo))).

Definition auth_response : Writer :=
  WUint8 2 (WUint32 0 (WUint8 0 (WUint32 0 (WUint8 12 (NewWriterWithSize SMsgAuthResponse 11))))).
Definition tutorial_flags : Writer :=
  Nat.iter 8 (WUint32 0xFFFFFFFF) (NewWriterWithSize SMsgTutorialFlags 32).
(** Known account and right digest, or an error. *)
Definition authenticate (p : Packet) : M (auth_request * Account) :=
  let '(a, r) := read_auth p in
  match r_err r with
  | Some e => fail (ErrPacket e)
  | None =>
    row ← AccountByUserName (ar_account a);
    accountObj ← deref row;
    useEncryption ← gets useEncryption;
    seed ← gets authSeed;
    (if useEncryption : bool then
       guard_err (negb (bool_decide (auth_digest (ar_account a) (ar_localChallenge a) seed (acc_SessionKeyAuth accountObj) = ar_digest a))) ErrAuthentication
     else mret tt) ;;
    mret (a, accountObj)
  end.
Definition AuthSession (p : Packet) : M unit :=
  '(a, accountObj) ← authenticate p;
  modify (set_accountID (acc_ID accountObj)) ;;
  useEncryption ← gets useEncryption;
  (if useEncryption : bool then
     arc ← not_nil ErrEncryptor (NewArc (acc_SessionKeyAuth accountObj));
     modify (set_encryption (Some arc))
   else mret tt) ;;
  modify (fun s => set_reader (EnableEncryption (gs_encryption s) (packetsReader s)) s) ;;
  Send auth_response ;;
  handleAddons (ar_addons a) ;;
  Send tutorial_flags ;;
  modify (fun s => set_session {| gs_accountID := accountID s; gs_auth := p |} s).

Definition processPacket (p : Packet) : M unit :=
  if Opcode p =? CMsgAuthSession then
    g ← gets session;
    match g with None => AuthSession p | Some _ => mret tt end
  else SendOrCancel readChan set_readChan p ;; mret tt.

(** An error of a packet is logged; [false]: the loop waits for ever. *)
Definition handled (m : M unit) : M bool := fun s =>
  match m s with
  | (Fail ErrBlocked, s) => (Ok false, s)
  | (Panic, s) => (Panic, s)
  | (_, s) => (Ok true, s)
  end.
Inductive listen_result := Closed | Stuck.
(** The packets as they arrive; [None]: the loop did not end. *)
Fixpoint listen_loop (fuel : nat) : M (option listen_result) :=
  match fuel with
  | O => mret None
  | S fuel =>
    rd ← gets packetsReader;
    match Next rd with
    | None => mret None
    | Some (more, rd) =>
      modify (set_reader rd) ;;
      if more : bool then
        p ← deref (packet rd);
        alive ← handled (processPacket p);
        if alive : bool then listen_loop fuel else mret (Some Stuck)
      else mret (Some Closed)
    end
  end.
Definition ListenAndProcess : M (option listen_result) :=
  Handshake ;;
  rd ← gets packetsReader;
  listen_loop (S (reads_left (r rd))).

(** The writing goroutine: one packet of the channel. *)
Definition write_one : M unit :=
  q ← gets sendChan;
  match q with
  | [] => mret tt
  | p :: q =>
    modify (set_sendChan q) ;;
    e ← gets gs_encryption;
    let '(b, e) := sendOriginalPacket e p in
    modify (set_written e []) ;;
    log_err (ext ErrConnection ;; modify (set_written e b))
  end.
(** The session takes a packet. *)
Definition take_packet : M (option Packet) :=
  q ← gets readChan;
  match q with
  | [] => mret None
  | p :: q => modify (set_readChan q) ;; mret (Some p)
  end.
End Socket.

(** ** Lemmas *)
Lemma keeps_send ch set I p : (forall q c, I c -> I (set q c)) -> keeps I (SendOrCancel ch set p).
Proof.
  intros HI. unfold SendOrCancel. keeps_tac; apply keeps_modify; eauto.
Qed.
Lemma socket_keeps_rand I n : (forall q c, I c -> I (set_random q c)) -> keeps I (rand_Read n).
Proof. intros HI. unfold rand_Read. keeps_tac. apply keeps_modify; eauto. Qed.
Lemma keeps_Send I w : (forall q c, I c -> I (set_sendChan q c)) -> keeps I (Send w).
Proof. intros HI. unfold Send, SendPacket. apply keeps_bind; [by apply keeps_send|]. intros ?. apply keeps_ret. Qed.
#[local] Hint Resolve keeps_Send : keeps.
Section Facts.
Context (account_row : bytes -> option Account) (zlib_read : bytes -> u32 -> option bytes).
Lemma keeps_addons I b : (forall q c, I c -> I (set_sendChan q c)) -> keeps I (handleAddons zlib_read b).
Proof.
  intros HI. unfold handleAddons. destruct (Uint32 _) as [size r]. destruct (_ =? _); [keeps_tac|]. destruct (_ <? _); keeps_tac.
Qed.
(** A proof of the password's session key for this connection. *)
Definition proves (seed : bytes) (p : Packet) (acc : Account) : Prop :=
  let a := (read_auth p).1 in
  account_row (ar_account a) = Some acc /\ auth_digest (ar_account a) (ar_localChallenge a) seed (acc_SessionKeyAuth acc) = ar_digest a.
Definition locked_out (seed : bytes) (c : GameSocket) : Prop := session c = None /\ authSeed c = seed /\ useEncryption c = true.
Definition logged_in (seed : bytes) (p : Packet) (c : GameSocket) : Prop :=
  exists acc, proves seed p acc /\ session c = Some {| gs_accountID := acc_ID acc; gs_auth := p |} /\ (authSeed c = seed /\ useEncryption c = true /\
    exists arc, NewArc (acc_SessionKeyAuth acc) = Some arc /\ gs_encryption c = Some arc /\ encryption (packetsReader c) = Some arc).
Lemma authenticate_triple seed p : triple (locked_out seed) (authenticate account_row p)
  (fun x c => locked_out seed c /\ x.1 = (read_auth p).1 /\ proves seed p x.2) (locked_out seed).
Proof.
  unfold authenticate, proves. destruct (read_auth p) as [a r]. destruct (r_err r); [by intros s Hs|].
  unfold AccountByUserName. eapply triple_bind with (Q := fun row c => row = account_row (ar_account a) /\ locked_out seed c).
  { apply triple_bind_keeps; [keeps_tac|done|]. intros []. by intros s Hs. }
  intros row. apply triple_pure. intros ->. destruct (account_row (ar_account a)) as [acc|] eqn:Erow; [|by intros s Hs].
  intros s (Hs & Hseed & Henc). unfold mbind, go_bind, deref, gets, mret, go_ret. rewrite Henc, Hseed. unfold guard_err.
  case_bool_decide as Hd; cbn [negb fst snd]; [|done]. by rewrite Erow.
Qed.
Lemma AuthSession_triple seed p : triple (locked_out seed) (AuthSession account_row zlib_read p) (fun _ => logged_in seed p) (locked_out seed).
Proof.
  unfold AuthSession. eapply triple_bind; [apply authenticate_triple|].
  intros [a acc]. cbn [fst snd]. apply (triple_conseq _ (fun c => proves seed p acc /\ locked_out seed c) _ (fun _ => logged_in seed p) _ (locked_out seed));
    [|by intros c (Hc & _ & Hp)|done|done].
  apply triple_pure. intros Hp.
  set (K := fun c => locked_out seed c /\ accountID c = acc_ID acc /\ exists arc, NewArc (acc_SessionKeyAuth acc) = Some arc /\
    gs_encryption c = Some arc /\ encryption (packetsReader c) = Some arc).
  eapply triple_bind with (Q := fun _ c => locked_out seed c /\ accountID c = acc_ID acc).
  { by intros s (Hs & Hseed & Henc). }
  intros []. eapply triple_bind with (Q := fun u c => u = true /\ locked_out seed c /\ accountID c = acc_ID acc).
  { by intros s ((Hs & Hseed & Henc) & Hid). }
  intros u. apply triple_pure. intros ->. destruct (NewArc_total (acc_SessionKeyAuth acc)) as [arc Harc].
  eapply triple_bind with (Q := fun _ c => locked_out seed c /\ accountID c = acc_ID acc /\ gs_encryption c = Some arc).
  { rewrite Harc. by intros s (Hs & Hid). }
  intros []. eapply triple_bind with (Q := fun _ => K).
  { intros s (Hs & Hid & He). split; [done|]. split; [done|]. exists arc. split; [done|]. split; [done|]. cbn. by rewrite He. }
  assert (HK : forall q c, K c -> K (set_sendChan q c)) by done.
  assert (Hkeep : forall w, keeps K (Send w)) by (intros w; by apply keeps_Send).
  intros []. apply triple_bind_keeps; [apply Hkeep|by intros c []|]. intros [].
  apply triple_bind_keeps; [by apply keeps_addons|by intros c []|]. intros [].
  apply triple_bind_keeps; [apply Hkeep|by intros c []|]. intros [].
  intros s (Hs & Hid & He). exists acc. split; [done|]. split; [cbn; by rewrite Hid|]. destruct Hs as (_ & ? & ?). by split; [|split].
Qed.

(** No session, or that of an account whose key was proved on this connection. *)
Definition proved_session (c : GameSocket) : Prop :=
  useEncryption c = true /\
  match session c with
  | None => True
  | Some g => exists acc, proves (authSeed c) (gs_auth g) acc /\ gs_accountID g = acc_ID acc
  end.
Lemma processPacket_keeps p : keeps proved_session (processPacket account_row zlib_read p).
Proof.
  unfold processPacket. destruct (_ =? _).
  - eapply triple_bind with (Q := fun g c => g = session c /\ proved_session c); [by intros s Hs|]. intros [g|].
    + by intros s [_ Hs].
    + intros s [Hg [Henc Hs]]. pose proof (AuthSession_triple (authSeed (st s)) p s) as HT.
      specialize (HT (conj (eq_sym Hg) (conj eq_refl Henc))). destruct (AuthSession account_row zlib_read p s) as [[u|e|] s'].
      * destruct HT as (acc & Hp & Hses & Hseed & Henc' & _). split; [done|]. rewrite Hses. exists acc. by rewrite Hseed.
      * destruct HT as (HT & _ & Hu). split; [done|]. by rewrite HT.
      * destruct HT as (HT & _ & Hu). split; [done|]. by rewrite HT.
  - apply keeps_bind; [by apply keeps_send|]. intros ?. apply keeps_ret.
Qed.
Lemma keeps_handled I m : keeps I m -> keeps I (handled m).
Proof. intros Hm s Hs. specialize (Hm s Hs). unfold handled. destruct (m s) as [[?|[]|] ?]; exact Hm. Qed.
Lemma listen_keeps fuel : keeps proved_session (listen_loop account_row zlib_read fuel).
Proof.
  induction fuel as [|fuel IH]; cbn [listen_loop]; [apply keeps_ret|]. apply keeps_bind; [apply keeps_gets|]. intros rd.
  destruct (Next rd) as [[more rd']|]; [|apply keeps_ret]. apply keeps_bind; [by apply keeps_modify|]. intros [].
  destruct more; [|apply keeps_ret]. apply keeps_bind; [apply keeps_deref|]. intros p.
  apply keeps_bind; [apply keeps_handled, processPacket_keeps|]. intros []; [done|apply keeps_ret].
Qed.
Lemma handshake_keeps : triple (fun c => session c = None /\ useEncryption c = true) Handshake (fun _ => proved_session) proved_session.
Proof.
  set (I := fun c => session c = None /\ useEncryption c = true). apply (triple_conseq I I (fun _ => proved_session) (fun _ => I) proved_session I);
    [|done|by intros _ c [Hs Hu]; unfold proved_session; rewrite Hs|by intros c [Hs Hu]; unfold proved_session; rewrite Hs].
  unfold Handshake. apply keeps_bind; [by apply keeps_modify|]. intros []. apply keeps_bind; [by apply socket_keeps_rand|]. intros seed.
  apply keeps_bind; [by apply keeps_modify|]. intros []. apply keeps_bind; [by apply socket_keeps_rand|]. intros b. by apply keeps_Send.
Qed.
End Facts.

(** ** what the sockets of the gateway promise
    (apps/gateway/sockets, crypto)

    Packets come out of a stream as they went in, however it is cut into
    segments; any stream is read to its end; a session belongs to an account
    whose session key was proved. *)
(** C33: what the gateway writes to a client, headers encrypted, is read back packet for packet by
    a reader whose key stream is in step, however the bytes are cut into segments and wherever
    the stream is cut off: the packets that arrived whole, in order, then the end. *)
Theorem client_stream_exact a b segs source ps next t u (Hab : arc_server a = arc_client b) (Hps : Forall (fits 2) ps) (Hnext : fits 2 next)
  (Hcut : (sendOriginalPacket (send_stream sendOriginalPacket (Some a) ps).2 next).1 = t ++ u) (Hu : u <> [])
  (Hsegs : concat segs = (send_stream sendOriginalPacket (Some a) ps).1 ++ t) :
  exists q, read_all (EnableEncryption (Some b) (NewPacketsReader segs 2 source)) = Some (received source <$> ps, q) /\ err q = Some ErrEOF.
Proof.
  apply (read_all_run sendOriginalPacket 2 client_linked (or_introl eq_refl) client_send segs (Some a) (Some b) source ps next t u); done.
Qed.
Definition some_arc : Arc :=
  match NewArc (replicate 40 7) with Some a => a | None => {| arc_server := {| rc_s := []; rc_i := 0; rc_j := 0 |}; arc_client := {| rc_s := []; rc_i := 0; rc_j := 0 |} |} end.
Definition mirrored (a : Arc) : Arc := {| arc_server := arc_client a; arc_client := arc_server a |}.
Lemma mirrored_linked a : arc_server a = arc_client (mirrored a).
Proof. reflexivity. Qed.
Definition some_packets : list Packet :=
  [{| Opcode := 0x1DD; Source := 0; Size := 4; Data := [1; 2; 3; 4] |}; {| Opcode := 0x0FD; Source := 0; Size := 0; Data := [] |}].
Definition cut_packet : Packet := {| Opcode := 0x2EF; Source := 0; Size := 2; Data := [5; 6] |}.
(** Cut into segments of at most three bytes. *)
Definition chop (n : nat) (b : bytes) : conn := (fun i => take 3 (drop (3 * i) b)) <$> seq 0 n.
Lemma client_stream_exact_witness :
  let sent := send_stream sendOriginalPacket (Some some_arc) some_packets in
  let t := take 5 (sendOriginalPacket sent.2 cut_packet).1 in
  exists q, read_all (EnableEncryption (Some (mirrored some_arc)) (NewPacketsReader (chop 6 (sent.1 ++ t)) 2 2)) = Some (received 2 <$> some_packets, q) /\
    err q = Some ErrEOF.
Proof.
  intros sent t.
  apply (client_stream_exact some_arc (mirrored some_arc) _ 2 some_packets cut_packet t (drop 5 (sendOriginalPacket sent.2 cut_packet).1)).
  - apply mirrored_linked.
  - repeat constructor; vm_compute; intuition discriminate.
  - repeat constructor; vm_compute; intuition discriminate.
  - symmetry. apply take_drop.
  - vm_compute. discriminate.
  - vm_compute. reflexivity.
Defined.

(** C35: any bytes at all, encrypted or not, are read to the end: the loop stops with an error, and
    every packet on the way has the size of its payload, which fits the 16 bits of the header. *)
Theorem any_stream_read n e segs source (Hn : small_opcode n) (Hsegs : Forall is_bytes segs) :
  exists packs q, read_all (EnableEncryption e (NewPacketsReader segs n source)) = Some (packs, q) /\ is_Some (err q) /\
    Forall (fun p => Size p = len (Data p) /\ Size p + n < 2 ^ 16) packs.
Proof.
  set (q0 := EnableEncryption e (NewPacketsReader segs n source)).
  destruct (read_loop_any n Hn (S (reads_left (r q0))) q0) as (packs & q & Hrun & Hg & He).
  - split; [done|]. split; [done|]. cbn. by rewrite length_replicate.
  - done.
  - cbn. unfold is_bytes. apply Forall_replicate. done.
  - done.
  - lia.
  - by exists packs, q.
Qed.
Lemma any_stream_read_witness : exists packs q, read_all (EnableEncryption (Some some_arc) (NewPacketsReader [[1; 2; 3]; []; [4; 5; 6; 7]] 4 1)) = Some (packs, q) /\
  is_Some (err q) /\ Forall (fun p => Size p = len (Data p) /\ Size p + 4 < 2 ^ 16) packs.
Proof. apply (any_stream_read 4 (Some some_arc)); [by right|]. repeat constructor; lia. Defined.

Section Login.
Context (account_row : bytes -> option Account) (zlib_read : bytes -> u32 -> option bytes).
(** C34: whatever a client sends and whatever fails, the session that exists at the end of its
    connection belongs to an account that exists and whose session key, salted with the challenge
    of this connection, was in the packet that opened it. *)
Theorem world_login_proved segs random fs g
  (Hg : session (st (ListenAndProcess account_row zlib_read (Sys (NewGameSocket segs random) fs [])).2) = Some g) :
  exists acc, account_row (ar_account (read_auth (gs_auth g)).1) = Some acc /\ gs_accountID g = acc_ID acc /\
    ar_digest (read_auth (gs_auth g)).1 =
      auth_digest (ar_account (read_auth (gs_auth g)).1) (ar_localChallenge (read_auth (gs_auth g)).1)
        (authSeed (st (ListenAndProcess account_row zlib_read (Sys (NewGameSocket segs random) fs [])).2)) (acc_SessionKeyAuth acc).
Proof.
  set (s0 := Sys (NewGameSocket segs random) fs []) in *.
  assert (HT : triple (fun c => session c = None /\ useEncryption c = true) (ListenAndProcess account_row zlib_read)
    (fun _ => proved_session account_row) (proved_session account_row)).
  { unfold ListenAndProcess. eapply triple_bind; [apply handshake_keeps|]. intros []. apply keeps_bind; [apply keeps_gets|]. intros rd. apply listen_keeps. }
  specialize (HT s0 (conj eq_refl eq_refl)). destruct (ListenAndProcess account_row zlib_read s0) as [o s'].
  cbn [snd] in *. assert (proved_session account_row (st s')) as [_ HP] by (by destruct o). rewrite Hg in HP.
  destruct HP as (acc & [Hrow Hd] & Hid). by exists acc.
Qed.

(** The name of no account crashes the gateway. *)
Lemma unknown_account_panics p s : session (st s) = None -> Opcode p = CMsgAuthSession -> r_err (read_auth p).2 = None ->
  account_row (ar_account (read_auth p).1) = None -> faults s = [] -> (processPacket account_row zlib_read p s).1 = Panic.
Proof.
  intros Hs Ho Hr Ha Hf. unfold processPacket. rewrite Ho. cbn [Z.eqb Pos.eqb CMsgAuthSession].
  erewrite bind_run by reflexivity. rewrite Hs. unfold AuthSession, authenticate. destruct (read_auth p) as [a r]. cbn [fst snd] in *. rewrite Hr.
  unfold AccountByUserName. unfold mbind, go_bind, ext. rewrite Hf. cbn. by rewrite Ha.
Qed.
End Login.

(** ** Runs *)
Definition bob_key : bytes := replicate 40 9.
Definition bob : Account :=
  {| acc_ID := 5; acc_Username := [66; 79; 66]; acc_Salt := []; acc_Verifier := []; acc_SessionKeyAuth := bob_key; acc_Locked := false; acc_LastIP := [] |}.
Definition bobs (name : bytes) : option Account := if bool_decide (name = [66; 79; 66]) then Some bob else None.
Definition login_packet (name : bytes) (seed : bytes) : Packet :=
  ToPacket (WBytes (le_encode 4 0) (WBytes (auth_digest name [1; 1; 1; 1] seed bob_key) (WUint64 0 (WUint32 1 (WUint32 0 (WUint32 0
    (WBytes [1; 1; 1; 1] (WUint32 0 (WString name (WUint32 0 (WUint32 12340 (NewWriter CMsgAuthSession)))))))))))).
Definition ping : Packet := {| Opcode := 0x1DC; Source := 0; Size := 4; Data := [1; 0; 0; 0] |}.
(** The client encrypts the headers after its login. *)
Definition ping_encrypted : bytes :=
  match NewArc bob_key with Some a => (XORKeyStream (arc_client a) (take 6 (world_SendPacket ping))).1 ++ Data ping | None => [] end.
Definition login_run := ListenAndProcess bobs (fun _ _ => None)
  (Sys (NewGameSocket (chop 40 (world_SendPacket (login_packet [66; 79; 66] [1; 2; 3; 4]) ++ ping_encrypted)) [[1; 2; 3; 4]]) [] []).
Example bob_logs_in : option_map gs_accountID (session (st login_run.2)) = Some 5 /\ Opcode <$> readChan (st login_run.2) = [0x1DC] /\
  Opcode <$> sendChan (st login_run.2) = [SMsgAuthChallenge; SMsgAuthResponse; SMsgTutorialFlags].
Proof. vm_compute. done. Qed.
Lemma world_login_proved_witness : exists acc,
  bobs (ar_account (read_auth (login_packet [66; 79; 66] [1; 2; 3; 4])).1) = Some acc /\ 5 = acc_ID acc.
Proof.
  destruct (world_login_proved bobs (fun _ _ => None) (chop 40 (world_SendPacket (login_packet [66; 79; 66] [1; 2; 3; 4]) ++ ping_encrypted)) [[1; 2; 3; 4]] []
    {| gs_accountID := 5; gs_auth := received 1 (login_packet [66; 79; 66] [1; 2; 3; 4]) |}) as (acc & Hrow & Hid & _).
  - vm_compute. reflexivity.
  - exists acc. split; [|exact Hid]. exact Hrow.
Defined.
Example stranger_crashes : (ListenAndProcess bobs (fun _ _ => None) (Sys (NewGameSocket [world_SendPacket (login_packet [69; 86; 69] [])] []) [] [])).1 = Panic.
Proof. vm_compute. reflexivity. Qed.
(** Packets before the login fill the channel that nobody reads: the loop waits. *)
Example early_packets_block :
  (ListenAndProcess bobs (fun _ _ => None) (Sys (NewGameSocket (replicate 257 (world_SendPacket ping)) []) [] [])).1 = Ok (Some Stuck).
Proof. vm_compute. reflexivity. Qed.
(** A size field below the size of an opcode is reported as too large. *)
Example short_size_too_large : option_map (fun x => err x.2) (read_all (NewPacketsReader [[0; 1; 5; 0]] 2 2)) = Some (Some (ErrTooLarge 4294967295)).
Proof. vm_compute. reflexivity. Qed.
(** A payload of more than 65533 bytes does not fit the header. *)
Example big_packet_header : take 2 (sendOriginalPacket None {| Opcode := 1; Source := 0; Size := 65534; Data := replicate (Z.to_nat 65534) 0 |}).1 = [0; 0].
Proof. vm_compute. reflexivity. Qed.
(** Addons of announced size 1 ask for a buffer of four gigabytes. *)
Example addons_buffer : handleAddons (fun _ n => if n =? 4294967293 then None else Some []) [1; 0; 0; 0]
    (Sys (NewGameSocket [] []) [] []) = (Fail ErrAddonsDecode, Sys (NewGameSocket [] []) [] []).
Proof. vm_compute. reflexivity. Qed.
