(* ===== verification/ChatStreams.v ===== *)
(** * ChatStreams: chat channels on a gateway
    (apps/gateway/events-broadcaster/chat-channels.go)

    A Go channel is an object of a heap with a buffer of bounded size; the
    sessions hold pointers to it.  The service keeps the members of each chat
    channel, the channels of each player, and a stream per player.  The model
    works for any type of events. *)
From S2P Require Import Prelude GoRuntime.

(** ** Go channels *)
Record chan (E : Type) := Chan { buf : list E; cap : nat; closed : bool }.
Arguments Chan {E} _ _ _.
Arguments buf {E} _.
Arguments cap {E} _.
Arguments closed {E} _.
Definition offer {E} (e : E) (c : chan E) : chan E :=
  if (length (buf c) <? cap c)%nat then Chan (buf c ++ [e]) (cap c) (closed c) else c.

Section Streams.
Context {E : Type} `{MapRange}.

Record ChatChannelsService := {
  repo : gmap string (gmap u64 unit);
  streams : gmap u64 nat;
  playerChannels : gmap u64 (gmap string unit);
  chans : gmap nat (chan E);
  next_chan : nat
}.
Definition NewChatChannelsService : ChatChannelsService :=
  {| repo := ∅; streams := ∅; playerChannels := ∅; chans := ∅; next_chan := 0 |}.
Abbreviation M A := (go ChatChannelsService Empty_set Empty_set A).

Definition set_repo r (s : ChatChannelsService) : ChatChannelsService :=
  {| repo := r; streams := streams s; playerChannels := playerChannels s; chans := chans s; next_chan := next_chan s |}.
Definition set_streams t (s : ChatChannelsService) : ChatChannelsService :=
  {| repo := repo s; streams := t; playerChannels := playerChannels s; chans := chans s; next_chan := next_chan s |}.
Definition set_playerChannels p (s : ChatChannelsService) : ChatChannelsService :=
  {| repo := repo s; streams := streams s; playerChannels := p; chans := chans s; next_chan := next_chan s |}.
Definition set_chans c (s : ChatChannelsService) : ChatChannelsService :=
  {| repo := repo s; streams := streams s; playerChannels := playerChannels s; chans := c; next_chan := next_chan s |}.

(** [make(chan Event, cap)] *)
Definition make_chan (cap : nat) : M nat :=
  l ← gets next_chan;
  modify (fun s => {| repo := repo s; streams := streams s; playerChannels := playerChannels s;
                      chans := <[l := Chan [] cap false]> (chans s); next_chan := S l |}) ;;
  mret l.
(** [select] between a send and a default: a closed channel panics. *)
Definition try_send (l : nat) (e : E) : M unit :=
  cs ← gets chans;
  match cs !! l with
  | None => mret tt
  | Some c => if closed c then panic else modify (set_chans (<[l := offer e c]> cs))
  end.
(** [close(ch)] *)
Definition close_chan (l : nat) : M unit :=
  cs ← gets chans;
  match cs !! l with
  | None => panic
  | Some c => if closed c then panic else modify (set_chans (<[l := Chan (buf c) (cap c) true]> cs))
  end.

(** ** Streams of players *)
Definition stream_GetOrCreate (playerGUID : u64) : M nat :=
  t ← gets streams;
  match t !! playerGUID with
  | Some l => mret l
  | None =>
    l ← make_chan 32;
    modify (fun s => set_streams (<[playerGUID := l]> (streams s)) s) ;;
    mret l
  end.
Definition stream_Get (playerGUID : u64) : M (option nat) := gets (fun s => streams s !! playerGUID).
Definition stream_Remove (playerGUID : u64) : M unit :=
  t ← gets streams;
  match t !! playerGUID with
  | Some l => close_chan l ;; modify (fun s => set_streams (delete playerGUID (streams s)) s)
  | None => mret tt
  end.

(** ** Chat channels by name *)
Definition AddMember (name : string) (playerGUID : u64) : M unit :=
  modify (fun s => set_repo (alter (insert playerGUID tt) name (repo s)) s).
Definition RemoveMember (name : string) (playerGUID : u64) : M unit :=
  modify (fun s => set_repo (alter (delete playerGUID) name (repo s)) s).
Definition repo_GetOrCreate (name : string) : M unit :=
  modify (fun s => match repo s !! name with Some _ => s | None => set_repo (<[name := ∅]> (repo s)) s end).
Definition repo_Get (name : string) : M (option (gmap u64 unit)) := gets (fun s => repo s !! name).
Definition repo_Remove (name : string) : M unit := modify (fun s => set_repo (delete name (repo s)) s).
Definition Members (members : gmap u64 unit) : list u64 := (go_range 0 members).*1.

(** ** The service *)
Definition AddPlayerToChannel (playerGUID : u64) (chanName : string) : M nat :=
  repo_GetOrCreate chanName ;;
  AddMember chanName playerGUID ;;
  modify (fun s => match playerChannels s !! playerGUID with Some _ => s | None => set_playerChannels (<[playerGUID := ∅]> (playerChannels s)) s end) ;;
  modify (fun s => set_playerChannels (alter (insert chanName tt) playerGUID (playerChannels s)) s) ;;
  stream_GetOrCreate playerGUID.
(** The reverse index without the channel, and without a player that has none
    left. *)
Definition forget_channel (playerGUID : u64) (chanName : string) (s : ChatChannelsService) : ChatChannelsService :=
  match playerChannels s !! playerGUID with
  | None => s
  | Some chans =>
    let chans := delete chanName chans in
    if bool_decide (size chans = 0%nat) then set_playerChannels (delete playerGUID (playerChannels s)) s
    else set_playerChannels (<[playerGUID := chans]> (playerChannels s)) s
  end.
Definition RemovePlayerFromChannel (playerGUID : u64) (chanName : string) : M unit :=
  channel ← repo_Get chanName;
  (match channel with Some _ => RemoveMember chanName playerGUID | None => mret tt end) ;;
  modify (forget_channel playerGUID chanName).
Fixpoint broadcast_loop (members : list u64) (event : E) : M unit :=
  match members with
  | [] => mret tt
  | playerGUID :: members =>
    ch ← stream_Get playerGUID;
    (match ch with None => mret tt | Some l => try_send l event end) ;;
    broadcast_loop members event
  end.
Definition BroadcastToChannel (channelName : string) (event : E) : M unit :=
  channel ← repo_Get channelName;
  match channel with
  | None => mret tt
  | Some members => broadcast_loop (Members members) event
  end.
Fixpoint leave_loop (playerGUID : u64) (names : list string) : M unit :=
  match names with
  | [] => mret tt
  | chanName :: names =>
    channel ← repo_Get chanName;
    (match channel with Some _ => RemoveMember chanName playerGUID | None => mret tt end) ;;
    leave_loop playerGUID names
  end.
Definition DisconnectPlayer (playerGUID : u64) : M unit :=
  pc ← gets playerChannels;
  (match pc !! playerGUID with
   | Some chans =>
     modify (fun s => set_playerChannels (delete playerGUID (playerChannels s)) s) ;;
     leave_loop playerGUID (go_range 1 chans).*1
   | None => mret tt
   end) ;;
  stream_Remove playerGUID.

(** A session takes an event off the stream it holds. *)
Definition receive (l : nat) : M (option E) :=
  cs ← gets chans;
  match cs !! l with
  | Some (Chan (e :: q) cap closed) => modify (set_chans (<[l := Chan q cap closed]> cs)) ;; mret (Some e)
  | _ => mret None
  end.
End Streams.
Arguments ChatChannelsService E : clear implicits.

(** ** the chat channels of a gateway as a set of members and
    a mailbox per player

    The maps of [ChatStreams], with their streams in the heap, implement a
    machine whose state is the set of the (channel, player) pairs and the
    mailboxes; no operation panics. *)
Section Facts.
Context {E : Type} `{MapRange}.
Abbreviation svc := (ChatChannelsService E).
Abbreviation run_state := (sys svc Empty_set).

Definition member (s : svc) (n : string) (g : u64) : option unit := repo s !! n ≫= fun m => m !! g.
Definition joined (s : svc) (n : string) (g : u64) : option unit := playerChannels s !! g ≫= fun c => c !! n.
Definition stream (s : svc) (g : u64) : option (chan E) := streams s !! g ≫= fun l => chans s !! l.

Record consistent (s : svc) : Prop := {
  co_index : forall n g, member s n g = joined s n g;
  co_nonempty : forall g c, playerChannels s !! g = Some c -> c <> ∅;
  co_stream : forall n g, is_Some (member s n g) -> is_Some (streams s !! g);
  co_open : forall g l, streams s !! g = Some l -> (l < next_chan s)%nat /\ exists c, chans s !! l = Some c /\ closed c = false /\ cap c = 32%nat;
  co_inj : forall g g' l, streams s !! g = Some l -> streams s !! g' = Some l -> g = g'
}.

(** The machine that is implemented. *)
Record mailboxes := { a_members : gset (string * u64); a_inbox : gmap u64 (list E) }.
Definition post (e : E) (q : list E) : list E := if (length q <? 32)%nat then q ++ [e] else q.
Inductive stream_op := Join (g : u64) (n : string) | Leave (g : u64) (n : string) | Broadcast (n : string) (e : E) | Disconnect (g : u64) | Receive (g : u64).
Definition a_op (o : stream_op) (a : mailboxes) : mailboxes :=
  match o with
  | Join g n => {| a_members := {[(n, g)]} ∪ a_members a; a_inbox := match a_inbox a !! g with Some _ => a_inbox a | None => <[g := []]> (a_inbox a) end |}
  | Leave g n => {| a_members := a_members a ∖ {[(n, g)]}; a_inbox := a_inbox a |}
  | Broadcast n e => {| a_members := a_members a; a_inbox := map_imap (fun g q => Some (if decide ((n, g) ∈ a_members a) then post e q else q)) (a_inbox a) |}
  | Disconnect g => {| a_members := filter (fun x => x.2 <> g) (a_members a); a_inbox := delete g (a_inbox a) |}
  | Receive g => {| a_members := a_members a; a_inbox := alter tail g (a_inbox a) |}
  end.
Definition run_stream_op (o : stream_op) : go svc Empty_set Empty_set unit :=
  match o with
  | Join g n => AddPlayerToChannel g n ;; mret tt
  | Leave g n => RemovePlayerFromChannel g n
  | Broadcast n e => BroadcastToChannel n e
  | Disconnect g => DisconnectPlayer g
  | Receive g => l ← stream_Get g; match l with None => mret tt | Some l => receive l ;; mret tt end
  end.
Record implements (a : mailboxes) (s : svc) : Prop := {
  im_ok : consistent s;
  im_members : forall n g, (n, g) ∈ a_members a <-> member s n g = Some tt;
  im_inbox : forall g, a_inbox a !! g = buf <$> stream s g
}.

Lemma unit_option (o : option unit) : o = Some tt \/ o = None.
Proof. destruct o as [[]|]; auto. Qed.
Lemma member_GetOrCreate (s : svc) n n' g :
  member (match repo s !! n with Some _ => s | None => set_repo (<[n := ∅]> (repo s)) s end) n' g = member s n' g.
Proof.
  destruct (repo s !! n) eqn:Hn; [done|]. unfold member. cbn. destruct (decide (n = n')) as [->|Hne]; [|by rewrite lookup_insert_ne].
  rewrite lookup_insert_eq, Hn. cbn. apply lookup_empty.
Qed.
Lemma member_AddMember (s : svc) n g n' g' : is_Some (repo s !! n) ->
  member (set_repo (alter (insert g tt) n (repo s)) s) n' g' = if decide (n = n' /\ g = g') then Some tt else member s n' g'.
Proof.
  intros [m Hm]. unfold member. cbn. destruct (decide (n = n')) as [->|Hne].
  - rewrite lookup_alter_eq, Hm. cbn. destruct (decide (g = g')) as [->|Hg].
    + by rewrite lookup_insert_eq, decide_True.
    + rewrite lookup_insert_ne by done. by rewrite decide_False by tauto.
  - rewrite lookup_alter_ne by done. by rewrite decide_False by tauto.
Qed.
Lemma member_RemoveMember (s : svc) n g n' g' :
  member (set_repo (alter (delete g) n (repo s)) s) n' g' = if decide (n = n' /\ g = g') then None else member s n' g'.
Proof.
  unfold member. cbn. destruct (decide (n = n')) as [->|Hne].
  - rewrite lookup_alter_eq. destruct (repo s !! n') as [m|]; cbn; [|by case_decide]. destruct (decide (g = g')) as [->|Hg].
    + by rewrite lookup_delete_eq, decide_True.
    + rewrite lookup_delete_ne by done. by rewrite decide_False by tauto.
  - rewrite lookup_alter_ne by done. by rewrite decide_False by tauto.
Qed.

(** ** Broadcasts *)
Lemma broadcast_run gs : forall (s : run_state) e, consistent (st s) -> NoDup gs ->
  exists cs, broadcast_loop gs e s = (Ok tt, Sys (set_chans cs (st s)) (faults s) (events s)) /\
    (forall g, stream (set_chans cs (st s)) g = if decide (g ∈ gs) then offer e <$> stream (st s) g else stream (st s) g) /\
    (forall l, (forall g, g ∈ gs -> streams (st s) !! g <> Some l) -> cs !! l = chans (st s) !! l).
Proof.
  induction gs as [|g gs IH]; intros s e Hs Hnd.
  - exists (chans (st s)). split; [by destruct s as [[] ? ?]|]. split; [|done]. intros g'. by destruct (st s).
  - apply NoDup_cons in Hnd as [Hg Hnd]. cbn [broadcast_loop].
    destruct (streams (st s) !! g) as [l|] eqn:Hl.
    + destruct (co_open _ Hs g l Hl) as (Hlt & c & Hc & Hopen & Hcap).
      set (s1 := Sys (set_chans (<[l := offer e c]> (chans (st s))) (st s)) (faults s) (events s)).
      assert (Hs1 : consistent (st s1)).
      { destruct Hs as [H1 H2 H3 H4 H5]. split; try done. intros g' l' Hl'. destruct (H4 g' l' Hl') as (Hlt' & c' & Hc' & ? & ?). split; [done|].
        cbn. destruct (decide (l = l')) as [->|]; [|rewrite lookup_insert_ne by done; by exists c'].
        rewrite lookup_insert_eq. exists (offer e c). split; [done|]. unfold offer. by destruct (_ <? _)%nat. }
      destruct (IH s1 e Hs1 Hnd) as (cs & Hrun & Hstr & Hrest). exists cs. split; [|split].
      * unfold stream_Get. erewrite bind_run by reflexivity. cbv beta. rewrite Hl.
        erewrite bind_run; [exact Hrun|]. unfold try_send. erewrite bind_run by reflexivity. rewrite Hc, Hopen. reflexivity.
      * intros g'. change (set_chans cs (st s)) with (set_chans cs (st s1)). rewrite Hstr. unfold stream. cbn.
        destruct (decide (g' = g)) as [->|Hne].
        -- rewrite Hl. cbn. rewrite lookup_insert_eq, Hc. rewrite decide_False by done. rewrite decide_True by left. done.
        -- assert (Hsame : (streams (st s) !! g' ≫= fun l0 => <[l := offer e c]> (chans (st s)) !! l0) = streams (st s) !! g' ≫= fun l0 => chans (st s) !! l0).
           { destruct (streams (st s) !! g') as [l'|] eqn:Hl'; [|done]. cbn. rewrite lookup_insert_ne; [done|]. intros <-. apply Hne. by apply (co_inj _ Hs g' g l). }
           rewrite Hsame. destruct (decide (g' ∈ gs)); [by rewrite decide_True by (by right)|]. by rewrite decide_False by (rewrite not_elem_of_cons; done).
      * intros l' Hl'. rewrite Hrest; [|intros g' Hg'; apply Hl'; by right]. cbn. apply lookup_insert_ne. intros <-. by apply (Hl' g); [left|].
    + destruct (IH s e Hs Hnd) as (cs & Hrun & Hstr & Hrest). exists cs. split; [|split].
      * unfold stream_Get. erewrite bind_run by reflexivity. cbv beta. rewrite Hl. erewrite bind_run by reflexivity. exact Hrun.
      * intros g'. rewrite Hstr. destruct (decide (g' = g)) as [->|Hne].
        -- rewrite decide_False by done. rewrite decide_True by left. unfold stream. by rewrite Hl.
        -- destruct (decide (g' ∈ gs)); [by rewrite decide_True by (by right)|]. by rewrite decide_False by (rewrite not_elem_of_cons; done).
      * intros l' Hl'. apply Hrest. intros g' Hg'. apply Hl'. by right.
Qed.
Lemma set_chans_consistent (s : svc) cs : consistent s ->
  (forall g c, stream s g = Some c -> exists c', stream (set_chans cs s) g = Some c' /\ closed c' = closed c /\ cap c' = cap c) -> consistent (set_chans cs s).
Proof.
  intros [H1 H2 H3 H4 H5] Hc. split; try done. intros g l Hl. cbn in Hl. destruct (H4 g l Hl) as (Hlt & c & Hcl & Ho & Hcap). split; [done|].
  destruct (Hc g c) as (c' & Hc' & Ho' & Hcap'); [unfold stream; by rewrite Hl|]. exists c'. unfold stream in Hc'. cbn in Hc'. rewrite Hl in Hc'. cbn in Hc'.
  split; [done|]. by rewrite Ho', Hcap'.
Qed.

(** ** The operations *)
Lemma member_some a s n g : implements a s -> member s n g = (if decide ((n, g) ∈ a_members a) then Some tt else None).
Proof.
  intros Hi. pose proof (im_members a s Hi n g) as Hm. destruct (unit_option (member s n g)) as [E1|E1]; rewrite E1 in *.
  - by rewrite decide_True by tauto.
  - rewrite decide_False; [done|]. rewrite Hm. discriminate.
Qed.
Lemma elem_of_Members m g : g ∈ Members m <-> m !! g = Some tt.
Proof.
  unfold Members. rewrite list_elem_of_fmap. split.
  - intros ([g' []] & -> & Hin). by apply elem_of_go_range in Hin.
  - intros Hm. exists (g, tt). split; [done|]. by apply elem_of_go_range.
Qed.
Lemma offer_buf (e : E) c : cap c = 32%nat -> buf (offer e c) = post e (buf c).
Proof. intros Hc. unfold offer, post. rewrite Hc. by destruct (_ <? _)%nat. Qed.
Lemma offer_closed (e : E) c : closed (offer e c) = closed c /\ cap (offer e c) = cap c.
Proof. unfold offer. by destruct (_ <? _)%nat. Qed.
Lemma stream_shape s g c : consistent s -> stream s g = Some c -> closed c = false /\ cap c = 32%nat.
Proof.
  intros Hs Hc. unfold stream in Hc. destruct (streams s !! g) as [l|] eqn:Hl; [|done]. destruct (co_open _ Hs g l Hl) as (_ & c' & Hc' & ? & ?).
  cbn in Hc. by simplify_eq.
Qed.

Lemma broadcast_implements a n e (s : run_state) : implements a (st s) ->
  exists s', BroadcastToChannel n e s = (Ok tt, s') /\ implements (a_op (Broadcast n e) a) (st s') /\ faults s' = faults s /\ events s' = events s.
Proof.
  intros Hi. pose proof (im_ok a _ Hi) as Hs. unfold BroadcastToChannel, repo_Get. erewrite bind_run by reflexivity. cbv beta.
  assert (Hmem : forall g m, repo (st s) !! n = Some m -> g ∈ Members m <-> (n, g) ∈ a_members a).
  { intros g m Hm. rewrite elem_of_Members, (im_members a _ Hi). unfold member. rewrite Hm. done. }
  destruct (repo (st s) !! n) as [m|] eqn:Hm.
  - destruct (broadcast_run (Members m) s e Hs) as (cs & Hrun & Hstr & _); [apply go_range_fst_NoDup|].
    eexists. split; [exact Hrun|]. split; [|done]. cbn [st]. split.
    + apply set_chans_consistent; [done|]. intros g c Hc. rewrite Hstr, Hc. destruct (decide _); cbn; eexists; (split; [reflexivity|]); [apply offer_closed|done].
    + intros n' g. apply (im_members a _ Hi).
    + intros g. cbn [a_op a_inbox]. rewrite map_lookup_imap, (im_inbox a _ Hi), Hstr.
      destruct (stream (st s) g) as [c|] eqn:Hc; [|by destruct (decide (g ∈ Members m))]. destruct (stream_shape _ _ _ Hs Hc) as [_ Hcap].
      destruct (decide (g ∈ Members m)) as [Hin|Hin]; rewrite (Hmem g m eq_refl) in Hin; cbn.
      * rewrite decide_True by done. by rewrite offer_buf.
      * by rewrite decide_False.
  - exists s. split; [done|]. split; [|done]. destruct Hi as [H1 H2 H3]. split; [done|done|]. intros g. cbn [a_op a_inbox]. rewrite map_lookup_imap, H3.
    destruct (stream (st s) g) as [c|]; [|done]. cbn. rewrite decide_False; [done|]. rewrite H2. unfold member. by rewrite Hm.
Qed.

Lemma joined_index (s : svc) g c n : playerChannels s !! g = Some c -> joined s n g = c !! n.
Proof. intros Hc. unfold joined. by rewrite Hc. Qed.

(** Same heap and streams. *)
Definition same_streams (s s' : svc) : Prop := streams s' = streams s /\ chans s' = chans s /\ next_chan s' = next_chan s.
Lemma same_stream s s' g : same_streams s s' -> stream s' g = stream s g.
Proof. intros (Ha & Hb & _). unfold stream. by rewrite Ha, Hb. Qed.

(** The maps after a player joined. *)
Lemma join_maps g n (s : run_state) : exists s1, same_streams (st s) s1 /\
  (forall k : unit -> go svc Empty_set Empty_set nat,
    (repo_GetOrCreate n ;; AddMember n g ;;
     modify (fun s => match playerChannels s !! g with Some _ => s | None => set_playerChannels (<[g := ∅]> (playerChannels s)) s end) ;;
     modify (fun s => set_playerChannels (alter (insert n tt) g (playerChannels s)) s) ≫= k) s = k tt (Sys s1 (faults s) (events s))) /\
  (forall n' g', member s1 n' g' = if decide (n = n' /\ g = g') then Some tt else member (st s) n' g') /\
  (forall n' g', joined s1 n' g' = if decide (n = n' /\ g = g') then Some tt else joined (st s) n' g') /\
  (forall g' c, playerChannels s1 !! g' = Some c -> g' <> g -> playerChannels (st s) !! g' = Some c).
Proof.
  set (sa := match repo (st s) !! n with Some _ => st s | None => set_repo (<[n := ∅]> (repo (st s))) (st s) end).
  set (sb := set_repo (alter (insert g tt) n (repo sa)) sa).
  set (sc := match playerChannels sb !! g with Some _ => sb | None => set_playerChannels (<[g := ∅]> (playerChannels sb)) sb end).
  set (sd := set_playerChannels (alter (insert n tt) g (playerChannels sc)) sc).
  assert (Hsa : same_streams (st s) sa /\ playerChannels sa = playerChannels (st s)) by (subst sa; by destruct (repo (st s) !! n)).
  assert (Hsc : same_streams sb sc /\ repo sc = repo sb) by (subst sc; by destruct (playerChannels sb !! g)).
  assert (Hn : is_Some (repo sa !! n)).
  { subst sa. destruct (repo (st s) !! n) eqn:Hr; [by rewrite Hr|]. cbn. rewrite lookup_insert_eq. by eexists. }
  exists sd. split; [|split; [|split; [|split]]].
  - destruct Hsa as [(A1 & A2 & A3) _], Hsc as [(B1 & B2 & B3) _]. split; [exact (eq_trans B1 A1)|]. split; [exact (eq_trans B2 A2)|exact (eq_trans B3 A3)].
  - intros k. reflexivity.
  - intros n' g'. unfold member at 1. cbn. destruct Hsc as [_ ->]. fold (member sb n' g'). subst sb. rewrite member_AddMember by done.
    subst sa. by rewrite member_GetOrCreate.
  - intros n' g'. unfold joined at 1. cbn.
    assert (Hc : exists c, playerChannels sc !! g = Some c /\ forall n', c !! n' = joined (st s) n' g).
    { subst sc. change (playerChannels sb) with (playerChannels sa). destruct Hsa as [_ ->]. unfold joined. destruct (playerChannels (st s) !! g) as [c|] eqn:Hc.
      - exists c. change (playerChannels sb) with (playerChannels sa). subst sa. by destruct (repo (st s) !! n).
      - exists ∅. cbn. rewrite lookup_insert_eq. split; [done|]. intros ?. apply lookup_empty. }
    assert (Ho : forall g', g' <> g -> playerChannels sc !! g' = playerChannels (st s) !! g').
    { intros g0 Hne. subst sc. change (playerChannels sb) with (playerChannels sa). destruct Hsa as [_ ->].
      destruct (playerChannels (st s) !! g); [change (playerChannels sb) with (playerChannels sa); subst sa; by destruct (repo (st s) !! n)|].
      cbn. by rewrite lookup_insert_ne by done. }
    destruct (decide (g = g')) as [<-|Hne].
    + rewrite lookup_alter_eq. destruct Hc as (c & -> & Hc). cbn. destruct (decide (n = n')) as [->|Hnn].
      * by rewrite lookup_insert_eq, decide_True.
      * rewrite lookup_insert_ne by done. rewrite decide_False by tauto. apply Hc.
    + rewrite lookup_alter_ne by done. rewrite Ho by done. by rewrite decide_False by tauto.
  - intros g' c Hc Hne. cbn in Hc. rewrite lookup_alter_ne in Hc by done. subst sc. change (playerChannels sb) with (playerChannels sa) in Hc. destruct Hsa as [_ Hpc].
    rewrite Hpc in Hc. destruct (playerChannels (st s) !! g) eqn:Hg.
    + rewrite <- Hpc. exact Hc.
    + cbn in Hc. by rewrite lookup_insert_ne in Hc by done.
Qed.
Lemma joined_nonempty (s : svc) g c n : playerChannels s !! g = Some c -> joined s n g = Some tt -> c <> ∅.
Proof. intros Hc Hj ->. rewrite (joined_index _ _ _ _ Hc) in Hj. by rewrite lookup_empty in Hj. Qed.

Lemma join_implements a g n (s : run_state) : implements a (st s) ->
  exists l s', AddPlayerToChannel g n s = (Ok l, s') /\ implements (a_op (Join g n) a) (st s') /\ faults s' = faults s /\ events s' = events s.
Proof.
  intros Hi. destruct Hi as [[H1 H2 H3 H4 H5] Hm Hin]. destruct (join_maps g n s) as (s1 & (Es & Ec & En) & Hrun & Hmem & Hjoin & Hpc).
  unfold AddPlayerToChannel. rewrite Hrun. unfold stream_GetOrCreate. erewrite bind_run by reflexivity. cbn [st].
  assert (Hindex : forall n' g', member s1 n' g' = joined s1 n' g') by (intros; by rewrite Hmem, Hjoin, H1).
  assert (Hne : forall g' c, playerChannels s1 !! g' = Some c -> c <> ∅).
  { intros g' c Hc. destruct (decide (g' = g)) as [->|Hg]; [|by apply (H2 g'), Hpc].
    apply (joined_nonempty s1 g c n Hc). rewrite Hjoin. by rewrite decide_True. }
  assert (Hset : forall n' g', (n', g') ∈ a_members (a_op (Join g n) a) <-> member s1 n' g' = Some tt).
  { intros n' g'. cbn [a_op a_members]. rewrite Hmem, elem_of_union, elem_of_singleton, Hm. destruct (decide (n = n' /\ g = g')) as [[-> ->]|Hd]; [tauto|].
    split; [intros [[=]|]; [subst; tauto|done]|tauto]. }
  rewrite Es. destruct (streams (st s) !! g) as [l|] eqn:Hl.
  - exists l, (Sys s1 (faults s) (events s)). split; [done|]. split; [|done]. cbn [st]. split.
    + split; [done|done| | |].
      * intros n' g'. rewrite Hmem, Es. case_decide as Hd; [destruct Hd as [<- <-]; intros _; by rewrite Hl|apply H3].
      * intros g' l'. rewrite Es, Ec, En. apply H4.
      * intros g1 g2 l'. rewrite Es. apply H5.
    + exact Hset.
    + intros g'. rewrite (same_stream (st s)) by done. cbn [a_op a_inbox]. pose proof (Hin g) as Hg. unfold stream in Hg. rewrite Hl in Hg.
      destruct (H4 g l Hl) as (_ & c & Hc & _). cbn in Hg. rewrite Hc in Hg. rewrite Hg. apply Hin.
  - eexists _, _. split; [reflexivity|]. split; [|done]. cbn [st]. set (s2 := set_streams _ _).
    assert (Hst2 : forall g', streams s2 !! g' = if decide (g = g') then Some (next_chan (st s)) else streams (st s) !! g').
    { intros g'. cbn. rewrite Es, En. destruct (decide (g = g')) as [->|]; [by rewrite lookup_insert_eq|by rewrite lookup_insert_ne]. }
    assert (Hch2 : forall l, chans s2 !! l = if decide (next_chan (st s) = l) then Some (Chan [] 32 false) else chans (st s) !! l).
    { intros l. cbn. rewrite Ec, En. destruct (decide (next_chan (st s) = l)) as [->|]; [by rewrite lookup_insert_eq|by rewrite lookup_insert_ne]. }
    assert (Hnext : next_chan s2 = S (next_chan (st s))) by (cbn; by rewrite En).
    split.
    + split; [done|done| | |].
      * intros n' g'. change (member s2) with (member s1). rewrite Hmem, Hst2. destruct (decide (g = g')); [by eexists|]. rewrite decide_False by tauto. apply H3.
      * intros g' l'. rewrite Hst2, Hnext, Hch2. destruct (decide (g = g')).
        -- intros [= <-]. split; [lia|]. rewrite decide_True by done. by eexists.
        -- intros Hl'. destruct (H4 g' l' Hl') as [Hlt Hc]. split; [lia|]. by rewrite decide_False by lia.
      * intros g1 g2 l'. rewrite !Hst2. destruct (decide (g = g1)), (decide (g = g2)); try congruence; [intros [= <-] Hl'|intros Hl' [= <-]|apply H5];
          destruct (H4 _ _ Hl'); lia.
    + exact Hset.
    + intros g'. cbn [a_op a_inbox]. pose proof (Hin g) as Hg. unfold stream in Hg. rewrite Hl in Hg. cbn in Hg. rewrite Hg.
      unfold stream. rewrite Hst2. destruct (decide (g = g')) as [<-|Hgg].
      * rewrite lookup_insert_eq. cbn. rewrite Hch2, decide_True by done. done.
      * rewrite lookup_insert_ne by done. rewrite Hin. unfold stream. destruct (streams (st s) !! g') as [l'|] eqn:Hl'; [|done]. cbn. rewrite Hch2.
        destruct (H4 g' l' Hl'). by rewrite decide_False by lia.
Qed.

(** Leaving one channel, on the side of the channel. *)
Lemma leave_channel g n (s : run_state) : exists s1, same_streams (st s) s1 /\ playerChannels s1 = playerChannels (st s) /\
  (forall k : unit -> go svc Empty_set Empty_set unit,
    (channel ← repo_Get n; (match channel with Some _ => RemoveMember n g | None => mret tt end) ≫= k) s = k tt (Sys s1 (faults s) (events s))) /\
  (forall n' g', member s1 n' g' = if decide (n = n' /\ g = g') then None else member (st s) n' g').
Proof.
  destruct (repo (st s) !! n) as [m|] eqn:Hm.
  - exists (set_repo (alter (delete g) n (repo (st s))) (st s)). split; [done|]. split; [done|]. split; [|intros n' g'; apply member_RemoveMember].
    intros k. unfold repo_Get. erewrite bind_run by reflexivity. cbv beta. by rewrite Hm.
  - exists (st s). split; [done|]. split; [done|].
    split; [intros k; unfold repo_Get; erewrite bind_run by reflexivity; cbv beta; rewrite Hm; by destruct s|]. intros n' g'. case_decide as Hd; [|done]. destruct Hd as [<- <-]. unfold member. by rewrite Hm.
Qed.
Lemma leave_implements a g n (s : run_state) : implements a (st s) ->
  exists s', RemovePlayerFromChannel g n s = (Ok tt, s') /\ implements (a_op (Leave g n) a) (st s') /\ faults s' = faults s /\ events s' = events s.
Proof.
  intros Hi. destruct Hi as [[H1 H2 H3 H4 H5] Hm Hin]. destruct (leave_channel g n s) as (s1 & (Es & Ec & En) & Ep & Hrun & Hmem).
  unfold RemovePlayerFromChannel. rewrite Hrun. eexists. split; [reflexivity|]. split; [|done]. cbn [st]. set (s2 := forget_channel g n s1).
  assert (Hsame : same_streams (st s) s2 /\ repo s2 = repo s1).
  { subst s2. unfold forget_channel. destruct (playerChannels s1 !! g); [case_bool_decide|]; by repeat split. }
  destruct Hsame as [(Es2 & Ec2 & En2) Er].
  assert (Hm2 : forall n' g', member s2 n' g' = if decide (n = n' /\ g = g') then None else member (st s) n' g').
  { intros n' g'. unfold member at 1. rewrite Er. apply Hmem. }
  assert (Hj2 : forall n' g', joined s2 n' g' = if decide (n = n' /\ g = g') then None else joined (st s) n' g').
  { intros n' g'. unfold joined. subst s2. unfold forget_channel. rewrite Ep. destruct (playerChannels (st s) !! g) as [c|] eqn:Hc.
    - case_bool_decide as Hsz; cbn.
      + apply map_size_empty_inv in Hsz. destruct (decide (g = g')) as [<-|Hg].
        * rewrite lookup_delete_eq, Hc. cbn. destruct (decide (n = n' /\ g = g)) as [|Hd]; [done|].
          assert (n <> n') by tauto. apply (f_equal (.!! n')) in Hsz. rewrite lookup_empty, lookup_delete_ne in Hsz by done. done.
        * rewrite lookup_delete_ne by done. by rewrite decide_False by tauto.
      + destruct (decide (g = g')) as [<-|Hg].
        * rewrite lookup_insert_eq, Hc. cbn. rewrite lookup_delete. case_decide; case_decide; tauto.
        * rewrite lookup_insert_ne by done. by rewrite decide_False by tauto.
    - rewrite Ep. case_decide as Hd; [|done]. destruct Hd as [<- <-]. by rewrite Hc. }
  assert (Hne2 : forall g' c, playerChannels s2 !! g' = Some c -> c <> ∅).
  { intros g' c. subst s2. unfold forget_channel. rewrite Ep. destruct (playerChannels (st s) !! g) as [c0|] eqn:Hc; [|rewrite Ep; apply H2]. case_bool_decide as Hsz; cbn.
    - intros [_ Hc']%lookup_delete_Some. by apply (H2 g').
    - intros [[<- <-]|[_ Hc']]%lookup_insert_Some; [|by apply (H2 g')]. intros E0. apply Hsz. by apply map_size_empty_iff. }
  split.
  - split; [|done| | |].
    + intros n' g'. by rewrite Hm2, Hj2, H1.
    + intros n' g'. rewrite Hm2, Es2. case_decide; [by intros [? ?]|apply H3].
    + intros g' l. rewrite Es2, Ec2, En2. apply H4.
    + intros g1 g2 l. rewrite Es2. apply H5.
  - intros n' g'. cbn [a_op a_members]. rewrite Hm2, elem_of_difference, elem_of_singleton, Hm. case_decide as Hd.
    + destruct Hd as [<- <-]. split; [intros [_ []]; done|discriminate].
    + split; [tauto|]. intros Hx. split; [done|]. intros [=]. subst. tauto.
  - intros g'. rewrite (same_stream (st s)) by done. apply Hin.
Qed.
Lemma leave_loop_run g names : forall s : run_state, exists s1, same_streams (st s) s1 /\ playerChannels s1 = playerChannels (st s) /\
  leave_loop g names s = (Ok tt, Sys s1 (faults s) (events s)) /\
  (forall n' g', member s1 n' g' = if decide (n' ∈ names /\ g = g') then None else member (st s) n' g').
Proof.
  induction names as [|n names IH]; intros s.
  - exists (st s). split; [done|]. split; [done|]. split; [by destruct s|]. intros n' g'. rewrite decide_False; [done|]. intros [Hn _]. by apply elem_of_nil in Hn.
  - destruct (leave_channel g n s) as (s1 & (Es & Ec & En) & Ep & Hrun & Hmem).
    destruct (IH (Sys s1 (faults s) (events s))) as (s2 & (Es2 & Ec2 & En2) & Ep2 & Hrun2 & Hmem2). cbn [st] in *. exists s2.
    split; [split; [congruence|split; congruence]|]. split; [congruence|]. split.
    + cbn [leave_loop]. by rewrite Hrun.
    + intros n' g'. rewrite Hmem2, Hmem. destruct (decide (g = g')) as [<-|Hg].
      * destruct (decide (n' ∈ names)).
        -- rewrite decide_True by done. by rewrite decide_True by (split; [by right|done]).
        -- rewrite decide_False by tauto. destruct (decide (n = n')) as [->|Hnn].
           ++ rewrite decide_True by done. by rewrite decide_True by (split; [left|done]).
           ++ rewrite decide_False by tauto. rewrite decide_False; [done|]. rewrite elem_of_cons. intros [[|] _]; [congruence|done].
      * by rewrite !decide_False by tauto.
Qed.
Lemma elem_of_names (c : gmap string unit) n : n ∈ (go_range 1 c).*1 <-> is_Some (c !! n).
Proof.
  rewrite list_elem_of_fmap. split.
  - intros ([n' u] & -> & Hn). apply elem_of_go_range in Hn. by exists u.
  - intros [u Hn]. exists (n, u). split; [done|]. by apply elem_of_go_range.
Qed.

Lemma disconnect_implements a g (s : run_state) : implements a (st s) ->
  exists s', DisconnectPlayer g s = (Ok tt, s') /\ implements (a_op (Disconnect g) a) (st s') /\ faults s' = faults s /\ events s' = events s.
Proof.
  intros Hi. destruct Hi as [[H1 H2 H3 H4 H5] Hm Hin].
  (* the channels *)
  assert (Hch : exists s1, same_streams (st s) s1 /\
    (forall k : unit -> go svc Empty_set Empty_set unit, (pc ← gets playerChannels;
     (match pc !! g with
      | Some chans => modify (fun s => set_playerChannels (delete g (playerChannels s)) s) ;; leave_loop g (go_range 1 chans).*1
      | None => mret tt
      end) ≫= k) s = k tt (Sys s1 (faults s) (events s))) /\
    playerChannels s1 = delete g (playerChannels (st s)) /\
    (forall n' g', member s1 n' g' = if decide (g = g') then None else member (st s) n' g')).
  { destruct (playerChannels (st s) !! g) as [c|] eqn:Hc.
    - destruct (leave_loop_run g (go_range 1 c).*1 (Sys (set_playerChannels (delete g (playerChannels (st s))) (st s)) (faults s) (events s)))
        as (s1 & Hsame & Hp & Hrun & Hmem).
      exists s1. split; [exact Hsame|]. split; [|split; [exact Hp|]].
      + intros k. erewrite bind_run by reflexivity. cbv beta. rewrite Hc. erewrite bind_run; [reflexivity|]. erewrite bind_run by reflexivity. exact Hrun.
      + intros n' g'. rewrite Hmem. change (member (st _) n' g') with (member (st s) n' g'). destruct (decide (g = g')) as [<-|]; [|by rewrite decide_False by tauto].
        destruct (decide (n' ∈ (go_range 1 c).*1)) as [Hn|Hn]; [by rewrite decide_True|]. rewrite decide_False by tauto.
        rewrite H1, (joined_index _ _ _ _ Hc). rewrite elem_of_names in Hn. by apply eq_None_not_Some.
    - exists (st s). split; [done|]. split; [|split].
      + intros k. erewrite bind_run by reflexivity. cbv beta. rewrite Hc. by destruct s.
      + by rewrite delete_id.
      + intros n' g'. case_decide as Hd; [|done]. subst. rewrite H1. unfold joined. by rewrite Hc. }
  destruct Hch as (s1 & (Es & Ec & En) & Hrun & Hp & Hmem). unfold DisconnectPlayer. rewrite Hrun.
  assert (Hj : forall n' g', joined s1 n' g' = if decide (g = g') then None else joined (st s) n' g').
  { intros n' g'. unfold joined. rewrite Hp, lookup_delete. by case_decide. }
  assert (Hindex : forall n' g', member s1 n' g' = joined s1 n' g') by (intros; by rewrite Hmem, Hj, H1).
  assert (Hne : forall g' c, playerChannels s1 !! g' = Some c -> c <> ∅) by (intros g' c; rewrite Hp; intros [_ Hc]%lookup_delete_Some; by apply (H2 g')).
  assert (Hset : forall n' g', (n', g') ∈ a_members (a_op (Disconnect g) a) <-> member s1 n' g' = Some tt).
  { intros n' g'. cbn [a_op a_members]. rewrite Hmem, elem_of_filter, Hm. cbn. destruct (decide (g = g')) as [<-|]; [naive_solver|]. naive_solver. }
  unfold stream_Remove. erewrite bind_run by reflexivity. cbv beta. cbn [st]. rewrite Es.
  destruct (streams (st s) !! g) as [l|] eqn:Hl.
  - destruct (H4 g l Hl) as (Hlt & c & Hc & Hopen & Hcap). unfold close_chan.
    assert (Hclose : (cs ← gets chans; match cs !! l with None => panic | Some c => if closed c then panic else modify (set_chans (<[l := Chan (buf c) (cap c) true]> cs)) end)
      (Sys s1 (faults s) (events s)) = (Ok tt : outcome Empty_set unit, Sys (set_chans (<[l := Chan (buf c) (cap c) true]> (chans s1)) s1) (faults s) (events s))).
    { erewrite bind_run by reflexivity. cbn [st]. rewrite Ec, Hc, Hopen. done. }
    eexists. split; [erewrite bind_run by exact Hclose; reflexivity|]. split; [|done]. cbn [st].
    set (s2 := set_streams _ _).
    assert (Hst2 : forall g', streams s2 !! g' = if decide (g = g') then None else streams (st s) !! g').
    { intros g'. cbn. rewrite Es, lookup_delete. by case_decide. }
    assert (Hch2 : forall g' l', g <> g' -> streams (st s) !! g' = Some l' -> chans s2 !! l' = chans (st s) !! l').
    { intros g' l' Hg Hl'. cbn. rewrite Ec. apply lookup_insert_ne. intros <-. apply Hg. by apply (H5 g g' l). }
    split.
    + split; [done|done| | |].
      * intros n' g'. change (member s2) with (member s1). rewrite Hmem, Hst2. case_decide; [by intros [? ?]|apply H3].
      * intros g' l'. rewrite Hst2. case_decide as Hg; [done|]. intros Hl'. rewrite (Hch2 g' l') by done. cbn. rewrite En. by apply (H4 g').
      * intros g1 g2 l'. rewrite !Hst2. case_decide; [done|]. case_decide; [done|]. apply H5.
    + exact Hset.
    + intros g'. cbn [a_op a_inbox]. rewrite lookup_delete. unfold stream. rewrite Hst2. case_decide as Hg; [done|]. rewrite Hin. unfold stream.
      destruct (streams (st s) !! g') as [l'|] eqn:Hl'; [|done]. cbn [mbind option_bind]. by rewrite (Hch2 g' l').
  - eexists. split; [reflexivity|]. split; [|done]. cbn [st]. split.
    + split; [done|done| | |].
      * intros n' g'. rewrite Hmem, Es. case_decide; [by intros [? ?]|apply H3].
      * intros g' l'. rewrite Es, Ec, En. apply H4.
      * intros g1 g2 l'. rewrite Es. apply H5.
    + exact Hset.
    + intros g'. rewrite (same_stream (st s)) by done. cbn [a_op a_inbox]. rewrite lookup_delete. case_decide as Hg; [|apply Hin]. subst. unfold stream. by rewrite Hl.
Qed.
Lemma receive_implements a g (s : run_state) : implements a (st s) ->
  exists s', run_stream_op (Receive g) s = (Ok tt, s') /\ implements (a_op (Receive g) a) (st s') /\ faults s' = faults s /\ events s' = events s.
Proof.
  intros Hi. destruct Hi as [[H1 H2 H3 H4 H5] Hm Hin]. cbn [run_stream_op]. unfold stream_Get. erewrite bind_run by reflexivity. cbv beta.
  destruct (streams (st s) !! g) as [l|] eqn:Hl.
  - destruct (H4 g l Hl) as (Hlt & [q cp cl] & Hc & Hopen & Hcap). cbn in Hopen, Hcap. subst cl cp. unfold receive.
    assert (exists s', (receive l ;; mret tt) s = (Ok tt : outcome Empty_set unit, s') /\ st s' = set_chans (<[l := Chan (tail q) 32 false]> (chans (st s))) (st s) /\
      faults s' = faults s /\ events s' = events s) as (s' & Hrun & Hst & Hf & He).
    { unfold receive. destruct q as [|e q].
      - exists s. split; [|split; [|done]].
        + unfold mbind, go_bind, gets. by rewrite Hc.
        + cbn. rewrite insert_id by done. by destruct (st s).
      - eexists. split; [|split; [|split]]; [unfold mbind, go_bind, gets; rewrite Hc; reflexivity|done|done|done]. }
    exists s'. split; [exact Hrun|]. split; [|done]. rewrite Hst.
    assert (Hstream : forall g', stream (set_chans (<[l := Chan (tail q) 32 false]> (chans (st s))) (st s)) g' = if decide (g = g') then Some (Chan (tail q) 32 false) else stream (st s) g').
    { intros g'. unfold stream. cbn. case_decide as Hg; [subst; rewrite Hl; cbn; by rewrite lookup_insert_eq|].
      destruct (streams (st s) !! g') as [l'|] eqn:Hl'; [|done]. cbn. rewrite lookup_insert_ne; [done|]. intros <-. apply Hg. by apply (H5 g g' l). }
    split; [|done|].
    + apply set_chans_consistent; [by split|]. intros g' c Hc'. rewrite Hstream. case_decide as Hg; [|by exists c]. subst. unfold stream in Hc'. rewrite Hl in Hc'.
      cbn in Hc'. rewrite Hc in Hc'. simplify_eq. eexists. split; [reflexivity|done].
    + intros g'. rewrite Hstream. cbn [a_op a_inbox]. rewrite lookup_alter. case_decide as Hg; [|apply Hin]. subst. rewrite Hin. unfold stream. rewrite Hl. cbn. by rewrite Hc.
  - exists s. split; [by destruct s|]. split; [|done]. split; [done|done|]. intros g'. cbn [a_op a_inbox]. rewrite lookup_alter. case_decide as Hg; [|apply Hin].
    subst. rewrite Hin. unfold stream. by rewrite Hl.
Qed.
Lemma op_implements o a (s : run_state) : implements a (st s) ->
  exists s', run_stream_op o s = (Ok tt, s') /\ implements (a_op o a) (st s') /\ faults s' = faults s /\ events s' = events s.
Proof.
  intros Hi. destruct o as [g n|g n|n e|g|g].
  - destruct (join_implements a g n s Hi) as (l & s' & Hrun & Hi' & Hr). exists s'. split; [|done]. cbn [run_stream_op]. by erewrite bind_run.
  - by apply leave_implements.
  - by apply broadcast_implements.
  - by apply disconnect_implements.
  - by apply receive_implements.
Qed.
Fixpoint run_ops (os : list stream_op) : go svc Empty_set Empty_set unit :=
  match os with [] => mret tt | o :: os => run_stream_op o ;; run_ops os end.
Definition no_mail : mailboxes := {| a_members := ∅; a_inbox := ∅ |}.
Lemma new_implements : implements no_mail NewChatChannelsService.
Proof. split; [|done|done]. split; try done. intros n g [? ?]. done. Qed.
Lemma run_ops_implement os : forall a (s : run_state), implements a (st s) ->
  exists s', run_ops os s = (Ok tt, s') /\ implements (foldl (fun a o => a_op o a) a os) (st s').
Proof.
  induction os as [|o os IH]; intros a s Hi; [by exists s|]. destruct (op_implements o a s Hi) as (s1 & Hrun & Hi1 & _).
  destruct (IH _ s1 Hi1) as (s2 & Hrun2 & Hi2). exists s2. split; [|exact Hi2]. cbn [run_ops]. by erewrite bind_run.
Qed.

End Facts.
