(* ===== verification/Broadcaster.v ===== *)
(** * Broadcaster: events to the sessions of a gateway
    (apps/gateway/events-broadcaster/broadcaster.go)

    A session registers its character and holds the channel it gets; events
    are put into the channels of their receivers, or dropped when those are
    full.  Payloads are the events of the services' own models. *)
From S2P Require Import Prelude GoRuntime GoStrings Guilds Groups Battleground ChannelsRepo Friends MailRepo ChatStreams.

Inductive EventType :=
| EventTypeIncomingWhisper
| EventTypeIncomingMail
| EventTypeGuildInviteCreated
| EventTypeGuildMemberPromoted
| EventTypeGuildMemberDemoted
| EventTypeGuildMemberAdded
| EventTypeGuildMemberLeft
| EventTypeGuildMemberKicked
| EventTypeGuildMOTDUpdated
| EventTypeGuildRankUpdated
| EventTypeGuildRankCreated
| EventTypeGuildRankDeleted
| EventTypeGuildNewMessage
| EventTypeGroupInviteCreated
| EventTypeGroupCreated
| EventTypeGroupMemberOnlineStatusChanged
| EventTypeGroupMemberLeft
| EventTypeGroupDisband
| EventTypeGroupMemberAdded
| EventTypeGroupLeaderChanged
| EventTypeGroupLootTypeChanged
| EventTypeGroupConvertedToRaid
| EventTypeGroupNewMessage
| EventTypeGroupNewTargetIcon
| EventTypeGroupDifficultyChanged
| EventTypeMMJoinedPVPQueue
| EventTypeMMInvitedToBGOrArena
| EventTypeMMInviteToBGOrArenaExpired
| EventTypeFriendStatusChange
| EventTypeFriendAdded
| EventTypeFriendRemoved
| EventTypeFriendNoteUpdate
| EventTypeChannelMessage
| EventTypeChannelJoined
| EventTypeChannelLeft
| EventTypeChannelNotification.
#[export] Instance EventType_eq_dec : EqDecision EventType.
Proof. solve_decision. Defined.

Record IncomingWhisperPayload := {
  iw_SenderGUID : u64; iw_SenderName : string; iw_SenderRace : u8; iw_ReceiverGUID : u64; iw_ReceiverName : string; iw_Language : u32; iw_Msg : string
}.
Record ChannelMessagePayload := {
  cm_RealmID : u32; cm_ChannelName : string; cm_ChannelID : u32; cm_SenderGUID : u64; cm_SenderName : string; cm_Language : u32; cm_Message : string
}.
Record ChannelJoinedPayload := {
  cj_RealmID : u32; cj_ChannelName : string; cj_ChannelID : u32; cj_PlayerGUID : u64; cj_PlayerName : string; cj_PlayerFlags : u8
}.
Record ChannelLeftPayload := {
  cl_RealmID : u32; cl_ChannelName : string; cl_ChannelID : u32; cl_PlayerGUID : u64; cl_PlayerName : string
}.
Record ChannelNotificationPayload := {
  cn_RealmID : u32; cn_ChannelName : string; cn_ChannelID : u32; cn_NotifyType : u8; cn_TargetGUID : u64; cn_TargetName : string; cn_SecondGUID : u64;
  cn_OldFlags : u8; cn_NewFlags : u8; cn_ExtraData : string; cn_AffectsPlayer : u64
}.
Record GuildInviteCreatedPayload := {
  gi_RealmID : u32; gi_GuildID : u64; gi_GuildName : string; gi_InviterGUID : u64; gi_InviterName : string; gi_InviteeGUID : u64; gi_InviteeName : string
}.
Inductive Payload :=
| PWhisper (p : IncomingWhisperPayload) | PMail (e : mail_event) | PGuildInvite (p : GuildInviteCreatedPayload) | PGuild (e : guild_event)
| PGroup (e : group_event) | PMatchmaking (e : mm_event) | PFriend (e : friend_event)
| PChannelMessage (p : ChannelMessagePayload) | PChannelJoined (p : ChannelJoinedPayload) | PChannelLeft (p : ChannelLeftPayload)
| PChannelNotification (p : ChannelNotificationPayload).
Record Event := { ev_Type : EventType; ev_Payload : Payload }.

(** ** Fields of the payloads *)
Definition MembersOnline (e : guild_event) : list u64 :=
  match e with
  | Guilds.MemberAdded ge _ _ | Guilds.MemberLeft ge _ _ | Guilds.MemberKicked ge _ _ _ _ | Guilds.MemberNoteUpdated ge _ _ _ _ _
  | Guilds.MemberOfficerNoteUpdated ge _ _ _ _ _ | Guilds.RankCreated ge _ _ _ | Guilds.RankUpdated ge _ _ _ _ _ | Guilds.RankDeleted ge _ _ _
  | Guilds.MemberPromote ge _ _ _ _ _ _ | Guilds.MemberDemote ge _ _ _ _ _ _ | Guilds.MOTDUpdated ge _ | Guilds.GuildInfoUpdated ge _ => ge_MembersOnline ge
  | _ => []
  end.
Definition guild_Receivers (e : guild_event) : list u64 := match e with Guilds.NewMessage _ _ _ _ _ _ _ _ r => r | _ => [] end.
Definition group_InviteeGUID (e : group_event) : u64 := match e with Groups.InviteCreated _ _ _ _ _ g _ => g | _ => 0 end.
Definition group_Members (e : group_event) : list EventGroupMember := match e with Groups.GroupCreated _ _ _ _ _ _ _ _ _ _ _ m => m | _ => [] end.
Definition OnlineMembers (e : group_event) : list u64 :=
  match e with
  | Groups.GroupMemberOnlineStatusChanged _ _ _ _ _ m | Groups.GroupMemberLeft _ _ _ _ _ _ m | Groups.MemberAdded _ _ _ _ _ m
  | Groups.LeaderChanged _ _ _ _ _ m | Groups.LootTypeChanged _ _ _ _ _ _ m | Groups.ConvertedToRaid _ _ _ _ m | Groups.GroupDisband _ _ _ m => m
  | _ => []
  end.
Definition group_Receivers (e : group_event) : list u64 :=
  match e with
  | Groups.SendChatMessage _ _ _ _ _ _ _ _ r | Groups.TargetIconUpdated _ _ _ _ _ _ r | Groups.GroupDifficultyChanged _ _ _ _ _ _ r => r
  | _ => []
  end.
Definition mm_RealmID (e : mm_event) : u32 := match e with PlayersQueued r _ _ _ _ _ | PlayersInvited r _ _ _ _ _ _ _ | PlayersInviteExpired r _ _ => r end.
Definition PlayersGUID (e : mm_event) : list u32 := match e with PlayersQueued _ p _ _ _ _ | PlayersInvited _ p _ _ _ _ _ _ | PlayersInviteExpired _ p _ => p end.
Definition NotifyPlayers (e : friend_event) : list u64 := match e with FriendEventStatusChange _ _ _ _ _ _ n => n | _ => [] end.
Definition friend_PlayerGUID (e : friend_event) : u64 :=
  match e with FriendEventStatusChange _ g _ _ _ _ _ | FriendEventAdded _ g _ _ _ | FriendEventRemoved _ g _ | FriendEventNoteUpdate _ g _ _ => g | _ => 0 end.
Definition mail_ReceiverGUID (e : mail_event) : u64 := match e with MailEventIncomingMail _ _ g _ _ => g end.

Section Broadcaster.
Context `{MapRange}.
(** [gateway.RealmID] *)
Variable RealmID : u32.

Record broadcasterImpl := { channels : gmap u64 nat; chatChannelsService : ChatChannelsService Event }.
Definition NewBroadcaster (chat : ChatChannelsService Event) : broadcasterImpl := {| channels := ∅; chatChannelsService := chat |}.
Abbreviation M A := (go broadcasterImpl Empty_set Empty_set A).
Definition set_channels (c : gmap u64 nat) (b : broadcasterImpl) : broadcasterImpl := {| channels := c; chatChannelsService := chatChannelsService b |}.
Definition set_chat (c : ChatChannelsService Event) (b : broadcasterImpl) : broadcasterImpl := {| channels := channels b; chatChannelsService := c |}.
Definition with_chat {A} (m : go (ChatChannelsService Event) Empty_set Empty_set A) : M A := zoom chatChannelsService set_chat m.

Definition sendOrDrop (ch : nat) (ev : Event) : M unit := with_chat (try_send ch ev).
Definition RegisterCharacter (charGUID : u64) : M nat :=
  ch ← with_chat (make_chan 100);
  modify (fun b => set_channels (<[charGUID := ch]> (channels b)) b) ;;
  mret ch.
Definition UnregisterCharacter (charGUID : u64) : M unit := modify (fun b => set_channels (delete charGUID (channels b)) b).

Definition channelsForGUIDs (guids : list u64) : M (list nat) := b ← gets channels; mret (omap (fun guid => b !! guid) guids).
(** A [uint32] in 64 bits. *)
Definition convertLowGUIDsToUint64 (s : list u32) : list u64 := s.
Fixpoint send_each (chs : list nat) (ev : Event) : M unit :=
  match chs with
  | [] => mret tt
  | ch :: chs => sendOrDrop ch ev ;; send_each chs ev
  end.
(** One receiver, and each of a list. *)
Definition to_player (guid : u64) (ev : Event) : M unit :=
  b ← gets channels;
  match b !! guid with None => mret tt | Some ch => sendOrDrop ch ev end.
Definition to_players (guids : list u64) (ev : Event) : M unit :=
  chs ← channelsForGUIDs guids;
  send_each chs ev.
Definition to_channel (name : string) (ev : Event) : M unit := with_chat (BroadcastToChannel (ToLower name) ev).

Definition NewIncomingWhisperEvent (payload : IncomingWhisperPayload) : M unit :=
  to_player (iw_ReceiverGUID payload) {| ev_Type := EventTypeIncomingWhisper; ev_Payload := PWhisper payload |}.
Definition NewIncomingMailEvent (payload : mail_event) : M unit :=
  to_player (mail_ReceiverGUID payload) {| ev_Type := EventTypeIncomingMail; ev_Payload := PMail payload |}.
Definition NewGuildInviteCreatedEvent (payload : GuildInviteCreatedPayload) : M unit :=
  to_player (gi_InviteeGUID payload) {| ev_Type := EventTypeGuildInviteCreated; ev_Payload := PGuildInvite payload |}.
Definition NewGuildMemberPromoteEvent (payload : guild_event) : M unit :=
  to_players (MembersOnline payload) {| ev_Type := EventTypeGuildMemberPromoted; ev_Payload := PGuild payload |}.
Definition NewGuildMemberDemoteEvent (payload : guild_event) : M unit :=
  to_players (MembersOnline payload) {| ev_Type := EventTypeGuildMemberDemoted; ev_Payload := PGuild payload |}.
Definition NewGuildMemberAddedEvent (payload : guild_event) : M unit :=
  to_players (MembersOnline payload) {| ev_Type := EventTypeGuildMemberAdded; ev_Payload := PGuild payload |}.
Definition NewGuildMemberLeftEvent (payload : guild_event) : M unit :=
  to_players (MembersOnline payload) {| ev_Type := EventTypeGuildMemberLeft; ev_Payload := PGuild payload |}.
Definition NewGuildMemberKickedEvent (payload : guild_event) : M unit :=
  to_players (MembersOnline payload) {| ev_Type := EventTypeGuildMemberKicked; ev_Payload := PGuild payload |}.
Definition NewGuildMOTDUpdatedEvent (payload : guild_event) : M unit :=
  to_players (MembersOnline payload) {| ev_Type := EventTypeGuildMOTDUpdated; ev_Payload := PGuild payload |}.
Definition NewGuildRankUpdatedEvent (payload : guild_event) : M unit :=
  to_players (MembersOnline payload) {| ev_Type := EventTypeGuildRankUpdated; ev_Payload := PGuild payload |}.
Definition NewGuildRankCreatedEvent (payload : guild_event) : M unit :=
  to_players (MembersOnline payload) {| ev_Type := EventTypeGuildRankCreated; ev_Payload := PGuild payload |}.
Definition NewGuildRankDeletedEvent (payload : guild_event) : M unit :=
  to_players (MembersOnline payload) {| ev_Type := EventTypeGuildRankDeleted; ev_Payload := PGuild payload |}.
Definition NewGuildMessageEvent (payload : guild_event) : M unit :=
  to_players (guild_Receivers payload) {| ev_Type := EventTypeGuildNewMessage; ev_Payload := PGuild payload |}.
Definition NewGroupInviteCreatedEvent (payload : group_event) : M unit :=
  to_player (group_InviteeGUID payload) {| ev_Type := EventTypeGroupInviteCreated; ev_Payload := PGroup payload |}.
Definition NewGroupCreatedEvent (payload : group_event) : M unit :=
  to_players (em_MemberGUID <$> group_Members payload) {| ev_Type := EventTypeGroupCreated; ev_Payload := PGroup payload |}.
Definition NewGroupMemberOnlineStatusChangedEvent (payload : group_event) : M unit :=
  to_players (OnlineMembers payload) {| ev_Type := EventTypeGroupMemberOnlineStatusChanged; ev_Payload := PGroup payload |}.
Definition NewGroupMemberLeftEvent (payload : group_event) : M unit :=
  to_players (OnlineMembers payload) {| ev_Type := EventTypeGroupMemberLeft; ev_Payload := PGroup payload |}.
Definition NewGroupDisbandEvent (payload : group_event) : M unit :=
  to_players (OnlineMembers payload) {| ev_Type := EventTypeGroupDisband; ev_Payload := PGroup payload |}.
Definition NewGroupMemberAddedEvent (payload : group_event) : M unit :=
  to_players (OnlineMembers payload) {| ev_Type := EventTypeGroupMemberAdded; ev_Payload := PGroup payload |}.
Definition NewGroupLeaderChangedEvent (payload : group_event) : M unit :=
  to_players (OnlineMembers payload) {| ev_Type := EventTypeGroupLeaderChanged; ev_Payload := PGroup payload |}.
Definition NewGroupLootTypeChangedEvent (payload : group_event) : M unit :=
  to_players (OnlineMembers payload) {| ev_Type := EventTypeGroupLootTypeChanged; ev_Payload := PGroup payload |}.
Definition NewGroupConvertedToRaidEvent (payload : group_event) : M unit :=
  to_players (OnlineMembers payload) {| ev_Type := EventTypeGroupConvertedToRaid; ev_Payload := PGroup payload |}.
Definition NewGroupMessageEvent (payload : group_event) : M unit :=
  to_players (group_Receivers payload) {| ev_Type := EventTypeGroupNewMessage; ev_Payload := PGroup payload |}.
Definition NewGroupTargetIconEvent (payload : group_event) : M unit :=
  to_players (group_Receivers payload) {| ev_Type := EventTypeGroupNewTargetIcon; ev_Payload := PGroup payload |}.
Definition NewGroupDifficultyChangedEvent (payload : group_event) : M unit :=
  to_players (group_Receivers payload) {| ev_Type := EventTypeGroupDifficultyChanged; ev_Payload := PGroup payload |}.
Definition NewMatchmakingJoinedPVPQueueEvent (payload : mm_event) : M unit :=
  if negb (mm_RealmID payload =? RealmID) then mret tt
  else to_players (convertLowGUIDsToUint64 (PlayersGUID payload)) {| ev_Type := EventTypeMMJoinedPVPQueue; ev_Payload := PMatchmaking payload |}.
Definition NewMatchmakingInvitedToBGOrArenaEvent (payload : mm_event) : M unit :=
  if negb (mm_RealmID payload =? RealmID) then mret tt
  else to_players (convertLowGUIDsToUint64 (PlayersGUID payload)) {| ev_Type := EventTypeMMInvitedToBGOrArena; ev_Payload := PMatchmaking payload |}.
Definition NewMatchmakingInviteToBGOrArenaExpiredEvent (payload : mm_event) : M unit :=
  if negb (mm_RealmID payload =? RealmID) then mret tt
  else to_players (convertLowGUIDsToUint64 (PlayersGUID payload)) {| ev_Type := EventTypeMMInviteToBGOrArenaExpired; ev_Payload := PMatchmaking payload |}.
Definition NewFriendStatusChangeEvent (payload : friend_event) : M unit :=
  to_players (NotifyPlayers payload) {| ev_Type := EventTypeFriendStatusChange; ev_Payload := PFriend payload |}.
Definition NewFriendAddedEvent (payload : friend_event) : M unit :=
  to_player (friend_PlayerGUID payload) {| ev_Type := EventTypeFriendAdded; ev_Payload := PFriend payload |}.
Definition NewFriendRemovedEvent (payload : friend_event) : M unit :=
  to_player (friend_PlayerGUID payload) {| ev_Type := EventTypeFriendRemoved; ev_Payload := PFriend payload |}.
Definition NewFriendNoteUpdateEvent (payload : friend_event) : M unit :=
  to_player (friend_PlayerGUID payload) {| ev_Type := EventTypeFriendNoteUpdate; ev_Payload := PFriend payload |}.
Definition NewChannelMessageEvent (payload : ChannelMessagePayload) : M unit :=
  to_channel (cm_ChannelName payload) {| ev_Type := EventTypeChannelMessage; ev_Payload := PChannelMessage payload |}.
Definition NewChannelJoinedEvent (payload : ChannelJoinedPayload) : M unit :=
  to_channel (cj_ChannelName payload) {| ev_Type := EventTypeChannelJoined; ev_Payload := PChannelJoined payload |}.
Definition NewChannelLeftEvent (payload : ChannelLeftPayload) : M unit :=
  to_channel (cl_ChannelName payload) {| ev_Type := EventTypeChannelLeft; ev_Payload := PChannelLeft payload |}.
Definition NewChannelNotificationEvent (payload : ChannelNotificationPayload) : M unit :=
  if negb (cn_AffectsPlayer payload =? 0) then to_player (cn_AffectsPlayer payload) {| ev_Type := EventTypeChannelNotification; ev_Payload := PChannelNotification payload |}
  else to_channel (cn_ChannelName payload) {| ev_Type := EventTypeChannelNotification; ev_Payload := PChannelNotification payload |}.
End Broadcaster.

(** ** from the message bus to the broadcaster
    (apps/gateway/service/listener-*.go, shared/events/consumer-group.go)

    Each listener subscribes to the subjects of one service and calls the
    broadcaster for each event; a gateway gets every event of the bus.  The
    JSON text of a payload stands for its fields; those the services never set
    are zero. *)
(** ** Subscriptions *)
Inductive listen_err := ErrSubscribe | ErrUnsubscribe.
Record listener := { nc_active : list string; subs : list string }.
Abbreviation L A := (go listener Empty_set listen_err A).
Definition remove_one (x : string) (l : list string) : list string :=
  match list_find (eq x) l with Some (i, _) => delete i l | None => l end.
Fixpoint unsubscribe_loop (ss : list string) : L unit :=
  match ss with
  | [] => mret tt
  | sub :: ss =>
    ext ErrUnsubscribe ;;
    modify (fun l => {| nc_active := remove_one sub (nc_active l); subs := subs l |}) ;;
    unsubscribe_loop ss
  end.
Definition unsubscribe : L unit := ss ← gets subs; unsubscribe_loop ss.
(** [c.nc.Subscribe(subject, ...)] *)
Definition Subscribe (subject : string) : L unit :=
  ext ErrSubscribe ;;
  modify (fun l => {| nc_active := nc_active l ++ [subject]; subs := subs l |}).
Definition keep_sub (subject : string) : L unit := modify (fun l => {| nc_active := nc_active l; subs := subs l ++ [subject] |}).
(** On an error the earlier subscriptions are given up, and the error returned. *)
Definition rollback (m : L unit) : L unit := fun s =>
  match m s with
  | (Fail e, s) =>
    match log_err unsubscribe s with
    | (Ok _, s) => (Fail e, s)
    | (Fail e, s) => (Fail e, s)
    | (Panic, s) => (Panic, s)
    end
  | r => r
  end.
Definition newSubscribe (subject : string) : L unit := rollback (Subscribe subject) ;; keep_sub subject.
Fixpoint subscribe_all (subjects : list string) : L unit :=
  match subjects with
  | [] => mret tt
  | subject :: subjects => newSubscribe subject ;; subscribe_all subjects
  end.

Definition chat_subjects (lbID : string) : list string :=
  ["chat.gw." +:+ lbID +:+ ".income.whisper"; "chat.gw.ALL.channel.message"; "chat.gw.ALL.channel.joined"; "chat.gw.ALL.channel.left"; "chat.gw.ALL.channel.notify"].
Definition guild_subjects : list string :=
  ["guild.invite.created"; "guild.member.promoted"; "guild.member.demoted"; "guild.member.added"; "guild.member.left"; "guild.member.kicked";
   "guild.motd.updated"; "guild.rank.created"; "guild.rank.updated"; "guild.rank.deleted"; "guild.message.new"].
Definition group_subjects : list string :=
  ["group.invite.created"; "group.created"; "group.member.online.changed"; "group.member.left"; "group.disband"; "group.member.added";
   "group.leader.changed"; "group.loot.changed"; "group.converted.raid"; "group.message.new"; "group.targeticons.new"; "group.difficulty.changed"].
Definition friend_subjects : list string := ["friends.status.changed"; "friends.friend.added"; "friends.friend.removed"; "friends.note.updated"].
Definition chat_Listen (lbID : string) : L unit := subscribe_all (chat_subjects lbID).
Definition guild_Listen : L unit := subscribe_all guild_subjects.
Definition group_Listen : L unit := subscribe_all group_subjects.
Definition friends_Listen : L unit := subscribe_all friend_subjects.
Definition mail_Listen : L unit := Subscribe "mail.incoming" ;; keep_sub "mail.incoming".
(** The second subscription is neither undone nor kept. *)
Definition matchmaking_Listen : L unit :=
  newSubscribe "matchmaking.pvpqueue.joined" ;;
  Subscribe "matchmaking.pvpqueue.invited" ;;
  newSubscribe "matchmaking.pvpqueue.invite.expired".
Definition Stop : L unit := unsubscribe.

(** ** Events *)
Inductive bus_event := BusChat (e : chat_event) | BusGuild (e : guild_event) | BusGroup (e : group_event) | BusFriend (e : friend_event)
| BusMatchmaking (e : mm_event) | BusMail (e : mail_event).

Section Handlers.
Context `{MapRange}.
Variable RealmID : u32.
Variable lbID : string.
Abbreviation M A := (go broadcasterImpl Empty_set Empty_set A).

Definition on_chat (e : chat_event) : M unit :=
  match e with
  | IncomingWhisper _ senderGUID senderName senderRace receiverGUID receiverName language msg =>
    if bool_decide (chat_SubjectName e ∈ chat_subjects lbID) then
      NewIncomingWhisperEvent {| iw_SenderGUID := senderGUID; iw_SenderName := senderName; iw_SenderRace := senderRace; iw_ReceiverGUID := receiverGUID;
        iw_ReceiverName := receiverName; iw_Language := language; iw_Msg := msg |}
    else mret tt
  | ChannelMessageEv realmID name id senderGUID senderName language message =>
    NewChannelMessageEvent {| cm_RealmID := realmID; cm_ChannelName := name; cm_ChannelID := id; cm_SenderGUID := senderGUID; cm_SenderName := senderName;
      cm_Language := language; cm_Message := message |}
  | ChannelJoinedEv _ realmID name id playerGUID playerName playerFlags =>
    NewChannelJoinedEvent {| cj_RealmID := realmID; cj_ChannelName := name; cj_ChannelID := id; cj_PlayerGUID := playerGUID; cj_PlayerName := playerName;
      cj_PlayerFlags := playerFlags |}
  | ChannelLeftEv _ realmID name id playerGUID playerName =>
    NewChannelLeftEvent {| cl_RealmID := realmID; cl_ChannelName := name; cl_ChannelID := id; cl_PlayerGUID := playerGUID; cl_PlayerName := playerName |}
  | ChannelNotificationEv realmID name id notifyType targetGUID targetName secondGUID affectsPlayer =>
    NewChannelNotificationEvent {| cn_RealmID := realmID; cn_ChannelName := name; cn_ChannelID := id; cn_NotifyType := notifyType; cn_TargetGUID := targetGUID;
      cn_TargetName := targetName; cn_SecondGUID := secondGUID; cn_OldFlags := 0; cn_NewFlags := 0; cn_ExtraData := ""; cn_AffectsPlayer := affectsPlayer |}
  end.
(** Notes and the guild's information have no subscriber. *)
Definition on_guild (e : guild_event) : M unit :=
  match e with
  | Guilds.InviteCreated _ realmID guildID guildName inviterGUID inviterName inviteeGUID inviteeName =>
    NewGuildInviteCreatedEvent {| gi_RealmID := realmID; gi_GuildID := guildID; gi_GuildName := guildName; gi_InviterGUID := inviterGUID;
      gi_InviterName := inviterName; gi_InviteeGUID := inviteeGUID; gi_InviteeName := inviteeName |}
  | Guilds.MemberPromote _ _ _ _ _ _ _ => NewGuildMemberPromoteEvent e
  | Guilds.MemberDemote _ _ _ _ _ _ _ => NewGuildMemberDemoteEvent e
  | Guilds.MemberAdded _ _ _ => NewGuildMemberAddedEvent e
  | Guilds.MemberLeft _ _ _ => NewGuildMemberLeftEvent e
  | Guilds.MemberKicked _ _ _ _ _ => NewGuildMemberKickedEvent e
  | Guilds.MOTDUpdated _ _ => NewGuildMOTDUpdatedEvent e
  | Guilds.RankCreated _ _ _ _ => NewGuildRankCreatedEvent e
  | Guilds.RankUpdated _ _ _ _ _ _ => NewGuildRankUpdatedEvent e
  | Guilds.RankDeleted _ _ _ _ => NewGuildRankDeletedEvent e
  | Guilds.NewMessage _ _ _ _ _ _ _ _ _ => NewGuildMessageEvent e
  | Guilds.MemberNoteUpdated _ _ _ _ _ _ | Guilds.MemberOfficerNoteUpdated _ _ _ _ _ _ | Guilds.GuildInfoUpdated _ _ => mret tt
  end.
Definition on_group (e : group_event) : M unit :=
  match e with
  | Groups.InviteCreated _ _ _ _ _ _ _ => NewGroupInviteCreatedEvent e
  | Groups.GroupCreated _ _ _ _ _ _ _ _ _ _ _ _ => NewGroupCreatedEvent e
  | Groups.GroupMemberOnlineStatusChanged _ _ _ _ _ _ => NewGroupMemberOnlineStatusChangedEvent e
  | Groups.GroupMemberLeft _ _ _ _ _ _ _ => NewGroupMemberLeftEvent e
  | Groups.MemberAdded _ _ _ _ _ _ => NewGroupMemberAddedEvent e
  | Groups.LeaderChanged _ _ _ _ _ _ => NewGroupLeaderChangedEvent e
  | Groups.LootTypeChanged _ _ _ _ _ _ _ => NewGroupLootTypeChangedEvent e
  | Groups.ConvertedToRaid _ _ _ _ _ => NewGroupConvertedToRaidEvent e
  | Groups.GroupDisband _ _ _ _ => NewGroupDisbandEvent e
  | Groups.SendChatMessage _ _ _ _ _ _ _ _ _ => NewGroupMessageEvent e
  | Groups.TargetIconUpdated _ _ _ _ _ _ _ => NewGroupTargetIconEvent e
  | Groups.GroupDifficultyChanged _ _ _ _ _ _ _ => NewGroupDifficultyChangedEvent e
  end.
Definition on_friend (e : friend_event) : M unit :=
  match e with
  | FriendEventStatusChange _ _ _ _ _ _ _ => NewFriendStatusChangeEvent e
  | FriendEventAdded _ _ _ _ _ => NewFriendAddedEvent e
  | FriendEventRemoved _ _ _ => NewFriendRemovedEvent e
  | FriendEventNoteUpdate _ _ _ _ => NewFriendNoteUpdateEvent e
  | CharEventCharsDisconnectedUnhealthyGW _ _ _ => mret tt
  end.
Definition on_matchmaking (e : mm_event) : M unit :=
  match e with
  | PlayersQueued _ _ _ _ _ _ => NewMatchmakingJoinedPVPQueueEvent RealmID e
  | PlayersInvited _ _ _ _ _ _ _ _ => NewMatchmakingInvitedToBGOrArenaEvent RealmID e
  | PlayersInviteExpired _ _ _ => NewMatchmakingInviteToBGOrArenaExpiredEvent RealmID e
  end.
Definition on_mail (e : mail_event) : M unit := NewIncomingMailEvent e.
Definition on_bus (e : bus_event) : M unit :=
  match e with
  | BusChat e => on_chat e
  | BusGuild e => on_guild e
  | BusGroup e => on_group e
  | BusFriend e => on_friend e
  | BusMatchmaking e => on_matchmaking e
  | BusMail e => on_mail e
  end.
End Handlers.
