(* ===== verification/BroadcasterFacts.v ===== *)
(** * BroadcasterFacts: who gets which event

    An event of the bus is put once into the channel of each registered
    receiver that has room, or into the stream of each member of its chat
    channel, and nowhere else; and what the listeners hold after an error. *)
From S2P Require Import Prelude GoRuntime GoStrings Guilds Groups Battleground Friends MailRepo ChannelsRepo ChatStreams Broadcaster.

Section Facts.
Context `{MapRange}.
Abbreviation run_state := (sys broadcasterImpl Empty_set).
Implicit Types b : broadcasterImpl.

Definition heap b := chans (chatChannelsService b).
(** The channel a character registered. *)
Definition registered b (g : u64) : option (chan Event) := channels b !! g ≫= fun l => heap b !! l.
Record broadcaster_ok b : Prop := {
  bo_chat : consistent (chatChannelsService b);
  bo_open : forall g l, channels b !! g = Some l -> (l < next_chan (chatChannelsService b))%nat /\ exists c, heap b !! l = Some c /\ closed c = false /\ cap c = 100%nat;
  bo_inj : forall g g' l, channels b !! g = Some l -> channels b !! g' = Some l -> g = g';
  bo_apart : forall g g' l, channels b !! g = Some l -> streams (chatChannelsService b) !! g' <> Some l
}.
(** Only the contents of channels may differ. *)
Definition same_broker b b' : Prop :=
  channels b' = channels b /\ repo (chatChannelsService b') = repo (chatChannelsService b) /\ streams (chatChannelsService b') = streams (chatChannelsService b).

Lemma send_registered (s : run_state) g l ev : broadcaster_ok (st s) -> channels (st s) !! g = Some l ->
  exists s', sendOrDrop l ev s = (Ok tt, s') /\ broadcaster_ok (st s') /\ same_broker (st s) (st s') /\
    (forall g', registered (st s') g' = if decide (g = g') then offer ev <$> registered (st s) g' else registered (st s) g') /\
    (forall g', stream (chatChannelsService (st s')) g' = stream (chatChannelsService (st s)) g').
Proof.
  intros [H1 H2 H3 H4] Hl. destruct (H2 g l Hl) as (Hlt & c & Hc & Hopen & Hcap). unfold sendOrDrop, with_chat, zoom.
  set (s2 := Sys (set_chat (set_chans (<[l := offer ev c]> (heap (st s))) (chatChannelsService (st s))) (st s)) (faults s) (events s)).
  assert (Hrun : try_send l ev (Sys (chatChannelsService (st s)) (faults s) (events s)) =
    (Ok tt, Sys (set_chans (<[l := offer ev c]> (heap (st s))) (chatChannelsService (st s))) (faults s) (events s))).
  { unfold try_send. erewrite bind_run by reflexivity. cbn [st]. change (chans (chatChannelsService (st s))) with (heap (st s)). by rewrite Hc, Hopen. }
  assert (Hstream : forall g', stream (chatChannelsService (st s2)) g' = stream (chatChannelsService (st s)) g').
  { intros g'. unfold stream. cbn. destruct (streams (chatChannelsService (st s)) !! g') as [l'|] eqn:Hl'; [|done]. cbn. apply lookup_insert_ne.
    intros <-. by apply (H4 g g' l). }
  exists s2. rewrite Hrun. split; [done|]. split; [|split; [done|split; [|done]]].
  - split; [|intros g' l' Hl'; destruct (H2 g' l' Hl') as (? & c' & ? & ? & ?); split; [done|]|done|done].
    + apply set_chans_consistent; [done|]. intros g' c' Hc'. exists c'. split; [|done]. rewrite <- Hc'. apply Hstream.
    + cbn. destruct (decide (l = l')) as [<-|]; [rewrite lookup_insert_eq; exists (offer ev c); split; [done|]; unfold offer; by destruct (_ <? _)%nat|].
      rewrite lookup_insert_ne by done. by exists c'.
  - intros g'. unfold registered. cbn. case_decide as Hg; [subst; rewrite Hl; cbn; by rewrite lookup_insert_eq, Hc|].
    destruct (channels (st s) !! g') as [l'|] eqn:Hl'; [|done]. cbn. apply lookup_insert_ne. intros <-. apply Hg. by apply (H3 g g' l).
Qed.

(** How often a character is named. *)
Definition times (gs : list u64) (g : u64) : nat := count_occ Z.eq_dec gs g.
Definition offers (n : nat) (ev : Event) (c : chan Event) : chan Event := Nat.iter n (offer ev) c.
Lemma offers_S n ev c : offers n ev (offer ev c) = offers (S n) ev c.
Proof. unfold offers. by rewrite Nat.iter_succ_r. Qed.
Lemma offers_all n ev (o : option (chan Event)) : offers n ev <$> (offer ev <$> o) = offers (S n) ev <$> o.
Proof. destruct o; [|done]. cbn [fmap option_fmap option_map]. by rewrite offers_S. Qed.

Lemma send_each_run gs : forall (s : run_state) ev, broadcaster_ok (st s) ->
  exists s', send_each (omap (fun g => channels (st s) !! g) gs) ev s = (Ok tt, s') /\ broadcaster_ok (st s') /\ same_broker (st s) (st s') /\
    (forall g, registered (st s') g = offers (times gs g) ev <$> registered (st s) g) /\
    (forall g, stream (chatChannelsService (st s')) g = stream (chatChannelsService (st s)) g).
Proof.
  induction gs as [|g gs IH]; intros s ev Hs.
  - exists s. split; [done|]. split; [done|]. split; [done|]. split; [|done]. intros g. by destruct (registered (st s) g).
  - cbn [omap list_omap]. destruct (channels (st s) !! g) as [l|] eqn:Hl.
    + destruct (send_registered s g l ev Hs Hl) as (s1 & Hrun & Hs1 & (Hc & Hr & Ht) & Hreg & Hstr).
      destruct (IH s1 ev Hs1) as (s2 & Hrun2 & Hs2 & (Hc2 & Hr2 & Ht2) & Hreg2 & Hstr2). rewrite Hc in Hrun2. exists s2.
      split; [|split; [done|split; [split; [congruence|split; congruence]|split; [|intros g'; by rewrite Hstr2]]]].
      * cbn [send_each]. erewrite bind_run by exact Hrun. exact Hrun2.
      * intros g'. rewrite Hreg2, Hreg. unfold times. cbn [count_occ]. case_decide as Hg.
        -- subst. destruct (Z.eq_dec g' g'); [|done]. apply offers_all.
        -- by destruct (Z.eq_dec g g').
    + destruct (IH s ev Hs) as (s2 & Hrun2 & Hs2 & Hsame & Hreg2 & Hstr2). exists s2. split; [exact Hrun2|]. split; [done|]. split; [done|]. split; [|done].
      intros g'. rewrite Hreg2. unfold times. cbn [count_occ]. destruct (Z.eq_dec g g') as [<-|]; [|done]. unfold registered. by rewrite Hl.
Qed.

(** ** Where an event goes *)
Inductive target := ToPlayers (gs : list u64) | ToMembers (name : string) | ToNobody.
Definition reached (t : target) (ev : Event) (b b' : broadcasterImpl) : Prop :=
  (forall g, registered b' g = match t with ToPlayers gs => offers (times gs g) ev <$> registered b g | _ => registered b g end) /\
  (forall g, stream (chatChannelsService b') g =
     match t with
     | ToMembers n => if decide (member (chatChannelsService b) (ToLower n) g = Some tt) then offer ev <$> stream (chatChannelsService b) g
                      else stream (chatChannelsService b) g
     | _ => stream (chatChannelsService b) g
     end).
Definition delivers (m : go broadcasterImpl Empty_set Empty_set unit) (t : target) (ev : Event) : Prop :=
  forall s, broadcaster_ok (st s) -> exists s', m s = (Ok tt, s') /\ broadcaster_ok (st s') /\ same_broker (st s) (st s') /\ reached t ev (st s) (st s').

Lemma to_players_delivers gs ev : delivers (to_players gs ev) (ToPlayers gs) ev.
Proof.
  intros s Hs. destruct (send_each_run gs s ev Hs) as (s' & Hrun & Hs' & Hsame & Hreg & Hstr). exists s'. unfold to_players, channelsForGUIDs.
  erewrite bind_run by reflexivity. split; [exact Hrun|]. done.
Qed.
Lemma to_player_delivers g ev : delivers (to_player g ev) (ToPlayers [g]) ev.
Proof.
  intros s Hs. destruct (to_players_delivers [g] ev s Hs) as (s' & Hrun & Hrest). exists s'. split; [|exact Hrest]. rewrite <- Hrun.
  unfold to_player, to_players, channelsForGUIDs. unfold mbind at 1, go_bind at 1. cbn [gets]. unfold mbind, go_bind, gets, mret, go_ret. cbn [omap list_omap].
  destruct (channels (st s) !! g); [|done]. cbn [send_each]. unfold mbind, go_bind. by destruct (sendOrDrop n ev s) as [[[]|e|] s1].
Qed.
Lemma to_channel_delivers n ev : delivers (to_channel n ev) (ToMembers n) ev.
Proof.
  intros s Hs. pose proof Hs as [H1 H2 H3 H4]. unfold to_channel, with_chat, zoom, BroadcastToChannel, repo_Get.
  set (c := chatChannelsService (st s)) in *. erewrite bind_run by reflexivity. cbn [st].
  destruct (repo c !! ToLower n) as [m|] eqn:Hm.
  - destruct (broadcast_run (Members m) (Sys c (faults s) (events s)) ev H1) as (cs & Hrun & Hstr & Hrest); [apply go_range_fst_NoDup|].
    cbn [st faults events] in *. rewrite Hrun. eexists. split; [reflexivity|].
    assert (Hsame : forall g l, channels (st s) !! g = Some l -> cs !! l = heap (st s) !! l).
    { intros g l Hl. apply Hrest. intros g' _. by apply (H4 g g' l). }
    split; [split|split; [done|split]].
    + apply set_chans_consistent; [done|]. intros g c' Hc'. rewrite Hstr, Hc'. destruct (decide _); cbn; eexists; (split; [reflexivity|]); [apply offer_closed|done].
    + intros g l Hl. cbn in Hl. destruct (H2 g l Hl) as (Hlt & c' & Hc' & Hx). split; [done|]. exists c'. split; [|done]. cbn. by rewrite (Hsame g l).
    + exact H3.
    + exact H4.
    + intros g. unfold registered. cbn. destruct (channels (st s) !! g) as [l|] eqn:Hl; [|done]. cbn. by apply (Hsame g).
    + intros g. cbn [st chatChannelsService set_chat]. rewrite Hstr. unfold member. fold c. rewrite Hm. cbn.
      destruct (decide (g ∈ Members m)) as [Hg|Hg]; rewrite elem_of_Members in Hg; [by rewrite decide_True|by rewrite decide_False].
  - exists s. split; [by destruct s as [[] ? ?]|]. split; [done|]. split; [done|]. split; [done|]. intros g. rewrite decide_False; [done|].
    unfold member. fold c. by rewrite Hm.
Qed.
Lemma nobody_delivers ev : delivers (mret tt) ToNobody ev.
Proof. intros s Hs. by exists s. Qed.

Variable RealmID : u32.
Variable lbID : string.
(** The receivers of an event, by what it says. *)
Definition receivers (e : bus_event) : target :=
  match e with
  | BusChat (IncomingWhisper gateway _ _ _ receiver _ _ _) => if decide ("chat.gw." +:+ gateway +:+ ".income.whisper" ∈ chat_subjects lbID) then ToPlayers [receiver] else ToNobody
  | BusChat (ChannelMessageEv _ name _ _ _ _ _) | BusChat (ChannelJoinedEv _ _ name _ _ _ _) | BusChat (ChannelLeftEv _ _ name _ _ _) => ToMembers name
  | BusChat (ChannelNotificationEv _ name _ _ _ _ _ affected) => if decide (affected = 0) then ToMembers name else ToPlayers [affected]
  | BusGuild (Guilds.InviteCreated _ _ _ _ _ _ invitee _) => ToPlayers [invitee]
  | BusGuild (Guilds.NewMessage _ _ _ _ _ _ _ _ receivers) => ToPlayers receivers
  | BusGuild (Guilds.MemberNoteUpdated _ _ _ _ _ _) | BusGuild (Guilds.MemberOfficerNoteUpdated _ _ _ _ _ _) | BusGuild (Guilds.GuildInfoUpdated _ _) => ToNobody
  | BusGuild e => ToPlayers (MembersOnline e)
  | BusGroup (Groups.InviteCreated _ _ _ _ _ invitee _) => ToPlayers [invitee]
  | BusGroup (Groups.GroupCreated _ _ _ _ _ _ _ _ _ _ _ members) => ToPlayers (em_MemberGUID <$> members)
  | BusGroup (Groups.SendChatMessage _ _ _ _ _ _ _ _ receivers) | BusGroup (Groups.TargetIconUpdated _ _ _ _ _ _ receivers)
  | BusGroup (Groups.GroupDifficultyChanged _ _ _ _ _ _ receivers) => ToPlayers receivers
  | BusGroup e => ToPlayers (OnlineMembers e)
  | BusFriend (FriendEventStatusChange _ _ _ _ _ _ friends) => ToPlayers friends
  | BusFriend (FriendEventAdded _ player _ _ _) | BusFriend (FriendEventRemoved _ player _) | BusFriend (FriendEventNoteUpdate _ player _ _) => ToPlayers [player]
  | BusFriend (CharEventCharsDisconnectedUnhealthyGW _ _ _) => ToNobody
  | BusMatchmaking e => if decide (mm_RealmID e = RealmID) then ToPlayers (PlayersGUID e) else ToNobody
  | BusMail (MailEventIncomingMail _ _ receiver _ _) => ToPlayers [receiver]
  end.
(** The event that is delivered. *)
Definition event_type (e : bus_event) : EventType :=
  match e with
  | BusChat (IncomingWhisper _ _ _ _ _ _ _ _) => EventTypeIncomingWhisper
  | BusChat (ChannelMessageEv _ _ _ _ _ _ _) => EventTypeChannelMessage
  | BusChat (ChannelJoinedEv _ _ _ _ _ _ _) => EventTypeChannelJoined
  | BusChat (ChannelLeftEv _ _ _ _ _ _) => EventTypeChannelLeft
  | BusChat (ChannelNotificationEv _ _ _ _ _ _ _ _) => EventTypeChannelNotification
  | BusGuild (Guilds.InviteCreated _ _ _ _ _ _ _ _) => EventTypeGuildInviteCreated
  | BusGuild (Guilds.MemberPromote _ _ _ _ _ _ _) => EventTypeGuildMemberPromoted
  | BusGuild (Guilds.MemberDemote _ _ _ _ _ _ _) => EventTypeGuildMemberDemoted
  | BusGuild (Guilds.MemberAdded _ _ _) => EventTypeGuildMemberAdded
  | BusGuild (Guilds.MemberLeft _ _ _) => EventTypeGuildMemberLeft
  | BusGuild (Guilds.MemberKicked _ _ _ _ _) => EventTypeGuildMemberKicked
  | BusGuild (Guilds.RankCreated _ _ _ _) => EventTypeGuildRankCreated
  | BusGuild (Guilds.RankUpdated _ _ _ _ _ _) => EventTypeGuildRankUpdated
  | BusGuild (Guilds.RankDeleted _ _ _ _) => EventTypeGuildRankDeleted
  | BusGuild (Guilds.NewMessage _ _ _ _ _ _ _ _ _) => EventTypeGuildNewMessage
  | BusGuild _ => EventTypeGuildMOTDUpdated
  | BusGroup (Groups.InviteCreated _ _ _ _ _ _ _) => EventTypeGroupInviteCreated
  | BusGroup (Groups.GroupCreated _ _ _ _ _ _ _ _ _ _ _ _) => EventTypeGroupCreated
  | BusGroup (Groups.GroupMemberOnlineStatusChanged _ _ _ _ _ _) => EventTypeGroupMemberOnlineStatusChanged
  | BusGroup (Groups.GroupMemberLeft _ _ _ _ _ _ _) => EventTypeGroupMemberLeft
  | BusGroup (Groups.MemberAdded _ _ _ _ _ _) => EventTypeGroupMemberAdded
  | BusGroup (Groups.LeaderChanged _ _ _ _ _ _) => EventTypeGroupLeaderChanged
  | BusGroup (Groups.LootTypeChanged _ _ _ _ _ _ _) => EventTypeGroupLootTypeChanged
  | BusGroup (Groups.ConvertedToRaid _ _ _ _ _) => EventTypeGroupConvertedToRaid
  | BusGroup (Groups.GroupDisband _ _ _ _) => EventTypeGroupDisband
  | BusGroup (Groups.SendChatMessage _ _ _ _ _ _ _ _ _) => EventTypeGroupNewMessage
  | BusGroup (Groups.TargetIconUpdated _ _ _ _ _ _ _) => EventTypeGroupNewTargetIcon
  | BusGroup (Groups.GroupDifficultyChanged _ _ _ _ _ _ _) => EventTypeGroupDifficultyChanged
  | BusFriend (FriendEventAdded _ _ _ _ _) => EventTypeFriendAdded
  | BusFriend (FriendEventRemoved _ _ _) => EventTypeFriendRemoved
  | BusFriend (FriendEventNoteUpdate _ _ _ _) => EventTypeFriendNoteUpdate
  | BusFriend _ => EventTypeFriendStatusChange
  | BusMatchmaking (PlayersQueued _ _ _ _ _ _) => EventTypeMMJoinedPVPQueue
  | BusMatchmaking (PlayersInvited _ _ _ _ _ _ _ _) => EventTypeMMInvitedToBGOrArena
  | BusMatchmaking (PlayersInviteExpired _ _ _) => EventTypeMMInviteToBGOrArenaExpired
  | BusMail _ => EventTypeIncomingMail
  end.
(** What the payload of a delivered event has to say. *)
Definition carries (p : Payload) (e : bus_event) : Prop :=
  match e with
  | BusChat (IncomingWhisper _ sender senderName race receiver receiverName language msg) =>
    p = PWhisper (Build_IncomingWhisperPayload sender senderName race receiver receiverName language msg)
  | BusChat (ChannelMessageEv realm name id sender senderName language message) =>
    p = PChannelMessage (Build_ChannelMessagePayload realm name id sender senderName language message)
  | BusChat (ChannelJoinedEv _ realm name id player playerName flags) => p = PChannelJoined (Build_ChannelJoinedPayload realm name id player playerName flags)
  | BusChat (ChannelLeftEv _ realm name id player playerName) => p = PChannelLeft (Build_ChannelLeftPayload realm name id player playerName)
  | BusChat (ChannelNotificationEv realm name id kind target targetName second affected) =>
    p = PChannelNotification (Build_ChannelNotificationPayload realm name id kind target targetName second 0 0 "" affected)
  | BusGuild (Guilds.InviteCreated _ realm guild guildName inviter inviterName invitee inviteeName) =>
    p = PGuildInvite (Build_GuildInviteCreatedPayload realm guild guildName inviter inviterName invitee inviteeName)
  | BusGuild e => p = PGuild e
  | BusGroup e => p = PGroup e
  | BusFriend e => p = PFriend e
  | BusMatchmaking e => p = PMatchmaking e
  | BusMail e => p = PMail e
  end.
Lemma on_bus_delivers e ev : ev_Type ev = event_type e -> carries (ev_Payload ev) e -> delivers (on_bus RealmID lbID e) (receivers e) ev.
Proof.
  destruct ev as [ty pl]. cbn [ev_Type ev_Payload]. intros -> Hp.
  destruct e as [e|e|e|e|e|e]; destruct e; cbn [carries] in Hp; subst pl; cbn [on_bus on_chat on_guild on_group on_friend on_matchmaking on_mail receivers event_type];
    unfold NewIncomingWhisperEvent, NewChannelMessageEvent, NewChannelJoinedEvent, NewChannelLeftEvent, NewChannelNotificationEvent, NewIncomingMailEvent,
      NewMatchmakingJoinedPVPQueueEvent, NewMatchmakingInvitedToBGOrArenaEvent, NewMatchmakingInviteToBGOrArenaExpiredEvent;
    try first [apply to_players_delivers | apply to_player_delivers | apply to_channel_delivers | apply nobody_delivers].
  - cbn [chat_SubjectName]. destruct (decide ("chat.gw." +:+ gateway +:+ ".income.whisper" ∈ chat_subjects lbID)) as [Hin|Hin].
    + rewrite bool_decide_eq_true_2 by exact Hin. apply to_player_delivers.
    + rewrite bool_decide_eq_false_2 by exact Hin. apply nobody_delivers.
  - cbn [cn_AffectsPlayer]. destruct (Z.eqb_spec affectsPlayer 0) as [->|Hne]; cbn [negb].
    + rewrite decide_True by done. apply to_channel_delivers.
    + rewrite decide_False by done. apply to_player_delivers.
  - cbn [mm_RealmID]. destruct (Z.eqb_spec realmID RealmID) as [->|Hne]; cbn [negb];
      [rewrite decide_True by done; apply to_players_delivers|rewrite decide_False by done; apply nobody_delivers].
  - cbn [mm_RealmID]. destruct (Z.eqb_spec realmID RealmID) as [->|Hne]; cbn [negb];
      [rewrite decide_True by done; apply to_players_delivers|rewrite decide_False by done; apply nobody_delivers].
  - cbn [mm_RealmID]. destruct (Z.eqb_spec realmID RealmID) as [->|Hne]; cbn [negb];
      [rewrite decide_True by done; apply to_players_delivers|rewrite decide_False by done; apply nobody_delivers].
Qed.


(** A character that registers gets an empty channel of its own. *)
Lemma register_ok g (s : run_state) : broadcaster_ok (st s) -> exists l s', RegisterCharacter g s = (Ok l, s') /\ broadcaster_ok (st s') /\
  registered (st s') g = Some (Chan [] 100 false) /\ forall g', g <> g' -> registered (st s') g' = registered (st s) g'.
Proof.
  intros [H1 H2 H3 H4]. eexists _, _. split; [reflexivity|]. cbn [st]. set (b' := set_channels _ _).
  set (n := next_chan (chatChannelsService (st s))) in *.
  assert (Hc : forall g', channels b' !! g' = if decide (g = g') then Some n else channels (st s) !! g').
  { intros g'. cbn. case_decide as Hg; [subst; by rewrite lookup_insert_eq|by rewrite lookup_insert_ne]. }
  assert (Hh : forall l, heap b' !! l = if decide (n = l) then Some (Chan [] 100 false) else heap (st s) !! l).
  { intros l. cbn. case_decide as Hl; [subst; by rewrite lookup_insert_eq|by rewrite lookup_insert_ne]. }
  assert (Hst : forall g', stream (chatChannelsService b') g' = stream (chatChannelsService (st s)) g').
  { intros g'. unfold stream. cbn. destruct (streams (chatChannelsService (st s)) !! g') as [l|] eqn:Hl; [|done]. cbn.
    destruct (co_open _ H1 g' l Hl) as [Hlt _]. rewrite lookup_insert_ne; [done|]. fold n in Hlt. lia. }
  split; [split|split].
  - destruct H1 as [I1 I2 I3 I4 I5]. split; try done. intros g' l Hl. destruct (I4 g' l Hl) as (Hlt & c & Hcl & Hx). split; [cbn; lia|].
    exists c. split; [|done]. cbn. rewrite lookup_insert_ne; [done|]. fold n in Hlt. lia.
  - intros g' l. rewrite Hc, Hh. change (next_chan (chatChannelsService b')) with (S n). case_decide as Hg.
    + intros [= <-]. split; [lia|]. rewrite decide_True by done. by eexists.
    + intros Hl. destruct (H2 g' l Hl) as [Hlt Hx]. split; [lia|]. by rewrite decide_False by lia.
  - intros g1 g2 l. rewrite !Hc. do 2 case_decide; try congruence; [intros [= <-] Hl|intros Hl [= <-]|apply H3]; destruct (H2 _ _ Hl); lia.
  - intros g1 g2 l. rewrite Hc. change (streams (chatChannelsService b')) with (streams (chatChannelsService (st s))). case_decide; [|apply H4].
    intros [= <-] Hl. destruct (co_open _ H1 g2 n Hl). lia.
  - unfold registered. rewrite Hc, decide_True by done. cbn [mbind option_bind]. by rewrite Hh, decide_True.
  - intros g' Hg. unfold registered. rewrite Hc, decide_False by done. destruct (channels (st s) !! g') as [l|] eqn:Hl; [|done]. cbn [mbind option_bind].
    destruct (H2 g' l Hl). rewrite Hh. by rewrite decide_False by lia.
Qed.
Lemma unregister_ok g (s : run_state) : broadcaster_ok (st s) -> exists s', UnregisterCharacter g s = (Ok tt, s') /\ broadcaster_ok (st s') /\
  registered (st s') g = None /\ forall g', g <> g' -> registered (st s') g' = registered (st s) g'.
Proof.
  intros [H1 H2 H3 H4]. eexists. split; [reflexivity|]. cbn [st]. split; [split|split].
  - exact H1.
  - intros g' l. cbn. intros [_ Hl]%lookup_delete_Some. by apply H2 in Hl.
  - intros g1 g2 l. cbn. intros [_ Hl1]%lookup_delete_Some [_ Hl2]%lookup_delete_Some. by apply (H3 g1 g2 l).
  - intros g1 g2 l. cbn. intros [_ Hl1]%lookup_delete_Some. by apply (H4 g1).
  - unfold registered. cbn. by rewrite lookup_delete_eq.
  - intros g' Hg. unfold registered. cbn. by rewrite lookup_delete_ne.
Qed.
Lemma new_broadcaster_ok : broadcaster_ok (NewBroadcaster NewChatChannelsService).
Proof. split; try done. apply (im_ok _ _ new_implements). Qed.
End Facts.

(** ** Runs *)
#[local] Existing Instance map_range_canonical.
Definition guild_message : guild_event := Guilds.NewMessage "g" 1 7 3 "Bob" 0 "hi" false [10; 11; 12].
Definition two_players : sys broadcasterImpl Empty_set :=
  ((RegisterCharacter 10 ;; RegisterCharacter 12) (Sys (NewBroadcaster NewChatChannelsService) [] [])).2.
Lemma two_players_ok : broadcaster_ok (st two_players).
Proof.
  unfold two_players. destruct (register_ok 10 (Sys (NewBroadcaster NewChatChannelsService) [] []) new_broadcaster_ok) as (l & s1 & Hrun & Hok & _).
  erewrite bind_run by exact Hrun. destruct (register_ok 12 s1 Hok) as (l2 & s2 & Hrun2 & Hok2 & _). by rewrite Hrun2.
Qed.
(** A character that logs in again before its first session has ended: the end
    of the first session takes the channel of the second one away. *)
Example second_login_deaf :
  let s := ((RegisterCharacter 10 ;; RegisterCharacter 10 ;; UnregisterCharacter 10) (Sys (NewBroadcaster NewChatChannelsService) [] [])).2 in
  registered (st s) 10 = None.
Proof. vm_compute. reflexivity. Qed.
(** Guild events of another realm reach the character with the same guid. *)
Example realms_mixed_up :
  let s := (on_bus 1 "gw" (BusGuild (Guilds.NewMessage "g" 2 7 3 "Eve" 0 "hi" false [10])) two_players).2 in
  (length ∘ buf) <$> registered (st s) 10 = Some 1%nat.
Proof. vm_compute. reflexivity. Qed.
(** A broadcast that looked a stream up before its player disconnected sends on
    a closed channel. *)
Example closed_stream_panics :
  let run := (l ← AddPlayerToChannel 10 "world"; found ← stream_Get 10; DisconnectPlayer 10 ;; match found with Some l => try_send l 1 | None => mret tt end) in
  (run (Sys (NewChatChannelsService (E:=Z)) [] [])).1 = Panic.
Proof. vm_compute. reflexivity. Qed.

(** ** Listeners *)

(** The subscriptions of a listener, when its [k]th call to the bus fails. *)
Lemma subscribe_all_ok subjects : forall k (s : sys listener Empty_set), faults s = replicate k false ++ [true] -> (length subjects <= k)%nat ->
  subscribe_all subjects s = (Ok tt, Sys {| nc_active := nc_active (st s) ++ subjects; subs := subs (st s) ++ subjects |} (drop (length subjects) (faults s)) (events s)).
Proof.
  induction subjects as [|x subjects IH]; intros k s Hf Hk.
  - cbn. rewrite !app_nil_r. by destruct s as [[] ? ?].
  - destruct k as [|k]; [cbn in Hk; lia|]. cbn [subscribe_all].
    assert (Hrun : newSubscribe x s = (Ok tt, Sys {| nc_active := nc_active (st s) ++ [x]; subs := subs (st s) ++ [x] |} (replicate k false ++ [true]) (events s))).
    { unfold newSubscribe, rollback, Subscribe. unfold mbind, go_bind, ext. rewrite Hf. reflexivity. }
    erewrite bind_run by exact Hrun. rewrite (IH k); [|done|cbn in Hk; lia]. cbn [st faults events nc_active subs]. rewrite Hf. cbn. by rewrite <- !app_assoc.
Qed.
Lemma unsubscribe_run ss : forall kept e, unsubscribe_loop ss (Sys {| nc_active := ss; subs := kept |} [] e) = (Ok tt, Sys {| nc_active := []; subs := kept |} [] e).
Proof.
  induction ss as [|x ss IH]; intros kept e; [done|]. cbn [unsubscribe_loop]. erewrite bind_run by reflexivity. erewrite bind_run by reflexivity.
  cbn [st nc_active subs faults events]. assert (remove_one x (x :: ss) = ss) as ->; [|apply IH].
  unfold remove_one. cbn [list_find]. by rewrite decide_True.
Qed.
Lemma subscribe_all_fail subjects : forall k pre e, (k < length subjects)%nat ->
  subscribe_all subjects (Sys {| nc_active := pre; subs := pre |} (replicate k false ++ [true]) e) =
  (Fail ErrSubscribe, Sys {| nc_active := []; subs := pre ++ take k subjects |} [] e).
Proof.
  induction subjects as [|x subjects IH]; intros k pre e Hk; [cbn in Hk; lia|]. cbn [subscribe_all]. destruct k as [|k].
  - cbn [replicate app take]. unfold newSubscribe, rollback, Subscribe, log_err, unsubscribe. unfold mbind, go_bind, ext. cbn [faults st events nc_active subs gets].
    rewrite unsubscribe_run. cbn. by rewrite app_nil_r.
  - assert (Hrun : newSubscribe x (Sys {| nc_active := pre; subs := pre |} (replicate (S k) false ++ [true]) e) =
      (Ok tt, Sys {| nc_active := pre ++ [x]; subs := pre ++ [x] |} (replicate k false ++ [true]) e)) by reflexivity.
    erewrite bind_run by exact Hrun. rewrite IH by (cbn in Hk; lia). cbn. by rewrite <- app_assoc.
Qed.
(** A listener has all of its subscriptions, or an error and none. *)
Lemma listen_all_or_nothing lbID k m subjects :
  (m, subjects) ∈ [(chat_Listen lbID, chat_subjects lbID); (guild_Listen, guild_subjects); (group_Listen, group_subjects); (friends_Listen, friend_subjects)] ->
  let r := m (Sys {| nc_active := []; subs := [] |} (replicate k false ++ [true]) []) in
  if (k <? length subjects)%nat then r.1 = Fail ErrSubscribe /\ nc_active (st r.2) = [] else r.1 = Ok tt /\ nc_active (st r.2) = subjects.
Proof.
  intros Hm. assert (m = subscribe_all subjects) as -> by (repeat (apply elem_of_cons in Hm as [[=]|Hm]; [by subst|]); by apply elem_of_nil in Hm).
  cbv zeta. destruct (Nat.ltb_spec k (length subjects)) as [Hk|Hk].
  - by rewrite subscribe_all_fail.
  - by rewrite (subscribe_all_ok subjects k).
Qed.
(** The matchmaking listener keeps subscriptions after an error, and loses the
    second one even when it stops. *)
Example matchmaking_leaks :
  nc_active (st (matchmaking_Listen (Sys {| nc_active := []; subs := [] |} [false; true] [])).2) = ["matchmaking.pvpqueue.joined"] /\
  nc_active (st ((matchmaking_Listen ;; Stop) (Sys {| nc_active := []; subs := [] |} [] [])).2) = ["matchmaking.pvpqueue.invited"].
Proof. vm_compute. done. Qed.
