(* ===== verification/UpdatesBarrier.v ===== *)
(** * UpdatesBarrier: updates of characters, collected and sent in packs
    (apps/gateway/service/characters-updates-barrier.go, realmnames.go,
    repo/realmnames_mysql.go, shared/events/producer-gateway.go)

    Sessions put updates into a channel; the barrier merges them by character
    and publishes them at every tick.  The character server that handles the
    packs gets to the same characters as if it had every single update. *)
From S2P Require Import Prelude GoRuntime OnlineCharacters.

Inductive barrier_err := ErrPublish | ErrBlocked | ErrRealmDB | ErrRealmNotFound.
Record barrier := { updsChan : list CharacterUpdate; buffer : gmap u64 CharacterUpdate }.
Definition NewCharactersUpdatesBarrier : barrier := {| updsChan := []; buffer := ∅ |}.

Definition mergeCharUpdates (oldCharUpd newCharUpd : CharacterUpdate) : CharacterUpdate :=
  {| u_ID := u_ID oldCharUpd;
     u_Lvl := match u_Lvl newCharUpd with Some x => Some x | None => u_Lvl oldCharUpd end;
     u_Map := match u_Map newCharUpd with Some x => Some x | None => u_Map oldCharUpd end;
     u_Area := match u_Area newCharUpd with Some x => Some x | None => u_Area oldCharUpd end;
     u_Zone := match u_Zone newCharUpd with Some x => Some x | None => u_Zone oldCharUpd end |}.

Section Barrier.
Context `{MapRange}.
(** Of the producer. *)
Variables (RealmID : u32) (ID : string).
Abbreviation M A := (go barrier CharactersUpdatesPayload barrier_err A).

(** A full channel makes the session wait. *)
Definition push (u : CharacterUpdate) : M unit :=
  q ← gets updsChan;
  guard_err (negb (length q <? Z.to_nat 1000)%nat) ErrBlocked ;;
  modify (fun b => {| updsChan := updsChan b ++ [u]; buffer := buffer b |}).
Definition UpdateLevel (charGUID : u64) (lvl : u8) : M unit :=
  push {| u_ID := charGUID; u_Lvl := Some lvl; u_Map := None; u_Area := None; u_Zone := None |}.
Definition UpdateZone (charGUID : u64) (area zone : u32) : M unit :=
  push {| u_ID := charGUID; u_Lvl := None; u_Map := None; u_Area := Some area; u_Zone := Some zone |}.
Definition UpdateMap (charGUID : u64) (mapID : u32) : M unit :=
  push {| u_ID := charGUID; u_Lvl := None; u_Map := Some mapID; u_Area := None; u_Zone := None |}.

(** The producer fills in where the updates come from. *)
Definition CharactersUpdates (updates : list CharacterUpdate) : M unit :=
  publish ErrPublish {| us_RealmID := RealmID; us_GatewayID := ID; us_Updates := updates |}.
(** The loop over the collected updates: [pack] is the pack so far. *)
Fixpoint send_loop (bufferSize : nat) (i : nat) (pack : list CharacterUpdate) (upds : list CharacterUpdate) : M (list CharacterUpdate) :=
  match upds with
  | [] => mret pack
  | v :: upds =>
    let pack := pack ++ [v] in
    if (bufferSize <? i)%nat then CharactersUpdates pack ;; send_loop bufferSize 0 [] upds
    else send_loop bufferSize (S i) pack upds
  end.
Definition send (upds : gmap u64 CharacterUpdate) : M unit :=
  let bufferSize := if (size upds <? Z.to_nat 1000)%nat then size upds else Z.to_nat 1000 in
  pack ← send_loop bufferSize 0 [] (go_range 0 upds).*2;
  if (0 <? length pack)%nat then CharactersUpdates pack else mret tt.

(** The two cases of the loop of [Run]: a tick, and an update of the channel. *)
Definition on_tick : M unit :=
  b ← gets buffer;
  sent ← try_err (send b);
  match sent with
  | None => mret tt
  | Some _ => modify (fun b => {| updsChan := updsChan b; buffer := ∅ |})
  end.
Definition on_update : M unit :=
  q ← gets updsChan;
  match q with
  | [] => mret tt
  | u :: q =>
    modify (fun b =>
      let u := match buffer b !! u_ID u with Some oldUpd => mergeCharUpdates oldUpd u | None => u end in
      {| updsChan := q; buffer := <[u_ID u := u]> (buffer b) |})
  end.
Inductive barrier_op := Level (g : u64) (lvl : u8) | Zone (g : u64) (area zone : u32) | Map (g : u64) (m : u32) | Take | Tick.
Definition run_call (o : barrier_op) : M unit :=
  match o with
  | Level g lvl => UpdateLevel g lvl
  | Zone g area zone => UpdateZone g area zone
  | Map g m => UpdateMap g m
  | Take => on_update
  | Tick => on_tick
  end.
Fixpoint run_calls (os : list barrier_op) : M unit := match os with [] => mret tt | o :: os => run_call o ;; run_calls os end.
(** The update of a call, on its own. *)
Definition single (o : barrier_op) : option CharacterUpdate :=
  match o with
  | Level g lvl => Some {| u_ID := g; u_Lvl := Some lvl; u_Map := None; u_Area := None; u_Zone := None |}
  | Zone g area zone => Some {| u_ID := g; u_Lvl := None; u_Map := None; u_Area := Some area; u_Zone := Some zone |}
  | Map g m => Some {| u_ID := g; u_Lvl := None; u_Map := Some m; u_Area := None; u_Zone := None |}
  | _ => None
  end.

(** ** Effect on the characters *)
Abbreviation present := (gmap (u32 * u64) Character).
Abbreviation apply := (spec_update RealmID).
Definition apply_all (m : present) (us : list CharacterUpdate) : present := foldl apply m us.
Definition deliver (m : present) (ps : list CharactersUpdatesPayload) : present := foldl (fun m p => foldl (spec_update (us_RealmID p)) m (us_Updates p)) m ps.

Lemma applyCharUpdate_merge c u v : applyCharUpdate c (mergeCharUpdates u v) = applyCharUpdate (applyCharUpdate c u) v.
Proof. unfold applyCharUpdate, mergeCharUpdates. destruct v as [? [] [] [] []], u as [? [] [] [] []]; reflexivity. Qed.
Lemma applyCharUpdate_twice c u : applyCharUpdate (applyCharUpdate c u) u = applyCharUpdate c u.
Proof. unfold applyCharUpdate. destruct u as [? [] [] [] []]; reflexivity. Qed.

(** The effect on one character: the updates that name it, in order. *)
Definition upd_char (us : list CharacterUpdate) (g : u64) (c : Character) : Character := foldl (fun c u => if decide (u_ID u = g) then applyCharUpdate c u else c) c us.
Lemma lookup_apply_all us : forall m r g, apply_all m us !! (r, g) = (if decide (r = RealmID) then upd_char us g else id) <$> m !! (r, g).
Proof.
  induction us as [|u us IH]; intros m r g.
  - cbn. case_decide; by destruct (m !! (r, g)).
  - unfold apply_all in *. cbn [foldl]. rewrite IH. unfold spec_update, upd_char. cbn [foldl].
    destruct (decide (r = RealmID)) as [->|Hr].
    + destruct (decide (u_ID u = g)) as [<-|Hg]; [rewrite lookup_alter_eq; by destruct (m !! _)|].
      rewrite lookup_alter_ne by congruence. by destruct (m !! _).
    + by rewrite lookup_alter_ne by congruence.
Qed.
(** The collected updates, as one map of effects. *)
Definition pending (b : barrier) (g : u64) (c : Character) : Character :=
  upd_char (updsChan b) g (match buffer b !! g with Some u => applyCharUpdate c u | None => c end).
Definition keyed (b : gmap u64 CharacterUpdate) : Prop := forall g u, b !! g = Some u -> u_ID u = g.
(** The characters of [m], once what is pending has arrived, are those that
    every update since [m0] would have made. *)
Definition in_step (m0 m : present) (us : list CharacterUpdate) (b : barrier) : Prop :=
  keyed (buffer b) /\ forall r g, (if decide (r = RealmID) then pending b g else id) <$> m !! (r, g) = apply_all m0 us !! (r, g).

Lemma upd_char_app us vs g c : upd_char (us ++ vs) g c = upd_char vs g (upd_char us g c).
Proof. unfold upd_char. by rewrite foldl_app. Qed.
Lemma upd_char_cons u us g c : upd_char (u :: us) g c = upd_char us g (if decide (u_ID u = g) then applyCharUpdate c u else c).
Proof. done. Qed.
Lemma push_in_step m0 m us b u : in_step m0 m us b -> in_step m0 m (us ++ [u]) {| updsChan := updsChan b ++ [u]; buffer := buffer b |}.
Proof.
  intros [Hk Hm]. split; [done|]. intros r g. rewrite lookup_apply_all. specialize (Hm r g). rewrite lookup_apply_all in Hm.
  destruct (decide (r = RealmID)); [|done]. unfold pending in *. cbn [updsChan buffer]. destruct (m !! (r, g)) as [c|], (m0 !! (r, g)) as [c0|]; try done.
  cbn in *. injection Hm as Hm. by rewrite !upd_char_app, Hm.
Qed.
Lemma take_in_step m0 m us u q b : in_step m0 m us {| updsChan := u :: q; buffer := b |} ->
  let u' := match b !! u_ID u with Some oldUpd => mergeCharUpdates oldUpd u | None => u end in
  in_step m0 m us {| updsChan := q; buffer := <[u_ID u' := u']> b |}.
Proof.
  intros [Hk Hm] u'. assert (Hid : u_ID u' = u_ID u) by (subst u'; destruct (b !! u_ID u) as [v|] eqn:Hv; [exact (Hk _ _ Hv)|done]). split.
  - intros g v. cbn [buffer]. intros [[<- <-]|[_ Hv]]%lookup_insert_Some; [done|by apply Hk].
  - intros r g. rewrite <- Hm. destruct (decide (r = RealmID)); [|done]. destruct (m !! (r, g)) as [c|]; [|done]. cbn [fmap option_fmap option_map]. f_equal. unfold pending. cbn [updsChan buffer].
    rewrite Hid, upd_char_cons. destruct (decide (u_ID u = g)) as [<-|Hg]; [|by rewrite lookup_insert_ne].
    rewrite lookup_insert_eq. subst u'. destruct (b !! u_ID u); [by rewrite applyCharUpdate_merge|done].
Qed.

(** ** Packs *)
Lemma send_loop_run bufferSize us : forall i pack s, exists s' evs, (send_loop bufferSize i pack us s).2 = s' /\
  st s' = st s /\ events s' = events s ++ evs /\ Forall (fun p => us_RealmID p = RealmID) evs /\
  match (send_loop bufferSize i pack us s).1 with
  | Ok p => concat (us_Updates <$> evs) ++ p = pack ++ us
  | Fail _ => exists rest, concat (us_Updates <$> evs) ++ rest = pack ++ us
  | Panic => False
  end.
Proof.
  induction us as [|u us IH]; intros i pack s.
  - exists s, []. split; [done|]. split; [done|]. split; [by rewrite app_nil_r|]. split; [constructor|]. cbn. by rewrite app_nil_r.
  - cbn [send_loop]. destruct (bufferSize <? i)%nat.
    + assert (Hp : CharactersUpdates (pack ++ [u]) s = (Ok tt, Sys (st s) (tail (faults s)) (events s ++ [{| us_RealmID := RealmID; us_GatewayID := ID; us_Updates := pack ++ [u] |}])) \/
                   CharactersUpdates (pack ++ [u]) s = (Fail ErrPublish, Sys (st s) (tail (faults s)) (events s))).
      { unfold CharactersUpdates, publish, ext. destruct s as [b [|[] fs] es]; auto. }
      unfold mbind, go_bind. destruct Hp as [-> | ->].
      * destruct (IH 0%nat [] (Sys (st s) (tail (faults s)) (events s ++ [{| us_RealmID := RealmID; us_GatewayID := ID; us_Updates := pack ++ [u] |}])))
          as (s' & evs & Es & Hst & Hev & Hr & Hres).
        exists s', ({| us_RealmID := RealmID; us_GatewayID := ID; us_Updates := pack ++ [u] |} :: evs). split; [exact Es|]. split; [exact Hst|].
        split; [rewrite Hev; cbn [events]; by rewrite <- app_assoc|]. split; [by constructor|]. cbn [fmap list_fmap concat us_Updates].
        destruct (send_loop _ _ _ _ _).1 as [p|e|]; [|destruct Hres as [rest Hres]; exists rest|done]; by rewrite <- app_assoc, Hres, <- app_assoc.
      * exists (Sys (st s) (tail (faults s)) (events s)), []. split; [done|]. split; [done|]. split; [by rewrite app_nil_r|]. split; [constructor|].
        by exists (pack ++ u :: us).
    + destruct (IH (S i) (pack ++ [u]) s) as (s' & evs & Es & Hst & Hev & Hr & Hres). exists s', evs. split; [done|]. split; [done|]. split; [done|]. split; [done|].
      by rewrite <- app_assoc in Hres.
Qed.
Lemma send_run b s : exists s' evs, (send b s).2 = s' /\ st s' = st s /\ events s' = events s ++ evs /\ Forall (fun p => us_RealmID p = RealmID) evs /\
  match (send b s).1 with
  | Ok _ => concat (us_Updates <$> evs) = (go_range 0 b).*2
  | Fail _ => exists rest, concat (us_Updates <$> evs) ++ rest = (go_range 0 b).*2
  | Panic => False
  end.
Proof.
  unfold send. set (n := if (_ <? _)%nat then _ else _).
  destruct (send_loop_run n (go_range 0 b).*2 0 [] s) as (s1 & evs & Es & Hst & Hev & Hr & Hres). unfold mbind, go_bind.
  destruct (send_loop n 0 [] (go_range 0 b).*2 s) as [[p|e|] s1']; cbn [fst snd] in *; subst s1'; [| |done].
  - destruct p as [|u p].
    + exists s1, evs. rewrite app_nil_r in Hres. by repeat split.
    + cbn [length Nat.ltb Nat.leb]. unfold CharactersUpdates, publish, ext. destruct (faults s1) as [|[] fs]; cbn [fst snd st events].
      * eexists _, (evs ++ [_]). split; [reflexivity|]. split; [done|]. split; [rewrite app_assoc, <- Hev; reflexivity|]. split; [by apply Forall_app; split; [|constructor]|].
        rewrite fmap_app, concat_app. cbn. by rewrite app_nil_r.
      * eexists _, evs. split; [reflexivity|]. split; [done|]. split; [done|]. split; [done|]. by exists (u :: p).
      * eexists _, (evs ++ [_]). split; [reflexivity|]. split; [done|]. split; [rewrite app_assoc, <- Hev; reflexivity|]. split; [by apply Forall_app; split; [|constructor]|].
        rewrite fmap_app, concat_app. cbn. by rewrite app_nil_r.
  - exists s1, evs. by repeat split.
Qed.

(** Updates that are collected may arrive early, and again. *)
Lemma collected_again (b : gmap u64 CharacterUpdate) vs g c : (forall v, v ∈ vs -> b !! u_ID v = Some v) ->
  match b !! g with
  | Some u => applyCharUpdate (upd_char vs g c) u = applyCharUpdate c u
  | None => upd_char vs g c = c
  end.
Proof.
  revert c. induction vs as [|v vs IH]; intros c Hvs; [by destruct (b !! g)|]. unfold upd_char in *. cbn [foldl].
  specialize (IH (if decide (u_ID v = g) then applyCharUpdate c v else c) ltac:(intros v' Hv'; apply Hvs; by right)).
  destruct (b !! g) as [u|] eqn:Hg; rewrite IH; destruct (decide (u_ID v = g)) as [E|]; try done.
  - pose proof (Hvs v ltac:(left)) as Hv. rewrite E, Hg in Hv. injection Hv as ->. apply applyCharUpdate_twice.
  - pose proof (Hvs v ltac:(left)) as Hv. by rewrite E, Hg in Hv.
Qed.
Lemma collected_once (b : gmap u64 CharacterUpdate) vs g c u : (forall v, v ∈ vs -> b !! u_ID v = Some v) -> u ∈ vs -> u_ID u = g -> upd_char vs g c = applyCharUpdate c u.
Proof.
  intros Hvs Hu Hg. apply list_elem_of_split in Hu as (l1 & l2 & ->). rewrite upd_char_app. unfold upd_char at 1. cbn [foldl]. rewrite decide_True by done.
  fold (upd_char l2 g (applyCharUpdate (upd_char l1 g c) u)).
  assert (Hb : b !! g = Some u) by (rewrite <- Hg; apply Hvs; rewrite elem_of_app; right; left).
  pose proof (collected_again b l1 g c ltac:(intros v Hv; apply Hvs; rewrite elem_of_app; by left)) as H1. rewrite Hb in H1. rewrite H1.
  assert (Hall : forall l c, (forall v, v ∈ l -> b !! u_ID v = Some v) -> upd_char l g (applyCharUpdate c u) = applyCharUpdate c u).
  { induction l as [|v l IH]; intros c0 Hl; [done|]. unfold upd_char in *. cbn [foldl]. destruct (decide (u_ID v = g)) as [Ev|].
    - pose proof (Hl v ltac:(left)) as Hv. rewrite Ev, Hb in Hv. injection Hv as <-. rewrite applyCharUpdate_twice. apply IH. intros v Hv; apply Hl; by right.
    - apply IH. intros v' Hv'; apply Hl; by right. }
  apply Hall. intros v Hv. apply Hvs. rewrite elem_of_app. right. by right.
Qed.
Lemma elem_of_values (b : gmap u64 CharacterUpdate) v : keyed b -> v ∈ (go_range 0 b).*2 <-> b !! u_ID v = Some v.
Proof.
  intros Hk. rewrite list_elem_of_fmap. split.
  - intros ([g v'] & -> & Hin). apply elem_of_go_range in Hin. cbn. by rewrite (Hk g v' Hin).
  - intros Hv. exists (u_ID v, v). split; [done|]. by apply elem_of_go_range.
Qed.
Lemma deliver_packs m ps : Forall (fun p => us_RealmID p = RealmID) ps -> deliver m ps = apply_all m (concat (us_Updates <$> ps)).
Proof.
  revert m. induction ps as [|p ps IH]; intros m Hps; [done|]. apply Forall_cons in Hps as [Hp Hps]. unfold deliver, apply_all in *. cbn [foldl fmap list_fmap concat].
  by rewrite foldl_app, Hp, IH.
Qed.
Lemma tick_in_step m0 m us b vs : in_step m0 m us b -> (exists rest, vs ++ rest = (go_range 0 (buffer b)).*2) -> in_step m0 (apply_all m vs) us b.
Proof.
  intros [Hk Hm] [rest Hvs]. split; [done|]. intros r g. rewrite <- Hm, lookup_apply_all. destruct (decide (r = RealmID)); [|by destruct (m !! (r, g))].
  destruct (m !! (r, g)) as [c|]; [|done]. cbn [fmap option_fmap option_map]. f_equal. unfold pending. f_equal.
  pose proof (collected_again (buffer b) vs g c) as Hc. destruct (buffer b !! g); apply Hc; intros v Hv; apply elem_of_values; (try done); rewrite <- Hvs; set_solver.
Qed.
Lemma clear_in_step m0 m us b : in_step m0 m us b -> in_step m0 (apply_all m (go_range 0 (buffer b)).*2) us {| updsChan := updsChan b; buffer := ∅ |}.
Proof.
  intros [Hk Hm]. split; [done|]. intros r g. rewrite <- Hm, lookup_apply_all. destruct (decide (r = RealmID)); [|by destruct (m !! (r, g))].
  destruct (m !! (r, g)) as [c|]; [|done]. cbn [fmap option_fmap option_map]. f_equal. unfold pending. cbn [updsChan buffer]. f_equal. rewrite lookup_empty.
  destruct (buffer b !! g) as [u|] eqn:Hg.
  - apply (collected_once (buffer b)); [intros v Hv; by apply elem_of_values|apply elem_of_values; [done|by rewrite (Hk g u Hg)]|by apply Hk].
  - pose proof (collected_again (buffer b) (go_range 0 (buffer b)).*2 g c) as Hc. rewrite Hg in Hc. apply Hc. intros v Hv. by apply elem_of_values.
Qed.

(** ** Runs *)
Definition run_in_step (m0 : present) (us : list CharacterUpdate) (s : sys barrier CharactersUpdatesPayload) : Prop :=
  in_step m0 (deliver m0 (events s)) us (st s) /\ Forall (fun p => us_RealmID p = RealmID) (events s).
Lemma run_call_in_step m0 us o s s' : run_in_step m0 us s -> run_call o s = (Ok tt, s') -> run_in_step m0 (us ++ option_list (single o)) s'.
Proof.
  intros [Hin Hr] Hrun.
  assert (Hpush : forall u, push u s = (Ok tt, s') -> run_in_step m0 (us ++ [u]) s').
  { intros u Hu. unfold push in Hu. inv_ok. split; [|done]. by apply push_in_step. }
  destruct o as [g lvl|g area zone|g mid| |]; cbn [run_call single option_list] in *; [by apply Hpush..| |].
  - rewrite app_nil_r. unfold on_update in Hrun. inv_ok_step. apply gets_ok in Hrun0 as [-> ->]. destruct (st s) as [q b] eqn:Est. cbn [updsChan] in *.
    destruct q as [|u q]; [inv_ok; split; [by rewrite Est|done]|]. inv_ok. rewrite Est. cbn [updsChan buffer]. split; [|done]. by apply take_in_step.
  - rewrite app_nil_r. unfold on_tick in Hrun. inv_ok_step. apply gets_ok in Hrun0 as [-> ->].
    destruct (send_run (buffer (st s)) s) as (s1 & evs & Es & Hst & Hev & Hr' & Hres).
    assert (Hdel : deliver m0 (events s ++ evs) = apply_all (deliver m0 (events s)) (concat (us_Updates <$> evs))).
    { rewrite <- deliver_packs by done. unfold deliver. apply foldl_app. }
    assert (Hr2 : Forall (fun p => us_RealmID p = RealmID) (events s ++ evs)) by (by apply Forall_app).
    unfold try_err, mbind, go_bind in Hrun1. destruct (send (buffer (st s)) s) as [[[]|e|] s1']; cbn [fst snd] in *; subst s1'; [| |done].
    + injection Hrun1 as <-. unfold run_in_step. cbn [st events]. rewrite Hst, Hev. split; [|done]. rewrite Hdel, Hres. by apply clear_in_step.
    + injection Hrun1 as <-. unfold run_in_step. rewrite Hst, Hev. split; [|done]. rewrite Hdel. by apply tick_in_step.
Qed.
Lemma run_calls_in_step m0 os : forall us s s', run_in_step m0 us s -> run_calls os s = (Ok tt, s') -> run_in_step m0 (us ++ omap single os) s'.
Proof.
  induction os as [|o os IH]; intros us s s' Hin Hrun.
  - cbn in *. inv_ok. by rewrite app_nil_r.
  - cbn [run_calls] in Hrun. apply bind_ok in Hrun as ([] & s1 & Hrun1 & Hrun2). pose proof (run_call_in_step m0 us o s s1 Hin Hrun1) as Hin1.
    pose proof (IH _ _ _ Hin1 Hrun2) as Hin2. cbn [omap list_omap]. destruct (single o); cbn [option_list] in Hin2; by rewrite <- app_assoc in Hin2.
Qed.

Definition handle_packs (s : online) (ps : list CharactersUpdatesPayload) : online := foldl (fun s p => HandleCharactersUpdates p s) s ps.
Lemma handle_packs_simulate who ps : forall m s, simulates who m s -> simulates who (deliver m ps) (handle_packs s ps).
Proof.
  induction ps as [|p ps IH]; intros m s Hs; [done|]. unfold handle_packs, deliver in *. cbn [foldl]. apply IH. unfold HandleCharactersUpdates. by apply updates_simulate.
Qed.

(** C38: for the character server nothing is lost and nothing is invented by the barrier: whatever
    the order of updates and ticks and whichever publications fail, once everything collected has
    been sent, the packs lead to the same online characters as the updates one by one. *)
Theorem barrier_transparent os fs s' who m o r g (Hrun : run_calls os (Sys NewCharactersUpdatesBarrier fs []) = (Ok tt, s'))
  (Hchan : updsChan (st s') = []) (Hbuf : buffer (st s') = ∅) (Hs : simulates who m o) :
  OneByRealmAndGUID (handle_packs o (events s')) r g =
  OneByRealmAndGUID (handle_packs o ((fun u => {| us_RealmID := RealmID; us_GatewayID := ID; us_Updates := [u] |}) <$> omap single os)) r g.
Proof.
  assert (H0 : run_in_step m [] (Sys NewCharactersUpdatesBarrier fs [])).
  { split; [|constructor]. split; [done|]. intros r' g'. cbn. case_decide; by destruct (m !! (r', g')). }
  destruct (run_calls_in_step m os [] _ s' H0 Hrun) as [[_ Hin] _]. specialize (Hin r g). cbn [app] in Hin.
  rewrite !(si_guid who _ _ (handle_packs_simulate who _ m o Hs)).
  rewrite (deliver_packs m (_ <$> _)) by (apply Forall_fmap, Forall_true; done).
  assert (Hc : concat (us_Updates <$> ((fun u => {| us_RealmID := RealmID; us_GatewayID := ID; us_Updates := [u] |}) <$> omap single os)) = omap single os).
  { clear Hin. induction (omap single os) as [|u us IH]; [done|]. cbn [fmap list_fmap concat us_Updates app]. f_equal. exact IH. }
  rewrite Hc, <- Hin. case_decide; [|by destruct (deliver m (events s') !! (r, g))].
  unfold pending. rewrite Hchan, Hbuf. destruct (deliver m (events s') !! (r, g)) as [c|]; [|done]. cbn. by rewrite lookup_empty.
Qed.
End Barrier.

(** ** A run *)
#[local] Existing Instance map_range_canonical.
Definition some_calls : list barrier_op := [Level 1 31; Take; Map 1 530; Zone 2 3 14; Take; Tick; Take; Level 1 32; Take; Tick].
(** The first tick fails. *)
Lemma barrier_transparent_witness :
  let s' := (run_calls 1 "gw1" some_calls (Sys NewCharactersUpdatesBarrier [true] [])).2 in
  let o := OnlineCharacters.run_ops sample_ops NewCharactersOnlineInMem in
  (length (events s') = 1%nat /\ CharLevel <$> OneByRealmAndGUID (handle_packs o (events s')) 1 1 = Some 32) /\
  OneByRealmAndGUID (handle_packs o (events s')) 1 1 =
  OneByRealmAndGUID (handle_packs o ((fun u => {| us_RealmID := 1; us_GatewayID := "gw1"; us_Updates := [u] |}) <$> omap single some_calls)) 1 1.
Proof.
  intros s' o. split; [vm_compute; done|].
  apply (barrier_transparent 1 "gw1" some_calls [true] s' sample_who (spec_ops sample_ops ∅) o 1 1).
  - vm_compute. reflexivity.
  - vm_compute. reflexivity.
  - vm_compute. reflexivity.
  - apply run_ops_simulate; [exact sample_who_inj|exact sample_ops_named|apply empty_simulates].
Defined.
(** With more than a thousand updates collected a pack has 1002 of them. *)
Example pack_size :
  let b := list_to_map ((fun g => (Z.of_nat g, {| u_ID := Z.of_nat g; u_Lvl := None; u_Map := Some 1; u_Area := None; u_Zone := None |})) <$> seq 0 1100) in
  (fun p => length (us_Updates p)) <$> events (send 1 "gw1" b (Sys NewCharactersUpdatesBarrier [] [])).2 = [1002; 98]%nat.
Proof. vm_compute. reflexivity. Qed.

(** ** Names of realms *)
Record RealmName := { rn_RealmID : u32; rn_Name : string }.
Section RealmNames.
(** The rows of the realm list. *)
Context (realmlist : list RealmName).
Abbreviation R A := (go (gmap u32 RealmName) Empty_set barrier_err A).
Definition LoadRealmNames : R (list RealmName) := ext ErrRealmDB ;; mret realmlist.
Definition NewRealmNamesService : R unit :=
  realms ← LoadRealmNames;
  modify (fun _ => foldl (fun cache realm => <[rn_RealmID realm := realm]> cache) ∅ realms).
Definition NameByID (realmID : u32) : R string :=
  cache ← gets id;
  realm ← not_nil ErrRealmNotFound (cache !! realmID);
  mret (rn_Name realm).
End RealmNames.
