(* ===== verification/Opcodes.v ===== *)
(** * Opcodes: the numbers of the packets a session knows
    (apps/gateway/packet/opcode.go) *)
From S2P Require Import Prelude.

Definition CMsgCharCreate : u16 := 0x036.
Definition CMsgCharEnum : u16 := 0x037.
Definition CMsgCharDelete : u16 := 0x038.
Definition SMsgCharCreate : u16 := 0x03A.
Definition SMsgCharEnum : u16 := 0x03B.
Definition SMsgCharDelete : u16 := 0x03C.
Definition CMsgPlayerLogin : u16 := 0x03D.
Definition SMsgNewWorld : u16 := 0x03E.
Definition SMsgTransferPending : u16 := 0x03F.
Definition SMsgCharacterLoginFailed : u16 := 0x041.
Definition SMsgNameQueryResponse : u16 := 0x051.
Definition CMsgGuildQuery : u16 := 0x054.
Definition SMsgGuildQueryResponse : u16 := 0x055.
Definition CMsgWho : u16 := 0x062.
Definition SMsgWho : u16 := 0x063.
Definition CMsgContactList : u16 := 0x066.
Definition SMsgContactList : u16 := 0x067.
Definition SMsgFriendStatus : u16 := 0x068.
Definition CMsgAddFriend : u16 := 0x069.
Definition CMsgDelFriend : u16 := 0x06A.
Definition CMsgSetContactNotes : u16 := 0x06B.
Definition CMsgAddIgnore : u16 := 0x06C.
Definition CMsgDelIgnore : u16 := 0x06D.
Definition CMsgGroupInvite : u16 := 0x06E.
Definition SMsgGroupInvite : u16 := 0x06F.
Definition CMsgGroupAccept : u16 := 0x072.
Definition CMsgGroupDecline : u16 := 0x073.
Definition CMsgGroupUnInvite : u16 := 0x075.
Definition CMsgGroupUnInviteGuid : u16 := 0x076.
Definition SMsgGroupUnInvite : u16 := 0x077.
Definition CMsgGroupSetLeader : u16 := 0x078.
Definition CMsgLootMethod : u16 := 0x07A.
Definition CMsgGroupDisband : u16 := 0x07B.
Definition SMsgGroupDestroyed : u16 := 0x07C.
Definition SMsgGroupList : u16 := 0x07D.
Definition SMsgPartyCommandResult : u16 := 0x07F.
Definition CMsgGuildInvite : u16 := 0x082.
Definition SMsgGuildInvite : u16 := 0x083.
Definition CMsgGuildInviteAccept : u16 := 0x084.
Definition CMsgGuildRoster : u16 := 0x089.
Definition SMsgGuildRoster : u16 := 0x08A.
Definition CMsgGuildPromote : u16 := 0x08B.
Definition CMsgGuildDemote : u16 := 0x08C.
Definition CMsgGuildLeave : u16 := 0x08D.
Definition CMsgGuildRemove : u16 := 0x08E.
Definition CMsgGuildMOTD : u16 := 0x091.
Definition SMsgGuildEvent : u16 := 0x092.
Definition CMsgMessageChat : u16 := 0x095.
Definition SMsgMessageChat : u16 := 0x096.
Definition CMsgJoinChannel : u16 := 0x097.
Definition CMsgLeaveChannel : u16 := 0x098.
Definition SMsgChannelNotify : u16 := 0x099.
Definition CMsgChannelList : u16 := 0x09A.
Definition SMsgChannelList : u16 := 0x09B.
Definition CMsgChannelPassword : u16 := 0x09C.
Definition CMsgChannelSetOwner : u16 := 0x09D.
Definition CMsgChannelModerator : u16 := 0x09F.
Definition CMsgChannelUnModerator : u16 := 0x0A0.
Definition CMsgChannelMute : u16 := 0x0A1.
Definition CMsgChannelUnmute : u16 := 0x0A2.
Definition CMsgChannelInvite : u16 := 0x0A3.
Definition CMsgChannelKick : u16 := 0x0A4.
Definition CMsgChannelBan : u16 := 0x0A5.
Definition CMsgChannelUnban : u16 := 0x0A6.
Definition CMsgChannelAnnouncements : u16 := 0x0A7.
Definition CMsgChannelModerate : u16 := 0x0A8.
Definition MsgMoveStop : u16 := 0x0B7.
Definition MsgMoveWorldPortAck : u16 := 0x0DC.
Definition MsgMoveHeartbeat : u16 := 0x0EE.
Definition SMsgLevelUpInfo : u16 := 0x1D4.
Definition CMsgPing : u16 := 0x1DC.
Definition SMsgPong : u16 := 0x1DD.
Definition SMsgAuthChallenge : u16 := 0x1EC.
Definition SMsgAuthResponse : u16 := 0x1EE.
Definition SMsgAccountDataTimes : u16 := 0x209.
Definition CMsgGuildRank : u16 := 0x231.
Definition CMsgGuildAddRank : u16 := 0x232.
Definition CMsgGuildDelRank : u16 := 0x233.
Definition CMsgGuildSetPublicNote : u16 := 0x234.
Definition CMsgGuildSetOfficerNote : u16 := 0x235.
Definition CMsgSendMail : u16 := 0x238.
Definition SMsgSendMailResult : u16 := 0x239.
Definition CMsgGetMailList : u16 := 0x23A.
Definition SMsgMailListResult : u16 := 0x23B.
Definition CMsgMailTakeMoney : u16 := 0x245.
Definition CMsgMailTakeItem : u16 := 0x246.
Definition CMsgMailMarkAsRead : u16 := 0x247.
Definition CMsgMailDelete : u16 := 0x249.
Definition MsgQueryNextMailTime : u16 := 0x284.
Definition SMsgReceivedMail : u16 := 0x285.
Definition CMsgGroupRaidConvert : u16 := 0x28E.
Definition SMsgInitWorldStates : u16 := 0x2C2.
Definition SMsgBattlefieldStatus : u16 := 0x2D4.
Definition CMsgBattlefieldPort : u16 := 0x2D5.
Definition SMsgGroupJoinedBattleground : u16 := 0x2E8.
Definition CMsgBattleMasterJoin : u16 := 0x2EE.
Definition CMsgGuildInfoText : u16 := 0x2FC.
Definition MsgRaidTargetUpdate : u16 := 0x321.
Definition MsgSetDungeonDifficulty : u16 := 0x329.
Definition SMsgMOTD : u16 := 0x33D.
Definition SMsgRealmSplit : u16 := 0x38B.
Definition CMsgRealmSplit : u16 := 0x38C.
Definition CMsgChannelDisplayList : u16 := 0x3D2.
Definition MsgGuildPermissions : u16 := 0x3FD.
Definition MsgGuildBankMoneyWithdrawn : u16 := 0x3FE.
Definition MsgSetRaidDifficulty : u16 := 0x4EB.
Definition CMsgReadyForAccountDataTimes : u16 := 0x4FF.
Definition TC9CMsgPrepareForRedirect : u16 := 0x51F.
Definition TC9SMsgReadyForRedirect : u16 := 0x520.
