(* ===== verification/SessionApi.v ===== *)
(** * SessionApi: what a gateway session asks the services
    (the request literals of apps/gateway/session; the messages are those of
    api/proto/v1)

    A request carries the fields the session fills in, without the version of
    the interface; its index is the type of the answer.  Parts of a message
    that may be missing are options, the numbers of an enumeration are kept.
    The requests to a game server start with the address of its connection. *)
From S2P Require Import Prelude.

(** ** Characters *)
Record EquipmentDisplay := { ed_DisplayInfoID : u32; ed_InventoryType : u32; ed_EnchantmentID : u32 }.
Record LogInCharacter := {
  lc_GUID : u64; lc_name : string; lc_race : u32; lc_class : u32; lc_gender : u32; lc_skin : u32; lc_face : u32; lc_hairStyle : u32;
  lc_hairColor : u32; lc_facialStyle : u32; lc_level : u32; lc_zone : u32; lc_map : u32; lc_positionX : u32; lc_positionY : u32; lc_positionZ : u32;
  lc_guildID : u32; lc_playerFlags : u32; lc_atLogin : u32; lc_petEntry : u32; lc_petModelID : u32; lc_petLevel : u32; lc_banned : bool;
  lc_equipments : list EquipmentDisplay; lc_accountID : u32
}.
Record AccountData := { ad_type : u32; ad_time : Z }.
Record NamedChar := { nc_charGUID : u64; nc_charName : string }.
Record ShortCharData := { sc_charName : string; sc_charRace : u32; sc_charClass : u32; sc_charGender : u32 }.
Record WhoRequest := {
  wq_characterGUID : u64; wq_realmID : u32; wq_lvlMin : u32; wq_lvlMax : u32; wq_playerName : string; wq_guildName : string;
  wq_raceMask : u32; wq_classMask : u32; wq_zones : list u32; wq_strings : list string
}.
Record WhoItem := { wi_name : string; wi_guild : string; wi_lvl : u32; wi_class : u32; wi_race : u32; wi_gender : u32; wi_zoneID : u32 }.
Record WhoAnswer := { wa_totalFound : u32; wa_itemsToDisplay : list WhoItem }.
Record Friend := { fr_guid : u64; fr_note : string; fr_status : u32; fr_area : u32; fr_level : u32; fr_classID : u32 }.
Record FriendsList := { fl_friends : list Friend; fl_ignored : list u64 }.
Record AddFriendAnswer := { af_result : u32; af_status : u32; af_area : u32; af_level : u32; af_classID : u32 }.
Record Position := { pos_mapID : u32; pos_x : u32; pos_y : u32; pos_z : u32; pos_o : u32 }.

(** ** Registry *)
Record Server := { srv_address : string; srv_grpcAddress : string }.
Record ServerDiff := { diff_mean : u32; diff_median : u32; diff_percentile95 : u32; diff_percentile99 : u32; diff_max : u32 }.
Record GameServerDetailed := {
  gd_address : string; gd_realmID : u32; gd_isCrossRealm : bool; gd_activeConnections : u32; gd_diff : option ServerDiff;
  gd_availableMaps : list u32; gd_assignedMaps : list u32
}.
Record GatewayServerDetailed := { gwd_id : string; gwd_healthAddress : string; gwd_activeConnections : u32 }.

(** ** Chat *)
Record WhisperRequest := {
  wr_realmID : u32; wr_senderGUID : u64; wr_senderName : string; wr_senderRace : u32; wr_language : u32; wr_receiverName : string; wr_msg : string
}.
Record JoinRequest := {
  jr_realmID : u32; jr_playerGUID : u64; jr_playerName : string; jr_teamID : Z; jr_channelName : string; jr_channelID : u32;
  jr_password : string; jr_channelFlags : u32
}.
Record JoinedChannel := { jc_channelID : u32; jc_flags : u32; jc_memberFlags : u32 }.
Record JoinAnswer := { ja_status : Z; ja_channel : option JoinedChannel }.
(** [cr_arg] is the name of the target, the password, or absent. *)
Record ChannelRequest := { cr_realmID : u32; cr_playerGUID : u64; cr_channelName : string; cr_arg : string; cr_teamID : Z }.
Record ChannelMessageRequest := {
  mr_realmID : u32; mr_senderGUID : u64; mr_senderName : string; mr_channelName : string; mr_language : u32; mr_message : string; mr_teamID : Z
}.
Record ListAnswer := { la_status : Z; la_members : list (u64 * u32) }.
Record ToggleAnswer := { ta_status : Z; ta_enabled : bool }.

(** ** Guilds *)
Record GuildInfo := {
  gi_guildName : string; gi_emblemStyle : u32; gi_emblemColor : u32; gi_borderStyle : u32; gi_borderColor : u32; gi_backgroundColor : u32;
  gi_rankNames : list string
}.
Record RosterMember := {
  rm_guid : u64; rm_name : string; rm_status : u32; rm_rankID : u32; rm_lvl : u32; rm_classID : u32; rm_gender : u32; rm_areaID : u32;
  rm_logoutTime : Z; rm_note : string; rm_officerNote : string
}.
Record RosterRank := { rr_id : u32; rr_flags : u32; rr_goldLimit : u32 }.
Record Roster := { ro_welcomeText : string; ro_infoText : string; ro_members : list RosterMember; ro_ranks : list RosterRank }.
Record GuildCharacter := {
  gc_guid : u64; gc_name : string; gc_lvl : u32; gc_race : u32; gc_classID : u32; gc_gender : u32; gc_areaID : u32; gc_accountID : u64
}.
Record RankRequest := { rq_rank : u32; rq_rankName : string; rq_rights : u32; rq_moneyPerDay : u32 }.

(** ** Groups *)
Record SessionGroupMember := { gm_guid : u64; gm_flags : u32; gm_name : string; gm_isOnline : bool; gm_subGroup : u32; gm_roles : u32 }.
Record SessionGroup := {
  gr_id : u32; gr_leader : u64; gr_lootMethod : u32; gr_lootThreshold : u32; gr_groupType : u32; gr_difficulty : u32; gr_raidDifficulty : u32;
  gr_masterLooter : u64; gr_targetIconsList : list u64; gr_members : list SessionGroupMember
}.

(** ** Mail *)
Record MailAttachment := {
  ma_guid : u64; ma_entry : u32; ma_count : u32; ma_flags : u32; ma_durability : Z; ma_charges : Z; ma_randomPropertyID : u32; ma_propertySeed : u32;
  ma_text : string
}.
Record SendMailRequest := {
  sm_senderGuid : option u64; sm_receiverGuid : u64; sm_subject : string; sm_body : string; sm_moneyToSend : Z; sm_cashOnDelivery : Z;
  sm_attachments : list MailAttachment; sm_deliveryTimestamp : Z; sm_expirationTimestamp : Z; sm_type : Z; sm_templateID : u32; sm_stationery : Z
}.
Record SessionMail := {
  ml_id : u32; ml_sender : u64; ml_receiverGuid : u64; ml_subject : string; ml_body : string; ml_moneyToSend : Z; ml_cashOnDelivery : Z;
  ml_attachments : list MailAttachment; ml_deliveryTimestamp : Z; ml_expirationTimestamp : Z; ml_flags : Z; ml_type : Z; ml_templateID : u32;
  ml_stationery : Z
}.

(** ** Matchmaking *)
Record AssignedBattleground := {
  ab_instanceID : u32; ab_mapID : u32; ab_battlegroupID : u32; ab_gameserverAddress : string; ab_gameserverGRPCAddress : string
}.
Record QueueSlot := { qs_bgTypeID : u32; qs_assigned : option AssignedBattleground }.
Record EnqueueRequest := { eq_leaderGUID : u64; eq_partyMembers : list u64; eq_leadersLvl : u32; eq_bgTypeID : u32; eq_teamID : Z }.

(** ** Game servers *)
Record PlayerItem := {
  pi_guid : u64; pi_entry : u32; pi_isTradable : bool; pi_count : u32; pi_flags : u32; pi_durability : u32; pi_randomPropertyID : u32; pi_text : string
}.
Record AddedItem := { ai_guid : u64; ai_entry : u32; ai_count : u32; ai_flags : u32; ai_durability : u32; ai_randomPropertyID : u32; ai_text : string }.

Inductive request : Set -> Type :=
(* characters *)
| CharactersToLoginForAccount (accountID realmID : u32) : request (list LogInCharacter)
| CharactersToLoginByGUID (characterGUID : u64) (realmID : u32) : request (option LogInCharacter)
| AccountDataForAccount (accountID realmID : u32) : request (list AccountData)
| WhoQuery (q : WhoRequest) : request WhoAnswer
| CharacterOnlineByName (realmID : u32) (characterName : string) : request (option NamedChar)
| CharacterByName (realmID : u32) (characterName : string) : request (option NamedChar)
| ShortOnlineCharactersDataByGUIDs (realmID : u32) (GUIDs : list u64) : request (list ShortCharData)
| SavePlayerPosition (realmID : u32) (charGUID : u64) (p : Position) : request unit
| GetFriendsList (realmID : u32) (playerGUID : u64) : request FriendsList
| AddFriend (realmID : u32) (playerGUID friendGUID : u64) (friendName note : string) : request AddFriendAnswer
| RemoveFriend (realmID : u32) (playerGUID friendGUID : u64) : request unit
| SetFriendNote (realmID : u32) (playerGUID friendGUID : u64) (note : string) : request unit
| AddIgnore (realmID : u32) (playerGUID ignoredGUID : u64) : request u32
| RemoveIgnore (realmID : u32) (playerGUID ignoredGUID : u64) : request unit
(* registry *)
| AvailableGameServersForMapAndRealm (realmID mapID : u32) : request (list Server)
| RandomGameServerForRealm (realmID : u32) : request (option Server)
| ListAllGameServers : request (list GameServerDetailed)
| ListGatewaysForRealm (realmID : u32) : request (list GatewayServerDetailed)
(* chat *)
| SendWhisperMessage (q : WhisperRequest) : request u64
| JoinChannel (q : JoinRequest) : request JoinAnswer
| LeaveChannel (q : ChannelRequest) : request Z
| SendChannelMessage (q : ChannelMessageRequest) : request Z
| GetChannelList (q : ChannelRequest) : request ListAnswer
| KickFromChannel (q : ChannelRequest) : request Z
| BanFromChannel (q : ChannelRequest) : request Z
| UnbanFromChannel (q : ChannelRequest) : request Z
| SetChannelModerator (q : ChannelRequest) : request Z
| UnsetChannelModerator (q : ChannelRequest) : request Z
| SetChannelMute (q : ChannelRequest) : request Z
| UnsetChannelMute (q : ChannelRequest) : request Z
| SetChannelOwner (q : ChannelRequest) : request Z
| SetChannelPassword (q : ChannelRequest) : request Z
| InviteToChannel (q : ChannelRequest) : request Z
| ToggleChannelModeration (q : ChannelRequest) : request ToggleAnswer
| ToggleChannelAnnouncements (q : ChannelRequest) : request ToggleAnswer
(* guilds *)
| GetGuildInfo (realmID : u32) (guildID : u64) : request GuildInfo
| GetRosterInfo (realmID : u32) (guildID : u64) : request (option Roster)
| InviteMember (realmID : u32) (inviter invitee : u64) (inviteeName : string) : request unit
| InviteAccepted (realmID : u32) (c : GuildCharacter) : request u64
| GuildLeave (realmID : u32) (leaver : u64) : request unit
| GuildKick (realmID : u32) (kicker target : u64) : request unit
| SetMessageOfTheDay (realmID : u32) (changerGUID : u64) (messageOfTheDay : string) : request unit
| SetGuildInfo (realmID : u32) (changerGUID : u64) (info : string) : request unit
| SetMemberPublicNote (realmID : u32) (changerGUID targetGUID : u64) (note : string) : request unit
| SetMemberOfficerNote (realmID : u32) (changerGUID targetGUID : u64) (note : string) : request unit
| UpdateRank (realmID : u32) (changerGUID : u64) (r : RankRequest) : request unit
| AddRank (realmID : u32) (changerGUID : u64) (rankName : string) : request unit
| DeleteLastRank (realmID : u32) (changerGUID : u64) : request unit
| PromoteMember (realmID : u32) (changerGUID targetGUID : u64) : request unit
| DemoteMember (realmID : u32) (changerGUID targetGUID : u64) : request unit
| SendGuildMessage (realmID : u32) (senderGUID : u64) (language : u32) (message : string) (isOfficerMessage : bool) : request unit
(* groups *)
| GroupInvite (realmID : u32) (inviter invited : u64) (inviterName invitedName : string) : request Z
| GroupUninvite (realmID : u32) (initiator target : u64) (reason : string) : request Z
| GroupLeave (realmID : u32) (player : u64) : request unit
| ConvertToRaid (realmID : u32) (player : u64) : request unit
| ChangeLeader (realmID : u32) (player newLeader : u64) : request unit
| AcceptInvite (realmID : u32) (player : u64) : request Z
| GetGroup (realmID groupID : u32) : request (option SessionGroup)
| GetGroupByMember (realmID : u32) (player : u64) : request (option SessionGroup)
| GetGroupIDByPlayer (realmID : u32) (player : u64) : request u32
| SetGroupTargetIcon (realmID : u32) (setterGUID : u64) (iconID : u32) (targetGUID : u64) : request unit
| SetLootMethod (realmID : u32) (playerGUID : u64) (method : u32) (lootMaster : u64) (lootThreshold : u32) : request unit
| SetDungeonDifficulty (realmID : u32) (playerGUID : u64) (difficulty : u32) : request Z
| SetRaidDifficulty (realmID : u32) (playerGUID : u64) (difficulty : u32) : request Z
| SendGroupMessage (realmID : u32) (senderGUID : u64) (language : u32) (message : string) (messageType : u32) : request unit
(* mail *)
| MailSend (realmID : u32) (q : SendMailRequest) : request u32
| MarkAsReadForPlayer (realmID : u32) (playerGuid : u64) (mailID : Z) : request unit
| RemoveMailItem (realmID : u32) (playerGuid : option u64) (mailID : Z) (itemGuid : u64) (handleCashOnDelivery : bool) : request unit
| RemoveMailMoney (realmID : u32) (playerGuid : option u64) (mailID : Z) : request Z
| MailByID (realmID : u32) (mailID : Z) : request (option SessionMail)
| MailsForPlayer (realmID : u32) (playerGuid : u64) : request (list SessionMail)
| DeleteMail (realmID : u32) (mailID : Z) : request unit
(* matchmaking *)
| EnqueueToBattleground (realmID : u32) (q : EnqueueRequest) : request unit
| RemovePlayerFromQueue (realmID : u32) (playerGUID : u64) (battlegroundType : u32) : request unit
| BattlegroundQueueDataForPlayer (realmID : u32) (playerGUID : u64) : request (list QueueSlot)
| PlayerJoinedBattleground (realmID : u32) (playerGUID : u64) (instanceID : u32) (isCrossRealm : bool) : request unit
(* a game server *)
| GetPlayerItemsByGuids (server : string) (playerGuid : u64) (guids : list u64) : request (list PlayerItem)
| RemoveItemsWithGuidsFromPlayer (server : string) (playerGuid : u64) (guids : list u64) : request (list u64)
| AddExistingItemToPlayer (server : string) (playerGuid : u64) (item : AddedItem) : request Z
| GetMoneyForPlayer (server : string) (playerGuid : u64) : request u32
| ModifyMoneyForPlayer (server : string) (playerGuid : u64) (value : Z) : request u32
| CanPlayerInteractWithNPC (server : string) (playerGuid npcGuid : u64) (npcFlags : u32) : request bool
| CanPlayerInteractWithGameObject (server : string) (playerGuid gameObjectGuid : u64) (gameObjectType : u32) : request bool
| AddPlayersToBattleground (server : string) (bgTypeID : Z) (instanceID : u32) (alliance horde : list u64) : request unit
| CanPlayerJoinBattlegroundQueue (server : string) (playerGUID : u64) : request Z.

(** The player in whose name a request is made, with the realm it names.  A
    look-up is in nobody's name. *)
Definition actor {A} (r : request A) : option u64 :=
  match r with
  | WhoQuery q => Some (wq_characterGUID q)
  | SavePlayerPosition _ g _ | GetFriendsList _ g | AddFriend _ g _ _ _ | RemoveFriend _ g _ | SetFriendNote _ g _ _ | AddIgnore _ g _
  | RemoveIgnore _ g _ => Some g
  | SendWhisperMessage q => Some (wr_senderGUID q)
  | JoinChannel q => Some (jr_playerGUID q)
  | SendChannelMessage q => Some (mr_senderGUID q)
  | LeaveChannel q | GetChannelList q | KickFromChannel q | BanFromChannel q | UnbanFromChannel q | SetChannelModerator q | UnsetChannelModerator q
  | SetChannelMute q | UnsetChannelMute q | SetChannelOwner q | SetChannelPassword q | InviteToChannel q | ToggleChannelModeration q
  | ToggleChannelAnnouncements q => Some (cr_playerGUID q)
  | InviteMember _ g _ _ | GuildLeave _ g | GuildKick _ g _ | SetMessageOfTheDay _ g _ | SetGuildInfo _ g _ | SetMemberPublicNote _ g _ _
  | SetMemberOfficerNote _ g _ _ | UpdateRank _ g _ | AddRank _ g _ | DeleteLastRank _ g | PromoteMember _ g _ | DemoteMember _ g _
  | SendGuildMessage _ g _ _ _ => Some g
  | InviteAccepted _ c => Some (gc_guid c)
  | GroupInvite _ g _ _ _ | GroupUninvite _ g _ _ | GroupLeave _ g | ConvertToRaid _ g | ChangeLeader _ g _ | AcceptInvite _ g
  | GetGroupByMember _ g | GetGroupIDByPlayer _ g | SetGroupTargetIcon _ g _ _ | SetLootMethod _ g _ _ _ | SetDungeonDifficulty _ g _
  | SetRaidDifficulty _ g _ | SendGroupMessage _ g _ _ _ => Some g
  | MailSend _ q => sm_senderGuid q
  | MarkAsReadForPlayer _ g _ | MailsForPlayer _ g => Some g
  | RemoveMailItem _ g _ _ _ | RemoveMailMoney _ g _ => g
  | EnqueueToBattleground _ q => Some (eq_leaderGUID q)
  | RemovePlayerFromQueue _ g _ | BattlegroundQueueDataForPlayer _ g | PlayerJoinedBattleground _ g _ _ => Some g
  | GetPlayerItemsByGuids _ g _ | RemoveItemsWithGuidsFromPlayer _ g _ | AddExistingItemToPlayer _ g _ | GetMoneyForPlayer _ g
  | ModifyMoneyForPlayer _ g _ | CanPlayerInteractWithNPC _ g _ _ | CanPlayerInteractWithGameObject _ g _ _ | CanPlayerJoinBattlegroundQueue _ g => Some g
  | CharactersToLoginForAccount _ _ | CharactersToLoginByGUID _ _ | AccountDataForAccount _ _ | CharacterOnlineByName _ _ | CharacterByName _ _
  | ShortOnlineCharactersDataByGUIDs _ _ | AvailableGameServersForMapAndRealm _ _ | RandomGameServerForRealm _ | ListAllGameServers
  | ListGatewaysForRealm _ | GetGuildInfo _ _ | GetRosterInfo _ _ | GetGroup _ _ | MailByID _ _ | DeleteMail _ _
  | AddPlayersToBattleground _ _ _ _ _ => None
  end.
