(* ===== verification/SessionState.v ===== *)
(** * SessionState: what a gateway session keeps
    (apps/gateway/session/session.go, channels.go; shared/gameserver/conn)

    The clients of the services are a function from the request, and the
    number of events before it, to the answer; every request is an event and
    can fail.  What the game servers send while a handler waits for it is a
    tape; an exhausted tape is a timeout.  Goroutines and the closures of
    [sessionSafeFuChan] are data, run by operations of their own.  The
    broadcaster is the one all sessions of the gateway share. *)
From stdpp Require Import pretty.
From Stdlib Require Import SpecFloat.
From S2P Require Import Prelude GoRuntime GoStrings Bytes OnlineCharacters UpdatesBarrier ChatStreams Broadcaster Packet Opcodes SessionApi.

(** [w.Uint8(x)...] *)
Notation "w |> f" := (f w) (at level 50, left associativity, only parsing).

(** ** Strings and floats in packets *)
Definition WStr (s : string) : Writer -> Writer := WString (string_bytes s).
Definition RStr (r : Reader) : string * Reader := let '(b, r) := Reader_String r in (bytes_string b, r).
(** [uint32(len(msg) + 1)] *)
Definition text_size (s : string) : u32 := wrap32 (Z.of_nat (String.length s) + 1).
(** [math.Float32bits] *)
Definition f32_bits (x : spec_float) : u32 :=
  match x with
  | S754_zero s => if s then 2 ^ 31 else 0
  | S754_infinity s => (if s then 2 ^ 31 else 0) + 0x7F800000
  | S754_nan => 0x7FC00000
  | S754_finite s m e => (if s then 2 ^ 31 else 0) + (if Zpos m <? 2 ^ 23 then Zpos m else (e + 150) * 2 ^ 23 + (Zpos m - 2 ^ 23))
  end.
Definition f32_div : spec_float -> spec_float -> spec_float := SFdiv 24 128.
(** A number of seconds, in days. *)
Definition days (seconds : Z) : u32 := f32_bits (f32_div (f32_of_int seconds) (f32_of_int 86400)).
Example bits_of_minus_a_day : f32_bits (f32_of_int (-86400)) = 0xC7A8C000. Proof. vm_compute. reflexivity. Qed.
Example bits_of_half_a_day : days 43200 = 0x3F000000. Proof. vm_compute. reflexivity. Qed.

(** ** Parts of a session *)
Record LoggedInCharacter := {
  c_GUID : u64;
  c_Name : string;
  c_Race : u8;
  c_Class : u8;
  c_Gender : u8;
  c_Skin : u8;
  c_Face : u8;
  c_HairStyle : u8;
  c_HairColor : u8;
  c_FacialStyle : u8;
  c_Level : u8;
  c_Zone : u32;
  c_Map : u32;
  c_Position : u32 * u32 * u32 * u32;
  c_GuildID : u32;
  c_PlayerFlags : u32;
  c_AtLogin : u32;
  c_PetEntry : u32;
  c_PetModelID : u32;
  c_PetLevel : u32;
  c_Banned : bool;
  c_AccountID : u32;
  c_GroupMangedByGameServer : bool;
  c_ignoreNextInterceptToNewMap : option u32;
  c_waitingJoinToQueue : bool;
  c_pendingInvitePacket : option Packet
}.
Definition set_Level (v : u8) (s : LoggedInCharacter) : LoggedInCharacter :=
    {| c_GUID := c_GUID s; c_Name := c_Name s; c_Race := c_Race s; c_Class := c_Class s; c_Gender := c_Gender s; c_Skin := c_Skin s; c_Face := c_Face
     s; c_HairStyle := c_HairStyle s; c_HairColor := c_HairColor s; c_FacialStyle := c_FacialStyle s; c_Level := v; c_Zone := c_Zone s; c_Map := c_Map
     s; c_Position := c_Position s; c_GuildID := c_GuildID s; c_PlayerFlags := c_PlayerFlags s; c_AtLogin := c_AtLogin s; c_PetEntry := c_PetEntry s;
     c_PetModelID := c_PetModelID s; c_PetLevel := c_PetLevel s; c_Banned := c_Banned s; c_AccountID := c_AccountID s; c_GroupMangedByGameServer :=
     c_GroupMangedByGameServer s; c_ignoreNextInterceptToNewMap := c_ignoreNextInterceptToNewMap s; c_waitingJoinToQueue := c_waitingJoinToQueue s;
     c_pendingInvitePacket := c_pendingInvitePacket s |}.
Definition set_Zone (v : u32) (s : LoggedInCharacter) : LoggedInCharacter :=
    {| c_GUID := c_GUID s; c_Name := c_Name s; c_Race := c_Race s; c_Class := c_Class s; c_Gender := c_Gender s; c_Skin := c_Skin s; c_Face := c_Face
     s; c_HairStyle := c_HairStyle s; c_HairColor := c_HairColor s; c_FacialStyle := c_FacialStyle s; c_Level := c_Level s; c_Zone := v; c_Map :=
     c_Map s; c_Position := c_Position s; c_GuildID := c_GuildID s; c_PlayerFlags := c_PlayerFlags s; c_AtLogin := c_AtLogin s; c_PetEntry :=
     c_PetEntry s; c_PetModelID := c_PetModelID s; c_PetLevel := c_PetLevel s; c_Banned := c_Banned s; c_AccountID := c_AccountID s;
     c_GroupMangedByGameServer := c_GroupMangedByGameServer s; c_ignoreNextInterceptToNewMap := c_ignoreNextInterceptToNewMap s; c_waitingJoinToQueue
     := c_waitingJoinToQueue s; c_pendingInvitePacket := c_pendingInvitePacket s |}.
Definition set_Map (v : u32) (s : LoggedInCharacter) : LoggedInCharacter :=
    {| c_GUID := c_GUID s; c_Name := c_Name s; c_Race := c_Race s; c_Class := c_Class s; c_Gender := c_Gender s; c_Skin := c_Skin s; c_Face := c_Face
     s; c_HairStyle := c_HairStyle s; c_HairColor := c_HairColor s; c_FacialStyle := c_FacialStyle s; c_Level := c_Level s; c_Zone := c_Zone s; c_Map
     := v; c_Position := c_Position s; c_GuildID := c_GuildID s; c_PlayerFlags := c_PlayerFlags s; c_AtLogin := c_AtLogin s; c_PetEntry := c_PetEntry
     s; c_PetModelID := c_PetModelID s; c_PetLevel := c_PetLevel s; c_Banned := c_Banned s; c_AccountID := c_AccountID s; c_GroupMangedByGameServer :=
     c_GroupMangedByGameServer s; c_ignoreNextInterceptToNewMap := c_ignoreNextInterceptToNewMap s; c_waitingJoinToQueue := c_waitingJoinToQueue s;
     c_pendingInvitePacket := c_pendingInvitePacket s |}.
Definition set_Position (v : u32 * u32 * u32 * u32) (s : LoggedInCharacter) : LoggedInCharacter :=
    {| c_GUID := c_GUID s; c_Name := c_Name s; c_Race := c_Race s; c_Class := c_Class s; c_Gender := c_Gender s; c_Skin := c_Skin s; c_Face := c_Face
     s; c_HairStyle := c_HairStyle s; c_HairColor := c_HairColor s; c_FacialStyle := c_FacialStyle s; c_Level := c_Level s; c_Zone := c_Zone s; c_Map
     := c_Map s; c_Position := v; c_GuildID := c_GuildID s; c_PlayerFlags := c_PlayerFlags s; c_AtLogin := c_AtLogin s; c_PetEntry := c_PetEntry s;
     c_PetModelID := c_PetModelID s; c_PetLevel := c_PetLevel s; c_Banned := c_Banned s; c_AccountID := c_AccountID s; c_GroupMangedByGameServer :=
     c_GroupMangedByGameServer s; c_ignoreNextInterceptToNewMap := c_ignoreNextInterceptToNewMap s; c_waitingJoinToQueue := c_waitingJoinToQueue s;
     c_pendingInvitePacket := c_pendingInvitePacket s |}.
Definition set_GuildID (v : u32) (s : LoggedInCharacter) : LoggedInCharacter :=
    {| c_GUID := c_GUID s; c_Name := c_Name s; c_Race := c_Race s; c_Class := c_Class s; c_Gender := c_Gender s; c_Skin := c_Skin s; c_Face := c_Face
     s; c_HairStyle := c_HairStyle s; c_HairColor := c_HairColor s; c_FacialStyle := c_FacialStyle s; c_Level := c_Level s; c_Zone := c_Zone s; c_Map
     := c_Map s; c_Position := c_Position s; c_GuildID := v; c_PlayerFlags := c_PlayerFlags s; c_AtLogin := c_AtLogin s; c_PetEntry := c_PetEntry s;
     c_PetModelID := c_PetModelID s; c_PetLevel := c_PetLevel s; c_Banned := c_Banned s; c_AccountID := c_AccountID s; c_GroupMangedByGameServer :=
     c_GroupMangedByGameServer s; c_ignoreNextInterceptToNewMap := c_ignoreNextInterceptToNewMap s; c_waitingJoinToQueue := c_waitingJoinToQueue s;
     c_pendingInvitePacket := c_pendingInvitePacket s |}.
Definition set_GroupManaged (v : bool) (s : LoggedInCharacter) : LoggedInCharacter :=
    {| c_GUID := c_GUID s; c_Name := c_Name s; c_Race := c_Race s; c_Class := c_Class s; c_Gender := c_Gender s; c_Skin := c_Skin s; c_Face := c_Face
     s; c_HairStyle := c_HairStyle s; c_HairColor := c_HairColor s; c_FacialStyle := c_FacialStyle s; c_Level := c_Level s; c_Zone := c_Zone s; c_Map
     := c_Map s; c_Position := c_Position s; c_GuildID := c_GuildID s; c_PlayerFlags := c_PlayerFlags s; c_AtLogin := c_AtLogin s; c_PetEntry :=
     c_PetEntry s; c_PetModelID := c_PetModelID s; c_PetLevel := c_PetLevel s; c_Banned := c_Banned s; c_AccountID := c_AccountID s;
     c_GroupMangedByGameServer := v; c_ignoreNextInterceptToNewMap := c_ignoreNextInterceptToNewMap s; c_waitingJoinToQueue := c_waitingJoinToQueue s;
     c_pendingInvitePacket := c_pendingInvitePacket s |}.
Definition set_ignoreNext (v : option u32) (s : LoggedInCharacter) : LoggedInCharacter :=
    {| c_GUID := c_GUID s; c_Name := c_Name s; c_Race := c_Race s; c_Class := c_Class s; c_Gender := c_Gender s; c_Skin := c_Skin s; c_Face := c_Face
     s; c_HairStyle := c_HairStyle s; c_HairColor := c_HairColor s; c_FacialStyle := c_FacialStyle s; c_Level := c_Level s; c_Zone := c_Zone s; c_Map
     := c_Map s; c_Position := c_Position s; c_GuildID := c_GuildID s; c_PlayerFlags := c_PlayerFlags s; c_AtLogin := c_AtLogin s; c_PetEntry :=
     c_PetEntry s; c_PetModelID := c_PetModelID s; c_PetLevel := c_PetLevel s; c_Banned := c_Banned s; c_AccountID := c_AccountID s;
     c_GroupMangedByGameServer := c_GroupMangedByGameServer s; c_ignoreNextInterceptToNewMap := v; c_waitingJoinToQueue := c_waitingJoinToQueue s;
     c_pendingInvitePacket := c_pendingInvitePacket s |}.
Definition set_waiting (v : bool) (s : LoggedInCharacter) : LoggedInCharacter :=
    {| c_GUID := c_GUID s; c_Name := c_Name s; c_Race := c_Race s; c_Class := c_Class s; c_Gender := c_Gender s; c_Skin := c_Skin s; c_Face := c_Face
     s; c_HairStyle := c_HairStyle s; c_HairColor := c_HairColor s; c_FacialStyle := c_FacialStyle s; c_Level := c_Level s; c_Zone := c_Zone s; c_Map
     := c_Map s; c_Position := c_Position s; c_GuildID := c_GuildID s; c_PlayerFlags := c_PlayerFlags s; c_AtLogin := c_AtLogin s; c_PetEntry :=
     c_PetEntry s; c_PetModelID := c_PetModelID s; c_PetLevel := c_PetLevel s; c_Banned := c_Banned s; c_AccountID := c_AccountID s;
     c_GroupMangedByGameServer := c_GroupMangedByGameServer s; c_ignoreNextInterceptToNewMap := c_ignoreNextInterceptToNewMap s; c_waitingJoinToQueue
     := v; c_pendingInvitePacket := c_pendingInvitePacket s |}.
Definition set_pending (v : option Packet) (s : LoggedInCharacter) : LoggedInCharacter :=
    {| c_GUID := c_GUID s; c_Name := c_Name s; c_Race := c_Race s; c_Class := c_Class s; c_Gender := c_Gender s; c_Skin := c_Skin s; c_Face := c_Face
     s; c_HairStyle := c_HairStyle s; c_HairColor := c_HairColor s; c_FacialStyle := c_FacialStyle s; c_Level := c_Level s; c_Zone := c_Zone s; c_Map
     := c_Map s; c_Position := c_Position s; c_GuildID := c_GuildID s; c_PlayerFlags := c_PlayerFlags s; c_AtLogin := c_AtLogin s; c_PetEntry :=
     c_PetEntry s; c_PetModelID := c_PetModelID s; c_PetLevel := c_PetLevel s; c_Banned := c_Banned s; c_AccountID := c_AccountID s;
     c_GroupMangedByGameServer := c_GroupMangedByGameServer s; c_ignoreNextInterceptToNewMap := c_ignoreNextInterceptToNewMap s; c_waitingJoinToQueue
     := c_waitingJoinToQueue s; c_pendingInvitePacket := v |}.

Record PacketSendingControl := { motdSent : bool; accountDataTimesGlobalSent : bool; accountDataTimesPerCharSent : bool }.
Record ChannelInfo := { ci_Name : string; ci_ChannelID : u32; ci_Flags : u8 }.
Record ChannelMembership := {
  cm_channels : gmap string ChannelInfo;
  cm_events : option nat;
  cm_initialChannels : gmap string ChannelInfo;
  cm_lastJoin : Z;
  cm_initialChannelsLoaded : bool;
  cm_playerGUID : u64
}.
(** A connection to a game server. *)
Record world_socket := { ws_id : nat; ws_Address : string }.
(** What waiting for the next packet of a game server ends with. *)
Inductive world_read := RPacket (p : Packet) | RClosed | RTimeout.
(** The closures sent to the session, and the goroutines it starts. *)
Inductive safe_fun :=
| Recovered (socket : world_socket)
| Redirected (socket : world_socket) (oldServerAddress desiredServerAddress : string)
| RejoinChannels.
Inductive goroutine :=
| Reconnect (snap : LoggedInCharacter)
| Redirect (p : Packet) (charGUID : u64) (mapID : u32) (oldServerAddress desiredServerAddress : string)
| RejoinLater.
Record ConnMgr := { addressesMapping : gmap string string; addressWithConn : gset string }.

Inductive session_event :=
| ECall {A : Set} (r : request A)
| EClient (p : Packet)
| EConnect (socket : nat) (address : string)
| EWorld (socket : nat) (p : Packet)
| EClose (socket : nat)
| ELoggedIn (payload : LoggedInPayload)
| ELoggedOut (payload : LoggedOutPayload)
| EBarrier (o : barrier_op).
(** [UserFriendly]: an error with a text for the player. *)
Inductive session_err :=
| ErrService | ErrCharacterNotFound | ErrInstanceNotFound | ErrGrpcConn | ErrDial | ErrTimeout | ErrSocketClosed | ErrContext | ErrBus | ErrOther
| UserFriendly (UserError : string) (RealError : session_err).
Definition NewMailServiceUnavailableErr : session_err -> session_err := UserFriendly "Mailing service unavailable. Try again later.".
Definition NewGroupServiceUnavailableErr : session_err -> session_err := UserFriendly "Group service unavailable. Try again later.".

Record GameSession := {
  character : option LoggedInCharacter;
  worldSocket : option world_socket;
  eventsChan : option nat;
  sessionSafeFuChan : list safe_fun;
  gameServerGRPCClient : option string;
  groupUpdateCounter : u32;
  teleportingToNewMap : option u32;
  packetSendingControl : PacketSendingControl;
  channelMembership : ChannelMembership;
  spawned : list goroutine;
  eventsBroadcaster : broadcasterImpl;
  connMgr : ConnMgr;
  reads : list world_read;
  next_socket : nat;
  clock : Z
}.
Definition set_character (v : option LoggedInCharacter) (s : GameSession) : GameSession :=
    {| character := v; worldSocket := worldSocket s; eventsChan := eventsChan s; sessionSafeFuChan := sessionSafeFuChan s; gameServerGRPCClient :=
     gameServerGRPCClient s; groupUpdateCounter := groupUpdateCounter s; teleportingToNewMap := teleportingToNewMap s; packetSendingControl :=
     packetSendingControl s; channelMembership := channelMembership s; spawned := spawned s; eventsBroadcaster := eventsBroadcaster s; connMgr :=
     connMgr s; reads := reads s; next_socket := next_socket s; clock := clock s |}.
Definition set_worldSocket (v : option world_socket) (s : GameSession) : GameSession :=
    {| character := character s; worldSocket := v; eventsChan := eventsChan s; sessionSafeFuChan := sessionSafeFuChan s; gameServerGRPCClient :=
     gameServerGRPCClient s; groupUpdateCounter := groupUpdateCounter s; teleportingToNewMap := teleportingToNewMap s; packetSendingControl :=
     packetSendingControl s; channelMembership := channelMembership s; spawned := spawned s; eventsBroadcaster := eventsBroadcaster s; connMgr :=
     connMgr s; reads := reads s; next_socket := next_socket s; clock := clock s |}.
Definition set_eventsChan (v : option nat) (s : GameSession) : GameSession :=
    {| character := character s; worldSocket := worldSocket s; eventsChan := v; sessionSafeFuChan := sessionSafeFuChan s; gameServerGRPCClient :=
     gameServerGRPCClient s; groupUpdateCounter := groupUpdateCounter s; teleportingToNewMap := teleportingToNewMap s; packetSendingControl :=
     packetSendingControl s; channelMembership := channelMembership s; spawned := spawned s; eventsBroadcaster := eventsBroadcaster s; connMgr :=
     connMgr s; reads := reads s; next_socket := next_socket s; clock := clock s |}.
Definition set_safeFuns (v : list safe_fun) (s : GameSession) : GameSession :=
    {| character := character s; worldSocket := worldSocket s; eventsChan := eventsChan s; sessionSafeFuChan := v; gameServerGRPCClient :=
     gameServerGRPCClient s; groupUpdateCounter := groupUpdateCounter s; teleportingToNewMap := teleportingToNewMap s; packetSendingControl :=
     packetSendingControl s; channelMembership := channelMembership s; spawned := spawned s; eventsBroadcaster := eventsBroadcaster s; connMgr :=
     connMgr s; reads := reads s; next_socket := next_socket s; clock := clock s |}.
Definition set_client (v : option string) (s : GameSession) : GameSession :=
    {| character := character s; worldSocket := worldSocket s; eventsChan := eventsChan s; sessionSafeFuChan := sessionSafeFuChan s;
     gameServerGRPCClient := v; groupUpdateCounter := groupUpdateCounter s; teleportingToNewMap := teleportingToNewMap s; packetSendingControl :=
     packetSendingControl s; channelMembership := channelMembership s; spawned := spawned s; eventsBroadcaster := eventsBroadcaster s; connMgr :=
     connMgr s; reads := reads s; next_socket := next_socket s; clock := clock s |}.
Definition set_groupUpdateCounter (v : u32) (s : GameSession) : GameSession :=
    {| character := character s; worldSocket := worldSocket s; eventsChan := eventsChan s; sessionSafeFuChan := sessionSafeFuChan s;
     gameServerGRPCClient := gameServerGRPCClient s; groupUpdateCounter := v; teleportingToNewMap := teleportingToNewMap s; packetSendingControl :=
     packetSendingControl s; channelMembership := channelMembership s; spawned := spawned s; eventsBroadcaster := eventsBroadcaster s; connMgr :=
     connMgr s; reads := reads s; next_socket := next_socket s; clock := clock s |}.
Definition set_teleporting (v : option u32) (s : GameSession) : GameSession :=
    {| character := character s; worldSocket := worldSocket s; eventsChan := eventsChan s; sessionSafeFuChan := sessionSafeFuChan s;
     gameServerGRPCClient := gameServerGRPCClient s; groupUpdateCounter := groupUpdateCounter s; teleportingToNewMap := v; packetSendingControl :=
     packetSendingControl s; channelMembership := channelMembership s; spawned := spawned s; eventsBroadcaster := eventsBroadcaster s; connMgr :=
     connMgr s; reads := reads s; next_socket := next_socket s; clock := clock s |}.
Definition set_control (v : PacketSendingControl) (s : GameSession) : GameSession :=
    {| character := character s; worldSocket := worldSocket s; eventsChan := eventsChan s; sessionSafeFuChan := sessionSafeFuChan s;
     gameServerGRPCClient := gameServerGRPCClient s; groupUpdateCounter := groupUpdateCounter s; teleportingToNewMap := teleportingToNewMap s;
     packetSendingControl := v; channelMembership := channelMembership s; spawned := spawned s; eventsBroadcaster := eventsBroadcaster s; connMgr :=
     connMgr s; reads := reads s; next_socket := next_socket s; clock := clock s |}.
Definition set_membership (v : ChannelMembership) (s : GameSession) : GameSession :=
    {| character := character s; worldSocket := worldSocket s; eventsChan := eventsChan s; sessionSafeFuChan := sessionSafeFuChan s;
     gameServerGRPCClient := gameServerGRPCClient s; groupUpdateCounter := groupUpdateCounter s; teleportingToNewMap := teleportingToNewMap s;
     packetSendingControl := packetSendingControl s; channelMembership := v; spawned := spawned s; eventsBroadcaster := eventsBroadcaster s; connMgr
     := connMgr s; reads := reads s; next_socket := next_socket s; clock := clock s |}.
Definition set_spawned (v : list goroutine) (s : GameSession) : GameSession :=
    {| character := character s; worldSocket := worldSocket s; eventsChan := eventsChan s; sessionSafeFuChan := sessionSafeFuChan s;
     gameServerGRPCClient := gameServerGRPCClient s; groupUpdateCounter := groupUpdateCounter s; teleportingToNewMap := teleportingToNewMap s;
     packetSendingControl := packetSendingControl s; channelMembership := channelMembership s; spawned := v; eventsBroadcaster := eventsBroadcaster s;
     connMgr := connMgr s; reads := reads s; next_socket := next_socket s; clock := clock s |}.
Definition set_broadcaster (v : broadcasterImpl) (s : GameSession) : GameSession :=
    {| character := character s; worldSocket := worldSocket s; eventsChan := eventsChan s; sessionSafeFuChan := sessionSafeFuChan s;
     gameServerGRPCClient := gameServerGRPCClient s; groupUpdateCounter := groupUpdateCounter s; teleportingToNewMap := teleportingToNewMap s;
     packetSendingControl := packetSendingControl s; channelMembership := channelMembership s; spawned := spawned s; eventsBroadcaster := v; connMgr
     := connMgr s; reads := reads s; next_socket := next_socket s; clock := clock s |}.
Definition set_connMgr (v : ConnMgr) (s : GameSession) : GameSession :=
    {| character := character s; worldSocket := worldSocket s; eventsChan := eventsChan s; sessionSafeFuChan := sessionSafeFuChan s;
     gameServerGRPCClient := gameServerGRPCClient s; groupUpdateCounter := groupUpdateCounter s; teleportingToNewMap := teleportingToNewMap s;
     packetSendingControl := packetSendingControl s; channelMembership := channelMembership s; spawned := spawned s; eventsBroadcaster :=
     eventsBroadcaster s; connMgr := v; reads := reads s; next_socket := next_socket s; clock := clock s |}.
Definition set_reads (v : list world_read) (s : GameSession) : GameSession :=
    {| character := character s; worldSocket := worldSocket s; eventsChan := eventsChan s; sessionSafeFuChan := sessionSafeFuChan s;
     gameServerGRPCClient := gameServerGRPCClient s; groupUpdateCounter := groupUpdateCounter s; teleportingToNewMap := teleportingToNewMap s;
     packetSendingControl := packetSendingControl s; channelMembership := channelMembership s; spawned := spawned s; eventsBroadcaster :=
     eventsBroadcaster s; connMgr := connMgr s; reads := v; next_socket := next_socket s; clock := clock s |}.
Definition set_next_socket (v : nat) (s : GameSession) : GameSession :=
    {| character := character s; worldSocket := worldSocket s; eventsChan := eventsChan s; sessionSafeFuChan := sessionSafeFuChan s;
     gameServerGRPCClient := gameServerGRPCClient s; groupUpdateCounter := groupUpdateCounter s; teleportingToNewMap := teleportingToNewMap s;
     packetSendingControl := packetSendingControl s; channelMembership := channelMembership s; spawned := spawned s; eventsBroadcaster :=
     eventsBroadcaster s; connMgr := connMgr s; reads := reads s; next_socket := v; clock := clock s |}.
Definition set_clock (v : Z) (s : GameSession) : GameSession :=
    {| character := character s; worldSocket := worldSocket s; eventsChan := eventsChan s; sessionSafeFuChan := sessionSafeFuChan s;
     gameServerGRPCClient := gameServerGRPCClient s; groupUpdateCounter := groupUpdateCounter s; teleportingToNewMap := teleportingToNewMap s;
     packetSendingControl := packetSendingControl s; channelMembership := channelMembership s; spawned := spawned s; eventsBroadcaster :=
     eventsBroadcaster s; connMgr := connMgr s; reads := reads s; next_socket := next_socket s; clock := v |}.

(** ** The environment *)
Class SessionEnv := {
  realmID : u32;
  gatewayID : string;
  accountID : u32;
  authPacket : Packet;
  showGameserverConnChangeToClient : bool;
  realmNames : gmap u32 RealmName;
  answer : forall A : Set, nat -> request A -> A;
  session_range :: MapRange
}.
Abbreviation M A := (go GameSession session_event session_err A).

Definition NewChannelMembership (playerGUID : u64) (now : Z) : ChannelMembership :=
  {| cm_channels := ∅; cm_events := None; cm_initialChannels := ∅; cm_lastJoin := now; cm_initialChannelsLoaded := false;
     cm_playerGUID := playerGUID |}.
Definition no_control : PacketSendingControl :=
  {| motdSent := false; accountDataTimesGlobalSent := false; accountDataTimesPerCharSent := false |}.
Definition NewGameSession (b : broadcasterImpl) (mgr : ConnMgr) (reads : list world_read) (now : Z) : GameSession :=
  {| character := None; worldSocket := None; eventsChan := None; sessionSafeFuChan := []; gameServerGRPCClient := None; groupUpdateCounter := 0;
     teleportingToNewMap := None; packetSendingControl := no_control; channelMembership := NewChannelMembership 0 now; spawned := [];
     eventsBroadcaster := b; connMgr := mgr; reads := reads; next_socket := 0; clock := now |}.

Section Operations.
Context {env : SessionEnv}.

Definition emit (e : session_event) : M unit := fun s => (Ok tt, Sys (st s) (faults s) (events s ++ [e])).
(** A request to a service. *)
Definition call {A : Set} (r : request A) : M A := fun s =>
  let n := length (events s) in
  (emit (ECall r) ;; ext ErrService ;; mret (answer A n r)) s.
(** On the broadcaster, which runs in the same process. *)
Definition in_broadcaster {A} (m : go broadcasterImpl Empty_set Empty_set A) : M A := fun s =>
  match m (Sys (eventsBroadcaster (st s)) [] []) with
  | (Ok a, b) => (Ok a, Sys (set_broadcaster (st b) (st s)) (faults s) (events s))
  | (Fail e, _) => match e : Empty_set with end
  | (Panic, b) => (Panic, Sys (set_broadcaster (st b) (st s)) (faults s) (events s))
  end.
(** [time.Now().Unix()] *)
Definition unix : M Z := now ← gets clock; mret (now / 1000000000).

(** [s.character], [s.worldSocket] and [s.gameServerGRPCClient] as receivers: nil
    panics. *)
Definition char : M LoggedInCharacter := c ← gets character; deref c.
Definition world : M world_socket := w ← gets worldSocket; deref w.
Definition game_client : M string := c ← gets gameServerGRPCClient; deref c.
Definition update_char (f : LoggedInCharacter -> LoggedInCharacter) : M unit :=
  c ← char; modify (set_character (Some (f c))).

(** ** Sockets *)
Definition client_SendPacket (p : Packet) : M unit := emit (EClient p).
Definition client_Send (w : Writer) : M unit := client_SendPacket (ToPacket w).
Definition world_SendPacket (socket : world_socket) (p : Packet) : M unit := emit (EWorld (ws_id socket) p).
Definition world_Send (socket : world_socket) (w : Writer) : M unit := world_SendPacket socket (ToPacket w).
Definition world_Close (socket : world_socket) : M unit := emit (EClose (ws_id socket)).
Definition WorldSocketCreator (address : string) : M world_socket :=
  ext ErrDial ;;
  n ← gets next_socket;
  modify (set_next_socket (S n)) ;;
  emit (EConnect n address) ;;
  mret {| ws_id := n; ws_Address := address |}.

(** ** Connections to the services of the game servers *)
Definition AddAddressMapping (gameServerAddress grpcServerAddress : string) : M unit :=
  modify (fun s => set_connMgr {| addressesMapping := <[gameServerAddress := grpcServerAddress]> (addressesMapping (connMgr s));
                                  addressWithConn := addressWithConn (connMgr s) |} s).
Definition GRPCConnByGameServerAddress (address : string) : M string :=
  m ← gets connMgr;
  let connAddress := default "" (addressesMapping m !! address) in
  guard_err (String.eqb connAddress "") ErrGrpcConn ;;
  if bool_decide (connAddress ∈ addressWithConn m) then mret connAddress
  else
    ext ErrGrpcConn ;;
    modify (fun s => set_connMgr {| addressesMapping := addressesMapping (connMgr s);
                                    addressWithConn := {[connAddress]} ∪ addressWithConn (connMgr s) |} s) ;;
    mret connAddress.

(** ** Text to the player *)
Definition ChatTypeSystem : u8 := 0.
Definition SendSysMessage (msg : string) : M unit :=
  client_Send (NewWriterWithSize SMsgMessageChat 0 |> WUint8 ChatTypeSystem |> WUint32 0 |> WUint64 0 |> WUint32 0 |> WUint64 0
               |> WUint32 (text_size msg) |> WStr msg |> WUint8 0).
End Operations.
