(* ===== verification/SessionGuild.v ===== *)
(** * SessionGuild: the guild packets of a session
    (apps/gateway/session/guild.go) *)
From stdpp Require Import pretty.
From S2P Require Import Prelude GoRuntime GoStrings Bytes Guilds ChatStreams Broadcaster Packet Opcodes SessionApi SessionState.

Definition GuildEventTypePromotion : u8 := 0.
Definition GuildEventTypeDemotion : u8 := 1.
Definition GuildEventTypeMessageOfTheDay : u8 := 2.
Definition GuildEventTypeJoined : u8 := 3.
Definition GuildEventTypeLeft : u8 := 4.
Definition GuildEventTypeRemoved : u8 := 5.
Definition GuildEventTypeRankUpdated : u8 := 10.
Definition GuildEventTypeRankDeleted : u8 := 11.
Definition GuildEventTypeSignedOn : u8 := 12.
Definition ChatTypeGuild : u8 := 4.

(** A loop that writes. *)
Definition write_all {A} (f : A -> Writer -> Writer) (l : list A) (w : Writer) : Writer := foldl (fun w x => f x w) w l.
Definition buildGuildEventPacket (t : u8) (guid : u64) (args : list string) : Writer :=
  let resp := NewWriterWithSize SMsgGuildEvent 0 |> WUint8 t |> WUint8 (wrap8 (len args)) |> write_all WStr args in
  if 0 <? guid then resp |> WUint64 guid else resp.
(** The six tabs of a bank that does not exist yet. *)
Definition no_tabs : Writer -> Writer := Nat.iter 6 (fun w => w |> WUint32 0 |> WUint32 0).
Definition write_rank (rank : RosterRank) (w : Writer) : Writer := w |> WUint32 (rr_flags rank) |> WUint32 (rr_goldLimit rank) |> no_tabs.
Definition write_member (now : Z) (member : RosterMember) (w : Writer) : Writer :=
  let w := w |> WUint64 (rm_guid member) |> WUint8 (wrap8 (rm_status member)) |> WStr (rm_name member) |> WInt32 (rm_rankID member)
             |> WUint8 (wrap8 (rm_lvl member)) |> WUint8 (wrap8 (rm_classID member)) |> WUint8 (wrap8 (rm_gender member))
             |> WInt32 (rm_areaID member) in
  let w := if rm_status member =? 0 then w |> WFloat32 (days (now - rm_logoutTime member)) else w in
  w |> WStr (rm_note member) |> WStr (rm_officerNote member).
Definition roster_packet (now : Z) (g : Roster) : Writer :=
  NewWriterWithSize SMsgGuildRoster 0 |> WUint32 (wrap32 (len (ro_members g))) |> WStr (ro_welcomeText g) |> WStr (ro_infoText g)
  |> WUint32 (wrap32 (len (ro_ranks g))) |> write_all write_rank (ro_ranks g) |> write_all (write_member now) (ro_members g).

Section Guild.
Context {env : SessionEnv}.

Definition GetRoster (c : LoggedInCharacter) : M Roster :=
  guildResp ← call (GetRosterInfo realmID (c_GuildID c));
  deref guildResp.
Definition HandleGuildRoster : M unit :=
  c ← char;
  if c_GuildID c =? 0 then mret tt
  else
    guild ← GetRoster c;
    now ← unix;
    client_Send (roster_packet now guild).
Definition GuildLoginCommand : M unit :=
  c ← gets character;
  match c with
  | None => mret tt
  | Some c =>
    if c_GuildID c =? 0 then mret tt
    else
      guild ← GetRoster c;
      client_Send (buildGuildEventPacket GuildEventTypeMessageOfTheDay 0 [ro_welcomeText guild]) ;;
      HandleGuildRoster ;;
      client_Send (buildGuildEventPacket GuildEventTypeSignedOn (c_GUID c) [c_Name c])
  end.

(** Look the target up among the players online; without one the player is
    told. *)
Definition with_online (name : string) (k : NamedChar -> M unit) : M unit :=
  resp ← call (CharacterOnlineByName realmID name);
  match resp with
  | None => SendSysMessage "Player not found"
  | Some target => k target
  end.
(** An error of the guild service is dropped. *)
Definition HandleGuildInvite (p : Packet) : M unit :=
  with_online (RStr (Packet_Reader p)).1 (fun target =>
    c ← char;
    try_err (call (InviteMember realmID (c_GUID c) (nc_charGUID target) (nc_charName target))) ;;
    mret tt).

(** ** Events *)
Definition HandleEventGuildInviteCreated (e : GuildInviteCreatedPayload) : M unit :=
  client_Send (NewWriterWithSize SMsgGuildInvite 0 |> WStr (gi_InviterName e) |> WStr (Broadcaster.gi_GuildName e)).
(** A payload of another type panics. *)
Definition HandleEventGuildMemberPromoted (e : guild_event) : M unit :=
  match e with
  | Guilds.MemberPromote _ _ rank _ promoter _ member =>
    client_Send (buildGuildEventPacket GuildEventTypePromotion 0 [promoter; member; rank])
  | _ => panic
  end.
Definition HandleEventGuildMemberDemoted (e : guild_event) : M unit :=
  match e with
  | Guilds.MemberDemote _ _ rank _ demoter _ member =>
    client_Send (buildGuildEventPacket GuildEventTypeDemotion 0 [demoter; member; rank])
  | _ => panic
  end.
Definition HandleEventGuildMOTDUpdated (e : guild_event) : M unit :=
  match e with
  | Guilds.MOTDUpdated _ motd => client_Send (buildGuildEventPacket GuildEventTypeMessageOfTheDay 0 [motd])
  | _ => panic
  end.
Definition HandleEventGuildMemberAdded (e : guild_event) : M unit :=
  match e with
  | Guilds.MemberAdded _ guid name => client_Send (buildGuildEventPacket GuildEventTypeJoined guid [name])
  | _ => panic
  end.
Definition HandleEventGuildMemberLeft (e : guild_event) : M unit :=
  match e with
  | Guilds.MemberLeft _ guid name => client_Send (buildGuildEventPacket GuildEventTypeLeft guid [name])
  | _ => panic
  end.
Definition HandleEventGuildMemberKicked (e : guild_event) : M unit :=
  match e with
  | Guilds.MemberKicked _ guid name _ kicker =>
    client_Send (buildGuildEventPacket GuildEventTypeRemoved 0 [name; kicker]) ;;
    c ← char;
    if c_GUID c =? guid then update_char (set_GuildID 0) else mret tt
  | _ => panic
  end.
Definition rank_packet (rankID : u8) (name : string) (count : u8) : Writer :=
  buildGuildEventPacket GuildEventTypeRankUpdated 0 [fmt_d rankID; name; fmt_d count].
Definition HandleEventGuildRankCreated (e : guild_event) : M unit :=
  match e with Guilds.RankCreated _ rankID name count => client_Send (rank_packet rankID name count) | _ => panic end.
Definition HandleEventGuildRankUpdated (e : guild_event) : M unit :=
  match e with Guilds.RankUpdated _ rankID name _ _ count => client_Send (rank_packet rankID name count) | _ => panic end.
Definition HandleEventGuildRankDeleted (e : guild_event) : M unit :=
  match e with
  | Guilds.RankDeleted _ _ _ count => client_Send (buildGuildEventPacket GuildEventTypeRankDeleted 0 [fmt_d count])
  | _ => panic
  end.
(** The packet of a message: twice the guid of the sender. *)
Definition chat_packet (chatType : u8) (language : u32) (sender : u64) (msg : string) : Writer :=
  NewWriterWithSize SMsgMessageChat 0 |> WUint8 chatType |> WUint32 language |> WUint64 sender |> WUint32 0 |> WUint64 sender
  |> WUint32 (text_size msg) |> WStr msg |> WUint8 0.
Definition HandleEventGuildNewMessage (e : guild_event) : M unit :=
  match e with
  | Guilds.NewMessage _ _ _ sender _ language msg _ _ => client_Send (chat_packet ChatTypeGuild language sender msg)
  | _ => panic
  end.

(** ** Packets *)
Definition HandleGuildInviteAccept : M unit :=
  c ← char;
  guildID ← call (InviteAccepted realmID
    {| gc_guid := c_GUID c; gc_name := c_Name c; gc_lvl := c_Level c; gc_race := c_Race c; gc_classID := c_Class c; gc_gender := c_Gender c;
       gc_areaID := c_Zone c; gc_accountID := c_AccountID c |});
  update_char (set_GuildID (wrap32 guildID)).
Definition HandleGuildLeave : M unit :=
  c ← char;
  call (GuildLeave realmID (c_GUID c)) ;;
  update_char (set_GuildID 0).
Definition HandleGuildKick (p : Packet) : M unit :=
  with_online (RStr (Packet_Reader p)).1 (fun target => c ← char; call (GuildKick realmID (c_GUID c) (nc_charGUID target))).
Definition HandleGuildSetMessageOfTheDay (p : Packet) : M unit :=
  c ← char;
  call (SetMessageOfTheDay realmID (c_GUID c) (RStr (Packet_Reader p)).1).
Definition HandleGuildSetPublicNote (p : Packet) : M unit :=
  let '(targetName, reader) := RStr (Packet_Reader p) in
  let '(note, reader) := RStr reader in
  resp ← call (CharacterOnlineByName realmID targetName);
  match resp with
  | None => SendSysMessage "Player not found"
  | Some target =>
    c ← char;
    call (SetMemberPublicNote realmID (c_GUID c) (nc_charGUID target) note) ;;
    HandleGuildRoster
  end.
Definition HandleGuildSetOfficerNote (p : Packet) : M unit :=
  let '(targetName, reader) := RStr (Packet_Reader p) in
  let '(note, reader) := RStr reader in
  resp ← call (CharacterOnlineByName realmID targetName);
  match resp with
  | None => SendSysMessage "Player not found"
  | Some target =>
    c ← char;
    call (SetMemberOfficerNote realmID (c_GUID c) (nc_charGUID target) note) ;;
    HandleGuildRoster
  end.
Definition HandleGuildSetInfoText (p : Packet) : M unit :=
  c ← char;
  call (SetGuildInfo realmID (c_GUID c) (RStr (Packet_Reader p)).1).
Definition HandleGuildRankUpdate (p : Packet) : M unit :=
  let '(rankID, reader) := Uint32 (Packet_Reader p) in
  let '(rights, reader) := Uint32 reader in
  let '(name, reader) := RStr reader in
  let '(withdrawGoldLimit, reader) := Uint32 reader in
  c ← char;
  call (UpdateRank realmID (c_GUID c) {| rq_rank := rankID; rq_rankName := name; rq_rights := rights; rq_moneyPerDay := withdrawGoldLimit |}).
Definition HandleGuildRankAdd (p : Packet) : M unit :=
  c ← char;
  call (AddRank realmID (c_GUID c) (RStr (Packet_Reader p)).1).
Definition HandleGuildRankDelete : M unit :=
  c ← char;
  call (DeleteLastRank realmID (c_GUID c)).
Definition HandleGuildPromote (p : Packet) : M unit :=
  with_online (RStr (Packet_Reader p)).1 (fun target => c ← char; call (PromoteMember realmID (c_GUID c) (nc_charGUID target))).
Definition HandleGuildDemote (p : Packet) : M unit :=
  with_online (RStr (Packet_Reader p)).1 (fun target => c ← char; call (DemoteMember realmID (c_GUID c) (nc_charGUID target))).
Definition HandleGuildQuery (p : Packet) : M unit :=
  let guildID := (Uint32 (Packet_Reader p)).1 in
  guildResp ← call (GetGuildInfo realmID guildID);
  client_Send (NewWriterWithSize SMsgGuildQueryResponse 0 |> WUint32 guildID |> WStr (SessionApi.gi_guildName guildResp)
    |> write_all WStr (gi_rankNames guildResp) |> WUint32 (gi_emblemStyle guildResp) |> WUint32 (gi_emblemColor guildResp)
    |> WUint32 (gi_borderStyle guildResp) |> WUint32 (gi_borderColor guildResp) |> WUint32 (gi_backgroundColor guildResp)
    |> WUint32 (wrap32 (len (gi_rankNames guildResp)))).
(** The rank of the player, with the bank's tabs; an empty packet for a player
    who is not in the list. *)
Definition write_permissions (rank : RosterRank) (w : Writer) : Writer :=
  w |> WUint32 (rr_id rank) |> WInt32 (rr_flags rank) |> WInt32 (rr_goldLimit rank) |> WUint8 6 |> no_tabs.
Definition HandleGuildPermissions : M unit :=
  c ← char;
  if c_GuildID c =? 0 then mret tt
  else
    guild ← GetRoster c;
    let resp := NewWriterWithSize MsgGuildPermissions 0 in
    client_Send
      match find (fun member => rm_guid member =? c_GUID c) (ro_members guild) with
      | None => resp
      | Some member =>
        match find (fun rank => rr_id rank =? rm_rankID member) (ro_ranks guild) with
        | None => resp
        | Some rank => resp |> write_permissions rank
        end
      end.
Definition HandleGuildBankMoneyWithdrawn : M unit := client_Send (NewWriterWithSize MsgGuildBankMoneyWithdrawn 4 |> WUint32 0).
End Guild.
