(* ===== verification/SessionGroups.v ===== *)
(** * SessionGroups: the group packets of a session
    (apps/gateway/session/groups.go) *)
From S2P Require Import Prelude GoRuntime GoStrings Bytes Groups ChatStreams Broadcaster Packet Opcodes SessionApi SessionState SessionGuild.

Definition GroupOperationInvite : u8 := 0.
Definition GroupOperationUninvite : u8 := 1.
Definition GroupOperationLeave : u8 := 2.
Definition GroupResultOk : u8 := 0.
Definition GroupResultBadPlayerName : u8 := 1.
Record groupResult := { gres_Operation : u8; gres_MemberName : string; gres_Result : u8; gres_SomeValue : u32 }.
Definition group_BuildPacket (r : groupResult) : Packet :=
  ToPacket (NewWriterWithSize SMsgPartyCommandResult (wrap32 (4 + Z.of_nat (String.length (gres_MemberName r)) + 1 + 4 + 4))
    |> WUint32 (gres_Operation r) |> WStr (gres_MemberName r) |> WUint32 (gres_Result r) |> WUint32 (gres_SomeValue r)).
Definition bool_u8 (b : bool) : u8 := if b then 1 else 0.

Section Groups.
Context {env : SessionEnv}.

Definition send_result (operation : u8) (name : string) (result : u8) : M unit :=
  client_SendPacket (group_BuildPacket {| gres_Operation := operation; gres_MemberName := name; gres_Result := result; gres_SomeValue := 0 |}).
(** A request to the group service, whose errors the player is told. *)
Definition group_call {A : Set} (r : request A) : M A := wrap_err NewGroupServiceUnavailableErr (call r).

Definition HandleGroupInvite (p : Packet) : M unit :=
  let playerName := (RStr (Packet_Reader p)).1 in
  resp ← call (CharacterOnlineByName realmID playerName);
  match resp with
  | None => send_result GroupOperationInvite playerName GroupResultBadPlayerName
  | Some target =>
    c ← char;
    status ← group_call (GroupInvite realmID (c_GUID c) (nc_charGUID target) (c_Name c) (nc_charName target));
    send_result GroupOperationInvite playerName (if status =? 0 then GroupResultOk else 16)
  end.

(** ** The list of the members *)

(** Every member but the player. *)
Definition write_group_member (self : u64) (m : SessionGroupMember) (w : Writer) : Writer :=
  if gm_guid m =? self then w
  else w |> WStr (gm_name m) |> WUint64 (gm_guid m) |> WUint8 (bool_u8 (gm_isOnline m)) |> WUint8 (wrap8 (gm_subGroup m))
         |> WUint8 (wrap8 (gm_flags m)) |> WUint8 (wrap8 (gm_roles m)).
Definition group_list (self : u64) (counter : u32) (g : SessionGroup) (member : SessionGroupMember) : Writer :=
  NewWriterWithSize SMsgGroupList 0 |> WUint8 (wrap8 (gr_groupType g)) |> WUint8 (wrap8 (gm_subGroup member)) |> WUint8 (wrap8 (gm_flags member))
  |> WUint8 (wrap8 (gm_roles member)) |> WUint64 (gr_id g) |> WUint32 counter |> WUint32 (wrap32 (len (gr_members g) - 1))
  |> write_all (write_group_member self) (gr_members g) |> WUint64 (gr_leader g) |> WUint8 (wrap8 (gr_lootMethod g))
  |> WUint64 (gr_masterLooter g) |> WUint8 (wrap8 (gr_lootThreshold g)) |> WUint8 (wrap8 (gr_difficulty g)) |> WUint8 (wrap8 (gr_raidDifficulty g))
  |> WUint8 0.
(** [s.groupUpdateCounter++] *)
Definition next_update : M u32 :=
  n ← gets groupUpdateCounter;
  let n := wrap32 (n + 1) in
  modify (set_groupUpdateCounter n) ;;
  mret n.
Definition SendGroupUpdate (groupID : Z) : M unit :=
  group ← group_call (GetGroup realmID (wrap32 groupID));
  match group with
  | None => mret tt
  | Some g =>
    c ← char;
    match find (fun m => gm_guid m =? c_GUID c) (gr_members g) with
    | None => fail ErrOther
    | Some member =>
      counter ← next_update;
      client_Send (group_list (c_GUID c) counter g member)
    end
  end.
Definition LoadGroupForPlayer : M unit :=
  c ← char;
  groupID ← group_call (GetGroupIDByPlayer realmID (c_GUID c));
  if groupID =? 0 then mret tt else SendGroupUpdate groupID.

(** ** Events *)
Definition HandleEventGroupInviteCreated (e : group_event) : M unit :=
  match e with
  | Groups.InviteCreated _ _ _ _ inviter _ _ =>
    client_Send (NewWriterWithSize SMsgGroupInvite 0 |> WUint8 1 |> WStr inviter |> WUint32 0 |> WUint8 0 |> WUint32 0)
  | _ => panic
  end.
Definition HandleEventGroupMemberOnlineStatusChanged (e : group_event) : M unit :=
  match e with Groups.GroupMemberOnlineStatusChanged _ _ groupID _ _ _ => SendGroupUpdate groupID | _ => panic end.
(** The list of a new group comes with the event. *)
Definition write_event_member (self : u64) (m : EventGroupMember) (w : Writer) : Writer :=
  if em_MemberGUID m =? self then w
  else w |> WStr (em_MemberName m) |> WUint64 (em_MemberGUID m) |> WUint8 (bool_u8 (em_IsOnline m)) |> WUint8 (em_SubGroup m)
         |> WUint8 (em_MemberFlags m) |> WUint8 (em_Roles m).
Definition HandleEventGroupCreated (e : group_event) : M unit :=
  match e with
  | Groups.GroupCreated _ _ _ leader lootMethod _ lootThreshold groupType difficulty raidDifficulty masterLooter members =>
    c ← char;
    match find (fun m => em_MemberGUID m =? c_GUID c) members with
    | None => fail ErrOther
    | Some member =>
      counter ← next_update;
      client_Send (NewWriterWithSize SMsgGroupList 0 |> WUint8 groupType |> WUint8 (em_SubGroup member) |> WUint8 (em_MemberFlags member)
        |> WUint8 (em_Roles member) |> WUint64 (em_MemberGUID member) |> WUint32 counter |> WUint32 (wrap32 (len members - 1))
        |> write_all (write_event_member (c_GUID c)) members |> WUint64 leader |> WUint8 lootMethod |> WUint64 masterLooter |> WUint8 lootThreshold
        |> WUint8 difficulty |> WUint8 raidDifficulty |> WUint8 0)
    end
  | _ => panic
  end.
(** An empty list. *)
Definition no_group (groupID : Z) (counter : u32) : Writer :=
  NewWriterWithSize SMsgGroupList 0 |> WUint8 0x10 |> WUint8 0 |> WUint8 0 |> WUint8 0 |> WUint64 (wrap64 groupID) |> WUint32 counter |> WUint32 0
  |> WUint64 0.
Definition HandleEventGroupMemberLeft (e : group_event) : M unit :=
  match e with
  | Groups.GroupMemberLeft _ _ groupID guid _ _ _ =>
    c ← char;
    if guid =? c_GUID c then
      client_Send (NewWriterWithSize SMsgGroupUnInvite 0) ;;
      counter ← next_update;
      client_Send (no_group groupID counter)
    else SendGroupUpdate groupID
  | _ => panic
  end.
Definition HandleEventGroupDisband (e : group_event) : M unit :=
  match e with
  | Groups.GroupDisband _ _ groupID _ =>
    counter ← next_update;
    client_Send (no_group groupID counter) ;;
    client_Send (NewWriterWithSize SMsgGroupDestroyed 0)
  | _ => panic
  end.
Definition HandleEventGroupMemberAdded (e : group_event) : M unit :=
  match e with Groups.MemberAdded _ _ groupID _ _ _ => SendGroupUpdate groupID | _ => panic end.
Definition HandleEventGroupLeaderChanged (e : group_event) : M unit :=
  match e with Groups.LeaderChanged _ _ groupID _ _ _ => SendGroupUpdate groupID | _ => panic end.
Definition HandleEventGroupLootTypeChanged (e : group_event) : M unit :=
  match e with Groups.LootTypeChanged _ _ groupID _ _ _ _ => SendGroupUpdate groupID | _ => panic end.
Definition HandleEventGroupConvertedToRaid (e : group_event) : M unit :=
  match e with Groups.ConvertedToRaid _ _ groupID _ _ => SendGroupUpdate groupID | _ => panic end.
(** The player's own messages were shown when they were sent. *)
Definition HandleEventGroupNewMessage (e : group_event) : M unit :=
  match e with
  | Groups.SendChatMessage _ _ _ sender _ language msg messageType _ =>
    c ← char;
    if sender =? c_GUID c then mret tt else client_Send (chat_packet messageType language sender msg)
  | _ => panic
  end.
Definition HandleEventGroupNewTargetIcon (e : group_event) : M unit :=
  match e with
  | Groups.TargetIconUpdated _ _ _ updater target icon _ =>
    client_Send (NewWriterWithSize MsgRaidTargetUpdate 18 |> WUint8 0 |> WUint64 updater |> WUint8 icon |> WUint64 target)
  | _ => panic
  end.
Definition send_difficulty (opcode : u16) (difficulty : option u8) : M unit :=
  match difficulty with
  | None => mret tt
  | Some d => client_Send (NewWriterWithSize opcode 12 |> WUint32 d |> WUint32 1 |> WUint32 1)
  end.
Definition HandleEventGroupDifficultyChanged (e : group_event) : M unit :=
  match e with
  | Groups.GroupDifficultyChanged _ _ _ _ dungeon raid _ =>
    send_difficulty MsgSetDungeonDifficulty dungeon ;;
    send_difficulty MsgSetRaidDifficulty raid
  | _ => panic
  end.

(** ** Packets *)
Definition HandleGroupInviteAccept : M unit :=
  c ← char;
  group_call (AcceptInvite realmID (c_GUID c)) ;;
  mret tt.
Definition HandleGroupInviteDeclined : M unit := mret tt.
Definition groupUninviteWithGUID (player : u64) (playerName reason : string) : M unit :=
  c ← char;
  group_call (GroupUninvite realmID (c_GUID c) player reason) ;;
  send_result GroupOperationUninvite playerName GroupResultOk.
Definition HandleGroupUninvite (p : Packet) : M unit :=
  let playerName := (RStr (Packet_Reader p)).1 in
  resp ← call (CharacterByName realmID playerName);
  match resp with
  | None => send_result GroupOperationUninvite playerName GroupResultBadPlayerName
  | Some target => groupUninviteWithGUID (nc_charGUID target) (nc_charName target) ""
  end.
Definition HandleGroupUninviteGUID (p : Packet) : M unit :=
  let '(guid, r) := Uint64 (Packet_Reader p) in
  let '(reason, r) := RStr r in
  groupUninviteWithGUID guid "" reason.
Definition HandleGroupLeave : M unit :=
  c ← char;
  group_call (GroupLeave realmID (c_GUID c)) ;;
  send_result GroupOperationLeave "" GroupResultOk.
Definition HandleGroupConvertToRaid : M unit :=
  c ← char;
  group_call (ConvertToRaid realmID (c_GUID c)) ;;
  send_result GroupOperationInvite "" GroupResultOk.
Definition HandleGroupSetLeader (p : Packet) : M unit :=
  c ← char;
  group_call (ChangeLeader realmID (c_GUID c) (Uint64 (Packet_Reader p)).1).
(** The icons that are set, with their numbers. *)
Fixpoint write_icons (i : Z) (icons : list u64) (w : Writer) : Writer :=
  match icons with
  | [] => w
  | targetGUID :: icons => write_icons (i + 1) icons (if targetGUID =? 0 then w else w |> WUint8 (wrap8 i) |> WUint64 targetGUID)
  end.
Definition sendGroupListOfTargetIcons : M unit :=
  c ← char;
  group ← group_call (GetGroupByMember realmID (c_GUID c));
  match group with
  | None => mret tt
  | Some g => client_Send (NewWriter MsgRaidTargetUpdate |> WUint8 1 |> write_icons 0 (gr_targetIconsList g))
  end.
Definition HandleSetGroupTargetIcon (p : Packet) : M unit :=
  let '(iconIDOrAction, reader) := Uint8 (Packet_Reader p) in
  if iconIDOrAction =? 0xFF then sendGroupListOfTargetIcons
  else
    c ← char;
    group_call (SetGroupTargetIcon realmID (c_GUID c) iconIDOrAction (Uint64 reader).1).
Definition HandleSetLootMethod (p : Packet) : M unit :=
  let '(method, reader) := Uint32 (Packet_Reader p) in
  let '(looter, reader) := Uint64 reader in
  let '(threshold, reader) := Uint32 reader in
  c ← char;
  group_call (SetLootMethod realmID (c_GUID c) method looter threshold).
Definition SourceGameClient : u8 := 1.
Definition SourceWorldServer : u8 := 2.
(** A packet of the game server goes to the game server, not to the client. *)
Definition HandleSetDungeonDifficulty (p : Packet) : M unit :=
  if Source p =? SourceWorldServer then w ← world; world_SendPacket w p
  else
    let difficulty := (Uint32 (Packet_Reader p)).1 in
    c ← char;
    group ← group_call (GetGroupByMember realmID (c_GUID c));
    match group with
    | None => w ← world; world_SendPacket w p
    | Some g =>
      if gr_difficulty g =? difficulty then mret tt
      else call (SetDungeonDifficulty realmID (c_GUID c) difficulty) ;; mret tt
    end.
Definition HandleSetRaidDifficulty (p : Packet) : M unit :=
  if Source p =? SourceWorldServer then w ← world; world_SendPacket w p
  else
    let difficulty := (Uint32 (Packet_Reader p)).1 in
    c ← char;
    group ← group_call (GetGroupByMember realmID (c_GUID c));
    match group with
    | None => w ← world; world_SendPacket w p
    | Some g =>
      if gr_raidDifficulty g =? difficulty then mret tt
      else call (SetRaidDifficulty realmID (c_GUID c) difficulty) ;; mret tt
    end.
End Groups.
