(* ===== verification/SessionSocial.v ===== *)
(** * SessionSocial: friends, ignored players and the who query of a session
    (apps/gateway/session/social.go) *)
From S2P Require Import Prelude GoRuntime GoStrings Bytes Friends ChatStreams Broadcaster Packet Opcodes SessionApi SessionState SessionGuild.

Definition FriendResultOnline : u32 := 0x02.
Definition FriendResultOffline : u32 := 0x03.
Definition FriendResultNotFound : u32 := 0x04.
Definition FriendResultRemoved : u32 := 0x05.
Definition FriendResultAddedOnline : u32 := 0x06.
Definition FriendResultAddedOffline : u32 := 0x07.
Definition FriendResultIgnoreNotFound : u32 := 0x0C.
Definition FriendResultIgnoreRemoved : u32 := 0x0F.

Definition write_friend (friend : Friend) (w : Writer) : Writer :=
  let w := w |> WUint64 (fr_guid friend) |> WUint32 0x01 |> WStr (fr_note friend) |> WUint8 (wrap8 (fr_status friend)) in
  if 0 <? fr_status friend then w |> WUint32 (fr_area friend) |> WUint32 (fr_level friend) |> WUint32 (fr_classID friend) else w.
Definition write_ignored (guid : u64) (w : Writer) : Writer := w |> WUint64 guid |> WUint32 0x02 |> WStr "".
Definition contact_list (flags : u32) (l : FriendsList) : Writer :=
  NewWriter SMsgContactList |> WUint32 flags |> WUint32 (wrap32 (len (fl_friends l) + len (fl_ignored l)))
  |> write_all write_friend (fl_friends l) |> write_all write_ignored (fl_ignored l).
Definition friend_status (result : u32) (guid : u64) (note : string) (status : u8) (area level classID : u32) : Writer :=
  let w := NewWriter SMsgFriendStatus |> WUint8 (wrap8 result) |> WUint64 guid in
  let w := if (result =? FriendResultAddedOffline) || (result =? FriendResultAddedOnline) then w |> WStr note else w in
  if (result =? FriendResultAddedOnline) || (result =? FriendResultOnline)
  then w |> WUint8 status |> WUint32 area |> WUint32 level |> WUint32 classID else w.
Definition write_who (item : WhoItem) (w : Writer) : Writer :=
  w |> WStr (wi_name item) |> WStr (wi_guild item) |> WUint32 (wi_lvl item) |> WUint32 (wi_class item) |> WUint32 (wi_race item)
    |> WUint8 (wrap8 (wi_gender item)) |> WUint32 (wi_zoneID item).
(** [count] fields. *)
Fixpoint read_many {A} (f : Reader -> A * Reader) (count : nat) (r : Reader) : list A * Reader :=
  match count with
  | O => ([], r)
  | S count => let '(x, r) := f r in let '(xs, r) := read_many f count r in (x :: xs, r)
  end.

Section Social.
Context {env : SessionEnv}.

Definition SendFriendStatus (result : u32) (guid : u64) (note : string) (status : u8) (area level classID : u32) : M unit :=
  client_Send (friend_status result guid note status area level classID).
Definition HandleContactList (p : Packet) : M unit :=
  let flags := (Uint32 (Packet_Reader p)).1 in
  c ← char;
  resp ← call (GetFriendsList realmID (c_GUID c));
  client_Send (contact_list flags resp).
Definition HandleAddFriend (p : Packet) : M unit :=
  let '(friendName, r) := RStr (Packet_Reader p) in
  let '(note, r) := RStr r in
  target ← call (CharacterByName realmID friendName);
  match target with
  | None => SendFriendStatus FriendResultNotFound 0 "" 0 0 0 0
  | Some target =>
    c ← char;
    resp ← call (AddFriend realmID (c_GUID c) (nc_charGUID target) friendName note);
    SendFriendStatus (af_result resp) (nc_charGUID target) note (wrap8 (af_status resp)) (af_area resp) (af_level resp) (af_classID resp)
  end.
Definition HandleDelFriend (p : Packet) : M unit :=
  let friendGUID := (Uint64 (Packet_Reader p)).1 in
  c ← char;
  call (RemoveFriend realmID (c_GUID c) friendGUID) ;;
  SendFriendStatus FriendResultRemoved friendGUID "" 0 0 0 0.
Definition HandleSetContactNotes (p : Packet) : M unit :=
  let '(friendGUID, r) := Uint64 (Packet_Reader p) in
  let '(note, r) := RStr r in
  c ← char;
  call (SetFriendNote realmID (c_GUID c) friendGUID note).
Definition HandleAddIgnore (p : Packet) : M unit :=
  let ignoreName := (RStr (Packet_Reader p)).1 in
  target ← call (CharacterByName realmID ignoreName);
  match target with
  | None => SendFriendStatus FriendResultIgnoreNotFound 0 "" 0 0 0 0
  | Some target =>
    c ← char;
    result ← call (AddIgnore realmID (c_GUID c) (nc_charGUID target));
    SendFriendStatus result (nc_charGUID target) "" 0 0 0 0
  end.
Definition HandleDelIgnore (p : Packet) : M unit :=
  let ignoredGUID := (Uint64 (Packet_Reader p)).1 in
  c ← char;
  call (RemoveIgnore realmID (c_GUID c) ignoredGUID) ;;
  SendFriendStatus FriendResultIgnoreRemoved ignoredGUID "" 0 0 0 0.

(** ** Events *)
Definition HandleEventFriendStatusChange (e : friend_event) : M unit :=
  match e with
  | FriendEventStatusChange _ guid status area level classID _ =>
    let w := NewWriter SMsgFriendStatus |> WUint8 (if status =? 1 then FriendResultOnline else FriendResultOffline) |> WUint64 guid in
    client_Send (if status =? 1 then w |> WUint8 status |> WUint32 area |> WUint32 level |> WUint32 classID else w)
  | _ => panic
  end.
Definition HandleEventFriendAdded : M unit := mret tt.
Definition HandleEventFriendRemoved : M unit := mret tt.
Definition HandleEventFriendNoteUpdate : M unit := mret tt.

(** The zones that were read are not asked for. *)
Definition HandleWho (p : Packet) : M unit :=
  let '(lvlMin, r) := Uint32 (Packet_Reader p) in
  let '(lvlMax, r) := Uint32 r in
  let '(playerName, r) := RStr r in
  let '(guildName, r) := RStr r in
  let '(raceMask, r) := Uint32 r in
  let '(classMask, r) := Uint32 r in
  let '(zonesCount, r) := Uint32 r in
  guard_err (10 <? zonesCount) ErrOther ;;
  let '(zones, r) := read_many Uint32 (Z.to_nat zonesCount) r in
  let '(strCount, r) := Uint32 r in
  guard_err (4 <? strCount) ErrOther ;;
  let '(strs, r) := read_many RStr (Z.to_nat strCount) r in
  c ← char;
  resp ← call (WhoQuery
    {| wq_characterGUID := c_GUID c; wq_realmID := realmID; wq_lvlMin := lvlMin; wq_lvlMax := lvlMax; wq_playerName := playerName;
       wq_guildName := guildName; wq_raceMask := raceMask; wq_classMask := classMask; wq_zones := []; wq_strings := strs |});
  client_Send (NewWriter SMsgWho |> WUint32 (wrap32 (len (wa_itemsToDisplay resp))) |> WUint32 (wa_totalFound resp)
    |> write_all write_who (wa_itemsToDisplay resp)).
End Social.
