(* ===== verification/SessionMail.v ===== *)
(** * SessionMail: the mailbox of a session
    (apps/gateway/session/mail.go)

    The gateway moves money and items between the game server, which holds the
    player, and the mail service; each step can fail on its own. *)
From stdpp Require Import pretty.
From S2P Require Import Prelude GoRuntime GoStrings Bytes ObjectGuid MailRepo ChatStreams Broadcaster Packet Opcodes SessionApi SessionState SessionGuild SessionSocial.

Definition MaxVisibleMailsCount : nat := 100.
Definition MailResponseTypeMailSend : u8 := 0.
Definition MailResponseTypeMoneyTaken : u8 := 1.
Definition MailResponseTypeItemTaken : u8 := 2.
Definition MailResponseTypeDeleted : u8 := 4.
Definition MailResponseStatusOk : u8 := 0.
Definition MailResponseStatusEquipErr : u8 := 1.
Definition MailResponseStatusNotEnoughMoney : u8 := 3.
Definition MailResponseStatusRecipientNotFound : u8 := 4.
Definition MailResponseStatusInternalError : u8 := 6.
Definition MailResponseStatusMailAttachmentInvalid : u8 := 12.
Record mailResult := { mr_MailID : Z; mr_Type : u8; mr_Status : u8; mr_BagResult : u32; mr_AttachID : u32; mr_QtyInInventory : u32 }.
Definition mail_BuildPacket (r : mailResult) : Packet :=
  let w := NewWriterWithSize SMsgSendMailResult 12 |> WUint32 (wrap32 (mr_MailID r)) |> WUint32 (mr_Type r) |> WUint32 (mr_Status r) in
  let w := if mr_Status r =? MailResponseStatusEquipErr then w |> WUint32 (mr_BagResult r) else w in
  let w := if (mr_Type r =? MailResponseTypeItemTaken) &&
              ((mr_Status r =? MailResponseStatusOk) || (mr_Status r =? MailResponseStatusEquipErr))
           then w |> WUint32 (mr_AttachID r) |> WUint32 (mr_QtyInInventory r) else w in
  ToPacket w.

(** ** The list of the mails *)

(** A slot of an enchantment that is not supported yet. *)
Definition no_enchantments : Writer -> Writer := Nat.iter 7 (fun w => w |> WInt32 0 |> WInt32 0 |> WInt32 0).
Fixpoint write_attachments (i : Z) (l : list MailAttachment) (w : Writer) : Writer :=
  match l with
  | [] => w
  | a :: l =>
    write_attachments (i + 1) l
      (w |> WUint8 (wrap8 (i + 1)) |> WInt32 (ma_guid a) |> WInt32 (ma_entry a) |> no_enchantments |> WInt32 (ma_randomPropertyID a)
         |> WInt32 (ma_propertySeed a) |> WInt32 (ma_count a) |> WInt32 (ma_charges a) |> WInt32 (ma_durability a) |> WInt32 (ma_durability a)
         |> WUint8 0)
  end.
Definition PlayerToPlayer : Z := 0.
(** [uint16(len(s))] *)
Definition len16 (s : string) : u16 := wrap16 (Z.of_nat (String.length s)).
Definition mail_size (m : SessionMail) : u16 :=
  let senderSize := if ml_type m =? PlayerToPlayer then 8 else 4 in
  wrap16 (2 + 4 + 1 + senderSize + 4 + 4 + 4 + 4 + 4 + 4 + 4 + len16 (ml_subject m) + 1 + len16 (ml_body m) + 1 + 1 +
          wrap16 (len (ml_attachments m)) * (32 + 2 + 7 * 16)).
Definition write_mail (now : Z) (m : SessionMail) (w : Writer) : Writer :=
  let w := w |> WUint16 (mail_size m) |> WUint32 (ml_id m) |> WUint8 (wrap8 (ml_type m)) in
  let w := if ml_type m =? PlayerToPlayer then w |> WUint64 (ml_sender m) else w |> WInt32 (ml_sender m) in
  w |> WUint32 (wrap32 (ml_cashOnDelivery m)) |> WInt32 0 |> WInt32 (ml_stationery m) |> WUint32 (wrap32 (ml_moneyToSend m))
    |> WInt32 (ml_flags m) |> WFloat32 (days (ml_expirationTimestamp m - now)) |> WInt32 (ml_templateID m) |> WStr (ml_subject m)
    |> WStr (ml_body m) |> WUint8 (wrap8 (len (ml_attachments m))) |> write_attachments 0 (ml_attachments m).
Definition mail_list (now : Z) (mails : list SessionMail) : Writer :=
  NewWriterWithSize SMsgMailListResult 0 |> WUint32 (wrap32 (len mails)) |> WUint8 (wrap8 (len mails))
  |> write_all (write_mail now) (take MaxVisibleMailsCount mails).

Section Mail.
Context {env : SessionEnv}.

Definition mail_call {A : Set} (r : request A) : M A := wrap_err NewMailServiceUnavailableErr (call r).
Definition mail_result (mailID : Z) (t status : u8) : M unit :=
  client_SendPacket (mail_BuildPacket {| mr_MailID := mailID; mr_Type := t; mr_Status := status; mr_BagResult := 0; mr_AttachID := 0; mr_QtyInInventory := 0 |}).

Definition CanInteractWithMailingObject (object : u64) : M bool :=
  let high := GetHigh (New object) in
  if high =? ObjectGuid.GameObject then
    server ← game_client;
    c ← char;
    call (CanPlayerInteractWithGameObject server (c_GUID c) object 19)
  else if high =? ObjectGuid.Unit then
    server ← game_client;
    c ← char;
    call (CanPlayerInteractWithNPC server (c_GUID c) object 0x04000000)
  else mret false.
(** A mailbox out of reach is an error, which names the player. *)
Definition near_mailbox (mailBox : u64) : M unit :=
  canInteract ← CanInteractWithMailingObject mailBox;
  if canInteract : bool then mret tt else char ;; fail ErrOther.

(** ** Sending *)
Definition costForOneMail : Z := 30.
(** [int32(costForOneMail * attachmentsCount)]: the product of bytes. *)
Definition mail_cost (attachmentsCount : u8) : Z :=
  if 0 <? attachmentsCount then wrap8 (costForOneMail * attachmentsCount) else costForOneMail.
Definition int32 (x : Z) : Z := signed 32 (wrap32 x).
Definition read_attachment (r : Reader) : ObjectGuid * Reader :=
  let '(_, r) := Uint8 r in
  let '(raw, r) := Uint64 r in (New raw, r).
Definition attach (item : PlayerItem) : MailAttachment :=
  {| ma_guid := GetCounter (New (pi_guid item)); ma_entry := pi_entry item; ma_count := pi_count item; ma_flags := pi_flags item;
     ma_durability := int32 (pi_durability item); ma_charges := 0; ma_randomPropertyID := pi_randomPropertyID item; ma_propertySeed := 0;
     ma_text := pi_text item |}.
(** The items of the player, taken away; [None]: the client was told why not. *)
Definition take_items (server : string) (attachmentGUIDs : list u64) : M (option (list MailAttachment)) :=
  c ← char;
  items ← try_err (call (GetPlayerItemsByGuids server (c_GUID c) attachmentGUIDs));
  match items with
  | None => mail_result 0 MailResponseTypeMailSend MailResponseStatusMailAttachmentInvalid ;; fail ErrService
  | Some items =>
    if negb (length items =? length attachmentGUIDs)%nat then
      mail_result 0 MailResponseTypeMailSend MailResponseStatusMailAttachmentInvalid ;; fail ErrOther
    else if forallb pi_isTradable items then
      removedGUIDs ← call (RemoveItemsWithGuidsFromPlayer server (c_GUID c) attachmentGUIDs);
      guard_err (negb (length removedGUIDs =? length attachmentGUIDs)%nat) ErrOther ;;
      mret (Some (attach <$> items))
    else mail_result 0 MailResponseTypeMailSend MailResponseStatusMailAttachmentInvalid ;; mret None
  end.
Definition HandleSendMail (p : Packet) : M unit :=
  let '(mailBox, reader) := Uint64 (Packet_Reader p) in
  let '(target, reader) := RStr reader in
  let '(subject, reader) := RStr reader in
  let '(body, reader) := RStr reader in
  let '(_, reader) := Int32 reader in
  let '(_, reader) := Int32 reader in
  near_mailbox mailBox ;;
  let '(attachmentsCount, reader) := Uint8 reader in
  let '(attachmentGUIDs, reader) := read_many read_attachment (Z.to_nat attachmentsCount) reader in
  let '(moneyToSend, reader) := Int32 reader in
  let '(cashOnDelivery, reader) := Int32 reader in
  receiver ← call (CharacterByName realmID target);
  match receiver with
  | None => mail_result 0 MailResponseTypeMailSend MailResponseStatusRecipientNotFound
  | Some receiver =>
    let rawGuids := GetRawValue <$> attachmentGUIDs in
    server ← game_client;
    c ← char;
    money ← call (GetMoneyForPlayer server (c_GUID c));
    let requiredMoney := int32 (mail_cost attachmentsCount + moneyToSend) in
    if (requiredMoney <? moneyToSend) || (money <? wrap32 requiredMoney) then
      mail_result 0 MailResponseTypeMailSend MailResponseStatusNotEnoughMoney
    else
      attachmentsToSend ← (if 0 <? attachmentsCount then take_items server rawGuids else mret (Some []));
      match attachmentsToSend with
      | None => mret tt
      | Some attachmentsToSend =>
        call (ModifyMoneyForPlayer server (c_GUID c) (int32 (- requiredMoney))) ;;
        now ← gets clock;
        mail_call (MailSend realmID
          {| sm_senderGuid := Some (c_GUID c); sm_receiverGuid := nc_charGUID receiver; sm_subject := subject; sm_body := body;
             sm_moneyToSend := moneyToSend; sm_cashOnDelivery := cashOnDelivery; sm_attachments := attachmentsToSend;
             sm_deliveryTimestamp := (now + 30 * 1000000000) / 1000000000; sm_expirationTimestamp := 0; sm_type := 0; sm_templateID := 0;
             sm_stationery := 41 |}) ;;
        mail_result 0 MailResponseTypeMailSend MailResponseStatusOk
      end
  end.

(** ** Reading *)
Definition HandleGetMailList (p : Packet) : M unit :=
  let mailBox := (Uint64 (Packet_Reader p)).1 in
  near_mailbox mailBox ;;
  c ← char;
  mails ← mail_call (MailsForPlayer realmID (c_GUID c));
  now ← unix;
  client_Send (mail_list now mails).
Definition HandleMailMarksAsRead (p : Packet) : M unit :=
  let '(mailBox, reader) := Uint64 (Packet_Reader p) in
  let '(mailID, reader) := Int32 reader in
  near_mailbox mailBox ;;
  c ← char;
  mail_call (MarkAsReadForPlayer realmID (c_GUID c) mailID).
(** At most three mails that were not read, of those the client shows. *)
Definition unread_mails (mails : list SessionMail) : list SessionMail :=
  take 3 (filter (fun m => Z.land (ml_flags m) 1 = 0) (take MaxVisibleMailsCount mails)).
Definition write_unread (now : Z) (m : SessionMail) (w : Writer) : Writer :=
  w |> WUint64 (ml_sender m) |> WUint32 0 |> WUint32 (wrap32 (ml_type m)) |> WUint32 41
    |> WFloat32 (f32_bits (f32_of_int (ml_deliveryTimestamp m - now))).
Definition next_mail_time (now : Z) (unreadMails : list SessionMail) : Writer :=
  match last unreadMails with
  | None => NewWriterWithSize MsgQueryNextMailTime 8 |> WFloat32 (f32_bits (f32_of_int (-86400))) |> WUint32 0
  | Some m =>
    let nextCheck := Z.max 0 (ml_deliveryTimestamp m - now) in
    NewWriterWithSize MsgQueryNextMailTime 0 |> WFloat32 (f32_bits (f32_of_int nextCheck)) |> WUint32 (wrap32 (len unreadMails))
    |> write_all (write_unread now) unreadMails
  end.
Definition HandleQueryNextMailTime : M unit :=
  c ← char;
  mails ← mail_call (MailsForPlayer realmID (c_GUID c));
  now ← unix;
  client_Send (next_mail_time now (unread_mails mails)).
Definition HandleEventIncomingMail (e : mail_event) : M unit :=
  match e with
  | MailEventIncomingMail _ _ _ deliveryTimestamp _ =>
    now ← unix;
    client_Send (NewWriterWithSize SMsgReceivedMail 4 |> WFloat32 (f32_bits (f32_of_int (Z.max 0 (deliveryTimestamp - now)))))
  end.

(** ** Taking *)
Definition HandleMailTakeMoney (p : Packet) : M unit :=
  let '(mailBox, reader) := Uint64 (Packet_Reader p) in
  let '(mailID, reader) := Int32 reader in
  near_mailbox mailBox ;;
  w ← world;
  server ← GRPCConnByGameServerAddress (ws_Address w);
  c ← char;
  removed ← mail_call (RemoveMailMoney realmID (Some (c_GUID c)) mailID);
  if removed =? 0 then mail_result mailID MailResponseTypeMoneyTaken MailResponseStatusInternalError
  else
    call (ModifyMoneyForPlayer server (c_GUID c) removed) ;;
    mail_result mailID MailResponseTypeMoneyTaken MailResponseStatusOk.
(** What a mail with a price costs; [false]: the player cannot pay. *)
Definition pay_delivery (mailID cashOnDelivery : Z) : M bool :=
  if 0 <? cashOnDelivery then
    server ← game_client;
    c ← char;
    money ← call (GetMoneyForPlayer server (c_GUID c));
    if money <? wrap32 cashOnDelivery then
      mail_result mailID MailResponseTypeItemTaken MailResponseStatusNotEnoughMoney ;; mret false
    else call (ModifyMoneyForPlayer server (c_GUID c) (int32 (- cashOnDelivery))) ;; mret true
  else mret true.
Definition HandleMailTakeItem (p : Packet) : M unit :=
  let '(mailBox, reader) := Uint64 (Packet_Reader p) in
  let '(mailID, reader) := Int32 reader in
  let '(itemID, reader) := Int32 reader in
  near_mailbox mailBox ;;
  mail ← mail_call (MailByID realmID mailID);
  mail ← deref mail;
  c ← char;
  match find (fun a => ma_guid a =? wrap64 itemID) (ml_attachments mail) with
  | None =>
    mail_result mailID MailResponseTypeItemTaken MailResponseStatusMailAttachmentInvalid ;; fail ErrOther
  | Some item =>
    if negb (ml_receiverGuid mail =? c_GUID c) then
      mail_result mailID MailResponseTypeItemTaken MailResponseStatusMailAttachmentInvalid ;; fail ErrOther
    else
      paid ← pay_delivery mailID (ml_cashOnDelivery mail);
      if paid : bool then
        server ← game_client;
        status ← call (AddExistingItemToPlayer server (c_GUID c)
          {| ai_guid := GetRawValue (NewFromEntryAndCounter ObjectGuid.Item (ma_entry item) (wrap32 itemID)); ai_entry := ma_entry item;
             ai_count := ma_count item; ai_flags := ma_flags item; ai_durability := wrap32 (ma_durability item);
             ai_randomPropertyID := ma_randomPropertyID item; ai_text := ma_text item |});
        if status =? 1 then
          client_SendPacket (mail_BuildPacket
            {| mr_MailID := mailID; mr_Type := MailResponseTypeItemTaken; mr_Status := MailResponseStatusEquipErr; mr_BagResult := 4;
               mr_AttachID := 0; mr_QtyInInventory := 0 |})
        else
          call (RemoveMailItem realmID (Some (c_GUID c)) mailID (wrap64 itemID) (0 <? ml_cashOnDelivery mail)) ;;
          client_SendPacket (mail_BuildPacket
            {| mr_MailID := mailID; mr_Type := MailResponseTypeItemTaken; mr_Status := MailResponseStatusOk; mr_BagResult := 0;
               mr_AttachID := wrap32 itemID; mr_QtyInInventory := ma_count item |})
      else mret tt
  end.
Definition HandleDeleteMail (p : Packet) : M unit :=
  let '(mailBox, reader) := Uint64 (Packet_Reader p) in
  let '(mailID, reader) := Int32 reader in
  near_mailbox mailBox ;;
  mail ← mail_call (MailByID realmID mailID);
  mail ← deref mail;
  if 0 <? ml_cashOnDelivery mail then mail_result mailID MailResponseTypeDeleted MailResponseStatusInternalError
  else
    c ← char;
    if negb (ml_receiverGuid mail =? c_GUID c) then mail_result mailID MailResponseTypeDeleted MailResponseStatusInternalError
    else
      mail_call (DeleteMail realmID mailID) ;;
      mail_result mailID MailResponseTypeDeleted MailResponseStatusOk.
End Mail.
