(* ===== verification/SessionChannels.v ===== *)
(** * SessionChannels: the chat channels of a session
    (apps/gateway/session/channels.go, channels_moderation.go;
    shared/wow/race.go)

    A session remembers the channels of its player under their lower-cased
    names, and subscribes the player to the gateway's stream of each. *)
From S2P Require Import Prelude GoRuntime GoStrings Bytes ChatStreams Broadcaster Packet Opcodes SessionApi SessionState SessionGuild.

(** ** Races *)
Definition TeamHorde : u8 := 1.
Definition TeamAlliance : u8 := 2.
(** [Team.TeamID()], in the numbers of the protocol. *)
Definition team_TeamID (t : u8) : Z := if t =? TeamAlliance then 0 else if t =? TeamHorde then 1 else 2.
(** The teams of the races, by their ids from 0. *)
Definition DefaultRaces : list u8 :=
  [0; TeamAlliance; TeamHorde; TeamAlliance; TeamAlliance; TeamHorde; TeamHorde; TeamAlliance; TeamHorde; TeamAlliance; TeamHorde; TeamAlliance].
Definition getTeamID (c : LoggedInCharacter) : Z :=
  match DefaultRaces !! Z.to_nat (c_Race c) with Some t => team_TeamID t | None => 2 end.

Definition ChannelFlagCustom : u8 := 0x01.
Definition MemberFlagOwner : u8 := 0x01.
Definition MemberFlagModerator : u8 := 0x02.
Definition ChatJoinedNotice : u8 := 0x00.
Definition ChatLeftNotice : u8 := 0x01.
Definition ChatYouJoinedNotice : u8 := 0x02.
Definition ChatYouLeftNotice : u8 := 0x03.
Definition ChatWrongPasswordNotice : u8 := 0x04.
Definition ChatNotMemberNotice : u8 := 0x05.
Definition ChatNotModeratorNotice : u8 := 0x06.
Definition ChatPasswordChangedNotice : u8 := 0x07.
Definition ChatOwnerChangedNotice : u8 := 0x08.
Definition ChatPlayerNotFoundNotice : u8 := 0x09.
Definition ChatNotOwnerNotice : u8 := 0x0A.
Definition ChatModeChangeNotice : u8 := 0x0C.
Definition ChatAnnouncementsOnNotice : u8 := 0x0D.
Definition ChatAnnouncementsOffNotice : u8 := 0x0E.
Definition ChatModerationOnNotice : u8 := 0x0F.
Definition ChatModerationOffNotice : u8 := 0x10.
Definition ChatMutedNotice : u8 := 0x11.
Definition ChatPlayerKickedNotice : u8 := 0x12.
Definition ChatBannedNotice : u8 := 0x13.
Definition ChatPlayerBannedNotice : u8 := 0x14.
Definition ChatPlayerUnbannedNotice : u8 := 0x15.
Definition ChatPlayerNotBannedNotice : u8 := 0x16.
Definition ChatPlayerAlreadyMemberNotice : u8 := 0x17.
Definition ChatInviteNotice : u8 := 0x18.
Definition ChatInviteWrongFactionNotice : u8 := 0x19.
Definition ChatWrongFactionNotice : u8 := 0x1A.
Definition ChatPlayerInvitedNotice : u8 := 0x1D.
Definition ChatPlayerInviteBannedNotice : u8 := 0x1E.
Definition ChatThrottledNotice : u8 := 0x1F.
Definition ChatNotInAreaNotice : u8 := 0x20.
Definition ChatTypeChannel : u8 := 0x11.
(** The flags of the channels of ChatChannels.dbc. *)
Definition flagsMap (channelID : u32) : u32 :=
  if channelID =? 0 then 1 else if channelID =? 1 then 524291 else if channelID =? 2 then 59 else if channelID =? 22 then 65539
  else if channelID =? 23 then 65540 else if channelID =? 25 then 131122 else if channelID =? 26 then 262201 else 0.
Definition named_channel (name : string) : ChannelInfo := {| ci_Name := name; ci_ChannelID := 0; ci_Flags := 0 |}.
Definition is_custom (flags : u8) : bool := negb (Z.land flags ChannelFlagCustom =? 0).

(** ** Membership *)
Definition GetChannel (name : string) (cm : ChannelMembership) : option ChannelInfo := cm_channels cm !! ToLower name.
Definition IsMember (name : string) (cm : ChannelMembership) : bool := bool_decide (is_Some (GetChannel name cm)).
Definition with_channel (key : string) (ch : ChannelInfo) (stream : nat) (now : Z) (cm : ChannelMembership) : ChannelMembership :=
  let late := 5000000000 <? now - cm_lastJoin cm in
  let track := negb (cm_initialChannelsLoaded cm) in
  {| cm_channels := <[key := ch]> (cm_channels cm); cm_events := Some stream;
     cm_initialChannels := if track && negb late then <[key := ch]> (cm_initialChannels cm) else cm_initialChannels cm;
     cm_lastJoin := if track && negb late then now else cm_lastJoin cm;
     cm_initialChannelsLoaded := cm_initialChannelsLoaded cm || (track && late);
     cm_playerGUID := cm_playerGUID cm |}.
Definition without_channel (key : string) (cm : ChannelMembership) : ChannelMembership :=
  {| cm_channels := delete key (cm_channels cm); cm_events := cm_events cm; cm_initialChannels := cm_initialChannels cm;
     cm_lastJoin := cm_lastJoin cm; cm_initialChannelsLoaded := cm_initialChannelsLoaded cm; cm_playerGUID := cm_playerGUID cm |}.

Section Channels.
Context {env : SessionEnv}.

Definition AddChannel (name : string) (channelID : u32) (flags : u8) : M unit :=
  cm ← gets channelMembership;
  let normalizedName := ToLower name in
  stream ← in_broadcaster (with_chat (AddPlayerToChannel (cm_playerGUID cm) normalizedName));
  now ← gets clock;
  modify (set_membership (with_channel normalizedName {| ci_Name := name; ci_ChannelID := channelID; ci_Flags := flags |} stream now cm)).
Definition RemoveChannel (name : string) : M unit :=
  cm ← gets channelMembership;
  let normalizedName := ToLower name in
  modify (set_membership (without_channel normalizedName cm)) ;;
  in_broadcaster (with_chat (RemovePlayerFromChannel (cm_playerGUID cm) normalizedName)).
Definition my_channel (name : string) : M (option ChannelInfo) := gets (fun s => GetChannel name (channelMembership s)).
Definition am_member (name : string) : M bool := gets (fun s => IsMember name (channelMembership s)).

(** ** Notices *)
Definition header (ch : ChannelInfo) (notifyType : u8) : Writer := NewWriterWithSize SMsgChannelNotify 0 |> WUint8 notifyType |> WStr (ci_Name ch).
Definition Joined (ch : ChannelInfo) (playerGUID : u64) : M unit := client_Send (header ch ChatJoinedNotice |> WUint64 playerGUID).
Definition Left (ch : ChannelInfo) (playerGUID : u64) : M unit := client_Send (header ch ChatLeftNotice |> WUint64 playerGUID).
Definition YouJoined (ch : ChannelInfo) : M unit :=
  client_Send (header ch ChatYouJoinedNotice |> WUint8 (ci_Flags ch) |> WUint32 (if is_custom (ci_Flags ch) then 0 else ci_ChannelID ch) |> WUint32 0).
Definition YouLeft (ch : ChannelInfo) : M unit := client_Send (header ch ChatYouLeftNotice).
Definition ModeChange (ch : ChannelInfo) (playerGUID : u64) (oldFlags newFlags : u8) : M unit :=
  client_Send (header ch ChatModeChangeNotice |> WUint64 playerGUID |> WUint8 oldFlags |> WUint8 newFlags).
Definition PlayerName (ch : ChannelInfo) (notifyType : u8) (name : string) : M unit := client_Send (header ch notifyType |> WStr name).
Definition Simple (ch : ChannelInfo) (notifyType : u8) : M unit := client_Send (header ch notifyType).
Definition SendChannelMessage (channelName : string) (senderGUID : u64) (language : u32) (message : string) : M unit :=
  c ← char;
  client_Send (NewWriterWithSize SMsgMessageChat 0 |> WUint8 ChatTypeChannel |> WUint32 language |> WUint64 senderGUID |> WUint32 0
    |> WStr channelName |> WUint64 (c_GUID c) |> WUint32 (text_size message) |> WStr message |> WUint8 0).

(** ** Joining and leaving *)

(** What a status of the chat service is told as, when it has a notice. *)
Definition simple_notice (notices : list (Z * u8)) (status : Z) (ch : ChannelInfo) : M unit :=
  match find (fun p => p.1 =? status) notices with
  | Some (_, notice) => Simple ch notice
  | None => mret tt
  end.
Definition join_notices : list (Z * u8) :=
  [(1, ChatWrongPasswordNotice); (2, ChatBannedNotice); (3, ChatWrongFactionNotice); (4, ChatNotInAreaNotice); (5, ChatThrottledNotice)].
Definition HandleJoinChannel (p : Packet) : M unit :=
  let '(channelID, r) := Uint32 (Packet_Reader p) in
  let '(_, r) := Uint8 r in
  let '(_, r) := Uint8 r in
  let '(channelName, r) := RStr r in
  let '(password, r) := RStr r in
  w ← gets worldSocket;
  match (if channelID =? 0 then None else w) with
  | Some w => world_SendPacket w p
  | None =>
    c ← char;
    resp ← call (JoinChannel
      {| jr_realmID := realmID; jr_playerGUID := c_GUID c; jr_playerName := c_Name c; jr_teamID := getTeamID c; jr_channelName := channelName;
         jr_channelID := channelID; jr_password := password; jr_channelFlags := flagsMap channelID |});
    if ja_status resp =? 0 then
      joined ← deref (ja_channel resp);
      AddChannel channelName (jc_channelID joined) (wrap8 (jc_flags joined)) ;;
      ch ← my_channel channelName;
      ch ← deref ch;
      Joined ch (c_GUID c) ;;
      YouJoined ch ;;
      if is_custom (ci_Flags ch) && negb (Z.land (wrap8 (jc_memberFlags joined)) MemberFlagOwner =? 0)
      then ModeChange ch (c_GUID c) MemberFlagModerator (Z.lor MemberFlagModerator MemberFlagOwner)
      else mret tt
    else simple_notice join_notices (ja_status resp) (named_channel channelName)
  end.
Definition channel_request (c : LoggedInCharacter) (channelName arg : string) : ChannelRequest :=
  {| cr_realmID := realmID; cr_playerGUID := c_GUID c; cr_channelName := channelName; cr_arg := arg; cr_teamID := getTeamID c |}.
Definition HandleLeaveChannel (p : Packet) : M unit :=
  let '(_, r) := Uint32 (Packet_Reader p) in
  let '(channelName, r) := RStr r in
  c ← char;
  status ← call (LeaveChannel (channel_request c channelName ""));
  if status =? 0 then RemoveChannel channelName ;; YouLeft (named_channel channelName)
  else simple_notice [(1, ChatNotMemberNotice)] status (named_channel channelName).
Definition write_channel_member (m : u64 * u32) (w : Writer) : Writer := w |> WUint64 m.1 |> WUint8 (wrap8 m.2).
Definition HandleChannelList (p : Packet) : M unit :=
  let channelName := (RStr (Packet_Reader p)).1 in
  c ← char;
  resp ← call (GetChannelList (channel_request c channelName ""));
  if negb (la_status resp =? 0) then mret tt
  else
    ch ← my_channel channelName;
    match ch with
    | None => mret tt
    | Some ch =>
      client_Send (NewWriterWithSize SMsgChannelList 0 |> WUint8 1 |> WStr channelName |> WUint8 (ci_Flags ch)
        |> WUint32 (wrap32 (len (la_members resp))) |> write_all write_channel_member (la_members resp))
    end.
Definition SendChannelMessageToChat (channelName message : string) (language : u32) : M unit :=
  c ← char;
  status ← call (SessionApi.SendChannelMessage
    {| mr_realmID := realmID; mr_senderGUID := c_GUID c; mr_senderName := c_Name c; mr_channelName := channelName; mr_language := language;
       mr_message := message; mr_teamID := getTeamID c |});
  if status =? 0 then SendChannelMessage channelName (c_GUID c) language message
  else simple_notice [(1, ChatNotMemberNotice); (2, ChatMutedNotice); (3, ChatThrottledNotice)] status (named_channel channelName).

(** ** Moderation *)

(** The request of a moderator: the notice of a success and of each refusal,
    shown in a channel the session knows; [true]: with the name of the
    target. *)
Definition moderate (request_of : ChannelRequest -> request Z) (notices : list (Z * (u8 * bool))) (p : Packet) : M unit :=
  let '(channelName, r) := RStr (Packet_Reader p) in
  let '(arg, r) := RStr r in
  c ← char;
  status ← call (request_of (channel_request c channelName arg));
  ch ← my_channel channelName;
  match ch with
  | None => mret tt
  | Some ch =>
    match find (fun n => n.1 =? status) notices with
    | None => mret tt
    | Some (_, (notice, named)) => if named : bool then PlayerName ch notice arg else Simple ch notice
    end
  end.
Definition denied_moderator : list (Z * (u8 * bool)) := [(1, (ChatNotMemberNotice, false)); (2, (ChatNotModeratorNotice, false))].
Definition denied_owner : list (Z * (u8 * bool)) := [(1, (ChatNotMemberNotice, false)); (2, (ChatNotOwnerNotice, false))].
Definition no_player : Z * (u8 * bool) := (3, (ChatPlayerNotFoundNotice, true)).
Definition HandleChannelPassword : Packet -> M unit := moderate SetChannelPassword ((0, (ChatPasswordChangedNotice, false)) :: denied_owner).
Definition HandleChannelSetOwner : Packet -> M unit :=
  moderate SetChannelOwner ((0, (ChatOwnerChangedNotice, true)) :: denied_owner ++ [no_player]).
Definition HandleChannelSetModerator : Packet -> M unit :=
  moderate SetChannelModerator ((0, (ChatModeChangeNotice, true)) :: denied_owner ++ [no_player]).
Definition HandleChannelUnsetModerator : Packet -> M unit :=
  moderate UnsetChannelModerator ((0, (ChatModeChangeNotice, true)) :: denied_owner ++ [no_player]).
Definition HandleChannelMute : Packet -> M unit :=
  moderate SetChannelMute ((0, (ChatMutedNotice, true)) :: denied_moderator ++ [no_player]).
Definition HandleChannelUnmute : Packet -> M unit :=
  moderate UnsetChannelMute ((0, (ChatMutedNotice, true)) :: denied_moderator ++ [no_player]).
Definition HandleChannelInvite : Packet -> M unit :=
  moderate InviteToChannel
    [(0, (ChatPlayerInvitedNotice, true)); (1, (ChatNotMemberNotice, false)); (2, (ChatPlayerNotFoundNotice, true));
     (3, (ChatPlayerAlreadyMemberNotice, true)); (4, (ChatInviteWrongFactionNotice, false)); (5, (ChatPlayerInviteBannedNotice, true))].
Definition HandleChannelKick : Packet -> M unit :=
  moderate KickFromChannel ((0, (ChatPlayerKickedNotice, true)) :: denied_moderator ++ [no_player]).
Definition HandleChannelBan : Packet -> M unit :=
  moderate BanFromChannel ((0, (ChatPlayerBannedNotice, true)) :: denied_moderator ++ [no_player]).
Definition HandleChannelUnban : Packet -> M unit :=
  moderate UnbanFromChannel ((0, (ChatPlayerUnbannedNotice, true)) :: denied_moderator ++ [(3, (ChatPlayerNotBannedNotice, true))]).
Definition toggle (request_of : ChannelRequest -> request ToggleAnswer) (on off : u8) (p : Packet) : M unit :=
  let channelName := (RStr (Packet_Reader p)).1 in
  c ← char;
  resp ← call (request_of (channel_request c channelName ""));
  ch ← my_channel channelName;
  match ch with
  | None => mret tt
  | Some ch =>
    if ta_status resp =? 0 then Simple ch (if ta_enabled resp then on else off)
    else simple_notice [(1, ChatNotMemberNotice); (2, ChatNotModeratorNotice)] (ta_status resp) ch
  end.
Definition HandleChannelAnnouncements : Packet -> M unit := toggle ToggleChannelAnnouncements ChatAnnouncementsOnNotice ChatAnnouncementsOffNotice.
Definition HandleChannelModerate : Packet -> M unit := toggle ToggleChannelModeration ChatModerationOnNotice ChatModerationOffNotice.

(** ** Events *)
Definition is_self (guid : u64) : M bool := gets (fun s => match character s with Some c => c_GUID c =? guid | None => false end).
Definition HandleEventChannelMessage (e : ChannelMessagePayload) : M unit :=
  member ← am_member (cm_ChannelName e);
  self ← is_self (cm_SenderGUID e);
  if negb member || self then mret tt
  else SendChannelMessage (cm_ChannelName e) (cm_SenderGUID e) (cm_Language e) (cm_Message e).
Definition HandleEventChannelJoined (e : ChannelJoinedPayload) : M unit :=
  member ← am_member (cj_ChannelName e);
  self ← is_self (cj_PlayerGUID e);
  if negb member || self then mret tt
  else
    ch ← my_channel (cj_ChannelName e);
    if match ch with Some ch => negb (is_custom (ci_Flags ch)) | None => false end then mret tt
    else Joined (named_channel (cj_ChannelName e)) (cj_PlayerGUID e).
Definition HandleEventChannelLeft (e : ChannelLeftPayload) : M unit :=
  member ← am_member (cl_ChannelName e);
  self ← is_self (cl_PlayerGUID e);
  if negb member || self then mret tt else Left (named_channel (cl_ChannelName e)) (cl_PlayerGUID e).
Definition HandleEventChannelNotification (e : ChannelNotificationPayload) : M unit :=
  member ← am_member (cn_ChannelName e);
  if negb member && negb (cn_NotifyType e =? ChatInviteNotice) then mret tt
  else
    let w := NewWriterWithSize SMsgChannelNotify 0 |> WUint8 (cn_NotifyType e) |> WStr (cn_ChannelName e) in
    client_Send
      (if cn_NotifyType e =? ChatOwnerChangedNotice then w |> WUint64 (cn_TargetGUID e)
       else if cn_NotifyType e =? ChatModeChangeNotice then w |> WUint64 (cn_TargetGUID e) |> WUint8 (cn_OldFlags e) |> WUint8 (cn_NewFlags e)
       else if cn_NotifyType e =? ChatInviteNotice then w |> WUint64 (cn_TargetGUID e)
       else w).

(** ** Channels of the game server *)
Definition leave_and_forget (name : string) : M unit :=
  c ← char;
  call (LeaveChannel (channel_request c name "")) ;;
  RemoveChannel name.
(** The zone changed: out of the channel with the same number. *)
Definition leave_same_id (channelID : u32) : M unit :=
  if channelID =? 0 then mret tt
  else
    cm ← gets channelMembership;
    match find (fun e => ci_ChannelID e.2 =? channelID) (go_range 0 (cm_channels cm)) with
    | None => mret tt
    | Some (_, ch) => leave_and_forget (ci_Name ch)
    end.
Definition InterceptWorldserverChannelNotify (p : Packet) : M unit :=
  let '(notifyType, r) := Uint8 (Packet_Reader p) in
  let '(channelName, r) := RStr r in
  let '(flags, r) := Uint8 r in
  let '(channelID, r) := Uint32 r in
  if is_custom flags then mret tt
  else if notifyType =? ChatYouLeftNotice then leave_and_forget channelName ;; client_SendPacket p
  else if notifyType =? ChatYouJoinedNotice then
    leave_same_id channelID ;;
    c ← char;
    call (JoinChannel
      {| jr_realmID := realmID; jr_playerGUID := c_GUID c; jr_playerName := c_Name c; jr_teamID := getTeamID c; jr_channelName := channelName;
         jr_channelID := channelID; jr_password := ""; jr_channelFlags := flags |}) ;;
    AddChannel channelName channelID flags ;;
    client_SendPacket p
  else mret tt.
(** The packets of the client that joined the channels of the first seconds. *)
Fixpoint rejoin_loop (chs : list ChannelInfo) : M unit :=
  match chs with
  | [] => mret tt
  | ch :: chs =>
    (if negb (ci_ChannelID ch =? 0) then
       w ← world;
       world_SendPacket w (ToPacket (NewWriterWithSize CMsgJoinChannel 0 |> WUint32 (ci_ChannelID ch) |> WUint8 0 |> WUint8 0
         |> WStr (ci_Name ch) |> WStr ""))
     else mret tt) ;;
    rejoin_loop chs
  end.
Definition RejoinWorldserverToSystemChannels : M unit :=
  cm ← gets channelMembership;
  rejoin_loop (go_range 1 (cm_initialChannels cm)).*2.
End Channels.
