(* ===== verification/SessionWorld.v ===== *)
(** * SessionWorld: the game server of a session
    (apps/gateway/session/session.go, interceptors.go, movements.go,
    battleground.go)

    Connecting to a game server, what the session reads out of its packets,
    and changing it: teleports, battlegrounds, lost connections.  A player may
    be moved while connected: the old game server is asked to save first. *)
From stdpp Require Import pretty.
From S2P Require Import Prelude GoRuntime GoStrings Bytes ObjectGuid Battleground OnlineCharacters UpdatesBarrier ChatStreams Broadcaster Packet Opcodes SessionApi SessionState SessionGuild SessionGroups SessionChannels.

Section World.
Context {env : SessionEnv}.

(** ** Waiting for a game server *)

(** The session takes packets from the tape until [f] is content; [closed] and
    [timeout] are what else can happen. *)
Fixpoint wait_packet {A} (f : Packet -> M (option A)) (closed timeout : M A) (rs : list world_read) : M A :=
  match rs with
  | [] => timeout
  | RTimeout :: rs => modify (set_reads rs) ;; timeout
  | RClosed :: rs => modify (set_reads rs) ;; closed
  | RPacket p :: rs =>
    modify (set_reads rs) ;;
    o ← f p;
    match o with Some a => mret a | None => wait_packet f closed timeout rs end
  end.
Definition wait_world {A} (f : Packet -> M (option A)) (closed timeout : M A) : M A :=
  rs ← gets reads; wait_packet f closed timeout rs.

(** ** Connecting *)
Definition initial_packet (p : Packet) : M (option unit) :=
  if (Opcode p =? SMsgAuthChallenge) || (Opcode p =? SMsgAuthResponse) then mret (Some tt)
  else client_SendPacket p ;; mret None.
Definition connectToGameServerWithAddress (characterGUID : u64) (gameserverAddress : string) (preLoginHook : M unit) : M world_socket :=
  socket ← WorldSocketCreator gameserverAddress;
  world_SendPacket socket authPacket ;;
  wait_world initial_packet (fail ErrSocketClosed) (fail ErrTimeout) ;;
  ext ErrContext ;;
  preLoginHook ;;
  world_Send socket (NewWriterWithSize CMsgPlayerLogin 8 |> WUint64 characterGUID) ;;
  mret socket.
(** The connection of the game server's client, or nil with the error. *)
Definition choose_client (address : string) : M unit :=
  conn ← try_err (GRPCConnByGameServerAddress address);
  modify (set_client conn) ;;
  guard_err (bool_decide (conn = None)) ErrGrpcConn.
Definition connectToGameServer (characterGUID : u64) (mapID : option u32) (preLoginHook : M unit) : M (LogInCharacter * world_socket) :=
  r ← call (CharactersToLoginByGUID characterGUID realmID);
  char ← not_nil ErrCharacterNotFound r;
  let mapIDToLogin := default (lc_map char) mapID in
  servers ← call (AvailableGameServersForMapAndRealm realmID mapIDToLogin);
  server ← not_nil ErrInstanceNotFound (head servers);
  AddAddressMapping (srv_address server) (srv_grpcAddress server) ;;
  choose_client (srv_address server) ;;
  socket ← connectToGameServerWithAddress characterGUID (srv_address server) preLoginHook;
  mret (char, socket).

(** ** Packets the session looks into *)
Definition InterceptInitWorldStates (p : Packet) : M unit :=
  client_SendPacket p ;;
  let '(mapID, reader) := Int32 (Packet_Reader p) in
  let '(zoneID, reader) := Int32 reader in
  let '(areaID, reader) := Int32 reader in
  c ← char;
  (if negb (c_Map c =? wrap32 mapID) then
     emit (EBarrier (UpdatesBarrier.Map (c_GUID c) (wrap32 mapID))) ;; update_char (set_Map (wrap32 mapID))
   else mret tt) ;;
  (if negb (c_Zone c =? wrap32 zoneID) then
     emit (EBarrier (UpdatesBarrier.Zone (c_GUID c) (wrap32 areaID) (wrap32 zoneID))) ;; update_char (set_Zone (wrap32 zoneID))
   else mret tt).
Definition InterceptLevelUpInfo (p : Packet) : M unit :=
  client_SendPacket p ;;
  let lvl := wrap8 (Int32 (Packet_Reader p)).1 in
  c ← char;
  if negb (c_Level c =? lvl) then emit (EBarrier (UpdatesBarrier.Level (c_GUID c) lvl)) ;; update_char (set_Level lvl) else mret tt.
Definition InterceptNewWorld (p : Packet) : M unit :=
  let mapID := (Uint32 (Packet_Reader p)).1 in
  c ← char;
  (if bool_decide (c_ignoreNextInterceptToNewMap c = Some mapID) then mret tt else modify (set_teleporting (Some mapID))) ;;
  client_SendPacket p.
Definition InterceptMessageOfTheDay (p : Packet) : M unit :=
  k ← gets packetSendingControl;
  if motdSent k then mret tt
  else
    modify (set_control {| motdSent := true; accountDataTimesGlobalSent := accountDataTimesGlobalSent k;
                           accountDataTimesPerCharSent := accountDataTimesPerCharSent k |}) ;;
    client_SendPacket p.
Definition globalMask : u32 := 0x15.
Definition perCharMask : u32 := 0xEA.
Definition InterceptAccountDataTimes (p : Packet) : M unit :=
  let '(_, r) := Uint32 (Packet_Reader p) in
  let '(_, r) := Uint8 r in
  let '(mask, r) := Uint32 r in
  k ← gets packetSendingControl;
  if mask =? globalMask then
    if accountDataTimesGlobalSent k then mret tt
    else
      modify (set_control {| motdSent := motdSent k; accountDataTimesGlobalSent := true;
                             accountDataTimesPerCharSent := accountDataTimesPerCharSent k |}) ;;
      client_SendPacket p
  else if mask =? perCharMask then
    if accountDataTimesPerCharSent k then mret tt
    else
      modify (set_control {| motdSent := motdSent k; accountDataTimesGlobalSent := accountDataTimesGlobalSent k;
                             accountDataTimesPerCharSent := true |}) ;;
      client_SendPacket p
  else client_SendPacket p.
Definition realm_name (realm : u32) : string :=
  match (NameByID realm (Sys realmNames [] [])).1 with Ok name => name | _ => "unknown realm" end.
(** A guid that cannot be packed within its nine bytes panics. *)
Definition InterceptSMsgNameQueryResponse (p : Packet) : M unit :=
  let '(charGUID, reader) := ReadGUID (Packet_Reader p) in
  let '(isNotFound, reader) := Uint8 reader in
  if isNotFound =? 0 then client_SendPacket p
  else
    let g := New charGUID in
    found ← call (ShortOnlineCharactersDataByGUIDs (GetRealmID g) [GetCounter g]);
    match found with
    | [] => client_SendPacket p
    | playerData :: _ =>
      w ← deref (WGUID charGUID (NewWriterWithSize SMsgNameQueryResponse 0));
      let w := w |> WUint8 0 |> WStr (sc_charName playerData) in
      let w := if GetRealmID g =? wrap16 realmID then w |> WUint8 0 else w |> WStr (realm_name (GetRealmID g)) in
      client_Send (w |> WUint8 (wrap8 (sc_charRace playerData)) |> WUint8 (wrap8 (sc_charGender playerData))
                     |> WUint8 (wrap8 (sc_charClass playerData)) |> WUint8 0)
    end.
(** The packet goes on even when the handler panics. *)
Definition forward_movement (p : Packet) : M unit :=
  w ← gets worldSocket;
  match (if Source p =? SourceGameClient then w else None) with
  | Some w => world_SendPacket w p
  | None => if Source p =? SourceWorldServer then client_SendPacket p else mret tt
  end.
Definition HandleMovement (p : Packet) : M unit :=
  if Source p =? SourceWorldServer then forward_movement p
  else
    let '(mover, r) := ReadGUID (Packet_Reader p) in
    c ← gets character;
    match c with
    | None => forward_movement p ;; panic
    | Some c =>
      (if negb (mover =? c_GUID c) then mret tt
       else
         let '(_, r) := Uint32 r in
         let '(_, r) := Uint16 r in
         let '(_, r) := Uint32 r in
         let '(x, r) := Float32 r in
         let '(y, r) := Float32 r in
         let '(z, r) := Float32 r in
         let '(o, r) := Float32 r in
         update_char (set_Position (x, y, z, o))) ;;
      forward_movement p
    end.

(** ** Moving to another game server *)

(** The game server saves the player and says whether it is ready; a closed
    connection is as good. *)
Definition ready_packet (p : Packet) : M (option bool) :=
  mret (if Opcode p =? TC9SMsgReadyForRedirect then Some ((Uint8 (Packet_Reader p)).1 =? 0) else None).
Definition prepare_redirect : M unit :=
  w ← world;
  world_Send w (NewWriterWithSize TC9CMsgPrepareForRedirect 0) ;;
  isReadyForRedirect ← wait_world ready_packet (mret true) (mret false);
  guard_err (negb isReadyForRedirect) ErrOther ;;
  world_Close w ;;
  modify (set_worldSocket None).
Definition redirected_text (old new : string) : string := "You have been redirected from " +:+ old +:+ " to " +:+ new +:+ " gameserver.".
Definition InterceptMoveWorldPortAck (p : Packet) : M unit :=
  w ← gets worldSocket;
  w ← not_nil ErrOther w;
  world_SendPacket w p ;;
  t ← gets teleportingToNewMap;
  match t with
  | None => mret tt
  | Some mapID =>
    c ← char;
    (if c_GroupMangedByGameServer c then update_char (set_GroupManaged false) ;; LoadGroupForPlayer else mret tt) ;;
    modify (set_teleporting None) ;;
    update_char (set_ignoreNext None) ;;
    servers ← call (AvailableGameServersForMapAndRealm realmID mapID);
    server ← not_nil ErrInstanceNotFound (head servers);
    if String.eqb (srv_address server) (ws_Address w) then mret tt
    else
      prepare_redirect ;;
      modify (fun s => set_spawned (spawned s ++ [Redirect p (c_GUID c) mapID (ws_Address w) (srv_address server)]) s)
  end.
Definition new_world (mapID x y z : u32) : Writer :=
  NewWriterWithSize SMsgNewWorld 0 |> WUint32 mapID |> WFloat32 x |> WFloat32 y |> WFloat32 z |> WFloat32 0.
Definition HandleReadyForRedirectRequest : M unit :=
  old ← world;
  c ← char;
  r ← try_err (connectToGameServer (c_GUID c) None (mret tt));
  match r with
  | None => fail ErrOther
  | Some (char, socket) =>
    client_Send (new_world (lc_map char) (lc_positionX char) (lc_positionY char) (lc_positionZ char)) ;;
    modify (set_worldSocket (Some socket)) ;;
    if showGameserverConnChangeToClient then SendSysMessage (redirected_text (ws_Address old) (ws_Address socket)) else mret tt
  end.
Definition LoginErrorCodeWorldServerIsDown : u8 := 1.
Definition login_failed (code : u8) : Writer := NewWriterWithSize SMsgCharacterLoginFailed 1 |> WUint8 code.
Definition push_fun (f : safe_fun) : M unit := modify (fun s => set_safeFuns (sessionSafeFuChan s ++ [f]) s).
Definition push_goroutine (g : goroutine) : M unit := modify (fun s => set_spawned (spawned s ++ [g]) s).

(** ** Goroutines *)
Definition save_position (snap : LoggedInCharacter) : M unit :=
  let '(x, y, z, o) := c_Position snap in
  log_err (call (SavePlayerPosition realmID (c_GUID snap) {| pos_mapID := c_Map snap; pos_x := x; pos_y := y; pos_z := z; pos_o := o |})).
(** The attempts to reconnect; the pause before all but the first ends with the
    session's context. *)
Inductive attempt := Connected (char : LogInCharacter) (socket : world_socket) | GaveUp | SessionOver.
Fixpoint reconnect_loop (retries : nat) (first : bool) (snap : LoggedInCharacter) : M attempt :=
  match retries with
  | O => mret GaveUp
  | S retries =>
    pause ← (if first then mret (Some tt) else try_err (ext ErrContext));
    match pause with
    | None => mret SessionOver
    | Some _ =>
      r ← try_err (connectToGameServer (c_GUID snap) None (save_position snap));
      match r with
      | Some (char, socket) => mret (Connected char socket)
      | None =>
        alive ← try_err (ext ErrContext);
        match alive with None => mret SessionOver | Some _ => reconnect_loop retries false snap end
      end
    end
  end.
(** A send to the session, which ends with its context. *)
Definition hand_over (f : safe_fun) (socket : world_socket) : M unit :=
  alive ← try_err (ext ErrContext);
  match alive with Some _ => push_fun f | None => world_Close socket end.
Definition reconnect (snap : LoggedInCharacter) : M unit :=
  SendSysMessage "Lost connection with world server... trying to recover." ;;
  r ← reconnect_loop 3 true snap;
  match r with
  | SessionOver => mret tt
  | GaveUp =>
    SendSysMessage "Failed to recover. Returning to character screen." ;;
    client_Send (login_failed LoginErrorCodeWorldServerIsDown)
  | Connected char socket =>
    let '(x, y, z, _) := c_Position snap in
    client_Send (new_world (lc_map char) x y z) ;;
    hand_over (Recovered socket) socket
  end.
Definition redirect (p : Packet) (charGUID : u64) (mapID : u32) (old new : string) : M unit :=
  r ← try_err (connectToGameServer charGUID (Some mapID) (mret tt));
  match r with
  | None => client_Send (login_failed LoginErrorCodeWorldServerIsDown)
  | Some (_, socket) =>
    client_SendPacket p ;;
    hand_over (Redirected socket old new) socket
  end.
(** A goroutine that was started runs, unless the session is over. *)
Definition run_goroutine (g : goroutine) : M unit :=
  alive ← try_err (ext ErrContext);
  match alive with
  | None => mret tt
  | Some _ =>
    match g with
    | Reconnect snap => reconnect snap
    | Redirect p charGUID mapID old new => redirect p charGUID mapID old new
    | RejoinLater => push_fun RejoinChannels
    end
  end.
Definition onWorldSocketClosed : M unit :=
  c ← gets character;
  match c with None => mret tt | Some snap => push_goroutine (Reconnect snap) end.
(** A closure of [sessionSafeFuChan]. *)
Definition adopt (socket : world_socket) : M unit :=
  c ← gets character;
  match c with None => mret tt | Some _ => modify (set_worldSocket (Some socket)) end.
Definition run_safe_fun (f : safe_fun) : M unit :=
  match f with
  | Recovered socket =>
    adopt socket ;;
    SendSysMessage (if showGameserverConnChangeToClient
                    then "Connection recovered! New gameserver: " +:+ ws_Address socket +:+ ". Sorry for inconvenience."
                    else "Connection recovered! Sorry for inconvenience.")
  | Redirected socket old new =>
    adopt socket ;;
    (if showGameserverConnChangeToClient then SendSysMessage (redirected_text old new) else mret tt) ;;
    push_goroutine RejoinLater
  | RejoinChannels => RejoinWorldserverToSystemChannels
  end.

(** ** Battlegrounds *)
Definition HandleEnqueueToBattleground (p : Packet) : M unit :=
  let '(_, r) := Uint64 (Packet_Reader p) in
  let '(bgTypeID, r) := Uint32 r in
  let '(_, r) := Uint32 r in
  let '(joinAsGroup, r) := Uint8 r in
  members ← (if 0 <? joinAsGroup then
               c ← char;
               group ← group_call (GetGroupByMember realmID (c_GUID c));
               group ← deref group;
               mret (gm_guid <$> filter (fun m => gm_guid m <> c_GUID c) (gr_members group))
             else mret []);
  w ← world;
  server ← GRPCConnByGameServerAddress (ws_Address w);
  c ← char;
  status ← try_err (call (CanPlayerJoinBattlegroundQueue server (c_GUID c)));
  if bool_decide (status = Some 0) then
    team ← deref (DefaultRaces !! Z.to_nat (c_Race c));
    call (EnqueueToBattleground realmID
      {| eq_leaderGUID := c_GUID c; eq_partyMembers := members; eq_leadersLvl := c_Level c; eq_bgTypeID := bgTypeID;
         eq_teamID := if team =? TeamHorde then 2 else 1 |}) ;;
    update_char (set_waiting true)
  else client_Send (NewWriterWithSize SMsgGroupJoinedBattleground 4 |> WInt32 (-2)).
Definition no_battlefield : Writer := NewWriterWithSize SMsgBattlefieldStatus 10 |> WUint32 0 |> WUint64 0.
Definition leaveBattlegroundQueue (bgTypeID : u32) : M unit :=
  c ← char;
  call (RemovePlayerFromQueue realmID (c_GUID c) bgTypeID) ;;
  client_Send no_battlefield.
Definition battlegroundPlayerRedirect (playerGuid : u64) (desiredGameServerAddress : string) : M unit :=
  old ← world;
  prepare_redirect ;;
  newSocket ← connectToGameServerWithAddress playerGuid desiredGameServerAddress (mret tt);
  wait_world (fun _ => mret (Some tt)) (fail ErrSocketClosed) (fail ErrTimeout) ;;
  modify (set_worldSocket (Some newSocket)) ;;
  if showGameserverConnChangeToClient then SendSysMessage (redirected_text (ws_Address old) desiredGameServerAddress) else mret tt.
(** Only the packet of the new world is let through. *)
Definition only_new_world (p : Packet) : M (option unit) :=
  if negb (Opcode p =? SMsgNewWorld) then mret None
  else
    let mapID := (Uint32 (Packet_Reader p)).1 in
    c ← char;
    (if negb (mapID =? c_Map c) then client_Send (NewWriterWithSize SMsgTransferPending 0 |> WUint32 mapID) else mret tt) ;;
    client_SendPacket p ;;
    mret (Some tt).
Definition processWorldPacketsInPlace (f : Packet -> M (option unit)) : M unit :=
  w ← gets worldSocket;
  match w with None => mret tt | Some _ => wait_world f (fail ErrSocketClosed) (fail ErrTimeout) end.
Definition enterBattleground : M unit :=
  c ← char;
  slots ← call (BattlegroundQueueDataForPlayer realmID (c_GUID c));
  match slots with
  | [] => mret tt
  | slot :: _ =>
    bgData ← not_nil ErrOther (qs_assigned slot);
    AddAddressMapping (ab_gameserverAddress bgData) (ab_gameserverGRPCAddress bgData) ;;
    w ← world;
    update_char (set_ignoreNext (Some (ab_mapID bgData))) ;;
    let isCrossrealm := negb (ab_battlegroupID bgData =? 0) in
    let playerGUID := if isCrossrealm then GetRawValue (NewCrossrealmPlayerGUID (wrap16 realmID) (wrap32 (c_GUID c))) else c_GUID c in
    (if String.eqb (ab_gameserverAddress bgData) (ws_Address w) then mret tt
     else battlegroundPlayerRedirect playerGUID (ab_gameserverAddress bgData)) ;;
    server ← GRPCConnByGameServerAddress (ab_gameserverAddress bgData);
    call (AddPlayersToBattleground server (qs_bgTypeID slot) (ab_instanceID bgData) [playerGUID] []) ;;
    call (PlayerJoinedBattleground realmID (c_GUID c) (ab_instanceID bgData) isCrossrealm) ;;
    update_char (set_GroupManaged true) ;;
    log_err (processWorldPacketsInPlace only_new_world)
  end.
Definition HandleBattlegroundPort (p : Packet) : M unit :=
  let '(_, r) := Uint8 (Packet_Reader p) in
  let '(_, r) := Uint8 r in
  let '(bgTypeID, r) := Uint32 r in
  let '(_, r) := Uint16 r in
  let '(action, r) := Uint8 r in
  if action =? 0 then leaveBattlegroundQueue bgTypeID
  else if action =? 1 then enterBattleground
  else fail ErrOther.

(** The matchmaking server has no arenas and no ratings. *)
Definition BattlegroundStatusInQueue : u32 := 1.
Definition BattlegroundStatusInvited : u32 := 2.
Definition battlefield_status (slot : u8) (typeID minLvl maxLvl : u8) (status : u32) : Writer :=
  NewWriterWithSize SMsgBattlefieldStatus 0 |> WUint32 slot |> WUint8 0 |> WUint8 0 |> WUint32 typeID |> WUint16 0x1F90 |> WUint8 minLvl
  |> WUint8 maxLvl |> WUint32 0 |> WUint8 0 |> WUint32 status.
Definition slot_of (slots : gmap u32 u8) (c : LoggedInCharacter) : u8 := default 0 (slots !! wrap32 (c_GUID c)).
Definition HandleEventMMJoinedPVPQueue (e : mm_event) : M unit :=
  match e with
  | PlayersQueued _ _ slots minLvl maxLvl typeID =>
    c ← char;
    client_Send (battlefield_status (slot_of slots c) typeID minLvl maxLvl BattlegroundStatusInQueue |> WUint32 0 |> WUint32 0) ;;
    update_char (set_waiting false) ;;
    match c_pendingInvitePacket c with
    | None => mret tt
    | Some p => client_SendPacket p ;; update_char (set_pending None)
    end
  | _ => panic
  end.
Definition HandleEventMMInvitedToBGOrArena (e : mm_event) : M unit :=
  match e with
  | PlayersInvited _ _ slots minLvl maxLvl typeID mapID timeToAccept =>
    c ← char;
    let resp := battlefield_status (slot_of slots c) typeID minLvl maxLvl BattlegroundStatusInvited |> WUint32 mapID |> WUint64 0 |> WUint32 timeToAccept in
    if c_waitingJoinToQueue c then update_char (set_pending (Some (ToPacket resp))) else client_Send resp
  | _ => panic
  end.
Definition HandleEventMMInviteToBGOrArenaExpired : M unit := client_Send no_battlefield.
End World.
