(* ===== verification/SessionChat.v ===== *)
(** * SessionChat: messages and commands of a session
    (apps/gateway/session/chat.go) *)
From stdpp Require Import pretty.
From Stdlib Require Import Ascii.
From S2P Require Import Prelude GoRuntime GoStrings Bytes ChatStreams Broadcaster Packet Opcodes SessionApi SessionState SessionGuild SessionGroups SessionChannels.

Definition ChatTypeSay : u8 := 1.
Definition ChatTypeParty : u8 := 2.
Definition ChatTypeRaid : u8 := 3.
Definition ChatTypeWhisper : u8 := 7.
Definition ChatTypeWhisperInform : u8 := 9.
Definition ChatTypeRaidLeader : u8 := 0x27.
Definition ChatTypePartyLeader : u8 := 0x33.
Definition TC9CommandPrefix : string := ".tc9 ".
(** [s[n:]] *)
Fixpoint drop_chars (n : nat) (s : string) : string :=
  match n, s with
  | S n, String _ s => drop_chars n s
  | _, _ => s
  end.
(** [fmt.Sprintf("%d ", x)] of each. *)
Definition spaced (xs : list u32) : string := foldl (fun acc x => acc +:+ fmt_d x +:+ " ") "" xs.
Definition maxMapsToShow : nat := 8.
Definition available_text (server : GameServerDetailed) : string :=
  if 0 <? len (gd_availableMaps server) then spaced (gd_availableMaps server) else "all".
Definition assigned_text (server : GameServerDetailed) : string :=
  if (maxMapsToShow <? length (gd_assignedMaps server))%nat
  then spaced (take maxMapsToShow (gd_assignedMaps server)) +:+ "and " +:+ fmt_d (len (gd_assignedMaps server) - Z.of_nat maxMapsToShow) +:+ " more"
  else spaced (gd_assignedMaps server).
Definition diff_text (d : ServerDiff) : string :=
  "  Diff (mean, median, 95, 99, max): " +:+ fmt_d (diff_mean d) +:+ "ms, " +:+ fmt_d (diff_median d) +:+ "ms, " +:+
  fmt_d (diff_percentile95 d) +:+ "ms, " +:+ fmt_d (diff_percentile99 d) +:+ "ms, " +:+ fmt_d (diff_max d) +:+ "ms.".

Section Chat.
Context {env : SessionEnv}.

Fixpoint say_all (msgs : list string) : M unit :=
  match msgs with
  | [] => mret tt
  | msg :: msgs => SendSysMessage msg ;; say_all msgs
  end.
Definition connected_here (b : bool) : list string := if b then ["  You are |cff4CFF00connected |rto this one."] else [].
Definition print_server (server : GameServerDetailed) : M unit :=
  w ← gets worldSocket;
  let isCurrentlyUsing := match w with Some w => String.eqb (ws_Address w) (gd_address server) | None => false end in
  say_all ["> Node address: " +:+ gd_address server +:+ "."; "  Available maps: " +:+ available_text server +:+ ".";
           "  Assigned maps: " +:+ assigned_text server +:+ "."; "  Active connections: " +:+ fmt_d (gd_activeConnections server) +:+ "."] ;;
  diff ← deref (gd_diff server);
  say_all (diff_text diff :: connected_here isCurrentlyUsing ++ [" "]).
Fixpoint print_servers (servers : list GameServerDetailed) : M unit :=
  match servers with
  | [] => mret tt
  | server :: servers => print_server server ;; print_servers servers
  end.
(** The servers of each realm, in their order. *)
Definition per_realm (servers : list GameServerDetailed) : gmap u32 (list GameServerDetailed) :=
  foldl (fun m server => <[gd_realmID server := default [] (m !! gd_realmID server) ++ [server]]> m) ∅ servers.
Fixpoint print_realms (realms : list (u32 * list GameServerDetailed)) : M unit :=
  match realms with
  | [] => mret tt
  | (realm, servers) :: realms =>
    SendSysMessage ("List of available worldservers for |cff4f90ffrealm " +:+ fmt_d realm +:+ "|r:") ;;
    print_servers servers ;;
    print_realms realms
  end.
Definition handleCommandMsgListGameServers : M unit :=
  servers ← call ListAllGameServers;
  let crossrealms := filter (fun server => gd_isCrossRealm server = true) servers in
  (if 0 <? len crossrealms then
     SendSysMessage "List of available |cff4f90ffcrossrealm|r worldservers:" ;; print_servers crossrealms
   else mret tt) ;;
  print_realms (go_range 0 (per_realm (filter (fun server => gd_isCrossRealm server = false) servers))).
Fixpoint print_gateways (gateways : list GatewayServerDetailed) : M unit :=
  match gateways with
  | [] => mret tt
  | server :: gateways =>
    say_all (["> Node healthCheckAddress: " +:+ gwd_healthAddress server +:+ "."; "  Active connections: " +:+ fmt_d (gwd_activeConnections server) +:+ "."]
             ++ connected_here (String.eqb gatewayID (gwd_id server)) ++ [" "]) ;;
    print_gateways gateways
  end.
Definition handleCommandMsgListGateways : M unit :=
  gateways ← call (ListGatewaysForRealm realmID);
  SendSysMessage "List of available |cffF84519gateways|r:" ;;
  print_gateways gateways.

Inductive command := ListGameServers | ListGateways | Unknown (answer : string).
Definition is_word (words : list string) (arg : string) : bool := existsb (String.eqb (ToLower arg)) words.
Definition parse_command (args : list string) : command :=
  let arg := default "" (head args) in
  let listing := is_word ["worldservers"; "ws"; "gameservers"; "gs"] arg in
  if listing || is_word ["gateways"; "gw"] arg then
    match args !! 1%nat with
    | None => Unknown "not enough args"
    | Some sub =>
      if is_word ["list"; "ls"] sub then (if listing then ListGameServers else ListGateways) else Unknown "unk subcommand"
    end
  else Unknown "unk command".
(** [true]: the message was a command. *)
Definition handleCommandMsgIfNeeded (msg : string) : M bool :=
  if negb (HasPrefix msg TC9CommandPrefix) then mret false
  else
    (match parse_command (Split " " (drop_chars (String.length TC9CommandPrefix) msg)) with
     | ListGameServers => handleCommandMsgListGameServers
     | ListGateways => handleCommandMsgListGateways
     | Unknown answer => SendSysMessage answer
     end) ;;
    mret true.
Definition unless_command (msg : string) (k : M unit) : M unit :=
  handled ← handleCommandMsgIfNeeded msg;
  if handled : bool then mret tt else k.

Definition forward_to_world (p : Packet) : M unit :=
  w ← gets worldSocket;
  match w with None => mret tt | Some w => world_SendPacket w p end.
(** [ChatType(msgType)] keeps the low byte. *)
Definition HandleChatMessage (p : Packet) : M unit :=
  let '(msgType, r) := Uint32 (Packet_Reader p) in
  let '(lang, r) := Uint32 r in
  let chatType := wrap8 msgType in
  if chatType =? ChatTypeWhisper then
    let '(to, r) := RStr r in
    let '(msg, r) := RStr r in
    c ← char;
    receiverGUID ← call (SendWhisperMessage
      {| wr_realmID := realmID; wr_senderGUID := c_GUID c; wr_senderName := c_Name c; wr_senderRace := c_Race c; wr_language := lang;
         wr_receiverName := to; wr_msg := msg |});
    client_Send (chat_packet ChatTypeWhisperInform lang receiverGUID msg)
  else if chatType =? ChatTypeGuild then
    let '(msg, r) := RStr r in
    unless_command msg (
      c ← char;
      call (SendGuildMessage realmID (c_GUID c) lang msg false) ;;
      client_Send (chat_packet ChatTypeGuild lang (c_GUID c) msg))
  else if existsb (Z.eqb chatType) [ChatTypeParty; ChatTypePartyLeader; ChatTypeRaid; ChatTypeRaidLeader] then
    let '(msg, r) := RStr r in
    unless_command msg (
      c ← char;
      call (SendGroupMessage realmID (c_GUID c) lang msg msgType) ;;
      client_Send (chat_packet chatType lang (c_GUID c) msg))
  else if chatType =? ChatTypeChannel then
    let '(channelName, r) := RStr r in
    let '(msg, r) := RStr r in
    unless_command msg (SendChannelMessageToChat channelName msg lang)
  else if chatType =? ChatTypeSay then
    let '(msg, r) := RStr r in
    unless_command msg (forward_to_world p)
  else forward_to_world p.
Definition HandleEventIncomingWhisperMessage (e : IncomingWhisperPayload) : M unit :=
  client_Send (chat_packet ChatTypeWhisper (iw_Language e) (iw_SenderGUID e) (iw_Msg e)).
End Chat.
