(* ===== verification/Session.v ===== *)
(** * Session: the packets and events a gateway session handles
    (apps/gateway/session/session.go, character.go, handler.go,
    handler-events.go)

    [on_client], [on_world], [on_event], [run_safe_fun] and [end_session] are the
    cases of the loop of [HandlePackets], each with what the loop does with an
    error.  What a session is given, one after the other, are its inputs. *)
From S2P Require Import Prelude GoRuntime GoStrings Bytes OnlineCharacters UpdatesBarrier ChatStreams Broadcaster Packet Opcodes SessionApi SessionState SessionGuild SessionGroups SessionSocial SessionMail SessionChannels SessionWorld SessionChat.

Definition LoginErrorCodeLoginFailed : u8 := 0.
Definition LoginErrorCodeNoInstanceServers : u8 := 3.
Definition LoginErrorCodeCharNotFound : u8 := 5.
Definition login_code (e : session_err) : u8 :=
  match e with
  | ErrCharacterNotFound => LoginErrorCodeCharNotFound
  | ErrInstanceNotFound => LoginErrorCodeNoInstanceServers
  | _ => LoginErrorCodeLoginFailed
  end.
(** The fields of the character, cut to their width. *)
Definition logged_in (char : LogInCharacter) : LoggedInCharacter :=
  {| c_GUID := lc_GUID char; c_Name := lc_name char; c_Race := wrap8 (lc_race char); c_Class := wrap8 (lc_class char);
     c_Gender := wrap8 (lc_gender char); c_Skin := wrap8 (lc_skin char); c_Face := wrap8 (lc_face char); c_HairStyle := wrap8 (lc_hairStyle char);
     c_HairColor := wrap8 (lc_hairColor char); c_FacialStyle := wrap8 (lc_facialStyle char); c_Level := wrap8 (lc_level char);
     c_Zone := lc_zone char; c_Map := lc_map char; c_Position := (lc_positionX char, lc_positionY char, lc_positionZ char, 0);
     c_GuildID := lc_guildID char; c_PlayerFlags := lc_playerFlags char; c_AtLogin := lc_atLogin char; c_PetEntry := lc_petEntry char;
     c_PetModelID := lc_petModelID char; c_PetLevel := lc_petLevel char; c_Banned := lc_banned char; c_AccountID := lc_accountID char;
     c_GroupMangedByGameServer := false; c_ignoreNextInterceptToNewMap := None; c_waitingJoinToQueue := false; c_pendingInvitePacket := None |}.

Section Session.
Context {env : SessionEnv}.

Definition login_payload (char : LogInCharacter) : LoggedInPayload :=
  {| RealmID := realmID; GatewayID := gatewayID; CharGUID := lc_GUID char; CharName := lc_name char; CharRace := wrap8 (lc_race char);
     CharClass := wrap8 (lc_class char); CharGender := wrap8 (lc_gender char); CharLevel := wrap8 (lc_level char); CharZone := lc_zone char;
     CharMap := lc_map char; CharPosX := lc_positionX char; CharPosY := lc_positionY char; CharPosZ := lc_positionZ char;
     CharGuildID := lc_guildID char; AccountID := lc_accountID char |}.
(** [if err != nil { f(err); return err }] *)
Definition on_error {A} (f : session_err -> M unit) (m : M A) : M A := fun s =>
  match m s with
  | (Fail e, s) => (f e ;; fail e) s
  | r => r
  end.

(** ** Logging in and out *)
Definition Login (p : Packet) : M unit :=
  modify (set_control no_control) ;;
  '(char, socket) ← on_error (fun e => client_Send (login_failed (login_code e)))
                      (connectToGameServer (Uint64 (Packet_Reader p)).1 None (mret tt));
  modify (set_character (Some (logged_in char))) ;;
  modify (set_worldSocket (Some socket)) ;;
  log_err (publish ErrBus (ELoggedIn (login_payload char))) ;;
  ch ← in_broadcaster (RegisterCharacter (lc_GUID char));
  modify (set_eventsChan (Some ch)) ;;
  (if negb (lc_guildID char =? 0) then log_err GuildLoginCommand else mret tt) ;;
  HandleQueryNextMailTime ;;
  LoadGroupForPlayer ;;
  now ← gets clock;
  modify (set_membership (NewChannelMembership (lc_GUID char) now)).
Definition onLoggedOut : M unit :=
  c ← gets character;
  match c with
  | None => mret tt
  | Some c =>
    log_err (publish ErrBus (ELoggedOut {| lo_RealmID := realmID; lo_GatewayID := gatewayID; lo_CharGUID := c_GUID c; lo_CharName := c_Name c;
                                          lo_CharGuildID := c_GuildID c; lo_AccountID := c_AccountID c |})) ;;
    in_broadcaster (UnregisterCharacter (c_GUID c)) ;;
    in_broadcaster (with_chat (DisconnectPlayer (c_GUID c))) ;;
    modify (fun s => let cm := channelMembership s in
              set_membership {| cm_channels := cm_channels cm; cm_events := None; cm_initialChannels := cm_initialChannels cm;
                                cm_lastJoin := cm_lastJoin cm; cm_initialChannelsLoaded := cm_initialChannelsLoaded cm;
                                cm_playerGUID := cm_playerGUID cm |} s) ;;
    modify (set_character None)
  end.

(** ** The character screen *)
Definition write_equipment (e : EquipmentDisplay) (w : Writer) : Writer :=
  w |> WUint32 (ed_DisplayInfoID e) |> WUint8 (wrap8 (ed_InventoryType e)) |> WUint32 (ed_EnchantmentID e).
Definition write_character (c : LogInCharacter) (w : Writer) : Writer :=
  w |> WUint64 (lc_GUID c) |> WStr (lc_name c) |> WUint8 (wrap8 (lc_race c)) |> WUint8 (wrap8 (lc_class c)) |> WUint8 (wrap8 (lc_gender c))
    |> WUint8 (wrap8 (lc_skin c)) |> WUint8 (wrap8 (lc_face c)) |> WUint8 (wrap8 (lc_hairStyle c)) |> WUint8 (wrap8 (lc_hairColor c))
    |> WUint8 (wrap8 (lc_facialStyle c)) |> WUint8 (wrap8 (lc_level c)) |> WUint32 (lc_zone c) |> WUint32 (lc_map c)
    |> WFloat32 (lc_positionX c) |> WFloat32 (lc_positionY c) |> WFloat32 (lc_positionZ c) |> WUint32 (lc_guildID c) |> WUint32 33554432
    |> WUint32 0 |> WUint8 0 |> WUint32 (lc_petModelID c) |> WUint32 (lc_petLevel c) |> WUint32 0 |> write_all write_equipment (lc_equipments c).
Definition CharactersList : M unit :=
  w ← gets worldSocket;
  (match w with None => mret tt | Some socket => modify (set_worldSocket None) ;; world_Close socket end) ;;
  onLoggedOut ;;
  chars ← call (CharactersToLoginForAccount accountID realmID);
  client_Send (NewWriterWithSize SMsgCharEnum 0 |> WUint8 (wrap8 (len chars)) |> write_all write_character chars).
(** A packet for any game server: the packets it sends go to the client, until
    the answer comes.  The first initial packet, which says that the game server
    listens, is not passed on. *)
Inductive relayed := Ready | Answered | Closed | TimedOut.
Fixpoint relay (answer_opcode : u16) (signalled : bool) (rs : list world_read) : M relayed :=
  match rs with
  | [] => mret TimedOut
  | RTimeout :: rs => modify (set_reads rs) ;; mret TimedOut
  | RClosed :: rs => modify (set_reads rs) ;; mret Closed
  | RPacket p :: rs =>
    modify (set_reads rs) ;;
    if negb signalled && ((Opcode p =? SMsgAuthChallenge) || (Opcode p =? SMsgAuthResponse)) then mret Ready
    else
      client_SendPacket p ;;
      if Opcode p =? answer_opcode then mret Answered else relay answer_opcode signalled rs
  end.
(** A connection that was closed by the game server is not closed again. *)
Definition close_relay (socket : world_socket) (r : relayed) : M unit :=
  match r with Closed => mret tt | _ => world_Close socket end.
Definition any_server (failed : M unit) (answer_opcode : u16) (p : Packet) : M unit :=
  server ← on_error (fun _ => failed) (call (RandomGameServerForRealm realmID));
  match server with
  | None => failed ;; fail ErrOther
  | Some server =>
    socket ← on_error (fun _ => failed) (WorldSocketCreator (srv_address server));
    world_SendPacket socket authPacket ;;
    rs ← gets reads;
    r ← relay answer_opcode false rs;
    match r with
    | Ready =>
      on_error (fun _ => world_Close socket ;; failed) (ext ErrContext) ;;
      world_SendPacket socket p ;;
      rs ← gets reads;
      r ← relay answer_opcode true rs;
      close_relay socket r ;;
      match r with TimedOut => failed ;; fail ErrTimeout | _ => mret tt end
    | _ => close_relay socket r ;; failed ;; fail ErrTimeout
    end
  end.
Definition CreateCharacter (p : Packet) : M unit := any_server (client_Send (NewWriterWithSize SMsgCharCreate 1 |> WUint8 0x31)) SMsgCharCreate p.
Definition DeleteCharacter (p : Packet) : M unit := any_server (client_Send (NewWriterWithSize SMsgCharDelete 1 |> WUint8 0x48)) SMsgCharDelete p.

(** ** Other packets *)
Definition RealmSplit (p : Packet) : M unit :=
  let unk := (Uint32 (Packet_Reader p)).1 in
  client_Send (NewWriterWithSize SMsgRealmSplit 17 |> WUint32 unk |> WUint32 0 |> WStr "01/01/01").
(** The times of the kinds of data in the mask. *)
Definition write_times (data : list AccountData) (w : Writer) : Writer :=
  foldl (fun w i =>
    if negb (Z.land globalMask (Z.shiftl 1 i) =? 0) then
      match find (fun d => ad_type d =? i) data with
      | Some d => w |> WUint32 (wrap32 (ad_time d))
      | None => w |> WUint32 0
      end
    else w) w [0; 1; 2; 3; 4; 5; 6; 7].
Definition ReadyForAccountDataTimes : M unit :=
  data ← call (AccountDataForAccount accountID realmID);
  now ← unix;
  client_Send (NewWriterWithSize SMsgAccountDataTimes 41 |> WUint32 (wrap32 now) |> WUint8 1 |> WUint32 globalMask |> write_times data).
Definition HandlePing (p : Packet) : M unit :=
  w ← gets worldSocket;
  match w with
  | Some w => world_SendPacket w p
  | None => client_Send (NewWriterWithSize SMsgPong 4 |> WUint32 (Uint32 (Packet_Reader p)).1)
  end.
Definition InterceptPong (p : Packet) : M unit := client_SendPacket p.

(** ** The tables of the handlers *)
Definition OpcodeBlacklist : list u16 := [SMsgFriendStatus; SMsgContactList; SMsgChannelList].
Definition HandleMap : list (u16 * (Packet -> M unit)) :=
  [(CMsgCharCreate, CreateCharacter);
   (CMsgPlayerLogin, Login);
   (CMsgCharDelete, DeleteCharacter);
   (CMsgCharEnum, fun _ => CharactersList);
   (CMsgRealmSplit, RealmSplit);
   (CMsgReadyForAccountDataTimes, fun _ => ReadyForAccountDataTimes);
   (CMsgMessageChat, HandleChatMessage);
   (CMsgGuildQuery, HandleGuildQuery);
   (CMsgWho, HandleWho);
   (CMsgContactList, HandleContactList);
   (CMsgAddFriend, HandleAddFriend);
   (CMsgDelFriend, HandleDelFriend);
   (CMsgSetContactNotes, HandleSetContactNotes);
   (CMsgAddIgnore, HandleAddIgnore);
   (CMsgDelIgnore, HandleDelIgnore);
   (CMsgJoinChannel, HandleJoinChannel);
   (CMsgLeaveChannel, HandleLeaveChannel);
   (CMsgChannelList, HandleChannelList);
   (CMsgChannelDisplayList, HandleChannelList);
   (SMsgChannelNotify, InterceptWorldserverChannelNotify);
   (CMsgChannelPassword, HandleChannelPassword);
   (CMsgChannelSetOwner, HandleChannelSetOwner);
   (CMsgChannelModerator, HandleChannelSetModerator);
   (CMsgChannelUnModerator, HandleChannelUnsetModerator);
   (CMsgChannelMute, HandleChannelMute);
   (CMsgChannelUnmute, HandleChannelUnmute);
   (CMsgChannelInvite, HandleChannelInvite);
   (CMsgChannelKick, HandleChannelKick);
   (CMsgChannelBan, HandleChannelBan);
   (CMsgChannelUnban, HandleChannelUnban);
   (CMsgChannelAnnouncements, HandleChannelAnnouncements);
   (CMsgChannelModerate, HandleChannelModerate);
   (CMsgGuildInvite, HandleGuildInvite);
   (CMsgGuildInviteAccept, fun _ => HandleGuildInviteAccept);
   (CMsgGuildRoster, fun _ => HandleGuildRoster);
   (CMsgGuildLeave, fun _ => HandleGuildLeave);
   (CMsgGuildRemove, HandleGuildKick);
   (CMsgGuildMOTD, HandleGuildSetMessageOfTheDay);
   (CMsgGuildSetPublicNote, HandleGuildSetPublicNote);
   (CMsgGuildSetOfficerNote, HandleGuildSetOfficerNote);
   (CMsgGuildInfoText, HandleGuildSetInfoText);
   (CMsgGuildRank, HandleGuildRankUpdate);
   (CMsgGuildAddRank, HandleGuildRankAdd);
   (CMsgGuildDelRank, fun _ => HandleGuildRankDelete);
   (CMsgGuildPromote, HandleGuildPromote);
   (CMsgGuildDemote, HandleGuildDemote);
   (CMsgSendMail, HandleSendMail);
   (CMsgGetMailList, HandleGetMailList);
   (CMsgMailMarkAsRead, HandleMailMarksAsRead);
   (CMsgMailTakeMoney, HandleMailTakeMoney);
   (CMsgMailTakeItem, HandleMailTakeItem);
   (CMsgMailDelete, HandleDeleteMail);
   (MsgQueryNextMailTime, fun _ => HandleQueryNextMailTime);
   (SMsgInitWorldStates, InterceptInitWorldStates);
   (SMsgLevelUpInfo, InterceptLevelUpInfo);
   (CMsgPing, HandlePing);
   (SMsgPong, InterceptPong);
   (SMsgNewWorld, InterceptNewWorld);
   (MsgGuildPermissions, fun _ => HandleGuildPermissions);
   (MsgGuildBankMoneyWithdrawn, fun _ => HandleGuildBankMoneyWithdrawn);
   (MsgMoveWorldPortAck, InterceptMoveWorldPortAck);
   (SMsgMOTD, InterceptMessageOfTheDay);
   (SMsgAccountDataTimes, InterceptAccountDataTimes);
   (TC9SMsgReadyForRedirect, fun _ => HandleReadyForRedirectRequest);
   (SMsgNameQueryResponse, InterceptSMsgNameQueryResponse);
   (CMsgGroupInvite, HandleGroupInvite);
   (CMsgGroupAccept, fun _ => HandleGroupInviteAccept);
   (CMsgGroupDecline, fun _ => HandleGroupInviteDeclined);
   (CMsgGroupUnInvite, HandleGroupUninvite);
   (CMsgGroupUnInviteGuid, HandleGroupUninviteGUID);
   (CMsgGroupDisband, fun _ => HandleGroupLeave);
   (CMsgGroupRaidConvert, fun _ => HandleGroupConvertToRaid);
   (CMsgGroupSetLeader, HandleGroupSetLeader);
   (MsgRaidTargetUpdate, HandleSetGroupTargetIcon);
   (CMsgLootMethod, HandleSetLootMethod);
   (MsgSetDungeonDifficulty, HandleSetDungeonDifficulty);
   (MsgSetRaidDifficulty, HandleSetRaidDifficulty);
   (CMsgBattleMasterJoin, HandleEnqueueToBattleground);
   (CMsgBattlefieldPort, HandleBattlegroundPort);
   (MsgMoveStop, HandleMovement);
   (MsgMoveHeartbeat, HandleMovement)].
Definition handler_of (opcode : u16) : option (Packet -> M unit) := snd <$> find (fun h => h.1 =? opcode) HandleMap.
(** Every event type has a handler; the payload must be of its type. *)
Definition handle_event (ev : Event) : M unit :=
  match ev_Type ev, ev_Payload ev with
  | EventTypeIncomingWhisper, PWhisper e => HandleEventIncomingWhisperMessage e
  | EventTypeGuildInviteCreated, PGuildInvite e => HandleEventGuildInviteCreated e
  | EventTypeGuildMemberPromoted, PGuild e => HandleEventGuildMemberPromoted e
  | EventTypeGuildMemberDemoted, PGuild e => HandleEventGuildMemberDemoted e
  | EventTypeGuildMOTDUpdated, PGuild e => HandleEventGuildMOTDUpdated e
  | EventTypeGuildMemberAdded, PGuild e => HandleEventGuildMemberAdded e
  | EventTypeGuildMemberLeft, PGuild e => HandleEventGuildMemberLeft e
  | EventTypeGuildMemberKicked, PGuild e => HandleEventGuildMemberKicked e
  | EventTypeGuildRankCreated, PGuild e => HandleEventGuildRankCreated e
  | EventTypeGuildRankUpdated, PGuild e => HandleEventGuildRankUpdated e
  | EventTypeGuildRankDeleted, PGuild e => HandleEventGuildRankDeleted e
  | EventTypeGuildNewMessage, PGuild e => HandleEventGuildNewMessage e
  | EventTypeIncomingMail, PMail e => HandleEventIncomingMail e
  | EventTypeGroupInviteCreated, PGroup e => HandleEventGroupInviteCreated e
  | EventTypeGroupCreated, PGroup e => HandleEventGroupCreated e
  | EventTypeGroupMemberOnlineStatusChanged, PGroup e => HandleEventGroupMemberOnlineStatusChanged e
  | EventTypeGroupMemberLeft, PGroup e => HandleEventGroupMemberLeft e
  | EventTypeGroupDisband, PGroup e => HandleEventGroupDisband e
  | EventTypeGroupMemberAdded, PGroup e => HandleEventGroupMemberAdded e
  | EventTypeGroupLeaderChanged, PGroup e => HandleEventGroupLeaderChanged e
  | EventTypeGroupLootTypeChanged, PGroup e => HandleEventGroupLootTypeChanged e
  | EventTypeGroupConvertedToRaid, PGroup e => HandleEventGroupConvertedToRaid e
  | EventTypeGroupNewMessage, PGroup e => HandleEventGroupNewMessage e
  | EventTypeGroupNewTargetIcon, PGroup e => HandleEventGroupNewTargetIcon e
  | EventTypeGroupDifficultyChanged, PGroup e => HandleEventGroupDifficultyChanged e
  | EventTypeMMJoinedPVPQueue, PMatchmaking e => HandleEventMMJoinedPVPQueue e
  | EventTypeMMInvitedToBGOrArena, PMatchmaking e => HandleEventMMInvitedToBGOrArena e
  | EventTypeMMInviteToBGOrArenaExpired, _ => HandleEventMMInviteToBGOrArenaExpired
  | EventTypeFriendStatusChange, PFriend e => HandleEventFriendStatusChange e
  | EventTypeFriendAdded, _ => HandleEventFriendAdded
  | EventTypeFriendRemoved, _ => HandleEventFriendRemoved
  | EventTypeFriendNoteUpdate, _ => HandleEventFriendNoteUpdate
  | EventTypeChannelMessage, PChannelMessage e => HandleEventChannelMessage e
  | EventTypeChannelJoined, PChannelJoined e => HandleEventChannelJoined e
  | EventTypeChannelLeft, PChannelLeft e => HandleEventChannelLeft e
  | EventTypeChannelNotification, PChannelNotification e => HandleEventChannelNotification e
  | _, _ => panic
  end.

(** ** The loop *)

(** An error is logged; the player is told, when it has a text. *)
Definition tell (e : session_err) : M unit :=
  match e with
  | UserFriendly text _ =>
    c ← gets character;
    match c with Some _ => SendSysMessage text | None => mret tt end
  | _ => mret tt
  end.
Definition caught (f : session_err -> M unit) (m : M unit) : M unit := fun s =>
  match m s with
  | (Fail e, s) => f e s
  | r => r
  end.
Definition on_client (p : Packet) : M unit :=
  match handler_of (Opcode p) with
  | None => forward_to_world p
  | Some handler => caught tell (handler p)
  end.
Definition on_world (r : world_read) : M unit :=
  w ← gets worldSocket;
  match w, r with
  | Some _, RPacket p =>
    if existsb (Z.eqb (Opcode p)) OpcodeBlacklist then mret tt
    else
      match handler_of (Opcode p) with
      | None => client_SendPacket p
      | Some handler => caught (fun _ => mret tt) (handler p)
      end
  | Some _, RClosed => modify (set_worldSocket None) ;; onWorldSocketClosed
  | _, _ => mret tt
  end.
Definition on_event (ch : option nat) : M unit :=
  match ch with
  | None => mret tt
  | Some ch =>
    ev ← in_broadcaster (with_chat (receive ch));
    match ev with None => mret tt | Some ev => caught (fun _ => mret tt) (handle_event ev) end
  end.
Definition on_safe_fun : M unit :=
  fs ← gets sessionSafeFuChan;
  match fs with
  | [] => mret tt
  | f :: fs => modify (set_safeFuns fs) ;; run_safe_fun f
  end.
Definition on_goroutine : M unit :=
  gs ← gets spawned;
  match gs with
  | [] => mret tt
  | g :: gs => modify (set_spawned gs) ;; run_goroutine g
  end.
Definition end_session : M unit := onLoggedOut.

Inductive input :=
| FromClient (p : Packet)
| FromWorld (r : world_read)
| FromEvents
| FromStream
| SafeFun
| Goroutine
| Clock (now : Z)
| Over.
Definition take_input (i : input) : M unit :=
  match i with
  | FromClient p => on_client p
  | FromWorld r => on_world r
  | FromEvents => ch ← gets eventsChan; on_event ch
  | FromStream => ch ← gets (fun s => cm_events (channelMembership s)); on_event ch
  | SafeFun => on_safe_fun
  | Goroutine => on_goroutine
  | Clock now => modify (set_clock now)
  | Over => end_session
  end.
Fixpoint take_inputs (ins : list input) : M unit :=
  match ins with
  | [] => mret tt
  | i :: rest => take_input i ;; take_inputs rest
  end.
End Session.
