(* ===== verification/SessionRules.v ===== *)
(** * SessionRules: reasoning about the handlers of a session

    [does m Q]: from a state of the invariant [I], [m] ends in one, however it
    ends; the events it adds act for the character [g]; a value it returns has
    [Q]; and it panics only when [B] holds.  With [B] true the rules speak about
    every run, with [B] false about the runs of sessions in good order. *)
From S2P Require Import Prelude GoRuntime Safety Bytes Packet UpdatesBarrier ChatStreams Broadcaster SessionApi SessionState SessionGuild SessionGroups SessionChannels.

(** Whom an event is for; requests that are not made in a player's name are
    for anybody. *)
Definition acts_for (g : u64) (e : session_event) : Prop :=
  match e with
  | ECall r => forall g', actor r = Some g' -> g' = g
  | EBarrier (UpdatesBarrier.Map g' _) | EBarrier (Zone g' _ _) | EBarrier (Level g' _) => g' = g
  | ELoggedIn _ | ELoggedOut _ => False
  | _ => True
  end.
Definition of_char (g : u64) (x : goroutine) : Prop :=
  match x with
  | Reconnect snap => c_GUID snap = g
  | Redirect _ g' _ _ _ => g' = g
  | RejoinLater => True
  end.
(** An answer with its parts. *)
Definition complete {A : Set} (r : request A) : A -> Prop :=
  match r in request A return A -> Prop with
  | GetRosterInfo _ _ => fun o => is_Some o
  | MailByID _ _ => fun o => is_Some o
  | JoinChannel _ => fun o => ja_status o = 0 -> is_Some (ja_channel o)
  | ListAllGameServers => fun l => Forall (fun server => is_Some (gd_diff server)) l
  | _ => fun _ => True
  end.

Section Rules.
Context {env : SessionEnv} (g : u64) (B : Prop) (I : GameSession -> Prop).

Definition does {A} (m : M A) (Q : A -> Prop) : Prop :=
  forall s, I (st s) ->
    I (st (m s).2) /\ (exists es, events (m s).2 = events s ++ es /\ Forall (acts_for g) es) /\
    match (m s).1 with Ok a => Q a | Fail _ => True | Panic => B end.
(** What the invariant may not depend on. *)
Record moved (s s' : GameSession) : Prop := {
  mv_char : forall c, character s = Some c -> exists c', character s' = Some c' /\ c_GUID c' = c_GUID c /\ c_Race c' = c_Race c;
  mv_world : B \/ (is_Some (worldSocket s) -> is_Some (worldSocket s'));
  mv_client : B \/ (is_Some (gameServerGRPCClient s) -> is_Some (gameServerGRPCClient s'));
  mv_spawned : Forall (of_char g) (spawned s) -> Forall (of_char g) (spawned s');
  mv_membership : channelMembership s' = channelMembership s;
  mv_broadcaster : eventsBroadcaster s' = eventsBroadcaster s
}.
Class Kept := {
  kept_char : forall s, I s -> exists c, character s = Some c /\ c_GUID c = g /\ (B \/ c_Race c < 12);
  kept_world : forall s, I s -> B \/ is_Some (worldSocket s);
  kept_client : forall s, I s -> B \/ is_Some (gameServerGRPCClient s);
  kept_spawned : forall s, I s -> Forall (of_char g) (spawned s);
  kept_moved : forall s s', I s -> moved s s' -> I s';
  kept_complete : B \/ forall A n (r : request A), complete r (answer A n r);
  kept_add : forall name channelID flags, does (AddChannel name channelID flags) any;
  kept_remove : forall name, does (RemoveChannel name) any;
  kept_receive : forall ch, does (in_broadcaster (with_chat (receive ch))) any
}.

Lemma does_same {A} (Q : A -> Prop) o s : I (st s) -> match o with Ok a => Q a | Fail _ => True | Panic => B end ->
  I (st (o : outcome session_err A, s).2) /\ (exists es, events (o : outcome session_err A, s).2 = events s ++ es /\ Forall (acts_for g) es) /\
  match (o, s).1 with Ok a => Q a | Fail _ => True | Panic => B end.
Proof. intros Hs Ho. split; [done|]. split; [|done]. exists []. by rewrite app_nil_r. Qed.
Lemma does_bind {A A'} (m : M A) (k : A -> M A') Q R : does m Q -> (forall a, Q a -> does (k a) R) -> does (m ≫= k) R.
Proof.
  intros Hm Hk s Hs. destruct (Hm s Hs) as (HI & (es & Hes & Hok) & Hq). unfold mbind, go_bind.
  destruct (m s) as [[a|e|] s1]; cbn in *; [|by eauto..].
  destruct (Hk a Hq s1 HI) as (HI' & (es' & Hes' & Hok') & Hq'). split; [done|]. split; [|done].
  exists (es ++ es'). split; [by rewrite Hes', Hes, app_assoc|by apply Forall_app].
Qed.
Lemma does_post {A} (m : M A) (Q R : A -> Prop) : does m Q -> (forall a, Q a -> R a) -> does m R.
Proof. intros Hm HQ s Hs. destruct (Hm s Hs) as (HI & He & Hq). split; [done|]. split; [done|]. destruct (m s) as [[a|e|] s1]; cbn in *; auto. Qed.
Lemma does_any {A} (m : M A) Q : does m Q -> does m any.
Proof. intros Hm. by eapply does_post. Qed.
Lemma does_ret {A} (a : A) (Q : A -> Prop) : Q a -> does (mret a) Q.
Proof. intros Ha s Hs. exact (does_same Q (Ok a) s Hs Ha). Qed.
Lemma does_fail {A} e (Q : A -> Prop) : does (fail e) Q.
Proof. intros s Hs. exact (does_same Q (Fail e) s Hs Logic.I). Qed.
Lemma does_panic {A} (Q : A -> Prop) : B -> does panic Q.
Proof. intros HB s Hs. exact (does_same Q Panic s Hs HB). Qed.
Lemma does_gets {A} (f : GameSession -> A) (Q : A -> Prop) : (forall s, I s -> Q (f s)) -> does (gets f) Q.
Proof. intros Hf s Hs. exact (does_same Q (Ok (f (st s))) s Hs (Hf _ Hs)). Qed.
Lemma does_gets_any {A} (f : GameSession -> A) : does (gets f) any.
Proof. by apply does_gets. Qed.
Lemma does_deref {A} (o : option A) : B \/ is_Some o -> does (deref o) (fun a => o = Some a).
Proof. intros Ho. destruct o; [by apply does_ret|]. destruct Ho as [HB|[? ?]]; [by apply does_panic|done]. Qed.
Lemma does_not_nil {A} e (o : option A) : does (not_nil e o) (fun a => o = Some a).
Proof. destruct o; [by apply does_ret|apply does_fail]. Qed.
Lemma does_guard c e : does (guard_err c e) (fun _ => c = false).
Proof. destruct c; [apply does_fail|by apply does_ret]. Qed.
Lemma does_ext e : does (ext e) any.
Proof. intros s Hs. unfold ext. destruct (faults s) as [|[] fs]; cbn; (split; [done|]); (split; [|done]); exists []; by rewrite app_nil_r. Qed.
Lemma does_emit e : acts_for g e -> does (emit e) any.
Proof. intros He s Hs. split; [done|]. split; [|done]. exists [e]. split; [done|by constructor]. Qed.
Lemma does_log_err (m : M unit) : does m any -> does (log_err m) any.
Proof. intros Hm s Hs. specialize (Hm s Hs). unfold log_err. by destruct (m s) as [[?|?|] ?]. Qed.
Lemma does_wrap_err {A} f (m : M A) Q : does m Q -> does (wrap_err f m) Q.
Proof. intros Hm s Hs. specialize (Hm s Hs). unfold wrap_err. by destruct (m s) as [[?|?|] ?]. Qed.
Lemma does_try_err {A} (m : M A) Q : does m Q -> does (try_err m) (fun o => match o with Some a => Q a | None => True end).
Proof. intros Hm s Hs. specialize (Hm s Hs). unfold try_err. by destruct (m s) as [[?|?|] ?]. Qed.
Lemma does_call {A : Set} (r : request A) : Kept -> (forall g', actor r = Some g' -> g' = g) -> does (call r) (fun a => B \/ complete r a).
Proof.
  intros K Hr s Hs. unfold call.
  refine (does_bind _ _ any _ (does_emit (ECall r) Hr) (fun _ _ => does_bind _ _ any _ (does_ext _) (fun _ _ => does_ret _ _ _)) s Hs).
  destruct kept_complete; auto.
Qed.

Section Kept.
Context {K : Kept}.
Lemma does_modify (f : GameSession -> GameSession) : (forall s, I s -> moved s (f s)) -> does (modify f) any.
Proof.
  intros Hf s Hs. split; [by apply (kept_moved (st s)), Hf|]. split; [|done]. exists []. by rewrite app_nil_r.
Qed.
Lemma does_nil {A} (f : GameSession -> option A) (Q : A -> Prop) :
  (forall s, I s -> match f s with Some a => Q a | None => B end) -> does (o ← gets f; deref o) Q.
Proof.
  intros Hf s Hs. specialize (Hf _ Hs). unfold mbind, go_bind, gets. destruct (f (st s)) as [a|].
  - exact (does_same Q (Ok a) s Hs Hf).
  - exact (does_same Q Panic s Hs Hf).
Qed.
Lemma does_char : does char (fun c => c_GUID c = g /\ (B \/ c_Race c < 12)).
Proof. apply does_nil. intros s Hs. destruct (kept_char _ Hs) as (c & -> & Hc). done. Qed.
Lemma does_character : does (gets character) (fun o => exists c, o = Some c /\ c_GUID c = g).
Proof. apply does_gets. intros s Hs. destruct (kept_char _ Hs) as (c & -> & Hg & _). eauto. Qed.
Lemma does_world : does world any.
Proof. apply does_nil. intros s Hs. destruct (kept_world _ Hs) as [HB|[w ->]]; [by destruct (worldSocket s)|done]. Qed.
Lemma does_game_client : does game_client any.
Proof. apply does_nil. intros s Hs. destruct (kept_client _ Hs) as [HB|[w ->]]; [by destruct (gameServerGRPCClient s)|done]. Qed.
Lemma does_spawned : does (gets spawned) (Forall (of_char g)).
Proof. apply does_gets. apply kept_spawned. Qed.
Lemma does_update_char f : (forall c, c_GUID (f c) = c_GUID c /\ c_Race (f c) = c_Race c) -> does (update_char f) any.
Proof.
  intros Hf s Hs. destruct (kept_char _ Hs) as (c & Hc & _). unfold update_char, char, mbind, go_bind, gets. rewrite Hc. cbn.
  split; [|split; [by exists []; rewrite app_nil_r|done]]. apply (kept_moved _ _ Hs). split; cbn; auto.
  intros c1 Hc1. exists (f c). split; [done|]. rewrite Hc in Hc1. injection Hc1 as <-. apply Hf.
Qed.
End Kept.
End Rules.
Arguments Kept {env} g B I.
Arguments does g B I {A} m Q.

(** Walk through a handler: [does_tac] follows its control structure and uses
    the lemmas in the database for the operations it calls. *)
Create HintDb acts.
#[export] Hint Resolve does_deref does_not_nil does_guard does_ext does_char does_world does_game_client
  does_update_char : acts.
Ltac moved_tac := intros ?; split; cbn; eauto; try solve [left; assumption | right; eauto | rewrite ?Forall_app; intros; repeat constructor; eauto].
Ltac actor_tac := cbn; intros; congruence.
Ltac does_leaf :=
  first
    [ apply does_character; assumption
    | apply does_spawned; assumption
    | apply does_gets_any
    | apply does_call; [assumption|solve [actor_tac]]
    | apply does_modify; [assumption|solve [moved_tac]]
    | apply does_update_char; [assumption|intros; split; reflexivity]
    | apply does_emit; cbn; solve [done | congruence]
    | solve [eauto 3 with acts] ].
Ltac does_step :=
  match goal with
  | H : _ /\ _ |- _ => destruct H
  | H : exists _, _ |- _ => destruct H
  | H : ?x = Some _ |- _ => is_var x; subst x
  | |- does _ _ _ (mret _) _ => apply does_ret; first [exact I | done | eauto]
  | |- does _ _ _ (fail _) _ => apply does_fail
  | |- does _ _ _ panic _ => apply does_panic; assumption
  | |- does _ _ _ (wrap_err _ _) _ => apply does_wrap_err
  | |- does _ _ _ (log_err _) _ => apply does_log_err
  | |- does _ _ _ (try_err _ ≫= _) _ => eapply does_bind; [eapply does_try_err|intros ? ?]
  | |- does _ _ _ (try_err _) _ => eapply does_any; eapply does_try_err
  | |- does _ _ _ (wrap_err _ _ ≫= _) _ => eapply does_bind; [eapply does_wrap_err|intros ? ?]
  | |- does _ _ _ (_ ≫= _) _ => eapply does_bind; [solve [does_leaf]|intros ? ?]
  | |- does _ _ _ (_ ≫= _) _ => apply (does_bind _ _ _ _ _ any); [|intros ? _]
  | |- does _ _ _ (match ?x with _ => _ end) _ => destruct x eqn:?
  | |- does _ _ _ _ any => eapply does_any; solve [does_leaf]
  | |- does _ _ _ _ _ => solve [does_leaf]
  end.
Ltac does_tac := cbv zeta; repeat (does_step; cbv beta iota zeta in *).
(** A handler is its body. *)
Ltac head_of t := match t with ?f _ => head_of f | _ => t end.
Ltac unfold_handler := match goal with |- does _ _ _ ?m _ => let c := head_of m in unfold c end.
