(* ===== verification/SessionKeeps.v ===== *)
(** * SessionKeeps: every handler of a session obeys the rules
    (apps/gateway/session)

    For an invariant with the laws of [Kept], each handler keeps it, makes
    requests only in the name of the character, and does not panic unless [B]
    allows it. *)
From S2P Require Import Prelude GoRuntime GoStrings Safety Bytes Packet ObjectGuid Guilds Groups Battleground Friends MailRepo UpdatesBarrier ChatStreams Broadcaster Opcodes SessionApi SessionState SessionGuild SessionGroups SessionSocial SessionMail SessionChannels SessionWorld SessionChat Session SessionRules.

(** ** A guid read from a packet fits its eight bytes *)
Lemma read_guid_loop_range fuel : forall i mark guid d, 0 <= i -> is_bytes d -> in_range (8 * i) guid ->
  match (read_guid_loop fuel i mark guid d).1 with Some g => in_range (8 * (i + Z.of_nat fuel)) g | None => True end.
Proof.
  induction fuel as [|fuel IH]; intros i mark guid d Hi Hd Hg; cbn [read_guid_loop].
  - cbn. by replace (i + Z.of_nat 0) with i by lia.
  - replace (i + Z.of_nat (S fuel)) with (i + 1 + Z.of_nat fuel) by lia.
    assert (Hpow : 2 ^ (8 * (i + 1)) = 2 ^ (8 * i) * 256) by (replace (8 * (i + 1)) with (8 * i + 8) by lia; by rewrite Z.pow_add_r by lia).
    assert (Hpos : 0 < 2 ^ (8 * i)) by (apply Z.pow_pos_nonneg; lia).
    destruct (negb _).
    + destruct d as [|b d]; [done|]. inversion Hd as [|? ? Hb Hd']; subst. apply IH; [lia|done|].
      rewrite (Z.mul_comm i 8), lor_shiftl_add by (done || lia). unfold in_range in *. rewrite Hpow. eval_pow2. nia.
    + apply IH; [lia|done|]. unfold in_range in *. rewrite Hpow. nia.
Qed.
Lemma ReadGUID_range d : is_bytes d -> in_range 64 (ReadGUID (NewReaderWithData d)).1.
Proof.
  intros Hd. unfold ReadGUID. cbn [r_err r_data NewReaderWithData]. destruct d as [|mark d]; [done|]. inversion Hd as [|? ? _ Hd']; subst.
  pose proof (read_guid_loop_range 8 0 mark 0 d ltac:(lia) Hd' ltac:(done)) as H. destruct (read_guid_loop 8 0 mark 0 d) as [[guid|] d'] eqn:E; cbn in *; try done.
Qed.

Section Keeps.
Context {env : SessionEnv} (g : u64) (B : Prop) (I : GameSession -> Prop) {K : Kept g B I}.
Abbreviation does := (does g B I).

Lemma client_SendPacket_acts p : does (client_SendPacket p) any.
Proof. by apply does_emit. Qed.
Lemma client_Send_acts w : does (client_Send w) any.
Proof. by apply does_emit. Qed.
Lemma world_SendPacket_acts w p : does (world_SendPacket w p) any.
Proof. by apply does_emit. Qed.
Lemma world_Send_acts w p : does (world_Send w p) any.
Proof. by apply does_emit. Qed.
Lemma world_Close_acts w : does (world_Close w) any.
Proof. by apply does_emit. Qed.
Hint Resolve client_SendPacket_acts client_Send_acts world_SendPacket_acts world_Send_acts world_Close_acts : acts.
Lemma SendSysMessage_acts msg : does (SendSysMessage msg) any.
Proof. apply client_Send_acts. Qed.
Lemma unix_acts : does unix any.
Proof. unfold unix. does_tac. Qed.
Lemma WorldSocketCreator_acts address : does (WorldSocketCreator address) any.
Proof. unfold WorldSocketCreator. does_tac. Qed.
Lemma AddAddressMapping_acts a b : does (AddAddressMapping a b) any.
Proof. unfold AddAddressMapping. does_tac. Qed.
Lemma GRPCConn_acts address : does (GRPCConnByGameServerAddress address) any.
Proof. unfold GRPCConnByGameServerAddress. does_tac. Qed.
Hint Resolve SendSysMessage_acts unix_acts WorldSocketCreator_acts AddAddressMapping_acts GRPCConn_acts : acts.

(** ** Operations the handlers share *)
Lemma GetRoster_acts c : does (GetRoster c) any.
Proof.
  unfold GetRoster. eapply does_bind; [apply does_call; [done|actor_tac]|]. intros o Ho. eapply does_any, does_deref. exact Ho.
Qed.
Lemma with_online_acts name k : (forall t, does (k t) any) -> does (with_online name k) any.
Proof. intros Hk. unfold with_online. does_tac. Qed.
Hint Resolve GetRoster_acts : acts.
Lemma HandleGuildRoster_acts : does HandleGuildRoster any.
Proof. unfold HandleGuildRoster. does_tac. Qed.
Lemma group_call_acts {A : Set} (r : request A) : (forall g', actor r = Some g' -> g' = g) -> does (group_call r) any.
Proof. intros Hr. apply does_wrap_err. eapply does_any, does_call; done. Qed.
Lemma mail_call_acts {A : Set} (r : request A) : (forall g', actor r = Some g' -> g' = g) -> does (mail_call r) (fun a => B \/ complete r a).
Proof. intros Hr. by apply does_wrap_err, does_call. Qed.
Hint Extern 1 (SessionRules.does _ _ _ (group_call _) _) => (apply group_call_acts; actor_tac) : acts.
Hint Extern 1 (SessionRules.does _ _ _ (mail_call _) _) => (apply mail_call_acts; actor_tac) : acts.
Lemma send_result_acts operation name result : does (send_result operation name result) any.
Proof. apply client_SendPacket_acts. Qed.
Lemma next_update_acts : does next_update any.
Proof. unfold next_update. does_tac. Qed.
Hint Resolve HandleGuildRoster_acts send_result_acts next_update_acts : acts.
Lemma SendGroupUpdate_acts groupID : does (SendGroupUpdate groupID) any.
Proof. unfold SendGroupUpdate. does_tac. Qed.
Hint Resolve SendGroupUpdate_acts : acts.
Lemma LoadGroupForPlayer_acts : does LoadGroupForPlayer any.
Proof. unfold LoadGroupForPlayer. does_tac. Qed.
Lemma SendFriendStatus_acts result guid note status area level classID : does (SendFriendStatus result guid note status area level classID) any.
Proof. apply client_Send_acts. Qed.
Lemma mail_result_acts mailID t status : does (mail_result mailID t status) any.
Proof. apply client_SendPacket_acts. Qed.
Hint Resolve LoadGroupForPlayer_acts SendFriendStatus_acts mail_result_acts : acts.
Lemma near_mailbox_acts mailBox : does (near_mailbox mailBox) any.
Proof. unfold near_mailbox, CanInteractWithMailingObject. does_tac. Qed.
Lemma take_items_acts server guids : does (take_items server guids) any.
Proof. unfold take_items. does_tac. Qed.
Lemma pay_delivery_acts mailID cod : does (pay_delivery mailID cod) any.
Proof. unfold pay_delivery. does_tac. Qed.
Hint Resolve near_mailbox_acts take_items_acts pay_delivery_acts : acts.
Lemma AddChannel_acts name channelID flags : does (AddChannel name channelID flags) any.
Proof. by apply (kept_add g B I). Qed.
Lemma RemoveChannel_acts name : does (RemoveChannel name) any.
Proof. by apply (kept_remove g B I). Qed.
Hint Resolve AddChannel_acts RemoveChannel_acts : acts.
Lemma leave_and_forget_acts name : does (leave_and_forget name) any.
Proof. unfold leave_and_forget. does_tac. Qed.
Hint Resolve leave_and_forget_acts : acts.
Lemma leave_same_id_acts channelID : does (leave_same_id channelID) any.
Proof. unfold leave_same_id. does_tac. Qed.
Hint Resolve leave_same_id_acts : acts.
Lemma moderate_acts request_of notices p : (forall q, actor (request_of q) = Some (cr_playerGUID q)) -> does (moderate request_of notices p) any.
Proof.
  intros Hq. unfold moderate. destruct (RStr _) as [name r], (RStr r) as [arg r']. eapply does_bind; [apply does_char; exact K|]. intros c [Hg _].
  eapply does_bind; [apply does_call; [done|intros g' Hg'; rewrite Hq in Hg'; cbn in Hg'; congruence]|]. intros status _.
  unfold my_channel, PlayerName, Simple. does_tac.
Qed.
Lemma toggle_acts request_of on off p : (forall q, actor (request_of q) = Some (cr_playerGUID q)) -> does (toggle request_of on off p) any.
Proof.
  intros Hq. unfold toggle. eapply does_bind; [apply does_char; exact K|]. intros c [Hg _].
  eapply does_bind; [apply does_call; [done|intros g' Hg'; rewrite Hq in Hg'; cbn in Hg'; congruence]|]. intros status _.
  unfold my_channel, simple_notice, Simple. does_tac.
Qed.
Lemma simple_notice_acts notices status ch : does (simple_notice notices status ch) any.
Proof. unfold simple_notice, Simple. does_tac. Qed.
Lemma SendChannelMessage_acts name sender language message : does (SendChannelMessage name sender language message) any.
Proof. unfold SendChannelMessage. does_tac. Qed.
Hint Resolve simple_notice_acts SendChannelMessage_acts : acts.
Lemma SendChannelMessageToChat_acts name message language : does (SendChannelMessageToChat name message language) any.
Proof. unfold SendChannelMessageToChat. does_tac. Qed.
(** The channel that was just added is there. *)
Lemma does_added {A} name channelID flags (k : ChannelInfo -> M A) Q : (forall ch, does (k ch) Q) ->
  does (AddChannel name channelID flags ;; ch ← my_channel name; ch ← deref ch; k ch) Q.
Proof.
  intros Hk s Hs. pose proof (kept_add g B I name channelID flags s Hs) as Hadd.
  assert (Hch : forall u s', AddChannel name channelID flags s = (Ok u, s') -> is_Some (GetChannel name (channelMembership (st s')))).
  { intros u s' Hrun. unfold AddChannel in Hrun. apply bind_ok in Hrun as (cm & s1 & _ & Hrun). apply bind_ok in Hrun as (l & s2 & _ & Hrun).
    apply bind_ok in Hrun as (now & s3 & _ & Hrun). apply modify_ok in Hrun as ->. unfold GetChannel. cbn. by rewrite lookup_insert_eq. }
  destruct (AddChannel name channelID flags s) as [[u|e|] s1] eqn:Hrun.
  - destruct (Hch _ _ eq_refl) as [ch Hget]. destruct Hadd as (HI & (es & Hes & Hok) & _). cbn in HI, Hes.
    erewrite bind_run by exact Hrun. unfold my_channel. erewrite bind_run by reflexivity. cbv beta. rewrite Hget. cbn [deref].
    erewrite bind_run by reflexivity. destruct (Hk ch s1 HI) as (HI' & (es' & Hes' & Hok') & HQ). split; [done|]. split; [|done].
    exists (es ++ es'). split; [by rewrite Hes', Hes, app_assoc|by apply Forall_app].
  - unfold mbind, go_bind. by rewrite Hrun.
  - unfold mbind, go_bind. by rewrite Hrun.
Qed.
Lemma HandleJoinChannel_acts p : does (HandleJoinChannel p) any.
Proof.
  unfold HandleJoinChannel, Joined, YouJoined, ModeChange. destruct (Uint32 _) as [channelID r], (Uint8 r) as [x1 r1], (Uint8 r1) as [x2 r2], (RStr r2) as [name r3], (RStr r3) as [password r4].
  eapply does_bind; [apply does_gets_any|]. intros w _. destruct (if channelID =? 0 then None else w); [solve [does_leaf]|].
  eapply does_bind; [apply does_char; exact K|]. intros c [Hg _]. eapply does_bind; [apply does_call; [done|actor_tac]|]. intros resp Hresp. cbn in Hresp.
  destruct (Z.eqb_spec (ja_status resp) 0) as [Hst|Hst]; [|solve [does_leaf]].
  eapply does_bind; [apply does_deref; tauto|]. intros joined _. apply does_added. intros ch. does_tac.
Qed.
Lemma RejoinWorldserver_acts : does RejoinWorldserverToSystemChannels any.
Proof.
  unfold RejoinWorldserverToSystemChannels. eapply does_bind; [apply does_gets_any|]. intros cm _.
  induction (go_range 1 (cm_initialChannels cm)).*2 as [|ch chs IH]; cbn [rejoin_loop]; does_tac.
Qed.
Hint Resolve SendChannelMessageToChat_acts HandleJoinChannel_acts RejoinWorldserver_acts : acts.

(** ** Waiting for a game server *)
Lemma wait_world_acts {A} f (closed timeout : M A) : (forall p, does (f p) any) -> does closed any -> does timeout any -> does (wait_world f closed timeout) any.
Proof.
  intros Hf Hc Ht. unfold wait_world. eapply does_bind; [apply does_gets_any|]. intros rs _. induction rs as [|[p| |] rs IH]; cbn [wait_packet]; [done|..]; does_tac.
Qed.
Lemma connectWithAddress_acts characterGUID address hook : does hook any -> does (connectToGameServerWithAddress characterGUID address hook) any.
Proof.
  intros Hhook. unfold connectToGameServerWithAddress. does_tac. apply wait_world_acts; [|does_tac..]. intros p. unfold initial_packet. does_tac.
Qed.
Lemma connectToGameServer_acts characterGUID mapID hook : B -> does hook any -> does (connectToGameServer characterGUID mapID hook) any.
Proof.
  intros HB Hhook. unfold connectToGameServer, choose_client. does_tac. by apply connectWithAddress_acts.
Qed.
Lemma prepare_redirect_acts : B -> does prepare_redirect any.
Proof.
  intros HB. unfold prepare_redirect. does_tac. apply wait_world_acts; [|does_tac..]. intros p. unfold ready_packet. does_tac.
Qed.
Hint Resolve connectToGameServer_acts prepare_redirect_acts : acts.
Lemma processWorldPackets_acts f : (forall p, does (f p) any) -> does (processWorldPacketsInPlace f) any.
Proof. intros Hf. unfold processWorldPacketsInPlace. does_tac. apply wait_world_acts; [done|does_tac..]. Qed.
Lemma forward_to_world_acts p : does (forward_to_world p) any.
Proof. unfold forward_to_world. does_tac. Qed.
Lemma forward_movement_acts p : does (forward_movement p) any.
Proof. unfold forward_movement. does_tac. Qed.
Hint Resolve forward_to_world_acts forward_movement_acts : acts.
Lemma say_all_acts msgs : does (say_all msgs) any.
Proof. induction msgs as [|msg msgs IH]; cbn [say_all]; does_tac. Qed.
Hint Resolve say_all_acts : acts.
Lemma print_servers_acts servers : B \/ Forall (fun server => is_Some (gd_diff server)) servers -> does (print_servers servers) any.
Proof.
  induction servers as [|server servers IH]; intros Hs; cbn [print_servers]; [by apply does_ret|]. apply (does_bind _ _ _ _ _ any).
  - unfold print_server. eapply does_bind; [apply does_gets_any|]. intros w _. eapply does_bind; [solve [does_leaf]|]. intros _ _.
    eapply does_bind; [apply does_deref|intros d _; solve [does_leaf]]. destruct Hs as [HB|Hs]; [by left|right]. by inversion Hs.
  - intros _ _. apply IH. destruct Hs as [HB|Hs]; [by left|right]. by inversion Hs.
Qed.
Lemma print_realms_acts realms : B \/ Forall (fun r => Forall (fun server => is_Some (gd_diff server)) r.2) realms -> does (print_realms realms) any.
Proof.
  induction realms as [|[realm servers] realms IH]; intros Hs; cbn [print_realms]; [by apply does_ret|]. eapply does_bind; [solve [does_leaf]|]. intros _ _.
  apply (does_bind _ _ _ _ _ any).
  - apply print_servers_acts. destruct Hs as [HB|Hs]; [by left|right]. by inversion Hs.
  - intros _ _. apply IH. destruct Hs as [HB|Hs]; [by left|right]. by inversion Hs.
Qed.
Lemma per_realm_forall (P : GameServerDetailed -> Prop) servers : Forall P servers -> forall realm l, per_realm servers !! realm = Some l -> Forall P l.
Proof.
  intros Hall. unfold per_realm. assert (Hm : forall realm l, (∅ : gmap u32 (list GameServerDetailed)) !! realm = Some l -> Forall P l) by done.
  revert Hm. generalize (∅ : gmap u32 (list GameServerDetailed)). induction Hall as [|server servers Hserver _ IH]; intros m Hm realm l Hl; [by eapply Hm|].
  cbn in Hl. eapply IH; [|exact Hl]. intros realm' l' Hl'. destruct (decide (gd_realmID server = realm')) as [<-|Hne].
  - rewrite lookup_insert_eq in Hl'. injection Hl' as <-. apply Forall_app. split; [|by constructor].
    destruct (m !! gd_realmID server) eqn:E; [by eapply Hm|constructor].
  - rewrite lookup_insert_ne in Hl' by done. by eapply Hm.
Qed.
Lemma ListGameServers_acts : does handleCommandMsgListGameServers any.
Proof.
  unfold handleCommandMsgListGameServers. eapply does_bind; [apply does_call; [done|actor_tac]|]. intros servers Hall. cbn in Hall.
  assert (Hf : forall c : bool, B \/ Forall (fun server => is_Some (gd_diff server)) (filter (fun server => gd_isCrossRealm server = c) servers)).
  { intros c. destruct Hall as [HB|Hall]; [by left|right]. apply Forall_forall. intros server [_ Hin]%list_elem_of_filter. by eapply Forall_forall in Hall. }
  cbv zeta. eapply (does_bind _ _ _ _ _ any).
  - destruct (0 <? len _); [|by apply does_ret]. eapply does_bind; [solve [does_leaf]|]. intros _ _. apply print_servers_acts, Hf.
  - intros _ _. apply print_realms_acts. destruct (Hf false) as [HB|Hrest]; [by left|right]. apply Forall_forall. intros [realm l] Hin.
    apply elem_of_go_range in Hin. by eapply per_realm_forall.
Qed.
Lemma ListGateways_acts : does handleCommandMsgListGateways any.
Proof.
  unfold handleCommandMsgListGateways. does_tac. induction a as [|server gateways IH]; cbn [print_gateways]; does_tac.
Qed.
Hint Resolve ListGameServers_acts ListGateways_acts : acts.
Lemma unless_command_acts msg k : does k any -> does (unless_command msg k) any.
Proof. intros Hk. unfold unless_command, handleCommandMsgIfNeeded. does_tac. Qed.
Lemma HandleChatMessage_acts p : does (HandleChatMessage p) any.
Proof.
  unfold HandleChatMessage. does_tac; apply unless_command_acts; does_tac.
Qed.
Lemma LoginCommand_acts : does GuildLoginCommand any.
Proof. unfold GuildLoginCommand. does_tac. Qed.
Lemma QueryNextMailTime_acts : does HandleQueryNextMailTime any.
Proof. unfold HandleQueryNextMailTime. does_tac. Qed.
Hint Resolve HandleChatMessage_acts : acts.
Lemma NameQueryResponse_acts p : B \/ is_bytes (Data p) -> does (InterceptSMsgNameQueryResponse p) any.
Proof.
  intros Hp. unfold InterceptSMsgNameQueryResponse. pose proof (fun H => ReadGUID_range (Data p) H) as Hr. unfold Packet_Reader.
  destruct (ReadGUID _) as [guid r] eqn:Er, (Uint8 r) as [isNotFound r']. destruct (isNotFound =? 0); [solve [does_leaf]|].
  cbv zeta. eapply does_bind; [apply does_call; [done|actor_tac]|]. intros [|playerData found] _; [solve [does_leaf]|].
  eapply does_bind; [apply does_deref|intros w _; solve [does_leaf]].
  destruct Hp as [HB|Hp]; [by left|right]. specialize (Hr Hp). cbn in Hr. unfold WGUID. cbn [w_err NewWriterWithSize]. rewrite pack_guid_run by done. eexists. reflexivity.
Qed.
Definition joins_as_group (p : Packet) : bool :=
  let '(_, r) := Uint64 (Packet_Reader p) in
  let '(_, r) := Uint32 r in
  let '(_, r) := Uint32 r in
  0 <? (Uint8 r).1.
Lemma Enqueue_acts p : B \/ joins_as_group p = false -> does (HandleEnqueueToBattleground p) any.
Proof.
  intros Hp. unfold HandleEnqueueToBattleground, joins_as_group in *. destruct (Uint64 _) as [x r], (Uint32 r) as [bgTypeID r1], (Uint32 r1) as [x2 r2], (Uint8 r2) as [joinAsGroup r3].
  cbn [fst] in Hp. apply (does_bind _ _ _ _ _ any).
  - destruct (0 <? joinAsGroup); [|by apply does_ret]. destruct Hp as [HB|?]; [|done]. does_tac.
  - intros members _. eapply does_bind; [solve [does_leaf]|]. intros w _. eapply does_bind; [solve [does_leaf]|]. intros server _.
    eapply does_bind; [apply does_char; exact K|]. intros c [Hg Hrace]. eapply does_bind; [eapply does_try_err, does_call; [done|actor_tac]|]. intros status _.
    case_bool_decide; [|solve [does_leaf]]. eapply does_bind; [apply does_deref|intros team _; does_tac].
    destruct Hrace as [HB|Hrace]; [by left|right]. apply lookup_lt_is_Some. cbn. lia.
Qed.

(** ** Leaving a game server *)
Lemma battlegroundRedirect_acts guid address : B -> does (battlegroundPlayerRedirect guid address) any.
Proof.
  intros HB. unfold battlegroundPlayerRedirect. does_tac; [by apply connectWithAddress_acts; does_tac|]. apply wait_world_acts; [|does_tac..]. intros p. does_tac.
Qed.
Hint Resolve battlegroundRedirect_acts : acts.
Lemma BattlegroundPort_acts p : B -> does (HandleBattlegroundPort p) any.
Proof.
  intros HB. unfold HandleBattlegroundPort, leaveBattlegroundQueue, enterBattleground. does_tac. apply processWorldPackets_acts.
  intros ?. unfold only_new_world. does_tac.
Qed.
Lemma WorldPortAck_acts p : B -> does (InterceptMoveWorldPortAck p) any.
Proof. intros HB. unfold InterceptMoveWorldPortAck. does_tac. Qed.
Lemma ReadyForRedirect_acts : B -> does HandleReadyForRedirectRequest any.
Proof. intros HB. unfold HandleReadyForRedirectRequest. does_tac. Qed.

(** ** The character screen *)
Lemma relay_acts answer_opcode signalled rs : does (relay answer_opcode signalled rs) any.
Proof. induction rs as [|[p| |] rs IH]; cbn [relay]; does_tac. Qed.
Lemma close_relay_acts socket r : does (close_relay socket r) any.
Proof. unfold close_relay. does_tac. Qed.
Lemma on_error_acts {A} (f : session_err -> M unit) (m : M A) Q : (forall e, does (f e) any) -> does m Q -> does (on_error f m) Q.
Proof.
  intros Hf Hm s Hs. specialize (Hm s Hs). unfold on_error. destruct (m s) as [[a|e|] s1]; [done| |done]. destruct Hm as (HI & (es & Hes & Hok) & _).
  cbn in Hes. destruct (does_bind g B I (f e) (fun _ => fail e) any Q (Hf e) (fun _ _ => does_fail g B I e Q) s1 HI) as (HI' & (es' & Hes' & Hok') & Hq).
  split; [done|]. split; [|done]. exists (es ++ es'). split; [by rewrite Hes', Hes, app_assoc|by apply Forall_app].
Qed.
Hint Resolve relay_acts close_relay_acts : acts.
Lemma any_server_acts (failed : M unit) answer_opcode p : does failed any -> does (any_server failed answer_opcode p) any.
Proof.
  intros Hf. unfold any_server. eapply does_bind; [apply on_error_acts; [done|eapply does_any; solve [does_leaf]]|]. intros [server|] _; [|does_tac].
  eapply does_bind; [apply on_error_acts; [done|solve [does_leaf]]|]. intros socket _. does_tac. apply on_error_acts; intros; does_tac.
Qed.
Hint Resolve any_server_acts : acts.

(** ** The tables *)
Definition changes_character (opcode : u16) : bool := existsb (Z.eqb opcode) [CMsgPlayerLogin; CMsgCharEnum].
Definition moves_player (opcode : u16) : bool := existsb (Z.eqb opcode) [CMsgBattlefieldPort; MsgMoveWorldPortAck; TC9SMsgReadyForRedirect].
(** A packet that cannot move the player to another game server. *)
Definition orderly (p : Packet) : Prop :=
  is_bytes (Data p) /\ moves_player (Opcode p) = false /\ (Opcode p = CMsgBattleMasterJoin -> joins_as_group p = false).
Lemma UninviteWithGUID_acts player name reason : does (groupUninviteWithGUID player name reason) any.
Proof. unfold groupUninviteWithGUID. does_tac. Qed.
Lemma TargetIcons_acts : does sendGroupListOfTargetIcons any.
Proof. unfold sendGroupListOfTargetIcons. does_tac. Qed.
Hint Resolve UninviteWithGUID_acts TargetIcons_acts : acts.
Lemma HandleMovement_acts p : does (HandleMovement p) any.
Proof.
  unfold HandleMovement. destruct (_ =? SourceWorldServer); [solve [does_leaf]|]. destruct (ReadGUID _) as [mover r].
  eapply does_bind; [apply does_character; exact K|]. intros o (c & -> & Hg). does_tac.
Qed.
(** Every handler of the table, and every event. *)
Lemma handlers_act : Forall (fun h => changes_character h.1 = false -> forall p, Opcode p = h.1 -> B \/ orderly p -> does (h.2 p) any) HandleMap.
Proof.
  unfold HandleMap. repeat apply Forall_cons_2; [..|apply Forall_nil_2]; cbn [fst snd]; intros Hchange p Hop Hp; try discriminate Hchange; clear Hchange.
  all: try solve [destruct Hp as [HB|(_ & Hmove & _)]; [|rewrite Hop in Hmove; discriminate]; auto using BattlegroundPort_acts, WorldPortAck_acts, ReadyForRedirect_acts].
  all: try solve [unfold_handler; does_tac].
  all: try solve [eauto with acts | apply HandleMovement_acts | by apply moderate_acts | by apply toggle_acts].
  all: try solve [unfold_handler; apply with_online_acts; intros ?; does_tac].
  - apply NameQueryResponse_acts. destruct Hp as [HB|(Hbytes & _)]; auto.
  - apply Enqueue_acts. destruct Hp as [HB|(_ & _ & Hgroup)]; auto.
Qed.
Lemma events_act ev : B -> does (handle_event ev) any.
Proof.
  intros HB. unfold handle_event. destruct (ev_Type ev), (ev_Payload ev) as [p|e|p|e|e|e|e|p|p|p|p]; try (by apply does_panic); unfold_handler.
  all: unfold send_difficulty, is_self, am_member, my_channel, Joined, SessionChannels.Left; does_tac.
Qed.

(** ** The loop *)
Lemma save_position_acts snap : c_GUID snap = g -> does (save_position snap) any.
Proof. intros Hg. unfold save_position. does_tac. Qed.
Lemma hand_over_acts f socket : does (hand_over f socket) any.
Proof. unfold hand_over, push_fun. does_tac. Qed.
Hint Resolve save_position_acts hand_over_acts : acts.
Lemma reconnect_loop_acts retries first snap : B -> c_GUID snap = g -> does (reconnect_loop retries first snap) any.
Proof. intros HB Hg. revert first. induction retries as [|n IH]; intros first; cbn [reconnect_loop]; does_tac; by apply connectToGameServer_acts, save_position_acts. Qed.
Hint Resolve reconnect_loop_acts : acts.
Lemma goroutine_acts x : B -> of_char g x -> does (run_goroutine x) any.
Proof.
  intros HB Hx. unfold run_goroutine. does_tac; unfold reconnect, redirect, push_fun; does_tac.
Qed.
Lemma safe_fun_acts f : B -> does (run_safe_fun f) any.
Proof. intros HB. unfold run_safe_fun, adopt, push_goroutine. does_tac. Qed.
Lemma tell_acts e : does (tell e) any.
Proof. unfold tell. does_tac. Qed.
Lemma caught_acts f (m : M unit) : (forall e, does (f e) any) -> does m any -> does (caught f m) any.
Proof.
  intros Hf Hm s Hs. specialize (Hm s Hs). unfold caught. destruct (m s) as [[a|e|] s1]; [done| |done]. destruct Hm as (HI & (es & Hes & Hok) & _).
  cbn in Hes. destruct (Hf e s1 HI) as (HI' & (es' & Hes' & Hok') & Hq). split; [done|]. split; [|done].
  exists (es ++ es'). split; [by rewrite Hes', Hes, app_assoc|by apply Forall_app].
Qed.
Lemma handler_of_acts opcode handler : handler_of opcode = Some handler -> changes_character opcode = false ->
  forall p, Opcode p = opcode -> B \/ orderly p -> does (handler p) any.
Proof.
  unfold handler_of. intros (h & Hfind & ->)%fmap_Some Hchange p Hop Hp. apply find_some in Hfind as [Hin Heq%Z.eqb_eq].
  apply list_elem_of_In in Hin. pose proof (proj1 (Forall_forall _ _) handlers_act h Hin) as Hall. subst opcode. by apply Hall.
Qed.
Lemma on_client_acts p : changes_character (Opcode p) = false -> B \/ orderly p -> does (on_client p) any.
Proof.
  intros Hchange Hp. unfold on_client. destruct (handler_of _) as [handler|] eqn:E; [|solve [does_leaf]].
  apply caught_acts; [apply tell_acts|]. by eapply handler_of_acts.
Qed.
Definition keeps_character (i : input) : bool :=
  match i with
  | FromClient p => negb (changes_character (Opcode p))
  | FromWorld (RPacket p) => negb (changes_character (Opcode p))
  | Over => false
  | _ => true
  end.
Lemma on_event_acts ch : B -> does (on_event ch) any.
Proof.
  intros HB. unfold on_event. destruct ch as [ch|]; [|by apply does_ret]. eapply does_bind; [by apply (kept_receive g B I)|]. intros [ev|] _; [|by apply does_ret].
  apply caught_acts; [intros; by apply does_ret|]. by apply events_act.
Qed.
Lemma input_acts i : B -> keeps_character i = true -> does (take_input i) any.
Proof.
  intros HB Hi. destruct i as [p|r| | | | |now|]; cbn [take_input]; cbn in Hi.
  - apply on_client_acts; [by apply negb_true_iff|by left].
  - unfold on_world. eapply does_bind; [apply does_gets_any|]. intros [w|] _; [|by apply does_ret]. destruct r as [p| |]; [|unfold onWorldSocketClosed, push_goroutine; does_tac|does_tac].
    destruct (existsb _ _); [by apply does_ret|]. destruct (handler_of _) as [handler|] eqn:E; [|solve [does_leaf]].
    apply caught_acts; [intros; by apply does_ret|]. eapply handler_of_acts; [done|by apply negb_true_iff|done|by left].
  - eapply does_bind; [apply does_gets_any|]. intros ch _. by apply on_event_acts.
  - eapply does_bind; [apply does_gets_any|]. intros ch _. by apply on_event_acts.
  - unfold on_safe_fun. does_tac. by apply safe_fun_acts.
  - unfold on_goroutine. eapply does_bind; [apply does_spawned; exact K|]. intros [|x gs] Hall; [by apply does_ret|]. inversion Hall; subst.
    eapply does_bind; [apply does_modify; [done|moved_tac]|]. intros _ _. by apply goroutine_acts.
  - does_leaf.
  - done.
Qed.
Lemma inputs_act ins : B -> forallb keeps_character ins = true -> does (take_inputs ins) any.
Proof.
  intros HB. induction ins as [|i ins IH]; intros Hins; cbn [take_inputs]; [by apply does_ret|]. apply andb_true_iff in Hins as [Hi Hins].
  apply (does_bind _ _ _ _ _ any); [by apply input_acts|]. intros _ _. by apply IH.
Qed.
End Keeps.
