(* ===== verification/SessionFacts.v ===== *)
(** * SessionFacts: what a session does, whatever arrives

    The rules of [SessionKeeps] for three invariants: a session acts for its own
    character; its channels are those of the player on the gateway; and a
    session in good order does not panic. *)
From S2P Require Import Prelude GoRuntime GoStrings Safety Bytes Packet OnlineCharacters UpdatesBarrier ChatStreams Broadcaster Opcodes SessionApi SessionState SessionGuild SessionGroups SessionChannels SessionWorld SessionChat Session SessionRules SessionKeeps.

Definition chat (s : GameSession) : ChatChannelsService Event := chatChannelsService (eventsBroadcaster s).
(** The session is logged in as [g], and so were its goroutines started. *)
Definition logged_in_as (g : u64) (s : GameSession) : Prop :=
  (exists c, character s = Some c /\ c_GUID c = g) /\ Forall (of_char g) (spawned s).

Section Facts.
Context {env : SessionEnv}.

(** ** Operations on the broadcaster *)
Lemma does_in_broadcaster g B I {A} (m : go broadcasterImpl Empty_set Empty_set A) :
  (forall s, I s -> match m (Sys (eventsBroadcaster s) [] []) with (Ok _, b) => I (set_broadcaster (st b) s) | (Panic, b) => I (set_broadcaster (st b) s) /\ B | _ => True end) ->
  does g B I (in_broadcaster m) any.
Proof.
  intros Hm s Hs. specialize (Hm _ Hs). unfold in_broadcaster. destruct (m _) as [[a|[]|] b]; cbn.
  - split; [done|]. split; [|done]. exists []. by rewrite app_nil_r.
  - destruct Hm as [Hm HB]. split; [done|]. split; [|done]. exists []. by rewrite app_nil_r.
Qed.
Lemma with_chat_run {A} (m : go (ChatChannelsService Event) Empty_set Empty_set A) b :
  with_chat m (Sys b [] []) = (let '(o, t) := m (Sys (chatChannelsService b) [] []) in (o, Sys (set_chat (st t) b) (faults t) (events t))).
Proof. reflexivity. Qed.
Lemma receive_run ch (b : broadcasterImpl) : exists o cs, with_chat (receive ch) (Sys b [] []) = (Ok o, Sys (set_chat (set_chans cs (chatChannelsService b)) b) [] []) /\
  (cs = chans (chatChannelsService b) \/ exists e q cap cl, chans (chatChannelsService b) !! ch = Some (Chan (e :: q) cap cl) /\ cs = <[ch := Chan q cap cl]> (chans (chatChannelsService b))).
Proof.
  rewrite with_chat_run. unfold receive. erewrite bind_run by reflexivity. cbv beta. cbn [st].
  assert (Hid : forall t : ChatChannelsService Event, set_chans (chans t) t = t) by (by intros []).
  destruct (chans (chatChannelsService b) !! ch) as [[[|e q] cap cl]|] eqn:E.
  - exists None, (chans (chatChannelsService b)). rewrite Hid. auto.
  - exists (Some e). eexists. split; [reflexivity|]. right. eauto 8.
  - exists None, (chans (chatChannelsService b)). rewrite Hid. auto.
Qed.

(** ** Whom a session acts for *)
Lemma own_moved g s s' : logged_in_as g s -> moved g True s s' -> logged_in_as g s'.
Proof. intros [(c & Hc & Hg) Hsp] Hm. split; [|by apply (mv_spawned _ _ _ _ Hm)]. destruct (mv_char _ _ _ _ Hm c Hc) as (c' & Hc' & Hg' & _). exists c'. by rewrite Hg'. Qed.
(** An invariant that only the channels can break: what is left are the three
    operations on the broadcaster. *)
Lemma free_in_broadcaster {A} I (m : go broadcasterImpl Empty_set Empty_set A) g : (forall s b, I s -> I (set_broadcaster b s)) -> does g True I (in_broadcaster m) any.
Proof. intros HI. apply does_in_broadcaster. intros s Hs. destruct (m _) as [[a|[]|] b]; auto. Qed.
Lemma own_kept g : Kept g True (logged_in_as g).
Proof.
  assert (Hb : forall s b, logged_in_as g s -> logged_in_as g (set_broadcaster b s)) by done.
  assert (Hm : forall s cm, logged_in_as g s -> logged_in_as g (set_membership cm s)) by done.
  assert (Hmod : forall f, does g True (logged_in_as g) (modify (fun s => set_membership (f s) s)) any).
  { intros f s Hs. split; [by apply Hm|]. split; [exists []; by rewrite app_nil_r|done]. }
  split; auto.
  - intros s [(c & Hc & Hg) _]. exists c. auto.
  - by intros s [_ Hs].
  - apply own_moved.
  - intros name channelID flags. unfold AddChannel. eapply does_bind; [apply does_gets_any|]. intros cm _.
    eapply does_bind; [by apply free_in_broadcaster|]. intros l _. eapply does_bind; [apply does_gets_any|]. intros now _. apply Hmod.
  - intros name. unfold RemoveChannel. eapply does_bind; [apply does_gets_any|]. intros cm _. eapply does_bind; [apply Hmod|]. intros _ _. by apply free_in_broadcaster.
  - intros ch. by apply free_in_broadcaster.
Qed.

(** C9: whatever its client, its game server, the bus and its own goroutines give a session, and in
    whatever order, as long as no character is chosen or left: every request it makes in the name of
    a player is made in the name of its own character, every update of the barrier is for it, and it
    keeps that character.  This covers the 79 packets and the 36 events of the tables, every refusal
    and every failure of a service. *)
Theorem acts_as_itself (ins : list input) (s : sys GameSession session_event) c
  (Hc : character (st s) = Some c) (Hspawned : Forall (of_char (c_GUID c)) (spawned (st s))) (Hins : forallb keeps_character ins = true) :
  let s' := (take_inputs ins s).2 in
  (exists es, events s' = events s ++ es /\ Forall (acts_for (c_GUID c)) es) /\
  (exists c', character (st s') = Some c' /\ c_GUID c' = c_GUID c).
Proof.
  destruct (inputs_act (c_GUID c) True (logged_in_as (c_GUID c)) (K := own_kept (c_GUID c)) ins Logic.I Hins s) as (HI & Hes & _).
  - split; eauto.
  - split; [exact Hes|]. apply HI.
Qed.

(** ** Sessions in good order *)

(** Logged in with a known race, and connected to a game server and its
    services. *)
Record in_order (s : GameSession) : Prop := {
  io_char : exists c, character s = Some c /\ c_Race c < 12;
  io_world : is_Some (worldSocket s);
  io_client : is_Some (gameServerGRPCClient s)
}.
Lemma in_order_view s s' g : in_order s /\ logged_in_as g s -> moved g False s s' -> in_order s' /\ logged_in_as g s'.
Proof.
  intros [[(c & Hc & Hr) Hw Hcl] Hown] [Mc Mw Mcl Ms _ _]. split; [split|split].
  - destruct (Mc c Hc) as (c' & Hc' & _ & Hr'). exists c'. by rewrite Hr'.
  - destruct Mw as [[]|Mw]. auto.
  - destruct Mcl as [[]|Mcl]. auto.
  - destruct Hown as [(c1 & Hc1 & Hg) _]. destruct (Mc c1 Hc1) as (c' & Hc' & Hg' & _). exists c'. by rewrite Hg'.
  - apply Ms, Hown.
Qed.
Lemma order_in_broadcaster {A} (I : GameSession -> Prop) (m : go broadcasterImpl Empty_set Empty_set A) g :
  (forall s b, I s -> I (set_broadcaster b s)) -> (forall b, (m (Sys b [] [])).1 <> Panic) -> does g False I (in_broadcaster m) any.
Proof.
  intros HI Hm. apply does_in_broadcaster. intros s Hs. specialize (Hm (eventsBroadcaster s)). destruct (m _) as [[a|[]|] b]; auto.
Qed.
Lemma not_panic {A} (m : go (ChatChannelsService Event) Empty_set Empty_set A) : safe (fun _ => True) m any -> forall b, (with_chat m (Sys b [] [])).1 <> Panic.
Proof. intros Hm b. rewrite with_chat_run. specialize (Hm (Sys (chatChannelsService b) [] []) Logic.I). destruct (m _) as [[a|[]|] t]; done. Qed.
Lemma safe_join g n : safe (fun _ => True) (AddPlayerToChannel (E := Event) g n) any.
Proof.
  intros s _. unfold AddPlayerToChannel, stream_GetOrCreate, mbind, go_bind. cbn. by destruct (streams _ !! g).
Qed.
Lemma safe_leave g n : safe (fun _ => True) (RemovePlayerFromChannel (E := Event) g n) any.
Proof. intros s _. unfold RemovePlayerFromChannel, mbind, go_bind. cbn. by destruct (repo _ !! n). Qed.
Lemma order_kept g (Hcomplete : forall A n (r : request A), complete r (answer A n r)) : Kept g False (fun s => in_order s /\ logged_in_as g s).
Proof.
  assert (Hb : forall s b, in_order s /\ logged_in_as g s -> in_order (set_broadcaster b s) /\ logged_in_as g (set_broadcaster b s)).
  { intros s b [[H1 H2 H3] Hown]. split; [by split|done]. }
  assert (Hmod : forall f, does g False (fun s => in_order s /\ logged_in_as g s) (modify (fun s => set_membership (f s) s)) any).
  { intros f s [[H1 H2 H3] Hown]. split; [split; [by split|done]|]. split; [exists []; by rewrite app_nil_r|done]. }
  split.
  - intros s [[(c & Hc & Hr) _ _] [(c' & Hc' & Hg) _]]. rewrite Hc in Hc'. injection Hc' as <-. eauto.
  - intros s [Ho _]. right. apply Ho.
  - intros s [Ho _]. right. apply Ho.
  - by intros s [_ [_ Hs]].
  - intros s s'. apply in_order_view.
  - auto.
  - intros name channelID flags. unfold AddChannel. eapply does_bind; [apply does_gets_any|]. intros cm _.
    eapply does_bind; [apply order_in_broadcaster; [done|apply not_panic, safe_join]|]. intros l _. eapply does_bind; [apply does_gets_any|]. intros now _. apply Hmod.
  - intros name. unfold RemoveChannel. eapply does_bind; [apply does_gets_any|]. intros cm _. eapply does_bind; [apply Hmod|]. intros _ _.
    apply order_in_broadcaster; [done|apply not_panic, safe_leave].
  - intros ch. apply order_in_broadcaster; [done|]. intros b. destruct (receive_run ch b) as (o & cs & -> & _). done.
Qed.
(** A packet of the client that is orderly, or time. *)
Definition orderly_input (i : input) : Prop :=
  match i with
  | FromClient p => orderly p /\ changes_character (Opcode p) = false
  | Clock _ => True
  | _ => False
  end.
Lemma orderly_inputs_act g (Hcomplete : forall A n (r : request A), complete r (answer A n r)) ins : Forall orderly_input ins ->
  does g False (fun s => in_order s /\ logged_in_as g s) (take_inputs ins) any.
Proof.
  pose proof (order_kept g Hcomplete) as K. induction 1 as [|i ins Hi _ IH]; cbn [take_inputs]; [by apply does_ret|].
  apply (does_bind _ _ _ _ _ any); [|intros _ _; apply IH]. destruct i; try done; cbn [take_input].
  - destruct Hi. apply on_client_acts; auto.
  - apply does_modify; [done|moved_tac].
Qed.


(** ** Channels *)

(** The session knows the channels its player is in on the gateway, and reads
    the player's stream. *)
Record channels_agree (g : u64) (a : mailboxes) (s : GameSession) : Prop := {
  ag_chat : implements a (chat s);
  ag_guid : cm_playerGUID (channelMembership s) = g;
  ag_members : forall key, (key, g) ∈ a_members a <-> is_Some (cm_channels (channelMembership s) !! key);
  ag_stream : cm_events (channelMembership s) = streams (chat s) !! g
}.
Definition agreeing (g : u64) (s : GameSession) : Prop := logged_in_as g s /\ exists a, channels_agree g a s.
Lemma joined_stream g n (t t' : sys (ChatChannelsService Event) Empty_set) l : AddPlayerToChannel g n t = (Ok (X := Empty_set) l, t') -> streams (st t') !! g = Some l.
Proof.
  intros Hrun. unfold AddPlayerToChannel in Hrun. do 4 (apply bind_ok in Hrun as (? & ? & _ & Hrun)). unfold stream_GetOrCreate in Hrun.
  apply bind_ok in Hrun as (str & t1 & Hg & Hrun). apply gets_ok in Hg as [-> ->]. destruct (streams (st _) !! g) as [l'|] eqn:E.
  - apply ret_ok in Hrun as [-> ->]. done.
  - apply bind_ok in Hrun as (l' & t2 & _ & Hrun). apply bind_ok in Hrun as ([] & t3 & Hm & Hrun). apply modify_ok in Hm as ->.
    apply ret_ok in Hrun as [-> ->]. cbn. apply lookup_insert_eq.
Qed.
Lemma left_streams g n (t : sys (ChatChannelsService Event) Empty_set) : streams (st (RemovePlayerFromChannel g n t).2) = streams (st t).
Proof.
  unfold RemovePlayerFromChannel, mbind, go_bind. cbn. destruct (repo (st t) !! n); cbn; unfold forget_channel; cbn; destruct (playerChannels _ !! g); by try case_bool_decide.
Qed.
(** Taking an event off some channel. *)
Lemma received_implements a (t : ChatChannelsService Event) ch e q cp cl : implements a t -> chans t !! ch = Some (Chan (e :: q) cp cl) ->
  exists a', implements a' (set_chans (<[ch := Chan q cp cl]> (chans t)) t) /\ a_members a' = a_members a.
Proof.
  intros Hi Hch. set (t' := set_chans _ t). exists {| a_members := a_members a; a_inbox := omap (fun l => buf <$> chans t' !! l) (streams t) |}.
  split; [|done]. destruct Hi as [Hok Hm _]. split; [|exact Hm|].
  - apply set_chans_consistent; [done|]. intros g c Hc. unfold stream in *. cbn in *. destruct (streams t !! g) as [l|]; [|done]. cbn in *.
    destruct (decide (l = ch)) as [->|Hne]; [rewrite lookup_insert_eq|rewrite lookup_insert_ne by done; eauto]. rewrite Hch in Hc. injection Hc as <-. eauto.
  - intros g. cbn [a_inbox]. rewrite lookup_omap. unfold stream. cbn. by destruct (streams t !! g).
Qed.
Lemma agreeing_kept g : Kept g True (agreeing g).
Proof.
  split; auto.
  - intros s [[(c & Hc & Hg) _] _]. eauto.
  - by intros s [[_ Hs] _].
  - intros s s' [Hown (a & [H1 H2 H3 H4])] Hm. split; [by eapply own_moved|]. exists a. unfold chat in *.
    split; unfold chat; rewrite ?(mv_membership _ _ _ _ Hm), ?(mv_broadcaster _ _ _ _ Hm); done.
  - intros name channelID flags s [Hown (a & [H1 H2 H3 H4])]. destruct (join_implements a g (ToLower name) (Sys (chat (st s)) [] []) H1) as (l & t' & Hrun & Hi' & Hf & He).
    pose proof (joined_stream _ _ _ _ _ Hrun) as Hl. cbn in Hf, He.
    assert (Hbc : in_broadcaster (with_chat (AddPlayerToChannel g (ToLower name))) s =
      (Ok l, Sys (set_broadcaster (set_chat (st t') (eventsBroadcaster (st s))) (st s)) (faults s) (events s))).
    { unfold in_broadcaster. rewrite with_chat_run. unfold chat in Hrun. rewrite Hrun. done. }
    unfold AddChannel. erewrite bind_run by reflexivity. cbv beta zeta. rewrite H2. erewrite bind_run by exact Hbc. erewrite bind_run by reflexivity.
    cbn. split; [|split; [by exists []; rewrite app_nil_r|done]]. split; [done|]. exists (a_op (Join g (ToLower name)) a). split; cbn; [exact Hi'|done| |by rewrite Hl].
    intros key. rewrite elem_of_union, elem_of_singleton, H3. destruct (decide (ToLower name = key)) as [<-|Hne].
    + rewrite lookup_insert_eq. split; [by eauto|by left].
    + rewrite lookup_insert_ne by done. split; [intros [?|?]; [congruence|done]|by right].
  - intros name s [Hown (a & [H1 H2 H3 H4])]. destruct (leave_implements a g (ToLower name) (Sys (chat (st s)) [] []) H1) as (t' & Hrun & Hi' & Hf & He).
    pose proof (left_streams g (ToLower name) (Sys (chat (st s)) [] [])) as Hstr. rewrite Hrun in Hstr. cbn in Hstr.
    unfold RemoveChannel. erewrite bind_run by reflexivity. cbv beta zeta. rewrite H2. erewrite bind_run by reflexivity. unfold in_broadcaster. rewrite with_chat_run. cbn.
    unfold chat in Hrun. rewrite Hrun. cbn. split; [|split; [by exists []; rewrite app_nil_r|done]]. split; [done|]. exists (a_op (Leave g (ToLower name)) a).
    split; cbn; [exact Hi'|done| |by rewrite H4, <- Hstr]. intros key. rewrite elem_of_difference, elem_of_singleton, H3.
    destruct (decide (ToLower name = key)) as [<-|Hne].
    + rewrite lookup_delete_eq. split; [intros [_ []]; done|by intros []].
    + rewrite lookup_delete_ne by done. split; [by intros []|]. intros ?. split; [done|congruence].
  - intros ch. apply does_in_broadcaster. intros s [Hown (a & [H1 H2 H3 H4])]. destruct (receive_run ch (eventsBroadcaster s)) as (o & cs & -> & Hcs). cbn. split; [done|].
    destruct Hcs as [->|(e & q & cp & cl & Hch & ->)].
    + exists a. split; unfold chat in *; cbn; [by destruct (chatChannelsService (eventsBroadcaster s))|done..].
    + destruct (received_implements a _ ch e q cp cl H1 Hch) as (a' & Hi' & Ha'). exists a'. split; [exact Hi'|done| |done]. intros key. by rewrite Ha'.
Qed.

Lemma unregistered g (b : broadcasterImpl) : UnregisterCharacter g (Sys b [] []) = (Ok tt, Sys (set_channels (delete g (channels b)) b) [] []).
Proof. reflexivity. Qed.
Lemma log_publish (ev : session_event) (s : sys GameSession session_event) :
  exists fs es, log_err (publish ErrBus ev) s = (Ok tt, Sys (st s) fs (events s ++ es)) /\ (es = [] \/ es = [ev]).
Proof.
  unfold log_err, publish, ext. destruct s as [c [|[] fs] es]; cbn.
  - exists [], [ev]. auto.
  - exists fs, []. rewrite app_nil_r. auto.
  - exists fs, [ev]. auto.
Qed.

(** C22: a player who goes leaves nothing behind on the gateway: the end of a session succeeds,
    whatever fails, takes the player out of every chat channel, closes the player's stream and ends
    the registration for events, leaves every other player's channels and registration as they were,
    and tells the other services. *)
Theorem logout_leaves_nothing g (s : sys GameSession session_event) (Hs : agreeing g (st s)) :
  exists s', end_session s = (Ok tt, s') /\ character (st s') = None /\
  (forall n, repo (chat (st s')) !! n ≫= (fun m => m !! g) = None) /\ streams (chat (st s')) !! g = None /\
  channels (eventsBroadcaster (st s')) = delete g (channels (eventsBroadcaster (st s))) /\
  (forall n g', g' <> g -> repo (chat (st s')) !! n ≫= (fun m => m !! g') = repo (chat (st s)) !! n ≫= (fun m => m !! g')) /\
  (faults s = [] -> exists payload, events s' = events s ++ [ELoggedOut payload] /\ lo_CharGUID payload = g).
Proof.
  destruct Hs as [[(c & Hc & Hg) _] (a & [H1 H2 H3 H4])]. unfold end_session, onLoggedOut. erewrite bind_run by reflexivity. cbv beta. rewrite Hc.
  destruct (log_publish (ELoggedOut {| lo_RealmID := realmID; lo_GatewayID := gatewayID; lo_CharGUID := c_GUID c; lo_CharName := c_Name c;
    lo_CharGuildID := c_GuildID c; lo_AccountID := c_AccountID c |}) s) as (fs & es & Hlog & Hes). erewrite bind_run by exact Hlog. cbn [st].
  assert (Hun : forall s : sys GameSession session_event, in_broadcaster (UnregisterCharacter (c_GUID c)) s =
    (Ok tt, Sys (set_broadcaster (set_channels (delete (c_GUID c) (channels (eventsBroadcaster (st s)))) (eventsBroadcaster (st s))) (st s)) (faults s) (events s))) by done.
  erewrite bind_run by exact (Hun _). clear Hun. cbn [st faults events]. rewrite Hg.
  destruct (disconnect_implements a g (Sys (chat (st s)) [] []) H1) as (t' & Hrun & Hi' & _).
  set (b := set_channels _ _). set (s1 := Sys (set_broadcaster b (st s)) fs (events s ++ es)).
  assert (Hdis : in_broadcaster (with_chat (DisconnectPlayer g)) s1 = (Ok tt, Sys (set_broadcaster (set_chat (st t') b) (st s1)) fs (events s ++ es))).
  { unfold in_broadcaster. rewrite with_chat_run. unfold chat in Hrun. cbn. rewrite Hrun. done. }
  erewrite bind_run by exact Hdis. erewrite bind_run by reflexivity. eexists. split; [reflexivity|]. unfold chat. cbn.
  pose proof (im_members _ _ Hi') as Hm'. pose proof (im_inbox _ _ Hi' g) as Hin'. cbn in Hm', Hin'.
  split; [done|]. split; [|split; [|split; [done|split]]].
  - intros n. destruct (unit_option (member (st t') n g)) as [E|E]; [|exact E]. apply Hm' in E. apply elem_of_filter in E as [E _]. cbn in E. done.
  - rewrite lookup_delete_eq in Hin'. unfold stream in Hin'. destruct (streams (st t') !! g) as [l|] eqn:E; [|done].
    destruct (co_open _ (im_ok _ _ Hi') g l E) as (_ & ch & Hch & _). cbn in Hin'. rewrite Hch in Hin'. done.
  - intros n g' Hg'. change (member (st t') n g' = member (chat (st s)) n g'). pose proof (im_members _ _ H1 n g') as Hm.
    specialize (Hm' n g'). rewrite elem_of_filter in Hm'. cbn in Hm'.
    destruct (unit_option (member (st t') n g')) as [E|E], (unit_option (member (chat (st s)) n g')) as [E'|E']; rewrite E, E' in *; naive_solver.
  - intros Hf. assert (Hes1 : events (Sys (st s) fs (events s ++ es)) = events s ++ es) by done. unfold log_err, publish, ext in Hlog. rewrite Hf in Hlog.
    injection Hlog as _ Hevents. apply app_inv_head in Hevents. subst es. eexists. split; [reflexivity|done].
Qed.
End Facts.
