(* ===== verification/SessionLogin.v ===== *)
(** * SessionLogin: choosing a character
    (apps/gateway/session/session.go)

    What a session is after a login that succeeded, and after one that did
    not; both lead to the states [SessionFacts] starts from. *)
From S2P Require Import Prelude GoRuntime GoStrings Safety Bytes Packet OnlineCharacters UpdatesBarrier ChatStreams Broadcaster Opcodes SessionApi SessionState SessionGuild SessionGroups SessionMail SessionChannels SessionWorld SessionChat Session SessionRules SessionKeeps SessionFacts.

Section Login.
Context {env : SessionEnv}.

(** What connecting to a game server leaves alone. *)
Definition view (s : GameSession) := (character s, worldSocket s, eventsChan s, channelMembership s, spawned s, eventsBroadcaster s, clock s).
Definition looks (v : _) (s : GameSession) : Prop := view s = v.
Lemma keeps_session_call I {A : Set} (r : request A) : keeps I (call r).
Proof. intros s Hs. unfold call, mbind, go_bind, emit, ext. cbn. by destruct (faults s) as [|[] fs]. Qed.
Lemma keeps_session_emit I e : keeps I (emit e).
Proof. by intros s Hs. Qed.
Hint Resolve keeps_session_call keeps_session_emit : keeps.
Lemma keeps_client_Send I w : keeps I (client_Send w).
Proof. apply keeps_session_emit. Qed.
Lemma keeps_client_SendPacket I p : keeps I (client_SendPacket p).
Proof. apply keeps_session_emit. Qed.
Lemma keeps_world_SendPacket I w p : keeps I (world_SendPacket w p).
Proof. apply keeps_session_emit. Qed.
Hint Resolve keeps_client_Send keeps_client_SendPacket keeps_world_SendPacket : keeps.
Lemma keeps_view v f : (forall s, view (f s) = view s) -> keeps (looks v) (modify f : M unit).
Proof. intros Hf. apply keeps_modify. intros s Hs. unfold looks. by rewrite Hf. Qed.
Hint Extern 1 (keeps (looks _) (modify _)) => (apply keeps_view; reflexivity) : keeps.
Lemma wait_world_looks v {A} f (closed timeout : M A) : (forall p, keeps (looks v) (f p)) -> keeps (looks v) closed -> keeps (looks v) timeout ->
  keeps (looks v) (wait_world f closed timeout).
Proof.
  intros Hf Hc Ht. unfold wait_world. apply keeps_bind; [eauto with keeps|]. intros rs. induction rs as [|[p| |] rs IH]; cbn [wait_packet]; keeps_tac.
Qed.
Lemma initial_packet_looks v p : keeps (looks v) (initial_packet p).
Proof. unfold initial_packet. keeps_tac. Qed.
Hint Resolve wait_world_looks initial_packet_looks : keeps.
Lemma connectWithAddress_looks v guid address : keeps (looks v) (connectToGameServerWithAddress guid address (mret tt)).
Proof.
  unfold connectToGameServerWithAddress, WorldSocketCreator, world_Send. keeps_tac.
Qed.
Hint Resolve connectWithAddress_looks : keeps.
Lemma connectToGameServer_looks v guid mapID : keeps (looks v) (connectToGameServer guid mapID (mret tt)).
Proof.
  unfold connectToGameServer, AddAddressMapping, choose_client, GRPCConnByGameServerAddress. keeps_tac.
Qed.
Lemma RosterCommand_looks v : keeps (looks v) GuildLoginCommand.
Proof. unfold GuildLoginCommand, HandleGuildRoster, GetRoster, unix, char. keeps_tac. Qed.
Lemma QueryNextMailTime_looks v : keeps (looks v) HandleQueryNextMailTime.
Proof. unfold HandleQueryNextMailTime, mail_call, unix, char. keeps_tac. Qed.
Lemma LoadGroup_looks v : keeps (looks v) LoadGroupForPlayer.
Proof. unfold LoadGroupForPlayer, SendGroupUpdate, group_call, next_update, char. keeps_tac. Qed.

(** Successful steps. *)
Lemma on_error_ok {A} f (m : M A) s a s' : on_error f m s = (Ok a, s') -> m s = (Ok a, s').
Proof. unfold on_error. destruct (m s) as [[x|e|] s1]; try done. unfold mbind, go_bind. destruct (f e s1) as [[?|?|] ?]; done. Qed.
Lemma looks_ok {A} v (m : M A) s a s' : keeps (looks v) m -> m s = (Ok a, s') -> view (st s) = v -> view (st s') = v.
Proof. intros Hm Hrun Hv. specialize (Hm s Hv). by rewrite Hrun in Hm. Qed.
Lemma log_err_ok (m : M unit) s b s' : log_err m s = (Ok b, s') -> (m s).2 = s'.
Proof. unfold log_err. destruct (m s) as [[?|?|] ?]; by intros [= <- <-]. Qed.
Lemma call_ok {A : Set} (r : request A) s a s' : call r s = (Ok a, s') ->
  st s' = st s /\ events s' = events s ++ [ECall r] /\ a = answer A (length (events s)) r.
Proof.
  unfold call. intros Hrun. apply bind_ok in Hrun as ([] & s1 & He & Hrun). injection He as <-. apply bind_ok in Hrun as ([] & s2 & He & Hrun).
  apply ext_ok in He as [Hst Hev]. apply ret_ok in Hrun as [-> ->]. by rewrite Hst, Hev.
Qed.
Lemma wait_initial_ok rs : forall s b s', wait_packet initial_packet (fail ErrSocketClosed) (fail ErrTimeout) rs s = (Ok b, s') ->
  exists mid, events s' = events s ++ mid /\ Forall (fun e => exists p, e = EClient p) mid.
Proof.
  induction rs as [|[p| |] rs IH]; intros s b s' Hrun; cbn [wait_packet] in Hrun; [done| |by inv_ok..].
  apply bind_ok in Hrun as ([] & s1 & Hm & Hrun). apply modify_ok in Hm as ->. apply bind_ok in Hrun as (o & s2 & Hp & Hrun).
  unfold initial_packet in Hp. destruct (_ || _).
  - apply ret_ok in Hp as [-> ->]. apply ret_ok in Hrun as [_ ->]. exists []. by rewrite app_nil_r.
  - apply bind_ok in Hp as ([] & s3 & He & Hp). injection He as <-. apply ret_ok in Hp as [-> ->].
    destruct (IH _ _ _ Hrun) as (mid & Hmid & Hall). cbn in Hmid. exists (EClient p :: mid). rewrite Hmid, <- app_assoc. split; [done|]. constructor; eauto.
Qed.
Definition player_login (guid : u64) : Packet := ToPacket (NewWriterWithSize CMsgPlayerLogin 8 |> WUint64 guid).
Definition is_client (e : session_event) : Prop := exists p, e = EClient p.
Lemma creator_ok address s socket s' : WorldSocketCreator address s = (Ok socket, s') ->
  ws_Address socket = address /\ events s' = events s ++ [EConnect (ws_id socket) address].
Proof.
  unfold WorldSocketCreator. intros Hrun. apply bind_ok in Hrun as ([] & s1 & He & Hrun). apply ext_ok in He as [_ Hev].
  apply bind_ok in Hrun as (n & s2 & Hg & Hrun). apply gets_ok in Hg as [-> ->]. apply bind_ok in Hrun as ([] & s3 & Hm & Hrun). apply modify_ok in Hm as ->.
  apply bind_ok in Hrun as ([] & s4 & He & Hrun). injection He as <-. apply ret_ok in Hrun as [-> ->]. cbn. by rewrite Hev.
Qed.
Lemma connectWithAddress_ok guid address s socket s' : connectToGameServerWithAddress guid address (mret tt) s = (Ok socket, s') ->
  ws_Address socket = address /\ exists mid, Forall is_client mid /\
  events s' = events s ++ [EConnect (ws_id socket) address; EWorld (ws_id socket) authPacket] ++ mid ++ [EWorld (ws_id socket) (player_login guid)].
Proof.
  unfold connectToGameServerWithAddress. intros Hrun. apply bind_ok in Hrun as (w & s1 & Hc & Hrun). apply creator_ok in Hc as [Ha Hev].
  apply bind_ok in Hrun as ([] & s2 & He & Hrun). injection He as <-. apply bind_ok in Hrun as ([] & s3 & Hw & Hrun).
  unfold wait_world in Hw. apply bind_ok in Hw as (rs & s4 & Hg & Hw). apply gets_ok in Hg as [-> ->]. apply wait_initial_ok in Hw as (mid & Hmid & Hall). cbn in Hmid.
  apply bind_ok in Hrun as ([] & s5 & He & Hrun). apply ext_ok in He as [_ Hev5]. apply bind_ok in Hrun as ([] & s6 & Hr & Hrun). apply ret_ok in Hr as [_ ->].
  apply bind_ok in Hrun as ([] & s7 & He & Hrun). injection He as <-. apply ret_ok in Hrun as [-> ->]. split; [done|]. exists mid. split; [exact Hall|].
  cbn. rewrite Hev5, Hmid, Hev. by rewrite <- !app_assoc.
Qed.
Lemma grpc_events address (s : sys GameSession session_event) : events (GRPCConnByGameServerAddress address s).2 = events s.
Proof.
  unfold GRPCConnByGameServerAddress, mbind, go_bind, guard_err, ext. cbn. destruct (String.eqb _ ""); [done|]. cbn. case_bool_decide; [done|].
  by destruct (faults s) as [|[] fs].
Qed.
Lemma choose_client_events address (s s' : sys GameSession session_event) : choose_client address s = (Ok tt, s') -> events s' = events s.
Proof.
  unfold choose_client. intros Hrun. apply bind_ok in Hrun as (conn & s1 & Ht & Hrun). apply bind_ok in Hrun as ([] & s2 & Hm & Hrun).
  apply modify_ok in Hm as ->. apply guard_ok in Hrun as [_ ->]. cbn. pose proof (grpc_events address s) as Hg. unfold try_err in Ht.
  destruct (GRPCConnByGameServerAddress address s) as [[x|x|] s3]; try discriminate Ht; injection Ht as _ <-; exact Hg.
Qed.
(** The game server is given the session's proof first, and then the login of
    the character that was asked for. *)
Lemma connect_ok guid (s : sys GameSession session_event) char socket s1 : connectToGameServer guid None (mret tt) s = (Ok (char, socket), s1) ->
  view (st s1) = view (st s) /\ (exists n, answer _ n (CharactersToLoginByGUID guid realmID) = Some char) /\
  (exists n server, head (answer _ n (AvailableGameServersForMapAndRealm realmID (lc_map char))) = Some server /\ ws_Address socket = srv_address server) /\
  (exists pre mid, Forall is_client mid /\ events s1 = events s ++ pre ++ [EConnect (ws_id socket) (ws_Address socket); EWorld (ws_id socket) authPacket] ++ mid ++
     [EWorld (ws_id socket) (player_login guid)]).
Proof.
  intros Hrun. split; [exact (looks_ok _ _ _ _ _ (connectToGameServer_looks _ _ _) Hrun eq_refl)|]. unfold connectToGameServer in Hrun.
  apply bind_ok in Hrun as (r & s2 & Hc & Hrun). apply call_ok in Hc as (_ & Hev2 & ->). apply bind_ok in Hrun as (char' & s3 & Hc & Hrun). apply not_nil_ok in Hc as [Hchar ->].
  apply bind_ok in Hrun as (servers & s4 & Hc & Hrun). apply call_ok in Hc as (_ & Hev4 & ->). apply bind_ok in Hrun as (server & s5 & Hc & Hrun). apply not_nil_ok in Hc as [Hserver ->].
  apply bind_ok in Hrun as ([] & s6 & Hm & Hrun). apply modify_ok in Hm as ->. apply bind_ok in Hrun as ([] & s7 & Hc & Hrun). apply choose_client_events in Hc.
  apply bind_ok in Hrun as (w & s8 & Hw & Hrun). apply ret_ok in Hrun as [Heq ->]. injection Heq as -> ->.
  apply connectWithAddress_ok in Hw as (Ha & mid & Hall & Hev8).
  split; [eauto|]. split; [by eauto|]. exists [ECall (CharactersToLoginByGUID guid realmID); ECall (AvailableGameServersForMapAndRealm realmID (lc_map char'))], mid.
  split; [exact Hall|]. change (events s7 = events s4) in Hc. rewrite Hev8, Ha, Hc, Hev4, Hev2. by rewrite <- !app_assoc.
Qed.
Lemma in_broadcaster_ok {A} (m : go broadcasterImpl Empty_set Empty_set A) s a s' : in_broadcaster m s = (Ok a, s') ->
  exists b, m (Sys (eventsBroadcaster (st s)) [] []) = (Ok a, b) /\ st s' = set_broadcaster (st b) (st s) /\ events s' = events s.
Proof. unfold in_broadcaster. destruct (m _) as [[x|[]|] b]; intros [= <- <-]. eauto. Qed.
(** A channel for the events of a session does not touch the streams. *)
Lemma make_chan_implements a (t : ChatChannelsService Event) n : implements a t ->
  exists t', (make_chan n : go (ChatChannelsService Event) Empty_set Empty_set nat) (Sys t [] []) = (Ok (next_chan t), Sys t' [] []) /\ implements a t' /\
  repo t' = repo t /\ streams t' = streams t /\ chans t' !! next_chan t = Some (Chan [] n false).
Proof.
  intros [[H1 H2 H3 H4 H5] Hm Hi]. eexists. split; [reflexivity|]. cbn [st].
  assert (Hlt : forall g l, streams t !! g = Some l -> l <> next_chan t) by (intros g l Hl; destruct (H4 g l Hl) as [? _]; lia).
  split; [|split; [done|split; [done|apply lookup_insert_eq]]]. split; [split; try done|exact Hm|].
  - intros g l Hl. cbn in Hl. destruct (H4 g l Hl) as (Hl' & c & Hc & Ho). cbn. split; [lia|]. exists c. rewrite lookup_insert_ne by (symmetry; eauto). done.
  - intros g. rewrite Hi. unfold stream. cbn. destruct (streams t !! g) as [l|] eqn:E; [|done]. cbn. by rewrite lookup_insert_ne by (symmetry; eauto).
Qed.
(** Registering a session for events. *)
Lemma registered_ok g (s : sys GameSession session_event) ch s' a : in_broadcaster (RegisterCharacter g) s = (Ok ch, s') -> implements a (chat (st s)) ->
  implements a (chat (st s')) /\ channels (eventsBroadcaster (st s')) !! g = Some ch /\ chans (chat (st s')) !! ch = Some (Chan [] 100 false) /\
  repo (chat (st s')) = repo (chat (st s)) /\ streams (chat (st s')) = streams (chat (st s)) /\
  st s' = set_broadcaster (eventsBroadcaster (st s')) (st s) /\ events s' = events s.
Proof.
  intros Hrun Hi. apply in_broadcaster_ok in Hrun as (b & Hrun & Hst & Hev). unfold RegisterCharacter in Hrun. apply bind_ok in Hrun as (l & b1 & Hc & Hrun).
  destruct (make_chan_implements a (chatChannelsService (eventsBroadcaster (st s))) 100 Hi) as (t' & Hmk & Hi' & Hrepo & Hstr & Hch).
  rewrite with_chat_run, Hmk in Hc. injection Hc as <- <-. apply bind_ok in Hrun as ([] & b2 & Hm & Hrun). apply modify_ok in Hm as ->. apply ret_ok in Hrun as [-> ->].
  unfold chat. rewrite Hst. cbn. split; [done|]. split; [apply lookup_insert_eq|]. done.
Qed.
(** What a login asks for the character, once the session has it. *)
Definition first_requests (guildID : u32) : M unit :=
  (if negb (guildID =? 0) then log_err GuildLoginCommand else mret tt) ;;
  HandleQueryNextMailTime ;;
  LoadGroupForPlayer.
Lemma first_requests_looks v guildID : keeps (looks v) (first_requests guildID).
Proof.
  unfold first_requests. apply keeps_bind; [|intros _; apply keeps_bind; [apply QueryNextMailTime_looks|intros _; apply LoadGroup_looks]].
  destruct (negb _); [|apply keeps_ret]. intros s Hs. pose proof (RosterCommand_looks v s Hs) as Hr. unfold log_err. by destruct (GuildLoginCommand s) as [[?|?|] ?].
Qed.
Lemma first_requests_act g I (K : Kept g True I) guildID : does g True I (first_requests guildID) any.
Proof.
  unfold first_requests. apply (does_bind _ _ _ _ _ any).
  - destruct (negb _); [|by apply does_ret]. apply does_log_err, (LoginCommand_acts _ _ _ (K := K)).
  - intros _ _. apply (does_bind _ _ _ _ _ any); [apply (QueryNextMailTime_acts _ _ _ (K := K))|intros _ _; apply (LoadGroupForPlayer_acts _ _ _ (K := K))].
Qed.
Lemma Login_run p s s' : Login p s = (Ok tt, s') -> exists char socket s1 fs es ch s2 s3,
  connectToGameServer (Uint64 (Packet_Reader p)).1 None (mret tt) (Sys (set_control no_control (st s)) (faults s) (events s)) = (Ok (char, socket), s1) /\
  (es = [] \/ es = [ELoggedIn (login_payload char)]) /\
  in_broadcaster (RegisterCharacter (lc_GUID char)) (Sys (set_worldSocket (Some socket) (set_character (Some (logged_in char)) (st s1))) fs (events s1 ++ es)) = (Ok ch, s2) /\
  first_requests (lc_guildID char) (Sys (set_eventsChan (Some ch) (st s2)) (faults s2) (events s2)) = (Ok tt, s3) /\
  s' = Sys (set_membership (NewChannelMembership (lc_GUID char) (clock (st s3))) (st s3)) (faults s3) (events s3).
Proof.
  unfold Login. intros Hrun. apply bind_ok in Hrun as ([] & s1 & Hm & Hrun). apply modify_ok in Hm as ->.
  apply bind_ok in Hrun as ([char socket] & s2 & Hc & Hrun). apply on_error_ok in Hc.
  apply bind_ok in Hrun as ([] & s3 & Hm & Hrun). apply modify_ok in Hm as ->. apply bind_ok in Hrun as ([] & s4 & Hm & Hrun). apply modify_ok in Hm as ->.
  apply bind_ok in Hrun as ([] & s5 & Hl & Hrun).
  match type of Hl with _ ?s0 = _ => destruct (log_publish (ELoggedIn (login_payload char)) s0) as (fs & es & Hlog & Hes) end. rewrite Hlog in Hl. injection Hl as <-.
  apply bind_ok in Hrun as (ch & s6 & Hr & Hrun). apply bind_ok in Hrun as ([] & s7 & Hm & Hrun). apply modify_ok in Hm as ->.
  apply bind_ok in Hrun as ([] & s8 & Hg & Hrun). apply bind_ok in Hrun as ([] & s9 & Hq & Hrun). apply bind_ok in Hrun as ([] & s10 & Hgr & Hrun).
  apply bind_ok in Hrun as (now & s11 & Hm & Hrun). apply gets_ok in Hm as [-> ->]. apply modify_ok in Hrun as ->.
  exists char, socket, s2, fs, es, ch, s6, s10. split; [exact Hc|]. split; [exact Hes|]. split; [exact Hr|]. split; [|done].
  unfold first_requests. erewrite bind_run by exact Hg. cbv beta. erewrite bind_run by exact Hq. exact Hgr.
Qed.
(** C14: a login that succeeds starts a session in order: it is logged in as the character that was
    asked for, with the data the character service gave; it is connected to the first game server
    offered for the character's map, which got the session's proof and then the character's login;
    it is registered for the events of the character, and what else it asks for is asked for the
    character; and, for a player who is in no chat channel, its view of the channels is the gateway's,
    so that it stays so. *)
Theorem login_starts_in_order (p : Packet) (s s' : sys GameSession session_event) a
  (Hrun : Login p s = (Ok tt, s')) (Hspawned : spawned (st s) = []) (Ha : implements a (chat (st s)))
  (Hnew : forall n char, answer _ n (CharactersToLoginByGUID (Uint64 (Packet_Reader p)).1 realmID) = Some char ->
          (forall name, (name, lc_GUID char) ∉ a_members a) /\ streams (chat (st s)) !! lc_GUID char = None) :
  exists char socket, (exists n, answer _ n (CharactersToLoginByGUID (Uint64 (Packet_Reader p)).1 realmID) = Some char) /\
    character (st s') = Some (logged_in char) /\ agreeing (lc_GUID char) (st s') /\
    worldSocket (st s') = Some socket /\
    (exists n server, head (answer _ n (AvailableGameServersForMapAndRealm realmID (lc_map char))) = Some server /\ ws_Address socket = srv_address server) /\
    (exists ch, eventsChan (st s') = Some ch /\ channels (eventsBroadcaster (st s')) !! lc_GUID char = Some ch /\ chans (chat (st s')) !! ch = Some (Chan [] 100 false)) /\
    (exists pre mid told post, Forall is_client mid /\ (told = [] \/ told = [ELoggedIn (login_payload char)]) /\ Forall (acts_for (lc_GUID char)) post /\
       events s' = events s ++ pre ++ [EConnect (ws_id socket) (ws_Address socket); EWorld (ws_id socket) authPacket] ++ mid ++
         [EWorld (ws_id socket) (player_login (Uint64 (Packet_Reader p)).1)] ++ told ++ post).
Proof.
  apply Login_run in Hrun as (char & socket & s1 & fs & told & ch & s2 & s3 & Hc & Htold & Hr & Hf & ->).
  apply connect_ok in Hc as (Hv & Hchar & Hserver & pre & mid & Hmid & Hev). cbn [st events] in Hv, Hev.
  assert (Hv1 : spawned (st s1) = [] /\ eventsBroadcaster (st s1) = eventsBroadcaster (st s)) by (injection Hv; by rewrite Hspawned).
  destruct Hv1 as [Hsp1 Hb1]. destruct Hchar as [n Hchar]. destruct (Hnew _ _ Hchar) as [Hout Hno].
  assert (Hi1 : implements a (chat (st (Sys (set_worldSocket (Some socket) (set_character (Some (logged_in char)) (st s1))) fs (events s1 ++ told))))) by (unfold chat; cbn; by rewrite Hb1).
  destruct (registered_ok _ _ _ _ a Hr Hi1) as (Hi2 & Hch & Hcap & _ & Hstr & Hst2 & Hev2). cbn in Hev2, Hstr. unfold chat in Hstr at 2. cbn in Hstr. rewrite Hb1 in Hstr.
  pose proof (looks_ok _ _ _ _ _ (first_requests_looks _ (lc_guildID char)) Hf eq_refl) as Hv3. unfold view in Hv3. cbn in Hv3. rewrite Hst2 in Hv3. cbn in Hv3.
  injection Hv3 as Hc3 Hw3 He3 _ Hs3 Hb3 _. rewrite Hsp1 in Hs3.
  assert (Hown : logged_in_as (lc_GUID char) (set_eventsChan (Some ch) (st s2))).
  { split; [exists (logged_in char)|]; rewrite Hst2; cbn; [done|by rewrite Hsp1]. }
  destruct (first_requests_act _ _ (own_kept (lc_GUID char)) (lc_guildID char) (Sys (set_eventsChan (Some ch) (st s2)) (faults s2) (events s2)) Hown) as (_ & (post & Hev3 & Hpost) & _).
  rewrite Hf in Hev3. cbn in Hev3.
  exists char, socket. split; [by exists n|]. split; [exact Hc3|]. split.
  { split; [split; [by exists (logged_in char)|cbn; by rewrite Hs3]|]. exists a. unfold chat in *. split; unfold chat; cbn; rewrite ?Hb3; [exact Hi2|done| |by rewrite Hstr, Hno].
    intros key. rewrite lookup_empty. split; [intros H; by destruct (Hout _ H)|by intros []]. }
  split; [exact Hw3|]. split; [exact Hserver|]. split; [exists ch; unfold chat; cbn; by rewrite He3, Hb3|].
  exists pre, mid, told, post. split; [exact Hmid|]. split; [exact Htold|]. split; [exact Hpost|]. cbn [events]. rewrite Hev3, Hev2, Hev. by rewrite <- !app_assoc.
Qed.
End Login.
