(* ===== verification/SessionMailFacts.v ===== *)
(** * SessionMailFacts: money and items that pass through a mailbox

    [traced x m Q]: a run of [m] with the character and the connections [x]
    leaves these as they are, and [Q] holds of the deeds it adds, the events
    that change something, and of how it ends. *)
From S2P Require Import Prelude GoRuntime GoStrings Safety Bytes ObjectGuid MailRepo ChatStreams Broadcaster Packet Opcodes SessionApi SessionState SessionGuild SessionSocial SessionMail.

(** Requests that change what a player has; the others are look-ups. *)
Definition changing {A} (r : request A) : bool :=
  match r with
  | RemoveItemsWithGuidsFromPlayer _ _ _ | AddExistingItemToPlayer _ _ _ | ModifyMoneyForPlayer _ _ _ | MailSend _ _ | RemoveMailItem _ _ _ _ _
  | RemoveMailMoney _ _ _ | DeleteMail _ _ | MarkAsReadForPlayer _ _ _ => true
  | _ => false
  end.
Definition deed (e : session_event) : bool := match e with ECall r => changing r | _ => true end.
Definition deeds (es : list session_event) : list session_event := List.filter deed es.
Definition seen (s : GameSession) := (character s, gameServerGRPCClient s, worldSocket s).

Section Traces.
Context {env : SessionEnv} (x : option LoggedInCharacter * option string * option world_socket).

Definition traced {A} (m : M A) (Q : list session_event -> outcome session_err A -> Prop) : Prop :=
  forall s, seen (st s) = x -> seen (st (m s).2) = x /\ exists es, events (m s).2 = events s ++ es /\ Q (deeds es) (m s).1.
(** Nothing changes; a result has [P]. *)
Definition looked {A} (P : A -> Prop) (os : list session_event) (o : outcome session_err A) : Prop := os = [] /\ forall a, o = Ok a -> P a.

Lemma traced_bind {A A'} (m : M A) (k : A -> M A') Q R : traced m Q ->
  (forall os a, Q os (Ok a) -> traced (k a) (fun os' o => R (os ++ os') o)) -> (forall os e, Q os (Fail e) -> R os (Fail e)) -> (forall os, Q os Panic -> R os Panic) ->
  traced (m ≫= k) R.
Proof.
  intros Hm Hk Hfail Hpanic s Hs. destruct (Hm s Hs) as (Hs1 & es & Hes & HQ). unfold mbind, go_bind. destruct (m s) as [[a|e|] s1]; cbn in *; [|by eauto..].
  destruct (Hk _ a HQ s1 Hs1) as (Hs2 & es' & Hes' & HR). split; [done|]. exists (es ++ es'). split; [by rewrite Hes', Hes, app_assoc|].
  unfold deeds in *. by rewrite List.filter_app.
Qed.
Lemma traced_looked {A A'} (m : M A) (k : A -> M A') (P : A -> Prop) R : traced m (looked P) -> (forall a, P a -> traced (k a) R) ->
  (forall e, R [] (Fail e)) -> R [] Panic -> traced (m ≫= k) R.
Proof.
  intros Hm Hk Hfail Hpanic. eapply traced_bind; [exact Hm| | |].
  - intros os a [-> Ha]. by apply Hk, Ha.
  - by intros os e [-> _].
  - by intros os [-> _].
Qed.
Lemma traced_post {A} (m : M A) (Q R : _ -> _ -> Prop) : traced m Q -> (forall os o, Q os o -> R os o) -> traced m R.
Proof. intros Hm HR s Hs. destruct (Hm s Hs) as (Hs1 & es & Hes & HQ). eauto 6. Qed.
Lemma traced_pure {A} (o : outcome session_err A) (Q : _ -> _ -> Prop) : Q [] o -> traced (fun s => (o, s)) Q.
Proof. intros HQ s Hs. split; [done|]. exists []. by rewrite app_nil_r. Qed.
Lemma traced_ret {A} (a : A) (Q : _ -> _ -> Prop) : Q [] (Ok a) -> traced (mret a) Q.
Proof. apply traced_pure. Qed.
Lemma traced_fail {A} e (Q : _ -> outcome session_err A -> Prop) : Q [] (Fail e) -> traced (fail e) Q.
Proof. apply traced_pure. Qed.
Lemma traced_guard b e : traced (guard_err b e) (looked (fun _ => b = false)).
Proof. destruct b; apply traced_pure; by split. Qed.
Lemma traced_char : traced char (looked (fun c => x.1.1 = Some c)).
Proof.
  intros s Hs. unfold char, mbind, go_bind, gets. cbn. assert (Hc : character (st s) = x.1.1) by (by rewrite <- Hs). rewrite Hc.
  destruct x.1.1 as [c|]; (split; [done|]); exists []; rewrite app_nil_r; (split; [done|]); (split; [done|]); intros a [=]; by subst.
Qed.
Lemma traced_game_client : traced game_client (looked (fun c => x.1.2 = Some c)).
Proof.
  intros s Hs. unfold game_client, mbind, go_bind, gets. cbn. assert (Hc : gameServerGRPCClient (st s) = x.1.2) by (by rewrite <- Hs). rewrite Hc.
  destruct x.1.2 as [c|]; (split; [done|]); exists []; rewrite app_nil_r; (split; [done|]); (split; [done|]); intros a [=]; by subst.
Qed.
Lemma traced_deref {A} (o : option A) : traced (deref o) (looked (fun a => o = Some a)).
Proof. destruct o; apply traced_pure; (split; [done|]); intros ? [=]; by subst. Qed.
Lemma traced_clock : traced (gets clock) (looked any).
Proof. intros s Hs. split; [done|]. exists []. by rewrite app_nil_r. Qed.
Lemma traced_emit e : deed e = true -> traced (emit e) (fun os o => os = [e] /\ o = Ok tt).
Proof. intros He s Hs. split; [done|]. exists [e]. cbn. by rewrite He. Qed.
(** A request is made, whether it fails or not. *)
Definition asked {A : Set} (r : request A) (os : list session_event) (o : outcome session_err A) : Prop :=
  os = [ECall r] /\ o <> Panic /\ forall a, o = Ok a -> exists n, a = answer A n r.
Lemma call_run {A : Set} (r : request A) (s : sys GameSession session_event) : exists fs,
  call r s = (Ok (answer A (length (events s)) r), Sys (st s) fs (events s ++ [ECall r])) \/ call r s = (Fail ErrService, Sys (st s) fs (events s ++ [ECall r])).
Proof. destruct s as [c [|[] fs] es]; [exists []|exists fs|exists fs]; unfold call; cbn; auto. Qed.
Lemma traced_call {A : Set} (r : request A) : changing r = true -> traced (call r) (asked r).
Proof.
  intros Hr s Hs. destruct (call_run r s) as (fs & [-> | ->]); (split; [done|]); exists [ECall r]; (split; [done|]); unfold deeds; cbn; rewrite Hr;
    (split; [done|]); (split; [done|]); intros a [=]; subst; eauto.
Qed.
Lemma traced_look {A : Set} (r : request A) : changing r = false -> traced (call r) (looked (fun a => exists n, a = answer A n r)).
Proof.
  intros Hr s Hs. destruct (call_run r s) as (fs & [-> | ->]); (split; [done|]); exists [ECall r]; (split; [done|]); unfold deeds; cbn; rewrite Hr;
    (split; [done|]); intros a [=]; subst; eauto.
Qed.
Lemma traced_wrap_err {A} f (m : M A) (Q R : _ -> _ -> Prop) : traced m Q -> (forall os o, Q os o -> match o with Fail e => R os (Fail (f e)) | o => R os o end) -> traced (wrap_err f m) R.
Proof. intros Hm HR s Hs. destruct (Hm s Hs) as (Hs1 & es & Hes & HQ). unfold wrap_err. apply HR in HQ. destruct (m s) as [[a|e|] s1]; cbn in *; eauto. Qed.
Lemma traced_mail_call {A : Set} (r : request A) : changing r = true -> traced (mail_call r) (asked r).
Proof. intros Hr. eapply traced_wrap_err; [by apply traced_call|]. intros os [a|e|] (-> & Hp & Ha); [by split| |done]. split; [done|]. by split. Qed.
Lemma traced_mail_look {A : Set} (r : request A) : changing r = false -> traced (mail_call r) (looked (fun a => exists n, a = answer A n r)).
Proof. intros Hr. eapply traced_wrap_err; [by apply traced_look|]. intros os [a|e|] (-> & Ha); by split. Qed.
Lemma traced_client p : traced (client_SendPacket p) (fun os o => os = [EClient p] /\ o = Ok tt).
Proof. by apply traced_emit. Qed.
(** The step that was made is the next one of a plan. *)
Lemma traced_step {A A' : Set} (r : request A) (k : A -> M A') (m : M A) R : traced m (asked r) ->
  (forall e, R [ECall r] (Fail e)) -> (forall n, traced (k (answer A n r)) (fun os o => R (ECall r :: os) o)) -> traced (m ≫= k) R.
Proof.
  intros Hm Hfail Hk. eapply traced_bind; [exact Hm| | |].
  - intros os a (-> & _ & Ha). destruct (Ha a eq_refl) as [n ->]. apply Hk.
  - by intros os e (-> & _).
  - by intros os (_ & H & _).
Qed.
End Traces.

Section Mail.
Context {env : SessionEnv}.

(** A mailbox, or somebody who has the mail, within reach of the player. *)
Definition reachable (server : string) (g object : u64) : Prop :=
  exists n, answer _ n (CanPlayerInteractWithGameObject server g object 19) = true \/ answer _ n (CanPlayerInteractWithNPC server g object 0x04000000) = true.
Definition has_mailbox (x : option LoggedInCharacter * option string * option world_socket) (object : u64) : Prop :=
  exists c server, x.1.1 = Some c /\ x.1.2 = Some server /\ reachable server (c_GUID c) object.
Lemma CanInteract_looks x object : traced x (CanInteractWithMailingObject object) (looked (fun b => b = true -> has_mailbox x object)).
Proof.
  assert (Hask : forall r : string -> LoggedInCharacter -> request bool, (forall server c, changing (r server c) = false) ->
    (forall server c n, answer _ n (r server c) = true -> reachable server (c_GUID c) object) ->
    traced x (server ← game_client; c ← char; call (r server c)) (looked (fun b => b = true -> has_mailbox x object))).
  { intros r Hr Hreach. eapply traced_looked; [apply traced_game_client|intros server Hserver|by split..].
    eapply traced_looked; [apply traced_char|intros c Hc|by split..]. eapply traced_post; [by apply traced_look|].
    intros os o [-> Ha]. split; [done|]. intros b -> ->. destruct (Ha true eq_refl) as [n Hn]. exists c, server. eauto. }
  unfold CanInteractWithMailingObject. cbv zeta. destruct (_ =? _); [|destruct (_ =? _)].
  - apply (Hask (fun server c => CanPlayerInteractWithGameObject server (c_GUID c) object 19)); [done|]. intros server c n Hn. exists n. auto.
  - apply (Hask (fun server c => CanPlayerInteractWithNPC server (c_GUID c) object 0x04000000)); [done|]. intros server c n Hn. exists n. auto.
  - apply traced_ret. split; [done|]. by intros a [= <-].
Qed.
Lemma near_mailbox_looks x object : traced x (near_mailbox object) (looked (fun _ => has_mailbox x object)).
Proof.
  eapply traced_looked; [apply CanInteract_looks|intros b Hb|by split..]. destruct b; [apply traced_ret; split; auto|].
  eapply traced_looked; [apply traced_char|intros c Hc; by apply traced_fail|by split..].
Qed.

(** What the packet of the client asks for. *)
Record letter := { l_mailBox : u64; l_target : string; l_subject : string; l_body : string; l_count : u8; l_guids : list ObjectGuid; l_money : Z; l_cod : Z }.
Definition read_letter (p : Packet) : letter :=
  let '(mailBox, reader) := Uint64 (Packet_Reader p) in
  let '(target, reader) := RStr reader in
  let '(subject, reader) := RStr reader in
  let '(body, reader) := RStr reader in
  let '(_, reader) := Int32 reader in
  let '(_, reader) := Int32 reader in
  let '(count, reader) := Uint8 reader in
  let '(guids, reader) := read_many read_attachment (Z.to_nat count) reader in
  let '(money, reader) := Int32 reader in
  let '(cod, reader) := Int32 reader in
  {| l_mailBox := mailBox; l_target := target; l_subject := subject; l_body := body; l_count := count; l_guids := guids; l_money := money; l_cod := cod |}.
Definition required (l : letter) : Z := int32 (mail_cost (l_count l) + l_money l).
Definition raw_guids (l : letter) : list u64 := GetRawValue <$> l_guids l.
Definition refused (status : u8) : session_event :=
  EClient (mail_BuildPacket {| mr_MailID := 0; mr_Type := MailResponseTypeMailSend; mr_Status := status; mr_BagResult := 0; mr_AttachID := 0; mr_QtyInInventory := 0 |}).

(** The plan of a mail: take the items, take the money, send, tell the client. *)
Definition taking (l : letter) (server : string) (g : u64) : list session_event :=
  if 0 <? l_count l then [ECall (RemoveItemsWithGuidsFromPlayer server g (raw_guids l))] else [].
Definition plan (l : letter) (server : string) (g : u64) (q : SendMailRequest) : list session_event :=
  taking l server g ++ [ECall (ModifyMoneyForPlayer server g (int32 (- required l))); ECall (MailSend realmID q); refused MailResponseStatusOk].
(** The answers that the plan rests on. *)
Record mail_granted (l : letter) (server : string) (g : u64) (receiver : NamedChar) (items : list PlayerItem) : Prop := {
  gr_reachable : reachable server g (l_mailBox l);
  gr_receiver : exists n, answer _ n (CharacterByName realmID (l_target l)) = Some receiver;
  gr_money : l_money l <= required l /\ exists n, wrap32 (required l) <= answer _ n (GetMoneyForPlayer server g);
  gr_items : if 0 <? l_count l then (exists n, answer _ n (GetPlayerItemsByGuids server g (raw_guids l)) = items) /\
               length items = length (raw_guids l) /\ Forall (fun i => pi_isTradable i = true) items else items = []
}.
Inductive mail_run (l : letter) (x : option LoggedInCharacter * option string * option world_socket) : list session_event -> outcome session_err unit -> Prop :=
| NothingDone o : (forall a, o <> Ok a) -> mail_run l x [] o
| Refused status o : status <> MailResponseStatusOk -> mail_run l x [refused status] o
| Planned c server receiver items q os o :
    x.1.1 = Some c -> x.1.2 = Some server -> mail_granted l server (c_GUID c) receiver items ->
    sm_senderGuid q = Some (c_GUID c) -> sm_receiverGuid q = nc_charGUID receiver -> sm_subject q = l_subject l -> sm_body q = l_body l ->
    sm_moneyToSend q = l_money l -> sm_cashOnDelivery q = l_cod l -> sm_attachments q = attach <$> items ->
    (exists rest, os ++ rest = plan l server (c_GUID c) q /\ (o = Ok tt <-> rest = [])) ->
    (0 < l_count l -> (1 < length os)%nat -> exists n, length (answer _ n (RemoveItemsWithGuidsFromPlayer server (c_GUID c) (raw_guids l))) = length (raw_guids l)) ->
    mail_run l x os o.

Definition owned (server : string) (g : u64) (guids : list u64) (items : list PlayerItem) : Prop :=
  (exists n, answer _ n (GetPlayerItemsByGuids server g guids) = items) /\ length items = length guids /\ Forall (fun i => pi_isTradable i = true) items.
Definition removal (server : string) (g : u64) (guids : list u64) : session_event := ECall (RemoveItemsWithGuidsFromPlayer server g guids).
Inductive take_run (server : string) (g : u64) (guids : list u64) : list session_event -> outcome session_err (option (list MailAttachment)) -> Prop :=
| TakeNothing o : (forall a, o <> Ok a) -> take_run server g guids [] o
| TakeRefused o : (forall l, o <> Ok (Some l)) -> take_run server g guids [refused MailResponseStatusMailAttachmentInvalid] o
| TakeFailed items o : owned server g guids items -> (forall a, o <> Ok a) -> take_run server g guids [removal server g guids] o
| Taken items : owned server g guids items -> (exists n, length (answer _ n (RemoveItemsWithGuidsFromPlayer server g guids)) = length guids) ->
    take_run server g guids [removal server g guids] (Ok (Some (attach <$> items))).
Lemma take_items_run x server c guids : x.1.1 = Some c -> traced x (take_items server guids) (take_run server (c_GUID c) guids).
Proof.
  intros Hx. unfold take_items. eapply traced_looked; [apply traced_char|intros c' Hc'|by constructor..]. rewrite Hx in Hc'. injection Hc' as <-.
  assert (Hrefuse : forall m : M (option (list MailAttachment)), traced x m (fun os o => os = [] /\ forall l, o <> Ok (Some l)) ->
    traced x (mail_result 0 MailResponseTypeMailSend MailResponseStatusMailAttachmentInvalid ;; m) (take_run server (c_GUID c) guids)).
  { intros m Hm. eapply traced_bind; [apply traced_client| | |].
    - intros os [] [-> _]. eapply traced_post; [exact Hm|]. intros os o [-> Ho]. by constructor.
    - by intros os e [_ ?].
    - by intros os [_ ?]. }
  apply (traced_looked _ _ _ (fun o => forall items, o = Some items -> exists n, answer _ n (GetPlayerItemsByGuids server (c_GUID c) guids) = items)); [|intros [items|] Hit|by constructor..].
  - intros s Hs. unfold try_err. destruct (call_run (GetPlayerItemsByGuids server (c_GUID c) guids) s) as (fs & [-> | ->]); (split; [done|]); eexists; (split; [reflexivity|]); (split; [done|]);
      intros a [=]; subst; intros items [=]; subst; eauto.
  - destruct (negb _) eqn:El; [apply Hrefuse, traced_fail; by split|]. apply negb_false_iff, Nat.eqb_eq in El.
    destruct (forallb _ _) eqn:Ef; [|apply Hrefuse, traced_ret; split; [done|congruence]].
    assert (Howned : owned server (c_GUID c) guids items).
    { split; [by apply Hit|]. split; [done|]. apply Forall_forall. intros i Hi. rewrite forallb_forall in Ef. apply Ef. by apply list_elem_of_In. }
    eapply traced_step; [by apply traced_call|intros e; by eapply TakeFailed|]. intros n. eapply traced_looked; [apply traced_guard|intros [] Hg|intros ?; by eapply TakeFailed|by eapply TakeFailed].
    apply negb_false_iff, Nat.eqb_eq in Hg. apply traced_ret. apply Taken; eauto.
  - apply Hrefuse, traced_fail. by split.
Qed.

Definition the_mail (l : letter) (c : LoggedInCharacter) (receiver : NamedChar) (items : list PlayerItem) (now : Z) : SendMailRequest :=
  {| sm_senderGuid := Some (c_GUID c); sm_receiverGuid := nc_charGUID receiver; sm_subject := l_subject l; sm_body := l_body l;
     sm_moneyToSend := l_money l; sm_cashOnDelivery := l_cod l; sm_attachments := attach <$> items;
     sm_deliveryTimestamp := (now + 30 * 1000000000) / 1000000000; sm_expirationTimestamp := 0; sm_type := 0; sm_templateID := 0;
     sm_stationery := 41 |}.
(** As far as the plan went. *)
Lemma planned l x c server receiver items now os o rest : x.1.1 = Some c -> x.1.2 = Some server -> mail_granted l server (c_GUID c) receiver items ->
  (0 < l_count l -> exists n, length (answer _ n (RemoveItemsWithGuidsFromPlayer server (c_GUID c) (raw_guids l))) = length (raw_guids l)) ->
  os ++ rest = plan l server (c_GUID c) (the_mail l c receiver items now) -> (o = Ok tt <-> rest = []) -> mail_run l x os o.
Proof. intros Hc Hs Hg Hr Hplan Ho. eapply (Planned _ _ c server receiver items (the_mail l c receiver items now)); eauto. Qed.
Lemma send_tail l x c server receiver items : x.1.1 = Some c -> x.1.2 = Some server -> mail_granted l server (c_GUID c) receiver items ->
  (0 < l_count l -> exists n, length (answer _ n (RemoveItemsWithGuidsFromPlayer server (c_GUID c) (raw_guids l))) = length (raw_guids l)) ->
  traced x (call (ModifyMoneyForPlayer server (c_GUID c) (int32 (- required l))) ;; now ← gets clock; mail_call (MailSend realmID (the_mail l c receiver items now)) ;;
            mail_result 0 MailResponseTypeMailSend MailResponseStatusOk)
    (fun os o => mail_run l x (taking l server (c_GUID c) ++ os) o).
Proof.
  intros Hc Hs Hg Hr. assert (Hend : forall os o rest now, os ++ rest = plan l server (c_GUID c) (the_mail l c receiver items now) -> (o = Ok tt <-> rest = []) -> mail_run l x os o).
  { intros. by eapply planned. }
  eapply traced_step; [by apply traced_call|intros e; eapply (Hend _ _ _ 0); [rewrite <- app_assoc; reflexivity|done]|]. intros _.
  eapply traced_looked; [apply traced_clock|intros now _|intros e; eapply (Hend _ _ _ 0); [rewrite <- app_assoc; reflexivity|done]|eapply (Hend _ _ _ 0); [rewrite <- app_assoc; reflexivity|done]].
  eapply traced_step; [by apply traced_mail_call|intros e; eapply (Hend _ _ _ now); [rewrite <- app_assoc; reflexivity|done]|]. intros _.
  eapply traced_post; [apply traced_client|]. intros os o [-> ->]. eapply (Hend _ _ [] now); [by rewrite app_nil_r|done].
Qed.

(** C13: a mail is paid before it is sent.  Whatever the client writes and whichever request fails,
    sending a mail changes nothing, or tells the client why not, or follows the plan as far as the
    requests go: the attached items are taken out of the player's bags, all of them and only items
    that may be traded, then the money of the letter with its price, which the player had, then the
    mail goes to the receiver that was named, with these items, this money and these words, and only
    then the client is told that it was sent. *)
Theorem mail_is_paid_first (p : Packet) (s : sys GameSession session_event) :
  exists es, events (HandleSendMail p s).2 = events s ++ es /\ mail_run (read_letter p) (seen (st s)) (deeds es) (HandleSendMail p s).1.
Proof.
  assert (H : traced (seen (st s)) (HandleSendMail p) (mail_run (read_letter p) (seen (st s)))); [|by apply (H s eq_refl)].
  generalize (seen (st s)) as x. intros x. clear s. unfold HandleSendMail, read_letter.
  destruct (Uint64 _) as [mailBox r1], (RStr r1) as [target r2], (RStr r2) as [subject r3], (RStr r3) as [body r4], (Int32 r4) as [z r5], (Int32 r5) as [z' r6],
    (Uint8 r6) as [count r7], (read_many _ _ r7) as [guids r8], (Int32 r8) as [money r9], (Int32 r9) as [cod r10]. set (l := {| l_mailBox := mailBox |}).
  eapply traced_looked; [apply near_mailbox_looks|intros _ (c & server & Hc & Hserver & Hreach)|by constructor..].
  eapply traced_looked; [by apply traced_look|intros receiver [n Hrec]|by constructor..].
  destruct receiver as [receiver|]; [|eapply traced_post; [apply traced_client|intros os o [-> _]; by apply Refused]].
  eapply traced_looked; [apply traced_game_client|intros server' Hs'|by constructor..]. rewrite Hserver in Hs'. injection Hs' as <-.
  eapply traced_looked; [apply traced_char|intros c' Hc'|by constructor..]. rewrite Hc in Hc'. injection Hc' as <-.
  eapply traced_looked; [by apply traced_look|intros had [k Hhad]|by constructor..]. cbv zeta. change (int32 (mail_cost count + money)) with (required l).
  destruct (_ || _) eqn:Hmoney; [eapply traced_post; [apply traced_client|intros os o [-> _]; by apply Refused]|].
  apply orb_false_iff in Hmoney as [Hm1 Hm2]. apply Z.ltb_ge in Hm1, Hm2.
  assert (Hg : forall items, (if 0 <? count then owned server (c_GUID c) (raw_guids l) items else items = []) -> mail_granted l server (c_GUID c) receiver items).
  { intros items Hi. split; [done|by exists n|split; [done|by exists k; rewrite <- Hhad]|done]. }
  assert (Hstop : forall os o (o' : outcome session_err unit), (if 0 <? count then take_run server (c_GUID c) (raw_guids l) os o else os = [] /\ o = Ok (Some [])) ->
    (forall a, o <> Ok a) -> (forall a, o' <> Ok a) -> mail_run l x os o').
  { intros os o o' Ho Hno Hno'. destruct (0 <? count) eqn:E; [|destruct Ho as [_ ->]; by destruct (Hno (Some []))].
    inversion Ho; subst; [by constructor|by apply Refused| |by edestruct Hno].
    eapply (Planned _ _ c server receiver items (the_mail l c receiver items 0)); try done; [by apply Hg|exists (skipn 1 (plan l server (c_GUID c) (the_mail l c receiver items 0)))|cbn; lia].
    unfold plan, taking. cbn [l_count l]. rewrite E. split; [done|]. split; [by intros ->; destruct (Hno' tt)|by intros [=] ]. }
  eapply (traced_bind _ _ _ (fun os o => if 0 <? count then take_run server (c_GUID c) (raw_guids l) os o else os = [] /\ o = Ok (Some []))).
  - destruct (0 <? count); [by apply take_items_run|by apply traced_ret].
  - intros os o Ho. destruct o as [attachments|]; [|destruct (0 <? count); [inversion Ho; subst; [naive_solver|by apply traced_ret, Refused|naive_solver]|by destruct Ho] ].
    assert (Hitems : exists items, attachments = attach <$> items /\ os = taking l server (c_GUID c) /\ mail_granted l server (c_GUID c) receiver items /\
      (0 < count -> exists n, length (answer _ n (RemoveItemsWithGuidsFromPlayer server (c_GUID c) (raw_guids l))) = length (raw_guids l))).
    { unfold taking. cbn [l_count l]. destruct (0 <? count) eqn:E.
      - inversion Ho; subst; [naive_solver..|]. exists items. split; [done|]. split; [done|]. split; [by apply Hg|done].
      - destruct Ho as [-> [= ->]]. exists []. split; [done|]. split; [done|]. split; [by apply Hg|]. intros ?. apply Z.ltb_ge in E. lia. }
    destruct Hitems as (items & -> & -> & Hgr & Hrem). by apply send_tail.
  - intros os e Ho. by apply (Hstop os (Fail e)).
  - intros os Ho. by apply (Hstop os Panic).
Qed.

(** ** Taking an item *)

(** What the client asks for: the mail, and the item in it. *)
Definition read_take (p : Packet) : u64 * Z * Z :=
  let '(mailBox, reader) := Uint64 (Packet_Reader p) in
  let '(mailID, reader) := Int32 reader in
  let '(itemID, reader) := Int32 reader in
  (mailBox, mailID, itemID).
Definition item_result (mailID : Z) (status : u8) (bag attach quantity : u32) : session_event :=
  EClient (mail_BuildPacket {| mr_MailID := mailID; mr_Type := MailResponseTypeItemTaken; mr_Status := status; mr_BagResult := bag; mr_AttachID := attach;
                               mr_QtyInInventory := quantity |}).
Definition given (item : MailAttachment) (itemID : Z) : AddedItem :=
  {| ai_guid := GetRawValue (NewFromEntryAndCounter ObjectGuid.Item (ma_entry item) (wrap32 itemID)); ai_entry := ma_entry item;
     ai_count := ma_count item; ai_flags := ma_flags item; ai_durability := wrap32 (ma_durability item);
     ai_randomPropertyID := ma_randomPropertyID item; ai_text := ma_text item |}.
(** Pay the price; give the item, and take it out of the mail when there was
    space for it. *)
Definition price (server : string) (g : u64) (cod : Z) : list session_event :=
  if 0 <? cod then [ECall (ModifyMoneyForPlayer server g (int32 (- cod)))] else [].
Definition giving (server : string) (g : u64) (mail : SessionMail) (item : MailAttachment) (mailID itemID status : Z) : list session_event :=
  ECall (AddExistingItemToPlayer server g (given item itemID)) ::
  (if status =? 1 then [item_result mailID MailResponseStatusEquipErr 4 0 0]
   else [ECall (RemoveMailItem realmID (Some g) mailID (wrap64 itemID) (0 <? ml_cashOnDelivery mail));
         item_result mailID MailResponseStatusOk 0 (wrap32 itemID) (ma_count item)]).
Definition take_plan (server : string) (g : u64) (mail : SessionMail) (item : MailAttachment) (mailID itemID status : Z) : list session_event :=
  price server g (ml_cashOnDelivery mail) ++ giving server g mail item mailID itemID status.
Inductive take_item_run (mailBox : u64) (mailID itemID : Z) (x : option LoggedInCharacter * option string * option world_socket) :
  list session_event -> outcome session_err unit -> Prop :=
| NothingTaken o : (forall a, o <> Ok a) -> take_item_run mailBox mailID itemID x [] o
| TakingRefused status o : status <> MailResponseStatusOk -> take_item_run mailBox mailID itemID x [item_result mailID status 0 0 0] o
| TakingPlanned c server mail item status os o :
    x.1.1 = Some c -> x.1.2 = Some server -> reachable server (c_GUID c) mailBox ->
    (exists n, answer _ n (MailByID realmID mailID) = Some mail) -> ml_receiverGuid mail = c_GUID c ->
    item ∈ ml_attachments mail -> ma_guid item = wrap64 itemID ->
    (0 < ml_cashOnDelivery mail -> exists n, wrap32 (ml_cashOnDelivery mail) <= answer _ n (GetMoneyForPlayer server (c_GUID c))) ->
    (exists rest, os ++ rest = take_plan server (c_GUID c) mail item mailID itemID status /\ (o = Ok tt <-> rest = [])) ->
    take_item_run mailBox mailID itemID x os o.
Lemma pay_run x server c mailID cod : x.1.1 = Some c -> x.1.2 = Some server ->
  traced x (pay_delivery mailID cod) (fun os o =>
    (os = [] /\ forall a, o <> Ok a) \/ (os = [item_result mailID MailResponseStatusNotEnoughMoney 0 0 0] /\ o = Ok false) \/
    ((0 < cod -> exists n, wrap32 cod <= answer _ n (GetMoneyForPlayer server (c_GUID c))) /\
     os = price server (c_GUID c) cod /\ (o = Ok true \/ 0 < cod /\ exists e, o = Fail e))).
Proof.
  intros Hc Hs. unfold pay_delivery, price. destruct (0 <? cod) eqn:E; [|apply traced_ret; right; right; split; [apply Z.ltb_ge in E; lia|auto] ].
  eapply traced_looked; [apply traced_game_client|intros server' Hs'|by auto..]. rewrite Hs in Hs'. injection Hs' as <-.
  eapply traced_looked; [apply traced_char|intros c' Hc'|by auto..]. rewrite Hc in Hc'. injection Hc' as <-.
  eapply traced_looked; [by apply traced_look|intros had [k Hhad]|by auto..]. destruct (had <? wrap32 cod) eqn:Em.
  - eapply traced_bind; [apply traced_client| |by intros os e [_ ?]|by intros os [_ ?] ]. intros os [] [-> _]. apply traced_ret. right. auto.
  - apply Z.ltb_ge in Em. apply Z.ltb_lt in E. assert (exists n, wrap32 cod <= answer _ n (GetMoneyForPlayer server (c_GUID c))) by (exists k; by rewrite <- Hhad).
    eapply traced_step; [by apply traced_call|intros e; eauto 8|]. intros _. apply traced_ret. right. right. auto.
Qed.

End Mail.
