(* ===== verification/SessionWorldFacts.v ===== *)
(** * SessionWorldFacts: a session and its game servers

    A session that loses its game server finds another one, and what a session
    is told about battlegrounds reaches the client in order. *)
From S2P Require Import Prelude GoRuntime GoStrings Safety Bytes Packet Battleground OnlineCharacters ChatStreams Broadcaster Opcodes SessionApi SessionState SessionGuild SessionGroups SessionMail SessionChannels SessionWorld Session SessionMailFacts.

Section World.
Context {env : SessionEnv}.

(** Nothing fails in what is left. *)
Lemma call_works {A : Set} (r : request A) c es : call r (Sys c [] es) = (Ok (answer A (length es) r), Sys c [] (es ++ [ECall r])).
Proof. reflexivity. Qed.
(** A connection that starts: what the game server says before its answer is
    passed on to the client. *)
Definition is_answer (p : Packet) : bool := (Opcode p =? SMsgAuthChallenge) || (Opcode p =? SMsgAuthResponse).
Definition passed (ps : list Packet) : list session_event := EClient <$> ps.
Lemma wait_answer ps p rest : Forall (fun q => is_answer q = false) ps -> is_answer p = true -> forall c es,
  wait_packet initial_packet (fail ErrSocketClosed) (fail ErrTimeout) ((RPacket <$> ps) ++ RPacket p :: rest) (Sys c [] es) =
    (Ok tt, Sys (set_reads rest c) [] (es ++ passed ps)).
Proof.
  intros Hps Hp. induction Hps as [|q ps Hq _ IH]; intros c es; cbn [fmap list_fmap app wait_packet passed].
  - erewrite bind_run by reflexivity. cbn. unfold initial_packet. fold (is_answer p). rewrite Hp. cbn. by rewrite app_nil_r.
  - assert (Hpass : initial_packet q = (client_SendPacket q ;; mret None)) by (unfold initial_packet; fold (is_answer q); by rewrite Hq).
    erewrite bind_run by reflexivity. cbv beta. cbn [st faults events]. rewrite Hpass. erewrite bind_run by reflexivity. cbv beta iota.
    etransitivity; [apply IH|]. by rewrite <- app_assoc.
Qed.
Definition login_of (guid : u64) : Packet := ToPacket (NewWriterWithSize CMsgPlayerLogin 8 |> WUint64 guid).
Lemma choose_works address grpc (c : GameSession) es : addressesMapping (connMgr c) !! address = Some grpc -> grpc <> "" ->
  exists mgr, choose_client address (Sys c [] es) = (Ok tt, Sys (set_client (Some grpc) (set_connMgr mgr c)) [] es).
Proof.
  intros Hm Hne. assert (Hg : exists mgr, GRPCConnByGameServerAddress address (Sys c [] es) = (Ok grpc, Sys (set_connMgr mgr c) [] es)).
  { unfold GRPCConnByGameServerAddress. erewrite bind_run by reflexivity. cbv beta zeta. cbn [st]. rewrite Hm. change (default "" (Some grpc)) with grpc.
    destruct (String.eqb grpc "") eqn:E; [by apply String.eqb_eq in E|]. unfold guard_err. erewrite bind_run by reflexivity.
    case_bool_decide; [exists (connMgr c); by destruct c|]. eexists. reflexivity. }
  destruct Hg as [mgr Hg]. exists mgr. unfold choose_client. erewrite bind_run by (unfold try_err; rewrite Hg; reflexivity). reflexivity.
Qed.
Lemma connected guid address hook hook_es ps p rest c es : reads c = (RPacket <$> ps) ++ RPacket p :: rest ->
  Forall (fun q => is_answer q = false) ps -> is_answer p = true -> (forall c es, hook (Sys c [] es) = (Ok tt, Sys c [] (es ++ hook_es))) ->
  connectToGameServerWithAddress guid address hook (Sys c [] es) =
    (Ok {| ws_id := next_socket c; ws_Address := address |}, Sys (set_reads rest (set_next_socket (S (next_socket c)) c)) []
       (es ++ [EConnect (next_socket c) address; EWorld (next_socket c) authPacket] ++ passed ps ++ hook_es ++ [EWorld (next_socket c) (login_of guid)])).
Proof.
  intros Hreads Hps Hp Hhook. unfold connectToGameServerWithAddress. erewrite bind_run by reflexivity. cbv beta. erewrite bind_run by reflexivity. cbv beta. cbn [st faults events ws_id].
  assert (Hw : forall c1 es1, reads c1 = reads c -> wait_world initial_packet (fail ErrSocketClosed) (fail ErrTimeout) (Sys c1 [] es1) = (Ok tt, Sys (set_reads rest c1) [] (es1 ++ passed ps))).
  { intros c1 es1 Hr. unfold wait_world. erewrite bind_run by reflexivity. cbn [st]. rewrite Hr, Hreads. by apply wait_answer. }
  erewrite bind_run by (by apply Hw). erewrite bind_run by reflexivity. erewrite bind_run by apply Hhook. erewrite bind_run by reflexivity.
  unfold mret, go_ret. cbn [st faults events ws_id]. rewrite <- !app_assoc. reflexivity.
Qed.
Lemma connect_works guid char server hook hook_es ps p rest c es :
  (forall n, answer _ n (CharactersToLoginByGUID guid realmID) = Some char) ->
  (forall n, head (answer _ n (AvailableGameServersForMapAndRealm realmID (lc_map char))) = Some server) -> srv_grpcAddress server <> "" ->
  reads c = (RPacket <$> ps) ++ RPacket p :: rest -> Forall (fun q => is_answer q = false) ps -> is_answer p = true ->
  (forall c es, hook (Sys c [] es) = (Ok tt, Sys c [] (es ++ hook_es))) ->
  exists mgr, connectToGameServer guid None hook (Sys c [] es) =
    (Ok (char, {| ws_id := next_socket c; ws_Address := srv_address server |}),
     Sys (set_reads rest (set_next_socket (S (next_socket c)) (set_client (Some (srv_grpcAddress server)) (set_connMgr mgr c)))) []
       (es ++ [ECall (CharactersToLoginByGUID guid realmID); ECall (AvailableGameServersForMapAndRealm realmID (lc_map char));
               EConnect (next_socket c) (srv_address server); EWorld (next_socket c) authPacket] ++ passed ps ++ hook_es ++ [EWorld (next_socket c) (login_of guid)])).
Proof.
  intros Hchar Hserver Hgrpc Hreads Hps Hp Hhook. unfold connectToGameServer. erewrite bind_run by apply call_works. rewrite Hchar. erewrite bind_run by reflexivity.
  cbv zeta. change (default (lc_map char) None) with (lc_map char). erewrite bind_run by apply call_works. rewrite Hserver. erewrite bind_run by reflexivity. erewrite bind_run by reflexivity.
  cbn [st faults events]. set (c1 := set_connMgr _ c).
  destruct (choose_works (srv_address server) (srv_grpcAddress server) c1 ((es ++ [ECall (CharactersToLoginByGUID guid realmID)]) ++
    [ECall (AvailableGameServersForMapAndRealm realmID (lc_map char))])) as [mgr Hmgr]; [apply lookup_insert_eq|done|].
  exists mgr. erewrite bind_run by exact Hmgr. clear Hmgr. erewrite bind_run by (eapply connected; [exact Hreads|done..]). cbv beta.
  unfold mret, go_ret. cbn [st faults events ws_id]. rewrite <- !app_assoc. reflexivity.
Qed.

Definition system_message (msg : string) : session_event :=
  EClient (ToPacket (NewWriterWithSize SMsgMessageChat 0 |> WUint8 ChatTypeSystem |> WUint32 0 |> WUint64 0 |> WUint32 0 |> WUint64 0
                     |> WUint32 (text_size msg) |> WStr msg |> WUint8 0)).
Definition recovered_text (address : string) : string :=
  if showGameserverConnChangeToClient then "Connection recovered! New gameserver: " +:+ address +:+ ". Sorry for inconvenience."
  else "Connection recovered! Sorry for inconvenience.".
Definition position_of (snap : LoggedInCharacter) : Position :=
  let '(x, y, z, o) := c_Position snap in {| pos_mapID := c_Map snap; pos_x := x; pos_y := y; pos_z := z; pos_o := o |}.
Lemma save_position_works snap c es : save_position snap (Sys c [] es) = (Ok tt, Sys c [] (es ++ [ECall (SavePlayerPosition realmID (c_GUID snap) (position_of snap))])).
Proof.
  unfold save_position, position_of. destruct (c_Position snap) as [[[x y] z] o]. unfold log_err. rewrite call_works. by destruct (answer _ _ _).
Qed.

Definition lost_text : session_event := system_message "Lost connection with world server... trying to recover.".
Definition moved_to (snap : LoggedInCharacter) (map : u32) : session_event :=
  let '(x, y, z, _) := c_Position snap in EClient (ToPacket (new_world map x y z)).
Lemma loop_connects snap char socket (s s2 : sys GameSession session_event) : connectToGameServer (c_GUID snap) None (save_position snap) s = (Ok (char, socket), s2) ->
  reconnect_loop 3 true snap s = (Ok (Connected char socket), s2).
Proof.
  intros Hconn. cbn [reconnect_loop]. erewrite bind_run by reflexivity. cbv beta iota. assert (Ht : try_err (connectToGameServer (c_GUID snap) None (save_position snap)) s = (Ok (Some (char, socket)), s2)).
  { unfold try_err. by rewrite Hconn. }
  by erewrite bind_run by exact Ht.
Qed.
Lemma reconnect_works snap char socket c es c2 es2 : connectToGameServer (c_GUID snap) None (save_position snap) (Sys c [] (es ++ [lost_text])) = (Ok (char, socket), Sys c2 [] es2) ->
  reconnect snap (Sys c [] es) = (Ok tt, Sys (set_safeFuns (sessionSafeFuChan c2 ++ [Recovered socket]) c2) [] (es2 ++ [moved_to snap (lc_map char)])).
Proof.
  intros Hconn. unfold reconnect, moved_to. destruct (c_Position snap) as [[[x y] z] o] eqn:Hpos. erewrite bind_run by reflexivity.
  erewrite bind_run by exact (loop_connects _ _ _ _ _ Hconn).
  cbv beta iota. erewrite bind_run by reflexivity. reflexivity.
Qed.

Lemma recovered_works socket snap c es : sessionSafeFuChan c = [Recovered socket] -> character c = Some snap ->
  on_safe_fun (Sys c [] es) = (Ok tt, Sys (set_worldSocket (Some socket) (set_safeFuns [] c)) [] (es ++ [system_message (recovered_text (ws_Address socket))])).
Proof.
  intros Hf Hc. unfold on_safe_fun. erewrite bind_run by reflexivity. cbn [st]. rewrite Hf. erewrite bind_run by reflexivity. cbn [run_safe_fun].
  erewrite bind_run; [|unfold adopt; erewrite bind_run by reflexivity; cbn; rewrite Hc; reflexivity]. reflexivity.
Qed.

(** ** Battlegrounds *)
Record queue_place := { qp_slots : gmap u32 u8; qp_min : u8; qp_max : u8; qp_type : u8 }.
Record invite := { in_place : queue_place; in_map : u32; in_time : u32 }.
Definition queued_event (realm : u32) (guids : list u64) (q : queue_place) : Event :=
  {| ev_Type := EventTypeMMJoinedPVPQueue; ev_Payload := PMatchmaking (PlayersQueued realm guids (qp_slots q) (qp_min q) (qp_max q) (qp_type q)) |}.
Definition invited_event (realm : u32) (guids : list u64) (i : invite) : Event :=
  let q := in_place i in
  {| ev_Type := EventTypeMMInvitedToBGOrArena;
     ev_Payload := PMatchmaking (PlayersInvited realm guids (qp_slots q) (qp_min q) (qp_max q) (qp_type q) (in_map i) (in_time i)) |}.
Definition place_packet (c : LoggedInCharacter) (q : queue_place) : Packet :=
  ToPacket (battlefield_status (slot_of (qp_slots q) c) (qp_type q) (qp_min q) (qp_max q) BattlegroundStatusInQueue |> WUint32 0 |> WUint32 0).
Definition invite_packet (c : LoggedInCharacter) (i : invite) : Packet :=
  let q := in_place i in
  ToPacket (battlefield_status (slot_of (qp_slots q) c) (qp_type q) (qp_min q) (qp_max q) BattlegroundStatusInvited |> WUint32 (in_map i) |> WUint64 0 |> WUint32 (in_time i)).
Fixpoint handle_all (evs : list Event) : M unit :=
  match evs with
  | [] => mret tt
  | ev :: evs => handle_event ev ;; handle_all evs
  end.
Definition with_invites (c : LoggedInCharacter) (invites : list invite) : LoggedInCharacter :=
  foldl (fun c i => set_pending (Some (invite_packet c i)) c) c invites.
Lemma char_run c (s : sys GameSession session_event) : character (st s) = Some c -> char s = (Ok c, s).
Proof. intros Hc. unfold char, mbind, go_bind, gets. by rewrite Hc. Qed.
Lemma update_char_run f c g fs es : character g = Some c -> update_char f (Sys g fs es) = (Ok tt, Sys (set_character (Some (f c)) g) fs es).
Proof. intros Hc. unfold update_char. by erewrite bind_run by (by apply char_run). Qed.
Lemma held realm guids invites evs : forall c g fs es, character g = Some c -> c_waitingJoinToQueue c = true ->
  exists g', handle_all ((invited_event realm guids <$> invites) ++ evs) (Sys g fs es) = handle_all evs (Sys g' fs es) /\ character g' = Some (with_invites c invites).
Proof.
  induction invites as [|i invites IH]; intros c g fs es Hc Hw; [by exists g|]. cbn [fmap list_fmap app handle_all].
  assert (Hi : handle_event (invited_event realm guids i) (Sys g fs es) = (Ok tt, Sys (set_character (Some (set_pending (Some (invite_packet c i)) c)) g) fs es)).
  { cbn [handle_event invited_event ev_Type ev_Payload]. unfold HandleEventMMInvitedToBGOrArena. erewrite bind_run by (by apply char_run). cbv zeta beta. rewrite Hw. by apply update_char_run. }
  erewrite bind_run by exact Hi. apply (IH (set_pending (Some (invite_packet c i)) c)); [done|exact Hw].
Qed.
Lemma with_invites_same invites : forall c, c_GUID (with_invites c invites) = c_GUID c /\ c_waitingJoinToQueue (with_invites c invites) = c_waitingJoinToQueue c /\
  c_pendingInvitePacket (with_invites c invites) = match last invites with Some i => Some (invite_packet c i) | None => c_pendingInvitePacket c end.
Proof.
  induction invites as [|i invites IH]; intros c; [done|]. cbn [with_invites foldl]. destruct (IH (set_pending (Some (invite_packet c i)) c)) as (Hg & Hw & Hp).
  split; [exact Hg|]. split; [exact Hw|]. unfold with_invites in Hp. rewrite Hp, last_cons. by destruct (last invites).
Qed.
Lemma sent realm guids invites : forall c g fs es, character g = Some c -> c_waitingJoinToQueue c = false ->
  handle_all (invited_event realm guids <$> invites) (Sys g fs es) = (Ok tt, Sys g fs (es ++ (EClient ∘ invite_packet c <$> invites))).
Proof.
  induction invites as [|i invites IH]; intros c g fs es Hc Hw; [cbn; by rewrite app_nil_r|]. cbn [fmap list_fmap handle_all].
  assert (Hi : handle_event (invited_event realm guids i) (Sys g fs es) = (Ok tt, Sys g fs (es ++ [EClient (invite_packet c i)]))).
  { cbn [handle_event invited_event ev_Type ev_Payload]. unfold HandleEventMMInvitedToBGOrArena. erewrite bind_run by (by apply char_run).
    cbv zeta beta. by rewrite Hw. }
  erewrite bind_run by exact Hi. erewrite IH by done. by rewrite <- app_assoc.
Qed.
Definition first_invite (c : LoggedInCharacter) (invites : list invite) : option Packet :=
  match last invites with Some i => Some (invite_packet c i) | None => c_pendingInvitePacket c end.

(** The client learns of its place in a queue before it is invited.  However many invites arrive
    between the request to join and the word of the matchmaking server that the player is queued,
    none of them is sent; then the place is, and after it the last of those invites, once; later
    invites are sent as they come.  Nothing of it fails. *)
Theorem invite_waits_for_queue realm guids (early later : list invite) q c g fs es
  (Hc : character g = Some c) (Hw : c_waitingJoinToQueue c = true) :
  exists g', handle_all ((invited_event realm guids <$> early) ++ queued_event realm guids q :: (invited_event realm guids <$> later)) (Sys g fs es) =
    (Ok tt, Sys g' fs (es ++ EClient (place_packet c q) :: (EClient <$> option_list (first_invite c early)) ++ (EClient ∘ invite_packet c <$> later))) /\
  exists c', character g' = Some c' /\ c_GUID c' = c_GUID c /\ c_waitingJoinToQueue c' = false /\ c_pendingInvitePacket c' = None.
Proof.
  destruct (held realm guids early (queued_event realm guids q :: (invited_event realm guids <$> later)) c g fs es Hc Hw) as (g1 & Hrun & Hc1). rewrite Hrun. clear Hrun.
  destruct (with_invites_same early c) as (Hg & _ & Hp). set (c1 := with_invites c early) in *.
  assert (Hplace : forall i, invite_packet c1 i = invite_packet c i) by (intros i; unfold invite_packet, slot_of; by rewrite Hg).
  assert (Hq : exists c2 g2, handle_event (queued_event realm guids q) (Sys g1 fs es) = (Ok tt, Sys g2 fs (es ++ EClient (place_packet c q) :: (EClient <$> option_list (first_invite c early)))) /\
    character g2 = Some c2 /\ c_GUID c2 = c_GUID c /\ c_waitingJoinToQueue c2 = false /\ c_pendingInvitePacket c2 = None).
  { cbn [handle_event queued_event ev_Type ev_Payload]. unfold HandleEventMMJoinedPVPQueue. erewrite bind_run by (by apply char_run).
    cbv beta. erewrite bind_run by reflexivity. erewrite bind_run by (by apply (update_char_run _ c1)). rewrite Hp. fold (first_invite c early).
    unfold place_packet, slot_of. rewrite <- Hg. fold (first_invite c early) in Hp. destruct (first_invite c early) as [p|].
    - erewrite bind_run by reflexivity. do 2 eexists. split; [erewrite update_char_run by reflexivity; cbn [st faults events option_list fmap list_fmap]; rewrite <- app_assoc; reflexivity|by repeat split].
    - do 2 eexists. split; [reflexivity|]. split; [reflexivity|]. split; [done|]. split; [done|exact Hp]. }
  destruct Hq as (c2 & g2 & Hq & Hc2 & Hg2 & Hw2 & Hp2). exists g2. cbn [handle_all]. split; [|by exists c2]. erewrite bind_run by exact Hq.
  assert (Hl : (EClient ∘ invite_packet c2 <$> later) = (EClient ∘ invite_packet c <$> later)).
  { apply list_fmap_ext. intros _ i _. cbn. unfold invite_packet, slot_of. by rewrite Hg2. }
  erewrite sent by done. rewrite Hl, <- app_assoc. reflexivity.
Qed.
End World.
