(* ===== verification/SessionRuns.v ===== *)
(** * SessionRuns: sessions of the gateway on concrete inputs

    One realm with one game server, where every service has an answer; what the
    theorems about the sessions say of a player there. *)
From S2P Require Import Prelude GoRuntime GoStrings Safety Bytes Packet OnlineCharacters UpdatesBarrier ChatStreams Broadcaster Opcodes SessionApi SessionState SessionGuild SessionGroups SessionMail SessionChannels SessionWorld SessionChat Session SessionRules SessionKeeps SessionFacts SessionLogin SessionMailFacts SessionWorldFacts.
#[local] Existing Instance map_range_canonical.

Definition jaina : LogInCharacter :=
  {| lc_GUID := 10; lc_name := "Jaina"; lc_race := 1; lc_class := 8; lc_gender := 1; lc_skin := 0; lc_face := 0; lc_hairStyle := 0; lc_hairColor := 0;
     lc_facialStyle := 0; lc_level := 80; lc_zone := 12; lc_map := 0; lc_positionX := 0; lc_positionY := 0; lc_positionZ := 0; lc_guildID := 3;
     lc_playerFlags := 0; lc_atLogin := 0; lc_petEntry := 0; lc_petModelID := 0; lc_petLevel := 0; lc_banned := false; lc_equipments := []; lc_accountID := 7 |}.
Definition onyxia : LogInCharacter :=
  {| lc_GUID := 66; lc_name := "Onyxia"; lc_race := 1; lc_class := 8; lc_gender := 1; lc_skin := 0; lc_face := 0; lc_hairStyle := 0; lc_hairColor := 0;
     lc_facialStyle := 0; lc_level := 80; lc_zone := 12; lc_map := 0; lc_positionX := 0; lc_positionY := 0; lc_positionZ := 0; lc_guildID := 0;
     lc_playerFlags := 0; lc_atLogin := 0; lc_petEntry := 0; lc_petModelID := 0; lc_petLevel := 0; lc_banned := false; lc_equipments := []; lc_accountID := 4242 |}.
Definition theramore : Server := {| srv_address := "10.0.0.1:8085"; srv_grpcAddress := "10.0.0.1:9509" |}.
Definition some_mail : SessionMail :=
  {| ml_id := 1; ml_sender := 12; ml_receiverGuid := 10; ml_subject := "Hi"; ml_body := ""; ml_moneyToSend := 5; ml_cashOnDelivery := 0; ml_attachments := [];
     ml_deliveryTimestamp := 0; ml_expirationTimestamp := 0; ml_flags := 0; ml_type := 0; ml_templateID := 0; ml_stationery := 0 |}.
(** A mail with a price, and an item there is no space for. *)
Definition big_item : MailAttachment :=
  {| ma_guid := 5; ma_entry := 99; ma_count := 1; ma_flags := 0; ma_durability := 0; ma_charges := 0; ma_randomPropertyID := 0; ma_propertySeed := 0; ma_text := "" |}.
Definition priced_mail : SessionMail :=
  {| ml_id := 2; ml_sender := 12; ml_receiverGuid := 10; ml_subject := "Sale"; ml_body := ""; ml_moneyToSend := 0; ml_cashOnDelivery := 100; ml_attachments := [big_item];
     ml_deliveryTimestamp := 0; ml_expirationTimestamp := 0; ml_flags := 0; ml_type := 0; ml_templateID := 0; ml_stationery := 0 |}.
Definition some_item (guid : u64) : PlayerItem :=
  {| pi_guid := guid; pi_entry := 7; pi_isTradable := true; pi_count := 1; pi_flags := 0; pi_durability := 0; pi_randomPropertyID := 0; pi_text := "" |}.
(** The services of the realm. *)
Definition services (A : Set) (n : nat) (r : request A) : A :=
  match r in request A return A with
  | CharactersToLoginForAccount _ _ => [jaina]
  | CharactersToLoginByGUID guid _ => Some (if guid =? 66 then onyxia else jaina)
  | AccountDataForAccount _ _ => []
  | WhoQuery _ => {| wa_totalFound := 0; wa_itemsToDisplay := [] |}
  | CharacterOnlineByName _ _ | CharacterByName _ _ => Some {| nc_charGUID := 12; nc_charName := "Arthas" |}
  | ShortOnlineCharactersDataByGUIDs _ _ => []
  | GetFriendsList _ _ => {| fl_friends := []; fl_ignored := [] |}
  | AddFriend _ _ _ _ _ => {| af_result := 7; af_status := 0; af_area := 0; af_level := 0; af_classID := 0 |}
  | AddIgnore _ _ _ | GetGroupIDByPlayer _ _ | MailSend _ _ | ModifyMoneyForPlayer _ _ _ => 0
  | GetMoneyForPlayer _ _ => 1000
  | AvailableGameServersForMapAndRealm _ _ => [theramore]
  | RandomGameServerForRealm _ => Some theramore
  | ListAllGameServers => []
  | ListGatewaysForRealm _ => []
  | SendWhisperMessage _ | InviteAccepted _ _ => 0
  | JoinChannel _ => {| ja_status := 0; ja_channel := Some {| jc_channelID := 2; jc_flags := 0; jc_memberFlags := 0 |} |}
  | LeaveChannel _ | SessionApi.SendChannelMessage _ | KickFromChannel _ | BanFromChannel _ | UnbanFromChannel _ | SetChannelModerator _ | UnsetChannelModerator _
  | SetChannelMute _ | UnsetChannelMute _ | SetChannelOwner _ | SetChannelPassword _ | InviteToChannel _ => 0
  | GetChannelList _ => {| la_status := 0; la_members := [] |}
  | ToggleChannelModeration _ | ToggleChannelAnnouncements _ => {| ta_status := 0; ta_enabled := true |}
  | GetGuildInfo _ _ => {| gi_guildName := "Kirin Tor"; gi_emblemStyle := 0; gi_emblemColor := 0; gi_borderStyle := 0; gi_borderColor := 0;
                           gi_backgroundColor := 0; gi_rankNames := [] |}
  | GetRosterInfo _ _ => Some {| ro_welcomeText := ""; ro_infoText := ""; ro_members := []; ro_ranks := [] |}
  | GroupInvite _ _ _ _ _ | GroupUninvite _ _ _ _ | AcceptInvite _ _ | SetDungeonDifficulty _ _ _ | SetRaidDifficulty _ _ _ => 0
  | GetGroup _ _ | GetGroupByMember _ _ => None
  | RemoveMailMoney _ _ _ | CanPlayerJoinBattlegroundQueue _ _ => 0
  | AddExistingItemToPlayer _ _ item => if ai_entry item =? 99 then 1 else 0
  | MailByID _ id => Some (if id =? 2 then priced_mail else some_mail)
  | MailsForPlayer _ _ => [some_mail]
  | BattlegroundQueueDataForPlayer _ _ => []
  | GetPlayerItemsByGuids _ _ guids => some_item <$> guids
  | RemoveItemsWithGuidsFromPlayer _ _ guids => guids
  | CanPlayerInteractWithNPC _ _ _ _ | CanPlayerInteractWithGameObject _ _ _ _ => true
  | SavePlayerPosition _ _ _ | RemoveFriend _ _ _ | SetFriendNote _ _ _ _ | RemoveIgnore _ _ _ | InviteMember _ _ _ _ | GuildLeave _ _
  | GuildKick _ _ _ | SetMessageOfTheDay _ _ _ | SetGuildInfo _ _ _ | SetMemberPublicNote _ _ _ _ | SetMemberOfficerNote _ _ _ _ | UpdateRank _ _ _
  | AddRank _ _ _ | DeleteLastRank _ _ | PromoteMember _ _ _ | DemoteMember _ _ _ | SendGuildMessage _ _ _ _ _ | GroupLeave _ _ | ConvertToRaid _ _
  | ChangeLeader _ _ _ | SetGroupTargetIcon _ _ _ _ | SetLootMethod _ _ _ _ _ | SendGroupMessage _ _ _ _ _ | MarkAsReadForPlayer _ _ _
  | RemoveMailItem _ _ _ _ _ | DeleteMail _ _ | EnqueueToBattleground _ _ | RemovePlayerFromQueue _ _ _ | PlayerJoinedBattleground _ _ _ _
  | AddPlayersToBattleground _ _ _ _ _ => tt
  end.
Definition auth_proof : Packet := {| Opcode := 493; Source := 0; Size := 0; Data := [] |}.
#[local] Instance realm_one : SessionEnv :=
  {| realmID := 1; gatewayID := "gw-1"; accountID := 7; authPacket := auth_proof; showGameserverConnChangeToClient := true; realmNames := ∅; answer := services |}.
Lemma services_complete : forall A n (r : request A), complete r (answer A n r).
Proof. intros A n []; cbn; eauto; by constructor. Qed.

Definition packet (opcode : u16) (d : bytes) : Packet := {| Opcode := opcode; Source := 0; Size := len d; Data := d |}.
(** A session before a character is chosen, and one that plays. *)
Definition arriving : GameSession :=
  NewGameSession (NewBroadcaster NewChatChannelsService) {| addressesMapping := ∅; addressWithConn := ∅ |} [RPacket (packet SMsgAuthChallenge [])] 5.
Definition playing : GameSession :=
  set_membership (NewChannelMembership 10 5)
    (set_client (Some "10.0.0.1:9509") (set_worldSocket (Some {| ws_id := 0; ws_Address := "10.0.0.1:8085" |}) (set_character (Some (logged_in jaina)) arriving))).
Lemma playing_agrees : agreeing 10 playing.
Proof.
  split; [split; [by exists (logged_in jaina)|constructor]|]. exists no_mail. split; [apply new_implements|done| |done].
  intros key. split; [intros H; by apply elem_of_empty in H|by intros []].
Qed.
Lemma playing_in_order : in_order playing.
Proof. split; [by exists (logged_in jaina)|by eexists..]. Qed.

(** The player joins a channel, promotes a guild mate, reads the mail, asks for
    what nobody knows, and gets a message of the game server. *)
Definition name_bytes (s : string) : bytes := string_bytes s ++ [0].
Definition join_trade : Packet := packet CMsgJoinChannel ([0; 0; 0; 0; 0; 0] ++ name_bytes "Trade" ++ [0]).
Definition a_day : list input :=
  [FromClient join_trade; FromClient (packet CMsgGuildPromote (name_bytes "Arthas")); FromClient (packet CMsgGetMailList [1; 0; 0; 0; 0; 0; 16; 241]); FromClient (packet 9999 []);
   FromWorld (RPacket (packet SMsgMOTD [])); FromStream; FromEvents; Goroutine; SafeFun; Clock 9; FromWorld RClosed; Goroutine; SafeFun].
Lemma acts_as_itself_witness :
  let s' := (take_inputs a_day (Sys playing [false; true] [])).2 in
  (4 < length (events s'))%nat /\ exists es, events s' = [] ++ es /\ Forall (acts_for 10) es.
Proof.
  split; [apply Nat.ltb_lt; by vm_compute|]. apply (proj1 (acts_as_itself a_day (Sys playing [false; true] []) (logged_in jaina) eq_refl (Forall_nil_2 _) eq_refl)).
Defined.

Definition orderly_day : list input :=
  [FromClient join_trade; FromClient (packet CMsgGuildPromote (name_bytes "Arthas")); FromClient (packet CMsgGetMailList [1; 0; 0; 0; 0; 0; 16; 241]);
   FromClient (packet CMsgMailTakeMoney [1; 0; 0; 0; 0; 0; 16; 241; 1; 0; 0; 0]); FromClient (packet CMsgBattleMasterJoin []); Clock 9].

(** Two channels are joined, one is left; every request of the third one fails. *)
Definition channel_packets : list input :=
  [FromClient join_trade; FromClient (packet CMsgJoinChannel ([0; 0; 0; 0; 0; 0] ++ name_bytes "LFG" ++ [0]));
   FromClient (packet CMsgLeaveChannel ([0; 0; 0; 0] ++ name_bytes "TRADE")); FromStream;
   FromClient (packet CMsgJoinChannel ([0; 0; 0; 0; 0; 0] ++ name_bytes "World" ++ [0]))].
Lemma logout_leaves_nothing_witness :
  exists s', end_session (Sys playing [] []) = (Ok tt, s') /\ character (st s') = None.
Proof.
  destruct (logout_leaves_nothing 10 (Sys playing [] []) playing_agrees) as (s' & Hrun & Hc & _). by exists s'.
Defined.

Definition choose_jaina : Packet := packet CMsgPlayerLogin [10; 0; 0; 0; 0; 0; 0; 0].
Lemma login_starts_in_order_witness :
  let s' := (Login choose_jaina (Sys arriving [] [])).2 in
  agreeing 10 (st s') /\ worldSocket (st s') = Some {| ws_id := 0; ws_Address := "10.0.0.1:8085" |}.
Proof.
  assert (Hok : (Login choose_jaina (Sys arriving [] [])).1 = Ok tt) by (vm_compute; reflexivity).
  destruct (login_starts_in_order choose_jaina (Sys arriving [] []) (Login choose_jaina (Sys arriving [] [])).2 no_mail) as (char & socket & [n Hchar] & _ & Hag & _).
  - rewrite (surjective_pairing (Login _ _)) at 1. by rewrite Hok.
  - done.
  - apply new_implements.
  - intros n char Hchar. injection Hchar as <-. split; [|done]. intros name H. by apply elem_of_empty in H.
  - injection Hchar as <-. split; [exact Hag|by vm_compute].
Defined.

(** The game server is lost while the player reads the mail; another one says
    three things before it answers. *)
Definition tape : list Packet := [packet SMsgMOTD []; packet 9999 [1]; packet 9998 []].
Definition disconnected : GameSession := set_reads ((RPacket <$> tape) ++ [RPacket (packet SMsgAuthResponse [])]) playing.
Definition in_queue : GameSession := set_character (Some (set_waiting true (logged_in jaina))) playing.
Definition warsong : queue_place := {| qp_slots := {[10 := 1]}; qp_min := 71; qp_max := 80; qp_type := 2 |}.
Definition an_invite (time : u32) : invite := {| in_place := warsong; in_map := 489; in_time := time |}.
Lemma invite_waits_for_queue_witness : exists g', handle_all [invited_event 1 [10] (an_invite 40); invited_event 1 [10] (an_invite 30); queued_event 1 [10] warsong] (Sys in_queue [] []) =
  (Ok tt, Sys g' [] [EClient (place_packet (logged_in jaina) warsong); EClient (invite_packet (logged_in jaina) (an_invite 30))]).
Proof.
  destruct (invite_waits_for_queue 1 [10] [an_invite 40; an_invite 30] [] warsong (set_waiting true (logged_in jaina)) in_queue [] [] eq_refl eq_refl) as (g' & Hrun & _).
  exists g'. exact Hrun.
Defined.

(** ** Mails *)
Definition le32 (n : Z) : bytes := [wrap8 n; wrap8 (n / 256); wrap8 (n / 65536); wrap8 (n / 16777216)].
Definition a_mailbox : bytes := [1; 0; 0; 0; 0; 0; 16; 241].
Definition letter_packet (attachments : list Z) (money : Z) : Packet :=
  packet CMsgSendMail (a_mailbox ++ name_bytes "Arthas" ++ name_bytes "Hi" ++ name_bytes "" ++ le32 0 ++ le32 0 ++
    [wrap8 (len attachments)] ++ concat (map (fun g => 0 :: le32 g ++ [0; 0; 0; 64]) attachments) ++ le32 money ++ le32 0).
Definition paid (p : Packet) : list Z :=
  omap (fun e => match e with ECall (ModifyMoneyForPlayer _ _ value) => Some value | ECall (MailSend _ q) => Some (sm_moneyToSend q) | _ => None end)
    (events (HandleSendMail p (Sys playing [] [])).2).
Example one_item_costs_30 : paid (letter_packet [7] 100) = [-130; 100]. Proof. by vm_compute. Qed.
(** The price of nine items is that of one byte. *)
Example nine_items_cost_14 : paid (letter_packet [1; 2; 3; 4; 5; 6; 7; 8; 9] 0) = [-14; 0]. Proof. by vm_compute. Qed.
(** Negative money pays for the mail. *)
Example negative_money_sent : paid (letter_packet [] (-30)) = [0; -30]. Proof. by vm_compute. Qed.
(** What changes hands when an item is taken. *)
Definition hands (fs : list bool) (itemID mailID : Z) : list string :=
  omap (fun e => match e with
                 | ECall (ModifyMoneyForPlayer _ _ _) => Some "pay"
                 | ECall (AddExistingItemToPlayer _ _ _) => Some "give"
                 | ECall (RemoveMailItem _ _ _ _ _) => Some "remove"
                 | _ => None
                 end) (events (HandleMailTakeItem (packet CMsgMailTakeItem (a_mailbox ++ le32 mailID ++ le32 itemID)) (Sys playing fs [])).2).
(** The bags are full: the price is paid, and the item stays in the mail with
    its price. *)
Example paid_for_nothing : hands [] 5 2 = ["pay"; "give"]. Proof. by vm_compute. Qed.

(** ** Sessions out of order *)

(** A packet before the login meets no character. *)
Example packet_before_login : (on_client (packet CMsgGuildRoster []) (Sys arriving [] [])).1 = Panic. Proof. by vm_compute. Qed.
(** A battleground for a group, without a group. *)
Example battleground_without_group :
  (on_client (packet CMsgBattleMasterJoin [0; 0; 0; 0; 0; 0; 0; 0; 2; 0; 0; 0; 0; 0; 0; 0; 1]) (Sys playing [] [])).1 = Panic.
Proof. by vm_compute. Qed.
(** The character of another account is logged in. *)
Definition choose_other : Packet := packet CMsgPlayerLogin [66; 0; 0; 0; 0; 0; 0; 0].
Example other_account_logged_in : (Login choose_other (Sys arriving [] [])).1 = Ok tt /\
  (c_AccountID <$> character (st (Login choose_other (Sys arriving [] [])).2)) = Some 4242.
Proof. split; by vm_compute. Qed.
(** A login whose mails fail keeps the character, and the channels of nobody. *)
Definition half_logged_in := Login choose_jaina (Sys arriving [false; false; false; false; false; false; true; true] []).
Example login_half_done : match half_logged_in with
  | (Fail _, s') => (c_GUID <$> character (st s')) = Some 10 /\ cm_playerGUID (channelMembership (st s')) = 0
  | _ => False
  end.
Proof. vm_compute. by split. Qed.
(** An entry of the list of mails says it is longer than it is, by 28 bytes for
    each attachment. *)
Definition entry_length (m : SessionMail) : Z := len (Data (ToPacket (write_mail 0 m (NewWriterWithSize SMsgMailListResult 0)))).
Example mail_entry_sizes : mail_size some_mail - entry_length some_mail = 0 /\ mail_size priced_mail - entry_length priced_mail = 28.
Proof. split; by vm_compute. Qed.
