(* ===== verification/GuidProvider.v ===== *)
(** * GuidProvider: the guids a game server uses
    (game-server/libsidecar/guids, guids.go; apps/guidserver/server/guids.go)

    A game server asks the guid server for pools of guid ranges and hands the
    guids out one by one.  When a certain guid of a pool is reached, a
    goroutine asks for the next pool; when the pool is used up, [Next] takes
    the next one from an unbuffered channel, or waits. *)
From S2P Require Import Prelude GoRuntime GuidDiapasons.
From Stdlib Require Import SpecFloat.

(** ** Pools, from the guid server's answer to the provider *)
Record pb_GuidDiapason := { pb_Start : u64; pb_End : u64 }.
Record diapason := { start : u64; end_ : u64 }.

#[export] Instance diapason_eq_dec : EqDecision diapason.
Proof. solve_decision. Defined.

(** The guid server's side; [None] is an error of the service. *)
Definition GetGUIDPool (guids : option (list GuidDiapason)) : option (list pb_GuidDiapason) :=
  match guids with
  | None => None
  | Some guids => Some ((fun g => {| pb_Start := Start g; pb_End := End_ g |}) <$> guids)
  end.
(** The client's side. *)
Definition NewGRPCDiapasonsProvider (resp : option (list pb_GuidDiapason)) : option (list diapason) :=
  match resp with
  | None => None
  | Some ReceiverGUID => Some ((fun g => {| start := pb_Start g; end_ := pb_End g |}) <$> ReceiverGUID)
  end.

(** ** State *)
Record threadUnsafeGuidProvider := {
  iterator : u64;
  iteratorMax : u64;
  iteratorValueToTriggerUpdate : u64;
  pctUsedToTriggerUpdate : spec_float;
  nextDiapasons : list diapason;
  requesting : list nat;               (* the running goroutines: attempts made *)
  diapasonsChan : list (list diapason) (* goroutines blocked on their send, in order *)
}.

(** [Fatal] ends the process, [Blocks] waits for the channel. *)
Inductive halt := Fatal | Blocks.
Abbreviation M A := (go threadUnsafeGuidProvider unit halt A).

Definition set_iterator (i : u64) (p : threadUnsafeGuidProvider) :=
  {| iterator := i; iteratorMax := iteratorMax p; iteratorValueToTriggerUpdate := iteratorValueToTriggerUpdate p;
     pctUsedToTriggerUpdate := pctUsedToTriggerUpdate p; nextDiapasons := nextDiapasons p;
     requesting := requesting p; diapasonsChan := diapasonsChan p |}.
Definition set_range (d : diapason) (rest : list diapason) (p : threadUnsafeGuidProvider) :=
  {| iterator := start d; iteratorMax := end_ d; iteratorValueToTriggerUpdate := iteratorValueToTriggerUpdate p;
     pctUsedToTriggerUpdate := pctUsedToTriggerUpdate p; nextDiapasons := rest;
     requesting := requesting p; diapasonsChan := diapasonsChan p |}.
Definition set_next (ds : list diapason) (chan : list (list diapason)) (p : threadUnsafeGuidProvider) :=
  {| iterator := iterator p; iteratorMax := iteratorMax p; iteratorValueToTriggerUpdate := iteratorValueToTriggerUpdate p;
     pctUsedToTriggerUpdate := pctUsedToTriggerUpdate p; nextDiapasons := ds;
     requesting := requesting p; diapasonsChan := chan |}.
Definition set_trigger (v : u64) (p : threadUnsafeGuidProvider) :=
  {| iterator := iterator p; iteratorMax := iteratorMax p; iteratorValueToTriggerUpdate := v;
     pctUsedToTriggerUpdate := pctUsedToTriggerUpdate p; nextDiapasons := nextDiapasons p;
     requesting := requesting p; diapasonsChan := diapasonsChan p |}.
Definition set_goroutines (req : list nat) (chan : list (list diapason)) (p : threadUnsafeGuidProvider) :=
  {| iterator := iterator p; iteratorMax := iteratorMax p; iteratorValueToTriggerUpdate := iteratorValueToTriggerUpdate p;
     pctUsedToTriggerUpdate := pctUsedToTriggerUpdate p; nextDiapasons := nextDiapasons p;
     requesting := req; diapasonsChan := chan |}.

(** ** When to ask for the next pool *)
Definition range_size (d : diapason) : u64 := wrap64 (end_ d - start d + 1).
Definition total_guids (ds : list diapason) : u64 := foldl (fun t d => wrap64 (t + range_size d)) 0 ds.
Definition pct_value (pct : spec_float) (totalGuids : u64) : u64 :=
  wrap64 (sf_trunc (f64_mul (f64_div (f64_of_int totalGuids) (f64_of_int 100)) (f64_of_f32 pct))).

(** The loop over the ranges; [None]: no range holds the value. *)
Fixpoint trigger_loop (pctValueToTrigger : u64) (ds : list diapason) : option u64 :=
  match ds with
  | [] => None
  | d :: ds =>
    if pctValueToTrigger <=? range_size d then Some (wrap64 (start d + pctValueToTrigger))
    else trigger_loop (wrap64 (pctValueToTrigger - range_size d)) ds
  end.

Definition calculateIteratorValueToTriggerUpdate (pct : spec_float) (ds : list diapason) : outcome halt u64 :=
  let pctValueToTrigger := pct_value pct (total_guids ds) in
  match ds with
  | [] => Panic                                        (* diapasons[0] *)
  | d :: _ =>
    if pctValueToTrigger <=? start d then
      if start d =? end_ d then Ok (end_ d) else Ok (wrap64 (start d + 1))
    else match trigger_loop pctValueToTrigger ds with Some v => Ok v | None => Fail Fatal end
  end.
Definition lift {A} (o : outcome halt A) : M A := fun s => (o, s).

(** ** Operations *)
Definition NewThreadUnsafeGuidProvider (diapasons : option (list diapason)) (pct : spec_float)
    : option (outcome halt threadUnsafeGuidProvider) :=
  match diapasons with
  | None => None
  | Some [] => None                                    (* the error of the caller *)
  | Some (d :: rest) =>
    Some match calculateIteratorValueToTriggerUpdate pct (d :: rest) with
         | Ok v => Ok {| iterator := start d; iteratorMax := end_ d; iteratorValueToTriggerUpdate := v;
                         pctUsedToTriggerUpdate := pct; nextDiapasons := rest;
                         requesting := []; diapasonsChan := [] |}
         | Fail e => Fail e
         | Panic => Panic
         end
  end.

(** The receive takes what the first waiting goroutine sends. *)
Definition reloadNextDiapasons : M unit :=
  chan ← gets diapasonsChan;
  match chan with
  | [] => fail Blocks
  | ds :: chan =>
    modify (set_next ds chan) ;;
    pct ← gets pctUsedToTriggerUpdate;
    v ← lift (calculateIteratorValueToTriggerUpdate pct ds);
    modify (set_trigger v)
  end.
Definition reloadIterator : M unit :=
  next ← gets nextDiapasons;
  (if len next =? 0 then reloadNextDiapasons else mret tt) ;;
  next ← gets nextDiapasons;
  match next with
  | [] => panic
  | d :: rest => modify (set_range d rest)
  end.
(** The goroutine starts with no attempt made. *)
Definition triggerDiapasonsRequest : M unit :=
  modify (fun p => set_goroutines (requesting p ++ [0%nat]) (diapasonsChan p) p).
Definition Next : M u64 :=
  p ← gets id;
  (if iteratorMax p <? iterator p then reloadIterator else mret tt) ;;
  p ← gets id;
  (if iterator p =? iteratorValueToTriggerUpdate p then triggerDiapasonsRequest else mret tt) ;;
  p ← gets id;
  modify (set_iterator (wrap64 (iterator p + 1))) ;;
  mret (iterator p).

Definition retriesCount : nat := 5.
(** One round of the goroutine's loop, with the answer it gets: it goes on to
    its send, to the next attempt, or ends the process. *)
Definition attempt (i : nat) (d : option (list diapason)) : outcome halt (nat + list diapason) :=
  match d with
  | Some (d :: ds) => Ok (inr (d :: ds))
  | _ => if (S i <? retriesCount)%nat then Ok (inl (S i)) else Fail Fatal
  end.
(** The [n]th goroutine gets the answer [d]. *)
Definition answered (n : nat) (d : option (list diapason)) : M unit :=
  p ← gets id;
  match requesting p !! n with
  | None => mret tt
  | Some i =>
    r ← lift (attempt i d);
    match r with
    | inl i => modify (set_goroutines (<[n := i]> (requesting p)) (diapasonsChan p))
    | inr ds => modify (set_goroutines (delete n (requesting p)) (diapasonsChan p ++ [ds]))
    end
  end.

(** ** The providers of the realms *)
Record CrossrealmMgr := {
  realmsContainer : gmap u32 threadUnsafeGuidProvider;
  pctToTriggerUpdate : spec_float
}.
Definition put (realmID : u32) (p : threadUnsafeGuidProvider) (m : CrossrealmMgr) : CrossrealmMgr :=
  {| realmsContainer := <[realmID := p]> (realmsContainer m); pctToTriggerUpdate := pctToTriggerUpdate m |}.

(** [pool] answers the request a new provider makes; an error is fatal. *)
Definition InitForRealm (realmID : u32) (pool : option (list diapason)) (m : CrossrealmMgr)
    : outcome halt CrossrealmMgr :=
  match NewThreadUnsafeGuidProvider pool (pctToTriggerUpdate m) with
  | Some (Ok p) => Ok (put realmID p m)
  | Some (Fail e) => Fail e
  | Some Panic => Panic
  | None => Fail Fatal
  end.
Definition NewCrossRealmMgr (pct : spec_float) (defaultRealmID : u32) (pool : option (list diapason)) : outcome halt CrossrealmMgr :=
  InitForRealm defaultRealmID pool {| realmsContainer := ∅; pctToTriggerUpdate := pct |}.

Definition on_realm {A} (realmID : u32) (o : M A) (m : CrossrealmMgr) : outcome halt A * CrossrealmMgr :=
  match realmsContainer m !! realmID with
  | None => (Panic, m)
  | Some p => let '(r, s) := o (Sys p [] []) in (r, put realmID (st s) m)
  end.
Definition CrossrealmMgr_Next (realmID : u32) (pool : option (list diapason)) (m : CrossrealmMgr)
    : outcome halt u64 * CrossrealmMgr :=
  match realmsContainer m !! realmID with
  | Some _ => on_realm realmID Next m
  | None =>
    match InitForRealm realmID pool m with
    | Ok m => on_realm realmID Next m
    | Fail e => (Fail e, m)
    | Panic => (Panic, m)
    end
  end.

(** [TC9GetNextAvailable...Guid(realmID)]: 0 is the server's own realm. *)
Definition realm_arg (RealmID : u32) (realmID : int) : u32 :=
  wrap32 (if realmID =? 0 then RealmID else realmID).
Definition TC9GetNextAvailableGuid (RealmID : u32) (realmID : int) (pool : option (list diapason)) (m : CrossrealmMgr) :=
  CrossrealmMgr_Next (realm_arg RealmID realmID) pool m.

(** [SetupGuidProviders]: 65 percent, as a float32. *)
Definition setup_pct : spec_float := f32_of_int 65.

(** ** What a game server does, seen from outside

    The guid server grants pools, the game server hands guids out.  A realm's
    provider is made when its first guid is asked for; a goroutine's answer
    can arrive between any two calls. *)
Inductive obs := Granted (realmID : u32) (ds : list diapason) | Handed (realmID : u32) (guid : u64).

Definition received (realmID : u32) (d : option (list diapason)) : list obs :=
  match d with Some (x :: ds) => [Granted realmID (x :: ds)] | _ => [] end.

Inductive serves (pct : spec_float) : list obs -> CrossrealmMgr -> Prop :=
| serves_start r ds m :
    NewCrossRealmMgr pct r (Some ds) = Ok m -> serves pct [Granted r ds] m
| serves_first tr m r ds g m' :
    serves pct tr m -> realmsContainer m !! r = None ->
    CrossrealmMgr_Next r (Some ds) m = (Ok g, m') ->
    serves pct (tr ++ [Granted r ds; Handed r g]) m'
| serves_next tr m r p pool g m' :
    serves pct tr m -> realmsContainer m !! r = Some p ->
    CrossrealmMgr_Next r pool m = (Ok g, m') ->
    serves pct (tr ++ [Handed r g]) m'
| serves_answer tr m r p n d m' :
    serves pct tr m -> realmsContainer m !! r = Some p -> (n < length (requesting p))%nat ->
    on_realm r (answered n d) m = (Ok tt, m') ->
    serves pct (tr ++ received r d) m'.

Definition handed (r : u32) (tr : list obs) : list u64 :=
  omap (fun o => match o with Handed r' g => if decide (r = r') then Some g else None | _ => None end) tr.
Definition granted (r : u32) (tr : list obs) : list (list diapason) :=
  omap (fun o => match o with Granted r' ds => if decide (r = r') then Some ds else None | _ => None end) tr.

Definition guids_of (d : diapason) : list u64 := seqZ (start d) (end_ d - start d + 1).
Definition pool_guids (ds : list diapason) : list u64 := concat (guids_of <$> ds).
Definition all_guids (pools : list (list diapason)) : list u64 := concat (pool_guids <$> pools).

Definition valid (d : diapason) : Prop := 0 <= start d <= end_ d /\ end_ d < 2 ^ 64 - 1.
Definition wf_pool (ds : list diapason) : Prop := ds <> [] /\ Forall valid ds.

(** The guids a provider still has. *)
Definition left_ (p : threadUnsafeGuidProvider) : list u64 :=
  seqZ (iterator p) (iteratorMax p - iterator p + 1) ++ pool_guids (nextDiapasons p).
Definition waiting (p : threadUnsafeGuidProvider) : nat := (length (requesting p) + length (diapasonsChan p))%nat.

Record wf_provider (pct : spec_float) (p : threadUnsafeGuidProvider) : Prop := {
  wp_iterator : 0 <= iterator p <= iteratorMax p + 1;
  wp_max : iteratorMax p < 2 ^ 64 - 1;
  wp_next : Forall valid (nextDiapasons p);
  wp_chan : Forall wf_pool (diapasonsChan p);
  wp_requesting : Forall (fun i => i < retriesCount)%nat (requesting p);
  wp_pct : pctUsedToTriggerUpdate p = pct
}.

Lemma all_guids_app a b : all_guids (a ++ b) = all_guids a ++ all_guids b.
Proof. unfold all_guids. by rewrite fmap_app, concat_app. Qed.
Lemma handed_app r a b : handed r (a ++ b) = handed r a ++ handed r b.
Proof. apply omap_app. Qed.
Lemma granted_app r a b : granted r (a ++ b) = granted r a ++ granted r b.
Proof. apply omap_app. Qed.
Lemma granted_received r r' d :
  granted r (received r' d) =
  (if decide (r = r') then match d with Some (x :: ds) => [x :: ds] | _ => [] end else []).
Proof. destruct d as [[|x ds]|]; simpl; by destruct (decide (r = r')). Qed.
Lemma handed_received r r' d : handed r (received r' d) = [].
Proof. by destruct d as [[|x ds]|]. Qed.

(** *** One provider *)
Section Provider.
Context (pct : spec_float).
Implicit Types p : threadUnsafeGuidProvider.

(** After the first part of [Next] the iterator is on a guid. *)
Definition reloaded p : outcome halt unit * sys threadUnsafeGuidProvider unit :=
  (if iteratorMax p <? iterator p then reloadIterator else mret tt) (Sys p [] []).

(** A trigger value that [Next] will come across. *)
Definition fires (ds : list diapason) : Prop :=
  exists v, calculateIteratorValueToTriggerUpdate pct ds = Ok v /\ v ∈ pool_guids ds.

Inductive reload_spec p p' : Prop :=
| reload_none (_ : iterator p <= iteratorMax p) (_ : p' = p)
| reload_next d rest (_ : iteratorMax p < iterator p) (_ : nextDiapasons p = d :: rest) (_ : p' = set_range d rest p)
| reload_recv d rest chan v (_ : iteratorMax p < iterator p) (_ : nextDiapasons p = [])
    (_ : diapasonsChan p = (d :: rest) :: chan)
    (_ : calculateIteratorValueToTriggerUpdate (pctUsedToTriggerUpdate p) (d :: rest) = Ok v)
    (_ : p' = set_range d rest (set_trigger v (set_next (d :: rest) chan p))).

Lemma reloaded_spec p u s' : reloaded p = (Ok u, s') -> reload_spec p (st s').
Proof.
  unfold reloaded. destruct (Z.ltb_spec (iteratorMax p) (iterator p)) as [Hlt|Hle].
  - unfold reloadIterator. intros H. apply bind_ok in H as (next & s1 & [-> ->]%gets_ok & H). cbn [st] in H.
    destruct (nextDiapasons p) as [|d rest] eqn:En; cbn [len] in H.
    + change (len (@nil diapason) =? 0) with true in H. cbv iota in H.
      apply bind_ok in H as ([] & s2 & H1 & H).
      unfold reloadNextDiapasons in H1. apply bind_ok in H1 as (chan & s3 & [-> ->]%gets_ok & H1). cbn [st] in H1.
      destruct (diapasonsChan p) as [|ds chan] eqn:Ec; [done|].
      destruct ds as [|d rest].
      { apply bind_ok in H1 as (? & ? & ->%modify_ok & H1).
        by apply bind_ok in H1 as (? & ? & [-> ->]%gets_ok & H1). }
      apply bind_ok in H1 as ([] & s4 & ->%modify_ok & H1).
      apply bind_ok in H1 as (pc & s5 & [-> ->]%gets_ok & H1). cbn [st] in H1.
      apply bind_ok in H1 as (v & s6 & H2 & ->%modify_ok).
      unfold lift in H2. injection H2 as Hv <-. cbn [st] in H.
      apply bind_ok in H as (next & s7 & [-> ->]%gets_ok & H). cbn [st nextDiapasons set_trigger set_next] in H.
      apply modify_ok in H as ->. cbn [st]. by eapply reload_recv.
    + assert (len (d :: rest) =? 0 = false) as El by (apply Z.eqb_neq; unfold len; simpl; lia).
      rewrite El in H. apply bind_ok in H as ([] & s2 & [_ ->]%ret_ok & H).
      apply bind_ok in H as (next & s7 & [-> ->]%gets_ok & H). cbn [st] in H. rewrite En in H.
      apply modify_ok in H as ->. cbn [st]. by eapply reload_next.
  - intros [_ ->]%ret_ok. cbn [st]. by apply reload_none.
Qed.

(** What [Next] does after that. *)
Definition handed_out p : threadUnsafeGuidProvider :=
  let p := if iterator p =? iteratorValueToTriggerUpdate p
           then set_goroutines (requesting p ++ [0%nat]) (diapasonsChan p) p else p in
  set_iterator (wrap64 (iterator p + 1)) p.

Lemma provider_Next_run p :
  Next (Sys p [] []) =
  match reloaded p with
  | (Ok _, s) => (Ok (iterator (st s)), Sys (handed_out (st s)) (faults s) (events s))
  | (Fail e, s) => (Fail e, s)
  | (Panic, s) => (Panic, s)
  end.
Proof.
  unfold Next, reloaded. erewrite bind_run by reflexivity. cbn [st id].
  unfold mbind at 1, go_bind at 1.
  destruct ((if iteratorMax p <? iterator p then reloadIterator else mret tt) (Sys p [] [])) as [[u|e|] s]; [|done|done].
  erewrite bind_run by reflexivity. unfold id, handed_out.
  by destruct (iterator (st s) =? iteratorValueToTriggerUpdate (st s)).
Qed.
Lemma Next_ok p g s' :
  Next (Sys p [] []) = (Ok g, s') ->
  exists p1, reload_spec p p1 /\ g = iterator p1 /\ st s' = handed_out p1.
Proof.
  rewrite provider_Next_run. destruct (reloaded p) as [[u|e|] s] eqn:E; [|done|done].
  intros H. injection H as <- <-. exists (st s). split; [by eapply reloaded_spec|done].
Qed.

Lemma seqZ_head a n : 0 < n -> seqZ a n = a :: seqZ (a + 1) (n - 1).
Proof. intros Hn. by rewrite seqZ_cons, Z.add_1_r, <- Z.sub_1_r by lia. Qed.

Lemma reload_wf p p1 : reload_spec p p1 -> wf_provider pct p ->
  wf_provider pct p1 /\ iterator p1 <= iteratorMax p1 /\ requesting p1 = requesting p /\
  left_ p ++ all_guids (diapasonsChan p) = left_ p1 ++ all_guids (diapasonsChan p1).
Proof.
  intros Hr [Hit Hmax Hnext Hchan Hreq Hpct].
  destruct Hr as [? ->|d rest Hlt En ->|d rest chan v Hlt En Ec Hv ->].
  - done.
  - rewrite En in Hnext. apply Forall_cons in Hnext as [Hd Hnext]. unfold valid in Hd.
    split; [constructor; simpl; try done; lia|]. split; [simpl; lia|]. split; [done|].
    unfold left_. simpl. rewrite En. unfold pool_guids at 1, guids_of at 1. simpl.
    rewrite (seqZ_nil (iterator p)) by lia. simpl. unfold guids_of. by rewrite <- !app_assoc.
  - rewrite Ec in Hchan. apply Forall_cons in Hchan as [[_ Hds] Hchan].
    apply Forall_cons in Hds as [Hd Hds]. unfold valid in Hd.
    split; [constructor; simpl; try done; lia|]. split; [simpl; lia|]. split; [done|].
    unfold left_. simpl. rewrite En, Ec. unfold all_guids at 1. simpl.
    rewrite (seqZ_nil (iterator p)) by lia. simpl. unfold pool_guids at 1 2, guids_of. simpl.
    by rewrite <- !app_assoc.
Qed.
Lemma handed_out_wf p : wf_provider pct p -> iterator p <= iteratorMax p ->
  wf_provider pct (handed_out p) /\ diapasonsChan (handed_out p) = diapasonsChan p /\
  left_ p = iterator p :: left_ (handed_out p).
Proof.
  intros [Hit Hmax Hnext Hchan Hreq Hpct] Hle.
  assert (Hw : wrap64 (iterator p + 1) = iterator p + 1) by (apply wrap_small; unfold in_range; lia).
  unfold handed_out. destruct (iterator p =? iteratorValueToTriggerUpdate p); simpl; rewrite ?Hw.
  all: split; [constructor; simpl; rewrite ?Hw; try done; try lia|split; [done|]].
  2, 3: unfold left_; simpl; rewrite (seqZ_head (iterator p)) by lia; simpl; do 3 f_equal; lia.
  apply Forall_app. split; [done|]. apply Forall_singleton. unfold retriesCount. lia.
Qed.

(** [Next] hands out the next guid of the pools. *)
Lemma Next_exact p g s' : wf_provider pct p -> Next (Sys p [] []) = (Ok g, s') ->
  wf_provider pct (st s') /\
  left_ p ++ all_guids (diapasonsChan p) = g :: left_ (st s') ++ all_guids (diapasonsChan (st s')).
Proof.
  intros Hp (p1 & Hr & -> & ->)%Next_ok. destruct (reload_wf _ _ Hr Hp) as (Hp1 & Hle & _ & ->).
  destruct (handed_out_wf p1 Hp1 Hle) as (Hw & -> & ->). by split.
Qed.
Lemma answered_wf p n d s' : wf_provider pct p -> Forall valid (default [] d) ->
  (n < length (requesting p))%nat -> answered n d (Sys p [] []) = (Ok tt, s') ->
  wf_provider pct (st s') /\ left_ (st s') = left_ p /\
  diapasonsChan (st s') = diapasonsChan p ++ match d with Some (x :: ds) => [x :: ds] | _ => [] end.
Proof.
  intros [Hit Hmax Hnext Hchan Hreq Hpct] Hd Hn H. unfold answered in H.
  apply bind_ok in H as (q & s1 & [-> ->]%gets_ok & H). cbn [st id] in H.
  destruct (lookup_lt_is_Some_2 _ _ Hn) as [i Hi]. unfold id in H. rewrite Hi in H.
  apply bind_ok in H as (r & s2 & Ha & H). unfold lift in Ha. injection Ha as Ha <-.
  pose proof (Forall_lookup_1 _ _ _ _ Hreq Hi) as Hlt. simpl in Hlt.
  unfold attempt in Ha. destruct d as [[|x ds]|].
  2: { injection Ha as <-. apply modify_ok in H as ->. simpl in *.
       split; [|done]. constructor; try done; simpl.
       - apply Forall_app. split; [done|]. by apply Forall_singleton.
       - by apply Forall_delete. }
  all: destruct (Nat.ltb_spec (S i) retriesCount) as [Hs|Hs]; [injection Ha as <-|done];
       apply modify_ok in H as ->; simpl in *; rewrite app_nil_r; (split; [|done]);
       constructor; try done; simpl; by apply Forall_insert.
Qed.
End Provider.

(** *** The realms of a game server *)
Section Realms.
Context (pct : spec_float).

Definition accounted (r : u32) (tr : list obs) (m : CrossrealmMgr) : Prop :=
  match realmsContainer m !! r with
  | None => granted r tr = [] /\ handed r tr = []
  | Some p => wf_provider pct p /\
      handed r tr ++ left_ p ++ all_guids (diapasonsChan p) = all_guids (granted r tr)
  end.
Definition ranges_valid (tr : list obs) : Prop := forall r ds, Granted r ds ∈ tr -> Forall valid ds.

Lemma ranges_valid_app a b : ranges_valid (a ++ b) <-> ranges_valid a /\ ranges_valid b.
Proof. unfold ranges_valid. setoid_rewrite elem_of_app. naive_solver. Qed.

Lemma new_provider ds p : Forall valid ds ->
  NewThreadUnsafeGuidProvider (Some ds) pct = Some (Ok p) ->
  wf_provider pct p /\ left_ p = pool_guids ds /\ requesting p = [] /\ diapasonsChan p = [] /\
  calculateIteratorValueToTriggerUpdate pct ds = Ok (iteratorValueToTriggerUpdate p).
Proof.
  intros Hv. destruct ds as [|d ds]; [done|]. apply Forall_cons in Hv as [Hd Hv]. unfold valid in Hd.
  cbn [NewThreadUnsafeGuidProvider].
  destruct (calculateIteratorValueToTriggerUpdate pct (d :: ds)) as [v|e|] eqn:E; [|done|done].
  intros H. injection H as <-. split_and!; try done. constructor; simpl; try done; try lia; constructor.
Qed.
Lemma init_ok r ds m m' : pctToTriggerUpdate m = pct -> InitForRealm r (Some ds) m = Ok m' ->
  exists p, NewThreadUnsafeGuidProvider (Some ds) pct = Some (Ok p) /\ m' = put r p m.
Proof.
  intros Hp. unfold InitForRealm. rewrite Hp.
  destruct (NewThreadUnsafeGuidProvider (Some ds) pct) as [[p|e|]|]; [|done..].
  intros H. injection H as <-. eauto.
Qed.
Lemma on_realm_ok {A} r (o : M A) m p a m' : realmsContainer m !! r = Some p ->
  on_realm r o m = (Ok a, m') -> exists s, o (Sys p [] []) = (Ok a, s) /\ m' = put r (st s) m.
Proof.
  intros Hp. unfold on_realm. rewrite Hp. destruct (o (Sys p [] [])) as [x s]. intros H.
  injection H as -> <-. eauto.
Qed.

Lemma serves_pct tr m : serves pct tr m -> pctToTriggerUpdate m = pct.
Proof.
  induction 1 as [r ds m H|tr m r ds g m' _ IH Hn H|tr m r p pool g m' _ IH Hp H|tr m r p n d m' _ IH Hp Hl H].
  - apply init_ok in H as (p & _ & ->); done.
  - unfold CrossrealmMgr_Next in H. rewrite Hn in H.
    destruct (InitForRealm r (Some ds) m) as [m1|e|] eqn:E; [|done|done].
    apply init_ok in E as (p & _ & ->); [|done].
    eapply on_realm_ok in H as (s & _ & ->); [done|apply lookup_insert_eq].
  - unfold CrossrealmMgr_Next in H. rewrite Hp in H. by eapply on_realm_ok in H as (s & _ & ->).
  - by eapply on_realm_ok in H as (s & _ & ->).
Qed.

(** One step adds observations of one realm and changes its provider only. *)
Inductive realm_step (r : u32) (o : option threadUnsafeGuidProvider) : list obs -> threadUnsafeGuidProvider -> Prop :=
| step_first ds p g s (_ : o = None) (_ : NewThreadUnsafeGuidProvider (Some ds) pct = Some (Ok p))
    (_ : Next (Sys p [] []) = (Ok g, s)) : realm_step r o [Granted r ds; Handed r g] (st s)
| step_next p g s (_ : o = Some p) (_ : Next (Sys p [] []) = (Ok g, s)) : realm_step r o [Handed r g] (st s)
| step_answer p n d s (_ : o = Some p) (_ : (n < length (requesting p))%nat)
    (_ : answered n d (Sys p [] []) = (Ok tt, s)) : realm_step r o (received r d) (st s).

Lemma put_put r p q m : put r p (put r q m) = put r p m.
Proof. unfold put. simpl. by rewrite insert_insert_eq. Qed.

(** Rule induction over the steps of single realms. *)
Lemma serves_realms (I : list obs -> CrossrealmMgr -> Prop) :
  (forall r ds p, NewThreadUnsafeGuidProvider (Some ds) pct = Some (Ok p) ->
     I [Granted r ds] {| realmsContainer := {[r := p]}; pctToTriggerUpdate := pct |}) ->
  (forall tr m r new p', serves pct tr m -> I tr m -> realm_step r (realmsContainer m !! r) new p' -> I (tr ++ new) (put r p' m)) ->
  forall tr m, serves pct tr m -> I tr m.
Proof.
  intros Hstart Hstep.
  induction 1 as [r ds m H|tr m r ds g m' Hs IH Hn H|tr m r p pool g m' Hs IH Hp H|tr m r p n d m' Hs IH Hp Hl H].
  - apply init_ok in H as (p & Hp & ->); [|done]. by apply Hstart.
  - unfold CrossrealmMgr_Next in H. rewrite Hn in H.
    destruct (InitForRealm r (Some ds) m) as [m1|e|] eqn:E; [|done|done].
    apply init_ok in E as (p & Hp & ->); [|by eapply serves_pct].
    apply (on_realm_ok r Next (put r p m) p) in H as (s & H & ->); [|apply lookup_insert_eq].
    rewrite put_put. apply Hstep; [done|done|]. by eapply step_first.
  - unfold CrossrealmMgr_Next in H. rewrite Hp in H.
    eapply on_realm_ok in H as (s & H & ->); [|done]. apply Hstep; [done|done|]. by eapply step_next.
  - eapply on_realm_ok in H as (s & H & ->); [|done]. apply Hstep; [done|done|]. by eapply step_answer.
Qed.

Lemma realm_step_other r r' o new p : realm_step r o new p -> r' <> r -> granted r' new = [] /\ handed r' new = [].
Proof.
  destruct 1 as [ds ? g|? g|? n d]; intros Hne; simpl; rewrite ?decide_False by done;
    rewrite ?granted_received, ?handed_received, ?decide_False by done; done.
Qed.

Lemma serves_accounted tr m : serves pct tr m -> ranges_valid tr -> forall r, accounted r tr m.
Proof.
  revert tr m. apply (serves_realms (fun tr m => ranges_valid tr -> forall r, accounted r tr m)).
  - intros r ds p Hp Hv r'. unfold accounted. simpl. destruct (decide (r' = r)) as [->|Hne].
    + rewrite lookup_singleton_eq. destruct (new_provider ds p) as (Hw & -> & _ & -> & _); [|done|].
      { apply (Hv r). left. }
      split; [done|]. unfold all_guids. simpl. by rewrite !app_nil_r.
    + by rewrite lookup_singleton_ne.
  - intros tr m r new p' _ IH Hs [Hv Hnew]%ranges_valid_app r'. specialize (IH Hv r').
    unfold accounted in *. simpl. rewrite granted_app, handed_app. destruct (decide (r' = r)) as [->|Hne].
    2: { rewrite lookup_insert_ne by done. destruct (realm_step_other _ r' _ _ _ Hs Hne) as [-> ->].
         by rewrite !app_nil_r. }
    rewrite lookup_insert_eq. destruct Hs as [ds p g s Ho Hp Hn|p g s Ho Hn|p n d s Ho Hl Ha]; rewrite Ho in IH.
    + destruct IH as [-> ->]. destruct (new_provider ds p) as (Hw & Hl & _ & Hc & _); [|done|].
      { apply (Hnew r). left. }
      destruct (Next_exact _ _ _ _ Hw Hn) as [Hw' E]. rewrite Hc, Hl in E.
      split; [done|]. simpl. destruct (decide (r = r)); [|done]. simpl.
      rewrite <- E. unfold all_guids. simpl. by rewrite !app_nil_r.
    + destruct IH as [Hw IH]. destruct (Next_exact _ _ _ _ Hw Hn) as [Hw' E]. split; [done|].
      simpl. destruct (decide (r = r)); [|done]. rewrite app_nil_r, <- IH, E. by rewrite <- app_assoc.
    + destruct IH as [Hw IH]. destruct (answered_wf pct p n d s) as (Hw' & -> & ->); try done.
      { destruct d as [[|x ds]|]; simpl; [constructor| |constructor]. apply (Hnew r). left. }
      split; [done|]. rewrite handed_received, granted_received, decide_True, app_nil_r by done.
      rewrite !all_guids_app, <- IH. destruct d as [[|x ds]|]; simpl; by rewrite ?app_nil_r, <- ?app_assoc.
Qed.
End Realms.

(** ** The guids are unique in the cluster *)

Lemma elem_of_prefix_of {A} (l k : list A) x : l `prefix_of` k -> x ∈ l -> x ∈ k.
Proof. intros [r ->] Hx. apply elem_of_app. by left. Qed.


(** ** The next pool is there in time *)
Section InTime.
Context (pct : spec_float).
Implicit Types p : threadUnsafeGuidProvider.

Definition good_pool (ds : list diapason) : Prop :=
  wf_pool ds /\ NoDup (pool_guids ds) /\ fires pct ds.
(** Either the trigger is still to come or its goroutine is there. *)
Definition armed p : Prop :=
  NoDup (left_ p) /\ Forall good_pool (diapasonsChan p) /\
  waiting p = if decide (iteratorValueToTriggerUpdate p ∈ left_ p) then 0%nat else 1%nat.

Lemma armed_reload p p1 : reload_spec p p1 -> wf_provider pct p -> armed p ->
  armed p1.
Proof.
  intros Hr Hw (Hnd & Hg & Hwait). pose proof (wp_pct _ _ Hw) as Hp.
  destruct Hr as [? ->|d rest Hlt En ->|d rest chan v Hlt En Ec Hv ->]; [done|..].
  - assert (E : left_ (set_range d rest p) = left_ p).
    { unfold left_. simpl. rewrite En, (seqZ_nil (iterator p)) by lia. reflexivity. }
    unfold armed. rewrite E. done.
  - rewrite Ec in Hg. apply Forall_cons in Hg as [(_ & Hnd1 & v' & Hv' & Hin) Hg].
    rewrite Hp in Hv. rewrite Hv in Hv'. injection Hv' as <-.
    assert (E : left_ (set_range d rest (set_trigger v (set_next (d :: rest) chan p))) = pool_guids (d :: rest)) by done.
    assert (E0 : left_ p = []) by (unfold left_; rewrite En, (seqZ_nil (iterator p)) by lia; reflexivity).
    unfold armed. rewrite E. split; [done|]. split; [done|].
    simpl. rewrite decide_True by done. rewrite E0, decide_False in Hwait by apply not_elem_of_nil.
    unfold waiting in *. simpl. rewrite Ec in Hwait. simpl in Hwait. lia.
Qed.
Lemma armed_handed p : wf_provider pct p -> iterator p <= iteratorMax p -> armed p -> armed (handed_out p).
Proof.
  intros Hw Hle (Hnd & Hg & Hwait). destruct (handed_out_wf pct p Hw Hle) as (_ & Ec & El).
  rewrite El in Hnd. apply NoDup_cons in Hnd as [Hni Hnd].
  unfold armed. rewrite Ec. split; [done|]. split; [done|]. rewrite El in Hwait.
  unfold waiting in *. rewrite Ec. revert Hni Hwait. unfold handed_out.
  destruct (Z.eqb_spec (iterator p) (iteratorValueToTriggerUpdate p)) as [Heq|Hne]; simpl; intros Hni Hwait.
  - rewrite <- Heq in *. rewrite decide_True in Hwait by left. rewrite decide_False by done. rewrite length_app. simpl. lia.
  - rewrite Hwait. apply decide_ext. rewrite elem_of_cons. naive_solver.
Qed.
Lemma armed_answered p n d s' : wf_provider pct p ->
  (forall x ds, d = Some (x :: ds) -> good_pool (x :: ds)) ->
  (n < length (requesting p))%nat -> answered n d (Sys p [] []) = (Ok tt, s') -> armed p -> armed (st s').
Proof.
  intros Hw Hd Hn H (Hnd & Hg & Hwait). destruct (lookup_lt_is_Some_2 _ _ Hn) as [i Hi].
  unfold answered in H. apply bind_ok in H as (q & s1 & [-> ->]%gets_ok & H). cbn [st] in H.
  unfold id in H. rewrite Hi in H. apply bind_ok in H as (r & s2 & Ha & H).
  unfold lift in Ha. injection Ha as Ha <-. unfold attempt in Ha. destruct d as [[|x ds]|].
  2: { injection Ha as <-. apply modify_ok in H as ->. simpl. split; [done|]. split.
       - apply Forall_app. split; [done|]. apply Forall_singleton. by eapply Hd.
       - change (waiting p = if decide (iteratorValueToTriggerUpdate p ∈ left_ p) then 0%nat else 1%nat) in Hwait.
         unfold waiting in *. simpl. rewrite length_app, length_delete by eauto. simpl.
         change (left_ (set_goroutines (delete n (requesting p)) (diapasonsChan p ++ [x :: ds]) p)) with (left_ p).
         rewrite <- Hwait. lia. }
  all: destruct (Nat.ltb_spec (S i) retriesCount) as [Hs|Hs]; [injection Ha as <-|done];
       apply modify_ok in H as ->; (split; [done|]); (split; [done|]);
       unfold waiting in *; simpl; rewrite length_insert; exact Hwait.
Qed.

(** *** In every reachable state *)
Definition all_good (tr : list obs) : Prop := forall r ds, Granted r ds ∈ tr -> good_pool ds.

Lemma all_good_valid tr : all_good tr -> ranges_valid tr.
Proof. intros Hg r ds Hin. by destruct (Hg r ds Hin) as [[_ ?] _]. Qed.
Lemma all_good_app a b : all_good (a ++ b) <-> all_good a /\ all_good b.
Proof. unfold all_good. setoid_rewrite elem_of_app. naive_solver. Qed.

Lemma armed_new ds p : good_pool ds ->
  NewThreadUnsafeGuidProvider (Some ds) pct = Some (Ok p) -> wf_provider pct p /\ armed p.
Proof.
  intros ([Hne Hv] & Hnd & v & Hc & Hin) Hp.
  destruct (new_provider pct ds p Hv Hp) as (Hw & Hl & Hr & Hch & Ht).
  rewrite Ht in Hc. injection Hc as Hc. split; [done|]. unfold armed, waiting.
  rewrite Hl, Hr, Hch, Hc, decide_True by done. by split_and!.
Qed.
Lemma armed_next p g s : wf_provider pct p -> armed p -> Next (Sys p [] []) = (Ok g, s) ->
  wf_provider pct (st s) /\ armed (st s).
Proof.
  intros Hw Ha Hn. split; [by eapply Next_exact|]. apply Next_ok in Hn as (p1 & Hr & -> & ->).
  destruct (reload_wf pct _ _ Hr Hw) as (Hw1 & Hle & _). apply armed_handed; [done..|]. by eapply armed_reload.
Qed.

Lemma serves_armed tr m : serves pct tr m -> all_good tr ->
  forall r p, realmsContainer m !! r = Some p -> wf_provider pct p /\ armed p.
Proof.
  revert tr m. apply (serves_realms pct (fun tr m => all_good tr ->
    forall r p, realmsContainer m !! r = Some p -> wf_provider pct p /\ armed p)).
  - intros r ds p Hp Hg r' p'. simpl. intros [<- <-]%lookup_singleton_Some.
    apply (armed_new ds); [|done]. apply (Hg r). left.
  - intros tr m r new p' _ IH Hs [Hg Hnew]%all_good_app r' q. simpl.
    intros [[<- <-]|[_ Hq]]%lookup_insert_Some; [|by apply (IH Hg r')].
    destruct Hs as [ds p g s Ho Hp Hn|p g s Ho Hn|p n d s Ho Hl Ha].
    + destruct (armed_new ds p) as [Hw Ha]; [apply (Hnew r); left|done|]. by eapply armed_next.
    + destruct (IH Hg _ _ Ho) as [Hw Ha]. by eapply armed_next.
    + destruct (IH Hg _ _ Ho) as [Hw Har].
      assert (Hd : forall x ds, d = Some (x :: ds) -> good_pool (x :: ds)).
      { intros x ds ->. apply (Hnew r). left. }
      split; [|by eapply armed_answered]. eapply answered_wf; try done.
      destruct d as [[|x ds]|]; simpl; [constructor| |constructor]. by destruct (Hd x ds) as [[_ ?] _].
Qed.

(** *** A call of [Next] returns, or waits for the one request under way *)
Lemma Next_returns p : wf_provider pct p -> Forall good_pool (diapasonsChan p) ->
  left_ p ++ all_guids (diapasonsChan p) <> [] -> exists g s, Next (Sys p [] []) = (Ok g, s).
Proof.
  intros Hw Hg Hl. rewrite provider_Next_run. unfold reloaded.
  destruct (Z.ltb_spec (iteratorMax p) (iterator p)) as [Hlt|Hle]; [|by eexists _, _].
  unfold reloadIterator. erewrite bind_run by reflexivity. cbn [st].
  destruct (nextDiapasons p) as [|d rest] eqn:En.
  - unfold left_ in Hl. rewrite En, (seqZ_nil (iterator p)) in Hl by lia.
    destruct (diapasonsChan p) as [|ds chan] eqn:Ec; [done|].
    apply Forall_cons in Hg as [([Hne _] & _ & v & Hv & _) _]. destruct ds as [|d rest]; [done|].
    assert (Hrun : reloadNextDiapasons (Sys p [] []) = (Ok tt, Sys (set_trigger v (set_next (d :: rest) chan p)) [] [])).
    { unfold reloadNextDiapasons. erewrite bind_run by reflexivity. cbn [st]. rewrite Ec.
      erewrite bind_run by reflexivity. erewrite bind_run by reflexivity. cbn [st pctUsedToTriggerUpdate set_next].
      rewrite (wp_pct _ _ Hw). erewrite bind_run by (unfold lift; rewrite Hv; reflexivity). reflexivity. }
    change (len (@nil diapason) =? 0) with true. cbv iota. erewrite bind_run by exact Hrun.
    erewrite bind_run by reflexivity. by eexists _, _.
  - assert (len (d :: rest) =? 0 = false) as -> by (apply Z.eqb_neq; unfold len; simpl; lia).
    erewrite bind_run by reflexivity. erewrite bind_run by reflexivity. cbn [st]. rewrite En. by eexists _, _.
Qed.

Lemma answered_first p i ds : requesting p = [i] -> ds <> [] ->
  answered 0 (Some ds) (Sys p [] []) = (Ok tt, Sys (set_goroutines [] (diapasonsChan p ++ [ds]) p) [] []).
Proof.
  intros Hr Hne. destruct ds as [|x ds]; [done|]. unfold answered. erewrite bind_run by reflexivity.
  cbn [st]. unfold id. rewrite Hr. reflexivity.
Qed.
End InTime.

(** C3: a game server never waits for guids for ever. When the granted pools
    are not empty, hold no guid twice and contain their trigger value, then in
    every reachable state a call of [Next] returns, or exactly one request for
    the next pool is under way, with attempts left, and [Next] returns the
    first guid of whatever pool answers it. *)
Theorem next_never_starves pct tr m r p :
  serves pct tr m -> all_good pct tr -> realmsContainer m !! r = Some p ->
  (exists g m', CrossrealmMgr_Next r None m = (Ok g, m')) \/
  exists i, requesting p = [i] /\ (i < retriesCount)%nat /\ diapasonsChan p = [] /\
    forall ds, good_pool pct ds ->
      exists m1 g m2, on_realm r (answered 0 (Some ds)) m = (Ok tt, m1) /\
        CrossrealmMgr_Next r None m1 = (Ok g, m2) /\ head (pool_guids ds) = Some g.
Proof.
  intros Hs Hg Hp. destruct (serves_armed pct tr m Hs Hg r p Hp) as [Hw Ha].
  pose proof Ha as (Hnd & Hch & Hwait).
  assert (Hok : forall m p, realmsContainer m !! r = Some p -> wf_provider pct p -> Forall (good_pool pct) (diapasonsChan p) ->
    left_ p ++ all_guids (diapasonsChan p) <> [] ->
    exists g m', CrossrealmMgr_Next r None m = (Ok g, m') /\ head (left_ p ++ all_guids (diapasonsChan p)) = Some g).
  { intros m0 p0 Hp0 Hw0 Hc0 Hl0. destruct (Next_returns pct p0 Hw0 Hc0 Hl0) as (g & s & Hn).
    unfold CrossrealmMgr_Next, on_realm. rewrite Hp0, Hn. eexists _, _. split; [done|].
    by destruct (Next_exact pct p0 g s Hw0 Hn) as [_ ->]. }
  destruct (decide (left_ p ++ all_guids (diapasonsChan p) = [])) as [E|Hne].
  2: { left. destruct (Hok m p) as (g & m' & Hn & _); eauto. }
  right. apply app_eq_nil in E as [El Ec].
  rewrite El, decide_False in Hwait by apply not_elem_of_nil.
  assert (Hchan : diapasonsChan p = []).
  { destruct (diapasonsChan p) as [|ds chan] eqn:E; [done|]. exfalso.
    apply Forall_cons in Hch as [([Hne _] & _ & v & Hv & Hin) _].
    unfold all_guids in Ec. simpl in Ec. apply app_eq_nil in Ec as [Ec _]. rewrite Ec in Hin.
    by apply not_elem_of_nil in Hin. }
  unfold waiting in Hwait. rewrite Hchan in Hwait. simpl in Hwait.
  destruct (requesting p) as [|i [|? ?]] eqn:Er; simpl in Hwait; [lia| |lia].
  exists i. split; [done|]. split.
  { pose proof (wp_requesting _ _ Hw) as Hq. rewrite Er in Hq. by apply Forall_cons in Hq as [? _]. }
  split; [done|]. intros ds Hds.
  set (p1 := set_goroutines [] (diapasonsChan p ++ [ds]) p).
  assert (Hrun := answered_first p i ds Er (proj1 (proj1 Hds))).
  destruct (Hok (put r p1 m) p1) as (g & m2 & Hn & Hhd).
  - apply lookup_insert_eq.
  - apply (answered_wf pct p 0 (Some ds) _ Hw) in Hrun as [Hw1 _]; [done| |rewrite Er; simpl; lia].
    by destruct Hds as [[_ ?] _].
  - simpl. rewrite Hchan. by apply Forall_singleton.
  - change (left_ p1) with (left_ p). simpl. rewrite El, Hchan. destruct Hds as (_ & _ & v & _ & Hin).
    unfold all_guids. simpl. rewrite app_nil_r. intros E. rewrite E in Hin. by apply not_elem_of_nil in Hin.
  - exists (put r p1 m), g, m2. split; [unfold on_realm; by rewrite Hp, Hrun|]. split; [done|].
    change (left_ p1) with (left_ p) in Hhd. simpl in Hhd. rewrite El, Hchan in Hhd.
    unfold all_guids in Hhd. simpl in Hhd. by rewrite app_nil_r in Hhd.
Qed.

(** ** Where the trigger value lies *)

(** The percentage is compared with the first guid of the pool: above it the
    second guid is the trigger, however large the pool is. *)
Lemma trigger_second pct d rest :
  pct_value pct (total_guids (d :: rest)) <= start d -> start d < end_ d < 2 ^ 64 - 1 -> 0 <= start d ->
  calculateIteratorValueToTriggerUpdate pct (d :: rest) = Ok (start d + 1).
Proof.
  intros Hp Hd H0. unfold calculateIteratorValueToTriggerUpdate.
  rewrite (proj2 (Z.leb_le _ _) Hp), (proj2 (Z.eqb_neq _ _)) by lia.
  by rewrite wrap_small by (unfold in_range; lia).
Qed.

Lemma elem_of_guids_of d x : x ∈ guids_of d <-> start d <= x <= end_ d.
Proof. unfold guids_of. rewrite elem_of_seqZ. lia. Qed.

(** Every single range of up to a thousand guids contains its trigger; the
    sizes a game server asks for by default are 50, 200 and 10. *)
Lemma small_sizes_below n : 1 <= n <= 1000 -> 0 <= pct_value setup_pct n < n.
Proof.
  intros Hn.
  assert (Hall : forallb (fun n => (0 <=? pct_value setup_pct n) && (pct_value setup_pct n <? n)) (seqZ 1 1000) = true)
    by (vm_compute; reflexivity).
  assert (Hin : In n (seqZ 1 1000)) by (apply list_elem_of_In, elem_of_seqZ; lia).
  apply (proj1 (forallb_forall _ _) Hall), andb_true_iff in Hin as [H0%Z.leb_le H1%Z.ltb_lt]. exact (conj H0 H1).
Qed.
Lemma small_pool_good s n : 0 <= s -> 1 <= n <= 1000 -> s + n < 2 ^ 64 ->
  good_pool setup_pct [{| start := s; end_ := s + n - 1 |}].
Proof.
  intros Hs Hn Hlt. assert (Hsize : total_guids [{| start := s; end_ := s + n - 1 |}] = n).
  { unfold total_guids, range_size. cbn [foldl start end_]. replace (s + n - 1 - s + 1) with n by lia. rewrite Z.add_0_l. by rewrite !(wrap_small 64 n) by (unfold in_range; lia). }
  pose proof (small_sizes_below n Hn) as Hp.
  split; [split; [done|]; apply Forall_singleton; unfold valid; simpl; lia|]. split.
  { unfold pool_guids. simpl. rewrite app_nil_r. apply NoDup_seqZ. }
  unfold fires, calculateIteratorValueToTriggerUpdate. rewrite Hsize. cbn [start end_].
  generalize (pct_value setup_pct n) Hp. intros v Hv. unfold pool_guids. cbn. rewrite app_nil_r.
  destruct (Z.leb_spec v s); [destruct (Z.eqb_spec s (s + n - 1))|].
  - eexists. split; [done|]. apply elem_of_guids_of. simpl. lia.
  - eexists. split; [done|]. apply elem_of_guids_of. simpl. rewrite wrap_small by (unfold in_range; lia). lia.
  - assert (Hr : range_size {| start := s; end_ := s + n - 1 |} = n)
      by (unfold range_size; simpl; rewrite wrap_small; unfold in_range; lia).
    rewrite Hr, (proj2 (Z.leb_le _ _)) by lia. eexists. split; [done|]. apply elem_of_guids_of. simpl.
    rewrite wrap_small by (unfold in_range; lia). lia.
Qed.

(** ** A cluster of two game servers *)
Section Demo.
Abbreviation pct := setup_pct.

Definition fresh (ds : list diapason) : CrossrealmMgr :=
  match NewCrossRealmMgr pct 1 (Some ds) with Ok m => m | _ => {| realmsContainer := ∅; pctToTriggerUpdate := pct |} end.
Definition demo_start (d : diapason) : CrossrealmMgr := fresh [d].
Definition demo_next (m : CrossrealmMgr) := CrossrealmMgr_Next 1 None m.
Definition demo_answer (d : diapason) (m : CrossrealmMgr) := on_realm 1 (answered 0 (Some [d])) m.
Definition ready (m : CrossrealmMgr) : bool :=
  match realmsContainer m !! 1 with Some p => (0 <? length (requesting p))%nat | None => false end.

Lemma demo_next_serves tr m g : serves pct tr m -> is_Some (realmsContainer m !! 1) -> (demo_next m).1 = Ok g ->
  serves pct (tr ++ [Handed 1 g]) (demo_next m).2.
Proof. intros Hs [p Hp] Hn. eapply serves_next; [done|done|]. unfold demo_next in *. by apply run_result. Qed.
Lemma demo_answer_serves tr m d : serves pct tr m -> ready m = true -> (demo_answer d m).1 = Ok tt ->
  serves pct (tr ++ [Granted 1 [d]]) (demo_answer d m).2.
Proof.
  unfold ready. intros Hs Hr Hn. destruct (realmsContainer m !! 1) as [p|] eqn:Hp; [|done].
  apply (serves_answer pct tr m 1 p 0 (Some [d])); [done|done|by apply Nat.ltb_lt|]. by apply run_result.
Qed.

Definition range_a := {| start := 100; end_ := 109 |}.
Definition range_b := {| start := 110; end_ := 119 |}.
Definition range_c := {| start := 200; end_ := 209 |}.
Definition server_a : CrossrealmMgr := (demo_answer range_c (demo_next (demo_next (demo_start range_a)).2).2).2.
Definition server_b : CrossrealmMgr := (demo_next (demo_start range_b)).2.
Definition trace_a : list obs := (([Granted 1 [range_a]] ++ [Handed 1 100]) ++ [Handed 1 101]) ++ [Granted 1 [range_c]].
Definition trace_b : list obs := [Granted 1 [range_b]] ++ [Handed 1 110].

Lemma server_a_serves : serves pct trace_a server_a.
Proof.
  assert (serves pct [Granted 1 [range_a]] (demo_start range_a)) by (apply serves_start; vm_compute; reflexivity).
  apply demo_answer_serves; [|vm_compute; reflexivity..].
  apply demo_next_serves; [|eexists; vm_compute; reflexivity|vm_compute; reflexivity].
  apply demo_next_serves; [done|eexists; vm_compute; reflexivity|vm_compute; reflexivity].
Qed.
Lemma server_b_serves : serves pct trace_b server_b.
Proof.
  assert (serves pct [Granted 1 [range_b]] (demo_start range_b)) by (apply serves_start; vm_compute; reflexivity).
  apply demo_next_serves; [done|eexists; vm_compute; reflexivity|vm_compute; reflexivity].
Qed.
Lemma trace_a_good : all_good pct trace_a.
Proof.
  intros r ds Hin. unfold trace_a in Hin. cbn in Hin.
  repeat (apply elem_of_cons in Hin as [Hin|Hin]; [try discriminate Hin; injection Hin as -> ->|]).
  - apply (small_pool_good 100 10); lia.
  - apply (small_pool_good 200 10); lia.
  - by apply elem_of_nil in Hin.
Qed.
Lemma trace_b_good : all_good pct trace_b.
Proof.
  intros r ds Hin. unfold trace_b in Hin. cbn in Hin.
  repeat (apply elem_of_cons in Hin as [Hin|Hin]; [try discriminate Hin; injection Hin as -> ->|]).
  - apply (small_pool_good 110 10); lia.
  - by apply elem_of_nil in Hin.
Qed.
End Demo.


Lemma next_never_starves_witness :
  exists p, realmsContainer server_a !! 1 = Some p /\
    ((exists g m', CrossrealmMgr_Next 1 None server_a = (Ok g, m')) \/
     exists i, requesting p = [i] /\ (i < retriesCount)%nat /\ diapasonsChan p = [] /\
       forall ds, good_pool setup_pct ds ->
         exists m1 g m2, on_realm 1 (answered 0 (Some ds)) server_a = (Ok tt, m1) /\
           CrossrealmMgr_Next 1 None m1 = (Ok g, m2) /\ head (pool_guids ds) = Some g).
Proof.
  destruct (realmsContainer server_a !! 1) as [p|] eqn:E; [|vm_compute in E; discriminate E].
  exists p. split; [reflexivity|].
  apply (next_never_starves setup_pct trace_a server_a 1 p); [apply server_a_serves|apply trace_a_good|exact E].
Defined.

(** ** Pools that do not fit the trigger *)
Fixpoint hand_out (n : nat) (m : CrossrealmMgr) : outcome halt u64 * CrossrealmMgr :=
  match n with
  | O => (Panic, m)
  | 1%nat => CrossrealmMgr_Next 1 None m
  | S n => hand_out n (CrossrealmMgr_Next 1 None m).2
  end.
Definition requests (m : CrossrealmMgr) : list nat := match realmsContainer m !! 1 with Some p => requesting p | None => [] end.

(** 65 percent of these 100 guids is the whole first range: the trigger is the
    guid after its end, which no range has. The last guid is handed out with
    no request made, and the next call waits for ever. *)
Example split_pool_starves :
  let m := fresh [{| start := 1; end_ := 65 |}; {| start := 101; end_ := 135 |}] in
  calculateIteratorValueToTriggerUpdate setup_pct [{| start := 1; end_ := 65 |}; {| start := 101; end_ := 135 |}] = Ok 66 /\
  (hand_out 100 m).1 = Ok 135 /\ requests (hand_out 100 m).2 = [] /\ (hand_out 101 m).1 = Fail Blocks.
Proof. vm_compute. repeat split. Qed.

(** A pool of [4000 .. 4199]: 130 is below 4000, so the second guid asks for
    the next pool; the same pool at [1 .. 200] asks at guid 131. *)
Example trigger_depends_on_start :
  calculateIteratorValueToTriggerUpdate setup_pct [{| start := 4000; end_ := 4199 |}] = Ok 4001 /\
  calculateIteratorValueToTriggerUpdate setup_pct [{| start := 1; end_ := 200 |}] = Ok 131.
Proof. vm_compute. split; reflexivity. Qed.

(** [reloadIterator] does not look at the range it loads, so an empty range is
    handed out as one guid. The guid server does grant such ranges: after a
    request that used a later range up, the next one that drains the first
    range again passes the exhausted one. Guid 23 was never bought. *)
Definition leftover_cache : AvailableDiapasons :=
  [{| diapason_ := {| Start := 10; End_ := 12 |}; CurrentGuid := 10 |};
   {| diapason_ := {| Start := 20; End_ := 22 |}; CurrentGuid := 20 |};
   {| diapason_ := {| Start := 30; End_ := 99 |}; CurrentGuid := 30 |}].
Example empty_range_handed_out :
  let granted := (UseGuids 5 (UseGuids 6 leftover_cache).2).1 in
  granted = [{| Start := 10; End_ := 12 |}; {| Start := 23; End_ := 22 |}; {| Start := 30; End_ := 31 |}] /\
  (hand_out 4 (fresh (default [] (NewGRPCDiapasonsProvider (GetGUIDPool (Some granted)))))).1 = Ok 23.
Proof. vm_compute. split; reflexivity. Qed.

(** A buffer size of 0 in the configuration: the empty pool makes the first
    call wait for ever. *)
Example empty_pool_blocks :
  (UseGuids 0 leftover_cache).1 = [{| Start := 10; End_ := 9 |}] /\
  (hand_out 1 (fresh [{| start := 10; end_ := 9 |}])).1 = Fail Blocks /\
  requests (hand_out 1 (fresh [{| start := 10; end_ := 9 |}])).2 = [].
Proof. vm_compute. repeat split. Qed.
