(* ===== verification/SidecarApi.v ===== *)
(** * SidecarApi: requests that the world server's main thread answers
    (game-server/libsidecar/grpcapi, queue, lib.go, player-*-api.go,
    battleground-api.go and their C shims)

    The gRPC goroutines of libsidecar push a handler into one of two queues
    and wait for its result or for a timeout of five seconds; the world
    server's main loop runs the handlers.  The functions the C++ server
    registers are parameters, each over the world [W] it reads and changes. *)
From S2P Require Import Prelude GoRuntime Packet.

(** ** Errors *)
Inductive api_error :=
| ErrTimeout
| ItemError (code : u8)
| MoneyError (code : u8)
| InteractionsError (code : u8)
| BattlegroundError (code : u8)
| BattlegroundJoinCheckError (code : u8).
#[export] Instance api_error_eq_dec : EqDecision api_error.
Proof. solve_decision. Defined.

Definition NoHandlerCode : int := 1.          (* of all five enums *)
Definition ItemErrorNoInventorySpace : u8 := 3.

(** ** Structs of the C interface *)
Definition int8 (x : Z) : Z := signed 8 (wrap8 x).

Record C_PlayerItem := {
  c_guid : u64; c_entry : u32; c_owner : u64; c_bagSlot : u8; c_slot : u8; c_isTradable : bool; c_count : u32;
  c_flags : u16; c_durability : u8; c_randomPropertyID : Z; c_text : string
}.
Record C_AddExistingItemToPlayerRequest := {
  ca_playerGuid : u64; ca_itemGuid : u64; ca_itemEntry : u32; ca_itemCount : u32; ca_itemFlags : u16; ca_itemDurability : u8;
  ca_itemRandomPropertyID : Z
}.
Record C_BattlegroundStartRequest := {
  cs_battlegroundTypeID : u8; cs_arenaType : u32; cs_isRated : bool; cs_mapID : u32; cs_bracketLvl : u8;
  cs_hordePlayersToAdd : list u64; cs_alliancePlayersToAdd : list u64
}.
Record C_BattlegroundAddPlayersRequest := {
  cp_battlegroundTypeID : u8; cp_instanceID : u64; cp_hordePlayersToAdd : list u64; cp_alliancePlayersToAdd : list u64
}.

(** ** Structs of the Go bindings *)
Record PlayerItem := {
  Guid : u64; Entry : u32; Owner : u64; BagSlot : u8; Slot : u8; IsTradable : bool; Count : u32; Flags : u16;
  Durability : u32; RandomPropertyID : u32; Text : string
}.
Record ItemToAdd := {
  ia_Guid : u64; ia_Entry : u32; ia_Count : u32; ia_Flags : u16; ia_Durability : u32; ia_RandomPropertyID : u32; ia_Text : string
}.
Record BattlegroundStartRequest := {
  BattlegroundTypeID : u8; ArenaType : u8; IsRated : bool; MapID : u32; BracketLvl : u8;
  HordePlayerGUIDsToAdd : list u64; AlliancePlayerGUIDsToAdd : list u64
}.
Record BattlegroundAddPlayersRequest := {
  ba_BattlegroundTypeID : u8; ba_InstanceID : u64; ba_HordePlayerGUIDsToAdd : list u64; ba_AlliancePlayerGUIDsToAdd : list u64
}.

(** ** Messages of the gRPC interface *)
Record pb_ItemToAdd := {
  pa_Guid : u64; pa_Entry : u32; pa_Count : u32; pa_Flags : u32; pa_Durability : u32; pa_RandomPropertyID : u32; pa_Text : string
}.
Record pb_PlayerItem := {
  pi_Guid : u64; pi_Entry : u32; pi_Owner : u64; pi_BagSlot : u32; pi_Slot : u32; pi_IsTradable : bool; pi_Count : u32; pi_Flags : u32;
  pi_Durability : u32; pi_RandomPropertyID : u32; pi_Text : string
}.
Inductive api_request :=
| RGetPlayerItemsByGuids (PlayerGuid : u64) (Guids : list u64)
| RRemoveItemsWithGuidsFromPlayer (PlayerGuid : u64) (Guids : list u64) (AssignToPlayerGuid : u64)
| RAddExistingItemToPlayer (PlayerGuid : u64) (Item : option pb_ItemToAdd)
| RGetMoneyForPlayer (PlayerGuid : u64)
| RModifyMoneyForPlayer (PlayerGuid : u64) (Value : Z)
| RCanPlayerInteractWithNPC (PlayerGuid NpcGuid : u64) (NpcFlags : u32)
| RCanPlayerInteractWithGameObject (PlayerGuid GameObjectGuid : u64) (GameObjectType : u32)
| RStartBattleground (BattlegroundTypeID ArenaType : u32) (IsRated : bool) (MapID BracketLvl : u32)
    (PlayersToAddHorde PlayersToAddAlliance : list u64)
| RAddPlayersToBattleground (BattlegroundTypeID InstanceID : u32) (PlayersToAddHorde PlayersToAddAlliance : list u64)
| RCanPlayerJoinBattlegroundQueue (PlayerGUID : u64)
| RCanPlayerTeleportToBattleground (PlayerGUID : u64).
Inductive AddItemStatus := AddItem_Success | AddItem_NoSpace.
Inductive api_response :=
| AItems (Items : list pb_PlayerItem)
| AUpdatedItems (UpdatedItemsGuids : list u64)
| AAddItem (Status : AddItemStatus)
| AMoney (Money : u32)
| ANewMoney (NewMoneyValue : u32)
| ACanInteract (CanInteract : bool)
| ABattleground (InstanceID ClientInstanceID : u32)
| ADone.
Inductive answer := Failed (e : api_error) | Answer (r : api_response).

(** What a handler sends over its channel. *)
Inductive bound :=
| BItems (items : list PlayerItem) | BGuids (items : list u64) | BMoney (money : u32) | BCan (canInteract : bool)
| BStarted (InstanceID InstanceClientID : u64) | BNil.

(** ** The C side *)
Section World.
Context {W : Type}.

(** A handler that was never set is [None]. *)
Record CHandlers := {
  getPlayerItemsByGuidsHandler : option (u64 -> list u64 -> W -> (int * list C_PlayerItem) * W);
  removeItemsWithGuidsFromPlayerHandler : option (u64 -> list u64 -> u64 -> W -> (int * list u64) * W);
  addExistingItemToPlayerHandler : option (C_AddExistingItemToPlayerRequest -> W -> int * W);
  getMoneyForPlayerHandler : option (u64 -> W -> (int * u32) * W);
  modifyMoneyForPlayerHandler : option (u64 -> Z -> W -> (int * u32) * W);
  canPlayerInteractWithNPCAndFlagsHandler : option (u64 -> u64 -> u32 -> W -> (int * bool) * W);
  canPlayerInteractWithGOAndTypeHandler : option (u64 -> u64 -> u8 -> W -> (int * bool) * W);
  battlegroundStartHandler : option (C_BattlegroundStartRequest -> W -> (int * (u64 * u64)) * W);
  battlegroundAddPlayersHandler : option (C_BattlegroundAddPlayersRequest -> W -> int * W);
  canPlayerJoinBattlegroundQueueHandler : option (u64 -> W -> int * W);
  canPlayerTeleportToBattlegroundHandler : option (u64 -> W -> int * W)
}.
Variable C : CHandlers.

Abbreviation run A := (W -> outcome api_error A * W).

(** [if h == 0 { return NoHandler }; return h(...)] *)
Definition shim {A} (h : option (W -> (int * A) * W)) (e : int -> api_error) (f : A -> bound) : run bound := fun w =>
  match h with
  | None => (Fail (e NoHandlerCode), w)
  | Some h =>
    let '((errorCode, res), w) := h w in
    if negb (errorCode =? 0) then (Fail (e errorCode), w) else (Ok (f res), w)
  end.
(** The same for a function that returns the error code alone. *)
Definition shim_code (h : option (W -> int * W)) (e : int -> api_error) : run bound :=
  shim ((fun h w => let '(c, w) := h w in ((c, tt), w)) <$> h) e (fun _ => BNil).

(** *** Conversions of the Go wrappers *)
Definition item_of_C (i : C_PlayerItem) : PlayerItem :=
  {| Guid := c_guid i; Entry := c_entry i; Owner := c_owner i; BagSlot := c_bagSlot i; Slot := c_slot i;
     IsTradable := c_isTradable i; Count := c_count i; Flags := c_flags i; Durability := c_durability i;
     RandomPropertyID := wrap32 (c_randomPropertyID i); Text := "" |}.
Definition C_of_item (player : u64) (i : ItemToAdd) : C_AddExistingItemToPlayerRequest :=
  {| ca_playerGuid := player; ca_itemGuid := ia_Guid i; ca_itemEntry := ia_Entry i; ca_itemCount := ia_Count i;
     ca_itemFlags := wrap16 (ia_Flags i); ca_itemDurability := wrap8 (ia_Durability i);
     ca_itemRandomPropertyID := int8 (ia_RandomPropertyID i) |}.
Definition C_of_start (r : BattlegroundStartRequest) : C_BattlegroundStartRequest :=
  {| cs_battlegroundTypeID := BattlegroundTypeID r; cs_arenaType := ArenaType r; cs_isRated := IsRated r; cs_mapID := MapID r;
     cs_bracketLvl := BracketLvl r; cs_hordePlayersToAdd := HordePlayerGUIDsToAdd r;
     cs_alliancePlayersToAdd := AlliancePlayerGUIDsToAdd r |}.
Definition C_of_players (r : BattlegroundAddPlayersRequest) : C_BattlegroundAddPlayersRequest :=
  {| cp_battlegroundTypeID := ba_BattlegroundTypeID r; cp_instanceID := ba_InstanceID r;
     cp_hordePlayersToAdd := ba_HordePlayerGUIDsToAdd r; cp_alliancePlayersToAdd := ba_AlliancePlayerGUIDsToAdd r |}.

(** *** The wrappers. [&items[0]] of an empty slice panics. *)
Definition GetPlayerItemsByGuidHandler (player : u64) (items : list u64) : run bound :=
  match items with
  | [] => fun w => (Panic, w)
  | _ => shim ((fun h => h player items) <$> getPlayerItemsByGuidsHandler C) (fun c => ItemError (wrap8 c))
           (fun res => BItems (item_of_C <$> res))
  end.
(** The shim looks whether the other handler is set. *)
Definition RemoveItemsWithGuidsFromPlayerHandler (player : u64) (items : list u64) (assignToPlayer : u64) : run bound :=
  match items, getPlayerItemsByGuidsHandler C, removeItemsWithGuidsFromPlayerHandler C with
  | [], _, _ => fun w => (Panic, w)
  | _, None, _ => fun w => (Fail (ItemError (wrap8 NoHandlerCode)), w)
  | _, Some _, None => fun w => (Panic, w)                 (* a null call *)
  | _, Some _, Some h => shim (Some (h player items assignToPlayer)) (fun c => ItemError (wrap8 c)) BGuids
  end.
Definition AddExistingItemToPlayerHandler (player : u64) (item : ItemToAdd) : run bound :=
  shim_code ((fun h => h (C_of_item player item)) <$> addExistingItemToPlayerHandler C) (fun c => ItemError (wrap8 c)).
Definition GetMoneyForPlayerHandler (guid : u64) : run bound :=
  shim ((fun h => h guid) <$> getMoneyForPlayerHandler C) (fun c => MoneyError (wrap8 c)) BMoney.
Definition ModifyMoneyForPlayerHandler (guid : u64) (value : Z) : run bound :=
  shim ((fun h => h guid value) <$> modifyMoneyForPlayerHandler C) (fun c => MoneyError (wrap8 c)) BMoney.
Definition CanPlayerInteractWithNPCAndFlagsHandler (playerGUID npcGUID : u64) (flags : u32) : run bound :=
  shim ((fun h => h playerGUID npcGUID flags) <$> canPlayerInteractWithNPCAndFlagsHandler C)
    (fun c => InteractionsError (wrap8 c)) BCan.
Definition CanPlayerInteractWithGOAndTypeHandler (playerGUID goGUID : u64) (goType : u8) : run bound :=
  shim ((fun h => h playerGUID goGUID goType) <$> canPlayerInteractWithGOAndTypeHandler C)
    (fun c => InteractionsError (wrap8 c)) BCan.
Definition BattlegroundStartHandler (r : BattlegroundStartRequest) : run bound :=
  shim ((fun h => h (C_of_start r)) <$> battlegroundStartHandler C) (fun c => BattlegroundError (wrap8 c))
    (fun '(i, c) => BStarted i c).
Definition BattlegroundAddPlayersHandler (r : BattlegroundAddPlayersRequest) : run bound :=
  shim_code ((fun h => h (C_of_players r)) <$> battlegroundAddPlayersHandler C) (fun c => BattlegroundError (wrap8 c)).
Definition CanPlayerJoinBattlegroundQueueHandler (player : u64) : run bound :=
  shim_code ((fun h => h player) <$> canPlayerJoinBattlegroundQueueHandler C) (fun c => BattlegroundJoinCheckError (wrap8 c)).
Definition CanPlayerTeleportToBattlegroundHandler (player : u64) : run bound :=
  shim_code ((fun h => h player) <$> canPlayerTeleportToBattlegroundHandler C) (fun c => BattlegroundJoinCheckError (wrap8 c)).

(** ** The endpoints

    Every one returns at once, or pushes a function on one of the queues and
    makes its answer from what that function sends. *)
Record endpoint := {
  immediate_answer : option api_response;
  reads : bool;                                (* readQueue, or writeQueue *)
  pushed_function : run bound;
  answer_of : api_error + bound -> answer
}.
(** [if resp.err != nil { return nil, resp.err }] *)
Definition or_error (f : bound -> answer) (res : api_error + bound) : answer :=
  match res with inl e => Failed e | inr b => f b end.

Definition pb_of_item (i : PlayerItem) : pb_PlayerItem :=
  {| pi_Guid := Guid i; pi_Entry := Entry i; pi_Owner := Owner i; pi_BagSlot := BagSlot i; pi_Slot := Slot i;
     pi_IsTradable := IsTradable i; pi_Count := Count i; pi_Flags := Flags i; pi_Durability := Durability i;
     pi_RandomPropertyID := RandomPropertyID i; pi_Text := Text i |}.
Definition GetPlayerItemsByGuids (PlayerGuid : u64) (Guids : list u64) : endpoint :=
  {| immediate_answer := if (PlayerGuid =? 0) || (len Guids =? 0) then Some (AItems []) else None;
     reads := true;
     pushed_function := GetPlayerItemsByGuidHandler PlayerGuid Guids;
     answer_of := or_error (fun b => Answer (AItems (pb_of_item <$> match b with BItems items => items | _ => [] end))) |}.
Definition RemoveItemsWithGuidsFromPlayer (PlayerGuid : u64) (Guids : list u64) (AssignToPlayerGuid : u64) : endpoint :=
  {| immediate_answer := if (PlayerGuid =? 0) || (len Guids =? 0) then Some (AUpdatedItems []) else None;
     reads := false;
     pushed_function := RemoveItemsWithGuidsFromPlayerHandler PlayerGuid Guids AssignToPlayerGuid;
     answer_of := or_error (fun b => Answer (AUpdatedItems match b with BGuids items => items | _ => [] end)) |}.
Definition AddExistingItemToPlayer (PlayerGuid : u64) (Item : option pb_ItemToAdd) : endpoint :=
  {| immediate_answer := if PlayerGuid =? 0 then Some (AAddItem AddItem_Success) else None;
     reads := false;
     pushed_function :=
       match Item with
       | None => fun w => (Panic, w)
       | Some i => AddExistingItemToPlayerHandler PlayerGuid
           {| ia_Guid := pa_Guid i; ia_Entry := pa_Entry i; ia_Count := pa_Count i; ia_Flags := wrap16 (pa_Flags i);
              ia_Durability := pa_Durability i; ia_RandomPropertyID := pa_RandomPropertyID i; ia_Text := pa_Text i |}
       end;
     answer_of := fun res =>
       match res with
       | inl e => if decide (e = ItemError ItemErrorNoInventorySpace) then Answer (AAddItem AddItem_NoSpace) else Failed e
       | inr _ => Answer (AAddItem AddItem_Success)
       end |}.
Definition GetMoneyForPlayer (PlayerGuid : u64) : endpoint :=
  {| immediate_answer := if PlayerGuid =? 0 then Some (AMoney 0) else None;
     reads := true;
     pushed_function := GetMoneyForPlayerHandler PlayerGuid;
     answer_of := or_error (fun b => Answer (AMoney match b with BMoney money => money | _ => 0 end)) |}.
Definition ModifyMoneyForPlayer (PlayerGuid : u64) (Value : Z) : endpoint :=
  {| immediate_answer := if PlayerGuid =? 0 then Some (ANewMoney 0) else None;
     reads := false;
     pushed_function := ModifyMoneyForPlayerHandler PlayerGuid Value;
     answer_of := or_error (fun b => Answer (ANewMoney match b with BMoney money => money | _ => 0 end)) |}.
Definition CanPlayerInteractWithNPC (PlayerGuid NpcGuid : u64) (NpcFlags : u32) : endpoint :=
  {| immediate_answer := if PlayerGuid =? 0 then Some (ACanInteract false) else None;
     reads := true;
     pushed_function := CanPlayerInteractWithNPCAndFlagsHandler PlayerGuid NpcGuid NpcFlags;
     answer_of := or_error (fun b => Answer (ACanInteract match b with BCan can => can | _ => false end)) |}.
Definition CanPlayerInteractWithGameObject (PlayerGuid GameObjectGuid : u64) (GameObjectType : u32) : endpoint :=
  {| immediate_answer := if PlayerGuid =? 0 then Some (ACanInteract false) else None;
     reads := true;
     pushed_function := CanPlayerInteractWithGOAndTypeHandler PlayerGuid GameObjectGuid (wrap8 GameObjectType);
     answer_of := or_error (fun b => Answer (ACanInteract match b with BCan can => can | _ => false end)) |}.
Definition StartBattleground (TypeID Arena : u32) (Rated : bool) (Map Bracket : u32) (PlayersToAddHorde PlayersToAddAlliance : list u64) : endpoint :=
  {| immediate_answer := None;
     reads := false;
     pushed_function := BattlegroundStartHandler
       {| BattlegroundTypeID := wrap8 TypeID; ArenaType := wrap8 Arena; IsRated := Rated; MapID := Map; BracketLvl := wrap8 Bracket;
          HordePlayerGUIDsToAdd := PlayersToAddHorde; AlliancePlayerGUIDsToAdd := PlayersToAddAlliance |};
     answer_of := or_error (fun b =>
       match b with BStarted i c => Answer (ABattleground (wrap32 i) (wrap32 c)) | _ => Answer (ABattleground 0 0) end) |}.
Definition AddPlayersToBattleground (TypeID InstanceID : u32) (PlayersToAddHorde PlayersToAddAlliance : list u64) : endpoint :=
  {| immediate_answer := None;
     reads := false;
     pushed_function := BattlegroundAddPlayersHandler
       {| ba_BattlegroundTypeID := wrap8 TypeID; ba_InstanceID := InstanceID; ba_HordePlayerGUIDsToAdd := PlayersToAddHorde;
          ba_AlliancePlayerGUIDsToAdd := PlayersToAddAlliance |};
     answer_of := or_error (fun _ => Answer ADone) |}.
Definition CanPlayerJoinBattlegroundQueue (PlayerGUID : u64) : endpoint :=
  {| immediate_answer := None; reads := false; pushed_function := CanPlayerJoinBattlegroundQueueHandler PlayerGUID;
     answer_of := or_error (fun _ => Answer ADone) |}.
Definition CanPlayerTeleportToBattleground (PlayerGUID : u64) : endpoint :=
  {| immediate_answer := None; reads := false; pushed_function := CanPlayerTeleportToBattlegroundHandler PlayerGUID;
     answer_of := or_error (fun _ => Answer ADone) |}.

Definition endpoint_of (r : api_request) : endpoint :=
  match r with
  | RGetPlayerItemsByGuids p gs => GetPlayerItemsByGuids p gs
  | RRemoveItemsWithGuidsFromPlayer p gs a => RemoveItemsWithGuidsFromPlayer p gs a
  | RAddExistingItemToPlayer p i => AddExistingItemToPlayer p i
  | RGetMoneyForPlayer p => GetMoneyForPlayer p
  | RModifyMoneyForPlayer p v => ModifyMoneyForPlayer p v
  | RCanPlayerInteractWithNPC p n f => CanPlayerInteractWithNPC p n f
  | RCanPlayerInteractWithGameObject p g t => CanPlayerInteractWithGameObject p g t
  | RStartBattleground t a ra m b h al => StartBattleground t a ra m b h al
  | RAddPlayersToBattleground t i h al => AddPlayersToBattleground t i h al
  | RCanPlayerJoinBattlegroundQueue p => CanPlayerJoinBattlegroundQueue p
  | RCanPlayerTeleportToBattleground p => CanPlayerTeleportToBattleground p
  end.
Definition immediate (r : api_request) : option api_response := immediate_answer (endpoint_of r).
Definition is_read (r : api_request) : bool := reads (endpoint_of r).
Definition Handle (r : api_request) : run bound := pushed_function (endpoint_of r).
Definition respond (r : api_request) : api_error + bound -> answer := answer_of (endpoint_of r).

(** ** Queues

    A buffered channel of 1000 handlers; when it is full the senders wait, in
    order, and the first one's handler follows into the room a receive makes. *)
Definition job : Type := nat * api_request.
Definition bufferSize : int := 1000.
Record handlersFIFOQueue := { queue : list job; blocked : list job }.
Definition NewHandlersFIFOQueue : handlersFIFOQueue := {| queue := []; blocked := [] |}.
Definition Push (h : job) (q : handlersFIFOQueue) : handlersFIFOQueue :=
  if len (queue q) <? bufferSize then {| queue := queue q ++ [h]; blocked := blocked q |}
  else {| queue := queue q; blocked := blocked q ++ [h] |}.
Definition Pop (q : handlersFIFOQueue) : option (job * handlersFIFOQueue) :=
  match queue q with
  | [] => None
  | h :: rest =>
    Some (h, match blocked q with
             | [] => {| queue := rest; blocked := [] |}
             | x :: xs => {| queue := rest ++ [x]; blocked := xs |}
             end)
  end.

(** ** The library at work *)
Inductive main_phase := InGame | Reading | Writing.
#[export] Instance main_phase_eq_dec : EqDecision main_phase.
Proof. solve_decision. Defined.
Record side := {
  world : W;
  readQueue : handlersFIFOQueue;
  writeQueue : handlersFIFOQueue;
  respChans : gmap nat (api_error + bound);   (* buffered results *)
  open_calls : gmap nat api_request;          (* goroutines that wait *)
  next_call : nat;
  phase : main_phase
}.
Inductive api_obs :=
| Called (n : nat) (r : api_request)
| Ran (n : nat) (r : api_request) (res : api_error + bound)
| Answered (n : nat) (a : answer).

Definition NewSide (w : W) : side :=
  {| world := w; readQueue := NewHandlersFIFOQueue; writeQueue := NewHandlersFIFOQueue; respChans := ∅; open_calls := ∅;
     next_call := 0; phase := InGame |}.
Definition set_phase (p : main_phase) (s : side) : side :=
  {| world := world s; readQueue := readQueue s; writeQueue := writeQueue s; respChans := respChans s;
     open_calls := open_calls s; next_call := next_call s; phase := p |}.
Definition set_world (w : W) (s : side) : side :=
  {| world := w; readQueue := readQueue s; writeQueue := writeQueue s; respChans := respChans s;
     open_calls := open_calls s; next_call := next_call s; phase := phase s |}.
Definition set_queue (read : bool) (q : handlersFIFOQueue) (s : side) : side :=
  {| world := world s; readQueue := if read then q else readQueue s; writeQueue := if read then writeQueue s else q;
     respChans := respChans s; open_calls := open_calls s; next_call := next_call s; phase := phase s |}.
Definition queue_of (read : bool) (s : side) : handlersFIFOQueue := if read then readQueue s else writeQueue s.
Definition set_open (o : gmap nat api_request) (next : nat) (s : side) : side :=
  {| world := world s; readQueue := readQueue s; writeQueue := writeQueue s; respChans := respChans s;
     open_calls := o; next_call := next; phase := phase s |}.
Definition set_resp (n : nat) (res : api_error + bound) (s : side) : side :=
  {| world := world s; readQueue := readQueue s; writeQueue := writeQueue s; respChans := <[n := res]> (respChans s);
     open_calls := open_calls s; next_call := next_call s; phase := phase s |}.

(** A request arrives. *)
Definition call (r : api_request) (s : side) : side * list api_obs :=
  let n := next_call s in
  match immediate r with
  | Some a => (set_open (open_calls s) (S n) s, [Called n r; Answered n (Answer a)])
  | None =>
    let s := set_open (<[n := r]> (open_calls s)) (S n) s in
    (set_queue (is_read r) (Push (n, r) (queue_of (is_read r) s)) s, [Called n r])
  end.
(** The goroutine's [select]: [None] is [ctx.Done()]. *)
Definition answered_call (n : nat) (r : api_request) (res : option (api_error + bound)) (s : side) : side * list api_obs :=
  (set_open (delete n (open_calls s)) (next_call s) s,
   [Answered n match res with Some res => respond r res | None => Failed ErrTimeout end]).

(** [handler.Handle()], and the result into the channel. A panic ends the process. *)
Definition handle_job (h : job) (s : side) : option (side * list api_obs) :=
  match Handle h.2 (world s) with
  | (Ok b, w) => Some (set_resp h.1 (inr b) (set_world w s), [Ran h.1 h.2 (inr b)])
  | (Fail e, w) => Some (set_resp h.1 (inl e) (set_world w s), [Ran h.1 h.2 (inl e)])
  | (Panic, _) => None
  end.
(** One turn of the loops of [TC9ProcessGRPCOrHTTPRequests]: the read requests
    until there is none, then the write requests until there is none. *)
Definition main_turn (s : side) : option (side * list api_obs) :=
  match phase s with
  | InGame => Some (s, [])
  | Reading =>
    match Pop (readQueue s) with
    | None => Some (set_phase Writing s, [])
    | Some (h, q) => handle_job h (set_queue true q s)
    end
  | Writing =>
    match Pop (writeQueue s) with
    | None => Some (set_phase InGame s, [])
    | Some (h, q) => handle_job h (set_queue false q s)
    end
  end.
(** The function without requests that arrive meanwhile. *)
Fixpoint process_loop (fuel : nat) (s : side) : option (side * list api_obs) :=
  match fuel, phase s with
  | _, InGame => Some (s, [])
  | O, _ => None
  | S fuel, _ =>
    match main_turn s with
    | None => None
    | Some (s, o) => match process_loop fuel s with None => None | Some (s, o') => Some (s, o ++ o') end
    end
  end.
Definition pending_jobs (read : bool) (s : side) : list job := queue (queue_of read s) ++ blocked (queue_of read s).
Definition TC9ProcessGRPCOrHTTPRequests (s : side) : option (side * list api_obs) :=
  process_loop (2 + length (pending_jobs true s) + length (pending_jobs false s)) (set_phase Reading s).

(** Any interleaving of the goroutines, the main loop and the game. *)
Inductive api_step (s : side) : list api_obs -> side -> Prop :=
| step_call r : api_step s (call r s).2 (call r s).1
| step_timeout n r :
    open_calls s !! n = Some r -> (n, r) ∉ blocked (queue_of (is_read r) s) ->
    api_step s (answered_call n r None s).2 (answered_call n r None s).1
| step_reply n r res :
    open_calls s !! n = Some r -> respChans s !! n = Some res ->
    api_step s (answered_call n r (Some res) s).2 (answered_call n r (Some res) s).1
| step_process : phase s = InGame -> api_step s [] (set_phase Reading s)
| step_turn s' o : phase s <> InGame -> main_turn s = Some (s', o) -> api_step s o s'
| step_game w : phase s = InGame -> api_step s [] (set_world w s).

Inductive api_run : list api_obs -> side -> Prop :=
| run_start w : api_run [] (NewSide w)
| run_step tr s o s' : api_run tr s -> api_step s o s' -> api_run (tr ++ o) s'.

(** ** What the trace says *)
Definition pushed (read : bool) (tr : list api_obs) : list job :=
  omap (fun o => match o with
                 | Called n r => match immediate r with None => if eqb (is_read r) read then Some (n, r) else None | Some _ => None end
                 | _ => None end) tr.
Definition ran (read : bool) (tr : list api_obs) : list job :=
  omap (fun o => match o with Ran n r _ => if eqb (is_read r) read then Some (n, r) else None | _ => None end) tr.
Definition called_ids (tr : list api_obs) : list nat := omap (fun o => match o with Called n _ => Some n | _ => None end) tr.
Definition answered_ids (tr : list api_obs) : list nat := omap (fun o => match o with Answered n _ => Some n | _ => None end) tr.

(** The answer of a request: at once, or its handler's result, or a timeout. *)
Definition justified (tr : list api_obs) (n : nat) (a : answer) : Prop :=
  exists r, Called n r ∈ tr /\
    match immediate r with
    | Some x => a = Answer x
    | None => a = Failed ErrTimeout \/ exists res, Ran n r res ∈ tr /\ a = respond r res
    end.

(** ** Queues are first in, first out *)
Definition all_jobs (q : handlersFIFOQueue) : list job := queue q ++ blocked q.
Definition wf_fifo (q : handlersFIFOQueue) : Prop :=
  len (queue q) <= bufferSize /\ (blocked q <> [] -> len (queue q) = bufferSize).

Lemma Push_jobs h q : wf_fifo q -> all_jobs (Push h q) = all_jobs q ++ [h].
Proof.
  intros [_ Hb]. unfold all_jobs, Push. destruct (Z.ltb_spec (len (queue q)) bufferSize); simpl; [|by rewrite app_assoc].
  destruct (blocked q) as [|x xs]; [by rewrite !app_nil_r|]. lapply Hb; [lia|done].
Qed.
Lemma Push_wf h q : wf_fifo q -> wf_fifo (Push h q).
Proof.
  intros [Hl Hb]. unfold wf_fifo, Push. destruct (Z.ltb_spec (len (queue q)) bufferSize); simpl.
  - unfold len in *. rewrite length_app. simpl. split; [lia|]. intros Hne. specialize (Hb Hne). lia.
  - split; [done|]. intros _. lia.
Qed.
Lemma Pop_jobs q : wf_fifo q ->
  match Pop q with None => all_jobs q = [] | Some (h, q') => all_jobs q = h :: all_jobs q' /\ wf_fifo q' end.
Proof.
  intros [Hl Hb]. unfold Pop, all_jobs, wf_fifo. destruct (queue q) as [|h rest] eqn:Eq.
  - destruct (blocked q) eqn:Eb; [done|]. lapply Hb; [|done]. done.
  - destruct (blocked q) as [|x xs] eqn:Eb; simpl.
    + split; [done|]. unfold len in *. simpl in *. split; [lia|done].
    + rewrite <- app_assoc. simpl. split; [done|]. lapply Hb; [|done]. unfold len in *. simpl.
      rewrite length_app. simpl. intros. split; [lia|]. intros _. lia.
Qed.

(** ** The invariant of all runs *)
Record run_inv (tr : list api_obs) (s : side) : Prop := {
  ri_ids : called_ids tr = seq 0 (next_call s);
  ri_fifo : forall b, wf_fifo (queue_of b s);
  ri_jobs : forall b, ran b tr ++ all_jobs (queue_of b s) = pushed b tr;
  ri_open : forall n r, open_calls s !! n = Some r -> Called n r ∈ tr /\ immediate r = None /\ n ∉ answered_ids tr;
  ri_once : NoDup (answered_ids tr);
  ri_answered : forall n, n ∈ answered_ids tr -> (n < next_call s)%nat;
  ri_resp : forall n res, respChans s !! n = Some res -> exists r, Ran n r res ∈ tr;
  ri_just : forall n a, Answered n a ∈ tr -> justified tr n a
}.

Lemma called_ids_app a b : called_ids (a ++ b) = called_ids a ++ called_ids b.
Proof. apply omap_app. Qed.
Lemma answered_ids_app a b : answered_ids (a ++ b) = answered_ids a ++ answered_ids b.
Proof. apply omap_app. Qed.
Lemma ran_app x a b : ran x (a ++ b) = ran x a ++ ran x b.
Proof. apply omap_app. Qed.
Lemma pushed_app x a b : pushed x (a ++ b) = pushed x a ++ pushed x b.
Proof. apply omap_app. Qed.
Lemma justified_mono tr o n a : justified tr n a -> justified (tr ++ o) n a.
Proof.
  intros (r & Hc & Ha). exists r. split; [set_solver|]. destruct (immediate r); [done|].
  destruct Ha as [Ha|(res & Hr & Ha)]; [by left|right; exists res; split; [set_solver|done]].
Qed.
Lemma elem_of_called_ids tr n : n ∈ called_ids tr <-> exists r, Called n r ∈ tr.
Proof.
  unfold called_ids. rewrite list_elem_of_omap. split.
  - intros ([m r|m r res|m a] & Hin & E); simplify_eq. eauto.
  - intros [r Hin]. eauto.
Qed.
Lemma Called_inj tr n r r' : NoDup (called_ids tr) -> Called n r ∈ tr -> Called n r' ∈ tr -> r = r'.
Proof.
  induction tr as [|o tr IH]; [intros _ Hin; by apply not_elem_of_nil in Hin|].
  intros Hnd Hin Hin'. rewrite elem_of_cons in Hin, Hin'.
  destruct o as [m q|m q res|m a]; simpl in Hnd; [|destruct Hin as [|Hin], Hin' as [|Hin']; [done..|by apply IH]..].
  apply NoDup_cons in Hnd as [Hni Hnd].
  destruct Hin as [E|Hin], Hin' as [E'|Hin']; [congruence|..|by apply IH].
  - injection E as -> ->. exfalso. apply Hni, elem_of_called_ids. eauto.
  - injection E' as -> ->. exfalso. apply Hni, elem_of_called_ids. eauto.
Qed.
Lemma elem_of_pushed b tr n r : (n, r) ∈ pushed b tr <-> Called n r ∈ tr /\ immediate r = None /\ is_read r = b.
Proof.
  unfold pushed. rewrite list_elem_of_omap. split.
  - intros ([m q|m q res|m a] & Hin & E); [|done..]. destruct (immediate q) eqn:Ei; [done|].
    destruct (eqb (is_read q) b) eqn:Eb; [|done]. injection E as -> ->. apply eqb_prop in Eb. done.
  - intros (Hin & Ei & <-). exists (Called n r). split; [done|]. by rewrite Ei, eqb_reflx.
Qed.
Lemma elem_of_ran tr n r res : Ran n r res ∈ tr -> (n, r) ∈ ran (is_read r) tr.
Proof. intros Hin. unfold ran. rewrite list_elem_of_omap. exists (Ran n r res). split; [done|]. by rewrite eqb_reflx. Qed.

Lemma queue_of_set b b' q s : queue_of b (set_queue b' q s) = if eqb b' b then q else queue_of b s.
Proof. by destruct b, b'. Qed.

Lemma inv_call tr s r : run_inv tr s -> run_inv (tr ++ (call r s).2) (call r s).1.
Proof.
  intros [Hids Hf Hj Ho Hon Ha Hr Hju]. unfold call. set (n := next_call s) in *.
  assert (Hfresh : n ∉ answered_ids tr) by (intros Hin%Ha; lia).
  assert (Hseq : called_ids tr ++ [n] = seq 0 (S n)) by (by rewrite Hids, seq_S).
  destruct (immediate r) as [x|] eqn:Ei; cbn [fst snd].
  - assert (Hp : forall b, pushed b (tr ++ [Called n r; Answered n (Answer x)]) = pushed b tr).
    { intros b. rewrite pushed_app. simpl. by rewrite Ei, app_nil_r. }
    constructor; simpl.
    + rewrite called_ids_app. exact Hseq.
    + done.
    + intros b. rewrite Hp, ran_app. simpl. rewrite app_nil_r. apply Hj.
    + intros m q Hq. destruct (Ho m q Hq) as (? & ? & Hna). split_and!; [set_solver|done|].
      rewrite answered_ids_app. simpl. intros [Hin| ->%list_elem_of_singleton]%elem_of_app; [done|].
      assert (Hin : n ∈ called_ids tr) by (apply elem_of_called_ids; eauto).
      rewrite Hids in Hin. apply elem_of_seq in Hin. lia.
    + rewrite answered_ids_app. simpl. apply NoDup_app. split; [done|]. split; [|apply NoDup_singleton].
      intros m Hm ->%list_elem_of_singleton. done.
    + rewrite answered_ids_app. intros m [Hm| ->%list_elem_of_singleton]%elem_of_app; [specialize (Ha m Hm)|]; lia.
    + intros m res Hres. destruct (Hr m res Hres) as [q Hq]. exists q. set_solver.
    + intros m a [Hin|Hin]%elem_of_app; [by apply justified_mono, Hju|].
      apply elem_of_cons in Hin as [?|Hin%list_elem_of_singleton]; [done|]. injection Hin as -> ->.
      exists r. split; [set_solver|]. by rewrite Ei.
  - assert (Hp : forall b, pushed b (tr ++ [Called n r]) = pushed b tr ++ if eqb (is_read r) b then [(n, r)] else []).
    { intros b. rewrite pushed_app. simpl. rewrite Ei. by destruct (eqb (is_read r) b). }
    assert (Hq : forall b, queue_of b (set_open (<[n:=r]> (open_calls s)) (S n) s) = queue_of b s) by (by intros []).
    constructor; simpl.
    + rewrite called_ids_app. exact Hseq.
    + intros b. rewrite queue_of_set. destruct (eqb (is_read r) b); rewrite Hq; [by apply Push_wf|done].
    + intros b. rewrite Hp, ran_app. simpl. rewrite app_nil_r, queue_of_set, <- Hj, <- app_assoc. f_equal.
      destruct (eqb (is_read r) b) eqn:E; rewrite Hq; [|by rewrite app_nil_r].
      apply eqb_prop in E as <-. by rewrite Push_jobs.
    + intros m q. rewrite answered_ids_app. simpl. rewrite app_nil_r.
      intros [[<- <-]|[_ Hm]]%lookup_insert_Some; [split_and!; [set_solver|done|done]|].
      destruct (Ho m q Hm) as (? & ? & ?). split_and!; [set_solver|done|done].
    + rewrite answered_ids_app. simpl. by rewrite app_nil_r.
    + rewrite answered_ids_app. simpl. rewrite app_nil_r. intros m Hm. specialize (Ha m Hm). lia.
    + intros m res Hres. destruct (Hr m res Hres) as [q Hin]. exists q. set_solver.
    + intros m a [Hin|Hin]%elem_of_app; [by apply justified_mono, Hju|]. apply list_elem_of_singleton in Hin. done.
Qed.

Lemma inv_answered tr s n r res : run_inv tr s -> open_calls s !! n = Some r ->
  match res with Some res => respChans s !! n = Some res | None => True end ->
  run_inv (tr ++ (answered_call n r res s).2) (answered_call n r res s).1.
Proof.
  intros [Hids Hf Hj Ho Hon Ha Hr Hju] Hop Hres. destruct (Ho n r Hop) as (Hc & Hi & Hna).
  assert (Hnd : NoDup (called_ids tr)) by (rewrite Hids; apply NoDup_seq).
  unfold answered_call. cbn [fst snd]. constructor; simpl.
  - by rewrite called_ids_app, app_nil_r.
  - done.
  - intros b. rewrite ran_app, pushed_app. simpl. rewrite !app_nil_r. apply Hj.
  - intros m q [Hne Hm]%lookup_delete_Some. destruct (Ho m q Hm) as (? & ? & ?). split_and!; [set_solver|done|].
    rewrite answered_ids_app. simpl. intros [?|?%list_elem_of_singleton]%elem_of_app; congruence.
  - rewrite answered_ids_app. simpl. apply NoDup_app. split; [done|]. split; [|apply NoDup_singleton].
    by intros m Hm ->%list_elem_of_singleton.
  - rewrite answered_ids_app. intros m [Hm| ->%list_elem_of_singleton]%elem_of_app; [by apply Ha|].
    assert (Hin : n ∈ called_ids tr) by (apply elem_of_called_ids; eauto).
    rewrite Hids in Hin. apply elem_of_seq in Hin. lia.
  - intros m x Hx. destruct (Hr m x Hx) as [q Hin]. exists q. set_solver.
  - intros m a [Hin|Hin]%elem_of_app; [by apply justified_mono, Hju|].
    apply list_elem_of_singleton in Hin. injection Hin as -> ->. exists r. split; [set_solver|]. rewrite Hi.
    destruct res as [res|]; [|by left]. right. exists res. split; [|done].
    destruct (Hr n res Hres) as [q Hq]. assert (q = r) as <-; [|set_solver].
    pose proof (elem_of_ran _ _ _ _ Hq) as Hran.
    assert (Hpu : (n, q) ∈ pushed (is_read q) tr) by (rewrite <- Hj; set_solver).
    apply elem_of_pushed in Hpu as (Hcq & _ & _). by eapply Called_inj.
Qed.

Lemma handle_job_ok h s s' o : handle_job h s = Some (s', o) ->
  exists res w, o = [Ran h.1 h.2 res] /\ s' = set_resp h.1 res (set_world w s).
Proof.
  unfold handle_job. destruct (Handle h.2 (world s)) as [[b|e|] w]; [..|done]; intros H; injection H as <- <-; eauto.
Qed.
Lemma inv_handled tr s b h q s' o : run_inv tr s -> Pop (queue_of b s) = Some (h, q) ->
  handle_job h (set_queue b q s) = Some (s', o) -> run_inv (tr ++ o) s'.
Proof.
  intros [Hids Hf Hj Ho Hon Ha Hr Hju] HP (res & w & -> & ->)%handle_job_ok.
  pose proof (Pop_jobs _ (Hf b)) as Hpop. rewrite HP in Hpop. destruct Hpop as [Hjobs Hwf].
  assert (Hb : is_read h.2 = b).
  { assert (Hin : h ∈ pushed b tr) by (rewrite <- Hj, Hjobs; set_solver).
    destruct h as [n r]. by apply elem_of_pushed in Hin as (_ & _ & ?). }
  assert (Hq : forall b', queue_of b' (set_resp h.1 res (set_world w (set_queue b q s))) = if eqb b b' then q else queue_of b' s)
    by (intros []; by destruct b).
  constructor; try (simpl; done).
  - by rewrite called_ids_app, app_nil_r.
  - intros b'. rewrite Hq. destruct (eqb b b'); [done|apply Hf].
  - intros b'. rewrite Hq, ran_app, pushed_app. simpl. rewrite app_nil_r, Hb, <- Hj, <- app_assoc. f_equal.
    destruct (eqb b b') eqn:E; [|done]. apply eqb_prop in E as <-. rewrite Hjobs. by destruct h.
  - intros m r Hm. destruct (Ho m r Hm) as (? & ? & ?). split_and!; [set_solver|done|].
    rewrite answered_ids_app. simpl. by rewrite app_nil_r.
  - rewrite answered_ids_app. simpl. by rewrite app_nil_r.
  - rewrite answered_ids_app. simpl. rewrite app_nil_r. apply Ha.
  - intros m x. simpl. intros [[<- <-]|[_ Hm]]%lookup_insert_Some; [exists h.2; set_solver|].
    destruct (Hr m x Hm) as [r Hin]. exists r. set_solver.
  - intros m a [Hin|Hin]%elem_of_app; [by apply justified_mono, Hju|]. apply list_elem_of_singleton in Hin. done.
Qed.
(** Steps that observe nothing and leave the calls alone. *)
Lemma inv_silent tr s s' : run_inv tr s ->
  next_call s' = next_call s -> (forall b, queue_of b s' = queue_of b s) -> open_calls s' = open_calls s ->
  respChans s' = respChans s -> run_inv (tr ++ []) s'.
Proof.
  intros [Hids Hf Hj Ho Hon Ha Hr Hju] E1 E2 E3 E4. rewrite app_nil_r.
  constructor; rewrite ?E1, ?E3, ?E4; try done; intros b; by rewrite E2.
Qed.
Lemma inv_turn tr s s' o : run_inv tr s -> main_turn s = Some (s', o) -> run_inv (tr ++ o) s'.
Proof.
  unfold main_turn. intros Hi. destruct (phase s).
  - intros H. injection H as <- <-. by eapply inv_silent.
  - destruct (Pop (readQueue s)) as [[h q]|] eqn:E; [by apply (inv_handled tr s true h q)|].
    intros H. injection H as <- <-. eapply inv_silent; solve [done | by intros []].
  - destruct (Pop (writeQueue s)) as [[h q]|] eqn:E; [by apply (inv_handled tr s false h q)|].
    intros H. injection H as <- <-. eapply inv_silent; solve [done | by intros []].
Qed.
Lemma api_run_inv tr s : api_run tr s -> run_inv tr s.
Proof.
  induction 1 as [w|tr s o s' _ IH Hs].
  - constructor; simpl; try done.
    + intros []; unfold wf_fifo, len, bufferSize; simpl; (split; [lia|done]).
    + by intros [].
    + constructor.
    + by intros ? ?%not_elem_of_nil.
    + by intros ? ? ?%not_elem_of_nil.
  - destruct Hs as [r|n r Hop _|n r res Hop Hres|Hp|s' o Hp Ht|w Hp].
    + by apply inv_call.
    + by apply inv_answered.
    + by apply inv_answered.
    + eapply inv_silent; solve [done | by intros []].
    + by eapply inv_turn.
    + eapply inv_silent; solve [done | by intros []].
Qed.

(** C24: every request of the world server interface is run at most once, and
    the requests of a queue are run in the order they arrived in: those that
    were run, followed by those still queued, are those that were pushed. A
    request is answered at most once: at once, with the result its handler
    had, or with a timeout. *)
Theorem requests_run_in_order tr s :
  api_run tr s ->
  (forall read, ran read tr ++ pending_jobs read s = pushed read tr) /\
  NoDup (called_ids tr) /\ NoDup (answered_ids tr) /\
  forall n a, Answered n a ∈ tr -> justified tr n a.
Proof.
  intros Hi%api_run_inv. split_and!; [apply Hi| |apply Hi..]. rewrite (ri_ids _ _ Hi). apply NoDup_seq.
Qed.

(** ** The main loop gets through its queues *)
Definition safe (h : job) : Prop := forall w, (Handle h.2 w).1 <> Panic.
Definition all_ran (tr : list api_obs) : list job := omap (fun o => match o with Ran n r _ => Some (n, r) | _ => None end) tr.

Lemma handle_job_safe h s : safe h -> exists res w,
  handle_job h s = Some (set_resp h.1 res (set_world w s), [Ran h.1 h.2 res]).
Proof.
  intros Hs. specialize (Hs (world s)). unfold handle_job.
  destruct (Handle h.2 (world s)) as [[b|e|] w]; [eauto..|done].
Qed.
Lemma process_writing fuel : forall s, phase s = Writing -> wf_fifo (writeQueue s) -> Forall safe (all_jobs (writeQueue s)) ->
  (length (all_jobs (writeQueue s)) < fuel)%nat ->
  exists s' o, process_loop fuel s = Some (s', o) /\ phase s' = InGame /\ readQueue s' = readQueue s /\
    all_jobs (writeQueue s') = [] /\ open_calls s' = open_calls s /\ all_ran o = all_jobs (writeQueue s).
Proof.
  induction fuel as [|fuel IH]; intros s Hph Hwf Hsafe Hfuel; [lia|].
  cbn [process_loop]. rewrite Hph. unfold main_turn. rewrite Hph.
  pose proof (Pop_jobs _ Hwf) as Hpop. destruct (Pop (writeQueue s)) as [[h q]|] eqn:E.
  - destruct Hpop as [Hjobs Hq]. rewrite Hjobs in *. apply Forall_cons in Hsafe as [Hh Hsafe].
    destruct (handle_job_safe h (set_queue false q s) Hh) as (res & w & ->).
    destruct (IH (set_resp h.1 res (set_world w (set_queue false q s)))) as (s' & o & -> & ? & ? & ? & ? & Ho); simpl in *; [done..|lia|].
    eexists _, _. split; [done|]. split_and!; try done. simpl. rewrite Ho. by destruct h.
  - exists (set_phase InGame s), []. rewrite Hpop. split_and!; try done. by destruct fuel.
Qed.
Lemma process_reading fuel : forall s, phase s = Reading -> wf_fifo (readQueue s) -> wf_fifo (writeQueue s) ->
  Forall safe (all_jobs (readQueue s)) -> Forall safe (all_jobs (writeQueue s)) ->
  (S (length (all_jobs (readQueue s)) + length (all_jobs (writeQueue s))) < fuel)%nat ->
  exists s' o, process_loop fuel s = Some (s', o) /\ phase s' = InGame /\ all_jobs (readQueue s') = [] /\
    all_jobs (writeQueue s') = [] /\ open_calls s' = open_calls s /\
    all_ran o = all_jobs (readQueue s) ++ all_jobs (writeQueue s).
Proof.
  induction fuel as [|fuel IH]; intros s Hph Hwf Hwf' Hsafe Hsafe' Hfuel; [lia|].
  cbn [process_loop]. rewrite Hph. unfold main_turn. rewrite Hph.
  pose proof (Pop_jobs _ Hwf) as Hpop. destruct (Pop (readQueue s)) as [[h q]|] eqn:E.
  - destruct Hpop as [Hjobs Hq]. rewrite Hjobs in *. apply Forall_cons in Hsafe as [Hh Hsafe].
    destruct (handle_job_safe h (set_queue true q s) Hh) as (res & w & ->).
    destruct (IH (set_resp h.1 res (set_world w (set_queue true q s)))) as (s' & o & -> & ? & ? & ? & ? & Ho); simpl in *; [done..|lia|].
    eexists _, _. split; [done|]. split_and!; try done. simpl. rewrite Ho. by destruct h.
  - rewrite Hpop in Hfuel. simpl in Hfuel.
    destruct (process_writing fuel (set_phase Writing s)) as (s' & o & -> & ? & Hr & ? & ? & Ho); simpl in *; [done..|lia|].
    eexists _, _. split; [done|]. rewrite Hr, Hpop. by split_and!.
Qed.

(** C25: [TC9ProcessGRPCOrHTTPRequests] ends, with both queues empty: it runs the
    read requests and then the write requests, each queue in its order,
    whether their callers still wait or have been told of a timeout. *)
Theorem process_runs_all tr s :
  api_run tr s -> Forall safe (pending_jobs true s ++ pending_jobs false s) ->
  exists s' o, TC9ProcessGRPCOrHTTPRequests s = Some (s', o) /\ phase s' = InGame /\
    pending_jobs true s' = [] /\ pending_jobs false s' = [] /\ open_calls s' = open_calls s /\
    all_ran o = pending_jobs true s ++ pending_jobs false s.
Proof.
  intros Hi%api_run_inv [Hr Hw]%Forall_app. unfold TC9ProcessGRPCOrHTTPRequests.
  pose proof (ri_fifo tr s Hi true) as Ht. pose proof (ri_fifo tr s Hi false) as Hf.
  refine (process_reading _ (set_phase Reading s) _ _ _ _ _ _); [done|exact Ht|exact Hf|exact Hr|exact Hw|].
  unfold pending_jobs, all_jobs. simpl. lia.
Qed.
End World.
Arguments CHandlers : clear implicits.
Arguments side : clear implicits.

(** ** A server with money *)
Section Demo.
Definition no_handlers : CHandlers Z :=
  {| getPlayerItemsByGuidsHandler := None; removeItemsWithGuidsFromPlayerHandler := None; addExistingItemToPlayerHandler := None;
     getMoneyForPlayerHandler := Some (fun _ w => ((0, w), w));
     modifyMoneyForPlayerHandler := Some (fun _ v w => ((0, w + v), w + v));
     canPlayerInteractWithNPCAndFlagsHandler := None; canPlayerInteractWithGOAndTypeHandler := None;
     battlegroundStartHandler := None; battlegroundAddPlayersHandler := None;
     canPlayerJoinBattlegroundQueueHandler := None; canPlayerTeleportToBattlegroundHandler := None |}.
Abbreviation C := no_handlers.

Definition pay : api_request := RModifyMoneyForPlayer 7 (-30).
Definition look : api_request := RGetMoneyForPlayer 7.
Definition two_calls : side Z := (call C look (call C pay (NewSide 100)).1).1.
(** The payer's goroutine gives up. *)
Definition timed_out : side Z := (answered_call C 0 pay None two_calls).1.
Definition timed_out_trace : list api_obs := (([] ++ [Called 0 pay]) ++ [Called 1 look]) ++ [Answered 0 (Failed ErrTimeout)].

Lemma timed_out_run : api_run C timed_out_trace timed_out.
Proof.
  assert (H1 : api_run C ([] ++ [Called 0 pay]) (call C pay (NewSide 100)).1)
    by (eapply run_step; [apply run_start|exact (step_call C (NewSide 100) pay)]).
  assert (H2 : api_run C (([] ++ [Called 0 pay]) ++ [Called 1 look]) two_calls)
    by (eapply run_step; [exact H1|exact (step_call C (call C pay (NewSide 100)).1 look)]).
  eapply run_step; [exact H2|]. apply (step_timeout C two_calls 0 pay); [vm_compute; reflexivity|apply not_elem_of_nil].
Qed.
End Demo.

Lemma requests_run_in_order_witness : pending_jobs false timed_out = [(0%nat, pay)] /\ justified no_handlers timed_out_trace 0 (Failed ErrTimeout).
Proof.
  destruct (requests_run_in_order no_handlers timed_out_trace timed_out timed_out_run) as (Hq & _ & _ & Hj).
  split; [exact (Hq false)|]. apply Hj. apply elem_of_app. right. by apply list_elem_of_singleton.
Defined.

(** The payment is made although its caller was told it failed. *)
Lemma process_runs_all_witness :
  exists s' o, TC9ProcessGRPCOrHTTPRequests no_handlers timed_out = Some (s', o) /\
    all_ran o = [(1%nat, look); (0%nat, pay)] /\ open_calls s' = open_calls timed_out.
Proof.
  destruct (process_runs_all no_handlers timed_out_trace timed_out timed_out_run) as (s' & o & Hp & _ & _ & _ & Ho & Ha).
  - repeat constructor; intros w; discriminate.
  - exists s', o. split; [exact Hp|]. split; [exact Ha|exact Ho].
Defined.
Example timed_out_payment_is_made :
  world timed_out = 100 /\ option_map (fun r => world r.1) (TC9ProcessGRPCOrHTTPRequests no_handlers timed_out) = Some 70.
Proof. vm_compute. split; reflexivity. Qed.

(** ** Items on their way through the interface *)

(** The request the server should be asked, but for the text of the item. *)
Definition requested (player : u64) (i : pb_ItemToAdd) : C_AddExistingItemToPlayerRequest :=
  {| ca_playerGuid := player; ca_itemGuid := pa_Guid i; ca_itemEntry := pa_Entry i; ca_itemCount := pa_Count i;
     ca_itemFlags := pa_Flags i; ca_itemDurability := pa_Durability i; ca_itemRandomPropertyID := pa_RandomPropertyID i |}.
Lemma int8_same x : in_range 32 x -> int8 x = x <-> x < 128.
Proof.
  intros Hx. unfold int8, signed. destruct (Z.ltb_spec (wrap8 x) (2 ^ (8 - 1))) as [H|H]; revert H; word_lia.
Qed.
(** The server is asked to add the item of the request exactly when its
    flags, durability and random property fit the narrower C fields; wider
    values are cut off, and the text is never passed on. *)
Theorem added_item_fits {W} (add : C_AddExistingItemToPlayerRequest -> W -> int * W) (C : CHandlers W) player i w :
  addExistingItemToPlayerHandler C = Some add ->
  in_range 32 (pa_Flags i) -> in_range 32 (pa_Durability i) -> in_range 32 (pa_RandomPropertyID i) ->
  exists asked, Handle C (RAddExistingItemToPlayer player (Some i)) w = shim_code (Some (add asked)) (fun c => ItemError (wrap8 c)) w /\
    (asked = requested player i <-> pa_Flags i < 2 ^ 16 /\ pa_Durability i < 256 /\ pa_RandomPropertyID i < 128).
Proof.
  intros Hadd Hf Hd Hr. eexists. split.
  { unfold Handle. cbn [endpoint_of AddExistingItemToPlayer pushed_function]. unfold AddExistingItemToPlayerHandler. rewrite Hadd. reflexivity. }
  unfold C_of_item, requested. cbn.
  rewrite (wrap_small 16 (wrap16 (pa_Flags i))) by (unfold in_range, wrap; apply Z.mod_pos_bound; lia).
  split.
  - intros E. injection E as Ef Ed Er. rewrite int8_same in Er by done. revert Ef Ed Er Hf Hd. word_lia.
  - intros (Hf' & Hd' & Hr'). f_equal; [|..|by apply int8_same]; apply wrap_small; unfold in_range in *; lia.
Qed.
Definition adding (r : C_AddExistingItemToPlayerRequest) (w : list C_AddExistingItemToPlayerRequest) := (0, w ++ [r]).
Definition item_server : CHandlers (list C_AddExistingItemToPlayerRequest) :=
  {| getPlayerItemsByGuidsHandler := None; removeItemsWithGuidsFromPlayerHandler := None;
     addExistingItemToPlayerHandler := Some adding; getMoneyForPlayerHandler := None; modifyMoneyForPlayerHandler := None;
     canPlayerInteractWithNPCAndFlagsHandler := None; canPlayerInteractWithGOAndTypeHandler := None;
     battlegroundStartHandler := None; battlegroundAddPlayersHandler := None;
     canPlayerJoinBattlegroundQueueHandler := None; canPlayerTeleportToBattlegroundHandler := None |}.
Definition worn_item : pb_ItemToAdd :=
  {| pa_Guid := 9; pa_Entry := 2; pa_Count := 1; pa_Flags := 0; pa_Durability := 300; pa_RandomPropertyID := 200; pa_Text := "" |}.
Lemma added_item_fits_witness :
  exists asked, Handle item_server (RAddExistingItemToPlayer 1 (Some worn_item)) [] = (Ok BNil, [asked]) /\ asked <> requested 1 worn_item.
Proof.
  destruct (added_item_fits adding item_server 1 worn_item []) as (asked & E & Hiff);
    [reflexivity|unfold in_range; simpl; lia..|].
  exists asked. split; [rewrite E; reflexivity|]. intros (_ & Hd & _)%Hiff. simpl in Hd. lia.
Defined.
(** Durability 300 and random property 200 become 44 and -56. *)
Example worn_item_added :
  (Handle item_server (RAddExistingItemToPlayer 1 (Some worn_item)) []).2 =
  [{| ca_playerGuid := 1; ca_itemGuid := 9; ca_itemEntry := 2; ca_itemCount := 1; ca_itemFlags := 0; ca_itemDurability := 44;
      ca_itemRandomPropertyID := -56 |}].
Proof. reflexivity. Qed.
(** Items are removed through a shim that looks at another handler. *)
Example remove_calls_null (items : u64 -> list u64 -> Z -> (int * list C_PlayerItem) * Z) w :
  Handle {| getPlayerItemsByGuidsHandler := Some items; removeItemsWithGuidsFromPlayerHandler := None; addExistingItemToPlayerHandler := None;
     getMoneyForPlayerHandler := None; modifyMoneyForPlayerHandler := None;
     canPlayerInteractWithNPCAndFlagsHandler := None; canPlayerInteractWithGOAndTypeHandler := None;
     battlegroundStartHandler := None; battlegroundAddPlayersHandler := None;
     canPlayerJoinBattlegroundQueueHandler := None; canPlayerTeleportToBattlegroundHandler := None |}
    (RRemoveItemsWithGuidsFromPlayer 1 [5] 0) w = (Panic, w).
Proof. reflexivity. Qed.
