(* ===== verification/SidecarEvents.v ===== *)
(** * SidecarEvents: the hooks of the world server
    (game-server/libsidecar/consumer, events.go, events-*.go and their C shims)

    Bus messages of the server's realm become handlers in a queue; the world
    server's main loop runs them, and each calls the hook the server set for
    its event. *)
From S2P Require Import Prelude GoRuntime Registry GroupCache Guilds Groups.

(** ** Hooks *)
Inductive hook :=
| OnGuildMemberAdded | OnGuildMemberRemoved | OnGuildMemberLeft
| OnGroupCreated | OnGroupMemberAdded | OnGroupMemberRemoved | OnGroupDisbanded | OnGroupLootTypeChanged
| OnGroupDungeonDifficultyChanged | OnGroupRaidDifficultyChanged | OnGroupConvertedToRaid | OnMapsReassigned.
#[export] Instance hook_eq_dec : EqDecision hook.
Proof. solve_decision. Defined.

Record EventObjectGroup := {
  eg_guid : u32; eg_leader : u64; eg_lootMethod : u8; eg_looterGuid : u64; eg_lootThreshold : u8; eg_groupType : u8;
  eg_difficulty : u8; eg_raidDifficulty : u8; eg_masterLooterGuid : u64;
  eg_members : list (option u64);      (* [None]: memory that was never written *)
  eg_membersSize : u8
}.
Inductive hook_call :=
| GuildMemberAdded (guild_id player_guid : u64)
| GuildMemberRemoved (guild_id player_guid : u64)
| GuildMemberLeft (guild_id player_guid : u64)
| GroupCreatedHook (group : EventObjectGroup)
| GroupMemberAdded (guid : u32) (newMemberGuid : u64)
| GroupMemberRemoved (guid : u32) (removedMemberGuid newLeaderGuid : u64)
| GroupDisbanded (guid : u32)
| GroupLootTypeChanged (guid : u32) (lootMethod : u8) (looter : u64) (lootThreshold : u8)
| GroupDungeonDifficultyChanged (guid : u32) (difficulty : u8)
| GroupRaidDifficultyChanged (guid : u32) (difficulty : u8)
| GroupConvertedToRaid (guid : u32)
| MapsReassigned (maps_added maps_removed : list u32).

(** The hook a call goes to, and the one its shim looks at. *)
Definition hook_of (c : hook_call) : hook :=
  match c with
  | GuildMemberAdded _ _ => OnGuildMemberAdded
  | GuildMemberRemoved _ _ => OnGuildMemberRemoved
  | GuildMemberLeft _ _ => OnGuildMemberLeft
  | GroupCreatedHook _ => OnGroupCreated
  | GroupMemberAdded _ _ => OnGroupMemberAdded
  | GroupMemberRemoved _ _ _ => OnGroupMemberRemoved
  | GroupDisbanded _ => OnGroupDisbanded
  | GroupLootTypeChanged _ _ _ _ => OnGroupLootTypeChanged
  | GroupDungeonDifficultyChanged _ _ => OnGroupDungeonDifficultyChanged
  | GroupRaidDifficultyChanged _ _ => OnGroupRaidDifficultyChanged
  | GroupConvertedToRaid _ => OnGroupConvertedToRaid
  | MapsReassigned _ _ => OnMapsReassigned
  end.
Definition checked_hook (c : hook_call) : hook :=
  match c with GroupMemberAdded _ _ => OnGroupCreated | _ => hook_of c end.

(** ** State *)
(** The handlers the fabrics build hold their payload. *)
Inductive handler :=
| HGuildMemberAdded (guildID characterGUID : u64)
| HGuildMemberRemoved (guildID characterGUID : u64)
| HGuildMemberLeft (guildID characterGUID : u64)
| HGroupCreated (GroupID : Z) (LeaderGUID : u64) (LootMethod : u8) (LooterGUID : u64) (LootThreshold GroupType Difficulty RaidDifficulty : u8)
    (MasterLooterGuid : u64) (Members : list EventGroupMember)
| HGroupMemberAdded (GroupID : Z) (MemberGUID : u64)
| HGroupMemberRemoved (GroupID : Z) (MemberGUID NewLeaderID : u64)
| HGroupDisbanded (GroupID : Z)
| HGroupLootTypeChanged (GroupID : Z) (NewLootType : u8) (NewLooterGUID : u64) (NewLooterThreshold : u8)
| HGroupDifficultyChanged (GroupID : Z) (DungeonDifficulty RaidDifficulty : option u8)
| HGroupConvertedToRaid (GroupID : Z)
| HMapsReassigned (newMaps removedMaps : list u32).

Record sidecar := {
  eventsHandlersQueue : list handler;
  hooks : list hook                    (* the ones the server has set *)
}.
Inductive wait := Full.
Abbreviation M A := (go sidecar hook_call wait A).

Section Sidecar.
Variables (realmID : u32) (AssignedGameServerID : string).

(** ** From bus messages to handlers *)
Inductive message := MGuild (e : guild_event) | MGroup (e : group_event) | MRegistry (e : sr_event).

(** The realm of a message that is subscribed to and filtered by realm. *)
Definition guild_handler (e : guild_event) : option (u32 * handler) :=
  match e with
  | Guilds.MemberAdded ge g _ => Some (ge_RealmID ge, HGuildMemberAdded (ge_GuildID ge) g)
  | Guilds.MemberKicked ge g _ _ _ => Some (ge_RealmID ge, HGuildMemberRemoved (ge_GuildID ge) g)
  | Guilds.MemberLeft ge g _ => Some (ge_RealmID ge, HGuildMemberLeft (ge_GuildID ge) g)
  | _ => None
  end.
Definition group_handler (e : group_event) : option (u32 * handler) :=
  match e with
  | Groups.GroupCreated _ r i l lm lo lt gt d rd ml ms => Some (r, HGroupCreated i l lm lo lt gt d rd ml ms)
  | Groups.MemberAdded _ r i g _ _ => Some (r, HGroupMemberAdded i g)
  | Groups.GroupMemberLeft _ r i g _ nl _ => Some (r, HGroupMemberRemoved i g nl)
  | Groups.GroupDisband _ r i _ => Some (r, HGroupDisbanded i)
  | Groups.LootTypeChanged _ r i t l th _ => Some (r, HGroupLootTypeChanged i t l th)
  | Groups.GroupDifficultyChanged _ r i _ dd rd _ => Some (r, HGroupDifficultyChanged i dd rd)
  | Groups.ConvertedToRaid _ r i _ _ => Some (r, HGroupConvertedToRaid i)
  | _ => None
  end.
(** The first entry of this server with old maps decides. *)
Fixpoint GameServerMapsReassigned (servers : list EventGameServer) : option handler :=
  match servers with
  | [] => None
  | server :: rest =>
    if String.eqb (e_ID server) AssignedGameServerID && (0 <? len (OldAssignedMapsToHandle server)) then
      let newMaps := OnlyNewMaps server in
      let removedMaps := OnlyRemovedMaps server in
      if (0 <? len removedMaps) || (0 <? len newMaps) then Some (HMapsReassigned newMaps removedMaps) else None
    else GameServerMapsReassigned rest
  end.
(** The handler of a message, where this server has one. *)
Definition handler_of (m : message) : option handler :=
  let in_realm o := match o with Some (r, h) => if r =? realmID then Some h else None | None => None end in
  match m with
  | MGuild e => in_realm (guild_handler e)
  | MGroup e => in_realm (group_handler e)
  | MRegistry (GSMapsReassigned servers) => GameServerMapsReassigned servers
  | MRegistry _ => None
  end.
(** [Push] ignores nil and waits while a thousand handlers are queued. *)
Definition Push (h : option handler) : M unit :=
  match h with
  | None => mret tt
  | Some h =>
    q ← gets eventsHandlersQueue;
    guard_err (negb (len q <? 1000)) Full ;;
    modify (fun s => {| eventsHandlersQueue := q ++ [h]; hooks := hooks s |})
  end.
Definition on_message (m : message) : M unit := Push (handler_of m).

(** ** Running the handlers *)

(** [CallOn...Hook]: no hook, no call; a hook that was never set is a null call. *)
Definition CallHook (c : hook_call) : M unit :=
  set ← gets hooks;
  if negb (bool_decide (checked_hook c ∈ set)) then mret tt
  else if negb (bool_decide (hook_of c ∈ set)) then panic
  else fun s => (Ok tt, Sys (st s) (faults s) (events s ++ [c])).

(** The loop that fills the C array moves its pointer on by [i] entries each
    time: a write is the offset and the guid. *)
Fixpoint member_writes (i : nat) (ptr : nat) (members : list EventGroupMember) : list (nat * u64) :=
  match members with
  | [] => []
  | m :: members => let ptr := (ptr + i)%nat in (ptr, em_MemberGUID m) :: member_writes (S i) ptr members
  end.
(** The array afterwards; [None]: a write past its end. *)
Fixpoint run_writes (buf : list (option u64)) (ws : list (nat * u64)) : option (list (option u64)) :=
  match ws with
  | [] => Some buf
  | (off, g) :: ws => if (off <? length buf)%nat then run_writes (<[off := Some g]> buf) ws else None
  end.
Definition member_array (members : list EventGroupMember) : option (list (option u64)) :=
  run_writes (replicate (length members) None) (member_writes 0 0 members).

Definition Handle (h : handler) : M unit :=
  match h with
  | HGuildMemberAdded g c => CallHook (GuildMemberAdded g c)
  | HGuildMemberRemoved g c => CallHook (GuildMemberRemoved g c)
  | HGuildMemberLeft g c => CallHook (GuildMemberLeft g c)
  | HGroupCreated i l lm lo lt gt d rd ml ms =>
    array ← deref (member_array ms);
    CallHook (GroupCreatedHook
      {| eg_guid := wrap32 i; eg_leader := l; eg_lootMethod := lm; eg_looterGuid := lo; eg_lootThreshold := lt; eg_groupType := gt;
         eg_difficulty := d; eg_raidDifficulty := rd; eg_masterLooterGuid := ml; eg_members := array;
         eg_membersSize := wrap8 (len ms) |})
  | HGroupMemberAdded i g => CallHook (GroupMemberAdded (wrap32 i) g)
  | HGroupMemberRemoved i g nl => CallHook (GroupMemberRemoved (wrap32 i) g nl)
  | HGroupDisbanded i => CallHook (GroupDisbanded (wrap32 i))
  | HGroupLootTypeChanged i t l th => CallHook (GroupLootTypeChanged (wrap32 i) t l th)
  | HGroupDifficultyChanged i dd rd =>
    match dd with Some d => CallHook (GroupDungeonDifficultyChanged (wrap32 i) d) | None => mret tt end ;;
    match rd with Some d => CallHook (GroupRaidDifficultyChanged (wrap32 i) d) | None => mret tt end
  | HGroupConvertedToRaid i => CallHook (GroupConvertedToRaid (wrap32 i))
  | HMapsReassigned n r => CallHook (MapsReassigned n r)
  end.
(** One turn of the loop of [TC9ProcessEventsHooks]; [false]: no handler left. *)
Definition process_one : M bool :=
  q ← gets eventsHandlersQueue;
  match q with
  | [] => mret false
  | h :: q =>
    modify (fun s => {| eventsHandlersQueue := q; hooks := hooks s |}) ;;
    Handle h ;;
    mret true
  end.
Fixpoint process_events (fuel : nat) : M unit :=
  match fuel with
  | O => mret tt
  | S fuel => more ← process_one; if more : bool then process_events fuel else mret tt
  end.
Definition TC9ProcessEventsHooks : M unit :=
  q ← gets eventsHandlersQueue;
  process_events (S (length q)).

(** Messages and turns of the loop in any order. *)
Inductive sidecar_op := Message (m : message) | Turn.
Definition run_op (o : sidecar_op) : M unit :=
  match o with
  | Message m => on_message m
  | Turn => more ← process_one; mret tt
  end.
Fixpoint run_ops (os : list sidecar_op) : M unit :=
  match os with [] => mret tt | o :: os => run_op o ;; run_ops os end.
End Sidecar.

(** ** The array of members *)
Lemma member_writes_length ms : forall i ptr, length (member_writes i ptr ms) = length ms.
Proof. induction ms as [|m ms IH]; intros i ptr; simpl; [done|]. by rewrite IH. Qed.

(** With up to two members the offsets are 0 and 1, as they should be. *)
Lemma member_array_small ms : (length ms <= 2)%nat ->
  member_array ms = Some (Some <$> (em_MemberGUID <$> ms)).
Proof. destruct ms as [|m [|m' [|? ?]]]; simpl; intros Hl; [reflexivity..|lia]. Qed.
(** The third write goes to offset 3, and so on: 0, 1, 3, 6, ... *)
Lemma run_writes_out buf ws1 off g ws2 : (length buf <= off)%nat -> run_writes buf (ws1 ++ (off, g) :: ws2) = None.
Proof.
  revert buf. induction ws1 as [|[o x] ws1 IH]; intros buf Hl; simpl.
  - by rewrite (proj2 (Nat.ltb_ge _ _) Hl).
  - destruct (o <? length buf)%nat; [|done]. apply IH. by rewrite length_insert.
Qed.
Lemma member_writes_lookup ms : forall i ptr k m, ms !! k = Some m ->
  exists off, member_writes i ptr ms !! k = Some (off, em_MemberGUID m) /\ (2 * off = 2 * ptr + (k + 1) * (2 * i + k))%nat.
Proof.
  induction ms as [|x ms IH]; intros i ptr k m Hk; [done|]. destruct k as [|k]; simpl in Hk |- *.
  - injection Hk as ->. eexists. split; [done|]. lia.
  - destruct (IH (S i) (ptr + i)%nat k m Hk) as (off & Hoff & E). exists off. split; [done|]. lia.
Qed.

(** A created group reaches the world server's hook with exactly its
    members when there are at most two; with three or more, a member is
    written past the end of the array. *)
Theorem member_array_exact ms :
  member_array ms = if (length ms <=? 2)%nat then Some (Some <$> (em_MemberGUID <$> ms)) else None.
Proof.
  destruct (Nat.leb_spec (length ms) 2) as [Hl|Hl]; [by apply member_array_small|].
  assert (exists m, last ms = Some m) as [m Hm].
  { destruct (last ms) eqn:E; [eauto|]. apply last_None in E as ->. simpl in Hl. lia. }
  rewrite last_lookup in Hm. destruct (member_writes_lookup ms 0 0 _ m Hm) as (off & Hoff & E).
  apply list_elem_of_split_length in Hoff as (ws1 & ws2 & Ews & _).
  unfold member_array. rewrite Ews. apply run_writes_out. rewrite length_replicate.
  destruct (length ms) as [|n]; [lia|]. simpl in E. nia.
Qed.

(** ** The hooks a message leads to *)
Definition hook_calls (h : handler) : list hook_call :=
  match h with
  | HGuildMemberAdded g c => [GuildMemberAdded g c]
  | HGuildMemberRemoved g c => [GuildMemberRemoved g c]
  | HGuildMemberLeft g c => [GuildMemberLeft g c]
  | HGroupCreated i l lm lo lt gt d rd ml ms =>
    [GroupCreatedHook
      {| eg_guid := wrap32 i; eg_leader := l; eg_lootMethod := lm; eg_looterGuid := lo; eg_lootThreshold := lt; eg_groupType := gt;
         eg_difficulty := d; eg_raidDifficulty := rd; eg_masterLooterGuid := ml; eg_members := Some <$> (em_MemberGUID <$> ms);
         eg_membersSize := wrap8 (len ms) |}]
  | HGroupMemberAdded i g => [GroupMemberAdded (wrap32 i) g]
  | HGroupMemberRemoved i g nl => [GroupMemberRemoved (wrap32 i) g nl]
  | HGroupDisbanded i => [GroupDisbanded (wrap32 i)]
  | HGroupLootTypeChanged i t l th => [GroupLootTypeChanged (wrap32 i) t l th]
  | HGroupDifficultyChanged i dd rd =>
    match dd with Some d => [GroupDungeonDifficultyChanged (wrap32 i) d] | None => [] end ++
    match rd with Some d => [GroupRaidDifficultyChanged (wrap32 i) d] | None => [] end
  | HGroupConvertedToRaid i => [GroupConvertedToRaid (wrap32 i)]
  | HMapsReassigned n r => [MapsReassigned n r]
  end.
(** Every hook set, and no group of more than two created. *)
Definition all_set (hs : list hook) : Prop := forall h, h ∈ hs.
Definition fits (h : handler) : Prop :=
  match h with HGroupCreated _ _ _ _ _ _ _ _ _ ms => (length ms <= 2)%nat | _ => True end.

Section Hooks.
Context (realmID : u32) (AssignedGameServerID : string).
Implicit Types s : sys sidecar hook_call.
Abbreviation handler_of := (handler_of realmID AssignedGameServerID).
Abbreviation run_all := (run_ops realmID AssignedGameServerID).

Definition calls_of (m : message) : list hook_call := match handler_of m with Some h => hook_calls h | None => [] end.
Definition messages (os : list sidecar_op) : list message := omap (fun o => match o with Message m => Some m | Turn => None end) os.
Definition queued (s : sys sidecar hook_call) : list hook_call := concat (hook_calls <$> eventsHandlersQueue (st s)).

Lemma CallHook_set c s : all_set (hooks (st s)) ->
  CallHook c s = (Ok tt, Sys (st s) (faults s) (events s ++ [c])).
Proof.
  intros Ha. unfold CallHook. erewrite bind_run by reflexivity.
  rewrite !bool_decide_eq_true_2 by apply Ha. reflexivity.
Qed.
Lemma Handle_calls h s : all_set (hooks (st s)) -> fits h ->
  Handle h s = (Ok tt, Sys (st s) (faults s) (events s ++ hook_calls h)).
Proof.
  intros Ha Hf. destruct h as [| | |i l lm lo lt gt d rd ml ms| | | | |i [d|] [r|]| |]; cbn [Handle hook_calls];
    try by apply CallHook_set.
  - simpl in Hf. rewrite member_array_small by done. erewrite bind_run by reflexivity. by apply CallHook_set.
  - erewrite bind_run by (by apply CallHook_set). rewrite CallHook_set by done. simpl. by rewrite <- app_assoc.
  - by erewrite bind_run by (by apply CallHook_set).
  - simpl. rewrite app_nil_r. by destruct s.
Qed.

(** Runs keep what is still to be called in step with what was received. *)
Record sound s : Prop := { sd_set : all_set (hooks (st s)); sd_fits : Forall fits (eventsHandlersQueue (st s)) }.

Lemma process_one_calls s : sound s -> exists s',
  process_one s = (Ok (negb (len (eventsHandlersQueue (st s)) =? 0)), s') /\ sound s' /\
  eventsHandlersQueue (st s') = tail (eventsHandlersQueue (st s)) /\
  events s' ++ queued s' = events s ++ queued s.
Proof.
  intros [Hset Hfits]. unfold process_one. erewrite bind_run by reflexivity.
  unfold queued. destruct (eventsHandlersQueue (st s)) as [|h q] eqn:Eq.
  - exists s. rewrite Eq. split; [done|]. split; [|done]. constructor; [done|rewrite Eq; constructor].
  - apply Forall_cons in Hfits as [Hh Hq]. erewrite bind_run by reflexivity.
    erewrite bind_run by (by apply Handle_calls).
    assert (len (h :: q) =? 0 = false) as -> by (apply Z.eqb_neq; unfold len; simpl; lia).
    eexists. split; [reflexivity|]. split; [by constructor|]. split; [done|]. simpl. by rewrite <- app_assoc.
Qed.
Lemma process_events_calls fuel : forall s, sound s -> (length (eventsHandlersQueue (st s)) < fuel)%nat -> exists s',
  process_events fuel s = (Ok tt, s') /\ eventsHandlersQueue (st s') = [] /\ events s' = events s ++ queued s.
Proof.
  induction fuel as [|fuel IH]; intros s Hs Hl; [lia|]. cbn [process_events].
  destruct (process_one_calls s Hs) as (s1 & E & Hs1 & Hq & Hev). erewrite bind_run by exact E.
  destruct (eventsHandlersQueue (st s)) as [|h q] eqn:Eq; simpl in Hq.
  - change (len (@nil handler) =? 0) with true. exists s1. split; [done|]. split; [done|].
    rewrite <- Hev. unfold queued. rewrite Hq. simpl. by rewrite app_nil_r.
  - assert (len (h :: q) =? 0 = false) as -> by (apply Z.eqb_neq; unfold len; simpl; lia). simpl in Hl |- *.
    destruct (IH s1 Hs1) as (s2 & E2 & Hq2 & Hev2); [rewrite Hq; lia|]. exists s2. split; [done|]. split; [done|].
    by rewrite Hev2, Hev.
Qed.
Lemma run_op_calls o s u s' : sound s ->
  (forall m, o = Message m -> default True (fits <$> handler_of m)) ->
  run_op realmID AssignedGameServerID o s = (Ok u, s') -> sound s' /\
  events s' ++ queued s' = (events s ++ queued s) ++ concat (calls_of <$> messages [o]).
Proof.
  intros Hs Hm. destruct o as [m|]; cbn [run_op messages omap list_omap].
  - specialize (Hm m eq_refl). unfold on_message, Push. change (concat (calls_of <$> [m])) with (calls_of m ++ []).
    rewrite app_nil_r. unfold calls_of. destruct (handler_of m) as [h|]; simpl in Hm.
    + intros Hrun. inv_ok. split.
      * destruct Hs as [Hset Hf]. constructor; [done|]. simpl. apply Forall_app. split; [done|]. by apply Forall_singleton.
      * unfold queued. simpl. rewrite fmap_app, concat_app. simpl. by rewrite app_nil_r, app_assoc.
    + intros [_ ->]%ret_ok. by rewrite app_nil_r.
  - intros Hrun. destruct (process_one_calls s Hs) as (s1 & E & Hs1 & _ & Hev).
    rewrite (bind_run _ _ _ _ _ E) in Hrun. apply ret_ok in Hrun as [_ ->]. by rewrite app_nil_r.
Qed.
Lemma run_ops_calls os : forall s u s', sound s ->
  Forall (fun m => default True (fits <$> handler_of m)) (messages os) ->
  run_all os s = (Ok u, s') -> sound s' /\
  events s' ++ queued s' = (events s ++ queued s) ++ concat (calls_of <$> messages os).
Proof.
  induction os as [|o os IH]; intros s u s' Hs Hf; cbn [run_ops].
  - intros [_ ->]%ret_ok. by rewrite app_nil_r.
  - intros ([] & s1 & H1 & H2)%bind_ok.
    assert (Hms : messages (o :: os) = messages [o] ++ messages os) by (by destruct o).
    rewrite Hms in Hf |- *. apply Forall_app in Hf as [Hf1 Hf2].
    apply run_op_calls in H1 as [Hs1 E1]; [|done|].
    + apply IH in H2 as [Hs2 E2]; [|done..]. split; [done|]. by rewrite E2, E1, fmap_app, concat_app, <- app_assoc.
    + intros m ->. by apply Forall_cons in Hf1 as [? _].
Qed.
End Hooks.


(** ** The groups the group service creates *)
Section CreatedGroups.
Context `{SliceGrow}.
Implicit Types s : sys groups_state group_event.

(** The group object at [p] keeps its slice. *)
Definition same_slice (p : nat) s s' : Prop :=
  events s' = events s /\
  forall g, groups (st s) !! p = Some g -> exists g', groups (st s') !! p = Some g' /\ g_Members g' = g_Members g.

Lemma same_slice_trans p s s1 s2 : same_slice p s s1 -> same_slice p s1 s2 -> same_slice p s s2.
Proof.
  intros [E1 H1] [E2 H2]. split; [congruence|]. intros g Hg. destruct (H1 g Hg) as (g1 & Hg1 & Em).
  destruct (H2 g1 Hg1) as (g2 & Hg2 & Em2). exists g2. split; [done|congruence].
Qed.
Lemma same_groups p s s' : events s' = events s -> groups (st s') = groups (st s) -> same_slice p s s'.
Proof. intros E1 E2. split; [done|]. rewrite E2. eauto. Qed.

Lemma insert_members_slice p sl n : forall i id s u s',
  insert_members sl id i n s = (Ok u, s') -> same_slice p s s'.
Proof.
  induction n as [|n IH]; intros i id s u s'; cbn [insert_members].
  - intros [_ ->]%ret_ok. by apply same_groups.
  - unfold db. intros Hrun. inv_cache. eapply same_slice_trans; [|by eapply IH].
    apply same_groups; [by rewrite Hev|by rewrite Hst].
Qed.
Lemma index_members_slice p realm a ms : forall i s u s',
  index_members realm a i ms s = (Ok u, s') -> same_slice p s s'.
Proof.
  induction ms as [|m ms IH]; intros i s u s'; cbn [index_members].
  - intros [_ ->]%ret_ok. by apply same_groups.
  - unfold put_member. intros Hrun. inv_cache. eapply same_slice_trans; [|by eapply IH]. by apply same_groups.
Qed.
Lemma Create_slice realm p s u s' : Create realm p s = (Ok u, s') -> same_slice p s s'.
Proof.
  unfold Create, mysql_Create, put_group, store_group, db. intros Hrun. inv_cache.
  match goal with Hi : index_members _ _ _ _ _ = _, Hm : insert_members _ _ _ _ _ = _ |- _ =>
    apply (index_members_slice p) in Hi as [Ei Gi]; apply (insert_members_slice p) in Hm as [Em Gm] end.
  simpl in *. split; [congruence|]. intros g Hg.
  assert (a10 = g) as -> by (rewrite Hst, Hst0 in Hobj0; simpl in Hobj0; congruence).
  destruct (Gm _ (lookup_insert_eq _ _ _)) as (g1 & Hg1 & E1).
  destruct (Gi g1 Hg1) as (g2 & Hg2 & E2). exists g2. split; [done|]. by rewrite E2, E1.
Qed.

(** [createGroup], the only place that publishes this event, names at most two
    members. *)
Lemma createGroup_fits svc realm invite s u s' e :
  createGroup svc realm invite s = (Ok u, s') -> e ∈ events s' -> e ∉ events s ->
  default True ((fun rh => fits rh.2) <$> group_handler e).
Proof.
  unfold createGroup, alloc_group. intros Hrun Hin Hni. inv_group.
  match goal with Hc : Create _ _ _ = _ |- _ => apply (Create_slice realm (next_group (st s))) in Hc as [Ec Gc] end.
  simpl in *. destruct (Gc _ (lookup_insert_eq _ _ _)) as (g & Hg & El). rewrite Hg in Hobj. injection Hobj as ->.
  destruct Hev as [Hev|Hev]; rewrite Hev in Hin; [|by rewrite Ec in Hin].
  rewrite Ec in Hin. apply elem_of_app in Hin as [?|Hin]; [done|]. apply list_elem_of_singleton in Hin as ->. simpl.
  rewrite length_fmap. unfold members_of, slice_read. rewrite El. simpl. rewrite length_take. lia.
Qed.
End CreatedGroups.

(** ** A server of realm 1 *)
Definition demo_hooks : list hook :=
  [OnGuildMemberAdded; OnGuildMemberRemoved; OnGuildMemberLeft; OnGroupCreated; OnGroupMemberAdded; OnGroupMemberRemoved;
   OnGroupDisbanded; OnGroupLootTypeChanged; OnGroupDungeonDifficultyChanged; OnGroupRaidDifficultyChanged; OnGroupConvertedToRaid;
   OnMapsReassigned].
Definition demo_member (g : u64) : EventGroupMember :=
  {| em_MemberGUID := g; em_MemberFlags := 0; em_MemberName := "m"; em_IsOnline := true; em_SubGroup := 0; em_Roles := 0 |}.
Definition demo_created (realm : u32) (guids : list u64) : message :=
  MGroup (Groups.GroupCreated "svc" realm 5 (default 0 (head guids)) 0 0 0 0 0 0 0 (demo_member <$> guids)).
Definition demo_start (hs : list hook) : sys sidecar hook_call := Sys {| eventsHandlersQueue := []; hooks := hs |} [] [].
Definition demo_ops : list sidecar_op :=
  [Message (demo_created 1 [10; 11]); Message (demo_created 2 [20; 21]); Turn; Message (MGroup (Groups.MemberAdded "svc" 1 5 12 "n" []))].


(** Three members: the third guid is written one entry past the array. *)
Example three_members_overflow :
  member_writes 0 0 (demo_member <$> [10; 11; 12]) = [(0%nat, 10); (1%nat, 11); (3%nat, 12)] /\
  (run_ops 1 "gs" [Message (demo_created 1 [10; 11; 12]); Turn] (demo_start demo_hooks)).1 = Panic.
Proof. vm_compute. split; reflexivity. Qed.
(** The shim of the member-added hook looks at the group-created hook: a
    server that sets only the other one crashes, one that sets only this one
    is never told. *)
Example member_added_shim :
  let added := [Message (MGroup (Groups.MemberAdded "svc" 1 5 12 "n" [])); Turn] in
  (run_ops 1 "gs" added (demo_start [OnGroupCreated])).1 = Panic /\
  events (run_ops 1 "gs" added (demo_start [OnGroupMemberAdded])).2 = [].
Proof. vm_compute. split; reflexivity. Qed.
