(* ===== verification/WorldDb.v ===== *)
(** * WorldDb: the creature templates of the world database
    (apps/worlddbserver/repo/creature_template.go, apps/worlddbserver/server/worlddb.go,
    game-server/libsidecar/world-db.go, world-db.c, world-db.h)

    The server reads a table once into a map and streams it to the world
    servers; libsidecar hands each message to a handler of the world server.
    A float32 is its 32 bits.  The store is replaced, and read, in one critical
    section, so an operation on it is one step. *)
From S2P Require Import Prelude GoRuntime.
From Stdlib Require Import Ascii.

Abbreviation i32 := Z (only parsing).
Abbreviation f32 := Z (only parsing).

(** ** Rows of the database

    A row gives a value for each column; a value has the type of its column. *)
Inductive sql_value := SqlInt (z : Z) | SqlFloat (bits : f32) | SqlText (s : string) | SqlNull.
Abbreviation row := (string -> sql_value).

(** sql.NullString *)
Record NullString := { ns_String : string; ns_Valid : bool }.

(** creature_template as the server keeps it. *)
Record CreatureTemplate := {
  ct_Entry : u32; ct_DifficultyEntry1 : u32; ct_DifficultyEntry2 : u32; ct_DifficultyEntry3 : u32; ct_KillCredit1 : u32; ct_KillCredit2 : u32;
  ct_Name : string; ct_SubName : NullString; ct_IconName : NullString; ct_GossipMenuID : u32; ct_MinLevel : u32; ct_MaxLevel : u32; ct_Exp : i32;
  ct_Faction : u32; ct_NpcFlag : u32; ct_SpeedWalk : f32; ct_SpeedRun : f32; ct_SpeedSwim : f32; ct_SpeedFlight : f32; ct_DetectionRange : f32;
  ct_Rank : u32; ct_DmgSchool : i32; ct_DamageModifier : f32; ct_BaseAttackTime : u32; ct_RangeAttackTime : u32; ct_BaseVariance : f32;
  ct_RangeVariance : f32; ct_UnitClass : u32; ct_UnitFlags : u32; ct_UnitFlags2 : u32; ct_DynamicFlags : u32; ct_Family : i32; ct_Type : u32;
  ct_TypeFlags : u32; ct_LootID : u32; ct_PickpocketLoot : u32; ct_SkinningLoot : u32; ct_PetSpellDataID : u32; ct_VehicleID : u32; ct_MinGold : u32;
  ct_MaxGold : u32; ct_AIName : string; ct_MovementType : u32; ct_HoverHeight : f32; ct_HealthModifier : f32; ct_ManaModifier : f32;
  ct_ArmorModifier : f32; ct_ExperienceModifier : f32; ct_RacialLeader : u32; ct_MovementID : u32; ct_RegenHealth : u32;
  ct_CreatureImmunitiesID : i32; ct_FlagsExtra : u32; ct_ScriptName : string
}.

(** The message of the interface. *)
Record pb_CreatureTemplate := {
  pb_Entry : u32; pb_DifficultyEntry_1 : u32; pb_DifficultyEntry_2 : u32; pb_DifficultyEntry_3 : u32; pb_KillCredit_1 : u32; pb_KillCredit_2 : u32;
  pb_Name : string; pb_SubName : string; pb_IconName : string; pb_GossipMenuId : u32; pb_MinLevel : u32; pb_MaxLevel : u32; pb_Exp : i32;
  pb_Faction : u32; pb_NpcFlag : u32; pb_SpeedWalk : f32; pb_SpeedRun : f32; pb_SpeedSwim : f32; pb_SpeedFlight : f32; pb_DetectionRange : f32;
  pb_Rank : u32; pb_DmgSchool : i32; pb_DamageModifier : f32; pb_BaseAttackTime : u32; pb_RangeAttackTime : u32; pb_BaseVariance : f32;
  pb_RangeVariance : f32; pb_UnitClass : u32; pb_UnitFlags : u32; pb_UnitFlags_2 : u32; pb_DynamicFlags : u32; pb_Family : i32; pb_Type : u32;
  pb_TypeFlags : u32; pb_Lootid : u32; pb_PickpocketLoot : u32; pb_SkinningLoot : u32; pb_PetSpellDataId : u32; pb_VehicleId : u32; pb_MinGold : u32;
  pb_MaxGold : u32; pb_AiName : string; pb_MovementType : u32; pb_HoverHeight : f32; pb_HealthModifier : f32; pb_ManaModifier : f32;
  pb_ArmorModifier : f32; pb_ExperienceModifier : f32; pb_RacialLeader : u32; pb_MovementId : u32; pb_RegenHealth : u32;
  pb_CreatureImmunitiesId : i32; pb_FlagsExtra : u32; pb_ScriptName : string
}.

(** The row the world server is given; a [char*] is the text up to its end. *)
Record CreatureTemplateRow := {
  cr_entry : u32; cr_difficulty_entry_1 : u32; cr_difficulty_entry_2 : u32; cr_difficulty_entry_3 : u32; cr_kill_credit_1 : u32;
  cr_kill_credit_2 : u32; cr_name : string; cr_sub_name : string; cr_icon_name : string; cr_gossip_menu_id : u32; cr_min_level : u32;
  cr_max_level : u32; cr_exp : i32; cr_faction : u32; cr_npc_flag : u32; cr_speed_walk : f32; cr_speed_run : f32; cr_speed_swim : f32;
  cr_speed_flight : f32; cr_detection_range : f32; cr_rank : u32; cr_dmg_school : i32; cr_damage_modifier : f32; cr_base_attack_time : u32;
  cr_range_attack_time : u32; cr_base_variance : f32; cr_range_variance : f32; cr_unit_class : u32; cr_unit_flags : u32; cr_unit_flags_2 : u32;
  cr_dynamic_flags : u32; cr_family : i32; cr_type : u32; cr_type_flags : u32; cr_lootid : u32; cr_pickpocket_loot : u32; cr_skinning_loot : u32;
  cr_pet_spell_data_id : u32; cr_vehicle_id : u32; cr_min_gold : u32; cr_max_gold : u32; cr_ai_name : string; cr_movement_type : u32;
  cr_hover_height : f32; cr_health_modifier : f32; cr_mana_modifier : f32; cr_armor_modifier : f32; cr_experience_modifier : f32;
  cr_racial_leader : u32; cr_movement_id : u32; cr_regen_health : u32; cr_creature_immunities_id : i32; cr_flags_extra : u32; cr_script_name : string
}.

(** ** The repository *)
(** Scanning one column into a variable of the given type: values it cannot
    hold are errors. *)
Definition to_u32 (v : sql_value) : option u32 :=
  match v with SqlInt z => if (0 <=? z) && (z <? 2 ^ 32) then Some z else None | _ => None end.
Definition to_i32 (v : sql_value) : option i32 :=
  match v with SqlInt z => if (- 2 ^ 31 <=? z) && (z <? 2 ^ 31) then Some z else None | _ => None end.
Definition to_f32 (v : sql_value) : option f32 := match v with SqlFloat b => Some b | _ => None end.
Definition to_string (v : sql_value) : option string := match v with SqlText s => Some s | _ => None end.
Definition to_NullString (v : sql_value) : option NullString :=
  match v with
  | SqlText s => Some {| ns_String := s; ns_Valid := true |}
  | SqlNull => Some {| ns_String := ""; ns_Valid := false |}
  | _ => None
  end.

Definition col {A} (conv : sql_value -> option A) (vs : list sql_value) : option (A * list sql_value) :=
  match vs with v :: vs => a ← conv v; Some (a, vs) | [] => None end.

Definition query : list string :=
  ["entry"; "difficulty_entry_1"; "difficulty_entry_2"; "difficulty_entry_3"; "KillCredit1"; "KillCredit2"; "name"; "subname"; "IconName";
   "gossip_menu_id"; "minlevel"; "maxlevel"; "exp"; "faction"; "npcflag"; "speed_walk"; "speed_run"; "speed_swim"; "speed_flight"; "detection_range";
   "rank"; "dmgschool"; "DamageModifier"; "BaseAttackTime"; "RangeAttackTime"; "BaseVariance"; "RangeVariance"; "unit_class"; "unit_flags";
   "unit_flags2"; "dynamicflags"; "family"; "type"; "type_flags"; "lootid"; "pickpocketloot"; "skinloot"; "PetSpellDataId"; "VehicleId"; "mingold";
   "maxgold"; "AIName"; "MovementType"; "HoverHeight"; "HealthModifier"; "ManaModifier"; "ArmorModifier"; "ExperienceModifier"; "RacialLeader";
   "movementId"; "RegenHealth"; "CreatureImmunitiesId"; "flags_extra"; "ScriptName"].

(** rows.Scan: the columns in the order of the query, all of them. *)
Definition Scan (vs : list sql_value) : option CreatureTemplate :=
  ' (Entry, vs) ← col to_u32 vs; ' (DifficultyEntry1, vs) ← col to_u32 vs; ' (DifficultyEntry2, vs) ← col to_u32 vs;
  ' (DifficultyEntry3, vs) ← col to_u32 vs; ' (KillCredit1, vs) ← col to_u32 vs; ' (KillCredit2, vs) ← col to_u32 vs;
  ' (Name, vs) ← col to_string vs; ' (SubName, vs) ← col to_NullString vs; ' (IconName, vs) ← col to_NullString vs;
  ' (GossipMenuID, vs) ← col to_u32 vs; ' (MinLevel, vs) ← col to_u32 vs; ' (MaxLevel, vs) ← col to_u32 vs; ' (Exp, vs) ← col to_i32 vs;
  ' (Faction, vs) ← col to_u32 vs; ' (NpcFlag, vs) ← col to_u32 vs; ' (SpeedWalk, vs) ← col to_f32 vs; ' (SpeedRun, vs) ← col to_f32 vs;
  ' (SpeedSwim, vs) ← col to_f32 vs; ' (SpeedFlight, vs) ← col to_f32 vs; ' (DetectionRange, vs) ← col to_f32 vs; ' (Rank, vs) ← col to_u32 vs;
  ' (DmgSchool, vs) ← col to_i32 vs; ' (DamageModifier, vs) ← col to_f32 vs; ' (BaseAttackTime, vs) ← col to_u32 vs;
  ' (RangeAttackTime, vs) ← col to_u32 vs; ' (BaseVariance, vs) ← col to_f32 vs; ' (RangeVariance, vs) ← col to_f32 vs;
  ' (UnitClass, vs) ← col to_u32 vs; ' (UnitFlags, vs) ← col to_u32 vs; ' (UnitFlags2, vs) ← col to_u32 vs; ' (DynamicFlags, vs) ← col to_u32 vs;
  ' (Family, vs) ← col to_i32 vs; ' (Type_, vs) ← col to_u32 vs; ' (TypeFlags, vs) ← col to_u32 vs; ' (LootID, vs) ← col to_u32 vs;
  ' (PickpocketLoot, vs) ← col to_u32 vs; ' (SkinningLoot, vs) ← col to_u32 vs; ' (PetSpellDataID, vs) ← col to_u32 vs;
  ' (VehicleID, vs) ← col to_u32 vs; ' (MinGold, vs) ← col to_u32 vs; ' (MaxGold, vs) ← col to_u32 vs; ' (AIName, vs) ← col to_string vs;
  ' (MovementType, vs) ← col to_u32 vs; ' (HoverHeight, vs) ← col to_f32 vs; ' (HealthModifier, vs) ← col to_f32 vs;
  ' (ManaModifier, vs) ← col to_f32 vs; ' (ArmorModifier, vs) ← col to_f32 vs; ' (ExperienceModifier, vs) ← col to_f32 vs;
  ' (RacialLeader, vs) ← col to_u32 vs; ' (MovementID, vs) ← col to_u32 vs; ' (RegenHealth, vs) ← col to_u32 vs;
  ' (CreatureImmunitiesID, vs) ← col to_i32 vs; ' (FlagsExtra, vs) ← col to_u32 vs; ' (ScriptName, vs) ← col to_string vs;
  match vs with
  | [] => Some {|
      ct_Entry := Entry; ct_DifficultyEntry1 := DifficultyEntry1; ct_DifficultyEntry2 := DifficultyEntry2; ct_DifficultyEntry3 := DifficultyEntry3;
      ct_KillCredit1 := KillCredit1; ct_KillCredit2 := KillCredit2; ct_Name := Name; ct_SubName := SubName; ct_IconName := IconName;
      ct_GossipMenuID := GossipMenuID; ct_MinLevel := MinLevel; ct_MaxLevel := MaxLevel; ct_Exp := Exp; ct_Faction := Faction; ct_NpcFlag := NpcFlag;
      ct_SpeedWalk := SpeedWalk; ct_SpeedRun := SpeedRun; ct_SpeedSwim := SpeedSwim; ct_SpeedFlight := SpeedFlight;
      ct_DetectionRange := DetectionRange; ct_Rank := Rank; ct_DmgSchool := DmgSchool; ct_DamageModifier := DamageModifier;
      ct_BaseAttackTime := BaseAttackTime; ct_RangeAttackTime := RangeAttackTime; ct_BaseVariance := BaseVariance; ct_RangeVariance := RangeVariance;
      ct_UnitClass := UnitClass; ct_UnitFlags := UnitFlags; ct_UnitFlags2 := UnitFlags2; ct_DynamicFlags := DynamicFlags; ct_Family := Family;
      ct_Type := Type_; ct_TypeFlags := TypeFlags; ct_LootID := LootID; ct_PickpocketLoot := PickpocketLoot; ct_SkinningLoot := SkinningLoot;
      ct_PetSpellDataID := PetSpellDataID; ct_VehicleID := VehicleID; ct_MinGold := MinGold; ct_MaxGold := MaxGold; ct_AIName := AIName;
      ct_MovementType := MovementType; ct_HoverHeight := HoverHeight; ct_HealthModifier := HealthModifier; ct_ManaModifier := ManaModifier;
      ct_ArmorModifier := ArmorModifier; ct_ExperienceModifier := ExperienceModifier; ct_RacialLeader := RacialLeader; ct_MovementID := MovementID;
      ct_RegenHealth := RegenHealth; ct_CreatureImmunitiesID := CreatureImmunitiesID; ct_FlagsExtra := FlagsExtra; ct_ScriptName := ScriptName |}
  | _ => None
  end.

Inductive worlddb_err :=
| ErrQuery | ErrRows | ErrScan | ErrCtx | ErrNotLoaded | ErrSend | ErrCount (e : worlddb_err) | ErrLoad (e : worlddb_err).

Record worlddb_state := { byID : gmap u32 CreatureTemplate; loaded : bool }.
Definition NewWorldDBServer : worlddb_state := {| byID := ∅; loaded := false |}.

Definition creatureTemplateToProto (c : CreatureTemplate) : pb_CreatureTemplate := {|
  pb_Entry := ct_Entry c; pb_DifficultyEntry_1 := ct_DifficultyEntry1 c; pb_DifficultyEntry_2 := ct_DifficultyEntry2 c;
  pb_DifficultyEntry_3 := ct_DifficultyEntry3 c; pb_KillCredit_1 := ct_KillCredit1 c; pb_KillCredit_2 := ct_KillCredit2 c; pb_Name := ct_Name c;
  pb_SubName := ns_String (ct_SubName c); pb_IconName := ns_String (ct_IconName c); pb_GossipMenuId := ct_GossipMenuID c;
  pb_MinLevel := ct_MinLevel c; pb_MaxLevel := ct_MaxLevel c; pb_Exp := ct_Exp c; pb_Faction := ct_Faction c; pb_NpcFlag := ct_NpcFlag c;
  pb_SpeedWalk := ct_SpeedWalk c; pb_SpeedRun := ct_SpeedRun c; pb_SpeedSwim := ct_SpeedSwim c; pb_SpeedFlight := ct_SpeedFlight c;
  pb_DetectionRange := ct_DetectionRange c; pb_Rank := ct_Rank c; pb_DmgSchool := ct_DmgSchool c; pb_DamageModifier := ct_DamageModifier c;
  pb_BaseAttackTime := ct_BaseAttackTime c; pb_RangeAttackTime := ct_RangeAttackTime c; pb_BaseVariance := ct_BaseVariance c;
  pb_RangeVariance := ct_RangeVariance c; pb_UnitClass := ct_UnitClass c; pb_UnitFlags := ct_UnitFlags c; pb_UnitFlags_2 := ct_UnitFlags2 c;
  pb_DynamicFlags := ct_DynamicFlags c; pb_Family := ct_Family c; pb_Type := ct_Type c; pb_TypeFlags := ct_TypeFlags c; pb_Lootid := ct_LootID c;
  pb_PickpocketLoot := ct_PickpocketLoot c; pb_SkinningLoot := ct_SkinningLoot c; pb_PetSpellDataId := ct_PetSpellDataID c;
  pb_VehicleId := ct_VehicleID c; pb_MinGold := ct_MinGold c; pb_MaxGold := ct_MaxGold c; pb_AiName := ct_AIName c;
  pb_MovementType := ct_MovementType c; pb_HoverHeight := ct_HoverHeight c; pb_HealthModifier := ct_HealthModifier c;
  pb_ManaModifier := ct_ManaModifier c; pb_ArmorModifier := ct_ArmorModifier c; pb_ExperienceModifier := ct_ExperienceModifier c;
  pb_RacialLeader := ct_RacialLeader c; pb_MovementId := ct_MovementID c; pb_RegenHealth := ct_RegenHealth c;
  pb_CreatureImmunitiesId := ct_CreatureImmunitiesID c; pb_FlagsExtra := ct_FlagsExtra c; pb_ScriptName := ct_ScriptName c |}.

Section Server.
Context `{MapRange}.

Abbreviation M A := (go worlddb_state pb_CreatureTemplate worlddb_err A).

Definition Count (rows : list row) : M int := ext ErrQuery ;; mret (len rows).

(** The loop of LoadAll.  When the next row cannot be fetched the loop ends
    and rows.Err() is returned. *)
Fixpoint each_row {Acc} (f : CreatureTemplate -> Acc -> M Acc) (rows : list row) (acc : Acc) : M Acc :=
  match rows with
  | [] => ext ErrRows ;; mret acc
  | r :: rows =>
    ext ErrRows ;;
    ext ErrCtx ;;
    c ← not_nil ErrScan (Scan (r <$> query));
    acc ← f c acc;
    each_row f rows acc
  end.

Definition LoadAll {Acc} (f : CreatureTemplate -> Acc -> M Acc) (rows : list row) (acc : Acc) : M Acc :=
  ext ErrQuery ;; each_row f rows acc.

(** ** The server *)
Definition LoadCreatureTemplates (rows : list row) : M unit :=
  wrap_err ErrCount (Count rows) ;;
  fresh ← wrap_err ErrLoad (LoadAll (fun c fresh => mret (<[ct_Entry c := c]> fresh)) rows ∅);
  modify (fun _ => {| byID := fresh; loaded := true |}).

Fixpoint send_all (snapshot : list CreatureTemplate) : M unit :=
  match snapshot with
  | [] => mret tt
  | c :: snapshot => ext ErrCtx ;; publish ErrSend (creatureTemplateToProto c) ;; send_all snapshot
  end.

Definition GetAllCreatureTemplates : M unit :=
  s ← gets id;
  guard_err (negb (loaded s)) ErrNotLoaded ;;
  send_all (go_range 0 (byID s)).*2.
End Server.

(** ** The stream

    What a gRPC client receives of the messages a handler sent: a beginning
    of them in order, and the end of the stream only when everything arrived
    and the handler returned no error. *)
Class GrpcStream := {
  stream_recv : forall {T : Type}, list T -> bool -> list T * bool;
  stream_recv_prefix : forall {T : Type} (sent : list T) ok, (stream_recv sent ok).1 `prefix_of` sent;
  stream_recv_eof : forall {T : Type} (sent : list T) ok, (stream_recv sent ok).2 = true -> (stream_recv sent ok).1 = sent /\ ok = true
}.

(** A stream that loses nothing, used to evaluate the definitions. *)
Lemma stream_complete_eof {T : Type} (sent : list T) ok : (sent, ok).2 = true -> (sent, ok).1 = sent /\ ok = true.
Proof. done. Qed.
Definition stream_complete : GrpcStream := {|
  stream_recv := fun T sent ok => (sent, ok);
  stream_recv_prefix := fun T sent ok => reflexivity _;
  stream_recv_eof := fun T => stream_complete_eof
|}.

(** ** libsidecar *)
(** C.CString, read back up to the first zero byte. *)
Fixpoint CString (s : string) : string :=
  match s with
  | EmptyString => ""
  | String c s => if Ascii.eqb c zero then "" else String c (CString s)
  end.

Definition c_row (row : pb_CreatureTemplate) : CreatureTemplateRow := {|
  cr_entry := pb_Entry row; cr_difficulty_entry_1 := pb_DifficultyEntry_1 row; cr_difficulty_entry_2 := pb_DifficultyEntry_2 row;
  cr_difficulty_entry_3 := pb_DifficultyEntry_3 row; cr_kill_credit_1 := pb_KillCredit_1 row; cr_kill_credit_2 := pb_KillCredit_2 row;
  cr_name := CString (pb_Name row); cr_sub_name := CString (pb_SubName row); cr_icon_name := CString (pb_IconName row);
  cr_gossip_menu_id := pb_GossipMenuId row; cr_min_level := pb_MinLevel row; cr_max_level := pb_MaxLevel row; cr_exp := pb_Exp row;
  cr_faction := pb_Faction row; cr_npc_flag := pb_NpcFlag row; cr_speed_walk := pb_SpeedWalk row; cr_speed_run := pb_SpeedRun row;
  cr_speed_swim := pb_SpeedSwim row; cr_speed_flight := pb_SpeedFlight row; cr_detection_range := pb_DetectionRange row; cr_rank := pb_Rank row;
  cr_dmg_school := pb_DmgSchool row; cr_damage_modifier := pb_DamageModifier row; cr_base_attack_time := pb_BaseAttackTime row;
  cr_range_attack_time := pb_RangeAttackTime row; cr_base_variance := pb_BaseVariance row; cr_range_variance := pb_RangeVariance row;
  cr_unit_class := pb_UnitClass row; cr_unit_flags := pb_UnitFlags row; cr_unit_flags_2 := pb_UnitFlags_2 row;
  cr_dynamic_flags := pb_DynamicFlags row; cr_family := pb_Family row; cr_type := pb_Type row; cr_type_flags := pb_TypeFlags row;
  cr_lootid := pb_Lootid row; cr_pickpocket_loot := pb_PickpocketLoot row; cr_skinning_loot := pb_SkinningLoot row;
  cr_pet_spell_data_id := pb_PetSpellDataId row; cr_vehicle_id := pb_VehicleId row; cr_min_gold := pb_MinGold row; cr_max_gold := pb_MaxGold row;
  cr_ai_name := CString (pb_AiName row); cr_movement_type := pb_MovementType row; cr_hover_height := pb_HoverHeight row;
  cr_health_modifier := pb_HealthModifier row; cr_mana_modifier := pb_ManaModifier row; cr_armor_modifier := pb_ArmorModifier row;
  cr_experience_modifier := pb_ExperienceModifier row; cr_racial_leader := pb_RacialLeader row; cr_movement_id := pb_MovementId row;
  cr_regen_health := pb_RegenHealth row; cr_creature_immunities_id := pb_CreatureImmunitiesId row; cr_flags_extra := pb_FlagsExtra row;
  cr_script_name := CString (pb_ScriptName row) |}.

(** The registered handler may depend on the rows it was given before. *)
Abbreviation CreatureTemplateRowHandler := (list CreatureTemplateRow -> CreatureTemplateRow -> i32).

Inductive connection := NoConn | OpenConn | ClosedConn.
Record world_db_client := {
  worldDBClient : bool;                            (* not nil *)
  worldDBConn : connection;
  g_creatureTemplateRowHandler : option CreatureTemplateRowHandler
}.
Inductive sidecar_err := ErrDial | ErrRPC.

Section Client.
Abbreviation M A := (go world_db_client CreatureTemplateRow sidecar_err A).

Definition set_client (open : connection) (s : world_db_client) : world_db_client :=
  {| worldDBClient := true; worldDBConn := open; g_creatureTemplateRowHandler := g_creatureTemplateRowHandler s |}.

Definition TC9SetCreatureTemplateRowHandler (h : option CreatureTemplateRowHandler) : M unit :=
  modify (fun s => {| worldDBClient := worldDBClient s; worldDBConn := worldDBConn s; g_creatureTemplateRowHandler := h |}).

(** One call of the handler; the events of a run are the rows it was called with. *)
Definition call_handler (h : CreatureTemplateRowHandler) (r : CreatureTemplateRow) : M i32 := fun s =>
  (Ok (h (events s) r), Sys (st s) (faults s) (events s ++ [r])).

Definition TC9InvokeCreatureTemplateRowHandler (r : CreatureTemplateRow) : M i32 :=
  s ← gets id;
  match g_creatureTemplateRowHandler s with
  | None => mret 0
  | Some h => call_handler h r
  end.

(** [addr] is the environment variable WORLD_DB_SERVICE_ADDRESS. *)
Definition ensureWorldDBClient (addr : string) : M bool :=
  s ← gets id;
  if worldDBClient s then mret true
  else if bool_decide (addr = "") then mret false
  else
    conn ← try_err (ext ErrDial);
    match conn with
    | None => mret false
    | Some _ => modify (set_client OpenConn) ;; mret true
    end.

(** The part of the shutdown that concerns this connection; the client stays. *)
Definition close_worldDB : M unit :=
  modify (fun s => match worldDBConn s with OpenConn => set_client ClosedConn s | _ => s end).

(** C.int of a Go int. *)
Definition C_int (z : int) : i32 := let u := wrap32 z in if u <? 2 ^ 31 then u else u - 2 ^ 32.

(** The loop over the stream: its messages, and whether it ends. *)
Fixpoint recv_rows (rows : list pb_CreatureTemplate) (eof : bool) (count : int) : M i32 :=
  match rows with
  | [] => mret (if eof then C_int count else -1)
  | row :: rows =>
    rc ← TC9InvokeCreatureTemplateRowHandler (c_row row);
    if negb (rc =? 0) then mret (C_int (- rc - 1)) else recv_rows rows eof (count + 1)
  end.

Definition TC9LoadAllCreatureTemplates (addr : string) (stream : list pb_CreatureTemplate * bool) : M i32 :=
  client ← ensureWorldDBClient addr;
  if negb client then mret (-1)
  else
    s ← gets id;
    answer ← (match worldDBConn s with OpenConn => try_err (ext ErrRPC) | _ => mret None end);
    match answer with
    | None => mret (-1)
    | Some _ => recv_rows stream.1 stream.2 0
    end.
End Client.

(** The stream a call to the server in a given state gives. *)
Definition stream_of `{MapRange, GrpcStream} (s : worlddb_state) (fs : list bool) : list pb_CreatureTemplate * bool :=
  let '(o, s') := GetAllCreatureTemplates (Sys s fs []) in
  stream_recv (events s') (match o with Ok _ => true | _ => false end).

(** ** What a row of the table says, by the names of its columns *)
Definition int_of (v : sql_value) : Z := match v with SqlInt z => z | _ => 0 end.
Definition float_of (v : sql_value) : f32 := match v with SqlFloat b => b | _ => 0 end.
Definition text_of (v : sql_value) : string := match v with SqlText s => CString s | _ => "" end.

Definition table_row (r : row) : CreatureTemplateRow := {|
  cr_entry := int_of (r "entry"); cr_difficulty_entry_1 := int_of (r "difficulty_entry_1"); cr_difficulty_entry_2 := int_of (r "difficulty_entry_2");
  cr_difficulty_entry_3 := int_of (r "difficulty_entry_3"); cr_kill_credit_1 := int_of (r "KillCredit1");
  cr_kill_credit_2 := int_of (r "KillCredit2"); cr_name := text_of (r "name"); cr_sub_name := text_of (r "subname");
  cr_icon_name := text_of (r "IconName"); cr_gossip_menu_id := int_of (r "gossip_menu_id"); cr_min_level := int_of (r "minlevel");
  cr_max_level := int_of (r "maxlevel"); cr_exp := int_of (r "exp"); cr_faction := int_of (r "faction"); cr_npc_flag := int_of (r "npcflag");
  cr_speed_walk := float_of (r "speed_walk"); cr_speed_run := float_of (r "speed_run"); cr_speed_swim := float_of (r "speed_swim");
  cr_speed_flight := float_of (r "speed_flight"); cr_detection_range := float_of (r "detection_range"); cr_rank := int_of (r "rank");
  cr_dmg_school := int_of (r "dmgschool"); cr_damage_modifier := float_of (r "DamageModifier"); cr_base_attack_time := int_of (r "BaseAttackTime");
  cr_range_attack_time := int_of (r "RangeAttackTime"); cr_base_variance := float_of (r "BaseVariance");
  cr_range_variance := float_of (r "RangeVariance"); cr_unit_class := int_of (r "unit_class"); cr_unit_flags := int_of (r "unit_flags");
  cr_unit_flags_2 := int_of (r "unit_flags2"); cr_dynamic_flags := int_of (r "dynamicflags"); cr_family := int_of (r "family");
  cr_type := int_of (r "type"); cr_type_flags := int_of (r "type_flags"); cr_lootid := int_of (r "lootid");
  cr_pickpocket_loot := int_of (r "pickpocketloot"); cr_skinning_loot := int_of (r "skinloot"); cr_pet_spell_data_id := int_of (r "PetSpellDataId");
  cr_vehicle_id := int_of (r "VehicleId"); cr_min_gold := int_of (r "mingold"); cr_max_gold := int_of (r "maxgold");
  cr_ai_name := text_of (r "AIName"); cr_movement_type := int_of (r "MovementType"); cr_hover_height := float_of (r "HoverHeight");
  cr_health_modifier := float_of (r "HealthModifier"); cr_mana_modifier := float_of (r "ManaModifier");
  cr_armor_modifier := float_of (r "ArmorModifier"); cr_experience_modifier := float_of (r "ExperienceModifier");
  cr_racial_leader := int_of (r "RacialLeader"); cr_movement_id := int_of (r "movementId"); cr_regen_health := int_of (r "RegenHealth");
  cr_creature_immunities_id := int_of (r "CreatureImmunitiesId"); cr_flags_extra := int_of (r "flags_extra");
  cr_script_name := text_of (r "ScriptName") |}.

(** ** Facts *)
Lemma col_ok {A} (conv : sql_value -> option A) v vs a vs' :
  col conv (v :: vs) = Some (a, vs') -> conv v = Some a /\ vs' = vs.
Proof. unfold col. intros H. by destruct (conv v); simplify_option_eq. Qed.

Lemma to_u32_ok v z : to_u32 v = Some z -> z = int_of v.
Proof. destruct v; simpl; try done. case_match; [by intros [= ->]|done]. Qed.
Lemma to_i32_ok v z : to_i32 v = Some z -> z = int_of v.
Proof. destruct v; simpl; try done. case_match; [by intros [= ->]|done]. Qed.
Lemma to_f32_ok v z : to_f32 v = Some z -> z = float_of v.
Proof. destruct v; simpl; try done. by intros [= ->]. Qed.
Lemma to_string_ok v s : to_string v = Some s -> CString s = text_of v.
Proof. destruct v; simpl; try done. by intros [= ->]. Qed.
Lemma to_NullString_ok v s : to_NullString v = Some s -> CString (ns_String s) = text_of v.
Proof. destruct v; simpl; try done; by intros [= <-]. Qed.

(** One column of a scan. *)
Ltac scan_step H :=
  lazymatch type of H with
  | mbind _ _ = Some _ =>
    let x := fresh "x" in let vs := fresh "vs" in let E := fresh "E" in
    apply bind_Some in H as ([x vs] & [E ->]%col_ok & H)
  end.

(** A message built from a scanned row carries the row's columns, each in its field. *)
Lemma row_carried (r : row) c :
  Scan (r <$> query) = Some c ->
  c_row (creatureTemplateToProto c) = table_row r /\ ct_Entry c = int_of (r "entry").
Proof.
  unfold Scan, query. cbn [fmap list_fmap]. intros H. repeat scan_step H. injection H as <-.
  repeat match goal with
  | E : to_u32 _ = Some _ |- _ => apply to_u32_ok in E; subst
  | E : to_i32 _ = Some _ |- _ => apply to_i32_ok in E; subst
  | E : to_f32 _ = Some _ |- _ => apply to_f32_ok in E; subst
  | E : to_string _ = Some _ |- _ => apply to_string_ok in E
  | E : to_NullString _ = Some _ |- _ => apply to_NullString_ok in E
  end.
  unfold c_row, creatureTemplateToProto, table_row; cbn. split; [|done]. by f_equal.
Qed.

Section Load.
Context `{MapRange}.
Implicit Types s : sys worlddb_state pb_CreatureTemplate.

Definition store (c : CreatureTemplate) (fresh : gmap u32 CreatureTemplate) :
    go worlddb_state pb_CreatureTemplate worlddb_err (gmap u32 CreatureTemplate) :=
  mret (<[ct_Entry c := c]> fresh).

Definition key_of (r : row) : Z := int_of (r "entry").
Definition from_row (r : row) (c : CreatureTemplate) : Prop := Scan (r <$> query) = Some c.

Lemma each_row_ok rows acc s acc' s' :
  each_row store rows acc s = (Ok acc', s') ->
  st s' = st s /\ events s' = events s /\
  (NoDup (key_of <$> rows) -> (forall r, r ∈ rows -> acc !! key_of r = None) ->
   exists cs, Forall2 from_row rows cs /\ (map_to_list acc').*2 ≡ₚ (map_to_list acc).*2 ++ cs).
Proof.
  revert acc s. induction rows as [|r rows IH]; intros acc s; cbn [each_row]; intros Hrun; inv_ok.
  { split_and!; [done..|]. intros _ _. exists []. by rewrite app_nil_r. }
  apply not_nil_ok in Hrun1 as [Hc ->]. unfold store in Hrun2. apply ret_ok in Hrun2 as [-> ->].
  rename a1 into c. destruct (IH _ _ Hrun4) as (Hst1 & Hev1 & Hcs). split_and!; [congruence..|].
  intros Hnd Hnew. cbn [fmap list_fmap] in Hnd. apply NoDup_cons in Hnd as [Hr Hnd].
  destruct (row_carried _ _ Hc) as [_ Hkey].
  destruct (Hcs Hnd) as (cs & Hrows & Hperm).
  { intros r' Hr'. rewrite lookup_insert_ne; [apply Hnew; by right|].
    rewrite Hkey. intros E. apply Hr. apply list_elem_of_fmap. by exists r'. }
  exists (c :: cs). split; [by constructor|]. rewrite Hperm, map_to_list_insert.
  - cbn. by rewrite Permutation_middle.
  - rewrite Hkey. apply Hnew. by left.
Qed.

(** A failed load keeps the store; a load that succeeds leaves the rows of the
    table in it. *)
Lemma load_result rows s o s' :
  LoadCreatureTemplates rows s = (o, s') ->
  match o with
  | Ok _ =>
    loaded (st s') = true /\
    (NoDup (key_of <$> rows) ->
     exists cs, Forall2 from_row rows cs /\ (map_to_list (byID (st s'))).*2 ≡ₚ cs)
  | _ => st s' = st s
  end.
Proof.
  intros Hrun. assert (Hkeeps : triple (fun t => t = st s) (LoadCreatureTemplates rows) (fun _ _ => True) (fun t => t = st s)).
  { unfold LoadCreatureTemplates. apply triple_bind_keeps; [unfold Count; keeps_tac|done|intros _].
    apply triple_bind_keeps; [|done|by intros ??]. apply keeps_wrap_err. apply keeps_bind; [apply keeps_ext|intros _].
    generalize (∅ : gmap u32 CreatureTemplate). clear Hrun. induction rows as [|r rs IH]; intros acc; cbn [each_row]; keeps_tac. }
  specialize (Hkeeps s eq_refl). rewrite Hrun in Hkeeps. destruct o as [u|e|]; [|done..]. clear Hkeeps.
  unfold LoadCreatureTemplates, LoadAll in Hrun. inv_ok. simpl. split; [done|]. intros Hnd.
  match goal with H : each_row _ _ _ _ = _ |- _ => apply each_row_ok in H as (_ & _ & Hcs) end.
  destruct Hcs as (cs & Hrows & Hperm); [done|by intros; apply lookup_empty|].
  exists cs. by rewrite Hperm, map_to_list_empty.
Qed.

(** What is sent is the beginning of the snapshot, all of it when the handler succeeds. *)
Lemma send_all_sent snapshot s o s' :
  send_all snapshot s = (o, s') ->
  exists k, events s' = events s ++ take k (creatureTemplateToProto <$> snapshot) /\
    (run_ok (o, s') -> take k (creatureTemplateToProto <$> snapshot) = creatureTemplateToProto <$> snapshot).
Proof.
  revert s. induction snapshot as [|c l IH]; intros s; cbn [send_all].
  { intros [= <- <-]. exists 0%nat. by rewrite app_nil_r. }
  unfold mbind at 1, go_bind at 1. intros Hrun.
  assert (He : events (ext ErrCtx s : outcome worlddb_err unit * _).2 = events s) by (unfold ext; by destruct (faults s) as [|[] ?]).
  destruct (ext ErrCtx s) as [[u|e|] s1] eqn:E1; simpl in He;
    [|injection Hrun as <- <-; exists 0%nat; rewrite app_nil_r; by split; [|intros (? & [=])]..].
  unfold mbind, go_bind in Hrun. destruct (publish ErrSend _ s1) as [[u2|e|] s2] eqn:E2.
  - apply publish_ok in E2 as [_ Hev]. destruct (IH _ Hrun) as (k & Hk & Hall). exists (S k).
    cbn [fmap list_fmap take]. rewrite Hk, Hev, He, <- app_assoc. split; [done|]. intros Hok. by rewrite Hall at 1.
  - injection Hrun as <- <-. exists 0%nat. rewrite app_nil_r. split; [|by intros (? & [=])].
    unfold publish, ext in E2. destruct (faults s1) as [|[] ?]; by simplify_eq/=.
  - unfold publish, ext in E2. by destruct (faults s1) as [|[] ?].
Qed.
End Load.

Lemma C_int_small z : 0 <= z < 2 ^ 31 -> C_int z = z.
Proof. intros Hz. unfold C_int. rewrite wrap_small by word_lia. destruct (Z.ltb_spec z (2 ^ 31)); [done|lia]. Qed.
Lemma C_int_negative z : - 2 ^ 31 <= z < 0 -> C_int z = z.
Proof.
  intros Hz. unfold C_int. assert (wrap32 z = z + 2 ^ 32) as -> by word_lia.
  destruct (Z.ltb_spec (z + 2 ^ 32) (2 ^ 31)); lia.
Qed.

Section Receive.
Implicit Types c : sys world_db_client CreatureTemplateRow.

(** A handler that reports failures by positive numbers. *)
Definition proper_handler (h : CreatureTemplateRowHandler) : Prop := forall calls r, 0 <= h calls r < 2 ^ 31.

(** The handler is called with the beginning of the stream in order; a count
    is returned only at its end. *)
Lemma recv_rows_run h rows eof count c :
  g_creatureTemplateRowHandler (st c) = Some h -> proper_handler h ->
  exists k n c', recv_rows rows eof count c = (Ok n, c') /\
    events c' = events c ++ take k (c_row <$> rows) /\
    (0 <= n -> eof = true /\ take k (c_row <$> rows) = c_row <$> rows /\ n = C_int (count + len rows)).
Proof.
  intros Hh Hprop. revert count c Hh. induction rows as [|r rows IH]; intros count c Hh; cbn [recv_rows].
  { exists 0%nat. destruct eof; eexists _, _; (split; [done|]; rewrite app_nil_r; split; [done|]); [|lia].
    intros _. split_and!; [done..|]. unfold len. simpl. by rewrite Z.add_0_r. }
  unfold TC9InvokeCreatureTemplateRowHandler, mbind, go_bind, gets, id. rewrite Hh. unfold call_handler.
  pose proof (Hprop (events c) (c_row r)) as Hrc. destruct (Z.eqb_spec (h (events c) (c_row r)) 0) as [->|Hne]; simpl.
  - destruct (IH (count + 1) (Sys (st c) (faults c) (events c ++ [c_row r])) Hh) as (k & n & c' & Hrun & Hev & Hn).
    exists (S k), n, c'. split; [done|]. cbn [take]. rewrite Hev. simpl. rewrite <- app_assoc. split; [done|].
    intros Hpos. destruct (Hn Hpos) as (-> & Ht & ->). split_and!; [done|f_equal; exact Ht|]. unfold len. simpl. f_equal. lia.
  - exists 1%nat. eexists _, _. split_and!; [done..|]. intros Hpos. rewrite C_int_negative in Hpos by lia. lia.
Qed.

Lemma load_all_run h addr stream c :
  g_creatureTemplateRowHandler (st c) = Some h -> proper_handler h ->
  exists k n c', TC9LoadAllCreatureTemplates addr stream c = (Ok n, c') /\
    events c' = events c ++ take k (c_row <$> stream.1) /\
    (0 <= n -> stream.2 = true /\ take k (c_row <$> stream.1) = c_row <$> stream.1 /\ n = C_int (len stream.1)).
Proof.
  intros Hh Hprop. unfold TC9LoadAllCreatureTemplates.
  assert (Hno : forall c', events c' = events c -> exists k n c'', (Ok (-1), c') = (Ok (X:=sidecar_err) n, c'') /\
    events c'' = events c ++ take k (c_row <$> stream.1) /\
    (0 <= n -> stream.2 = true /\ take k (c_row <$> stream.1) = c_row <$> stream.1 /\ n = C_int (len stream.1))).
  { intros c' He. exists 0%nat, (-1), c'. rewrite app_nil_r. split_and!; [done..|lia]. }
  assert (Hens : exists b c1, ensureWorldDBClient addr c = (Ok b, c1) /\ events c1 = events c /\
    g_creatureTemplateRowHandler (st c1) = Some h).
  { unfold ensureWorldDBClient, mbind, go_bind, gets, id, try_err, ext, modify.
    destruct (worldDBClient (st c)); [by eexists _, _|]. case_bool_decide; [by eexists _, _|].
    destruct (faults c) as [|[] fs]; simpl; by eexists _, _. }
  destruct Hens as (b & c1 & E1 & He1 & Hh1). rewrite (bind_run _ _ _ _ _ E1). destruct b; simpl; [|by apply Hno].
  unfold mbind at 1, go_bind at 1, gets, id. unfold mbind, go_bind, try_err, ext.
  assert (Hrecv : forall fs, exists k n c', recv_rows stream.1 stream.2 0 (Sys (st c1) fs (events c1)) = (Ok n, c') /\
    events c' = events c ++ take k (c_row <$> stream.1) /\
    (0 <= n -> stream.2 = true /\ take k (c_row <$> stream.1) = c_row <$> stream.1 /\ n = C_int (len stream.1))).
  { intros fs. rewrite <- He1. by apply (recv_rows_run h _ _ 0 (Sys (st c1) fs (events c1))). }
  destruct (worldDBConn (st c1)); simpl; [by apply Hno| |by apply Hno].
  destruct (faults c1) as [|[] fs] eqn:Ef; simpl; [|by apply Hno|by apply Hrecv].
  destruct c1 as [s1 f1 e1]. simpl in *. subst f1. apply Hrecv.
Qed.
End Receive.

(** What the messages of scanned rows carry is what the rows say. *)
Lemma scanned_rows rows cs :
  Forall2 from_row rows cs -> c_row <$> (creatureTemplateToProto <$> cs) = table_row <$> rows.
Proof. induction 1 as [|r c rows cs Hr _ IH]; [done|]. cbn. rewrite IH. by rewrite (proj1 (row_carried _ _ Hr)). Qed.

Section EndToEnd.
Context `{MapRange, GrpcStream}.

End EndToEnd.

(** ** Evaluations *)
#[local] Existing Instances map_range_canonical stream_complete.

Definition creature (entry : Z) (name : string) : row := fun column =>
  if bool_decide (column = "entry") then SqlInt entry
  else if bool_decide (column ∈ ["name"; "AIName"; "ScriptName"]) then SqlText name
  else if bool_decide (column ∈ ["subname"; "IconName"]) then SqlNull
  else if bool_decide (column ∈ ["speed_walk"; "speed_run"; "speed_swim"; "speed_flight"; "detection_range"; "DamageModifier"; "BaseVariance";
    "RangeVariance"; "HoverHeight"; "HealthModifier"; "ManaModifier"; "ArmorModifier"; "ExperienceModifier"]) then SqlFloat 0x3F800000
  else SqlInt 1.

Definition server0 : sys worlddb_state pb_CreatureTemplate := Sys NewWorldDBServer [] [].
Definition client0 (h : option CreatureTemplateRowHandler) : sys world_db_client CreatureTemplateRow :=
  Sys {| worldDBClient := false; worldDBConn := NoConn; g_creatureTemplateRowHandler := h |} [] [].
Definition two_rows : list row := [creature 1 "Wolf"; creature 7 "Boar"].
Definition loaded_server := (LoadCreatureTemplates two_rows server0).2.


(** A handler that fails with -1 is taken for a table without rows, one that
    fails with -3 for two rows: only positive numbers come back negative. *)
Example negative_rc_is_a_count :
  (TC9LoadAllCreatureTemplates "worlddb:8993" (stream_of (st loaded_server) []) (client0 (Some (fun _ _ => -1)))).1 = Ok 0 /\
  (TC9LoadAllCreatureTemplates "worlddb:8993" (stream_of (st loaded_server) []) (client0 (Some (fun _ _ => -3)))).1 = Ok 2.
Proof. split; vm_compute; reflexivity. Qed.

(** Without a handler the rows count as dispatched. *)
Example no_handler_counts :
  let r := TC9LoadAllCreatureTemplates "worlddb:8993" (stream_of (st loaded_server) []) (client0 None) in r.1 = Ok 2 /\ events r.2 = [].
Proof. split; vm_compute; reflexivity. Qed.

(** A server that has not loaded the table answers with an error: the world
    server does not try again. *)
Example not_loaded_gives_up :
  TC9LoadAllCreatureTemplates "worlddb:8993" (stream_of NewWorldDBServer []) (client0 (Some (fun _ _ => 0)))
  = (Ok (-1), Sys (set_client OpenConn (st (client0 (Some (fun _ _ => 0))))) [] []).
Proof. vm_compute. reflexivity. Qed.
