(* ===== verification/SocialServers.v ===== *)
(** * SocialServers: the requests of the gateways at the guild server and the
    group server
    (apps/guildserver/server/guilds.go, apps/groupserver/server/group.go)

    The handlers of the two gRPC servers, on the requests of [SessionApi]: what
    they ask the services of [Guilds] and [Groups], and what they answer.
    A handler that panics ends the process: the servers install no recovery. *)
From S2P Require Import Prelude GoRuntime GuildCache Guilds GroupCache Groups SessionApi.

(** ** The guild server *)
Module GuildServer.
Import GuildCache Guilds.

Definition Status_number (status : GuildMemberStatus) : u32 :=
  match status with GuildMemberStatusOffline => 0 | GuildMemberStatusOnline => 1 end.

(** GetInfoResponse, with the id the sessions do not read. *)
Record GetInfoResponse := { gir_GuildID : u64; gir_info : GuildInfo }.
Record RosterInfo := { ri_Id : u64; ri_roster : Roster }.

Definition roster_member (m : GuildMember) : RosterMember :=
  {| rm_guid := gm_PlayerGUID m; rm_name := gm_Name m; rm_status := Status_number (gm_Status m); rm_rankID := gm_Rank m; rm_lvl := gm_Lvl m;
     rm_classID := gm_Class m; rm_gender := gm_Gender m; rm_areaID := gm_AreaID m; rm_logoutTime := gm_LogoutTime m;
     rm_note := gm_PublicNote m; rm_officerNote := gm_OfficerNote m |}.
Definition roster_rank (r : GuildRank) : RosterRank :=
  {| rr_id := gr_Rank r; rr_flags := gr_Rights r; rr_goldLimit := gr_MoneyPerDay r |}.

Section Server.
Variable ServiceID : string.

Abbreviation M A := (go guilds_state guild_event guild_err A).

(** An unknown guild is a nil pointer without an error: reading it panics. *)
Definition GetGuildInfo (realmID : u32) (guildID : u64) : M GetInfoResponse :=
  guild ← GuildByRealmAndID realmID guildID;
  p ← deref guild;
  ' (_, g) ← load p;
  let e := g_Emblem g in
  mret {| gir_GuildID := g_ID g;
          gir_info := {| gi_guildName := g_Name g; gi_emblemStyle := Style e; gi_emblemColor := Color e; gi_borderStyle := BorderStyle e;
                         gi_borderColor := BorderColor e; gi_backgroundColor := BackgroundColor e; gi_rankNames := gr_Name <$> g_GuildRanks g |} |}.

Definition GetRosterInfo (realmID : u32) (guildID : u64) : M RosterInfo :=
  guild ← GuildByRealmAndID realmID guildID;
  p ← deref guild;
  ' (h, g) ← load p;
  members ← deref (mapM (fun l => h !! l) (g_GuildMembers g));
  mret {| ri_Id := g_ID g;
          ri_roster := {| ro_welcomeText := g_MessageOfTheDay g; ro_infoText := g_Info g; ro_members := roster_member <$> members;
                          ro_ranks := roster_rank <$> g_GuildRanks g |} |}.

Definition InviteAccepted (realmID : u32) (c : GuildCharacter) : M u64 :=
  Guilds.InviteAccepted ServiceID realmID
    {| CharGUID := gc_guid c; CharName := gc_name c; CharRace := wrap8 (gc_race c); CharClass := wrap8 (gc_classID c);
       CharLvl := wrap8 (gc_lvl c); CharGender := wrap8 (gc_gender c); CharAreaID := gc_areaID c; CharAccount := gc_accountID c |}.

Definition UpdateRank (realmID : u32) (changerGUID : u64) (r : RankRequest) : M unit :=
  UpdateGuildRank ServiceID realmID changerGUID
    {| RankID := wrap8 (rq_rank r); rp_Name := rq_rankName r; rp_Rights := rq_rights r; rp_MoneyPerDay := rq_moneyPerDay r |}.

(** The other handlers hand their parameters on. *)
Definition serve_guild {A} (r : request A) : option (M A) :=
  match r in request A return option (M A) with
  | SessionApi.GetGuildInfo realm id => Some (a ← GetGuildInfo realm id; mret (gir_info a))
  | SessionApi.GetRosterInfo realm id => Some (a ← GetRosterInfo realm id; mret (Some (ri_roster a)))
  | SessionApi.InviteMember realm inviter invitee name => Some (Guilds.InviteMember ServiceID realm inviter invitee name)
  | SessionApi.InviteAccepted realm c => Some (InviteAccepted realm c)
  | GuildLeave realm leaver => Some (Leave ServiceID realm leaver)
  | GuildKick realm kicker target => Some (Kick ServiceID realm kicker target)
  | SessionApi.SetMessageOfTheDay realm changer text => Some (Guilds.SetMessageOfTheDay ServiceID realm changer text)
  | SessionApi.SetGuildInfo realm changer info => Some (Guilds.SetGuildInfo ServiceID realm changer info)
  | SessionApi.SetMemberPublicNote realm changer target note => Some (Guilds.SetMemberPublicNote ServiceID realm changer target note)
  | SessionApi.SetMemberOfficerNote realm changer target note => Some (Guilds.SetMemberOfficerNote ServiceID realm changer target note)
  | SessionApi.UpdateRank realm changer k => Some (UpdateRank realm changer k)
  | AddRank realm changer name => Some (AddGuildRank ServiceID realm changer name)
  | DeleteLastRank realm changer => Some (DeleteLastGuildRank ServiceID realm changer)
  | SessionApi.PromoteMember realm changer target => Some (Guilds.PromoteMember ServiceID realm changer target)
  | SessionApi.DemoteMember realm changer target => Some (Guilds.DemoteMember ServiceID realm changer target)
  | SessionApi.SendGuildMessage realm sender lang text officers => Some (Guilds.SendGuildMessage ServiceID realm sender text lang officers)
  | _ => None
  end.
End Server.
End GuildServer.

(** ** The group server *)
Module GroupServer.
Import GroupCache Groups.

(** errors.Is *)
Fixpoint errors_is (target : group_err -> bool) (e : group_err) : bool :=
  target e || match e with ErrWrap e => errors_is target e | _ => false end.
Definition is_invite_not_found (e : group_err) : bool := match e with ErrInviteNotFound => true | _ => false end.
Definition is_in_dungeon_or_raid (e : group_err) : bool := match e with ErrMemberInDungeonOrRaid => true | _ => false end.

(** GetGroupResponse.Group, with the looter the sessions do not read. *)
Record GroupAnswer := { ga_group : SessionGroup; ga_looter : u64 }.

(** Roles is filled with the subgroup. *)
Definition group_member (m : GroupMember) : SessionGroupMember :=
  {| gm_guid := gm_MemberGUID m; gm_flags := gm_MemberFlags m; gm_name := gm_MemberName m; gm_isOnline := gm_IsOnline m;
     gm_subGroup := gm_SubGroup m; gm_roles := gm_SubGroup m |}.

Section Server.
Context `{SliceGrow}.
Variable ServiceID : string.
Variable ShortOnline : u32 -> list u64 -> list int.    (* the characters service *)

Abbreviation M A := (go groups_state group_event group_err A).

Definition getGroupResponse (p : nat) : M GroupAnswer :=
  g ← load_group p; s ← state;
  mret {| ga_group :=
            {| gr_id := wrap32 (g_ID g); gr_leader := g_LeaderGUID g; gr_lootMethod := g_LootMethod g; gr_lootThreshold := g_LootThreshold g;
               gr_groupType := g_GroupType g; gr_difficulty := g_Difficulty g; gr_raidDifficulty := g_RaidDifficulty g;
               gr_masterLooter := g_MasterLooterGuid g; gr_targetIconsList := g_TargetIcons g; gr_members := group_member <$> members_of s g |};
          ga_looter := g_LooterGUID g |}.

Definition answer_group (group : option nat) : M (option GroupAnswer) :=
  match group with
  | None => mret None
  | Some p => a ← getGroupResponse p; mret (Some a)
  end.

Definition GetGroup (realmID groupID : u32) : M (option GroupAnswer) :=
  group ← GroupByID realmID groupID;
  answer_group group.

Definition GetGroupByMember (realmID : u32) (player : u64) : M (option GroupAnswer) :=
  group ← GroupByMemberGUID realmID player;
  answer_group group.

Definition GetGroupIDByPlayer (realmID : u32) (player : u64) : M u32 :=
  groupID ← GroupIDByPlayer realmID player;
  mret (wrap32 groupID).

(** An error of a certain kind is an answer of its own. *)
Definition status_of (kind : group_err -> bool) (m : M unit) : M Z := fun s =>
  match m s with
  | (Ok _, s') => (Ok 0, s')
  | (Fail e, s') => if errors_is kind e then (Ok 1, s') else (Fail e, s')
  | (Panic, s') => (Panic, s')
  end.
Definition done_status (m : M unit) : M Z := m ;; mret 0.

Definition AcceptInvite (realmID : u32) (player : u64) : M Z :=
  status_of is_invite_not_found (Groups.AcceptInvite ServiceID realmID player).
Definition SetDungeonDifficulty (realmID : u32) (playerGUID : u64) (difficulty : u32) : M Z :=
  status_of is_in_dungeon_or_raid (Groups.SetDungeonDifficulty ServiceID ShortOnline realmID playerGUID (wrap8 difficulty)).
Definition SetRaidDifficulty (realmID : u32) (playerGUID : u64) (difficulty : u32) : M Z :=
  status_of is_in_dungeon_or_raid (Groups.SetRaidDifficulty ServiceID ShortOnline realmID playerGUID (wrap8 difficulty)).

Definition serve_group {A} (r : request A) : option (M A) :=
  match r in request A return option (M A) with
  | SessionApi.GetGroup realm id => Some (a ← GetGroup realm id; mret (ga_group <$> a))
  | SessionApi.GetGroupByMember realm player => Some (a ← GetGroupByMember realm player; mret (ga_group <$> a))
  | SessionApi.GetGroupIDByPlayer realm player => Some (GetGroupIDByPlayer realm player)
  | SessionApi.GroupInvite realm inviter invited inviterName invitedName =>
      Some (done_status (Invite ServiceID realm inviter invited inviterName invitedName))
  | SessionApi.AcceptInvite realm player => Some (AcceptInvite realm player)
  | GroupUninvite realm initiator target _ => Some (done_status (Uninvite ServiceID realm initiator target))
  | GroupLeave realm player => Some (Leave ServiceID realm player)
  | SessionApi.ConvertToRaid realm player => Some (Groups.ConvertToRaid ServiceID realm player)
  | SessionApi.ChangeLeader realm player newLeader => Some (Groups.ChangeLeader ServiceID realm player newLeader)
  | SendGroupMessage realm sender lang text ty => Some (SendMessage ServiceID realm sender text lang (wrap8 ty))
  | SetGroupTargetIcon realm setter icon target => Some (SetTargetIcon ServiceID realm setter (wrap8 icon) target)
  | SessionApi.SetLootMethod realm player method master threshold =>
      Some (Groups.SetLootMethod ServiceID realm player (wrap8 method) master (wrap8 threshold))
  | SessionApi.SetDungeonDifficulty realm player difficulty => Some (SetDungeonDifficulty realm player difficulty)
  | SessionApi.SetRaidDifficulty realm player difficulty => Some (SetRaidDifficulty realm player difficulty)
  | _ => None
  end.
End Server.
End GroupServer.

(** ** Who may change the guild of whom *)
Module GuildFacts.
Import GuildCache Guilds.
Section Facts.
Variable ServiceID : string.
Abbreviation M A := (go guilds_state guild_event guild_err A).
Implicit Types s : sys guilds_state guild_event.

(** The guild of a player, 0 without one, and the rank he has in it. *)
Definition guild_of (c : guilds_state) (realm : u32) (u : u64) : u64 :=
  match member_at c realm u with Some l => from_option gm_GuildID 0 (heap c !! l) | None => 0 end.
Definition rank_of (c : guilds_state) (realm : u32) (u : u64) : option GuildRank :=
  l ← member_at c realm u;
  m ← heap c !! l;
  g ← guild_at c realm (gm_GuildID m);
  rankWithID g (gm_Rank m).

(** What holds at the end of every run holds of its last state. *)
Lemma triple_use {A} P Q (m : M A) s : triple P m (fun _ => Q) Q -> P (st s) -> Q (st (m s).2).
Proof. intros Hm Hs. specialize (Hm s Hs). by destruct (m s) as [[?|?|] ?]. Qed.

Lemma Forall2_in_l {X Y} (R : X -> Y -> Prop) l k x : Forall2 R l k -> x ∈ l -> exists y, y ∈ k /\ R x y.
Proof.
  intros Hf [i Hi]%list_elem_of_lookup. destruct (Forall2_lookup_l _ _ _ _ _ Hf Hi) as (y & Hy & Hr).
  exists y. split; [by eapply list_elem_of_lookup_2|done].
Qed.
Lemma Forall2_in_r {X Y} (R : X -> Y -> Prop) l k y : Forall2 R l k -> y ∈ k -> exists x, x ∈ l /\ R x y.
Proof. intros Hf%Forall2_flip Hy. by destruct (Forall2_in_l _ _ _ _ Hf Hy) as (x & ? & ?); exists x. Qed.

(** *** Operations that move nobody *)
Definition stays (c0 c : guilds_state) : Prop := forall realm u, guild_of c realm u = guild_of c0 realm u.

Lemma stays_refl c : stays c c.
Proof. done. Qed.

Lemma guild_of_update_member c l f realm u :
  (forall m, gm_GuildID (f m) = gm_GuildID m) -> guild_of (update_member l f c) realm u = guild_of c realm u.
Proof.
  intros Hf. unfold guild_of. change (member_at (update_member l f c)) with (member_at c).
  destruct (member_at c realm u) as [l'|]; [|done]. simpl. rewrite lookup_alter. case_decide; [subst|done].
  destruct (heap c !! l'); simpl; [by rewrite Hf|done].
Qed.

Lemma keeps_stays_member c0 r u f :
  (forall m, gm_GuildID (f m) = gm_GuildID m) -> keeps (stays c0) (cached_member_update r u f : M unit).
Proof.
  intros Hf. apply keeps_modify. intros c Hc realm v. destruct (member_at c r u); [|done]. by rewrite guild_of_update_member.
Qed.
Lemma keeps_stays_guild c0 r i f : keeps (stays c0) (cached_guild_update r i f : M unit).
Proof. apply keeps_bind; [apply keeps_db|intros _]. by apply keeps_modify. Qed.
Lemma keeps_stays_note c0 r u n : keeps (stays c0) (SetMemberPublicNote_repo r u n : M unit).
Proof. apply keeps_bind; [apply keeps_db|intros _]. by apply keeps_stays_member. Qed.
Lemma keeps_stays_officer_note c0 r u n : keeps (stays c0) (SetMemberOfficerNote_repo r u n : M unit).
Proof. apply keeps_bind; [apply keeps_db|intros _]. by apply keeps_stays_member. Qed.
Lemma keeps_stays_rank c0 r u n : keeps (stays c0) (SetMemberRank_repo r u n : M unit).
Proof. apply keeps_bind; [apply keeps_db|intros _]. by apply keeps_stays_member. Qed.
Lemma keeps_stays_invite c0 r u i : keeps (stays c0) (AddGuildInvite r u i : M unit).
Proof. apply keeps_bind; [apply keeps_db|intros _]. by apply keeps_modify. Qed.
Lemma keeps_stays_motd c0 r i t : keeps (stays c0) (SetMessageOfTheDay_repo r i t : M unit).
Proof. apply keeps_stays_guild. Qed.
Lemma keeps_stays_info c0 r i t : keeps (stays c0) (SetGuildInfo_repo r i t : M unit).
Proof. apply keeps_stays_guild. Qed.
Lemma keeps_stays_update_rank c0 r i k : keeps (stays c0) (UpdateGuildRank_repo r i k : M unit).
Proof. apply keeps_stays_guild. Qed.
Lemma keeps_stays_add_rank c0 r i k : keeps (stays c0) (AddGuildRank_repo r i k : M unit).
Proof. apply keeps_stays_guild. Qed.
Lemma keeps_stays_delete_rank c0 r i k : keeps (stays c0) (DeleteLowestGuildRank r i k : M unit).
Proof. apply keeps_stays_guild. Qed.
#[local] Hint Resolve keeps_stays_note keeps_stays_officer_note keeps_stays_rank keeps_stays_invite keeps_stays_motd keeps_stays_info
  keeps_stays_update_rank keeps_stays_add_rank keeps_stays_delete_rank
  keeps_load keeps_load_member keeps_guildByMemberGUID keeps_emit : keeps.

(** *** Removing a member *)
Lemma guild_of_removed c realm u m r v :
  guild_of (member_removed realm u m c) r v = if decide (r = realm /\ v = u) then 0 else guild_of c r v.
Proof. unfold guild_of. rewrite member_at_removed. by case_decide. Qed.

Lemma RemoveGuildMember_effect s realm u l m :
  guilds_ok (st s) -> member_at (st s) realm u = Some l -> heap (st s) !! l = Some m ->
  triple (fun c => c = st s) (RemoveGuildMember realm u : M unit)
    (fun _ c => c = member_removed realm u m (st s)) (fun c => c = st s).
Proof.
  intros Hok Hat Hh. unfold RemoveGuildMember. apply triple_bind_keeps; [apply keeps_db|done|intros _].
  intros s1 Hs1. unfold mbind, go_bind, gets, id. rewrite Hs1, Hat. unfold modify. simpl. rewrite Hs1, Hh. simpl.
  destruct (ok_member _ Hok _ _ _ Hat) as (m' & g & ? & _ & Hg & _). simplify_eq.
  change (guild_at (set_members _ _) ?a ?b) with (guild_at (st s) a b). rewrite Hg. done.
Qed.

Lemma rank_of_member c realm u l m g :
  guilds_ok c -> member_at c realm u = Some l -> heap c !! l = Some m -> guild_at c realm (gm_GuildID m) = Some g ->
  rankForMember (heap c) g u = rank_of c realm u /\ guild_of c realm u = gm_GuildID m.
Proof.
  intros Hok Hat Hh Hg. unfold rankForMember, rank_of, guild_of.
  rewrite (member_lookup _ _ _ _ _ _ Hok Hat Hh Hg), Hat. simpl. rewrite Hh. simpl. by rewrite Hg.
Qed.

(** What an order may do to the membership of [u]. *)
Definition expels (c0 : guilds_state) (realm : u32) (u : u64) (c : guilds_state) : Prop :=
  forall r v, guild_of c r v <> guild_of c0 r v -> r = realm /\ v = u /\ guild_of c r v = 0.

Lemma expels_removed c0 realm u m : expels c0 realm u (member_removed realm u m c0).
Proof.
  intros r v Hne. rewrite guild_of_removed in Hne |- *. case_decide as E; [|done]. destruct E as [-> ->]. done.
Qed.
(** A run that left everything alone, or had the right to move [u]. *)
Definition effect (c0 : guilds_state) (right : Prop) (realm : u32) (u : u64) (c : guilds_state) : Prop :=
  c = c0 \/ (right /\ expels c0 realm u c).

Definition may_leave (c : guilds_state) (realm : u32) (u : u64) : Prop :=
  exists k, rank_of c realm u = Some k /\ gr_Rank k <> GuildRankGuildMaster.
Definition may_kick (c : guilds_state) (realm : u32) (a u : u64) : Prop :=
  exists ka ku, rank_of c realm a = Some ka /\ rank_of c realm u = Some ku /\ guild_of c realm a = guild_of c realm u /\
    HasRight ka RightRemove = true /\ gr_Rank ka < gr_Rank ku.

Lemma removal_effect {A} s realm u l m (k : unit -> M A) :
  guilds_ok (st s) -> member_at (st s) realm u = Some l -> heap (st s) !! l = Some m ->
  (forall a I, keeps I (k a)) ->
  forall right, right -> effect (st s) right realm u (st ((RemoveGuildMember realm u ≫= k) s).2).
Proof.
  intros Hok Hat Hh Hk right Hright.
  apply (triple_use (fun c => c = st s)); [|done]. eapply triple_bind.
  - eapply triple_conseq; [exact (RemoveGuildMember_effect s realm u l m Hok Hat Hh)|done| |by left].
    intros a c Hc. exact Hc.
  - intros a. eapply triple_conseq; [apply (Hk a (fun c => c = member_removed realm u m (st s)))|done|intros ? c ->|intros c ->];
      (right; split; [done|apply expels_removed]).
Qed.

Lemma Leave_effect s realm u :
  guilds_ok (st s) ->
  effect (st s) (may_leave (st s) realm u) realm u (st (Leave ServiceID realm u s).2).
Proof.
  intros Hok. unfold Leave. unfold mbind at 1, go_bind at 1.
  destruct (guildByMember_cases s realm u Hok) as [-> | (l & m & g & Hat & Hh & Hg & ->)]; [by left|].
  destruct (rank_of_member _ _ _ _ _ _ Hok Hat Hh Hg) as [Hrank _].
  unfold mbind at 1, go_bind at 1. cbn [not_nil]. unfold mret at 1, go_ret at 1.
  unfold mbind at 1, go_bind at 1. rewrite (load_run _ _ g) by exact Hg.
  unfold mbind at 1, go_bind at 1.
  destruct (rankForMember (heap (st s)) g u) as [k|] eqn:Hk; [|by left]. cbn [deref]. unfold mret at 1, go_ret at 1.
  unfold mbind at 1, go_bind at 1. destruct (Z.eqb_spec (gr_Rank k) GuildRankGuildMaster) as [|Hne]; [by left|].
  cbn [guard_err]. unfold mret at 1, go_ret at 1.
  refine (removal_effect s realm u l m _ Hok Hat Hh _ _ _); [intros x I; keeps_tac|].
  exists k. by rewrite <- Hrank.
Qed.

Lemma Kick_effect s realm a u :
  guilds_ok (st s) ->
  effect (st s) (may_kick (st s) realm a u) realm u (st (Kick ServiceID realm a u s).2).
Proof.
  intros Hok. unfold Kick. unfold mbind at 1, go_bind at 1.
  destruct (guildByMember_cases s realm a Hok) as [-> | (l & m & g & Hat & Hh & Hg & ->)]; [by left|].
  destruct (rank_of_member _ _ _ _ _ _ Hok Hat Hh Hg) as [Hrank Hguild].
  unfold mbind at 1, go_bind at 1. cbn [not_nil]. unfold mret at 1, go_ret at 1.
  unfold mbind at 1, go_bind at 1.
  destruct (GuildIDByRealmAndMemberGUID realm u s) as [[gid|e|] s1] eqn:Eid.
  2, 3: left; pose proof (keeps_GuildIDByRealmAndMemberGUID (fun c => c = st s) realm u s eq_refl) as Hs; by rewrite Eid in Hs.
  apply guildID_ok in Eid as [-> Hid].
  unfold mbind at 1, go_bind at 1. rewrite (load_run _ _ g) by exact Hg.
  unfold mbind at 1, go_bind at 1. destruct (Z.eqb_spec (g_ID g) gid) as [E|]; [|by left]. cbn [negb guard_err].
  unfold mret at 1, go_ret at 1. destruct (ok_guild _ Hok _ _ _ Hg) as ([Hgid Hz] & _).
  destruct Hid as [->|(lu & mu & Hatu & Hhu & Hmu)]; [congruence|].
  assert (Hgu : guild_at (st s) realm (gm_GuildID mu) = Some g) by (rewrite Hmu, <- E, Hgid; exact Hg).
  destruct (rank_of_member _ _ _ _ _ _ Hok Hatu Hhu Hgu) as [Hranku Hguildu].
  unfold mbind at 1, go_bind at 1.
  destruct (rankForMember (heap (st s)) g a) as [ka|] eqn:Hka; [|by left]. cbn [deref]. unfold mret at 1, go_ret at 1.
  unfold mbind at 1, go_bind at 1. destruct (HasRight ka RightRemove) eqn:Hright; [|by left]. cbn [negb guard_err].
  unfold mret at 1, go_ret at 1. unfold mbind at 1, go_bind at 1.
  destruct (rankForMember (heap (st s)) g u) as [ku|] eqn:Hku; [|by left]. cbn [deref]. unfold mret at 1, go_ret at 1.
  unfold mbind at 1, go_bind at 1. destruct (Z.leb_spec (gr_Rank ku) (gr_Rank ka)) as [|Hlt]; [by left|].
  cbn [guard_err]. unfold mret at 1, go_ret at 1.
  refine (removal_effect s realm u lu mu _ Hok Hatu Hhu _ _ _); [intros x I; keeps_tac|].
  exists ka, ku. split_and!; [by rewrite <- Hrank|by rewrite <- Hranku|congruence|done|done].
Qed.

(** *** Adding a member *)
Definition joins (c0 : guilds_state) (realm : u32) (u : u64) (c : guilds_state) : Prop :=
  forall r v, guild_of c r v <> guild_of c0 r v ->
    r = realm /\ v = u /\ guild_of c0 r v = 0 /\ guild_invites c0 !! (r, v) = Some (guild_of c r v).

Lemma joins_stays c0 realm u c : stays c0 c -> joins c0 realm u c.
Proof. intros Hc r v Hne. by destruct Hne. Qed.

Lemma guild_of_added c realm ms m r v :
  guilds_ok c -> guildMembersCache c !! realm = Some ms ->
  guild_of (member_added realm ms m c) r v = if decide (r = realm /\ v = gm_PlayerGUID m) then gm_GuildID m else guild_of c r v.
Proof.
  intros Hok Hms. unfold guild_of. rewrite (member_at_added _ ms) by done.
  change (heap (member_added realm ms m c)) with (<[next_loc c := m]> (heap c)).
  case_decide; [by rewrite lookup_insert_eq|]. destruct (member_at c r v) as [l|] eqn:Hat; [|done].
  destruct (ok_member _ Hok _ _ _ Hat) as (m' & _ & Hh & _). pose proof (ok_fresh _ Hok _ _ Hh).
  rewrite lookup_insert_ne by lia. done.
Qed.

(** The state once the invitation is taken out of its table. *)
Definition invited (c0 : guilds_state) (realm : u32) (u gid : u64) (c : guilds_state) : Prop :=
  guild_invites c0 !! (realm, u) = Some gid /\ exists invites, c = set_invites c0 invites.

Lemma AddGuildMember_joins s realm m :
  guilds_ok (st s) ->
  triple (invited (st s) realm (gm_PlayerGUID m) (gm_GuildID m)) (AddGuildMember realm m : M unit)
    (fun _ => joins (st s) realm (gm_PlayerGUID m)) (joins (st s) realm (gm_PlayerGUID m)).
Proof.
  intros Hok. unfold AddGuildMember.
  assert (Hin : forall c, invited (st s) realm (gm_PlayerGUID m) (gm_GuildID m) c -> joins (st s) realm (gm_PlayerGUID m) c).
  { intros c (_ & invites & ->). by apply joins_stays. }
  apply triple_bind_keeps; [apply keeps_db|done|intros _]. intros s1 (Hinv & invites & Hs1).
  unfold mbind, go_bind, gets, id. rewrite Hs1. simpl.
  destruct (guildMembersCache (st s) !! realm) as [ms|] eqn:Hms; simpl; [|by rewrite Hs1; apply joins_stays].
  rewrite Hs1. assert (Hfresh : guild_of (st s) realm (gm_PlayerGUID m) = 0).
  { unfold guild_of. by rewrite (ok_invites _ Hok _ _ _ Hinv). }
  assert (Hadded : forall c, (forall r v, guild_of c r v = guild_of (member_added realm ms m (st s)) r v) ->
    joins (st s) realm (gm_PlayerGUID m) c).
  { intros c Hc r v. rewrite Hc, guild_of_added by done. case_decide as E; [|done]. destruct E as [-> ->]. by rewrite Hinv. }
  unfold modify. simpl. destruct (guild_at _ realm (gm_GuildID m)) as [g|]; simpl; by apply Hadded.
Qed.

Lemma InviteAccepted_joins s realm p :
  guilds_ok (st s) ->
  triple (fun c => c = st s) (Guilds.InviteAccepted ServiceID realm p)
    (fun _ => joins (st s) realm (CharGUID p)) (joins (st s) realm (CharGUID p)).
Proof.
  intros Hok. set (u := CharGUID p). assert (Hsame : joins (st s) realm u (st s)) by by apply joins_stays.
  unfold Guilds.InviteAccepted.
  apply (triple_bind _ (fun gid c => c = st s /\ guild_invites (st s) !! (realm, u) = Some gid)).
  { intros s1 Hs1. unfold GuildIDByCharInvite, db, mbind, go_bind, ext, gets. fold u.
    destruct (faults s1) as [|[] fs]; simpl; rewrite Hs1; [|done|];
      (destruct (guild_invites (st s) !! (realm, u)); simpl; by rewrite ?Hs1). }
  intros gid. apply triple_bind_keeps; [auto with keeps|by intros ? [-> _]|intros _].
  do 2 (apply triple_bind_keeps; [auto with keeps|by intros ? [-> _]|intros]).
  apply (triple_bind _ (fun _ => invited (st s) realm u gid)).
  { intros s1 [Hs1 Hinv]. unfold RemoveGuildInviteForCharacter, db, mbind, go_bind, ext, modify. fold u.
    destruct (faults s1) as [|[] fs]; simpl; rewrite Hs1; [by split; [|eexists]|done|by split; [|eexists]]. }
  intros _. apply triple_bind_keeps; [auto with keeps|by intros ? (_ & ? & ->)|intros [h g]].
  eapply triple_bind; [apply (AddGuildMember_joins s realm
    {| gm_GuildID := gid; gm_PlayerGUID := u; gm_Rank := _; gm_PublicNote := _; gm_OfficerNote := _; gm_Name := _; gm_Race := _; gm_Class := _;
       gm_Lvl := _; gm_Gender := _; gm_AreaID := _; gm_Account := _; gm_LogoutTime := _; gm_Status := _ |} Hok)|].
  intros []. refine (_ : keeps (joins (st s) realm u) _). keeps_tac.
Qed.

(** *** All requests *)
Definition moves {A} (r : request A) : bool :=
  match r with SessionApi.InviteAccepted _ _ | GuildLeave _ _ | GuildKick _ _ _ => true | _ => false end.

Lemma other_requests_stay {A} (r : request A) m c0 :
  GuildServer.serve_guild ServiceID r = Some m -> moves r = false -> keeps (stays c0) m.
Proof.
  intros Hm Hr. destruct r; try discriminate; injection Hm as <-;
    unfold GuildServer.GetGuildInfo, GuildServer.GetRosterInfo, GuildServer.UpdateRank, Guilds.InviteMember,
      Guilds.SetMessageOfTheDay, Guilds.SetGuildInfo, Guilds.SetMemberPublicNote, Guilds.SetMemberOfficerNote, UpdateGuildRank,
      AddGuildRank, DeleteLastGuildRank, Guilds.PromoteMember, Guilds.DemoteMember, updateRank, Guilds.SendGuildMessage; keeps_tac.
Qed.

(** C10: a request of a gateway moves at most one player from or into a guild,
    and only as it may: into the guild that invited him when he himself
    accepts, out of his guild when he himself leaves and is not its master, or
    when a member of the same guild with the right to remove and a higher rank
    expels him.  Whatever fails in between, nobody else's guild changes. *)
Theorem guild_membership_authorised {A} (r : request A) m s realm u :
  GuildServer.serve_guild ServiceID r = Some m -> guilds_ok (st s) ->
  let before := guild_of (st s) realm u in
  let after := guild_of (st (m s).2) realm u in
  after <> before ->
  exists a, actor r = Some a /\
    ((a = u /\ before = 0 /\ guild_invites (st s) !! (realm, u) = Some after) \/
     (after = 0 /\ a = u /\ may_leave (st s) realm u) \/
     (after = 0 /\ may_kick (st s) realm a u)) /\
    (forall realm' u', guild_of (st (m s).2) realm' u' <> guild_of (st s) realm' u' -> realm' = realm /\ u' = u).
Proof.
  intros Hm Hok before after Hne.
  assert (Hmoves : moves r = true).
  { apply not_false_is_true. intros Hr. apply Hne.
    exact (keeps_use _ m s (other_requests_stay r m (st s) Hm Hr) (stays_refl _) realm u). }
  destruct r; try discriminate Hmoves; injection Hm as <-; simpl.
  - assert (joins (st s) realmID (gc_guid c) (st (GuildServer.InviteAccepted ServiceID realmID c s).2)) as Hjoin
      by (eapply triple_use; [apply InviteAccepted_joins|]; done).
    destruct (Hjoin realm u Hne) as (-> & -> & Hz & Hinv). eexists. split; [done|]. split; [left; by split_and!|].
    intros r' v' (-> & -> & _)%Hjoin. done.
  - destruct (Leave_effect s realmID leaver Hok) as [E|[Hmay Hex]]; [unfold after in Hne; by rewrite E in Hne|].
    destruct (Hex realm u Hne) as (-> & -> & Hz). eexists. split; [done|]. split; [right; left; by split_and!|].
    intros r' v' (-> & -> & _)%Hex. done.
  - destruct (Kick_effect s realmID kicker target Hok) as [E|[Hmay Hex]]; [unfold after in Hne; by rewrite E in Hne|].
    destruct (Hex realm u Hne) as (-> & -> & Hz). eexists. split; [done|]. split; [right; right; by split_and!|].
    intros r' v' (-> & -> & _)%Hex. done.
Qed.

(** The roster of a guild lists exactly the players whose guild it is, each once. *)
Theorem roster_exact s realm id g :
  guilds_ok (st s) -> guild_at (st s) realm id = Some g ->
  exists a, GuildServer.GetRosterInfo realm id s = (Ok a, s) /\ GuildServer.ri_Id a = id /\
    NoDup (rm_guid <$> ro_members (GuildServer.ri_roster a)) /\
    forall u, u ∈ rm_guid <$> ro_members (GuildServer.ri_roster a) <-> guild_of (st s) realm u = id.
Proof.
  intros Hok Hg. destruct (ok_guild _ Hok _ _ _ Hg) as ([Hid Hz] & Hnd & Hall).
  assert (exists ms, mapM (fun l => heap (st s) !! l) (g_GuildMembers g) = Some ms) as [ms Hms].
  { apply mapM_is_Some_2, Forall_forall. intros l Hl. destruct (Hall l Hl) as (m & Hh & _). by exists m. }
  pose proof Hms as Hfor%mapM_Some.
  assert (Hguids : member_at (st s) realm <$> (gm_PlayerGUID <$> ms) = Some <$> g_GuildMembers g).
  { clear Hms Hnd Hg. induction Hfor as [|l m ls ms Hl _ IH]; [done|]. cbn.
    destruct (Hall l) as (m' & Hh & _ & Hat); [left|]. simplify_eq. rewrite Hat. f_equal. apply IH. intros l' Hl'. apply Hall. by right. }
  unfold GuildServer.GetRosterInfo. rewrite (bind_run _ _ _ _ _ (guildByID_run _ _ _ _ Hg)). cbn [deref].
  rewrite (bind_run (mret (realm, id)) _ s (realm, id) s eq_refl).
  rewrite (bind_run _ _ _ _ _ (load_run s (realm, id) g Hg)). rewrite Hms. cbn [deref].
  eexists. split; [reflexivity|]. simpl. split; [done|].
  assert (rm_guid <$> (GuildServer.roster_member <$> ms) = gm_PlayerGUID <$> ms) as -> by by rewrite <- list_fmap_compose.
  split.
  - apply (NoDup_fmap_1 (member_at (st s) realm)). rewrite Hguids. by apply NoDup_fmap_2; [apply _|].
  - intros u. rewrite list_elem_of_fmap. unfold guild_of. split.
    + intros (m & -> & Hin). destruct (Forall2_in_r _ _ _ _ Hfor Hin) as (l & Hl & Hh).
      destruct (Hall l Hl) as (m' & Hh' & Hmid & Hat). simplify_eq. rewrite Hat. simpl. by rewrite Hh.
    + destruct (member_at (st s) realm u) as [l|] eqn:Hat; [|done].
      destruct (ok_member _ Hok _ _ _ Hat) as (m & g' & Hh & Hp & Hg' & Hl). rewrite Hh. simpl. intros E. rewrite E in Hg'. simplify_eq.
      destruct (Forall2_in_l _ _ _ _ Hfor Hl) as (x & Hx & Hhx).
      assert (x = m) as -> by congruence. by exists m.
Qed.
End Facts.
End GuildFacts.

(** ** What the group server answers *)
Module GroupFacts.
Import GroupCache Groups.
Section Facts.
Context `{SliceGrow}.
Implicit Types s : sys groups_state group_event.

(** A member who asks for his group gets the group as the server keeps it,
    with all its members in their order. *)
Theorem group_answer_exact s realm p g ms m :
  view (st s) realm p g ms -> m ∈ ms ->
  exists a, GroupServer.GetGroupByMember realm (gm_MemberGUID m) s = (Ok (Some a), s) /\
    gr_id (GroupServer.ga_group a) = wrap32 (g_ID g) /\ gr_leader (GroupServer.ga_group a) = g_LeaderGUID g /\
    gr_members (GroupServer.ga_group a) = GroupServer.group_member <$> ms /\
    gr_targetIconsList (GroupServer.ga_group a) = g_TargetIcons g.
Proof.
  intros Hv Hm. destruct (v_ptrs _ _ _ _ _ Hv m Hm) as (ptr & x & Hptr & Hread & Hx).
  unfold GroupServer.GetGroupByMember, GroupByMemberGUID, GroupIDByPlayer, groupMemberByGUID, GroupByID, idx.
  pose proof (v_realm _ _ _ _ _ Hv). destruct (Z.leb_spec MaxRealmID realm) as [|_]; [lia|].
  unfold mbind, go_bind, mret, go_ret, gets, id. rewrite Hptr. simpl. rewrite Hread. simpl. rewrite Hx, (v_cached _ _ _ _ _ Hv).
  unfold GroupServer.answer_group, GroupServer.getGroupResponse, load_group, state, mbind, go_bind, mret, go_ret, gets, id. simpl.
  rewrite (v_obj _ _ _ _ _ Hv). simpl. eexists. split; [reflexivity|]. simpl. by rewrite (v_members _ _ _ _ _ Hv).
Qed.
End Facts.

#[local] Existing Instance slice_grow_double.

(** The roles of a member are answered as his subgroup: an assistant of the
    leader is an ordinary member for the client. *)
Definition assistant : GroupMember :=
  {| gm_GroupID := 7; gm_MemberGUID := 11; gm_MemberFlags := 0; gm_MemberName := ""; gm_IsOnline := true; gm_SubGroup := 0; gm_Roles := 1 |}.
Example roles_are_subgroups :
  let s := Sys (sample_state [sample_member 10; assistant]) [] [] in
  (a ← GroupServer.GetGroupByMember 1 11; mret ((fun a => gm_roles <$> gr_members (GroupServer.ga_group a)) <$> a)) s = (Ok (Some [0; 0]), s).
Proof. vm_compute. reflexivity. Qed.

(** Accepting without an invitation is an answer, not an error. *)
Example accept_without_invite :
  let s := Sys (sample_state [sample_member 10; sample_member 11]) [] [] in
  GroupServer.AcceptInvite "svc" 1 40 s = (Ok 1, s).
Proof. vm_compute. reflexivity. Qed.
End GroupFacts.

(** ** Evaluations *)
Lemma guild_membership_authorised_witness :
  let r := GuildKick 1 10 12 in
  exists m, GuildServer.serve_guild "svc" r = Some m /\
    GuildFacts.guild_of (st (m Guilds.sample_sys).2) 1 12 = 0 /\ GuildFacts.may_kick Guilds.sample_guilds 1 10 12.
Proof.
  intros r. destruct (GuildServer.serve_guild "svc" r) as [m|] eqn:Hm; [|done]. exists m. split; [done|].
  destruct (GuildFacts.guild_membership_authorised "svc" r m Guilds.sample_sys 1 12 Hm Guilds.sample_guilds_ok)
    as (a & Ha & Hcases & _).
  { injection Hm as <-. vm_compute. discriminate. }
  simpl in Ha. injection Ha as <-. destruct Hcases as [(E & _)|[(_ & E & _)|(Hz & Hk)]]; [done|done|]. by split.
Defined.

Lemma roster_exact_witness :
  exists a, GuildServer.GetRosterInfo 1 7 Guilds.sample_sys = (Ok a, Guilds.sample_sys) /\ rm_guid <$> ro_members (GuildServer.ri_roster a) = [10; 11; 12].
Proof.
  destruct (GuildFacts.roster_exact Guilds.sample_sys 1 7 Guilds.sample_guild Guilds.sample_guilds_ok eq_refl) as (a & Hrun & _).
  exists a. split; [done|]. vm_compute in Hrun. injection Hrun as <-. reflexivity.
Defined.

(** A question about a guild the server does not know ends the server. *)
Example unknown_guild_ends_server :
  (GuildServer.GetGuildInfo 1 8 Guilds.sample_sys).1 = Panic /\ (GuildServer.GetRosterInfo 1 8 Guilds.sample_sys).1 = Panic.
Proof. split; reflexivity. Qed.
