(* ===== verification/Proxy.v ===== *)
(** * Proxy: the cross-realm proxy in front of the character databases
    (apps/mysqlreverseproxy/sqlparser/parser.go, proxy/proxy.go)

    A game server of several realms has one connection to the proxy, which
    has one to the database of each realm.  It looks for the parameters of a
    prepared statement that are guids of characters, sends the statement to the
    realm of the guid, and puts the number the realm knows in its place.  A
    connection is named by its realm; the calls on connections are the events
    of a run, and their answers a function of the events before. *)
From S2P Require Import Prelude GoRuntime GoStrings ObjectGuid.
From Stdlib Require Import Ascii.

(** ** The finder of guids

    The parser's tree, with the kinds of nodes the visitor looks at; a name is
    what String() gives for it.  A node accepts a visitor by entering it,
    visiting the children in order, and leaving it. *)
Inductive node_kind :=
| InsertStmt | SelectStmt
| TableSource (AsName : string)
| TableName (Name : string)
| BinaryOperationExpr | Assignment | FieldList
| ColumnNameExpr (Name : string)
| ColumnName (Name : string)
| ParamMarkerExpr
| OtherNode.
Inductive node := Node (kind : node_kind) (children : list node).

Definition charGuidColumnToTableMap : gmap string string := list_to_map
  [("characters", "guid"); ("character_inventory", "guid"); ("character_queststatus", "guid"); ("mail_items", "receiver"); ("mail", "receiver");
   ("character_reputation", "guid"); ("character_queststatus_daily", "guid"); ("character_homebind", "guid"); ("character_social", "guid");
   ("character_spell_cooldown", "guid"); ("character_achievement", "guid"); ("character_achievement_progress", "guid"); ("character_equipmentsets",
   "guid"); ("character_entry_point", "guid"); ("character_glyphs", "guid"); ("character_talent", "guid"); ("character_account_data", "guid");
   ("character_skills", "guid"); ("character_spell", "guid"); ("character_action", "guid"); ("character_queststatus_weekly", "guid");
   ("character_battleground_random", "guid"); ("character_banned", "guid"); ("character_queststatus_rewarded", "guid");
   ("character_queststatus_seasonal", "guid"); ("character_queststatus_monthly", "guid"); ("character_brew_of_the_month", "guid"); ("corpse",
   "guid"); ("character_settings", "guid"); ("character_pet", "owner"); ("character_aura", "guid"); ("item_instance", "owner_guid");
   ("battleground_deserters", "guid")].

Definition char_guid_column (table : string) : string := default "" (charGuidColumnToTableMap !! table).

Record pairOperation := { column : string; paramPresented : bool }.

Record CharGUIDFinder := {
  InputGUIDIndexes : list nat;
  OutputGUIDIndexes : list nat;
  IsSelectStmt : bool;
  tableExpSource : string;
  tableNames : list string;
  tableNameShortcuts : gmap string string;
  binOperation : option pairOperation;
  assignOperation : option pairOperation;
  isInFieldList : bool;
  isInsert : bool;
  insertColumns : list string;
  inputParams : list string;
  outputParams : list string
}.

Definition set_InputGUIDIndexes (x : list nat) (v : CharGUIDFinder) : CharGUIDFinder :=
  {| InputGUIDIndexes := x; OutputGUIDIndexes := OutputGUIDIndexes v; IsSelectStmt := IsSelectStmt v; tableExpSource := tableExpSource v; tableNames
     := tableNames v; tableNameShortcuts := tableNameShortcuts v; binOperation := binOperation v; assignOperation := assignOperation v;
     isInFieldList := isInFieldList v; isInsert := isInsert v; insertColumns := insertColumns v; inputParams := inputParams v; outputParams :=
     outputParams v |}.
Definition set_OutputGUIDIndexes (x : list nat) (v : CharGUIDFinder) : CharGUIDFinder :=
  {| InputGUIDIndexes := InputGUIDIndexes v; OutputGUIDIndexes := x; IsSelectStmt := IsSelectStmt v; tableExpSource := tableExpSource v; tableNames
     := tableNames v; tableNameShortcuts := tableNameShortcuts v; binOperation := binOperation v; assignOperation := assignOperation v;
     isInFieldList := isInFieldList v; isInsert := isInsert v; insertColumns := insertColumns v; inputParams := inputParams v; outputParams :=
     outputParams v |}.
Definition set_IsSelectStmt (x : bool) (v : CharGUIDFinder) : CharGUIDFinder :=
  {| InputGUIDIndexes := InputGUIDIndexes v; OutputGUIDIndexes := OutputGUIDIndexes v; IsSelectStmt := x; tableExpSource := tableExpSource v;
     tableNames := tableNames v; tableNameShortcuts := tableNameShortcuts v; binOperation := binOperation v; assignOperation := assignOperation v;
     isInFieldList := isInFieldList v; isInsert := isInsert v; insertColumns := insertColumns v; inputParams := inputParams v; outputParams :=
     outputParams v |}.
Definition set_tableExpSource (x : string) (v : CharGUIDFinder) : CharGUIDFinder :=
  {| InputGUIDIndexes := InputGUIDIndexes v; OutputGUIDIndexes := OutputGUIDIndexes v; IsSelectStmt := IsSelectStmt v; tableExpSource := x;
     tableNames := tableNames v; tableNameShortcuts := tableNameShortcuts v; binOperation := binOperation v; assignOperation := assignOperation v;
     isInFieldList := isInFieldList v; isInsert := isInsert v; insertColumns := insertColumns v; inputParams := inputParams v; outputParams :=
     outputParams v |}.
Definition set_tableNames (x : list string) (v : CharGUIDFinder) : CharGUIDFinder :=
  {| InputGUIDIndexes := InputGUIDIndexes v; OutputGUIDIndexes := OutputGUIDIndexes v; IsSelectStmt := IsSelectStmt v; tableExpSource :=
     tableExpSource v; tableNames := x; tableNameShortcuts := tableNameShortcuts v; binOperation := binOperation v; assignOperation :=
     assignOperation v; isInFieldList := isInFieldList v; isInsert := isInsert v; insertColumns := insertColumns v; inputParams := inputParams v;
     outputParams := outputParams v |}.
Definition set_tableNameShortcuts (x : gmap string string) (v : CharGUIDFinder) : CharGUIDFinder :=
  {| InputGUIDIndexes := InputGUIDIndexes v; OutputGUIDIndexes := OutputGUIDIndexes v; IsSelectStmt := IsSelectStmt v; tableExpSource :=
     tableExpSource v; tableNames := tableNames v; tableNameShortcuts := x; binOperation := binOperation v; assignOperation := assignOperation v;
     isInFieldList := isInFieldList v; isInsert := isInsert v; insertColumns := insertColumns v; inputParams := inputParams v; outputParams :=
     outputParams v |}.
Definition set_binOperation (x : option pairOperation) (v : CharGUIDFinder) : CharGUIDFinder :=
  {| InputGUIDIndexes := InputGUIDIndexes v; OutputGUIDIndexes := OutputGUIDIndexes v; IsSelectStmt := IsSelectStmt v; tableExpSource :=
     tableExpSource v; tableNames := tableNames v; tableNameShortcuts := tableNameShortcuts v; binOperation := x; assignOperation := assignOperation
     v; isInFieldList := isInFieldList v; isInsert := isInsert v; insertColumns := insertColumns v; inputParams := inputParams v; outputParams :=
     outputParams v |}.
Definition set_assignOperation (x : option pairOperation) (v : CharGUIDFinder) : CharGUIDFinder :=
  {| InputGUIDIndexes := InputGUIDIndexes v; OutputGUIDIndexes := OutputGUIDIndexes v; IsSelectStmt := IsSelectStmt v; tableExpSource :=
     tableExpSource v; tableNames := tableNames v; tableNameShortcuts := tableNameShortcuts v; binOperation := binOperation v; assignOperation := x;
     isInFieldList := isInFieldList v; isInsert := isInsert v; insertColumns := insertColumns v; inputParams := inputParams v; outputParams :=
     outputParams v |}.
Definition set_isInFieldList (x : bool) (v : CharGUIDFinder) : CharGUIDFinder :=
  {| InputGUIDIndexes := InputGUIDIndexes v; OutputGUIDIndexes := OutputGUIDIndexes v; IsSelectStmt := IsSelectStmt v; tableExpSource :=
     tableExpSource v; tableNames := tableNames v; tableNameShortcuts := tableNameShortcuts v; binOperation := binOperation v; assignOperation :=
     assignOperation v; isInFieldList := x; isInsert := isInsert v; insertColumns := insertColumns v; inputParams := inputParams v; outputParams :=
     outputParams v |}.
Definition set_isInsert (x : bool) (v : CharGUIDFinder) : CharGUIDFinder :=
  {| InputGUIDIndexes := InputGUIDIndexes v; OutputGUIDIndexes := OutputGUIDIndexes v; IsSelectStmt := IsSelectStmt v; tableExpSource :=
     tableExpSource v; tableNames := tableNames v; tableNameShortcuts := tableNameShortcuts v; binOperation := binOperation v; assignOperation :=
     assignOperation v; isInFieldList := isInFieldList v; isInsert := x; insertColumns := insertColumns v; inputParams := inputParams v;
     outputParams := outputParams v |}.
Definition set_insertColumns (x : list string) (v : CharGUIDFinder) : CharGUIDFinder :=
  {| InputGUIDIndexes := InputGUIDIndexes v; OutputGUIDIndexes := OutputGUIDIndexes v; IsSelectStmt := IsSelectStmt v; tableExpSource :=
     tableExpSource v; tableNames := tableNames v; tableNameShortcuts := tableNameShortcuts v; binOperation := binOperation v; assignOperation :=
     assignOperation v; isInFieldList := isInFieldList v; isInsert := isInsert v; insertColumns := x; inputParams := inputParams v; outputParams :=
     outputParams v |}.
Definition set_inputParams (x : list string) (v : CharGUIDFinder) : CharGUIDFinder :=
  {| InputGUIDIndexes := InputGUIDIndexes v; OutputGUIDIndexes := OutputGUIDIndexes v; IsSelectStmt := IsSelectStmt v; tableExpSource :=
     tableExpSource v; tableNames := tableNames v; tableNameShortcuts := tableNameShortcuts v; binOperation := binOperation v; assignOperation :=
     assignOperation v; isInFieldList := isInFieldList v; isInsert := isInsert v; insertColumns := insertColumns v; inputParams := x; outputParams
     := outputParams v |}.
Definition set_outputParams (x : list string) (v : CharGUIDFinder) : CharGUIDFinder :=
  {| InputGUIDIndexes := InputGUIDIndexes v; OutputGUIDIndexes := OutputGUIDIndexes v; IsSelectStmt := IsSelectStmt v; tableExpSource :=
     tableExpSource v; tableNames := tableNames v; tableNameShortcuts := tableNameShortcuts v; binOperation := binOperation v; assignOperation :=
     assignOperation v; isInFieldList := isInFieldList v; isInsert := isInsert v; insertColumns := insertColumns v; inputParams := inputParams v;
     outputParams := x |}.

Definition NewCharGUIDFinder : CharGUIDFinder :=
  {| InputGUIDIndexes := []; OutputGUIDIndexes := []; IsSelectStmt := false; tableExpSource := ""; tableNames := []; tableNameShortcuts := ∅;
     binOperation := None; assignOperation := None; isInFieldList := false; isInsert := false; insertColumns := []; inputParams := [];
     outputParams := [] |}.

(** [ps[len(ps)-1] = name]: panics on an empty slice. *)
Definition set_last (name : string) (ps : list string) : option (list string) :=
  match ps with [] => None | _ => Some (<[(length ps - 1)%nat := name]> ps) end.

Definition handleColumnNameExpr (name : string) (v : CharGUIDFinder) : option CharGUIDFinder :=
  match binOperation v with
  | Some op =>
    if paramPresented op then ps ← set_last name (inputParams v); Some (set_inputParams ps v)
    else Some (set_binOperation (Some {| column := name; paramPresented := false |}) v)
  | None => Some (if isInFieldList v then set_outputParams (outputParams v ++ [name]) v else v)
  end.

Definition handleColumnName (name : string) (v : CharGUIDFinder) : option CharGUIDFinder :=
  match assignOperation v with
  | Some op =>
    if paramPresented op then ps ← set_last name (inputParams v); Some (set_inputParams ps v)
    else Some (set_assignOperation (Some {| column := name; paramPresented := false |}) v)
  | None => Some (if isInsert v then set_insertColumns (insertColumns v ++ [name]) v else v)
  end.

Definition with_param (op : pairOperation) : pairOperation := {| column := column op; paramPresented := true |}.

Definition handleParamMarkerExpr (v : CharGUIDFinder) : CharGUIDFinder :=
  let '(v, col) :=
    match binOperation v, assignOperation v with
    | Some op, _ => (set_binOperation (Some (with_param op)) v, column op)
    | None, Some op => (set_assignOperation (Some (with_param op)) v, column op)
    | None, None =>
      (v, if isInsert v && (length (inputParams v) <? length (insertColumns v))%nat
          then default "" (insertColumns v !! length (inputParams v)) else "")
    end in
  set_inputParams (inputParams v ++ [col]) v.

Definition handleTableName (name : string) (v : CharGUIDFinder) : CharGUIDFinder :=
  let v := if bool_decide (tableExpSource v = "") then v
           else set_tableExpSource "" (set_tableNameShortcuts (<[tableExpSource v := name]> (tableNameShortcuts v)) v) in
  set_tableNames (tableNames v ++ [name]) v.

Definition no_operation : option pairOperation := Some {| column := ""; paramPresented := false |}.

Definition Enter (k : node_kind) (v : CharGUIDFinder) : option CharGUIDFinder :=
  match k with
  | InsertStmt => Some (set_isInsert true v)
  | SelectStmt => Some (set_IsSelectStmt true v)
  | TableSource asName => Some (set_tableExpSource asName v)
  | TableName name => Some (handleTableName name v)
  | BinaryOperationExpr => Some (set_binOperation no_operation v)
  | Assignment => Some (set_assignOperation no_operation v)
  | FieldList => Some (set_isInFieldList true v)
  | ColumnNameExpr name => handleColumnNameExpr name v
  | ColumnName name => handleColumnName name v
  | ParamMarkerExpr => Some (handleParamMarkerExpr v)
  | OtherNode => Some v
  end.

Definition Leave (k : node_kind) (v : CharGUIDFinder) : CharGUIDFinder :=
  match k with
  | BinaryOperationExpr => set_binOperation None v
  | Assignment => set_assignOperation None v
  | FieldList => set_isInFieldList false v
  | _ => v
  end.

Fixpoint Accept (n : node) (v : CharGUIDFinder) : option CharGUIDFinder :=
  match n with
  | Node k children =>
    v ← Enter k v;
    v ← (fix accept_all (ns : list node) (v : CharGUIDFinder) : option CharGUIDFinder :=
           match ns with [] => Some v | n :: ns => v ← Accept n v; accept_all ns v end) children v;
    Some (Leave k v)
  end.

Fixpoint ContainsRune (s : string) (c : ascii) : bool :=
  match s with EmptyString => false | String d s => Ascii.eqb d c || ContainsRune s c end.

Definition isGUIDColumn (v : CharGUIDFinder) (param col : string) : bool :=
  if ContainsRune param "." then
    match Split "." param with
    | t :: c :: _ =>
      let tableName := default "" (tableNameShortcuts v !! t) in
      let tableName := if bool_decide (tableName = "") then t else tableName in
      let charGuidColumnName := char_guid_column tableName in
      negb (bool_decide (charGuidColumnName = "")) && bool_decide (c = charGuidColumnName)
    | _ => false
    end
  else bool_decide (param = col).

(** The indexes of a slice at which a test holds. *)
Fixpoint indexes_from {A} (i : nat) (p : A -> bool) (l : list A) : list nat :=
  match l with
  | [] => []
  | x :: l => if p x then i :: indexes_from (S i) p l else indexes_from (S i) p l
  end.

Definition findGUIDIndexes (col : string) (v : CharGUIDFinder) : CharGUIDFinder :=
  let v := set_InputGUIDIndexes (InputGUIDIndexes v ++ indexes_from 0 (fun p => isGUIDColumn v p col) (inputParams v)) v in
  set_OutputGUIDIndexes (OutputGUIDIndexes v ++ indexes_from 0 (fun p => isGUIDColumn v p col) (outputParams v)) v.

Definition searchColumnNames (v : CharGUIDFinder) : gmap string unit :=
  foldl (fun names table => if bool_decide (char_guid_column table = "") then names else <[char_guid_column table := tt]> names) ∅ (tableNames v).

(** The loop over the set of columns has label [n]. *)
Definition FillInGUIDIndexes `{MapRange} (n : nat) (v : CharGUIDFinder) : CharGUIDFinder :=
  foldl (fun v '(col, _) => findGUIDIndexes col v) v (go_range n (searchColumnNames v)).

(** ** The proxy *)
Inductive TransactionState := TransactionNone | TransactionRequested | TransactionInProgress.
#[export] Instance TransactionState_eq_dec : EqDecision TransactionState.
Proof. solve_decision. Defined.

Definition StartTransaction : string := "START TRANSACTION".
Definition CommitTransaction : string := "COMMIT".
Definition RollbackTransaction : string := "ROLLBACK".
Definition DummyPreparedStmt : string := "SELECT ? AS no_op".

(** The dynamic types of a parameter that the proxy tells apart. *)
Inductive arg := ArgU64 (v : u64) | ArgU32 (v : u32) | ArgU16 (v : u16) | ArgU8 (v : u8) | ArgInt (v : int) | ArgOther (n : Z).

Inductive field_value := FieldUnsigned (v : u64) (str : string) | FieldOther (n : Z).
(** mysql.Result: the rows, or no result set. *)
Abbreviation db_result := (option (list (list field_value))).

Inductive db_event :=
| Executed (conn : u32) (query : string)
| Prepared (conn : u32) (query : string)
| StmtExecuted (conn : u32) (query : string) (args : list arg)
| StmtClosed (conn : u32)
| FieldListed (conn : u32) (table fieldWildcard : string).

Record StmtWithParsedDataContext := { Stmts : gmap u32 unit; GuidFinder : CharGUIDFinder; IsDummy : bool }.

Record TC9Proxy := { connectionByRealm : gmap u32 unit; transactionState : TransactionState; transactionRealmID : u32 }.
Definition NewTC9Proxy (connections : gmap u32 unit) : TC9Proxy :=
  {| connectionByRealm := connections; transactionState := TransactionNone; transactionRealmID := 0 |}.
Definition set_transactionState (t : TransactionState) (p : TC9Proxy) : TC9Proxy :=
  {| connectionByRealm := connectionByRealm p; transactionState := t; transactionRealmID := transactionRealmID p |}.
Definition set_transactionRealmID (r : u32) (p : TC9Proxy) : TC9Proxy :=
  {| connectionByRealm := connectionByRealm p; transactionState := transactionState p; transactionRealmID := r |}.

Inductive proxy_err :=
| ErrDB | ErrParse | ErrNoStmt | ErrStmtNotFound | ErrNoRealmStmt (realmID : u32) | ErrStart (e : proxy_err) | ErrArgType | ErrNotSupported.

Definition upper_char (c : ascii) : ascii :=
  let n := N_of_ascii c in if ((97 <=? n) && (n <=? 122))%N then ascii_of_N (n - 32) else c.
Fixpoint ToUpper (s : string) : string :=
  match s with EmptyString => EmptyString | String c s => String (upper_char c) (ToUpper s) end.
Definition is_space (c : ascii) : bool := let n := N_of_ascii c in ((n =? 32) || ((9 <=? n) && (n <=? 13)))%N.
Fixpoint trim_left (l : list ascii) : list ascii :=
  match l with c :: l' => if is_space c then trim_left l' else l | [] => [] end.
(** strings.TrimSpace *)
Definition TrimSpace (s : string) : string :=
  String.string_of_list_ascii (rev (trim_left (rev (trim_left (String.list_ascii_of_string s))))).


Section Proxy.
Context `{MapRange}.
Variable parse : string -> option node.               (* the SQL parser *)
Variable answer : list db_event -> db_result.         (* the result of the last call *)

Abbreviation M A := (go TC9Proxy db_event proxy_err A).

(** How many calls were made so far; it labels the next loop over a map. *)
Definition calls : M nat := fun s => (Ok (length (events s)), s).
Definition last_result : M db_result := fun s => (Ok (answer (events s)), s).

(** The connection of the realm or the first one found. *)
Definition ConnByRealm (realmID : u32) : M (option u32) :=
  p ← gets id;
  n ← calls;
  mret (match connectionByRealm p !! realmID with
        | Some _ => Some realmID
        | None => head (go_range n (connectionByRealm p)).*1
        end).

(** A call on a connection that may be nil. *)
Definition Execute (conn : option u32) (query : string) : M db_result :=
  c ← deref conn;
  publish ErrDB (Executed c query) ;;
  last_result.

Definition UseDB : M unit := mret tt.

Definition HandleQuery (query : string) : M db_result :=
  let query := TrimSpace (ToUpper query) in
  conn ← ConnByRealm 0;
  if bool_decide (query = StartTransaction) then
    modify (set_transactionState TransactionRequested) ;;
    mret None
  else
    conn ← (if bool_decide (query = CommitTransaction \/ query = RollbackTransaction) then
              modify (set_transactionState TransactionNone) ;;
              p ← gets id;
              ConnByRealm (transactionRealmID p)
            else mret conn);
    Execute conn query.

Definition HandleFieldList (table fieldWildcard : string) : M unit :=
  conn ← ConnByRealm 0;
  c ← deref conn;
  publish ErrDB (FieldListed c table fieldWildcard).

Fixpoint prepare_all (realms : list u32) (query : string) : M unit :=
  match realms with
  | [] => mret tt
  | r :: realms => publish ErrDB (Prepared r query) ;; prepare_all realms query
  end.

(** The numbers of parameters and columns the answer also has are those of
    one of the statements. *)
Definition HandleStmtPrepare (query : string) : M StmtWithParsedDataContext :=
  stmtNode ← not_nil ErrParse (parse query);
  v ← deref (Accept stmtNode NewCharGUIDFinder);
  p ← gets id;
  n ← calls;
  prepare_all (go_range n (connectionByRealm p)).*1 query ;;
  guard_err (bool_decide (connectionByRealm p = ∅)) ErrNoStmt ;;
  mret {| Stmts := connectionByRealm p; GuidFinder := FillInGUIDIndexes n v; IsDummy := bool_decide (query = DummyPreparedStmt) |}.

(** The guid in a parameter; other types give 0. *)
Definition arg_guid (a : arg) : u64 := match a with ArgU64 v => v | ArgU32 v => v | _ => 0 end.

(** [args[i] = x] for each index: panics out of range. *)
Fixpoint set_args (indexes : list nat) (x : arg) (args : list arg) : option (list arg) :=
  match indexes with
  | [] => Some args
  | i :: indexes => if (i <? length args)%nat then set_args indexes x (<[i := x]> args) else None
  end.

Definition extractGUIDAndRealmID (ctx : StmtWithParsedDataContext) (args : list arg) : M (u32 * u64 * u32 * list arg) :=
  ' (realmID, rawGUID, counter, args) ←
    (match InputGUIDIndexes (GuidFinder ctx) with
     | [] => mret (0, 0, 0, args)
     | i :: rest =>
       a ← deref (args !! i);
       let rawGUID := arg_guid a in
       let playerGUID := New rawGUID in
       let counter := wrap32 (GetCounter playerGUID) in
       args ← deref (set_args (i :: rest) (ArgU32 counter) args);
       mret (wrap32 (GetRealmID playerGUID), rawGUID, counter, args)
     end);
  p ← gets id;
  let realmID := if realmID =? 0 then
                   (if negb (IsSelectStmt (GuidFinder ctx)) && bool_decide (transactionState p = TransactionInProgress)
                    then transactionRealmID p else 1)
                 else realmID in
  mret (realmID, rawGUID, counter, args).

Definition start_transaction : M unit :=
  conn ← ConnByRealm 0;
  wrap_err ErrStart (Execute conn StartTransaction) ;;
  modify (set_transactionState TransactionInProgress).

Definition startTransactionIfNeeded (args : list arg) (ctx : StmtWithParsedDataContext) (realmID : u32) : M unit :=
  p ← gets id;
  if IsDummy ctx && bool_decide (transactionState p = TransactionRequested) then
    start_transaction ;;
    a ← deref (args !! 0%nat);
    match a with
    | ArgU64 v => modify (set_transactionRealmID (wrap32 v))
    | ArgU32 v => modify (set_transactionRealmID v)
    | ArgInt v => modify (set_transactionRealmID (wrap32 v))
    | ArgU16 v => modify (set_transactionRealmID v)
    | ArgU8 v => modify (set_transactionRealmID v)
    | ArgOther _ => fail ErrArgType
    end
  else if bool_decide (transactionState p = TransactionRequested) then
    start_transaction ;;
    modify (set_transactionRealmID realmID)
  else mret tt.

(** [row[column] = value] in every row: panics out of range. *)
Fixpoint set_column (column : nat) (value : field_value) (rows : list (list field_value)) : option (list (list field_value)) :=
  match rows with
  | [] => Some []
  | row :: rows =>
    if (column <? length row)%nat then rest ← set_column column value rows; Some (<[column := value]> row :: rest) else None
  end.
Fixpoint set_columns (columns : list nat) (value : field_value) (rows : list (list field_value)) : option (list (list field_value)) :=
  match columns with
  | [] => Some rows
  | c :: columns => rows ← set_column c value rows; set_columns columns value rows
  end.

Definition updateOutputGUIDs (res : db_result) (ctx : StmtWithParsedDataContext) (rawGUID : u64) : M db_result :=
  if (0 <? rawGUID) && negb (bool_decide (OutputGUIDIndexes (GuidFinder ctx) = [])) then
    rows ← deref res;
    rows ← deref (set_columns (OutputGUIDIndexes (GuidFinder ctx)) (FieldUnsigned rawGUID (fmt_d rawGUID)) rows);
    mret (Some rows)
  else mret res.

Definition HandleStmtExecute (ctx : option StmtWithParsedDataContext) (query : string) (args : list arg) : M db_result :=
  ctx ← not_nil ErrStmtNotFound ctx;
  ' (realmID, rawGUID, _, args) ← extractGUIDAndRealmID ctx args;
  startTransactionIfNeeded args ctx realmID ;;
  if IsDummy ctx then mret None
  else
    _ ← not_nil (ErrNoRealmStmt realmID) (Stmts ctx !! realmID);
    publish ErrDB (StmtExecuted realmID query args) ;;
    res ← last_result;
    updateOutputGUIDs res ctx rawGUID.

Fixpoint close_all (realms : list u32) : M unit :=
  match realms with
  | [] => mret tt
  | r :: realms => publish ErrDB (StmtClosed r) ;; close_all realms
  end.

Definition HandleStmtClose (ctx : option StmtWithParsedDataContext) : M unit :=
  ctx ← not_nil ErrStmtNotFound ctx;
  n ← calls;
  close_all (go_range n (Stmts ctx)).*1.

Definition HandleOtherCommand : M unit := fail ErrNotSupported.
End Proxy.

(** ** The finder never panics *)
Definition node_rose_ind (P : node -> Prop) (f : forall k ns, Forall P ns -> P (Node k ns)) : forall n, P n :=
  fix go n :=
    match n with
    | Node k ns =>
      f k ns ((fix all (l : list node) : Forall P l :=
                 match l with [] => Forall_nil_2 P | m :: l => Forall_cons_2 P m l (go m) (all l) end) ns)
    end.

Definition finder_ok (v : CharGUIDFinder) : Prop :=
  (forall op, binOperation v = Some op -> paramPresented op = true -> inputParams v <> []) /\
  (forall op, assignOperation v = Some op -> paramPresented op = true -> inputParams v <> []).

Lemma set_last_Some name ps : ps <> [] -> exists ps', set_last name ps = Some ps' /\ ps' <> [].
Proof.
  intros Hps. destruct ps as [|x ps]; [done|]. eexists. split; [reflexivity|].
  intros E%(f_equal length). by rewrite length_insert in E.
Qed.

Lemma Enter_ok k v : finder_ok v -> exists v', Enter k v = Some v' /\ finder_ok v'.
Proof.
  intros [Hb Ha]. destruct k; cbn [Enter]; try (by eexists).
  - eexists. split; [reflexivity|]. unfold handleTableName. case_bool_decide; by split.
  - eexists. split; [reflexivity|]. split; [by intros op [= <-]|exact Ha].
  - eexists. split; [reflexivity|]. split; [exact Hb|by intros op [= <-]].
  - unfold handleColumnNameExpr. destruct (binOperation v) as [op|] eqn:Eb.
    + destruct (paramPresented op) eqn:Ep.
      * destruct (set_last_Some Name (inputParams v)) as (ps & -> & Hps); [by eapply Hb|].
        eexists. split; [reflexivity|]. by split; intros.
      * eexists. split; [reflexivity|]. split; [by intros ? [= <-]|exact Ha].
    + eexists. split; [reflexivity|]. destruct (isInFieldList v); split; simpl; try exact Ha; rewrite Eb; done.
  - unfold handleColumnName. destruct (assignOperation v) as [op|] eqn:Eb.
    + destruct (paramPresented op) eqn:Ep.
      * destruct (set_last_Some Name (inputParams v)) as (ps & -> & Hps); [by eapply Ha|].
        eexists. split; [reflexivity|]. by split; intros.
      * eexists. split; [reflexivity|]. split; [exact Hb|by intros ? [= <-]].
    + eexists. split; [reflexivity|]. destruct (isInsert v); split; simpl; try exact Hb; rewrite Eb; done.
  - eexists. split; [reflexivity|]. unfold handleParamMarkerExpr.
    destruct (binOperation v), (assignOperation v); split; simpl; intros ? _ _ E; by apply app_nil in E as [_ ?].
Qed.

Lemma Leave_ok k v : finder_ok v -> finder_ok (Leave k v).
Proof. intros [Hb Ha]. destruct k; by split. Qed.

Fixpoint accept_all (ns : list node) (v : CharGUIDFinder) : option CharGUIDFinder :=
  match ns with [] => Some v | n :: ns => v ← Accept n v; accept_all ns v end.

Lemma Accept_node k ns v : Accept (Node k ns) v = (v ← Enter k v; v ← accept_all ns v; Some (Leave k v)).
Proof.
  reflexivity.
Qed.

Lemma accept_all_app ns ms v : accept_all (ns ++ ms) v = (v ← accept_all ns v; accept_all ms v).
Proof. revert v. induction ns as [|n ns IH]; intros v; cbn; [done|]. destruct (Accept n v); cbn; [apply IH|done]. Qed.

(** Whatever tree the parser gives, the visit ends with the finder. *)
Theorem finder_total n v : finder_ok v -> exists v', Accept n v = Some v' /\ finder_ok v'.
Proof.
  revert v. induction n as [k ns IH] using node_rose_ind. intros v Hv. rewrite Accept_node. destruct (Enter_ok k v Hv) as (v1 & -> & Hv1). cbn.
  assert (exists v2, accept_all ns v1 = Some v2 /\ finder_ok v2) as (v2 & -> & Hv2).
  { clear Hv. revert v1 Hv1. induction IH as [|m l Hm _ IHl]; intros v1 Hv1; cbn; [by exists v1|].
    destruct (Hm v1 Hv1) as (v2 & -> & Hv2). by apply IHl. }
  cbn. eexists. split; [reflexivity|]. by apply Leave_ok.
Qed.

Lemma new_finder_ok : finder_ok NewCharGUIDFinder.
Proof. by split. Qed.

Lemma finder_total_witness : exists v', Accept (Node BinaryOperationExpr [Node ParamMarkerExpr []; Node (ColumnNameExpr "guid") []]) NewCharGUIDFinder = Some v' /\ finder_ok v'.
Proof. apply finder_total, new_finder_ok. Defined.

(** ** Statements and their trees

    Conditions are conjunctions of comparisons of a column with a parameter;
    the parts of a SELECT and of a DELETE may be visited in any order. *)
Inductive cond := CEq (c : string) | CEqRev (c : string) | CAnd (a b : cond).
Fixpoint cond_columns (w : cond) : list string :=
  match w with CEq c | CEqRev c => [c] | CAnd a b => cond_columns a ++ cond_columns b end.
Definition marker : node := Node ParamMarkerExpr [].
Definition column_expr (c : string) : node := Node (ColumnNameExpr c) [Node (ColumnName c) []].
Fixpoint cond_node (w : cond) : node :=
  match w with
  | CEq c => Node BinaryOperationExpr [column_expr c; marker]
  | CEqRev c => Node BinaryOperationExpr [marker; column_expr c]
  | CAnd a b => Node BinaryOperationExpr [cond_node a; cond_node b]
  end.
Definition from_node (table : string) : node := Node OtherNode [Node OtherNode [Node (TableSource "") [Node (TableName table) []]]].
Definition field_list (fields : list string) : node := Node FieldList ((fun c => Node OtherNode [column_expr c]) <$> fields).
Definition assign_node (c : string) : node := Node Assignment [Node (ColumnName c) []; marker].
Definition insert_column (c : string) : node := Node (ColumnName c) [].

Inductive stmt :=
| SSelect (fields : list string) (table : string) (w : cond)
| SInsert (table : string) (columns : list string)
| SUpdate (table : string) (assigned : list string) (w : cond)
| SDelete (table : string) (w : cond).
Definition stmt_table (q : stmt) : string :=
  match q with SSelect _ t _ | SInsert t _ | SUpdate t _ _ | SDelete t _ => t end.
(** The column each parameter belongs to, and the columns of the answer. *)
Definition stmt_params (q : stmt) : list string :=
  match q with SSelect _ _ w | SDelete _ w => cond_columns w | SInsert _ cs => cs | SUpdate _ cs w => cs ++ cond_columns w end.
Definition stmt_fields (q : stmt) : list string := match q with SSelect fs _ _ => fs | _ => [] end.
Definition is_select (q : stmt) : bool := match q with SSelect _ _ _ => true | _ => false end.

Inductive parses : stmt -> node -> Prop :=
| parses_select fields table w parts :
    parts ∈ permutations [from_node table; cond_node w; field_list fields] -> parses (SSelect fields table w) (Node SelectStmt parts)
| parses_insert table columns :
    parses (SInsert table columns) (Node InsertStmt (from_node table :: (insert_column <$> columns) ++ ((fun _ => marker) <$> columns)))
| parses_update table assigned w :
    parses (SUpdate table assigned w) (Node OtherNode (from_node table :: (assign_node <$> assigned) ++ [cond_node w]))
| parses_delete table w parts :
    parts ∈ permutations [from_node table; cond_node w] -> parses (SDelete table w) (Node OtherNode parts).

(** *** What each part adds *)
Lemma accept_from t v : Accept (from_node t) v = Some (set_tableNames (tableNames v ++ [t]) (set_tableExpSource "" v)).
Proof. reflexivity. Qed.

Lemma set_last_snoc name ps x : set_last name (ps ++ [x]) = Some (ps ++ [name]).
Proof.
  unfold set_last. destruct (ps ++ [x]) eqn:E; [by apply app_nil in E as [_ ?]|]. rewrite <- E, length_app.
  replace (length ps + length [x] - 1)%nat with (length ps + 0)%nat by (simpl; lia). by rewrite insert_app_r.
Qed.

Lemma accept_cond w v :
  assignOperation v = None -> isInsert v = false ->
  Accept (cond_node w) v = Some (set_binOperation None (set_inputParams (inputParams v ++ cond_columns w) v)).
Proof.
  revert v. induction w as [c|c|a IHa b IHb]; intros v Ha Hi; cbn [cond_node cond_columns]; rewrite Accept_node; cbn [Enter mbind option_bind].
  - cbn. unfold handleColumnName. cbn. rewrite Ha. cbn. by rewrite Hi.
  - cbn. unfold handleColumnNameExpr. cbn. rewrite set_last_snoc. cbn. unfold handleColumnName. cbn. rewrite Ha. cbn. by rewrite Hi.
  - cbn [accept_all]. rewrite IHa by done. cbn [mbind option_bind]. rewrite IHb by done. cbn. by rewrite app_assoc.
Qed.

Lemma accept_fields fields v :
  binOperation v = None -> assignOperation v = None -> isInsert v = false ->
  Accept (field_list fields) v = Some (set_isInFieldList false (set_outputParams (outputParams v ++ fields) v)).
Proof.
  intros Hb Ha Hi. unfold field_list. rewrite Accept_node. cbn [Enter mbind option_bind].
  assert (forall u, binOperation u = None -> assignOperation u = None -> isInsert u = false -> isInFieldList u = true ->
    accept_all ((fun c => Node OtherNode [column_expr c]) <$> fields) u = Some (set_outputParams (outputParams u ++ fields) u)) as Hall.
  { induction fields as [|c fields IH]; intros u Hub Hua Hui Huf; cbn.
    - rewrite app_nil_r. by destruct u.
    - unfold handleColumnNameExpr. rewrite Hub, Huf. cbn. unfold handleColumnName. cbn. rewrite Hua. cbn. rewrite Hui.
      rewrite IH by done. cbn. by rewrite <- app_assoc. }
  rewrite Hall by done. reflexivity.
Qed.

Lemma accept_insert_columns columns v :
  assignOperation v = None -> isInsert v = true ->
  accept_all (insert_column <$> columns) v = Some (set_insertColumns (insertColumns v ++ columns) v).
Proof.
  revert v. induction columns as [|c columns IH]; intros v Ha Hi; cbn.
  - rewrite app_nil_r. by destruct v.
  - unfold handleColumnName. rewrite Ha, Hi. cbn. rewrite IH by done. cbn. by rewrite <- app_assoc.
Qed.

Lemma accept_markers columns v :
  binOperation v = None -> assignOperation v = None -> isInsert v = true ->
  insertColumns v = inputParams v ++ columns ->
  accept_all ((fun _ => marker) <$> columns) v = Some (set_inputParams (inputParams v ++ columns) v).
Proof.
  revert v. induction columns as [|c columns IH]; intros v Hb Ha Hi Hc; cbn.
  - rewrite app_nil_r. by destruct v.
  - unfold handleParamMarkerExpr. rewrite Hb, Ha, Hi, Hc, length_app. cbn [length andb].
    assert ((length (inputParams v) <? length (inputParams v) + S (length columns))%nat = true) as -> by (apply Nat.ltb_lt; lia).
    rewrite lookup_app_r by lia. rewrite Nat.sub_diag. cbn. rewrite IH; cbn; [by rewrite <- app_assoc|done..|by rewrite Hc, <- app_assoc].
Qed.

Lemma accept_assigns assigned v :
  binOperation v = None -> assignOperation v = None ->
  accept_all (assign_node <$> assigned) v = Some (set_inputParams (inputParams v ++ assigned) v).
Proof.
  revert v. induction assigned as [|c assigned IH]; intros v Hb Ha; cbn.
  - rewrite app_nil_r. by destruct v.
  - unfold handleParamMarkerExpr. cbn. rewrite Hb. cbn. rewrite IH by done. cbn. rewrite <- app_assoc, <- Ha. by destruct v.
Qed.

(** What the visit of a statement's tree finds. *)
Lemma finder_found q n :
  parses q n ->
  exists v, Accept n NewCharGUIDFinder = Some v /\ tableNames v = [stmt_table q] /\ inputParams v = stmt_params q /\
    outputParams v = stmt_fields q /\ IsSelectStmt v = is_select q /\ InputGUIDIndexes v = [] /\ OutputGUIDIndexes v = [].
Proof.
  intros [fields table w parts Hparts|table columns|table assigned w|table w parts Hparts]; rewrite Accept_node; cbn [Enter mbind option_bind].
  - cbn in Hparts. rewrite !elem_of_cons, elem_of_nil in Hparts.
    destruct Hparts as [->|[->|[->|[->|[->|[->|[]]]]]]]; cbn [accept_all];
      repeat (rewrite ?accept_from, ?accept_cond, ?accept_fields by done; cbn [mbind option_bind]); by eexists.
  - cbn [accept_all]. rewrite accept_from. cbn [mbind option_bind]. rewrite accept_all_app, accept_insert_columns by done.
    cbn [mbind option_bind]. rewrite accept_markers by done. by eexists.
  - cbn [accept_all]. rewrite accept_from. cbn [mbind option_bind]. rewrite accept_all_app, accept_assigns by done.
    cbn [mbind option_bind accept_all]. rewrite accept_cond by done. by eexists.
  - cbn in Hparts. rewrite !elem_of_cons, elem_of_nil in Hparts.
    destruct Hparts as [->|[->|[]]]; cbn [accept_all];
      repeat (rewrite ?accept_from, ?accept_cond by done; cbn [mbind option_bind]); by eexists.
Qed.

(** *** The indexes *)
Lemma elem_of_indexes_from {A} k p (l : list A) i :
  i ∈ indexes_from k p l <-> exists j x, i = (k + j)%nat /\ l !! j = Some x /\ p x = true.
Proof.
  revert k. induction l as [|y l IH]; intros k; cbn.
  - rewrite elem_of_nil. split; [done|]. by intros (j & x & _ & ? & _).
  - assert (Hl : i ∈ indexes_from (S k) p l <-> exists j x, i = (k + S j)%nat /\ l !! j = Some x /\ p x = true).
    { rewrite IH. split; intros (j & x & -> & ?); exists j, x; (split; [lia|done]). }
    destruct (p y) eqn:Hp; rewrite ?elem_of_cons, Hl; split.
    + intros [->|(j & x & -> & Hx)]; [exists 0%nat, y; rewrite Nat.add_0_r; done|by exists (S j), x].
    + intros ([|j] & x & -> & Hj & Hx); [left; lia|right; by exists j, x].
    + intros (j & x & -> & Hx). by exists (S j), x.
    + intros ([|j] & x & -> & Hj & Hx); [simpl in Hj; congruence|by exists j, x].
Qed.

Definition unqualified (c : string) : Prop := ContainsRune c "." = false.

Section Filled.
Context `{MapRange}.

Lemma filled_indexes v n table :
  tableNames v = [table] -> char_guid_column table <> "" -> InputGUIDIndexes v = [] -> OutputGUIDIndexes v = [] ->
  Forall unqualified (inputParams v) -> Forall unqualified (outputParams v) ->
  let gc := char_guid_column table in
  let v' := FillInGUIDIndexes n v in
  InputGUIDIndexes v' = indexes_from 0 (fun p => bool_decide (p = gc)) (inputParams v) /\
  OutputGUIDIndexes v' = indexes_from 0 (fun p => bool_decide (p = gc)) (outputParams v) /\
  IsSelectStmt v' = IsSelectStmt v.
Proof.
  intros Ht Hgc Hin Hout Hp Ho gc v'. unfold v', FillInGUIDIndexes, searchColumnNames. rewrite Ht. cbn [foldl].
  rewrite bool_decide_eq_false_2 by done. fold gc. rewrite insert_empty.
  assert (go_range n ({[gc := tt]} : gmap string unit) = [(gc, tt)]) as ->
    by (apply Permutation_singleton_r; by rewrite go_range_perm, map_to_list_singleton).
  cbn [foldl]. unfold findGUIDIndexes. cbn. rewrite Hin, Hout. cbn.
  assert (Heq : forall k u l, Forall unqualified l ->
    indexes_from k (fun p => isGUIDColumn u p gc) l = indexes_from k (fun p => bool_decide (p = gc)) l).
  { intros k u l Hl. revert k. induction Hl as [|x l Hx _ IH]; intros k; [done|]. cbn. unfold isGUIDColumn at 1.
    rewrite Hx. by rewrite !IH. }
  by rewrite !Heq.
Qed.
End Filled.

(** ** Routing *)
(** [x] at the places of the column [gc]. *)
Definition at_column {A} (gc : string) (names : list string) (x : A) (l : list A) : list A :=
  imap (fun i a => if bool_decide (names !! i = Some gc) then x else a) l.

Lemma inserted_at_column {A} gc names (x : A) l :
  foldl (fun l i => <[i := x]> l) l (indexes_from 0 (fun p => bool_decide (p = gc)) names) = at_column gc names x l.
Proof.
  assert (Hins : forall (js : list nat) (l : list A) (i : nat), foldl (fun l i => <[i := x]> l) l js !! i = (fun a => if bool_decide (i ∈ js) then x else a) <$> l !! i).
  { clear. intros js. induction js as [|j js IH]; intros l i; cbn [foldl].
    - by destruct (l !! i).
    - rewrite IH. destruct (decide (i = j)) as [->|Hne].
      + rewrite (bool_decide_eq_true_2 (j ∈ j :: js)) by left. destruct (l !! j) as [a|] eqn:Ha.
        * rewrite list_lookup_insert_eq by (by eapply lookup_lt_Some). cbn. by destruct (bool_decide _).
        * rewrite list_insert_ge by (by apply lookup_ge_None). by rewrite Ha.
      + rewrite list_lookup_insert_ne by done. destruct (l !! i); [|done]. cbn. f_equal.
        by rewrite (bool_decide_ext (i ∈ js) (i ∈ j :: js)) by (rewrite elem_of_cons; naive_solver). }
  apply list_eq. intros i. rewrite Hins. unfold at_column. rewrite list_lookup_imap. destruct (l !! i) as [a|]; [|done]. cbn. f_equal.
  rewrite (bool_decide_ext _ (names !! i = Some gc)); [done|]. rewrite elem_of_indexes_from. split.
  - intros (j & y & -> & Hj & Hy). apply bool_decide_eq_true_1 in Hy as ->. done.
  - intros Hi. exists i, gc. split_and!; [done|done|]. by apply bool_decide_eq_true_2.
Qed.

Lemma length_inserted {A} (x : A) js l : length (foldl (fun l i => <[i := x]> l) l js) = length l.
Proof. revert l. induction js as [|j js IH]; intros l; cbn; [done|]. by rewrite IH, length_insert. Qed.

Lemma set_args_inserted js x args :
  Forall (fun i => i < length args)%nat js -> set_args js x args = Some (foldl (fun l i => <[i := x]> l) args js).
Proof.
  intros Hall. revert args Hall. induction js as [|i js IH]; intros args Hall; cbn [set_args foldl]; [done|].
  apply Forall_cons in Hall as [Hi Hall]. rewrite (proj2 (Nat.ltb_lt _ _) Hi). apply IH. by rewrite length_insert.
Qed.

Lemma set_column_inserted c x rows :
  Forall (fun row => c < length row)%nat rows -> set_column c x rows = Some ((fun row => <[c := x]> row) <$> rows).
Proof.
  intros Hall. induction Hall as [|row rows Hc _ IH]; cbn [set_column]; [done|]. rewrite (proj2 (Nat.ltb_lt _ _) Hc), IH. done.
Qed.

Lemma set_columns_inserted cs x rows :
  Forall (fun row => Forall (fun c => c < length row)%nat cs) rows ->
  set_columns cs x rows = Some ((fun row => foldl (fun l i => <[i := x]> l) row cs) <$> rows).
Proof.
  revert rows. induction cs as [|c cs IH]; intros rows Hall; cbn; [by rewrite list_fmap_id|].
  rewrite set_column_inserted by (eapply Forall_impl; [exact Hall|]; intros row Hr; by inversion Hr). cbn.
  rewrite IH, <- list_fmap_compose; [done|]. apply Forall_fmap. eapply Forall_impl; [exact Hall|].
  intros row Hr. apply Forall_cons in Hr as [_ Hr]. eapply Forall_impl; [exact Hr|]. intros i Hi. simpl. by rewrite length_insert.
Qed.

Lemma indexes_bounded (gc : string) names n : (length names <= n)%nat -> Forall (fun i => i < n)%nat (indexes_from 0 (fun p => bool_decide (p = gc)) names).
Proof.
  intros Hn. apply Forall_forall. intros i (j & x & -> & Hj%lookup_lt_Some & _)%elem_of_indexes_from. lia.
Qed.

Section Routing.
Context `{MapRange}.
Variable parse : string -> option node.
Variable answer : list db_event -> db_result.
Implicit Types s : sys TC9Proxy db_event.

Lemma prepare_all_run realms query s :
  faults s = [] -> (prepare_all realms query : go TC9Proxy db_event proxy_err unit) s = (Ok tt, Sys (st s) [] (events s ++ ((fun r => Prepared r query) <$> realms))).
Proof.
  revert s. induction realms as [|r realms IH]; intros s Hs; cbn [prepare_all].
  - cbn. rewrite app_nil_r, <- Hs. by destruct s.
  - unfold mbind, go_bind, publish, ext. rewrite Hs, IH by done. cbn. by rewrite <- app_assoc.
Qed.

(** A prepared statement knows every realm and what the finder found. *)
Definition prepared (query : string) (q : stmt) (ctx : StmtWithParsedDataContext) (connections : gmap u32 unit) : Prop :=
  let gc := char_guid_column (stmt_table q) in
  Stmts ctx = connections /\ IsDummy ctx = bool_decide (query = DummyPreparedStmt) /\
  InputGUIDIndexes (GuidFinder ctx) = indexes_from 0 (fun p => bool_decide (p = gc)) (stmt_params q) /\
  OutputGUIDIndexes (GuidFinder ctx) = indexes_from 0 (fun p => bool_decide (p = gc)) (stmt_fields q) /\
  IsSelectStmt (GuidFinder ctx) = is_select q.

Lemma prepare_run query n q s :
  parse query = Some n -> parses q n -> faults s = [] -> connectionByRealm (st s) <> ∅ ->
  char_guid_column (stmt_table q) <> "" -> Forall unqualified (stmt_params q) -> Forall unqualified (stmt_fields q) ->
  exists ctx realms, HandleStmtPrepare parse query s = (Ok ctx, Sys (st s) [] (events s ++ ((fun r => Prepared r query) <$> realms))) /\
    prepared query q ctx (connectionByRealm (st s)).
Proof.
  intros Hparse Hn Hs Hne Hgc Hp Ho. destruct (finder_found q n Hn) as (v & Hv & Ht & Hin & Hout & Hsel & Hi & Hoi).
  unfold HandleStmtPrepare. rewrite Hparse. cbn [not_nil]. rewrite (bind_run (mret n) _ s n s eq_refl), Hv. cbn [deref].
  rewrite (bind_run (mret v) _ s v s eq_refl).
  rewrite (bind_run (gets id) _ s (st s) s eq_refl), (bind_run calls _ s (length (events s)) s eq_refl).
  rewrite (bind_run _ _ _ _ _ (prepare_all_run _ query s Hs)). unfold id.
  rewrite (bool_decide_eq_false_2 (connectionByRealm (st s) = ∅)) by exact Hne. cbn [guard_err].
  eexists _, _. split; [reflexivity|]. rewrite <- Hin in Hp. rewrite <- Hout in Ho.
  destruct (filled_indexes v (length (events s)) (stmt_table q) Ht Hgc Hi Hoi Hp Ho) as (E1 & E2 & E3).
  unfold prepared. cbn. rewrite E1, E2, E3, Hin, Hout. done.
Qed.

Lemma realm_small g : wrap32 (GetRealmID g) = GetRealmID g.
Proof. apply wrap_small. pose proof (wrap_range 16 (Z.land (Z.shiftr (ObjectGuid.guid g) 32) 0xFFFF)). unfold GetRealmID. word_lia. Qed.
Lemma counter_small g : wrap32 (GetCounter g) = GetCounter g.
Proof. apply wrap_small. unfold GetCounter. destruct (HasEntry _); apply wrap_range; lia. Qed.

Lemma at_column_none {A} gc names (x : A) l : gc ∉ names -> at_column gc names x l = l.
Proof.
  intros Hgc. apply list_eq. intros i. unfold at_column. rewrite list_lookup_imap. destruct (l !! i); [|done]. cbn.
  rewrite bool_decide_eq_false_2; [done|]. intros Hi. apply Hgc. by eapply list_elem_of_lookup_2.
Qed.
Lemma indexes_nil (gc : string) names : indexes_from 0 (fun p => bool_decide (p = gc)) names = [] <-> gc ∉ names.
Proof.
  split.
  - intros E [i Hi]%list_elem_of_lookup. assert (i ∈ indexes_from 0 (fun p => bool_decide (p = gc)) names) as Hin.
    { apply elem_of_indexes_from. exists i, gc. split_and!; [done|done|by apply bool_decide_eq_true_2]. }
    rewrite E in Hin. by apply elem_of_nil in Hin.
  - intros Hgc. destruct (indexes_from 0 _ names) as [|i js] eqn:E; [done|].
    assert (i ∈ indexes_from 0 (fun p => bool_decide (p = gc)) names) as Hin by (rewrite E; left).
    apply elem_of_indexes_from in Hin as (j & x & _ & Hj & Hx). apply bool_decide_eq_true_1 in Hx as ->.
    destruct Hgc. by eapply list_elem_of_lookup_2.
Qed.

(** What the guid parameters of a prepared statement say. *)
Lemma extract_run query q ctx connections g args s :
  prepared query q ctx connections -> let gc := char_guid_column (stmt_table q) in
  GetRealmID (New g) <> 0 -> length args = length (stmt_params q) -> gc ∈ stmt_params q ->
  (forall i, stmt_params q !! i = Some gc -> args !! i = Some (ArgU64 g)) ->
  extractGUIDAndRealmID ctx args s =
    (Ok (GetRealmID (New g), g, GetCounter (New g), at_column gc (stmt_params q) (ArgU32 (GetCounter (New g))) args), s).
Proof.
  intros (_ & _ & Hi & _) gc Hr Hlen Hgc Hargs. unfold extractGUIDAndRealmID.
  assert (Hset : set_args (InputGUIDIndexes (GuidFinder ctx)) (ArgU32 (GetCounter (New g))) args
    = Some (at_column gc (stmt_params q) (ArgU32 (GetCounter (New g))) args)).
  { rewrite Hi, set_args_inserted by (apply indexes_bounded; lia). by rewrite inserted_at_column. }
  destruct (InputGUIDIndexes (GuidFinder ctx)) as [|i js] eqn:E.
  { by destruct (proj1 (indexes_nil gc (stmt_params q)) (eq_sym Hi)). }
  assert (Ha : args !! i = Some (ArgU64 g)).
  { apply Hargs. assert (i ∈ indexes_from 0 (fun p => bool_decide (p = gc)) (stmt_params q)) as Hin by (unfold gc; rewrite <- Hi; left).
    apply elem_of_indexes_from in Hin as (j & x & -> & Hj & Hx). by apply bool_decide_eq_true_1 in Hx as <-. }
  erewrite bind_run; [|rewrite Ha; cbn [deref]; rewrite (bind_run (mret (ArgU64 g)) _ s (ArgU64 g) s eq_refl); cbv zeta; cbn [arg_guid];
    rewrite counter_small, Hset, realm_small; reflexivity].
  cbv beta iota. unfold mbind, go_bind, gets, mret, go_ret. by destruct (Z.eqb_spec (GetRealmID (New g)) 0).
Qed.

End Routing.

(** ** Transactions with one realm *)
Inductive command :=
| CQuery (query : string)
| CPrepare (query : string)
| CExecute (ctx : option StmtWithParsedDataContext) (query : string) (args : list arg)
| CClose (ctx : option StmtWithParsedDataContext)
| CFieldList (table fieldWildcard : string).

Definition ends_transaction (q : string) : bool := bool_decide (q = CommitTransaction \/ q = RollbackTransaction).

(** Whether the client, and a connection, is between the start of a
    transaction and its end. *)
Definition client_step (b : bool) (c : command) : bool :=
  match c with
  | CQuery q =>
    let q := TrimSpace (ToUpper q) in
    if bool_decide (q = StartTransaction) then true else if ends_transaction q then false else b
  | _ => b
  end.
Definition client_in_tx (cs : list command) : bool := foldl client_step false cs.

Definition conn_step (r : u32) (b : bool) (e : db_event) : bool :=
  match e with
  | Executed c q => if negb (c =? r) then b else if bool_decide (q = StartTransaction) then true else if ends_transaction q then false else b
  | _ => b
  end.
Definition conn_in_tx (r : u32) (evs : list db_event) : bool := foldl (conn_step r) false evs.
#[local] Arguments conn_in_tx : simpl never.

Section Transactions.
Context `{MapRange}.
Variable parse : string -> option node.
Variable answer : list db_event -> db_result.
Variable r : u32.

Abbreviation M A := (go TC9Proxy db_event proxy_err A).
Implicit Types s : sys TC9Proxy db_event.

Definition handle_command (c : command) : M unit :=
  match c with
  | CQuery q => HandleQuery answer q ;; mret tt
  | CPrepare q => HandleStmtPrepare parse q ;; mret tt
  | CExecute ctx q args => HandleStmtExecute answer ctx q args ;; mret tt
  | CClose ctx => HandleStmtClose ctx
  | CFieldList t w => HandleFieldList t w
  end.

(** The commands of a client in order; errors are answers, a panic ends the process. *)
Fixpoint run_commands (cs : list command) (s : sys TC9Proxy db_event) : sys TC9Proxy db_event :=
  match cs with
  | [] => s
  | c :: cs => match handle_command c s with (Panic, s') => s' | (_, s') => run_commands cs s' end
  end.

(** The statements a client executes are prepared on the connections there are. *)
Definition command_ok (c : command) : Prop :=
  match c with CExecute (Some ctx) _ _ => Stmts ctx = {[r := tt]} | _ => True end.

Record agrees (b : bool) (s : sys TC9Proxy db_event) : Prop := {
  ag_conn : connectionByRealm (st s) = {[r := tt]};
  ag_healthy : faults s = [];
  ag_in_tx : transactionState (st s) <> TransactionRequested ->
    conn_in_tx r (events s) = bool_decide (transactionState (st s) = TransactionInProgress);
  ag_client : b = negb (bool_decide (transactionState (st s) = TransactionNone))
}.

(** [s'] follows [s] and agrees with the client; the statements in between
    were executed on the connection when it was as the client was before; [w]
    is their text. *)
Definition follows (w : option string) (b b' : bool) (s s' : sys TC9Proxy db_event) : Prop :=
  agrees b' s' /\ exists evs, events s' = events s ++ evs /\
    forall pre c q args post, evs = pre ++ StmtExecuted c q args :: post -> w = Some q /\ c = r /\ conn_in_tx r (events s ++ pre) = b.

Lemma follows_refl w b s : agrees b s -> follows w b b s s.
Proof. intros Hs. split; [done|]. exists []. rewrite app_nil_r. split; [done|]. by intros []. Qed.

Lemma conn_single realm s : connectionByRealm (st s) = {[r := tt]} -> ConnByRealm realm s = (Ok (X:=proxy_err) (Some r), s).
Proof.
  intros Hc. unfold ConnByRealm, mbind, go_bind, gets, id, calls, mret, go_ret. rewrite Hc.
  assert (go_range (length (events s)) ({[r := tt]} : gmap Z unit) = [(r, tt)]) as ->
    by (apply Permutation_singleton_r; by rewrite go_range_perm, map_to_list_singleton).
  destruct (decide (r = realm)) as [<-|Hne]; [by rewrite lookup_singleton_eq|by rewrite lookup_singleton_ne].
Qed.

Lemma publish_run e s : faults s = [] -> publish ErrDB e s = (Ok (X:=proxy_err) tt, Sys (st s) [] (events s ++ [e])).
Proof. intros Hs. unfold publish, ext. rewrite Hs. cbn. by rewrite Hs. Qed.

Lemma Execute_run q s :
  faults s = [] -> Execute answer (Some r) q s = (Ok (answer (events s ++ [Executed r q])), Sys (st s) [] (events s ++ [Executed r q])).
Proof.
  intros Hs. unfold Execute. cbn [deref]. rewrite (bind_run (mret r) _ s r s eq_refl), (bind_run _ _ _ _ _ (publish_run _ s Hs)). done.
Qed.

Lemma conn_in_tx_snoc evs e : conn_in_tx r (evs ++ [e]) = conn_step r (conn_in_tx r evs) e.
Proof. unfold conn_in_tx. by rewrite foldl_app. Qed.

(** One more call that is not a statement. *)
Lemma follows_call w b b' s p e :
  match e with StmtExecuted _ _ _ => False | _ => True end -> agrees b' (Sys p [] (events s ++ [e])) ->
  follows w b b' s (Sys p [] (events s ++ [e])).
Proof.
  intros He Ha. split; [done|]. exists [e]. split; [done|]. intros [|x pre] c q args post E; simplify_eq/=; [done|].
  by destruct pre.
Qed.

Lemma HandleQuery_follows w q s b :
  agrees b s -> follows w b (client_step b (CQuery q)) s (HandleQuery answer q s).2.
Proof.
  intros [Hc Hs Htx Hb]. unfold HandleQuery, client_step. cbv zeta. set (q' := TrimSpace (ToUpper q)).
  rewrite (bind_run _ _ _ _ _ (conn_single 0 s Hc)).
  destruct (decide (q' = StartTransaction)) as [Estart|Estart];
    [rewrite !(bool_decide_eq_true_2 _ Estart)|rewrite !(bool_decide_eq_false_2 _ Estart)].
  - cbn. split; [constructor; cbn; [done|done|by intros []|done]|]. exists []. split; [by rewrite app_nil_r|]. by intros [].
  - unfold ends_transaction. destruct (decide (q' = CommitTransaction \/ q' = RollbackTransaction)) as [Eend|Eend];
      [rewrite !(bool_decide_eq_true_2 _ Eend)|rewrite !(bool_decide_eq_false_2 _ Eend)].
    + set (s1 := Sys (set_transactionState TransactionNone (st s)) (faults s) (events s)).
      assert (Hc1 : connectionByRealm (st s1) = {[r := tt]}) by done.
      unfold mbind at 1, go_bind at 1. unfold mbind at 1, go_bind at 1. cbn [modify]. fold s1.
      unfold mbind at 1, go_bind at 1, gets, id. rewrite (conn_single _ s1 Hc1), (Execute_run q' s1 Hs). cbn.
      apply follows_call; [done|]. constructor; cbn; [done|done| |done]. intros _. rewrite conn_in_tx_snoc. cbn.
      rewrite Z.eqb_refl. cbn. rewrite bool_decide_eq_false_2 by done. unfold ends_transaction. by rewrite bool_decide_eq_true_2.
    + unfold mbind at 1, go_bind at 1. cbn [mret go_ret]. unfold mret, go_ret. rewrite (Execute_run q' s Hs). cbn.
      apply follows_call; [done|]. constructor; cbn; [done|done| |done]. intros Hst. rewrite conn_in_tx_snoc, Htx by done. cbn.
      rewrite Z.eqb_refl. cbn. rewrite bool_decide_eq_false_2 by done. unfold ends_transaction. by rewrite bool_decide_eq_false_2.
Qed.

Definition quiet (e : db_event) : Prop := match e with Executed _ _ | StmtExecuted _ _ _ => False | _ => True end.

Lemma follows_quiet w b s evs : agrees b s -> Forall quiet evs -> follows w b b s (Sys (st s) [] (events s ++ evs)).
Proof.
  intros [Hc Hs Htx Hb] Hq. split.
  - constructor; cbn; [done|done| |done]. intros Hst. rewrite <- Htx by done. unfold conn_in_tx. rewrite foldl_app.
    generalize (foldl (conn_step r) false (events s)). clear -Hq. induction Hq as [|e evs He _ IH]; intros x; cbn; [done|]. rewrite IH. by destruct e.
  - exists evs. split; [done|]. intros pre c q args post ->. apply Forall_app in Hq as [_ Hq]. by inversion Hq.
Qed.

Lemma HandleStmtPrepare_follows w q s b : agrees b s -> follows w b b s (HandleStmtPrepare parse q s).2.
Proof.
  intros Ha. pose proof (ag_healthy _ _ Ha) as Hs. unfold HandleStmtPrepare.
  destruct (parse q) as [n|]; [|by apply follows_refl]. cbn [not_nil]. rewrite (bind_run (mret n) _ s n s eq_refl).
  destruct (Accept n NewCharGUIDFinder) as [v|]; [|by apply follows_refl]. cbn [deref]. rewrite (bind_run (mret v) _ s v s eq_refl).
  rewrite (bind_run (gets id) _ s (st s) s eq_refl), (bind_run calls _ s (length (events s)) s eq_refl).
  rewrite (bind_run _ _ _ _ _ (prepare_all_run _ q s Hs)).
  assert (Forall quiet ((fun r => Prepared r q) <$> (go_range (length (events s)) (connectionByRealm (id (st s)))).*1))
    by (apply Forall_fmap, Forall_true; done).
  unfold mbind, go_bind, guard_err. destruct (bool_decide _); by apply follows_quiet.
Qed.

Lemma close_all_run realms s :
  faults s = [] -> (close_all realms : M unit) s = (Ok tt, Sys (st s) [] (events s ++ (StmtClosed <$> realms))).
Proof.
  revert s. induction realms as [|x realms IH]; intros s Hs; cbn [close_all].
  - cbn. rewrite app_nil_r, <- Hs. by destruct s.
  - rewrite (bind_run _ _ _ _ _ (publish_run _ s Hs)), IH by done. cbn. by rewrite <- app_assoc.
Qed.

Lemma HandleStmtClose_follows w ctx s b : agrees b s -> follows w b b s (HandleStmtClose ctx s).2.
Proof.
  intros Ha. unfold HandleStmtClose. destruct ctx as [ctx|]; [|by apply follows_refl]. cbn [not_nil].
  rewrite (bind_run (mret ctx) _ s ctx s eq_refl), (bind_run calls _ s (length (events s)) s eq_refl).
  rewrite close_all_run by apply Ha. apply follows_quiet; [done|]. by apply Forall_fmap, Forall_true.
Qed.

Lemma HandleFieldList_follows w t wc s b : agrees b s -> follows w b b s (HandleFieldList t wc s).2.
Proof.
  intros Ha. unfold HandleFieldList. rewrite (bind_run _ _ _ _ _ (conn_single 0 s (ag_conn _ _ Ha))). cbn [deref].
  rewrite (bind_run (mret r) _ s r s eq_refl), publish_run by apply Ha. by apply follows_quiet; [|repeat constructor].
Qed.

Lemma extract_reads ctx args s : exists o, extractGUIDAndRealmID ctx args s = (o, s).
Proof.
  unfold extractGUIDAndRealmID, mbind, go_bind, mret, go_ret, gets, deref.
  destruct (InputGUIDIndexes (GuidFinder ctx)); [by eexists|]. destruct (args !! _); [|by eexists].
  unfold mret, go_ret. cbv beta iota zeta. destruct (set_args _ _ _); by eexists.
Qed.

(** Starting a transaction that was asked for. *)
Lemma start_follows w args ctx realm s b :
  agrees b s -> let res := startTransactionIfNeeded answer args ctx realm s in
  follows w b b s res.2 /\ (run_ok res -> transactionState (st res.2) <> TransactionRequested).
Proof.
  intros Ha res. pose proof Ha as [Hc Hs Htx Hb].
  destruct (decide (transactionState (st s) = TransactionRequested)) as [Hreq|Hreq].
  - set (s1 := Sys (set_transactionState TransactionInProgress (st s)) [] (events s ++ [Executed r StartTransaction])).
    assert (Hstart : start_transaction answer s = (Ok (X:=proxy_err) tt, s1)).
    { unfold start_transaction. rewrite (bind_run _ _ _ _ _ (conn_single 0 s Hc)). unfold mbind, go_bind, wrap_err. by rewrite Execute_run. }
    assert (Hf : forall p, connectionByRealm p = {[r := tt]} -> transactionState p = TransactionInProgress ->
      follows w b b s (Sys p [] (events s ++ [Executed r StartTransaction])) /\ transactionState p <> TransactionRequested).
    { intros p Hp Hst. split; [|by rewrite Hst]. apply follows_call; [done|]. constructor; cbn; [done|done| |].
      - intros _. rewrite conn_in_tx_snoc, Hst. cbn. by rewrite Z.eqb_refl.
      - rewrite Hb, Hst, Hreq. done. }
    unfold res, startTransactionIfNeeded. rewrite (bind_run (gets id) _ s (st s) s eq_refl). unfold id.
    rewrite (bool_decide_eq_true_2 _ Hreq). destruct (IsDummy ctx); cbn [andb]; rewrite (bind_run _ _ _ _ _ Hstart).
    + destruct (args !! 0%nat) as [a|]; [|split; [by apply Hf|by intros (? & [=])]]. cbn [deref].
      rewrite (bind_run (mret a) _ s1 a s1 eq_refl). destruct a; cbn; (split; [by apply Hf|done]).
    + split; [by apply Hf|done].
  - assert (res = (Ok tt, s)) as ->; [|by split; [apply follows_refl|]].
    unfold res, startTransactionIfNeeded. rewrite (bind_run (gets id) _ s (st s) s eq_refl). unfold id.
    rewrite (bool_decide_eq_false_2 _ Hreq). by rewrite andb_false_r.
Qed.

Lemma update_reads res ctx g s : exists o, (updateOutputGUIDs res ctx g : M _) s = (o, s).
Proof.
  unfold updateOutputGUIDs. destruct (_ && _); [|by eexists]. unfold mbind, go_bind, deref, mret, go_ret.
  destruct res as [rows|]; [|by eexists]. unfold mret, go_ret. destruct (set_columns _ _ _); by eexists.
Qed.

Lemma HandleStmtExecute_follows ctx q args s b :
  agrees b s -> command_ok (CExecute ctx q args) -> follows (Some q) b b s (HandleStmtExecute answer ctx q args s).2.
Proof.
  intros Ha Hok. unfold HandleStmtExecute. destruct ctx as [ctx|]; [|by apply follows_refl]. cbn [not_nil].
  rewrite (bind_run (mret ctx) _ s ctx s eq_refl). destruct (extract_reads ctx args s) as [o E].
  unfold mbind at 1, go_bind at 1. rewrite E. destruct o as [[[[realm raw] counter] args']|e|]; [|by apply follows_refl..].
  destruct (start_follows (Some q) args' ctx realm s b Ha) as [Hf Hreq].
  unfold mbind at 1, go_bind at 1. destruct (startTransactionIfNeeded answer args' ctx realm s) as [[u|e|] s1]; [|exact Hf..].
  assert (Hst : transactionState (st s1) <> TransactionRequested) by (apply Hreq; by exists u). clear Hreq.
  destruct (IsDummy ctx); [exact Hf|]. unfold mbind at 1, go_bind at 1. cbn in Hok. rewrite Hok.
  destruct (decide (r = realm)) as [<-|Hne]; [rewrite lookup_singleton_eq|rewrite lookup_singleton_ne by done; exact Hf].
  cbn [not_nil]. unfold mret at 1, go_ret at 1. destruct Hf as [Ha1 (evs & Hev & Hstmts)]. cbn [snd] in *.
  rewrite (bind_run _ _ _ _ _ (publish_run _ s1 (ag_healthy _ _ Ha1))). unfold last_result. unfold mbind at 1, go_bind at 1.
  set (s2 := Sys _ _ _). destruct (update_reads (answer (events s2)) ctx raw s2) as [o2 ->]. cbn [snd].
  destruct Ha1 as [Hc Hs Htx Hb]. split.
  - constructor; [done|done| |done]. intros _. unfold s2. cbn [events st]. rewrite conn_in_tx_snoc. cbn. by apply Htx.
  - exists (evs ++ [StmtExecuted r q args']). split; [unfold s2; cbn [events]; by rewrite Hev, <- app_assoc|].
    intros pre c q' args'' post Heq. destruct post as [|x post _] using rev_ind.
    + apply app_inj_tail in Heq as [<- [= <- <- <-]]. split_and!; [done|done|]. rewrite <- Hev, Htx by done.
      rewrite Hb. by destruct (transactionState (st s1)).
    + rewrite app_comm_cons, app_assoc in Heq. apply app_inj_tail in Heq as [-> _]. by eapply Hstmts.
Qed.

Definition text_of_command (c : command) : option string := match c with CExecute _ q _ => Some q | _ => None end.

Lemma command_follows c s b :
  agrees b s -> command_ok c -> follows (text_of_command c) b (client_step b c) s (handle_command c s).2.
Proof.
  intros Ha Hok.
  assert (Hdrop : forall A (m : M A), ((m ;; mret tt) s).2 = (m s).2) by (intros A m; unfold mbind, go_bind; by destruct (m s) as [[?|?|] ?]).
  destruct c; cbn [handle_command text_of_command client_step]; rewrite ?Hdrop.
  - by apply HandleQuery_follows.
  - by apply HandleStmtPrepare_follows.
  - by apply HandleStmtExecute_follows.
  - by apply HandleStmtClose_follows.
  - by apply HandleFieldList_follows.
Qed.

Lemma run_grows cs s b : agrees b s -> Forall command_ok cs -> exists rest, events (run_commands cs s) = events s ++ rest.
Proof.
  intros Ha Hok. revert b s Ha. induction Hok as [|c cs Hc _ IH]; intros b s Ha; cbn [run_commands]; [exists []; by rewrite app_nil_r|].
  destruct (command_follows c s b Ha Hc) as [Ha1 (evs & Hevs & _)].
  destruct (handle_command c s) as [[u|e|] s1]; cbn [snd] in *; [| |by exists evs].
  all: destruct (IH _ s1 Ha1) as [rest ->]; rewrite Hevs, <- app_assoc; by eexists.
Qed.

(** C19: with one realm, a client's transactions are the database's: whatever
    commands arrive, each prepared statement runs on the connection inside a
    transaction exactly when the client sent it inside one, although the proxy
    starts a transaction only with the first statement. *)
Theorem single_realm_transactions cs s pre c q args post :
  agrees false s -> Forall command_ok cs ->
  events (run_commands cs s) = events s ++ pre ++ StmtExecuted c q args :: post ->
  c = r /\ exists cs1 ctx args0 cs2, cs = cs1 ++ CExecute ctx q args0 :: cs2 /\
    conn_in_tx r (events s ++ pre) = client_in_tx cs1.
Proof.
  unfold client_in_tx. generalize false. intros b Ha Hok. revert b s pre Ha.
  induction Hok as [|cmd cs Hcmd Hcs IH]; intros b s pre Ha Hev; cbn [run_commands] in Hev.
  { exfalso. apply (f_equal length) in Hev. rewrite !length_app in Hev. cbn in Hev. lia. }
  destruct (command_follows cmd s b Ha Hcmd) as [Ha1 (evs & Hevs & Hstmts)].
  assert (Hlater : forall pre', events (run_commands cs (handle_command cmd s).2) = events (handle_command cmd s).2 ++ pre' ++ StmtExecuted c q args :: post ->
    pre = evs ++ pre' -> c = r /\ exists cs1 ctx args0 cs2, cmd :: cs = cs1 ++ CExecute ctx q args0 :: cs2 /\
      conn_in_tx r (events s ++ pre) = foldl client_step b cs1).
  { intros pre' Hrun ->. destruct (IH _ _ pre' Ha1 Hrun) as (-> & cs1 & ctx & args0 & cs2 & -> & Hin). split; [done|].
    exists (cmd :: cs1), ctx, args0, cs2. split; [done|]. cbn. by rewrite <- Hin, Hevs, <- app_assoc. }
  assert (Hnow : forall post', evs = pre ++ StmtExecuted c q args :: post' -> c = r /\ exists cs1 ctx args0 cs2,
      cmd :: cs = cs1 ++ CExecute ctx q args0 :: cs2 /\ conn_in_tx r (events s ++ pre) = foldl client_step b cs1).
  { intros post' Heq. destruct (Hstmts _ _ _ _ _ Heq) as (Hw & -> & Hin). split; [done|].
    destruct cmd as [| |ctx q0 args0| |]; try done. injection Hw as ->. by exists [], ctx, args0, cs. }
  destruct (handle_command cmd s) as [[u|e|] s1] eqn:Erun; cbn [snd] in *;
    [| |apply (Hnow post); rewrite Hevs in Hev; by apply app_inv_head in Hev].
  all: destruct (run_grows cs s1 _ Ha1) as [rest Hrest]; [done|]; rewrite Hrest, Hevs, <- app_assoc in Hev;
    apply app_inv_head, app_eq_app in Hev as (k & [[-> Hk]|[-> Hk]]);
    [destruct k as [|x k]; cbn in Hk; [|injection Hk as <- _; by apply (Hnow k)]|by apply (Hlater k); [rewrite Hrest, Hk|]].
  all: apply (Hlater []); [by rewrite Hrest, <- Hk|by rewrite !app_nil_r].
Qed.
End Transactions.

(** ** Evaluations *)
#[local] Existing Instance map_range_canonical.

Definition proxy_of (realms : list u32) : sys TC9Proxy db_event := Sys (NewTC9Proxy (list_to_map ((fun r => (r, tt)) <$> realms))) [] [].
Definition ann : u64 := ObjectGuid.guid (NewCrossrealmPlayerGUID 2 42).
Definition bob : u64 := ObjectGuid.guid (NewCrossrealmPlayerGUID 2 43).
Definition name_query : string := "SELECT guid, name FROM characters WHERE guid = ?".
Definition name_stmt : stmt := SSelect ["guid"; "name"] "characters" (CEq "guid").
Definition name_node : node := Node SelectStmt [from_node "characters"; cond_node (CEq "guid"); field_list ["guid"; "name"]].
Definition parse_as (n : node) : string -> option node := fun _ => Some n.
Definition one_row : list db_event -> db_result := fun _ => Some [[FieldOther 42; FieldOther 7]].

Lemma name_parses : parses name_stmt name_node.
Proof. constructor. cbn. left. Qed.


Definition run_all (n : node) (realms : list u32) (cs : StmtWithParsedDataContext -> list command) : list db_event :=
  match HandleStmtPrepare (parse_as n) name_query (proxy_of realms) with
  | (Ok ctx, s) => drop (length (events s)) (events (run_commands (parse_as n) one_row (cs ctx) s))
  | _ => []
  end.
Definition prepared_name : StmtWithParsedDataContext :=
  {| Stmts := {[1 := tt]}; IsDummy := false;
     GuidFinder := FillInGUIDIndexes 0 (default NewCharGUIDFinder (Accept name_node NewCharGUIDFinder)) |}.

Lemma single_realm_transactions_witness :
  let cs := [CQuery "start transaction"; CExecute (Some prepared_name) name_query [ArgU32 42]; CQuery "commit"] in
  let s := proxy_of [1] in
  1 = 1 /\ exists cs1 ctx args0 cs2, cs = cs1 ++ CExecute ctx name_query args0 :: cs2 /\
    conn_in_tx 1 (events s ++ [Executed 1 StartTransaction]) = client_in_tx cs1.
Proof.
  intros cs s. apply (single_realm_transactions (parse_as name_node) one_row 1 cs s [Executed 1 StartTransaction]
    1 name_query [ArgU32 42] [Executed 1 CommitTransaction]).
  - by constructor.
  - repeat constructor.
  - vm_compute. reflexivity.
Defined.

(** With more than one realm a transaction is started on the connection of
    realm 0, or on any when there is none, and ended on the connection of the
    statement's realm: the statement is not in a transaction, and the other
    connection stays in one. *)
Example transaction_split :
  run_all name_node [0; 1; 2] (fun ctx => [CQuery "START TRANSACTION"; CExecute (Some ctx) name_query [ArgU64 ann]; CQuery "COMMIT"])
  = [Executed 0 StartTransaction; StmtExecuted 2 name_query [ArgU32 42]; Executed 2 CommitTransaction].
Proof. vm_compute. reflexivity. Qed.

(** A text query between the start of a transaction and its first prepared
    statement runs outside the transaction. *)
Example text_query_outside :
  run_all name_node [1] (fun ctx => [CQuery "START TRANSACTION"; CQuery "DELETE FROM CORPSE"; CExecute (Some ctx) name_query [ArgU32 42]; CQuery "COMMIT"])
  = [Executed 1 "DELETE FROM CORPSE"; Executed 1 StartTransaction; StmtExecuted 1 name_query [ArgU32 42]; Executed 1 CommitTransaction].
Proof. vm_compute. reflexivity. Qed.

(** The text of a query is changed to upper case, its literals too. *)
Example literals_upper_cased :
  run_all name_node [1] (fun _ => [CQuery "UPDATE characters SET name = 'Bob' WHERE guid = 5"])
  = [Executed 1 "UPDATE CHARACTERS SET NAME = 'BOB' WHERE GUID = 5"].
Proof. vm_compute. reflexivity. Qed.

(** Two characters in one statement become the first one. *)
Example second_guid_lost :
  run_all (Node OtherNode [from_node "characters"; cond_node (CAnd (CEq "guid") (CEq "guid"))]) [1; 2]
    (fun ctx => [CExecute (Some ctx) name_query [ArgU64 ann; ArgU64 bob]])
  = [StmtExecuted 2 name_query [ArgU32 42; ArgU32 42]].
Proof. vm_compute. reflexivity. Qed.

(** A guid in a signed parameter is replaced by 0. *)
Example signed_guid_lost :
  run_all name_node [1; 2] (fun ctx => [CExecute (Some ctx) name_query [ArgInt 42]]) = [StmtExecuted 1 name_query [ArgU32 0]].
Proof. vm_compute. reflexivity. Qed.

(** The answer's columns are counted by the names in the list: in
    SELECT COUNT of everything, guid the count is overwritten with the guid, and in
    SELECT CONCAT(a, b), guid the column does not exist. *)
Definition count_node : node :=
  Node SelectStmt [from_node "characters"; cond_node (CEq "guid"); Node FieldList [Node OtherNode [Node OtherNode []]; Node OtherNode [column_expr "guid"]]].
Definition concat_node : node :=
  Node SelectStmt [from_node "characters"; cond_node (CEq "guid");
    Node FieldList [Node OtherNode [Node OtherNode [column_expr "a"; column_expr "b"]]; Node OtherNode [column_expr "guid"]]].
Definition execute_on (n : node) : outcome proxy_err db_result :=
  match HandleStmtPrepare (parse_as n) name_query (proxy_of [1; 2]) with
  | (Ok ctx, s) => (HandleStmtExecute one_row (Some ctx) name_query [ArgU64 ann] s).1
  | _ => Panic
  end.
Example count_overwritten : execute_on count_node = Ok (Some [[FieldUnsigned ann (fmt_d ann); FieldOther 7]]).
Proof. vm_compute. reflexivity. Qed.
Example expression_panics : execute_on concat_node = Panic.
Proof. vm_compute. reflexivity. Qed.

(** A failed COMMIT leaves the connection in the transaction, the proxy not. *)
Example failed_commit :
  let s := run_commands (parse_as name_node) one_row [CQuery "START TRANSACTION"; CExecute (Some prepared_name) name_query [ArgU32 42]] (proxy_of [1]) in
  let s' := (HandleQuery one_row "COMMIT" (Sys (st s) [true] (events s))).2 in
  transactionState (st s') = TransactionNone /\ conn_in_tx 1 (events s') = true.
Proof. split; vm_compute; reflexivity. Qed.

(** A statement that one realm refuses stays prepared in the others. *)
Example failed_prepare_leaks :
  let '(o, s) := HandleStmtPrepare (parse_as name_node) name_query (Sys (st (proxy_of [1; 2])) [false; true] []) in
  o = Fail ErrDB /\ exists r, events s = [Prepared r name_query].
Proof. split; [reflexivity|]. eexists. reflexivity. Qed.
